(* ===== verification/_CoqProject ===== *)
-Q . S2P
Prelude.v
GoFloat.v
FloatExact.v
GoHeap.v
Utils.v
EventQueue.v
RunManager.v
Engine.v
Policy.v
Config.v
Graph.v
BatchSpec.v
RunStore.v
Limits.v
RunControl.v
BrokerQueue.v
Instance.v
ResourceManager.v
Routing.v
Collector.v
ResourceLaws.v
ResourceSpec.v
RoutingSpec.v
SimState.v
ServiceModel.v
Lifecycle.v
Completion.v
Brokers.v
Handlers.v
HandlerInv.v
HandlerLaws.v
HandlerSteps.v
HandlerSpec.v
Workload.v
WorkloadSpec.v
ConfigHash.v
RunMetrics.v
BatchNeighbors.v
BatchSearch.v
BatchSearchSpec.v
HillClimb.v
Orchestrator.v
EngineMetrics.v
EngineMetricsSpec.v
RunConfig.v
OnlineController.v
OnlineSpec.v
CalibrationData.v
Calibrate.v
CalibrateSpec.v
CalibrationCheck.v
CalibrationImport.v
CalibrationCheckSpec.v
CalibrationImportSpec.v
Server.v
HttpJson.v
Mux.v
HttpServer.v
ServerSpec.v
ServerStream.v
ServerStreamSpec.v
Preflight.v
PreflightSpec.v
Notifier.v
CalibrationServer.v
CalibrationServerSpec.v
