(* ===== verification/Prelude.v ===== *)
(** * Verification of the GoSim simulation core

    The repository is a discrete-event simulator of microservice systems, with the
    server that runs simulations and searches for better configurations. A run goes
    through these parts. A scenario ([pkg/config]) describes hosts, services, endpoints,
    the calls between them, brokers, policies and the workload; it is validated, its
    calls become a graph ([internal/interaction]), and its services are placed on hosts
    ([internal/resource]). The engine ([internal/engine]) pops events in time order and
    hands each to the handler of its type ([internal/simd]). Handlers create requests,
    route them to instances, reserve CPU, memory and connections, schedule further
    events, publish to queues and topics, retry, time out and finalise requests; they
    ask the policies ([internal/policy]) and record metrics ([internal/metrics]). The
    executor and the run store ([internal/simd]) create, start, stop, retain and clean
    up runs, and apply the server's limits. An optimisation run evaluates many candidate
    scenarios ([internal/improvement], [internal/batchspec]), each a run of its own, and
    searches for the best by hill climbing or by a beam search. A calibration
    ([internal/calibration]) fits a scenario to observed metrics and validates it against
    them. Clients reach all of this over gRPC, HTTP and the command line.

    ** How code is modelled

    A Go function is a Rocq function of the same name; a method [T.m] is [T_m] and takes
    and returns the receiver. Records have the fields of the structs. [(A, error)] and
    panics are the type [go] of this file; the event handlers, which thread a state, may
    fail after effects and may panic, are in the monad [M] of [SimState]. Objects that
    are shared through pointers (requests, hosts, instances, shards) live in a store and
    are referred to by address or key, so that aliasing is the code's. Integers that may
    wrap are wrapped ([wrap64]); [float64] is IEEE binary64 ([GoFloat]); a [time.Time] is
    its nanoseconds, zero for the zero time. What Go leaves open or takes from outside is
    an argument: the order in which a map is visited, the wall clock, random draws,
    generated IDs, environment variables, [fmt] of floats, hashes of libraries.

    ** Files

    - [Prelude]: results, records, integers, generic lemmas, hints. [GoFloat], [GoHeap]:
      binary64 numbers and [container/heap]. [Utils]: [pkg/utils].
    - [EventQueue], [RunManager], [Engine]: [internal/engine]. The heap refines a list
      sorted by time, priority and sequence number; the run manager keeps its bounds; [Run]
      returns, with the outcome stated, under its guardrails, whatever other goroutines
      call between and inside the iterations of its loop ([LoopEnv]).
    - [Policy]: [internal/policy]. The breaker refines a three-state machine per key; the
      token bucket, the retry delays and the autoscaling target keep their bounds.
    - [Config], [Graph]: [pkg/config] and [internal/interaction]. What an accepted
      scenario guarantees; the graph is built exactly when synchronous calls are acyclic.
    - [BrokerQueue], [Instance], [ResourceManager], [Routing] with [ResourceLaws],
      [ResourceSpec], [RoutingSpec]: [internal/resource]. Shards are bounded and FIFO,
      commits are the least unprocessed offset, CPU is a FIFO server, and in every
      reachable state hosts, instances, index and cache agree; placement, scaling,
      draining, resizing and every routing strategy do what they promise.
    - [Collector]: [internal/metrics/collector.go]. Series are bounded, and aggregates are
      those of the accepted samples.
    - [SimState], [ServiceModel], [Lifecycle], [Completion], [Brokers], [Handlers]: the
      event handlers of [internal/simd] (handlers, retries, finalisation, caller
      overhead, timeouts, queues, topics, service model, zones). [HandlerInv],
      [HandlerLaws], [HandlerSteps]: their invariant, one lemma per operation.
      [HandlerSpec]: for every interleaving of handlers, other goroutines and the outside
      world, handlers terminate, a request is finalised at most once, depth limits and
      retry budgets hold; what arrivals and drain sweeps do; data that handlers pass
      through events comes back; whole runs of the engine with all handlers registered.
    - [RunStore], [Limits], [RunControl], [BatchSpec]: the run store, the limits, the
      executor's life of runs as a step relation of goroutines, the specification of
      batch optimisation. Every run finishes; the store keeps its invariant; listing,
      clean-up, limits and accepted specifications are as stated.
    - [Workload], [WorkloadSpec]: arrival patterns, the windows in which a run generates
      them and the stand-alone generators ([workload_state.go], [internal/workload]).
      Arrivals are at the times that draws and rate give, whatever the windows; uniform
      patterns place exactly their number; generation terminates.
    - [ConfigHash]: the identity of a scenario ([batchspec/hash.go]), independent of the
      order of its parts. [RunMetrics]: run metrics, objectives, aggregation, comparison
      and selection. [BatchNeighbors]: copies, scores and neighbours of candidates.
      [BatchSearch], [BatchSearchSpec]: the beam search, which stays within its budget and
      returns the best of what it evaluated. [HillClimb]: the hill-climbing optimiser with
      its exploration and convergence. [Orchestrator]: experiments of many simulations and
      the adapter that starts them; an optimisation never starts more simulations than the
      server allows. All of [internal/improvement].
    - [FloatExact]: when rounding is exact. [EngineMetrics], [EngineMetricsSpec]: the
      conversion of the collector to run metrics ([metrics/helpers.go]); reading cannot
      fail or be observed, and the counts of a snapshot are those of the samples.
      [RunConfig]: changes and reads of a running simulation ([executor_methods.go]).
      [OnlineController], [OnlineSpec]: the loop that scales a run while it executes
      ([runOnlineController]). A replica is removed only after the stabilisation window
      and unguarded; over any ticks the manager stays consistent, the hosts stay within
      their bounds and the steps are numbered and bounded.
    - [CalibrationData], [Calibrate], [CalibrateSpec]: fitting a scenario to observed metrics
      ([internal/calibration]); only the calibrated fields change, none the policy
      protects, and the report is a log of the changes. [CalibrationCheck], [CalibrationCheckSpec]: validation of a scenario against
      observations; there is one check per observed quantity, against the prediction and
      the tolerance the specification names, and the verdict is that of all checks.
      [CalibrationImport], [CalibrationImportSpec]: observations from run metrics and from
      the import formats, whose tables are finite maps keyed by labels.
      [CalibrationServer], [CalibrationServerSpec]: its HTTP endpoints and its commands
      ([calibrationserver/http.go], [calib_cli.go]), which have the same outcome.
    - [Server]: the gRPC calls ([grpc_server.go]) on the executor, the store and the live
      runs. [HttpJson], [HttpServer]: the JSON of answers, every HTTP handler and the
      routes ([http_server.go]). [Mux]: what [http.ServeMux] does with a path, its escapes,
      cleaning and redirects. [ServerSpec]: every run is reachable by its path unless its ID
      is one or two dots, the two protocols have the same effect and outcome, and whatever they are asked, the executor
      takes only steps of [RunControl]. [ServerStream], [ServerStreamSpec]: the streams of
      gRPC and of server-sent events, which report a run to its end unless the client's
      interval overflows. [Preflight],
      [PreflightSpec]: the check of a scenario before it runs ([scenario_preflight.go],
      [scenario_semantic_issue.go]), against the set-up of a run ([run_setup]): what it
      refuses fails, and what it accepts fails only on a cycle of synchronous calls, which
      it does not look for. [Notifier]: callbacks
      ([notifier.go]), sent exactly where they may be sent, by host and address
      range, with bounded retries.
    ** Fuel

    [Run_loop] of [Engine] takes the number of iterations; [engine_run_returns] gives a
    bound under which it never runs out, two more than the cap on events. [notify_chain] of [Completion] follows the
    parents that end together with a child; it gets one more than the number of requests
    in the store, and [handlers_terminate] proves that enough, because every step
    finalises a request that was not final. The graph search takes one more than the
    number of endpoints. The generation of a pattern takes a number of rounds, which
    [generation_terminates] bounds by the horizon and the least gap, for the patterns whose
    gaps are independent (exponential, normal, constant). The layers of the
    beam search and the iterations of the optimiser recurse over the limits in the code,
    the polling of a candidate over the answers it gets before its timeout. All other
    recursion is structural.

    ** Not modelled

    Sockets, the bytes of JSON and YAML, DNS and URL parsing, files, logging and process
    start-up are I/O around the modelled operations; what they deliver are arguments.
    [RunScenarioForMetrics] ([scenario_run.go]) is an argument of the calibration. Mutexes
    make operations atomic, which is how they are modelled; the interleavings are those of
    atomic operations. [RunExecutor_Start] is one step, where the code takes the lock of the
    store and that of the executor one after the other. The counter that numbers instances
    is unbounded: at one instance per nanosecond it would reach 64 bits after 290 years. The parallel
    evaluation of configurations is not modelled. *)
From Stdlib Require Export ZArith Lia Ascii.
From stdpp Require Export base pretty strings gmap list sorting.

#[local] Open Scope string_scope.
#[local] Open Scope list_scope.
#[local] Open Scope Z_scope.

(** * Results of Go functions *)

(** A Go function that returns [(A, error)], or that may panic (an index out
    of range, a nil dereference), returns a [go A]. *)
Inductive go (A : Type) : Type :=
  | Ok (a : A)
  | Fail (e : string)
  | Panic.
Arguments Ok {A} a.
Arguments Fail {A} e.
Arguments Panic {A}.

Definition go_bind {A B} (m : go A) (k : A → go B) : go B :=
  match m with Ok a => k a | Fail e => Fail e | Panic => Panic end.

Declare Scope go_scope.
Delimit Scope go_scope with go.
Notation "'let!' x := m 'in' k" := (go_bind m (λ x, k))
  (at level 10, x pattern, m at level 100, k at level 200) : go_scope.
Open Scope go_scope.

(** A check that fails with [e] when [b] holds, sequencing of such checks, and
    loops that thread a state and stop at the first error. *)
Definition fail_if (b : bool) (e : string) : go unit := if b then Fail e else Ok tt.
Notation "m ;;! k" := (go_bind m (λ _, k)) (at level 100, right associativity) : go_scope.
Fixpoint go_fold {A S} (f : S → A → go S) (s : S) (l : list A) : go S :=
  match l with
  | [] => Ok s
  | x :: l => go_bind (f s x) (λ s', go_fold f s' l)
  end.
Definition go_each {A} (f : A → go unit) (l : list A) : go unit := go_fold (λ _ x, f x) tt l.
(** An error wrapped with a prefix ([fmt.Errorf("...: %w", err)]). *)
Definition wrap_err {A} (prefix : string) (m : go A) : go A :=
  match m with Fail e => Fail (prefix +:+ e) | _ => m end.

(** * Record updates *)

(** [r <| f := v |>] replaces field [f] of record [r]. A record type declares
    its eta expansion as an instance of [Eta]; [build_setter] finds the field
    to replace in it. *)
Class Eta (R : Type) := eta : R → R.
Class Setter {R T : Type} (proj : R → T) := set_field : (T → T) → R → R.
Arguments set_field {R T} proj {_} f r /.

Ltac build_setter :=
  lazymatch goal with
  | |- @Setter ?R ?T ?proj =>
      let e := constr:(_ : Eta R) in
      let e := eval hnf in e in
      exact (λ (f : T → T) (r : R),
        ltac:(let b := eval cbv beta in (e r) in
              let g := eval pattern (proj r) in b in
              lazymatch g with ?g' _ =>
                let res := eval cbv beta in (g' (f (proj r))) in exact res end))
  end.
#[export] Hint Extern 1 (Setter _) => build_setter : typeclass_instances.
Notation "r <| f := v |>" := (set_field f (λ _, v) r)
  (at level 1, f at level 9, v at level 99, left associativity, format "r  <| f  :=  v |>").

(** * Machine integers *)

(** [int] and [int64] are 64-bit two's complement on the supported targets. *)
Definition int64_min : Z := - 2 ^ 63.
Definition int64_max : Z := 2 ^ 63 - 1.
Definition wrap64 (z : Z) : Z := (z + 2 ^ 63) mod 2 ^ 64 - 2 ^ 63.
Definition in_int64 (z : Z) : Prop := int64_min ≤ z ≤ int64_max.

Lemma wrap64_id z : in_int64 z → wrap64 z = z.
Proof. unfold in_int64, int64_min, int64_max, wrap64. intros. rewrite Z.mod_small; lia. Qed.
Lemma wrap64_add a b : wrap64 (wrap64 a + b) = wrap64 (a + b).
Proof.
  unfold wrap64. f_equal. replace (_ - 2 ^ 63 + b + 2 ^ 63) with ((a + 2 ^ 63) mod 2 ^ 64 + b) by lia.
  rewrite Z.add_mod_idemp_l by lia. f_equal. lia.
Qed.
Lemma wrap64_range z : in_int64 (wrap64 z).
Proof.
  unfold in_int64, int64_min, int64_max, wrap64.
  pose proof (Z.mod_pos_bound (z + 2 ^ 63) (2 ^ 64)). lia.
Qed.

(** * Time *)

(** [time.Time] is the number of nanoseconds since Go's zero time, which is 0;
    [time.Duration] is an int64 of nanoseconds. [Time.Sub] saturates. *)
Abbreviation Time := Z (only parsing).
Abbreviation Duration := Z (only parsing).
Definition Millisecond : Duration := 1000000.
Definition Second : Duration := 1000 * Millisecond.
Definition Minute : Duration := 60 * Second.
Definition Hour : Duration := 60 * Minute.
Definition zeroTime : Time := 0.
Definition IsZero (t : Time) : bool := t =? 0.
Definition Before (t u : Time) : bool := t <? u.
Definition After (t u : Time) : bool := u <? t.
Definition Sub (t u : Time) : Duration := Z.max int64_min (Z.min int64_max (t - u)).
Definition Milliseconds (d : Duration) : Z := Z.quot d Millisecond.

(** * Strings *)

(** Go strings are byte sequences. The helpers of package [strings] are
    modelled on ASCII input: white space is tab, LF, VT, FF, CR and space. *)
Definition is_space (c : ascii) : bool :=
  let n := N_of_ascii c in ((9 <=? n) && (n <=? 13))%N || (n =? 32)%N.
Definition lower (c : ascii) : ascii :=
  let n := N_of_ascii c in
  if ((65 <=? n) && (n <=? 90))%N then ascii_of_N (n + 32) else c.

Fixpoint TrimLeft (s : string) : string :=
  match s with
  | String c s' => if is_space c then TrimLeft s' else s
  | EmptyString => s
  end.
Fixpoint TrimRight (s : string) : string :=
  match s with
  | String c s' =>
      match TrimRight s' with
      | EmptyString => if is_space c then EmptyString else String c EmptyString
      | t => String c t
      end
  | EmptyString => s
  end.
Definition TrimSpace (s : string) : string := TrimRight (TrimLeft s).
Fixpoint ToLower (s : string) : string :=
  match s with
  | String c s' => String (lower c) (ToLower s')
  | EmptyString => s
  end.
Definition EqualFold (s t : string) : bool := String.eqb (ToLower s) (ToLower t).
Lemma append_assoc s t u : (s +:+ t) +:+ u = s +:+ (t +:+ u).
Proof. induction s as [|c s IH]; [done|]. exact (f_equal (String c) IH). Qed.
Definition HasPrefix (s p : string) : bool := String.prefix p s.
Definition Itoa (z : Z) : string := pretty z.
(** [strconv.Atoi] on an optional sign and decimal digits; [strconv.ParseInt]
    in base 10 with a bit size; [strconv.ParseBool]. *)
Fixpoint parse_digits (acc : Z) (s : string) : option Z :=
  match s with
  | EmptyString => Some acc
  | String c s =>
      let d := Z.of_N (N_of_ascii c) - 48 in
      if (0 <=? d) && (d <=? 9) then parse_digits (10 * acc + d) s else None
  end.
Definition Atoi (s : string) : option Z :=
  let num neg digits :=
    match digits with
    | EmptyString => None
    | _ =>
        match parse_digits 0 digits with
        | Some v =>
            let v := if neg : bool then - v else v in
            if (int64_min <=? v) && (v <=? int64_max) then Some v else None
        | None => None
        end
    end in
  match s with
  | String "-" t => num true t
  | String "+" t => num false t
  | _ => num false s
  end.
Definition ParseInt (bits : Z) (s : string) : option Z :=
  match Atoi s with
  | Some v => if (- 2 ^ (bits - 1) <=? v) && (v <? 2 ^ (bits - 1)) then Some v else None
  | None => None
  end.
Definition ParseBool (s : string) : option bool :=
  if existsb (String.eqb s) ["1"; "t"; "T"; "true"; "TRUE"; "True"] then Some true
  else if existsb (String.eqb s) ["0"; "f"; "F"; "false"; "FALSE"; "False"] then Some false
  else None.
(** [%q] of a string without special characters. *)
Definition Quote (s : string) : string :=
  String (ascii_of_N 34) (s +:+ String (ascii_of_N 34) EmptyString).

(** * Lists *)

Lemma NoDup_fmap_inj_on {A B} (f : A → B) (l : list A) x y :
  NoDup (f <$> l) → x ∈ l → y ∈ l → f x = f y → x = y.
Proof.
  induction l as [|z l IH]; simpl; [intros _ ?%not_elem_of_nil; done|].
  rewrite NoDup_cons. intros [Hz Hnd] Hx Hy Hf. apply elem_of_cons in Hx, Hy.
  destruct Hx as [->|Hx], Hy as [->|Hy]; auto; exfalso; apply Hz;
    apply list_elem_of_fmap; eauto.
Qed.

(** ** Laws of checks and loops *)

Lemma fail_if_ok b e u : fail_if b e = Ok u ↔ b = false.
Proof. destruct b, u; simpl; split; congruence. Qed.
Lemma go_bind_ok {A B} (m : go A) (k : A → go B) y :
  go_bind m k = Ok y ↔ ∃ x, m = Ok x ∧ k x = Ok y.
Proof. destruct m; simpl; naive_solver. Qed.
Lemma wrap_err_ok {A} p (m : go A) x : wrap_err p m = Ok x ↔ m = Ok x.
Proof. by destruct m. Qed.
Lemma go_each_ok {A} (f : A → go unit) l u :
  go_each f l = Ok u ↔ Forall (λ x, f x = Ok tt) l.
Proof.
  destruct u. unfold go_each. induction l as [|x l IH]; simpl; [by split|].
  rewrite go_bind_ok, Forall_cons, <- IH. split.
  - intros ([] & ? & ?). done.
  - intros [? ?]. by exists tt.
Qed.

(** A loop that collects identifiers, failing on one already seen. *)
Lemma go_fold_collect {A} (f : gset string → A → go (gset string)) (id : A → string)
    (ok : A → Prop) :
  (∀ S x S', f S x = Ok S' → (id x ∉ S) ∧ ok x ∧ S' = {[id x]} ∪ S) →
  ∀ l S S', go_fold f S l = Ok S' →
    NoDup (id <$> l) ∧ (∀ x, x ∈ l → id x ∉ S) ∧ Forall ok l ∧
    S' = list_to_set (id <$> l) ∪ S.
Proof.
  intros Hf. induction l as [|x l IH]; intros S S'; simpl.
  - intros [= <-]. split_and!; [constructor|by intros ? ?%elem_of_nil|done|set_solver].
  - rewrite go_bind_ok, NoDup_cons, Forall_cons. setoid_rewrite elem_of_cons.
    intros (S1 & (Hx & Hok & ->)%Hf & (Hnd & Hl & Hall & ->)%IH). split_and!; try done.
    + intros (y & Hy & Hyl)%list_elem_of_fmap. apply (Hl y Hyl). set_solver.
    + intros y [->|Hy]; [done|]. specialize (Hl y Hy). set_solver.
    + set_solver.
Qed.

(** Breaks a hypothesis about a successful sequence of checks into its parts. *)
Ltac go_inv :=
  repeat match goal with
  | H : Ok _ = Ok _ |- _ => injection H; clear H; intros; subst
  | H : Fail _ = Ok _ |- _ => discriminate H
  | H : Panic = Ok _ |- _ => discriminate H
  | H : go_bind _ _ = Ok _ |- _ => apply go_bind_ok in H as (? & ? & H)
  | H : fail_if _ _ = Ok _ |- _ => apply fail_if_ok in H
  | H : wrap_err _ _ = Ok _ |- _ => apply wrap_err_ok in H
  | H : go_each _ _ = Ok _ |- _ => apply go_each_ok in H
  | H : (_ || _)%bool = false |- _ => apply orb_false_iff in H as [? ?]
  | H : negb _ = false |- _ => apply negb_false_iff in H
  | H : bool_decide _ = true |- _ => apply bool_decide_eq_true in H
  | H : bool_decide _ = false |- _ => apply bool_decide_eq_false in H
  | H : (_ <=? _) = false |- _ => apply Z.leb_gt in H
  | H : (_ <? _) = false |- _ => apply Z.ltb_ge in H
  | u : unit |- _ => destruct u
  end.
