(* ===== verification/GoFloat.v ===== *)
(** float64 arithmetic of the Go code, as IEEE 754 binary64 numbers of the
    Standard Library's [SpecFloat] (53-bit mantissa, round to nearest even,
    signed zeros, infinities, NaN): the literals, conversions and [math]
    functions the sources use, and the order and sign laws the components
    rely on. *)
From S2P Require Import Prelude.
From Stdlib Require Import SpecFloat.
#[local] Open Scope string_scope.
#[local] Open Scope list_scope.
#[local] Open Scope Z_scope.

(** * Operations *)

Abbreviation float64 := spec_float (only parsing).
Abbreviation fadd := (SFadd 53 1024) (only parsing).
Abbreviation fsub := (SFsub 53 1024) (only parsing).
Abbreviation fmul := (SFmul 53 1024) (only parsing).
Abbreviation fdiv := (SFdiv 53 1024) (only parsing).
Abbreviation fltb := SFltb (only parsing).
Abbreviation fleb := SFleb (only parsing).
Abbreviation feqb := SFeqb (only parsing).

(** [float64(z)] for an integer [z]. *)
Definition f64_of_Z (z : Z) : float64 := binary_normalize 53 1024 z 0 false.
(** The literal [n/d]: correctly rounded when [n] and [d] are exact. *)
Definition f64_lit (n d : Z) : float64 := fdiv (f64_of_Z n) (f64_of_Z d).

Definition f0 : float64 := S754_zero false.
Definition f1 : float64 := f64_of_Z 1.
Definition f64_inf (neg : bool) : float64 := S754_infinity neg.

(** The integer part towards zero of a finite number, and whether a fraction
    was dropped. *)
Definition f64_trunc (m : positive) (e : Z) : Z * bool :=
  if 0 <=? e then (Zpos m * 2 ^ e, false)
  else (Zpos m / 2 ^ (- e), negb (Zpos m mod 2 ^ (- e) =? 0)).

(** [int(x)] and [time.Duration(x)]: truncation; a NaN or a value out of range
    gives the most negative integer, as the amd64 conversion does. *)
Definition f64_to_int (x : float64) : Z :=
  match x with
  | S754_zero _ => 0
  | S754_finite s m e =>
      let v := cond_Zopp s (fst (f64_trunc m e)) in
      if (int64_min <=? v) && (v <=? int64_max) then v else int64_min
  | _ => int64_min
  end.

(** [math.Floor], [math.Ceil], and [math.Round] (half away from zero); the sign
    of a zero result is the sign of the argument. *)
Definition f64_integral (up : bool → Z → bool → Z → Z) (x : float64) : float64 :=
  match x with
  | S754_finite s m e =>
      if 0 <=? e then x
      else
        let '(q, inexact) := f64_trunc m e in
        let r := 2 * (Zpos m mod 2 ^ (- e)) in
        binary_normalize 53 1024 (cond_Zopp s (up s q inexact (r - 2 ^ (- e)))) 0 s
  | _ => x
  end.
Definition math_Floor : float64 → float64 :=
  f64_integral (λ s q inexact _, if s && inexact then q + 1 else q).
Definition math_Ceil : float64 → float64 :=
  f64_integral (λ s q inexact _, if negb s && inexact then q + 1 else q).
Definition math_Round : float64 → float64 :=
  f64_integral (λ _ q _ half, if 0 <=? half then q + 1 else q).

(** [Duration.Seconds]: whole seconds plus the rest in nanoseconds. *)
Definition Seconds (d : Duration) : float64 :=
  fadd (f64_of_Z (Z.quot d Second))
       (fdiv (f64_of_Z (Z.rem d Second)) (f64_of_Z 1000000000)).

(** Values of [map[string]interface{}] maps; the integer types are not told
    apart. *)
#[local] Unset Elimination Schemes.
Inductive DataVal :=
  | DNil | DString (s : string) | DInt (z : Z) | DFloat (x : float64) | DBool (b : bool) | DTime (t : Time)
  | DMap (m : gmap string DataVal).
#[local] Set Elimination Schemes.

Definition is_nan (x : float64) : bool :=
  match x with S754_nan => true | _ => false end.
(** Not negative: +0, -0, positive, +Inf. *)
Definition nonneg (x : float64) : bool :=
  match x with
  | S754_zero _ => true
  | S754_infinity s => negb s
  | S754_finite s _ _ => negb s
  | S754_nan => false
  end.

(** * Order laws *)

Lemma pos_compare_cont_eq m n : Pos.compare_cont Eq m n = Pos.compare m n.
Proof. done. Qed.

(** [SFcompare] is the comparison of keys (class and sign, exponent, mantissa)
    in lexicographic order. *)
Definition f64_key (x : float64) : Z * Z * Z :=
  match x with
  | S754_nan => (0, 0, 0)
  | S754_infinity true => (-2, 0, 0)
  | S754_finite true m e => (-1, - e, Zneg m)
  | S754_zero _ => (0, 0, 0)
  | S754_finite false m e => (1, e, Zpos m)
  | S754_infinity false => (2, 0, 0)
  end.
Definition key_lt (a b : Z * Z * Z) : Prop :=
  let '(a1, a2, a3) := a in let '(b1, b2, b3) := b in
  a1 < b1 ∨ (a1 = b1 ∧ (a2 < b2 ∨ (a2 = b2 ∧ a3 < b3))).

Lemma fltb_key x y :
  fltb x y = true ↔ is_nan x = false ∧ is_nan y = false ∧ key_lt (f64_key x) (f64_key y).
Proof.
  unfold SFltb, SFcompare.
  destruct x as [s|s| |s m e], y as [s'|s'| |s' m' e'];
    try destruct s; try destruct s'; simpl;
    try (split; [discriminate | intros (?&?&?)]; done || lia);
    try (split; [intros _ | done]; repeat split; lia);
    destruct (Z.compare_spec e e'); rewrite ?pos_compare_cont_eq;
    try destruct (Pos.compare_spec m m'); simpl;
    split; intros; try discriminate; try (repeat split; lia);
    try (destruct_and!; exfalso; lia); done.
Qed.

Lemma fleb_key x y :
  fleb x y = true ↔
  is_nan x = false ∧ is_nan y = false ∧
  (key_lt (f64_key x) (f64_key y) ∨ f64_key x = f64_key y).
Proof.
  unfold SFleb, SFcompare.
  destruct x as [s|s| |s m e], y as [s'|s'| |s' m' e'];
    try destruct s; try destruct s'; simpl;
    try (split; [discriminate | intros (?&?&[?|?]); simplify_eq]; done || lia);
    try (split; [intros _ | done]; repeat split; first [left; lia | by right]);
    destruct (Z.compare_spec e e'); rewrite ?pos_compare_cont_eq;
    try destruct (Pos.compare_spec m m'); simpl; subst;
    split; intros; try discriminate; try done;
    try (repeat split; first [left; lia | by right]);
    try (destruct_and!; destruct_or!; simplify_eq; exfalso; lia).
Qed.

Lemma key_lt_irrefl a : ¬ key_lt a a.
Proof. destruct a as [[??]?]; simpl; lia. Qed.
Lemma key_lt_trans a b c : key_lt a b → key_lt b c → key_lt a c.
Proof. destruct a as [[??]?], b as [[??]?], c as [[??]?]; simpl; lia. Qed.
Lemma key_lt_total a b : key_lt a b ∨ a = b ∨ key_lt b a.
Proof.
  destruct a as [[a1 a2] a3], b as [[b1 b2] b3]; simpl.
  destruct (Z.lt_trichotomy a1 b1) as [?|[->|?]], (Z.lt_trichotomy a2 b2) as [?|[->|?]],
    (Z.lt_trichotomy a3 b3) as [?|[->|?]];
    solve [left; lia | right; left; done | right; right; lia].
Qed.

Lemma fltb_irrefl x : fltb x x = false.
Proof. apply not_true_is_false. rewrite fltb_key. intros (?&?&?). by eapply key_lt_irrefl. Qed.
Lemma fltb_trans x y z : fltb x y = true → fltb y z = true → fltb x z = true.
Proof. rewrite !fltb_key. intros (?&?&?) (?&?&?). eauto using key_lt_trans. Qed.
Lemma fleb_trans x y z : fleb x y = true → fleb y z = true → fleb x z = true.
Proof.
  rewrite !fleb_key. intros (?&?&[?|E]) (?&?&[?|E']); rewrite ?E, <-?E'; eauto using key_lt_trans.
Qed.
Lemma fleb_fltb_trans x y z : fleb x y = true → fltb y z = true → fltb x z = true.
Proof. rewrite fleb_key, !fltb_key. intros (?&?&[?|E]) (?&?&?); rewrite ?E; eauto using key_lt_trans. Qed.
Lemma fltb_fleb x y : fltb x y = true → fleb x y = true.
Proof. rewrite fltb_key, fleb_key. intros (?&?&?); auto. Qed.
(** For comparable operands, [!(x < y)] is [y <= x]. *)
Lemma fltb_false x y :
  is_nan x = false → is_nan y = false → fltb x y = false → fleb y x = true.
Proof.
  intros Hx Hy H. rewrite fleb_key. split_and!; [done..|].
  destruct (key_lt_total (f64_key x) (f64_key y)) as [L|[E|L]]; auto.
  assert (fltb x y = true) by (rewrite fltb_key; eauto). congruence.
Qed.
Lemma fltb_fleb_false x y : fltb x y = true → fleb y x = false.
Proof.
  intros H. apply not_true_is_false. intros H'.
  pose proof (fleb_fltb_trans _ _ _ H' H) as F. by rewrite fltb_irrefl in F.
Qed.
Lemma fleb_refl x : is_nan x = false → fleb x x = true.
Proof. rewrite fleb_key. eauto. Qed.
Lemma nonneg_not_nan x : nonneg x = true → is_nan x = false.
Proof. by destruct x. Qed.
Lemma fltb_not_nan x y : fltb x y = true → is_nan x = false ∧ is_nan y = false.
Proof. rewrite fltb_key. intros (?&?&?); auto. Qed.
Lemma nonneg_fleb x : nonneg x = true ↔ fleb f0 x = true.
Proof.
  rewrite fleb_key. destruct x as [[]|[]| |[]]; simpl;
    split; intros; try done; repeat split; try (left; lia); try (by right);
    destruct_and!; destruct_or!; simplify_eq; lia.
Qed.

(** * Sign laws: rounding keeps the sign of a non-negative mantissa *)

Definition same_sign (s : bool) (x : float64) : Prop :=
  match x with
  | S754_zero s' | S754_infinity s' | S754_finite s' _ _ => s' = s
  | S754_nan => False
  end.

Lemma shr_1_nonneg r : 0 ≤ shr_m r → 0 ≤ shr_m (shr_1 r).
Proof. destruct r as [[|[]|[]] ? ?]; simpl; lia. Qed.
Lemma iter_shr_nonneg p : ∀ r, 0 ≤ shr_m r → 0 ≤ shr_m (iter_pos shr_1 p r).
Proof. induction p; simpl; auto using shr_1_nonneg. Qed.
Lemma shr_fexp_nonneg m e l : 0 ≤ m → 0 ≤ shr_m (fst (shr_fexp 53 1024 m e l)).
Proof.
  intros. unfold shr_fexp, shr.
  assert (0 ≤ shr_m (shr_record_of_loc m l)) by (destruct l as [|[]]; done).
  destruct (Z.sub _ e); simpl; auto using iter_shr_nonneg.
Qed.
Lemma round_nearest_even_nonneg m l : 0 ≤ m → 0 ≤ round_nearest_even m l.
Proof. destruct l as [|[]]; simpl; try case_match; lia. Qed.
Lemma binary_round_aux_sign s m e l :
  0 ≤ m → same_sign s (binary_round_aux 53 1024 s m e l).
Proof.
  intros Hm. unfold binary_round_aux.
  pose proof (shr_fexp_nonneg m e l Hm) as H1.
  destruct (shr_fexp 53 1024 m e l) as [r1 e1]; simpl in H1.
  pose proof (shr_fexp_nonneg _ e1 loc_Exact
    (round_nearest_even_nonneg _ (loc_of_shr_record r1) H1)) as H2.
  destruct (shr_fexp 53 1024 _ e1 _) as [r2 e2]; simpl in H2.
  destruct (shr_m r2); simpl; [done | case_match; done | lia].
Qed.
Lemma binary_round_sign s m e : same_sign s (binary_round 53 1024 s m e).
Proof. unfold binary_round. destruct (shl_align _ _ _). by apply binary_round_aux_sign. Qed.
Lemma same_sign_nonneg x : same_sign false x → nonneg x = true.
Proof. by destruct x as [[]|[]| |[]]. Qed.

Lemma fdiv_mantissa_nonneg m1 e1 m2 e2 :
  0 ≤ m1 → 0 < m2 → 0 ≤ (fst (fst (SFdiv_core_binary 53 1024 m1 e1 m2 e2))).
Proof.
  intros H1 H2. unfold SFdiv_core_binary.
  destruct (Z.div_eucl _ m2) as [q r] eqn:E; simpl.
  assert (q = fst (Z.div_eucl match _ - _ - _ with Z0 => m1 | Zpos _ => Z.shiftl m1 _ | Zneg _ => 0 end m2))
    as -> by (rewrite E; done).
  apply Z.div_pos; [case_match; rewrite ?Z.shiftl_nonneg; lia | lia].
Qed.

(** A sum of non-negative numbers is non-negative, and so are a product that is
    a number and a quotient by a positive finite number. *)
Lemma fadd_nonneg x y : nonneg x = true → nonneg y = true → nonneg (fadd x y) = true.
Proof.
  destruct x as [sx|[]| |[] mx ex], y as [sy|[]| |[] my ey]; simpl; try done; intros _ _.
  - by destruct sx, sy.
  - apply same_sign_nonneg, binary_round_sign.
Qed.
Lemma fmul_nonneg x y :
  nonneg x = true → nonneg y = true → is_nan (fmul x y) = false → nonneg (fmul x y) = true.
Proof.
  destruct x as [sx|[]| |[] mx ex], y as [sy|[]| |[] my ey]; simpl; try done; intros _ _ _.
  apply same_sign_nonneg, binary_round_aux_sign; lia.
Qed.
Definition positive_finite (x : float64) : bool :=
  match x with S754_finite false _ _ => true | _ => false end.
Lemma fmul_nonneg_finite x y :
  nonneg x = true → positive_finite y = true → nonneg (fmul x y) = true.
Proof.
  intros Hx Hy. apply fmul_nonneg; [done|by destruct y as [| | |[]]|].
  apply nonneg_not_nan.
  destruct x as [sx|[]| |[] mx ex], y as [sy|[]| |[] my ey]; simpl in *; try done.
  apply same_sign_nonneg, binary_round_aux_sign; lia.
Qed.
Lemma fdiv_nonneg x y :
  nonneg x = true → positive_finite y = true → nonneg (fdiv x y) = true.
Proof.
  destruct x as [sx|[]| |[] mx ex], y as [sy|[]| |[] my ey]; simpl; try done; intros _ _.
  pose proof (fdiv_mantissa_nonneg (Zpos mx) ex (Zpos my) ey) as H.
  destruct (SFdiv_core_binary _ _ _ _ _ _) as [[q e] l]. simpl in H.
  apply same_sign_nonneg, binary_round_aux_sign. lia.
Qed.
Lemma f64_of_Z_nonneg z : 0 ≤ z → nonneg (f64_of_Z z) = true.
Proof.
  intros. destruct z; [done | | lia]. apply same_sign_nonneg, binary_round_sign.
Qed.

(** * Conversion of positive integers is positive and finite *)

Lemma shr_1_half r : 0 ≤ shr_m r → shr_m (shr_1 r) = shr_m r / 2.
Proof.
  destruct r as [m rb sb]; simpl. intros Hm.
  destruct m as [|[p|p|]|]; simpl shr_1; cbn [shr_m]; Z.to_euclidean_division_equations; lia.
Qed.
Lemma iter_shr_div p : ∀ r, 0 ≤ shr_m r → shr_m (iter_pos shr_1 p r) = shr_m r / 2 ^ Zpos p.
Proof.
  assert (Hp : ∀ q, 0 < 2 ^ Zpos q) by (intros; apply Z.pow_pos_nonneg; lia).
  induction p as [p IH|p IH|]; intros r Hr; cbn [iter_pos]; specialize (Hp p) || clear Hp.
  - rewrite IH by (by apply iter_shr_nonneg, shr_1_nonneg).
    rewrite IH by (by apply shr_1_nonneg). rewrite shr_1_half by done.
    rewrite !Z.div_div by lia. f_equal.
    replace (Zpos p~1) with (1 + Zpos p + Zpos p) by lia. rewrite !Z.pow_add_r by lia. lia.
  - rewrite IH by (by apply iter_shr_nonneg). rewrite IH by done. rewrite Z.div_div by lia.
    f_equal. replace (Zpos p~0) with (Zpos p + Zpos p) by lia. by rewrite Z.pow_add_r by lia.
  - by rewrite shr_1_half.
Qed.
Lemma digits2_bounds p : 2 ^ (Zpos (digits2_pos p) - 1) ≤ Zpos p < 2 ^ Zpos (digits2_pos p).
Proof.
  induction p as [p IH|p IH|]; simpl digits2_pos; [| |simpl; lia];
    rewrite Pos2Z.inj_succ; replace (Z.succ (Zpos (digits2_pos p)) - 1) with
      (Z.succ (Zpos (digits2_pos p) - 1)) by lia; rewrite !Z.pow_succ_r by lia; lia.
Qed.
Lemma shr_fexp_pos m e :
  0 < m → -1074 ≤ Zdigits2 m + e - 53 →
  let r := shr_fexp 53 1024 m e loc_Exact in
  0 < shr_m (fst r) ≤ m ∧ snd r = Z.max e (Zdigits2 m + e - 53).
Proof.
  intros Hm He. unfold shr_fexp, shr, fexp, emin. destruct m as [|p|p]; [lia| |lia]. simpl Zdigits2 in *.
  rewrite Z.max_l by lia. pose proof (digits2_bounds p) as Hd.
  destruct (Zpos (digits2_pos p) + e - 53 - e) as [|n|n] eqn:En; simpl; [lia| |lia].
  rewrite iter_shr_div by (simpl; lia). simpl shr_m. split; [|lia]. split.
  - apply Z.div_str_pos. split; [lia|]. apply (Z.le_trans _ (2 ^ (Zpos (digits2_pos p) - 1))); [|lia].
    apply Z.pow_le_mono_r; lia.
  - apply Z.div_le_upper_bound; [lia|]. assert (1 ≤ 2 ^ Zpos n) by lia. nia.
Qed.
Lemma digits2_le m k : 0 < m → 0 ≤ k → m < 2 ^ k → Zdigits2 m ≤ k.
Proof.
  intros Hm Hk Hlt. destruct m as [|p|]; try lia. simpl. pose proof (digits2_bounds p).
  destruct (Z.le_gt_cases (Zpos (digits2_pos p)) k); [done|].
  assert (2 ^ k ≤ 2 ^ (Zpos (digits2_pos p) - 1)) by (apply Z.pow_le_mono_r; lia). lia.
Qed.
Lemma digits2_pos_pos m : 0 < m → 0 < Zdigits2 m.
Proof. destruct m; simpl; lia. Qed.
Lemma round_exact_bounds m l : 0 ≤ m → m ≤ round_nearest_even m l ≤ m + 1.
Proof. destruct l as [|[]]; simpl; try case_match; lia. Qed.

Lemma binary_round_aux_pos m e :
  0 < m < 2 ^ 64 → -100 ≤ e ≤ 0 → positive_finite (binary_round_aux 53 1024 false m e loc_Exact) = true.
Proof.
  intros Hm He. unfold binary_round_aux. pose proof (digits2_pos_pos m).
  assert (Zdigits2 m ≤ 64) by (apply digits2_le; lia).
  destruct (shr_fexp_pos m e) as [H1 H2]; [lia|lia|].
  destruct (shr_fexp 53 1024 m e loc_Exact) as [r1 e1]; simpl in H1, H2.
  pose proof (round_exact_bounds (shr_m r1) (loc_of_shr_record r1)) as Hr.
  set (m2 := round_nearest_even _ _) in *. clearbody m2.
  assert (Zdigits2 m2 ≤ 65) by (apply digits2_le; lia). pose proof (digits2_pos_pos m2).
  destruct (shr_fexp_pos m2 e1) as [Hm2 He2]; [lia|lia|].
  destruct (shr_fexp 53 1024 m2 e1 loc_Exact) as [r2 e2]; simpl in Hm2, He2.
  destruct (shr_m r2) as [|p|p]; [lia| |lia]. by rewrite (proj2 (Z.leb_le _ _)) by lia.
Qed.
Lemma f64_of_Z_pos z : 0 < z < 2 ^ 63 → positive_finite (f64_of_Z z) = true.
Proof.
  intros Hz. destruct z as [|p|]; try lia. unfold f64_of_Z. simpl. unfold binary_round, shl_align.
  pose proof (digits2_bounds p) as Hd. assert (Hdl : Zdigits2 (Zpos p) ≤ 63) by (apply digits2_le; lia).
  simpl in Hdl. unfold fexp, emin. rewrite Z.max_l by lia.
  destruct (Zpos (digits2_pos p) + 0 - 53 - 0) as [|n|n] eqn:En; simpl;
    try (apply binary_round_aux_pos; lia).
  apply binary_round_aux_pos; [|lia].
  change (Zpos (Pos.iter xO p n)) with (Zpos (shift_pos n p)). rewrite shift_pos_correct.
  change (Z.pow_pos 2 n) with (2 ^ Zpos n).
  assert (Zpos n = 53 - Zpos (digits2_pos p)) as -> by lia.
  rewrite Z.mul_comm. assert (0 < 2 ^ (53 - Zpos (digits2_pos p))) by (apply Z.pow_pos_nonneg; lia).
  split; [nia|].
  apply (Z.lt_le_trans _ (2 ^ Zpos (digits2_pos p) * 2 ^ (53 - Zpos (digits2_pos p)))).
  - apply Z.mul_lt_mono_pos_r; [|lia]. apply Z.pow_pos_nonneg; lia.
  - rewrite <- Z.pow_add_r by lia. apply Z.pow_le_mono_r; lia.
Qed.
