(* ===== verification/FloatExact.v ===== *)
(** Exact arithmetic on small integers held in [float64]: the counters of the metrics
    are sums of ones, and below [2 ^ 53] such sums are computed without rounding. *)
From S2P Require Import Prelude GoFloat.
From Stdlib Require Import SpecFloat.
#[local] Open Scope Z_scope.

(** * Shifts and digits *)

Lemma digits2_unique p k : 2 ^ (k - 1) ≤ Zpos p < 2 ^ k → Zpos (digits2_pos p) = k.
Proof.
  intros H. pose proof (digits2_bounds p) as Hd. assert (1 ≤ k).
  { destruct (Z.le_gt_cases 1 k) as [|Hk]; [done|]. destruct (Z.eq_dec k 0) as [->|]; [simpl in H; lia|].
    rewrite (Z.pow_neg_r 2 k) in H by lia. lia. }
  destruct (Z.lt_trichotomy (Zpos (digits2_pos p)) k) as [Hlt|[He|Hgt]]; [|done|].
  - assert (2 ^ Zpos (digits2_pos p) ≤ 2 ^ (k - 1)) by (apply Z.pow_le_mono_r; lia). lia.
  - assert (2 ^ k ≤ 2 ^ (Zpos (digits2_pos p) - 1)) by (apply Z.pow_le_mono_r; lia). lia.
Qed.
Lemma digits2_shift p q k : 0 ≤ k → Zpos q = Zpos p * 2 ^ k →
  Zpos (digits2_pos q) = Zpos (digits2_pos p) + k.
Proof.
  intros Hk Hq. apply digits2_unique. rewrite Hq. pose proof (digits2_bounds p) as Hd.
  assert (0 < 2 ^ k) by (apply Z.pow_pos_nonneg; lia).
  replace (Zpos (digits2_pos p) + k - 1) with (Zpos (digits2_pos p) - 1 + k) by lia.
  rewrite !Z.pow_add_r by lia. nia.
Qed.
Lemma iter_shr_exact p : ∀ m, 0 ≤ m →
  iter_pos shr_1 p (Build_shr_record (m * 2 ^ Zpos p) false false) = Build_shr_record m false false.
Proof.
  assert (H1 : ∀ m, 0 ≤ m → shr_1 (Build_shr_record (m * 2) false false) = Build_shr_record m false false).
  { intros [|m|m] Hm; [done| |lia]. by rewrite Z.mul_comm. }
  induction p as [p IH|p IH|]; intros m Hm; cbn [iter_pos]; [| |by apply H1].
  - replace (m * 2 ^ Zpos p~1) with (m * 2 ^ Zpos p * 2 ^ Zpos p * 2)
      by (replace (Zpos p~1) with (Zpos p + Zpos p + 1) by lia; rewrite !Z.pow_add_r by lia; lia).
    assert (0 < 2 ^ Zpos p) by (apply Z.pow_pos_nonneg; lia).
    by rewrite H1, IH, IH by nia.
  - replace (m * 2 ^ Zpos p~0) with (m * 2 ^ Zpos p * 2 ^ Zpos p)
      by (replace (Zpos p~0) with (Zpos p + Zpos p) by lia; rewrite !Z.pow_add_r by lia; lia).
    assert (0 < 2 ^ Zpos p) by (apply Z.pow_pos_nonneg; lia).
    by rewrite IH, IH by nia.
Qed.

(** * The number that represents a positive integer *)

(** The mantissa of [z] has all 53 bits, the exponent is that of its last bit. *)
Definition canon (z : positive) : float64 :=
  S754_finite false (Z.to_pos (Zpos z * 2 ^ (53 - Zpos (digits2_pos z)))) (Zpos (digits2_pos z) - 53).
Definition width (z : positive) : Z := Zpos (digits2_pos z).
Lemma width_bounds z : 1 ≤ width z ∧ 2 ^ (width z - 1) ≤ Zpos z < 2 ^ width z.
Proof. unfold width. split; [lia|]. apply digits2_bounds. Qed.
Lemma width_small z : Zpos z < 2 ^ 53 → width z ≤ 53.
Proof. intros. apply (digits2_le (Zpos z)); lia. Qed.
Lemma Zdigits2_shift z m k : 0 ≤ k → m = Zpos z * 2 ^ k → Zdigits2 m = width z + k.
Proof.
  intros Hk Hm. assert (0 < 2 ^ k) by (apply Z.pow_pos_nonneg; lia).
  destruct m as [|q|q]; [lia| |lia]. by apply digits2_shift.
Qed.
Lemma fexp_width z : fexp 53 1024 (width z) = width z - 53.
Proof. unfold fexp, emin. pose proof (width_bounds z). lia. Qed.
Lemma shr_fexp_full z m e :
  e ≤ width z - 53 → width z ≤ 53 → m = Zpos z * 2 ^ (- e) →
  shr_fexp 53 1024 m e loc_Exact
  = (Build_shr_record (Zpos z * 2 ^ (53 - width z)) false false, width z - 53).
Proof.
  intros He Hw Hm. unfold shr_fexp. rewrite (Zdigits2_shift z m (- e)) by (done || lia).
  replace (width z + - e + e) with (width z) by lia. rewrite fexp_width. simpl shr_record_of_loc. unfold shr.
  destruct (width z - 53 - e) as [|p|p] eqn:En; [| |lia].
  - do 2 f_equal; [|lia]. rewrite Hm. do 2 f_equal. lia.
  - f_equal; [|lia]. replace m with (Zpos z * 2 ^ (53 - width z) * 2 ^ Zpos p); [apply iter_shr_exact; lia|].
    rewrite Hm, <- Z.mul_assoc, <- Z.pow_add_r by lia. do 2 f_equal. lia.
Qed.
Lemma round_aux_exact z m e :
  e ≤ width z - 53 → width z ≤ 53 → m = Zpos z * 2 ^ (- e) →
  binary_round_aux 53 1024 false m e loc_Exact = canon z.
Proof.
  intros He Hw Hm. unfold binary_round_aux. rewrite (shr_fexp_full z) by done. simpl round_nearest_even.
  rewrite (shr_fexp_full z) by (lia || (do 2 f_equal; lia)). simpl shr_m.
  unfold canon. fold (width z). assert (0 < Zpos z * 2 ^ (53 - width z)) by (apply Z.mul_pos_pos; lia).
  destruct (Zpos z * 2 ^ (53 - width z)) as [|q|q]; [lia| |lia].
  by rewrite (proj2 (Z.leb_le _ _)) by lia.
Qed.
Lemma iter_xO d : ∀ m, Zpos (Pos.iter xO m d) = Zpos m * 2 ^ Zpos d.
Proof.
  induction d as [|d IH] using Pos.peano_ind; intros m; [simpl; lia|].
  rewrite Pos.iter_succ, Pos2Z.inj_succ, Z.pow_succ_r, Pos2Z.inj_xO, IH by lia. lia.
Qed.
Lemma shl_align_exact m e e' : e' ≤ e → Zpos (fst (shl_align m e e')) = Zpos m * 2 ^ (e - e').
Proof.
  intros. unfold shl_align. destruct (e' - e) as [|d|d] eqn:E; simpl; [|lia|].
  - replace (e - e') with 0 by lia. lia.
  - rewrite iter_xO. do 2 f_equal. lia.
Qed.
Lemma round_exact z m e :
  e ≤ 0 → width z ≤ 53 → Zpos m = Zpos z * 2 ^ (- e) → binary_round 53 1024 false m e = canon z.
Proof.
  intros He Hw Hm. unfold binary_round.
  replace (Zpos (digits2_pos m) + e) with (width z).
  2:{ pose proof (Zdigits2_shift z (Zpos m) (- e)) as H. simpl in H. rewrite H by (done || lia). lia. }
  rewrite fexp_width. destruct (Z.le_gt_cases e (width z - 53)) as [Hle|Hgt].
  - unfold shl_align. destruct (width z - 53 - e) eqn:E; try lia; by apply round_aux_exact.
  - pose proof (shl_align_exact m e (width z - 53)) as Hs. specialize (Hs ltac:(lia)).
    unfold shl_align in *. destruct (width z - 53 - e) eqn:E; try lia. simpl in Hs.
    apply round_aux_exact; [lia..|]. rewrite Hs, Hm, <- Z.mul_assoc, <- Z.pow_add_r by lia. do 2 f_equal. lia.
Qed.
Lemma f64_of_Z_canon z : Zpos z < 2 ^ 53 → f64_of_Z (Zpos z) = canon z.
Proof. intros. apply round_exact; [done|by apply width_small|]. simpl. lia. Qed.

(** * Sums and conversions of small integers *)

Lemma fadd_canon a b : Zpos a + Zpos b < 2 ^ 53 → fadd (canon a) (canon b) = canon (a + b).
Proof.
  intros Hs. pose proof (width_small a ltac:(lia)). pose proof (width_small b ltac:(lia)).
  unfold canon at 1 2. fold (width a) (width b). cbn [SFadd]. unfold cond_Zopp.
  rewrite !shl_align_exact by lia. set (e := Z.min _ _).
  assert (Hp : ∀ c, width c ≤ 53 → e ≤ width c - 53 →
    Zpos (Z.to_pos (Zpos c * 2 ^ (53 - width c))) * 2 ^ (width c - 53 - e) = Zpos c * 2 ^ (- e)).
  { intros c Hc Hl. rewrite Z2Pos.id by (apply Z.mul_pos_pos; lia). rewrite <- Z.mul_assoc, <- Z.pow_add_r by lia.
    do 2 f_equal. lia. }
  rewrite !Hp by lia. rewrite <- Z.mul_add_distr_r, <- Pos2Z.inj_add.
  assert (0 < Zpos (a + b) * 2 ^ (- e)) by (apply Z.mul_pos_pos; lia).
  destruct (Zpos (a + b) * 2 ^ (- e)) as [|q|q] eqn:Eq; [lia| |lia].
  apply round_exact; [lia|apply width_small; lia|done].
Qed.
(** Adding integers below [2 ^ 53] is exact. *)
Lemma f64_of_Z_add a b : 0 ≤ a → 0 ≤ b → a + b < 2 ^ 53 → fadd (f64_of_Z a) (f64_of_Z b) = f64_of_Z (a + b).
Proof.
  intros Ha Hb Hs. destruct a as [|a|a], b as [|b|b]; try lia; try done.
  - rewrite Z.add_0_l, f64_of_Z_canon by lia. done.
  - rewrite Z.add_0_r, f64_of_Z_canon by lia. done.
  - rewrite !f64_of_Z_canon by lia. rewrite fadd_canon by lia. rewrite <- Pos2Z.inj_add.
    by rewrite f64_of_Z_canon by lia.
Qed.
(** Truncating an integer below [2 ^ 53] gives it back. *)
Lemma f64_to_int_of_Z z : 0 ≤ z < 2 ^ 53 → f64_to_int (f64_of_Z z) = z.
Proof.
  intros Hz. destruct z as [|z|z]; [done| |lia]. rewrite f64_of_Z_canon by lia.
  pose proof (width_small z ltac:(lia)). pose proof (width_bounds z).
  unfold canon, f64_to_int, f64_trunc. fold (width z). rewrite Z2Pos.id by (apply Z.mul_pos_pos; lia).
  assert (H3 : fst (if 0 <=? width z - 53 then (Zpos z * 2 ^ (53 - width z) * 2 ^ (width z - 53), false)
    else (Zpos z * 2 ^ (53 - width z) / 2 ^ (- (width z - 53)),
          negb (Zpos z * 2 ^ (53 - width z) mod 2 ^ (- (width z - 53)) =? 0))) = Zpos z).
  { destruct (Z.leb_spec 0 (width z - 53)); simpl.
    - replace (width z) with 53 by lia. simpl. lia.
    - replace (- (width z - 53)) with (53 - width z) by lia. apply Z.div_mul. apply Z.pow_nonzero; lia. }
  cbn [cond_Zopp]. rewrite H3. unfold int64_min, int64_max.
  by rewrite (proj2 (Z.leb_le _ _)), (proj2 (Z.leb_le _ _)) by lia.
Qed.

(** * An index computed as a fraction of a length *)

Lemma shr_fexp_lt m e :
  0 < m → -1074 ≤ Zdigits2 m + e - 53 → shr_m (fst (shr_fexp 53 1024 m e loc_Exact)) < 2 ^ 53.
Proof.
  intros Hm He. unfold shr_fexp, shr, fexp, emin. destruct m as [|p|p]; [lia| |lia]. simpl Zdigits2 in *.
  rewrite Z.max_l by lia. pose proof (digits2_bounds p) as [_ Hd].
  destruct (Zpos (digits2_pos p) + e - 53 - e) as [|n|n] eqn:En; simpl.
  - eapply Z.lt_le_trans; [exact Hd|]. apply Z.pow_le_mono_r; lia.
  - rewrite iter_shr_div by (simpl; lia). simpl shr_m. apply Z.div_lt_upper_bound; [lia|].
    rewrite <- Z.pow_add_r by lia. eapply Z.lt_le_trans; [exact Hd|]. apply Z.pow_le_mono_r; lia.
  - eapply Z.lt_le_trans; [exact Hd|]. apply Z.pow_le_mono_r; lia.
Qed.
Lemma trunc_round m e :
  0 < m → -1000 ≤ e ≤ 0 → Zdigits2 m + e ≤ 53 →
  0 ≤ f64_to_int (binary_round_aux 53 1024 false m e loc_Exact) ≤ 2 ^ 55.
Proof.
  intros Hm He Hd. unfold binary_round_aux. pose proof (digits2_pos_pos m Hm).
  destruct (shr_fexp_pos m e) as [H1 H2]; [lia|lia|]. pose proof (shr_fexp_lt m e Hm ltac:(lia)) as H3.
  destruct (shr_fexp 53 1024 m e loc_Exact) as [r1 e1]; simpl in H1, H2, H3.
  pose proof (round_exact_bounds (shr_m r1) (loc_of_shr_record r1)) as Hr.
  set (m2 := round_nearest_even _ _) in *. clearbody m2.
  assert (Hd2 : Zdigits2 m2 ≤ 54) by (apply digits2_le; lia). pose proof (digits2_pos_pos m2).
  destruct (shr_fexp_pos m2 e1) as [Hm2 He2]; [lia|lia|].
  destruct (shr_fexp 53 1024 m2 e1 loc_Exact) as [r2 e2]; simpl in Hm2, He2.
  destruct (shr_m r2) as [|p|p]; [lia| |lia]. rewrite (proj2 (Z.leb_le _ _)) by lia.
  cbn [f64_to_int cond_Zopp]. set (v := fst (f64_trunc p e2)). assert (0 ≤ v ≤ 2 ^ 55).
  { unfold v, f64_trunc. destruct (Z.leb_spec 0 e2); cbn [fst].
    - assert (2 ^ e2 ≤ 2 ^ 1) by (apply Z.pow_le_mono_r; lia). assert (0 < 2 ^ e2) by (apply Z.pow_pos_nonneg; lia).
      change (2 ^ 1) with 2 in *. assert (2 ^ 55 = 2 * 2 ^ 54) by done. nia.
    - split; [apply Z.div_pos; lia|]. apply Z.div_le_upper_bound; [lia|].
      assert (1 ≤ 2 ^ (- e2)) by lia. nia. }
  unfold int64_min, int64_max. rewrite (proj2 (Z.leb_le _ v)), (proj2 (Z.leb_le v _)) by lia. cbn [andb]. lia.
Qed.
(** [int(p * float64(n))] is not negative, and in range, for a fraction [p]. *)
Definition fraction (p : float64) : bool :=
  match p with S754_finite false m e => (e =? -53) && (Zpos m <? 2 ^ 53) | _ => false end.
Lemma fraction_index p z : fraction p = true → 0 ≤ z < 2 ^ 53 →
  0 ≤ f64_to_int (fmul p (f64_of_Z z)) ≤ 2 ^ 55.
Proof.
  destruct p as [| | |[] m e]; try done. simpl fraction. intros [He Hm]%andb_true_iff Hz.
  apply Z.eqb_eq in He as ->. apply Z.ltb_lt in Hm. destruct z as [|z|z]; [done| |lia].
  rewrite f64_of_Z_canon by lia. unfold canon. fold (width z). cbn [SFmul xorb].
  pose proof (width_small z ltac:(lia)) as Hw. pose proof (width_bounds z) as [Hw1 Hw2].
  set (M := Z.to_pos _). assert (HM : Zpos M < 2 ^ 53).
  { unfold M. rewrite Z2Pos.id by (apply Z.mul_pos_pos; lia).
    replace (2 ^ 53) with (2 ^ width z * 2 ^ (53 - width z)) by (rewrite <- Z.pow_add_r by lia; f_equal; lia).
    apply Z.mul_lt_mono_pos_r; lia. }
  assert (Zpos m * Zpos M < 2 ^ 106) by (change (2 ^ 106) with (2 ^ 53 * 2 ^ 53); nia).
  assert (Zdigits2 (Zpos (m * M)) ≤ 106) by (apply digits2_le; lia).
  apply trunc_round; [lia..|]. lia.
Qed.
Lemma percentile_fractions : Forall (λ p, fraction p = true) [f64_lit 1 2; f64_lit 95 100; f64_lit 99 100].
Proof. repeat constructor. Qed.
(** * Seconds in nanoseconds *)

Lemma shr_fexp_exact m e :
  0 < m → -1074 ≤ Zdigits2 m + e - 53 → 53 ≤ Zdigits2 m →
  let r := shr_fexp 53 1024 m e loc_Exact in
  shr_m (fst r) = m / 2 ^ (Zdigits2 m - 53) ∧ snd r = Zdigits2 m + e - 53.
Proof.
  intros Hm He Hd. unfold shr_fexp, shr, fexp, emin. destruct m as [|p|p]; [lia| |lia]. simpl Zdigits2 in *.
  rewrite Z.max_l by lia. replace (Zpos (digits2_pos p) + e - 53 - e) with (Zpos (digits2_pos p) - 53) by lia.
  destruct (Zpos (digits2_pos p) - 53) as [|n|n] eqn:En; simpl; [|rewrite iter_shr_div by (simpl; lia); simpl|lia].
  - rewrite Z.div_1_r. split; [done|lia].
  - split; [done|lia].
Qed.
Lemma digits2_interval m : 0 < m → 2 ^ (Zdigits2 m - 1) ≤ m < 2 ^ Zdigits2 m.
Proof. destruct m as [|p|p]; [lia| |lia]. intros _. apply digits2_bounds. Qed.
(** Rounding to nearest does not go below the integer part, as far as that is exact. *)
Lemma round_trunc m e :
  2 ^ 54 ≤ m → -1000 ≤ e ≤ 0 → m < (2 ^ 63 - 2 ^ 12) * 2 ^ (- e) →
  Z.min (m / 2 ^ (- e)) (2 ^ 52) ≤ f64_to_int (binary_round_aux 53 1024 false m e loc_Exact).
Proof.
  intros Hm He Hup. assert (Hm0 : 0 < m) by lia. pose proof (digits2_interval m Hm0) as [Hd1 Hd2].
  set (d := Zdigits2 m) in *.
  assert (Hd : 55 ≤ d).
  { destruct (Z.le_gt_cases 55 d); [done|]. assert (2 ^ d ≤ 2 ^ 54) by (apply Z.pow_le_mono_r; lia). lia. }
  assert (Hp : ∀ k, 0 ≤ k → 0 < 2 ^ k) by (intros; apply Z.pow_pos_nonneg; lia).
  assert (Hd63 : d + e ≤ 63).
  { destruct (Z.le_gt_cases (d + e) 63); [done|].
    assert (2 ^ (63 + - e) ≤ 2 ^ (d - 1)) by (apply Z.pow_le_mono_r; lia). rewrite Z.pow_add_r in * by lia.
    pose proof (Hp (- e) ltac:(lia)). nia. }
  unfold binary_round_aux.
  destruct (shr_fexp_exact m e Hm0) as [H1 H2]; [fold d; lia..|]. fold d in H1, H2.
  destruct (shr_fexp 53 1024 m e loc_Exact) as [r1 e1]. cbn [fst snd] in H1, H2.
  assert (Hsplit : 2 ^ d = 2 ^ (d - 53) * 2 ^ 53) by (rewrite <- Z.pow_add_r by lia; f_equal; lia).
  assert (Hsplit' : 2 ^ (d - 1) = 2 ^ (d - 53) * 2 ^ 52) by (rewrite <- Z.pow_add_r by lia; f_equal; lia).
  pose proof (Hp (d - 53) ltac:(lia)) as Hpd.
  assert (Hm1 : 2 ^ 52 ≤ shr_m r1 < 2 ^ 53).
  { rewrite H1. split; [apply Z.div_le_lower_bound; lia|apply Z.div_lt_upper_bound; lia]. }
  pose proof (round_exact_bounds (shr_m r1) (loc_of_shr_record r1) ltac:(lia)) as Hr.
  set (m2 := round_nearest_even _ _) in *. clearbody m2.
  assert (Hm2 : 0 < m2) by lia. pose proof (digits2_interval m2 Hm2) as [Hq1 Hq2].
  set (d2 := Zdigits2 m2) in *.
  assert (Hd2b : 53 ≤ d2 ≤ 54).
  { split; [destruct (Z.le_gt_cases 53 d2); [done|]; assert (2 ^ d2 ≤ 2 ^ 52) by (apply Z.pow_le_mono_r; lia); lia|].
    apply digits2_le; lia. }
  destruct (shr_fexp_exact m2 e1 Hm2) as [H3 H4]; [fold d2; lia..|]. fold d2 in H3, H4.
  destruct (shr_fexp 53 1024 m2 e1 loc_Exact) as [r2 e2]. cbn [fst snd] in H3, H4.
  (* the second shift is exact *)
  assert (Hex : m2 = shr_m r2 * 2 ^ (d2 - 53) ∧ 2 ^ 52 ≤ shr_m r2).
  { destruct (Z.eq_dec d2 53) as [E|E].
    - rewrite H3, E. change (2 ^ (53 - 53)) with 1. rewrite Z.div_1_r. lia.
    - assert (E' : d2 = 54) by lia. assert (m2 = 2 ^ 53) as -> by (rewrite E' in Hq1; change (2 ^ (54 - 1)) with (2 ^ 53) in Hq1; lia).
      rewrite H3, E'. done. }
  destruct Hex as [Hex Hr2]. destruct (shr_m r2) as [|p|p] eqn:Ep; [lia| |lia].
  rewrite (proj2 (Z.leb_le _ _)) by lia. cbn [f64_to_int cond_Zopp].
  assert (Ev : fst (f64_trunc p e2) = if 0 <=? e2 then Zpos p * 2 ^ e2 else m2 / 2 ^ (- e1)).
  { unfold f64_trunc. destruct (Z.leb_spec 0 e2); [done|]. cbn [fst]. rewrite Hex.
    replace (- e1) with (- e2 + (d2 - 53)) by lia. rewrite Z.pow_add_r by lia.
    rewrite Z.div_mul_cancel_r; [done|pose proof (Hp (- e2)); lia|pose proof (Hp (d2 - 53)); lia]. }
  set (v := fst (f64_trunc p e2)) in *. clearbody v.
  assert (Hlow : Z.min (m / 2 ^ (- e)) (2 ^ 52) ≤ v ∧ v ≤ int64_max ∧ 0 ≤ v).
  { rewrite Ev. assert (Hme : m / 2 ^ (- e) < 2 ^ 63 - 2 ^ 12) by (apply Z.div_lt_upper_bound; [apply Hp; lia|lia]).
    destruct (Z.leb_spec 0 e2) as [Hpos|Hneg].
    - assert (2 ^ 52 * 1 ≤ Zpos p * 2 ^ e2) by (apply Z.mul_le_mono_nonneg; [lia..|pose proof (Hp e2); lia]).
      split; [lia|]. split; [|lia]. unfold int64_max.
      (* the value is at most one unit above the exact product *)
      assert (Hval : Zpos p * 2 ^ e2 * 2 ^ (- e) ≤ m + 2 ^ (d - 53)).
      { assert (Hmul : Zpos p * 2 ^ e2 * 2 ^ (- e) = m2 * 2 ^ (d - 53)).
        { rewrite Hex, <- !Z.mul_assoc, <- !Z.pow_add_r by lia. do 2 f_equal. lia. }
        rewrite Hmul. assert (m2 ≤ m / 2 ^ (d - 53) + 1) by lia.
        pose proof (Z.mul_div_le m (2 ^ (d - 53)) Hpd). nia. }
      assert (Hunit : 2 ^ (d - 53) ≤ 2 ^ 11 * 2 ^ (- e)).
      { destruct (Z.le_gt_cases (d - 53) (11 + - e)); [|lia]. rewrite <- Z.pow_add_r by lia. apply Z.pow_le_mono_r; lia. }
      pose proof (Hp (- e) ltac:(lia)).
      assert (Zpos p * 2 ^ e2 * 2 ^ (- e) < (2 ^ 63 - 1) * 2 ^ (- e)) by nia.
      apply Z.lt_le_incl. eapply Z.mul_lt_mono_pos_r; [exact H0|done].
    - assert (He1 : e1 < 0) by lia. pose proof (Hp (- e1) ltac:(lia)) as Hpe.
      assert (Hdiv : m / 2 ^ (- e) = shr_m r1 / 2 ^ (- e1)).
      { rewrite H1, Z.div_div by lia. rewrite <- Z.pow_add_r by lia. do 2 f_equal. lia. }
      split_and!; [|unfold int64_max; apply (Z.le_trans _ m2); [apply Z.div_le_upper_bound; nia|lia]|apply Z.div_pos; lia].
      assert (shr_m r1 / 2 ^ (- e1) ≤ m2 / 2 ^ (- e1)) by (apply Z.div_le_mono; lia). lia. }
  unfold int64_min in *. rewrite (proj2 (Z.leb_le _ v)), (proj2 (Z.leb_le v _)) by lia. cbn [andb]. lia.
Qed.
Lemma fltb_false_finite m e m' e' : fltb (S754_finite false m e) (S754_finite false m' e') = false →
  e' < e ∨ (e = e' ∧ Zpos m' ≤ Zpos m).
Proof.
  unfold SFltb, SFcompare. rewrite pos_compare_cont_eq. destruct (Z.compare_spec e e') as [->|H|H]; [|done|by left].
  destruct (Pos.compare_spec m m'); intros; try done; right; lia.
Qed.
Lemma fleb_finite m e m' e' : fleb (S754_finite false m e) (S754_finite false m' e') = true →
  e < e' ∨ (e = e' ∧ Zpos m ≤ Zpos m').
Proof.
  unfold SFleb, SFcompare. rewrite pos_compare_cont_eq. destruct (Z.compare_spec e e') as [->|H|H]; [|by left|done].
  destruct (Pos.compare_spec m m'); intros; try done; right; lia.
Qed.
(** A number of seconds between a millisecond and nine billion, in nanoseconds. *)
Lemma nanoseconds_at_least y :
  valid_binary 53 1024 y = true → fltb y (f64_lit 1 1000) = false → fleb y (f64_of_Z 9000000000) = true →
  1000000 ≤ f64_to_int (fmul y (f64_of_Z 1000000000)).
Proof.
  replace (f64_lit 1 1000) with (S754_finite false 4611686018427388 (-62)) by (vm_compute; reflexivity).
  replace (f64_of_Z 9000000000) with (S754_finite false 4718592000000000 (-19)) by (vm_compute; reflexivity).
  replace (f64_of_Z 1000000000) with (S754_finite false 8388608000000000 (-23)) by (vm_compute; reflexivity).
  destruct y as [s|s| |[] m e]; try done; [by destruct s|]. cbn [valid_binary].
  unfold bounded, canonical_mantissa, fexp, emin. intros [Hc _]%andb_true_iff. apply Z.eqb_eq in Hc.
  intros Hl%fltb_false_finite Hh%fleb_finite.
  assert (Hd : Zpos (digits2_pos m) = 53) by lia. pose proof (digits2_bounds m) as [Hm1 Hm2]. rewrite Hd in Hm1, Hm2.
  change (2 ^ (53 - 1)) with 4503599627370496 in Hm1. change (2 ^ 53) with 9007199254740992 in Hm2.
  cbn [SFmul xorb]. set (P := Zpos (m * 8388608000000000)). assert (HP : P = Zpos m * 8388608000000000) by (unfold P; lia).
  clearbody P. assert (Hpk : ∀ k, 0 ≤ k → 1 ≤ 2 ^ k) by (intros k Hk; pose proof (Z.pow_pos_nonneg 2 k); lia).
  etrans; [|apply (round_trunc P (e + -23))]; [|change (2 ^ 54) with 18014398509481984; lia|lia|].
  - apply Z.min_glb; [|change (2 ^ 52) with 4503599627370496; lia]. apply Z.div_le_lower_bound; [pose proof (Hpk (- (e + -23))); lia|].
    assert (Hpow : 2 ^ 85 = 2 ^ (- (e + -23)) * 2 ^ (e + 62)) by (rewrite <- Z.pow_add_r by lia; f_equal; lia).
    change (2 ^ 85) with 38685626227668133590597632 in Hpow. pose proof (Hpk (e + 62) ltac:(lia)) as Hq.
    destruct Hl as [Hl|[-> Hl]].
    + assert (2 ≤ 2 ^ (e + 62)) by (change 2 with (2 ^ 1) at 1; apply Z.pow_le_mono_r; lia). nia.
    + change (2 ^ (-62 + 62)) with 1 in Hpow. nia.
  - assert (Hpow : 2 ^ (- (e + -23)) = 2 ^ 42 * 2 ^ (-19 - e)) by (rewrite <- Z.pow_add_r by lia; f_equal; lia).
    rewrite Hpow. change (2 ^ 42) with 4398046511104. change (2 ^ 63 - 2 ^ 12) with 9223372036854771712.
    destruct Hh as [Hh|[-> Hh]]; [|change (2 ^ (-19 - -19)) with 1; lia].
    assert (2 ≤ 2 ^ (-19 - e)) by (change 2 with (2 ^ 1) at 1; apply Z.pow_le_mono_r; lia). nia.
Qed.
