(* ===== verification/GoHeap.v ===== *)
(** Go's [container/heap] on a slice, as package [engine] uses it: [up],
    [down], [Push] and [Pop] over an abstract [Less], and the proof that they
    keep the heap order and that [Pop] returns a least element. *)
From S2P Require Import Prelude.
#[local] Open Scope nat_scope.

Section heap.
Context {A : Type} (less : A → A → bool).

(** [h.Less(i, j)] and [h.Swap(i, j)]; the heap functions only call them with
    indices below [h.Len()]. *)
Definition lessAt (l : list A) (i j : nat) : bool :=
  match l !! i, l !! j with Some x, Some y => less x y | _, _ => false end.
Definition swap (l : list A) (i j : nat) : list A :=
  match l !! i, l !! j with
  | Some x, Some y => <[i:=y]> (<[j:=x]> l)
  | _, _ => l
  end.
(** [(j - 1) / 2], which is 0 for [j = 0] with Go's truncated division. *)
Definition parent (j : nat) : nat := (j - 1) / 2.

Fixpoint up (fuel : nat) (l : list A) (j : nat) : list A :=
  match fuel with
  | O => l
  | S fuel =>
      let i := parent j in
      if (i =? j) || negb (lessAt l j i) then l else up fuel (swap l i j) i
  end.

Fixpoint down (fuel : nat) (l : list A) (i n : nat) : list A :=
  match fuel with
  | O => l
  | S fuel =>
      let j1 := 2 * i + 1 in
      if n <=? j1 then l
      else
        let j2 := j1 + 1 in
        let j := if (j2 <? n) && lessAt l j2 j1 then j2 else j1 in
        if negb (lessAt l j i) then l else down fuel (swap l i j) j n
  end.

(** Every iteration moves [j] towards 0, or [i] towards [n]: a fuel of the
    length of the slice is never used up. *)
Definition heap_Push (l : list A) (x : A) : list A :=
  let l' := l ++ [x] in up (length l') l' (length l' - 1).
Definition heap_Pop (l : list A) : option (A * list A) :=
  let n := length l - 1 in
  let l' := down n (swap l 0 n) 0 n in
  match l' !! n with Some x => Some (x, take n l') | None => None end.

(** * Swapping *)

Definition transpose (i j k : nat) : nat :=
  if decide (k = i) then j else if decide (k = j) then i else k.

Lemma swap_lookup l i j k :
  i < length l → j < length l → swap l i j !! k = l !! transpose i j k.
Proof.
  intros Hi Hj. unfold swap, transpose.
  destruct (lookup_lt_is_Some_2 l i Hi) as [x Ex], (lookup_lt_is_Some_2 l j Hj) as [y Ey].
  rewrite Ex, Ey. repeat case_decide; subst.
  - by rewrite list_lookup_insert_eq by (rewrite length_insert; lia).
  - rewrite list_lookup_insert_ne by done. by rewrite list_lookup_insert_eq.
  - by rewrite !list_lookup_insert_ne by done.
Qed.
Lemma swap_length l i j : length (swap l i j) = length l.
Proof. unfold swap. repeat case_match; rewrite ?length_insert; done. Qed.
Lemma swap_perm l i j : swap l i j ≡ₚ l.
Proof.
  unfold swap. destruct (l !! i) as [x|] eqn:Ei; [|done].
  destruct (l !! j) as [y|] eqn:Ej; [|done]. by apply Permutation_insert_swap.
Qed.

Lemma up_perm fuel l j : up fuel l j ≡ₚ l.
Proof.
  revert l j. induction fuel as [|fuel IH]; intros l j; simpl; [done|].
  case_match; [done|]. by rewrite IH, swap_perm.
Qed.
Lemma down_perm fuel l i n : down fuel l i n ≡ₚ l.
Proof.
  revert l i. induction fuel as [|fuel IH]; intros l i; simpl; [done|].
  repeat case_match; try done; by rewrite IH, swap_perm.
Qed.

(** * Heap order *)

(** [less] is a strict weak order: [leq x y := ¬ less y x] is a total
    preorder. *)
Definition leq (x y : A) : Prop := less y x = false.
Context (leq_trans : ∀ x y z, leq x y → leq y z → leq x z).
Context (less_asym : ∀ x y, less x y = true → leq x y).

Definition leqAt (l : list A) (i j : nat) : Prop :=
  ∀ x y, l !! i = Some x → l !! j = Some y → leq x y.
(** The prefix of length [n] is heap ordered. *)
Definition heap_upto (n : nat) (l : list A) : Prop :=
  ∀ i, 0 < i < n → leqAt l (parent i) i.
Definition heap_ok (l : list A) : Prop := heap_upto (length l) l.

Lemma parent_lt i : 0 < i → parent i < i.
Proof. unfold parent. intros. apply Nat.Div0.div_lt_upper_bound. lia. Qed.
Lemma parent_children i k : 0 < k → parent k = i ↔ k = 2 * i + 1 ∨ k = 2 * i + 2.
Proof.
  unfold parent. intros. pose proof (Nat.div_mod_eq (k - 1) 2).
  pose proof (Nat.mod_upper_bound (k - 1) 2). lia.
Qed.
Lemma leqAt_trans l i j k : j < length l → leqAt l i j → leqAt l j k → leqAt l i k.
Proof.
  intros Hj H1 H2 x z Ex Ez. destruct (lookup_lt_is_Some_2 l j Hj) as [y Ey]. eauto.
Qed.
Lemma lessAt_true l i j : lessAt l i j = true → leqAt l i j.
Proof. unfold lessAt, leqAt. intros H x y Ex Ey. rewrite Ex, Ey in H. auto. Qed.
Lemma lessAt_false l i j : lessAt l i j = false → leqAt l j i.
Proof. unfold lessAt, leqAt. intros H x y Ex Ey. by rewrite Ex, Ey in H. Qed.
Lemma leqAt_swap l i j a b :
  i < length l → j < length l →
  leqAt l (transpose i j a) (transpose i j b) → leqAt (swap l i j) a b.
Proof. intros Hi Hj H x y. rewrite !swap_lookup by done. apply H. Qed.

(** ** Sifting up *)

(** Heap ordered except between [j] and its parent. *)
Definition up_inv (l : list A) (j : nat) : Prop :=
  (∀ i, 0 < i → i ≠ j → leqAt l (parent i) i) ∧
  (∀ c, 0 < c → parent c = j → 0 < j → leqAt l (parent j) c).

Lemma up_inv_swap l j :
  0 < j < length l → lessAt l j (parent j) = true → up_inv l j →
  up_inv (swap l (parent j) j) (parent j).
Proof.
  intros Hj Hless [H1 H2]. pose proof (parent_lt j) as Hp.
  pose proof (lessAt_true _ _ _ Hless) as Hle.
  split; intros i Hi; [intros Hne | intros Hpi Hp0]; apply leqAt_swap; try lia;
    unfold transpose.
  - rewrite (decide_False (P := i = parent j)) by done.
    destruct (decide (i = j)) as [->|Hij]; [by rewrite !decide_True|].
    destruct (decide (parent i = parent j)) as [Epp|].
    + apply (leqAt_trans l j (parent j)); [lia | done | rewrite <-Epp; by apply H1].
    + destruct (decide (parent i = j)); [apply H2; lia | by apply H1].
  - pose proof (parent_lt (parent j)).
    rewrite (decide_False (P := parent (parent j) = parent j)) by lia.
    rewrite (decide_False (P := parent (parent j) = j)) by lia.
    rewrite (decide_False (P := i = parent j)) by (pose proof (parent_lt i); lia).
    destruct (decide (i = j)) as [->|]; [apply H1; lia|].
    apply (leqAt_trans l _ (parent j)); [lia | apply H1; lia | rewrite <-Hpi; apply H1; lia].
Qed.

Lemma up_heap fuel l j : j < fuel → j < length l → up_inv l j → heap_ok (up fuel l j).
Proof.
  revert l j. induction fuel as [|fuel IH]; intros l j Hf Hj Hinv; simpl; [lia|].
  destruct (Nat.eqb_spec (parent j) j) as [E|E]; simpl.
  - assert (j = 0) as -> by (destruct (decide (j = 0)); [done | pose proof (parent_lt j); lia]).
    intros i Hi. apply Hinv; lia.
  - assert (0 < j) as H0 by (destruct j; [done | lia]). pose proof (parent_lt j H0).
    destruct (lessAt l j (parent j)) eqn:Hl; simpl.
    + apply IH; [lia | rewrite swap_length; lia | by apply up_inv_swap].
    + intros i Hi. destruct (decide (i = j)) as [->|]; [by apply lessAt_false | apply Hinv; lia].
Qed.

(** ** Sifting down *)

(** The prefix [n] is heap ordered except between [i] and its children. *)
Definition down_inv (l : list A) (i n : nat) : Prop :=
  (∀ k, 0 < k < n → parent k ≠ i → leqAt l (parent k) k) ∧
  (∀ c, 0 < c < n → parent c = i → 0 < i → leqAt l (parent i) c).

(** The child [down] compares with: the lesser one. *)
Definition child (l : list A) (i n : nat) : nat :=
  if (2 * i + 1 + 1 <? n) && lessAt l (2 * i + 1 + 1) (2 * i + 1)
  then 2 * i + 1 + 1 else 2 * i + 1.

Lemma child_spec l i n :
  2 * i + 1 < n → n ≤ length l →
  0 < child l i n < n ∧ parent (child l i n) = i ∧
  (∀ k, 0 < k < n → parent k = i → leqAt l (child l i n) k ∨ k = child l i n).
Proof.
  intros Hn Hl. unfold child.
  destruct (Nat.ltb_spec (2 * i + 1 + 1) n); simpl;
    [destruct (lessAt l _ _) eqn:E|]; (split_and!; [lia | lia | apply parent_children; lia |]);
    intros k Hk Hp; apply parent_children in Hp as [->| ->]; try lia; auto;
    replace (2 * i + 2) with (2 * i + 1 + 1) in * by lia; auto.
  - left. by apply lessAt_true.
  - left. by apply lessAt_false.
Qed.

Lemma down_inv_swap l i j n :
  n ≤ length l → 0 < j < n → parent j = i → leqAt l j i →
  (∀ k, 0 < k < n → parent k = i → leqAt l j k ∨ k = j) →
  down_inv l i n → down_inv (swap l i j) j n.
Proof.
  intros Hl Hj Hp Hji Hmin [H1 H2]. pose proof (parent_lt j).
  split; intros k Hk; [intros Hne | intros Hpk _]; apply leqAt_swap; try lia; unfold transpose.
  - rewrite (decide_False (P := parent k = j)) by done.
    destruct (decide (k = i)) as [->|Hki].
    { pose proof (parent_lt i). rewrite decide_False by lia. apply H2; lia. }
    destruct (decide (parent k = i)) as [Epi|]; [|].
    + destruct (decide (k = j)) as [->|]; [done|]. destruct (Hmin k); auto; done.
    + rewrite decide_False by congruence. by apply H1.
  - pose proof (parent_lt k).
    rewrite Hp, (decide_True (P := i = i)) by done.
    rewrite !decide_False by lia. rewrite <-Hpk. apply H1; lia.
Qed.

Lemma down_heap fuel l i n :
  n - i ≤ fuel → n ≤ length l → down_inv l i n → heap_upto n (down fuel l i n).
Proof.
  revert l i. induction fuel as [|fuel IH]; intros l i Hf Hl Hinv; cbn [down].
  { intros k Hk. apply Hinv; [done|]. pose proof (parent_lt k). lia. }
  destruct (Nat.leb_spec n (2 * i + 1)).
  { intros k Hk. apply Hinv; [done|]. rewrite parent_children by lia. lia. }
  fold (child l i n). destruct (child_spec l i n) as (Hj & Hp & Hmin); [lia..|].
  destruct (lessAt l (child l i n) i) eqn:E; simpl.
  - pose proof (parent_lt (child l i n)). apply IH; [lia | rewrite swap_length; lia|].
    by apply down_inv_swap; auto using lessAt_true.
  - intros k Hk. destruct (decide (parent k = i)) as [Epk|]; [|by apply Hinv].
    rewrite Epk. apply lessAt_false in E.
    destruct (Hmin k Hk Epk) as [Hle| ->]; [|done].
    apply (leqAt_trans l i (child l i n)); auto with lia.
Qed.

(** [down] leaves the slots from [n] on alone. *)
Lemma down_untouched fuel l i n k : n ≤ length l → n ≤ k → down fuel l i n !! k = l !! k.
Proof.
  revert l i. induction fuel as [|fuel IH]; intros l i Hl Hk; cbn [down]; [done|].
  destruct (Nat.leb_spec n (2 * i + 1)); [done|].
  fold (child l i n). destruct (child_spec l i n) as (Hj & Hp & _); [lia..|].
  pose proof (parent_lt (child l i n)). case_match; [done|].
  rewrite IH by (rewrite ?swap_length; lia). rewrite swap_lookup by lia.
  unfold transpose. by rewrite !decide_False by lia.
Qed.

(** * Specification of the operations *)

Lemma root_least l : heap_ok l → ∀ i, i < length l → leqAt l 0 i.
Proof.
  intros Hok i. induction (lt_wf i) as [i _ IH]. intros Hi.
  destruct (decide (i = 0)) as [->|Hi0].
  { intros x y Ex Ey. simplify_eq. unfold leq.
    destruct (less x x) eqn:E; [pose proof (less_asym _ _ E) as F; congruence | done]. }
  pose proof (parent_lt i).
  apply (leqAt_trans l 0 (parent i)); [lia | apply IH; lia | apply Hok; lia].
Qed.

Lemma heap_Push_perm l x : heap_Push l x ≡ₚ x :: l.
Proof. unfold heap_Push. by rewrite up_perm, Permutation_app_comm. Qed.
Lemma heap_Push_ok l x : heap_ok l → heap_ok (heap_Push l x).
Proof.
  intros Hok. unfold heap_Push. rewrite length_app; simpl.
  apply up_heap; rewrite ?length_app; simpl; [lia..|].
  replace (length l + 1 - 1) with (length l) by lia.
  split; intros i Hi Hne.
  - pose proof (parent_lt i Hi). destruct (decide (i < length l)).
    + intros y z. rewrite !lookup_app_l by lia. by apply Hok.
    + intros y z _. rewrite lookup_ge_None_2; [done | rewrite length_app; simpl; lia].
  - pose proof (parent_lt i Hi). intros _ y z _.
    rewrite lookup_ge_None_2; [done | rewrite length_app; simpl; lia].
Qed.

Lemma heap_Pop_nil : heap_Pop [] = None.
Proof. done. Qed.

Lemma heap_Pop_spec l :
  l ≠ [] → heap_ok l →
  ∃ x l', heap_Pop l = Some (x, l') ∧ l ≡ₚ x :: l' ∧ heap_ok l' ∧ ∀ y, y ∈ l → leq x y.
Proof.
  intros Hne Hok. unfold heap_Pop. set (n := length l - 1).
  assert (0 < length l) as H0 by (destruct l; simpl; [done | lia]).
  set (l2 := down n (swap l 0 n) 0 n).
  assert (length l2 = length l) as Hlen
    by (unfold l2; by rewrite (Permutation_length (down_perm _ _ _ _)), swap_length).
  assert (l2 !! n = l !! 0) as Hlast.
  { unfold l2. rewrite down_untouched by (rewrite ?swap_length; lia).
    rewrite swap_lookup by lia. unfold transpose. case_decide; [congruence|].
    by rewrite decide_True. }
  destruct (lookup_lt_is_Some_2 l 0 H0) as [x Ex]. rewrite Hlast, Ex.
  exists x, (take n l2). split_and!; [done|..].
  - assert (l2 = take n l2 ++ [x]) as El2.
    { rewrite <-(take_S_r l2 n x) by congruence. rewrite take_ge by lia. done. }
    rewrite <-(swap_perm l 0 n), <-(down_perm n (swap l 0 n) 0 n). fold l2.
    rewrite El2 at 1. apply Permutation_app_comm.
  - assert (heap_upto n l2) as Hup.
    { apply down_heap; [lia | rewrite swap_length; lia |].
      split; intros k Hk Hpk; [|lia].
      apply leqAt_swap; [lia..|]. unfold transpose. pose proof (parent_lt k).
      rewrite !decide_False by lia. apply Hok. lia. }
    intros i Hi y z. rewrite length_take in Hi. pose proof (parent_lt i).
    rewrite !lookup_take by lia. rewrite !decide_True by lia. apply Hup. lia.
  - intros y (i & Ey)%list_elem_of_lookup. apply (root_least l Hok i); [|done..].
    by eapply lookup_lt_Some.
Qed.
End heap.
