(* ===== verification/Utils.v ===== *)
(** [pkg/utils]: the numeric helpers (math.go) and the simulation clock
    (time.go). *)
From S2P Require Import Prelude GoFloat.
From Stdlib Require Import SpecFloat.
#[local] Open Scope string_scope.
#[local] Open Scope list_scope.
#[local] Open Scope Z_scope.

(** * math.go *)

Definition utils_Min (a b : Z) : Z := if a <? b then a else b.
Definition utils_Max (a b : Z) : Z := if b <? a then a else b.
Definition Clamp (value min max : Z) : Z :=
  if value <? min then min else if max <? value then max else value.
Definition ClampFloat64 (value min max : float64) : float64 :=
  if fltb value min then min else if fltb max value then max else value.

Definition utils_Sum (values : list float64) : float64 := foldl (λ s v, fadd s v) f0 values.
Definition Mean (values : list float64) : float64 :=
  if (length values =? 0)%nat then f0
  else fdiv (utils_Sum values) (f64_of_Z (Z.of_nat (length values))).
Definition Variance (values : list float64) : float64 :=
  if (length values =? 0)%nat then f0
  else
    let mean := Mean values in
    let sumSquares :=
      foldl (λ s v, let diff := fsub v mean in fadd s (fmul diff diff)) f0 values in
    fdiv sumSquares (f64_of_Z (Z.of_nat (length values))).
Definition StdDev (values : list float64) : float64 := SFsqrt 53 1024 (Variance values).

(** [sort.Float64s]: increasing, NaN first. *)
Definition float_before (x y : float64) : Prop := is_nan x || fleb x y = true.
#[export] Instance float_before_dec : RelDecision float_before.
Proof. unfold float_before. solve_decision. Defined.
Definition sort_Float64s (l : list float64) : list float64 := merge_sort float_before l.

(** Slice indexing: a negative index or one past the end panics. *)
Definition index {A} (l : list A) (i : Z) : go A :=
  if i <? 0 then Panic
  else match l !! Z.to_nat i with Some x => Ok x | None => Panic end.

Definition Percentile (values : list float64) (percentile : float64) : go float64 :=
  if (length values =? 0)%nat then Ok f0
  else
    let sorted := sort_Float64s values in
    let idx := fmul (fdiv percentile (f64_of_Z 100)) (f64_of_Z (Z.of_nat (length sorted) - 1)) in
    let lower := f64_to_int (math_Floor idx) in
    let upper := f64_to_int (math_Ceil idx) in
    if lower =? upper then index sorted lower
    else
      let weight := fsub idx (f64_of_Z lower) in
      let! a := index sorted lower in
      let! b := index sorted upper in
      Ok (fadd (fmul a (fsub f1 weight)) (fmul b weight)).
Definition P50 (values : list float64) : go float64 := Percentile values (f64_of_Z 50).
Definition P95 (values : list float64) : go float64 := Percentile values (f64_of_Z 95).
Definition P99 (values : list float64) : go float64 := Percentile values (f64_of_Z 99).

Lemma Clamp_bounds v lo hi : lo ≤ hi → lo ≤ Clamp v lo hi ≤ hi.
Proof. unfold Clamp. intros. destruct (Z.ltb_spec v lo); [lia|]. destruct (Z.ltb_spec hi v); lia. Qed.
Lemma ClampFloat64_bounds v lo hi :
  is_nan v = false → fleb lo hi = true →
  fleb lo (ClampFloat64 v lo hi) = true ∧ fleb (ClampFloat64 v lo hi) hi = true.
Proof.
  intros Hv Hle. pose proof Hle as (Hlo & Hhi & _)%fleb_key. unfold ClampFloat64.
  destruct (fltb v lo) eqn:E1; [split; auto using fleb_refl|].
  destruct (fltb hi v) eqn:E2; split; auto using fleb_refl, fltb_false.
Qed.

(** * time.go: the simulation clock *)

Abbreviation SimTime := Time (only parsing).
Definition NewSimTime (start : Time) : SimTime := start.
Definition SimTime_Now (st : SimTime) : Time := st.
Definition SimTime_Advance (st : SimTime) (d : Duration) : SimTime := st + d.
Definition SimTime_Set (st : SimTime) (t : Time) : SimTime := t.
Definition SimTime_Since (st : SimTime) (t : Time) : Duration := Sub st t.
Definition SimTime_Until (st : SimTime) (t : Time) : Duration := Sub t st.
Definition MsToTime (ms : float64) : Duration := f64_to_int (fmul ms (f64_of_Z Millisecond)).
Definition TimeToMs (d : Duration) : float64 := fdiv (f64_of_Z d) (f64_of_Z Millisecond).
Definition MinTime (a b : Time) : Time := if Before a b then a else b.
Definition MaxTime (a b : Time) : Time := if After a b then a else b.
Definition MinDuration (a b : Duration) : Duration := if a <? b then a else b.
Definition MaxDuration (a b : Duration) : Duration := if b <? a then a else b.
