(* ===== verification/EventQueue.v ===== *)
(** [internal/engine/event.go]: events and the event queue, a binary heap
    ordered by time, priority and sequence number, refined against an abstract
    queue that keeps its events in delivery order. *)
From S2P Require Import Prelude GoFloat GoHeap.
From Stdlib Require Import SpecFloat.
#[local] Open Scope string_scope.
#[local] Open Scope list_scope.
#[local] Open Scope Z_scope.

(** * Events *)

Inductive EventType :=
  | EventTypeRequestArrival | EventTypeRequestStart | EventTypeRequestComplete
  | EventTypeDownstreamCall | EventTypeScaleUp | EventTypeScaleDown
  | EventTypeSimulationEnd | EventTypeWorkloadGenerate | EventTypeDrainSweep
  | EventTypeDownstreamTimeout | EventTypeDownstreamRetry
  | EventTypeDownstreamCallerOverheadStart | EventTypeDownstreamCallerOverheadEnd
  | EventTypeQueueEnqueue | EventTypeQueueDequeue | EventTypeQueueAckTimeout
  | EventTypeQueueRedelivery | EventTypeQueueDLQ | EventTypeAsyncParentFinalize
  | EventTypeTopicPublish | EventTypeTopicDequeue | EventTypeTopicAckTimeout
  | EventTypeTopicDLQ | EventTypeTopicRetentionExpire.
#[export] Instance EventType_eq_dec : EqDecision EventType.
Proof. solve_decision. Defined.

(** [Request] is a pointer: an address of the request store. *)
Record Event := mkEvent {
  ev_ID : string;
  ev_Type : EventType;
  ev_Time : Time;
  ev_Priority : Z;
  ev_Sequence : Z;
  ev_Request : option positive;
  ev_ServiceID : string;
  ev_Data : gmap string DataVal;
}.

(** [Less]: time, then priority, then schedule order. *)
Definition EventQueue_Less (a b : Event) : bool :=
  if Before (ev_Time a) (ev_Time b) then true
  else if After (ev_Time a) (ev_Time b) then false
  else if negb (ev_Priority a =? ev_Priority b) then ev_Priority a <? ev_Priority b
  else ev_Sequence a <? ev_Sequence b.

(** * The queue: a heap ordered slice *)

Abbreviation EventQueue := (list Event) (only parsing).
Definition NewEventQueue : EventQueue := [].
Definition EventQueue_Len (eq : EventQueue) : nat := length eq.
Definition EventQueue_Schedule (eq : EventQueue) (e : Event) : EventQueue :=
  heap_Push EventQueue_Less eq e.
Definition EventQueue_Next (eq : EventQueue) : option Event * EventQueue :=
  if (EventQueue_Len eq =? 0)%nat then (None, eq)
  else match heap_Pop EventQueue_Less eq with
       | Some (e, eq') => (Some e, eq')
       | None => (None, eq)
       end.
Definition EventQueue_Peek (eq : EventQueue) : option Event :=
  if (EventQueue_Len eq =? 0)%nat then None else eq !! 0%nat.
Definition EventQueue_Clear (eq : EventQueue) : EventQueue := [].
Definition EventQueue_Size (eq : EventQueue) : Z := Z.of_nat (EventQueue_Len eq).
Definition EventQueue_IsEmpty (eq : EventQueue) : bool := EventQueue_Size eq =? 0.

(** * Laws of the event order *)

(** The order of delivery: the earlier event; at the same time the one with the smaller
    priority number; among those the one scheduled first. *)
Definition precedes (a b : Event) : Prop :=
  ev_Time a < ev_Time b ∨
  (ev_Time a = ev_Time b ∧ (ev_Priority a < ev_Priority b ∨
    (ev_Priority a = ev_Priority b ∧ ev_Sequence a < ev_Sequence b))).
#[export] Instance precedes_dec a b : Decision (precedes a b).
Proof. unfold precedes. apply _. Defined.

Definition event_le (a b : Event) : Prop := leq EventQueue_Less a b.

Lemma event_less_spec a b :
  EventQueue_Less a b = true ↔ precedes a b.
Proof.
  unfold precedes, EventQueue_Less, Before, After.
  destruct (Z.ltb_spec (ev_Time a) (ev_Time b)), (Z.ltb_spec (ev_Time b) (ev_Time a)),
    (Z.eqb_spec (ev_Priority a) (ev_Priority b)); simpl; rewrite ?Z.ltb_lt; try lia;
    split; intros; try done; lia.
Qed.
Lemma event_le_spec a b :
  event_le a b ↔
  ev_Time a < ev_Time b ∨
  (ev_Time a = ev_Time b ∧ (ev_Priority a < ev_Priority b ∨
    (ev_Priority a = ev_Priority b ∧ ev_Sequence a ≤ ev_Sequence b))).
Proof. unfold event_le, leq. rewrite <-not_true_iff_false, event_less_spec. unfold precedes. lia. Qed.

#[export] Instance event_le_trans : Transitive event_le.
Proof. intros a b c. rewrite !event_le_spec. lia. Qed.
#[export] Instance event_le_refl : Reflexive event_le.
Proof. intros a. rewrite event_le_spec. lia. Qed.
Lemma event_le_total a b : event_le a b ∨ event_le b a.
Proof. rewrite !event_le_spec. lia. Qed.
Lemma event_less_asym a b : EventQueue_Less a b = true → event_le a b.
Proof. rewrite event_less_spec, event_le_spec. unfold precedes. lia. Qed.
Lemma event_le_seq a b : event_le a b → event_le b a → ev_Sequence a = ev_Sequence b.
Proof. rewrite !event_le_spec. lia. Qed.

Definition queue_ok (eq : EventQueue) : Prop := heap_ok EventQueue_Less eq.

Lemma queue_ok_nil : queue_ok [].
Proof. intros i. simpl. lia. Qed.
Lemma Schedule_perm eq e : EventQueue_Schedule eq e ≡ₚ e :: eq.
Proof. apply heap_Push_perm. Qed.
Lemma Schedule_ok eq e : queue_ok eq → queue_ok (EventQueue_Schedule eq e).
Proof. apply heap_Push_ok; [apply event_le_trans | apply event_less_asym]. Qed.
Lemma Next_nil : EventQueue_Next [] = (None, []).
Proof. done. Qed.
Lemma Next_some eq :
  eq ≠ [] → queue_ok eq →
  ∃ e eq', EventQueue_Next eq = (Some e, eq') ∧ eq ≡ₚ e :: eq' ∧ queue_ok eq' ∧
           ∀ x, x ∈ eq → event_le e x.
Proof.
  intros Hne Hok.
  destruct (heap_Pop_spec EventQueue_Less event_le_trans event_less_asym eq Hne Hok)
    as (e & eq' & E & Hp & Hok' & Hmin).
  exists e, eq'. unfold EventQueue_Next, EventQueue_Len.
  destruct eq; [done|]. simpl in *. rewrite E. done.
Qed.
Lemma Next_ok eq : queue_ok eq → queue_ok (EventQueue_Next eq).2.
Proof.
  intros Hok. destruct (decide (eq = [])) as [->|Hne]; [done|].
  destruct (Next_some eq Hne Hok) as (e & eq' & -> & _ & ? & _). done.
Qed.
Lemma Peek_Next eq : queue_ok eq → EventQueue_Peek eq = (EventQueue_Next eq).1.
Proof.
  intros Hok. destruct eq as [|x eq']; [done|].
  unfold EventQueue_Peek, EventQueue_Next, heap_Pop. simpl EventQueue_Len. simpl Nat.eqb.
  set (l := x :: eq') in *. set (n := (length l - 1)%nat).
  assert (0 < length l)%nat by (simpl; lia).
  rewrite (down_untouched EventQueue_Less event_less_asym n (swap l 0 n) 0 n n)
    by (rewrite ?swap_length; lia).
  rewrite swap_lookup by lia. unfold transpose.
  case_decide; rewrite ?decide_True by done; [|done]. by replace n with 0%nat.
Qed.

Create HintDb evq.
#[export] Hint Resolve queue_ok_nil Schedule_ok Next_ok : evq.

(** * Abstract queue: the pending events in delivery order *)

(** It inserts by [precedes], not by the comparison of the code. *)
Fixpoint spec_Schedule (s : list Event) (e : Event) : list Event :=
  match s with
  | [] => [e]
  | x :: s' => if decide (precedes e x) then e :: s else x :: spec_Schedule s' e
  end.
Definition spec_Next (s : list Event) : option Event * list Event :=
  match s with [] => (None, []) | x :: s' => (Some x, s') end.

Inductive QueueOp := OpSchedule (e : Event) | OpNext | OpPeek | OpSize | OpClear.
Inductive QueueObs := ObsNone | ObsEvent (o : option Event) | ObsSize (n : Z).

Definition impl_step (op : QueueOp) (q : list Event) : QueueObs * list Event :=
  match op with
  | OpSchedule e => (ObsNone, EventQueue_Schedule q e)
  | OpNext => let '(o, q') := EventQueue_Next q in (ObsEvent o, q')
  | OpPeek => (ObsEvent (EventQueue_Peek q), q)
  | OpSize => (ObsSize (EventQueue_Size q), q)
  | OpClear => (ObsNone, EventQueue_Clear q)
  end.
Definition spec_step (op : QueueOp) (s : list Event) : QueueObs * list Event :=
  match op with
  | OpSchedule e => (ObsNone, spec_Schedule s e)
  | OpNext => let '(o, s') := spec_Next s in (ObsEvent o, s')
  | OpPeek => (ObsEvent (spec_Next s).1, s)
  | OpSize => (ObsSize (Z.of_nat (length s)), s)
  | OpClear => (ObsNone, [])
  end.
Fixpoint run_ops (step : QueueOp → list Event → QueueObs * list Event)
    (ops : list QueueOp) (q : list Event) : list QueueObs :=
  match ops with
  | [] => []
  | op :: ops' => let '(o, q') := step op q in o :: run_ops step ops' q'
  end.
Fixpoint scheduled (ops : list QueueOp) : list Event :=
  match ops with
  | [] => []
  | OpSchedule e :: ops' => e :: scheduled ops'
  | _ :: ops' => scheduled ops'
  end.

Lemma spec_Schedule_perm s e : spec_Schedule s e ≡ₚ e :: s.
Proof.
  induction s as [|x s IH]; simpl; [done|]. case_match; [done|].
  rewrite IH. by apply Permutation_swap.
Qed.
Lemma spec_Schedule_sorted s e :
  StronglySorted event_le s → StronglySorted event_le (spec_Schedule s e).
Proof.
  induction s as [|x s IH]; simpl; [repeat constructor|].
  intros [Hx Hs]%StronglySorted_cons. destruct (decide (precedes e x)) as [E|E].
  - apply event_less_spec, event_less_asym in E. apply StronglySorted_cons. split.
    + constructor; [done|]. eapply Forall_impl; [done|]. intros y ?. by etrans.
    + by apply StronglySorted_cons.
  - apply StronglySorted_cons. split; [|auto]. rewrite spec_Schedule_perm. constructor; [|done].
    unfold event_le, leq. rewrite <-not_true_iff_false. by rewrite event_less_spec.
Qed.

(** The simulation relation between heap and abstract queue. *)
Definition queue_sim (q s : list Event) : Prop :=
  queue_ok q ∧ q ≡ₚ s ∧ StronglySorted event_le s.

Lemma sim_Next q s :
  queue_sim q s → NoDup (ev_Sequence <$> s) →
  (EventQueue_Next q).1 = (spec_Next s).1 ∧
  queue_sim (EventQueue_Next q).2 (spec_Next s).2.
Proof.
  intros (Hok & Hp & Hs) Hnd. destruct s as [|x s]; simpl.
  { apply Permutation_nil_r in Hp as ->. split; [done|]. repeat split; auto using SSorted_nil with evq. }
  assert (q ≠ []) as Hne by (intros ->; by apply Permutation_nil_cons in Hp).
  destruct (Next_some q Hne Hok) as (e & q' & -> & Hp' & Hok' & Hmin); simpl.
  apply StronglySorted_cons in Hs as [Hx Hs].
  assert (e ∈ x :: s) as He by (rewrite <-Hp, Hp'; set_solver).
  assert (e = x) as ->.
  { apply (NoDup_fmap_inj_on ev_Sequence (x :: s)); [done..|set_solver|].
    apply event_le_seq; [apply Hmin; rewrite Hp; set_solver|].
    apply elem_of_cons in He as [->|He]; [done|]. rewrite Forall_forall in Hx. auto. }
  split; [done|]. split_and!; [done| |done].
  apply (Permutation_cons_inv (a := x)). by rewrite <-Hp'.
Qed.

Lemma sim_step op q s :
  queue_sim q s → NoDup (ev_Sequence <$> s) →
  (impl_step op q).1 = (spec_step op s).1 ∧
  queue_sim (impl_step op q).2 (spec_step op s).2.
Proof.
  intros Hsim Hnd. pose proof Hsim as (Hok & Hp & Hs). destruct op; simpl.
  - split; [done|]. split_and!; auto using spec_Schedule_sorted with evq.
    by rewrite Schedule_perm, spec_Schedule_perm, Hp.
  - destruct (sim_Next q s Hsim Hnd). do 2 case_match. naive_solver.
  - split; [|done]. rewrite Peek_Next by done. by destruct (sim_Next q s Hsim Hnd) as [-> _].
  - split; [|done]. unfold EventQueue_Size, EventQueue_Len. by rewrite Hp.
  - split; [done|]. repeat split; auto using SSorted_nil with evq.
Qed.

Lemma spec_step_fresh op ops s :
  NoDup (ev_Sequence <$> (s ++ scheduled (op :: ops))) →
  NoDup (ev_Sequence <$> ((spec_step op s).2 ++ scheduled ops)).
Proof.
  destruct op; simpl; try done.
  - by rewrite spec_Schedule_perm, <-Permutation_middle.
  - destruct s; simpl; [done|]. by rewrite NoDup_cons; intros [_ ?].
  - rewrite fmap_app. by intros (_ & _ & ?)%NoDup_app.
Qed.

Lemma run_ops_sim ops q s :
  queue_sim q s → NoDup (ev_Sequence <$> (s ++ scheduled ops)) →
  run_ops impl_step ops q = run_ops spec_step ops s.
Proof.
  revert q s. induction ops as [|op ops IH]; intros q s Hsim Hnd; [done|]. cbn [run_ops].
  destruct (sim_step op q s Hsim) as [Ho Hq].
  { rewrite fmap_app in Hnd. by apply NoDup_app in Hnd as (? & _ & _). }
  apply spec_step_fresh in Hnd.
  destruct (impl_step op q), (spec_step op s); simpl in *. f_equal; auto.
Qed.

(** * The queue's contract *)

Fixpoint exec_ops (ops : list QueueOp) (q : list Event) : list Event :=
  match ops with [] => q | op :: ops' => exec_ops ops' (impl_step op q).2 end.

Lemma impl_step_ok op q : queue_ok q → queue_ok (impl_step op q).2.
Proof.
  intros Hok. destruct op; simpl; auto with evq.
  pose proof (Next_ok q Hok). by destruct (EventQueue_Next q).
Qed.
Lemma exec_ops_ok ops q : queue_ok q → queue_ok (exec_ops ops q).
Proof. revert q. induction ops; simpl; auto using impl_step_ok. Qed.

(** C1: the heap implements the abstract queue. For every sequence of
    operations on a new queue whose scheduled events have distinct sequence
    numbers, the heap answers each operation exactly as the queue that keeps
    its events in the order [precedes]: by time, then by priority, the smaller number
    first, then by sequence number. *)
Theorem event_queue_refines (ops : list QueueOp) :
  NoDup (ev_Sequence <$> scheduled ops) →
  run_ops impl_step ops NewEventQueue = run_ops spec_step ops [].
Proof. intros. apply run_ops_sim; [repeat split; auto using SSorted_nil with evq | done]. Qed.

Definition sample_event (t p s : Z) : Event :=
  mkEvent "" EventTypeRequestArrival t p s None "" ∅.
Lemma event_queue_refines_witness :
  run_ops impl_step
    [OpSchedule (sample_event 5 0 1); OpSchedule (sample_event 3 1 2);
     OpSchedule (sample_event 3 0 3); OpNext; OpPeek; OpNext; OpNext; OpNext] NewEventQueue =
  [ObsNone; ObsNone; ObsNone; ObsEvent (Some (sample_event 3 0 3));
   ObsEvent (Some (sample_event 3 1 2)); ObsEvent (Some (sample_event 3 1 2));
   ObsEvent (Some (sample_event 5 0 1)); ObsEvent None].
Proof.
  rewrite event_queue_refines; [reflexivity|].
  simpl. repeat constructor; set_solver.
Defined.

(** whatever happened to a queue before, [Next] returns nothing only when no
    event is pending; otherwise it removes exactly one pending event, and no
    event that stays is before it in the order of time, priority, sequence. *)
Theorem next_delivers_least (ops : list QueueOp) :
  match EventQueue_Next (exec_ops ops NewEventQueue) with
  | (None, q') => exec_ops ops NewEventQueue = [] ∧ q' = []
  | (Some e, q') =>
      exec_ops ops NewEventQueue ≡ₚ e :: q' ∧
      Forall (λ x, ¬ precedes x e) q'
  end.
Proof.
  pose proof (exec_ops_ok ops NewEventQueue queue_ok_nil) as Hok.
  destruct (decide (exec_ops ops NewEventQueue = [])) as [->|Hne]; [done|].
  destruct (Next_some _ Hne Hok) as (e & q' & -> & Hp & _ & Hmin).
  split; [done|]. apply Forall_forall. intros x Hx. rewrite <-event_less_spec. rewrite not_true_iff_false. apply Hmin. rewrite Hp. by right.
Qed.
