(* ===== verification/RunManager.v ===== *)
(** [internal/engine/run.go]: the run manager, which keeps the lifecycle status
    of one run, its active requests, a bounded sample of completed requests and
    the latency summary. *)
From S2P Require Import Prelude GoFloat Utils.
From Stdlib Require Import SpecFloat.
#[local] Open Scope string_scope.
#[local] Open Scope list_scope.
#[local] Open Scope Z_scope.

(** * Data *)

Inductive RunStatus := RunStatusPending | RunStatusRunning | RunStatusCompleted | RunStatusFailed.
#[export] Instance RunStatus_eq_dec : EqDecision RunStatus.
Proof. solve_decision. Defined.
Inductive RequestStatus :=
  | RequestStatusPending | RequestStatusProcessing | RequestStatusCompleted | RequestStatusFailed.
#[export] Instance RequestStatus_eq_dec : EqDecision RequestStatus.
Proof. solve_decision. Defined.

(** The fields of [models.Request] the run manager reads. *)
Record Request := mkRequest {
  req_ID : string;
  req_Status : RequestStatus;
  req_Error : string;
}.
#[export] Instance eta_Request : Eta Request := λ r, mkRequest (req_ID r) (req_Status r)
  (req_Error r).

(** Requests and traces live behind pointers: the maps hold addresses. *)
Abbreviation ref := positive (only parsing).

Record latencySummary := mkLatencySummary {
  ls_count : Z;
  ls_sum : float64;
  ls_min : float64;
  ls_max : float64;
  ls_mean : float64;
  ls_reservoir : list float64;
  ls_maxResSize : Z;
  ls_seenValues : Z;
  ls_dirty : bool;
  ls_cachedP50 : float64;
  ls_cachedP95 : float64;
  ls_cachedP99 : float64;
}.
#[export] Instance eta_latencySummary : Eta latencySummary := λ r, mkLatencySummary (ls_count r)
  (ls_sum r) (ls_min r) (ls_max r) (ls_mean r) (ls_reservoir r) (ls_maxResSize r) (ls_seenValues
  r) (ls_dirty r) (ls_cachedP50 r) (ls_cachedP95 r) (ls_cachedP99 r).

Record latencySnapshot := mkLatencySnapshot {
  lsn_Count : Z;
  lsn_Mean : float64;
  lsn_P50 : float64;
  lsn_P95 : float64;
  lsn_P99 : float64;
}.

Record RunMetrics := mkRunMetrics {
  m_TotalRequests : Z;
  m_SuccessfulRequests : Z;
  m_FailedRequests : Z;
  m_LatencyP50 : float64;
  m_LatencyP95 : float64;
  m_LatencyP99 : float64;
  m_LatencyMean : float64;
  m_ThroughputRPS : float64;
  m_ServiceMetrics : gmap string ref;
}.

Record Run := mkRun {
  run_ID : string;
  run_Status : RunStatus;
  run_Config : gmap string DataVal;
  run_StartTime : Time;
  run_EndTime : Time;
  run_Duration : Duration;
  run_Metrics : option RunMetrics;
  run_Error : string;
  run_Metadata : gmap string string;
}.
#[export] Instance eta_Run : Eta Run := λ r, mkRun (run_ID r) (run_Status r) (run_Config r)
  (run_StartTime r) (run_EndTime r) (run_Duration r) (run_Metrics r) (run_Error r) (run_Metadata
  r).

(** The callbacks of the two request limits are present or nil; what they are
    called with is a result of [AddRequest]. [rm_cancelled] is the state of the
    run's context. *)
Record RunManager := mkRunManager {
  rm_run : Run;
  rm_traces : gmap string ref;
  rm_requests : gmap string ref;
  rm_completedRequests : gmap string ref;
  rm_completedOrder : list string;
  rm_serviceMetrics : gmap string ref;
  rm_latencySummary : latencySummary;
  rm_totalRequests : Z;
  rm_completedCount : Z;
  rm_failedCount : Z;
  rm_maxActiveRequests : Z;
  rm_maxTotalRequests : Z;
  rm_maxCompletedKeep : Z;
  rm_traceSamplingRate : float64;
  rm_onActiveLimitReached : bool;
  rm_onTotalLimitReached : bool;
  rm_cancelled : bool;
}.
#[export] Instance eta_RunManager : Eta RunManager := λ r, mkRunManager (rm_run r) (rm_traces r)
  (rm_requests r) (rm_completedRequests r) (rm_completedOrder r) (rm_serviceMetrics r)
  (rm_latencySummary r) (rm_totalRequests r) (rm_completedCount r) (rm_failedCount r)
  (rm_maxActiveRequests r) (rm_maxTotalRequests r) (rm_maxCompletedKeep r) (rm_traceSamplingRate
  r) (rm_onActiveLimitReached r) (rm_onTotalLimitReached r) (rm_cancelled r).

(** * Latency summary *)

Definition defaultLatencyReservoirSize : Z := 2048.

Definition newLatencySummary (maxReservoir : Z) : latencySummary :=
  let maxReservoir := if maxReservoir <=? 0 then defaultLatencyReservoirSize else maxReservoir in
  mkLatencySummary 0 f0 (f64_inf false) (f64_inf true) f0 [] maxReservoir 0 false f0 f0 f0.

Definition latencySummary_record (value : float64) (s : latencySummary) : latencySummary :=
  let count := ls_count s + 1 in
  let sum := fadd (ls_sum s) value in
  let min := if fltb value (ls_min s) then value else ls_min s in
  let max := if fltb (ls_max s) value then value else ls_max s in
  let mean := fdiv sum (f64_of_Z count) in
  let seen := ls_seenValues s + 1 in
  let reservoir :=
    if Z.of_nat (length (ls_reservoir s)) <? ls_maxResSize s then ls_reservoir s ++ [value]
    else if 0 <? ls_maxResSize s then
      let idx := Z.rem (wrap64 (seen * 1103515245)) (ls_maxResSize s) in
      if (0 <=? idx) && (idx <? Z.of_nat (length (ls_reservoir s)))
      then <[Z.to_nat idx := value]> (ls_reservoir s) else ls_reservoir s
    else ls_reservoir s in
  mkLatencySummary count sum min max mean reservoir (ls_maxResSize s) seen true
    (ls_cachedP50 s) (ls_cachedP95 s) (ls_cachedP99 s).

Definition latencySummary_ensurePercentiles (s : latencySummary) : go latencySummary :=
  if negb (ls_dirty s) then Ok s
  else if (length (ls_reservoir s) =? 0)%nat then
    Ok (s <| ls_cachedP50 := f0 |> <| ls_cachedP95 := f0 |> <| ls_cachedP99 := f0 |>
          <| ls_dirty := false |>)
  else
    let vals := sort_Float64s (ls_reservoir s) in
    let! p50 := P50 vals in
    let! p95 := P95 vals in
    let! p99 := P99 vals in
    Ok (s <| ls_cachedP50 := p50 |> <| ls_cachedP95 := p95 |> <| ls_cachedP99 := p99 |>
          <| ls_dirty := false |>).

Definition latencySummary_snapshot (s : latencySummary) : go (latencySnapshot * latencySummary) :=
  if ls_count s =? 0 then Ok (mkLatencySnapshot 0 f0 f0 f0 f0, s)
  else
    let! s' := latencySummary_ensurePercentiles s in
    Ok (mkLatencySnapshot (ls_count s') (ls_mean s') (ls_cachedP50 s') (ls_cachedP95 s')
          (ls_cachedP99 s'), s').

(** * Construction and lifecycle *)

(** The environment variables of [NewRunManager], read and parsed: absent and
    malformed values are [None]. *)
Record RunManagerEnv := mkRunManagerEnv {
  env_maxCompletedTraces : option Z;
  env_traceSamplingRate : option float64;
  env_latencyReservoirSize : option Z;
}.
Definition positive_or (o : option Z) (def : Z) : Z :=
  match o with Some n => if n <=? 0 then def else n | None => def end.

Definition NewRunManager (env : RunManagerEnv) (now : Time) (runID : string) : RunManager :=
  let maxCompletedKeep := positive_or (env_maxCompletedTraces env) 1000 in
  let traceSamplingRate :=
    match env_traceSamplingRate env with
    | Some v => if fltb f0 v && fleb v f1 then v else f1
    | None => f1
    end in
  let latencyReservoirSize :=
    positive_or (env_latencyReservoirSize env) defaultLatencyReservoirSize in
  mkRunManager (mkRun runID RunStatusPending ∅ now zeroTime 0 None "" ∅) ∅ ∅ ∅ [] ∅
    (newLatencySummary latencyReservoirSize) 0 0 0 0 0 maxCompletedKeep traceSamplingRate
    false false false.

Definition RunManager_Start (now : Time) (rm : RunManager) : RunManager :=
  rm <| rm_run := (rm_run rm) <| run_Status := RunStatusRunning |> <| run_StartTime := now |> |>.

Definition RunManager_calculateMetrics (rm : RunManager) : go (RunMetrics * RunManager) :=
  let totalRequests := rm_totalRequests rm in
  let failedRequests := rm_failedCount rm in
  let successfulRequests := totalRequests - failedRequests in
  let! (latency, ls) := latencySummary_snapshot (rm_latencySummary rm) in
  let duration := Sub (run_EndTime (rm_run rm)) (run_StartTime (rm_run rm)) in
  let throughputRPS :=
    if 0 <? duration then fdiv (f64_of_Z totalRequests) (Seconds duration) else f0 in
  Ok (mkRunMetrics totalRequests successfulRequests failedRequests (lsn_P50 latency)
        (lsn_P95 latency) (lsn_P99 latency) (lsn_Mean latency) throughputRPS
        (rm_serviceMetrics rm),
      rm <| rm_latencySummary := ls |>).

Definition RunManager_Complete (now : Time) (rm : RunManager) : go RunManager :=
  let run := (rm_run rm) <| run_Status := RunStatusCompleted |> <| run_EndTime := now |>
    <| run_Duration := Sub now (run_StartTime (rm_run rm)) |> in
  let! (metrics, rm') := RunManager_calculateMetrics (rm <| rm_run := run |>) in
  Ok (rm' <| rm_run := (rm_run rm') <| run_Metrics := Some metrics |> |>).

Definition RunManager_Fail (now : Time) (err : string) (rm : RunManager) : RunManager :=
  rm <| rm_run := (rm_run rm) <| run_Status := RunStatusFailed |> <| run_EndTime := now |>
    <| run_Duration := Sub now (run_StartTime (rm_run rm)) |> <| run_Error := err |> |>.

Definition RunManager_Cancel (rm : RunManager) : RunManager := rm <| rm_cancelled := true |>.
Definition RunManager_GetRun (rm : RunManager) : Run := rm_run rm.

(** * Requests and traces *)

Definition RunManager_AddTrace (id : string) (trace : ref) (rm : RunManager) : RunManager :=
  rm <| rm_traces := <[id := trace]> (rm_traces rm) |>.
Definition RunManager_GetTrace (id : string) (rm : RunManager) : option ref := rm_traces rm !! id.

(** A callback invocation: which limit, the count it is given, and the limit. *)
Inductive LimitCallback :=
  | ActiveLimitReached (currentCount max : Z)
  | TotalLimitReached (currentCount max : Z).

Definition RunManager_AddRequest (request : ref) (r : Request) (rm : RunManager)
    : RunManager * option LimitCallback :=
  if (0 <? rm_maxTotalRequests rm) && (rm_maxTotalRequests rm <=? rm_totalRequests rm) then
    (rm, if rm_onTotalLimitReached rm
         then Some (TotalLimitReached (rm_totalRequests rm + 1) (rm_maxTotalRequests rm)) else None)
  else
    let active := Z.of_nat (size (rm_requests rm)) in
    if (0 <? rm_maxActiveRequests rm) && (rm_maxActiveRequests rm <=? active) then
      (rm, if rm_onActiveLimitReached rm
           then Some (ActiveLimitReached (active + 1) (rm_maxActiveRequests rm)) else None)
    else
      (rm <| rm_requests := <[req_ID r := request]> (rm_requests rm) |>
          <| rm_totalRequests := rm_totalRequests rm + 1 |>, None).

Definition RunManager_SetMaxRequestsTracked (max : Z) (callback : bool) (rm : RunManager) : RunManager :=
  rm <| rm_maxActiveRequests := max |> <| rm_onActiveLimitReached := callback |>.
Definition RunManager_SetMaxTotalRequests (max : Z) (callback : bool) (rm : RunManager) : RunManager :=
  rm <| rm_maxTotalRequests := max |> <| rm_onTotalLimitReached := callback |>.

Definition RunManager_GetRequest (id : string) (rm : RunManager) : option ref :=
  match rm_requests rm !! id with
  | Some request => Some request
  | None => rm_completedRequests rm !! id
  end.

(** FNV-1a, 32 bits. *)
Definition fnv32a_step (h : Z) (c : ascii) : Z :=
  (Z.lxor h (Z.of_N (N_of_ascii c)) * 16777619) mod 2 ^ 32.
Fixpoint fnv32a (h : Z) (s : string) : Z :=
  match s with EmptyString => h | String c s' => fnv32a (fnv32a_step h c) s' end.

Definition RunManager_shouldSampleCompletedRequest (requestID : string) (rm : RunManager) : bool :=
  if fleb f1 (rm_traceSamplingRate rm) then true
  else if fleb (rm_traceSamplingRate rm) f0 then false
  else
    let v := fdiv (f64_of_Z (fnv32a 2166136261 requestID)) (f64_of_Z 4294967295) in
    fltb v (rm_traceSamplingRate rm).

(** The loop that evicts from the front of [completedOrder]: one identifier per
    iteration, so the list itself bounds the recursion. *)
Fixpoint evict_completed (keep : Z) (order : list string) (m : gmap string ref)
    : list string * gmap string ref :=
  match order with
  | [] => ([], m)
  | evictID :: order' =>
      if keep <? Z.of_nat (length order) then evict_completed keep order' (delete evictID m)
      else (order, m)
  end.

Definition request_failed (r : Request) : bool :=
  bool_decide (req_Status r = RequestStatusFailed) || negb (String.eqb (req_Error r) "").

(** [request] is nil or a pointer together with what it points to. *)
Definition RunManager_FinalizeRequest (request : option (ref * Request)) (rm : RunManager) : RunManager :=
  match request with
  | None => rm
  | Some (p, r) =>
      let rm := rm <| rm_requests := delete (req_ID r) (rm_requests rm) |>
                   <| rm_completedCount := rm_completedCount rm + 1 |> in
      let rm := if request_failed r then rm <| rm_failedCount := rm_failedCount rm + 1 |> else rm in
      if negb (RunManager_shouldSampleCompletedRequest (req_ID r) rm) then rm
      else
        let '(order, m) :=
          evict_completed (rm_maxCompletedKeep rm) (rm_completedOrder rm ++ [req_ID r])
            (<[req_ID r := p]> (rm_completedRequests rm)) in
        rm <| rm_completedRequests := m |> <| rm_completedOrder := order |>
  end.

Definition RunManager_RecordLatency (latencyMs : float64) (rm : RunManager) : RunManager :=
  rm <| rm_latencySummary := latencySummary_record latencyMs (rm_latencySummary rm) |>.
Definition RunManager_UpdateServiceMetrics (name : string) (metrics : ref) (rm : RunManager) : RunManager :=
  rm <| rm_serviceMetrics := <[name := metrics]> (rm_serviceMetrics rm) |>.
Definition RunManager_SetConfig (key : string) (value : DataVal) (rm : RunManager) : RunManager :=
  rm <| rm_run := (rm_run rm) <| run_Config := <[key := value]> (run_Config (rm_run rm)) |> |>.
Definition RunManager_SetMetadata (key value : string) (rm : RunManager) : RunManager :=
  rm <| rm_run := (rm_run rm) <| run_Metadata := <[key := value]> (run_Metadata (rm_run rm)) |> |>.

Record RunManagerSnapshot := mkRunManagerSnapshot {
  snap_ActiveRequests : Z;
  snap_TotalRequests : Z;
  snap_CompletedRequests : Z;
  snap_FailedRequests : Z;
  snap_RetainedCompletedSamples : Z;
}.
Definition RunManager_Snapshot (rm : RunManager) : RunManagerSnapshot :=
  mkRunManagerSnapshot (Z.of_nat (size (rm_requests rm))) (rm_totalRequests rm)
    (rm_completedCount rm) (rm_failedCount rm) (Z.of_nat (size (rm_completedRequests rm))).

(** * The latency reservoir is a window over the latest samples *)

Definition record_all (vs : list float64) (s : latencySummary) : latencySummary :=
  foldl (λ s v, latencySummary_record v s) s vs.
Lemma record_all_snoc vs v s :
  record_all (vs ++ [v]) s = latencySummary_record v (record_all vs s).
Proof. unfold record_all. by rewrite foldl_app. Qed.

(** The slot the [j]-th sample overwrites once the reservoir is full. *)
Definition reservoir_slot (n j : Z) : nat := Z.to_nat ((j * 1103515245) mod n).

Lemma reservoir_slot_inj n i j :
  0 < n → Z.gcd 1103515245 n = 1 → i < j < i + n → reservoir_slot n i ≠ reservoir_slot n j.
Proof.
  intros Hn Hg Hij E. unfold reservoir_slot in E.
  apply Z2Nat.inj in E; [|apply Z.mod_pos_bound; lia..].
  assert ((n | (j - i) * 1103515245)) as Hd.
  { apply Z.mod_divide; [lia|]. rewrite Z.mul_sub_distr_r, Zminus_mod, E, Z.sub_diag. done. }
  rewrite Z.mul_comm in Hd. apply Z.gauss in Hd; [|by rewrite Z.gcd_comm].
  apply Z.divide_pos_le in Hd; lia.
Qed.

Lemma record_fields v s :
  let s' := latencySummary_record v s in
  ls_count s' = ls_count s + 1 ∧ ls_seenValues s' = ls_seenValues s + 1 ∧
  ls_maxResSize s' = ls_maxResSize s ∧ ls_dirty s' = true.
Proof. done. Qed.

Lemma record_reservoir_full v s n :
  ls_maxResSize s = n → Z.of_nat (length (ls_reservoir s)) = n → 0 < n →
  0 ≤ ls_seenValues s → (ls_seenValues s + 1) * 1103515245 < 2 ^ 63 →
  ls_reservoir (latencySummary_record v s) =
  <[reservoir_slot n (ls_seenValues s + 1) := v]> (ls_reservoir s).
Proof.
  intros Hn Hlen Hpos Hseen Hov. unfold latencySummary_record; simpl. rewrite Hn, Hlen.
  rewrite Z.ltb_irrefl. destruct (Z.ltb_spec 0 n); [|lia].
  assert (wrap64 ((ls_seenValues s + 1) * 1103515245) = (ls_seenValues s + 1) * 1103515245) as ->
    by (unfold wrap64; rewrite Z.mod_small by lia; lia).
  rewrite Z.rem_mod_nonneg by lia.
  pose proof (Z.mod_pos_bound ((ls_seenValues s + 1) * 1103515245) n Hpos).
  destruct (Z.leb_spec 0 ((ls_seenValues s + 1) * 1103515245 mod n)); [|lia].
  destruct (Z.ltb_spec ((ls_seenValues s + 1) * 1103515245 mod n) n); [done | lia].
Qed.

Lemma record_reservoir_room v s :
  Z.of_nat (length (ls_reservoir s)) < ls_maxResSize s →
  ls_reservoir (latencySummary_record v s) = ls_reservoir s ++ [v].
Proof. intros H. unfold latencySummary_record; simpl. by destruct (Z.ltb_spec (Z.of_nat (length (ls_reservoir s))) (ls_maxResSize s)); [|lia]. Qed.

Lemma record_all_window n vs :
  0 < n → Z.gcd 1103515245 n = 1 → Z.of_nat (length vs) * 1103515245 < 2 ^ 63 →
  let s := record_all vs (newLatencySummary n) in
  let k := Z.of_nat (length vs) in
  ls_maxResSize s = n ∧ ls_seenValues s = k ∧
  Z.of_nat (length (ls_reservoir s)) = Z.min k n ∧
  ∀ j, Z.max n (k - n) < j ≤ k → ls_reservoir s !! reservoir_slot n j = vs !! Z.to_nat (j - 1).
Proof.
  intros Hn Hg. induction vs as [|v vs IH] using rev_ind; intros Hov.
  { simpl. unfold newLatencySummary. destruct (Z.leb_spec n 0); [lia|].
    simpl. split_and!; [done..|lia|]. intros j Hj. lia. }
  rewrite length_app in *; simpl length in *. rewrite record_all_snoc. cbv zeta in IH |- *.
  destruct IH as (Hmax & Hseen & Hlen & Hwin); [lia|].
  set (s := record_all vs (newLatencySummary n)) in *.
  destruct (record_fields v s) as (_ & -> & -> & _). rewrite Hmax, Hseen.
  split_and!; [done | lia | |].
  - destruct (decide (Z.of_nat (length vs) < n)).
    + rewrite record_reservoir_room, length_app by lia. simpl. lia.
    + rewrite (record_reservoir_full _ _ n) by lia. rewrite length_insert. lia.
  - intros j Hj. rewrite (record_reservoir_full _ _ n) by lia. rewrite Hseen.
    destruct (decide (j = Z.of_nat (length vs) + 1)) as [->|Hne].
    + rewrite list_lookup_insert_eq.
      * rewrite lookup_app_r by lia. by replace (Z.to_nat _ - length vs)%nat with 0%nat by lia.
      * unfold reservoir_slot. pose proof (Z.mod_pos_bound ((Z.of_nat (length vs) + 1) * 1103515245) n). lia.
    + rewrite list_lookup_insert_ne
        by (apply not_eq_sym, reservoir_slot_inj; [done..|lia]).
      rewrite Hwin by lia. by rewrite lookup_app_l by lia.
Qed.

(** * Invariant of the run manager *)

(** One step is one call of a mutating method; [GetStats] and [Complete] may
    refresh the cached percentiles. *)
Inductive rm_step : RunManager → RunManager → Prop :=
  | step_start now rm : rm_step rm (RunManager_Start now rm)
  | step_complete now rm rm' : RunManager_Complete now rm = Ok rm' → rm_step rm rm'
  | step_fail now err rm : rm_step rm (RunManager_Fail now err rm)
  | step_cancel rm : rm_step rm (RunManager_Cancel rm)
  | step_add_trace id p rm : rm_step rm (RunManager_AddTrace id p rm)
  | step_add_request p r rm : rm_step rm (RunManager_AddRequest p r rm).1
  | step_finalize o rm : rm_step rm (RunManager_FinalizeRequest o rm)
  | step_max_tracked n cb rm : rm_step rm (RunManager_SetMaxRequestsTracked n cb rm)
  | step_max_total n cb rm : rm_step rm (RunManager_SetMaxTotalRequests n cb rm)
  | step_latency v rm : rm_step rm (RunManager_RecordLatency v rm)
  | step_service_metrics n p rm : rm_step rm (RunManager_UpdateServiceMetrics n p rm)
  | step_config k v rm : rm_step rm (RunManager_SetConfig k v rm)
  | step_metadata k v rm : rm_step rm (RunManager_SetMetadata k v rm).

Record rm_ok (rm : RunManager) : Prop := {
  ok_keep : 0 < rm_maxCompletedKeep rm;
  ok_order : Z.of_nat (length (rm_completedOrder rm)) ≤ rm_maxCompletedKeep rm;
  ok_retained id : is_Some (rm_completedRequests rm !! id) → id ∈ rm_completedOrder rm;
  ok_active : Z.of_nat (size (rm_requests rm)) ≤ rm_totalRequests rm;
  ok_failed : 0 ≤ rm_failedCount rm ≤ rm_completedCount rm;
  ok_reservoir :
    Z.of_nat (length (ls_reservoir (rm_latencySummary rm))) ≤ ls_maxResSize (rm_latencySummary rm);
}.

Lemma size_delete_le (k : string) (m : gmap string ref) : (size (delete k m) ≤ size m)%nat.
Proof.
  destruct (m !! k) as [x|] eqn:E.
  - rewrite map_size_delete, E. simpl. lia.
  - by rewrite delete_id.
Qed.
Lemma size_insert_le (k : string) x (m : gmap string ref) : (size (<[k:=x]> m) ≤ S (size m))%nat.
Proof. rewrite map_size_insert. destruct (m !! k); simpl; lia. Qed.

Lemma evict_completed_spec keep order m order' m' :
  0 < keep → (∀ id, is_Some (m !! id) → id ∈ order) →
  evict_completed keep order m = (order', m') →
  Z.of_nat (length order') ≤ keep ∧ (∀ id, is_Some (m' !! id) → id ∈ order') ∧
  order' = drop (length order - Z.to_nat keep) order.
Proof.
  intros Hk. revert m. induction order as [|x order IH]; intros m Hm E; simpl in E.
  { simplify_eq. simpl. split_and!; [lia | done | done]. }
  destruct (Z.ltb_spec keep (Z.of_nat (S (length order)))); simplify_eq.
  - apply IH in E as (? & ? & ->).
    + split_and!; [done..|]. cbn [length].
      by replace (S (length order) - Z.to_nat keep)%nat with (S (length order - Z.to_nat keep))%nat by lia.
    + intros id [y Hy]. apply lookup_delete_Some in Hy as [Hne Hy].
      assert (id ∈ x :: order) as Hin by eauto. set_solver.
  - split_and!; [simpl in *; lia | done |].
    cbn [length] in *. by replace (S (length order) - Z.to_nat keep)%nat with 0%nat by lia.
Qed.

Lemma snapshot_reservoir s x s' :
  latencySummary_snapshot s = Ok (x, s') →
  ls_reservoir s' = ls_reservoir s ∧ ls_maxResSize s' = ls_maxResSize s.
Proof.
  unfold latencySummary_snapshot, latencySummary_ensurePercentiles, go_bind. intros H.
  repeat case_match; simplify_eq/=; done.
Qed.
Lemma record_reservoir_bound v s :
  Z.of_nat (length (ls_reservoir s)) ≤ ls_maxResSize s →
  Z.of_nat (length (ls_reservoir (latencySummary_record v s))) ≤ ls_maxResSize s.
Proof.
  unfold latencySummary_record; simpl. intros.
  destruct (Z.ltb_spec (Z.of_nat (length (ls_reservoir s))) (ls_maxResSize s));
    [rewrite length_app; simpl; lia|]. repeat case_match; rewrite ?length_insert; done.
Qed.

Lemma NewRunManager_ok env now id : rm_ok (NewRunManager env now id).
Proof.
  unfold NewRunManager, positive_or, newLatencySummary. split; simpl.
  - case_match; [case_match|]; lia.
  - case_match; [case_match|]; lia.
  - intros i [? H]. by rewrite lookup_empty in H.
  - done.
  - lia.
  - unfold defaultLatencyReservoirSize. repeat case_match; lia.
Qed.

Lemma AddRequest_ok p r rm : rm_ok rm → rm_ok (RunManager_AddRequest p r rm).1.
Proof.
  intros H. unfold RunManager_AddRequest. do 2 (case_match; [done|]).
  destruct H. split; simpl; auto. pose proof (size_insert_le (req_ID r) p (rm_requests rm)). lia.
Qed.
Lemma FinalizeRequest_ok o rm : rm_ok rm → rm_ok (RunManager_FinalizeRequest o rm).
Proof.
  intros H. destruct o as [[p r]|]; [|done]. unfold RunManager_FinalizeRequest.
  set (rm1 := if request_failed r then _ else _).
  assert (rm_ok rm1 ∧ rm_maxCompletedKeep rm1 = rm_maxCompletedKeep rm ∧
          rm_completedRequests rm1 = rm_completedRequests rm ∧
          rm_completedOrder rm1 = rm_completedOrder rm) as (Hok1 & Ek & Er & Eo).
  { pose proof (size_delete_le (req_ID r) (rm_requests rm)).
    subst rm1. destruct H. split; [|by case_match].
    case_match; split; simpl; auto; lia. }
  case_match; [done|].
  destruct (evict_completed _ _ _) as [order m] eqn:E. apply evict_completed_spec in E as (?&?&_).
  - destruct Hok1. split; simpl; auto.
  - apply Hok1.
  - rewrite Eo, Er. intros id [y Hy]. apply lookup_insert_Some in Hy as [[<- _]|[_ Hy]].
    + set_solver.
    + assert (id ∈ rm_completedOrder rm) by (apply H; eauto). set_solver.
Qed.
Lemma Complete_ok now rm rm' : RunManager_Complete now rm = Ok rm' → rm_ok rm → rm_ok rm'.
Proof.
  unfold RunManager_Complete, RunManager_calculateMetrics, go_bind. intros E H.
  destruct (latencySummary_snapshot _) as [[x s]| |] eqn:Es; simplify_eq/=.
  apply snapshot_reservoir in Es as [E1 E2]. destruct H. split; simpl in *; auto. by rewrite E1, E2.
Qed.

Lemma rm_step_ok rm rm' : rm_step rm rm' → rm_ok rm → rm_ok rm'.
Proof.
  intros Hs H. destruct Hs; eauto using AddRequest_ok, FinalizeRequest_ok, Complete_ok;
    destruct H; split; simpl; auto. by apply record_reservoir_bound.
Qed.
Lemma rm_reachable_ok rm rm' : rtc rm_step rm rm' → rm_ok rm → rm_ok rm'.
Proof. induction 1; eauto using rm_step_ok. Qed.

Lemma size_dom_le (m : gmap string ref) (l : list string) :
  (∀ id, is_Some (m !! id) → id ∈ l) → (size m ≤ length l)%nat.
Proof.
  intros H. rewrite <-size_dom. trans (size (list_to_set l : gset string)).
  - apply subseteq_size. intros id. rewrite elem_of_dom, elem_of_list_to_set. apply H.
  - clear. induction l as [|x l IH]; [done|]; simpl.
    pose proof (size_union_alt {[x]} (list_to_set l : gset string)) as E.
    rewrite E, size_singleton.
    assert (size (list_to_set l ∖ {[x]} : gset string) ≤ size (list_to_set l : gset string))%nat
      by (apply subseteq_size; set_solver). lia.
Qed.

(** bounded retention. After any sequence of calls on a new run manager, the
    completed requests kept for inspection never exceed the configured
    maximum, every kept request is in the eviction order, no more requests are
    active than were counted, failures never exceed completions, and the latency
    reservoir stays within its capacity. *)
Theorem run_manager_bounded env now id rm :
  rtc rm_step (NewRunManager env now id) rm →
  let s := RunManager_Snapshot rm in
  snap_RetainedCompletedSamples s ≤ rm_maxCompletedKeep rm ∧
  (∀ i, is_Some (rm_completedRequests rm !! i) → i ∈ rm_completedOrder rm) ∧
  snap_ActiveRequests s ≤ snap_TotalRequests s ∧
  0 ≤ snap_FailedRequests s ≤ snap_CompletedRequests s ∧
  Z.of_nat (length (ls_reservoir (rm_latencySummary rm))) ≤ ls_maxResSize (rm_latencySummary rm).
Proof.
  intros Hr%rm_reachable_ok; [|apply NewRunManager_ok]. destruct Hr as [Hk Ho Hret Ha Hf Hres].
  pose proof (size_dom_le _ _ Hret). simpl. split_and!; auto; lia.
Qed.

(** the latency reservoir is a sliding window. With a capacity [n] that is
    coprime to the multiplier, once at least [2 n] latencies were recorded the
    reservoir has exactly [n] entries, and each of the last [n] latencies sits in
    a slot of its own. *)
Theorem latency_reservoir_is_window n vs :
  0 < n → Z.gcd 1103515245 n = 1 → 2 * n ≤ Z.of_nat (length vs) →
  Z.of_nat (length vs) * 1103515245 < 2 ^ 63 →
  let s := record_all vs (newLatencySummary n) in
  let k := Z.of_nat (length vs) in
  Z.of_nat (length (ls_reservoir s)) = n ∧
  (∀ j, k - n < j ≤ k → ls_reservoir s !! reservoir_slot n j = vs !! Z.to_nat (j - 1)) ∧
  (∀ i j, k - n < i ≤ k → k - n < j ≤ k → reservoir_slot n i = reservoir_slot n j → i = j).
Proof.
  intros Hn Hg Hk Hov s k.
  destruct (record_all_window n vs Hn Hg Hov) as (_ & _ & Hlen & Hwin).
  split_and!; [unfold s, k in *; lia | intros j Hj; apply Hwin; lia |].
  intros i j Hi Hj E. destruct (Z.lt_trichotomy i j) as [?|[?|?]]; [|done|].
  - by apply reservoir_slot_inj in E; [| |lia..].
  - symmetry in E. by apply reservoir_slot_inj in E; [| |lia..].
Qed.

(** Concrete runs of the two properties. *)
Definition sample_env : RunManagerEnv := mkRunManagerEnv (Some 1) None None.
Definition sample_rm0 : RunManager := NewRunManager sample_env 0 "run-1".
Definition sample_rm1 : RunManager :=
  (RunManager_AddRequest 1 (mkRequest "a" RequestStatusPending "") sample_rm0).1.
Definition sample_rm2 : RunManager :=
  (RunManager_AddRequest 2 (mkRequest "b" RequestStatusPending "") sample_rm1).1.
Definition sample_rm3 : RunManager :=
  RunManager_FinalizeRequest (Some (1%positive, mkRequest "a" RequestStatusFailed "")) sample_rm2.
Definition sample_rm : RunManager :=
  RunManager_FinalizeRequest (Some (2%positive, mkRequest "b" RequestStatusCompleted "")) sample_rm3.
Lemma run_manager_bounded_witness :
  RunManager_Snapshot sample_rm = mkRunManagerSnapshot 0 2 2 1 1 ∧
  snap_RetainedCompletedSamples (RunManager_Snapshot sample_rm) ≤ 1.
Proof.
  split; [reflexivity|].
  refine (proj1 (run_manager_bounded sample_env 0 "run-1" sample_rm _)).
  apply (rtc_l _ _ sample_rm1); [exact (step_add_request _ _ sample_rm0)|].
  apply (rtc_l _ _ sample_rm2); [exact (step_add_request _ _ sample_rm1)|].
  apply (rtc_l _ _ sample_rm3); [exact (step_finalize _ sample_rm2)|].
  apply (rtc_l _ _ sample_rm); [exact (step_finalize _ sample_rm3) | apply rtc_refl].
Defined.

Lemma latency_reservoir_is_window_witness :
  ls_reservoir (record_all (f64_of_Z <$> [10; 20; 30; 40; 50]) (newLatencySummary 2))
    !! reservoir_slot 2 5 = Some (f64_of_Z 50).
Proof.
  destruct (latency_reservoir_is_window 2 (f64_of_Z <$> [10; 20; 30; 40; 50]))
    as (_ & H & _); [lia | reflexivity | simpl; lia | simpl; lia |].
  apply (H 5). simpl. lia.
Defined.
