(* ===== verification/Engine.v ===== *)
(** [internal/engine/engine.go]: the discrete-event engine. Scheduling with
    guardrails, the event loop, and its correctness: it returns, it dispatches
    events in time order up to the end time, and guardrail failures are
    reported. *)
From S2P Require Import Prelude GoFloat Utils EventQueue RunManager.
From Stdlib Require Import SpecFloat.
#[local] Open Scope string_scope.
#[local] Open Scope list_scope.
#[local] Open Scope Z_scope.

(** * State *)

Record RuntimeLimits := mkRuntimeLimits {
  MaxEventsScheduled : Z;
  MaxEventsProcessed : Z;
  MaxEventQueueSize : Z;
  MaxWallClockRun : Duration;
}.

(** Errors latched by the guardrails: [LimitExceededError], or any other error
    handed to [TriggerLimitExceeded]. *)
Inductive EngineErr :=
  | LimitExceeded (limit : string) (value max : Z)
  | OtherErr (msg : string).

Record Engine := mkEngine {
  eng_eventQueue : list Event;
  eng_runManager : RunManager;
  eng_simTime : Time;
  eng_eventCounter : Z;
  eng_processed : Z;
  eng_limits : RuntimeLimits;
  eng_guardErr : option EngineErr;
  eng_realTimeMode : bool;
  eng_maxQueueSeen : Z;
}.
#[export] Instance eta_Engine : Eta Engine := λ r, mkEngine (eng_eventQueue r) (eng_runManager
  r) (eng_simTime r) (eng_eventCounter r) (eng_processed r) (eng_limits r) (eng_guardErr r)
  (eng_realTimeMode r) (eng_maxQueueSeen r).

Definition NewEngineWithSimStart (env : RunManagerEnv) (wallNow : Time) (runID : string)
    (simStart : Time) : Engine :=
  mkEngine NewEventQueue (NewRunManager env wallNow runID) (NewSimTime simStart) 0 0
    (mkRuntimeLimits 0 0 0 0) None false 0.
(** [NewEngine]: the simulation clock starts at the wall clock. *)
Definition NewEngine (env : RunManagerEnv) (wallNow : Time) (runID : string) : Engine :=
  NewEngineWithSimStart env wallNow runID wallNow.

Definition Engine_SetRealTimeMode (enabled : bool) (e : Engine) : Engine :=
  e <| eng_realTimeMode := enabled |>.
Definition Engine_SetRuntimeLimits (limits : RuntimeLimits) (e : Engine) : Engine :=
  e <| eng_limits := limits |>.

(** * Guardrails and scheduling *)

(** The first error is latched and cancels the run; later ones are ignored. *)
Definition Engine_triggerGuardFailure (err : option EngineErr) (e : Engine) : Engine :=
  match err, eng_guardErr e with
  | None, _ => e
  | Some _, Some _ => e
  | Some err, None =>
      e <| eng_guardErr := Some err |>
        <| eng_runManager := RunManager_Cancel (eng_runManager e) |>
  end.
Definition Engine_TriggerLimitExceeded (err : option EngineErr) (e : Engine) : Engine :=
  Engine_triggerGuardFailure err e.
Definition Engine_guardrailErr (e : Engine) : option EngineErr := eng_guardErr e.

Definition Engine_ScheduleEvent (event : Event) (e : Engine) : Engine :=
  let counter := eng_eventCounter e + 1 in
  let e := e <| eng_eventCounter := counter |> in
  let id := if String.eqb (ev_ID event) "" then "evt-" +:+ Itoa counter else ev_ID event in
  let seq := if ev_Sequence event =? 0 then counter else ev_Sequence event in
  let event := mkEvent id (ev_Type event) (ev_Time event) (ev_Priority event) seq
    (ev_Request event) (ev_ServiceID event) (ev_Data event) in
  let limits := eng_limits e in
  if (0 <? MaxEventsScheduled limits) && (MaxEventsScheduled limits <? counter) then
    Engine_triggerGuardFailure
      (Some (LimitExceeded "max_events_scheduled" counter (MaxEventsScheduled limits))) e
  else
    let nextQueueSize := EventQueue_Size (eng_eventQueue e) + 1 in
    if (0 <? MaxEventQueueSize limits) && (MaxEventQueueSize limits <? nextQueueSize) then
      Engine_triggerGuardFailure
        (Some (LimitExceeded "max_event_queue_size" nextQueueSize (MaxEventQueueSize limits))) e
    else e <| eng_eventQueue := EventQueue_Schedule (eng_eventQueue e) event |>.

Definition Engine_ScheduleAtPriority (eventType : EventType) (simTime : Time) (priority : Z)
    (request : option positive) (serviceID : string) (data : gmap string DataVal) (e : Engine)
    : Engine :=
  Engine_ScheduleEvent (mkEvent "" eventType simTime priority 0 request serviceID data) e.
Definition Engine_ScheduleAt (eventType : EventType) (simTime : Time)
    (request : option positive) (serviceID : string) (data : gmap string DataVal) (e : Engine)
    : Engine :=
  Engine_ScheduleAtPriority eventType simTime 0 request serviceID data e.
Definition Engine_ScheduleAfter (eventType : EventType) (delay : Duration)
    (request : option positive) (serviceID : string) (data : gmap string DataVal) (e : Engine)
    : Engine :=
  Engine_ScheduleAt eventType (SimTime_Now (eng_simTime e) + delay) request serviceID data e.

Definition Engine_Stop (e : Engine) : Engine :=
  e <| eng_runManager := RunManager_Cancel (eng_runManager e) |>
    <| eng_eventQueue := EventQueue_Clear (eng_eventQueue e) |>.

Record ProgressSnapshot := mkProgressSnapshot {
  ps_RunID : string;
  ps_SimTime : Time;
  ps_RequestedEndTime : Time;
  ps_EventsScheduled : Z;
  ps_EventsProcessed : Z;
  ps_QueueLength : Z;
  ps_MaxQueueSeen : Z;
  ps_ActiveRequests : Z;
  ps_TotalRequests : Z;
  ps_LastError : option EngineErr;
}.
Definition Engine_ProgressSnapshot (requestedEnd : Time) (e : Engine) : ProgressSnapshot :=
  let rmSnap := RunManager_Snapshot (eng_runManager e) in
  mkProgressSnapshot (run_ID (RunManager_GetRun (eng_runManager e))) (SimTime_Now (eng_simTime e))
    requestedEnd (eng_eventCounter e) (eng_processed e) (EventQueue_Size (eng_eventQueue e))
    (eng_maxQueueSeen e) (snap_ActiveRequests rmSnap) (snap_TotalRequests rmSnap)
    (Engine_guardrailErr e).

(** * What handlers and other goroutines do to the engine *)

(** Event handlers, the live workload and the API act on the engine through
    these calls only. *)
Inductive EngineAction :=
  | ActSchedule (event : Event)
  | ActTrigger (err : EngineErr)
  | ActStop
  | ActAddRequest (p : positive) (r : Request)
  | ActFinalizeRequest (o : option (positive * Request))
  | ActRecordLatency (ms : float64)
  | ActAddTrace (id : string) (p : positive)
  | ActUpdateServiceMetrics (name : string) (p : positive)
  | ActSetConfig (key : string) (value : DataVal)
  | ActSetMetadata (key value : string).

(** The callbacks the executor installs on the request limits. *)
Definition limit_callback_error (cb : LimitCallback) : EngineErr :=
  match cb with
  | ActiveLimitReached n max => LimitExceeded "max_requests_tracked" n max
  | TotalLimitReached n max => LimitExceeded "max_total_requests" n max
  end.

Definition apply_action (e : Engine) (a : EngineAction) : Engine :=
  let rm := eng_runManager e in
  match a with
  | ActSchedule event => Engine_ScheduleEvent event e
  | ActTrigger err => Engine_TriggerLimitExceeded (Some err) e
  | ActStop => Engine_Stop e
  | ActAddRequest p r =>
      let '(rm', cb) := RunManager_AddRequest p r rm in
      Engine_triggerGuardFailure (limit_callback_error <$> cb) (e <| eng_runManager := rm' |>)
  | ActFinalizeRequest o => e <| eng_runManager := RunManager_FinalizeRequest o rm |>
  | ActRecordLatency ms => e <| eng_runManager := RunManager_RecordLatency ms rm |>
  | ActAddTrace id p => e <| eng_runManager := RunManager_AddTrace id p rm |>
  | ActUpdateServiceMetrics n p => e <| eng_runManager := RunManager_UpdateServiceMetrics n p rm |>
  | ActSetConfig k v => e <| eng_runManager := RunManager_SetConfig k v rm |>
  | ActSetMetadata k v => e <| eng_runManager := RunManager_SetMetadata k v rm |>
  end.
Definition apply_actions (e : Engine) (acts : list EngineAction) : Engine :=
  foldl apply_action e acts.

(** * The event loop *)

Inductive RunResult := RunNil | RunError (err : EngineErr) | RunCancelled.

(** What one iteration reads from outside the engine: the calls other goroutines
    complete before it and inside it, that is between its check of the guardrails and
    that of the context, between that and [Next], right after [Next], and while it
    sleeps; the wall clock since the start; and, for the end event in real-time mode,
    the wall clock then and whether the run is cancelled while it waits. *)
Record LoopEnv := mkLoopEnv {
  le_external : list EngineAction;
  le_checked : list EngineAction;
  le_taking : list EngineAction;
  le_popped : list EngineAction;
  le_slept : list EngineAction;
  le_elapsed : Duration;
  le_endElapsed : Duration;
  le_endCancelled : bool;
}.
(** The calls that land inside an iteration. *)
Definition inside (env : LoopEnv) : list EngineAction :=
  le_checked env ++ le_taking env ++ le_popped env ++ le_slept env.

Section run.
(** [St] is the state the handlers share; a handler sees it, the engine and
    the event, and returns the new state, its calls on the engine, and its
    error, which the loop only logs. *)
Context {St : Type}.
Definition Handler : Type := St → Engine → Event → St * list EngineAction * option string.
Context (handlers : EventType → option Handler).

(** The outcome of one iteration, with the event it dispatched, if any. *)
Inductive IterResult :=
  | Continue (s : St) (e : Engine) (dispatched : option Event)
  | Return (s : St) (e : Engine) (dispatched : option Event) (r : RunResult).

(** The branch of the loop for an empty queue. *)
Definition Run_idle (env : LoopEnv) (endTime : Time) (s : St) (e : Engine) : IterResult :=
  let currentSimTime := SimTime_Now (eng_simTime e) in
  if Before currentSimTime endTime then
    let endIsNext :=
      match EventQueue_Peek (eng_eventQueue e) with
      | Some next => bool_decide (ev_Type next = EventTypeSimulationEnd)
      | None => false
      end in
    if endIsNext then Continue s e None
    else
    let e := apply_actions e (le_slept env) in
    if EventQueue_IsEmpty (eng_eventQueue e) then
      let timeUntilEnd := Sub endTime currentSimTime in
      if timeUntilEnd <? 200 * Millisecond then
        Return s (e <| eng_simTime := SimTime_Set (eng_simTime e) endTime |>) None RunNil
      else Continue s e None
    else Continue s e None
  else Return s e None RunNil.

(** Dispatch of a popped event: the clock moves to its time, then the end event
    ends the loop and any other event runs its handler. *)
Definition Run_dispatch (env : LoopEnv) (startTime : Time) (s : St) (e : Engine) (event : Event)
    : IterResult :=
  let e := e <| eng_simTime := SimTime_Set (eng_simTime e) (ev_Time event) |> in
  let e := apply_actions e (le_slept env) in
  if bool_decide (ev_Type event = EventTypeSimulationEnd) then
    if eng_realTimeMode e && (le_endElapsed env <? Sub (ev_Time event) startTime)
       && le_endCancelled env
    then Return s e (Some event) RunCancelled
    else Return s e (Some event) RunNil
  else
    match handlers (ev_Type event) with
    | None => Continue s e (Some event)
    | Some handler =>
        let '(s', acts, _) := handler s e event in
        Continue s' (apply_actions e acts) (Some event)
    end.

Definition Run_iter (env : LoopEnv) (startTime endTime : Time) (s : St) (e : Engine) : IterResult :=
  let e := apply_actions e (le_external env) in
  let maxWall := MaxWallClockRun (eng_limits e) in
  let e :=
    if (0 <? maxWall) && (maxWall <? le_elapsed env) then
      Engine_triggerGuardFailure
        (Some (LimitExceeded "max_wall_clock_runtime" (Milliseconds (le_elapsed env))
                 (Milliseconds maxWall))) e
    else e in
  match Engine_guardrailErr e with
  | Some err => Return s e None (RunError err)
  | None =>
      let e := apply_actions e (le_checked env) in
      if rm_cancelled (eng_runManager e) then
        match Engine_guardrailErr e with
        | Some err => Return s e None (RunError err)
        | None => Return s e None RunCancelled
        end
      else
        let e := apply_actions e (le_taking env) in
        let '(event, q) := EventQueue_Next (eng_eventQueue e) in
        let e := apply_actions (e <| eng_eventQueue := q |>) (le_popped env) in
        let qLen := EventQueue_Size (eng_eventQueue e) in
        let seen := eng_maxQueueSeen e in
        let e := e <| eng_maxQueueSeen := if qLen <=? seen then seen else qLen |> in
        match event with
        | None => Run_idle env endTime s e
        | Some event =>
            let processed := eng_processed e + 1 in
            let e := e <| eng_processed := processed |> in
            let maxP := MaxEventsProcessed (eng_limits e) in
            if (0 <? maxP) && (maxP <? processed) then
              let err := LimitExceeded "max_events_processed" processed maxP in
              let e := Engine_triggerGuardFailure (Some err) e in
              match Engine_guardrailErr e with
              | Some err => Return s e None (RunError err)
              | None => Return s e None RunNil
              end
            else if bool_decide (ev_Type event = EventTypeSimulationEnd)
                    && Before (ev_Time event) endTime then
              Continue s (Engine_ScheduleAt EventTypeSimulationEnd endTime None "" ∅ e) None
            else Run_dispatch env startTime s e event
        end
  end.

Definition opt_list {A} (o : option A) : list A := match o with Some a => [a] | None => [] end.

(** [fuel] bounds the iterations; the dispatched events are collected in
    order. *)
Fixpoint Run_loop (fuel : nat) (envs : nat → LoopEnv) (i : nat) (startTime endTime : Time)
    (s : St) (e : Engine) : option (St * Engine * list Event * RunResult) :=
  match fuel with
  | O => None
  | S fuel =>
      match Run_iter (envs i) startTime endTime s e with
      | Return s e d r => Some (s, e, opt_list d, r)
      | Continue s e d =>
          match Run_loop fuel envs (S i) startTime endTime s e with
          | Some (s', e', tr, r) => Some (s', e', opt_list d ++ tr, r)
          | None => None
          end
      end
  end.

(** [Run]: start, schedule the end event, loop; the deferred function
    completes a run whose status is still running. *)
Definition Run_prepare (wallStart : Time) (duration : Duration) (e : Engine) : Engine :=
  let e := e <| eng_runManager := RunManager_Start wallStart (eng_runManager e) |> in
  let endTime := SimTime_Now (eng_simTime e) + duration in
  Engine_ScheduleAt EventTypeSimulationEnd endTime None "" ∅ e.
Definition Run_deferred (wallEnd : Time) (e : Engine) : go Engine :=
  if bool_decide (run_Status (RunManager_GetRun (eng_runManager e)) = RunStatusRunning) then
    let! rm := RunManager_Complete wallEnd (eng_runManager e) in
    Ok (e <| eng_runManager := rm |>)
  else Ok e.
Definition Engine_Run (fuel : nat) (envs : nat → LoopEnv) (wallStart wallEnd : Time)
    (duration : Duration) (s : St) (e : Engine)
    : option (go (St * Engine * list Event * RunResult)) :=
  let startTime := SimTime_Now (eng_simTime e) in
  let endTime := startTime + duration in
  match Run_loop fuel envs 0 startTime endTime s (Run_prepare wallStart duration e) with
  | None => None
  | Some (s', e', tr, r) =>
      Some (let! e'' := Run_deferred wallEnd e' in Ok (s', e'', tr, r))
  end.
End run.

(** * Laws of the engine's operations *)

#[global] Arguments Engine_triggerGuardFailure : simpl never.
#[global] Arguments Engine_ScheduleEvent : simpl never.
#[global] Arguments RunManager_AddRequest : simpl never.
#[global] Arguments RunManager_FinalizeRequest : simpl never.
#[global] Arguments EventQueue_Schedule : simpl never.
#[global] Arguments EventQueue_Next : simpl never.

(** The parts of the engine no call of a handler touches. *)
Definition same_frame (e e' : Engine) : Prop :=
  eng_simTime e' = eng_simTime e ∧ eng_processed e' = eng_processed e ∧
  eng_limits e' = eng_limits e ∧ eng_realTimeMode e' = eng_realTimeMode e ∧
  eng_maxQueueSeen e' = eng_maxQueueSeen e ∧
  run_Status (rm_run (eng_runManager e')) = run_Status (rm_run (eng_runManager e)).
#[export] Instance same_frame_refl : Reflexive same_frame.
Proof. done. Qed.
#[export] Instance same_frame_trans : Transitive same_frame.
Proof. unfold same_frame. intros a b c. intuition congruence. Qed.

Lemma FinalizeRequest_frame o rm :
  rm_cancelled (RunManager_FinalizeRequest o rm) = rm_cancelled rm ∧
  rm_run (RunManager_FinalizeRequest o rm) = rm_run rm.
Proof.
  destruct o as [[p r]|]; [|done]. unfold RunManager_FinalizeRequest.
  destruct (evict_completed _ _ _). by repeat case_match.
Qed.
Lemma AddRequest_frame p r rm :
  rm_cancelled (RunManager_AddRequest p r rm).1 = rm_cancelled rm ∧
  rm_run (RunManager_AddRequest p r rm).1 = rm_run rm.
Proof. unfold RunManager_AddRequest. by repeat case_match. Qed.

Lemma trigger_frame err e : same_frame e (Engine_triggerGuardFailure err e).
Proof. unfold Engine_triggerGuardFailure. by repeat case_match. Qed.
(** Rewrites the clock of an engine after a guardrail failure. *)
Ltac trigger_clock :=
  match goal with
  | |- context [eng_simTime (Engine_triggerGuardFailure ?x ?y)] =>
      destruct (trigger_frame x y) as (-> & _)
  end.
Lemma trigger_queue err e :
  eng_eventQueue (Engine_triggerGuardFailure err e) = eng_eventQueue e.
Proof. unfold Engine_triggerGuardFailure. by repeat case_match. Qed.
Lemma ScheduleEvent_frame ev e : same_frame e (Engine_ScheduleEvent ev e).
Proof.
  unfold Engine_ScheduleEvent. repeat case_match; try done;
    (etrans; [|apply trigger_frame]; done).
Qed.
Lemma apply_action_frame a e : same_frame e (apply_action e a).
Proof.
  destruct a; simpl; try done.
  - apply ScheduleEvent_frame.
  - apply trigger_frame.
  - destruct (RunManager_AddRequest p r (eng_runManager e)) as [rm' cb] eqn:E.
    etrans; [|apply trigger_frame]. destruct (AddRequest_frame p r (eng_runManager e)) as [_ H].
    rewrite E in H. simpl in H. unfold same_frame. simpl. by rewrite H.
  - unfold same_frame. simpl. by destruct (FinalizeRequest_frame o (eng_runManager e)) as [_ ->].
Qed.
Lemma apply_actions_frame acts e : same_frame e (apply_actions e acts).
Proof.
  revert e. induction acts as [|a acts IH]; intros e; [done|].
  etrans; [apply apply_action_frame | apply IH].
Qed.

(** ** The loop invariant *)

Definition cancelled (e : Engine) : Prop := rm_cancelled (eng_runManager e) = true.
(** An end event at the end time is pending. *)
Definition end_pending (endTime : Time) (e : Engine) : Prop :=
  ∃ ev, ev ∈ eng_eventQueue e ∧ ev_Type ev = EventTypeSimulationEnd ∧ ev_Time ev = endTime.
Record loop_inv (endTime : Time) (e : Engine) : Prop := {
  inv_queue : queue_ok (eng_eventQueue e);
  inv_guard : eng_guardErr e ≠ None → cancelled e;
  inv_end : cancelled e ∨ end_pending endTime e;
}.
(** The invariant without the end event. *)
Definition engine_ok (e : Engine) : Prop :=
  queue_ok (eng_eventQueue e) ∧ (eng_guardErr e ≠ None → cancelled e).

Lemma trigger_cancels err e :
  (eng_guardErr e ≠ None → cancelled e) → cancelled (Engine_triggerGuardFailure (Some err) e).
Proof. unfold Engine_triggerGuardFailure, cancelled. destruct (eng_guardErr e) eqn:E; [|done]. auto. Qed.
Lemma trigger_guard err e :
  (eng_guardErr e ≠ None → cancelled e) →
  eng_guardErr (Engine_triggerGuardFailure err e) ≠ None →
  cancelled (Engine_triggerGuardFailure err e).
Proof.
  intros H. destruct err; [intros _; by apply trigger_cancels | done].
Qed.
Lemma trigger_mono err e : cancelled e → cancelled (Engine_triggerGuardFailure err e).
Proof. unfold Engine_triggerGuardFailure, cancelled. by repeat case_match. Qed.

(** Scheduling inserts the event, or leaves the queue alone and cancels. *)
Lemma ScheduleEvent_spec ev e :
  engine_ok e →
  let e' := Engine_ScheduleEvent ev e in
  (eng_eventQueue e' = eng_eventQueue e ∧ cancelled e' ∧ eng_guardErr e' ≠ None) ∨
  (∃ id seq, eng_eventQueue e' = EventQueue_Schedule (eng_eventQueue e)
      (mkEvent id (ev_Type ev) (ev_Time ev) (ev_Priority ev) seq (ev_Request ev)
         (ev_ServiceID ev) (ev_Data ev)) ∧
    eng_runManager e' = eng_runManager e ∧ eng_guardErr e' = eng_guardErr e ∧
    seq = (if ev_Sequence ev =? 0 then eng_eventCounter e + 1 else ev_Sequence ev)).
Proof.
  intros [_ Hg]. unfold Engine_ScheduleEvent. cbv zeta.
  assert (∀ err e1, eng_guardErr e1 = eng_guardErr e → eng_runManager e1 = eng_runManager e →
    cancelled (Engine_triggerGuardFailure (Some err) e1) ∧
    eng_guardErr (Engine_triggerGuardFailure (Some err) e1) ≠ None) as Htrig.
  { intros err e1 E1 E2. unfold Engine_triggerGuardFailure, cancelled in *. rewrite E1.
    destruct (eng_guardErr e) eqn:E; simpl; rewrite ?E1, ?E2; auto. }
  destruct (_ && _); [left; rewrite trigger_queue; by auto|].
  destruct (_ && _); [left; rewrite trigger_queue; by auto | right; by eexists _, _].
Qed.

Lemma loop_inv_ok endTime e : loop_inv endTime e → engine_ok e.
Proof. by intros [? ? ?]. Qed.

Lemma trigger_inv endTime err e :
  loop_inv endTime e → loop_inv endTime (Engine_triggerGuardFailure err e).
Proof.
  intros [Hq Hg He]. split.
  - by rewrite trigger_queue.
  - by apply trigger_guard.
  - destruct He as [He|(ev & ? & ? & ?)]; [left; by apply trigger_mono | right].
    exists ev. by rewrite trigger_queue.
Qed.
Lemma ScheduleEvent_inv endTime ev e :
  loop_inv endTime e → loop_inv endTime (Engine_ScheduleEvent ev e).
Proof.
  intros [Hq Hg He].
  destruct (ScheduleEvent_spec ev e) as [(E & Hc & _)|(id & seq & E & Er & Eg & _)]; [done|..].
  - split; [by rewrite E | done | by left].
  - unfold cancelled in *. split; unfold cancelled; rewrite ?E, ?Er, ?Eg; auto with evq.
    destruct He as [He|(x & ? & ? & ?)]; [by left|right].
    exists x. rewrite E, Schedule_perm. split_and!; [by right | done..].
Qed.
(** A change of the run manager that keeps the context keeps the invariant. *)
Lemma set_rm_inv endTime e rm :
  rm_cancelled rm = rm_cancelled (eng_runManager e) →
  loop_inv endTime e → loop_inv endTime (e <| eng_runManager := rm |>).
Proof. intros E [Hq Hg He]. unfold cancelled in *. split; unfold cancelled; simpl; rewrite ?E; auto. Qed.

Lemma apply_action_inv endTime a e : loop_inv endTime e → loop_inv endTime (apply_action e a).
Proof.
  intros H. destruct a; cbn [apply_action]; try (apply set_rm_inv; done).
  - by apply ScheduleEvent_inv.
  - by apply trigger_inv.
  - split; simpl; [apply queue_ok_nil | done | by left].
  - destruct (RunManager_AddRequest p r (eng_runManager e)) as [rm' cb] eqn:E.
    apply trigger_inv, set_rm_inv; [|done].
    by destruct (AddRequest_frame p r (eng_runManager e)) as [<- _]; rewrite E.
  - apply set_rm_inv; [|done]. apply FinalizeRequest_frame.
Qed.
Lemma apply_actions_inv endTime acts e : loop_inv endTime e → loop_inv endTime (apply_actions e acts).
Proof. revert e. induction acts; simpl; auto using apply_action_inv. Qed.

(** [Run_prepare] establishes the invariant. *)
Lemma Run_prepare_inv wall d e :
  engine_ok e → loop_inv (eng_simTime e + d) (Run_prepare wall d e).
Proof.
  intros [Hq Hg].
  set (e1 := e <| eng_runManager := RunManager_Start wall (eng_runManager e) |>).
  change (Run_prepare wall d e) with (Engine_ScheduleEvent (mkEvent "" EventTypeSimulationEnd
    (SimTime_Now (eng_simTime e) + d) 0 0 None "" ∅) e1).
  assert (engine_ok e1) as Hok1 by (split; [done | exact Hg]).
  destruct (ScheduleEvent_spec (mkEvent "" EventTypeSimulationEnd (SimTime_Now (eng_simTime e) + d)
    0 0 None "" ∅) e1 Hok1) as [(E & Hc & _)|(id & seq & E & Er & Eg & _)].
  - split; [by rewrite E | done | by left].
  - split; unfold cancelled; rewrite ?E, ?Er, ?Eg; auto with evq.
    right. eexists. rewrite E, Schedule_perm. split_and!; [by left | done..].
Qed.

Lemma apply_action_ok e a : engine_ok e → engine_ok (apply_action e a).
Proof.
  intros [Hq Hg]. destruct a; cbn [apply_action]; try (split; simpl; done).
  - destruct (ScheduleEvent_spec event e) as [(E & Hc & _)|(id & seq & E & Er & Eg & _)]; [done|..].
    + split; [by rewrite E | done].
    + split; [rewrite E; auto with evq|]. unfold cancelled. by rewrite Eg, Er.
  - split; [by rewrite trigger_queue | by apply trigger_guard].
  - destruct (RunManager_AddRequest p r (eng_runManager e)) as [rm' cb] eqn:E.
    split; [by rewrite trigger_queue | apply trigger_guard]. unfold cancelled. simpl.
    destruct (AddRequest_frame p r (eng_runManager e)) as [Hc _]. rewrite E in Hc. simpl in Hc.
    by rewrite Hc.
  - split; [done|]. unfold cancelled. simpl.
    by destruct (FinalizeRequest_frame o (eng_runManager e)) as [-> _].
Qed.
Lemma apply_actions_ok acts e : engine_ok e → engine_ok (apply_actions e acts).
Proof. revert e. induction acts; simpl; auto using apply_action_ok. Qed.

(** A cancelled run stays cancelled. *)
Lemma apply_action_cancelled a e : cancelled e → cancelled (apply_action e a).
Proof.
  intros Hc. destruct a; cbn [apply_action]; try done.
  - unfold Engine_ScheduleEvent. cbv zeta. repeat (destruct (_ && _); [by apply trigger_mono|]). done.
  - by apply trigger_mono.
  - destruct (RunManager_AddRequest p r (eng_runManager e)) as [rm' cb] eqn:E. apply trigger_mono.
    unfold cancelled in *. simpl. destruct (AddRequest_frame p r (eng_runManager e)) as [H _]. rewrite E in H.
    by simpl in H; rewrite H.
  - unfold cancelled in *. simpl. by destruct (FinalizeRequest_frame o (eng_runManager e)) as [-> _].
Qed.
Lemma apply_actions_cancelled acts e : cancelled e → cancelled (apply_actions e acts).
Proof. revert e. induction acts; simpl; auto using apply_action_cancelled. Qed.

Section loop.
Context {St : Type} (handlers : EventType → option (@Handler St)).

(** A call of another goroutine inside the iteration has cancelled the run. *)
Definition disturbed (env : LoopEnv) (e : Engine) : Prop := cancelled e ∧ inside env ≠ [].
(** What one iteration does: it processes one event, finds the run cancelled and nothing
    to take, or returns. *)
Definition iter_post (env : LoopEnv) (endTime : Time) (e : Engine) (res : @IterResult St) : Prop :=
  match res with
  | Continue _ e' d =>
      loop_inv endTime e' ∧ eng_limits e' = eng_limits e ∧
      ((eng_processed e' = eng_processed e + 1 ∧
        (0 < MaxEventsProcessed (eng_limits e) → eng_processed e' ≤ MaxEventsProcessed (eng_limits e))) ∨
       cancelled e') ∧
      run_Status (rm_run (eng_runManager e')) = run_Status (rm_run (eng_runManager e)) ∧
      (∀ ev, d = Some ev → ev_Type ev ≠ EventTypeSimulationEnd ∧ (ev_Time ev ≤ endTime ∨ disturbed env e'))
  | Return _ e' d r =>
      run_Status (rm_run (eng_runManager e')) = run_Status (rm_run (eng_runManager e)) ∧
      (∀ ev, d = Some ev → ev_Time ev ≤ endTime ∨ disturbed env e') ∧
      match r with
      | RunNil =>
          endTime ≤ eng_simTime e' ∧
          (disturbed env e' ∨
           (eng_guardErr e' = None ∧ eng_simTime e' = endTime ∧
            ∃ ev, d = Some ev ∧ ev_Type ev = EventTypeSimulationEnd ∧ ev_Time ev = endTime))
      | RunError err => eng_guardErr e' = Some err ∧ cancelled e' ∧ d = None
      | RunCancelled => (cancelled e' ∧ d = None) ∨ eng_realTimeMode e' = true
      end
  end.

(** What the rest of an iteration relies on: the calls inside the iteration are the only
    ones that can have cancelled the run. *)
Definition undisturbed (env : LoopEnv) (e : Engine) : Prop := cancelled e → inside env ≠ [].
Lemma undisturbed_apply env e acts :
  (inside env = [] → acts = []) → undisturbed env e → undisturbed env (apply_actions e acts).
Proof. intros Ha Hu Hc Hi. rewrite (Ha Hi) in Hc. by apply Hu. Qed.
Lemma inside_parts env : inside env = [] →
  le_checked env = [] ∧ le_taking env = [] ∧ le_popped env = [] ∧ le_slept env = [].
Proof. unfold inside. by intros [-> [-> [-> ->]%app_eq_nil]%app_eq_nil]%app_eq_nil. Qed.

Lemma dispatch_end env startTime endTime s e0 e event :
  ev_Type event = EventTypeSimulationEnd → endTime ≤ ev_Time event →
  ev_Time event ≤ endTime ∨ cancelled e → engine_ok e → undisturbed env e →
  run_Status (rm_run (eng_runManager e)) = run_Status (rm_run (eng_runManager e0)) →
  iter_post env endTime e0 (Run_dispatch handlers env startTime s e event).
Proof.
  intros Ht Et Hle Hok Hu Hs. unfold Run_dispatch. rewrite bool_decide_true by done.
  set (e1 := e <| eng_simTime := _ |>). cbv zeta.
  assert (Hok1 : engine_ok e1) by done. assert (Hu1 : undisturbed env e1) by done.
  pose proof (apply_actions_ok (le_slept env) e1 Hok1) as [_ Hg].
  assert (Hu2 : undisturbed env (apply_actions e1 (le_slept env)))
    by (apply undisturbed_apply; [by intros (_ & _ & _ & ->)%inside_parts|done]).
  assert (Hle2 : ∀ ev, Some event = Some ev →
    ev_Time ev ≤ endTime ∨ disturbed env (apply_actions e1 (le_slept env))).
  { intros ev [= <-]. destruct Hle as [|Hc]; [by left|right].
    split; [by apply apply_actions_cancelled|by apply Hu]. }
  destruct (apply_actions_frame (le_slept env) e1) as (Etime & _ & _ & _ & _ & Est).
  destruct (_ && _) eqn:E; simpl; (split; [by rewrite Est|]); (split; [done|]).
  - right. by destruct (eng_realTimeMode _).
  - rewrite Etime. split; [done|]. destruct (Hle2 event eq_refl) as [Hl|]; [|by left].
    destruct (rm_cancelled (eng_runManager (apply_actions e1 (le_slept env)))) eqn:Ec.
    + left. split; [done|]. by apply Hu2.
    + right. split_and!; [|simpl; unfold SimTime_Set; lia|exists event; split_and!; [done..|lia]].
      destruct (eng_guardErr _) eqn:Eg; [|done]. unfold cancelled in Hg. rewrite Ec in Hg. by ospecialize (Hg _).
Qed.

Lemma dispatch_other env startTime endTime s e0 e event :
  ev_Type event ≠ EventTypeSimulationEnd → ev_Time event ≤ endTime ∨ cancelled e → loop_inv endTime e →
  undisturbed env e →
  eng_processed e = eng_processed e0 + 1 → eng_limits e = eng_limits e0 →
  (0 < MaxEventsProcessed (eng_limits e0) → eng_processed e ≤ MaxEventsProcessed (eng_limits e0)) →
  run_Status (rm_run (eng_runManager e)) = run_Status (rm_run (eng_runManager e0)) →
  iter_post env endTime e0 (Run_dispatch handlers env startTime s e event).
Proof.
  intros Ht Et Hinv Hu Ep El Hb Hs. unfold Run_dispatch. rewrite bool_decide_false by done.
  set (e1 := e <| eng_simTime := _ |>). cbv zeta. assert (loop_inv endTime e1) as Hinv1 by by destruct Hinv.
  pose proof (apply_actions_inv endTime (le_slept env) e1 Hinv1) as Hinv2.
  destruct (apply_actions_frame (le_slept env) e1) as (_ & Ep2 & El2 & _ & _ & Es2).
  assert (Hd : ∀ e2, (cancelled (apply_actions e1 (le_slept env)) → cancelled e2) → ∀ ev, Some event = Some ev →
    ev_Type ev ≠ EventTypeSimulationEnd ∧ (ev_Time ev ≤ endTime ∨ disturbed env e2)).
  { intros e2 Hm ev [= <-]. split; [done|]. destruct Et as [|Hc]; [by left|right].
    split; [|by apply Hu]. by apply Hm, apply_actions_cancelled. }
  set (e2 := apply_actions e1 (le_slept env)) in *.
  destruct (handlers (ev_Type event)) as [h|].
  - destruct (h s e2 event) as [[s' acts] err]. simpl.
    destruct (apply_actions_frame acts e2) as (_ & -> & -> & _ & _ & ->).
    split_and!; auto using apply_actions_inv; rewrite ?Ep2, ?El2, ?Es2; simpl; try congruence; [by left|].
    apply Hd, apply_actions_cancelled.
  - simpl. split_and!; rewrite ?Ep2, ?El2, ?Es2; auto; by apply Hd.
Qed.

Lemma reschedule_end env endTime s e0 e :
  loop_inv endTime e → eng_processed e = eng_processed e0 + 1 → eng_limits e = eng_limits e0 →
  (0 < MaxEventsProcessed (eng_limits e0) → eng_processed e ≤ MaxEventsProcessed (eng_limits e0)) →
  run_Status (rm_run (eng_runManager e)) = run_Status (rm_run (eng_runManager e0)) →
  iter_post env endTime e0
    (Continue s (Engine_ScheduleAt EventTypeSimulationEnd endTime None "" ∅ e) None).
Proof.
  intros Hinv Ep El Hb Hs. unfold Engine_ScheduleAt, Engine_ScheduleAtPriority, iter_post.
  destruct (ScheduleEvent_frame (mkEvent "" EventTypeSimulationEnd endTime 0 0 None "" ∅) e)
    as (_ & -> & -> & _ & _ & ->).
  split_and!; auto using ScheduleEvent_inv; congruence.
Qed.

(** Nothing to take: only a run cancelled inside the iteration gets here. *)
Lemma idle_post env endTime s e0 e :
  loop_inv endTime e → cancelled e → undisturbed env e → eng_limits e = eng_limits e0 →
  run_Status (rm_run (eng_runManager e)) = run_Status (rm_run (eng_runManager e0)) →
  iter_post env endTime e0 (Run_idle env endTime s e).
Proof.
  intros Hinv Hc Hu El Hs. unfold Run_idle. cbv zeta.
  pose proof (apply_actions_inv endTime (le_slept env) e Hinv) as Hinv1.
  pose proof (apply_actions_cancelled (le_slept env) e Hc) as Hc1.
  destruct (apply_actions_frame (le_slept env) e) as (_ & _ & El1 & _ & _ & Es1).
  set (e1 := apply_actions e (le_slept env)) in *. unfold Before, SimTime_Now.
  destruct (Z.ltb_spec (eng_simTime e) endTime) as [Hlt|Hge].
  - destruct (match EventQueue_Peek _ with Some _ => _ | None => _ end); [by split_and!; auto|].
    destruct (EventQueue_IsEmpty _); [|split_and!; auto; congruence].
    destruct (_ <? _); [|split_and!; auto; congruence].
    split; [simpl; congruence|]. split; [done|]. split; [simpl; unfold SimTime_Set; lia|].
    left. split; [done|by apply Hu].
  - split; [done|]. split; [done|]. split; [done|]. left. split; [done|by apply Hu].
Qed.

(** Taking the first event of the queue: unless the run is cancelled it is not later than
    the end, and unless it is the end itself the end stays pending. *)
Lemma take_inv endTime e ev q :
  loop_inv endTime e → EventQueue_Next (eng_eventQueue e) = (Some ev, q) →
  (ev_Time ev ≤ endTime ∨ cancelled e) ∧ engine_ok (e <| eng_eventQueue := q |>) ∧
  (ev_Type ev = EventTypeSimulationEnd → ev_Time ev < endTime → loop_inv endTime (e <| eng_eventQueue := q |>)) ∧
  (ev_Type ev ≠ EventTypeSimulationEnd → loop_inv endTime (e <| eng_eventQueue := q |>)).
Proof.
  intros [Hq Hg He] En.
  destruct (decide (eng_eventQueue e = [])) as [E0|Hne]; [rewrite E0 in En; discriminate En|].
  destruct (Next_some _ Hne Hq) as (ev' & q' & E' & Hp & Hq' & Hmin). rewrite En in E'. injection E' as <- <-.
  assert (Hin : ∀ x, x ∈ eng_eventQueue e → x ≠ ev → x ∈ q).
  { intros x Hx Hn. rewrite Hp in Hx. by apply elem_of_cons in Hx as [->|]. }
  split_and!.
  - destruct He as [He|(x & Hx & Htx & Etx)]; [by right|left].
    specialize (Hmin x Hx). rewrite event_le_spec in Hmin. lia.
  - done.
  - intros _ Hlt. split; [done|exact Hg|]. destruct He as [He|(x & Hx & Htx & Etx)]; [by left|right].
    exists x. split_and!; [|done..]. apply Hin; [done|]. intros ->. lia.
  - intros Hn. split; [done|exact Hg|]. destruct He as [He|(x & Hx & Htx & Etx)]; [by left|right].
    exists x. split_and!; [|done..]. apply Hin; [done|]. by intros ->.
Qed.

(** The part of an iteration after an event was taken. *)
Lemma taken_post env startTime endTime s e0 e ev q :
  loop_inv endTime e → undisturbed env e → EventQueue_Next (eng_eventQueue e) = (Some ev, q) →
  eng_processed e = eng_processed e0 → eng_limits e = eng_limits e0 →
  run_Status (rm_run (eng_runManager e)) = run_Status (rm_run (eng_runManager e0)) →
  let e1 := apply_actions (e <| eng_eventQueue := q |>) (le_popped env) in
  ∀ n, let e2 := (e1 <| eng_maxQueueSeen := n |>) <| eng_processed := eng_processed e1 + 1 |> in
  iter_post env endTime e0
    (if (0 <? MaxEventsProcessed (eng_limits e2)) && (MaxEventsProcessed (eng_limits e2) <? eng_processed e1 + 1)
     then match Engine_guardrailErr (Engine_triggerGuardFailure (Some (LimitExceeded "max_events_processed"
                  (eng_processed e1 + 1) (MaxEventsProcessed (eng_limits e2)))) e2) with
          | Some err => Return s (Engine_triggerGuardFailure (Some (LimitExceeded "max_events_processed"
                  (eng_processed e1 + 1) (MaxEventsProcessed (eng_limits e2)))) e2) None (RunError err)
          | None => Return s (Engine_triggerGuardFailure (Some (LimitExceeded "max_events_processed"
                  (eng_processed e1 + 1) (MaxEventsProcessed (eng_limits e2)))) e2) None RunNil
          end
     else if bool_decide (ev_Type ev = EventTypeSimulationEnd) && Before (ev_Time ev) endTime
     then Continue s (Engine_ScheduleAt EventTypeSimulationEnd endTime None "" ∅ e2) None
     else Run_dispatch handlers env startTime s e2 ev).
Proof.
  intros Hinv Hu En Ep El Hs e1 n e2.
  destruct (take_inv _ _ _ _ Hinv En) as (Htime & Hok & Hend & Hother).
  set (e' := e <| eng_eventQueue := q |>) in *.
  destruct (apply_actions_frame (le_popped env) e') as (_ & Ep1 & El1 & _ & _ & Es1). fold e1 in Ep1, El1, Es1.
  assert (Hu2 : undisturbed env e2).
  { assert (undisturbed env e1); [|done].
    apply undisturbed_apply; [by intros (_ & _ & -> & _)%inside_parts|done]. }
  assert (Htime2 : ev_Time ev ≤ endTime ∨ cancelled e2).
  { destruct Htime as [|Hc]; [by left|right]. by apply (apply_actions_cancelled (le_popped env) e'). }
  assert (Hok2 : engine_ok e2).
  { assert (engine_ok e1) by (by apply apply_actions_ok). done. }
  assert (Hinv2 : loop_inv endTime e' → loop_inv endTime e2).
  { intros H. pose proof (apply_actions_inv endTime (le_popped env) e' H) as H'. fold e1 in H'. by destruct H'. }
  assert (El2 : eng_limits e2 = eng_limits e0) by (simpl; rewrite El1; simpl; congruence).
  assert (Ep2 : eng_processed e2 = eng_processed e0 + 1) by (simpl; rewrite Ep1; simpl; congruence).
  assert (Es2 : run_Status (rm_run (eng_runManager e2)) = run_Status (rm_run (eng_runManager e0)))
    by (simpl; rewrite Es1; simpl; congruence).
  assert (Ep3 : eng_processed e1 + 1 = eng_processed e0 + 1) by exact Ep2.
  clearbody e2. rewrite El2, Ep3.
  destruct (_ && _) eqn:Elim.
  { set (err := LimitExceeded _ _ _).
    pose proof (trigger_cancels err e2 (proj2 Hok2)) as Hc.
    assert (∃ err', Engine_guardrailErr (Engine_triggerGuardFailure (Some err) e2) = Some err') as [err' Eg].
    { unfold Engine_guardrailErr, Engine_triggerGuardFailure. destruct (eng_guardErr e2) eqn:E; simpl; eauto. }
    rewrite Eg. destruct (trigger_frame (Some err) e2) as (_ & _ & _ & _ & _ & Es3).
    split; [congruence|]. split; [done|]. by split_and!. }
  assert (0 < MaxEventsProcessed (eng_limits e0) → eng_processed e2 ≤ MaxEventsProcessed (eng_limits e0)) as Hbound
    by (apply andb_false_iff in Elim as [?%Z.ltb_ge|?%Z.ltb_ge]; lia).
  destruct (bool_decide (ev_Type ev = EventTypeSimulationEnd)) eqn:Et; simpl.
  - apply bool_decide_eq_true in Et. unfold Before. destruct (Z.ltb_spec (ev_Time ev) endTime) as [Hlt|Hge].
    + apply reschedule_end; auto.
    + by apply dispatch_end.
  - apply bool_decide_eq_false in Et. apply dispatch_other; auto.
Qed.

(** One iteration of the loop. *)
Lemma Run_iter_post env startTime endTime s e :
  loop_inv endTime e → iter_post env endTime e (Run_iter handlers env startTime endTime s e).
Proof.
  intros Hinv0. unfold Run_iter.
  pose proof (apply_actions_inv endTime (le_external env) e Hinv0) as Hinv1.
  destruct (apply_actions_frame (le_external env) e) as (_ & Ep & El & _ & _ & Es).
  set (e1 := apply_actions e (le_external env)) in *. cbv zeta.
  set (e2 := if (_ && _ : bool) then (_ : Engine) else e1).
  assert (loop_inv endTime e2 ∧ same_frame e1 e2) as [Hinv2 (_ & Ep2 & El2 & _ & _ & Es2)].
  { subst e2. case_match; [|done]. split; [by apply trigger_inv | apply trigger_frame]. }
  clearbody e2. unfold Engine_guardrailErr at 1. destruct (eng_guardErr e2) as [err|] eqn:Eg.
  { split; [congruence|]. split; [done|]. split_and!; [done | by apply (inv_guard _ _ Hinv2); rewrite Eg | done]. }
  pose proof (apply_actions_inv endTime (le_checked env) e2 Hinv2) as Hinv3.
  destruct (apply_actions_frame (le_checked env) e2) as (_ & Ep3 & El3 & _ & _ & Es3).
  set (e3 := apply_actions e2 (le_checked env)) in *. clearbody e3.
  destruct (rm_cancelled (eng_runManager e3)) eqn:Ec.
  { unfold Engine_guardrailErr. destruct (eng_guardErr e3) eqn:Eg3; (split; [congruence|]); split; try done.
    by left. }
  assert (Hu3 : undisturbed env e3) by (unfold undisturbed, cancelled; by rewrite Ec).
  pose proof (apply_actions_inv endTime (le_taking env) e3 Hinv3) as Hinv4.
  assert (Hu4 : undisturbed env (apply_actions e3 (le_taking env)))
    by (apply undisturbed_apply; [by intros (_ & -> & _)%inside_parts|done]).
  destruct (apply_actions_frame (le_taking env) e3) as (_ & Ep4 & El4 & _ & _ & Es4).
  set (e4 := apply_actions e3 (le_taking env)) in *. clearbody e4.
  destruct (EventQueue_Next (eng_eventQueue e4)) as [[ev|] q] eqn:En.
  { apply (taken_post env startTime endTime s e e4 ev q); try done; congruence. }
  assert (eng_eventQueue e4 = [] ∧ q = []) as [Eq ->].
  { destruct (decide (eng_eventQueue e4 = [])) as [E0|Hne]; [rewrite E0 in En; by injection En|].
    destruct (Next_some _ Hne (inv_queue _ _ Hinv4)) as (? & ? & E' & _). congruence. }
  assert (Hc4 : cancelled e4).
  { destruct (inv_end _ _ Hinv4) as [|(x & Hx & _)]; [done|]. rewrite Eq in Hx. by apply not_elem_of_nil in Hx. }
  set (e4' := e4 <| eng_eventQueue := [] |>).
  assert (Hinv4' : loop_inv endTime e4') by (split; [apply queue_ok_nil|exact (inv_guard _ _ Hinv4)|by left]).
  assert (Hc4' : cancelled e4') by exact Hc4. assert (Hu4' : undisturbed env e4') by exact Hu4.
  destruct (apply_actions_frame (le_popped env) e4') as (_ & _ & El5 & _ & _ & Es5).
  pose proof (apply_actions_inv endTime (le_popped env) e4' Hinv4') as Hinv5.
  pose proof (apply_actions_cancelled (le_popped env) e4' Hc4') as Hc5.
  apply idle_post; [by destruct Hinv5|exact Hc5| |simpl; rewrite El5; simpl; congruence|simpl; rewrite Es5; simpl; congruence].
  assert (undisturbed env (apply_actions e4' (le_popped env))); [|done].
  apply undisturbed_apply; [by intros (_ & _ & -> & _)%inside_parts|done].
Qed.

(** A cancelled run returns at once, dispatches nothing and stays cancelled. *)
Lemma Run_iter_cancelled env startTime endTime s e : cancelled e →
  ∃ e' r, Run_iter handlers env startTime endTime s e = Return s e' None r ∧ cancelled e' ∧ r ≠ RunNil.
Proof.
  intros Hc. unfold Run_iter. cbv zeta.
  pose proof (apply_actions_cancelled (le_external env) e Hc) as Hc1.
  set (e1 := apply_actions e (le_external env)) in *. set (e2 := if (_ && _ : bool) then (_ : Engine) else e1).
  assert (Hc2 : cancelled e2) by (subst e2; case_match; [by apply trigger_mono|done]). clearbody e2.
  destruct (Engine_guardrailErr e2); [by eexists _, _|].
  pose proof (apply_actions_cancelled (le_checked env) e2 Hc2) as Hc3. assert (Hc4 := Hc3).
  unfold cancelled in Hc3. rewrite Hc3. destruct (Engine_guardrailErr _); by eexists _, _.
Qed.

(** ** The loop returns *)

Lemma Run_loop_cancelled fuel envs i startTime endTime s e : cancelled e → (0 < fuel)%nat →
  is_Some (Run_loop handlers fuel envs i startTime endTime s e).
Proof.
  intros Hc Hf. destruct fuel as [|fuel]; [lia|]. cbn [Run_loop].
  destruct (Run_iter_cancelled (envs i) startTime endTime s e Hc) as (e' & r & -> & _). eauto.
Qed.
Lemma Run_loop_returns fuel envs i startTime endTime s e :
  loop_inv endTime e → 0 < MaxEventsProcessed (eng_limits e) →
  eng_processed e ≤ MaxEventsProcessed (eng_limits e) →
  (S (Z.to_nat (MaxEventsProcessed (eng_limits e) - eng_processed e)) < fuel)%nat →
  is_Some (Run_loop handlers fuel envs i startTime endTime s e).
Proof.
  revert i s e. induction fuel as [|fuel IH]; intros i s e Hinv Hpos Hle Hf; [lia|].
  cbn [Run_loop]. pose proof (Run_iter_post (envs i) startTime endTime s e Hinv) as Hpost.
  destruct (Run_iter _ _ _ _ _ _) as [s' e' d|s' e' d r]; [|eauto].
  destruct Hpost as (Hinv' & El & [(Ep & Hb)|Hc] & _).
  - destruct (IH (S i) s' e') as [[[[s2 e2] tr] r] E]; rewrite ?El; auto with lia. rewrite E. eauto.
  - destruct (Run_loop_cancelled fuel envs (S i) startTime endTime s' e') as [[[[s2 e2] tr] r] E]; [done|lia|].
    rewrite E. eauto.
Qed.

(** What a returned loop says about the run. *)
Definition stopped_inside (envs : nat → LoopEnv) (e : Engine) : Prop := cancelled e ∧ ∃ j, inside (envs j) ≠ [].
Definition loop_post (envs : nat → LoopEnv) (endTime : Time) (e e' : Engine) (tr : list Event) (r : RunResult) : Prop :=
  run_Status (rm_run (eng_runManager e')) = run_Status (rm_run (eng_runManager e)) ∧
  (Forall (λ ev, ev_Time ev ≤ endTime) tr ∨
   (stopped_inside envs e' ∧ ∃ tr0 ev, tr = tr0 ++ [ev] ∧ Forall (λ ev, ev_Time ev ≤ endTime) tr0)) ∧
  match r with
  | RunNil =>
      endTime ≤ eng_simTime e' ∧
      (stopped_inside envs e' ∨
       (eng_guardErr e' = None ∧ eng_simTime e' = endTime ∧
        ∃ ev, last tr = Some ev ∧ ev_Type ev = EventTypeSimulationEnd ∧ ev_Time ev = endTime))
  | RunError err => eng_guardErr e' = Some err ∧ cancelled e'
  | RunCancelled => cancelled e' ∨ eng_realTimeMode e' = true
  end.
Lemma Run_loop_after_cancel fuel envs i startTime endTime s e s' e' tr r :
  cancelled e →
  Run_loop handlers fuel envs i startTime endTime s e = Some (s', e', tr, r) → tr = [] ∧ cancelled e'.
Proof.
  intros Hc E. destruct fuel as [|fuel]; [done|]. cbn [Run_loop] in E.
  destruct (Run_iter_cancelled (envs i) startTime endTime s e Hc) as (e1 & r1 & E1 & Hc1 & _).
  rewrite E1 in E. by injection E as <- <- <- <-.
Qed.

Lemma Run_loop_post fuel envs i startTime endTime s e s' e' tr r :
  loop_inv endTime e →
  Run_loop handlers fuel envs i startTime endTime s e = Some (s', e', tr, r) →
  loop_post envs endTime e e' tr r.
Proof.
  revert i s e s' e' tr r. induction fuel as [|fuel IH]; intros i s e s' e' tr r Hinv E; [done|].
  cbn [Run_loop] in E. pose proof (Run_iter_post (envs i) startTime endTime s e Hinv) as Hpost.
  assert (Hstop : ∀ e1, disturbed (envs i) e1 → stopped_inside envs e1) by (intros e1 [? ?]; split; eauto).
  destruct (Run_iter _ _ _ _ _ _) as [s1 e1 d|s1 e1 d r1].
  - destruct Hpost as (Hinv' & _ & _ & Es & Hd).
    destruct (Run_loop _ _ _ _ _ _ _ _) as [[[[s2 e2] tr2] r2]|] eqn:E2; simplify_eq.
    destruct (IH _ _ _ _ _ _ _ Hinv' E2) as (Es2 & Hall & Hr). split_and!; [congruence|..].
    + destruct d as [ev|]; [|done]. cbn [opt_list]. destruct (Hd ev eq_refl) as [_ [Hle|Hc]].
      * destruct Hall as [Hall|(Hs & tr0 & ev0 & -> & Hall)]; [left; by constructor|right].
        split; [done|]. exists (ev :: tr0), ev0. split; [done|by constructor].
      * destruct (Run_loop_after_cancel _ _ _ _ _ _ _ _ _ _ _ (proj1 Hc) E2) as [-> Hc'].
        right. split; [split; [done|exists i; apply Hc]|]. by exists [], ev.
    + destruct r; [|done..]. destruct Hr as (? & [Hs|(? & ? & ev & Hl & ? & ?)]); (split; [done|]); [by left|right].
      split_and!; [done..|]. exists ev. split; [|done]. rewrite last_app, Hl. done.
  - simplify_eq. destruct Hpost as (Es & Hd & Hr). split_and!; [done| |].
    + destruct d as [ev|]; [|by left; constructor]. cbn [opt_list]. destruct (Hd ev eq_refl) as [Hle|Hc].
      * left. by constructor.
      * right. split; [by apply Hstop|]. by exists [], ev.
    + destruct r.
      * destruct Hr as (? & [Hc|(? & ? & ev & -> & ? & ?)]); (split; [done|]); [left; by apply Hstop|right].
        split_and!; [done..|]. by exists ev.
      * by destruct Hr as (? & ? & _).
      * destruct Hr as [[? _]|?]; [by left|by right].
Qed.
End loop.

(** ** The clock never goes back *)

(** Scheduling no earlier than the current simulation time. *)
Definition causal_action (now : Time) (a : EngineAction) : Prop :=
  match a with ActSchedule ev => now ≤ ev_Time ev | _ => True end.
Definition no_schedule (a : EngineAction) : Prop :=
  match a with ActSchedule _ => False | _ => True end.
Definition causal_handlers {St} (handlers : EventType → option (@Handler St)) : Prop :=
  ∀ ty h s e ev, handlers ty = Some h → Forall (causal_action (eng_simTime e)) (h s e ev).1.2.
(** No pending event is in the past. *)
Definition future (e : Engine) : Prop :=
  Forall (λ ev, eng_simTime e ≤ ev_Time ev) (eng_eventQueue e).

Lemma ScheduleEvent_future ev e :
  future e → eng_simTime e ≤ ev_Time ev → future (Engine_ScheduleEvent ev e).
Proof.
  unfold future, Engine_ScheduleEvent. intros Hf Ht. cbv zeta.
  do 2 (destruct (_ && _);
    [rewrite trigger_queue; by trigger_clock |]).
  simpl. rewrite Schedule_perm. by constructor.
Qed.
Lemma apply_action_future e a :
  causal_action (eng_simTime e) a → future e → future (apply_action e a).
Proof.
  intros Ha Hf. destruct a; simpl in Ha |- *; try done.
  - by apply ScheduleEvent_future.
  - unfold future, Engine_TriggerLimitExceeded. rewrite trigger_queue. by trigger_clock.
  - by constructor.
  - destruct (RunManager_AddRequest p r (eng_runManager e)) as [rm' cb]. unfold future.
    rewrite trigger_queue. by trigger_clock.
Qed.
Lemma apply_actions_future acts e :
  Forall (causal_action (eng_simTime e)) acts → future e → future (apply_actions e acts).
Proof.
  revert e. induction acts as [|a acts IH]; intros e Ha Hf; [done|]. inversion Ha; subst.
  apply IH; [|by apply apply_action_future].
  by destruct (apply_action_frame a e) as (-> & _).
Qed.

Section clock.
Context {St : Type} (handlers : EventType → option (@Handler St)).
Context (Hcausal : causal_handlers handlers).

Definition clock_post (e : Engine) (res : @IterResult St) : Prop :=
  match res with
  | Continue _ e' d | Return _ e' d _ =>
      match d with
      | Some ev => eng_simTime e ≤ ev_Time ev ∧ eng_simTime e' = ev_Time ev
      | None => True
      end ∧ eng_simTime e ≤ eng_simTime e' ∧
      match res with Continue _ _ _ => future e' | _ => True end
  end.

(** Calls that schedule nothing. *)
Lemma no_schedule_queue (P : Event → Prop) acts e : Forall no_schedule acts →
  Forall P (eng_eventQueue e) → Forall P (eng_eventQueue (apply_actions e acts)).
Proof.
  revert e. induction acts as [|a acts IH]; intros e Ha Hp; [done|]. apply Forall_cons in Ha as [Ha Hacts].
  apply IH; [done|]. destruct a; cbn [apply_action]; try done.
  - by unfold Engine_TriggerLimitExceeded; rewrite trigger_queue.
  - destruct (RunManager_AddRequest _ _ _) as [rm' cb]. by rewrite trigger_queue.
Qed.

Lemma Run_dispatch_clock env startTime s e0 e event : Forall no_schedule (le_slept env) →
  eng_simTime e0 ≤ ev_Time event → Forall (λ ev, ev_Time event ≤ ev_Time ev) (eng_eventQueue e) →
  clock_post e0 (Run_dispatch handlers env startTime s e event).
Proof.
  intros Hns Ht Hf. unfold Run_dispatch. set (e1 := e <| eng_simTime := _ |>). cbv zeta.
  destruct (apply_actions_frame (le_slept env) e1) as (Et & _).
  pose proof (no_schedule_queue _ (le_slept env) e1 Hns Hf) as Hf2.
  set (e2 := apply_actions e1 (le_slept env)) in *. change (eng_simTime e1) with (ev_Time event) in Et.
  case_bool_decide; [case_match; simpl; rewrite Et; done|].
  destruct (handlers (ev_Type event)) as [h|] eqn:Eh.
  - pose proof (Hcausal _ _ s e2 event Eh) as Hc. destruct (h s e2 event) as [[s' acts] err].
    simpl in *. destruct (apply_actions_frame acts e2) as (-> & _). rewrite Et.
    split_and!; [done..|]. apply apply_actions_future; [done|]. unfold future. by rewrite Et.
  - simpl. unfold future. by rewrite Et.
Qed.
Lemma Run_idle_clock env endTime s e : Forall no_schedule (le_slept env) → future e →
  clock_post e (Run_idle (St := St) env endTime s e).
Proof.
  intros Hns Hf. unfold Run_idle. cbv zeta.
  destruct (apply_actions_frame (le_slept env) e) as (Et & _).
  pose proof (no_schedule_queue _ (le_slept env) e Hns Hf) as Hf2.
  unfold Before, SimTime_Now. destruct (Z.ltb_spec (eng_simTime e) endTime) as [Hlt|Hge]; [|by simpl].
  destruct (match EventQueue_Peek _ with Some _ => _ | None => _ end); [by simpl|].
  destruct (EventQueue_IsEmpty _); [destruct (_ <? _)|]; simpl; unfold future, SimTime_Set; rewrite ?Et; split_and!; try done; lia.
Qed.

Lemma Run_iter_clock env startTime endTime s e :
  Forall no_schedule (le_external env ++ inside env) → future e → loop_inv endTime e →
  clock_post e (Run_iter handlers env startTime endTime s e).
Proof.
  intros Hns Hf Hinv. unfold inside in Hns. rewrite !Forall_app in Hns. destruct Hns as (Hn1 & Hn2 & Hn3 & Hn4 & Hn5).
  unfold Run_iter. cbv zeta.
  assert (Hstep : ∀ acts e1, Forall no_schedule acts → future e1 → loop_inv endTime e1 → eng_simTime e1 = eng_simTime e →
    future (apply_actions e1 acts) ∧ loop_inv endTime (apply_actions e1 acts) ∧ eng_simTime (apply_actions e1 acts) = eng_simTime e).
  { intros acts e1 Ha Hf1 Hi1 Et1. destruct (apply_actions_frame acts e1) as (Et & _). split_and!; [|by apply apply_actions_inv|congruence].
    unfold future. rewrite Et. by apply no_schedule_queue. }
  destruct (Hstep (le_external env) e) as (Hf1 & Hi1 & Et1); [done..|].
  set (e1 := apply_actions e (le_external env)) in *. set (e2 := if (_ && _ : bool) then (_ : Engine) else e1).
  assert (future e2 ∧ loop_inv endTime e2 ∧ eng_simTime e2 = eng_simTime e) as (Hf2 & Hi2 & Et2).
  { subst e2. case_match; [|done]. unfold future. rewrite trigger_queue.
    split_and!; [by trigger_clock|by apply trigger_inv|by trigger_clock]. }
  clearbody e2. destruct (Engine_guardrailErr e2); [simpl; split_and!; auto; lia|].
  destruct (Hstep (le_checked env) e2) as (Hf3 & Hi3 & Et3); [done..|].
  set (e3 := apply_actions e2 (le_checked env)) in *. clearbody e3.
  destruct (rm_cancelled (eng_runManager e3)); [destruct (Engine_guardrailErr e3); simpl; split_and!; auto; lia|].
  destruct (Hstep (le_taking env) e3) as (Hf4 & Hi4 & Et4); [done..|].
  set (e4 := apply_actions e3 (le_taking env)) in *. clearbody e4.
  destruct (EventQueue_Next (eng_eventQueue e4)) as [o q] eqn:En.
  set (e4' := e4 <| eng_eventQueue := q |>).
  destruct (apply_actions_frame (le_popped env) e4') as (Et5 & _).
  change (eng_simTime e4') with (eng_simTime e4) in Et5. rewrite Et4 in Et5.
  destruct (decide (eng_eventQueue e4 = [])) as [E0|Hne].
  { rewrite E0 in En. injection En as <- <-.
    set (e6 := set_field eng_maxQueueSeen _ _). assert (Hc6 : clock_post e6 (Run_idle (St := St) env endTime s e6)).
    { apply Run_idle_clock; [done|]. unfold future. simpl. apply no_schedule_queue; [done|]. by constructor. }
    assert (E6 : eng_simTime e6 = eng_simTime e) by exact Et5.
    unfold clock_post in *. destruct (Run_idle _ _ _ _); by rewrite <-E6. }
  destruct (Next_some _ Hne (inv_queue _ _ Hi4)) as (ev & q' & E' & Hp & _ & Hmin). rewrite En in E'. injection E' as -> <-.
  unfold future in Hf4. rewrite Hp, Forall_cons, Et4 in Hf4. destruct Hf4 as [Hev Hrest].
  assert (Hq5 : Forall (λ x, ev_Time ev ≤ ev_Time x) (eng_eventQueue (apply_actions e4' (le_popped env)))).
  { apply no_schedule_queue; [done|]. apply Forall_forall. intros y Hy. simpl in Hy.
    assert (y ∈ eng_eventQueue e4) as Hy' by (rewrite Hp; by right).
    specialize (Hmin y Hy'). rewrite event_le_spec in Hmin. lia. }
  set (e5 := apply_actions e4' (le_popped env)) in *. clearbody e5.
  set (e6 := set_field eng_processed _ _).
  destruct (_ && _) eqn:Elim.
  { destruct (Engine_guardrailErr _); simpl; (split_and!; [done| |done]); trigger_clock; simpl; lia. }
  destruct (bool_decide (ev_Type ev = EventTypeSimulationEnd) && Before (ev_Time ev) endTime) eqn:Eb.
  - unfold Before in Eb. apply andb_true_iff in Eb as [_ Eb%Z.ltb_lt].
    unfold Engine_ScheduleAt, Engine_ScheduleAtPriority. simpl.
    match goal with |- context [Engine_ScheduleEvent ?x ?y] =>
      destruct (ScheduleEvent_frame x y) as (Es & _) end.
    rewrite Es. split_and!; [done | simpl; lia |].
    apply ScheduleEvent_future; [|simpl; lia]. unfold future. simpl. rewrite Et5.
    eapply Forall_impl; [exact Hq5|]. simpl. lia.
  - by apply Run_dispatch_clock.
Qed.

Lemma Run_loop_clock fuel envs i startTime endTime s e s' e' tr r :
  (∀ j, Forall no_schedule (le_external (envs j) ++ inside (envs j))) → future e → loop_inv endTime e →
  Run_loop handlers fuel envs i startTime endTime s e = Some (s', e', tr, r) →
  StronglySorted Z.le (ev_Time <$> tr) ∧ Forall (λ ev, eng_simTime e ≤ ev_Time ev) tr ∧
  eng_simTime e ≤ eng_simTime e'.
Proof.
  intros Hext. revert i s e s' e' tr r.
  induction fuel as [|fuel IH]; intros i s e s' e' tr r Hf Hinv E; [done|]. cbn [Run_loop] in E.
  pose proof (Run_iter_clock (envs i) startTime endTime s e (Hext i) Hf Hinv) as Hc.
  pose proof (Run_iter_post handlers (envs i) startTime endTime s e Hinv) as Hpost.
  destruct (Run_iter _ _ _ _ _ _) as [s1 e1 d|s1 e1 d r1]; simpl in Hc.
  - destruct Hc as (Hd & Hle & Hf'), Hpost as (Hinv' & _).
    destruct (Run_loop _ _ _ _ _ _ _ _) as [[[[s2 e2] tr2] r2]|] eqn:E2; simplify_eq.
    destruct (IH _ _ _ _ _ _ _ Hf' Hinv' E2) as (Hs & Hall & Hle2).
    assert (Forall (λ ev, eng_simTime e ≤ ev_Time ev) tr2)
      by (eapply Forall_impl; [done|]; simpl; lia).
    destruct d as [ev|]; simpl; [|split_and!; [done..|lia]]. destruct Hd as [Hd1 Hd2].
    split_and!; [|by constructor | lia]. apply StronglySorted_cons. split; [|done].
    apply Forall_fmap. rewrite <-Hd2. done.
  - simplify_eq. destruct Hc as (Hd & Hle & _). destruct d as [ev|]; simpl.
    + split_and!; [repeat constructor | by constructor; [apply Hd|] | lia].
    + split_and!; [constructor | constructor | lia].
Qed.
End clock.

(** ** Sequence numbers and queue bounds *)

(** Events reach the engine without a sequence number ([ScheduleAt] and its
    variants never set one). *)
Definition auto_sequence (a : EngineAction) : Prop :=
  match a with ActSchedule ev => ev_Sequence ev = 0 | _ => True end.

(** Calls on the engine interleaved with the loop taking events. *)
Inductive engine_step : Engine → Engine → Prop :=
  | step_action a e : auto_sequence a → engine_step e (apply_action e a)
  | step_pop e t : engine_step e (e <| eng_eventQueue := (EventQueue_Next (eng_eventQueue e)).2 |>
                                    <| eng_simTime := t |>).

Record seq_inv (e : Engine) : Prop := {
  seq_queue : queue_ok (eng_eventQueue e);
  seq_nodup : NoDup (ev_Sequence <$> eng_eventQueue e);
  seq_range : Forall (λ ev, ev_Sequence ev ≤ eng_eventCounter e) (eng_eventQueue e);
  seq_limit : 0 < MaxEventsScheduled (eng_limits e) →
    Forall (λ ev, ev_Sequence ev ≤ MaxEventsScheduled (eng_limits e)) (eng_eventQueue e);
  seq_size : 0 < MaxEventQueueSize (eng_limits e) →
    EventQueue_Size (eng_eventQueue e) ≤ MaxEventQueueSize (eng_limits e);
}.

Lemma Next_sub q : queue_ok q → ∃ l, q ≡ₚ l ++ (EventQueue_Next q).2 ∧ (length l ≤ 1)%nat.
Proof.
  intros Hok. destruct (decide (q = [])) as [->|Hne]; [exists []; simpl; split; [done | lia]|].
  destruct (Next_some q Hne Hok) as (e & q' & -> & Hp & _). exists [e]. simpl. auto.
Qed.

(** Fewer events, the same counter and limits: the invariant stays. *)
Lemma seq_inv_sub e e' l :
  seq_inv e → eng_eventQueue e ≡ₚ l ++ eng_eventQueue e' → queue_ok (eng_eventQueue e') →
  eng_eventCounter e ≤ eng_eventCounter e' → eng_limits e' = eng_limits e → seq_inv e'.
Proof.
  intros [_ Hnd Hr Hl Hs] Hp Hq Hc El. unfold EventQueue_Size, EventQueue_Len in *.
  rewrite Hp in Hnd, Hr. rewrite fmap_app in Hnd. rewrite Forall_app in Hr.
  split; unfold EventQueue_Size, EventQueue_Len; rewrite ?El.
  - done.
  - by apply NoDup_app in Hnd as (_ & _ & ?).
  - eapply Forall_impl; [apply Hr|]. simpl. lia.
  - intros H. specialize (Hl H). rewrite Hp in Hl. by apply Forall_app in Hl as [_ ?].
  - intros H. specialize (Hs H). rewrite Hp, length_app in Hs. lia.
Qed.

Lemma trigger_counter err e :
  eng_eventCounter (Engine_triggerGuardFailure err e) = eng_eventCounter e.
Proof. unfold Engine_triggerGuardFailure. by repeat case_match. Qed.

Lemma trigger_seq_inv err e : seq_inv e → seq_inv (Engine_triggerGuardFailure err e).
Proof.
  intros H. apply (seq_inv_sub e _ []); rewrite ?trigger_queue, ?trigger_counter; auto.
  - apply H.
  - lia.
  - by destruct (trigger_frame err e) as (_ & _ & -> & _).
Qed.
Lemma ScheduleEvent_seq_inv ev e :
  ev_Sequence ev = 0 → seq_inv e → seq_inv (Engine_ScheduleEvent ev e).
Proof.
  intros Eseq H. unfold Engine_ScheduleEvent. cbv zeta. rewrite Eseq, Z.eqb_refl. simpl eng_limits.
  assert (seq_inv (e <| eng_eventCounter := eng_eventCounter e + 1 |>)) as H1
    by (apply (seq_inv_sub e _ []); simpl; auto; [apply H | lia]).
  case_match eqn:E1; [by apply trigger_seq_inv|].
  case_match eqn:E2; [by apply trigger_seq_inv|]. simpl in E2.
  destruct H as [Hq Hnd Hr Hl Hs]. split; simpl.
  - by apply Schedule_ok.
  - rewrite Schedule_perm. simpl. apply NoDup_cons. split; [|done].
    intros (x & Ex & Hx)%list_elem_of_fmap. rewrite Forall_forall in Hr. specialize (Hr x Hx). lia.
  - rewrite Schedule_perm. constructor; [simpl; lia|]. eapply Forall_impl; [apply Hr|]. simpl. lia.
  - intros Hpos. rewrite Schedule_perm. constructor; [|auto]. simpl.
    apply andb_false_iff in E1 as [?%Z.ltb_ge|?%Z.ltb_ge]; simpl in *; lia.
  - intros Hpos. unfold EventQueue_Size, EventQueue_Len in *. rewrite Schedule_perm. simpl.
    apply andb_false_iff in E2 as [?%Z.ltb_ge|?%Z.ltb_ge]; lia.
Qed.

Lemma engine_step_seq_inv e e' : engine_step e e' → seq_inv e → seq_inv e'.
Proof.
  intros [a e1 Ha|e1 t] H.
  - destruct a; cbn [apply_action]; try (by destruct H; split).
    + by apply ScheduleEvent_seq_inv.
    + by apply trigger_seq_inv.
    + apply (seq_inv_sub e1 _ (eng_eventQueue e1)); simpl; rewrite ?app_nil_r; auto using queue_ok_nil; lia.
    + destruct (RunManager_AddRequest _ _ _) as [rm' cb]. apply trigger_seq_inv. by destruct H; split.
  - destruct (Next_sub (eng_eventQueue e1) (seq_queue _ H)) as (l & Hl & _).
    apply (seq_inv_sub e1 _ l); simpl; auto; [|lia]. apply Next_ok, H.
Qed.
Lemma engine_steps_seq_inv e e' : rtc engine_step e e' → seq_inv e → seq_inv e'.
Proof. induction 1; eauto using engine_step_seq_inv. Qed.

(** An engine set up for a run: limits applied, then any calls. *)
Definition setup_engine (env : RunManagerEnv) (wall : Time) (runID : string) (simStart : Time)
    (limits : RuntimeLimits) (acts : list EngineAction) : Engine :=
  apply_actions (Engine_SetRuntimeLimits limits (NewEngineWithSimStart env wall runID simStart)) acts.

Lemma setup_engine_ok env wall id start limits acts :
  engine_ok (setup_engine env wall id start limits acts).
Proof. apply apply_actions_ok. split; [apply queue_ok_nil | done]. Qed.
Lemma setup_engine_frame env wall id start limits acts :
  let e := setup_engine env wall id start limits acts in
  eng_simTime e = start ∧ eng_processed e = 0 ∧ eng_limits e = limits ∧
  run_Status (rm_run (eng_runManager e)) = RunStatusPending.
Proof.
  unfold setup_engine. cbv zeta. set (e0 := Engine_SetRuntimeLimits _ _).
  destruct (apply_actions_frame acts e0) as (-> & -> & -> & _ & _ & ->). done.
Qed.
Lemma Run_prepare_frame wall d e :
  let e' := Run_prepare wall d e in
  eng_simTime e' = eng_simTime e ∧ eng_processed e' = eng_processed e ∧
  eng_limits e' = eng_limits e ∧ run_Status (rm_run (eng_runManager e')) = RunStatusRunning.
Proof.
  unfold Run_prepare, Engine_ScheduleAt, Engine_ScheduleAtPriority. cbv zeta.
  match goal with |- context [Engine_ScheduleEvent ?x ?y] =>
    destruct (ScheduleEvent_frame x y) as (-> & -> & -> & _ & _ & ->) end. done.
Qed.

Lemma Run_deferred_spec wallEnd e e' :
  run_Status (rm_run (eng_runManager e)) = RunStatusRunning → Run_deferred wallEnd e = Ok e' →
  run_Status (rm_run (eng_runManager e')) = RunStatusCompleted ∧
  eng_simTime e' = eng_simTime e ∧ eng_guardErr e' = eng_guardErr e ∧
  rm_cancelled (eng_runManager e') = rm_cancelled (eng_runManager e) ∧ eng_realTimeMode e' = eng_realTimeMode e.
Proof.
  intros Hs. unfold Run_deferred, RunManager_GetRun. rewrite bool_decide_true by done.
  unfold RunManager_Complete, RunManager_calculateMetrics, go_bind. intros E.
  destruct (latencySummary_snapshot _) as [[x s]| |]; simplify_eq/=. done.
Qed.

(** * Properties of the engine *)

Section properties.
Context {St : Type} (handlers : EventType → option (@Handler St)).
Context (env : RunManagerEnv) (wall : Time) (runID : string) (simStart : Time).
Context (limits : RuntimeLimits) (acts : list EngineAction).
Abbreviation e0 := (setup_engine env wall runID simStart limits acts) (only parsing).

Lemma setup_prepare_inv wallStart duration :
  loop_inv (simStart + duration) (Run_prepare wallStart duration e0).
Proof.
  destruct (setup_engine_frame env wall runID simStart limits acts) as (Es & _).
  pose proof (Run_prepare_inv wallStart duration e0
    (setup_engine_ok env wall runID simStart limits acts)) as H. by rewrite Es in H.
Qed.

(** C2: the event loop returns. With a positive cap on processed events, [Run]
    returns after at most two iterations more than the cap (the second is the one that
    sees a cancellation that came after the check of the first), whatever the
    handlers schedule, whatever other goroutines do between and inside iterations
    and whatever the wall clock says. *)
Theorem engine_run_returns envs wallStart wallEnd duration s :
  0 < MaxEventsProcessed limits →
  is_Some (Engine_Run handlers (S (S (Z.to_nat (MaxEventsProcessed limits)))) envs wallStart wallEnd
             duration s e0).
Proof.
  intros Hpos. destruct (setup_engine_frame env wall runID simStart limits acts) as (_ & Ep & El & _).
  destruct (Run_prepare_frame wallStart duration e0) as (_ & Ep' & El' & _).
  rewrite Ep in Ep'. rewrite El in El'. unfold Engine_Run.
  destruct (Run_loop_returns handlers (S (S (Z.to_nat (MaxEventsProcessed limits)))) envs 0
    (SimTime_Now (eng_simTime e0)) (SimTime_Now (eng_simTime e0) + duration) s
    (Run_prepare wallStart duration e0)) as [[[[s' e'] tr] r] E]; rewrite ?El', ?Ep'; try lia.
  - apply Run_prepare_inv, setup_engine_ok.
  - cbn zeta. rewrite E. eauto.
Qed.


(** events are dispatched in time order and the simulation clock never goes
    back, when handlers schedule no event before the current simulation time,
    no pending event is in the past at the start and no other goroutine
    schedules events. *)
Theorem engine_clock_monotone fuel envs wallStart wallEnd duration s s' e' tr r :
  causal_handlers handlers → (∀ j, Forall no_schedule (le_external (envs j) ++ inside (envs j))) →
  0 ≤ duration → Forall (causal_action simStart) acts →
  Engine_Run handlers fuel envs wallStart wallEnd duration s e0 = Some (Ok (s', e', tr, r)) →
  StronglySorted Z.le (ev_Time <$> tr) ∧
  Forall (λ ev, simStart ≤ ev_Time ev) tr ∧ simStart ≤ eng_simTime e'.
Proof.
  intros Hc Hext Hd Hacts. unfold Engine_Run. cbn zeta. unfold SimTime_Now.
  destruct (setup_engine_frame env wall runID simStart limits acts) as (Es & _).
  destruct (Run_prepare_frame wallStart duration e0) as (Ep & _ & _ & Est). rewrite Es in *.
  destruct (Run_loop _ _ _ _ _ _ _ _) as [[[[s1 e1] tr1] r1]|] eqn:E; intros H; simplify_eq.
  assert (future (Run_prepare wallStart duration e0)) as Hf.
  { apply ScheduleEvent_future; [|simpl; unfold SimTime_Now; lia]. unfold future. simpl.
    change (future e0). apply apply_actions_future; [done|]. by constructor. }
  pose proof E as E'.
  apply Run_loop_clock in E; [|done..|apply setup_prepare_inv].
  apply Run_loop_post in E'; [|apply setup_prepare_inv].
  destruct E as (? & ? & ?), E' as (Es1 & _). rewrite Ep in *. unfold go_bind in H.
  destruct (Run_deferred wallEnd e1) as [e2| |] eqn:Ed; simplify_eq.
  apply Run_deferred_spec in Ed as (_ & -> & _); [done | congruence].
Qed.

(** guardrails on the queue and fair ties. In every state the engine can
    reach by calls that schedule events and by the loop taking events, the
    pending events have distinct sequence numbers, the queue is within
    [MaxEventQueueSize], every pending event was scheduled within
    [MaxEventsScheduled], and the event taken next precedes, in schedule order,
    every other pending event of the same time and priority. *)
Theorem engine_queue_guardrails e :
  rtc engine_step (setup_engine env wall runID simStart limits []) e →
  NoDup (ev_Sequence <$> eng_eventQueue e) ∧
  (0 < MaxEventQueueSize (eng_limits e) →
     EventQueue_Size (eng_eventQueue e) ≤ MaxEventQueueSize (eng_limits e)) ∧
  (0 < MaxEventsScheduled (eng_limits e) →
     Forall (λ ev, ev_Sequence ev ≤ MaxEventsScheduled (eng_limits e)) (eng_eventQueue e)) ∧
  ∀ ev q, EventQueue_Next (eng_eventQueue e) = (Some ev, q) →
    Forall (λ x, ev_Time x = ev_Time ev → ev_Priority x = ev_Priority ev →
                 ev_Sequence ev < ev_Sequence x) q.
Proof.
  intros Hr. apply engine_steps_seq_inv in Hr as [Hq Hnd _ Hl Hs].
  2: { split; simpl; auto using queue_ok_nil; [constructor | unfold EventQueue_Size; simpl; lia]. }
  split_and!; auto. intros ev q E.
  destruct (decide (eng_eventQueue e = [])) as [En|Hne]; [by rewrite En in E|].
  destruct (Next_some _ Hne Hq) as (x & q' & E' & Hp & _ & Hmin). rewrite E in E'. simplify_eq.
  apply Forall_forall. intros y Hy Et Ep. rewrite Hp in Hnd. simpl in Hnd.
  apply NoDup_cons in Hnd as [Hnin _].
  assert (event_le x y) as Hle by (apply Hmin; rewrite Hp; by right). rewrite event_le_spec in Hle.
  assert (ev_Sequence x ≠ ev_Sequence y) by (intros Eq; apply Hnin; rewrite Eq; apply list_elem_of_fmap; eauto).
  lia.
Qed.
End properties.

(** * Concrete runs *)

(** A handler that keeps scheduling arrivals ten nanoseconds later. *)
Definition ticking : EventType → option (@Handler unit) := λ ty,
  match ty with
  | EventTypeRequestArrival =>
      Some (λ s e ev, (s, [ActSchedule (mkEvent "" EventTypeRequestArrival (eng_simTime e + 10) 0 0
                                          None "" ∅)], None))
  | _ => None
  end.
Definition quiet_env : nat → LoopEnv := λ _, mkLoopEnv [] [] [] [] [] 0 0 false.
Definition first_arrival : list EngineAction :=
  [ActSchedule (mkEvent "" EventTypeRequestArrival 105 0 0 None "" ∅)].
Abbreviation run_ticking maxProcessed duration :=
  (Engine_Run ticking (S (S (Z.to_nat maxProcessed))) quiet_env 0 1 duration tt
    (setup_engine sample_env 0 "run" 100 (mkRuntimeLimits 0 maxProcessed 0 0) first_arrival)).

Lemma ticking_causal : causal_handlers ticking.
Proof. intros ty h s e ev E. destruct ty; simplify_eq/=. repeat constructor. simpl. lia. Qed.

Lemma engine_run_returns_witness : is_Some (run_ticking 3 1000).
Proof.
  exact (engine_run_returns ticking sample_env 0 "run" 100 (mkRuntimeLimits 0 3 0 0) first_arrival
    quiet_env 0 1 1000 tt eq_refl).
Defined.

(** The result and the dispatch times of a run. *)
Definition run_summary {A} (o : option (go (A * Engine * list Event * RunResult)))
    : option (RunResult * list Z) :=
  match o with Some (Ok (_, _, tr, r)) => Some (r, ev_Time <$> tr) | _ => None end.
Lemma run_ticking_ended : run_summary (run_ticking 10 30) = Some (RunNil, [105; 115; 125; 130]).
Proof. vm_compute. reflexivity. Qed.

(** A [Stop] that lands between the check of the context and [Next]: the loop finds the
    queue empty close to the end, and returns without an error although the run was
    cancelled and the end event never dispatched. *)
Definition stop_while_taking : nat → LoopEnv := λ _, mkLoopEnv [] [] [ActStop] [] [] 0 0 false.
Example stop_inside_returns_nil :
  match Engine_Run ticking 1 stop_while_taking 0 1 30 tt
          (setup_engine sample_env 0 "run" 100 (mkRuntimeLimits 0 0 0 0) first_arrival) with
  | Some (Ok (_, e', tr, r)) => r = RunNil ∧ tr = [] ∧ cancelled e' ∧ eng_simTime e' = 130
  | _ => False
  end.
Proof. vm_compute. done. Qed.


Lemma engine_clock_monotone_witness :
  match run_ticking 10 30 with
  | Some (Ok (_, e', tr, r)) =>
      r = RunNil ∧ (ev_Time <$> tr) = [105; 115; 125; 130] ∧
      StronglySorted Z.le (ev_Time <$> tr)
  | _ => False
  end.
Proof.
  pose proof run_ticking_ended as R.
  destruct (run_ticking 10 30) as [[[[[s' e'] tr] r]| |]|] eqn:E; simpl in R; [|discriminate R..].
  injection R as R1 R2.
  split_and!; [exact R1 | exact R2 |].
  refine (proj1 (engine_clock_monotone ticking sample_env 0 "run" 100 _ _ _ _ _ _ _ _ _ _ _ _
      ticking_causal _ _ _ E)); [by intros; constructor | lia | repeat constructor; simpl; lia].
Defined.

Definition sample_limits : RuntimeLimits := mkRuntimeLimits 2 0 1 0.
Definition sample_engine : Engine := setup_engine sample_env 0 "run" 100 sample_limits [].
Lemma engine_queue_guardrails_witness :
  let e := apply_action sample_engine (ActSchedule (mkEvent "" EventTypeRequestArrival 7 0 0 None "" ∅)) in
  EventQueue_Size (eng_eventQueue e) = 1 ∧ EventQueue_Size (eng_eventQueue e) ≤ 1.
Proof.
  intros e. split; [reflexivity|].
  apply (engine_queue_guardrails sample_env 0 "run" 100 sample_limits e);
    [|reflexivity]. eapply rtc_l; [|apply rtc_refl]. by apply step_action.
Defined.
