(* ===== verification/Policy.v ===== *)
(** [internal/policy]: the circuit breaker, the token-bucket rate limiter, the
    retry and autoscaling policies, and the policy manager; [pkg/utils/backoff.go].
    A policy is a record; an operation takes it and returns it updated. The maps
    of pointers hold one object per key which nothing else aliases, so the
    object is stored in the map. *)
From S2P Require Import Prelude GoFloat Utils.
From Stdlib Require Import SpecFloat.
#[local] Open Scope string_scope.
#[local] Open Scope list_scope.
#[local] Open Scope Z_scope.

(** The key [serviceID + ":" + endpointPath] both keyed policies use. *)
Definition policy_key (serviceID endpointPath : string) : string :=
  serviceID +:+ ":" +:+ endpointPath.

(** * Circuit breaker *)

Inductive CircuitState := CircuitStateClosed | CircuitStateOpen | CircuitStateHalfOpen.
#[export] Instance CircuitState_eq_dec : EqDecision CircuitState.
Proof. solve_decision. Defined.

Record circuitState := mkCircuit {
  cs_state : CircuitState;
  cs_failureCount : Z;
  cs_successCount : Z;
  cs_lastFailureTime : Time;
  cs_lastStateChange : Time;
}.
#[export] Instance eta_circuitState : Eta circuitState := λ r, mkCircuit (cs_state r)
  (cs_failureCount r) (cs_successCount r) (cs_lastFailureTime r) (cs_lastStateChange r).
Record circuitBreakerPolicy := mkBreaker {
  cb_enabled : bool;
  cb_failureThreshold : Z;
  cb_successThreshold : Z;
  cb_timeout : Duration;
  cb_circuits : gmap string circuitState;
}.
#[export] Instance eta_circuitBreakerPolicy : Eta circuitBreakerPolicy := λ r, mkBreaker
  (cb_enabled r) (cb_failureThreshold r) (cb_successThreshold r) (cb_timeout r) (cb_circuits r).

Definition NewCircuitBreakerPolicy (enabled : bool) (failureThreshold successThreshold : Z)
    (timeout : Duration) : circuitBreakerPolicy :=
  mkBreaker enabled failureThreshold successThreshold timeout ∅.

Definition circuit_new (currentTime : Time) : circuitState :=
  mkCircuit CircuitStateClosed 0 0 zeroTime currentTime.
Definition circuit_get_or_create (key : string) (currentTime : Time) (p : circuitBreakerPolicy)
    : circuitState := default (circuit_new currentTime) (cb_circuits p !! key).
Definition circuit_store (key : string) (c : circuitState) (p : circuitBreakerPolicy)
    : circuitBreakerPolicy := p <| cb_circuits := <[key := c]> (cb_circuits p) |>.

(** The transition from open to half-open once the timeout has elapsed. *)
Definition circuit_check (timeout : Duration) (currentTime : Time) (c : circuitState)
    : circuitState :=
  if bool_decide (cs_state c = CircuitStateOpen)
     && (timeout <=? Sub currentTime (cs_lastStateChange c)) then
    c <| cs_state := CircuitStateHalfOpen |> <| cs_successCount := 0 |>
      <| cs_lastStateChange := currentTime |>
  else c.

Definition circuitBreakerPolicy_AllowRequest (serviceID endpointPath : string) (currentTime : Time)
    (p : circuitBreakerPolicy) : bool * circuitBreakerPolicy :=
  if negb (cb_enabled p) then (true, p)
  else
    let key := policy_key serviceID endpointPath in
    let circuit := circuit_get_or_create key currentTime p in
    let circuit := circuit_check (cb_timeout p) currentTime circuit in
    (negb (bool_decide (cs_state circuit = CircuitStateOpen)), circuit_store key circuit p).

Definition circuitBreakerPolicy_RecordSuccess (serviceID endpointPath : string)
    (currentTime : Time) (p : circuitBreakerPolicy) : circuitBreakerPolicy :=
  if negb (cb_enabled p) then p
  else
    let key := policy_key serviceID endpointPath in
    match cb_circuits p !! key with
    | None => p
    | Some circuit =>
        let circuit :=
          match cs_state circuit with
          | CircuitStateHalfOpen =>
              let circuit := circuit <| cs_successCount := wrap64 (cs_successCount circuit + 1) |> in
              if cb_successThreshold p <=? cs_successCount circuit then
                circuit <| cs_state := CircuitStateClosed |> <| cs_failureCount := 0 |>
                        <| cs_lastStateChange := currentTime |>
              else circuit
          | CircuitStateClosed => circuit <| cs_failureCount := 0 |>
          | CircuitStateOpen => circuit
          end in
        circuit_store key circuit p
    end.

Definition circuitBreakerPolicy_RecordFailure (serviceID endpointPath : string)
    (currentTime : Time) (p : circuitBreakerPolicy) : circuitBreakerPolicy :=
  if negb (cb_enabled p) then p
  else
    let key := policy_key serviceID endpointPath in
    let circuit := circuit_get_or_create key currentTime p in
    let circuit := circuit <| cs_failureCount := wrap64 (cs_failureCount circuit + 1) |>
                           <| cs_lastFailureTime := currentTime |> in
    let circuit :=
      match cs_state circuit with
      | CircuitStateHalfOpen =>
          circuit <| cs_state := CircuitStateOpen |> <| cs_successCount := 0 |>
                  <| cs_lastStateChange := currentTime |>
      | CircuitStateClosed =>
          if cb_failureThreshold p <=? cs_failureCount circuit then
            circuit <| cs_state := CircuitStateOpen |> <| cs_lastStateChange := currentTime |>
          else circuit
      | CircuitStateOpen => circuit
      end in
    circuit_store key circuit p.

Definition circuitBreakerPolicy_CheckAndGetState (serviceID endpointPath : string)
    (currentTime : Time) (p : circuitBreakerPolicy) : CircuitState * circuitBreakerPolicy :=
  if negb (cb_enabled p) then (CircuitStateClosed, p)
  else
    let key := policy_key serviceID endpointPath in
    match cb_circuits p !! key with
    | None => (CircuitStateClosed, p)
    | Some circuit =>
        let circuit := circuit_check (cb_timeout p) currentTime circuit in
        (cs_state circuit, circuit_store key circuit p)
    end.

(** * Rate limiter *)

Record tokenBucket := mkBucket {
  tb_capacity : Z;
  tb_tokens : Z;
  tb_refillRate : Z;
  tb_lastRefill : Time;
}.
#[export] Instance eta_tokenBucket : Eta tokenBucket := λ r, mkBucket (tb_capacity r) (tb_tokens
  r) (tb_refillRate r) (tb_lastRefill r).
Record rateLimitingPolicy := mkLimiter {
  rl_enabled : bool;
  rl_rateLimitPerSecond : Z;
  rl_buckets : gmap string tokenBucket;
}.
#[export] Instance eta_rateLimitingPolicy : Eta rateLimitingPolicy := λ r, mkLimiter (rl_enabled
  r) (rl_rateLimitPerSecond r) (rl_buckets r).

Definition NewRateLimitingPolicy (enabled : bool) (rateLimitPerSecond : Z) : rateLimitingPolicy :=
  mkLimiter enabled rateLimitPerSecond ∅.

(** [int(elapsed.Seconds() * float64(bucket.refillRate))]. *)
Definition tokensToAdd (now : Time) (b : tokenBucket) : Z :=
  f64_to_int (fmul (Seconds (Sub now (tb_lastRefill b))) (f64_of_Z (tb_refillRate b))).
Definition bucket_refill (now : Time) (b : tokenBucket) : tokenBucket :=
  let add := tokensToAdd now b in
  if 0 <? add then
    let tokens := wrap64 (tb_tokens b + add) in
    b <| tb_tokens := if tb_capacity b <? tokens then tb_capacity b else tokens |>
      <| tb_lastRefill := now |>
  else b.
#[global] Arguments tokensToAdd : simpl never.
#[global] Arguments bucket_refill : simpl never.
Definition bucket_new (rate : Z) (now : Time) : tokenBucket := mkBucket rate rate rate now.

Definition bucket_spend (b : tokenBucket) : tokenBucket := b <| tb_tokens := tb_tokens b - 1 |>.
Definition limiter_store (key : string) (b : tokenBucket) (p : rateLimitingPolicy)
    : rateLimitingPolicy := p <| rl_buckets := <[key := b]> (rl_buckets p) |>.
#[global] Arguments limiter_store : simpl never.
#[global] Arguments bucket_spend : simpl never.

Definition rateLimitingPolicy_AllowRequest (serviceID endpointPath : string) (requestTime : Time)
    (p : rateLimitingPolicy) : bool * rateLimitingPolicy :=
  if negb (rl_enabled p) then (true, p)
  else
    let key := policy_key serviceID endpointPath in
    let bucket := default (bucket_new (rl_rateLimitPerSecond p) requestTime) (rl_buckets p !! key) in
    let bucket := bucket_refill requestTime bucket in
    if 0 <? tb_tokens bucket then
      (true, limiter_store key (bucket_spend bucket) p)
    else (false, limiter_store key bucket p).

Definition rateLimitingPolicy_GetRemainingQuota (serviceID endpointPath : string)
    (currentTime : Time) (p : rateLimitingPolicy) : Z * rateLimitingPolicy :=
  if negb (rl_enabled p) then (-1, p)
  else
    let key := policy_key serviceID endpointPath in
    match rl_buckets p !! key with
    | None => (rl_rateLimitPerSecond p, p)
    | Some bucket =>
        let bucket := bucket_refill currentTime bucket in
        (tb_tokens bucket, limiter_store key bucket p)
    end.

(** * Retry *)

Record RetryPolicyConfig := mkRetryConfig {
  rc_Enabled : bool;
  rc_MaxRetries : Z;
  rc_Backoff : string;
  rc_BaseMs : Z;
}.
Record retryPolicy := mkRetry {
  rp_enabled : bool;
  rp_maxRetries : Z;
  rp_backoff : string;
  rp_baseMs : Z;
}.

Definition maxBackoffMs : Z := 60000.
Definition NewRetryPolicyFromConfig (cfg : RetryPolicyConfig) : retryPolicy :=
  mkRetry (rc_Enabled cfg) (rc_MaxRetries cfg) (rc_Backoff cfg) (rc_BaseMs cfg).
Definition NewRetryPolicy (enabled : bool) (maxRetries : Z) (backoff : string) (baseMs : Z)
    : retryPolicy := mkRetry enabled maxRetries backoff baseMs.
Definition retryPolicy_ShouldRetry (attempt : Z) (err : option string) (p : retryPolicy) : bool :=
  if negb (rp_enabled p) then false
  else if rp_maxRetries p <=? attempt then false
  else match err with Some _ => true | None => false end.

(** [exponent] is the float64 of [attempt - 1]; the conversion is monotone and
    exact below 2^53, and [math.Pow(2, n)] is exact for n up to 20, so the
    comparison with 20 and the power are those of the integers. *)
Definition exponential_ms (baseMs attempt : Z) : Z :=
  let exponent := attempt - 1 in
  if 20 <? exponent then maxBackoffMs
  else
    let durationMs := wrap64 (baseMs * 2 ^ exponent) in
    if (maxBackoffMs <? durationMs) || (durationMs <? 0) then maxBackoffMs else durationMs.
Definition linear_ms (baseMs attempt : Z) : Z :=
  let durationMs := wrap64 (baseMs * attempt) in
  if (maxBackoffMs <? durationMs) || (durationMs <? 0) then maxBackoffMs else durationMs.
Definition retryPolicy_GetBackoffDuration (attempt : Z) (p : retryPolicy) : Duration :=
  if negb (rp_enabled p) || (attempt <=? 0) then 0
  else
    let durationMs :=
      if String.eqb (rp_backoff p) "exponential" then exponential_ms (rp_baseMs p) attempt
      else if String.eqb (rp_backoff p) "linear" then linear_ms (rp_baseMs p) attempt
      else if String.eqb (rp_backoff p) "constant" then rp_baseMs p
      else exponential_ms (rp_baseMs p) attempt in
    wrap64 (durationMs * Millisecond).

(** * Autoscaling *)

Record AutoscalingPolicyConfig := mkAutoscalingConfig {
  ac_Enabled : bool;
  ac_TargetCPUUtil : float64;
  ac_ScaleStep : Z;
}.
#[export] Instance eta_AutoscalingPolicyConfig : Eta AutoscalingPolicyConfig := λ r, mkAutoscalingConfig
  (ac_Enabled r) (ac_TargetCPUUtil r) (ac_ScaleStep r).
Record autoscalingPolicy := mkAutoscaling {
  as_enabled : bool;
  as_targetCPUUtil : float64;
  as_scaleStep : Z;
  as_minReplicas : Z;
  as_maxReplicas : Z;
}.

Definition scaleDownHysteresisFactor : float64 := f64_lit 8 10.
Definition NewAutoscalingPolicy (enabled : bool) (targetCPUUtil : float64)
    (scaleStep minReplicas maxReplicas : Z) : autoscalingPolicy :=
  mkAutoscaling enabled (if fleb targetCPUUtil f0 then f64_lit 7 10 else targetCPUUtil)
    scaleStep minReplicas maxReplicas.
Definition NewAutoscalingPolicyFromConfig (cfg : AutoscalingPolicyConfig) : autoscalingPolicy :=
  let targetCPU := if fleb (ac_TargetCPUUtil cfg) f0 then f64_lit 7 10 else ac_TargetCPUUtil cfg in
  mkAutoscaling (ac_Enabled cfg) targetCPU (ac_ScaleStep cfg) 1 100.
Definition autoscalingPolicy_ShouldScaleUp (currentReplicas : Z) (avgCPUUtil : float64)
    (p : autoscalingPolicy) : bool :=
  if negb (as_enabled p) then false
  else if as_maxReplicas p <=? currentReplicas then false
  else fltb (as_targetCPUUtil p) avgCPUUtil.
Definition autoscalingPolicy_ShouldScaleDown (currentReplicas : Z) (avgCPUUtil : float64)
    (p : autoscalingPolicy) : bool :=
  if negb (as_enabled p) then false
  else if currentReplicas <=? as_minReplicas p then false
  else fltb avgCPUUtil (fmul (as_targetCPUUtil p) scaleDownHysteresisFactor).
Definition autoscalingPolicy_GetTargetReplicas (currentReplicas : Z) (avgCPUUtil : float64)
    (p : autoscalingPolicy) : Z :=
  if negb (as_enabled p) then currentReplicas
  else
    let clamp target :=
      let target := if target <? as_minReplicas p then as_minReplicas p else target in
      if as_maxReplicas p <? target then as_maxReplicas p else target in
    if autoscalingPolicy_ShouldScaleUp currentReplicas avgCPUUtil p
    then clamp (wrap64 (currentReplicas + as_scaleStep p))
    else if autoscalingPolicy_ShouldScaleDown currentReplicas avgCPUUtil p
    then clamp (wrap64 (currentReplicas - as_scaleStep p))
    else currentReplicas.

(** * The policy manager *)

Record PoliciesConfig := mkPoliciesConfig {
  pc_Autoscaling : option AutoscalingPolicyConfig;
  pc_Retries : option RetryPolicyConfig;
}.
#[export] Instance eta_PoliciesConfig : Eta PoliciesConfig := λ r, mkPoliciesConfig
  (pc_Autoscaling r) (pc_Retries r).
Record PolicyManager := mkPolicyManager {
  pm_autoscaling : option autoscalingPolicy;
  pm_rateLimiting : option rateLimitingPolicy;
  pm_retry : option retryPolicy;
  pm_circuitBreaker : option circuitBreakerPolicy;
}.
#[export] Instance eta_PolicyManager : Eta PolicyManager := λ r, mkPolicyManager (pm_autoscaling
  r) (pm_rateLimiting r) (pm_retry r) (pm_circuitBreaker r).

Definition NewPolicyManager (policies : option PoliciesConfig) : PolicyManager :=
  match policies with
  | None => mkPolicyManager None None None None
  | Some policies =>
      mkPolicyManager
        match pc_Autoscaling policies with
        | Some cfg => if ac_Enabled cfg then Some (NewAutoscalingPolicyFromConfig cfg) else None
        | None => None
        end
        None
        match pc_Retries policies with
        | Some cfg => if rc_Enabled cfg then Some (NewRetryPolicyFromConfig cfg) else None
        | None => None
        end
        None
  end.
Definition PolicyManager_SetCircuitBreaker (cb : option circuitBreakerPolicy) (pm : PolicyManager)
    : PolicyManager := pm <| pm_circuitBreaker := cb |>.
Definition PolicyManager_UpdateAutoscaling (cfg : option AutoscalingPolicyConfig)
    (pm : PolicyManager) : PolicyManager :=
  match cfg with
  | None => pm <| pm_autoscaling := None |>
  | Some cfg =>
      if negb (ac_Enabled cfg) then pm <| pm_autoscaling := None |>
      else pm <| pm_autoscaling := Some (NewAutoscalingPolicyFromConfig cfg) |>
  end.

(** * Backoff strategies of [pkg/utils/backoff.go] *)

Inductive BackoffStrategy :=
  | ConstantBackoff (Delay : Duration)
  | LinearBackoff (BaseDelay MaxDelay : Duration)
  | ExponentialBackoff (BaseDelay : Duration) (Multiplier : float64) (MaxDelay : Duration)
      (Jitter : bool).

Definition NewExponentialBackoff (baseDelay maxDelay : Duration) (multiplier : float64)
    (jitter : bool) : BackoffStrategy :=
  ExponentialBackoff baseDelay (if fleb multiplier f0 then f64_of_Z 2 else multiplier)
    maxDelay jitter.

(** [math_Pow] is [math.Pow] and [random] the value [Float64()] draws. *)
Definition BackoffStrategy_NextDelay (math_Pow : float64 → float64 → float64) (random : float64)
    (attempt : Z) (b : BackoffStrategy) : Duration :=
  match b with
  | ConstantBackoff delay => delay
  | LinearBackoff base max =>
      let delay := wrap64 (base * wrap64 (attempt + 1)) in
      if max <? delay then max else delay
  | ExponentialBackoff base multiplier max jitter =>
      let delay := fmul (f64_of_Z base) (math_Pow multiplier (f64_of_Z attempt)) in
      let delay := if fltb (f64_of_Z max) delay then f64_of_Z max else delay in
      let delay := if jitter then fmul delay (fadd (f64_lit 1 2) random) else delay in
      f64_to_int delay
  end.
Definition BackoffFromConfig (backoffType : string) (baseMs maxMs : Z) : BackoffStrategy :=
  let baseDelay := wrap64 (baseMs * Millisecond) in
  let maxDelay := wrap64 (maxMs * Millisecond) in
  let maxDelay := if maxDelay =? 0 then 30 * Second else maxDelay in
  if String.eqb backoffType "constant" then ConstantBackoff baseDelay
  else if String.eqb backoffType "linear" then LinearBackoff baseDelay maxDelay
  else NewExponentialBackoff baseDelay maxDelay (f64_of_Z 2) true.

(** * The breaker as an abstract machine *)

(** What a circuit promises: while closed it counts consecutive failures, while
    open it remembers when it opened, while half-open it counts successes. *)
Inductive AbsCircuit :=
  | AClosed (failures : Z)
  | AOpen (since : Time)
  | AHalfOpen (successes : Z).

Inductive BreakerOp :=
  | BAllow (serviceID endpointPath : string) (t : Time)
  | BSuccess (serviceID endpointPath : string) (t : Time)
  | BFailure (serviceID endpointPath : string) (t : Time)
  | BCheck (serviceID endpointPath : string) (t : Time).
Inductive BreakerOut := OAllow (b : bool) | OState (s : CircuitState) | ODone.

Definition breaker_step (op : BreakerOp) (p : circuitBreakerPolicy)
    : BreakerOut * circuitBreakerPolicy :=
  match op with
  | BAllow s ep t => let '(b, p) := circuitBreakerPolicy_AllowRequest s ep t p in (OAllow b, p)
  | BSuccess s ep t => (ODone, circuitBreakerPolicy_RecordSuccess s ep t p)
  | BFailure s ep t => (ODone, circuitBreakerPolicy_RecordFailure s ep t p)
  | BCheck s ep t =>
      let '(st, p) := circuitBreakerPolicy_CheckAndGetState s ep t p in (OState st, p)
  end.
Fixpoint breaker_run (ops : list BreakerOp) (p : circuitBreakerPolicy)
    : list BreakerOut * circuitBreakerPolicy :=
  match ops with
  | [] => ([], p)
  | op :: ops =>
      let '(o, p) := breaker_step op p in
      let '(os, p) := breaker_run ops p in (o :: os, p)
  end.

Definition op_key (op : BreakerOp) : string :=
  match op with
  | BAllow s ep _ | BSuccess s ep _ | BFailure s ep _ | BCheck s ep _ => policy_key s ep
  end.
Definition abs_timeout (timeout : Duration) (t : Time) (a : AbsCircuit) : AbsCircuit :=
  match a with
  | AOpen since => if timeout <=? Sub t since then AHalfOpen 0 else a
  | _ => a
  end.
Definition abs_state (a : AbsCircuit) : CircuitState :=
  match a with
  | AClosed _ => CircuitStateClosed
  | AOpen _ => CircuitStateOpen
  | AHalfOpen _ => CircuitStateHalfOpen
  end.
(** One operation on the circuit of its key. *)
Definition abs_next (fthr sthr : Z) (timeout : Duration) (op : BreakerOp) (a : AbsCircuit)
    : AbsCircuit :=
  match op with
  | BAllow _ _ t | BCheck _ _ t => abs_timeout timeout t a
  | BSuccess _ _ _ =>
      match a with
      | AClosed _ => AClosed 0
      | AOpen since => AOpen since
      | AHalfOpen n => if sthr <=? n + 1 then AClosed 0 else AHalfOpen (n + 1)
      end
  | BFailure _ _ t =>
      match a with
      | AClosed n => if fthr <=? n + 1 then AOpen t else AClosed (n + 1)
      | AOpen since => AOpen since
      | AHalfOpen _ => AOpen t
      end
  end.
Definition abs_out (op : BreakerOp) (a : AbsCircuit) : BreakerOut :=
  match op with
  | BAllow _ _ _ => OAllow (match a with AOpen _ => false | _ => true end)
  | BCheck _ _ _ => OState (abs_state a)
  | _ => ODone
  end.
Definition abs_step (fthr sthr : Z) (timeout : Duration) (op : BreakerOp)
    (m : string → AbsCircuit) : string → AbsCircuit :=
  λ k, if decide (op_key op = k) then abs_next fthr sthr timeout op (m k) else m k.
Fixpoint abs_run (fthr sthr : Z) (timeout : Duration) (ops : list BreakerOp)
    (m : string → AbsCircuit) : list BreakerOut * (string → AbsCircuit) :=
  match ops with
  | [] => ([], m)
  | op :: ops =>
      let m := abs_step fthr sthr timeout op m in
      let '(os, m') := abs_run fthr sthr timeout ops m in
      (abs_out op (m (op_key op)) :: os, m')
  end.

(** The abstraction forgets the counters and times the state does not use. *)
Definition circuit_abs (c : circuitState) : AbsCircuit :=
  match cs_state c with
  | CircuitStateClosed => AClosed (cs_failureCount c)
  | CircuitStateOpen => AOpen (cs_lastStateChange c)
  | CircuitStateHalfOpen => AHalfOpen (cs_successCount c)
  end.
Definition circuit_bounded (n : Z) (c : circuitState) : Prop :=
  0 ≤ cs_failureCount c ≤ n ∧ 0 ≤ cs_successCount c ≤ n.
Definition breaker_sim (fthr sthr : Z) (timeout : Duration) (n : Z) (p : circuitBreakerPolicy)
    (m : string → AbsCircuit) : Prop :=
  cb_enabled p = true ∧ cb_failureThreshold p = fthr ∧ cb_successThreshold p = sthr ∧
  cb_timeout p = timeout ∧
  ∀ k, from_option circuit_abs (AClosed 0) (cb_circuits p !! k) = m k ∧
       (∀ c, cb_circuits p !! k = Some c → circuit_bounded n c).

Lemma breaker_sim_store fthr sthr timeout n n' p m m' k c :
  breaker_sim fthr sthr timeout n p m → n ≤ n' → circuit_bounded n' c →
  circuit_abs c = m' k → (∀ k', k ≠ k' → m' k' = m k') →
  breaker_sim fthr sthr timeout n' (circuit_store k c p) m'.
Proof.
  intros (?&?&?&?&Hk) Hn Hc Ha Hm. repeat (split; [done|]). intros k'. simpl.
  destruct (decide (k = k')) as [<-|Hne].
  - rewrite lookup_insert_eq. split; [done|]. by intros ? [= <-].
  - rewrite lookup_insert_ne by done. rewrite Hm by done. destruct (Hk k') as [Hx Hb].
    split; [done|]. intros c' Hc'. specialize (Hb c' Hc'). unfold circuit_bounded in *. lia.
Qed.
Lemma breaker_sim_same fthr sthr timeout n n' p m m' :
  breaker_sim fthr sthr timeout n p m → n ≤ n' → (∀ k, m' k = m k) →
  breaker_sim fthr sthr timeout n' p m'.
Proof.
  intros (?&?&?&?&Hk) Hn Hm. repeat (split; [done|]). intros k. rewrite Hm.
  destruct (Hk k) as [Hx Hb]. split; [done|]. intros c' Hc'. specialize (Hb c' Hc').
  unfold circuit_bounded in *. lia.
Qed.
Lemma circuit_check_abs timeout t c :
  circuit_abs (circuit_check timeout t c) = abs_timeout timeout t (circuit_abs c).
Proof.
  destruct c as [[] f s lf lc]; unfold circuit_check, circuit_abs; simpl; try done.
  by destruct (timeout <=? Sub t lc).
Qed.
Lemma circuit_check_bounded timeout t n c :
  circuit_bounded n c → circuit_bounded n (circuit_check timeout t c).
Proof. unfold circuit_check. case_match; unfold circuit_bounded; simpl; lia. Qed.
Lemma circuit_get_abs key t p :
  circuit_abs (circuit_get_or_create key t p)
  = from_option circuit_abs (AClosed 0) (cb_circuits p !! key).
Proof. unfold circuit_get_or_create. by destruct (cb_circuits p !! key). Qed.
Lemma circuit_state_abs c : cs_state c = abs_state (circuit_abs c).
Proof. by destruct c as [[] ????]. Qed.
Lemma abs_step_eq fthr sthr timeout op m :
  abs_step fthr sthr timeout op m (op_key op) = abs_next fthr sthr timeout op (m (op_key op)).
Proof. unfold abs_step. by rewrite decide_True. Qed.
Lemma abs_step_ne fthr sthr timeout op m k :
  op_key op ≠ k → abs_step fthr sthr timeout op m k = m k.
Proof. unfold abs_step. intros. by rewrite decide_False. Qed.
Lemma abs_step_id fthr sthr timeout op m :
  abs_next fthr sthr timeout op (m (op_key op)) = m (op_key op) →
  ∀ k, abs_step fthr sthr timeout op m k = m k.
Proof. intros H k. unfold abs_step. case_decide; by subst. Qed.
Lemma circuit_get_bounded fthr sthr timeout n p m key t :
  0 ≤ n → breaker_sim fthr sthr timeout n p m → circuit_bounded n (circuit_get_or_create key t p).
Proof.
  intros ? (_&_&_&_&Hk). unfold circuit_get_or_create. destruct (cb_circuits p !! key) eqn:E.
  - by apply (Hk key).
  - unfold circuit_bounded; simpl; lia.
Qed.

Section breaker_laws.
Context (fthr sthr : Z) (timeout : Duration).
Abbreviation sim := (breaker_sim fthr sthr timeout).
Abbreviation next := (abs_next fthr sthr timeout).

Lemma breaker_sim_allow n p m s ep t :
  0 ≤ n → sim n p m →
  let r := circuitBreakerPolicy_AllowRequest s ep t p in
  let m' := abs_step fthr sthr timeout (BAllow s ep t) m in
  fst r = negb (bool_decide (abs_state (m' (policy_key s ep)) = CircuitStateOpen)) ∧
  sim n (snd r) m'.
Proof.
  intros Hn Hs. pose proof Hs as (He&_&_&Ht&Hk). destruct (Hk (policy_key s ep)) as [Ha _].
  unfold circuitBreakerPolicy_AllowRequest. rewrite He, Ht. simpl.
  change (policy_key s ep) with (op_key (BAllow s ep t)). rewrite abs_step_eq. simpl.
  rewrite circuit_state_abs, circuit_check_abs, circuit_get_abs, Ha. split; [done|].
  eapply breaker_sim_store; eauto using circuit_check_bounded, circuit_get_bounded; [lia|..].
  - rewrite abs_step_eq. simpl. by rewrite circuit_check_abs, circuit_get_abs, Ha.
  - intros. by apply abs_step_ne.
Qed.
Lemma breaker_sim_check n p m s ep t :
  0 ≤ n → sim n p m →
  let r := circuitBreakerPolicy_CheckAndGetState s ep t p in
  let m' := abs_step fthr sthr timeout (BCheck s ep t) m in
  fst r = abs_state (m' (policy_key s ep)) ∧ sim n (snd r) m'.
Proof.
  intros Hn Hs. pose proof Hs as (He&_&_&Ht&Hk). destruct (Hk (policy_key s ep)) as [Ha Hb].
  unfold circuitBreakerPolicy_CheckAndGetState. rewrite He, Ht. simpl.
  change (policy_key s ep) with (op_key (BCheck s ep t)). rewrite abs_step_eq. simpl.
  destruct (cb_circuits p !! policy_key s ep) as [c|] eqn:E; simpl in Ha |- *.
  - rewrite circuit_state_abs, circuit_check_abs, Ha. split; [done|].
    eapply breaker_sim_store; eauto using circuit_check_bounded; [lia|..].
    + rewrite abs_step_eq. simpl. by rewrite circuit_check_abs, Ha.
    + intros. by apply abs_step_ne.
  - rewrite <- Ha. split; [done|]. eapply breaker_sim_same; [done|lia|].
    apply abs_step_id. simpl. by rewrite <- Ha.
Qed.
Lemma breaker_sim_success n p m s ep t :
  0 ≤ n < 2 ^ 63 - 1 → sim n p m →
  sim (n + 1) (circuitBreakerPolicy_RecordSuccess s ep t p)
    (abs_step fthr sthr timeout (BSuccess s ep t) m).
Proof.
  intros Hn Hs. pose proof Hs as (He&_&Ht&_&Hk). destruct (Hk (policy_key s ep)) as [Ha Hb].
  unfold circuitBreakerPolicy_RecordSuccess. rewrite He, Ht. simpl.
  destruct (cb_circuits p !! policy_key s ep) as [c|] eqn:E; simpl in Ha |- *.
  - specialize (Hb c eq_refl). unfold circuit_bounded in Hb.
    assert (W : wrap64 (cs_successCount c + 1) = cs_successCount c + 1)
      by (apply wrap64_id; unfold in_int64, int64_min, int64_max; lia).
    eapply breaker_sim_store; [done|lia|..].
    + destruct c as [[] f q lf lc]; simpl in *; try case_match; unfold circuit_bounded; simpl; lia.
    + change (policy_key s ep) with (op_key (BSuccess s ep t)). rewrite abs_step_eq. simpl.
      rewrite <- Ha. destruct c as [[] f q lf lc]; unfold circuit_abs; simpl in *; try done.
      rewrite W. by destruct (sthr <=? q + 1).
    + intros. by apply abs_step_ne.
  - eapply breaker_sim_same; [done|lia|]. apply abs_step_id. simpl. by rewrite <- Ha.
Qed.
Lemma breaker_sim_failure n p m s ep t :
  0 ≤ n < 2 ^ 63 - 1 → sim n p m →
  sim (n + 1) (circuitBreakerPolicy_RecordFailure s ep t p)
    (abs_step fthr sthr timeout (BFailure s ep t) m).
Proof.
  intros Hn Hs. pose proof Hs as (He&Ht&_&_&Hk). destruct (Hk (policy_key s ep)) as [Ha Hb].
  pose proof (circuit_get_bounded _ _ _ _ _ _ (policy_key s ep) t (proj1 Hn) Hs) as Hc.
  pose proof (circuit_get_abs (policy_key s ep) t p) as Hg. rewrite Ha in Hg.
  unfold circuitBreakerPolicy_RecordFailure. rewrite He, Ht. simpl.
  destruct (circuit_get_or_create _ _ _) as [st f q lf lc]; unfold circuit_bounded in Hc; simpl in *.
  assert (W : wrap64 (f + 1) = f + 1)
    by (apply wrap64_id; unfold in_int64, int64_min, int64_max; lia).
  rewrite W. eapply breaker_sim_store; [done|lia|..].
  - destruct st; simpl; try case_match; unfold circuit_bounded; simpl; lia.
  - change (policy_key s ep) with (op_key (BFailure s ep t)). rewrite abs_step_eq. simpl.
    rewrite <- Hg. destruct st; unfold circuit_abs; simpl; try done.
    by destruct (fthr <=? f + 1).
  - intros. by apply abs_step_ne.
Qed.

Lemma abs_open_out a : negb (bool_decide (abs_state a = CircuitStateOpen))
  = match a with AOpen _ => false | _ => true end.
Proof. by destruct a. Qed.
Lemma breaker_sim_step n p m op :
  0 ≤ n < 2 ^ 63 - 1 → sim n p m →
  let r := breaker_step op p in
  let m' := abs_step fthr sthr timeout op m in
  fst r = abs_out op (m' (op_key op)) ∧ sim (n + 1) (snd r) m'.
Proof.
  intros Hn Hs. destruct op as [s ep t|s ep t|s ep t|s ep t]; simpl.
  - destruct (breaker_sim_allow n p m s ep t) as [H1 H2]; [lia|done|].
    destruct (circuitBreakerPolicy_AllowRequest _ _ _ _) as [b p']; simpl in *.
    rewrite H1, abs_open_out. split; [done|]. eapply breaker_sim_same; [done|lia|done].
  - eauto using breaker_sim_success.
  - eauto using breaker_sim_failure.
  - destruct (breaker_sim_check n p m s ep t) as [H1 H2]; [lia|done|].
    destruct (circuitBreakerPolicy_CheckAndGetState _ _ _ _) as [b p']; simpl in *.
    rewrite H1. split; [done|]. eapply breaker_sim_same; [done|lia|done].
Qed.
Lemma breaker_sim_run ops : ∀ n p m,
  0 ≤ n → n + Z.of_nat (length ops) < 2 ^ 63 → sim n p m →
  fst (breaker_run ops p) = fst (abs_run fthr sthr timeout ops m) ∧
  sim (n + Z.of_nat (length ops)) (snd (breaker_run ops p)) (snd (abs_run fthr sthr timeout ops m)).
Proof.
  induction ops as [|op ops IH]; intros n p m Hn Hl Hs; simpl in *; [by rewrite Z.add_0_r|].
  destruct (breaker_sim_step n p m op) as [H1 H2]; [lia|done|].
  destruct (breaker_step op p) as [o p']; simpl in *.
  destruct (IH (n + 1) p' (abs_step fthr sthr timeout op m)) as [H3 H4]; [lia|lia|done|].
  destruct (breaker_run ops p'), (abs_run _ _ _ ops _); simpl in *. subst. split; [done|].
  eapply breaker_sim_same; [exact H4|lia|done].
Qed.
Lemma breaker_sim_new : sim 0 (NewCircuitBreakerPolicy true fthr sthr timeout) (λ _, AClosed 0).
Proof.
  do 4 (split; [done|]). intros key. split; [done|]. by intros c Hc.
Qed.
End breaker_laws.

(** ** Histories *)

(** The failures recorded for key [k] since the last success recorded for it. *)
Definition streak_step (k : string) (n : Z) (op : BreakerOp) : Z :=
  if decide (op_key op = k) then
    match op with BSuccess _ _ _ => 0 | BFailure _ _ _ => n + 1 | _ => n end
  else n.
Definition failure_streak (k : string) (ops : list BreakerOp) : Z := foldl (streak_step k) 0 ops.
(** The streak for [k] stays below [fthr] all along [ops]. *)
Definition streak_below (fthr : Z) (k : string) (ops : list BreakerOp) : Prop :=
  ∀ pre suf, ops = pre ++ suf → failure_streak k pre < fthr.
(** No query for [k] in [ops] is made [timeout] or more after [since]. *)
Definition queries_before (timeout : Duration) (since : Time) (k : string)
    (ops : list BreakerOp) : Prop :=
  Forall (λ op, op_key op = k →
    match op with
    | BAllow _ _ t | BCheck _ _ t => Sub t since < timeout
    | _ => True
    end) ops.
Definition breaker_after (fthr sthr : Z) (timeout : Duration) (ops : list BreakerOp)
    : circuitBreakerPolicy :=
  snd (breaker_run ops (NewCircuitBreakerPolicy true fthr sthr timeout)).

Section breaker_history.
Context (fthr sthr : Z) (timeout : Duration).
Abbreviation final ops := (snd (abs_run fthr sthr timeout ops (λ _, AClosed 0))).

Lemma abs_run_app ops1 : ∀ ops2 m,
  snd (abs_run fthr sthr timeout (ops1 ++ ops2) m)
  = snd (abs_run fthr sthr timeout ops2 (snd (abs_run fthr sthr timeout ops1 m))).
Proof.
  induction ops1 as [|op ops1 IH]; intros ops2 m; simpl; [done|]. specialize (IH ops2).
  pose proof (IH (abs_step fthr sthr timeout op m)) as IH'.
  destruct (abs_run _ _ _ (ops1 ++ ops2) _), (abs_run _ _ _ ops1 _). done.
Qed.
Lemma abs_run_snoc ops op : (final (ops ++ [op])) = abs_step fthr sthr timeout op (final ops).
Proof. rewrite abs_run_app. done. Qed.
Lemma streak_closed k ops : streak_below fthr k ops → (final ops) k = AClosed (failure_streak k ops).
Proof.
  induction ops as [|op ops IH] using rev_ind; intros Hs; [done|].
  rewrite abs_run_snoc. unfold failure_streak in *. rewrite foldl_snoc.
  pose proof (Hs (ops ++ [op]) [] (eq_sym (app_nil_r _))) as Hlast.
  unfold failure_streak in Hlast. rewrite foldl_snoc in Hlast.
  assert (Hp : (final ops) k = AClosed (foldl (streak_step k) 0 ops)).
  { apply IH. intros pre suf ->. apply (Hs pre (suf ++ [op])). by rewrite app_assoc. }
  unfold abs_step, streak_step in *. rewrite Hp. case_decide; [|done].
  destruct op; simpl in *; try done. by rewrite (proj2 (Z.leb_gt _ _)) by lia.
Qed.
Lemma abs_open_stays k since ops : ∀ m,
  m k = AOpen since → queries_before timeout since k ops →
  snd (abs_run fthr sthr timeout ops m) k = AOpen since.
Proof.
  induction ops as [|op ops IH]; intros m Hm Hq; simpl; [done|].
  apply Forall_cons in Hq as [Hop Hq].
  specialize (IH (abs_step fthr sthr timeout op m)).
  destruct (abs_run _ _ _ ops _) as [os m']; simpl in *. apply IH; [|done].
  unfold abs_step. case_decide as Hk; [|done]. specialize (Hop Hk). rewrite Hm.
  destruct op; simpl; try done; by rewrite (proj2 (Z.leb_gt _ _)) by lia.
Qed.
Lemma breaker_allow_final ops s ep t :
  Z.of_nat (length ops) < 2 ^ 63 - 1 →
  fst (circuitBreakerPolicy_AllowRequest s ep t (breaker_after fthr sthr timeout ops))
  = match abs_timeout timeout t ((final ops) (policy_key s ep)) with
    | AOpen _ => false | _ => true end.
Proof.
  intros Hl. pose proof (breaker_sim_run fthr sthr timeout ops 0 _ _ ltac:(lia) ltac:(lia)
    (breaker_sim_new fthr sthr timeout)) as [_ Hs].
  destruct (breaker_sim_allow fthr sthr timeout (0 + Z.of_nat (length ops)) _ _ s ep t
    ltac:(lia) Hs) as [H _].
  unfold breaker_after. simpl in H. rewrite H, abs_open_out.
  change (policy_key s ep) with (op_key (BAllow s ep t)). by rewrite abs_step_eq.
Qed.
End breaker_history.

(** C31: The breaker refines the abstract machine: on every sequence of calls, the
    answers of AllowRequest and CheckAndGetState are those of one
    closed/open/half-open machine per key, which counts consecutive failures
    while closed and successes while half-open, and forgets all else. *)
Theorem circuit_breaker_refines fthr sthr timeout ops :
  Z.of_nat (length ops) < 2 ^ 63 →
  fst (breaker_run ops (NewCircuitBreakerPolicy true fthr sthr timeout))
  = fst (abs_run fthr sthr timeout ops (λ _, AClosed 0)).
Proof.
  intros Hl. apply (breaker_sim_run fthr sthr timeout ops 0); [lia|lia|apply breaker_sim_new].
Qed.
Lemma circuit_breaker_refines_witness :
  fst (breaker_run
         [BFailure "a" "/x" 1; BFailure "a" "/x" 2; BAllow "a" "/x" 3; BAllow "b" "/x" 3;
          BAllow "a" "/x" 12; BSuccess "a" "/x" 13; BCheck "a" "/x" 14]
         (NewCircuitBreakerPolicy true 2 1 10))
  = [ODone; ODone; OAllow false; OAllow true; OAllow true; ODone; OState CircuitStateClosed].
Proof.
  rewrite circuit_breaker_refines; [vm_compute; reflexivity|simpl; lia].
Defined.

(** The breaker trips exactly at the threshold and recovers: as long as the
    streak of consecutive failures for a key stays below the failure threshold
    every request for it is allowed; the failure that reaches the threshold at
    time [t] locks the key out, whatever is recorded afterwards, and a request
    is allowed again exactly when the timeout has elapsed since [t]. *)
Theorem circuit_breaker_trips_and_recovers fthr sthr timeout s ep ops t more t' t'' :
  Z.of_nat (length ops + length more) < 2 ^ 63 - 2 →
  streak_below fthr (policy_key s ep) ops →
  failure_streak (policy_key s ep) ops + 1 = fthr →
  queries_before timeout t (policy_key s ep) more →
  fst (circuitBreakerPolicy_AllowRequest s ep t'' (breaker_after fthr sthr timeout ops)) = true ∧
  fst (circuitBreakerPolicy_AllowRequest s ep t'
         (breaker_after fthr sthr timeout (ops ++ BFailure s ep t :: more)))
  = (timeout <=? Sub t' t).
Proof.
  intros Hl Hs Hf Hq. rewrite !breaker_allow_final by (rewrite ?length_app; simpl; lia). split.
  - by rewrite streak_closed.
  - rewrite cons_middle, app_assoc, abs_run_app. rewrite (abs_open_stays _ _ _ _ t); [|..].
    + simpl. by destruct (timeout <=? Sub t' t).
    + rewrite abs_run_snoc.
      change (policy_key s ep) with (op_key (BFailure s ep t)). rewrite abs_step_eq. simpl.
      rewrite streak_closed by done. by rewrite (proj2 (Z.leb_le _ _)) by (simpl in Hf; lia).
    + done.
Qed.
Lemma circuit_breaker_trips_and_recovers_witness :
  let ops := [BFailure "a" "/x" 1; BSuccess "a" "/x" 2; BFailure "a" "/x" 3] in
  let more := [BSuccess "a" "/x" 5; BAllow "a" "/x" 6] in
  fst (circuitBreakerPolicy_AllowRequest "a" "/x" 13
         (breaker_after 2 1 10 (ops ++ BFailure "a" "/x" 4 :: more))) = false ∧
  fst (circuitBreakerPolicy_AllowRequest "a" "/x" 14
         (breaker_after 2 1 10 (ops ++ BFailure "a" "/x" 4 :: more))) = true.
Proof.
  assert (Hs : streak_below 2 (policy_key "a" "/x")
                 [BFailure "a" "/x" 1; BSuccess "a" "/x" 2; BFailure "a" "/x" 3]).
  { intros pre suf E. destruct pre as [|? [|? [|? [|? ?]]]]; simplify_eq/=; vm_compute; done. }
  assert (Hq : queries_before 10 4 (policy_key "a" "/x") [BSuccess "a" "/x" 5; BAllow "a" "/x" 6])
    by (repeat constructor; done).
  split.
  - apply (circuit_breaker_trips_and_recovers 2 1 10 "a" "/x" _ 4 _ 13 0); [simpl; lia|exact Hs|reflexivity|exact Hq].
  - apply (circuit_breaker_trips_and_recovers 2 1 10 "a" "/x" _ 4 _ 14 0); [simpl; lia|exact Hs|reflexivity|exact Hq].
Defined.

(** * The rate limiter's budget *)

Inductive LimiterOp :=
  | LAllow (serviceID endpointPath : string) (t : Time)
  | LQuota (serviceID endpointPath : string) (t : Time).
Definition limiter_step (op : LimiterOp) (p : rateLimitingPolicy) : bool * rateLimitingPolicy :=
  match op with
  | LAllow s ep t => rateLimitingPolicy_AllowRequest s ep t p
  | LQuota s ep t => (false, snd (rateLimitingPolicy_GetRemainingQuota s ep t p))
  end.
Definition lop_key (op : LimiterOp) : string :=
  match op with LAllow s ep _ | LQuota s ep _ => policy_key s ep end.
Definition lop_time (op : LimiterOp) : Time := match op with LAllow _ _ t | LQuota _ _ t => t end.

(** The tokens the refill of [op] adds to the bucket of key [k], before the cap. *)
Definition refill_of (k : string) (op : LimiterOp) (p : rateLimitingPolicy) : Z :=
  if decide (lop_key op = k) then
    match rl_buckets p !! k with
    | Some b => Z.max 0 (tokensToAdd (lop_time op) b)
    | None => 0
    end
  else 0.
(** The requests for [k] allowed along [ops] and the tokens refilled for it. *)
Fixpoint limiter_run (k : string) (ops : list LimiterOp) (p : rateLimitingPolicy)
    : Z * Z * rateLimitingPolicy :=
  match ops with
  | [] => (0, 0, p)
  | op :: ops =>
      let r := refill_of k op p in
      let '(b, p) := limiter_step op p in
      let '(allowed, refilled, p) := limiter_run k ops p in
      ((if b && bool_decide (lop_key op = k) then 1 else 0) + allowed, r + refilled, p)
  end.
Definition limiter_tokens (k : string) (p : rateLimitingPolicy) : Z :=
  match rl_buckets p !! k with Some b => tb_tokens b | None => rl_rateLimitPerSecond p end.

Definition bucket_ok (rate : Z) (b : tokenBucket) : Prop :=
  tb_capacity b = rate ∧ tb_refillRate b = rate ∧ int64_min ≤ tb_tokens b ≤ rate.
Definition limiter_ok (rate : Z) (p : rateLimitingPolicy) : Prop :=
  rl_enabled p = true ∧ rl_rateLimitPerSecond p = rate ∧
  map_Forall (λ _, bucket_ok rate) (rl_buckets p).

Lemma f64_to_int_range x : in_int64 (f64_to_int x).
Proof.
  destruct x; unfold in_int64; simpl; try case_match; unfold int64_min, int64_max in *; lia.
Qed.
Lemma tokensToAdd_now b : tokensToAdd (tb_lastRefill b) b ≤ 0.
Proof.
  unfold tokensToAdd, Sub. rewrite Z.sub_diag.
  change (Seconds (Z.max int64_min (Z.min int64_max 0))) with (S754_zero false).
  by destruct (f64_of_Z _) as [[]|[]| |[]].
Qed.
Lemma bucket_refill_ok rate now b : rate ≤ int64_max → bucket_ok rate b →
  bucket_ok rate (bucket_refill now b) ∧
  tb_tokens (bucket_refill now b) ≤ tb_tokens b + Z.max 0 (tokensToAdd now b).
Proof.
  intros Hr (Hc&Hf&Ht). unfold bucket_refill. destruct (0 <? tokensToAdd now b) eqn:E; [|by split; [|lia]].
  apply Z.ltb_lt in E. pose proof (f64_to_int_range (fmul (Seconds (Sub now (tb_lastRefill b)))
    (f64_of_Z (tb_refillRate b)))) as Hi. fold (tokensToAdd now b) in Hi.
  pose proof (wrap64_range (tb_tokens b + tokensToAdd now b)) as Hw.
  assert (wrap64 (tb_tokens b + tokensToAdd now b) ≤ tb_tokens b + tokensToAdd now b).
  { unfold wrap64. unfold in_int64, int64_min, int64_max in *.
    pose proof (Z.mod_le (tb_tokens b + tokensToAdd now b + 2 ^ 63) (2 ^ 64)). lia. }
  unfold bucket_ok, in_int64 in *. simpl. rewrite Hc. case_match; lia.
Qed.
Lemma limiter_bucket_ok rate p k now : in_int64 rate → limiter_ok rate p →
  bucket_ok rate (default (bucket_new (rl_rateLimitPerSecond p) now) (rl_buckets p !! k)).
Proof.
  intros Hr (_&Hp&Hb). destruct (rl_buckets p !! k) as [b|] eqn:E; simpl.
  - exact (Hb k b E).
  - unfold bucket_ok, in_int64 in *; simpl; lia.
Qed.
Lemma limiter_store_ok rate p k b : limiter_ok rate p → bucket_ok rate b →
  limiter_ok rate (limiter_store k b p).
Proof. intros (?&?&Hb) Hn. split_and!; simpl; auto. by apply map_Forall_insert_2. Qed.
Lemma bucket_new_refill rate now : bucket_refill now (bucket_new rate now) = bucket_new rate now.
Proof.
  unfold bucket_refill. pose proof (tokensToAdd_now (bucket_new rate now)) as H. simpl in H.
  by rewrite (proj2 (Z.ltb_ge _ _)).
Qed.
Lemma bucket_spend_ok rate b : bucket_ok rate b → (0 <? tb_tokens b) = true →
  bucket_ok rate (bucket_spend b).
Proof. unfold bucket_ok, int64_min. intros (?&?&?) ?%Z.ltb_lt. simpl. lia. Qed.

Lemma limiter_step_ok rate k op p : in_int64 rate → limiter_ok rate p →
  let r := limiter_step op p in
  limiter_ok rate (snd r) ∧
  (if fst r && bool_decide (lop_key op = k) then 1 else 0) + limiter_tokens k (snd r)
  ≤ limiter_tokens k p + refill_of k op p.
Proof.
  intros Hr Hp. pose proof Hp as (He&Hrate&_).
  assert (Hrm : rate ≤ int64_max) by apply Hr.
  destruct op as [s ep t|s ep t]; simpl.
  - unfold rateLimitingPolicy_AllowRequest. rewrite He. cbn [negb]. set (key := policy_key s ep).
    pose proof (limiter_bucket_ok rate p key t Hr Hp) as Hb0.
    set (b0 := default _ _) in *. destruct (bucket_refill_ok rate t b0 Hrm Hb0) as [Hb Hle].
    set (b := bucket_refill t b0) in *.
    assert (Hk : limiter_tokens key p = tb_tokens b0 ∧
                 tb_tokens b ≤ tb_tokens b0 + refill_of key (LAllow s ep t) p).
    { unfold limiter_tokens, refill_of. simpl. fold key. rewrite decide_True by done.
      subst b b0. destruct (rl_buckets p !! key) eqn:E; simpl in *; [lia|].
      rewrite bucket_new_refill. simpl. lia. }
    assert (Hst : ∀ b', limiter_tokens k (limiter_store key b' p)
              = if decide (key = k) then tb_tokens b' else limiter_tokens k p).
    { intros b'. unfold limiter_tokens. simpl. case_decide; [subst; by rewrite lookup_insert_eq|].
      by rewrite lookup_insert_ne. }
    assert (Hnk : key ≠ k → refill_of k (LAllow s ep t) p = 0).
    { intros. unfold refill_of. simpl. by rewrite decide_False. }
    destruct (0 <? tb_tokens b) eqn:E; simpl.
    + split; [by apply limiter_store_ok, bucket_spend_ok|]. rewrite Hst.
      destruct (decide (key = k)) as [<-|Hne]; simpl; [rewrite bool_decide_true by done; simpl; lia|].
      rewrite bool_decide_false, Hnk by done. lia.
    + split; [by apply limiter_store_ok|]. rewrite Hst.
      destruct (decide (key = k)) as [<-|Hne]; simpl; [lia|]. rewrite Hnk by done. lia.
  - unfold rateLimitingPolicy_GetRemainingQuota. rewrite He. cbn [negb]. set (key := policy_key s ep).
    assert (Hn : 0 ≤ refill_of k (LQuota s ep t) p)
      by (unfold refill_of; repeat case_match; lia).
    destruct (rl_buckets p !! key) as [b|] eqn:E; simpl; [|split; [done|lia]].
    pose proof (limiter_bucket_ok rate p key t Hr Hp) as Hb0. rewrite E in Hb0. simpl in Hb0.
    destruct (bucket_refill_ok rate t b Hrm Hb0) as [Hb Hle].
    split; [by apply limiter_store_ok|]. unfold limiter_tokens, refill_of in *. simpl in *. fold key in Hn |- *.
    destruct (decide (key = k)) as [<-|Hne].
    + rewrite lookup_insert_eq, E in *. lia.
    + rewrite lookup_insert_ne by done. lia.
Qed.

(** The limiter's budget: along any calls on any keys, every bucket keeps its
    capacity and never holds more tokens than the rate, and the requests
    allowed for a key, plus the tokens left, never exceed the initial capacity
    plus the tokens refilled for that key. *)
Theorem rate_limiter_budget rate k ops :
  in_int64 rate →
  let '(allowed, refilled, p) := limiter_run k ops (NewRateLimitingPolicy true rate) in
  limiter_ok rate p ∧ allowed + limiter_tokens k p ≤ rate + refilled.
Proof.
  intros Hr. set (p0 := NewRateLimitingPolicy true rate).
  assert (H0 : limiter_ok rate p0) by (split_and!; try done; apply map_Forall_empty).
  change rate with (limiter_tokens k p0) at 2. generalize dependent p0.
  induction ops as [|op ops IH]; intros p Hp; simpl; [split; [done|lia]|].
  destruct (limiter_step_ok rate k op p Hr Hp) as [H1 H2].
  destruct (limiter_step op p) as [b p']; simpl in *. specialize (IH p' H1).
  destruct (limiter_run k ops p') as [[a r] p'']. destruct IH as [IH1 IH2]. split; [done|lia].
Qed.
Lemma rate_limiter_budget_witness :
  let '(allowed, refilled, p) :=
    limiter_run (policy_key "a" "/x")
      [LAllow "a" "/x" 0; LAllow "a" "/x" 0; LAllow "a" "/x" 1; LAllow "b" "/x" 1;
       LAllow "a" "/x" Second] (NewRateLimitingPolicy true 2) in
  allowed = 3 ∧ refilled = 2 ∧ allowed + limiter_tokens (policy_key "a" "/x") p ≤ 2 + refilled.
Proof.
  pose proof (rate_limiter_budget 2 (policy_key "a" "/x")
    [LAllow "a" "/x" 0; LAllow "a" "/x" 0; LAllow "a" "/x" 1; LAllow "b" "/x" 1;
     LAllow "a" "/x" Second] ltac:(unfold in_int64, int64_min, int64_max; lia)) as H.
  destruct (limiter_run _ _ _) as [[a r] p] eqn:E. vm_compute in E. injection E as <- <- <-.
  split; [reflexivity|]. split; [reflexivity|]. apply H.
Defined.

Definition burst_answers (n rate : nat) : list bool :=
  replicate (min n rate) true ++ replicate (n - rate) false.
#[global] Arguments burst_answers : simpl never.
Lemma burst_answers_S n rate :
  burst_answers (S n) rate = burst_answers n rate ++ [bool_decide (n < rate)%nat].
Proof.
  unfold burst_answers. case_bool_decide.
  - replace (n - rate)%nat with 0%nat by lia. replace (S n - rate)%nat with 0%nat by lia.
    replace (min (S n) rate) with (min n rate + 1)%nat by lia.
    by rewrite replicate_add, !app_nil_r.
  - replace (S n - rate)%nat with (n - rate + 1)%nat by lia.
    replace (min (S n) rate) with (min n rate) by lia. by rewrite replicate_add, app_assoc.
Qed.
(** [n] requests for one key at time [t]: their answers and the limiter. *)
Fixpoint limiter_burst (s ep : string) (t : Time) (n : nat) (p : rateLimitingPolicy)
    : list bool * rateLimitingPolicy :=
  match n with
  | O => ([], p)
  | S n =>
      let '(bs, p) := limiter_burst s ep t n p in
      let '(b, p) := rateLimitingPolicy_AllowRequest s ep t p in (bs ++ [b], p)
  end.
Lemma limiter_burst_state rate s ep t n :
  let r := limiter_burst s ep t n (NewRateLimitingPolicy true (Z.of_nat rate)) in
  fst r = burst_answers n rate ∧
  rl_enabled (snd r) = true ∧ rl_rateLimitPerSecond (snd r) = Z.of_nat rate ∧
  default (bucket_new (Z.of_nat rate) t) (rl_buckets (snd r) !! policy_key s ep)
  = mkBucket (Z.of_nat rate) (Z.of_nat (rate - n)) (Z.of_nat rate) t.
Proof.
  induction n as [|n IH]; simpl.
  { split_and!; try done. unfold bucket_new. by rewrite Nat.sub_0_r. }
  destruct (limiter_burst s ep t n _) as [bs p]. destruct IH as (Hbs&He&Hr&Hb). simpl in *.
  unfold rateLimitingPolicy_AllowRequest. rewrite He, Hr, Hb. cbn [negb]. subst bs.
  set (b := mkBucket _ _ _ _). assert (Hf : bucket_refill t b = b).
  { unfold bucket_refill. pose proof (tokensToAdd_now b) as Hn. simpl in Hn.
    by rewrite (proj2 (Z.ltb_ge _ _)). }
  rewrite Hf, burst_answers_S. subst b. unfold limiter_store, bucket_spend. simpl.
  destruct (Z.ltb_spec 0 (Z.of_nat (rate - n))); simpl;
    rewrite lookup_insert_eq; simpl; split_and!; try done.
  - by rewrite bool_decide_true by lia.
  - f_equal. lia.
  - by rewrite bool_decide_false by lia.
  - f_equal. lia.
Qed.

(** A burst: of [n] simultaneous requests for a key the limiter has not seen,
    exactly the first [rate] are allowed and all others are rejected. *)
Theorem rate_limiter_burst rate s ep t n :
  fst (limiter_burst s ep t n (NewRateLimitingPolicy true (Z.of_nat rate)))
  = replicate (min n rate) true ++ replicate (n - rate) false.
Proof. apply limiter_burst_state. Qed.

(** * Retry delays and replica targets *)

Lemma capped_ms v : 0 ≤ v < 2 ^ 63 →
  (let d := wrap64 v in if (maxBackoffMs <? d) || (d <? 0) then maxBackoffMs else d)
  = Z.min v maxBackoffMs.
Proof.
  intros Hv. simpl. rewrite wrap64_id by (unfold in_int64, int64_min, int64_max; lia).
  unfold maxBackoffMs. destruct (Z.ltb_spec 60000 v), (Z.ltb_spec v 0); simpl; lia.
Qed.
Lemma exponential_ms_spec baseMs attempt :
  0 < baseMs ≤ 2 ^ 42 → 0 < attempt →
  exponential_ms baseMs attempt = Z.min (baseMs * 2 ^ (attempt - 1)) maxBackoffMs.
Proof.
  intros Hb Ha. unfold exponential_ms. destruct (Z.ltb_spec 20 (attempt - 1)).
  - assert (2 ^ 21 ≤ 2 ^ (attempt - 1)) by (apply Z.pow_le_mono_r; lia). unfold maxBackoffMs. nia.
  - assert (1 ≤ 2 ^ (attempt - 1) ≤ 2 ^ 20).
    { split; [pose proof (Z.pow_pos_nonneg 2 (attempt - 1)); lia|apply Z.pow_le_mono_r; lia]. }
    apply capped_ms. nia.
Qed.
Definition backoff_ms_spec (kind : string) (baseMs attempt : Z) : Z :=
  Z.min (if decide (kind = "linear") then baseMs * attempt else baseMs * 2 ^ (attempt - 1))
    maxBackoffMs.
Lemma GetBackoffDuration_spec maxRetries kind baseMs attempt :
  0 < baseMs ≤ 2 ^ 42 → 0 < attempt ≤ 2 ^ 20 → kind ≠ "constant" →
  retryPolicy_GetBackoffDuration attempt (NewRetryPolicy true maxRetries kind baseMs)
  = backoff_ms_spec kind baseMs attempt * Millisecond.
Proof.
  intros Hb Ha Hk. unfold retryPolicy_GetBackoffDuration, backoff_ms_spec, NewRetryPolicy. simpl.
  rewrite (proj2 (Z.leb_gt _ _)) by lia.
  pose proof (Z.pow_pos_nonneg 2 (attempt - 1)).
  assert (Hms : (if String.eqb kind "exponential" then exponential_ms baseMs attempt
      else if String.eqb kind "linear" then linear_ms baseMs attempt
      else if String.eqb kind "constant" then baseMs else exponential_ms baseMs attempt)
      = Z.min (if decide (kind = "linear") then baseMs * attempt else baseMs * 2 ^ (attempt - 1))
          maxBackoffMs).
  { rewrite exponential_ms_spec by lia. unfold linear_ms. rewrite capped_ms by nia.
    destruct (String.eqb_spec kind "exponential"), (String.eqb_spec kind "linear"),
      (String.eqb_spec kind "constant"); case_decide; congruence. }
  rewrite Hms. apply wrap64_id. unfold in_int64, int64_min, int64_max, maxBackoffMs, Millisecond.
  case_decide; nia.
Qed.
Lemma backoff_ms_mono kind baseMs attempt :
  0 < baseMs → 0 < attempt → backoff_ms_spec kind baseMs attempt ≤ backoff_ms_spec kind baseMs (attempt + 1).
Proof.
  intros. unfold backoff_ms_spec. replace (attempt + 1 - 1) with (Z.succ (attempt - 1)) by lia.
  rewrite Z.pow_succ_r by lia. pose proof (Z.pow_pos_nonneg 2 (attempt - 1)). case_decide; nia.
Qed.

(** With a positive base of at most 2^42 ms and fewer than 2^20 attempts, the
    retry delay is the base times 2^(attempt-1) (exponential and unknown kinds)
    or times the attempt (linear), capped at 60 s; it never decreases with the
    attempt, and exactly the failed attempts below MaxRetries are retried. *)
Theorem retry_backoff_spec maxRetries kind baseMs attempt :
  0 < baseMs ≤ 2 ^ 42 → 0 < attempt < 2 ^ 20 → kind ≠ "constant" →
  let p := NewRetryPolicy true maxRetries kind baseMs in
  retryPolicy_GetBackoffDuration attempt p = backoff_ms_spec kind baseMs attempt * Millisecond ∧
  retryPolicy_GetBackoffDuration attempt p ≤ retryPolicy_GetBackoffDuration (attempt + 1) p ≤ Minute ∧
  (∀ err, retryPolicy_ShouldRetry attempt err p = true ↔ attempt < maxRetries ∧ is_Some err).
Proof.
  intros Hb Ha Hk p. unfold p. rewrite !GetBackoffDuration_spec by (done || lia).
  split; [done|]. split.
  - pose proof (backoff_ms_mono kind baseMs attempt). unfold Minute, Second, Millisecond.
    assert (backoff_ms_spec kind baseMs (attempt + 1) ≤ 60000) by apply Z.le_min_r. lia.
  - intros err. unfold retryPolicy_ShouldRetry. simpl. destruct (Z.leb_spec maxRetries attempt).
    + split; [done|lia].
    + destruct err; split; try done. intros [_ [? [=]]].
Qed.
Lemma retry_backoff_spec_witness :
  retryPolicy_GetBackoffDuration 4 (NewRetryPolicy true 5 "exponential" 100) = 800 * Millisecond.
Proof.
  refine (proj1 (retry_backoff_spec 5 "exponential" 100 4 _ _ _)); [lia|lia|discriminate].
Defined.

(** With min <= max and a non-negative step that does not overflow, the
    autoscaler keeps a replica count of [min, max] in [min, max]; it moves by
    at most one step, up only above the target and down only below the
    hysteresis threshold, and stays put between them. *)
Theorem autoscaling_target_spec target step lo hi current util :
  lo ≤ current ≤ hi → 0 ≤ step → in_int64 (lo - step) → in_int64 (hi + step) →
  let p := NewAutoscalingPolicy true target step lo hi in
  let r := autoscalingPolicy_GetTargetReplicas current util p in
  lo ≤ r ≤ hi ∧ current - step ≤ r ≤ current + step ∧
  (current < r → fltb (as_targetCPUUtil p) util = true) ∧
  (r < current → fltb util (fmul (as_targetCPUUtil p) scaleDownHysteresisFactor) = true) ∧
  (current < hi → fltb (as_targetCPUUtil p) util = true → r = Z.min hi (current + step)).
Proof.
  intros Hc Hs Hlo Hhi. simpl. unfold autoscalingPolicy_GetTargetReplicas,
    autoscalingPolicy_ShouldScaleUp, autoscalingPolicy_ShouldScaleDown, NewAutoscalingPolicy. simpl.
  unfold in_int64 in *. rewrite !wrap64_id by (unfold in_int64; lia).
  set (T := if fleb target f0 then _ else _). clearbody T.
  repeat case_match; rewrite ?Z.leb_le, ?Z.leb_gt, ?Z.ltb_lt, ?Z.ltb_ge in *;
    repeat split; intros; (done || congruence || lia).
Qed.
Lemma autoscaling_target_spec_witness :
  autoscalingPolicy_GetTargetReplicas 9 (f64_lit 9 10) (NewAutoscalingPolicy true (f64_lit 7 10) 2 1 10)
  = 10.
Proof.
  refine (proj2 (proj2 (proj2 (proj2 (autoscaling_target_spec (f64_lit 7 10) 2 1 10 9 (f64_lit 9 10)
    _ _ _ _)))) _ _); try (unfold in_int64, int64_min, int64_max; lia). vm_compute. reflexivity.
Defined.
