(* ===== verification/Config.v ===== *)
(** [pkg/config]: the scenario data model, the defaults of queue and topic
    behaviour, scaling permissions, and scenario validation ([ValidateScenario]
    with [ValidateQueueBehavior] and [ValidateTopicBehavior]). Error texts are
    those of the source, except that a number printed after "got" is left out. *)
From S2P Require Import Prelude GoFloat Policy.
From Stdlib Require Import SpecFloat.
#[local] Open Scope string_scope.
#[local] Open Scope list_scope.
#[local] Open Scope Z_scope.

(** * Data *)

Record LatencySpec := mkLatency {
  lat_Mean : float64;
  lat_Sigma : float64;
}.
Record SimulationLimits := mkSimLimits {
  sl_MaxTraceDepth : Z;
  sl_MaxAsyncHops : Z;
}.
Record HostSpec := mkHostSpec {
  hs_ID : string;
  hs_Cores : Z;
  hs_MemoryGB : Z;
  hs_Zone : string;
  hs_Labels : gmap string string;
}.
#[export] Instance eta_HostSpec : Eta HostSpec := λ r, mkHostSpec (hs_ID r) (hs_Cores r)
  (hs_MemoryGB r) (hs_Zone r) (hs_Labels r).
Record PlacementPolicy := mkPlacement {
  pl_RequiredZones : list string;
  pl_PreferredZones : list string;
  pl_AffinityZones : list string;
  pl_AntiAffinityZones : list string;
  pl_RequiredHostLabels : gmap string string;
  pl_PreferredHostLabels : gmap string string;
  pl_AntiAffinityServices : list string;
  pl_SpreadAcrossZones : bool;
  pl_MaxReplicasPerHost : Z;
}.
Record CacheBehavior := mkCacheBehavior {
  cab_HitRate : float64;
  cab_HitLatencyMs : LatencySpec;
  cab_MissLatencyMs : LatencySpec;
}.
Record QueueBehavior := mkQueueBehavior {
  qb_Capacity : Z;
  qb_ConsumerConcurrency : Z;
  qb_MinConsumerConcurrency : Z;
  qb_MaxConsumerConcurrency : Z;
  qb_ConsumerTarget : string;
  qb_DeliveryLatencyMs : LatencySpec;
  qb_AckTimeoutMs : float64;
  qb_MaxRedeliveries : Z;
  qb_DLQTarget : string;
  qb_DropPolicy : string;
  qb_AsyncFireAndForget : bool;
}.
#[export] Instance eta_QueueBehavior : Eta QueueBehavior := λ r, mkQueueBehavior (qb_Capacity r)
  (qb_ConsumerConcurrency r) (qb_MinConsumerConcurrency r) (qb_MaxConsumerConcurrency r)
  (qb_ConsumerTarget r) (qb_DeliveryLatencyMs r) (qb_AckTimeoutMs r) (qb_MaxRedeliveries r)
  (qb_DLQTarget r) (qb_DropPolicy r) (qb_AsyncFireAndForget r).
Record TopicSubscriber := mkSubscriber {
  sub_Name : string;
  sub_ConsumerTarget : string;
  sub_ConsumerGroup : string;
  sub_ConsumerConcurrency : Z;
  sub_MinConsumerConcurrency : Z;
  sub_MaxConsumerConcurrency : Z;
  sub_AckTimeoutMs : float64;
  sub_MaxRedeliveries : Z;
  sub_DLQ : string;
  sub_DropPolicy : string;
}.
#[export] Instance eta_TopicSubscriber : Eta TopicSubscriber := λ r, mkSubscriber (sub_Name r)
  (sub_ConsumerTarget r) (sub_ConsumerGroup r) (sub_ConsumerConcurrency r)
  (sub_MinConsumerConcurrency r) (sub_MaxConsumerConcurrency r) (sub_AckTimeoutMs r)
  (sub_MaxRedeliveries r) (sub_DLQ r) (sub_DropPolicy r).
Record TopicBehavior := mkTopicBehavior {
  tb_Partitions : Z;
  tb_RetentionMs : Z;
  tb_Capacity : Z;
  tb_DeliveryLatencyMs : LatencySpec;
  tb_PublishAck : string;
  tb_AsyncFireAndForget : bool;
  tb_Subscribers : list TopicSubscriber;
}.
#[export] Instance eta_TopicBehavior : Eta TopicBehavior := λ r, mkTopicBehavior (tb_Partitions r)
  (tb_RetentionMs r) (tb_Capacity r) (tb_DeliveryLatencyMs r) (tb_PublishAck r)
  (tb_AsyncFireAndForget r) (tb_Subscribers r).
Record ServiceBehavior := mkServiceBehavior {
  sb_FailureRate : float64;
  sb_SaturationLatencyFactor : float64;
  sb_MaxConnections : Z;
  sb_Cache : option CacheBehavior;
  sb_Queue : option QueueBehavior;
  sb_Topic : option TopicBehavior;
}.
#[export] Instance eta_ServiceBehavior : Eta ServiceBehavior := λ r, mkServiceBehavior
  (sb_FailureRate r) (sb_SaturationLatencyFactor r) (sb_MaxConnections r) (sb_Cache r)
  (sb_Queue r) (sb_Topic r).
Record ScalingPolicy := mkScalingPolicy {
  sc_Horizontal : bool;
  sc_VerticalCPU : bool;
  sc_VerticalMemory : bool;
}.
Record RoutingPolicy := mkRoutingPolicy {
  rt_Strategy : string;
  rt_StickyKeyFrom : string;
  rt_LocalityZoneFrom : string;
  rt_Weights : gmap string float64;
}.
Record DownstreamCall := mkDownstream {
  ds_To : string;
  ds_Mode : string;
  ds_Kind : string;
  ds_Probability : float64;
  ds_CallCountMean : float64;
  ds_CallLatencyMs : LatencySpec;
  ds_TimeoutMs : float64;
  ds_FailureRate : float64;
  ds_Retryable : option bool;
  ds_DownstreamFractionCPU : float64;
  ds_PartitionKey : string;
  ds_PartitionKeyFrom : string;
}.
Record Endpoint := mkEndpoint {
  ep_Path : string;
  ep_MeanCPUMs : float64;
  ep_CPUSigmaMs : float64;
  ep_DefaultMemoryMB : float64;
  ep_FailureRate : float64;
  ep_TimeoutMs : float64;
  ep_IOMs : LatencySpec;
  ep_ConnectionPool : Z;
  ep_Routing : option RoutingPolicy;
  ep_Downstream : list DownstreamCall;
  ep_NetLatencyMs : LatencySpec;
}.
Record Service := mkService {
  svc_ID : string;
  svc_Kind : string;
  svc_Role : string;
  svc_Replicas : Z;
  svc_Model : string;
  svc_CPUCores : float64;
  svc_MemoryMB : float64;
  svc_ExternalNetworkLatencyMs : option LatencySpec;
  svc_Scaling : option ScalingPolicy;
  svc_Behavior : option ServiceBehavior;
  svc_Placement : option PlacementPolicy;
  svc_Routing : option RoutingPolicy;
  svc_Endpoints : list Endpoint;
}.
#[export] Instance eta_Service : Eta Service := λ r, mkService (svc_ID r) (svc_Kind r)
  (svc_Role r) (svc_Replicas r) (svc_Model r) (svc_CPUCores r) (svc_MemoryMB r)
  (svc_ExternalNetworkLatencyMs r) (svc_Scaling r) (svc_Behavior r) (svc_Placement r)
  (svc_Routing r) (svc_Endpoints r).
Record ArrivalSpec := mkArrival {
  ar_Type : string;
  ar_RateRPS : float64;
  ar_StdDevRPS : float64;
  ar_BurstRateRPS : float64;
  ar_BurstDurationSeconds : float64;
  ar_QuietDurationSeconds : float64;
}.
#[export] Instance eta_ArrivalSpec : Eta ArrivalSpec := λ r, mkArrival (ar_Type r) (ar_RateRPS
  r) (ar_StdDevRPS r) (ar_BurstRateRPS r) (ar_BurstDurationSeconds r) (ar_QuietDurationSeconds
  r).
Record WorkloadPattern := mkWorkload {
  wl_From : string;
  wl_SourceKind : string;
  wl_TrafficClass : string;
  wl_Metadata : gmap string string;
  wl_To : string;
  wl_Arrival : ArrivalSpec;
}.
#[export] Instance eta_WorkloadPattern : Eta WorkloadPattern := λ r, mkWorkload (wl_From r)
  (wl_SourceKind r) (wl_TrafficClass r) (wl_Metadata r) (wl_To r) (wl_Arrival r).
Record NetworkConfig := mkNetwork {
  net_SymmetricCrossZoneLatency : bool;
  net_SameHostLatencyMs : LatencySpec;
  net_SameZoneLatencyMs : LatencySpec;
  net_DefaultCrossZoneLatencyMs : LatencySpec;
  net_CrossZoneLatencyMs : gmap string (gmap string LatencySpec);
  net_ExternalLatencyMs : LatencySpec;
}.
Record Scenario := mkScenario {
  scn_SchemaVersion : option string;
  scn_SimulationLimits : option SimulationLimits;
  scn_Network : option NetworkConfig;
  scn_Hosts : list HostSpec;
  scn_Services : list Service;
  scn_Workload : list WorkloadPattern;
  scn_Policies : option PoliciesConfig;
}.
#[export] Instance eta_Scenario : Eta Scenario := λ r, mkScenario (scn_SchemaVersion r)
  (scn_SimulationLimits r) (scn_Network r) (scn_Hosts r) (scn_Services r) (scn_Workload r)
  (scn_Policies r).

(** * Downstream calls and scaling permissions *)

Definition norm (s : string) : string := ToLower (TrimSpace s).
Definition DownstreamCall_IsAsync (d : DownstreamCall) : bool :=
  let m := norm (ds_Mode d) in String.eqb m "async" || String.eqb m "event".
Definition DownstreamCall_IsRetryable (d : DownstreamCall) : bool :=
  match ds_Retryable d with None => true | Some b => b end.

(** The batch scaling actions of the generated protobuf enum the code tells apart. *)
Inductive BatchScalingAction :=
  | SERVICE_SCALE_OUT | SERVICE_SCALE_IN | SERVICE_SCALE_UP_CPU | SERVICE_SCALE_DOWN_CPU
  | SERVICE_SCALE_UP_MEMORY | SERVICE_SCALE_DOWN_MEMORY | OTHER_SCALING_ACTION.
Definition ServiceAllowsBatchScalingAction (svc : option Service) (act : BatchScalingAction)
    : bool :=
  match svc with
  | None => false
  | Some svc =>
      match svc_Scaling svc with
      | None => negb (EqualFold (TrimSpace (svc_Kind svc)) "database")
      | Some p =>
          match act with
          | SERVICE_SCALE_OUT | SERVICE_SCALE_IN => sc_Horizontal p
          | SERVICE_SCALE_UP_CPU | SERVICE_SCALE_DOWN_CPU => sc_VerticalCPU p
          | SERVICE_SCALE_UP_MEMORY | SERVICE_SCALE_DOWN_MEMORY => sc_VerticalMemory p
          | OTHER_SCALING_ACTION => true
          end
      end
  end.
Definition ServiceAllowsHorizontalScaling (svc : option Service) : bool :=
  ServiceAllowsBatchScalingAction svc SERVICE_SCALE_OUT.
Definition ServiceAllowsVerticalCPU (svc : option Service) : bool :=
  ServiceAllowsBatchScalingAction svc SERVICE_SCALE_UP_CPU.
Definition ServiceAllowsVerticalMemory (svc : option Service) : bool :=
  ServiceAllowsBatchScalingAction svc SERVICE_SCALE_UP_MEMORY.

(** * Effective queue and topic behaviour *)

Definition is_empty (s : string) : bool := String.eqb s "".
Definition or_trimmed (s d : string) : string := if is_empty (TrimSpace s) then d else TrimSpace s.
Definition pos_or (z d : Z) : Z := if 0 <? z then z else d.
Definition merge_capacity (c d : Z) : Z := if c =? -1 then 0 else if 0 <? c then c else d.
Definition merge_latency (l d : LatencySpec) : LatencySpec :=
  if fltb f0 (lat_Mean l) || fltb f0 (lat_Sigma l) then l else d.

Definition DefaultQueueBehavior : QueueBehavior :=
  mkQueueBehavior 10000 1 0 0 "" (mkLatency f1 f0) (f64_of_Z 30000) 3 "" "block" false.
Definition EffectiveQueueBehavior (q : option QueueBehavior) : QueueBehavior :=
  let d := DefaultQueueBehavior in
  match q with
  | None => d
  | Some q =>
      mkQueueBehavior
        (merge_capacity (qb_Capacity q) (qb_Capacity d))
        (pos_or (qb_ConsumerConcurrency q) (qb_ConsumerConcurrency d))
        (pos_or (qb_MinConsumerConcurrency q) (qb_MinConsumerConcurrency d))
        (pos_or (qb_MaxConsumerConcurrency q) (qb_MaxConsumerConcurrency d))
        (or_trimmed (qb_ConsumerTarget q) (qb_ConsumerTarget d))
        (merge_latency (qb_DeliveryLatencyMs q) (qb_DeliveryLatencyMs d))
        (if fltb f0 (qb_AckTimeoutMs q) then qb_AckTimeoutMs q else qb_AckTimeoutMs d)
        (if 0 <=? qb_MaxRedeliveries q then qb_MaxRedeliveries q else qb_MaxRedeliveries d)
        (or_trimmed (qb_DLQTarget q) (qb_DLQTarget d))
        (or_trimmed (qb_DropPolicy q) (qb_DropPolicy d))
        (if qb_AsyncFireAndForget q then true else qb_AsyncFireAndForget d)
  end.

Definition DefaultTopicBehavior : TopicBehavior :=
  mkTopicBehavior 1 600000 10000 (mkLatency f1 f0) "leader_ack" false [].
Definition EffectiveTopicBehavior (t : option TopicBehavior) : TopicBehavior :=
  let d := DefaultTopicBehavior in
  match t with
  | None => d
  | Some t =>
      mkTopicBehavior
        (pos_or (tb_Partitions t) (tb_Partitions d))
        (pos_or (tb_RetentionMs t) (tb_RetentionMs d))
        (merge_capacity (tb_Capacity t) (tb_Capacity d))
        (merge_latency (tb_DeliveryLatencyMs t) (tb_DeliveryLatencyMs d))
        (or_trimmed (tb_PublishAck t) (tb_PublishAck d))
        (if tb_AsyncFireAndForget t then true else tb_AsyncFireAndForget d)
        (match tb_Subscribers t with [] => tb_Subscribers d | _ => tb_Subscribers t end)
  end.

(** [CanonicalTopicSubscribersForHash]: a stable sort by consumer group, then by
    consumer target, both trimmed. *)
Definition string_ltb (s t : string) : bool :=
  match String.compare s t with Lt => true | _ => false end.
Definition subscriber_less (a b : TopicSubscriber) : bool :=
  let gi := TrimSpace (sub_ConsumerGroup a) in
  let gj := TrimSpace (sub_ConsumerGroup b) in
  if negb (String.eqb gi gj) then string_ltb gi gj
  else string_ltb (TrimSpace (sub_ConsumerTarget a)) (TrimSpace (sub_ConsumerTarget b)).
Fixpoint insert_stable {A} (less : A → A → bool) (x : A) (l : list A) : list A :=
  match l with
  | [] => [x]
  | y :: l' => if less y x then y :: insert_stable less x l' else x :: l
  end.
Definition sort_SliceStable {A} (less : A → A → bool) (l : list A) : list A :=
  foldr (insert_stable less) [] l.
Definition CanonicalTopicSubscribersForHash (t : option TopicBehavior) : list TopicSubscriber :=
  match t with
  | None => []
  | Some t => sort_SliceStable subscriber_less (tb_Subscribers t)
  end.

(** * Parsing of targets *)

(** [strings.SplitN(s, ":", 2)] of a string that contains a colon. *)
Fixpoint cut_colon (s : string) : option (string * string) :=
  match s with
  | EmptyString => None
  | String c s' =>
      if Ascii.eqb c ":" then Some (EmptyString, s')
      else match cut_colon s' with Some (a, b) => Some (String c a, b) | None => None end
  end.
Definition parseDownstreamTargetForValidation (target : string) : go (string * string) :=
  let target := TrimSpace target in
  if is_empty target then Fail "target cannot be empty"
  else
    match cut_colon target with
    | Some (a, b) =>
        let serviceID := TrimSpace a in
        let path := TrimSpace b in
        if is_empty serviceID || is_empty path then Fail "service and path must be non-empty"
        else Ok (serviceID, path)
    | None => Ok (target, "/")
    end.

Definition NormalizeArrivalType (t : string) : go string :=
  let t := TrimSpace (ToLower t) in
  if is_empty t then Fail "arrival type cannot be empty"
  else
    let t := if String.eqb t "burst" then "bursty" else t in
    if bool_decide (t ∈ ["poisson"; "exponential"; "uniform"; "normal"; "gaussian"; "bursty"; "constant"])
    then Ok t
    else Fail ("invalid arrival type " +:+ Quote t +:+ " (supported: poisson, exponential, uniform, normal, gaussian, bursty, constant; alias burst -> bursty)").

(** * Validation of queue and topic behaviour *)

Definition neg (x : float64) : bool := fltb x f0.
Definition outside01 (x : float64) : bool := fltb x f0 || fltb f1 x.
Definition neg_latency (l : LatencySpec) : bool := neg (lat_Mean l) || neg (lat_Sigma l).
Definition valid_drop_policy (dp : string) : bool :=
  bool_decide (dp ∈ ["block"; "reject"; "drop_oldest"; "drop_newest"]).

(** A target names an existing service and a known ["svc:path"] key; [missing]
    starts the two messages. *)
Definition check_target (endpointRef serviceIDs : gset string) (missing : string)
    (target : string * string) : go unit :=
  let '(s, p) := target in
  fail_if (negb (bool_decide (s ∈ serviceIDs))) (missing +:+ " service " +:+ s +:+ " does not exist") ;;!
  fail_if (negb (bool_decide (s +:+ ":" +:+ p ∈ endpointRef)))
    (missing +:+ " endpoint " +:+ s +:+ ":" +:+ p +:+ " does not exist").

(** The bounds on consumer concurrency both validators check on the effective
    values; [field] starts the messages. *)
Definition check_concurrency (field : string) (c min max : Z) : go unit :=
  fail_if ((0 <? min) && (min <? 1)) (field +:+ ".min_consumer_concurrency must be >= 1 when set") ;;!
  fail_if ((0 <? max) && (max <? 1)) (field +:+ ".max_consumer_concurrency must be >= 1 when set") ;;!
  fail_if ((0 <? min) && (0 <? max) && (max <? min))
    (field +:+ " min_consumer_concurrency cannot exceed max_consumer_concurrency") ;;!
  fail_if ((0 <? c) && (0 <? min) && (c <? min))
    (field +:+ ".consumer_concurrency cannot be below min_consumer_concurrency") ;;!
  fail_if ((0 <? c) && (0 <? max) && (max <? c))
    (field +:+ ".consumer_concurrency cannot exceed max_consumer_concurrency").

Definition ValidateQueueBehavior (svcID : string) (q : option QueueBehavior)
    (endpointRef serviceIDs : gset string) : go unit :=
  let pre := "service " +:+ svcID +:+ ": " in
  let fld := pre +:+ "behavior.queue" in
  match q with
  | None => Fail (fld +:+ " is required for kind queue")
  | Some q =>
      fail_if (qb_Capacity q <? -1) (fld +:+ ".capacity must be >= -1 (-1 = unlimited)") ;;!
      fail_if (qb_ConsumerConcurrency q <? 0) (fld +:+ ".consumer_concurrency cannot be negative") ;;!
      fail_if (qb_MinConsumerConcurrency q <? 0) (fld +:+ ".min_consumer_concurrency cannot be negative") ;;!
      fail_if (qb_MaxConsumerConcurrency q <? 0) (fld +:+ ".max_consumer_concurrency cannot be negative") ;;!
      fail_if (neg_latency (qb_DeliveryLatencyMs q))
        (fld +:+ ".delivery_latency_ms mean/sigma cannot be negative") ;;!
      fail_if (neg (qb_AckTimeoutMs q)) (fld +:+ ".ack_timeout_ms cannot be negative") ;;!
      fail_if (qb_MaxRedeliveries q <? 0) (fld +:+ ".max_redeliveries cannot be negative") ;;!
      let eff := EffectiveQueueBehavior (Some q) in
      fail_if (is_empty (TrimSpace (qb_ConsumerTarget eff)))
        (fld +:+ ".consumer_target is required (format serviceID:path)") ;;!
      let! ct := wrap_err (fld +:+ ".consumer_target: ")
                   (parseDownstreamTargetForValidation (TrimSpace (qb_ConsumerTarget eff))) in
      check_target endpointRef serviceIDs (pre +:+ "queue consumer_target") ct ;;!
      fail_if (qb_ConsumerConcurrency eff <? 0) (fld +:+ ".consumer_concurrency cannot be negative") ;;!
      fail_if (qb_MinConsumerConcurrency eff <? 0) (fld +:+ ".min_consumer_concurrency cannot be negative") ;;!
      fail_if (qb_MaxConsumerConcurrency eff <? 0) (fld +:+ ".max_consumer_concurrency cannot be negative") ;;!
      check_concurrency fld (qb_ConsumerConcurrency eff) (qb_MinConsumerConcurrency eff)
        (qb_MaxConsumerConcurrency eff) ;;!
      fail_if (negb (valid_drop_policy (norm (qb_DropPolicy eff))))
        (fld +:+ ".drop_policy must be block, reject, drop_oldest, or drop_newest") ;;!
      if is_empty (TrimSpace (qb_DLQTarget eff)) then Ok tt
      else
        let! dt := wrap_err (fld +:+ ".dlq: ")
                     (parseDownstreamTargetForValidation (TrimSpace (qb_DLQTarget eff))) in
        check_target endpointRef serviceIDs (pre +:+ "queue dlq") dt
  end.

(** One subscriber of a topic; the state is the index and the groups and names
    seen so far. The effective subscribers are the configured ones. *)
Definition check_subscriber (pre : string) (endpointRef serviceIDs : gset string)
    (st : Z * gset string * gset string) (sub : TopicSubscriber)
    : go (Z * gset string * gset string) :=
  let '(i, groups, names) := st in
  let fld := pre +:+ "behavior.topic.subscribers[" +:+ Itoa i +:+ "]" in
  fail_if (is_empty (TrimSpace (sub_ConsumerTarget sub))) (fld +:+ ".consumer_target is required") ;;!
  let! ct := wrap_err (fld +:+ ".consumer_target: ")
               (parseDownstreamTargetForValidation (TrimSpace (sub_ConsumerTarget sub))) in
  check_target endpointRef serviceIDs (pre +:+ "topic subscriber consumer_target") ct ;;!
  let g := TrimSpace (sub_ConsumerGroup sub) in
  fail_if (is_empty g) (fld +:+ ".consumer_group is required") ;;!
  fail_if (bool_decide (g ∈ groups))
    (pre +:+ "duplicate behavior.topic subscriber consumer_group " +:+ Quote g) ;;!
  let nm := TrimSpace (sub_Name sub) in
  fail_if (negb (is_empty nm) && bool_decide (nm ∈ names))
    (pre +:+ "duplicate behavior.topic subscriber name " +:+ Quote nm) ;;!
  fail_if (sub_ConsumerConcurrency sub <? 0) (fld +:+ ".consumer_concurrency cannot be negative") ;;!
  fail_if (sub_MinConsumerConcurrency sub <? 0) (fld +:+ ".min_consumer_concurrency cannot be negative") ;;!
  fail_if (sub_MaxConsumerConcurrency sub <? 0) (fld +:+ ".max_consumer_concurrency cannot be negative") ;;!
  fail_if (neg (sub_AckTimeoutMs sub)) (fld +:+ ".ack_timeout_ms cannot be negative") ;;!
  fail_if (sub_MaxRedeliveries sub <? 0) (fld +:+ ".max_redeliveries cannot be negative") ;;!
  check_concurrency fld (sub_ConsumerConcurrency sub) (sub_MinConsumerConcurrency sub)
    (sub_MaxConsumerConcurrency sub) ;;!
  let dp := norm (sub_DropPolicy sub) in
  fail_if (negb (valid_drop_policy (if is_empty dp then "block" else dp)))
    (fld +:+ ".drop_policy must be block, reject, drop_oldest, or drop_newest") ;;!
  (if is_empty (TrimSpace (sub_DLQ sub)) then Ok tt
   else
     let! dt := wrap_err (fld +:+ ".dlq: ")
                  (parseDownstreamTargetForValidation (TrimSpace (sub_DLQ sub))) in
     check_target endpointRef serviceIDs (pre +:+ "topic subscriber dlq") dt) ;;!
  Ok (i + 1, {[g]} ∪ groups, if is_empty nm then names else {[nm]} ∪ names).

Definition ValidateTopicBehavior (svcID : string) (t : option TopicBehavior)
    (endpointRef serviceIDs : gset string) : go unit :=
  let pre := "service " +:+ svcID +:+ ": " in
  let fld := pre +:+ "behavior.topic" in
  match t with
  | None => Fail (fld +:+ " is required for kind topic")
  | Some t =>
      fail_if (tb_Partitions t <? 0) (fld +:+ ".partitions cannot be negative") ;;!
      fail_if (tb_RetentionMs t <? 0) (fld +:+ ".retention_ms cannot be negative") ;;!
      fail_if (tb_Capacity t <? -1) (fld +:+ ".capacity must be >= -1 (-1 = unlimited)") ;;!
      fail_if (neg_latency (tb_DeliveryLatencyMs t))
        (fld +:+ ".delivery_latency_ms mean/sigma cannot be negative") ;;!
      let eff := EffectiveTopicBehavior (Some t) in
      fail_if (bool_decide (tb_Subscribers eff = [])) (fld +:+ ".subscribers must be non-empty") ;;!
      fail_if (tb_Partitions eff <? 1) (fld +:+ ".partitions must be >= 1") ;;!
      go_fold (check_subscriber pre endpointRef serviceIDs) (0, ∅, ∅) (tb_Subscribers eff) ;;!
      Ok tt
  end.

(** * Validation of a scenario *)

Definition check_limits (l : option SimulationLimits) : go unit :=
  match l with
  | None => Ok tt
  | Some l =>
      fail_if (sl_MaxTraceDepth l <? 0) "simulation_limits.max_trace_depth cannot be negative" ;;!
      fail_if (sl_MaxAsyncHops l <? 0) "simulation_limits.max_async_hops cannot be negative"
  end.
Definition check_host (hostIDs : gset string) (h : HostSpec) : go (gset string) :=
  fail_if (is_empty (hs_ID h)) "host id cannot be empty" ;;!
  fail_if (bool_decide (hs_ID h ∈ hostIDs)) ("duplicate host id: " +:+ hs_ID h) ;;!
  fail_if (hs_Cores h <=? 0) ("host " +:+ hs_ID h +:+ ": cores must be positive") ;;!
  fail_if (hs_MemoryGB h <? 0) ("host " +:+ hs_ID h +:+ ": memory_gb cannot be negative") ;;!
  Ok ({[hs_ID h]} ∪ hostIDs).

Definition check_behavior (pre : string) (b : ServiceBehavior) : go unit :=
  fail_if (outside01 (sb_FailureRate b)) (pre +:+ "behavior.failure_rate must be in [0,1], got") ;;!
  fail_if (neg (sb_SaturationLatencyFactor b)) (pre +:+ "behavior.saturation_latency_factor cannot be negative") ;;!
  fail_if (sb_MaxConnections b <? 0) (pre +:+ "behavior.max_connections cannot be negative") ;;!
  match sb_Cache b with
  | None => Ok tt
  | Some c =>
      fail_if (outside01 (cab_HitRate c)) (pre +:+ "behavior.cache.hit_rate must be in [0,1], got") ;;!
      fail_if (neg_latency (cab_HitLatencyMs c)) (pre +:+ "behavior.cache.hit_latency_ms mean/sigma cannot be negative") ;;!
      fail_if (neg_latency (cab_MissLatencyMs c)) (pre +:+ "behavior.cache.miss_latency_ms mean/sigma cannot be negative")
  end.
Definition check_endpoint (svcID : string) (ep : Endpoint) : go unit :=
  let pre := "service " +:+ svcID +:+ ", endpoint " +:+ ep_Path ep +:+ ": " in
  fail_if (is_empty (ep_Path ep)) ("service " +:+ svcID +:+ ": endpoint path cannot be empty") ;;!
  fail_if (neg (ep_MeanCPUMs ep)) (pre +:+ "mean_cpu_ms cannot be negative") ;;!
  fail_if (neg (ep_CPUSigmaMs ep)) (pre +:+ "cpu_sigma_ms cannot be negative") ;;!
  fail_if (neg (lat_Mean (ep_NetLatencyMs ep))) (pre +:+ "net_latency_ms.mean cannot be negative") ;;!
  fail_if (neg (lat_Sigma (ep_NetLatencyMs ep))) (pre +:+ "net_latency_ms.sigma cannot be negative") ;;!
  fail_if (outside01 (ep_FailureRate ep)) (pre +:+ "failure_rate must be in [0,1], got") ;;!
  fail_if (neg (ep_TimeoutMs ep)) (pre +:+ "timeout_ms cannot be negative") ;;!
  fail_if (neg_latency (ep_IOMs ep)) (pre +:+ "io_ms mean/sigma cannot be negative") ;;!
  fail_if (ep_ConnectionPool ep <? 0) (pre +:+ "connection_pool cannot be negative").

Definition validKinds : list string :=
  [""; "api_gateway"; "service"; "database"; "cache"; "external"; "queue"; "topic"].
Definition check_service (serviceIDs : gset string) (svc : Service) : go (gset string) :=
  let id := svc_ID svc in
  let pre := "service " +:+ id +:+ ": " in
  fail_if (is_empty id) "service id cannot be empty" ;;!
  fail_if (bool_decide (id ∈ serviceIDs)) ("duplicate service id: " +:+ id) ;;!
  fail_if (svc_Replicas svc <=? 0) (pre +:+ "replicas must be positive") ;;!
  fail_if (negb (bool_decide (norm (svc_Kind svc) ∈ validKinds)))
    (pre +:+ "unknown or unsupported kind " +:+ Quote (svc_Kind svc)) ;;!
  fail_if (negb (bool_decide (svc_Model svc ∈ ["cpu"; "mixed"; "db_latency"])))
    (pre +:+ "invalid model " +:+ svc_Model svc +:+ " (must be cpu, mixed, or db_latency)") ;;!
  fail_if (match svc_Endpoints svc with [] => true | _ => false end)
    (pre +:+ "at least one endpoint must be defined") ;;!
  match svc_Behavior svc with Some b => check_behavior pre b | None => Ok tt end ;;!
  go_each (check_endpoint id) (svc_Endpoints svc) ;;!
  Ok ({[id]} ∪ serviceIDs).

Definition svc_endpoint_keys (svc : Service) : list string :=
  (λ ep, svc_ID svc +:+ ":" +:+ ep_Path ep) <$> svc_Endpoints svc.
Definition endpoint_refs (services : list Service) : gset string :=
  list_to_set (services ≫= svc_endpoint_keys).
(** The last service of an ID decides its kind; an unknown ID has kind "". *)
Definition service_kind_by_id (services : list Service) (id : string) : string :=
  default "" ((foldl (λ m svc, <[svc_ID svc := norm (svc_Kind svc)]> m) ∅ services
                : gmap string string) !! id).

Definition check_downstream (endpointRef serviceIDs : gset string) (kindOf : string → string)
    (pre : string) (ds : DownstreamCall) : go unit :=
  fail_if (is_empty (ds_To ds)) (pre +:+ "downstream 'to' cannot be empty") ;;!
  let! tgt := wrap_err (pre +:+ "downstream to " +:+ Quote (ds_To ds) +:+ ": ")
                (parseDownstreamTargetForValidation (ds_To ds)) in
  check_target endpointRef serviceIDs (pre +:+ "downstream") tgt ;;!
  let kind := norm (ds_Kind ds) in
  fail_if (negb (bool_decide (norm (ds_Mode ds) ∈ [""; "sync"; "async"; "event"])))
    (pre +:+ "invalid downstream mode " +:+ Quote (ds_Mode ds)) ;;!
  fail_if (negb (bool_decide (kind ∈ [""; "rest"; "grpc"; "db"; "queue"; "topic"; "external"])))
    (pre +:+ "invalid downstream kind " +:+ Quote (ds_Kind ds)) ;;!
  fail_if (outside01 (ds_Probability ds)) (pre +:+ "downstream probability must be in [0,1], got") ;;!
  fail_if (neg (ds_TimeoutMs ds)) (pre +:+ "downstream timeout_ms cannot be negative") ;;!
  fail_if (outside01 (ds_FailureRate ds)) (pre +:+ "downstream failure_rate must be in [0,1], got") ;;!
  fail_if (outside01 (ds_DownstreamFractionCPU ds)) (pre +:+ "downstream_fraction_cpu must be in [0,1], got") ;;!
  let tgtKind := kindOf (fst tgt) in
  fail_if (String.eqb kind "queue" && negb (String.eqb tgtKind "queue"))
    (pre +:+ "downstream kind queue requires target service " +:+ fst tgt +:+ " to have kind queue") ;;!
  fail_if (String.eqb tgtKind "queue" && negb (is_empty kind) && negb (String.eqb kind "queue"))
    (pre +:+ "downstream to queue service " +:+ fst tgt +:+ " must use kind queue (or omit kind)") ;;!
  fail_if (String.eqb kind "topic" && negb (String.eqb tgtKind "topic"))
    (pre +:+ "downstream kind topic requires target service " +:+ fst tgt +:+ " to have kind topic") ;;!
  fail_if (String.eqb tgtKind "topic" && negb (is_empty kind) && negb (String.eqb kind "topic"))
    (pre +:+ "downstream to topic service " +:+ fst tgt +:+ " must use kind topic (or omit kind)").

(** A workload pattern; the index and the patterns checked so far, with their
    arrival type normalised in place. *)
Definition check_workload (endpointRef serviceIDs : gset string)
    (st : Z * list WorkloadPattern) (wl : WorkloadPattern) : go (Z * list WorkloadPattern) :=
  let '(i, done) := st in
  let pre := "workload " +:+ Itoa i +:+ ": " in
  fail_if (is_empty (wl_From wl)) (pre +:+ "'from' cannot be empty") ;;!
  fail_if (is_empty (wl_To wl)) (pre +:+ "'to' cannot be empty") ;;!
  fail_if (is_empty (ar_Type (wl_Arrival wl))) (pre +:+ "arrival type cannot be empty") ;;!
  let! ty := wrap_err pre (NormalizeArrivalType (ar_Type (wl_Arrival wl))) in
  let wl := wl <| wl_Arrival := (wl_Arrival wl) <| ar_Type := ty |> |> in
  fail_if (fleb (ar_RateRPS (wl_Arrival wl)) f0) (pre +:+ "arrival rate_rps must be positive") ;;!
  let! tgt := wrap_err (pre +:+ "invalid to " +:+ Quote (wl_To wl) +:+ ": ")
                (parseDownstreamTargetForValidation (wl_To wl)) in
  check_target endpointRef serviceIDs (pre +:+ "target") tgt ;;!
  Ok (i + 1, done ++ [wl]).

Definition check_queue_service (endpointRef serviceIDs : gset string) (svc : Service) : go unit :=
  if String.eqb (norm (svc_Kind svc)) "queue" then
    ValidateQueueBehavior (svc_ID svc)
      (match svc_Behavior svc with Some b => sb_Queue b | None => None end) endpointRef serviceIDs
  else Ok tt.
Definition check_topic_service (endpointRef serviceIDs : gset string) (svc : Service) : go unit :=
  if String.eqb (norm (svc_Kind svc)) "topic" then
    ValidateTopicBehavior (svc_ID svc)
      (match svc_Behavior svc with Some b => sb_Topic b | None => None end) endpointRef serviceIDs
  else Ok tt.
Definition check_downstreams (endpointRef serviceIDs : gset string) (kindOf : string → string)
    (svc : Service) : go unit :=
  go_each (λ ep, go_each (check_downstream endpointRef serviceIDs kindOf
                            ("service " +:+ svc_ID svc +:+ ", endpoint " +:+ ep_Path ep +:+ ": "))
                   (ep_Downstream ep)) (svc_Endpoints svc).

(** [ValidateScenario] returns the scenario with normalised arrival types. *)
Definition ValidateScenario (s : Scenario) : go Scenario :=
  check_limits (scn_SimulationLimits s) ;;!
  fail_if (match scn_Hosts s with [] => true | _ => false end) "at least one host must be defined" ;;!
  go_fold check_host ∅ (scn_Hosts s) ;;!
  fail_if (match scn_Services s with [] => true | _ => false end) "at least one service must be defined" ;;!
  let! serviceIDs := go_fold check_service ∅ (scn_Services s) in
  let endpointRef := endpoint_refs (scn_Services s) in
  let kindOf := service_kind_by_id (scn_Services s) in
  go_each (check_queue_service endpointRef serviceIDs) (scn_Services s) ;;!
  go_each (check_topic_service endpointRef serviceIDs) (scn_Services s) ;;!
  go_each (check_downstreams endpointRef serviceIDs kindOf) (scn_Services s) ;;!
  fail_if (match scn_Workload s with [] => true | _ => false end)
    "at least one workload pattern must be defined" ;;!
  let! wls := go_fold (check_workload endpointRef serviceIDs) (0, []) (scn_Workload s) in
  Ok (s <| scn_Workload := snd wls |>).

(** * Sorting *)

Lemma insert_stable_perm {A} (less : A → A → bool) x l : insert_stable less x l ≡ₚ x :: l.
Proof.
  induction l as [|y l IH]; simpl; [done|]. case_match; [|done].
  rewrite IH. apply Permutation_swap.
Qed.
Lemma sort_SliceStable_perm {A} (less : A → A → bool) (l : list A) : sort_SliceStable less l ≡ₚ l.
Proof. induction l as [|x l IH]; simpl; [done|]. by rewrite insert_stable_perm, IH. Qed.
Lemma insert_stable_sorted {A} (R : relation A) `{!Transitive R} less x l :
  (∀ a b, less a b = true → R a b) → (∀ a b, less a b = false → R b a) →
  StronglySorted R l → StronglySorted R (insert_stable less x l).
Proof.
  intros Hlt Hge. induction 1 as [|y l Hl IH Hy]; simpl; [by repeat constructor|].
  destruct (less y x) eqn:E; constructor.
  - done.
  - rewrite insert_stable_perm. constructor; auto.
  - by constructor.
  - apply Hge in E. constructor; [done|]. eapply Forall_impl; [done|]. intros z ?. by trans y.
Qed.
Lemma sort_SliceStable_sorted {A} (R : relation A) `{!Transitive R} less l :
  (∀ a b, less a b = true → R a b) → (∀ a b, less a b = false → R b a) →
  StronglySorted R (sort_SliceStable less l).
Proof. intros. induction l; simpl; [constructor|by apply insert_stable_sorted]. Qed.

(** * What validation establishes *)

(** A reference names an endpoint of a service of the scenario. *)
Definition resolves (services : list Service) (to : string) : Prop :=
  ∃ svc ep, svc ∈ services ∧ ep ∈ svc_Endpoints svc ∧
    parseDownstreamTargetForValidation to = Ok (svc_ID svc, ep_Path ep).
(** No colon occurs in [s]. *)
Definition no_colon (s : string) : Prop := cut_colon s = None.

Lemma no_colon_cons c s : no_colon (String c s) ↔ c ≠ ":"%char ∧ no_colon s.
Proof.
  unfold no_colon. simpl. destruct (Ascii.eqb_spec c ":"); [naive_solver|].
  destruct (cut_colon s) as [[]|]; naive_solver.
Qed.
Lemma cut_colon_fst s a b : cut_colon s = Some (a, b) → no_colon a.
Proof.
  revert a. induction s as [|c s IH]; intros a; simpl; [done|].
  destruct (Ascii.eqb_spec c ":"); [by intros [= <- <-]|].
  destruct (cut_colon s) as [[a' b']|]; [|done]. intros [= <- <-]. apply no_colon_cons. auto.
Qed.
Lemma no_colon_TrimLeft s : no_colon s → no_colon (TrimLeft s).
Proof.
  induction s as [|c s IH]; simpl; [done|]. intros [? ?]%no_colon_cons.
  case_match; [auto|by apply no_colon_cons].
Qed.
Lemma no_colon_TrimRight s : no_colon s → no_colon (TrimRight s).
Proof.
  induction s as [|c s IH]; simpl; [done|]. intros [? ?%IH]%no_colon_cons.
  destruct (TrimRight s); [case_match; [done|]|]; by apply no_colon_cons.
Qed.
Lemma no_colon_TrimSpace s : no_colon s → no_colon (TrimSpace s).
Proof. intros. by apply no_colon_TrimRight, no_colon_TrimLeft. Qed.
Lemma no_colon_key_inj a b c d :
  no_colon a → no_colon c → a +:+ ":" +:+ b = c +:+ ":" +:+ d → a = c ∧ b = d.
Proof.
  revert c. induction a as [|x a IH]; intros [|y c]; simpl.
  - by intros _ _ [= ?].
  - intros _ [? _]%no_colon_cons [= ? _]. done.
  - intros [? _]%no_colon_cons _ [= ? _]. done.
  - intros [_ ?]%no_colon_cons [_ ?]%no_colon_cons [= -> E].
    destruct (IH c) as [-> ?]; auto.
Qed.
Lemma parse_target_no_colon to a b :
  parseDownstreamTargetForValidation to = Ok (a, b) → no_colon a.
Proof.
  unfold parseDownstreamTargetForValidation. destruct (is_empty _); [done|].
  destruct (cut_colon (TrimSpace to)) as [[x y]|] eqn:E.
  - case_match; [done|]. intros [= <- <-]. apply no_colon_TrimSpace. by eapply cut_colon_fst.
  - by intros [= <- <-].
Qed.

Lemma elem_of_endpoint_refs services key :
  key ∈ endpoint_refs services ↔
  ∃ svc ep, svc ∈ services ∧ ep ∈ svc_Endpoints svc ∧ key = svc_ID svc +:+ ":" +:+ ep_Path ep.
Proof.
  unfold endpoint_refs, svc_endpoint_keys. rewrite elem_of_list_to_set, list_elem_of_bind.
  setoid_rewrite list_elem_of_fmap. naive_solver.
Qed.
Lemma check_target_resolves services ids missing to tgt u :
  Forall (λ svc, no_colon (svc_ID svc)) services →
  parseDownstreamTargetForValidation to = Ok tgt →
  check_target (endpoint_refs services) ids missing tgt = Ok u → resolves services to.
Proof.
  intros Hc Hp Ht. destruct tgt as [a b]. unfold check_target in Ht. go_inv.
  apply elem_of_endpoint_refs in Ht as (svc & ep & Hs & He & Hk).
  rewrite Forall_forall in Hc.
  apply no_colon_key_inj in Hk as [-> ->]; [by exists svc, ep|by eapply parse_target_no_colon|auto].
Qed.

(** ** Hosts and services *)

Definition host_ok (h : HostSpec) : Prop := hs_ID h ≠ "" ∧ 0 < hs_Cores h ∧ 0 ≤ hs_MemoryGB h.
Lemma is_empty_false s : is_empty s = false ↔ s ≠ "".
Proof. unfold is_empty. by rewrite String.eqb_neq. Qed.
Lemma is_empty_true s : is_empty s = true ↔ s = "".
Proof. unfold is_empty. by rewrite String.eqb_eq. Qed.
Lemma check_host_ok S h S' :
  check_host S h = Ok S' → (hs_ID h ∉ S) ∧ host_ok h ∧ S' = {[hs_ID h]} ∪ S.
Proof. intros H. unfold check_host in H. go_inv. by rewrite is_empty_false in *. Qed.

Definition service_ok (svc : Service) : Prop :=
  svc_ID svc ≠ "" ∧ 0 < svc_Replicas svc ∧ norm (svc_Kind svc) ∈ validKinds ∧
  svc_Model svc ∈ ["cpu"; "mixed"; "db_latency"] ∧ svc_Endpoints svc ≠ [] ∧
  Forall (λ ep, ep_Path ep ≠ "" ∧ outside01 (ep_FailureRate ep) = false) (svc_Endpoints svc).
Lemma check_endpoint_ok id ep u :
  check_endpoint id ep = Ok u → ep_Path ep ≠ "" ∧ outside01 (ep_FailureRate ep) = false.
Proof.
  intros H. unfold check_endpoint in H. apply go_bind_ok in H as (? & ?%fail_if_ok & H).
  do 4 (apply go_bind_ok in H as (? & _ & H)). apply go_bind_ok in H as (? & ?%fail_if_ok & H).
  by rewrite is_empty_false in *.
Qed.
Lemma check_service_ok S svc S' :
  check_service S svc = Ok S' → (svc_ID svc ∉ S) ∧ service_ok svc ∧ S' = {[svc_ID svc]} ∪ S.
Proof.
  intros H. unfold check_service in H. go_inv. rewrite is_empty_false in *.
  split; [done|]. split; [|done]. unfold service_ok. split_and!; try done.
  - intros E. by rewrite E in *.
  - eapply Forall_impl; [done|]. intros ep. apply check_endpoint_ok.
Qed.

(** ** Queues, topics, downstream calls and workload *)

Definition queue_ok (services : list Service) (q : QueueBehavior) : Prop :=
  let eff := EffectiveQueueBehavior (Some q) in
  resolves services (TrimSpace (qb_ConsumerTarget eff)) ∧
  0 < qb_ConsumerConcurrency eff ∧ 0 ≤ qb_Capacity eff ∧ 0 ≤ qb_MaxRedeliveries eff ∧
  norm (qb_DropPolicy eff) ∈ ["block"; "reject"; "drop_oldest"; "drop_newest"] ∧
  (TrimSpace (qb_DLQTarget eff) ≠ "" → resolves services (TrimSpace (qb_DLQTarget eff))).
Definition topic_ok (services : list Service) (t : TopicBehavior) : Prop :=
  let eff := EffectiveTopicBehavior (Some t) in
  1 ≤ tb_Partitions eff ∧ 0 ≤ tb_Capacity eff ∧ tb_Subscribers eff ≠ [] ∧
  NoDup (TrimSpace ∘ sub_ConsumerGroup <$> tb_Subscribers eff) ∧
  Forall (λ sub, TrimSpace (sub_ConsumerGroup sub) ≠ "" ∧
                 resolves services (TrimSpace (sub_ConsumerTarget sub)) ∧
                 (TrimSpace (sub_DLQ sub) ≠ "" → resolves services (TrimSpace (sub_DLQ sub))))
    (tb_Subscribers eff).
Definition downstream_ok (services : list Service) (ds : DownstreamCall) : Prop :=
  resolves services (ds_To ds) ∧ outside01 (ds_Probability ds) = false ∧
  outside01 (ds_FailureRate ds) = false ∧
  (norm (ds_Kind ds) = "queue" → ∀ tgt, parseDownstreamTargetForValidation (ds_To ds) = Ok tgt →
     service_kind_by_id services (fst tgt) = "queue") ∧
  (norm (ds_Kind ds) = "topic" → ∀ tgt, parseDownstreamTargetForValidation (ds_To ds) = Ok tgt →
     service_kind_by_id services (fst tgt) = "topic").
Definition arrivalTypes : list string :=
  ["poisson"; "exponential"; "uniform"; "normal"; "gaussian"; "bursty"; "constant"].
(** The pattern with its arrival type in lower case, without blanks around it and with [burst]
    spelled [bursty]; everything else as it was. *)
Definition normalised (wl wl' : WorkloadPattern) : Prop :=
  let ty := TrimSpace (ToLower (ar_Type (wl_Arrival wl))) in
  wl' = wl <| wl_Arrival := (wl_Arrival wl) <| ar_Type := if bool_decide (ty = "burst") then "bursty" else ty |> |>.
Definition workload_ok (services : list Service) (wl : WorkloadPattern) : Prop :=
  resolves services (wl_To wl) ∧ ar_Type (wl_Arrival wl) ∈ arrivalTypes ∧
  fleb (ar_RateRPS (wl_Arrival wl)) f0 = false.

Lemma pos_or_pos z d : 0 < d → 0 < pos_or z d.
Proof. unfold pos_or. destruct (Z.ltb_spec 0 z); lia. Qed.
Lemma merge_capacity_nonneg c d : 0 ≤ d → 0 ≤ merge_capacity c d.
Proof. unfold merge_capacity. destruct (c =? -1), (Z.ltb_spec 0 c); lia. Qed.

Section validation.
Context (services : list Service) (ids : gset string).
Context (Hcolon : Forall (λ svc, no_colon (svc_ID svc)) services).
Abbreviation refs := (endpoint_refs services).

Lemma ValidateQueueBehavior_ok id q u :
  ValidateQueueBehavior id q refs ids = Ok u → ∃ q', q = Some q' ∧ queue_ok services q'.
Proof.
  destruct q as [q|]; [|done]. intros H. exists q. split; [done|].
  unfold ValidateQueueBehavior in H. go_inv. unfold queue_ok. split_and!.
  - by eapply check_target_resolves.
  - by apply pos_or_pos.
  - by apply merge_capacity_nonneg.
  - simpl. by rewrite (proj2 (Z.leb_le _ _)) by done.
  - unfold valid_drop_policy in *. go_inv. done.
  - intros Hd%is_empty_false. rewrite Hd in H. go_inv. by eapply check_target_resolves.
Qed.

Lemma check_subscriber_ok pre i groups names sub st' :
  check_subscriber pre refs ids (i, groups, names) sub = Ok st' →
  let g := TrimSpace (sub_ConsumerGroup sub) in
  g ≠ "" ∧ (g ∉ groups) ∧ snd (fst st') = {[g]} ∪ groups ∧
  resolves services (TrimSpace (sub_ConsumerTarget sub)) ∧
  (TrimSpace (sub_DLQ sub) ≠ "" → resolves services (TrimSpace (sub_DLQ sub))).
Proof.
  intros H. unfold check_subscriber in H. go_inv. simpl. split_and!; try done.
  - by apply is_empty_false.
  - by eapply check_target_resolves.
  - intros Hd%is_empty_false. rewrite Hd in *. go_inv. by eapply check_target_resolves.
Qed.
Lemma check_subscribers_ok pre subs : ∀ st st',
  go_fold (check_subscriber pre refs ids) st subs = Ok st' →
  NoDup (TrimSpace ∘ sub_ConsumerGroup <$> subs) ∧
  Forall (λ sub, TrimSpace (sub_ConsumerGroup sub) ∉ snd (fst st)) subs ∧
  Forall (λ sub, TrimSpace (sub_ConsumerGroup sub) ≠ "" ∧
                 resolves services (TrimSpace (sub_ConsumerTarget sub)) ∧
                 (TrimSpace (sub_DLQ sub) ≠ "" → resolves services (TrimSpace (sub_DLQ sub)))) subs.
Proof.
  induction subs as [|sub subs IH]; intros st st' H; simpl in H.
  { split_and!; constructor. }
  apply go_bind_ok in H as (st1 & H1 & H). destruct st as [[i groups] names].
  apply check_subscriber_ok in H1 as (Hg & Hn & Hst & Ht & Hd).
  destruct (IH _ _ H) as (Hnd & Hfr & Hok). rewrite Hst in Hfr. rewrite Forall_forall in Hfr. csimpl.
  split_and!.
  - apply NoDup_cons. split; [|done]. intros (s & Hs & Hin)%list_elem_of_fmap.
    apply (Hfr s Hin). unfold compose in Hs. rewrite <- Hs. set_solver.
  - apply Forall_cons. split; [done|]. apply Forall_forall. intros s Hs. specialize (Hfr s Hs).
    set_solver.
  - by apply Forall_cons.
Qed.
Lemma ValidateTopicBehavior_ok id t u :
  ValidateTopicBehavior id t refs ids = Ok u → ∃ t', t = Some t' ∧ topic_ok services t'.
Proof.
  destruct t as [t|]; [|done]. intros H. exists t. split; [done|].
  unfold ValidateTopicBehavior in H. go_inv. unfold topic_ok.
  match goal with H : go_fold _ _ _ = Ok _ |- _ => apply check_subscribers_ok in H as (?&_&?) end.
  split_and!; try done. by apply merge_capacity_nonneg.
Qed.
Lemma check_downstream_ok pre ds u :
  check_downstream refs ids (service_kind_by_id services) pre ds = Ok u → downstream_ok services ds.
Proof.
  intros H. unfold check_downstream in H. repeat (apply go_bind_ok in H as (? & ? & H)).
  repeat match goal with H : fail_if _ _ = Ok _ |- _ => apply fail_if_ok in H end.
  repeat match goal with H : wrap_err _ _ = Ok _ |- _ => apply wrap_err_ok in H end.
  unfold downstream_ok. split_and!; try done; [by eapply check_target_resolves|..].
  - intros Hk tgt Htgt. assert (tgt = x0) as -> by congruence. rewrite Hk in *. simpl in *. go_inv.
    by apply String.eqb_eq.
  - intros Hk tgt Htgt. assert (tgt = x0) as -> by congruence. rewrite Hk in *. simpl in *. go_inv.
    by apply String.eqb_eq.
Qed.
Lemma NormalizeArrivalType_ok t t' :
  NormalizeArrivalType t = Ok t' →
  t' ∈ arrivalTypes ∧ is_empty t' = false ∧ NormalizeArrivalType t' = Ok t'.
Proof.
  unfold NormalizeArrivalType at 1. destruct (is_empty _); [done|].
  case_bool_decide as Ht; [|done]. intros [= <-]. split; [exact Ht|].
  set (u := if String.eqb _ _ then _ else _) in *. clearbody u.
  repeat (apply elem_of_cons in Ht as [->|Ht]; [by vm_compute|]). by apply elem_of_nil in Ht.
Qed.
Lemma NormalizeArrivalType_value t t' :
  NormalizeArrivalType t = Ok t' → t' = if bool_decide (TrimSpace (ToLower t) = "burst") then "bursty" else TrimSpace (ToLower t).
Proof.
  unfold NormalizeArrivalType. destruct (is_empty _); [done|]. destruct (String.eqb_spec (TrimSpace (ToLower t)) "burst") as [E|E];
    [rewrite (bool_decide_eq_true_2 _ E)|rewrite (bool_decide_eq_false_2 _ E)]; case_bool_decide; congruence.
Qed.
Lemma check_workload_ok i acc wl st' :
  check_workload refs ids (i, acc) wl = Ok st' →
  ∃ wl', st' = (i + 1, acc ++ [wl']) ∧ workload_ok services wl' ∧ normalised wl wl' ∧
    (∀ j acc', check_workload refs ids (j, acc') wl' = Ok (j + 1, acc' ++ [wl'])).
Proof.
  intros H. unfold check_workload in H. apply go_bind_ok in H as (? & H1%fail_if_ok & H).
  do 2 (apply go_bind_ok in H as (? & ?%fail_if_ok & H)).
  apply go_bind_ok in H as (ty & Hty%wrap_err_ok & H). assert (Hv := NormalizeArrivalType_value _ _ Hty).
  apply NormalizeArrivalType_ok in Hty as (Ht&He&Hn).
  apply go_bind_ok in H as (? & Hr%fail_if_ok & H). apply go_bind_ok in H as (tgt & Htgt%wrap_err_ok & H).
  apply go_bind_ok in H as (? & Hc & H). injection H as <-. eexists. split; [done|]. split_and!.
  - split_and!; try done. by eapply check_target_resolves.
  - unfold normalised. by rewrite <- Hv.
  - intros j acc'. unfold check_workload. simpl in *. rewrite H1. simpl.
    repeat match goal with H : is_empty _ = false |- _ => rewrite H; clear H end. simpl.
    rewrite Hn. simpl. rewrite Hr. simpl. rewrite Htgt. simpl. destruct tgt as [a b].
    unfold check_target in Hc |- *. go_inv. rewrite !bool_decide_true by done. done.
Qed.
Lemma check_workloads_ok wls : ∀ st st',
  go_fold (check_workload refs ids) st wls = Ok st' →
  ∃ wls', snd st' = snd st ++ wls' ∧ Forall2 normalised wls wls' ∧
    Forall (workload_ok services) wls' ∧
    (∀ j acc, go_fold (check_workload refs ids) (j, acc) wls'
              = Ok (j + Z.of_nat (length wls'), acc ++ wls')).
Proof.
  induction wls as [|wl wls IH]; intros [i acc] st' H; simpl in H.
  - injection H as <-. exists []. split_and!; [by rewrite app_nil_r|done|done|].
    intros. cbn [go_fold length]. rewrite app_nil_r. do 2 f_equal. lia.
  - apply go_bind_ok in H as (st1 & H1 & H).
    apply check_workload_ok in H1 as (wl' & -> & Hok & Hnorm & Hre).
    apply IH in H as (wls' & Hs & Hl & Hall & Hrest). exists (wl' :: wls').
    simpl in *. split_and!; [by rewrite Hs, <- app_assoc|by constructor|by constructor|].
    intros. rewrite Hre. cbn [go_bind]. rewrite Hrest, <- app_assoc. do 2 f_equal. lia.
Qed.
End validation.

(** The parts of a valid scenario. *)
Definition scenario_ok (s : Scenario) : Prop :=
  scn_Hosts s ≠ [] ∧ NoDup (hs_ID <$> scn_Hosts s) ∧ Forall host_ok (scn_Hosts s) ∧
  scn_Services s ≠ [] ∧ NoDup (svc_ID <$> scn_Services s) ∧ Forall service_ok (scn_Services s) ∧
  Forall (λ svc, norm (svc_Kind svc) = "queue" →
            ∃ b q, svc_Behavior svc = Some b ∧ sb_Queue b = Some q ∧
                   queue_ok (scn_Services s) q) (scn_Services s) ∧
  Forall (λ svc, norm (svc_Kind svc) = "topic" →
            ∃ b t, svc_Behavior svc = Some b ∧ sb_Topic b = Some t ∧
                   topic_ok (scn_Services s) t) (scn_Services s) ∧
  Forall (λ svc, Forall (λ ep, Forall (downstream_ok (scn_Services s)) (ep_Downstream ep))
                   (svc_Endpoints svc)) (scn_Services s) ∧
  scn_Workload s ≠ [] ∧ Forall (workload_ok (scn_Services s)) (scn_Workload s).

Lemma nil_check_ok {A} (l : list A) : match l with [] => true | _ => false end = false ↔ l ≠ [].
Proof. destruct l; naive_solver. Qed.

(** What acceptance means. *)
Lemma validate_scenario_ok s s' :
  Forall (λ svc, no_colon (svc_ID svc)) (scn_Services s) →
  ValidateScenario s = Ok s' →
  scenario_ok s' ∧ s' = s <| scn_Workload := scn_Workload s' |> ∧
  Forall2 normalised (scn_Workload s) (scn_Workload s') ∧ ValidateScenario s' = Ok s'.
Proof.
  intros Hc H. unfold ValidateScenario in H.
  apply go_bind_ok in H as ([] & Hlim & H). apply go_bind_ok in H as ([] & Hh & H).
  apply go_bind_ok in H as (hs & Hhosts & H). apply go_bind_ok in H as ([] & Hs & H).
  apply go_bind_ok in H as (ids & Hsvcs & H). apply go_bind_ok in H as ([] & Hq & H).
  apply go_bind_ok in H as ([] & Ht & H). apply go_bind_ok in H as ([] & Hd & H).
  apply go_bind_ok in H as ([] & Hw & H). apply go_bind_ok in H as (wls & Hwls & H).
  injection H as <-.
  destruct (check_workloads_ok _ _ Hc _ _ _ Hwls) as (wls' & Hs' & Hl & Hok & Hre).
  simpl in Hs'. rewrite Hs' in *. split; [|split; [done|split; [done|]]].
  - apply fail_if_ok, nil_check_ok in Hh, Hs, Hw.
    destruct (go_fold_collect _ _ _ check_host_ok _ _ _ Hhosts) as (?&_&?&_).
    destruct (go_fold_collect _ _ _ check_service_ok _ _ _ Hsvcs) as (?&_&?&_).
    apply go_each_ok in Hq, Ht, Hd.
    unfold scenario_ok. simpl. split_and!; try done.
    + eapply Forall_impl; [exact Hq|]. intros svc Hv Hk. unfold check_queue_service in Hv.
      rewrite Hk in Hv. apply ValidateQueueBehavior_ok in Hv as (q & Hb & ?); [|done].
      destruct (svc_Behavior svc) as [b|]; [|done]. by exists b, q.
    + eapply Forall_impl; [exact Ht|]. intros svc Hv Hk. unfold check_topic_service in Hv.
      rewrite Hk in Hv. apply ValidateTopicBehavior_ok in Hv as (q & Hb & ?); [|done].
      destruct (svc_Behavior svc) as [b|]; [|done]. by exists b, q.
    + eapply Forall_impl; [exact Hd|]. intros svc Hv. unfold check_downstreams in Hv.
      apply go_each_ok in Hv. eapply Forall_impl; [exact Hv|]. intros ep He.
      apply go_each_ok in He. eapply Forall_impl; [exact He|]. intros ds.
      by apply check_downstream_ok.
    + intros ->. by apply Forall2_nil_inv_r in Hl.
  - unfold ValidateScenario. simpl. rewrite Hlim. simpl. rewrite Hh. simpl. rewrite Hhosts. simpl.
    rewrite Hs. simpl. rewrite Hsvcs. simpl. rewrite Hq. simpl. rewrite Ht. simpl. rewrite Hd. simpl.
    rewrite Hre. destruct wls' as [|w wls']; [|done].
    apply Forall2_nil_inv_r in Hl. by rewrite Hl in Hw.
Qed.

(** C32: An accepted scenario is well formed when no service ID contains a colon:
    host and service IDs are unique, counts are positive, queue and topic
    services carry usable behaviour, and every downstream call, workload,
    consumer and dead-letter target names an existing endpoint; the returned
    scenario is the given one with the arrival type of each workload pattern
    normalised and nothing else changed, and validating it again accepts it
    unchanged. *)
Theorem validate_scenario_sound s s' :
  Forall (λ svc, no_colon (svc_ID svc)) (scn_Services s) →
  ValidateScenario s = Ok s' →
  scenario_ok s' ∧ s' = s <| scn_Workload := scn_Workload s' |> ∧
  Forall2 normalised (scn_Workload s) (scn_Workload s') ∧ ValidateScenario s' = Ok s'.
Proof. apply validate_scenario_ok. Qed.

(** A small scenario: a gateway calling a queue whose consumer is a worker. *)
Definition lat0 : LatencySpec := mkLatency f0 f0.
Definition sample_endpoint (path : string) (calls : list DownstreamCall) : Endpoint :=
  mkEndpoint path f1 f0 f0 f0 f0 lat0 0 None calls lat0.
Definition sample_service (id kind : string) (b : option ServiceBehavior) (eps : list Endpoint)
    : Service := mkService id kind "" 1 "cpu" f1 f0 None None b None None eps.
Definition sample_call (to kind : string) : DownstreamCall :=
  mkDownstream to "" kind f0 f0 lat0 f0 f0 None f0 "" "".
Definition sample_queue : QueueBehavior :=
  mkQueueBehavior 5 2 0 0 " worker:/job " lat0 f0 0 "" "drop_oldest" false.
Definition sample_workload (to : string) : WorkloadPattern :=
  mkWorkload "client" "" "" ∅ to (mkArrival " Burst" f1 f0 f0 f0 f0).
Definition sample_scenario : Scenario :=
  mkScenario None None None [mkHostSpec "h1" 4 16 "z1" ∅]
    [sample_service "gw" "api_gateway" None [sample_endpoint "/" [sample_call "q:/in" "queue"]];
     sample_service "q" "Queue" (Some (mkServiceBehavior f0 f0 0 None (Some sample_queue) None))
       [sample_endpoint "/in" []];
     sample_service "worker" "" None [sample_endpoint "/job" []]]
    [sample_workload "gw"] None.
Definition sample_scenario_normalised : Scenario :=
  sample_scenario <| scn_Workload :=
    [mkWorkload "client" "" "" ∅ "gw" (mkArrival "bursty" f1 f0 f0 f0 f0)] |>.
Lemma validate_scenario_sound_witness :
  ValidateScenario sample_scenario = Ok sample_scenario_normalised ∧
  scenario_ok sample_scenario_normalised.
Proof.
  assert (E : ValidateScenario sample_scenario = Ok sample_scenario_normalised)
    by (vm_compute; reflexivity).
  split; [exact E|].
  refine (proj1 (validate_scenario_sound sample_scenario sample_scenario_normalised _ E)).
  repeat constructor.
Defined.

(** Without that proviso validation is not enough: with a service "a:b" that
    has endpoint "/x" and a service "a", the workload target "a:b:/x" is
    accepted although it names the missing endpoint "b:/x" of service "a". *)
Theorem validate_accepts_dangling_target :
  let s := mkScenario None None None [mkHostSpec "h1" 4 16 "z1" ∅]
             [sample_service "a" "" None [sample_endpoint "/" []];
              sample_service "a:b" "" None [sample_endpoint "/x" []]]
             [sample_workload "a:b:/x"] None in
  (∃ s', ValidateScenario s = Ok s') ∧ ¬ resolves (scn_Services s) "a:b:/x".
Proof.
  split; [eexists; vm_compute; reflexivity|].
  intros (svc & ep & Hs & He & Hp). vm_compute in Hp.
  simpl in Hs. apply elem_of_cons in Hs as [->|[->|[]%not_elem_of_nil]%elem_of_cons];
    simpl in He; apply elem_of_cons in He as [->|[]%not_elem_of_nil]; discriminate Hp.
Qed.
