(* ===== verification/Graph.v ===== *)
(** [internal/interaction]: the service graph with its check for synchronous
    cycles, the resolution of downstream targets and the branching strategies.
    [order] is the order in which the check iterates over the endpoint map. *)
From S2P Require Import Prelude GoFloat Config.
From Stdlib Require Import SpecFloat.
#[local] Open Scope string_scope.
#[local] Open Scope list_scope.
#[local] Open Scope Z_scope.

(** * Data *)

Record Edge := mkEdge {
  ed_FromServiceID : string;
  ed_FromPath : string;
  ed_ToServiceID : string;
  ed_ToPath : string;
  ed_Call : DownstreamCall;
}.
Record Graph := mkGraph {
  gr_services : gmap string Service;
  gr_endpoints : gmap string Endpoint;
  gr_edges : gmap string (list Edge);
}.
#[export] Instance eta_Graph : Eta Graph :=
  λ r, mkGraph (gr_services r) (gr_endpoints r) (gr_edges r).
Record ResolvedCall := mkResolvedCall {
  rc_ServiceID : string;
  rc_Path : string;
  rc_Call : DownstreamCall;
}.

Definition endpointKey (serviceID path : string) : string := serviceID +:+ ":" +:+ path.
Definition ParseDownstreamTarget (target : string) : go (string * string) :=
  let target := TrimSpace target in
  if is_empty target then Fail "downstream target cannot be empty"
  else
    match cut_colon target with
    | Some (a, b) =>
        let serviceID := TrimSpace a in
        let path := TrimSpace b in
        if is_empty serviceID then
          Fail ("invalid downstream target format: " +:+ target +:+ " (serviceID must be non-empty)")
        else if is_empty path then
          Fail ("invalid downstream target format: " +:+ target +:+ " (path must be non-empty)")
        else Ok (serviceID, path)
    | None => Ok (target, "/")
    end.

(** * Construction *)

Definition add_service (g : Graph) (svc : Service) : Graph :=
  let g := g <| gr_services := <[svc_ID svc := svc]> (gr_services g) |> in
  foldl (λ g ep, g <| gr_endpoints :=
    <[endpointKey (svc_ID svc) (ep_Path ep) := ep]> (gr_endpoints g) |>) g (svc_Endpoints svc).
Definition Graph_createEdge (fromServiceID fromPath : string) (call : DownstreamCall) (g : Graph)
    : go Edge :=
  let! t := wrap_err ("invalid downstream target " +:+ Quote (ds_To call) +:+ ": ")
              (ParseDownstreamTarget (ds_To call)) in
  match gr_services g !! fst t with
  | None => Fail ("downstream service " +:+ Quote (fst t) +:+ " does not exist")
  | Some _ => Ok (mkEdge fromServiceID fromPath (fst t) (snd t) call)
  end.
Definition add_edge (svc : Service) (ep : Endpoint) (g : Graph) (ds : DownstreamCall) : go Graph :=
  let key := endpointKey (svc_ID svc) (ep_Path ep) in
  let! edge := wrap_err ("failed to create edge from " +:+ key +:+ ": ")
                 (Graph_createEdge (svc_ID svc) (ep_Path ep) ds g) in
  Ok (g <| gr_edges := <[key := default [] (gr_edges g !! key) ++ [edge]]> (gr_edges g) |>).
Definition add_service_edges (g : Graph) (svc : Service) : go Graph :=
  go_fold (λ g ep, go_fold (add_edge svc ep) g (ep_Downstream ep)) g (svc_Endpoints svc).

(** * The search for synchronous cycles *)

(** The maps [visited] and [recStack], as the sets of the keys they map to true. *)
Definition DfsState : Type := gset string * gset string.
Definition edge_target (e : Edge) : string := endpointKey (ed_ToServiceID e) (ed_ToPath e).
(** The loop over the edges of [key]; [visit] is the recursive call. The result
    is [None] when the fuel runs out. *)
Fixpoint dfs_edges (visit : string → DfsState → option (go DfsState)) (key : string)
    (edges : list Edge) (st : DfsState) : option (go DfsState) :=
  match edges with
  | [] => Some (Ok st)
  | edge :: edges =>
      if DownstreamCall_IsAsync (ed_Call edge) then dfs_edges visit key edges st
      else
        let toKey := edge_target edge in
        if bool_decide (toKey ∈ fst st) then
          if bool_decide (toKey ∈ snd st) then
            Some (Fail ("cycle detected: " +:+ key +:+ " -> " +:+ toKey))
          else dfs_edges visit key edges st
        else
          match visit toKey st with
          | Some (Ok st) => dfs_edges visit key edges st
          | r => r
          end
  end.
Fixpoint Graph_dfs (fuel : nat) (g : Graph) (key : string) (st : DfsState)
    : option (go DfsState) :=
  match fuel with
  | O => None
  | S fuel =>
      let st := ({[key]} ∪ fst st, {[key]} ∪ snd st) in
      match dfs_edges (Graph_dfs fuel g) key (default [] (gr_edges g !! key)) st with
      | Some (Ok st) => Some (Ok (fst st, snd st ∖ {[key]}))
      | r => r
      end
  end.
Fixpoint dfs_all (fuel : nat) (g : Graph) (order : list string) (st : DfsState)
    : option (go DfsState) :=
  match order with
  | [] => Some (Ok st)
  | key :: order =>
      if bool_decide (key ∈ fst st) then dfs_all fuel g order st
      else
        match Graph_dfs fuel g key st with
        | Some (Ok st) => dfs_all fuel g order st
        | r => r
        end
  end.
(** The endpoints and the targets of edges: the search visits no other key. *)
Definition graph_nodes (g : Graph) : gset string :=
  dom (gr_endpoints g) ∪ list_to_set (map_to_list (gr_edges g) ≫= λ kv, edge_target <$> snd kv).
Definition Graph_validateSyncAcyclic (order : list string) (g : Graph) : option (go unit) :=
  match dfs_all (S (size (graph_nodes g))) g order (∅, ∅) with
  | Some (Ok _) => Some (Ok tt)
  | Some (Fail e) => Some (Fail e)
  | Some Panic => Some Panic
  | None => None
  end.
(** The graph before the cycle check. *)
Definition build_graph (scenario : Scenario) : go Graph :=
  let g := foldl add_service (mkGraph ∅ ∅ ∅) (scn_Services scenario) in
  go_fold add_service_edges g (scn_Services scenario).
Definition NewGraph (order : list string) (scenario : Scenario) : option (go Graph) :=
  match build_graph scenario with
  | Ok g =>
      match Graph_validateSyncAcyclic order g with
      | Some r =>
          Some (wrap_err "service graph contains synchronous cycles: " r ;;! Ok g)
      | None => None
      end
  | Fail e => Some (Fail e)
  | Panic => Some Panic
  end.

(** * Queries *)

Definition Graph_GetDownstreamEdges (serviceID path : string) (g : Graph) : list Edge :=
  default [] (gr_edges g !! endpointKey serviceID path).
Definition Graph_ResolveDownstreamCalls (serviceID path : string) (g : Graph) : list ResolvedCall :=
  (λ e, mkResolvedCall (ed_ToServiceID e) (ed_ToPath e) (ed_Call e)) <$>
    filter (λ e, is_Some (gr_services g !! ed_ToServiceID e)) (Graph_GetDownstreamEdges serviceID path g).
Definition Graph_ValidateDownstreamTarget (target : string) (g : Graph) : go unit :=
  let! t := ParseDownstreamTarget target in
  match gr_services g !! fst t with
  | None => Fail ("downstream service " +:+ Quote (fst t) +:+ " does not exist")
  | Some _ => Ok tt
  end.

(** * Branching *)

(** A generator state: the draws of [rng.Float64] still to come. *)
Definition Rng : Type := nat → float64.
Definition rng_Float64 (rng : Rng) : float64 * Rng := (rng 0%nat, λ n, rng (S n)).
(** The number of copies of one call, and the generator after it. *)
Definition call_copies (c : DownstreamCall) (rng : Rng) : nat * Rng :=
  let prob := ds_Probability c in
  let prob := if fleb prob f0 then f1 else prob in
  let prob := if fltb f1 prob then f1 else prob in
  let '(skip, rng) :=
    if fltb prob f1 then let '(x, rng) := rng_Float64 rng in (fleb prob x, rng) else (false, rng) in
  if skip : bool then (0%nat, rng)
  else
    let countMean := if fleb (ds_CallCountMean c) f0 then f1 else ds_CallCountMean c in
    let base := f64_to_int (math_Floor countMean) in
    let frac := fsub countMean (f64_of_Z base) in
    let '(extra, rng) :=
      if fltb f0 frac then let '(x, rng) := rng_Float64 rng in (fltb x frac, rng) else (false, rng) in
    (Z.to_nat (if extra : bool then wrap64 (base + 1) else base), rng).
Fixpoint DefaultBranchingStrategy_SelectCalls (calls : list ResolvedCall) (rng : Rng)
    : list ResolvedCall * Rng :=
  match calls with
  | [] => ([], rng)
  | call :: calls =>
      let '(count, rng) := call_copies (rc_Call call) rng in
      let '(selected, rng) := DefaultBranchingStrategy_SelectCalls calls rng in
      (replicate count call ++ selected, rng)
  end.
(** [math.Min(countMean, 1.0)]. *)
Definition min1 (x : float64) : float64 := if is_nan x then x else if fltb x f1 then x else f1.
Fixpoint ProbabilisticBranchingStrategy_SelectCalls (probabilities : gmap string float64)
    (calls : list ResolvedCall) (rng : Rng) : list ResolvedCall * Rng :=
  match calls with
  | [] => ([], rng)
  | call :: calls =>
      let prob :=
        match probabilities !! endpointKey (rc_ServiceID call) (rc_Path call) with
        | Some p => p
        | None =>
            let countMean := ds_CallCountMean (rc_Call call) in
            min1 (if fleb countMean f0 then f1 else countMean)
        end in
      let '(x, rng) := rng_Float64 rng in
      let '(selected, rng) := ProbabilisticBranchingStrategy_SelectCalls probabilities calls rng in
      (if fltb x prob then call :: selected else selected, rng)
  end.

(** * Correctness of the cycle check *)

(** A synchronous call from endpoint [a] to endpoint [b]. *)
Definition sync_edge (g : Graph) (a b : string) : Prop :=
  ∃ e, e ∈ default [] (gr_edges g !! a) ∧ DownstreamCall_IsAsync (ed_Call e) = false ∧
       edge_target e = b.
(** No synchronous path from [a] returns to a key on it: everything called from
    [a] is well-founded. *)
Definition sync_acc (g : Graph) : string → Prop := Acc (λ b a, sync_edge g a b).
Lemma sync_acc_no_cycle g a : sync_acc g a → ¬ tc (sync_edge g) a a.
Proof.
  intros H. induction H as [a _ IH]. intros Hc.
  inversion Hc as [x y Hxy|x y z Hxy Hyz]; subst; [by apply (IH a)|].
  apply (IH y Hxy). by apply tc_r with a.
Qed.

(** ** Accepted graphs have no cycle *)

(** Finished keys, visited but not on the stack, call well-founded keys only. *)
Definition dfs_inv (g : Graph) (st : DfsState) : Prop :=
  snd st ⊆ fst st ∧ ∀ u, u ∈ fst st → u ∉ snd st → sync_acc g u.
(** A call of the search that succeeds keeps the stack, visits [key] and keeps
    the invariant. *)
Definition dfs_sound (g : Graph) (visit : string → DfsState → option (go DfsState)) : Prop :=
  ∀ key st st', key ∉ fst st → dfs_inv g st → visit key st = Some (Ok st') →
    dfs_inv g st' ∧ snd st' = snd st ∧ fst st ⊆ fst st' ∧ key ∈ fst st'.
Lemma dfs_edges_sound g visit key : dfs_sound g visit → ∀ edges st st',
  dfs_inv g st → dfs_edges visit key edges st = Some (Ok st') →
  dfs_inv g st' ∧ snd st' = snd st ∧ fst st ⊆ fst st' ∧
  ∀ e, e ∈ edges → DownstreamCall_IsAsync (ed_Call e) = false → sync_acc g (edge_target e).
Proof.
  intros Hv. induction edges as [|e edges IH]; intros st st' Hi; cbn [dfs_edges].
  { intros [= <-]. split_and!; [exact Hi|reflexivity|reflexivity|]. by intros e ?%elem_of_nil. }
  destruct (DownstreamCall_IsAsync (ed_Call e)) eqn:Ea.
  { intros (H1 & H2 & H3 & H4)%IH; [|done]. split_and!; [exact H1|exact H2|exact H3|].
    intros e' [->|He]%elem_of_cons; [congruence|exact (H4 e' He)]. }
  case_bool_decide as Hvis; [case_bool_decide as Hrec; [discriminate|]|].
  - intros (H1 & H2 & H3 & H4)%IH; [|done]. split_and!; [exact H1|exact H2|exact H3|].
    intros e' [->|He]%elem_of_cons; [intros _|exact (H4 e' He)]. exact (proj2 Hi _ Hvis Hrec).
  - destruct (visit (edge_target e) st) as [[st1| |]|] eqn:E1; [|discriminate..].
    destruct (Hv _ _ _ Hvis Hi E1) as (Hi1 & Hs1 & Hm1 & Hk1).
    intros (H1 & H2 & H3 & H4)%IH; [|done]. split_and!; [exact H1|congruence|by etrans|].
    intros e' [->|He]%elem_of_cons; [intros _|exact (H4 e' He)]. apply (proj2 Hi1 _ Hk1). rewrite Hs1.
    intros Hin. by apply Hvis, Hi.
Qed.
Lemma dfs_sound_ok g fuel : dfs_sound g (Graph_dfs fuel g).
Proof.
  induction fuel as [|fuel IH]; intros key [V R] st' Hk [Hsub Hacc]; cbn [Graph_dfs fst snd] in *; [done|].
  destruct (dfs_edges _ _ _ _) as [[[V1 R1]| |]|] eqn:E; [|discriminate..]. intros [= <-].
  apply (dfs_edges_sound g _ key IH) in E as (Hi & Hs & Hm & He); cbn [fst snd] in *; cycle 1.
  { split; cbn [fst snd]; [set_solver|]. intros u Hu Hn. apply Hacc; set_solver. }
  subst R1. destruct Hi as [Hsub1 Hacc1]. cbn [fst snd] in *.
  assert (HkR : key ∉ R) by (intros ?; apply Hk; set_solver).
  split_and!; [split; cbn [fst snd]| |set_solver|set_solver].
  - set_solver.
  - intros u Hu Hn. destruct (decide (u = key)) as [->|Hne]; [|apply Hacc1; set_solver].
    constructor. intros b (e & Hin & Ha & <-). exact (He e Hin Ha).
  - set_solver.
Qed.
Lemma dfs_all_sound g fuel order : ∀ st st',
  dfs_inv g st → dfs_all fuel g order st = Some (Ok st') →
  dfs_inv g st' ∧ snd st' = snd st ∧ fst st ⊆ fst st' ∧ ∀ k, k ∈ order → k ∈ fst st'.
Proof.
  induction order as [|k order IH]; intros st st' Hi; cbn [dfs_all].
  { intros [= <-]. split_and!; [exact Hi|reflexivity|reflexivity|]. by intros k ?%elem_of_nil. }
  case_bool_decide as Hk.
  - intros (H1 & H2 & H3 & H4)%IH; [|done]. split_and!; [exact H1|exact H2|exact H3|].
    intros k' [->|?]%elem_of_cons; auto.
  - destruct (Graph_dfs fuel g k st) as [[st1| |]|] eqn:E1; [|discriminate..].
    destruct (dfs_sound_ok g fuel _ _ _ Hk Hi E1) as (Hi1 & Hs1 & Hm1 & Hk1).
    intros (H1 & H2 & H3 & H4)%IH; [|done]. split_and!; [exact H1|congruence|by etrans|].
    intros k' [->|?]%elem_of_cons; auto.
Qed.

(** ** Rejected graphs have a cycle *)

(** A call of the search that fails, with every key on the stack calling [key],
    has found a cycle. *)
Definition dfs_complete (g : Graph) (visit : string → DfsState → option (go DfsState)) : Prop :=
  ∀ key st e, dfs_inv g st → (∀ r, r ∈ snd st → rtc (sync_edge g) r key) →
    visit key st = Some (Fail e) → ∃ a, tc (sync_edge g) a a.
Lemma dfs_edges_complete g visit key : dfs_sound g visit → dfs_complete g visit → ∀ edges st e,
  (∀ x, x ∈ edges → x ∈ default [] (gr_edges g !! key)) →
  dfs_inv g st → (∀ r, r ∈ snd st → rtc (sync_edge g) r key) →
  dfs_edges visit key edges st = Some (Fail e) → ∃ a, tc (sync_edge g) a a.
Proof.
  intros Hs Hc. induction edges as [|x edges IH]; intros st e Hin Hi Hr; cbn [dfs_edges]; [done|].
  assert (Hin' : ∀ y, y ∈ edges → y ∈ default [] (gr_edges g !! key)) by (intros; apply Hin; by right).
  destruct (DownstreamCall_IsAsync (ed_Call x)) eqn:Ea; [by apply IH|].
  assert (He : sync_edge g key (edge_target x)) by (exists x; split_and!; [apply Hin; by left|done|done]).
  case_bool_decide as Hvis; [case_bool_decide as Hrec|].
  - intros _. exists key. eapply tc_rtc_r; [by apply tc_once|]. by apply Hr.
  - by apply IH.
  - destruct (visit (edge_target x) st) as [[st1|e1|]|] eqn:E1; try done.
    + destruct (Hs _ _ _ Hvis Hi E1) as (Hi1 & Hs1 & _ & _). apply IH; [done|done|]. by rewrite Hs1.
    + intros _. eapply Hc; [exact Hi| |exact E1]. intros r Hrr. by eapply rtc_r; [apply Hr|].
Qed.
Lemma dfs_inv_enter g key st :
  dfs_inv g st → dfs_inv g ({[key]} ∪ fst st, {[key]} ∪ snd st).
Proof.
  intros [Hsub Hacc]. split; cbn [fst snd]; [set_solver|]. intros u Hu Hn. apply Hacc; set_solver.
Qed.
(** The search fails only on a cycle. *)
Lemma dfs_complete_ok g fuel : ∀ key st e,
  dfs_inv g st → (∀ r, r ∈ snd st → rtc (sync_edge g) r key) →
  Graph_dfs fuel g key st = Some (Fail e) → ∃ a, tc (sync_edge g) a a.
Proof.
  induction fuel as [|fuel IH]; intros key st e Hi Hr; cbn [Graph_dfs]; [discriminate|].
  destruct (dfs_edges _ _ _ _) as [[st1|e1|]|] eqn:E; [discriminate| |discriminate..]. intros _.
  eapply dfs_edges_complete; [apply dfs_sound_ok|exact IH| |by apply dfs_inv_enter| |exact E].
  - done.
  - cbn [snd]. intros r [Heq%elem_of_singleton|Hrr]%elem_of_union; [by subst r|by apply Hr].
Qed.
Lemma dfs_all_complete g fuel order : ∀ st e,
  dfs_inv g st → snd st = ∅ → dfs_all fuel g order st = Some (Fail e) → ∃ a, tc (sync_edge g) a a.
Proof.
  induction order as [|k order IH]; intros st e Hi Hs; cbn [dfs_all]; [discriminate|].
  case_bool_decide as Hk; [by apply IH|].
  destruct (Graph_dfs fuel g k st) as [[st1|e1|]|] eqn:E1; [| |discriminate..].
  - destruct (dfs_sound_ok g fuel _ _ _ Hk Hi E1) as (Hi1 & Hs1 & _). apply IH; [done|congruence].
  - intros _. eapply dfs_complete_ok; [exact Hi| |exact E1]. rewrite Hs. set_solver.
Qed.

(** ** The search terminates *)

(** Keys not visited yet. *)
Definition unvisited (g : Graph) (st : DfsState) : nat := size (graph_nodes g ∖ fst st).
Lemma edge_target_node g key e :
  e ∈ default [] (gr_edges g !! key) → edge_target e ∈ graph_nodes g.
Proof.
  intros He. apply elem_of_union_r, elem_of_list_to_set, list_elem_of_bind.
  destruct (gr_edges g !! key) as [l|] eqn:El; cbn in He; [|by apply elem_of_nil in He].
  exists (key, l). split; [by apply list_elem_of_fmap_2|]. by apply elem_of_map_to_list.
Qed.
Lemma unvisited_mono g st st' : fst st ⊆ fst st' → (unvisited g st' ≤ unvisited g st)%nat.
Proof. intros. unfold unvisited. apply subseteq_size. set_solver. Qed.
Lemma unvisited_enter g key st R :
  key ∈ graph_nodes g → key ∉ fst st → (S (unvisited g ({[key]} ∪ fst st, R)) ≤ unvisited g st)%nat.
Proof.
  intros Hk Hn. unfold unvisited. cbn [fst].
  assert (Hsub : graph_nodes g ∖ ({[key]} ∪ fst st) ⊂ graph_nodes g ∖ fst st).
  { split; [set_solver|]. intros Hc. specialize (Hc key). set_solver. }
  apply subset_size in Hsub. lia.
Qed.
(** A call of the search returns and, if it succeeds, forgets no visited key. *)
Definition dfs_returns (g : Graph) (n : nat) (visit : string → DfsState → option (go DfsState)) : Prop :=
  ∀ key st, key ∈ graph_nodes g → key ∉ fst st → (unvisited g st ≤ n)%nat →
    ∃ r, visit key st = Some r ∧ r ≠ Panic ∧ ∀ st', r = Ok st' → fst st ⊆ fst st'.
Lemma dfs_edges_returns g n visit key : dfs_returns g n visit → ∀ edges st,
  (∀ e, e ∈ edges → edge_target e ∈ graph_nodes g) → (unvisited g st ≤ n)%nat →
  ∃ r, dfs_edges visit key edges st = Some r ∧ r ≠ Panic ∧ ∀ st', r = Ok st' → fst st ⊆ fst st'.
Proof.
  intros Hv. induction edges as [|e edges IH]; intros st Hin Hn; cbn [dfs_edges].
  { eexists. split_and!; [reflexivity|discriminate|]. by intros st' [= <-]. }
  assert (Hin' : ∀ x, x ∈ edges → edge_target x ∈ graph_nodes g) by (intros; apply Hin; by right).
  case_match; [by apply IH|]. case_bool_decide as Hvis; [case_bool_decide|].
  - eexists. split_and!; [reflexivity|discriminate|]. intros st' [=].
  - by apply IH.
  - destruct (Hv (edge_target e) st) as (r & -> & Hp & Hm); [apply Hin; by left|done|done|].
    destruct r as [st1|e1|]; [|eexists; split_and!; [reflexivity|discriminate|]; intros st' [=]|done].
    specialize (Hm st1 eq_refl). destruct (IH st1 Hin') as (r & E & Hp' & Hm').
    { pose proof (unvisited_mono g st st1 Hm). lia. }
    exists r. split_and!; [done|done|]. intros st' Hr. etrans; [exact Hm|by apply Hm'].
Qed.
Lemma dfs_returns_ok g fuel : dfs_returns g fuel (Graph_dfs (S fuel) g).
Proof.
  induction fuel as [|fuel IH]; intros key st Hk Hn Hle.
  { pose proof (unvisited_enter g key st ∅ Hk Hn). lia. }
  pose proof (unvisited_enter g key st ({[key]} ∪ snd st) Hk Hn) as Hlt.
  destruct (dfs_edges_returns g fuel _ key IH (default [] (gr_edges g !! key))
    ({[key]} ∪ fst st, {[key]} ∪ snd st)) as (r & E & Hp & Hm); [|lia|].
  { intros e. apply edge_target_node. }
  change (Graph_dfs (S (S fuel)) g key st) with
    (match dfs_edges (Graph_dfs (S fuel) g) key (default [] (gr_edges g !! key))
             ({[key]} ∪ fst st, {[key]} ∪ snd st) with
     | Some (Ok st) => Some (Ok (fst st, snd st ∖ {[key]})) | r => r end).
  rewrite E. destruct r as [st1|e1|]; [|by exists (Fail e1)|done].
  eexists. split_and!; [reflexivity|discriminate|]. intros st' [= <-]. cbn [fst].
  specialize (Hm st1 eq_refl). cbn [fst] in Hm. set_solver.
Qed.
Lemma dfs_all_returns g order : ∀ st,
  (∀ k, k ∈ order → k ∈ graph_nodes g) →
  ∃ r, dfs_all (S (size (graph_nodes g))) g order st = Some r ∧ r ≠ Panic.
Proof.
  induction order as [|k order IH]; intros st Hin; cbn [dfs_all].
  { eexists. split; [reflexivity|discriminate]. }
  assert (Hin' : ∀ x, x ∈ order → x ∈ graph_nodes g) by (intros; apply Hin; by right).
  case_bool_decide as Hk; [by apply IH|].
  destruct (dfs_returns_ok g (size (graph_nodes g)) k st) as (r & -> & Hp & _);
    [apply Hin; by left|done|apply subseteq_size; set_solver|].
  destruct r as [st1|e1|]; [by apply IH| |done]. by exists (Fail e1).
Qed.
(** The check returns; it accepts exactly the graphs without a synchronous cycle. *)
Lemma validate_acyclic_spec order g :
  (∀ k, k ∈ order ↔ is_Some (gr_endpoints g !! k)) →
  (∀ k, is_Some (gr_edges g !! k) → is_Some (gr_endpoints g !! k)) →
  (Graph_validateSyncAcyclic order g = Some (Ok tt) ∧ ∀ a, ¬ tc (sync_edge g) a a) ∨
  ((∃ e, Graph_validateSyncAcyclic order g = Some (Fail e)) ∧ ∃ a, tc (sync_edge g) a a).
Proof.
  intros Hord Hsrc. unfold Graph_validateSyncAcyclic.
  assert (H0 : dfs_inv g (∅, ∅)) by (split; cbn [fst snd]; [set_solver|intros u Hu; set_solver]).
  destruct (dfs_all_returns g order (∅, ∅)) as (r & E & Hp).
  { intros k Hk%Hord. apply elem_of_union_l. by apply elem_of_dom. }
  rewrite E. destruct r as [st|e|]; [left|right|done].
  - destruct (dfs_all_sound g _ _ _ _ H0 E) as ([_ Hacc] & Hs & _ & Hall). split; [reflexivity|].
    assert (Hno : ∀ a, is_Some (gr_endpoints g !! a) → ¬ tc (sync_edge g) a a).
    { intros a Ha. apply sync_acc_no_cycle, Hacc; [by apply Hall, Hord|]. rewrite Hs. cbn. set_solver. }
    intros a Ha. apply (Hno a); [|exact Ha]. apply Hsrc.
    assert (∃ b, sync_edge g a b) as (b & e & He & _) by (inversion Ha; subst; eauto).
    destruct (gr_edges g !! a); [done|by apply elem_of_nil in He].
  - split; [by exists e|]. by eapply dfs_all_complete.
Qed.

(** * The graph of a scenario *)

(** A downstream call with the endpoint that makes it. *)
Definition Call : Type := Service * Endpoint * DownstreamCall.
Definition call_key (c : Call) : string := endpointKey (svc_ID c.1.1) (ep_Path c.1.2).
Definition all_calls (scn : Scenario) : list Call :=
  scn_Services scn ≫= λ svc, svc_Endpoints svc ≫= λ ep, (λ ds, (svc, ep, ds)) <$> ep_Downstream ep.
Definition call_edge (c : Call) : option Edge :=
  match ParseDownstreamTarget (ds_To c.2) with
  | Ok (s, p) => Some (mkEdge (svc_ID c.1.1) (ep_Path c.1.2) s p c.2)
  | _ => None
  end.
(** The target of the call is well formed and names a service. *)
Definition call_resolves (scn : Scenario) (c : Call) : Prop :=
  ∃ s p svc, ParseDownstreamTarget (ds_To c.2) = Ok (s, p) ∧ svc ∈ scn_Services scn ∧ svc_ID svc = s.
(** A synchronous call of the scenario from key [a] to key [b]. *)
Definition calls_sync (scn : Scenario) (a b : string) : Prop :=
  ∃ c e, c ∈ all_calls scn ∧ call_key c = a ∧ DownstreamCall_IsAsync c.2 = false ∧
         call_edge c = Some e ∧ edge_target e = b.
Definition is_endpoint (scn : Scenario) (k : string) : Prop :=
  ∃ svc ep, svc ∈ scn_Services scn ∧ ep ∈ svc_Endpoints svc ∧ k = endpointKey (svc_ID svc) (ep_Path ep).

Lemma go_fold_bind {A B S} (f : S → B → go S) (h : A → list B) l : ∀ s,
  go_fold f s (l ≫= h) = go_fold (λ s x, go_fold f s (h x)) s l.
Proof.
  assert (Happ : ∀ l1 l2 s, go_fold f s (l1 ++ l2) = go_bind (go_fold f s l1) (λ s, go_fold f s l2)).
  { induction l1 as [|x l1 IH]; intros l2 s; cbn; [done|]. destruct (f s x); cbn; [apply IH|done|done]. }
  induction l as [|x l IH]; intros s; csimpl; [done|]. rewrite Happ.
  destruct (go_fold f s (h x)); cbn; [apply IH|done|done].
Qed.
Lemma go_fold_fmap {A B S} (f : S → B → go S) (h : A → B) l : ∀ s,
  go_fold f s (h <$> l) = go_fold (λ s x, f s (h x)) s l.
Proof. induction l as [|x l IH]; intros s; csimpl; [done|]. by destruct (f s (h x)); cbn. Qed.
Lemma go_fold_ext {A S} (f f' : S → A → go S) l : (∀ s x, f s x = f' s x) → ∀ s,
  go_fold f s l = go_fold f' s l.
Proof. intros Hf. induction l as [|x l IH]; intros s; cbn; [done|]. rewrite Hf. by destruct (f' s x); cbn. Qed.
Definition add_call (g : Graph) (c : Call) : go Graph := add_edge c.1.1 c.1.2 g c.2.
Lemma build_graph_calls scn :
  build_graph scn = go_fold add_call (foldl add_service (mkGraph ∅ ∅ ∅) (scn_Services scn)) (all_calls scn).
Proof.
  unfold build_graph, all_calls. rewrite go_fold_bind. apply go_fold_ext. intros g svc.
  rewrite go_fold_bind. apply go_fold_ext. intros g' ep. by rewrite go_fold_fmap.
Qed.

(** ** Services and endpoints *)

Lemma add_service_services svc g s :
  gr_services (add_service g svc) !! s = if decide (svc_ID svc = s) then Some svc else gr_services g !! s.
Proof.
  unfold add_service. assert (H : ∀ eps g, gr_services (foldl (λ g ep, g <| gr_endpoints :=
    <[endpointKey (svc_ID svc) (ep_Path ep) := ep]> (gr_endpoints g) |>) g eps) = gr_services g).
  { induction eps as [|ep eps IH]; intros g'; cbn; [done|]. by rewrite IH. }
  rewrite H. cbn. case_decide; subst; [by rewrite lookup_insert_eq|by rewrite lookup_insert_ne].
Qed.
Lemma add_service_endpoints svc g k :
  is_Some (gr_endpoints (add_service g svc) !! k) ↔
  is_Some (gr_endpoints g !! k) ∨
  ∃ ep, ep ∈ svc_Endpoints svc ∧ k = endpointKey (svc_ID svc) (ep_Path ep).
Proof.
  unfold add_service. set (g0 := g <| gr_services := _ |>).
  change (gr_endpoints g) with (gr_endpoints g0). generalize g0. clear g0 g.
  induction (svc_Endpoints svc) as [|ep eps IH]; intros g; cbn [foldl].
  { split; [by left|]. intros [?|(ep & ?%elem_of_nil & _)]; done. }
  rewrite IH. cbn. rewrite lookup_insert_is_Some'. setoid_rewrite elem_of_cons. naive_solver.
Qed.
Lemma add_service_edges_map svc g : gr_edges (add_service g svc) = gr_edges g.
Proof.
  unfold add_service. set (g0 := g <| gr_services := _ |>).
  change (gr_edges g) with (gr_edges g0). generalize g0. clear g0 g.
  induction (svc_Endpoints svc) as [|ep eps IH]; intros g; cbn [foldl]; [done|]. by rewrite IH.
Qed.
Lemma add_services_spec svcs : ∀ g,
  let g' := foldl add_service g svcs in
  (∀ s, is_Some (gr_services g' !! s) ↔ is_Some (gr_services g !! s) ∨ ∃ svc, svc ∈ svcs ∧ svc_ID svc = s) ∧
  (∀ k, is_Some (gr_endpoints g' !! k) ↔ is_Some (gr_endpoints g !! k) ∨
     ∃ svc ep, svc ∈ svcs ∧ ep ∈ svc_Endpoints svc ∧ k = endpointKey (svc_ID svc) (ep_Path ep)) ∧
  gr_edges g' = gr_edges g.
Proof.
  induction svcs as [|svc svcs IH]; intros g; cbn [foldl].
  { split_and!; [intros s..|done]; (split; [by left|]).
    - intros [?|(svc & ?%elem_of_nil & _)]; done.
    - intros [?|(svc & ep & ?%elem_of_nil & _)]; done. }
  destruct (IH (add_service g svc)) as (H1 & H2 & H3). split_and!.
  - intros s. rewrite H1, add_service_services. setoid_rewrite elem_of_cons. case_decide; naive_solver.
  - intros k. rewrite H2, add_service_endpoints. setoid_rewrite elem_of_cons. naive_solver.
  - by rewrite H3, add_service_edges_map.
Qed.

(** ** Edges *)

Lemma add_call_spec g c :
  match add_call g c with
  | Ok g' =>
      ∃ e, call_edge c = Some e ∧ is_Some (gr_services g !! ed_ToServiceID e) ∧
        gr_services g' = gr_services g ∧ gr_endpoints g' = gr_endpoints g ∧
        gr_edges g' = <[call_key c := default [] (gr_edges g !! call_key c) ++ [e]]> (gr_edges g)
  | Fail _ =>
      ∀ s p, ParseDownstreamTarget (ds_To c.2) = Ok (s, p) → gr_services g !! s = None
  | Panic => False
  end.
Proof.
  unfold add_call, add_edge, Graph_createEdge, call_edge.
  destruct (ParseDownstreamTarget (ds_To c.2)) as [[s p]|e|] eqn:E; cbn.
  - destruct (gr_services g !! s) as [svc|] eqn:Es; cbn.
    + eexists. split_and!; [reflexivity|cbn; rewrite Es; by eexists|done..].
    + intros s' p' [= <- <-]. done.
  - discriminate.
  - unfold ParseDownstreamTarget in E. repeat case_match; discriminate E.
Qed.
Lemma add_calls_ok calls : ∀ g g',
  go_fold add_call g calls = Ok g' →
  (∀ c, c ∈ calls → ∃ e, call_edge c = Some e ∧ is_Some (gr_services g !! ed_ToServiceID e)) ∧
  gr_services g' = gr_services g ∧ gr_endpoints g' = gr_endpoints g ∧
  (∀ k, default [] (gr_edges g' !! k)
        = default [] (gr_edges g !! k) ++ omap call_edge (filter (λ c, call_key c = k) calls)) ∧
  (∀ k, is_Some (gr_edges g' !! k) → is_Some (gr_edges g !! k) ∨ ∃ c, c ∈ calls ∧ call_key c = k).
Proof.
  induction calls as [|c calls IH]; intros g g'; cbn [go_fold].
  { intros [= <-]. split_and!; [by intros c ?%elem_of_nil|done|done| |by left].
    intros k. cbn. by rewrite app_nil_r. }
  pose proof (add_call_spec g c) as Hc. destruct (add_call g c) as [g1|e|]; cbn [go_bind]; [|discriminate..].
  destruct Hc as (e & He & Hs & Es & Ee & Ed). intros (H1 & H2 & H3 & H4 & H5)%IH.
  rewrite Es in *. rewrite Ee in *. split_and!; [|done|done| |].
  - intros c' [->|?]%elem_of_cons; eauto.
  - intros k. rewrite H4, Ed, filter_cons. destruct (decide (call_key c = k)) as [<-|Hne].
    + rewrite lookup_insert_eq. csimpl. rewrite He, <- app_assoc. done.
    + by rewrite lookup_insert_ne.
  - intros k [Hk|(c' & ? & ?)]%H5.
    + rewrite Ed, lookup_insert_is_Some' in Hk. destruct Hk as [<-|?]; [|by left].
      right. exists c. split; [by left|done].
    + right. exists c'. split; [by right|done].
Qed.
Lemma add_calls_fail calls : ∀ g,
  (∀ c, c ∈ calls → ∃ s p, ParseDownstreamTarget (ds_To c.2) = Ok (s, p) ∧ is_Some (gr_services g !! s)) →
  ∃ g', go_fold add_call g calls = Ok g'.
Proof.
  induction calls as [|c calls IH]; intros g Hall; cbn [go_fold]; [eauto|].
  pose proof (add_call_spec g c) as Hc. destruct (add_call g c) as [g1|e|]; cbn; [| |done].
  - destruct Hc as (e & _ & _ & Es & _). apply IH. intros c' Hc'. rewrite Es. apply Hall. by right.
  - destruct (Hall c) as (s & p & Hp & Hs); [by left|]. rewrite (Hc s p Hp) in Hs. by destruct Hs.
Qed.
Lemma add_calls_no_panic calls : ∀ g, go_fold add_call g calls ≠ Panic.
Proof.
  induction calls as [|c calls IH]; intros g; cbn [go_fold]; [discriminate|].
  pose proof (add_call_spec g c) as Hc. destruct (add_call g c); cbn; [apply IH|discriminate|done].
Qed.

(** The built graph has exactly the endpoints, services and calls of the scenario. *)
Lemma build_graph_ok scn g :
  build_graph scn = Ok g →
  (∀ c, c ∈ all_calls scn → call_resolves scn c) ∧
  (∀ k, is_Some (gr_endpoints g !! k) ↔ is_endpoint scn k) ∧
  (∀ k, is_Some (gr_edges g !! k) → is_Some (gr_endpoints g !! k)) ∧
  (∀ k, default [] (gr_edges g !! k) = omap call_edge (filter (λ c, call_key c = k) (all_calls scn))) ∧
  (∀ s, is_Some (gr_services g !! s) ↔ ∃ svc, svc ∈ scn_Services scn ∧ svc_ID svc = s).
Proof.
  rewrite build_graph_calls. destruct (add_services_spec (scn_Services scn) (mkGraph ∅ ∅ ∅)) as (S1 & S2 & S3).
  set (g0 := foldl add_service (mkGraph ∅ ∅ ∅) (scn_Services scn)) in *.
  assert (Hsvc : ∀ s, is_Some (gr_services g0 !! s) ↔ ∃ svc, svc ∈ scn_Services scn ∧ svc_ID svc = s).
  { intros s. rewrite S1. cbn. rewrite lookup_empty. split; [|by right]. by intros [[? [=]]|?]. }
  assert (Hep : ∀ k, is_Some (gr_endpoints g0 !! k) ↔ is_endpoint scn k).
  { intros k. rewrite S2. cbn. rewrite lookup_empty. split; [|by right]. by intros [[? [=]]|?]. }
  intros (H1 & H2 & H3 & H4 & H5)%add_calls_ok. rewrite H2, H3. split_and!; [|done| | |done].
  - intros c (e & He & Hs)%H1. unfold call_edge in He. unfold call_resolves.
    destruct (ParseDownstreamTarget (ds_To c.2)) as [[s p]| |]; [|discriminate..].
    injection He as <-. apply Hsvc in Hs as (svc & ? & ?). by exists s, p, svc.
  - intros k [Hk|(c & Hc & <-)]%H5; [rewrite S3 in Hk; cbn in Hk; by rewrite lookup_empty in Hk; destruct Hk|].
    apply Hep. unfold all_calls in Hc. apply list_elem_of_bind in Hc as (svc & Hc & Hsv).
    apply list_elem_of_bind in Hc as (ep & (ds & -> & _)%list_elem_of_fmap & Hep'). by exists svc, ep.
  - intros k. rewrite H4, S3. cbn. by rewrite lookup_empty.
Qed.
Lemma build_graph_resolves scn :
  (∀ c, c ∈ all_calls scn → call_resolves scn c) → ∃ g, build_graph scn = Ok g.
Proof.
  intros Hall. rewrite build_graph_calls. apply add_calls_fail. intros c (s & p & svc & Hp & Hs & He)%Hall.
  exists s, p. split; [done|]. apply (add_services_spec (scn_Services scn) (mkGraph ∅ ∅ ∅)). right. eauto.
Qed.
Lemma build_graph_sync scn g a b : build_graph scn = Ok g → sync_edge g a b ↔ calls_sync scn a b.
Proof.
  intros (_ & _ & _ & He & _)%build_graph_ok. unfold sync_edge, calls_sync. rewrite He.
  setoid_rewrite list_elem_of_omap. setoid_rewrite list_elem_of_filter. split.
  - intros (e & (c & (Hk & Hin) & Hc) & Ha & Ht). exists c, e. split_and!; try done.
    unfold call_edge in Hc. destruct (ParseDownstreamTarget _) as [[s p]| |]; [|discriminate..].
    injection Hc as <-. done.
  - intros (c & e & Hin & Hk & Ha & Hc & Ht). exists e. split_and!; [by exists c| |done].
    unfold call_edge in Hc. destruct (ParseDownstreamTarget _) as [[s p]| |]; [|discriminate..].
    injection Hc as <-. done.
Qed.

Lemma tc_impl {A} (R R' : relation A) x y : (∀ a b, R a b → R' a b) → tc R x y → tc R' x y.
Proof. intros H. induction 1; [by apply tc_once, H|]. eapply tc_l; [by apply H|done]. Qed.

Lemma new_graph_ok order scn :
  (∀ k, k ∈ order ↔ is_endpoint scn k) →
  ∃ r, NewGraph order scn = Some r ∧ r ≠ Panic ∧
    ((∃ g, r = Ok g) ↔
      (∀ c, c ∈ all_calls scn → call_resolves scn c) ∧ ∀ a, ¬ tc (calls_sync scn) a a) ∧
    ∀ g, r = Ok g → ∀ s p,
      Graph_GetDownstreamEdges s p g
      = omap call_edge (filter (λ c, call_key c = endpointKey s p) (all_calls scn)).
Proof.
  intros Hord. unfold NewGraph. destruct (build_graph scn) as [g|e|] eqn:Eb.
  - pose proof (build_graph_ok scn g Eb) as (Hres & Hep & Hdom & Hed & _).
    assert (Htc : ∀ a, tc (sync_edge g) a a ↔ tc (calls_sync scn) a a).
    { intros a. split; apply tc_impl; intros x y; by apply (build_graph_sync scn g x y Eb). }
    destruct (validate_acyclic_spec order g) as [[-> Hno]|[[e ->] Hcyc]].
    { intros k. by rewrite Hord, Hep. } { exact Hdom. }
    + eexists. split_and!; [reflexivity|discriminate| |].
      * split; [|eauto]. intros _. split; [done|]. intros a Ha%Htc. by apply (Hno a).
      * intros g' [= <-] s p. apply Hed.
    + eexists. split_and!; [reflexivity|discriminate| |discriminate]. split; [intros [g' [=]]|].
      intros [_ Hno]. destruct Hcyc as [a Ha%Htc]. by destruct (Hno a).
  - eexists. split_and!; [reflexivity|discriminate| |discriminate]. split; [intros [g' [=]]|].
    intros [Hres _]. destruct (build_graph_resolves scn Hres) as [g' ?]. congruence.
  - destruct (add_calls_no_panic (all_calls scn)
      (foldl add_service (mkGraph ∅ ∅ ∅) (scn_Services scn))). by rewrite <- build_graph_calls.
Qed.

(** If all calls resolve, only a cycle makes it fail. *)
Lemma new_graph_cyclic order scn err :
  (∀ k, k ∈ order ↔ is_endpoint scn k) → (∀ c, c ∈ all_calls scn → call_resolves scn c) →
  NewGraph order scn = Some (Fail err) → ∃ a, tc (calls_sync scn) a a.
Proof.
  intros Hord Hres. destruct (build_graph_resolves scn Hres) as [g Eb]. unfold NewGraph. rewrite Eb.
  pose proof (build_graph_ok scn g Eb) as (_ & Hep & Hdom & _).
  destruct (validate_acyclic_spec order g) as [[-> _]|[_ [a Ha]]]; [intros k; by rewrite Hord, Hep|exact Hdom|done|].
  intros _. exists a. revert Ha. apply tc_impl. intros x y. by apply (build_graph_sync scn g x y Eb).
Qed.

(** building the service graph terminates without a panic. It succeeds exactly
    when every downstream target is well formed and names a service and the
    synchronous calls of the scenario form no cycle, whatever order the endpoint
    map is visited in; calls marked async may form cycles. The graph then has
    for every endpoint exactly its downstream calls, in their order. *)
Theorem new_graph_spec order scn :
  (∀ k, k ∈ order ↔ is_endpoint scn k) →
  ∃ r, NewGraph order scn = Some r ∧ r ≠ Panic ∧
    ((∃ g, r = Ok g) ↔
      (∀ c, c ∈ all_calls scn → call_resolves scn c) ∧ ∀ a, ¬ tc (calls_sync scn) a a) ∧
    ∀ g, r = Ok g → ∀ s p,
      Graph_GetDownstreamEdges s p g
      = omap call_edge (filter (λ c, call_key c = endpointKey s p) (all_calls scn)).
Proof. apply new_graph_ok. Qed.
(** The endpoint keys in the order of the scenario. *)
Definition endpoint_keys (scn : Scenario) : list string :=
  scn_Services scn ≫= λ svc, (λ ep, endpointKey (svc_ID svc) (ep_Path ep)) <$> svc_Endpoints svc.
Lemma elem_of_endpoint_keys scn k : k ∈ endpoint_keys scn ↔ is_endpoint scn k.
Proof.
  unfold endpoint_keys, is_endpoint. rewrite list_elem_of_bind. setoid_rewrite list_elem_of_fmap.
  naive_solver.
Qed.
Lemma new_graph_spec_witness :
  ∃ g, NewGraph (endpoint_keys sample_scenario) sample_scenario = Some (Ok g) ∧
       length (Graph_GetDownstreamEdges "gw" "/" g) = 1%nat.
Proof.
  destruct (new_graph_spec (endpoint_keys sample_scenario) sample_scenario) as (r & E & _ & _ & Hg).
  { intros k. apply elem_of_endpoint_keys. }
  destruct r as [g|e|]; [|vm_compute in E; discriminate E..].
  exists g. split; [exact E|]. rewrite (Hg g eq_refl). vm_compute. reflexivity.
Defined.

(** * Validated scenarios *)

(** The parser of the graph and the one of the validator accept the same targets
    with the same result. *)
Lemma parse_targets_agree t x :
  parseDownstreamTargetForValidation t = Ok x → ParseDownstreamTarget t = Ok x.
Proof.
  unfold parseDownstreamTargetForValidation, ParseDownstreamTarget.
  destruct (is_empty _); [discriminate|]. destruct (cut_colon _) as [[a b]|]; [|done].
  destruct (is_empty (TrimSpace a)); [discriminate|]. by destruct (is_empty (TrimSpace b)).
Qed.
Lemma scenario_ok_resolves scn c : scenario_ok scn → c ∈ all_calls scn → call_resolves scn c.
Proof.
  intros (_&_&_&_&_&_&_&_& Hds &_) Hc. unfold all_calls in Hc.
  apply list_elem_of_bind in Hc as (svc & Hc & Hsvc).
  apply list_elem_of_bind in Hc as (ep & (ds & -> & Hd)%list_elem_of_fmap & Hep).
  rewrite Forall_forall in Hds. specialize (Hds svc Hsvc). rewrite Forall_forall in Hds.
  specialize (Hds ep Hep). rewrite Forall_forall in Hds.
  destruct (Hds ds Hd) as ((svc' & ep' & Hs' & _ & Hp%parse_targets_agree) & _).
  by exists (svc_ID svc'), (ep_Path ep'), svc'.
Qed.
(** for a scenario that validation accepts (with no colon in service IDs), the
    service graph fails to build only because of a synchronous cycle: validation
    and the graph read targets alike, and no call is left unresolved. *)
Theorem validated_graph_spec order scn scn' :
  Forall (λ svc, no_colon (svc_ID svc)) (scn_Services scn) → ValidateScenario scn = Ok scn' →
  (∀ k, k ∈ order ↔ is_endpoint scn' k) →
  ∃ r, NewGraph order scn' = Some r ∧ r ≠ Panic ∧
    ((∃ g, r = Ok g) ↔ ∀ a, ¬ tc (calls_sync scn') a a).
Proof.
  intros Hc (Hok & _)%validate_scenario_ok Hord; [|done].
  destruct (new_graph_ok order scn' Hord) as (r & E & Hp & Hiff & _). exists r. split_and!; [done..|].
  rewrite Hiff. split; [tauto|]. intros Hno. split; [|done]. intros c. by apply scenario_ok_resolves.
Qed.
Lemma validated_graph_spec_witness :
  ∃ g, NewGraph (endpoint_keys sample_scenario_normalised) sample_scenario_normalised = Some (Ok g) ∧
       ∀ a, ¬ tc (calls_sync sample_scenario_normalised) a a.
Proof.
  destruct (validated_graph_spec (endpoint_keys sample_scenario_normalised) sample_scenario
    sample_scenario_normalised) as (r & E & _ & Hiff).
  - repeat constructor.
  - vm_compute. reflexivity.
  - intros k. apply elem_of_endpoint_keys.
  - destruct r as [g|e|]; [|vm_compute in E; discriminate E..].
    exists g. split; [exact E|]. apply Hiff. by exists g.
Defined.
