(* ===== verification/BatchSpec.v ===== *)
(** The normalised batch optimisation configuration (internal/batchspec/spec.go):
    defaults, bounds derived from the baseline scenario, the merge with the
    client's protobuf message, its validation and the refinement pass, with what
    an accepted configuration guarantees to the search. Enum values of the
    generated messages are their numbers: protobuf enums are open. *)
From S2P Require Import Prelude GoFloat Config.
From Stdlib Require Import SpecFloat.
#[local] Open Scope string_scope.
#[local] Open Scope list_scope.
#[local] Open Scope Z_scope.

(** * Messages *)

Record UtilizationBand := mkBand { ub_Low : float64; ub_High : float64 }.
Record BatchStepSizes := mkStepSizes {
  ss_ReplicaStep : Z;
  ss_ServiceCpuRatio : float64;
  ss_ServiceMemoryRatio : float64;
  ss_HostCountStep : Z;
  ss_HostCpuStepCores : Z;
  ss_HostMemoryStepGb : Z;
}.
Record BatchCostWeights := mkCostWeights {
  cw_ServiceCpu : float64;
  cw_ServiceMemoryGb : float64;
  cw_Replicas : float64;
  cw_Hosts : float64;
  cw_HostCpu : float64;
  cw_HostMemoryGb : float64;
  cw_Churn : float64;
}.
Record BatchPenaltyWeights := mkPenaltyWeights {
  pw_P95 : float64;
  pw_P99 : float64;
  pw_ErrorRate : float64;
  pw_Throughput : float64;
  pw_ServiceCpuBalance : float64;
  pw_ServiceMemoryBalance : float64;
  pw_HostCpuBalance : float64;
  pw_HostMemoryBalance : float64;
  pw_QueueDepth : float64;
  pw_TopicBacklog : float64;
  pw_TopicLag : float64;
  pw_QueueOldestAge : float64;
  pw_TopicOldestAge : float64;
  pw_QueueDrop : float64;
  pw_TopicDrop : float64;
  pw_QueueDlq : float64;
  pw_TopicDlq : float64;
  pw_Locality : float64;
  pw_CrossZone : float64;
  pw_TopologyLatency : float64;
}.
Record BatchOptimizationConfig := mkBatchConfig {
  pb_SearchStrategy : Z;
  pb_AllowedActions : list Z;
  pb_FreezeWorkload : option bool;
  pb_FreezePolicies : option bool;
  pb_MaxP95LatencyMs : float64;
  pb_MaxP99LatencyMs : float64;
  pb_MaxErrorRate : float64;
  pb_MinThroughputRps : float64;
  pb_ServiceCpuUtilizationBand : option UtilizationBand;
  pb_ServiceMemoryUtilizationBand : option UtilizationBand;
  pb_HostCpuUtilizationBand : option UtilizationBand;
  pb_HostMemoryUtilizationBand : option UtilizationBand;
  pb_MinHosts : Z;
  pb_MaxHosts : Z;
  pb_MinReplicasPerService : Z;
  pb_MaxReplicasPerService : Z;
  pb_MinCpuCoresPerInstance : float64;
  pb_MaxCpuCoresPerInstance : float64;
  pb_MinMemoryMbPerInstance : float64;
  pb_MaxMemoryMbPerInstance : float64;
  pb_MinHostCpuCores : Z;
  pb_MaxHostCpuCores : Z;
  pb_MinHostMemoryGb : Z;
  pb_MaxHostMemoryGb : Z;
  pb_StepSizes : option BatchStepSizes;
  pb_BeamWidth : Z;
  pb_MaxSearchDepth : Z;
  pb_MaxNeighborsPerState : Z;
  pb_ReevaluationsPerCandidate : Z;
  pb_InfeasibleBeamWidth : Z;
  pb_CostWeights : option BatchCostWeights;
  pb_PenaltyWeights : option BatchPenaltyWeights;
  pb_EnableLocalRefinement : option bool;
  pb_DeterministicCandidateSeeds : option bool;
  pb_MaxQueueDepthSum : float64;
  pb_MaxTopicBacklogDepthSum : float64;
  pb_MaxTopicConsumerLagSum : float64;
  pb_MaxQueueOldestMessageAgeMs : float64;
  pb_MaxTopicOldestMessageAgeMs : float64;
  pb_MaxQueueDropCount : float64;
  pb_MaxTopicDropCount : float64;
  pb_MaxQueueDlqCount : float64;
  pb_MaxTopicDlqCount : float64;
  pb_MinLocalityHitRate : float64;
  pb_MaxCrossZoneRequestFraction : float64;
  pb_MaxTopologyLatencyPenaltyMeanMs : float64;
}.

(** * The normalised configuration *)

Record BatchSpec := mkBatchSpec {
  bs_Proto : option BatchOptimizationConfig;
  bs_SearchStrategy : Z;
  bs_AllowedActions : gset Z;
  bs_AllowedActionsOrdered : list Z;
  bs_FreezeWorkload : bool;
  bs_FreezePolicies : bool;
  bs_MaxP95Ms : float64;
  bs_MaxP99Ms : float64;
  bs_MaxErrorRate : float64;
  bs_MinThroughput : float64;
  bs_MaxQueueDepthSum : float64;
  bs_MaxTopicBacklogDepthSum : float64;
  bs_MaxTopicConsumerLagSum : float64;
  bs_MaxQueueOldestMessageAgeMs : float64;
  bs_MaxTopicOldestMessageAgeMs : float64;
  bs_MaxQueueDropCount : float64;
  bs_MaxTopicDropCount : float64;
  bs_MaxQueueDlqCount : float64;
  bs_MaxTopicDlqCount : float64;
  bs_MinLocalityHitRate : float64;
  bs_MaxCrossZoneRequestFraction : float64;
  bs_MaxTopologyLatencyPenaltyMeanMs : float64;
  bs_ServiceCPUBandLow : float64;
  bs_ServiceCPUBandHigh : float64;
  bs_ServiceMemBandLow : float64;
  bs_ServiceMemBandHigh : float64;
  bs_HostCPUBandLow : float64;
  bs_HostCPUBandHigh : float64;
  bs_HostMemBandLow : float64;
  bs_HostMemBandHigh : float64;
  bs_MinHosts : Z;
  bs_MaxHosts : Z;
  bs_MinReplicasPerSvc : Z;
  bs_MaxReplicasPerSvc : Z;
  bs_MinCPUPerInst : float64;
  bs_MaxCPUPerInst : float64;
  bs_MinMemPerInst : float64;
  bs_MaxMemPerInst : float64;
  bs_MinHostCPUCores : Z;
  bs_MaxHostCPUCores : Z;
  bs_MinHostMemGB : Z;
  bs_MaxHostMemGB : Z;
  bs_ReplicaStep : Z;
  bs_ServiceCPURatio : float64;
  bs_ServiceMemRatio : float64;
  bs_HostCountStep : Z;
  bs_HostCPUStepCores : Z;
  bs_HostMemStepGB : Z;
  bs_BeamWidth : Z;
  bs_MaxSearchDepth : Z;
  bs_MaxNeighborsPerState : Z;
  bs_ReevalPerCandidate : Z;
  bs_InfeasibleBeamWidth : Z;
  bs_CostWeights : BatchCostWeights;
  bs_PenaltyWeights : BatchPenaltyWeights;
  bs_EnableLocalRefinement : bool;
  bs_DeterministicCandidateSeeds : bool;
}.
#[export] Instance eta_BatchSpec : Eta BatchSpec := λ r, mkBatchSpec (bs_Proto r)
  (bs_SearchStrategy r) (bs_AllowedActions r) (bs_AllowedActionsOrdered r) (bs_FreezeWorkload r)
  (bs_FreezePolicies r) (bs_MaxP95Ms r) (bs_MaxP99Ms r) (bs_MaxErrorRate r) (bs_MinThroughput r)
  (bs_MaxQueueDepthSum r) (bs_MaxTopicBacklogDepthSum r) (bs_MaxTopicConsumerLagSum r)
  (bs_MaxQueueOldestMessageAgeMs r) (bs_MaxTopicOldestMessageAgeMs r) (bs_MaxQueueDropCount r)
  (bs_MaxTopicDropCount r) (bs_MaxQueueDlqCount r) (bs_MaxTopicDlqCount r)
  (bs_MinLocalityHitRate r) (bs_MaxCrossZoneRequestFraction r)
  (bs_MaxTopologyLatencyPenaltyMeanMs r) (bs_ServiceCPUBandLow r) (bs_ServiceCPUBandHigh r)
  (bs_ServiceMemBandLow r) (bs_ServiceMemBandHigh r) (bs_HostCPUBandLow r)
  (bs_HostCPUBandHigh r) (bs_HostMemBandLow r) (bs_HostMemBandHigh r) (bs_MinHosts r)
  (bs_MaxHosts r) (bs_MinReplicasPerSvc r) (bs_MaxReplicasPerSvc r) (bs_MinCPUPerInst r)
  (bs_MaxCPUPerInst r) (bs_MinMemPerInst r) (bs_MaxMemPerInst r) (bs_MinHostCPUCores r)
  (bs_MaxHostCPUCores r) (bs_MinHostMemGB r) (bs_MaxHostMemGB r) (bs_ReplicaStep r)
  (bs_ServiceCPURatio r) (bs_ServiceMemRatio r) (bs_HostCountStep r) (bs_HostCPUStepCores r)
  (bs_HostMemStepGB r) (bs_BeamWidth r) (bs_MaxSearchDepth r) (bs_MaxNeighborsPerState r)
  (bs_ReevalPerCandidate r) (bs_InfeasibleBeamWidth r) (bs_CostWeights r) (bs_PenaltyWeights r)
  (bs_EnableLocalRefinement r) (bs_DeterministicCandidateSeeds r).

Definition BATCH_SEARCH_STRATEGY_UNSPECIFIED : Z := 0.
Definition BATCH_SEARCH_STRATEGY_BEAM : Z := 1.
Definition BATCH_SCALING_ACTION_UNSPECIFIED : Z := 0.
(** SERVICE_SCALE_OUT to TOPIC_SUBSCRIBER_SCALE_DOWN_CONCURRENCY, by number. *)
Definition batchScalingActionEnumOrder : list Z :=
  [1; 2; 3; 4; 5; 6; 7; 8; 9; 10; 11; 12; 13; 14; 15; 16].
Definition allBatchScalingActions : gset Z := list_to_set batchScalingActionEnumOrder.
Definition orderedActionsFromMap (m : gset Z) : list Z :=
  filter (λ a, a ∈ m) batchScalingActionEnumOrder.

Definition defaultCostWeights : BatchCostWeights := mkCostWeights f1 f1 f1 f1 f1 f1 (f64_lit 1 2).
Definition defaultPenaltyWeights : BatchPenaltyWeights := mkPenaltyWeights
  f1 f1 f1 f1 f1 f1 f1 f1 f1 f1 f1 f1 f1 f1 f1 f1 f1 f1 f1 f1.
(** The literal of [DefaultBatchSpec], before the bounds. *)
Definition batch_spec_literal : BatchSpec := mkBatchSpec None BATCH_SEARCH_STRATEGY_BEAM
  allBatchScalingActions (orderedActionsFromMap allBatchScalingActions) true true
  (f64_of_Z 500) (f64_of_Z 1000) (f64_lit 5 100) f0 f0 f0 f0 f0 f0 f0 f0 f0 f0 f0 f0 f0
  (f64_lit 45 100) (f64_lit 70 100) (f64_lit 45 100) (f64_lit 75 100) (f64_lit 40 100)
  (f64_lit 75 100) (f64_lit 40 100) (f64_lit 80 100) 0 0 0 0 f0 f0 f0 f0 0 0 0 0 1
  (f64_lit 1 10) (f64_lit 1 10) 1 1 1 8 8 24 3 4 defaultCostWeights defaultPenaltyWeights true
  true.

Definition batch_safeInt32FromInt (v : Z) : Z :=
  if 2 ^ 31 - 1 <? v then 2 ^ 31 - 1 else if v <? - 2 ^ 31 then - 2 ^ 31 else v.
(** int32 arithmetic wraps around. *)
Definition wrap32 (z : Z) : Z := (z + 2 ^ 31) mod 2 ^ 32 - 2 ^ 31.
Definition at_least_or (lo d v : Z) : Z := if v <? lo then d else v.

Definition initBoundsFromBaseline (s : BatchSpec) (base : option Scenario) : BatchSpec :=
  match base with
  | None => s
  | Some base =>
      let nh := at_least_or 1 1 (batch_safeInt32FromInt (Z.of_nat (length (scn_Hosts base)))) in
      let s := s <| bs_MinHosts := nh |> <| bs_MaxHosts := wrap32 (nh + 4) |>
        <| bs_MinReplicasPerSvc := 1 |> <| bs_MaxReplicasPerSvc := 32 |>
        <| bs_MinCPUPerInst := f64_lit 1 4 |> <| bs_MaxCPUPerInst := f64_of_Z 32 |>
        <| bs_MinMemPerInst := f64_of_Z 128 |> <| bs_MaxMemPerInst := f64_of_Z 65536 |> in
      match scn_Hosts base with
      | [] => s
      | h :: _ =>
          let c := at_least_or 1 1 (batch_safeInt32FromInt (hs_Cores h)) in
          let gb := at_least_or 1 16 (batch_safeInt32FromInt (hs_MemoryGB h)) in
          s <| bs_MinHostCPUCores := c |> <| bs_MaxHostCPUCores := wrap32 (c * 4) |>
            <| bs_MinHostMemGB := gb |> <| bs_MaxHostMemGB := wrap32 (gb * 4) |>
      end
  end.
Definition DefaultBatchSpec (base : option Scenario) : BatchSpec :=
  initBoundsFromBaseline batch_spec_literal base.

(** * The merge with the client's message *)

(** A field of the message replaces the default when it is positive. *)
Definition posf_or (x d : float64) : float64 := if fltb f0 x then x else d.
Definition merge_band (b : option UtilizationBand) (lo hi : float64) : float64 * float64 :=
  match b with
  | Some b => if fltb f0 (ub_Low b) || fltb f0 (ub_High b) then (ub_Low b, ub_High b) else (lo, hi)
  | None => (lo, hi)
  end.
Definition step_or {A} (f : BatchStepSizes → A) (merge : A → A → A) (ss : option BatchStepSizes)
    (d : A) : A :=
  match ss with Some ss => merge (f ss) d | None => d end.
(** [AllowedActions] and [AllowedActionsOrdered]. *)
Definition merge_actions (actions : list Z) (s : BatchSpec) : go (gset Z * list Z) :=
  match actions with
  | [] => Ok (bs_AllowedActions s, bs_AllowedActionsOrdered s)
  | _ =>
      let m : gset Z := list_to_set (filter (λ a, a ≠ BATCH_SCALING_ACTION_UNSPECIFIED) actions) in
      if bool_decide (m = ∅) then Fail "allowed_actions has no valid entries"
      else Ok (m, orderedActionsFromMap m)
  end.
Definition merge_batch_spec (pb : BatchOptimizationConfig) (actions : gset Z * list Z)
    (s : BatchSpec) : BatchSpec :=
  let svcCpu := merge_band (pb_ServiceCpuUtilizationBand pb)
    (bs_ServiceCPUBandLow s) (bs_ServiceCPUBandHigh s) in
  let svcMem := merge_band (pb_ServiceMemoryUtilizationBand pb)
    (bs_ServiceMemBandLow s) (bs_ServiceMemBandHigh s) in
  let hostCpu := merge_band (pb_HostCpuUtilizationBand pb)
    (bs_HostCPUBandLow s) (bs_HostCPUBandHigh s) in
  let hostMem := merge_band (pb_HostMemoryUtilizationBand pb)
    (bs_HostMemBandLow s) (bs_HostMemBandHigh s) in
  mkBatchSpec (Some pb)
    (if pb_SearchStrategy pb =? BATCH_SEARCH_STRATEGY_UNSPECIFIED then bs_SearchStrategy s
     else pb_SearchStrategy pb)
    (fst actions) (snd actions) (default (bs_FreezeWorkload s) (pb_FreezeWorkload pb))
    (default (bs_FreezePolicies s) (pb_FreezePolicies pb))
    (posf_or (pb_MaxP95LatencyMs pb) (bs_MaxP95Ms s))
    (posf_or (pb_MaxP99LatencyMs pb) (bs_MaxP99Ms s))
    (posf_or (pb_MaxErrorRate pb) (bs_MaxErrorRate s))
    (posf_or (pb_MinThroughputRps pb) (bs_MinThroughput s))
    (posf_or (pb_MaxQueueDepthSum pb) (bs_MaxQueueDepthSum s))
    (posf_or (pb_MaxTopicBacklogDepthSum pb) (bs_MaxTopicBacklogDepthSum s))
    (posf_or (pb_MaxTopicConsumerLagSum pb) (bs_MaxTopicConsumerLagSum s))
    (posf_or (pb_MaxQueueOldestMessageAgeMs pb) (bs_MaxQueueOldestMessageAgeMs s))
    (posf_or (pb_MaxTopicOldestMessageAgeMs pb) (bs_MaxTopicOldestMessageAgeMs s))
    (posf_or (pb_MaxQueueDropCount pb) (bs_MaxQueueDropCount s))
    (posf_or (pb_MaxTopicDropCount pb) (bs_MaxTopicDropCount s))
    (posf_or (pb_MaxQueueDlqCount pb) (bs_MaxQueueDlqCount s))
    (posf_or (pb_MaxTopicDlqCount pb) (bs_MaxTopicDlqCount s))
    (posf_or (pb_MinLocalityHitRate pb) (bs_MinLocalityHitRate s))
    (posf_or (pb_MaxCrossZoneRequestFraction pb) (bs_MaxCrossZoneRequestFraction s))
    (posf_or (pb_MaxTopologyLatencyPenaltyMeanMs pb) (bs_MaxTopologyLatencyPenaltyMeanMs s))
    (fst svcCpu) (snd svcCpu) (fst svcMem) (snd svcMem) (fst hostCpu) (snd hostCpu)
    (fst hostMem) (snd hostMem) (pos_or (pb_MinHosts pb) (bs_MinHosts s))
    (pos_or (pb_MaxHosts pb) (bs_MaxHosts s))
    (pos_or (pb_MinReplicasPerService pb) (bs_MinReplicasPerSvc s))
    (pos_or (pb_MaxReplicasPerService pb) (bs_MaxReplicasPerSvc s))
    (posf_or (pb_MinCpuCoresPerInstance pb) (bs_MinCPUPerInst s))
    (posf_or (pb_MaxCpuCoresPerInstance pb) (bs_MaxCPUPerInst s))
    (posf_or (pb_MinMemoryMbPerInstance pb) (bs_MinMemPerInst s))
    (posf_or (pb_MaxMemoryMbPerInstance pb) (bs_MaxMemPerInst s))
    (pos_or (pb_MinHostCpuCores pb) (bs_MinHostCPUCores s))
    (pos_or (pb_MaxHostCpuCores pb) (bs_MaxHostCPUCores s))
    (pos_or (pb_MinHostMemoryGb pb) (bs_MinHostMemGB s))
    (pos_or (pb_MaxHostMemoryGb pb) (bs_MaxHostMemGB s))
    (step_or ss_ReplicaStep pos_or (pb_StepSizes pb) (bs_ReplicaStep s))
    (step_or ss_ServiceCpuRatio posf_or (pb_StepSizes pb) (bs_ServiceCPURatio s))
    (step_or ss_ServiceMemoryRatio posf_or (pb_StepSizes pb) (bs_ServiceMemRatio s))
    (step_or ss_HostCountStep pos_or (pb_StepSizes pb) (bs_HostCountStep s))
    (step_or ss_HostCpuStepCores pos_or (pb_StepSizes pb) (bs_HostCPUStepCores s))
    (step_or ss_HostMemoryStepGb pos_or (pb_StepSizes pb) (bs_HostMemStepGB s))
    (pos_or (pb_BeamWidth pb) (bs_BeamWidth s))
    (pos_or (pb_MaxSearchDepth pb) (bs_MaxSearchDepth s))
    (pos_or (pb_MaxNeighborsPerState pb) (bs_MaxNeighborsPerState s))
    (pos_or (pb_ReevaluationsPerCandidate pb) (bs_ReevalPerCandidate s))
    (pos_or (pb_InfeasibleBeamWidth pb) (bs_InfeasibleBeamWidth s))
    (default (bs_CostWeights s) (pb_CostWeights pb))
    (default (bs_PenaltyWeights s) (pb_PenaltyWeights pb))
    (default (bs_EnableLocalRefinement s) (pb_EnableLocalRefinement pb))
    (default (bs_DeterministicCandidateSeeds s) (pb_DeterministicCandidateSeeds pb)).

(** * Validation *)

(** [x >= y]. *)
Definition fgeb (x y : float64) : bool := fleb y x.
Definition validateBatchSpec (s : BatchSpec) : go BatchSpec :=
  fail_if (fleb (bs_MaxP95Ms s) f0 || fleb (bs_MaxP99Ms s) f0)
    "max_p95_latency_ms and max_p99_latency_ms must be > 0" ;;!
  fail_if (fleb (bs_MaxErrorRate s) f0 || fltb f1 (bs_MaxErrorRate s))
    "max_error_rate must be in (0,1]" ;;!
  fail_if (neg (bs_MaxQueueDepthSum s) || neg (bs_MaxTopicBacklogDepthSum s)
           || neg (bs_MaxTopicConsumerLagSum s))
    "broker backlog/lag limits cannot be negative" ;;!
  fail_if (neg (bs_MaxQueueOldestMessageAgeMs s) || neg (bs_MaxTopicOldestMessageAgeMs s))
    "broker oldest message age limits cannot be negative" ;;!
  fail_if (neg (bs_MaxQueueDropCount s) || neg (bs_MaxTopicDropCount s)
           || neg (bs_MaxQueueDlqCount s) || neg (bs_MaxTopicDlqCount s))
    "broker drop/dlq limits cannot be negative" ;;!
  fail_if (outside01 (bs_MinLocalityHitRate s)) "min_locality_hit_rate must be in [0,1]" ;;!
  fail_if (outside01 (bs_MaxCrossZoneRequestFraction s))
    "max_cross_zone_request_fraction must be in [0,1]" ;;!
  fail_if (neg (bs_MaxTopologyLatencyPenaltyMeanMs s))
    "max_topology_latency_penalty_mean_ms cannot be negative" ;;!
  fail_if (fgeb (bs_ServiceCPUBandLow s) (bs_ServiceCPUBandHigh s)
           || fgeb (bs_ServiceMemBandLow s) (bs_ServiceMemBandHigh s))
    "invalid service utilization bands" ;;!
  fail_if (fgeb (bs_HostCPUBandLow s) (bs_HostCPUBandHigh s)
           || fgeb (bs_HostMemBandLow s) (bs_HostMemBandHigh s))
    "invalid host utilization bands" ;;!
  fail_if (bs_MaxHosts s <? bs_MinHosts s) "min_hosts > max_hosts" ;;!
  fail_if (bs_MaxReplicasPerSvc s <? bs_MinReplicasPerSvc s)
    "min_replicas_per_service > max_replicas_per_service" ;;!
  fail_if (fgeb (bs_MinCPUPerInst s) (bs_MaxCPUPerInst s)
           || fgeb (bs_MinMemPerInst s) (bs_MaxMemPerInst s))
    "invalid per-instance min/max" ;;!
  fail_if ((bs_MaxHostCPUCores s <? bs_MinHostCPUCores s) || (bs_MaxHostMemGB s <? bs_MinHostMemGB s))
    "invalid host min/max" ;;!
  fail_if ((bs_BeamWidth s <? 1) || (bs_MaxSearchDepth s <? 1))
    "beam_width and max_search_depth must be >= 1" ;;!
  fail_if (bs_MaxNeighborsPerState s <? 1) "max_neighbors_per_state must be >= 1" ;;!
  let s := s <| bs_InfeasibleBeamWidth := at_least_or 1 1 (bs_InfeasibleBeamWidth s) |> in
  let s := s <| bs_BeamWidth := if 256 <? bs_BeamWidth s then 256 else bs_BeamWidth s |> in
  Ok (s <| bs_MaxSearchDepth := if 64 <? bs_MaxSearchDepth s then 64 else bs_MaxSearchDepth s |>).

Definition ParseBatchSpec (pb : option BatchOptimizationConfig) (base : option Scenario)
    : go BatchSpec :=
  match pb with
  | None => Fail "batch optimization config is nil"
  | Some pb =>
      let s := DefaultBatchSpec base in
      let! actions := merge_actions (pb_AllowedActions pb) s in
      validateBatchSpec (merge_batch_spec pb actions s)
  end.

(** A copy with smaller steps, for the local pass after the beam search; the
    copied set and slice of actions are equal to the original's. *)
Definition halve_ratio (r : float64) : float64 :=
  let h := fmul r (f64_lit 1 2) in if fltb h (f64_lit 1 100) then f64_lit 1 100 else h.
Definition BatchSpec_RefinementSpec (s : BatchSpec) : BatchSpec :=
  let r := s <| bs_ReplicaStep := at_least_or 1 1 (Z.quot (bs_ReplicaStep s) 2) |>
    <| bs_ServiceCPURatio := halve_ratio (bs_ServiceCPURatio s) |>
    <| bs_ServiceMemRatio := halve_ratio (bs_ServiceMemRatio s) |>
    <| bs_HostCPUStepCores := if 1 <? bs_HostCPUStepCores s then Z.quot (bs_HostCPUStepCores s) 2
                              else bs_HostCPUStepCores s |>
    <| bs_HostMemStepGB := if 1 <? bs_HostMemStepGB s then Z.quot (bs_HostMemStepGB s) 2
                           else bs_HostMemStepGB s |> in
  let n := if 8 <? bs_MaxNeighborsPerState s then Z.quot (bs_MaxNeighborsPerState s) 2
           else bs_MaxNeighborsPerState s in
  r <| bs_MaxNeighborsPerState := at_least_or 8 8 n |>.

(** * What an accepted configuration guarantees *)

Definition unit_interval (x : float64) : Prop := fleb f0 x = true ∧ fleb x f1 = true.
(** [lo] is not above or equal to [hi]; below it unless one of them is NaN. *)
Definition band_ok (lo hi : float64) : Prop :=
  fleb hi lo = false ∧ (is_nan lo = false → is_nan hi = false → fltb lo hi = true).
Record batch_spec_ok (s : BatchSpec) : Prop := {
  bso_latency : fltb f0 (bs_MaxP95Ms s) = true ∧ fltb f0 (bs_MaxP99Ms s) = true;
  bso_error : fltb f0 (bs_MaxErrorRate s) = true ∧ fleb (bs_MaxErrorRate s) f1 = true;
  bso_broker : Forall (λ x, fleb f0 x = true)
    [bs_MaxQueueDepthSum s; bs_MaxTopicBacklogDepthSum s; bs_MaxTopicConsumerLagSum s;
     bs_MaxQueueOldestMessageAgeMs s; bs_MaxTopicOldestMessageAgeMs s; bs_MaxQueueDropCount s;
     bs_MaxTopicDropCount s; bs_MaxQueueDlqCount s; bs_MaxTopicDlqCount s;
     bs_MaxTopologyLatencyPenaltyMeanMs s; bs_MinThroughput s];
  bso_topology : unit_interval (bs_MinLocalityHitRate s)
    ∧ unit_interval (bs_MaxCrossZoneRequestFraction s);
  bso_bands : band_ok (bs_ServiceCPUBandLow s) (bs_ServiceCPUBandHigh s)
    ∧ band_ok (bs_ServiceMemBandLow s) (bs_ServiceMemBandHigh s)
    ∧ band_ok (bs_HostCPUBandLow s) (bs_HostCPUBandHigh s)
    ∧ band_ok (bs_HostMemBandLow s) (bs_HostMemBandHigh s);
  bso_counts : 1 ≤ bs_MinHosts s ≤ bs_MaxHosts s
    ∧ 1 ≤ bs_MinReplicasPerSvc s ≤ bs_MaxReplicasPerSvc s
    ∧ bs_MinHostCPUCores s ≤ bs_MaxHostCPUCores s ∧ bs_MinHostMemGB s ≤ bs_MaxHostMemGB s;
  bso_sizes : fltb f0 (bs_MinCPUPerInst s) = true ∧ fltb f0 (bs_MinMemPerInst s) = true
    ∧ fltb (bs_MinCPUPerInst s) (bs_MaxCPUPerInst s) = true
    ∧ fltb (bs_MinMemPerInst s) (bs_MaxMemPerInst s) = true;
  bso_steps : 1 ≤ bs_ReplicaStep s ∧ 1 ≤ bs_HostCountStep s ∧ 1 ≤ bs_HostCPUStepCores s
    ∧ 1 ≤ bs_HostMemStepGB s
    ∧ fltb f0 (bs_ServiceCPURatio s) = true ∧ fltb f0 (bs_ServiceMemRatio s) = true;
  bso_search : 1 ≤ bs_BeamWidth s ≤ 256 ∧ 1 ≤ bs_MaxSearchDepth s ≤ 64
    ∧ 1 ≤ bs_MaxNeighborsPerState s ∧ 1 ≤ bs_ReevalPerCandidate s ∧ 1 ≤ bs_InfeasibleBeamWidth s;
  bso_actions : bs_AllowedActionsOrdered s = orderedActionsFromMap (bs_AllowedActions s)
    ∧ bs_AllowedActions s ≠ ∅ ∧ BATCH_SCALING_ACTION_UNSPECIFIED ∉ bs_AllowedActions s;
}.

Lemma posf_or_pos x d : fltb f0 d = true → fltb f0 (posf_or x d) = true.
Proof. unfold posf_or. destruct (fltb f0 x) eqn:E; auto. Qed.
Lemma posf_or_nonneg x d : fleb f0 d = true → fleb f0 (posf_or x d) = true.
Proof. unfold posf_or. destruct (fltb f0 x) eqn:E; auto using fltb_fleb. Qed.
Lemma band_ok_intro lo hi : fgeb lo hi = false → band_ok lo hi.
Proof.
  unfold fgeb. intros H. split; [done|]. intros N1 N2.
  destruct (fltb lo hi) eqn:E; [done|].
  pose proof (fltb_false lo hi N1 N2 E). congruence.
Qed.
Lemma posf_or_not_nan x d : is_nan d = false → is_nan (posf_or x d) = false.
Proof. unfold posf_or. destruct (fltb f0 x) eqn:E; [apply fltb_not_nan in E; tauto|done]. Qed.

(** What the defaults establish and the merge keeps. *)
Record spec_floor (s : BatchSpec) : Prop := {
  sf_pos : Forall (λ x, fltb f0 x = true)
    [bs_MaxP95Ms s; bs_MaxP99Ms s; bs_MaxErrorRate s; bs_MinCPUPerInst s; bs_MinMemPerInst s;
     bs_ServiceCPURatio s; bs_ServiceMemRatio s; bs_MaxCPUPerInst s; bs_MaxMemPerInst s];
  sf_nonneg : Forall (λ x, fleb f0 x = true)
    [bs_MaxQueueDepthSum s; bs_MaxTopicBacklogDepthSum s; bs_MaxTopicConsumerLagSum s;
     bs_MaxQueueOldestMessageAgeMs s; bs_MaxTopicOldestMessageAgeMs s; bs_MaxQueueDropCount s;
     bs_MaxTopicDropCount s; bs_MaxQueueDlqCount s; bs_MaxTopicDlqCount s;
     bs_MaxTopologyLatencyPenaltyMeanMs s; bs_MinThroughput s;
     bs_MinLocalityHitRate s; bs_MaxCrossZoneRequestFraction s];
  sf_int : Forall (λ z, 1 ≤ z)
    [bs_MinHosts s; bs_MinReplicasPerSvc s; bs_ReplicaStep s; bs_HostCountStep s;
     bs_HostCPUStepCores s; bs_HostMemStepGB s; bs_BeamWidth s; bs_MaxSearchDepth s;
     bs_MaxNeighborsPerState s; bs_ReevalPerCandidate s; bs_InfeasibleBeamWidth s];
  sf_actions : bs_AllowedActionsOrdered s = orderedActionsFromMap (bs_AllowedActions s)
    ∧ bs_AllowedActions s ≠ ∅ ∧ BATCH_SCALING_ACTION_UNSPECIFIED ∉ bs_AllowedActions s;
}.

Lemma default_actions_ok : allBatchScalingActions ≠ ∅
  ∧ BATCH_SCALING_ACTION_UNSPECIFIED ∉ allBatchScalingActions.
Proof. split; [intros E; by apply (f_equal size) in E|by apply (bool_decide_unpack _)]. Qed.
Lemma default_spec_floor base : spec_floor (DefaultBatchSpec (Some base)).
Proof.
  assert (H : 1 ≤ at_least_or 1 1 (batch_safeInt32FromInt (Z.of_nat (length (scn_Hosts base))))).
  { unfold at_least_or. case_match; lia. }
  unfold DefaultBatchSpec, initBoundsFromBaseline.
  destruct (scn_Hosts base); split; rewrite ?Forall_cons; repeat split;
    first [apply Forall_nil; exact I | reflexivity | exact (proj1 default_actions_ok)
          | exact (proj2 default_actions_ok) | apply Z.leb_le; reflexivity | exact H].
Qed.
Lemma pos_or_at_least z d : 1 ≤ d → 1 ≤ pos_or z d.
Proof. intros. pose proof (pos_or_pos z d). lia. Qed.
Lemma step_or_pos f ss d : fltb f0 d = true → fltb f0 (step_or f posf_or ss d) = true.
Proof. destruct ss; simpl; auto using posf_or_pos. Qed.
Lemma step_or_at_least f ss d : 1 ≤ d → 1 ≤ step_or f pos_or ss d.
Proof. destruct ss; simpl; auto using pos_or_at_least. Qed.
Lemma merge_actions_ok actions s r :
  spec_floor s → merge_actions actions s = Ok r →
  snd r = orderedActionsFromMap (fst r) ∧ fst r ≠ ∅ ∧ BATCH_SCALING_ACTION_UNSPECIFIED ∉ fst r.
Proof.
  intros Hf. unfold merge_actions. destruct actions as [|a l].
  - intros [= <-]. apply (sf_actions _ Hf).
  - case_bool_decide; [done|]. intros [= <-]. split_and!; [done..|].
    cbn [fst]. rewrite elem_of_list_to_set, list_elem_of_filter. naive_solver.
Qed.
Lemma merge_spec_floor pb actions s :
  spec_floor s → merge_actions (pb_AllowedActions pb) s = Ok actions →
  spec_floor (merge_batch_spec pb actions s).
Proof.
  intros Hf Ha. split; [| | |exact (merge_actions_ok _ _ _ Hf Ha)];
    destruct Hf as [Hp Hn Hi _]; unfold merge_batch_spec;
    repeat rewrite Forall_cons in Hp; repeat rewrite Forall_cons in Hn;
    repeat rewrite Forall_cons in Hi; destruct_and?;
    rewrite ?Forall_cons; split_and?;
    first [apply Forall_nil; exact I
          | apply posf_or_pos; assumption | apply posf_or_nonneg; assumption
          | apply pos_or_at_least; assumption
          | apply step_or_pos; assumption | apply step_or_at_least; assumption].
Qed.

Lemma unit_interval_intro x : fleb f0 x = true → outside01 x = false → unit_interval x.
Proof.
  intros H0 H. split; [done|]. apply orb_false_iff in H as [_ H]. apply fltb_false; [done| |done].
  by apply nonneg_not_nan, nonneg_fleb.
Qed.
Lemma band_ok_pos lo hi :
  fltb f0 lo = true → fltb f0 hi = true → fgeb lo hi = false → fltb lo hi = true.
Proof.
  intros [_ N1]%fltb_not_nan [_ N2]%fltb_not_nan H. by apply (proj2 (band_ok_intro _ _ H)).
Qed.
Lemma validate_batch_spec_ok s s' :
  spec_floor s → validateBatchSpec s = Ok s' → batch_spec_ok s'.
Proof.
  intros [Hp Hn Hi Ha] H. unfold validateBatchSpec in H. go_inv.
  repeat rewrite Forall_cons in Hp; repeat rewrite Forall_cons in Hn;
    repeat rewrite Forall_cons in Hi. destruct_and?.
  assert (fleb (bs_MaxErrorRate s) f1 = true).
  { apply fltb_false; [done| |done]. by apply (fltb_not_nan f0). }
  split; simpl; rewrite ?Forall_cons; split_and?; unfold at_least_or;
    try assumption; try (apply Forall_nil; exact I);
    first [by apply unit_interval_intro | by apply band_ok_intro | by apply band_ok_pos
          | repeat case_match; lia].
Qed.
Lemma halve_ratio_pos r : fltb f0 r = true → fltb f0 (halve_ratio r) = true.
Proof.
  intros Hr. unfold halve_ratio. set (h := fmul r _).
  assert (Nh : is_nan h = false).
  { apply nonneg_not_nan. apply fmul_nonneg_finite; [by apply nonneg_fleb, fltb_fleb|done]. }
  destruct (fltb h (f64_lit 1 100)) eqn:E; [done|].
  destruct (fltb f0 h) eqn:E'; [done|].
  assert (F : fleb (f64_lit 1 100) f0 = true); [|done].
  apply (fleb_trans _ h); apply fltb_false; done.
Qed.
Lemma refinement_spec_ok s : batch_spec_ok s → batch_spec_ok (BatchSpec_RefinementSpec s).
Proof.
  intros [? ? ? ? ? ? ? (?&?&?&?&?&?) ([??]&[??]&?&?&?) ?].
  assert (K1 : ∀ z, 1 ≤ at_least_or 1 1 (Z.quot z 2)) by (intros; unfold at_least_or; case_match; lia).
  assert (K8 : ∀ z, 1 ≤ at_least_or 8 8 z) by (intros; unfold at_least_or; case_match; lia).
  assert (Kh : ∀ z, 1 ≤ z → 1 ≤ if 1 <? z then Z.quot z 2 else z).
  { intros z ?. destruct (Z.ltb_spec 1 z); [|done]. apply Z.quot_le_lower_bound; lia. }
  split; try assumption.
  - split_and!; first [apply K1 | apply Kh; assumption | assumption | apply halve_ratio_pos; assumption].
  - split_and!; first [assumption | apply K8].
Qed.

Lemma parse_batch_spec_inv pb base s :
  ParseBatchSpec (Some pb) (Some base) = Ok s → ∃ actions,
  merge_actions (pb_AllowedActions pb) (DefaultBatchSpec (Some base)) = Ok actions
  ∧ validateBatchSpec (merge_batch_spec pb actions (DefaultBatchSpec (Some base))) = Ok s.
Proof. intros H. cbn [ParseBatchSpec] in H. apply go_bind_ok in H. naive_solver. Qed.
Lemma validate_batch_spec_eq s s' : validateBatchSpec s = Ok s' →
  s' = s <| bs_InfeasibleBeamWidth := at_least_or 1 1 (bs_InfeasibleBeamWidth s) |>
         <| bs_BeamWidth := Z.min 256 (bs_BeamWidth s) |>
         <| bs_MaxSearchDepth := Z.min 64 (bs_MaxSearchDepth s) |>.
Proof.
  intros H. unfold validateBatchSpec in H. repeat (apply go_bind_ok in H as (? & _ & H)).
  assert (E1 : Z.min 256 (bs_BeamWidth s) = if 256 <? bs_BeamWidth s then 256 else bs_BeamWidth s)
    by (destruct (Z.ltb_spec 256 (bs_BeamWidth s)); lia).
  assert (E2 : Z.min 64 (bs_MaxSearchDepth s)
    = if 64 <? bs_MaxSearchDepth s then 64 else bs_MaxSearchDepth s)
    by (destruct (Z.ltb_spec 64 (bs_MaxSearchDepth s)); lia).
  rewrite E1, E2. by injection H as <-.
Qed.

(** C40: a batch configuration that [ParseBatchSpec] accepts for a baseline
    scenario is well formed: latency and error limits are positive, broker and
    topology limits are in range, every minimum is at most its maximum, steps
    and search widths are at least 1 and capped (beam 256, depth 64), and the
    ordered actions are exactly the allowed ones in enum order. What the client
    asked for is kept: its host and replica bounds, its neighbour limit and,
    up to the caps, its beam width and depth. The refinement pass works on a
    configuration that is well formed again, with the same bounds and actions. *)
Theorem parse_batch_spec_sound pb base s :
  ParseBatchSpec (Some pb) (Some base) = Ok s →
  batch_spec_ok s ∧ batch_spec_ok (BatchSpec_RefinementSpec s)
  ∧ (0 < pb_MaxHosts pb → bs_MaxHosts s = pb_MaxHosts pb)
  ∧ (0 < pb_MinHosts pb → bs_MinHosts s = pb_MinHosts pb)
  ∧ (0 < pb_MaxReplicasPerService pb → bs_MaxReplicasPerSvc s = pb_MaxReplicasPerService pb)
  ∧ (0 < pb_MaxNeighborsPerState pb → bs_MaxNeighborsPerState s = pb_MaxNeighborsPerState pb)
  ∧ (0 < pb_BeamWidth pb → bs_BeamWidth s = Z.min 256 (pb_BeamWidth pb))
  ∧ (0 < pb_MaxSearchDepth pb → bs_MaxSearchDepth s = Z.min 64 (pb_MaxSearchDepth pb))
  ∧ (pb_AllowedActions pb ≠ [] → ∀ a,
      a ∈ bs_AllowedActionsOrdered s ↔ a ∈ batchScalingActionEnumOrder ∧ a ∈ pb_AllowedActions pb).
Proof.
  intros H. destruct (parse_batch_spec_inv _ _ _ H) as (actions & Ha & Hv).
  pose proof (validate_batch_spec_ok _ _
    (merge_spec_floor _ _ _ (default_spec_floor base) Ha) Hv) as Hok.
  split; [done|]. split; [by apply refinement_spec_ok|].
  assert (Hact : pb_AllowedActions pb ≠ [] → ∀ a,
      a ∈ snd actions ↔ a ∈ batchScalingActionEnumOrder ∧ a ∈ pb_AllowedActions pb).
  { revert Ha. unfold merge_actions. destruct (pb_AllowedActions pb) as [|x l] eqn:E; [done|].
    case_bool_decide; [done|]. intros [= <-] _ a. cbn [snd]. unfold orderedActionsFromMap.
    rewrite list_elem_of_filter, elem_of_list_to_set, list_elem_of_filter.
    assert (a ∈ batchScalingActionEnumOrder → a ≠ BATCH_SCALING_ACTION_UNSPECIFIED); [|tauto].
    intros I ->. by apply (bool_decide_eq_true_2 _) in I. }
  apply validate_batch_spec_eq in Hv as ->. unfold merge_batch_spec. simpl. unfold pos_or.
  split_and!; [..|exact Hact]; intros P; apply Z.ltb_lt in P; by rewrite P.
Qed.

Definition sample_batch_config (actions : list Z) : BatchOptimizationConfig :=
  mkBatchConfig 0 actions None None f0 f0 f0 f0 None None None None 0 6 0 0 f0 f0 f0 f0 0 0 0 0
    None 1000 0 0 0 0 None None None None f0 f0 f0 f0 f0 f0 f0 f0 f0 f0 f0 f0.
Lemma parse_batch_spec_sound_witness :
  ∃ s, ParseBatchSpec (Some (sample_batch_config [2; 1])) (Some sample_scenario) = Ok s
  ∧ batch_spec_ok s ∧ bs_MaxHosts s = 6 ∧ bs_BeamWidth s = 256 ∧ 1 ∈ bs_AllowedActionsOrdered s.
Proof.
  destruct (ParseBatchSpec (Some (sample_batch_config [2; 1])) (Some sample_scenario)) as [s|e|] eqn:E;
    [|vm_compute in E; discriminate..].
  destruct (parse_batch_spec_sound _ _ _ E) as (H & _ & Hm & _ & _ & _ & Hb & _ & Ha).
  exists s. split; [reflexivity|]. split; [exact H|]. split; [exact (Hm eq_refl)|].
  split; [exact (Hb eq_refl)|]. apply (Ha ltac:(discriminate)).
  split; apply (bool_decide_unpack _); vm_compute; exact I.
Defined.

(** An action number the server does not know is accepted: the configuration
    passes validation with a non-empty set of allowed actions, but the ordered
    list the neighbour generation walks is empty. *)
Lemma parse_batch_accepts_unknown_action :
  ∃ s, ParseBatchSpec (Some (sample_batch_config [99])) (Some sample_scenario) = Ok s
  ∧ bs_AllowedActions s = {[99]} ∧ bs_AllowedActionsOrdered s = [].
Proof.
  destruct (ParseBatchSpec (Some (sample_batch_config [99])) (Some sample_scenario)) as [s|e|] eqn:E;
    [|vm_compute in E; discriminate..].
  exists s. split; [reflexivity|]. vm_compute in E. injection E as <-. by split.
Qed.
