(* ===== verification/RunStore.v ===== *)
(** The in-memory run store of the server (internal/simd/runstore.go) with the
    limits it applies to online runs (internal/simd/onlinelimits.go): creation,
    lookup, listing, the status machine with the online concurrency guard,
    optimisation results, and the retention of finished runs.

    Stored records are owned by the store: every operation that returns or takes
    a record clones it, so values are enough; a collector is a shared reference,
    kept as its identity. The messages the store only copies (metrics, run
    configurations, optimisation steps) are the type parameters of the section.
    Wall-clock readings and generated identifiers are arguments, and so are the
    iteration order of a map where it shows and the order [sort.Slice] gives to
    equal elements. *)
From S2P Require Import Prelude GoFloat Config BatchSpec.
From Stdlib Require Import SpecFloat.
#[local] Open Scope string_scope.
#[local] Open Scope list_scope.
#[local] Open Scope Z_scope.

(** * Messages *)

Inductive Status :=
  | UNSPECIFIED | PENDING | RUNNING | COMPLETED | FAILED | CANCELLED | STOPPED.
#[export] Instance Status_eq_dec : EqDecision Status.
Proof. solve_decision. Defined.
Record OptimizationConfig := mkOptConfig {
  oc_Objective : string;
  oc_MaxIterations : Z;
  oc_StepSize : float64;
  oc_EvaluationDurationMs : Z;
  oc_Online : bool;
  oc_TargetP95LatencyMs : float64;
  oc_ControlIntervalMs : Z;
  oc_MinHosts : Z;
  oc_MaxHosts : Z;
  oc_ScaleDownCpuUtilMax : float64;
  oc_ScaleDownMemUtilMax : float64;
  oc_OptimizationTargetPrimary : string;
  oc_TargetUtilHigh : float64;
  oc_TargetUtilLow : float64;
  oc_ScaleDownHostCpuUtilMax : float64;
  oc_MaxEvaluations : Z;
  oc_MinReplicasPerService : Z;
  oc_MinCpuCoresPerInstance : float64;
  oc_MinMemoryMbPerInstance : float64;
  oc_ScaleDownStabilizationWindowMs : Z;
  oc_ScaleDownCooldownMs : Z;
  oc_DrainTimeoutMs : Z;
  oc_MemoryDownsizeHeadroomMb : float64;
  oc_ScaleDownHostMemUtilMax : float64;
  oc_MaxControllerSteps : Z;
  oc_MaxOnlineDurationMs : Z;
  oc_AllowUnboundedOnline : bool;
  oc_MaxNoopIntervals : Z;
  oc_LeaseTtlMs : Z;
  oc_Batch : option BatchOptimizationConfig;
  oc_MinLocalityHitRate : float64;
  oc_MaxCrossZoneRequestFraction : float64;
  oc_MaxTopologyLatencyPenaltyMeanMs : float64;
}.
#[export] Instance eta_OptimizationConfig : Eta OptimizationConfig := λ r, mkOptConfig
  (oc_Objective r) (oc_MaxIterations r) (oc_StepSize r) (oc_EvaluationDurationMs r)
  (oc_Online r) (oc_TargetP95LatencyMs r) (oc_ControlIntervalMs r) (oc_MinHosts r)
  (oc_MaxHosts r) (oc_ScaleDownCpuUtilMax r) (oc_ScaleDownMemUtilMax r)
  (oc_OptimizationTargetPrimary r) (oc_TargetUtilHigh r) (oc_TargetUtilLow r)
  (oc_ScaleDownHostCpuUtilMax r) (oc_MaxEvaluations r) (oc_MinReplicasPerService r)
  (oc_MinCpuCoresPerInstance r) (oc_MinMemoryMbPerInstance r)
  (oc_ScaleDownStabilizationWindowMs r) (oc_ScaleDownCooldownMs r) (oc_DrainTimeoutMs r)
  (oc_MemoryDownsizeHeadroomMb r) (oc_ScaleDownHostMemUtilMax r) (oc_MaxControllerSteps r)
  (oc_MaxOnlineDurationMs r) (oc_AllowUnboundedOnline r) (oc_MaxNoopIntervals r)
  (oc_LeaseTtlMs r) (oc_Batch r) (oc_MinLocalityHitRate r) (oc_MaxCrossZoneRequestFraction r)
  (oc_MaxTopologyLatencyPenaltyMeanMs r).
Record RunInput := mkRunInput {
  ri_ScenarioYaml : string;
  ri_ConfigYaml : string;
  ri_DurationMs : Z;
  ri_Seed : Z;
  ri_RealTimeMode : bool;
  ri_Optimization : option OptimizationConfig;
  ri_CallbackUrl : string;
  ri_CallbackSecret : string;
}.
#[export] Instance eta_RunInput : Eta RunInput := λ r, mkRunInput (ri_ScenarioYaml r)
  (ri_ConfigYaml r) (ri_DurationMs r) (ri_Seed r) (ri_RealTimeMode r) (ri_Optimization r)
  (ri_CallbackUrl r) (ri_CallbackSecret r).
Record RunMsg := mkRunMsg {
  run_Id : string;
  run_Status : Status;
  run_CreatedAtUnixMs : Z;
  run_StartedAtUnixMs : Z;
  run_EndedAtUnixMs : Z;
  run_Error : string;
  run_BestRunId : string;
  run_BestScore : float64;
  run_Iterations : Z;
  run_CandidateRunIds : list string;
  run_OnlineCompletionReason : string;
  run_BatchRecommendationFeasible : bool;
  run_BatchViolationScore : float64;
  run_BatchEfficiencyScore : float64;
  run_BatchRecommendationSummary : string;
}.
#[export] Instance eta_RunMsg : Eta RunMsg := λ r, mkRunMsg (run_Id r) (run_Status r)
  (run_CreatedAtUnixMs r) (run_StartedAtUnixMs r) (run_EndedAtUnixMs r) (run_Error r)
  (run_BestRunId r) (run_BestScore r) (run_Iterations r) (run_CandidateRunIds r)
  (run_OnlineCompletionReason r) (run_BatchRecommendationFeasible r) (run_BatchViolationScore r)
  (run_BatchEfficiencyScore r) (run_BatchRecommendationSummary r).

(** * Limits on online runs *)

Record OnlineRunLimits := mkOnlineLimits {
  ol_ServerMaxOnlineDuration : Duration;
  ol_ServerMaxControllerSteps : Z;
  ol_MaxConcurrentOnlineRuns : Z;
  ol_DefaultMaxOnlineDuration : Duration;
  ol_HeartbeatRequiredAfterDuration : Duration;
}.
Definition DefaultOnlineRunLimits : OnlineRunLimits :=
  mkOnlineLimits (30 * Minute) 0 0 (10 * Minute) (10 * Minute).
Definition math_MaxInt32 : Z := 2 ^ 31 - 1.
Definition ErrInvalidOnlineRunInput : string := "invalid online run input".

(** [(a + b - 1) / b] on int64. *)
Definition ceil_div64 (a b : Z) : Z := Z.quot (wrap64 (wrap64 (a + b) - 1)) b.
Definition clamp_count (lo n : Z) : Z :=
  let n := if n <? lo then lo else n in if math_MaxInt32 <? n then math_MaxInt32 else n.

(** The duration the run will use: the default when none is asked for, and never
    above the server's cap. *)
Definition online_duration (limits : OnlineRunLimits) (opt : OptimizationConfig) : Z :=
  let d := if negb (oc_AllowUnboundedOnline opt) && (oc_MaxOnlineDurationMs opt =? 0)
           then Milliseconds (ol_DefaultMaxOnlineDuration limits) else oc_MaxOnlineDurationMs opt in
  let capMs := Milliseconds (ol_ServerMaxOnlineDuration limits) in
  if (0 <? ol_ServerMaxOnlineDuration limits) && (0 <? d) && (capMs <? d) then capMs else d.
Definition online_steps (limits : OnlineRunLimits) (intervalMs maxDurMs maxSteps : Z) : Z :=
  let s := if (maxSteps =? 0) && (0 <? maxDurMs)
           then clamp_count 1 (ceil_div64 maxDurMs intervalMs) else maxSteps in
  if (0 <? ol_ServerMaxControllerSteps limits) && (ol_ServerMaxControllerSteps limits <? s)
  then ol_ServerMaxControllerSteps limits else s.
Definition online_noop (opt : OptimizationConfig) (intervalMs maxDurMs : Z) : Z :=
  if oc_MaxNoopIntervals opt =? 0 then
    if oc_AllowUnboundedOnline opt && (maxDurMs =? 0) then -1
    else clamp_count 20 (ceil_div64 (60 * 1000) intervalMs)
  else oc_MaxNoopIntervals opt.
Definition prepare_online (limits : OnlineRunLimits) (opt : OptimizationConfig) : go OptimizationConfig :=
  let intervalMs := if oc_ControlIntervalMs opt <=? 0 then 1000 else oc_ControlIntervalMs opt in
  let maxDurMs := online_duration limits opt in
  let heartbeatMs := Milliseconds (ol_HeartbeatRequiredAfterDuration limits) in
  if (heartbeatMs <? maxDurMs) && negb (oc_AllowUnboundedOnline opt) && (oc_LeaseTtlMs opt <=? 0) then
    Fail (ErrInvalidOnlineRunInput +:+ ": lease_ttl_ms is required when max_online_duration_ms exceeds "
          +:+ Itoa heartbeatMs +:+ " ms (server heartbeat threshold)")
  else
    Ok (opt <| oc_ControlIntervalMs := intervalMs |> <| oc_MaxOnlineDurationMs := maxDurMs |>
            <| oc_MaxControllerSteps := online_steps limits intervalMs maxDurMs (oc_MaxControllerSteps opt) |>
            <| oc_MaxNoopIntervals := online_noop opt intervalMs maxDurMs |>).
(** Mutates the clone the store will keep; other inputs are left alone. *)
Definition PrepareOnlineRunInput (input : option RunInput) (limits : OnlineRunLimits)
    : go (option RunInput) :=
  match input with
  | Some i =>
      match ri_Optimization i with
      | Some opt =>
          if oc_Online opt then
            let! opt := prepare_online limits opt in Ok (Some (i <| ri_Optimization := Some opt |>))
          else Ok input
      | None => Ok input
      end
  | None => Ok input
  end.

(** The optimisation message of an input, nil-safe ([GetOptimization]). *)
Definition get_optimization (input : option RunInput) : option OptimizationConfig :=
  input ≫= ri_Optimization.
Definition is_online (input : option RunInput) : bool :=
  match get_optimization input with Some opt => oc_Online opt | None => false end.

(** * Retention settings *)

Record RunStoreLifecycleConfig := mkLifecycle {
  lc_TTL : Duration;
  lc_CleanupInterval : Duration;
  lc_MaxTerminalRuns : Z;
  lc_MaxOptimizationCandidates : Z;
  lc_KeepCollectorAfterCompletion : bool;
  lc_KeepCandidateInputAfterCleanup : bool;
}.
Definition defaultRunStoreLifecycleConfig : RunStoreLifecycleConfig :=
  mkLifecycle (30 * Minute) Minute 500 200 false false.

(** * Sorting *)

(** [sort.Slice] returns some ordered permutation of its argument. *)
Class SortSlice (sort : ∀ A : Type, (A → A → bool) → list A → list A) : Prop := {
  sort_perm A less l : sort A less l ≡ₚ l;
  sort_ordered A less l i j x y :
    (∀ a, less a a = false) → (∀ a b c, less a b = true → less b c = true → less a c = true) →
    (∀ a b c, less a b = true → less a c = true ∨ less c b = true) →
    (i < j)%nat → sort A less l !! i = Some x → sort A less l !! j = Some y → less y x = false;
}.

Definition isTerminalStatus (s : Status) : bool :=
  match s with COMPLETED | FAILED | CANCELLED | STOPPED => true | _ => false end.

Section Store.
Context {Metrics Conf Step : Type}.

Record RunRecord := mkRunRecord {
  rr_Run : RunMsg;
  rr_Input : option RunInput;
  rr_Metrics : option Metrics;
  rr_Collector : option positive;
  rr_IsOptimizationChild : bool;
  rr_OptimizationHistory : list Step;
  rr_FinalConfig : option Conf;
}.
#[export] Instance eta_RunRecord : Eta RunRecord := λ r, mkRunRecord (rr_Run r) (rr_Input r)
  (rr_Metrics r) (rr_Collector r) (rr_IsOptimizationChild r) (rr_OptimizationHistory r)
  (rr_FinalConfig r).
Record RunStore := mkRunStore {
  rs_runs : gmap string RunRecord;
  rs_onlineLimits : OnlineRunLimits;
  rs_lifecycle : RunStoreLifecycleConfig;
}.
#[export] Instance eta_RunStore : Eta RunStore := λ r, mkRunStore (rs_runs r) (rs_onlineLimits r)
  (rs_lifecycle r).

Definition NewRunStore (lifecycle : RunStoreLifecycleConfig) : RunStore :=
  mkRunStore ∅ DefaultOnlineRunLimits lifecycle.

(** * Counting *)

Definition rr_Status (rec : RunRecord) : Status := run_Status (rr_Run rec).
Definition running_online (rec : RunRecord) : bool :=
  bool_decide (rr_Status rec = RUNNING) && is_online (rr_Input rec).
Definition records (s : RunStore) : list RunRecord := snd <$> map_to_list (rs_runs s).
(** How many records satisfy [p]: a counter incremented over the map. *)
Definition count_runs (p : RunRecord → bool) (s : RunStore) : Z :=
  Z.of_nat (length (List.filter p (records s))).
Definition RunStore_CountRunningOnline (s : RunStore) : Z := count_runs running_online s.

Record RunStoreCounts := mkCounts {
  cnt_Active : Z;
  cnt_CompletedRetained : Z;
  cnt_FailedRetained : Z;
  cnt_CancelledRetained : Z;
  cnt_OptimizationCandidates : Z;
}.
Definition is_active (rec : RunRecord) : bool :=
  match rr_Status rec with RUNNING | PENDING => true | _ => false end.
Definition is_cancelled (rec : RunRecord) : bool :=
  match rr_Status rec with CANCELLED | STOPPED => true | _ => false end.
Definition RunStore_Counts (s : RunStore) : RunStoreCounts :=
  mkCounts (count_runs is_active s)
    (count_runs (λ r, bool_decide (rr_Status r = COMPLETED)) s)
    (count_runs (λ r, bool_decide (rr_Status r = FAILED)) s)
    (count_runs is_cancelled s) (count_runs rr_IsOptimizationChild s).
Definition RunStore_SetOnlineLimits (l : OnlineRunLimits) (s : RunStore) : RunStore :=
  s <| rs_onlineLimits := l |>.

(** * Creation *)

(** [config.UnmarshalScenarioYAML]: the YAML library. *)
Definition ParseScenarioYAML (unmarshal : string → go Scenario) (text : string) : go Scenario :=
  let! scenario := unmarshal text in wrap_err "invalid scenario: " (ValidateScenario scenario).
Definition validateBatchOptimizationInput (unmarshal : string → go Scenario) (input : option RunInput)
    : go unit :=
  match input with
  | None => Ok tt
  | Some i =>
      match ri_Optimization i with
      | None => Ok tt
      | Some opt =>
          match oc_Batch opt with
          | None => Ok tt
          | Some b =>
              fail_if (oc_Online opt) "batch optimization cannot be used with online=true" ;;!
              let! scenario := wrap_err "batch optimization: invalid scenario yaml: "
                                 (ParseScenarioYAML unmarshal (ri_ScenarioYaml i)) in
              let! _ := wrap_err "batch optimization: " (ParseBatchSpec (Some b) (Some scenario)) in
              Ok tt
          end
      end
  end.
Fixpoint contains_any (s : string) : bool :=
  match s with
  | EmptyString => false
  | String c s => Ascii.eqb c ":" || Ascii.eqb c "/" || contains_any s
  end.
Definition new_record (runID : string) (input : option RunInput) (nowMs : Z) : RunRecord :=
  mkRunRecord (mkRunMsg runID PENDING nowMs 0 0 "" "" f0 0 [] "" false f0 f0 "") input None None
    (HasPrefix runID "opt-") [] None.
Definition RunStore_Create (unmarshal : string → go Scenario) (generated : string) (nowMs : Z)
    (runID : string) (input : option RunInput) (s : RunStore) : go (RunRecord * RunStore) :=
  validateBatchOptimizationInput unmarshal input ;;!
  let runID := if is_empty runID then generated else runID in
  fail_if (contains_any runID) ("run ID cannot contain ':' or '/' characters: " +:+ runID) ;;!
  fail_if (bool_decide (is_Some (rs_runs s !! runID))) ("run already exists: " +:+ runID) ;;!
  let! input := PrepareOnlineRunInput input (rs_onlineLimits s) in
  let rec := new_record runID input nowMs in
  Ok (rec, s <| rs_runs := <[runID := rec]> (rs_runs s) |>).

(** * Lookup and listing *)

Definition RunStore_Get (runID : string) (s : RunStore) : option RunRecord := rs_runs s !! runID.
Definition newer (a b : RunRecord) : bool :=
  run_CreatedAtUnixMs (rr_Run b) <? run_CreatedAtUnixMs (rr_Run a).
Definition sortRunRecords (sort : ∀ A : Type, (A → A → bool) → list A → list A)
    (runs : list RunRecord) : list RunRecord := sort RunRecord newer runs.
Definition matches_status (status : Status) (rec : RunRecord) : bool :=
  negb (negb (bool_decide (status = UNSPECIFIED)) && negb (bool_decide (rr_Status rec = status))).
(** [order] is the order in which the loop visits the map's records. *)
Definition RunStore_ListFiltered (sort : ∀ A : Type, (A → A → bool) → list A → list A)
    (order : list RunRecord) (limit offset : Z) (status : Status) : list RunRecord :=
  let limit := if limit <=? 0 then 50 else limit in
  let offset := if offset <? 0 then 0 else offset in
  let allRuns := sortRunRecords sort (List.filter (matches_status status) order) in
  let start := offset in
  let n := Z.of_nat (length allRuns) in
  if n <? start then []
  else
    let end_ := wrap64 (start + limit) in
    let end_ := if n <? end_ then n else end_ in
    if end_ <=? start then []
    else take (Z.to_nat (end_ - start)) (drop (Z.to_nat start) allRuns).

(** * Status *)

Definition ErrRunNotFound : string := "run not found".
Definition ErrRunTerminal : string := "run is terminal".
Definition ErrOnlineRunConcurrencyLimit : string := "online run concurrency limit".

Definition set_run (runID : string) (rec : RunRecord) (s : RunStore) : RunStore :=
  s <| rs_runs := <[runID := rec]> (rs_runs s) |>.
Definition start_run (nowMs : Z) (r : RunMsg) : RunMsg :=
  if run_StartedAtUnixMs r =? 0 then r <| run_StartedAtUnixMs := nowMs |> else r.
Definition RunStore_SetStatusRunningWithOnlineConcurrencyGuard (nowMs : Z) (runID : string)
    (s : RunStore) : go (RunRecord * RunStore) :=
  match rs_runs s !! runID with
  | None => Fail (ErrRunNotFound +:+ ": " +:+ runID)
  | Some rec =>
      match rr_Status rec with
      | RUNNING => Ok (rec, s)
      | COMPLETED | FAILED | CANCELLED | STOPPED => Fail (ErrRunTerminal +:+ ": " +:+ runID)
      | UNSPECIFIED | PENDING =>
          let lim := ol_MaxConcurrentOnlineRuns (rs_onlineLimits s) in
          fail_if (is_online (rr_Input rec) && (0 <? lim) && (lim <=? RunStore_CountRunningOnline s))
            (ErrOnlineRunConcurrencyLimit +:+ ": maximum concurrent online runs (" +:+ Itoa lim
             +:+ ") reached") ;;!
          let rec := rec <| rr_Run := start_run nowMs ((rr_Run rec) <| run_Status := RUNNING |>) |> in
          Ok (rec, set_run runID rec s)
      end
  end.
Definition RunStore_finalizeRunStorageLocked (lc : RunStoreLifecycleConfig) (rec : RunRecord) : RunRecord :=
  let rec := if lc_KeepCollectorAfterCompletion lc then rec else rec <| rr_Collector := None |> in
  if rr_IsOptimizationChild rec && negb (lc_KeepCandidateInputAfterCleanup lc) then
    rec <| rr_Input := None |> <| rr_OptimizationHistory := [] |> <| rr_FinalConfig := None |>
  else rec.
(** The body of [SetStatus] on the record found. *)
Definition with_status (lc : RunStoreLifecycleConfig) (nowMs : Z) (status : Status) (errMsg : string)
    (rec : RunRecord) : RunRecord :=
  let run := (rr_Run rec) <| run_Status := status |> in
  let run := if is_empty errMsg then run else run <| run_Error := errMsg |> in
  match status with
  | RUNNING => rec <| rr_Run := start_run nowMs run |>
  | COMPLETED | FAILED | CANCELLED | STOPPED =>
      RunStore_finalizeRunStorageLocked lc (rec <| rr_Run := run <| run_EndedAtUnixMs := nowMs |> |>)
  | UNSPECIFIED | PENDING => rec <| rr_Run := run |>
  end.
(** The operations that look a run up and change its record. *)
Definition update_run (runID : string) (f : RunRecord → RunRecord) (s : RunStore)
    : go (RunRecord * RunStore) :=
  match rs_runs s !! runID with
  | None => Fail ("run not found: " +:+ runID)
  | Some rec => Ok (f rec, set_run runID (f rec) s)
  end.
Definition RunStore_SetStatus (nowMs : Z) (runID : string) (status : Status) (errMsg : string)
    (s : RunStore) : go (RunRecord * RunStore) :=
  update_run runID (with_status (rs_lifecycle s) nowMs status errMsg) s.
Definition RunStore_SetOnlineCompletionReason (runID reason : string) (s : RunStore)
    : go (RunRecord * RunStore) :=
  update_run runID (λ rec, rec <| rr_Run := (rr_Run rec) <| run_OnlineCompletionReason := reason |> |>) s.
Definition RunStore_SetMetrics (runID : string) (m : option Metrics) (s : RunStore)
    : go (RunRecord * RunStore) := update_run runID (λ rec, rec <| rr_Metrics := m |>) s.
Definition RunStore_SetFinalConfiguration (runID : string) (cfg : option Conf) (s : RunStore)
    : go (RunRecord * RunStore) := update_run runID (λ rec, rec <| rr_FinalConfig := cfg |>) s.
Definition RunStore_SetBatchRecommendation (runID : string) (feasible : bool)
    (violationScore efficiencyScore : float64) (summary : string) (s : RunStore)
    : go (RunRecord * RunStore) :=
  update_run runID (λ rec, rec <| rr_Run := (rr_Run rec) <| run_BatchRecommendationFeasible := feasible |>
    <| run_BatchViolationScore := violationScore |> <| run_BatchEfficiencyScore := efficiencyScore |>
    <| run_BatchRecommendationSummary := summary |> |>) s.
Definition RunStore_SetCollector (runID : string) (collector : option positive) (s : RunStore)
    : go (RunRecord * RunStore) := update_run runID (λ rec, rec <| rr_Collector := collector |>) s.
Definition RunStore_GetCollector (runID : string) (s : RunStore) : option positive :=
  rs_runs s !! runID ≫= rr_Collector.
Definition RunStore_AppendOptimizationStep (runID : string) (step : option Step) (s : RunStore) : go RunStore :=
  match step with
  | None => Ok s
  | Some step =>
      let! r := update_run runID
        (λ rec, rec <| rr_OptimizationHistory := rr_OptimizationHistory rec ++ [step] |>) s in Ok (snd r)
  end.
Definition RunStore_OptimizationHistoryCount (runID : string) (s : RunStore) : Z :=
  match rs_runs s !! runID with
  | None => 0
  | Some rec => Z.of_nat (length (rr_OptimizationHistory rec))
  end.

(** * Optimisation results *)

(** [ids[:max]] when a positive maximum is exceeded; [None] is the nil slice. *)
Definition cap_candidates (max : Z) (ids : option (list string)) : list string :=
  match ids with
  | None => []
  | Some ids => if (0 <? max) && (max <? Z.of_nat (length ids)) then take (Z.to_nat max) ids else ids
  end.
Definition RunStore_SetOptimizationResult (runID bestRunID : string) (bestScore : float64) (iterations : Z)
    (candidateRunIDs : option (list string)) (s : RunStore) : go (RunRecord * RunStore) :=
  update_run runID (λ rec, rec <| rr_Run := (rr_Run rec) <| run_BestRunId := bestRunID |>
    <| run_BestScore := bestScore |> <| run_Iterations := iterations |>
    <| run_CandidateRunIds := cap_candidates (lc_MaxOptimizationCandidates (rs_lifecycle s))
                                candidateRunIDs |> |>) s.
Definition RunStore_SetOptimizationProgress (runID : string) (iteration : Z) (bestScore : float64)
    (s : RunStore) : RunStore :=
  match update_run runID (λ rec, rec <| rr_Run := (rr_Run rec) <| run_Iterations := iteration |>
    <| run_BestScore := bestScore |> |>) s with
  | Ok (_, s) => s
  | _ => s
  end.

(** The candidates of the parent that are kept: the non-empty ones among the
    first [limit], and the best run. *)
Fixpoint kept_candidates (limit i : Z) (ids : list string) : list string :=
  match ids with
  | [] => []
  | id :: ids =>
      if is_empty id then kept_candidates limit (i + 1) ids
      else if (0 <? limit) && (limit <=? i) then []
      else id :: kept_candidates limit (i + 1) ids
  end.
Definition trim_record (lc : RunStoreLifecycleConfig) (keep : list string) (runID : string)
    (rec : RunRecord) : option RunRecord :=
  if negb (rr_IsOptimizationChild rec) || negb (isTerminalStatus (rr_Status rec)) then Some rec
  else if bool_decide (runID ∈ keep) then Some (RunStore_finalizeRunStorageLocked lc rec)
  else None.
Definition RunStore_TrimOptimizationCandidates (parentRunID bestRunID : string) (s : RunStore) : RunStore :=
  match rs_runs s !! parentRunID with
  | None => s
  | Some parent =>
      let limit := lc_MaxOptimizationCandidates (rs_lifecycle s) in
      let keep := (if is_empty bestRunID then [] else [bestRunID])
                  ++ kept_candidates limit 0 (run_CandidateRunIds (rr_Run parent)) in
      s <| rs_runs := map_imap (trim_record (rs_lifecycle s) keep) (rs_runs s) |>
  end.

(** * Retention *)

Record terminalRun := mkTerminal { tr_id : string; tr_ended : Z; tr_child : bool }.
Definition ended_at (rec : RunRecord) : Z :=
  if run_EndedAtUnixMs (rr_Run rec) =? 0 then run_CreatedAtUnixMs (rr_Run rec)
  else run_EndedAtUnixMs (rr_Run rec).
Definition expired (lc : RunStoreLifecycleConfig) (nowMs : Z) (rec : RunRecord) : bool :=
  (0 <? lc_TTL lc) && (Milliseconds (lc_TTL lc) <=? wrap64 (nowMs - ended_at rec)).
Definition cleanup_visit (lc : RunStoreLifecycleConfig) (nowMs : Z)
    (st : gmap string RunRecord * list terminalRun) (id : string)
    : gmap string RunRecord * list terminalRun :=
  let '(runs, terminal) := st in
  match runs !! id with
  | None => st
  | Some rec =>
      if negb (isTerminalStatus (rr_Status rec)) then st
      else
        let rec := RunStore_finalizeRunStorageLocked lc rec in
        if expired lc nowMs rec then (delete id runs, terminal)
        else (<[id := rec]> runs,
              terminal ++ [mkTerminal id (ended_at rec) (rr_IsOptimizationChild rec)])
  end.
Definition evicted_first (a b : terminalRun) : bool :=
  if bool_decide (tr_child a = tr_child b) then tr_ended a <? tr_ended b else tr_child a.
(** The last loop: the front of the list is evicted while it is too long. *)
Definition evict_terminal (max : Z) (terminal : list terminalRun) (runs : gmap string RunRecord)
    : gmap string RunRecord :=
  foldl (λ runs t, delete (tr_id t) runs) runs (take (length terminal - Z.to_nat max) terminal).
(** [order] is the order in which the loop visits the keys of the map. *)
Definition RunStore_CleanupNow (sort : ∀ A : Type, (A → A → bool) → list A → list A)
    (order : list string) (nowMs : Z) (s : RunStore) : RunStore :=
  let lc := rs_lifecycle s in
  let '(runs, terminal) := foldl (cleanup_visit lc nowMs) (rs_runs s, []) order in
  if (lc_MaxTerminalRuns lc <=? 0) || (Z.of_nat (length terminal) <=? lc_MaxTerminalRuns lc)
  then s <| rs_runs := runs |>
  else s <| rs_runs := evict_terminal (lc_MaxTerminalRuns lc) (sort terminalRun evicted_first terminal) runs |>.

(** * Counting lemmas *)

(** The keys of the records that satisfy [p]. *)
Definition keys_with (p : RunRecord → bool) (m : gmap string RunRecord) : gset string :=
  dom (filter (λ kv, p (snd kv) = true) m).
Lemma elem_of_keys_with p m k :
  k ∈ keys_with p m ↔ ∃ rec, m !! k = Some rec ∧ p rec = true.
Proof.
  unfold keys_with. rewrite elem_of_dom. unfold is_Some.
  by setoid_rewrite map_lookup_filter_Some.
Qed.
Lemma count_keys p s : count_runs p s = Z.of_nat (size (keys_with p (rs_runs s))).
Proof.
  unfold count_runs, records, keys_with. f_equal. rewrite size_dom.
  induction (rs_runs s) as [|k rec m Hk Hf IH] using map_first_key_ind; [done|].
  rewrite map_to_list_insert_first_key by done. cbn [fmap list_fmap List.filter snd].
  destruct (p rec) eqn:E.
  - rewrite map_filter_insert_True, map_size_insert_None by (done || by apply map_lookup_filter_None_2; left).
    cbn [length]. by rewrite <-IH.
  - rewrite map_filter_insert_not'; [done|simpl; congruence|]. intros y. by rewrite Hk.
Qed.
Lemma count_le p q s s' :
  (∀ k rec', rs_runs s' !! k = Some rec' → p rec' = true →
     ∃ rec, rs_runs s !! k = Some rec ∧ q rec = true) →
  count_runs p s' ≤ count_runs q s.
Proof.
  intros H. rewrite !count_keys. apply inj_le, subseteq_size. intros k.
  rewrite !elem_of_keys_with. naive_solver.
Qed.
Lemma count_le_insert p s s' k0 :
  (∀ k rec', k ≠ k0 → rs_runs s' !! k = Some rec' → p rec' = true →
     ∃ rec, rs_runs s !! k = Some rec ∧ p rec = true) →
  count_runs p s' ≤ count_runs p s + 1.
Proof.
  intros H. rewrite !count_keys.
  assert (keys_with p (rs_runs s') ⊆ {[k0]} ∪ keys_with p (rs_runs s)) as Hs.
  { intros k. rewrite elem_of_union, elem_of_singleton, !elem_of_keys_with.
    destruct (decide (k = k0)); naive_solver. }
  apply subseteq_size in Hs. pose proof (size_union_alt {[k0]} (keys_with p (rs_runs s))) as E.
  rewrite size_singleton in E.
  pose proof (subseteq_size (keys_with p (rs_runs s) ∖ {[k0]}) (keys_with p (rs_runs s))
    ltac:(set_solver)). lia.
Qed.

(** * The store as a transition system *)

Inductive StoreOp :=
  | OpCreate (generated : string) (nowMs : Z) (runID : string) (input : option RunInput)
  | OpStart (nowMs : Z) (runID : string)
  | OpSetStatus (nowMs : Z) (runID : string) (status : Status) (errMsg : string)
  | OpSetOnlineCompletionReason (runID reason : string)
  | OpSetMetrics (runID : string) (m : option Metrics)
  | OpSetFinalConfiguration (runID : string) (cfg : option Conf)
  | OpSetBatchRecommendation (runID : string) (feasible : bool) (violation efficiency : float64)
      (summary : string)
  | OpSetCollector (runID : string) (collector : option positive)
  | OpAppendOptimizationStep (runID : string) (step : option Step)
  | OpSetOptimizationResult (runID bestRunID : string) (bestScore : float64) (iterations : Z)
      (candidates : option (list string))
  | OpSetOptimizationProgress (runID : string) (iteration : Z) (bestScore : float64)
  | OpTrimOptimizationCandidates (parentRunID bestRunID : string)
  | OpCleanupNow (order : list string) (nowMs : Z).

(** The store after an operation; one that fails changes nothing. *)
Definition after (s : RunStore) (r : go (RunRecord * RunStore)) : RunStore :=
  match r with Ok (_, s') => s' | _ => s end.

(** What holds of every stored record, and of the store. *)
Definition record_ok (lc : RunStoreLifecycleConfig) (id : string) (rec : RunRecord) : Prop :=
  run_Id (rr_Run rec) = id ∧ contains_any id = false
  ∧ rr_IsOptimizationChild rec = HasPrefix id "opt-"
  ∧ (0 < lc_MaxOptimizationCandidates lc →
     Z.of_nat (length (run_CandidateRunIds (rr_Run rec))) ≤ lc_MaxOptimizationCandidates lc).
Definition cap_ok (s : RunStore) : Prop :=
  0 < ol_MaxConcurrentOnlineRuns (rs_onlineLimits s) →
  RunStore_CountRunningOnline s ≤ ol_MaxConcurrentOnlineRuns (rs_onlineLimits s).
Definition store_ok (s : RunStore) : Prop :=
  map_Forall (record_ok (rs_lifecycle s)) (rs_runs s) ∧ cap_ok s.

(** A change that only drops or edits records, without making one run. *)
Lemma shrink_ok s m :
  store_ok s →
  (∀ k rec', m !! k = Some rec' → ∃ rec, rs_runs s !! k = Some rec
     ∧ (record_ok (rs_lifecycle s) k rec → record_ok (rs_lifecycle s) k rec')
     ∧ (running_online rec' = true → running_online rec = true)) →
  store_ok (s <| rs_runs := m |>).
Proof.
  intros [Hr Hc] H. split.
  - intros k rec' E. destruct (H k rec' E) as (rec & E' & Hrec & _). apply Hrec, (Hr k rec E').
  - intros P. etrans; [|exact (Hc P)]. apply (count_le running_online running_online).
    intros k rec' E Hrun. destruct (H k rec' E) as (rec & E' & _ & Hp). eauto.
Qed.
Lemma update_run_ok s id f :
  store_ok s →
  (∀ rec, record_ok (rs_lifecycle s) id rec → record_ok (rs_lifecycle s) id (f rec)) →
  (∀ rec, running_online (f rec) = true → running_online rec = true) →
  store_ok (after s (update_run id f s)).
Proof.
  intros Hs Hf Hrun. unfold update_run. destruct (rs_runs s !! id) as [rec|] eqn:E; [|done].
  apply (shrink_ok s (<[id := f rec]> (rs_runs s)) Hs). intros k rec'.
  rewrite lookup_insert_Some. intros [[<- <-]|[? E']]; [exists rec|exists rec']; eauto.
Qed.
Lemma finalize_fields lc rec :
  rr_Run (RunStore_finalizeRunStorageLocked lc rec) = rr_Run rec
  ∧ rr_IsOptimizationChild (RunStore_finalizeRunStorageLocked lc rec) = rr_IsOptimizationChild rec.
Proof.
  unfold RunStore_finalizeRunStorageLocked.
  destruct (lc_KeepCollectorAfterCompletion lc), (rr_IsOptimizationChild rec) eqn:E,
    (lc_KeepCandidateInputAfterCleanup lc); simpl; rewrite ?E; done.
Qed.
Lemma finalize_record_ok lc k rec :
  record_ok lc k rec → record_ok lc k (RunStore_finalizeRunStorageLocked lc rec).
Proof. unfold record_ok. destruct (finalize_fields lc rec) as [-> ->]. done. Qed.
Lemma with_status_status lc now st e rec : rr_Status (with_status lc now st e rec) = st.
Proof.
  unfold with_status, rr_Status.
  destruct st; rewrite ?(proj1 (finalize_fields _ _)); unfold start_run; simpl;
    repeat case_match; done.
Qed.
Lemma with_status_record_ok lc now st e k rec :
  record_ok lc k rec → record_ok lc k (with_status lc now st e rec).
Proof.
  intros H. unfold with_status.
  destruct st; try apply finalize_record_ok; unfold start_run, record_ok in *; simpl;
    repeat case_match; exact H.
Qed.
Lemma terminal_not_running rec : isTerminalStatus (rr_Status rec) = true → running_online rec = false.
Proof. unfold running_online. by destruct (rr_Status rec). Qed.

(** ** The cleanup pass *)

(** What the first loop does to one record, and the entry it makes of it. *)
Definition cleanup_record (lc : RunStoreLifecycleConfig) (nowMs : Z) (rec : RunRecord) : option RunRecord :=
  if negb (isTerminalStatus (rr_Status rec)) then Some rec
  else if expired lc nowMs rec then None
  else Some (RunStore_finalizeRunStorageLocked lc rec).
Definition retained (lc : RunStoreLifecycleConfig) (nowMs : Z) (rec : RunRecord) : bool :=
  isTerminalStatus (rr_Status rec) && negb (expired lc nowMs rec).
Definition entry (id : string) (rec : RunRecord) : terminalRun :=
  mkTerminal id (ended_at rec) (rr_IsOptimizationChild rec).
Definition entry_of (lc : RunStoreLifecycleConfig) (nowMs : Z) (m : gmap string RunRecord) (id : string)
    : option terminalRun :=
  rec ← m !! id; if retained lc nowMs rec then Some (entry id rec) else None.

Lemma finalize_ended lc rec :
  ended_at (RunStore_finalizeRunStorageLocked lc rec) = ended_at rec.
Proof. unfold ended_at. by rewrite (proj1 (finalize_fields _ _)). Qed.
Lemma finalize_expired lc now rec :
  expired lc now (RunStore_finalizeRunStorageLocked lc rec) = expired lc now rec.
Proof. unfold expired. by rewrite finalize_ended. Qed.
Lemma cleanup_visit_eq lc now m acc id :
  cleanup_visit lc now (m, acc) id =
  (partial_alter (λ r, r ≫= cleanup_record lc now) id m, acc ++ option_list (entry_of lc now m id)).
Proof.
  unfold cleanup_visit, entry_of, retained. destruct (m !! id) as [rec|] eqn:E; simpl.
  - destruct (isTerminalStatus (rr_Status rec)) eqn:T; simpl;
      [rewrite finalize_expired; destruct (expired lc now rec) eqn:X; simpl|];
      rewrite ?app_nil_r, ?finalize_ended, ?(proj2 (finalize_fields _ _)); f_equal;
      apply map_eq; intros k; rewrite lookup_partial_alter;
      (case_decide as D; [subst k|by rewrite ?lookup_delete_ne, ?lookup_insert_ne]);
      rewrite ?lookup_delete_eq, ?lookup_insert_eq, E; simpl; unfold cleanup_record; by rewrite T, ?X.
  - rewrite app_nil_r. f_equal. apply map_eq. intros k. rewrite lookup_partial_alter.
    case_decide; subst; by rewrite ?E.
Qed.
Lemma entry_of_alter lc now m f id id' :
  id ≠ id' → entry_of lc now (partial_alter f id m) id' = entry_of lc now m id'.
Proof. intros. unfold entry_of. by rewrite lookup_partial_alter_ne. Qed.
Lemma cleanup_fold lc now order : NoDup order → ∀ m acc,
  ∃ m', foldl (cleanup_visit lc now) (m, acc) order = (m', acc ++ omap (entry_of lc now m) order)
  ∧ ∀ k, m' !! k = if decide (k ∈ order) then m !! k ≫= cleanup_record lc now else m !! k.
Proof.
  induction 1 as [|id order Hid _ IH]; intros m acc; cbn [foldl].
  - exists m. split; [by rewrite app_nil_r|]. intros k. case_decide as D; [|done]. by apply elem_of_nil in D.
  - rewrite cleanup_visit_eq.
    destruct (IH (partial_alter (λ r, r ≫= cleanup_record lc now) id m)
                 (acc ++ option_list (entry_of lc now m id))) as (m' & -> & Hm').
    exists m'. split.
    + f_equal. rewrite <-app_assoc. f_equal.
      assert (omap (entry_of lc now (partial_alter (λ r, r ≫= cleanup_record lc now) id m)) order
              = omap (entry_of lc now m) order) as ->.
      { apply list_omap_ext, Forall_Forall2_diag, Forall_forall. intros x Hx.
        apply entry_of_alter. by intros ->. }
      cbn [omap list_omap]. by destruct (entry_of lc now m id).
    + intros k. rewrite Hm'. destruct (decide (k = id)) as [->|Hk].
      * rewrite (decide_False _ _ Hid), lookup_partial_alter_eq, decide_True by set_solver. done.
      * rewrite lookup_partial_alter_ne by done.
        destruct (decide (k ∈ order)); [rewrite decide_True by set_solver|rewrite decide_False by set_solver]; done.
Qed.
Lemma evict_lookup max l m k :
  evict_terminal max l m !! k =
  if decide (k ∈ tr_id <$> take (length l - Z.to_nat max) l) then None else m !! k.
Proof.
  unfold evict_terminal. generalize (take (length l - Z.to_nat max) l) as l'. clear l.
  intros l. revert m. induction l as [|t l IH]; intros m; cbn [foldl fmap list_fmap].
  - case_decide as D; [by apply elem_of_nil in D|done].
  - rewrite IH. destruct (decide (k = tr_id t)) as [->|Hk].
    + rewrite (decide_True (P := tr_id t ∈ tr_id t :: _)) by set_solver. case_decide; [done|].
      by rewrite lookup_delete_eq.
    + rewrite lookup_delete_ne by done.
      repeat case_decide; set_solver.
Qed.
Lemma evicted_first_irrefl a : evicted_first a a = false.
Proof. unfold evicted_first. rewrite bool_decide_true by done. apply Z.ltb_irrefl. Qed.
Lemma evicted_first_trans a b c :
  evicted_first a b = true → evicted_first b c = true → evicted_first a c = true.
Proof.
  unfold evicted_first. destruct a as [? ? []], b as [? ? []], c as [? ? []]; simpl; try done; lia.
Qed.
Lemma evicted_first_cotrans a b c :
  evicted_first a b = true → evicted_first a c = true ∨ evicted_first c b = true.
Proof.
  unfold evicted_first. destruct a as [? ? []], b as [? ? []], c as [? ? []]; simpl; auto;
    rewrite !Z.ltb_lt; lia.
Qed.
Definition visits_runs (order : list string) (s : RunStore) : Prop :=
  NoDup order ∧ ∀ k, k ∈ order ↔ is_Some (rs_runs s !! k).
Definition terminal_entries (now : Z) (order : list string) (s : RunStore) : list terminalRun :=
  omap (entry_of (rs_lifecycle s) now (rs_runs s)) order.
Lemma elem_of_terminal_entries now order s t : visits_runs order s →
  t ∈ terminal_entries now order s ↔
  ∃ rec, rs_runs s !! tr_id t = Some rec ∧ retained (rs_lifecycle s) now rec = true
         ∧ t = entry (tr_id t) rec.
Proof.
  intros [_ Hv]. unfold terminal_entries. rewrite list_elem_of_omap. unfold entry_of. split.
  - intros (id & _ & H). destruct (rs_runs s !! id) as [rec|] eqn:E; [|done]. simpl in H.
    destruct (retained _ _ rec) eqn:R; [|done]. injection H as <-. eauto.
  - intros (rec & E & R & Ht). exists (tr_id t). split; [apply Hv; eauto|].
    rewrite E. simpl. by rewrite R, <-Ht.
Qed.
Lemma terminal_entries_NoDup now order s :
  visits_runs order s → NoDup (tr_id <$> terminal_entries now order s).
Proof.
  intros [Hn _]. unfold terminal_entries. induction Hn as [|id order Hid _ IH]; [constructor|].
  cbn [omap list_omap]. unfold entry_of at 1.
  destruct (rs_runs s !! id) as [rec|]; simpl; [|done]. destruct (retained _ _ rec); [|done].
  cbn [fmap list_fmap]. apply NoDup_cons. split; [|done]. intros (t & E & Ht)%list_elem_of_fmap.
  apply list_elem_of_omap in Ht as (id' & H' & Ht). unfold entry_of in Ht.
  destruct (rs_runs s !! id') as [rec'|]; [|done]. simpl in Ht. destruct (retained _ _ rec'); [|done].
  injection Ht as <-. simpl in E. by subst.
Qed.
Section Sorting.
Context (sort : ∀ A : Type, (A → A → bool) → list A → list A) `{!SortSlice sort}.

(** Which entries are evicted, which kept, and the store that results. *)
Lemma cleanup_split now order s : visits_runs order s →
  ∃ E K, E ++ K ≡ₚ terminal_entries now order s
  ∧ (∀ k, rs_runs (RunStore_CleanupNow sort order now s) !! k =
       if decide (k ∈ tr_id <$> E) then None
       else rs_runs s !! k ≫= cleanup_record (rs_lifecycle s) now)
  ∧ (if 0 <? lc_MaxTerminalRuns (rs_lifecycle s)
     then Z.of_nat (length K) = Z.min (lc_MaxTerminalRuns (rs_lifecycle s))
            (Z.of_nat (length (terminal_entries now order s)))
     else E = [])
  ∧ ∀ e x, e ∈ E → x ∈ K → evicted_first x e = false.
Proof.
  intros Hv. unfold RunStore_CleanupNow.
  destruct (cleanup_fold (rs_lifecycle s) now order (proj1 Hv) (rs_runs s) []) as (m' & -> & Hm').
  cbn [app]. fold (terminal_entries now order s). set (l := terminal_entries now order s).
  set (max := lc_MaxTerminalRuns (rs_lifecycle s)).
  assert (Hm : ∀ k, m' !! k = rs_runs s !! k ≫= cleanup_record (rs_lifecycle s) now).
  { intros k. rewrite Hm'. case_decide as D; [done|]. rewrite (proj2 Hv) in D.
    destruct (rs_runs s !! k) eqn:X; [by destruct D|done]. }
  destruct (((max <=? 0) || (Z.of_nat (length l) <=? max))) eqn:C.
  - exists [], l. split; [done|]. split; [|split].
    + intros k. rewrite decide_False by apply not_elem_of_nil. apply Hm.
    + destruct (Z.ltb_spec 0 max); [|done]. lia.
    + intros e x He. by apply elem_of_nil in He.
  - pose proof (sort_perm terminalRun evicted_first l) as Hp. set (l' := sort terminalRun evicted_first l) in *.
    set (n := (length l' - Z.to_nat max)%nat).
    exists (take n l'), (drop n l'). split; [by rewrite take_drop|]. split; [|split].
    + intros k. cbn [rs_runs set_field]. rewrite evict_lookup, Hm. done.
    + rewrite length_drop. pose proof (Permutation_length Hp). destruct (Z.ltb_spec 0 max); lia.
    + intros e x [i He]%list_elem_of_lookup [j Hx]%list_elem_of_lookup.
      apply lookup_take_Some in He as [He Hi]. rewrite lookup_drop in Hx.
      eapply (sort_ordered terminalRun evicted_first l i (n + j));
        eauto using evicted_first_irrefl, evicted_first_trans, evicted_first_cotrans; lia.
Qed.
Definition terminal (rec : RunRecord) : bool := isTerminalStatus (rr_Status rec).
Lemma finalize_terminal lc rec :
  terminal (RunStore_finalizeRunStorageLocked lc rec) = terminal rec.
Proof. unfold terminal, rr_Status. by rewrite (proj1 (finalize_fields _ _)). Qed.
Lemma finalize_entry lc id rec :
  entry id (RunStore_finalizeRunStorageLocked lc rec) = entry id rec.
Proof. unfold entry. by rewrite finalize_ended, (proj2 (finalize_fields _ _)). Qed.
Lemma cleanup_record_terminal lc now rec rec' :
  cleanup_record lc now rec = Some rec' → terminal rec' = terminal rec
  ∧ (terminal rec = true → retained lc now rec = true ∧ rec' = RunStore_finalizeRunStorageLocked lc rec).
Proof.
  unfold cleanup_record, retained, terminal. destruct (isTerminalStatus (rr_Status rec)) eqn:T; simpl.
  - destruct (expired lc now rec) eqn:X; [done|]. intros [= <-]. split; [|done].
    fold (terminal (RunStore_finalizeRunStorageLocked lc rec)). by rewrite finalize_terminal.
  - by intros [= <-].
Qed.
Lemma retained_cleanup lc now rec :
  retained lc now rec = true →
  cleanup_record lc now rec = Some (RunStore_finalizeRunStorageLocked lc rec).
Proof.
  unfold retained, cleanup_record. intros [-> X%negb_true_iff]%andb_true_iff. simpl. by rewrite X.
Qed.
Lemma terminal_entries_count now order s : visits_runs order s →
  Z.of_nat (length (terminal_entries now order s)) = count_runs (retained (rs_lifecycle s) now) s.
Proof.
  intros Hv. rewrite count_keys, <-(length_fmap tr_id). f_equal.
  rewrite <-(size_list_to_set (C := gset string)) by by apply terminal_entries_NoDup.
  apply set_size_proper. intros k. rewrite elem_of_list_to_set, list_elem_of_fmap, elem_of_keys_with. split.
  - intros (t & -> & Ht). apply elem_of_terminal_entries in Ht as (rec & ? & ? & _); eauto.
  - intros (rec & E & R). exists (entry k rec). split; [done|]. apply elem_of_terminal_entries; eauto.
Qed.
Lemma entries_of_part now order s L k : visits_runs order s →
  L ⊆ terminal_entries now order s → k ∈ tr_id <$> L →
  ∃ rec, rs_runs s !! k = Some rec ∧ retained (rs_lifecycle s) now rec = true ∧ entry k rec ∈ L.
Proof.
  intros Hv HL (t & -> & Ht)%list_elem_of_fmap.
  destruct (proj1 (elem_of_terminal_entries _ _ _ t Hv) (HL t Ht)) as (rec & Er & R & Et).
  exists rec. by rewrite <-Et.
Qed.
Section Cleanup.
Context (now : Z) (order : list string) (s : RunStore) (E K : list terminalRun).
Abbreviation lc := (rs_lifecycle s).
Abbreviation s' := (RunStore_CleanupNow sort order now s).
Context (Hv : visits_runs order s) (Hp : E ++ K ≡ₚ terminal_entries now order s).

Lemma cleanup_evicted k : k ∈ tr_id <$> E →
  ∃ rec, rs_runs s !! k = Some rec ∧ retained lc now rec = true ∧ entry k rec ∈ E.
Proof. apply (entries_of_part now order s E k Hv). intros t Ht. rewrite <-Hp. set_solver. Qed.
Lemma cleanup_kept k : k ∈ tr_id <$> K ↔
  ∃ rec, rs_runs s !! k = Some rec ∧ retained lc now rec = true ∧ (k ∉ tr_id <$> E) ∧ entry k rec ∈ K.
Proof.
  pose proof (terminal_entries_NoDup now order s Hv) as Hn. rewrite <-Hp, fmap_app in Hn.
  apply NoDup_app in Hn as (_ & Hd & _). split.
  - intros Hk. destruct (entries_of_part now order s K k Hv) as (rec & ? & ? & ?); [|done|].
    + intros t Ht. rewrite <-Hp. set_solver.
    + exists rec. split_and!; [done..| |done]. intros HE. exact (Hd _ HE Hk).
  - intros (rec & _ & _ & _ & H). apply list_elem_of_fmap. by exists (entry k rec).
Qed.
Lemma cleanup_not_evicted k rec :
  rs_runs s !! k = Some rec → retained lc now rec = true → k ∉ tr_id <$> E → k ∈ tr_id <$> K.
Proof.
  intros Er R Hk. assert (Hin : entry k rec ∈ E ++ K).
  { rewrite Hp. apply elem_of_terminal_entries; eauto. }
  apply elem_of_app in Hin as [H|H]; [destruct Hk|]; apply list_elem_of_fmap; by exists (entry k rec).
Qed.
Context (Hs' : ∀ k, rs_runs s' !! k = if decide (k ∈ tr_id <$> E) then None
                                      else rs_runs s !! k ≫= cleanup_record lc now).
Lemma cleanup_terminal k rec' : rs_runs s' !! k = Some rec' → terminal rec' = true →
  (k ∉ tr_id <$> E) ∧ ∃ rec, rs_runs s !! k = Some rec ∧ retained lc now rec = true
  ∧ rec' = RunStore_finalizeRunStorageLocked lc rec.
Proof.
  rewrite Hs'. case_decide as D; [done|]. intros (rec & Er & Hc)%bind_Some T. split; [done|].
  destruct (cleanup_record_terminal _ _ _ _ Hc) as [T' Hr]. rewrite T' in T.
  destruct (Hr T). eauto.
Qed.
Lemma cleanup_count : count_runs terminal s' = Z.of_nat (length K).
Proof.
  pose proof (terminal_entries_NoDup now order s Hv) as Hn. rewrite <-Hp, fmap_app in Hn.
  apply NoDup_app in Hn as (_ & _ & Hn). rewrite count_keys, <-(length_fmap tr_id). f_equal.
  rewrite <-(size_list_to_set (C := gset string)) by done. apply set_size_proper. intros k.
  rewrite elem_of_list_to_set, elem_of_keys_with. split.
  - intros (rec' & H & T). destruct (cleanup_terminal k rec' H T) as (D & rec & Er & R & _).
    by eapply cleanup_not_evicted.
  - intros (rec & Er & R & D & _)%cleanup_kept. exists (RunStore_finalizeRunStorageLocked lc rec).
    rewrite Hs', decide_False, Er by done. simpl. rewrite (retained_cleanup _ _ _ R). split; [done|].
    rewrite finalize_terminal. exact (proj1 (proj1 (andb_true_iff _ _) R)).
Qed.
Lemma cleanup_order k rec k' rec' :
  (∀ e x, e ∈ E → x ∈ K → evicted_first x e = false) →
  rs_runs s !! k = Some rec → retained lc now rec = true → rs_runs s' !! k = None →
  rs_runs s' !! k' = Some rec' → terminal rec' = true →
  if bool_decide (rr_IsOptimizationChild rec = rr_IsOptimizationChild rec')
  then ended_at rec ≤ ended_at rec' else rr_IsOptimizationChild rec = true.
Proof.
  intros Hord Er R Hn Hk' T.
  assert (Hin : k ∈ tr_id <$> E).
  { rewrite Hs', Er in Hn. case_decide as D; [done|]. simpl in Hn.
    by rewrite (retained_cleanup _ _ _ R) in Hn. }
  destruct (cleanup_evicted _ Hin) as (rec0 & Er0 & _ & HE). simplify_eq.
  destruct (cleanup_terminal _ _ Hk' T) as (D & rec1 & Er1 & R1 & ->).
  pose proof (cleanup_not_evicted _ _ Er1 R1 D) as (rec2 & Er2 & _ & _ & HK)%cleanup_kept. simplify_eq.
  pose proof (Hord _ _ HE HK) as Ho. unfold evicted_first, entry in Ho. simpl in Ho.
  rewrite finalize_ended, (proj2 (finalize_fields _ _)).
  repeat case_bool_decide; try congruence; [lia|].
  destruct (rr_IsOptimizationChild rec), (rr_IsOptimizationChild rec1); done.
Qed.
End Cleanup.

(** a cleanup pass never touches a run that is pending or running. Of the
    finished runs it drops those whose time to live is over; when more are left
    than [MaxTerminalRuns] it evicts exactly the surplus, optimisation children
    before other runs and the longest ended first. What is kept is kept as it
    was, less the collector and, for children, the input, history and
    configuration; nothing is invented. *)
Theorem cleanup_spec now order s :
  visits_runs order s →
  let lc := rs_lifecycle s in
  let s' := RunStore_CleanupNow sort order now s in
  (∀ k rec, rs_runs s !! k = Some rec → terminal rec = false → rs_runs s' !! k = Some rec)
  ∧ (∀ k rec', rs_runs s' !! k = Some rec' → ∃ rec, rs_runs s !! k = Some rec
       ∧ cleanup_record lc now rec = Some rec')
  ∧ (if 0 <? lc_MaxTerminalRuns lc
     then count_runs terminal s' = Z.min (lc_MaxTerminalRuns lc) (count_runs (retained lc now) s)
     else ∀ k rec, rs_runs s !! k = Some rec → retained lc now rec = true →
       rs_runs s' !! k = Some (RunStore_finalizeRunStorageLocked lc rec))
  ∧ (∀ k rec k' rec', rs_runs s !! k = Some rec → retained lc now rec = true →
       rs_runs s' !! k = None → rs_runs s' !! k' = Some rec' → terminal rec' = true →
       if bool_decide (rr_IsOptimizationChild rec = rr_IsOptimizationChild rec')
       then ended_at rec ≤ ended_at rec' else rr_IsOptimizationChild rec = true).
Proof.
  intros Hv lc s'. destruct (cleanup_split now order s Hv) as (E & K & Hp & Hs' & Hlen & Hord).
  fold s' in Hs'. subst lc. split; [|split; [|split]].
  - intros k rec Er T. unfold terminal in T. rewrite Hs', Er, decide_False.
    + simpl. unfold cleanup_record. by rewrite T.
    + intros (rec' & Er' & R & _)%(cleanup_evicted now order s E K Hv Hp). unfold retained in R.
      simplify_eq. by rewrite T in R.
  - intros k rec'. rewrite Hs'. case_decide; [done|]. intros (rec & ? & ?)%bind_Some. eauto.
  - destruct (0 <? lc_MaxTerminalRuns (rs_lifecycle s)).
    + rewrite <-(terminal_entries_count now order s Hv), <-Hlen.
      by apply (cleanup_count now order s E K Hv Hp).
    + subst E. intros k rec Er R.
      rewrite Hs', Er, decide_False by apply not_elem_of_nil. by apply retained_cleanup.
  - intros k rec k' rec' Er R Hn Hk' T. by eapply (cleanup_order now order s E K Hv Hp Hs').
Qed.

(** ** Every reachable store *)

Section Reachable.
Context (unmarshal : string → go Scenario).

Definition store_apply (s : RunStore) (op : StoreOp) : RunStore :=
  match op with
  | OpCreate g now id input => after s (RunStore_Create unmarshal g now id input s)
  | OpStart now id => after s (RunStore_SetStatusRunningWithOnlineConcurrencyGuard now id s)
  | OpSetStatus now id st e => after s (RunStore_SetStatus now id st e s)
  | OpSetOnlineCompletionReason id r => after s (RunStore_SetOnlineCompletionReason id r s)
  | OpSetMetrics id m => after s (RunStore_SetMetrics id m s)
  | OpSetFinalConfiguration id c => after s (RunStore_SetFinalConfiguration id c s)
  | OpSetBatchRecommendation id f v e m => after s (RunStore_SetBatchRecommendation id f v e m s)
  | OpSetCollector id c => after s (RunStore_SetCollector id c s)
  | OpAppendOptimizationStep id st =>
      match RunStore_AppendOptimizationStep id st s with Ok s' => s' | _ => s end
  | OpSetOptimizationResult id b sc it c => after s (RunStore_SetOptimizationResult id b sc it c s)
  | OpSetOptimizationProgress id it sc => RunStore_SetOptimizationProgress id it sc s
  | OpTrimOptimizationCandidates p b => RunStore_TrimOptimizationCandidates p b s
  | OpCleanupNow order now => RunStore_CleanupNow sort order now s
  end.

(** The callers: a run is only started through the guard, and the cleanup loop
    visits every run once. *)
Definition op_ok (s : RunStore) (op : StoreOp) : Prop :=
  match op with
  | OpSetStatus _ _ st _ => st ≠ RUNNING
  | OpCleanupNow order _ => visits_runs order s
  | _ => True
  end.
Inductive reachable (s0 : RunStore) : RunStore → Prop :=
  | reach_init : reachable s0 s0
  | reach_step s op : reachable s0 s → op_ok s op → reachable s0 (store_apply s op).

Lemma create_ok s g now id input :
  store_ok s → store_ok (after s (RunStore_Create unmarshal g now id input s)).
Proof.
  intros [Hr Hc]. destruct (RunStore_Create unmarshal g now id input s) as [[rec s']|e|] eqn:E; [|done..].
  unfold RunStore_Create in E. go_inv. cbn [after].
  set (k := if is_empty id then g else id) in *. split.
  - intros k' rec'. cbn [rs_runs set_field]. rewrite lookup_insert_Some. intros [[<- <-]|[_ Hk']]; [|by apply Hr].
    split_and!; [done..|]. simpl. lia.
  - intros P. etrans; [|exact (Hc P)]. apply (count_le running_online running_online).
    intros k' rec'. cbn [rs_runs set_field]. rewrite lookup_insert_Some.
    intros [[<- <-]|[_ Hk']] R; [done|eauto].
Qed.
Lemma start_ok s now id :
  store_ok s → store_ok (after s (RunStore_SetStatusRunningWithOnlineConcurrencyGuard now id s)).
Proof.
  intros [Hr Hc]. unfold RunStore_SetStatusRunningWithOnlineConcurrencyGuard.
  destruct (rs_runs s !! id) as [rec|] eqn:E; [|done]. pose proof (Hr id rec E) as Hrec.
  destruct (rr_Status rec) eqn:St; try done; unfold fail_if;
    (case_match eqn:G; [done|]); cbn [go_bind after];
    set (rec' := rec <| rr_Run := _ |>).
  all: assert (Hrec' : record_ok (rs_lifecycle s) id rec')
    by (unfold record_ok, rec', start_run in *; simpl in *; case_match; exact Hrec).
  all: split; [intros k' r; cbn [set_run rs_runs set_field]; rewrite lookup_insert_Some;
               intros [[<- <-]|[_ Hk']]; [exact Hrec'|by apply Hr]|].
  all: intros P; change (0 < ol_MaxConcurrentOnlineRuns (rs_onlineLimits s)) in P.
  all: change (RunStore_CountRunningOnline (set_run id rec' s)
               ≤ ol_MaxConcurrentOnlineRuns (rs_onlineLimits s)).
  all: pose proof (Hc P) as Hc'; destruct (is_online (rr_Input rec)) eqn:O.
  all: try (etrans; [|exact Hc']; apply (count_le running_online running_online);
            intros k' r; cbn [set_run rs_runs set_field]; rewrite lookup_insert_Some;
            intros [[<- <-]|[_ Hk']] R; [|by eauto];
            apply andb_true_iff in R as [_ R]; change (is_online (rr_Input rec) = true) in R; congruence).
  all: assert (RunStore_CountRunningOnline (set_run id rec' s) ≤ RunStore_CountRunningOnline s + 1)
    by (apply (count_le_insert running_online s _ id); intros k' r Hk'; cbn [set_run rs_runs set_field];
        rewrite lookup_insert_ne by done; eauto).
  all: apply andb_false_iff in G as [G|G]; lia.
Qed.
Lemma trim_ok s p b : store_ok s → store_ok (RunStore_TrimOptimizationCandidates p b s).
Proof.
  intros Hs. unfold RunStore_TrimOptimizationCandidates. destruct (rs_runs s !! p) as [parent|]; [|done].
  apply shrink_ok; [done|]. intros k rec'. rewrite map_lookup_imap.
  intros (rec & E & Ht)%bind_Some. exists rec. split; [done|]. revert Ht. unfold trim_record.
  case_match eqn:C; [by intros [= <-]|]. apply orb_false_iff in C as [_ T%negb_false_iff].
  case_bool_decide; [|done]. intros [= <-]. split; [apply finalize_record_ok|].
  intros R. rewrite terminal_not_running in R; [done|].
  fold (terminal (RunStore_finalizeRunStorageLocked (rs_lifecycle s) rec)). by rewrite finalize_terminal.
Qed.
Lemma cleanup_ok s order now :
  visits_runs order s → store_ok s → store_ok (RunStore_CleanupNow sort order now s).
Proof.
  intros Hv Hs. destruct (cleanup_split now order s Hv) as (E & K & _ & Hs' & _).
  assert (H : ∃ m, RunStore_CleanupNow sort order now s = s <| rs_runs := m |>).
  { unfold RunStore_CleanupNow. destruct (foldl _ _ _). case_match; eauto. }
  destruct H as [m Hm]. rewrite Hm in Hs' |- *. apply shrink_ok; [done|]. intros k rec' Hk.
  cbn [rs_runs set_field] in Hs'. rewrite Hs' in Hk. case_decide; [done|].
  apply bind_Some in Hk as (rec & Er & Hc). exists rec. split; [done|]. revert Hc. unfold cleanup_record.
  destruct (isTerminalStatus (rr_Status rec)) eqn:T; [|by intros [= <-]]. simpl.
  destruct (expired _ _ rec); [done|]. intros [= <-]. split; [apply finalize_record_ok|].
  intros R. rewrite terminal_not_running in R; [done|].
  fold (terminal (RunStore_finalizeRunStorageLocked (rs_lifecycle s) rec)). by rewrite finalize_terminal.
Qed.
Lemma cap_candidates_length max ids :
  0 < max → Z.of_nat (length (cap_candidates max ids)) ≤ max.
Proof.
  intros. destruct ids as [ids|]; simpl; [|lia].
  destruct (Z.ltb_spec 0 max); [|lia]. destruct (Z.ltb_spec max (Z.of_nat (length ids))); simpl; [|done].
  rewrite length_take. lia.
Qed.
Lemma store_apply_ok s op : store_ok s → op_ok s op → store_ok (store_apply s op).
Proof.
  intros Hs Hop. destruct op; cbn [store_apply op_ok] in Hop |- *;
    try (apply update_run_ok; [done|intros rec Hrec; exact Hrec|intros rec R; exact R]).
  - by apply create_ok.
  - by apply start_ok.
  - apply update_run_ok; [done|intros; by apply with_status_record_ok|].
    intros rec R. unfold running_online in R. rewrite with_status_status in R.
    by rewrite bool_decide_false in R.
  - destruct step as [st|]; [|done]. cbn [RunStore_AppendOptimizationStep].
    lazymatch goal with |- context [update_run runID ?f s] =>
      generalize (update_run_ok s runID f Hs (λ _ H, H) (λ _ H, H));
      destruct (update_run runID f s) as [[]| |]; exact (λ H, H) end.
  - apply update_run_ok; [done| |intros rec R; exact R]. intros rec (H1 & H2 & H3 & _).
    split_and!; [done..|]. intros. by apply cap_candidates_length.
  - by apply trim_ok.
  - by apply cleanup_ok.
Qed.
Lemma update_run_settings s id f :
  rs_lifecycle (after s (update_run id f s)) = rs_lifecycle s
  ∧ rs_onlineLimits (after s (update_run id f s)) = rs_onlineLimits s.
Proof. unfold update_run. by destruct (rs_runs s !! id). Qed.
Lemma store_apply_settings s op :
  rs_lifecycle (store_apply s op) = rs_lifecycle s
  ∧ rs_onlineLimits (store_apply s op) = rs_onlineLimits s.
Proof.
  destruct op; simpl; try apply update_run_settings.
  - destruct (RunStore_Create unmarshal generated nowMs runID input s) as [[rec s']|e|] eqn:E; [|done..].
    unfold RunStore_Create in E. by go_inv.
  - unfold RunStore_SetStatusRunningWithOnlineConcurrencyGuard.
    destruct (rs_runs s !! runID) as [rec|]; [|done].
    destruct (rr_Status rec); try done; unfold fail_if; by case_match.
  - destruct step as [st|]; [|done]. unfold update_run. simpl. unfold update_run.
    by destruct (rs_runs s !! runID).
  - unfold RunStore_TrimOptimizationCandidates. by destruct (rs_runs s !! parentRunID).
  - unfold RunStore_CleanupNow. destruct (foldl _ _ _). by case_match.
Qed.

(** C39: whatever is asked of a new run store, in any order, the number of online
    runs that are running stays within [MaxConcurrentOnlineRuns] when that cap is
    set; every record is stored under its own ID, an ID without [:] or [/]; a run
    is an optimisation child exactly when its ID says so; and no run keeps more
    candidates than the retention settings allow. *)
Theorem run_store_invariant lc limits s :
  reachable (RunStore_SetOnlineLimits limits (NewRunStore lc)) s →
  (0 < ol_MaxConcurrentOnlineRuns limits →
     RunStore_CountRunningOnline s ≤ ol_MaxConcurrentOnlineRuns limits)
  ∧ ∀ id rec, rs_runs s !! id = Some rec → record_ok lc id rec.
Proof.
  intros H. assert (store_ok s ∧ rs_lifecycle s = lc ∧ rs_onlineLimits s = limits) as ([H1 H2] & <- & <-);
    [|done].
  induction H as [|s op _ (IH1 & IH2 & IH3) Hop].
  - split; [|done]. split; [apply map_Forall_empty|]. intros P.
    change (0 ≤ ol_MaxConcurrentOnlineRuns limits). change (0 < ol_MaxConcurrentOnlineRuns limits) in P. lia.
  - split; [by apply store_apply_ok|]. destruct (store_apply_settings s op) as [-> ->]. done.
Qed.
End Reachable.

(** ** Pagination *)

Lemma newer_irrefl a : newer a a = false.
Proof. apply Z.ltb_irrefl. Qed.
Lemma newer_trans a b c : newer a b = true → newer b c = true → newer a c = true.
Proof. unfold newer. rewrite !Z.ltb_lt. lia. Qed.
Lemma newer_cotrans a b c : newer a b = true → newer a c = true ∨ newer c b = true.
Proof. unfold newer. rewrite !Z.ltb_lt. lia. Qed.
(** The page at an offset, when the sum of offset and limit does not overflow. *)
Lemma list_filtered_page order limit offset status :
  0 < limit → 0 ≤ offset → offset + limit ≤ int64_max →
  RunStore_ListFiltered sort order limit offset status =
  take (Z.to_nat limit) (drop (Z.to_nat offset)
    (sortRunRecords sort (List.filter (matches_status status) order))).
Proof.
  intros Hl Ho Hs. unfold RunStore_ListFiltered.
  rewrite (proj2 (Z.leb_gt _ _) Hl), (proj2 (Z.ltb_ge _ _) Ho).
  set (l := sortRunRecords sort _). rewrite wrap64_id by (unfold in_int64, int64_min; lia).
  destruct (Z.ltb_spec (Z.of_nat (length l)) offset) as [H|H].
  { rewrite drop_ge by lia. by rewrite take_nil. }
  destruct (Z.ltb_spec (Z.of_nat (length l)) (offset + limit)) as [H'|H'].
  - destruct (Z.leb_spec (Z.of_nat (length l)) offset); [rewrite drop_ge by lia; by rewrite take_nil|].
    rewrite !take_ge; [done|rewrite length_drop; lia..].
  - rewrite (proj2 (Z.leb_gt _ _)) by lia. f_equal. lia.
Qed.
(** The pages of [limit] runs from offset 0 on. *)
Fixpoint pages (n : nat) (order : list RunRecord) (limit offset : Z) (status : Status)
    : list (list RunRecord) :=
  match n with
  | O => []
  | S n => RunStore_ListFiltered sort order limit offset status
           :: pages n order limit (offset + limit) status
  end.
Lemma pages_concat n order limit status : 0 < limit → ∀ offset,
  0 ≤ offset → offset + limit * Z.of_nat n ≤ int64_max →
  concat (pages n order limit offset status) =
  take (n * Z.to_nat limit) (drop (Z.to_nat offset)
    (sortRunRecords sort (List.filter (matches_status status) order))).
Proof.
  intros Hl. induction n as [|n IH]; intros offset Ho Hs; [done|]. cbn [pages concat].
  rewrite list_filtered_page by nia. rewrite IH by nia.
  set (l := sortRunRecords sort _). replace (Z.to_nat (offset + limit)) with (Z.to_nat offset + Z.to_nat limit)%nat by lia.
  rewrite <-drop_drop. cbn [Nat.mul]. by rewrite take_take_drop.
Qed.

(** reading a listing page by page is the same as reading it whole: the pages
    of any size, concatenated, hold every run with the status asked for exactly
    once, newest first, as long as enough pages are read and the offsets stay
    within an int64. *)
Theorem list_pages_complete n order limit status :
  0 < limit → limit * Z.of_nat n ≤ int64_max →
  Z.of_nat (length order) ≤ limit * Z.of_nat n →
  let listing := concat (pages n order limit 0 status) in
  listing ≡ₚ List.filter (matches_status status) order
  ∧ (∀ i j a b, (i < j)%nat → listing !! i = Some a → listing !! j = Some b →
       run_CreatedAtUnixMs (rr_Run b) ≤ run_CreatedAtUnixMs (rr_Run a))
  ∧ Forall (λ page, Z.of_nat (length page) ≤ limit) (pages n order limit 0 status).
Proof.
  intros Hl Hmax Hn listing. set (l := sortRunRecords sort (List.filter (matches_status status) order)).
  assert (Hp : l ≡ₚ List.filter (matches_status status) order) by apply sort_perm.
  assert (Hlist : listing = l).
  { unfold listing. rewrite pages_concat by lia. fold l. rewrite drop_0, take_ge; [done|].
    rewrite Hp. etrans; [apply List.filter_length_le|]. nia. }
  rewrite Hlist. split; [done|]. split.
  - intros i j a b Hij Ha Hb.
    pose proof (sort_ordered RunRecord newer _ i j a b newer_irrefl newer_trans newer_cotrans Hij Ha Hb) as H.
    by apply Z.ltb_ge in H.
  - assert (H : ∀ offset, 0 ≤ offset → offset + limit * Z.of_nat n ≤ int64_max →
      Forall (λ page, Z.of_nat (length page) ≤ limit) (pages n order limit offset status)); [|apply H; lia].
    clear Hmax Hn listing Hlist. induction n as [|n IH]; intros offset Ho Hs; constructor.
    + rewrite list_filtered_page by nia. rewrite length_take. lia.
    + apply IH; nia.
Qed.
End Sorting.
End Store.

(** * Limits on online runs *)

Lemma clamp_count_range lo n : 0 < lo ≤ math_MaxInt32 → lo ≤ clamp_count lo n ≤ math_MaxInt32.
Proof.
  intros. unfold clamp_count. destruct (Z.ltb_spec n lo).
  - destruct (Z.ltb_spec math_MaxInt32 lo); lia.
  - destruct (Z.ltb_spec math_MaxInt32 n); lia.
Qed.
Lemma online_duration_range limits opt :
  oc_AllowUnboundedOnline opt = false → 0 ≤ oc_MaxOnlineDurationMs opt →
  1 ≤ Milliseconds (ol_DefaultMaxOnlineDuration limits) →
  (0 < ol_ServerMaxOnlineDuration limits → 1 ≤ Milliseconds (ol_ServerMaxOnlineDuration limits)) →
  1 ≤ online_duration limits opt
  ∧ (0 < ol_ServerMaxOnlineDuration limits →
       online_duration limits opt ≤ Milliseconds (ol_ServerMaxOnlineDuration limits)).
Proof.
  intros U Hd Hdef Hcap. unfold online_duration. rewrite U. cbn [negb andb].
  set (d := if oc_MaxOnlineDurationMs opt =? 0 then _ else _).
  assert (1 ≤ d) by (unfold d; destruct (Z.eqb_spec (oc_MaxOnlineDurationMs opt) 0); lia).
  destruct (Z.ltb_spec 0 (ol_ServerMaxOnlineDuration limits)), (Z.ltb_spec 0 d),
    (Z.ltb_spec (Milliseconds (ol_ServerMaxOnlineDuration limits)) d); simpl; lia.
Qed.
Lemma online_steps_range limits interval dur steps :
  1 ≤ dur → 0 ≤ steps ≤ math_MaxInt32 → 0 ≤ ol_ServerMaxControllerSteps limits →
  1 ≤ online_steps limits interval dur steps ≤ math_MaxInt32
  ∧ (0 < ol_ServerMaxControllerSteps limits →
       online_steps limits interval dur steps ≤ ol_ServerMaxControllerSteps limits).
Proof.
  intros Hd Hs Hl. unfold online_steps. set (s := if _ && _ then _ else steps).
  assert (1 ≤ s ≤ math_MaxInt32).
  { unfold s. destruct (Z.eqb_spec steps 0), (Z.ltb_spec 0 dur); simpl; try lia.
    apply clamp_count_range. unfold math_MaxInt32. lia. }
  destruct (Z.ltb_spec 0 (ol_ServerMaxControllerSteps limits)),
    (Z.ltb_spec (ol_ServerMaxControllerSteps limits) s); simpl; lia.
Qed.
Lemma online_noop_nonzero opt interval dur : online_noop opt interval dur ≠ 0.
Proof.
  unfold online_noop. destruct (Z.eqb_spec (oc_MaxNoopIntervals opt) 0); [|done].
  destruct (_ && _); [done|].
  pose proof (clamp_count_range 20 (ceil_div64 (60 * 1000) interval)). unfold math_MaxInt32 in *. lia.
Qed.

(** What the server bounds in an accepted online configuration. *)
Record online_bounded (limits : OnlineRunLimits) (opt : OptimizationConfig) : Prop := {
  ob_interval : 1 ≤ oc_ControlIntervalMs opt;
  ob_duration : 1 ≤ oc_MaxOnlineDurationMs opt
    ∧ (0 < ol_ServerMaxOnlineDuration limits →
         oc_MaxOnlineDurationMs opt ≤ Milliseconds (ol_ServerMaxOnlineDuration limits));
  ob_steps : 1 ≤ oc_MaxControllerSteps opt ≤ math_MaxInt32
    ∧ (0 < ol_ServerMaxControllerSteps limits →
         oc_MaxControllerSteps opt ≤ ol_ServerMaxControllerSteps limits);
  ob_lease : Milliseconds (ol_HeartbeatRequiredAfterDuration limits) < oc_MaxOnlineDurationMs opt →
    0 < oc_LeaseTtlMs opt;
  ob_noop : oc_MaxNoopIntervals opt ≠ 0;
}.
Lemma online_bounded_fixed limits opt :
  oc_AllowUnboundedOnline opt = false → online_bounded limits opt →
  prepare_online limits opt = Ok opt.
Proof.
  intros U [Hi [Hd Hc] [Hs Hsc] Hl Hn]. unfold prepare_online.
  assert (Ed : online_duration limits opt = oc_MaxOnlineDurationMs opt).
  { unfold online_duration. rewrite U, (proj2 (Z.eqb_neq _ 0)) by lia. cbn [negb andb].
    destruct (Z.ltb_spec 0 (ol_ServerMaxOnlineDuration limits)); simpl; [|done].
    rewrite (proj2 (Z.ltb_ge (Milliseconds _) _)) by auto. by rewrite andb_false_r. }
  assert (Es : ∀ i, online_steps limits i (oc_MaxOnlineDurationMs opt) (oc_MaxControllerSteps opt)
                    = oc_MaxControllerSteps opt).
  { intros i. unfold online_steps. rewrite (proj2 (Z.eqb_neq _ 0)) by lia. simpl.
    destruct (Z.ltb_spec 0 (ol_ServerMaxControllerSteps limits)); simpl; [|done].
    by rewrite (proj2 (Z.ltb_ge _ _)) by auto. }
  rewrite Ed, Es, (proj2 (Z.leb_gt (oc_ControlIntervalMs opt) 0)) by lia.
  unfold online_noop. rewrite (proj2 (Z.eqb_neq (oc_MaxNoopIntervals opt) 0) Hn), U.
  destruct (Z.ltb_spec (Milliseconds (ol_HeartbeatRequiredAfterDuration limits))
    (oc_MaxOnlineDurationMs opt)) as [H|H]; simpl; [rewrite (proj2 (Z.leb_gt _ 0)) by auto|];
    by destruct opt.
Qed.

(** an online configuration the server accepts, with no negative duration or
    step count and without the unbounded flag, is bounded: its duration is
    positive and within the server's cap, it has a positive step limit within the
    cap, a lease when it may run past the heartbeat threshold, and a convergence
    limit or its explicit opt-out. Preparing it again changes nothing. *)
Theorem prepare_online_bounds limits opt opt' :
  oc_AllowUnboundedOnline opt = false →
  0 ≤ oc_MaxOnlineDurationMs opt → 0 ≤ oc_MaxControllerSteps opt ≤ math_MaxInt32 →
  1 ≤ Milliseconds (ol_DefaultMaxOnlineDuration limits) → 0 ≤ ol_ServerMaxControllerSteps limits →
  (0 < ol_ServerMaxOnlineDuration limits → 1 ≤ Milliseconds (ol_ServerMaxOnlineDuration limits)) →
  prepare_online limits opt = Ok opt' →
  online_bounded limits opt' ∧ prepare_online limits opt' = Ok opt'.
Proof.
  intros U Hd Hs Hdef Hls Hcap H.
  destruct (online_duration_range limits opt U Hd Hdef Hcap) as [D1 D2].
  unfold prepare_online in H. case_match eqn:C; [done|]. injection H as <-.
  assert (H : online_bounded limits (opt
    <| oc_ControlIntervalMs := if oc_ControlIntervalMs opt <=? 0 then 1000 else oc_ControlIntervalMs opt |>
    <| oc_MaxOnlineDurationMs := online_duration limits opt |>
    <| oc_MaxControllerSteps := online_steps limits
         (if oc_ControlIntervalMs opt <=? 0 then 1000 else oc_ControlIntervalMs opt)
         (online_duration limits opt) (oc_MaxControllerSteps opt) |>
    <| oc_MaxNoopIntervals := online_noop opt
         (if oc_ControlIntervalMs opt <=? 0 then 1000 else oc_ControlIntervalMs opt)
         (online_duration limits opt) |>)).
  { split; simpl.
    - destruct (Z.leb_spec (oc_ControlIntervalMs opt) 0); lia.
    - done.
    - by apply online_steps_range.
    - intros H. rewrite U in C. apply Z.ltb_lt in H. rewrite H in C. simpl in C. lia.
    - apply online_noop_nonzero. }
  split; [exact H|]. apply online_bounded_fixed; [exact U|exact H].
Qed.

(** * Concrete runs *)

#[export] Instance sort_SliceStable_SortSlice : SortSlice (@sort_SliceStable).
Proof.
  split; [intros; apply sort_SliceStable_perm|].
  intros A less l i j x y Hirr Htr Hco Hij Hx Hy.
  assert (Hsort : StronglySorted (λ a b, less b a = false) (sort_SliceStable less l)).
  { apply sort_SliceStable_sorted.
    - intros a b c Hab Hbc. apply not_true_is_false. intros Hca.
      destruct (Hco c a b Hca); congruence.
    - intros a b Hab. apply not_true_is_false. intros Hba. pose proof (Htr _ _ _ Hab Hba).
      rewrite Hirr in *. done.
    - done. }
  revert i j Hij Hx Hy. induction Hsort as [|z l' Hl' IH Hz]; intros i j Hij Hx Hy; [done|].
  destruct j as [|j]; [lia|]. destruct i as [|i]; simpl in *.
  - injection Hx as <-. rewrite Forall_forall in Hz. eapply Hz. by eapply list_elem_of_lookup_2.
  - eapply (IH i j); [lia|done..].
Qed.

Definition sample_opt (online : bool) (durationMs : Z) : OptimizationConfig :=
  mkOptConfig "" 0 f0 0 online f0 0 0 0 f0 f0 "" f0 f0 f0 0 0 f0 f0 0 0 0 f0 f0 0 durationMs
    false 0 0 None f0 f0 f0.
Definition sample_input (online : bool) : RunInput :=
  mkRunInput "" "" 0 0 false (Some (sample_opt online 0)) "" "".
Lemma prepare_online_bounds_witness :
  ∃ opt', prepare_online DefaultOnlineRunLimits (sample_opt true 0) = Ok opt'
  ∧ online_bounded DefaultOnlineRunLimits opt' ∧ oc_MaxOnlineDurationMs opt' = 600000
  ∧ oc_MaxControllerSteps opt' = 600.
Proof.
  destruct (prepare_online DefaultOnlineRunLimits (sample_opt true 0)) as [opt'|e|] eqn:E;
    [|vm_compute in E; discriminate..].
  exists opt'. split; [reflexivity|]. split.
  - apply (prepare_online_bounds DefaultOnlineRunLimits (sample_opt true 0) opt'); [reflexivity| | | | | |exact E];
      vm_compute; intuition discriminate.
  - vm_compute in E. injection E as <-. split; reflexivity.
Defined.
(** A negative duration is accepted and bypasses every bound: the run has no
    duration limit, no step limit and no lease. *)
Lemma negative_online_duration_unbounded :
  ∃ opt', prepare_online DefaultOnlineRunLimits (sample_opt true (-1)) = Ok opt'
  ∧ oc_AllowUnboundedOnline opt' = false ∧ oc_MaxOnlineDurationMs opt' = -1
  ∧ oc_MaxControllerSteps opt' = 0 ∧ oc_LeaseTtlMs opt' = 0.
Proof. eexists. split; [reflexivity|]. by vm_compute. Qed.

Definition no_yaml (_ : string) : go Scenario := Fail "no document".
Abbreviation store_op := (StoreOp (Metrics := unit) (Conf := unit) (Step := unit)).
Abbreviation run_store := (RunStore (Metrics := unit) (Conf := unit) (Step := unit)).
Definition one_online : OnlineRunLimits := mkOnlineLimits (30 * Minute) 0 1 (10 * Minute) (10 * Minute).
Definition small_lifecycle : RunStoreLifecycleConfig := mkLifecycle (30 * Minute) Minute 1 200 false false.
(** Two online runs are created and started; a child and a parent finish. *)
Definition sample_ops : list store_op :=
  [OpCreate "g" 5 "a" (Some (sample_input true)); OpCreate "g" 6 "b" (Some (sample_input true));
   OpStart 7 "a"; OpStart 8 "b"; OpCreate "g" 9 "opt-1" None; OpCreate "g" 10 "c" None;
   OpSetStatus 11 "opt-1" COMPLETED ""; OpSetStatus 12 "c" FAILED "boom"].
Definition sample_store : run_store :=
  foldl (store_apply (@sort_SliceStable) no_yaml)
    (RunStore_SetOnlineLimits one_online (NewRunStore small_lifecycle)) sample_ops.
Lemma sample_store_reachable :
  reachable (@sort_SliceStable) no_yaml
    (RunStore_SetOnlineLimits one_online (NewRunStore small_lifecycle)) sample_store.
Proof.
  unfold sample_store, sample_ops. cbn [foldl].
  repeat (apply reach_step; [|first [exact I | discriminate]]). apply reach_init.
Qed.
Lemma run_store_invariant_witness :
  RunStore_CountRunningOnline sample_store = 1
  ∧ RunStore_CountRunningOnline sample_store ≤ ol_MaxConcurrentOnlineRuns one_online.
Proof.
  split; [vm_compute; reflexivity|].
  destruct (run_store_invariant (@sort_SliceStable) no_yaml small_lifecycle one_online sample_store
              sample_store_reachable) as [H _].
  exact (H eq_refl).
Defined.
Lemma sample_store_visited : visits_runs ["opt-1"; "c"; "b"; "a"] sample_store.
Proof.
  assert (E : dom (rs_runs sample_store) = list_to_set ["opt-1"; "c"; "b"; "a"]) by (vm_compute; reflexivity).
  split; [by apply (bool_decide_unpack _)|]. intros k. by rewrite <-elem_of_dom, E, elem_of_list_to_set.
Qed.
(** The child goes first although it ended earlier than the other run by 1 ms only. *)
Lemma cleanup_spec_witness :
  let s' := RunStore_CleanupNow (@sort_SliceStable) ["opt-1"; "c"; "b"; "a"] 20 sample_store in
  count_runs terminal s' = 1 ∧ rs_runs s' !! "opt-1" = None
  ∧ rs_runs s' !! "a" = rs_runs sample_store !! "a".
Proof.
  destruct (cleanup_spec (@sort_SliceStable) 20 ["opt-1"; "c"; "b"; "a"] sample_store
    sample_store_visited) as (Hact & _ & Hcount & _).
  split; [exact Hcount|]. split; [reflexivity|].
  destruct (rs_runs sample_store !! "a") as [rec|] eqn:E; [|vm_compute in E; discriminate].
  apply Hact; [exact E|]. vm_compute in E. injection E as <-. reflexivity.
Defined.
Definition sample_records : list (RunRecord (Metrics := unit) (Conf := unit) (Step := unit)) :=
  [new_record "a" None 5; new_record "b" None 9; new_record "c" None 7].
Lemma list_pages_complete_witness :
  concat (pages (@sort_SliceStable) 2 sample_records 2 0 PENDING)
  ≡ₚ List.filter (matches_status PENDING) sample_records
  ∧ (run_Id ∘ rr_Run <$> concat (pages (@sort_SliceStable) 2 sample_records 2 0 PENDING)) = ["b"; "c"; "a"].
Proof.
  split; [|reflexivity].
  apply (list_pages_complete (@sort_SliceStable) 2 sample_records 2 PENDING); vm_compute; intuition discriminate.
Defined.
(** Trimming one parent's candidates removes the finished candidates of every
    other optimisation run too. *)
Lemma trim_removes_other_parents_candidates :
  let ops : list store_op :=
    [OpCreate "g" 1 "p" None; OpCreate "g" 2 "q" None; OpCreate "g" 3 "opt-p1" None;
     OpCreate "g" 4 "opt-q1" None; OpSetStatus 5 "opt-p1" COMPLETED ""; OpSetStatus 6 "opt-q1" COMPLETED "";
     OpSetOptimizationResult "q" "opt-q1" f0 1 (Some ["opt-q1"]);
     OpSetOptimizationResult "p" "opt-p1" f0 1 (Some ["opt-p1"])] in
  let s := foldl (store_apply (@sort_SliceStable) no_yaml) (NewRunStore small_lifecycle) ops in
  is_Some (rs_runs s !! "opt-q1")
  ∧ rs_runs (RunStore_TrimOptimizationCandidates "p" "opt-p1" s) !! "opt-q1" = None.
Proof. split; [eexists; reflexivity|reflexivity]. Qed.
