(* ===== verification/Limits.v ===== *)
(** The limits the server enforces before and while it runs a simulation
    (internal/simd/limits.go, optimization_limits.go, and the environment readers
    of onlinelimits.go and runstore.go): how they are read from the environment,
    and the checks made of a run before it starts. The environment is a function
    from names to values ([""] when unset); [time.ParseDuration] and the printing
    of durations are arguments. *)
From S2P Require Import Prelude GoFloat Config BatchSpec Engine RunStore.
From Stdlib Require Import SpecFloat.
#[local] Open Scope string_scope.
#[local] Open Scope list_scope.
#[local] Open Scope Z_scope.

(** * The limits *)

Record ServerLimits := mkServerLimits {
  sl_MaxStandardDuration : Duration;
  sl_MaxEventsScheduled : Z;
  sl_MaxEventsProcessed : Z;
  sl_MaxEventQueueSize : Z;
  sl_MaxRequestsTracked : Z;
  sl_MaxTotalRequests : Z;
  sl_MaxMetricPoints : Z;
  sl_MaxWallClockRuntime : Duration;
  sl_MaxOptimizationEvaluations : Z;
}.
Definition defaultSimulationLimits : ServerLimits :=
  mkServerLimits (30 * Minute) 2000000 2000000 200000 200000 2000000 1000000 (15 * Minute) 1000.
Record OptimizationSafetyLimits := mkOptSafety {
  os_MaxEvaluations : Z;
  os_MaxIterations : Z;
  os_MaxConcurrentCandidates : Z;
  os_MaxWallClockRuntime : Duration;
  os_CandidateMaxWallClock : Duration;
  os_MaxFailedCandidates : Z;
  os_MaxRetainedCandidates : Z;
  os_DefaultEvaluationDuration : Z;
  os_AllowBatch : bool;
}.
Definition defaultOptimizationSafetyLimits : OptimizationSafetyLimits :=
  mkOptSafety 128 20 2 (20 * Minute) (90 * Second) 16 64 10000 true.

(** * Reading the environment *)

Section Env.
Context (ParseDuration : string → go Duration) (Getenv : string → string).

Definition parsePositiveDurationEnv (key : string) (def : Duration) : go Duration :=
  let raw := TrimSpace (Getenv key) in
  if is_empty raw then Ok def
  else
    let! d := wrap_err (key +:+ ": invalid duration " +:+ Quote raw +:+ ": ") (ParseDuration raw) in
    fail_if (d <=? 0) (key +:+ ": value must be > 0") ;;!
    Ok d.
(** [strconv.ParseInt(raw, 10, 64)] and [strconv.Atoi] agree on 64-bit targets;
    the text of their error is not part of the message here. *)
Definition parsePositiveInt64Env (key : string) (def : Z) : go Z :=
  let raw := TrimSpace (Getenv key) in
  if is_empty raw then Ok def
  else
    match Atoi raw with
    | None => Fail (key +:+ ": invalid integer " +:+ Quote raw)
    | Some n => fail_if (n <=? 0) (key +:+ ": value must be > 0") ;;! Ok n
    end.
Definition parsePositiveIntEnv (key : string) (def : Z) : go Z := parsePositiveInt64Env key def.
(** [int32(n)] keeps the low 32 bits. *)
Definition parsePositiveInt32Env (key : string) (def : Z) : go Z :=
  let! n := parsePositiveInt64Env key def in Ok (wrap32 n).
Definition simulationLimitsFromEnv : go ServerLimits :=
  let limits := defaultSimulationLimits in
  let! d := parsePositiveDurationEnv "SIMD_MAX_STANDARD_DURATION" (sl_MaxStandardDuration limits) in
  let! es := parsePositiveInt64Env "SIMD_MAX_EVENTS_SCHEDULED" (sl_MaxEventsScheduled limits) in
  let! ep := parsePositiveInt64Env "SIMD_MAX_EVENTS_PROCESSED" (sl_MaxEventsProcessed limits) in
  let! eq := parsePositiveInt64Env "SIMD_MAX_EVENT_QUEUE_SIZE" (sl_MaxEventQueueSize limits) in
  let! rt := parsePositiveIntEnv "SIMD_MAX_REQUESTS_TRACKED" (sl_MaxRequestsTracked limits) in
  let! tr := parsePositiveIntEnv "SIMD_MAX_TOTAL_REQUESTS" (sl_MaxTotalRequests limits) in
  let! mp := parsePositiveIntEnv "SIMD_MAX_METRIC_POINTS" (sl_MaxMetricPoints limits) in
  let! wc := parsePositiveDurationEnv "SIMD_MAX_WALL_CLOCK_RUNTIME" (sl_MaxWallClockRuntime limits) in
  let! oe := parsePositiveInt32Env "SIMD_MAX_OPTIMIZATION_EVALUATIONS"
               (sl_MaxOptimizationEvaluations limits) in
  Ok (mkServerLimits d es ep eq rt tr mp wc oe).

(** The readers that fall back to a default instead of failing. *)
Definition parseDurationMsEnv (key : string) (def : Duration) : Duration :=
  match Atoi (Getenv key) with
  | Some n => if n <? 0 then def else wrap64 (n * Millisecond)
  | None => def
  end.
Definition parseIntEnv (key : string) (def : Z) : Z :=
  match Atoi (Getenv key) with Some n => if n <? 0 then def else n | None => def end.
Definition parseInt32Env (key : string) (def : Z) : Z :=
  match Atoi (Getenv key) with
  | Some n => if n <? 0 then def else if math_MaxInt32 <? n then def else n
  | None => def
  end.
Definition OnlineRunLimitsFromEnv : OnlineRunLimits :=
  let d := DefaultOnlineRunLimits in
  mkOnlineLimits
    (parseDurationMsEnv "SIMD_SERVER_MAX_ONLINE_DURATION_MS" (ol_ServerMaxOnlineDuration d))
    (parseInt32Env "SIMD_SERVER_MAX_CONTROLLER_STEPS" (ol_ServerMaxControllerSteps d))
    (parseIntEnv "SIMD_SERVER_MAX_CONCURRENT_ONLINE_RUNS" (ol_MaxConcurrentOnlineRuns d))
    (parseDurationMsEnv "SIMD_DEFAULT_MAX_ONLINE_DURATION_MS" (ol_DefaultMaxOnlineDuration d))
    (parseDurationMsEnv "SIMD_HEARTBEAT_REQUIRED_AFTER_MS" (ol_HeartbeatRequiredAfterDuration d)).
Definition positive_or {A} (positive : A → bool) (v : option A) (d : A) : A :=
  match v with Some v => if positive v then v else d | None => d end.
Definition parseRunStoreDurationEnv (key : string) : option Duration :=
  match ParseDuration (TrimSpace (Getenv key)) with
  | Ok d => if is_empty (TrimSpace (Getenv key)) then None else Some d
  | _ => None
  end.
Definition parseRunStoreIntEnv (key : string) : option Z := Atoi (TrimSpace (Getenv key)).
Definition parseRunStoreBoolEnv (key : string) : option bool := ParseBool (TrimSpace (Getenv key)).
Definition runStoreLifecycleConfigFromEnv : RunStoreLifecycleConfig :=
  let cfg := defaultRunStoreLifecycleConfig in
  let pos := Z.ltb 0 in
  mkLifecycle
    (positive_or pos (parseRunStoreDurationEnv "SIMD_RUNSTORE_TTL") (lc_TTL cfg))
    (positive_or pos (parseRunStoreDurationEnv "SIMD_RUNSTORE_CLEANUP_INTERVAL") (lc_CleanupInterval cfg))
    (positive_or pos (parseRunStoreIntEnv "SIMD_RUNSTORE_MAX_TERMINAL_RUNS") (lc_MaxTerminalRuns cfg))
    (positive_or pos (parseRunStoreIntEnv "SIMD_RUNSTORE_MAX_OPTIMIZATION_CANDIDATES")
      (positive_or pos (parseRunStoreIntEnv "SIMD_OPTIMIZATION_MAX_RETAINED_CANDIDATES")
        (lc_MaxOptimizationCandidates cfg)))
    (default (lc_KeepCollectorAfterCompletion cfg)
      (parseRunStoreBoolEnv "SIMD_RUNSTORE_KEEP_COLLECTOR_AFTER_COMPLETION"))
    (lc_KeepCandidateInputAfterCleanup cfg).
Definition getenvInt32 (key : string) : Z := default 0 (ParseInt 32 (TrimSpace (Getenv key))).
Definition getenvInt (key : string) : Z := default 0 (Atoi (TrimSpace (Getenv key))).
Definition getenvInt64 (key : string) : Z := default 0 (ParseInt 64 (TrimSpace (Getenv key))).
Definition getenvDuration (key : string) : Duration := default 0 (parseRunStoreDurationEnv key).
Definition getenvBool (key : string) : option bool := ParseBool (TrimSpace (Getenv key)).
Definition optimizationSafetyLimitsFromEnv : OptimizationSafetyLimits :=
  let l := defaultOptimizationSafetyLimits in
  mkOptSafety
    (pos_or (getenvInt32 "SIMD_OPTIMIZATION_MAX_EVALUATIONS") (os_MaxEvaluations l))
    (pos_or (getenvInt32 "SIMD_OPTIMIZATION_MAX_ITERATIONS") (os_MaxIterations l))
    (pos_or (getenvInt "SIMD_OPTIMIZATION_MAX_CONCURRENT_CANDIDATES") (os_MaxConcurrentCandidates l))
    (pos_or (getenvDuration "SIMD_OPTIMIZATION_MAX_WALL_CLOCK_RUNTIME") (os_MaxWallClockRuntime l))
    (pos_or (getenvDuration "SIMD_OPTIMIZATION_CANDIDATE_MAX_WALL_CLOCK_RUNTIME")
      (os_CandidateMaxWallClock l))
    (pos_or (getenvInt "SIMD_OPTIMIZATION_MAX_FAILED_CANDIDATES") (os_MaxFailedCandidates l))
    (pos_or (getenvInt "SIMD_OPTIMIZATION_MAX_RETAINED_CANDIDATES") (os_MaxRetainedCandidates l))
    (pos_or (getenvInt64 "SIMD_OPTIMIZATION_DEFAULT_EVALUATION_DURATION")
      (os_DefaultEvaluationDuration l))
    (default (os_AllowBatch l) (getenvBool "SIMD_OPTIMIZATION_ALLOW_BATCH")).
End Env.

(** * Checks before a run starts *)

Definition ServerLimits_toEngineRuntimeLimits (l : ServerLimits) : RuntimeLimits :=
  mkRuntimeLimits (sl_MaxEventsScheduled l) (sl_MaxEventsProcessed l) (sl_MaxEventQueueSize l)
    (sl_MaxWallClockRuntime l).
Definition estimateWorkloadArrivals (scenario : Scenario) (duration : Duration) : Z :=
  if duration <=? 0 then 0
  else
    let seconds := Seconds duration in
    let total := foldl (λ total wl,
      let rate := ar_RateRPS (wl_Arrival wl) in
      if fleb rate f0 then total else fadd total (fmul rate seconds)) f0 (scn_Workload scenario) in
    if fltb total f0 then 0 else f64_to_int total.
Definition run_duration (input : RunInput) : Duration :=
  let d := wrap64 (ri_DurationMs input * Millisecond) in if d <=? 0 then 10 * Second else d.
Definition ServerLimits_validatePreStart (unmarshal : string → go Scenario)
    (duration_String : Duration → string) (l : ServerLimits) (input : option RunInput) : go unit :=
  match input with
  | None => Ok tt
  | Some i =>
      let duration := run_duration i in
      fail_if (bool_decide (ri_Optimization i = None) && (0 <? sl_MaxStandardDuration l)
               && (sl_MaxStandardDuration l <? duration))
        ("run rejected: duration " +:+ duration_String duration +:+ " exceeds max standard duration "
         +:+ duration_String (sl_MaxStandardDuration l)) ;;!
      match ri_Optimization i with
      | Some opt =>
          fail_if (negb (oc_Online opt) && (sl_MaxOptimizationEvaluations l <? oc_MaxEvaluations opt))
            ("run rejected: optimization max_evaluations " +:+ Itoa (oc_MaxEvaluations opt)
             +:+ " exceeds server limit " +:+ Itoa (sl_MaxOptimizationEvaluations l))
      | None => Ok tt
      end ;;!
      match ParseScenarioYAML unmarshal (ri_ScenarioYaml i) with
      | Ok scenario =>
          let est := estimateWorkloadArrivals scenario duration in
          fail_if ((0 <? sl_MaxEventsScheduled l) && (sl_MaxEventsScheduled l <? est))
            ("run rejected: estimated arrivals " +:+ Itoa est +:+ " exceeds max events scheduled "
             +:+ Itoa (sl_MaxEventsScheduled l))
      | _ => Ok tt
      end
  end.
Definition supported_objectives : list string :=
  ["p95_latency_ms"; "p99_latency_ms"; "mean_latency_ms"; "throughput_rps"; "error_rate"; "cost";
   "cpu_utilization"; "memory_utilization"].
Definition validateOptimizationPreStart (input : option RunInput) (lim : OptimizationSafetyLimits) : go unit :=
  match get_optimization input with
  | None => Ok tt
  | Some opt =>
      let candidateMs := Z.quot (os_CandidateMaxWallClock lim) Millisecond in
      (if oc_Online opt then Ok tt
       else
         fail_if (match oc_Batch opt with Some _ => negb (os_AllowBatch lim) | None => false end)
           "run rejected: batch optimization disabled by server" ;;!
         fail_if (os_MaxEvaluations lim <? oc_MaxEvaluations opt)
           ("run rejected: optimization max_evaluations " +:+ Itoa (oc_MaxEvaluations opt)
            +:+ " exceeds server limit " +:+ Itoa (os_MaxEvaluations lim)) ;;!
         fail_if (os_MaxIterations lim <? oc_MaxIterations opt)
           ("run rejected: optimization max_iterations " +:+ Itoa (oc_MaxIterations opt)
            +:+ " exceeds server limit " +:+ Itoa (os_MaxIterations lim)) ;;!
         fail_if ((0 <? oc_EvaluationDurationMs opt) && (candidateMs <? oc_EvaluationDurationMs opt))
           ("run rejected: evaluation_duration_ms " +:+ Itoa (oc_EvaluationDurationMs opt)
            +:+ " exceeds server candidate runtime limit " +:+ Itoa candidateMs)) ;;!
      let obj := TrimSpace (ToLower (oc_Objective opt)) in
      fail_if (negb (is_empty obj) && negb (existsb (String.eqb obj) supported_objectives))
        ("run rejected: unsupported optimization objective " +:+ Quote obj)
  end.
Definition validateOnlineOptimizationConfig (opt : option OptimizationConfig) : go unit :=
  match opt with
  | Some opt =>
      if negb (oc_Online opt) then Ok tt
      else
        let primary := ToLower (TrimSpace (oc_OptimizationTargetPrimary opt)) in
        let primary := if is_empty primary then "p95_latency" else primary in
        fail_if (String.eqb primary "p95_latency" && fleb (oc_TargetP95LatencyMs opt) f0)
          "online optimization with primary target p95_latency requires target_p95_latency_ms > 0"
  | None => Ok tt
  end.

(** * What the limits guarantee *)

Lemma positive_int_env Getenv key def n :
  0 < def → parsePositiveInt64Env Getenv key def = Ok n → 0 < n.
Proof.
  intros Hd H. unfold parsePositiveInt64Env in H. case_match; [by injection H as <-|].
  case_match; [|done]. go_inv. lia.
Qed.
Lemma positive_duration_env ParseDuration Getenv key def d :
  0 < def → parsePositiveDurationEnv ParseDuration Getenv key def = Ok d → 0 < d.
Proof.
  intros Hd H. unfold parsePositiveDurationEnv in H. case_match; [by injection H as <-|].
  go_inv. lia.
Qed.
Lemma limits_from_env_positive ParseDuration Getenv l :
  simulationLimitsFromEnv ParseDuration Getenv = Ok l →
  0 < sl_MaxStandardDuration l ∧ 0 < sl_MaxEventsScheduled l ∧ 0 < sl_MaxEventsProcessed l
  ∧ 0 < sl_MaxEventQueueSize l ∧ 0 < sl_MaxRequestsTracked l ∧ 0 < sl_MaxTotalRequests l
  ∧ 0 < sl_MaxMetricPoints l ∧ 0 < sl_MaxWallClockRuntime l.
Proof.
  intros H. unfold simulationLimitsFromEnv, parsePositiveIntEnv in H.
  repeat (apply go_bind_ok in H as (? & ? & H)). injection H as <-. simpl.
  split_and!; first [eapply positive_int_env; [|eassumption]; done
                    | eapply positive_duration_env; [|eassumption]; done].
Qed.
Lemma limits_from_empty_env ParseDuration :
  simulationLimitsFromEnv ParseDuration (λ _, "") = Ok defaultSimulationLimits.
Proof. reflexivity. Qed.

(** the server's limits, however the environment sets them, are positive when
    they are accepted, so that the engine they are handed to has every guardrail
    switched on; and a run that passes the check before it starts has a positive
    duration, within [MaxStandardDuration] when it is not an optimisation, an
    evaluation budget within the server's when it is a batch optimisation, and an
    expected number of arrivals within [MaxEventsScheduled]. *)
Theorem server_limits_guard ParseDuration Getenv unmarshal duration_String l i u :
  simulationLimitsFromEnv ParseDuration Getenv = Ok l →
  ServerLimits_validatePreStart unmarshal duration_String l (Some i) = Ok u →
  let eng := ServerLimits_toEngineRuntimeLimits l in
  0 < MaxEventsScheduled eng ∧ 0 < MaxEventsProcessed eng ∧ 0 < MaxEventQueueSize eng
  ∧ 0 < MaxWallClockRun eng
  ∧ 0 < run_duration i ∧ (ri_Optimization i = None → run_duration i ≤ sl_MaxStandardDuration l)
  ∧ (∀ opt, ri_Optimization i = Some opt → oc_Online opt = false →
       oc_MaxEvaluations opt ≤ sl_MaxOptimizationEvaluations l)
  ∧ (∀ scenario, ParseScenarioYAML unmarshal (ri_ScenarioYaml i) = Ok scenario →
       estimateWorkloadArrivals scenario (run_duration i) ≤ sl_MaxEventsScheduled l).
Proof.
  intros Hl Hv eng. destruct (limits_from_env_positive _ _ _ Hl) as (P1 & P2 & P3 & P4 & _ & _ & _ & P8).
  cbn [ServerLimits_validatePreStart] in Hv.
  apply go_bind_ok in Hv as (u1 & H1 & Hv). apply go_bind_ok in Hv as (u2 & H2 & H3).
  apply fail_if_ok in H1. split_and!; [done..| | | |].
  - unfold run_duration. destruct (Z.leb_spec (wrap64 (ri_DurationMs i * Millisecond)) 0); [done|lia].
  - intros E. rewrite bool_decide_true in H1 by done. simpl in H1.
    rewrite (proj2 (Z.ltb_lt _ _) P1) in H1. simpl in H1. lia.
  - intros opt E O. rewrite E in H2. apply fail_if_ok in H2. rewrite O in H2. simpl in H2. lia.
  - intros scenario E. rewrite E in H3. apply fail_if_ok in H3.
    rewrite (proj2 (Z.ltb_lt _ _) P2) in H3. simpl in H3. lia.
Qed.
Definition sample_run (durationMs : Z) : RunInput := mkRunInput "scn" "" durationMs 0 false None "" "".
Definition sample_yaml (_ : string) : go Scenario := Ok sample_scenario.
Lemma server_limits_guard_witness :
  0 < MaxEventsProcessed (ServerLimits_toEngineRuntimeLimits defaultSimulationLimits)
  ∧ run_duration (sample_run 60000) ≤ sl_MaxStandardDuration defaultSimulationLimits
  ∧ estimateWorkloadArrivals sample_scenario_normalised (run_duration (sample_run 60000)) ≤ 2000000.
Proof.
  destruct (server_limits_guard (λ _, Fail "") (λ _, "") sample_yaml (λ _, "") defaultSimulationLimits
    (sample_run 60000) tt eq_refl) as (_ & H1 & _ & _ & _ & H2 & _ & H3); [vm_compute; reflexivity|].
  split; [exact H1|]. split; [exact (H2 eq_refl)|]. apply H3. vm_compute. reflexivity.
Defined.
(** A value of 2^31 passes the positivity check and turns into the most negative
    int32, so that every batch optimisation is rejected, also one that asks for
    no limit. *)
Lemma evaluations_env_truncates :
  let env key := if String.eqb key "SIMD_MAX_OPTIMIZATION_EVALUATIONS" then "2147483648" else "" in
  ∃ l, simulationLimitsFromEnv (λ _, Fail "") env = Ok l
  ∧ sl_MaxOptimizationEvaluations l = - 2 ^ 31
  ∧ ∀ i opt, ri_Optimization i = Some opt → oc_Online opt = false → oc_MaxEvaluations opt = 0 →
      ∃ e, ServerLimits_validatePreStart sample_yaml (λ _, "") l (Some i) = Fail e.
Proof.
  eexists. split; [vm_compute; reflexivity|]. split; [reflexivity|]. intros i opt E O M. eexists.
  cbn [ServerLimits_validatePreStart]. rewrite E, O, M. reflexivity.
Qed.
