(* ===== verification/RunControl.v ===== *)
(** The lifecycle of runs in the executor (internal/simd/executor.go): [Start] and
    [Stop], the background goroutine of a run (a simulation, an optimisation or an
    online optimisation), its cancellation context and clean-up, online leases and
    completion reasons, and the callbacks sent.

    The executor and its goroutines are one state: a goroutine is a [Task], keyed
    by its context, in one of two phases, before and inside the call that does the
    work ([Engine.Run] or [RunExperiment]). The code of a task before that call and
    the code after it are one step each; tasks interleave with the calls of the
    API. [Stop] is two steps, because it cancels the context and sets the status
    separately. What the work itself returns is an argument of the step. *)
From S2P Require Import Prelude GoFloat Config BatchSpec Engine RunStore Limits.
From Stdlib Require Import SpecFloat.
#[local] Open Scope string_scope.
#[local] Open Scope list_scope.
#[local] Open Scope Z_scope.

(** * State *)

Inductive TaskKind := SimTask | OptTask | OnlineTask.
Inductive Phase := Spawned | Engaged.
#[export] Instance TaskKind_eq_dec : EqDecision TaskKind.
Proof. solve_decision. Defined.
Record Task := mkTask { tk_run : string; tk_kind : TaskKind; tk_phase : Phase }.
#[export] Instance eta_Task : Eta Task := λ r, mkTask (tk_run r) (tk_kind r) (tk_phase r).

Section Control.
Context {Metrics Conf Step : Type}.
Abbreviation RunRecord := (RunRecord (Metrics := Metrics) (Conf := Conf) (Step := Step)).
Abbreviation RunStore := (RunStore (Metrics := Metrics) (Conf := Conf) (Step := Step)).

(** [ex_cancels] maps a run to the context its [cancel] function belongs to;
    [ex_live] holds the runs with an entry in [workloadStates], [resourceManagers],
    [policyManagers] and [runScenarios], which are set and deleted together. *)
Record Executor := mkExecutor {
  ex_store : RunStore;
  ex_limits : ServerLimits;
  ex_limitsErr : option string;
  ex_optSafety : OptimizationSafetyLimits;
  ex_optimizationRunner : bool;
  ex_cancels : gmap string positive;
  ex_cancelled : gset positive;
  ex_nextCtx : positive;
  ex_live : gset string;
  ex_onlineCompletionReason : gmap string string;
  ex_onlineLeaseDeadline : gmap string Time;
  ex_tasks : gmap positive Task;
  ex_stopping : gset string;
  ex_notified : list (string * Status);
}.
#[export] Instance eta_Executor : Eta Executor := λ r, mkExecutor (ex_store r) (ex_limits r)
  (ex_limitsErr r) (ex_optSafety r) (ex_optimizationRunner r) (ex_cancels r) (ex_cancelled r)
  (ex_nextCtx r) (ex_live r) (ex_onlineCompletionReason r) (ex_onlineLeaseDeadline r) (ex_tasks r)
  (ex_stopping r) (ex_notified r).

Definition NewRunExecutor (store : RunStore) (limits : ServerLimits) (limitsErr : option string)
    (optSafety : OptimizationSafetyLimits) (runner : bool) : Executor :=
  mkExecutor store limits limitsErr optSafety runner ∅ ∅ 1 ∅ ∅ ∅ ∅ ∅ [].

Definition ErrRunIDMissing : string := "run_id is required".
Definition on_store (f : RunStore → RunStore) (e : Executor) : Executor :=
  e <| ex_store := f (ex_store e) |>.
(** The [cancel] function registered for a run. *)
Definition cancel_run (runID : string) (e : Executor) : Executor :=
  match ex_cancels e !! runID with
  | Some ctx => e <| ex_cancelled := {[ctx]} ∪ ex_cancelled e |>
  | None => e
  end.

(** * Callbacks and clean-up *)

(** [cfg] is what [GetRunConfiguration] returns while the run is live. *)
Definition RunExecutor_snapshotFinalConfiguration (cfg : Conf) (runID : string) (e : Executor) : Executor :=
  if bool_decide (runID ∈ ex_live e)
  then on_store (λ s, after s (RunStore_SetFinalConfiguration runID (Some cfg) s)) e else e.
(** The callback reports the run as the store has it. *)
Definition RunExecutor_sendNotificationIfConfigured (cfg : Conf) (rec : RunRecord) (e : Executor) : Executor :=
  match rr_Input rec with
  | None => e
  | Some input =>
      if is_empty (ri_CallbackUrl input) then e
      else
        let id := run_Id (rr_Run rec) in
        let e := RunExecutor_snapshotFinalConfiguration cfg id e in
        let rec := default rec (RunStore_Get id (ex_store e)) in
        e <| ex_notified := ex_notified e ++ [(run_Id (rr_Run rec), rr_Status rec)] |>
  end.
Definition RunExecutor_cleanup (runID : string) (e : Executor) : Executor :=
  let e := cancel_run runID e in
  e <| ex_cancels := delete runID (ex_cancels e) |> <| ex_live := ex_live e ∖ {[runID]} |>
    <| ex_onlineCompletionReason := delete runID (ex_onlineCompletionReason e) |>
    <| ex_onlineLeaseDeadline := delete runID (ex_onlineLeaseDeadline e) |>.
(** [SetStatus] of a terminal status, and the callback when it succeeds. *)
Definition finish_run (now : Z) (cfg : Conf) (runID : string) (status : Status) (msg : string)
    (e : Executor) : Executor :=
  match RunStore_SetStatus now runID status msg (ex_store e) with
  | Ok (updated, s) => RunExecutor_sendNotificationIfConfigured cfg updated (e <| ex_store := s |>)
  | _ => e
  end.
(** A goroutine returns: its deferred clean-up runs and it is gone. *)
Definition task_exit (ctx : positive) (runID : string) (e : Executor) : Executor :=
  RunExecutor_cleanup runID (e <| ex_tasks := delete ctx (ex_tasks e) |>).
Definition task_engage (ctx : positive) (t : Task) (e : Executor) : Executor :=
  e <| ex_tasks := <[ctx := t <| tk_phase := Engaged |>]> (ex_tasks e) |>.

(** * Start and Stop *)

Section Calls.
Context (unmarshal : string → go Scenario) (duration_String : Duration → string).

(** The checks between the status change and the start of the goroutine; the
    first that fails gives the error. *)
Definition start_checks (e : Executor) (rec : RunRecord) : go unit :=
  match ex_limitsErr e with
  | Some err => Fail ("invalid SIMD guardrail configuration: " +:+ err)
  | None =>
      ServerLimits_validatePreStart unmarshal duration_String (ex_limits e) (rr_Input rec) ;;!
      validateOptimizationPreStart (rr_Input rec) (ex_optSafety e) ;;!
      validateOnlineOptimizationConfig (get_optimization (rr_Input rec))
  end.
Definition task_kind (input : RunInput) : TaskKind :=
  match ri_Optimization input with
  | Some opt => if oc_Online opt then OnlineTask else OptTask
  | None => SimTask
  end.
Definition RunExecutor_Start (now : Z) (runID : string) (e : Executor) : go RunRecord * Executor :=
  if is_empty runID then (Fail ErrRunIDMissing, e)
  else
    match RunStore_SetStatusRunningWithOnlineConcurrencyGuard now runID (ex_store e) with
    | Fail err => (Fail err, e)
    | Panic => (Panic, e)
    | Ok (updated, s) =>
        let e := e <| ex_store := s |> in
        match start_checks e updated with
        | Fail err => (Fail err, on_store (λ s, after s (RunStore_SetStatus now runID FAILED err s)) e)
        | Panic => (Panic, e)
        | Ok _ =>
            let ctx := ex_nextCtx e in
            let e := cancel_run runID e in
            let e := e <| ex_nextCtx := Pos.succ ctx |> <| ex_cancels := <[runID := ctx]> (ex_cancels e) |> in
            match rr_Input updated with
            | None => (Panic, e)
            | Some input =>
                (Ok updated, e <| ex_tasks := <[ctx := mkTask runID (task_kind input) Spawned]> (ex_tasks e) |>)
            end
        end
    end.
(** [Stop] cancels first and sets the status afterwards. *)
Definition stop_cancel (runID : string) (e : Executor) : Executor :=
  if is_empty runID then e
  else (cancel_run runID e) <| ex_stopping := {[runID]} ∪ ex_stopping e |>.
Definition stop_status (now : Z) (cfg : Conf) (runID : string) (e : Executor) : Executor :=
  let e := e <| ex_stopping := ex_stopping e ∖ {[runID]} |> in
  match RunStore_SetStatus now runID STOPPED "" (ex_store e) with
  | Ok (updated, s) =>
      let e := RunExecutor_snapshotFinalConfiguration cfg runID (e <| ex_store := s |>) in
      if is_online (rr_Input updated) then e
      else RunExecutor_sendNotificationIfConfigured cfg updated e
  | _ => e
  end.
Definition RunExecutor_Stop (now : Z) (cfg : Conf) (runID : string) (e : Executor) : Executor :=
  stop_status now cfg runID (stop_cancel runID e).

(** * Online leases *)

Definition RunExecutor_signalOnlineLeaseEnd (runID reason : string) (e : Executor) : Executor :=
  cancel_run runID (e <| ex_onlineCompletionReason := <[runID := reason]> (ex_onlineCompletionReason e) |>).
Definition RunExecutor_takeOnlineCompletionReason (runID : string) (e : Executor) : string * Executor :=
  (default "" (ex_onlineCompletionReason e !! runID),
   e <| ex_onlineCompletionReason := delete runID (ex_onlineCompletionReason e) |>).
Definition RunExecutor_setOnlineLeaseDeadline (runID : string) (deadline : Time) (e : Executor) : Executor :=
  e <| ex_onlineLeaseDeadline := <[runID := deadline]> (ex_onlineLeaseDeadline e) |>.
Definition RunExecutor_onlineLeaseExpired (wall : Time) (runID : string) (e : Executor) : bool :=
  match ex_onlineLeaseDeadline e !! runID with
  | Some until => negb (IsZero until) && After wall until
  | None => false
  end.
Definition lease_ttl (opt : OptimizationConfig) : Duration := wrap64 (oc_LeaseTtlMs opt * Millisecond).
Definition RunExecutor_RenewOnlineLease (wall : Time) (runID : string) (e : Executor) : go RunRecord * Executor :=
  if is_empty runID then (Fail ErrRunIDMissing, e)
  else
    match RunStore_Get runID (ex_store e) with
    | None => (Fail (ErrRunNotFound +:+ ": " +:+ runID), e)
    | Some rec =>
        if negb (bool_decide (rr_Status rec = RUNNING)) then (Fail "run is not running", e)
        else
          match get_optimization (rr_Input rec) with
          | Some opt =>
              if negb (oc_Online opt) || (oc_LeaseTtlMs opt <=? 0)
              then (Fail "lease not configured for this run", e)
              else (Ok rec, RunExecutor_setOnlineLeaseDeadline runID (wall + lease_ttl opt) e)
          | None => (Fail "lease not configured for this run", e)
          end
    end.

(** * The goroutines *)

(** [runSimulation] and [runOnlineOptimization] up to [Engine.Run]: [rmInit] is the
    result of initialising the resource manager, [stateInit] that of creating the
    scenario state and starting the workload (with its message). *)
Definition sim_begin (now : Z) (wall : Time) (cfg : Conf) (rmInit stateInit : go unit) (collector : positive)
    (ctx : positive) (t : Task) (e : Executor) : Executor :=
  let runID := tk_run t in
  let quit := task_exit ctx runID in
  match RunStore_Get runID (ex_store e) with
  | None => quit e
  | Some rec =>
      match rr_Input rec with
      | None => quit e
      | Some input =>
          if bool_decide (tk_kind t = OnlineTask) && bool_decide (ri_Optimization input = None) then quit e
          else
            match ParseScenarioYAML unmarshal (ri_ScenarioYaml input) with
            | Fail err => quit (finish_run now cfg runID FAILED ("invalid scenario: " +:+ err) e)
            | Panic => quit e
            | Ok _ =>
                match rmInit with
                | Fail err => quit (finish_run now cfg runID FAILED ("resource initialization failed: " +:+ err) e)
                | Panic => quit e
                | Ok _ =>
                    let e := on_store (λ s, after s (RunStore_SetCollector runID (Some collector) s)) e in
                    match stateInit with
                    | Fail err => quit (finish_run now cfg runID FAILED err e)
                    | Panic => quit e
                    | Ok _ =>
                        let e := e <| ex_live := {[runID]} ∪ ex_live e |> in
                        let e :=
                          match ri_Optimization input with
                          | Some opt =>
                              if bool_decide (tk_kind t = OnlineTask) && (0 <? oc_LeaseTtlMs opt)
                              then RunExecutor_setOnlineLeaseDeadline runID (wall + lease_ttl opt) e else e
                          | None => e
                          end in
                        task_engage ctx t e
                    end
                end
            end
      end
  end.
(** The end of [runSimulation]: [runErr] is the error of [Engine.Run], [metrics] the
    metrics it left. *)
Definition sim_end (now : Z) (cfg : Conf) (runErr : option string) (metrics : Metrics)
    (ctx : positive) (t : Task) (e : Executor) : Executor :=
  let runID := tk_run t in
  let quit := task_exit ctx runID in
  match runErr with
  | Some err =>
      if bool_decide (ctx ∈ ex_cancelled e) then
        quit (match RunStore_Get runID (ex_store e) with
              | Some rec => RunExecutor_sendNotificationIfConfigured cfg rec e
              | None => e
              end)
      else quit (finish_run now cfg runID FAILED err e)
  | None =>
      let e := on_store (λ s, after s (RunStore_SetMetrics runID (Some metrics) s)) e in
      match RunStore_Get runID (ex_store e) with
      | Some rec =>
          if bool_decide (rr_Status rec = RUNNING) then
            let e := if bool_decide (get_optimization (rr_Input rec) = None)
              then on_store (λ s, after s (RunStore_SetOptimizationResult runID runID f0 0 (Some [runID]) s)) e
              else e in
            let e := RunExecutor_snapshotFinalConfiguration cfg runID e in
            quit (finish_run now cfg runID COMPLETED "" e)
          else quit e
      | None => quit e
      end
  end.
Definition int32_steps (n : nat) : Z :=
  if math_MaxInt32 <? Z.of_nat n then math_MaxInt32 else Z.of_nat n.
Definition RunExecutor_finalizeOnlineOptimizationRun (now : Z) (cfg : Conf) (runID reason : string)
    (metrics : Metrics) (e : Executor) : Executor :=
  let e := on_store (λ s, after s (RunStore_SetMetrics runID (Some metrics) s)) e in
  let e := if is_empty reason then e
           else on_store (λ s, after s (RunStore_SetOnlineCompletionReason runID reason s)) e in
  match RunStore_Get runID (ex_store e) with
  | Some rec =>
      if negb (bool_decide (rr_Status rec = RUNNING)) then e
      else
        let steps := int32_steps (length (rr_OptimizationHistory rec)) in
        let e := on_store (λ s, after s (RunStore_SetOptimizationResult runID runID f0 steps (Some [runID]) s)) e in
        let e := RunExecutor_snapshotFinalConfiguration cfg runID e in
        finish_run now cfg runID COMPLETED "" e
  | None => e
  end.
(** The end of [runOnlineOptimization]. *)
Definition online_end (now : Z) (cfg : Conf) (runErr : option string) (metrics : Metrics)
    (ctx : positive) (t : Task) (e : Executor) : Executor :=
  let runID := tk_run t in
  let quit := task_exit ctx runID in
  match runErr with
  | None => quit (RunExecutor_finalizeOnlineOptimizationRun now cfg runID "" metrics e)
  | Some err =>
      let '(reason, e) := RunExecutor_takeOnlineCompletionReason runID e in
      if negb (is_empty reason) then
        quit (RunExecutor_finalizeOnlineOptimizationRun now cfg runID reason metrics e)
      else if bool_decide (ctx ∈ ex_cancelled e) then
        match RunStore_Get runID (ex_store e) with
        | None => quit e
        | Some rec =>
            if bool_decide (rr_Status rec = STOPPED) then
              let e := on_store (λ s, after s (RunStore_SetMetrics runID (Some metrics) s)) e in
              let steps := int32_steps (length (rr_OptimizationHistory rec)) in
              let e := on_store (λ s, after s (RunStore_SetOptimizationResult runID runID f0 steps (Some [runID]) s)) e in
              quit (match RunStore_Get runID (ex_store e) with
                    | Some updatedRec => RunExecutor_sendNotificationIfConfigured cfg updatedRec e
                    | None => e
                    end)
            else quit (RunExecutor_sendNotificationIfConfigured cfg rec e)
        end
      else quit (finish_run now cfg runID FAILED err e)
  end.

(** The parameters [runOptimization] hands to the optimiser. *)
Record OptimizationParams := mkOptParams {
  op_Objective : string;
  op_MaxIterations : Z;
  op_StepSize : float64;
  op_MaxEvaluations : Z;
  op_TargetUtilLow : float64;
  op_TargetUtilHigh : float64;
  op_Batch : option BatchOptimizationConfig;
}.
Definition defaultBatchMaxEvaluations : Z := 64.
Definition applyMaxEvaluationsFromOpt (maxEvaluations : Z) (opt : OptimizationConfig) : Z :=
  if 0 <? oc_MaxEvaluations opt then oc_MaxEvaluations opt
  else match oc_Batch opt with Some _ => defaultBatchMaxEvaluations | None => maxEvaluations end.
Definition optimization_params (opt : option OptimizationConfig) : OptimizationParams :=
  match opt with
  | None => mkOptParams "p95_latency_ms" 10 f1 0 f0 f0 None
  | Some opt =>
      mkOptParams (if is_empty (oc_Objective opt) then "p95_latency_ms" else oc_Objective opt)
        (pos_or (oc_MaxIterations opt) 10)
        (posf_or (oc_StepSize opt) f1)
        (applyMaxEvaluationsFromOpt 0 opt) (oc_TargetUtilLow opt) (oc_TargetUtilHigh opt) (oc_Batch opt)
  end.
Definition evaluation_duration (lim : OptimizationSafetyLimits) (input : RunInput) : Z :=
  let d := ri_DurationMs input in
  let d := match ri_Optimization input with
           | Some opt => if (d <=? 0) && (0 <? oc_EvaluationDurationMs opt) then oc_EvaluationDurationMs opt else d
           | None => d
           end in
  if d <=? 0 then os_DefaultEvaluationDuration lim else d.

(** [runOptimization] up to [RunExperiment]. *)
Definition opt_begin (now : Z) (cfg : Conf) (ctx : positive) (t : Task) (e : Executor) : Executor :=
  let runID := tk_run t in
  let quit := task_exit ctx runID in
  match RunStore_Get runID (ex_store e) with
  | None => quit e
  | Some rec =>
      match rr_Input rec with
      | None => quit e
      | Some input =>
          if negb (ex_optimizationRunner e) then quit (finish_run now cfg runID FAILED "optimization not enabled" e)
          else
            match ParseScenarioYAML unmarshal (ri_ScenarioYaml input) with
            | Fail err => quit (finish_run now cfg runID FAILED ("invalid scenario: " +:+ err) e)
            | Panic => quit e
            | Ok _ => task_engage ctx t e
            end
      end
  end.
(** What [RunExperiment] returns. *)
Record Experiment := mkExperiment {
  xp_bestRunID : string;
  xp_bestScore : float64;
  xp_iterations : Z;
  xp_candidates : option (list string);
}.
(** The end of [runOptimization]; [timedOut] tells whether the context's deadline
    ([MaxWallClockRuntime]) has passed. *)
Definition opt_end (now : Z) (cfg : Conf) (timedOut : bool) (result : go Experiment)
    (ctx : positive) (t : Task) (e : Executor) : Executor :=
  let runID := tk_run t in
  let quit := task_exit ctx runID in
  match result with
  | Ok x =>
      let e := on_store (λ s, after s (RunStore_SetOptimizationResult runID (xp_bestRunID x) (xp_bestScore x)
        (xp_iterations x) (xp_candidates x) s)) e in
      let e := on_store (RunStore_TrimOptimizationCandidates runID (xp_bestRunID x)) e in
      let e := if is_empty (xp_bestRunID x) then e
        else match RunStore_Get (xp_bestRunID x) (ex_store e) with
             | Some bestRec =>
                 match rr_Metrics bestRec with
                 | Some m => on_store (λ s, after s (RunStore_SetMetrics runID (Some m) s)) e
                 | None => e
                 end
             | None => e
             end in
      quit (finish_run now cfg runID COMPLETED "" e)
  | Fail err =>
      if timedOut || bool_decide (ctx ∈ ex_cancelled e) then quit e
      else quit (finish_run now cfg runID FAILED err e)
  | Panic => quit e
  end.

(** * The state machine *)

Definition status_of (e : Executor) (id : string) : option Status :=
  rr_Status <$> rs_runs (ex_store e) !! id.
Definition task_of (e : Executor) (id : string) : Prop :=
  ∃ ctx t, ex_tasks e !! ctx = Some t ∧ tk_run t = id.

(** The two steps of a goroutine: up to its work, and from the end of the work. *)
Inductive task_step (strict : bool) (e : Executor) : Executor → Prop :=
  | task_begin ctx t now wall cfg rmInit stateInit collector :
      ex_tasks e !! ctx = Some t → tk_phase t = Spawned → rmInit ≠ Panic → stateInit ≠ Panic →
      task_step strict e (if bool_decide (tk_kind t = OptTask) then opt_begin now cfg ctx t e
                     else sim_begin now wall cfg rmInit stateInit collector ctx t e)
  | task_sim_end ctx t now cfg runErr metrics :
      ex_tasks e !! ctx = Some t → tk_phase t = Engaged → tk_kind t = SimTask →
      task_step strict e (sim_end now cfg runErr metrics ctx t e)
  | task_online_end ctx t now cfg runErr metrics :
      ex_tasks e !! ctx = Some t → tk_phase t = Engaged → tk_kind t = OnlineTask →
      task_step strict e (online_end now cfg runErr metrics ctx t e)
  | task_opt_end ctx t now cfg timedOut result :
      ex_tasks e !! ctx = Some t → tk_phase t = Engaged → tk_kind t = OptTask → result ≠ Panic →
      (strict = true → timedOut = false) →
      task_step strict e (opt_end now cfg timedOut result ctx t e).
(** Everything that can happen. With [strict] the callers do not start a run that
    is running already, do not reuse the ID of a run whose goroutine is still there,
    and no optimisation reaches its deadline. *)
Inductive step (strict : bool) (e : Executor) : Executor → Prop :=
  | step_create g now id input rec s :
      RunStore_Create unmarshal g now id (Some input) (ex_store e) = Ok (rec, s) →
      (strict = true → ¬ task_of e (run_Id (rr_Run rec))) →
      step strict e (e <| ex_store := s |>)
  | step_start now id :
      (strict = true → status_of e id ≠ Some RUNNING) →
      step strict e (snd (RunExecutor_Start now id e))
  | step_stop_cancel id : step strict e (stop_cancel id e)
  | step_stop_status now cfg id : id ∈ ex_stopping e → step strict e (stop_status now cfg id e)
  | step_lease_end id reason :
      reason ≠ "" →
      (∀ ctx t, ex_tasks e !! ctx = Some t → tk_run t = id → tk_kind t = OnlineTask) →
      step strict e (RunExecutor_signalOnlineLeaseEnd id reason e)
  | step_renew wall id : step strict e (snd (RunExecutor_RenewOnlineLease wall id e))
  | step_task e' : task_step strict e e' → step strict e e'
  | step_progress id iteration score :
      step strict e (on_store (RunStore_SetOptimizationProgress id iteration score) e)
  | step_history id st :
      step strict e (on_store (λ s,
        match RunStore_AppendOptimizationStep id st s with Ok s' => s' | _ => s end) e)
  | step_retention sort order now :
      SortSlice sort → visits_runs order (ex_store e) →
      step strict e (on_store (RunStore_CleanupNow sort order now) e).
Definition steps (strict : bool) : relation Executor := rtc (step strict).
End Calls.

(** * Effects of the operations on the store, seen through statuses and inputs *)

Definition view (e : Executor) (id : string) : option (Status * option RunInput) :=
  (λ rec, (rr_Status rec, rr_Input rec)) <$> rs_runs (ex_store e) !! id.
(** Only the store, the callbacks, the leases and the live sets may differ. *)
Record same_control (e e' : Executor) : Prop := {
  sc_tasks : ex_tasks e' = ex_tasks e;
  sc_cancels : ex_cancels e' = ex_cancels e;
  sc_cancelled : ex_cancelled e' = ex_cancelled e;
  sc_nextCtx : ex_nextCtx e' = ex_nextCtx e;
  sc_reason : ex_onlineCompletionReason e' = ex_onlineCompletionReason e;
  sc_stopping : ex_stopping e' = ex_stopping e;
}.
Definition quiet (e e' : Executor) : Prop := same_control e e' ∧ ∀ k, view e' k = view e k.
Definition settles (id : string) (e e' : Executor) : Prop :=
  same_control e e' ∧ (∀ k, k ≠ id → view e' k = view e k)
  ∧ match view e' id with Some (st, _) => isTerminalStatus st = true | None => view e id = None end.

#[export] Instance same_control_preorder : PreOrder same_control.
Proof. split; [by intros ?; split|]. intros ??? [] []. split; congruence. Qed.
#[export] Instance quiet_preorder : PreOrder quiet.
Proof.
  split; [done|]. intros e1 e2 e3 [? H1] [? H2]. split; [by etrans|]. intros k. by rewrite H2.
Qed.
Lemma quiet_settles id e1 e2 e3 : quiet e1 e2 → settles id e2 e3 → settles id e1 e3.
Proof.
  intros [C1 V1] (C2 & V2 & T). split; [by etrans|]. split.
  - intros k Hk. by rewrite V2, V1.
  - by rewrite V1 in T.
Qed.
Lemma settles_quiet id e1 e2 e3 : settles id e1 e2 → quiet e2 e3 → settles id e1 e3.
Proof.
  intros (C1 & V1 & T) [C2 V2]. split; [by etrans|]. split.
  - intros k Hk. by rewrite V2, V1.
  - by rewrite V2.
Qed.

(** An update of one record that keeps its status and input. *)
Lemma quiet_update id f e :
  (∀ rec, rr_Status (f rec) = rr_Status rec ∧ rr_Input (f rec) = rr_Input rec) →
  quiet e (on_store (λ s, after s (update_run id f s)) e).
Proof.
  intros Hf. split; [by split|]. intros k. unfold view, on_store, update_run. simpl.
  destruct (rs_runs (ex_store e) !! id) as [rec|] eqn:E; [|done]. simpl.
  destruct (decide (k = id)) as [->|Hk].
  - rewrite lookup_insert_eq, E. simpl. by destruct (Hf rec) as [-> ->].
  - by rewrite lookup_insert_ne.
Qed.
Lemma quiet_snapshot cfg id e : quiet e (RunExecutor_snapshotFinalConfiguration cfg id e).
Proof.
  unfold RunExecutor_snapshotFinalConfiguration. case_bool_decide; [|done]. by apply quiet_update.
Qed.
Lemma quiet_notify cfg rec e : quiet e (RunExecutor_sendNotificationIfConfigured cfg rec e).
Proof.
  unfold RunExecutor_sendNotificationIfConfigured. destruct (rr_Input rec) as [input|]; [|done].
  destruct (is_empty (ri_CallbackUrl input)); [done|].
  etrans; [apply (quiet_snapshot cfg (run_Id (rr_Run rec)))|]. split; [by split|done].
Qed.
Lemma set_status_settles now id st msg e s' rec :
  isTerminalStatus st = true → RunStore_SetStatus now id st msg (ex_store e) = Ok (rec, s') →
  settles id e (e <| ex_store := s' |>).
Proof.
  intros Ht H. unfold RunStore_SetStatus, update_run in H.
  destruct (rs_runs (ex_store e) !! id) as [r|] eqn:E; [|done]. injection H as <- <-.
  split; [by split|]. unfold view. simpl. split.
  - intros k Hk. by rewrite lookup_insert_ne.
  - rewrite lookup_insert_eq. simpl. by rewrite with_status_status.
Qed.
Lemma set_status_missing now id st msg e err :
  RunStore_SetStatus now id st msg (ex_store e) = Fail err → view e id = None.
Proof.
  unfold RunStore_SetStatus, update_run, view. by destruct (rs_runs (ex_store e) !! id).
Qed.
Lemma set_status_no_panic now id st msg (s : RunStore) : RunStore_SetStatus now id st msg s ≠ Panic.
Proof. unfold RunStore_SetStatus, update_run. by destruct (rs_runs s !! id). Qed.
Lemma finish_settles now cfg id st msg e :
  isTerminalStatus st = true → settles id e (finish_run now cfg id st msg e).
Proof.
  intros Ht. unfold finish_run.
  destruct (RunStore_SetStatus now id st msg (ex_store e)) as [[rec s']|err|] eqn:E.
  - eapply settles_quiet; [by eapply set_status_settles|apply quiet_notify].
  - pose proof (set_status_missing _ _ _ _ _ _ E) as V. split; [by split|]. split; [done|by rewrite V].
  - by apply set_status_no_panic in E.
Qed.
Lemma quiet_metrics id m e : quiet e (on_store (λ s, after s (RunStore_SetMetrics id m s)) e).
Proof. by apply quiet_update. Qed.
Lemma quiet_result id best score n ids e :
  quiet e (on_store (λ s, after s (RunStore_SetOptimizationResult id best score n ids s)) e).
Proof.
  by apply (quiet_update id (λ rec, rec <| rr_Run := (rr_Run rec) <| run_BestRunId := best |>
    <| run_BestScore := score |> <| run_Iterations := n |>
    <| run_CandidateRunIds := cap_candidates (lc_MaxOptimizationCandidates (rs_lifecycle (ex_store e))) ids |> |>)).
Qed.

(** * No run is left behind *)

Section Invariant.
Context (unmarshal : string → go Scenario) (duration_String : Duration → string).
Context (Hyaml : ∀ text, ParseScenarioYAML unmarshal text ≠ Panic).

(** The reason for which a task may see its context cancelled although its run is
    still marked running. *)
Definition excused (e : Executor) (t : Task) : Prop :=
  tk_run t ∈ ex_stopping e
  ∨ tk_kind t = OnlineTask ∧ ∃ reason, ex_onlineCompletionReason e !! tk_run t = Some reason ∧ reason ≠ "".
(** [skip] is a context whose task is about to return, if any. *)
Record control_skip (skip : option positive) (e : Executor) : Prop := {
  co_registered ctx t : ex_tasks e !! ctx = Some t → ex_cancels e !! tk_run t = Some ctx;
  co_cancels id ctx : ex_cancels e !! id = Some ctx → ∃ t, ex_tasks e !! ctx = Some t ∧ tk_run t = id;
  co_started ctx t st input : ex_tasks e !! ctx = Some t → view e (tk_run t) = Some (st, input) →
    st = RUNNING ∨ isTerminalStatus st = true;
  co_fresh id ctx : ex_cancels e !! id = Some ctx → (ctx < ex_nextCtx e)%positive;
  co_fresh_cancelled ctx : ctx ∈ ex_cancelled e → (ctx < ex_nextCtx e)%positive;
  co_running id input : view e id = Some (RUNNING, input) → task_of e id ∨ id ∈ ex_stopping e;
  co_cancelled ctx t input : ex_tasks e !! ctx = Some t → ctx ∈ ex_cancelled e →
    view e (tk_run t) = Some (RUNNING, input) → skip ≠ Some ctx → excused e t;
  co_input id st input : view e id = Some (st, input) → isTerminalStatus st = false → is_Some input;
  co_kind ctx t st input : ex_tasks e !! ctx = Some t → view e (tk_run t) = Some (st, Some input) →
    isTerminalStatus st = false → tk_kind t = task_kind input;
}.
Arguments co_input {skip e} _.
Arguments co_started {skip e} _.
Arguments co_kind {skip e} _.
Arguments co_cancelled {skip e} _.
Definition control_ok (e : Executor) : Prop := control_skip None e.
Lemma control_ok_skip ctx e : control_ok e → control_skip (Some ctx) e.
Proof. intros []. split; try done. intros. by eapply co_cancelled0. Qed.

Lemma task_of_same e e' id : ex_tasks e' = ex_tasks e → task_of e' id ↔ task_of e id.
Proof. unfold task_of. by intros ->. Qed.
Lemma excused_same e e' t : same_control e e' → excused e' t ↔ excused e t.
Proof. intros []. unfold excused. by rewrite sc_stopping0, sc_reason0. Qed.
(** Only finished runs are changed or dropped, or runs become finished. *)
Definition fades (e e' : Executor) : Prop :=
  same_control e e' ∧ ∀ k st input,
    view e' k = Some (st, input) → isTerminalStatus st = false → view e k = Some (st, input).
Lemma quiet_fades e e' : quiet e e' → fades e e'.
Proof. intros [C V]. split; [done|]. intros k st input. by rewrite V. Qed.
Lemma settles_fades id e e' : settles id e e' → fades e e'.
Proof.
  intros (C & V & T). split; [done|]. intros k st input Hk Hter.
  destruct (decide (k = id)) as [->|Hne]; [|by rewrite <-V]. rewrite Hk in T. simpl in T. congruence.
Qed.
Lemma fades_trans e1 e2 e3 : fades e1 e2 → fades e2 e3 → fades e1 e3.
Proof. intros [C1 V1] [C2 V2]. split; [by etrans|]. eauto. Qed.
Lemma fades_ok skip e e' : fades e e' → control_skip skip e → control_skip skip e'.
Proof.
  intros [C Hv] [H1 Hct Hst H2 H3 H4 H5 H6 H7]. pose proof C as [Ct Cc Cd Cn Cr Cs]. split.
  - intros ctx t. rewrite Ct, Cc. apply H1.
  - intros k ctx. rewrite Cc, Ct. apply Hct.
  - intros ctx t st input. rewrite Ct. intros Ht Hk.
    destruct (isTerminalStatus st) eqn:Est; [by right|left].
    destruct (Hst ctx t st input Ht (Hv _ _ _ Hk Est)) as [|]; congruence.
  - intros k ctx. rewrite Cc, Cn. apply H2.
  - intros ctx. rewrite Cd, Cn. apply H3.
  - intros k input Hk. rewrite (task_of_same _ _ _ Ct), Cs. eapply H4, Hv; done.
  - intros ctx t input. rewrite Ct, Cd, (excused_same _ _ _ C).
    intros Ht Hc Hk. by apply (H5 ctx t input Ht Hc), Hv.
  - intros k st input Hk Hter. eapply H6; [by apply Hv|done].
  - intros ctx t st input. rewrite Ct. intros Ht Hk Hter. eapply H7; [done|by apply Hv|done].
Qed.
Lemma quiet_ok skip e e' : quiet e e' → control_skip skip e → control_skip skip e'.
Proof. intros H%quiet_fades. by apply fades_ok. Qed.
Lemma settles_ok skip id e e' : settles id e e' → control_skip skip e → control_skip skip e'.
Proof. intros H%settles_fades. by apply fades_ok. Qed.
Lemma cancel_run_some id c e : ex_cancels e !! id = Some c →
  cancel_run id e = e <| ex_cancelled := {[c]} ∪ ex_cancelled e |>.
Proof. unfold cancel_run. by intros ->. Qed.
Lemma cleanup_fields id c e : ex_cancels e !! id = Some c →
  let e' := RunExecutor_cleanup id e in
  ex_store e' = ex_store e ∧ ex_tasks e' = ex_tasks e
  ∧ ex_cancels e' = delete id (ex_cancels e) ∧ ex_cancelled e' = {[c]} ∪ ex_cancelled e
  ∧ ex_nextCtx e' = ex_nextCtx e
  ∧ ex_onlineCompletionReason e' = delete id (ex_onlineCompletionReason e)
  ∧ ex_stopping e' = ex_stopping e.
Proof.
  intros Hc e'. subst e'. unfold RunExecutor_cleanup. rewrite (cancel_run_some id c e Hc).
  repeat split; reflexivity.
Qed.
Lemma task_exit_fields ctx id c e : ex_cancels e !! id = Some c →
  let e' := task_exit ctx id e in
  ex_store e' = ex_store e ∧ ex_tasks e' = delete ctx (ex_tasks e)
  ∧ ex_cancels e' = delete id (ex_cancels e) ∧ ex_cancelled e' = {[c]} ∪ ex_cancelled e
  ∧ ex_nextCtx e' = ex_nextCtx e
  ∧ ex_onlineCompletionReason e' = delete id (ex_onlineCompletionReason e)
  ∧ ex_stopping e' = ex_stopping e.
Proof.
  intros Hc. unfold task_exit. set (e1 := e <| ex_tasks := delete ctx (ex_tasks e) |>).
  exact (cleanup_fields id c e1 Hc).
Qed.
(** A task may leave when its run is not running any more, or is being stopped. *)
Lemma exit_ok ctx t e :
  control_skip (Some ctx) e → ex_tasks e !! ctx = Some t →
  (∀ input, view e (tk_run t) = Some (RUNNING, input) → tk_run t ∈ ex_stopping e) →
  control_ok (task_exit ctx (tk_run t) e).
Proof.
  intros [H1 Hct Hst H2 H3 H4 H5 H6 H7] Ht Hrun. pose proof (H1 _ _ Ht) as Hc.
  assert (Hother : ∀ ctx' t', ex_tasks e !! ctx' = Some t' → ctx' ≠ ctx → tk_run t' ≠ tk_run t).
  { intros ctx' t' Ht' Hne E. pose proof (H1 _ _ Ht') as Hc'. rewrite E in Hc'. congruence. }
  destruct (task_exit_fields ctx (tk_run t) ctx e Hc) as (Es & Et & Ec & Ed & En & Er & Ep).
  assert (Ev : ∀ k, view (task_exit ctx (tk_run t) e) k = view e k) by (intros; unfold view; by rewrite Es).
  split.
  - intros ctx' t'. rewrite Et, Ec. intros [Hne Ht']%lookup_delete_Some. rewrite lookup_delete_ne; [by apply H1|].
    intros E. by apply (Hother ctx' t').
  - intros id c. rewrite Ec, Et. intros [Hne Hid]%lookup_delete_Some.
    destruct (Hct id c Hid) as (t' & Ht' & <-). exists t'. split; [|done].
    rewrite lookup_delete_ne; [done|]. intros ->. congruence.
  - intros c t' st input. rewrite Et, Ev. intros [Hne Ht']%lookup_delete_Some. by eapply Hst.
  - intros id c. rewrite Ec, En. intros [_ Hid]%lookup_delete_Some. by eapply H2.
  - intros c. rewrite Ed, En. intros [->%elem_of_singleton|Hin]%elem_of_union; [by eapply H2|by apply H3].
  - intros id input. rewrite Ev, Ep. intros Hv. destruct (decide (id = tk_run t)) as [->|Hne].
    + right. by eapply Hrun.
    + destruct (H4 id input Hv) as [(c & t' & Ht' & <-)|]; [left|by right].
      exists c, t'. split; [|done]. rewrite Et, lookup_delete_ne; [done|]. intros ->. congruence.
  - intros c t' input. rewrite Et, Ed, Ev.
    intros [Hne Ht']%lookup_delete_Some [->%elem_of_singleton|Hin]%elem_of_union Hv _; [done|].
    unfold excused. rewrite Ep, Er.
    destruct (H5 c t' input Ht' Hin Hv ltac:(congruence)) as [Hs|(Hk & r & Hr & Hr')]; [by left|right].
    split; [done|]. exists r. rewrite lookup_delete_ne; [done|].
    intros E. symmetry in E. by apply (Hother c t').
  - intros id st input. rewrite Ev. apply H6.
  - intros c t' st input. rewrite Et, Ev. intros [Hne Ht']%lookup_delete_Some. by eapply H7.
Qed.
Lemma fades_exit_ok ctx t e e1 e' :
  control_skip (Some ctx) e → ex_tasks e !! ctx = Some t → fades e e1 → settles (tk_run t) e1 e' →
  control_ok (task_exit ctx (tk_run t) e').
Proof.
  intros Hok Ht Hf Hs. apply exit_ok.
  - eapply fades_ok; [|done]. eapply fades_trans; [done|by eapply settles_fades].
  - destruct Hf as [[Ct1 _ _ _ _ _] _], Hs as [[Ct _ _ _ _ _] _]. by rewrite Ct, Ct1.
  - destruct Hs as (_ & _ & T). intros input Hv. by rewrite Hv in T.
Qed.
Lemma settles_exit_ok ctx t e e' :
  control_skip (Some ctx) e → ex_tasks e !! ctx = Some t → settles (tk_run t) e e' →
  control_ok (task_exit ctx (tk_run t) e').
Proof. intros Hok Ht. apply (fades_exit_ok ctx t e e); [done..|by apply quiet_fades]. Qed.
Lemma quiet_exit_ok ctx t e e' :
  control_skip (Some ctx) e → ex_tasks e !! ctx = Some t → quiet e e' →
  (∀ input, view e (tk_run t) = Some (RUNNING, input) → tk_run t ∈ ex_stopping e) →
  control_ok (task_exit ctx (tk_run t) e').
Proof.
  intros Hok Ht Hq Hrun. pose proof Hq as [[Ct _ _ _ _ Cs] V]. apply exit_ok.
  - by eapply quiet_ok.
  - by rewrite Ct.
  - intros input. rewrite V, Cs. apply Hrun.
Qed.

(** ** The calls of the API *)

Lemma create_inv g now id input (s : RunStore) rec s' :
  RunStore_Create unmarshal g now id (Some input) s = Ok (rec, s') →
  ∃ k i, rs_runs s !! k = None ∧ rec = new_record k (Some i) now ∧ s' = set_run k rec s.
Proof.
  intros H. unfold RunStore_Create in H. go_inv. set (k := if is_empty id then g else id) in *.
  assert (is_Some x2) as [i ->] by (unfold PrepareOnlineRunInput in *; repeat case_match; go_inv; eauto).
  exists k, i. split; [by apply eq_None_not_Some|done].
Qed.
Lemma create_control_ok g now id input rec s e :
  RunStore_Create unmarshal g now id (Some input) (ex_store e) = Ok (rec, s) →
  ¬ task_of e (run_Id (rr_Run rec)) → control_ok e → control_ok (e <| ex_store := s |>).
Proof.
  intros (k0 & i0 & _ & -> & ->)%create_inv Hno [H1 Hct Hst H2 H3 H4 H5 H6 H7].
  set (e' := e <| ex_store := _ |>).
  assert (Hv : ∀ k, view e' k = if decide (k = k0) then Some (PENDING, Some i0) else view e k).
  { intros k. unfold view, e', set_run. simpl. case_decide as D; [subst k; by rewrite lookup_insert_eq|].
    by rewrite lookup_insert_ne. }
  assert (Hother : ∀ ctx t, ex_tasks e !! ctx = Some t → tk_run t ≠ k0).
  { intros ctx t Ht E. apply Hno. by exists ctx, t. }
  split; try done.
  - intros ctx t st i Ht. rewrite Hv, decide_False by eauto. by apply (Hst ctx).
  - intros k i. rewrite Hv. case_decide; [done|]. apply H4.
  - intros ctx t i Ht Hc. rewrite Hv, decide_False by eauto. by apply (H5 ctx).
  - intros k st i. rewrite Hv. case_decide; [intros [= <- <-]; done|]. apply H6.
  - intros ctx t st i Ht. rewrite Hv, decide_False by eauto. by apply (H7 ctx).
Qed.

Lemma start_checks_no_panic e rec : start_checks unmarshal duration_String e rec ≠ Panic.
Proof.
  unfold start_checks, ServerLimits_validatePreStart, validateOptimizationPreStart,
    validateOnlineOptimizationConfig, fail_if.
  repeat (case_match; simpl; try done).
Qed.
(** The guard marks a run running that was not, or changes nothing. *)
Lemma guard_inv now id (s : RunStore) rec s' :
  RunStore_SetStatusRunningWithOnlineConcurrencyGuard now id s = Ok (rec, s') →
  rr_Status rec = RUNNING ∧ ∃ old, rs_runs s !! id = Some old ∧ rr_Input rec = rr_Input old
  ∧ (rr_Status old = RUNNING ∨ isTerminalStatus (rr_Status old) = false ∧ s' = set_run id rec s).
Proof.
  unfold RunStore_SetStatusRunningWithOnlineConcurrencyGuard. destruct (rs_runs s !! id) as [old|]; [|done].
  destruct (rr_Status old) eqn:E; try done; unfold fail_if.
  1,2: case_match; [done|]; cbn [go_bind]; intros [= <- <-]; split;
    [unfold rr_Status, start_run; simpl; by case_match|]; exists old; rewrite E; auto.
  intros [= <- <-]. eauto 10.
Qed.
Lemma no_task_no_cancel e id : control_ok e → ¬ task_of e id → ex_cancels e !! id = None.
Proof.
  intros [_ Hct _ _ _ _ _ _ _] Hno. destruct (ex_cancels e !! id) as [ctx|] eqn:E; [|done].
  destruct (Hct id ctx E) as (t & ? & ?). destruct Hno. by exists ctx, t.
Qed.
(** A fresh task for a run that is marked running at the same time. *)
Lemma spawn_ok e id input s :
  control_ok e → ¬ task_of e id →
  (∀ k, k ≠ id → view (e <| ex_store := s |>) k = view e k) →
  view (e <| ex_store := s |>) id = Some (RUNNING, Some input) →
  control_ok (e <| ex_store := s |> <| ex_nextCtx := Pos.succ (ex_nextCtx e) |>
    <| ex_cancels := <[id := ex_nextCtx e]> (ex_cancels e) |>
    <| ex_tasks := <[ex_nextCtx e := mkTask id (task_kind input) Spawned]> (ex_tasks e) |>).
Proof.
  intros Hok Hno Hv Hid. pose proof (no_task_no_cancel e id Hok Hno) as Hc.
  destruct Hok as [H1 Hct Hst H2 H3 H4 H5 H6 H7].
  assert (Hother : ∀ ctx t, ex_tasks e !! ctx = Some t → tk_run t ≠ id ∧ ctx ≠ ex_nextCtx e).
  { intros ctx t Ht. split; [intros <-; apply Hno; by exists ctx, t|].
    intros ->. pose proof (H2 _ _ (H1 _ _ Ht)). lia. }
  set (ctx0 := ex_nextCtx e) in *. set (t0 := mkTask id (task_kind input) Spawned).
  set (e1 := e <| ex_store := s |>) in *. set (e' := e1 <| ex_nextCtx := _ |> <| ex_cancels := _ |> <| ex_tasks := _ |>).
  assert (Ev : ∀ k, view e' k = view e1 k) by done.
  assert (Et : ex_tasks e' = <[ctx0 := t0]> (ex_tasks e)) by done.
  assert (Ec : ex_cancels e' = <[id := ctx0]> (ex_cancels e)) by done.
  assert (Ed : ex_cancelled e' = ex_cancelled e) by done.
  assert (En : ex_nextCtx e' = Pos.succ ctx0) by done.
  assert (Ex : ∀ t, excused e' t ↔ excused e t) by done.
  assert (Es : ex_stopping e' = ex_stopping e) by done.
  clearbody e' e1. split.
  - intros ctx t. rewrite Et, Ec. intros [[<- <-]|[Hne Ht]]%lookup_insert_Some.
    + apply lookup_insert_eq.
    + rewrite lookup_insert_ne; [by apply H1|]. by destruct (Hother ctx t Ht).
  - intros k ctx. rewrite Ec, Et. intros [[<- <-]|[Hne Hk]]%lookup_insert_Some.
    + exists t0. by rewrite lookup_insert_eq.
    + destruct (Hct k ctx Hk) as (t & Ht & <-). exists t. rewrite lookup_insert_ne; [done|].
      by destruct (Hother ctx t Ht).
  - intros ctx t st i. rewrite Et, Ev. intros [[<- <-]|[Hne Ht]]%lookup_insert_Some.
    + simpl. rewrite Hid. intros [= <- <-]. by left.
    + destruct (Hother ctx t Ht). rewrite Hv by done. by apply (Hst ctx).
  - intros k ctx. rewrite Ec, En. intros [[<- <-]|[Hne Hk]]%lookup_insert_Some; [lia|].
    pose proof (H2 _ _ Hk). lia.
  - intros ctx. rewrite Ed, En. intros Hin. pose proof (H3 _ Hin). lia.
  - intros k i. rewrite Ev, Es. destruct (decide (k = id)) as [->|Hne].
    + intros _. left. exists ctx0, t0. by rewrite Et, lookup_insert_eq.
    + rewrite Hv by done. intros [(ctx & t & Ht & <-)|]%H4; [left|by right].
      exists ctx, t. rewrite Et, lookup_insert_ne; [done|]. by destruct (Hother ctx t Ht).
  - intros ctx t i. rewrite Et, Ed, Ev, Ex. intros [[<- <-]|[Hne Ht]]%lookup_insert_Some Hin.
    + pose proof (H3 _ Hin). lia.
    + destruct (Hother ctx t Ht). rewrite Hv by done. by apply (H5 ctx).
  - intros k st i. rewrite Ev. destruct (decide (k = id)) as [->|Hne].
    + rewrite Hid. by intros [= <- <-].
    + rewrite Hv by done. apply H6.
  - intros ctx t st i. rewrite Et, Ev. intros [[<- <-]|[Hne Ht]]%lookup_insert_Some.
    + simpl. rewrite Hid. by intros [= <- <-].
    + destruct (Hother ctx t Ht). rewrite Hv by done. by apply (H7 ctx).
Qed.
Lemma view_set_run e id rec k :
  view (e <| ex_store := set_run id rec (ex_store e) |>) k =
  if decide (k = id) then Some (rr_Status rec, rr_Input rec) else view e k.
Proof.
  unfold view, set_run. simpl. case_decide as D; [subst k; by rewrite lookup_insert_eq|].
  by rewrite lookup_insert_ne.
Qed.
Lemma start_control_ok now id e :
  control_ok e → status_of e id ≠ Some RUNNING →
  control_ok (snd (RunExecutor_Start unmarshal duration_String now id e)).
Proof.
  intros Hok Hnr. unfold RunExecutor_Start. destruct (is_empty id); [done|].
  destruct (RunStore_SetStatusRunningWithOnlineConcurrencyGuard now id (ex_store e))
    as [[rec s]|err|] eqn:G; [|done..].
  destruct (guard_inv _ _ _ _ _ G) as (Hrun & old & Hold & Hin & [Hst|[Hter ->]]).
  { destruct Hnr. unfold status_of. by rewrite Hold, <-Hst. }
  assert (Hvold : view e id = Some (rr_Status old, rr_Input old)) by (unfold view; by rewrite Hold).
  destruct (co_input Hok _ _ _ Hvold Hter) as [input Ei]. rewrite Ei in Hin, Hvold.
  assert (Hno : ¬ task_of e id).
  { intros (ctx & t & Ht & <-). destruct (co_started Hok _ _ _ _ Ht Hvold) as [Hs|]; [|congruence].
    apply Hnr. unfold status_of. by rewrite Hold, <-Hs. }
  set (e1 := e <| ex_store := set_run id rec (ex_store e) |>).
  assert (Hv1 : ∀ k, k ≠ id → view e1 k = view e k)
    by (intros k Hk; unfold e1; by rewrite view_set_run, decide_False).
  assert (Hid1 : view e1 id = Some (RUNNING, Some input))
    by (unfold e1; by rewrite view_set_run, decide_True, Hrun, Hin).
  destruct (start_checks unmarshal duration_String e1 rec) as [u|err|] eqn:C.
  - cbn [snd]. rewrite Hin. cbn [snd].
    assert (Ecr : cancel_run id e1 = e1).
    { unfold cancel_run. change (ex_cancels e1) with (ex_cancels e).
      by rewrite (no_task_no_cancel e id Hok Hno). }
    rewrite Ecr. by apply (spawn_ok e id input).
  - cbn [snd]. unfold on_store.
    destruct (RunStore_SetStatus now id FAILED err (ex_store e1)) as [[r s']|er|] eqn:S.
    + apply (settles_ok None id e); [|done].
      destruct (set_status_settles now id FAILED err e1 s' r eq_refl S) as (Cc & Vk & T).
      split; [destruct Cc; split; assumption|]. split; [|].
      * intros k Hk. rewrite <-Hv1 by done. by apply Vk.
      * rewrite Hvold. unfold after. revert T. rewrite Hid1. by case_match.
    + apply set_status_missing in S. congruence.
    + by apply set_status_no_panic in S.
  - by apply start_checks_no_panic in C.
Qed.
(** Cancelling the context of a run whose task has an excuse. *)
Lemma cancel_ok id e e' :
  control_ok e → (∀ k, view e' k = view e k) →
  ex_tasks e' = ex_tasks e → ex_cancels e' = ex_cancels e → ex_nextCtx e' = ex_nextCtx e →
  (∀ ctx, ex_cancels e !! id = Some ctx → ex_cancelled e' = {[ctx]} ∪ ex_cancelled e) →
  (ex_cancels e !! id = None → ex_cancelled e' = ex_cancelled e) →
  (∀ x, x ∈ ex_stopping e → x ∈ ex_stopping e') →
  (∀ t, excused e t → excused e' t) → (∀ ctx t, ex_tasks e !! ctx = Some t → tk_run t = id → excused e' t) →
  control_ok e'.
Proof.
  intros Hok Hv Ct Cc Cn Cd Cd' Cs Hex Hid. destruct Hok as [H1 Hct Hst H2 H3 H4 H5 H6 H7].
  assert (Hin : ∀ ctx, ctx ∈ ex_cancelled e' → ctx ∈ ex_cancelled e ∨ ex_cancels e !! id = Some ctx).
  { intros ctx. destruct (ex_cancels e !! id) as [c|] eqn:E; [rewrite (Cd c eq_refl); set_solver|].
    rewrite Cd' by done. auto. }
  split.
  - intros ctx t. rewrite Ct, Cc. apply H1.
  - intros k ctx. rewrite Cc, Ct. apply Hct.
  - intros ctx t st i. rewrite Ct, Hv. apply Hst.
  - intros k ctx. rewrite Cc, Cn. apply H2.
  - intros ctx Hc. rewrite Cn. destruct (Hin _ Hc); [by apply H3|by eapply H2].
  - intros k i. rewrite Hv, (task_of_same _ _ _ Ct). intros [|]%H4; auto.
  - intros ctx t i. rewrite Ct, Hv. intros Ht [Hc|Hc]%Hin Hi Hn; [by eapply Hex, H5|].
    eapply Hid; [done|]. destruct (Hct _ _ Hc) as (t' & Ht' & <-). congruence.
  - intros k st i. rewrite Hv. apply H6.
  - intros ctx t st i. rewrite Ct, Hv. apply H7.
Qed.
Lemma cancel_run_fields id e :
  ex_store (cancel_run id e) = ex_store e ∧ ex_tasks (cancel_run id e) = ex_tasks e
  ∧ ex_cancels (cancel_run id e) = ex_cancels e ∧ ex_nextCtx (cancel_run id e) = ex_nextCtx e
  ∧ ex_onlineCompletionReason (cancel_run id e) = ex_onlineCompletionReason e
  ∧ ex_stopping (cancel_run id e) = ex_stopping e
  ∧ (∀ ctx, ex_cancels e !! id = Some ctx → ex_cancelled (cancel_run id e) = {[ctx]} ∪ ex_cancelled e)
  ∧ (ex_cancels e !! id = None → ex_cancelled (cancel_run id e) = ex_cancelled e).
Proof.
  unfold cancel_run. destruct (ex_cancels e !! id) as [c|]; repeat split; intros; simplify_eq; done.
Qed.
Lemma stop_cancel_ok id e : control_ok e → control_ok (stop_cancel id e).
Proof.
  intros Hok. unfold stop_cancel. destruct (is_empty id); [done|].
  destruct (cancel_run_fields id e) as (Es & Et & Ec & En & Er & Ep & Ed & Ed').
  set (e1 := cancel_run id e) in *. clearbody e1. set (e' := e1 <| ex_stopping := _ |>).
  assert (Es' : ex_stopping e' = {[id]} ∪ ex_stopping e) by done.
  apply (cancel_ok id e e'); try done.
  - intros k. unfold view. change (ex_store e') with (ex_store e1). by rewrite Es.
  - intros x Hx. rewrite Es'. set_solver.
  - intros t. unfold excused. rewrite Es'. change (ex_onlineCompletionReason e') with (ex_onlineCompletionReason e1).
    rewrite Er. intros [|]; [left; set_solver|by right].
  - intros ctx t _ <-. left. rewrite Es'. set_solver.
Qed.
Lemma lease_end_ok id reason e :
  control_ok e → reason ≠ "" →
  (∀ ctx t, ex_tasks e !! ctx = Some t → tk_run t = id → tk_kind t = OnlineTask) →
  control_ok (RunExecutor_signalOnlineLeaseEnd id reason e).
Proof.
  intros Hok Hr Hon. unfold RunExecutor_signalOnlineLeaseEnd. set (e1 := e <| ex_onlineCompletionReason := _ |>).
  destruct (cancel_run_fields id e1) as (Es & Et & Ec & En & Er & Ep & Ed & Ed').
  set (e' := cancel_run id e1) in *. clearbody e'.
  apply (cancel_ok id e e'); try done.
  - intros k. unfold view. by rewrite Es.
  - intros x. by rewrite Ep.
  - intros t. unfold excused. rewrite Ep, Er. change (ex_stopping e1) with (ex_stopping e).
    change (ex_onlineCompletionReason e1) with (<[id := reason]> (ex_onlineCompletionReason e)).
    intros [|(Hk & r & Hl & Hn)]; [by left|right]. split; [done|].
    destruct (decide (tk_run t = id)) as [->|Hne]; [exists reason; by rewrite lookup_insert_eq|].
    exists r. by rewrite lookup_insert_ne.
  - intros ctx t Ht Hid. right. split; [by eapply Hon|]. exists reason. rewrite Er.
    change (ex_onlineCompletionReason e1) with (<[id := reason]> (ex_onlineCompletionReason e)).
    by rewrite Hid, lookup_insert_eq.
Qed.
Lemma stop_status_ok now cfg id e : control_ok e → control_ok (stop_status now cfg id e).
Proof.
  intros Hok. unfold stop_status. set (e1 := e <| ex_stopping := _ |>).
  assert (Hs1 : ∀ e2, settles id e1 e2 → control_ok e2).
  { intros e2 (C & V & T). destruct Hok as [H1 Hct Hst H2 H3 H4 H5 H6 H7].
    pose proof C as [Ct Cc Cd Cn Cr Cs].
    change (ex_stopping e1) with (ex_stopping e ∖ {[id]}) in Cs.
    assert (Hv : ∀ k st i, view e2 k = Some (st, i) → isTerminalStatus st = false →
      k ≠ id ∧ view e k = Some (st, i)).
    { intros k st i Hk Hter. destruct (decide (k = id)) as [->|Hne].
      - rewrite Hk in T. simpl in T. congruence.
      - split; [done|]. change (view e k) with (view e1 k). by rewrite <-V. }
    split.
    - intros ctx t. rewrite Ct, Cc. apply H1.
    - intros k ctx. rewrite Cc, Ct. apply Hct.
    - intros ctx t st i. rewrite Ct. intros Ht Hk.
      destruct (isTerminalStatus st) eqn:Est; [by right|left].
      destruct (Hst ctx t st i Ht (proj2 (Hv _ _ _ Hk Est))); congruence.
    - intros k ctx. rewrite Cc, Cn. apply H2.
    - intros ctx. rewrite Cd, Cn. apply H3.
    - intros k i Hk. destruct (Hv _ _ _ Hk eq_refl) as [Hne Hk'].
      rewrite (task_of_same e1 _ _ Ct), Cs. destruct (H4 _ _ Hk') as [|]; [by left|right; set_solver].
    - intros ctx t i. rewrite Ct, Cd. intros Ht Hc Hk _. destruct (Hv _ _ _ Hk eq_refl) as [Hne Hk'].
      unfold excused. rewrite Cs, Cr. destruct (H5 ctx t i Ht Hc Hk' ltac:(done)) as [|]; [left; set_solver|by right].
    - intros k st i Hk Hter. eapply H6; [by eapply Hv|done].
    - intros ctx t st i. rewrite Ct. intros Ht Hk Hter. eapply H7; [done|by eapply Hv|done]. }
  destruct (RunStore_SetStatus now id STOPPED "" (ex_store e1)) as [[rec s]|err|] eqn:S.
  - pose proof (set_status_settles now id STOPPED "" e1 s rec eq_refl S) as H.
    set (e2 := e1 <| ex_store := s |>) in *. clearbody e2.
    assert (Hq : quiet e2 (RunExecutor_snapshotFinalConfiguration cfg id e2)) by apply quiet_snapshot.
    destruct (is_online (rr_Input rec)); apply Hs1.
    + by eapply settles_quiet.
    + eapply settles_quiet; [by eapply settles_quiet|]. apply quiet_notify.
  - apply set_status_missing in S. apply Hs1. split; [by split|]. split; [done|]. by rewrite S.
  - by apply set_status_no_panic in S.
Qed.
Lemma renew_ok wall id e : control_ok e → control_ok (snd (RunExecutor_RenewOnlineLease wall id e)).
Proof.
  intros Hok. unfold RunExecutor_RenewOnlineLease. repeat case_match; try done.
  apply (quiet_ok None e); [|done]. split; [by split|done].
Qed.
(** ** The goroutines *)

Lemma engage_ok ctx t e : control_ok e → ex_tasks e !! ctx = Some t → control_ok (task_engage ctx t e).
Proof.
  intros [H1 Hct Hst H2 H3 H4 H5 H6 H7] Ht. unfold task_engage.
  set (t' := t <| tk_phase := Engaged |>). set (e' := e <| ex_tasks := _ |>).
  assert (Et : ex_tasks e' = <[ctx := t']> (ex_tasks e)) by done.
  assert (Hlk : ∀ c x, ex_tasks e' !! c = Some x →
    ∃ y, ex_tasks e !! c = Some y ∧ tk_run y = tk_run x ∧ tk_kind y = tk_kind x).
  { intros c x. rewrite Et. intros [[<- <-]|[_ Hx]]%lookup_insert_Some; [by exists t|by exists x]. }
  assert (Hex : ∀ x y, tk_run y = tk_run x → tk_kind y = tk_kind x → excused e y → excused e' x).
  { intros x y E1 E2. unfold excused. by rewrite E1, E2. }
  split; try done.
  - intros c x (y & Hy & <- & _)%Hlk. by apply H1.
  - intros id c Hc. destruct (Hct id c Hc) as (x & Hx & <-). destruct (decide (c = ctx)) as [->|Hne].
    + exists t'. simplify_eq. by rewrite Et, lookup_insert_eq.
    + exists x. by rewrite Et, lookup_insert_ne.
  - intros c x st i (y & Hy & <- & _)%Hlk. by apply (Hst c).
  - intros id i Hi. destruct (H4 id i Hi) as [(c & x & Hx & <-)|]; [left|by right].
    destruct (decide (c = ctx)) as [->|Hne].
    + exists ctx, t'. simplify_eq. by rewrite Et, lookup_insert_eq.
    + exists c, x. by rewrite Et, lookup_insert_ne.
  - intros c x i (y & Hy & E1 & E2)%Hlk Hc Hi Hn. rewrite <-E1 in Hi. by eapply Hex, (H5 c).
  - intros c x st i (y & Hy & <- & <-)%Hlk. by apply (H7 c).
Qed.
Lemma quiet_live_lease e ids leases :
  quiet e (e <| ex_live := ids |> <| ex_onlineLeaseDeadline := leases |>).
Proof. split; [by split|done]. Qed.
Lemma view_get e id : view e id = (λ rec, (rr_Status rec, rr_Input rec)) <$> RunStore_Get id (ex_store e).
Proof. done. Qed.
Lemma sim_begin_ok now wall cfg rmInit stateInit collector ctx t e :
  control_ok e → ex_tasks e !! ctx = Some t → rmInit ≠ Panic → stateInit ≠ Panic →
  control_ok (sim_begin unmarshal now wall cfg rmInit stateInit collector ctx t e).
Proof.
  intros Hok Ht Hrm Hsi. unfold sim_begin.
  destruct (RunStore_Get (tk_run t) (ex_store e)) as [rec|] eqn:G.
  2:{ apply exit_ok; [by apply control_ok_skip|done|]. intros i. rewrite view_get, G. done. }
  assert (Hv : view e (tk_run t) = Some (rr_Status rec, rr_Input rec)) by (by rewrite view_get, G).
  destruct (rr_Input rec) as [input|] eqn:I.
  2:{ apply exit_ok; [by apply control_ok_skip|done|]. intros i Hi. rewrite Hv in Hi. injection Hi as Hs <-.
      rewrite Hs in Hv. by destruct (co_input Hok _ _ _ Hv eq_refl). }
  case_match eqn:O.
  { apply exit_ok; [by apply control_ok_skip|done|]. intros i Hi. rewrite Hv in Hi. injection Hi as Hs <-. rewrite Hs in Hv.
    apply andb_true_iff in O as [K%bool_decide_eq_true N%bool_decide_eq_true].
    pose proof (co_kind Hok _ _ _ _ Ht Hv eq_refl) as E. rewrite K in E. unfold task_kind in E.
    by rewrite N in E. }
  destruct (ParseScenarioYAML unmarshal (ri_ScenarioYaml input)) as [scn|err|] eqn:P; [| |by apply Hyaml in P].
  2:{ apply (settles_exit_ok ctx t e); [by apply control_ok_skip|done|]. by apply finish_settles. }
  destruct rmInit as [u|err|]; [| |done].
  2:{ apply (settles_exit_ok ctx t e); [by apply control_ok_skip|done|]. by apply finish_settles. }
  assert (Q : quiet e (on_store (λ s, after s (RunStore_SetCollector (tk_run t) (Some collector) s)) e))
    by by apply quiet_update.
  set (e1 := on_store _ e) in *. clearbody e1.
  destruct stateInit as [u'|err|]; [| |done].
  2:{ apply (settles_exit_ok ctx t e); [by apply control_ok_skip|done|]. eapply quiet_settles; [done|]. by apply finish_settles. }
  assert (Q2 : ∀ e2, quiet e1 e2 → control_ok (task_engage ctx t e2)).
  { intros e2 Q'. pose proof (transitivity Q Q') as Q2. apply engage_ok; [by eapply quiet_ok|].
    destruct Q2 as [[Et _ _ _ _ _] _]. by rewrite Et. }
  repeat case_match; apply Q2; (split; [by split|done]).
Qed.
Lemma opt_begin_ok now cfg ctx t e :
  control_ok e → ex_tasks e !! ctx = Some t → control_ok (opt_begin unmarshal now cfg ctx t e).
Proof.
  intros Hok Ht. unfold opt_begin.
  destruct (RunStore_Get (tk_run t) (ex_store e)) as [rec|] eqn:G.
  2:{ apply exit_ok; [by apply control_ok_skip|done|]. intros i. rewrite view_get, G. done. }
  assert (Hv : view e (tk_run t) = Some (rr_Status rec, rr_Input rec)) by (by rewrite view_get, G).
  destruct (rr_Input rec) as [input|] eqn:I.
  2:{ apply exit_ok; [by apply control_ok_skip|done|]. intros i Hi. rewrite Hv in Hi. injection Hi as Hs <-.
      rewrite Hs in Hv. by destruct (co_input Hok _ _ _ Hv eq_refl). }
  destruct (ex_optimizationRunner e); simpl.
  2:{ apply (settles_exit_ok ctx t e); [by apply control_ok_skip|done|]. by apply finish_settles. }
  destruct (ParseScenarioYAML unmarshal (ri_ScenarioYaml input)) as [scn|err|] eqn:P; [| |by apply Hyaml in P].
  - by apply engage_ok.
  - apply (settles_exit_ok ctx t e); [by apply control_ok_skip|done|]. by apply finish_settles.
Qed.
Lemma not_running_exit ctx t e e' :
  control_skip (Some ctx) e → ex_tasks e !! ctx = Some t → quiet e e' →
  (∀ rec, RunStore_Get (tk_run t) (ex_store e') = Some rec → rr_Status rec ≠ RUNNING) →
  control_ok (task_exit ctx (tk_run t) e').
Proof.
  intros Hok Ht Q Hn. eapply quiet_exit_ok; [done..|]. intros i. pose proof Q as [_ V].
  rewrite <-V, view_get. destruct (RunStore_Get (tk_run t) (ex_store e')) as [rec|]; [|done].
  intros [= Hs _]. by destruct (Hn rec eq_refl).
Qed.
Lemma sim_end_ok now cfg runErr metrics ctx t e :
  control_ok e → ex_tasks e !! ctx = Some t → tk_kind t = SimTask →
  control_ok (sim_end now cfg runErr metrics ctx t e).
Proof.
  intros Hok Ht K. unfold sim_end. destruct runErr as [err|].
  - case_bool_decide as C.
    + eapply (quiet_exit_ok ctx t e); [by apply control_ok_skip|done| |].
      * case_match; [apply quiet_notify|done].
      * intros i Hi. destruct (co_cancelled Hok _ _ _ Ht C Hi ltac:(done)) as [|[]]; [done|congruence].
    + apply (settles_exit_ok ctx t e); [by apply control_ok_skip|done|]. by apply finish_settles.
  - assert (Q : quiet e (on_store (λ s, after s (RunStore_SetMetrics (tk_run t) (Some metrics) s)) e))
      by by apply quiet_update.
    set (e1 := on_store _ e) in *. clearbody e1.
    destruct (RunStore_Get (tk_run t) (ex_store e1)) as [rec|] eqn:G.
    2:{ eapply not_running_exit; [by apply control_ok_skip|done..|]. by rewrite G. }
    case_bool_decide as R.
    + apply (settles_exit_ok ctx t e); [by apply control_ok_skip|done|]. eapply quiet_settles; [|by apply finish_settles].
      etrans; [exact Q|]. etrans; [|apply quiet_snapshot]. case_bool_decide; [by apply quiet_update|done].
    + eapply not_running_exit; [by apply control_ok_skip|done..|]. rewrite G. by intros ? [= <-].
Qed.
Lemma finalize_online_ok now cfg reason metrics ctx t e :
  control_skip (Some ctx) e → ex_tasks e !! ctx = Some t →
  control_ok (task_exit ctx (tk_run t)
    (RunExecutor_finalizeOnlineOptimizationRun now cfg (tk_run t) reason metrics e)).
Proof.
  intros Hok Ht. unfold RunExecutor_finalizeOnlineOptimizationRun.
  assert (Q : quiet e (on_store (λ s, after s (RunStore_SetMetrics (tk_run t) (Some metrics) s)) e))
    by by apply quiet_update.
  set (e1 := on_store _ e) in *. clearbody e1.
  set (e2 := if is_empty reason then e1 else _).
  assert (Q2 : quiet e e2) by (etrans; [exact Q|]; unfold e2; case_match; [done|by apply quiet_update]).
  clearbody e2. destruct (RunStore_Get (tk_run t) (ex_store e2)) as [rec|] eqn:G.
  2:{ eapply not_running_exit; [done..|]. by rewrite G. }
  case_bool_decide as R; simpl.
  - apply (settles_exit_ok ctx t e); [done..|]. eapply quiet_settles; [|by apply finish_settles].
    etrans; [exact Q2|]. etrans; [|apply quiet_snapshot]. by apply quiet_update.
  - eapply not_running_exit; [done..|]. rewrite G. by intros ? [= <-].
Qed.
Lemma take_reason_skip ctx t e :
  control_ok e → ex_tasks e !! ctx = Some t →
  control_skip (Some ctx)
    (e <| ex_onlineCompletionReason := delete (tk_run t) (ex_onlineCompletionReason e) |>).
Proof.
  intros [H1 Hct Hst H2 H3 H4 H5 H6 H7] Ht. split; try done.
  intros c x i Hx Hc Hi Hne. destruct (H5 c x i Hx Hc Hi ltac:(done)) as [|(K & r & Hr & Hn)]; [by left|right].
  split; [done|]. exists r. split; [|done].
  change (delete (tk_run t) (ex_onlineCompletionReason e) !! tk_run x = Some r).
  rewrite lookup_delete_ne; [done|]. intros E. pose proof (H1 _ _ Ht) as Hc1. pose proof (H1 _ _ Hx) as Hc2.
  rewrite E in Hc1. congruence.
Qed.
Lemma online_end_ok now cfg runErr metrics ctx t e :
  control_ok e → ex_tasks e !! ctx = Some t →
  control_ok (online_end now cfg runErr metrics ctx t e).
Proof.
  intros Hok Ht. unfold online_end. destruct runErr as [err|].
  2:{ apply finalize_online_ok; [by apply control_ok_skip|done]. }
  cbn [RunExecutor_takeOnlineCompletionReason].
  pose proof (take_reason_skip ctx t e Hok Ht) as Hskip.
  set (e1 := e <| ex_onlineCompletionReason := _ |>) in *.
  assert (Ht1 : ex_tasks e1 !! ctx = Some t) by exact Ht.
  assert (Hexc : is_empty (default "" (ex_onlineCompletionReason e !! tk_run t)) = true →
    ctx ∈ ex_cancelled e → ∀ i, view e (tk_run t) = Some (RUNNING, i) → tk_run t ∈ ex_stopping e).
  { intros Hemp Hc i Hi. destruct (co_cancelled Hok _ _ _ Ht Hc Hi ltac:(done)) as [|(_ & r & Hr & Hn)]; [done|].
    rewrite Hr in Hemp. by apply String.eqb_eq in Hemp. }
  destruct (is_empty (default "" (ex_onlineCompletionReason e !! tk_run t))) eqn:Emp; cbn [negb].
  2:{ by apply finalize_online_ok. }
  case_bool_decide as C.
  2:{ apply (settles_exit_ok ctx t e1); [done..|]. by apply finish_settles. }
  destruct (RunStore_Get (tk_run t) (ex_store e1)) as [rec|] eqn:G.
  2:{ apply (quiet_exit_ok ctx t e1); [done..|]. exact (Hexc eq_refl C). }
  case_bool_decide as S.
  2:{ apply (quiet_exit_ok ctx t e1); [done..|apply quiet_notify|exact (Hexc eq_refl C)]. }
  set (e2 := on_store (λ s, after s (RunStore_SetMetrics _ _ s)) e1).
  assert (Q2 : quiet e1 e2) by apply quiet_metrics. clearbody e2.
  set (e3 := on_store (λ s, after s (RunStore_SetOptimizationResult _ _ _ _ _ s)) e2).
  assert (Q3 : quiet e2 e3) by apply quiet_result. clearbody e3.
  apply (quiet_exit_ok ctx t e1); [done..| |exact (Hexc eq_refl C)].
  etrans; [exact Q2|]. etrans; [exact Q3|]. case_match; [apply quiet_notify|done].
Qed.
Lemma trim_fades p b e : fades e (on_store (RunStore_TrimOptimizationCandidates p b) e).
Proof.
  split; [by split|]. intros k st input. unfold view, on_store. cbn [ex_store set_field].
  unfold RunStore_TrimOptimizationCandidates.
  destruct (rs_runs (ex_store e) !! p) as [parent|]; [|done]. cbn [rs_runs set_field].
  rewrite map_lookup_imap. destruct (rs_runs (ex_store e) !! k) as [rec|] eqn:E; [|done]. simpl.
  unfold trim_record. case_match eqn:C; [done|]. apply orb_false_iff in C as [_ T%negb_false_iff].
  case_bool_decide; [|done]. simpl. intros [= <- _] Hter. unfold rr_Status in Hter, T.
  rewrite (proj1 (finalize_fields _ _)) in Hter. congruence.
Qed.
Lemma retention_fades sort `{!SortSlice sort} order now e :
  visits_runs order (ex_store e) → fades e (on_store (RunStore_CleanupNow sort order now) e).
Proof.
  intros Hv. split; [by split|]. intros k st input. unfold view, on_store. cbn [ex_store set_field].
  destruct (cleanup_split sort now order (ex_store e) Hv) as (E & K & _ & Hs' & _). rewrite Hs'.
  case_decide; [done|]. destruct (rs_runs (ex_store e) !! k) as [rec|] eqn:Er; [|done]. simpl.
  unfold cleanup_record. destruct (isTerminalStatus (rr_Status rec)) eqn:T; [|done]. simpl.
  case_match; [done|]. simpl. intros [= <- _] Hter. unfold rr_Status in Hter, T.
  rewrite (proj1 (finalize_fields _ _)) in Hter. congruence.
Qed.
Lemma opt_end_ok now cfg result ctx t e :
  control_ok e → ex_tasks e !! ctx = Some t → tk_kind t = OptTask → result ≠ Panic →
  control_ok (opt_end now cfg false result ctx t e).
Proof.
  intros Hok Ht K Hp. unfold opt_end. destruct result as [x|err|]; [| |done].
  - set (e1 := on_store (λ s, after s (RunStore_SetOptimizationResult _ _ _ _ _ s)) e).
    assert (F1 : fades e e1) by (apply quiet_fades, quiet_result). clearbody e1.
    set (e2 := on_store _ e1).
    assert (F2 : fades e e2) by (eapply fades_trans; [exact F1|apply trim_fades]). clearbody e2.
    set (e3 := if is_empty (xp_bestRunID x) then e2 else _).
    assert (F3 : fades e e3).
    { eapply fades_trans; [exact F2|]. apply quiet_fades. unfold e3. repeat case_match; try done.
      apply quiet_metrics. }
    clearbody e3. apply (fades_exit_ok ctx t e e3); [by apply control_ok_skip|done..|]. by apply finish_settles.
  - cbn [orb]. case_bool_decide as C.
    + apply exit_ok; [by apply control_ok_skip|done|]. intros i Hi.
      destruct (co_cancelled Hok _ _ _ Ht C Hi ltac:(done)) as [|[]]; [done|congruence].
    + apply (settles_exit_ok ctx t e); [by apply control_ok_skip|done|]. by apply finish_settles.
Qed.
Lemma task_step_ok e e' : task_step unmarshal true e e' → control_ok e → control_ok e'.
Proof.
  intros H Hok. destruct H.
  - case_bool_decide; [by apply opt_begin_ok|by apply sim_begin_ok].
  - by apply sim_end_ok.
  - by apply online_end_ok.
  - rewrite (H3 eq_refl). by apply opt_end_ok.
Qed.
Lemma step_ok e e' : step unmarshal duration_String true e e' → control_ok e → control_ok e'.
Proof.
  intros H Hok. destruct H.
  - eapply create_control_ok; eauto.
  - apply start_control_ok; auto.
  - by apply stop_cancel_ok.
  - by apply stop_status_ok.
  - by apply lease_end_ok.
  - by apply renew_ok.
  - by eapply task_step_ok.
  - eapply (quiet_ok None e); [|done]. unfold RunStore_SetOptimizationProgress.
    apply (quiet_update id (λ rec, rec <| rr_Run := (rr_Run rec) <| run_Iterations := iteration |>
      <| run_BestScore := score |> |>)). done.
  - eapply (quiet_ok None e); [|done]. destruct st as [st|]; [|by split].
    unfold on_store. cbn [RunStore_AppendOptimizationStep].
    lazymatch goal with |- context [update_run id ?f (ex_store e)] =>
      generalize (quiet_update id f e (λ rec, conj eq_refl eq_refl)); unfold on_store;
      destruct (update_run id f (ex_store e)) as [[]| |]; exact (λ Q, Q) end.
  - eapply (fades_ok None e); [by apply retention_fades|done].
Qed.

(** ** Progress *)

(** How many steps the goroutines can still take. *)
Definition weight (t : Task) : nat := match tk_phase t with Spawned => 2 | Engaged => 1 end.
Definition work (e : Executor) : nat := map_fold (λ _ t n, weight t + n)%nat 0%nat (ex_tasks e).
Definition leaves (ctx : positive) (e e' : Executor) : Prop := ex_tasks e' = delete ctx (ex_tasks e).

Lemma map_fold_weight (m : gmap positive Task) ctx t : m !! ctx = Some t →
  map_fold (λ _ t n, weight t + n)%nat 0%nat m
  = (weight t + map_fold (λ _ t n, weight t + n)%nat 0%nat (delete ctx m))%nat.
Proof.
  intros H. rewrite <-(insert_delete_id m ctx t H) at 1.
  apply (map_fold_insert_L (λ _ t n, weight t + n)%nat); [intros; lia|apply lookup_delete_eq].
Qed.
Lemma work_leaves ctx t e e' :
  ex_tasks e !! ctx = Some t → leaves ctx e e' → (work e' < work e)%nat.
Proof.
  intros Ht Hl. unfold work. rewrite Hl, (map_fold_weight _ _ _ Ht). unfold weight. case_match; lia.
Qed.
Lemma exit_leaves ctx id e e' : ex_tasks e' = ex_tasks e → leaves ctx e (task_exit ctx id e').
Proof.
  intros E. unfold leaves, task_exit, RunExecutor_cleanup. set (e1 := e' <| ex_tasks := _ |>).
  destruct (cancel_run_fields id e1) as (_ & Et & _). rewrite <-E. exact Et.
Qed.
Lemma quiet_leaves ctx id e e' : quiet e e' → leaves ctx e (task_exit ctx id e').
Proof. intros [[E _ _ _ _ _] _]. by apply exit_leaves. Qed.
Lemma settles_leaves ctx id e e1 e' : fades e e1 → settles id e1 e' → leaves ctx e (task_exit ctx id e').
Proof. intros [[E1 _ _ _ _ _] _] [[E _ _ _ _ _] _]. apply exit_leaves. congruence. Qed.
Lemma finish_leaves ctx now cfg id st msg e e1 :
  isTerminalStatus st = true → fades e e1 → leaves ctx e (task_exit ctx id (finish_run now cfg id st msg e1)).
Proof. intros H F. eapply settles_leaves; [done|]. by apply finish_settles. Qed.
Lemma finalize_leaves ctx now cfg reason metrics id e e1 :
  ex_tasks e1 = ex_tasks e →
  leaves ctx e (task_exit ctx id (RunExecutor_finalizeOnlineOptimizationRun now cfg id reason metrics e1)).
Proof.
  intros E. apply exit_leaves. rewrite <-E.
  unfold RunExecutor_finalizeOnlineOptimizationRun.
  set (e2 := if is_empty reason then _ else _).
  assert (E2 : ex_tasks e2 = ex_tasks e1) by (unfold e2; by case_match). clearbody e2.
  case_match; [|done]. case_match; [done|]. set (e3 := on_store _ e2). rewrite <-E2.
  assert (E3 : ex_tasks e3 = ex_tasks e2) by done. clearbody e3. rewrite <-E3.
  destruct (quiet_snapshot cfg id e3) as [[E4 _ _ _ _ _] _]. rewrite <-E4.
  by destruct (finish_settles now cfg id COMPLETED "" (RunExecutor_snapshotFinalConfiguration cfg id e3) eq_refl)
    as [[E5 _ _ _ _ _] _].
Qed.
Lemma engage_work ctx t e e1 :
  ex_tasks e !! ctx = Some t → tk_phase t = Spawned → ex_tasks e1 = ex_tasks e →
  (work (task_engage ctx t e1) < work e)%nat.
Proof.
  intros Ht P E. unfold work, task_engage. cbn [ex_tasks set_field]. rewrite E.
  rewrite (map_fold_weight _ _ _ Ht), (map_fold_weight (<[ctx := _]> _) ctx _ (lookup_insert_eq _ _ _)).
  rewrite delete_insert_eq. unfold weight. rewrite P. simpl. lia.
Qed.
Lemma sim_begin_work now wall cfg rmInit stateInit collector ctx t e :
  ex_tasks e !! ctx = Some t → tk_phase t = Spawned →
  (work (sim_begin unmarshal now wall cfg rmInit stateInit collector ctx t e) < work e)%nat.
Proof.
  intros Ht P. unfold sim_begin.
  assert (Hq : ∀ e', leaves ctx e e' → (work e' < work e)%nat) by (intros; by eapply work_leaves).
  assert (Q : quiet e (on_store (λ s, after s (RunStore_SetCollector (tk_run t) (Some collector) s)) e))
    by by apply quiet_update.
  set (e1 := on_store _ e) in *. assert (E1 : ex_tasks e1 = ex_tasks e) by done. clearbody e1.
  repeat case_match; try (apply Hq; first [by apply exit_leaves | by apply finish_leaves, quiet_fades]);
    by apply engage_work.
Qed.
Lemma opt_begin_work now cfg ctx t e :
  ex_tasks e !! ctx = Some t → tk_phase t = Spawned → (work (opt_begin unmarshal now cfg ctx t e) < work e)%nat.
Proof.
  intros Ht P. unfold opt_begin.
  repeat case_match; try (eapply work_leaves; [done|]; first [by apply exit_leaves | by apply finish_leaves, quiet_fades]);
    by apply engage_work.
Qed.
Lemma sim_end_leaves now cfg runErr metrics ctx t e : leaves ctx e (sim_end now cfg runErr metrics ctx t e).
Proof.
  unfold sim_end. destruct runErr as [err|].
  - case_bool_decide; [|by apply finish_leaves, quiet_fades]. apply quiet_leaves.
    case_match; [apply quiet_notify|done].
  - pose proof (quiet_metrics (tk_run t) (Some metrics) e) as Q. set (e1 := on_store _ e) in *. clearbody e1.
    repeat (case_match; [|by apply quiet_leaves]). apply finish_leaves; [done|]. apply quiet_fades.
    etrans; [exact Q|]. etrans; [|apply quiet_snapshot].
    destruct (bool_decide (get_optimization _ = None)); [apply quiet_result|done].
Qed.
Lemma online_end_leaves now cfg runErr metrics ctx t e :
  leaves ctx e (online_end now cfg runErr metrics ctx t e).
Proof.
  unfold online_end. destruct runErr as [err|]; [|by apply finalize_leaves].
  cbn [RunExecutor_takeOnlineCompletionReason]. set (e1 := e <| ex_onlineCompletionReason := _ |>).
  assert (E1 : ex_tasks e1 = ex_tasks e) by done. clearbody e1.
  assert (Hl : ∀ e', quiet e1 e' → leaves ctx e (task_exit ctx (tk_run t) e')).
  { intros e' [[E _ _ _ _ _] _]. apply exit_leaves. congruence. }
  case_match; [by apply finalize_leaves|]. case_bool_decide.
  - case_match; [|by apply Hl]. case_bool_decide; [|apply Hl, quiet_notify].
    set (e2 := on_store (λ s, after s (RunStore_SetMetrics _ _ s)) e1).
    assert (Q2 : quiet e1 e2) by apply quiet_metrics. clearbody e2.
    set (e3 := on_store (λ s, after s (RunStore_SetOptimizationResult _ _ _ _ _ s)) e2).
    assert (Q3 : quiet e2 e3) by apply quiet_result. clearbody e3.
    apply Hl. etrans; [exact Q2|]. etrans; [exact Q3|]. case_match; [apply quiet_notify|done].
  - unfold leaves. rewrite <-E1. by apply (finish_leaves ctx now cfg (tk_run t) FAILED err e1 e1), quiet_fades.
Qed.
Lemma opt_end_leaves now cfg timedOut result ctx t e : leaves ctx e (opt_end now cfg timedOut result ctx t e).
Proof.
  unfold opt_end. destruct result as [x|err|]; [| |by apply quiet_leaves].
  - set (e1 := on_store (λ s, after s (RunStore_SetOptimizationResult _ _ _ _ _ s)) e).
    assert (F1 : fades e e1) by (apply quiet_fades, quiet_result). clearbody e1.
    set (e2 := on_store _ e1).
    assert (F2 : fades e e2) by (eapply fades_trans; [exact F1|apply trim_fades]). clearbody e2.
    apply finish_leaves; [done|]. eapply fades_trans; [exact F2|]. apply quiet_fades.
    repeat case_match; try done. apply quiet_metrics.
  - case_match; [by apply quiet_leaves|]. by apply finish_leaves, quiet_fades.
Qed.
Lemma task_step_work strict e e' : task_step unmarshal strict e e' → (work e' < work e)%nat.
Proof.
  intros []; [case_bool_decide; [by apply opt_begin_work|by apply sim_begin_work]|..];
    (eapply work_leaves; [done|]);
    [apply sim_end_leaves|apply online_end_leaves|apply opt_end_leaves].
Qed.
(** A goroutine is never blocked by the others. *)
Lemma task_step_enabled strict e ctx t (cfg : Conf) (metrics : Metrics) :
  ex_tasks e !! ctx = Some t → ∃ e', task_step unmarshal strict e e'.
Proof.
  intros Ht. destruct (tk_phase t) eqn:P.
  - eexists. by apply (task_begin unmarshal strict e ctx t 0 0 cfg (Ok tt) (Ok tt) 1%positive).
  - destruct (tk_kind t) eqn:K; eexists.
    + by apply (task_sim_end unmarshal strict e ctx t 0 cfg None metrics).
    + by apply (task_opt_end unmarshal strict e ctx t 0 cfg false (Fail "")).
    + by apply (task_online_end unmarshal strict e ctx t 0 cfg None metrics).
Qed.
Lemma control_init lc limits limitsErr safety runner :
  control_ok (NewRunExecutor (NewRunStore lc) limits limitsErr safety runner).
Proof. split; intros; simplify_map_eq; try done; set_solver. Qed.
Lemma steps_ok e0 e : steps unmarshal duration_String true e0 e → control_ok e0 → control_ok e.
Proof. induction 1; eauto using step_ok. Qed.
Lemma task_steps_ok e e' : rtc (task_step unmarshal true) e e' → control_ok e → control_ok e'.
Proof. induction 1; eauto using task_step_ok. Qed.
Lemma task_steps_bounded strict n e e' : nsteps (task_step unmarshal strict) n e e' → (n + work e' ≤ work e)%nat.
Proof. induction 1 as [|n x y z Hs _ IH]; [lia|]. apply task_step_work in Hs. lia. Qed.

(** A run that is marked running has a goroutine or is being stopped. *)
Lemma running_attended e : control_ok e → ∀ id, status_of e id = Some RUNNING → task_of e id ∨ id ∈ ex_stopping e.
Proof.
  intros [_ _ _ _ _ H4 _ _ _] id Hs. unfold status_of in Hs. unfold view in H4.
  specialize (H4 id). destruct (rs_runs (ex_store e) !! id) as [rec|]; [|done].
  injection Hs as Hs. eapply H4. simpl. by rewrite Hs.
Qed.

(** C38: whatever clients and goroutines do, in any interleaving, as long as no run
    is started twice and no optimisation hits its deadline: a run that is marked
    running has a goroutine or is just being stopped, and no run has two. The
    goroutines never block each other and take at most [work] more steps, whatever
    their simulations return; once none of them can move and no [Stop] is half
    done, no run is left marked running. *)
Theorem every_run_finishes lc limits limitsErr safety runner (cfg : Conf) (metrics : Metrics) e :
  steps unmarshal duration_String true (NewRunExecutor (NewRunStore lc) limits limitsErr safety runner) e →
  (∀ id, status_of e id = Some RUNNING → task_of e id ∨ id ∈ ex_stopping e)
  ∧ (∀ c1 t1 c2 t2, ex_tasks e !! c1 = Some t1 → ex_tasks e !! c2 = Some t2 → tk_run t1 = tk_run t2 → c1 = c2)
  ∧ (∀ n e', nsteps (task_step unmarshal true) n e e' → (n ≤ work e)%nat)
  ∧ (∀ e', rtc (task_step unmarshal true) e e' → (∀ e'', ¬ task_step unmarshal true e' e'') →
       ex_stopping e' = ∅ → ∀ id, status_of e' id ≠ Some RUNNING).
Proof.
  intros Hsteps. pose proof (steps_ok _ _ Hsteps (control_init lc limits limitsErr safety runner)) as Hok.
  split; [by apply running_attended|]. split; [|split].
  - destruct Hok as [H1 _ _ _ _ _ _ _ _]. intros c1 t1 c2 t2 E1 E2 E.
    pose proof (H1 _ _ E1) as F1. pose proof (H1 _ _ E2) as F2. rewrite E in F1. congruence.
  - intros n e' Hn%task_steps_bounded. lia.
  - intros e' Hr Hstuck Hstop id Hs.
    destruct (running_attended e' (task_steps_ok _ _ Hr Hok) id Hs) as [(ctx & t & Ht & _)|Hin].
    + destruct (task_step_enabled true e' ctx t cfg metrics Ht) as [e'' H]. by apply (Hstuck e'').
    + rewrite Hstop in Hin. set_solver.
Qed.
End Invariant.
End Control.

(** * Concrete runs *)

Abbreviation executor := (Executor (Metrics := unit) (Conf := unit) (Step := unit)).
Definition callback_run : RunInput := mkRunInput "scn" "" 60000 0 false None "http://cb" "".
Definition optimizer_run : RunInput :=
  mkRunInput "scn" "" 60000 0 false (Some (sample_opt false 0)) "" "".
Definition no_string (_ : Duration) : string := "".
Definition executor0 : executor :=
  NewRunExecutor (NewRunStore defaultRunStoreLifecycleConfig) defaultSimulationLimits None
    defaultOptimizationSafetyLimits true.
Definition created (input : RunInput) : executor :=
  on_store (λ s, after s (RunStore_Create sample_yaml "g" 5 "a" (Some input) s)) executor0.
Definition started (e : executor) : executor := snd (RunExecutor_Start sample_yaml no_string 6 "a" e).
Definition begun (ctx : positive) (e : executor) : executor :=
  sim_begin sample_yaml 7 7 tt (Ok tt) (Ok tt) 1%positive ctx (mkTask "a" SimTask Spawned) e.
Definition ended (ctx : positive) (err : option string) (e : executor) : executor :=
  sim_end 9 tt err tt ctx (mkTask "a" SimTask Engaged) e.
Definition opt_begun (e : executor) : executor :=
  opt_begin sample_yaml 7 tt 1%positive (mkTask "a" OptTask Spawned) e.
Definition opt_ended (timedOut : bool) (e : executor) : executor :=
  opt_end 9 tt timedOut (Fail "deadline exceeded") 1%positive (mkTask "a" OptTask Engaged) e.

Abbreviation sample_steps strict := (steps (Metrics := unit) (Conf := unit) (Step := unit) sample_yaml no_string strict).
Lemma created_steps strict input : input = callback_run ∨ input = optimizer_run →
  sample_steps strict executor0 (created input).
Proof.
  intros Hi. apply rtc_once. unfold created, on_store.
  destruct (RunStore_Create sample_yaml "g" 5 "a" (Some input) (ex_store executor0)) as [[rec s]|e|] eqn:E;
    [|destruct Hi as [-> | ->]; vm_compute in E; discriminate..].
  eapply (step_create sample_yaml no_string strict executor0 "g" 5 "a" input rec s E).
  intros _ (ctx & t & Ht & _). done.
Qed.
Lemma started_steps strict e :
  (strict = true → status_of e "a" ≠ Some RUNNING) → sample_steps strict e (started e).
Proof. intros H. apply rtc_once. by apply step_start. Qed.
Lemma begun_steps strict ctx e :
  ex_tasks e !! ctx = Some (mkTask "a" SimTask Spawned) → sample_steps strict e (begun ctx e).
Proof.
  intros H. apply rtc_once, step_task.
  by apply (task_begin sample_yaml strict e ctx (mkTask "a" SimTask Spawned) 7 7 tt (Ok tt) (Ok tt) 1%positive).
Qed.
Lemma ended_steps strict ctx err e :
  ex_tasks e !! ctx = Some (mkTask "a" SimTask Engaged) → sample_steps strict e (ended ctx err e).
Proof.
  intros H. apply rtc_once, step_task.
  by apply (task_sim_end sample_yaml strict e ctx (mkTask "a" SimTask Engaged) 9 tt err tt).
Qed.

Definition finished_run : executor := ended 1 None (begun 1 (started (created callback_run))).
Lemma finished_run_steps : sample_steps true executor0 finished_run.
Proof.
  etrans; [apply (created_steps true callback_run); by left|].
  etrans; [apply started_steps; intros _; vm_compute; discriminate|].
  etrans; [apply (begun_steps true 1); vm_compute; reflexivity|].
  apply (ended_steps true 1). vm_compute. reflexivity.
Qed.
Lemma sample_yaml_ok text : ParseScenarioYAML sample_yaml text ≠ Panic.
Proof. vm_compute. discriminate. Qed.
Lemma every_run_finishes_witness :
  status_of finished_run "a" = Some COMPLETED
  ∧ (∀ id, status_of finished_run id = Some RUNNING → task_of finished_run id ∨ id ∈ ex_stopping finished_run).
Proof.
  split; [vm_compute; reflexivity|].
  exact (proj1 (every_run_finishes sample_yaml no_string sample_yaml_ok defaultRunStoreLifecycleConfig
    defaultSimulationLimits None defaultOptimizationSafetyLimits true tt tt finished_run finished_run_steps)).
Defined.

(** Starting a run that is running replaces its context: the first goroutine is
    cancelled, and its clean-up cancels the second one. Both leave without setting
    a status, and the run stays marked running with nobody to finish it. *)
Definition started_twice : executor :=
  ended 2 (Some "simulation cancelled") (ended 1 (Some "simulation cancelled")
    (begun 2 (started (begun 1 (started (created callback_run)))))).
Lemma double_start_leaves_running :
  sample_steps false executor0 started_twice
  ∧ status_of started_twice "a" = Some RUNNING
  ∧ ex_tasks started_twice = ∅ ∧ ex_stopping started_twice = ∅.
Proof.
  split; [|vm_compute; done].
  etrans; [apply (created_steps false callback_run); by left|].
  etrans; [apply started_steps; intros H; discriminate H|].
  etrans; [apply (begun_steps false 1); vm_compute; reflexivity|].
  etrans; [apply (started_steps false (begun 1 (started (created callback_run)))); intros H; discriminate H|].
  etrans; [apply (begun_steps false 2); vm_compute; reflexivity|].
  etrans; [apply (ended_steps false 1); vm_compute; reflexivity|].
  apply (ended_steps false 2). vm_compute. reflexivity.
Qed.
(** An optimisation that runs into [MaxWallClockRuntime] stays marked running: the
    expired deadline is taken for a cancellation. *)
Definition timed_out_run : executor := opt_ended true (opt_begun (started (created optimizer_run))).
Lemma optimisation_deadline_leaves_running :
  sample_steps false executor0 timed_out_run
  ∧ status_of timed_out_run "a" = Some RUNNING
  ∧ ex_tasks timed_out_run = ∅ ∧ ex_stopping timed_out_run = ∅.
Proof.
  split; [|vm_compute; done].
  etrans; [apply (created_steps false optimizer_run); by right|].
  etrans; [apply started_steps; intros H; discriminate H|].
  etrans; [apply rtc_once, step_task;
    apply (task_begin sample_yaml false _ 1 (mkTask "a" OptTask Spawned) 7 7 tt (Ok tt) (Ok tt) 1%positive);
    [vm_compute; reflexivity|done..]|].
  apply rtc_once, step_task.
  apply (task_opt_end sample_yaml false _ 1 (mkTask "a" OptTask Engaged) 9 tt true (Fail "deadline exceeded"));
    [vm_compute; reflexivity|done..].
Qed.
(** Stopping a simulation sends its callback twice, from [Stop] and from the
    goroutine that notices the cancellation; and a run that is completed can be
    stopped, which overwrites its status. *)
Lemma stop_notifies_twice :
  ex_notified (ended 1 (Some "simulation cancelled")
    (RunExecutor_Stop 8 tt "a" (begun 1 (started (created callback_run)))))
  = [("a", STOPPED); ("a", STOPPED)].
Proof. vm_compute. reflexivity. Qed.
Lemma stop_overwrites_completed :
  status_of finished_run "a" = Some COMPLETED
  ∧ status_of (RunExecutor_Stop 10 tt "a" finished_run) "a" = Some STOPPED.
Proof. vm_compute. done. Qed.
