(* ===== verification/BrokerQueue.v ===== *)
(** [internal/resource/broker_queue.go]: the backlog shards of queue and topic
    services and the registry that holds them. The registry never removes or
    replaces a shard, so a shard's map key stands for its pointer. *)
From S2P Require Import Prelude GoFloat Policy Config.
From Stdlib Require Import SpecFloat.
#[local] Open Scope string_scope.
#[local] Open Scope list_scope.
#[local] Open Scope Z_scope.

(** * Data *)

Record QueuedMessage := mkMessage {
  qm_ID : string;
  qm_EnqueueTime : Time;
  qm_Redeliveries : Z;
  qm_ParentRequestID : string;
  qm_TraceID : string;
  qm_Metadata : gmap string DataVal;
  qm_TopicOffset : Z;
}.
#[export] Instance eta_QueuedMessage : Eta QueuedMessage := λ r, mkMessage (qm_ID r)
  (qm_EnqueueTime r) (qm_Redeliveries r) (qm_ParentRequestID r) (qm_TraceID r) (qm_Metadata r)
  (qm_TopicOffset r).
Record BrokerQueueShard := mkShard {
  sh_BrokerID : string;
  sh_Topic : string;
  sh_Partition : Z;
  sh_Capacity : Z;
  sh_MaxConcurrency : Z;
  sh_MaxRedeliveries : Z;
  sh_DropPolicy : string;
  sh_DLQTarget : string;
  sh_ConsumerTarget : string;
  sh_AckTimeoutMs : float64;
  sh_ConsumerGroup : string;
  sh_SubscriberName : string;
  sh_inFlight : Z;
  sh_messages : list QueuedMessage;
  sh_dropCount : Z;
  sh_redeliveryCount : Z;
  sh_dlqCount : Z;
  sh_nextCommitExclusive : Z;
  sh_pendingCommit : gset Z;
  sh_retentionNextFireScheduled : Time;
}.
#[export] Instance eta_BrokerQueueShard : Eta BrokerQueueShard := λ r, mkShard (sh_BrokerID r)
  (sh_Topic r) (sh_Partition r) (sh_Capacity r) (sh_MaxConcurrency r) (sh_MaxRedeliveries r)
  (sh_DropPolicy r) (sh_DLQTarget r) (sh_ConsumerTarget r) (sh_AckTimeoutMs r) (sh_ConsumerGroup
  r) (sh_SubscriberName r) (sh_inFlight r) (sh_messages r) (sh_dropCount r) (sh_redeliveryCount
  r) (sh_dlqCount r) (sh_nextCommitExclusive r) (sh_pendingCommit r)
  (sh_retentionNextFireScheduled r).
Record BrokerShardRuntimeSnapshot := mkShardSnapshot {
  ss_Depth : Z;
  ss_InFlight : Z;
  ss_MaxConcurrency : Z;
  ss_ConsumerTarget : string;
  ss_OldestMessageAgeMs : float64;
  ss_DropCount : Z;
  ss_RedeliveryCount : Z;
  ss_DlqCount : Z;
}.
Record EnqueueResult := mkEnqueueResult {
  er_Accepted : bool;
  er_DropReason : string;
  er_DroppedOldest : bool;
  er_EvictedTopicOffset : Z;
}.
Record QueueBrokerHealthSnapshot := mkQueueHealth {
  qh_BrokerID : string;
  qh_Topic : string;
  qh_snapshot : BrokerShardRuntimeSnapshot;
}.
Record TopicBrokerHealthSnapshot := mkTopicHealth {
  th_BrokerID : string;
  th_Topic : string;
  th_Partition : Z;
  th_Subscriber : string;
  th_ConsumerGroup : string;
  th_HighWatermarkExclusive : Z;
  th_CommittedOffsetExclusive : Z;
  th_ConsumerLag : float64;
  th_snapshot : BrokerShardRuntimeSnapshot;
}.
Record BrokerQueues := mkBrokerQueues {
  bq_queueShards : gmap string BrokerQueueShard;
  bq_topicShards : gmap string BrokerQueueShard;
  bq_topicPartitionHW : gmap string Z;
}.
#[export] Instance eta_BrokerQueues : Eta BrokerQueues := λ r, mkBrokerQueues (bq_queueShards r)
  (bq_topicShards r) (bq_topicPartitionHW r).

(** * Operations on a shard *)

Definition len {A} (l : list A) : Z := Z.of_nat (length l).
Definition accepted : EnqueueResult := mkEnqueueResult true "" false 0.
Definition rejected (reason : string) : EnqueueResult := mkEnqueueResult false reason false 0.

Definition BrokerQueueShard_capacityReachedLocked (s : BrokerQueueShard) : bool :=
  if sh_Capacity s <=? 0 then false else sh_Capacity s <=? len (sh_messages s).
Definition shard_append (m : QueuedMessage) (s : BrokerQueueShard) : BrokerQueueShard :=
  s <| sh_messages := sh_messages s ++ [m] |>.
Definition shard_count_drop (s : BrokerQueueShard) : BrokerQueueShard :=
  s <| sh_dropCount := wrap64 (sh_dropCount s + 1) |>.
Definition BrokerQueueShard_Enqueue (m : QueuedMessage) (s : BrokerQueueShard)
    : EnqueueResult * BrokerQueueShard :=
  let dp := norm (sh_DropPolicy s) in
  let dp := if is_empty dp then "block" else dp in
  if negb (BrokerQueueShard_capacityReachedLocked s) then (accepted, shard_append m s)
  else if String.eqb dp "reject" then (rejected "reject", shard_count_drop s)
  else if String.eqb dp "drop_newest" then (rejected "drop_newest", shard_count_drop s)
  else if String.eqb dp "drop_oldest" then
    match sh_messages s with
    | [] => (accepted, shard_append m s)
    | oldest :: rest =>
        (mkEnqueueResult true "drop_oldest" true (qm_TopicOffset oldest),
         shard_append m (shard_count_drop s <| sh_messages := rest |>))
    end
  else if String.eqb dp "block" then (rejected "block_full", shard_count_drop s)
  else (rejected "reject", shard_count_drop s).

Definition BrokerQueueShard_Depth (s : BrokerQueueShard) : Z := len (sh_messages s).
Definition BrokerQueueShard_TryPopForDispatch (s : BrokerQueueShard)
    : option QueuedMessage * BrokerQueueShard :=
  if (0 <? sh_MaxConcurrency s) && (sh_MaxConcurrency s <=? sh_inFlight s) then (None, s)
  else
    match sh_messages s with
    | [] => (None, s)
    | m :: rest =>
        (Some m, s <| sh_messages := rest |> <| sh_inFlight := wrap64 (sh_inFlight s + 1) |>)
    end.
Definition BrokerQueueShard_ConsumerFinished (s : BrokerQueueShard) : BrokerQueueShard :=
  if 0 <? sh_inFlight s then s <| sh_inFlight := sh_inFlight s - 1 |> else s.
Definition BrokerQueueShard_RequeueFront (m : QueuedMessage) (s : BrokerQueueShard)
    : BrokerQueueShard :=
  let s := BrokerQueueShard_ConsumerFinished s in
  s <| sh_messages := m :: sh_messages s |>.

(** The front messages enqueued at or before [threshold], and the rest. *)
Fixpoint expire_front (threshold : Time) (l : list QueuedMessage)
    : list QueuedMessage * list QueuedMessage :=
  match l with
  | [] => ([], [])
  | m :: l' =>
      if After (qm_EnqueueTime m) threshold then ([], l)
      else let '(removed, rest) := expire_front threshold l' in (m :: removed, rest)
  end.
Definition BrokerQueueShard_ExpireQueuedByRetention (now : Time) (retentionMs : Z)
    (s : BrokerQueueShard) : list Z * BrokerQueueShard :=
  if retentionMs <=? 0 then ([], s)
  else
    let threshold := now + wrap64 (- retentionMs * Millisecond) in
    let '(removed, rest) := expire_front threshold (sh_messages s) in
    (qm_TopicOffset <$> removed,
     s <| sh_messages := rest |> <| sh_dropCount := wrap64 (sh_dropCount s + len removed) |>).

(** The loop that advances the commit frontier; every iteration removes a
    pending offset, so their number bounds the iterations. *)
Fixpoint advance_frontier (fuel : nat) (next : Z) (pending : gset Z) : Z * gset Z :=
  match fuel with
  | O => (next, pending)
  | S fuel =>
      if bool_decide (next ∈ pending)
      then advance_frontier fuel (wrap64 (next + 1)) (pending ∖ {[next]})
      else (next, pending)
  end.
Definition BrokerQueueShard_RecordTopicOffsetProcessed (o : Z) (s : BrokerQueueShard)
    : BrokerQueueShard :=
  if o <? sh_nextCommitExclusive s then s
  else
    let pending := {[o]} ∪ sh_pendingCommit s in
    let '(next, pending) := advance_frontier (size pending) (sh_nextCommitExclusive s) pending in
    s <| sh_nextCommitExclusive := next |> <| sh_pendingCommit := pending |>.
Definition BrokerQueueShard_CommittedOffsetExclusive (s : BrokerQueueShard) : Z :=
  sh_nextCommitExclusive s.

Definition BrokerQueueShard_ShouldScheduleRetentionAt (candidate : Time) (s : BrokerQueueShard)
    : bool :=
  if IsZero (sh_retentionNextFireScheduled s) then true
  else Before candidate (sh_retentionNextFireScheduled s).
Definition BrokerQueueShard_NoteRetentionScheduled (t : Time) (s : BrokerQueueShard)
    : BrokerQueueShard := s <| sh_retentionNextFireScheduled := t |>.
Definition BrokerQueueShard_ClearRetentionSchedule (s : BrokerQueueShard) : BrokerQueueShard :=
  s <| sh_retentionNextFireScheduled := zeroTime |>.
Definition BrokerQueueShard_OldestQueuedEnqueueTime (s : BrokerQueueShard) : option Time :=
  match sh_messages s with [] => None | m :: _ => Some (qm_EnqueueTime m) end.
Definition TopicConsumerLagMessages (highWatermarkExclusive committedExclusive : Z) : float64 :=
  let lag := wrap64 (highWatermarkExclusive - committedExclusive) in
  if lag <? 0 then f0 else f64_of_Z lag.
Definition BrokerQueueShard_NoteDLQ (s : BrokerQueueShard) : BrokerQueueShard :=
  s <| sh_dlqCount := wrap64 (sh_dlqCount s + 1) |>.
Definition BrokerQueueShard_NoteRedelivery (s : BrokerQueueShard) : BrokerQueueShard :=
  s <| sh_redeliveryCount := wrap64 (sh_redeliveryCount s + 1) |>.
Definition BrokerQueueShard_Snapshot (now : Time) (s : BrokerQueueShard)
    : BrokerShardRuntimeSnapshot :=
  let oldest :=
    match sh_messages s with
    | [] => f0
    | m :: _ =>
        let age := Milliseconds (Sub now (qm_EnqueueTime m)) in
        if 0 <? age then f64_of_Z age else f0
    end in
  mkShardSnapshot (len (sh_messages s)) (sh_inFlight s) (sh_MaxConcurrency s)
    (sh_ConsumerTarget s) oldest (sh_dropCount s) (sh_redeliveryCount s) (sh_dlqCount s).

(** * The registry *)

Definition BrokerQueueKey (brokerID topic : string) : string := brokerID +:+ ":" +:+ topic.
Definition rs : string := String (ascii_of_N 30) "".
Definition us : string := String (ascii_of_N 31) "".
Definition TopicSubscriberPartitionShardKey (brokerID topicPath : string) (partition : Z)
    (consumerGroup : string) : string :=
  brokerID +:+ rs +:+ topicPath +:+ rs +:+ Itoa partition +:+ rs +:+ consumerGroup.
Definition TopicSubscriberShardKey (brokerID topicPath consumerGroup : string) : string :=
  TopicSubscriberPartitionShardKey brokerID topicPath 0 consumerGroup.
Definition TopicPartitionLogKey (brokerID topicPath : string) (partition : Z) : string :=
  brokerID +:+ us +:+ topicPath +:+ us +:+ Itoa partition.

Definition newBrokerQueues : BrokerQueues := mkBrokerQueues ∅ ∅ ∅.
Definition BrokerQueues_NextTopicPartitionOffset (brokerID topicPath : string) (partition : Z)
    (bq : BrokerQueues) : Z * BrokerQueues :=
  let k := TopicPartitionLogKey brokerID topicPath partition in
  let o := default 0 (bq_topicPartitionHW bq !! k) in
  (o, bq <| bq_topicPartitionHW := <[k := wrap64 (o + 1)]> (bq_topicPartitionHW bq) |>).
Definition BrokerQueues_HighWatermarkExclusive (brokerID topicPath : string) (partition : Z)
    (bq : BrokerQueues) : Z :=
  default 0 (bq_topicPartitionHW bq !! TopicPartitionLogKey brokerID topicPath partition).

(** A shard that was just created: an empty backlog and zero counters. *)
Definition fresh_shard (brokerID topic : string) (partition capacity maxC maxRedeliveries : Z)
    (dropPolicy dlq consumer : string) (ackTimeout : float64) (group name : string)
    : BrokerQueueShard :=
  mkShard brokerID topic partition capacity maxC maxRedeliveries dropPolicy dlq consumer
    ackTimeout group name 0 [] 0 0 0 0 ∅ zeroTime.
Definition new_queue_shard (brokerID topic : string) (eff : QueueBehavior) : BrokerQueueShard :=
  let maxC := if qb_ConsumerConcurrency eff <=? 0 then 1 else qb_ConsumerConcurrency eff in
  let cap := if qb_Capacity eff <? 0 then 0 else qb_Capacity eff in
  fresh_shard brokerID topic 0 cap maxC (qb_MaxRedeliveries eff) (qb_DropPolicy eff)
    (qb_DLQTarget eff) (qb_ConsumerTarget eff) f0 "" "".
Definition BrokerQueues_GetOrCreateShard (brokerID topic : string) (eff : option QueueBehavior)
    (bq : BrokerQueues) : BrokerQueueShard * BrokerQueues :=
  let eff := default DefaultQueueBehavior eff in
  let key := BrokerQueueKey brokerID topic in
  match bq_queueShards bq !! key with
  | Some s => (s, bq)
  | None =>
      let s := new_queue_shard brokerID topic eff in
      (s, bq <| bq_queueShards := <[key := s]> (bq_queueShards bq) |>)
  end.

Definition zeroSubscriber : TopicSubscriber := mkSubscriber "" "" "" 0 0 0 f0 0 "" "".
Definition new_topic_shard (brokerID topicPath : string) (partition : Z) (consumerGroup : string)
    (topicEff : TopicBehavior) (sub : TopicSubscriber) : BrokerQueueShard :=
  let maxC := if sub_ConsumerConcurrency sub <=? 0 then 1 else sub_ConsumerConcurrency sub in
  let cap := if tb_Capacity topicEff <? 0 then 0 else tb_Capacity topicEff in
  let dp := TrimSpace (sub_DropPolicy sub) in
  let dp := if is_empty dp then "block" else dp in
  fresh_shard brokerID topicPath partition cap maxC (sub_MaxRedeliveries sub) dp
    (TrimSpace (sub_DLQ sub)) (TrimSpace (sub_ConsumerTarget sub)) (sub_AckTimeoutMs sub)
    (TrimSpace consumerGroup) (TrimSpace (sub_Name sub)).
Definition BrokerQueues_GetOrCreateTopicSubscriberPartitionShard (brokerID topicPath : string)
    (partition : Z) (consumerGroup : string) (topicEff : option TopicBehavior)
    (sub : option TopicSubscriber) (bq : BrokerQueues) : BrokerQueueShard * BrokerQueues :=
  let topicEff := default DefaultTopicBehavior topicEff in
  let sub := default zeroSubscriber sub in
  let key := TopicSubscriberPartitionShardKey brokerID topicPath partition consumerGroup in
  match bq_topicShards bq !! key with
  | Some s => (s, bq)
  | None =>
      let s := new_topic_shard brokerID topicPath partition consumerGroup topicEff sub in
      (s, bq <| bq_topicShards := <[key := s]> (bq_topicShards bq) |>)
  end.
Definition BrokerQueues_GetOrCreateTopicSubscriberShard (brokerID topicPath consumerGroup : string)
    (topicEff : option TopicBehavior) (sub : option TopicSubscriber) (bq : BrokerQueues)
    : BrokerQueueShard * BrokerQueues :=
  BrokerQueues_GetOrCreateTopicSubscriberPartitionShard brokerID topicPath 0 consumerGroup
    topicEff sub bq.

Definition BrokerQueues_GetShard (brokerID topic : string) (bq : BrokerQueues)
    : option BrokerQueueShard := bq_queueShards bq !! BrokerQueueKey brokerID topic.
Definition BrokerQueues_GetTopicSubscriberPartitionShard (brokerID topicPath : string)
    (partition : Z) (consumerGroup : string) (bq : BrokerQueues) : option BrokerQueueShard :=
  bq_topicShards bq !! TopicSubscriberPartitionShardKey brokerID topicPath partition consumerGroup.
Definition BrokerQueues_GetTopicSubscriberShard (brokerID topicPath consumerGroup : string)
    (bq : BrokerQueues) : option BrokerQueueShard :=
  BrokerQueues_GetTopicSubscriberPartitionShard brokerID topicPath 0 consumerGroup bq.
Definition BrokerQueues_GetTopicShardByKey (key : string) (bq : BrokerQueues)
    : option BrokerQueueShard := bq_topicShards bq !! key.

(** The iteration order of a Go map is unspecified: the functions below take
    the order in which the keys of the two maps are visited. *)
Definition shards_in (m : gmap string BrokerQueueShard) (order : list string)
    : list BrokerQueueShard := omap (λ k, m !! k) order.
Definition BrokerQueues_AllShards (qorder torder : list string) (bq : BrokerQueues)
    : list BrokerQueueShard :=
  shards_in (bq_queueShards bq) qorder ++ shards_in (bq_topicShards bq) torder.
Definition BrokerQueues_QueueHealthSnapshots (order : list string) (now : Time)
    (bq : BrokerQueues) : list QueueBrokerHealthSnapshot :=
  (λ s, mkQueueHealth (sh_BrokerID s) (sh_Topic s) (BrokerQueueShard_Snapshot now s))
    <$> shards_in (bq_queueShards bq) order.
Definition BrokerQueues_TopicHealthSnapshots (order : list string) (now : Time)
    (bq : BrokerQueues) : list TopicBrokerHealthSnapshot :=
  (λ s,
    let hw := default 0 (bq_topicPartitionHW bq !!
                TopicPartitionLogKey (sh_BrokerID s) (sh_Topic s) (sh_Partition s)) in
    let committed := BrokerQueueShard_CommittedOffsetExclusive s in
    mkTopicHealth (sh_BrokerID s) (sh_Topic s) (sh_Partition s) (sh_SubscriberName s)
      (sh_ConsumerGroup s) hw committed (TopicConsumerLagMessages hw committed)
      (BrokerQueueShard_Snapshot now s))
    <$> shards_in (bq_topicShards bq) order.

(** * Sequences of operations on a shard *)

Inductive ShardOp :=
  | OpEnqueue (m : QueuedMessage)
  | OpPop
  | OpFinished
  | OpRequeue (m : QueuedMessage)
  | OpExpire (now : Time) (retentionMs : Z)
  | OpCommit (o : Z)
  | OpNoteRetention (t : Time)
  | OpClearRetention
  | OpNoteDLQ
  | OpNoteRedelivery.
Definition shard_apply (op : ShardOp) (s : BrokerQueueShard) : BrokerQueueShard :=
  match op with
  | OpEnqueue m => snd (BrokerQueueShard_Enqueue m s)
  | OpPop => snd (BrokerQueueShard_TryPopForDispatch s)
  | OpFinished => BrokerQueueShard_ConsumerFinished s
  | OpRequeue m => BrokerQueueShard_RequeueFront m s
  | OpExpire now r => snd (BrokerQueueShard_ExpireQueuedByRetention now r s)
  | OpCommit o => BrokerQueueShard_RecordTopicOffsetProcessed o s
  | OpNoteRetention t => BrokerQueueShard_NoteRetentionScheduled t s
  | OpClearRetention => BrokerQueueShard_ClearRetentionSchedule s
  | OpNoteDLQ => BrokerQueueShard_NoteDLQ s
  | OpNoteRedelivery => BrokerQueueShard_NoteRedelivery s
  end.
(** A message is requeued by the consumer that popped it. *)
Definition op_allowed (op : ShardOp) (s : BrokerQueueShard) : Prop :=
  match op with OpRequeue _ => 0 < sh_inFlight s | _ => True end.

(** Shards the registry creates, and what operations make of them. *)
Inductive shard_reachable : BrokerQueueShard → Prop :=
  | shard_queue brokerID topic eff :
      in_int64 (qb_ConsumerConcurrency eff) → shard_reachable (new_queue_shard brokerID topic eff)
  | shard_topic brokerID topicPath partition group eff sub :
      in_int64 (sub_ConsumerConcurrency sub) →
      shard_reachable (new_topic_shard brokerID topicPath partition group eff sub)
  | shard_step op s : shard_reachable s → op_allowed op s → shard_reachable (shard_apply op s).

(** ** Bounds *)

Definition shard_ok (s : BrokerQueueShard) : Prop :=
  0 ≤ sh_Capacity s ∧ 1 ≤ sh_MaxConcurrency s ≤ int64_max ∧
  0 ≤ sh_inFlight s ≤ sh_MaxConcurrency s ∧
  (0 < sh_Capacity s →
     len (sh_messages s) + sh_inFlight s ≤ sh_Capacity s + sh_MaxConcurrency s).

Lemma len_app {A} (l1 l2 : list A) : len (l1 ++ l2) = len l1 + len l2.
Proof. unfold len. rewrite length_app. lia. Qed.
Lemma len_cons {A} (x : A) l : len (x :: l) = 1 + len l.
Proof. unfold len. simpl. lia. Qed.
Lemma len_nil {A} : len (@nil A) = 0.
Proof. done. Qed.
Lemma len_nonneg {A} (l : list A) : 0 ≤ len l.
Proof. unfold len. lia. Qed.
Create Rewrite HintDb len.
#[export] Hint Rewrite @len_app @len_cons @len_nil : len.

Lemma capacityReached_false s :
  BrokerQueueShard_capacityReachedLocked s = false →
  0 < sh_Capacity s → len (sh_messages s) < sh_Capacity s.
Proof.
  unfold BrokerQueueShard_capacityReachedLocked.
  destruct (Z.leb_spec (sh_Capacity s) 0), (Z.leb_spec (sh_Capacity s) (len (sh_messages s))); lia.
Qed.
Lemma expire_front_app threshold l :
  let r := expire_front threshold l in fst r ++ snd r = l.
Proof.
  induction l as [|m l IH]; simpl; [done|]. case_match; [done|].
  destruct (expire_front threshold l); simpl in *. by f_equal.
Qed.
(** What an enqueue does to the backlog: it rejects, appends, or evicts the
    oldest message and appends. *)
Lemma Enqueue_cases m s :
  let r := BrokerQueueShard_Enqueue m s in
  (er_Accepted (fst r) = false ∧ snd r = shard_count_drop s) ∨
  (er_Accepted (fst r) = true ∧ er_DroppedOldest (fst r) = false ∧ snd r = shard_append m s ∧
   (0 < sh_Capacity s → len (sh_messages s) < sh_Capacity s)) ∨
  (∃ oldest rest, sh_messages s = oldest :: rest ∧ er_Accepted (fst r) = true ∧
   er_DroppedOldest (fst r) = true ∧ er_EvictedTopicOffset (fst r) = qm_TopicOffset oldest ∧
   snd r = shard_append m (shard_count_drop s <| sh_messages := rest |>)).
Proof.
  unfold BrokerQueueShard_Enqueue. cbv zeta.
  destruct (BrokerQueueShard_capacityReachedLocked s) eqn:E; simpl.
  - repeat (case_match; [by left|]). case_match; [|case_match; by left].
    destruct (sh_messages s) as [|oldest rest] eqn:Em; [|right; right; by exists oldest, rest].
    unfold BrokerQueueShard_capacityReachedLocked in E. rewrite Em in E.
    destruct (Z.leb_spec (sh_Capacity s) 0), (Z.leb_spec (sh_Capacity s) (len (@nil QueuedMessage)));
      try done. rewrite len_nil in *. lia.
  - right; left. split_and!; try done. by apply capacityReached_false.
Qed.
Lemma RecordTopicOffsetProcessed_frame o s :
  let s' := BrokerQueueShard_RecordTopicOffsetProcessed o s in
  sh_messages s' = sh_messages s ∧ sh_inFlight s' = sh_inFlight s ∧
  sh_Capacity s' = sh_Capacity s ∧ sh_MaxConcurrency s' = sh_MaxConcurrency s.
Proof.
  unfold BrokerQueueShard_RecordTopicOffsetProcessed. case_match; [done|].
  by destruct (advance_frontier _ _ _).
Qed.

Lemma shard_apply_ok op s : shard_ok s → op_allowed op s → shard_ok (shard_apply op s).
Proof.
  intros (Hc & Hm & Hi & Hl) Ha. destruct op as [m| | |m|now r|o| | | |]; simpl in *.
  - destruct (Enqueue_cases m s) as [[_ ->]|[(_&_&->&Hr)|(o&rest&E&_&_&_&->)]];
      unfold shard_ok; simpl; autorewrite with len; [lia|lia|].
    rewrite E in Hl. autorewrite with len in Hl. lia.
  - unfold BrokerQueueShard_TryPopForDispatch. case_match eqn:Ew; [done|].
    destruct (sh_messages s) as [|m rest] eqn:E; [by unfold shard_ok; simpl; rewrite E|].
    unfold shard_ok. simpl. autorewrite with len in Hl.
    assert (Hlt : sh_inFlight s < sh_MaxConcurrency s).
    { apply andb_false_iff in Ew as [Ew%Z.ltb_ge|Ew%Z.leb_gt]; lia. }
    rewrite wrap64_id by (unfold in_int64, int64_min, int64_max in *; lia). lia.
  - unfold BrokerQueueShard_ConsumerFinished. case_match; unfold shard_ok; simpl; lia.
  - unfold BrokerQueueShard_RequeueFront, BrokerQueueShard_ConsumerFinished.
    rewrite (proj2 (Z.ltb_lt _ _)) by done. unfold shard_ok. simpl. autorewrite with len. lia.
  - unfold BrokerQueueShard_ExpireQueuedByRetention. case_match; [done|].
    pose proof (expire_front_app (now + wrap64 (- r * Millisecond)) (sh_messages s)) as He.
    destruct (expire_front _ _) as [rem rest]. simpl in He. unfold shard_ok. simpl.
    rewrite <- He in Hl. autorewrite with len in Hl. pose proof (len_nonneg rem). lia.
  - destruct (RecordTopicOffsetProcessed_frame o s) as (Em & Ei & Ec & Ex).
    unfold shard_ok. rewrite Em, Ei, Ec, Ex. lia.
  - done.
  - done.
  - done.
  - done.
Qed.

(** The bounds of a backlog: whatever the configuration and the operations,
    the consumers in flight stay between 0 and the maximum concurrency, which is
    at least one, and a backlog with capacity C holds, with the messages in
    flight, at most C plus the maximum concurrency (redeliveries go past C). *)
Theorem broker_shard_bounded s : shard_reachable s → shard_ok s.
Proof.
  induction 1 as [b t eff Hi|b t p g eff sub Hi|op s _ IH Ha].
  - unfold shard_ok, new_queue_shard, fresh_shard, in_int64, int64_min in *. simpl.
    unfold len. simpl. destruct (Z.ltb_spec (qb_Capacity eff) 0),
      (Z.leb_spec (qb_ConsumerConcurrency eff) 0); unfold int64_max in *; lia.
  - unfold shard_ok, new_topic_shard, fresh_shard, in_int64, int64_min in *. simpl.
    unfold len. simpl. destruct (Z.ltb_spec (tb_Capacity eff) 0),
      (Z.leb_spec (sub_ConsumerConcurrency sub) 0); unfold int64_max in *; lia.
  - by apply shard_apply_ok.
Qed.
Definition sample_msg (id : string) (t : Time) (o : Z) : QueuedMessage := mkMessage id t 0 "p" "tr" ∅ o.
Lemma broker_shard_bounded_witness :
  shard_ok (shard_apply (OpRequeue (sample_msg "m1" 0 0))
    (shard_apply (OpEnqueue (sample_msg "m2" 1 1))
      (shard_apply OpPop (shard_apply (OpEnqueue (sample_msg "m1" 0 0))
        (new_queue_shard "q" "/in" (mkQueueBehavior 1 2 0 0 "w:/j" (mkLatency f0 f0) f0 3 "" "block" false)))))).
Proof.
  apply broker_shard_bounded. repeat (apply shard_step; [|vm_compute; done]).
  apply shard_queue. vm_compute. split; discriminate.
Defined.

(** ** Delivery order *)

(** The messages an operation adds at the back, takes from the front (popped,
    evicted or expired, in order), and puts back at the front. *)
Definition shard_in (op : ShardOp) (s : BrokerQueueShard) : list QueuedMessage :=
  match op with
  | OpEnqueue m => if er_Accepted (fst (BrokerQueueShard_Enqueue m s)) then [m] else []
  | _ => []
  end.
Definition shard_out (op : ShardOp) (s : BrokerQueueShard) : list QueuedMessage :=
  match op with
  | OpEnqueue m =>
      if er_DroppedOldest (fst (BrokerQueueShard_Enqueue m s)) then take 1 (sh_messages s) else []
  | OpPop => match fst (BrokerQueueShard_TryPopForDispatch s) with Some m => [m] | None => [] end
  | OpExpire now r =>
      take (length (fst (BrokerQueueShard_ExpireQueuedByRetention now r s))) (sh_messages s)
  | _ => []
  end.
Definition shard_back (op : ShardOp) : list QueuedMessage :=
  match op with OpRequeue m => [m] | _ => [] end.
(** The messages that entered, left and were put back along [ops]. *)
Fixpoint shard_run (ops : list ShardOp) (s : BrokerQueueShard)
    : list QueuedMessage * list QueuedMessage * list QueuedMessage * BrokerQueueShard :=
  match ops with
  | [] => ([], [], [], s)
  | op :: ops =>
      let '(ins, outs, backs, s') := shard_run ops (shard_apply op s) in
      (shard_in op s ++ ins, shard_out op s ++ outs, shard_back op ++ backs, s')
  end.

Lemma shard_apply_fifo op s :
  shard_out op s ++ sh_messages (shard_apply op s) = shard_back op ++ sh_messages s ++ shard_in op s.
Proof.
  destruct op as [m| | |m|now r|o| | | |]; simpl; rewrite ?app_nil_r; try done.
  - destruct (Enqueue_cases m s) as [[Ha Hs]|[(Ha&Hd&Hs&_)|(o&rest&E&Ha&Hd&_&Hs)]].
    + rewrite Ha, Hs. rewrite app_nil_r. simpl.
      destruct (er_DroppedOldest _) eqn:Ed; [|done]. exfalso. clear Hs.
      revert Ha Ed. unfold BrokerQueueShard_Enqueue. cbv zeta. repeat case_match; done.
    + by rewrite Ha, Hd, Hs.
    + by rewrite Ha, Hd, Hs, E.
  - unfold BrokerQueueShard_TryPopForDispatch. destruct (_ && _); [done|].
    by destruct (sh_messages s) eqn:E; simpl; rewrite ?E.
  - unfold BrokerQueueShard_ConsumerFinished. by case_match.
  - unfold BrokerQueueShard_RequeueFront, BrokerQueueShard_ConsumerFinished. by case_match.
  - unfold BrokerQueueShard_ExpireQueuedByRetention. destruct (r <=? 0); [done|].
    pose proof (expire_front_app (now + wrap64 (- r * Millisecond)) (sh_messages s)) as He.
    destruct (expire_front _ _) as [rem rest]. simpl in He |- *. rewrite length_fmap, <- He.
    by rewrite take_app_length.
  - apply RecordTopicOffsetProcessed_frame.
Qed.

(** C33: Delivery order: along operations without redelivery the messages leave
    the backlog (to a consumer, by eviction or by expiry) exactly in the order
    in which they were accepted, none lost and none duplicated; with
    redeliveries the same messages are accounted for up to order. *)
Theorem broker_shard_fifo ops s :
  let '(ins, outs, backs, s') := shard_run ops s in
  outs ++ sh_messages s' ≡ₚ sh_messages s ++ ins ++ backs ∧
  (backs = [] → outs ++ sh_messages s' = sh_messages s ++ ins).
Proof.
  revert s. induction ops as [|op ops IH]; intros s; simpl; [by rewrite !app_nil_r|].
  specialize (IH (shard_apply op s)).
  destruct (shard_run ops (shard_apply op s)) as [[[ins outs] backs] s']. destruct IH as [Hp He].
  pose proof (shard_apply_fifo op s) as Hf. split.
  - rewrite <- app_assoc, Hp, app_assoc, Hf. by rewrite <- !app_assoc; solve_Permutation.
  - intros [Hb ->]%app_eq_nil. rewrite <- app_assoc, He, app_assoc, Hf, Hb by done.
    by rewrite <- !app_assoc.
Qed.

(** ** Commit frontier *)

Definition commit_all (os : list Z) (s : BrokerQueueShard) : BrokerQueueShard :=
  foldl (λ s o, BrokerQueueShard_RecordTopicOffsetProcessed o s) s os.
(** The frontier is the least offset that was not committed; the pending
    offsets are the committed ones beyond it. *)
Definition frontier_of (committed : gset Z) (next : Z) (pending : gset Z) : Prop :=
  0 ≤ next ∧ (∀ o, 0 ≤ o < next → o ∈ committed) ∧ (next ∉ committed) ∧
  (∀ o, o ∈ pending ↔ o ∈ committed ∧ next < o).

Lemma advance_frontier_spec fuel next pending :
  (size pending ≤ fuel)%nat → (∀ o, o ∈ pending → o < int64_max) → 0 ≤ next →
  let r := advance_frontier fuel next pending in
  next ≤ fst r ∧ (∀ o, next ≤ o < fst r → o ∈ pending) ∧ (fst r ∉ pending) ∧
  (∀ o, o ∈ snd r ↔ o ∈ pending ∧ ¬ (next ≤ o < fst r)).
Proof.
  revert next pending. induction fuel as [|fuel IH]; intros next pending Hsz Hmax Hn.
  - assert (pending ≡ ∅) by (apply size_empty_iff; lia). simpl.
    split_and!; [lia|lia|set_solver|set_solver].
  - cbn [advance_frontier]. case_bool_decide as Hin.
    + assert (Hw : wrap64 (next + 1) = next + 1).
      { apply wrap64_id. specialize (Hmax _ Hin). unfold in_int64, int64_min, int64_max in *. lia. }
      rewrite Hw. assert (Hsz' : (size (pending ∖ {[next]}) ≤ fuel)%nat).
      { rewrite size_difference by set_solver. rewrite size_singleton. lia. }
      destruct (IH (next + 1) (pending ∖ {[next]})) as (H1 & H2 & H3 & H4);
        [done|set_solver|lia|].
      set (r := advance_frontier _ _ _) in *. clearbody r. split_and!; [lia| | |].
      * intros o Ho. destruct (decide (o = next)) as [->|]; [done|].
        specialize (H2 o ltac:(lia)). set_solver.
      * rewrite elem_of_difference, elem_of_singleton in H3. intros ?. apply H3. split; [done|lia].
      * intros o. rewrite H4, elem_of_difference, elem_of_singleton. naive_solver lia.
    + simpl. split_and!; [lia|lia|done|]. intros o. split; [|naive_solver lia].
      intros. split; [done|lia].
Qed.

Lemma RecordTopicOffsetProcessed_frontier o committed s :
  o < int64_max → (∀ x, x ∈ committed → x < int64_max) →
  frontier_of committed (sh_nextCommitExclusive s) (sh_pendingCommit s) →
  let s' := BrokerQueueShard_RecordTopicOffsetProcessed o s in
  frontier_of ({[o]} ∪ committed) (sh_nextCommitExclusive s') (sh_pendingCommit s').
Proof.
  intros Ho Hmax (H0 & Hbelow & Hnext & Hpend).
  unfold BrokerQueueShard_RecordTopicOffsetProcessed.
  destruct (Z.ltb_spec o (sh_nextCommitExclusive s)) as [Hlt|Hge].
  - split_and!; [done|set_solver|set_unfold; naive_solver lia|]. set_unfold. intros x. rewrite Hpend. naive_solver lia.
  - destruct (advance_frontier_spec (size ({[o]} ∪ sh_pendingCommit s)) (sh_nextCommitExclusive s)
      ({[o]} ∪ sh_pendingCommit s)) as (H1 & H2 & H3 & H4); [done| |done|].
    { intros x [->%elem_of_singleton|Hx%Hpend]%elem_of_union; [done|]. naive_solver. }
    destruct (advance_frontier _ _ _) as [next pending]. simpl in *. split_and!; [lia| | |].
    + intros x Hx. destruct (decide (x < sh_nextCommitExclusive s)).
      * apply elem_of_union_r, Hbelow. lia.
      * specialize (H2 x ltac:(lia)). set_unfold. naive_solver.
    + set_unfold. intros [->|Hc]; [naive_solver|]. apply H3. right. apply Hpend. split; [done|].
      destruct (decide (next = sh_nextCommitExclusive s)) as [->|]; [done|lia].
    + intros x. rewrite H4. set_unfold. rewrite Hpend. split.
      * intros [Hx Hn]. assert (x ≠ next) by (intros ->; apply H3; rewrite Hpend; naive_solver).
        split; [naive_solver|]. naive_solver lia.
      * naive_solver lia.
Qed.

Lemma commit_all_frontier brokerID topicPath partition group eff sub os :
  Forall (λ o, o < int64_max) os →
  let s := commit_all os (new_topic_shard brokerID topicPath partition group eff sub) in
  frontier_of (list_to_set os) (BrokerQueueShard_CommittedOffsetExclusive s) (sh_pendingCommit s).
Proof.
  intros Hos. unfold commit_all. set (s0 := new_topic_shard _ _ _ _ _ _).
  induction os as [|o os IH] using rev_ind; simpl.
  { split_and!; simpl; [lia|lia|set_solver|set_solver]. }
  apply Forall_app in Hos as [Hos [Ho _]%Forall_cons]. rewrite foldl_snoc.
  assert (Hmax : ∀ x : Z, x ∈@{gset Z} list_to_set os → x < int64_max).
  { intros x Hx%elem_of_list_to_set. rewrite Forall_forall in Hos. auto. }
  pose proof (RecordTopicOffsetProcessed_frontier o (list_to_set os) _ Ho Hmax (IH Hos)) as H.
  rewrite list_to_set_app_L. simpl. rewrite (union_comm_L (list_to_set os)), union_empty_r_L.
  exact H.
Qed.

(** The commit frontier of a topic shard: after any sequence of processed
    offsets, in any order and with repetitions, the frontier is the least
    offset that was never processed, so everything below it is committed; the
    offsets processed beyond it are pending, and only those. *)
Theorem topic_commit_frontier brokerID topicPath partition group eff sub os :
  Forall (λ o, o < int64_max) os →
  let s := commit_all os (new_topic_shard brokerID topicPath partition group eff sub) in
  frontier_of (list_to_set os) (BrokerQueueShard_CommittedOffsetExclusive s) (sh_pendingCommit s).
Proof. apply commit_all_frontier. Qed.
Lemma topic_commit_frontier_witness :
  let s := commit_all [2; 0; 5; 1; 0] (new_topic_shard "t" "/e" 0 "g" DefaultTopicBehavior zeroSubscriber) in
  BrokerQueueShard_CommittedOffsetExclusive s = 3 ∧ sh_pendingCommit s = {[5]} ∧
  frontier_of (list_to_set [2; 0; 5; 1; 0]) 3 {[5]}.
Proof.
  split; [vm_compute; reflexivity|]. split; [vm_compute; reflexivity|].
  apply (topic_commit_frontier "t" "/e" 0 "g" DefaultTopicBehavior zeroSubscriber [2; 0; 5; 1; 0]).
  unfold int64_max. repeat constructor; lia.
Defined.

(** ** Partition offsets *)

(** Publishes, in order, to partitions given by broker, topic path and number;
    each answer is the partition's log key and the offset assigned. *)
Fixpoint publish_all (ps : list (string * string * Z)) (bq : BrokerQueues)
    : list (string * Z) * BrokerQueues :=
  match ps with
  | [] => ([], bq)
  | (b, t, p) :: ps =>
      let '(o, bq) := BrokerQueues_NextTopicPartitionOffset b t p bq in
      let '(os, bq) := publish_all ps bq in ((TopicPartitionLogKey b t p, o) :: os, bq)
  end.
Definition offsets_of (k : string) (l : list (string * Z)) : list Z :=
  snd <$> filter (λ x, fst x = k) l.
Definition hw_of (k : string) (bq : BrokerQueues) : Z := default 0 (bq_topicPartitionHW bq !! k).

Lemma TopicPartitionLogKey_inj brokerID topicPath p q :
  TopicPartitionLogKey brokerID topicPath p = TopicPartitionLogKey brokerID topicPath q → p = q.
Proof.
  unfold TopicPartitionLogKey. intros H.
  apply (inj (String.app brokerID)) in H. apply (inj (String.app us)) in H.
  apply (inj (String.app topicPath)) in H. apply (inj (String.app us)) in H. by apply (inj pretty) in H.
Qed.
#[global] Arguments BrokerQueues_NextTopicPartitionOffset : simpl never.
Lemma NextTopicPartitionOffset_hw b t p bq o bq' :
  let key := TopicPartitionLogKey b t p in
  BrokerQueues_NextTopicPartitionOffset b t p bq = (o, bq') →
  0 ≤ hw_of key bq < int64_max →
  o = hw_of key bq ∧ ∀ k, hw_of k bq' = if decide (key = k) then o + 1 else hw_of k bq.
Proof.
  intros key [= <- <-] Hr. split; [done|]. intros k. fold key. unfold hw_of in *. simpl.
  rewrite wrap64_id by (unfold in_int64, int64_min, int64_max in *; lia).
  case_decide; [subst; by rewrite lookup_insert_eq|by rewrite lookup_insert_ne].
Qed.
Lemma offsets_of_cons k key o l :
  offsets_of k ((key, o) :: l) = if decide (key = k) then o :: offsets_of k l else offsets_of k l.
Proof. unfold offsets_of. rewrite filter_cons. simpl. by case_decide. Qed.
Lemma offsets_of_length ps bq k : len (offsets_of k (publish_all ps bq).1) ≤ len ps.
Proof.
  revert bq. induction ps as [|[[b t] p] ps IH]; intros bq; cbn [publish_all]; [done|].
  destruct (BrokerQueues_NextTopicPartitionOffset b t p bq) as [o bq']. specialize (IH bq').
  destruct (publish_all ps bq') as [os bq'']. cbn [fst] in *. rewrite offsets_of_cons.
  case_decide; rewrite !len_cons; lia.
Qed.
Lemma publish_all_offsets ps : ∀ bq k,
  (∀ k, 0 ≤ hw_of k bq) → (∀ k, hw_of k bq + len ps ≤ int64_max) →
  let r := publish_all ps bq in
  offsets_of k (fst r) = seqZ (hw_of k bq) (len (offsets_of k (fst r))) ∧
  hw_of k (snd r) = hw_of k bq + len (offsets_of k (fst r)).
Proof.
  induction ps as [|[[b t] p] ps IH]; intros bq k Hpos Hmax; cbn [publish_all].
  { unfold len. simpl. split; [done|lia]. }
  set (key := TopicPartitionLogKey b t p). setoid_rewrite len_cons in Hmax.
  pose proof (len_nonneg ps) as Hlen. pose proof (Hmax key) as Hmk. pose proof (Hpos key) as Hpk.
  destruct (BrokerQueues_NextTopicPartitionOffset b t p bq) as [o bq'] eqn:E.
  apply NextTopicPartitionOffset_hw in E as [-> Hhw]; [|fold key; lia]. fold key in Hhw.
  destruct (IH bq' k) as [H1 H2].
  { intros k'. rewrite Hhw. specialize (Hpos k'). case_decide; lia. }
  { intros k'. rewrite Hhw. specialize (Hmax k'). case_decide; lia. }
  destruct (publish_all ps bq') as [os bq'']. cbn [fst snd] in *. rewrite offsets_of_cons.
  rewrite Hhw in H1, H2. fold key. case_decide as Hk; [|done]. rewrite Hk in *.
  rewrite len_cons. pose proof (len_nonneg (offsets_of k os)).
  split; [|lia]. rewrite seqZ_cons by lia. f_equal. rewrite H1 at 1. f_equal; lia.
Qed.

(** Offsets of topic partitions: for publishes interleaved over any
    partitions, the offsets assigned to one partition are 0, 1, 2, ... in
    publish order and its high watermark is their number; once offsets assigned
    to it have been processed in any order, the commit frontier is at most the
    watermark and the reported lag is the number of offsets from the frontier
    to the watermark. *)
Theorem topic_offsets_dense ps b t p committed group eff sub :
  len ps ≤ int64_max →
  let '(out, bq) := publish_all ps newBrokerQueues in
  let os := offsets_of (TopicPartitionLogKey b t p) out in
  let hw := BrokerQueues_HighWatermarkExclusive b t p bq in
  let next := BrokerQueueShard_CommittedOffsetExclusive
                (commit_all committed (new_topic_shard b t p group eff sub)) in
  os = seqZ 0 (len os) ∧ hw = len os ∧
  (Forall (λ o, o ∈ os) committed →
     0 ≤ next ≤ hw ∧ TopicConsumerLagMessages hw next = f64_of_Z (hw - next)).
Proof.
  intros Hlen.
  destruct (publish_all_offsets ps newBrokerQueues (TopicPartitionLogKey b t p)) as [H1 H2].
  { done. }
  { intros k. change (hw_of k newBrokerQueues) with 0. lia. }
  assert (Hos : len (offsets_of (TopicPartitionLogKey b t p) (publish_all ps newBrokerQueues).1)
                ≤ len ps) by apply offsets_of_length.
  destruct (publish_all ps newBrokerQueues) as [out bq]. cbn [fst snd] in *.
  change (hw_of (TopicPartitionLogKey b t p) newBrokerQueues) with 0 in *.
  unfold BrokerQueues_HighWatermarkExclusive. fold (hw_of (TopicPartitionLogKey b t p) bq). rewrite H2.
  set (os := offsets_of _ out) in *. split; [done|]. split; [lia|].
  intros Hc. rewrite Z.add_0_l. assert (Hlt : Forall (λ o, 0 ≤ o < len os) committed).
  { eapply Forall_impl; [exact Hc|]. intros o Ho. rewrite H1 in Ho. by apply elem_of_seqZ in Ho. }
  destruct (commit_all_frontier b t p group eff sub committed) as (Hn & Hbelow & _ & _).
  { eapply Forall_impl; [exact Hlt|]. intros; simpl in *; lia. }
  set (next := BrokerQueueShard_CommittedOffsetExclusive _) in *. clearbody next.
  assert (next ≤ len os).
  { destruct (Z.le_gt_cases next (len os)) as [|Hgt]; [done|exfalso].
    specialize (Hbelow (len os) ltac:(pose proof (len_nonneg os); lia)).
    apply elem_of_list_to_set in Hbelow. rewrite Forall_forall in Hlt. specialize (Hlt _ Hbelow).
    lia. }
  split; [lia|]. unfold TopicConsumerLagMessages.
  rewrite wrap64_id by (unfold in_int64, int64_min, int64_max in *; lia).
  by rewrite (proj2 (Z.ltb_ge _ _)) by lia.
Qed.
Lemma topic_offsets_dense_witness :
  let '(out, bq) := publish_all [("t", "/e", 0); ("t", "/e", 1); ("t", "/e", 0); ("t", "/e", 0)]
                      newBrokerQueues in
  offsets_of (TopicPartitionLogKey "t" "/e" 0) out = [0; 1; 2] ∧
  BrokerQueues_HighWatermarkExclusive "t" "/e" 0 bq = 3 ∧
  TopicConsumerLagMessages 3 1 = f64_of_Z 2.
Proof.
  pose proof (topic_offsets_dense
    [("t", "/e", 0); ("t", "/e", 1); ("t", "/e", 0); ("t", "/e", 0)] "t" "/e" 0 [2; 0] "g"
    DefaultTopicBehavior zeroSubscriber ltac:(vm_compute; discriminate)) as H.
  destruct (publish_all _ _) as [out bq] eqn:E. vm_compute in E. injection E as <- <-.
  destruct H as (_ & Hhw & Hlag). split; [vm_compute; reflexivity|].
  split; [rewrite Hhw; vm_compute; reflexivity|]. rewrite Hhw in Hlag.
  refine (proj2 (Hlag _)). apply Forall_forall. intros o Ho.
  apply elem_of_cons in Ho as [->|[->|[]%not_elem_of_nil]%elem_of_cons];
    vm_compute; repeat constructor.
Defined.
