(* ===== verification/Instance.v ===== *)
(** [internal/resource/service_instance.go]: one replica of a service, with its
    CPU accounting window, its FIFO CPU schedule, its connection pool and its
    request queue; and the host of [host.go]. *)
From S2P Require Import Prelude GoFloat Utils.
From Stdlib Require Import SpecFloat.
#[local] Open Scope string_scope.
#[local] Open Scope list_scope.
#[local] Open Scope Z_scope.

(** * Data *)

Inductive InstanceLifecycle := InstanceActive | InstanceDraining.
#[export] Instance InstanceLifecycle_eq_dec : EqDecision InstanceLifecycle.
Proof. solve_decision. Defined.

Record ServiceInstance := mkInstance {
  si_id : string;
  si_serviceName : string;
  si_hostID : string;
  si_lifecycle : InstanceLifecycle;
  si_drainDeadline : Time;
  si_cpuCores : float64;
  si_memoryMB : float64;
  si_cpuUsageWindow : Duration;
  si_cpuUsageInWindow : float64;
  si_windowStartTime : Time;
  si_activeMemoryMB : float64;
  si_activeRequests : Z;
  si_requestQueue : list string;
  si_cpuNextFree : Time;
  si_dbSlotFree : list Time;
  si_dbActiveConnections : Z;
  si_lastUpdate : Time;
}.
#[export] Instance eta_ServiceInstance : Eta ServiceInstance := λ r, mkInstance (si_id r)
  (si_serviceName r) (si_hostID r) (si_lifecycle r) (si_drainDeadline r) (si_cpuCores r)
  (si_memoryMB r) (si_cpuUsageWindow r) (si_cpuUsageInWindow r) (si_windowStartTime r)
  (si_activeMemoryMB r) (si_activeRequests r) (si_requestQueue r) (si_cpuNextFree r)
  (si_dbSlotFree r) (si_dbActiveConnections r) (si_lastUpdate r).

Definition maxDBSlotsCap : Z := 64.
Definition NewServiceInstance (now : Time) (id serviceName hostID : string)
    (cpuCores memoryMB : float64) : ServiceInstance :=
  mkInstance id serviceName hostID InstanceActive zeroTime cpuCores memoryMB Second f0 now f0 0 []
    zeroTime [] 0 now.

(** * Operations *)

Definition ServiceInstance_IsRoutable (s : ServiceInstance) : bool :=
  bool_decide (si_lifecycle s = InstanceActive).
Definition ServiceInstance_SetDraining (deadline : Time) (s : ServiceInstance) : ServiceInstance :=
  s <| si_lifecycle := InstanceDraining |> <| si_drainDeadline := deadline |>.
Definition ServiceInstance_SetCPUCores (cores : float64) (s : ServiceInstance) : ServiceInstance :=
  s <| si_cpuCores := if fltb cores f0 then f0 else cores |>.
Definition ServiceInstance_SetMemoryMB (memoryMB : float64) (s : ServiceInstance)
    : ServiceInstance := s <| si_memoryMB := if fltb memoryMB f0 then f0 else memoryMB |>.

(** The current window has ended at [t]. *)
Definition window_over (t : Time) (s : ServiceInstance) : bool :=
  let windowEnd := si_windowStartTime s + si_cpuUsageWindow s in
  After t windowEnd || (t =? windowEnd).
Definition ServiceInstance_cpuUtilizationAtLocked (currentTime : Time) (s : ServiceInstance)
    : float64 :=
  if feqb (si_cpuCores s) f0 then f0
  else if window_over currentTime s then f0
  else
    let windowDurationMs := f64_of_Z (Milliseconds (si_cpuUsageWindow s)) in
    if feqb windowDurationMs f0 then f0
    else
      let utilization := fdiv (fdiv (si_cpuUsageInWindow s) windowDurationMs) (si_cpuCores s) in
      if fltb f1 utilization then f1
      else if fltb utilization f0 then f0
      else utilization.
Definition ServiceInstance_CPUUtilizationAt (t : Time) (s : ServiceInstance) : float64 :=
  ServiceInstance_cpuUtilizationAtLocked t s.
Definition ServiceInstance_CPUUtilization (now : Time) (s : ServiceInstance) : float64 :=
  ServiceInstance_cpuUtilizationAtLocked now s.
Definition ServiceInstance_MemoryUtilization (s : ServiceInstance) : float64 :=
  if feqb (si_memoryMB s) f0 then f0 else fdiv (si_activeMemoryMB s) (si_memoryMB s).
Definition ServiceInstance_ActiveRequests (s : ServiceInstance) : Z := si_activeRequests s.

Definition ServiceInstance_AllocateCPU (cpuTimeMs : float64) (simTime : Time)
    (s : ServiceInstance) : ServiceInstance :=
  let s :=
    if window_over simTime s
    then s <| si_windowStartTime := simTime |> <| si_cpuUsageInWindow := f0 |> else s in
  s <| si_cpuUsageInWindow := fadd (si_cpuUsageInWindow s) cpuTimeMs |>
    <| si_activeRequests := wrap64 (si_activeRequests s + 1) |> <| si_lastUpdate := simTime |>.
Definition ServiceInstance_ReleaseCPU (cpuTimeMs : float64) (simTime : Time)
    (s : ServiceInstance) : ServiceInstance :=
  let s := if 0 <? si_activeRequests s then s <| si_activeRequests := si_activeRequests s - 1 |>
           else s in
  s <| si_lastUpdate := simTime |>.
Definition ServiceInstance_AllocateMemory (memoryMB : float64) (s : ServiceInstance)
    : ServiceInstance := s <| si_activeMemoryMB := fadd (si_activeMemoryMB s) memoryMB |>.
Definition ServiceInstance_ReleaseMemory (memoryMB : float64) (s : ServiceInstance)
    : ServiceInstance :=
  if fleb memoryMB (si_activeMemoryMB s)
  then s <| si_activeMemoryMB := fsub (si_activeMemoryMB s) memoryMB |> else s.
Definition ServiceInstance_EnqueueRequest (requestID : string) (s : ServiceInstance)
    : ServiceInstance := s <| si_requestQueue := si_requestQueue s ++ [requestID] |>.
Definition ServiceInstance_DequeueRequest (s : ServiceInstance)
    : option string * ServiceInstance :=
  match si_requestQueue s with
  | [] => (None, s)
  | requestID :: rest => (Some requestID, s <| si_requestQueue := rest |>)
  end.
Definition ServiceInstance_QueueLength (s : ServiceInstance) : Z :=
  Z.of_nat (length (si_requestQueue s)).
Definition ServiceInstance_HasCapacityAt (t : Time) (s : ServiceInstance) : bool :=
  if fleb (si_cpuCores s) f0 then false
  else if IsZero (si_cpuNextFree s) then true
  else negb (After (si_cpuNextFree s) t).
Definition ServiceInstance_HasCapacity (now : Time) (s : ServiceInstance) : bool :=
  ServiceInstance_HasCapacityAt now s.

(** [time.Duration(math.Round(ms * float64(time.Millisecond)))]. *)
Definition round_ms (ms : float64) : Duration := f64_to_int (math_Round (fmul ms (f64_of_Z Millisecond))).
Definition clamp0 (x : float64) : float64 := if fltb x f0 then f0 else x.
Definition cpu_duration (cpuDemandMs : float64) (s : ServiceInstance) : Duration :=
  let eps := f64_lit 1 1000000000 in
  let cores := if fltb (si_cpuCores s) eps then eps else si_cpuCores s in
  round_ms (clamp0 (fdiv cpuDemandMs cores)).
(** The later of [t] and [free], a zero [free] meaning no reservation. *)
Definition start_after (t free : Time) : Time :=
  if negb (IsZero free) && After free t then free else t.
Definition ServiceInstance_ReserveCPUWork (arrivalTime : Time) (cpuDemandMs : float64)
    (s : ServiceInstance) : Time * Time * ServiceInstance :=
  let dur := cpu_duration cpuDemandMs s in
  let cpuStart := start_after arrivalTime (si_cpuNextFree s) in
  let cpuEnd := cpuStart + dur in
  (cpuStart, cpuEnd, s <| si_cpuNextFree := cpuEnd |>).
Definition ServiceInstance_RollbackCPUTailReservation (cpuStart cpuEnd : Time)
    (s : ServiceInstance) : ServiceInstance :=
  if IsZero (si_cpuNextFree s) || negb (si_cpuNextFree s =? cpuEnd) then s
  else s <| si_cpuNextFree := cpuStart |>.

(** The first slot, of index [i] on, that can start earliest; [best] is the
    best slot so far. *)
Fixpoint pick_slot (arrival : Time) (i : nat) (slots : list Time) (best : option (nat * Time))
    : option (nat * Time) :=
  match slots with
  | [] => best
  | free :: slots =>
      let slotStart := start_after arrival free in
      let best :=
        match best with
        | None => Some (i, slotStart)
        | Some (_, bestStart) => if Before slotStart bestStart then Some (i, slotStart) else best
        end in
      pick_slot arrival (S i) slots best
  end.
(** The slot table grown to [n] slots. *)
Definition grow_slots (n : nat) (slots : list Time) : list Time :=
  if bool_decide (length slots < n)%nat then slots ++ replicate (n - length slots) zeroTime
  else slots.
Definition ServiceInstance_ReserveDBWork (arrival : Time) (durMs : float64) (maxSlots : Z)
    (s : ServiceInstance) : Time * Time * Z * float64 * ServiceInstance :=
  let dur := round_ms (clamp0 durMs) in
  if maxSlots <=? 0 then (arrival, arrival + dur, -1, f0, s)
  else
    let maxSlots := if maxDBSlotsCap <? maxSlots then maxDBSlotsCap else maxSlots in
    let slots := grow_slots (Z.to_nat maxSlots) (si_dbSlotFree s) in
    let '(bestIdx, bestStart) :=
      default (0%nat, arrival) (pick_slot arrival 0 (take (Z.to_nat maxSlots) slots) None) in
    let waitMs := clamp0 (fdiv (f64_of_Z (Sub bestStart arrival)) (f64_of_Z 1000000)) in
    let end_ := bestStart + dur in
    (bestStart, end_, Z.of_nat bestIdx, waitMs,
     s <| si_dbSlotFree := <[bestIdx := end_]> slots |>
       <| si_dbActiveConnections := wrap64 (si_dbActiveConnections s + 1) |>).
Definition ServiceInstance_ReleaseDBConnection (s : ServiceInstance) : ServiceInstance :=
  if 0 <? si_dbActiveConnections s
  then s <| si_dbActiveConnections := si_dbActiveConnections s - 1 |> else s.
Definition ServiceInstance_EvictResourceState (simTime : Time) (s : ServiceInstance)
    : list string * ServiceInstance :=
  (filter (λ id, id ≠ "") (si_requestQueue s),
   s <| si_activeRequests := 0 |> <| si_activeMemoryMB := f0 |> <| si_requestQueue := [] |>
     <| si_cpuUsageInWindow := f0 |> <| si_windowStartTime := simTime |>
     <| si_cpuNextFree := zeroTime |> <| si_dbSlotFree := [] |> <| si_dbActiveConnections := 0 |>
     <| si_lastUpdate := simTime |>).

(** * Hosts *)

Record Host := mkHost {
  h_id : string;
  h_cpuCores : Z;
  h_memoryGB : Z;
  h_zone : string;
  h_labels : gmap string string;
  h_cpuUtilization : float64;
  h_memoryUtilization : float64;
  h_serviceInstances : list string;
}.
#[export] Instance eta_Host : Eta Host := λ r, mkHost (h_id r) (h_cpuCores r) (h_memoryGB r)
  (h_zone r) (h_labels r) (h_cpuUtilization r) (h_memoryUtilization r) (h_serviceInstances r).

Definition NewHost (id : string) (cpuCores memoryGB : Z) : Host :=
  mkHost id cpuCores memoryGB "" ∅ f0 f0 [].
Definition Host_SetZone (zone : string) (h : Host) : Host := h <| h_zone := zone |>.
Definition Host_SetLabels (labels : gmap string string) (h : Host) : Host :=
  h <| h_labels := labels |>.
Definition Host_SetCPUCores (cores : Z) (h : Host) : Host :=
  h <| h_cpuCores := if cores <? 1 then 1 else cores |>.
Definition Host_SetMemoryGB (memoryGB : Z) (h : Host) : Host :=
  h <| h_memoryGB := if memoryGB <? 1 then 1 else memoryGB |>.
Definition Host_AddService (instanceID : string) (h : Host) : Host :=
  h <| h_serviceInstances := h_serviceInstances h ++ [instanceID] |>.
Fixpoint remove_first (x : string) (l : list string) : list string :=
  match l with
  | [] => []
  | y :: l => if String.eqb y x then l else y :: remove_first x l
  end.
Definition Host_RemoveService (instanceID : string) (h : Host) : Host :=
  h <| h_serviceInstances := remove_first instanceID (h_serviceInstances h) |>.

Definition Host_SetCPUUtilization (util : float64) (h : Host) : Host :=
  let util := if fltb util f0 then f0 else util in
  h <| h_cpuUtilization := if fltb f1 util then f1 else util |>.
Definition Host_SetMemoryUtilization (util : float64) (h : Host) : Host :=
  let util := if fltb util f0 then f0 else util in
  h <| h_memoryUtilization := if fltb f1 util then f1 else util |>.

(** The interface [InstanceUtilizationSource]; the first argument of its
    utilisation is the wall clock. *)
Class InstanceUtilizationSource (A : Type) := {
  src_CPUUtilization : Time → A → float64;
  src_CPUCores : A → float64;
  src_ActiveMemoryMB : A → float64;
}.
#[export] Instance ServiceInstance_source : InstanceUtilizationSource ServiceInstance := {
  src_CPUUtilization := ServiceInstance_CPUUtilization;
  src_CPUCores := si_cpuCores;
  src_ActiveMemoryMB := si_activeMemoryMB;
}.
Definition clamp_util (util : float64) : float64 :=
  let util := if fltb f1 util then f1 else util in if fltb util f0 then f0 else util.
Definition host_cpu_total {A} (util cores : A → float64) (l : list A) : float64 :=
  foldl (λ total inst, fadd total (fmul (util inst) (cores inst))) f0 l.
Definition host_set_cpu (total : float64) (h : Host) : Host :=
  if 0 <? h_cpuCores h
  then Host_SetCPUUtilization (clamp_util (fdiv total (f64_of_Z (h_cpuCores h)))) h
  else h.
Definition Host_UpdateCPUUtilization {A} `{InstanceUtilizationSource A} (now : Time)
    (instances : list A) (h : Host) : Host :=
  match instances with
  | [] => Host_SetCPUUtilization f0 h
  | _ => host_set_cpu (host_cpu_total (src_CPUUtilization now) src_CPUCores instances) h
  end.
(** [now] is the wall clock, used when the simulation time is zero. *)
Definition Host_UpdateCPUUtilizationFromInstancesAt (now simTime : Time)
    (instances : list ServiceInstance) (h : Host) : Host :=
  match instances with
  | [] => Host_SetCPUUtilization f0 h
  | _ =>
      let simTime := if IsZero simTime then now else simTime in
      host_set_cpu (host_cpu_total (ServiceInstance_CPUUtilizationAt simTime) si_cpuCores instances) h
  end.
Definition Host_UpdateMemoryUtilization {A} `{InstanceUtilizationSource A}
    (instances : list A) (h : Host) : Host :=
  match instances with
  | [] => Host_SetMemoryUtilization f0 h
  | _ =>
      let total := foldl (λ t inst, fadd t (src_ActiveMemoryMB inst)) f0 instances in
      if 0 <? h_memoryGB h
      then Host_SetMemoryUtilization
             (clamp_util (fdiv (fdiv total (f64_of_Z 1024)) (f64_of_Z (h_memoryGB h)))) h
      else h
  end.
Definition Host_HasCapacity (h : Host) : bool :=
  fltb (h_cpuUtilization h) f1 && fltb (h_memoryUtilization h) f1.

(** * Utilisation gauges *)

Inductive InstOp :=
  | IAllocateCPU (ms : float64) (t : Time)
  | IReleaseCPU (ms : float64) (t : Time)
  | IAllocateMemory (mb : float64)
  | IReleaseMemory (mb : float64)
  | IEnqueue (id : string)
  | IDequeue
  | ISetCPUCores (cores : float64)
  | ISetMemoryMB (mb : float64)
  | ISetDraining (deadline : Time)
  | IReserveCPU (t : Time) (ms : float64)
  | IRollback (cpuStart cpuEnd : Time)
  | IReserveDB (t : Time) (ms : float64) (maxSlots : Z)
  | IReleaseDB
  | IEvict (t : Time).
Definition inst_apply (op : InstOp) (s : ServiceInstance) : ServiceInstance :=
  match op with
  | IAllocateCPU ms t => ServiceInstance_AllocateCPU ms t s
  | IReleaseCPU ms t => ServiceInstance_ReleaseCPU ms t s
  | IAllocateMemory mb => ServiceInstance_AllocateMemory mb s
  | IReleaseMemory mb => ServiceInstance_ReleaseMemory mb s
  | IEnqueue id => ServiceInstance_EnqueueRequest id s
  | IDequeue => snd (ServiceInstance_DequeueRequest s)
  | ISetCPUCores c => ServiceInstance_SetCPUCores c s
  | ISetMemoryMB mb => ServiceInstance_SetMemoryMB mb s
  | ISetDraining d => ServiceInstance_SetDraining d s
  | IReserveCPU t ms => snd (ServiceInstance_ReserveCPUWork t ms s)
  | IRollback a b => ServiceInstance_RollbackCPUTailReservation a b s
  | IReserveDB t ms n => snd (ServiceInstance_ReserveDBWork t ms n s)
  | IReleaseDB => ServiceInstance_ReleaseDBConnection s
  | IEvict t => snd (ServiceInstance_EvictResourceState t s)
  end.
(** Core counts are zero or positive and finite; CPU demands are not negative. *)
Definition cores_ok (c : float64) : Prop := feqb c f0 = true ∨ positive_finite c = true.
Definition inst_op_ok (op : InstOp) : Prop :=
  match op with
  | IAllocateCPU ms _ => nonneg ms = true
  | ISetCPUCores c => fltb c f0 = true ∨ cores_ok c
  | _ => True
  end.
Inductive inst_reachable : ServiceInstance → Prop :=
  | inst_new now id svc host cores mem :
      cores_ok cores → inst_reachable (NewServiceInstance now id svc host cores mem)
  | inst_step op s : inst_reachable s → inst_op_ok op → inst_reachable (inst_apply op s).

Definition in01 (x : float64) : Prop := fleb f0 x = true ∧ fleb x f1 = true.
Definition inst_ok (s : ServiceInstance) : Prop :=
  si_cpuUsageWindow s = Second ∧ cores_ok (si_cpuCores s) ∧
  nonneg (si_cpuUsageInWindow s) = true ∧ (length (si_dbSlotFree s) ≤ 64)%nat.

Lemma in01_0 : in01 f0.
Proof. by vm_compute. Qed.
Lemma in01_1 : in01 f1.
Proof. by vm_compute. Qed.
Lemma in01_clamped x : nonneg x = true → fltb f1 x = false → in01 x.
Proof.
  intros Hn H1. split; [by apply nonneg_fleb|]. by apply fltb_false; [|apply nonneg_not_nan|].
Qed.
Lemma in01_clamp_util x : nonneg x = true → in01 (clamp_util x).
Proof.
  intros Hn. unfold clamp_util. destruct (fltb f1 x) eqn:E1; [apply in01_1|].
  destruct (fltb x f0) eqn:E2; [apply in01_0|by apply in01_clamped].
Qed.
Lemma length_grow_slots n slots : length (grow_slots n slots) = Nat.max n (length slots).
Proof.
  unfold grow_slots. case_bool_decide; [rewrite length_app, length_replicate|]; lia.
Qed.

Lemma ReserveDBWork_frame t ms n s :
  let s' := snd (ServiceInstance_ReserveDBWork t ms n s) in
  si_cpuUsageWindow s' = si_cpuUsageWindow s ∧ si_cpuCores s' = si_cpuCores s ∧
  si_cpuUsageInWindow s' = si_cpuUsageInWindow s ∧
  (length (si_dbSlotFree s') ≤ Nat.max 64 (length (si_dbSlotFree s)))%nat.
Proof.
  unfold ServiceInstance_ReserveDBWork. destruct (n <=? 0); [simpl; split_and!; try done; lia|].
  cbv zeta. destruct (default _ _) as [i st]. simpl. split_and!; try done.
  rewrite length_insert, length_grow_slots. unfold maxDBSlotsCap.
  destruct (Z.ltb_spec 64 n); lia.
Qed.
Lemma inst_apply_ok op s : inst_ok s → inst_op_ok op → inst_ok (inst_apply op s).
Proof.
  intros (Hw & Hc & Hu & Hl) Ho. destruct op; simpl in *.
  - unfold ServiceInstance_AllocateCPU, inst_ok. destruct (window_over t s);
      split_and!; try done; by apply fadd_nonneg.
  - unfold ServiceInstance_ReleaseCPU, inst_ok. destruct (0 <? _); simpl; done.
  - done.
  - unfold ServiceInstance_ReleaseMemory. destruct (fleb _ _); done.
  - done.
  - unfold ServiceInstance_DequeueRequest. destruct (si_requestQueue s); done.
  - unfold ServiceInstance_SetCPUCores, inst_ok. simpl. split_and!; try done.
    destruct (fltb cores f0) eqn:E; [by left|]. by destruct Ho as [?|?]; [congruence|].
  - done.
  - done.
  - done.
  - unfold ServiceInstance_RollbackCPUTailReservation. destruct (_ || _); done.
  - pose proof (ReserveDBWork_frame t ms maxSlots s) as (E1 & E2 & E3 & E4). unfold inst_ok.
    rewrite E1, E2, E3. split_and!; try done. lia.
  - unfold ServiceInstance_ReleaseDBConnection. destruct (0 <? _); done.
  - split_and!; try done. simpl. lia.
Qed.
Lemma inst_reachable_ok s : inst_reachable s → inst_ok s.
Proof.
  induction 1 as [now id svc host cores mem Hc|op s _ IH Ho].
  - split_and!; try done. simpl. lia.
  - by apply inst_apply_ok.
Qed.

Lemma cpuUtilizationAt_in01 t s : inst_ok s → in01 (ServiceInstance_cpuUtilizationAtLocked t s).
Proof.
  intros (Hw & Hc & Hu & _). unfold ServiceInstance_cpuUtilizationAtLocked.
  destruct (feqb (si_cpuCores s) f0) eqn:E0; [apply in01_0|].
  destruct (window_over t s); [apply in01_0|]. rewrite Hw.
  change (feqb (f64_of_Z (Milliseconds Second)) f0) with false.
  assert (Hn : nonneg (fdiv (fdiv (si_cpuUsageInWindow s) (f64_of_Z (Milliseconds Second)))
                         (si_cpuCores s)) = true).
  { apply fdiv_nonneg; [by apply fdiv_nonneg|]. by destruct Hc as [?|?]; [congruence|]. }
  set (u := fdiv (fdiv _ _) _) in *. clearbody u.
  destruct (fltb f1 u) eqn:E1; [apply in01_1|].
  destruct (fltb u f0) eqn:E2; [apply in01_0|by apply in01_clamped].
Qed.
Lemma in01_mul_cores u c : in01 u → cores_ok c → nonneg (fmul u c) = true.
Proof.
  intros [H0 H1] Hc. apply nonneg_fleb in H0. apply fmul_nonneg; [done| |].
  - destruct Hc as [Hc|Hc]; destruct c as [[]|[]| |[]]; done.
  - destruct Hc as [Hc|Hc]; destruct u as [[]|[]| |[]], c as [[]|[]| |[]]; try done;
      by apply nonneg_not_nan, same_sign_nonneg, binary_round_aux_sign.
Qed.
Lemma host_cpu_total_nonneg t l acc :
  Forall inst_ok l → nonneg acc = true →
  nonneg (foldl (λ total inst, fadd total
    (fmul (ServiceInstance_CPUUtilizationAt t inst) (si_cpuCores inst))) acc l) = true.
Proof.
  revert acc. induction l as [|i l IH]; intros acc Hl Ha; simpl; [done|].
  apply Forall_cons in Hl as [Hi Hl]. apply IH; [done|]. apply fadd_nonneg; [done|].
  apply in01_mul_cores; [by apply cpuUtilizationAt_in01|apply Hi].
Qed.
Lemma SetCPUUtilization_in01 u h : in01 u → in01 (h_cpuUtilization (Host_SetCPUUtilization u h)).
Proof.
  intros [H0 H1]. unfold Host_SetCPUUtilization. simpl. destruct (fltb u f0).
  - by vm_compute.
  - destruct (fltb f1 u); [apply in01_1|done].
Qed.

(** Utilisation gauges: whatever operations an instance went through, its CPU
    utilisation is a number of [0,1] at every time; and the utilisation of a
    host that aggregates such instances is a number of [0,1]. *)
Theorem utilization_gauges_bounded now t instances h :
  Forall inst_reachable instances → 0 < h_cpuCores h < 2 ^ 63 →
  Forall (λ s, in01 (ServiceInstance_CPUUtilizationAt t s)) instances ∧
  in01 (h_cpuUtilization (Host_UpdateCPUUtilizationFromInstancesAt now t instances h)).
Proof.
  intros Hr Hc. assert (Hok : Forall inst_ok instances)
    by (eapply Forall_impl; [exact Hr|apply inst_reachable_ok]).
  split.
  - eapply Forall_impl; [exact Hok|]. intros s Hs. by apply cpuUtilizationAt_in01.
  - unfold Host_UpdateCPUUtilizationFromInstancesAt.
    destruct instances as [|i l]; [apply SetCPUUtilization_in01, in01_0|].
    unfold host_set_cpu. rewrite (proj2 (Z.ltb_lt _ _)) by lia.
    apply SetCPUUtilization_in01, in01_clamp_util, fdiv_nonneg; [|by apply f64_of_Z_pos].
    by apply host_cpu_total_nonneg.
Qed.
Lemma utilization_gauges_bounded_witness :
  let i := inst_apply (IAllocateCPU (f64_of_Z 5000) 10)
             (NewServiceInstance 5 "a-instance-0" "a" "h" (f64_of_Z 2) f0) in
  ServiceInstance_CPUUtilizationAt 20 i = f1 ∧
  in01 (h_cpuUtilization (Host_UpdateCPUUtilizationFromInstancesAt 0 20 [i] (NewHost "h" 8 16))).
Proof.
  split; [vm_compute; reflexivity|].
  apply (utilization_gauges_bounded 0 20
    [inst_apply (IAllocateCPU (f64_of_Z 5000) 10)
       (NewServiceInstance 5 "a-instance-0" "a" "h" (f64_of_Z 2) f0)] (NewHost "h" 8 16)); [|simpl; lia].
  constructor; [|constructor]. apply inst_step; [|vm_compute; reflexivity].
  apply inst_new. right. vm_compute. reflexivity.
Defined.

(** * The CPU schedule *)

(** Reservations in order: the intervals granted. *)
Fixpoint reserve_all (jobs : list (Time * float64)) (s : ServiceInstance)
    : list (Time * Time) * ServiceInstance :=
  match jobs with
  | [] => ([], s)
  | (a, d) :: jobs =>
      let '(st, en, s) := ServiceInstance_ReserveCPUWork a d s in
      let '(ivs, s) := reserve_all jobs s in ((st, en) :: ivs, s)
  end.
(** A single server that serves in arrival order: each job starts when it has
    arrived and the server is free. *)
Fixpoint fifo_server (free : Time) (jobs : list (Time * Duration)) : list (Time * Time) :=
  match jobs with
  | [] => []
  | (a, d) :: jobs => let st := Z.max a free in (st, st + d) :: fifo_server (st + d) jobs
  end.
Definition jobs_ok (s : ServiceInstance) (jobs : list (Time * float64)) : Prop :=
  Forall (λ j, 0 < fst j ∧ 0 ≤ cpu_duration (snd j) s) jobs.
Definition timed_jobs (s : ServiceInstance) (jobs : list (Time * float64)) : list (Time * Duration) :=
  (λ j, (fst j, cpu_duration (snd j) s)) <$> jobs.

Lemma start_after_max t free : 0 ≤ free → 0 ≤ t → start_after t free = Z.max t free.
Proof.
  intros. unfold start_after, IsZero, After.
  destruct (Z.eqb_spec free 0), (Z.ltb_spec t free); simpl; lia.
Qed.
#[global] Arguments start_after : simpl never.
Lemma cpu_duration_next d t s : cpu_duration d (s <| si_cpuNextFree := t |>) = cpu_duration d s.
Proof. done. Qed.
#[global] Arguments cpu_duration : simpl never.
Lemma jobs_ok_next s t jobs : jobs_ok (s <| si_cpuNextFree := t |>) jobs ↔ jobs_ok s jobs.
Proof. done. Qed.
Lemma reserve_all_fifo jobs : ∀ s,
  0 ≤ si_cpuNextFree s → jobs_ok s jobs →
  fst (reserve_all jobs s) = fifo_server (si_cpuNextFree s) (timed_jobs s jobs).
Proof.
  induction jobs as [|[a d] jobs IH]; intros s Hn Hj; [done|].
  apply Forall_cons in Hj as [[Ha Hd] Hj]. simpl in Ha, Hd. cbn [reserve_all].
  unfold ServiceInstance_ReserveCPUWork. rewrite start_after_max by lia.
  set (en := Z.max a (si_cpuNextFree s) + cpu_duration d s).
  pose proof (IH (s <| si_cpuNextFree := en |>)) as IH'.
  destruct (reserve_all jobs _) as [ivs s']. cbn [fst] in *. rewrite IH'; [done|simpl; lia|done].
Qed.
Lemma fifo_server_bounds free jobs :
  Forall (λ j, 0 ≤ snd j) jobs →
  StronglySorted (λ x y, snd x ≤ fst y) (fifo_server free jobs) ∧
  Forall (λ iv, free ≤ fst iv) (fifo_server free jobs) ∧
  Forall2 (λ j iv, fst j ≤ fst iv ∧ snd iv = fst iv + snd j) jobs (fifo_server free jobs).
Proof.
  revert free. induction jobs as [|[a d] jobs IH]; intros free Hj; simpl; [by repeat constructor|].
  apply Forall_cons in Hj as [Hd Hj]. simpl in Hd.
  destruct (IH (Z.max a free + d) Hj) as (Hs & Hf & H2). split_and!.
  - constructor; done.
  - constructor; [simpl; lia|]. eapply Forall_impl; [exact Hf|]. intros. simpl in *. lia.
  - constructor; [simpl; lia|done].
Qed.

(** C34: The CPU of an instance is a FIFO server: reservations are granted in call
    order, each from the moment it has arrived and the previous one has ended,
    so their intervals never overlap, none starts before its arrival, and each
    lasts its demand divided by the cores. *)
Theorem cpu_schedule_fifo jobs s :
  0 ≤ si_cpuNextFree s → jobs_ok s jobs →
  let ivs := fst (reserve_all jobs s) in
  ivs = fifo_server (si_cpuNextFree s) (timed_jobs s jobs) ∧
  StronglySorted (λ x y, snd x ≤ fst y) ivs ∧
  Forall2 (λ j iv, fst j ≤ fst iv ∧ snd iv = fst iv + cpu_duration (snd j) s) jobs ivs.
Proof.
  intros Hn Hj. cbv zeta. rewrite reserve_all_fifo by done. split; [done|].
  destruct (fifo_server_bounds (si_cpuNextFree s) (timed_jobs s jobs)) as (Hs & _ & H2).
  { apply Forall_fmap. eapply Forall_impl; [exact Hj|]. by intros j [_ ?]. }
  split; [done|]. unfold timed_jobs in H2. rewrite Forall2_fmap_l in H2. done.
Qed.
Lemma cpu_schedule_fifo_witness :
  fst (reserve_all [(100, f64_of_Z 4); (200, f64_of_Z 2)]
         (NewServiceInstance 0 "a-instance-0" "a" "h" (f64_of_Z 2) f0))
  = [(100, 2000100); (2000100, 3000100)].
Proof.
  rewrite (proj1 (cpu_schedule_fifo [(100, f64_of_Z 4); (200, f64_of_Z 2)]
    (NewServiceInstance 0 "a-instance-0" "a" "h" (f64_of_Z 2) f0) ltac:(vm_compute; discriminate)
    ltac:(repeat constructor; vm_compute; discriminate))).
  vm_compute. reflexivity.
Defined.

(** A reservation that is rolled back leaves no trace: jobs that arrive no
    earlier than it get the intervals they would have got without it. *)
Theorem cpu_rollback_transparent a d jobs s :
  0 ≤ si_cpuNextFree s → jobs_ok s ((a, d) :: jobs) → Forall (λ j, a ≤ fst j) jobs →
  let '(st, en, s1) := ServiceInstance_ReserveCPUWork a d s in
  fst (reserve_all jobs (ServiceInstance_RollbackCPUTailReservation st en s1))
  = fst (reserve_all jobs s).
Proof.
  intros Hn Hj Hle. apply Forall_cons in Hj as [[Ha Hd] Hj]. simpl in Ha, Hd.
  unfold ServiceInstance_ReserveCPUWork, ServiceInstance_RollbackCPUTailReservation.
  rewrite start_after_max by lia. set (st := Z.max a (si_cpuNextFree s)). simpl. unfold IsZero.
  assert (0 < st + cpu_duration d s) by lia.
  rewrite (proj2 (Z.eqb_neq _ _)) by lia. rewrite Z.eqb_refl. simpl.
  rewrite (reserve_all_fifo jobs s) by done.
  rewrite reserve_all_fifo; [|simpl; lia|exact Hj]. simpl si_cpuNextFree. change (timed_jobs _ jobs) with (timed_jobs s jobs).
  destruct jobs as [|[b e] jobs]; [done|]. apply Forall_cons in Hle as [Hb _]. simpl in *.
  by replace (Z.max b st) with (Z.max b (si_cpuNextFree s)) by lia.
Qed.
Lemma cpu_rollback_transparent_witness :
  let s := NewServiceInstance 0 "a-instance-0" "a" "h" (f64_of_Z 2) f0 in
  let '(st, en, s1) := ServiceInstance_ReserveCPUWork 100 (f64_of_Z 4) s in
  fst (reserve_all [(150, f64_of_Z 2)] (ServiceInstance_RollbackCPUTailReservation st en s1))
  = fst (reserve_all [(150, f64_of_Z 2)] s).
Proof.
  apply cpu_rollback_transparent; [vm_compute; discriminate| |repeat constructor; simpl; lia].
  repeat constructor; vm_compute; discriminate.
Defined.

(** * The connection pool *)

(** An interval granted on a slot of the pool. *)
Record Grant := mkGrant { g_start : Time; g_end : Time; g_slot : nat }.
(** Reservations in order on a pool of [n] slots. *)
Fixpoint reserve_db_all (n : Z) (jobs : list (Time * float64)) (s : ServiceInstance)
    : list Grant * ServiceInstance :=
  match jobs with
  | [] => ([], s)
  | (a, d) :: jobs =>
      let '(st, en, i, _, s) := ServiceInstance_ReserveDBWork a d n s in
      let '(gs, s) := reserve_db_all n jobs s in (mkGrant st en (Z.to_nat i) :: gs, s)
  end.
Definition db_jobs_ok (jobs : list (Time * float64)) : Prop :=
  Forall (λ j, 0 < fst j ∧ 0 ≤ round_ms (clamp0 (snd j))) jobs.
(** The slots a pool of [n] connections uses. *)
Definition pool_size (n : Z) : nat := Z.to_nat (Z.min n 64).

(** The best start so far is no later than any start on the slots seen. *)
Lemma pick_slot_spec arrival slots : ∀ i best,
  let r := pick_slot arrival i slots best in
  (∀ b st, best = Some (b, st) → ∃ b' st', r = Some (b', st') ∧ st' ≤ st) ∧
  (∀ j f, slots !! j = Some f → ∃ b' st', r = Some (b', st') ∧ st' ≤ start_after arrival f) ∧
  (∀ b' st', r = Some (b', st') → best = Some (b', st') ∨
     ∃ j f, slots !! j = Some f ∧ b' = (i + j)%nat ∧ st' = start_after arrival f).
Proof.
  induction slots as [|free slots IH]; intros i best; simpl.
  { split_and!; [intros b st ->; eexists _, _; split; [done|lia]|done|auto]. }
  set (best' := match best with None => _ | _ => _ end).
  destruct (IH (S i) best') as (H1 & H2 & H3). clear IH.
  assert (Hb : ∃ b st, best' = Some (b, st) ∧ st ≤ start_after arrival free ∧
     (∀ b0 st0, best = Some (b0, st0) → st ≤ st0) ∧
     (best = Some (b, st) ∨ (b = i ∧ st = start_after arrival free))).
  { subst best'. unfold Before. destruct best as [[b0 st0]|].
    - destruct (Z.ltb_spec (start_after arrival free) st0).
      + eexists _, _. split; [done|]. split_and!; [lia|intros ? ? [= <- <-]; lia|by right].
      + eexists _, _. split; [done|]. split_and!; [lia|intros ? ? [= <- <-]; lia|by left].
    - eexists _, _. split; [done|]. split_and!; [lia|done|by right]. }
  destruct Hb as (b & st & Hb & Hle & Hmono & Hfrom).
  destruct (H1 b st Hb) as (b' & st' & Hr & Hst). split_and!.
  - intros b0 st0 ->. exists b', st'. split; [done|]. specialize (Hmono _ _ eq_refl). lia.
  - intros [|j] f Hj; simpl in Hj; [injection Hj as ->; exists b', st'; split; [done|lia]|].
    by apply (H2 j).
  - intros b0 st0 Hr0. destruct (H3 _ _ Hr0) as [Hbest|(j & f & Hj & -> & ->)].
    + rewrite Hb in Hbest. injection Hbest as <- <-. destruct Hfrom as [->|[-> ->]]; [by left|].
      right. exists 0%nat, free. split_and!; [done|lia|done].
    + right. exists (S j), f. split_and!; [done|lia|done].
Qed.

(** One reservation on a pool of [n] slots. *)
Lemma ReserveDBWork_spec a d n s :
  0 < n → 0 < a → Forall (λ f, 0 ≤ f) (si_dbSlotFree s) →
  let '(st, en, i, w, s') := ServiceInstance_ReserveDBWork a d n s in
  ∃ f, grow_slots (pool_size n) (si_dbSlotFree s) !! Z.to_nat i = Some f ∧
    (Z.to_nat i < pool_size n)%nat ∧ st = Z.max a f ∧ en = st + round_ms (clamp0 d) ∧
    si_dbSlotFree s' = <[Z.to_nat i := en]> (grow_slots (pool_size n) (si_dbSlotFree s)) ∧
    (∀ j f', (j < pool_size n)%nat → grow_slots (pool_size n) (si_dbSlotFree s) !! j = Some f' →
       st ≤ Z.max a f').
Proof.
  intros Hn Ha Hs. unfold ServiceInstance_ReserveDBWork. rewrite (proj2 (Z.leb_gt _ _)) by lia.
  cbv zeta. assert (Hp : Z.to_nat (if maxDBSlotsCap <? n then maxDBSlotsCap else n) = pool_size n).
  { unfold pool_size, maxDBSlotsCap. destruct (Z.ltb_spec 64 n); f_equal; lia. }
  rewrite Hp. set (slots := grow_slots _ _).
  assert (Hlen : (pool_size n ≤ length slots)%nat) by (subst slots; rewrite length_grow_slots; lia).
  assert (Hpos : Forall (λ f, 0 ≤ f) slots).
  { subst slots. unfold grow_slots. case_bool_decide; [|done].
    apply Forall_app. split; [done|]. by apply Forall_replicate. }
  assert (Hpn : (0 < pool_size n)%nat) by (unfold pool_size; lia).
  destruct (lookup_lt_is_Some_2 slots 0 ltac:(lia)) as [f0' Hf0].
  destruct (pick_slot_spec a (take (pool_size n) slots) 0 None) as (_ & Hmin & Hfrom).
  destruct (Hmin 0%nat f0') as (b & st & Hr & _); [by rewrite lookup_take_lt by lia|].
  rewrite Hr. cbv [default from_option id]. cbv beta iota zeta. rewrite Nat2Z.id.
  destruct (Hfrom b st Hr) as [|(j & f & Hj & -> & ->)]; [done|]. simpl in *.
  apply lookup_take_Some in Hj as [Hj Hjn].
  assert (Hge : ∀ i g, slots !! i = Some g → start_after a g = Z.max a g).
  { intros i g Hg. apply start_after_max; [|lia]. by eapply (Forall_lookup_1 (λ f, 0 ≤ f)). }
  exists f. rewrite (Hge j f Hj). split_and!; try done.
  intros j' f' Hj' Hf'. destruct (Hmin j' f') as (b' & st' & Hr' & Hle); [by rewrite lookup_take_lt|].
  rewrite Hr in Hr'. injection Hr' as <- <-. rewrite (Hge j f Hj) in Hle. by rewrite (Hge j' f' Hf') in Hle.
Qed.

Lemma grow_slots_id n slots : (n ≤ length slots)%nat → grow_slots n slots = slots.
Proof. intros. unfold grow_slots. by rewrite bool_decide_false by lia. Qed.
Definition same_slot_after (g g' : Grant) : Prop := g_slot g = g_slot g' → g_end g ≤ g_start g'.
Lemma reserve_db_all_spec n jobs : ∀ s,
  0 < n → db_jobs_ok jobs → Forall (λ f, 0 ≤ f) (si_dbSlotFree s) →
  let gs := fst (reserve_db_all n jobs s) in
  Forall (λ g, (g_slot g < pool_size n)%nat) gs ∧
  Forall2 (λ j g, fst j ≤ g_start g ∧ g_end g = g_start g + round_ms (clamp0 (snd j))) jobs gs ∧
  Forall (λ g, ∀ f, grow_slots (pool_size n) (si_dbSlotFree s) !! g_slot g = Some f →
                    f ≤ g_start g) gs ∧
  StronglySorted same_slot_after gs.
Proof.
  induction jobs as [|[a d] jobs IH]; intros s Hn Hj Hs; [by repeat constructor|].
  apply Forall_cons in Hj as [[Ha Hd] Hj]. cbn [fst snd] in Ha, Hd. cbn [reserve_db_all].
  pose proof (ReserveDBWork_spec a d n s Hn Ha Hs) as Hspec.
  destruct (ServiceInstance_ReserveDBWork a d n s) as [[[[st en] i] w] s1].
  destruct Hspec as (f & Hf & Hi & -> & -> & Hs1 & _).
  set (slots := grow_slots _ _) in *. set (en := Z.max a f + _) in *.
  assert (Hlen : (pool_size n ≤ length slots)%nat) by (subst slots; rewrite length_grow_slots; lia).
  assert (Hpos : Forall (λ f, 0 ≤ f) slots).
  { subst slots. unfold grow_slots. case_bool_decide; [|done].
    apply Forall_app. split; [done|]. by apply Forall_replicate. }
  assert (Hf0 : 0 ≤ f) by (by eapply (Forall_lookup_1 (λ f, 0 ≤ f))).
  destruct (IH s1) as (H1 & H2 & H3 & H4); [done|done| |].
  { rewrite Hs1. apply Forall_insert; [done|lia]. }
  rewrite Hs1, grow_slots_id in H3 by (by rewrite length_insert).
  destruct (reserve_db_all n jobs s1) as [gs s2]. cbn [fst] in *.
  set (k := Z.to_nat i) in *. split_and!.
  - by constructor.
  - constructor; [simpl; lia|done].
  - constructor; [simpl; intros f' Hf'; rewrite Hf in Hf'; injection Hf' as <-; lia|].
    rewrite Forall_forall in H3 |- *. intros g Hg f' Hf'.
    destruct (decide (g_slot g = k)) as [Hk|Hk].
    + specialize (H3 g Hg en). rewrite Hk in *. rewrite list_lookup_insert_eq in H3 by lia.
      specialize (H3 eq_refl). rewrite Hf in Hf'. injection Hf' as <-. lia.
    + apply (H3 g Hg). by rewrite list_lookup_insert_ne by done.
  - constructor; [done|]. rewrite Forall_forall in H3 |- *. intros g Hg. unfold same_slot_after.
    simpl. intros Hk. apply (H3 g Hg). rewrite <- Hk. by rewrite list_lookup_insert_eq by lia.
Qed.

(** The grants of [gs] that are running at time [t]. *)
Definition running_at (t : Time) (gs : list Grant) : list Grant :=
  filter (λ g, g_start g ≤ t < g_end g) gs.
Lemma running_at_slots t gs :
  StronglySorted same_slot_after gs → NoDup (g_slot <$> running_at t gs).
Proof.
  induction 1 as [|g gs _ IH Hg]; [constructor|]. unfold running_at in *. rewrite filter_cons.
  case_decide as Ht; [|done]. csimpl. constructor; [|done].
  intros (g' & Hs & Hin)%list_elem_of_fmap. apply list_elem_of_filter in Hin as [Ht' Hin].
  rewrite Forall_forall in Hg. specialize (Hg g' Hin Hs). lia.
Qed.
Lemma NoDup_bounded_length (l : list nat) n : NoDup l → Forall (λ i, i < n)%nat l → (length l ≤ n)%nat.
Proof.
  intros Hnd Hl. rewrite <- (length_seq n 0). apply submseteq_length, NoDup_submseteq; [done|].
  intros i Hi. rewrite Forall_forall in Hl. apply elem_of_seq. specialize (Hl i Hi). lia.
Qed.

(** The connection pool: with [n] connections (64 at most), at any time at
    most [n] operations run on an instance; no operation starts before it
    arrives, each lasts as long as asked, and operations on one slot follow
    each other in call order without overlap. *)
Theorem db_pool_bounded n jobs s t :
  0 < n → db_jobs_ok jobs → Forall (λ f, 0 ≤ f) (si_dbSlotFree s) →
  let gs := fst (reserve_db_all n jobs s) in
  (length (running_at t gs) ≤ Z.to_nat (Z.min n 64))%nat ∧
  StronglySorted same_slot_after gs ∧
  Forall2 (λ j g, fst j ≤ g_start g ∧ g_end g = g_start g + round_ms (clamp0 (snd j))) jobs gs.
Proof.
  intros Hn Hj Hs. destruct (reserve_db_all_spec n jobs s Hn Hj Hs) as (H1 & H2 & _ & H4).
  split; [|done]. rewrite <- (length_fmap g_slot). apply NoDup_bounded_length.
  - by apply running_at_slots.
  - apply Forall_fmap, Forall_forall. intros g [_ Hg]%list_elem_of_filter.
    rewrite Forall_forall in H1. by apply H1.
Qed.
Lemma db_pool_bounded_witness :
  let s := NewServiceInstance 0 "db-instance-0" "db" "h" (f64_of_Z 2) f0 in
  let gs := fst (reserve_db_all 2 [(5, f1); (6, f1); (7, f1)] s) in
  g_slot <$> gs = [0%nat; 1%nat; 0%nat] ∧ (length (running_at 1000005 gs) ≤ 2)%nat.
Proof.
  split; [vm_compute; reflexivity|].
  apply (db_pool_bounded 2 [(5, f1); (6, f1); (7, f1)]
    (NewServiceInstance 0 "db-instance-0" "db" "h" (f64_of_Z 2) f0) 1000005); [lia| |constructor].
  repeat constructor; vm_compute; discriminate.
Defined.

(** The pool is work conserving: a reservation starts at the earliest time
    any of its [n] slots (64 at most) allows, and is granted a slot of the pool,
    so the slot table is never indexed out of range. *)
Theorem db_pool_earliest a d n s :
  0 < n → 0 < a → Forall (λ f, 0 ≤ f) (si_dbSlotFree s) →
  let '(st, _, i, _, _) := ServiceInstance_ReserveDBWork a d n s in
  let slots := take (Z.to_nat (Z.min n 64)) (grow_slots (Z.to_nat (Z.min n 64)) (si_dbSlotFree s)) in
  (Z.to_nat i < length slots)%nat ∧ (∃ f, slots !! Z.to_nat i = Some f ∧ st = Z.max a f) ∧
  Forall (λ f, st ≤ Z.max a f) slots.
Proof.
  intros Hn Ha Hs. pose proof (ReserveDBWork_spec a d n s Hn Ha Hs) as H.
  destruct (ServiceInstance_ReserveDBWork a d n s) as [[[[st en] i] w] s1].
  destruct H as (f & Hf & Hi & -> & _ & _ & Hmin). fold (pool_size n). cbv zeta. split_and!.
  - rewrite length_take, length_grow_slots. lia.
  - exists f. split; [by rewrite lookup_take_lt|done].
  - apply Forall_lookup. intros j f' [Hf' Hj]%lookup_take_Some. by apply (Hmin j).
Qed.
Lemma db_pool_earliest_witness :
  let s := NewServiceInstance 0 "db-instance-0" "db" "h" (f64_of_Z 2) f0 in
  let '(st, _, i, _, _) := ServiceInstance_ReserveDBWork 5 f1 3 s in
  (Z.to_nat i < 3)%nat ∧ st = 5.
Proof.
  pose proof (db_pool_earliest 5 f1 3 (NewServiceInstance 0 "db-instance-0" "db" "h" (f64_of_Z 2) f0)
    ltac:(lia) ltac:(lia) ltac:(constructor)) as H.
  destruct (ServiceInstance_ReserveDBWork _ _ _ _) as [[[[st en] i] w] s1] eqn:E.
  vm_compute in E. injection E as <- <- <- <- <-. split; [apply (proj1 H)|reflexivity].
Defined.
