(* ===== verification/ResourceManager.v ===== *)
(** [internal/resource/manager.go] and [placement.go]: the resource manager,
    which owns hosts, service instances, the routing cache and the broker
    registry. Hosts and instances are objects behind pointers that the maps
    hold under the object's ID; a cached pointer is modelled by that ID, and a
    method call through a pointer updates the object in the map. Where Go
    iterates over a map and the order can be seen, the order of the keys is an
    argument. [clock n] is the wall clock when instance number [n] is created.
    Error texts leave out the quantities the code prints with [%.2f]. *)
From S2P Require Import Prelude GoFloat Utils Policy Config BrokerQueue Instance.
From Stdlib Require Import SpecFloat.
#[local] Open Scope string_scope.
#[local] Open Scope list_scope.
#[local] Open Scope Z_scope.

(** * Data *)

Definition DefaultInstanceCPUCores : float64 := f1.
Definition DefaultInstanceMemoryMB : float64 := f64_of_Z 512.
Definition DefaultMemoryDownsizeHeadroomMB : float64 := f64_of_Z 16.
Definition DefaultDrainTimeout : Duration := Hour.

Record ResourceManager := mkManager {
  mg_hosts : gmap string Host;
  mg_instances : gmap string ServiceInstance;
  mg_hostToInstances : gmap string (list string);
  mg_roundRobinIdx : gmap string Z;
  mg_weightedRoundRobinIdx : gmap string Z;
  mg_sortedServiceInstMap : gmap string (list string);
  mg_serviceRouting : gmap string RoutingPolicy;
  mg_endpointRouting : gmap string RoutingPolicy;
  mg_nextInstanceID : Z;
  mg_drainTimeout : Duration;
  mg_lastSimTime : Time;
  mg_brokerQueues : BrokerQueues;
}.
#[export] Instance eta_ResourceManager : Eta ResourceManager := λ r, mkManager (mg_hosts r)
  (mg_instances r) (mg_hostToInstances r) (mg_roundRobinIdx r) (mg_weightedRoundRobinIdx r)
  (mg_sortedServiceInstMap r) (mg_serviceRouting r) (mg_endpointRouting r) (mg_nextInstanceID r)
  (mg_drainTimeout r) (mg_lastSimTime r) (mg_brokerQueues r).
Record ScaleServiceOptions := mkScaleOptions {
  so_SimTime : Time;
  so_DrainTimeout : Duration;
}.

Definition NewManager : ResourceManager :=
  mkManager ∅ ∅ ∅ ∅ ∅ ∅ ∅ ∅ 0 0 zeroTime newBrokerQueues.

(** The keys of a map in the order of [sort.Strings]. *)
Definition sorted_keys {A} (m : gmap string A) : list string :=
  sort_SliceStable string_ltb (fst <$> map_to_list m).
(** The values of a map visited in the given order of keys. *)
Definition visit {A} (order : list string) (m : gmap string A) : list (string * A) :=
  omap (λ k, pair k <$> m !! k) order.
Definition instances_of (ids : list string) (m : ResourceManager) : list ServiceInstance :=
  omap (λ id, mg_instances m !! id) ids.
Definition update_instance (id : string) (f : ServiceInstance → ServiceInstance)
    (m : ResourceManager) : ResourceManager := m <| mg_instances := alter f id (mg_instances m) |>.
Definition update_host (id : string) (f : Host → Host) (m : ResourceManager) : ResourceManager :=
  m <| mg_hosts := alter f id (mg_hosts m) |>.

(** * Host capacity *)

Definition hostMemoryCapacityMB (h : Host) : float64 :=
  let gb := if h_memoryGB h <? 1 then 1 else h_memoryGB h in fmul (f64_of_Z gb) (f64_of_Z 1024).
Definition cpu_eps : float64 := f64_lit 1 1000000000.
Definition mem_eps : float64 := f64_lit 1 1000000.
(** A host with reservations [cpu] and [mem] can take [cpuCores] and [memoryMB]. *)
Definition host_fits (h : Host) (cpu mem cpuCores memoryMB : float64) : bool :=
  fleb (fadd cpu cpuCores) (fadd (f64_of_Z (h_cpuCores h)) cpu_eps)
  && fleb (fadd mem memoryMB) (fadd (hostMemoryCapacityMB h) mem_eps).
Definition ResourceManager_collectInstancesForHost (hostID : string) (m : ResourceManager)
    : list ServiceInstance := instances_of (default [] (mg_hostToInstances m !! hostID)) m.
Definition reserved_cpu (l : list ServiceInstance) : float64 :=
  foldl (λ s inst, fadd s (si_cpuCores inst)) f0 l.
Definition reserved_mem (l : list ServiceInstance) : float64 :=
  foldl (λ s inst, fadd s (si_memoryMB inst)) f0 l.

(** The list rotated to begin at index [start]. *)
Definition rotate_from {A} (start : nat) (l : list A) : list A :=
  omap (λ j, l !! ((start + j) mod length l)%nat) (seq 0 (length l)).
Definition find_first {A} (f : A → bool) (l : list A) : option A := List.find f l.

Definition service_instances (serviceName : string) (m : ResourceManager) : list string :=
  fst <$> filter (λ kv, si_serviceName (snd kv) = serviceName) (map_to_list (mg_instances m)).
Definition ResourceManager_pickHostForNewInstanceLocked (serviceID : string)
    (cpuCores memoryMB : float64) (m : ResourceManager) : go string :=
  let hostIDs := sorted_keys (mg_hosts m) in
  match hostIDs with
  | [] => Fail "no hosts available"
  | _ =>
      let existing := length (service_instances serviceID m) in
      let start := (existing mod length hostIDs)%nat in
      let fits hid :=
        match mg_hosts m !! hid with
        | None => false
        | Some h =>
            let l := ResourceManager_collectInstancesForHost hid m in
            host_fits h (reserved_cpu l) (reserved_mem l) cpuCores memoryMB
        end in
      match find_first fits (rotate_from start hostIDs) with
      | Some hid => Ok hid
      | None => Fail "no host has capacity for new instance"
      end
  end.

(** * Instances and the routing cache *)

Definition instance_name (serviceID : string) (n : Z) : string :=
  serviceID +:+ "-instance-" +:+ Itoa n.
(** Registers instance number [n] of a service on a host. *)
Definition add_instance (clock : Z → Time) (serviceID hostID : string) (n : Z)
    (cpuCores memoryMB : float64) (m : ResourceManager) : ResourceManager :=
  let id := instance_name serviceID n in
  let m := m <| mg_instances :=
             <[id := NewServiceInstance (clock n) id serviceID hostID cpuCores memoryMB]>
               (mg_instances m) |> in
  let m := update_host hostID (Host_AddService id) m in
  m <| mg_hostToInstances :=
    <[hostID := default [] (mg_hostToInstances m !! hostID) ++ [id]]> (mg_hostToInstances m) |>.

(** The routable instances of a service, by ID. *)
Definition active_ids (serviceName : string) (m : ResourceManager) : list string :=
  sort_SliceStable string_ltb
    (filter (λ id, from_option ServiceInstance_IsRoutable false (mg_instances m !! id) = true)
       (service_instances serviceName m)).
Definition active_services (m : ResourceManager) : list string :=
  remove_dups ((λ kv, si_serviceName (snd kv)) <$>
    filter (λ kv, ServiceInstance_IsRoutable (snd kv) = true) (map_to_list (mg_instances m))).
Definition ResourceManager_rebuildSortedInstanceCache (m : ResourceManager) : ResourceManager :=
  let next := list_to_map ((λ sn, (sn, active_ids sn m)) <$> active_services m) in
  let rr :=
    foldl (λ rr sn,
      let instances := active_ids sn m in
      if (0 <? len instances) && (len instances <=? default 0 (rr !! sn)) then <[sn := 0]> rr else rr)
      (mg_roundRobinIdx m) (active_services m) in
  m <| mg_roundRobinIdx := rr |> <| mg_sortedServiceInstMap := next |>.

(** * Initialisation from a scenario *)

Definition zone_ok (p : option PlacementPolicy) (h : Host) : bool :=
  match p with
  | None => true
  | Some p =>
      match pl_RequiredZones p with
      | [] => true
      | zones => existsb (λ z, EqualFold (TrimSpace (h_zone h)) (TrimSpace z)) zones
      end
  end.
Definition affinity_conflict (p : option PlacementPolicy) (hostID : string) (m : ResourceManager)
    : bool :=
  match p with
  | None => false
  | Some p =>
      existsb (λ inst,
        existsb (λ blocked, EqualFold (TrimSpace blocked) (TrimSpace (si_serviceName inst)))
          (pl_AntiAffinityServices p))
        (ResourceManager_collectInstancesForHost hostID m)
  end.
(** The state of the placement loop: the manager, the instance counter and the
    reservations per host. *)
Definition PlaceState : Type := ResourceManager * Z * gmap string (float64 * float64).
Definition place_replica (clock : Z → Time) (svc : Service) (cpuCores memoryMB : float64)
    (hostIDs : list string) (st : PlaceState) (replica : nat) : go PlaceState :=
  let '(m, instanceID, load) := st in
  let fits hid :=
    match mg_hosts m !! hid with
    | None => false
    | Some h =>
        let '(cpu, mem) := default (f0, f0) (load !! hid) in
        zone_ok (svc_Placement svc) h && negb (affinity_conflict (svc_Placement svc) hid m)
        && host_fits h cpu mem cpuCores memoryMB
    end in
  match find_first fits (rotate_from (replica mod length hostIDs) hostIDs) with
  | None => Fail ("cannot place service " +:+ svc_ID svc +:+ ": insufficient host capacity")
  | Some hid =>
      let '(cpu, mem) := default (f0, f0) (load !! hid) in
      Ok (add_instance clock (svc_ID svc) hid instanceID cpuCores memoryMB m, instanceID + 1,
          <[hid := (fadd cpu cpuCores, fadd mem memoryMB)]> load)
  end.
Definition register_routing (svc : Service) (m : ResourceManager) : ResourceManager :=
  let m := match svc_Routing svc with
           | Some r => m <| mg_serviceRouting := <[svc_ID svc := r]> (mg_serviceRouting m) |>
           | None => m end in
  foldl (λ m ep,
    match ep_Routing ep with
    | Some r => m <| mg_endpointRouting :=
                  <[svc_ID svc +:+ ":" +:+ ep_Path ep := r]> (mg_endpointRouting m) |>
    | None => m
    end) m (svc_Endpoints svc).
Definition place_service (clock : Z → Time) (hostIDs : list string) (st : PlaceState)
    (svc : Service) : go PlaceState :=
  let '(m, n, load) := st in
  let cpuCores := if feqb (svc_CPUCores svc) f0 then DefaultInstanceCPUCores else svc_CPUCores svc in
  let memoryMB := if feqb (svc_MemoryMB svc) f0 then DefaultInstanceMemoryMB else svc_MemoryMB svc in
  go_fold (place_replica clock svc cpuCores memoryMB hostIDs) (register_routing svc m, n, load)
    (seq 0 (Z.to_nat (svc_Replicas svc))).
Definition new_host (h : HostSpec) : Host :=
  let memoryGB := if hs_MemoryGB h <=? 0 then 16 else hs_MemoryGB h in
  Host_SetLabels (hs_Labels h) (Host_SetZone (hs_Zone h) (NewHost (hs_ID h) (hs_Cores h) memoryGB)).
(** On an error the caller abandons the manager. *)
Definition ResourceManager_InitializeFromScenario (clock : Z → Time) (scenario : Scenario)
    (m : ResourceManager) : go ResourceManager :=
  let m := m <| mg_hosts := foldl (λ hs h, <[hs_ID h := new_host h]> hs) (mg_hosts m)
                              (scn_Hosts scenario) |> in
  let hostIDs := sorted_keys (mg_hosts m) in
  match hostIDs with
  | [] => Fail "no hosts defined"
  | _ =>
      let load := list_to_map ((λ id, (id, (f0, f0))) <$> hostIDs) in
      let! st := go_fold (place_service clock hostIDs) (m, 0, load) (scn_Services scenario) in
      let '(m, n, _) := st in
      Ok (ResourceManager_rebuildSortedInstanceCache (m <| mg_nextInstanceID := n |>))
  end.

(** * Selection *)

Definition ResourceManager_SelectInstanceForService (serviceName : string) (m : ResourceManager)
    : go (string * ResourceManager) :=
  match default [] (mg_sortedServiceInstMap m !! serviceName) with
  | [] => Fail ("no instances available for service " +:+ serviceName)
  | instances =>
      let idx := default 0 (mg_roundRobinIdx m !! serviceName) in
      let! selected := index instances idx in
      Ok (selected,
          m <| mg_roundRobinIdx :=
            <[serviceName := Z.rem (idx + 1) (len instances)]> (mg_roundRobinIdx m) |>)
  end.

(** * Scaling a service *)

Definition ResourceManager_effectiveDrainTimeout (opts : ScaleServiceOptions)
    (m : ResourceManager) : Duration :=
  if 0 <? so_DrainTimeout opts then so_DrainTimeout opts
  else if 0 <? mg_drainTimeout m then mg_drainTimeout m
  else DefaultDrainTimeout.
(** Adds up to [k] instances, stopping at the first one no host can take. *)
Fixpoint scale_up (clock : Z → Time) (serviceID : string) (cpuCores memoryMB : float64) (k : nat)
    (m : ResourceManager) : option string * ResourceManager :=
  match k with
  | O => (None, m)
  | S k =>
      match ResourceManager_pickHostForNewInstanceLocked serviceID cpuCores memoryMB m with
      | Fail e => (Some e, m)
      | Panic => (Some "", m)
      | Ok hostID =>
          let n := mg_nextInstanceID m in
          scale_up clock serviceID cpuCores memoryMB k
            (add_instance clock serviceID hostID n cpuCores memoryMB
               (m <| mg_nextInstanceID := n + 1 |>))
      end
  end.
(** The result is the error, if any, and the manager, which is changed also when
    there is an error. *)
Definition ResourceManager_ScaleServiceWithOptions (clock : Z → Time) (now : Time)
    (serviceID : string) (newReplicas : Z) (opts : ScaleServiceOptions) (m : ResourceManager)
    : go (option string * ResourceManager) :=
  if newReplicas <? 1 then
    Ok (Some ("replicas must be at least 1, got " +:+ Itoa newReplicas), m)
  else
    let simTime := if IsZero (so_SimTime opts) then now else so_SimTime opts in
    let deadline := simTime + ResourceManager_effectiveDrainTimeout opts m in
    let allInst := sort_SliceStable string_ltb (service_instances serviceID m) in
    match allInst with
    | [] => Ok (Some ("service not found: " +:+ serviceID), m)
    | _ =>
        let activeInst :=
          filter (λ id, si_lifecycle <$> mg_instances m !! id = Some InstanceActive) allInst in
        let activeN := len activeInst in
        if activeN <? newReplicas then
          if bool_decide (mg_hosts m = ∅) then Ok (Some "no hosts available", m)
          else
            let! tid := index activeInst 0 in
            match mg_instances m !! tid with
            | None => Panic
            | Some template =>
                let '(err, m) :=
                  scale_up clock serviceID (si_cpuCores template) (si_memoryMB template)
                    (Z.to_nat (newReplicas - activeN)) m in
                match err with
                | Some e => Ok (Some e, m)
                | None => Ok (None, ResourceManager_rebuildSortedInstanceCache m)
                end
            end
        else if newReplicas <? activeN then
          let toDrain := drop (Z.to_nat newReplicas) activeInst in
          let m := foldl (λ m id, update_instance id (ServiceInstance_SetDraining deadline) m)
                     m toDrain in
          Ok (None, ResourceManager_rebuildSortedInstanceCache m)
        else Ok (None, m)
    end.
Definition ResourceManager_ScaleService (clock : Z → Time) (now : Time) (serviceID : string)
    (newReplicas : Z) (m : ResourceManager) : go (option string * ResourceManager) :=
  ResourceManager_ScaleServiceWithOptions clock now serviceID newReplicas
    (mkScaleOptions zeroTime 0) m.

(** * Draining *)

Definition ResourceManager_updateHostCPUUtilizationWithData (now : Time) (hostID : string)
    (instances : list ServiceInstance) (simTime : Time) (m : ResourceManager) : ResourceManager :=
  let simTime := if IsZero simTime then now else simTime in
  update_host hostID (Host_UpdateCPUUtilizationFromInstancesAt now simTime instances) m.
Definition ResourceManager_updateHostMemoryUtilizationWithData (hostID : string)
    (instances : list ServiceInstance) (m : ResourceManager) : ResourceManager :=
  update_host hostID (Host_UpdateMemoryUtilization instances) m.
Definition ResourceManager_removeInstanceLocked (now : Time) (instanceID : string)
    (simTime : Time) (evictAccounting : bool) (m : ResourceManager)
    : list string * ResourceManager :=
  match mg_instances m !! instanceID with
  | None => ([], m)
  | Some inst =>
      let hostID := si_hostID inst in
      let '(dropped, m) :=
        if evictAccounting then
          let simTime := if IsZero simTime then now else simTime in
          let '(dropped, inst') := ServiceInstance_EvictResourceState simTime inst in
          let m := m <| mg_instances := <[instanceID := inst']> (mg_instances m) |> in
          let instances := ResourceManager_collectInstancesForHost hostID m in
          (dropped,
           ResourceManager_updateHostMemoryUtilizationWithData hostID instances
             (ResourceManager_updateHostCPUUtilizationWithData now hostID instances simTime m))
        else ([], m) in
      let m := m <| mg_instances := delete instanceID (mg_instances m) |> in
      let m := m <| mg_hostToInstances :=
                 alter (filter (λ x, x ≠ instanceID)) hostID (mg_hostToInstances m) |> in
      (dropped, update_host hostID (Host_RemoveService instanceID) m)
  end.
Definition drain_idle (inst : ServiceInstance) : bool :=
  (si_activeRequests inst =? 0) && (ServiceInstance_QueueLength inst =? 0).
Definition drain_timed_out (simTime : Time) (inst : ServiceInstance) : bool :=
  negb (IsZero (si_drainDeadline inst)) && negb (Before simTime (si_drainDeadline inst)).
Definition is_draining (inst : ServiceInstance) : bool :=
  bool_decide (si_lifecycle inst = InstanceDraining).
Definition ResourceManager_NoteSimTime (t : Time) (m : ResourceManager) : ResourceManager :=
  if negb (IsZero t) && After t (mg_lastSimTime m) then m <| mg_lastSimTime := t |> else m.
Definition ResourceManager_ProcessDrainingInstances (order : list string) (now simTime : Time)
    (m : ResourceManager) : list string * ResourceManager :=
  let m := ResourceManager_NoteSimTime simTime m in
  let draining := filter (λ kv, is_draining (snd kv) = true) (visit order (mg_instances m)) in
  let removeIDs := fst <$> filter (λ kv, drain_idle (snd kv) = true) draining in
  let evictIDs :=
    fst <$> filter (λ kv, drain_timed_out simTime (snd kv) && negb (drain_idle (snd kv)) = true)
              draining in
  let '(dropped, m) :=
    foldl (λ '(ds, m) id,
      let '(d, m) := ResourceManager_removeInstanceLocked now id simTime true m in (ds ++ d, m))
      ([], m) evictIDs in
  let m := foldl (λ m id, snd (ResourceManager_removeInstanceLocked now id simTime false m))
             m removeIDs in
  (dropped,
   if 0 <? len removeIDs + len evictIDs then ResourceManager_rebuildSortedInstanceCache m else m).

(** * Hosts *)

Definition ResourceManager_ActiveReplicas (serviceID : string) (m : ResourceManager) : Z :=
  match mg_sortedServiceInstMap m !! serviceID with None => 0 | Some l => len l end.
Definition ResourceManager_HostCount (m : ResourceManager) : Z := Z.of_nat (size (mg_hosts m)).
Definition max_util (util : Host → float64) (order : list string) (m : ResourceManager) : float64 :=
  foldl (λ mx kv, if fltb mx (util (snd kv)) then util (snd kv) else mx) f0 (visit order (mg_hosts m)).
Definition ResourceManager_MaxHostCPUUtilization (order : list string) (m : ResourceManager)
    : float64 := max_util h_cpuUtilization order m.
Definition ResourceManager_MaxHostMemoryUtilization (order : list string) (m : ResourceManager)
    : float64 := max_util h_memoryUtilization order m.
Definition ResourceManager_SetScaleDownDrainTimeout (d : Duration) (m : ResourceManager)
    : ResourceManager := if 0 <? d then m <| mg_drainTimeout := d |> else m.
Definition ResourceManager_HostIDs (m : ResourceManager) : list string := sorted_keys (mg_hosts m).

(** The loop that adds copies of [template] until there are [target] hosts. *)
Fixpoint add_hosts (fuel : nat) (cores memoryGB target nextIndex : Z) (hosts : gmap string Host)
    : option (gmap string Host) :=
  if target <=? Z.of_nat (size hosts) then Some hosts
  else
    match fuel with
    | O => None
    | S fuel =>
        let id := "host-auto-" +:+ Itoa nextIndex in
        add_hosts fuel cores memoryGB target (nextIndex + 1)
          (match hosts !! id with
           | Some _ => hosts
           | None => <[id := NewHost id cores memoryGB]> hosts
           end)
    end.
(** [order] starts with the host the map iteration yields first; the loop needs
    at most [targetCount] iterations. *)
Definition ResourceManager_ScaleOutHosts (order : list string) (targetCount : Z)
    (m : ResourceManager) : option (go ResourceManager) :=
  let current := Z.of_nat (size (mg_hosts m)) in
  if targetCount <=? current then Some (Ok m)
  else if current =? 0 then
    Some (Fail "cannot scale out hosts: no existing hosts to copy capacity from")
  else
    match visit order (mg_hosts m) with
    | [] => Some (Fail "cannot scale out hosts: template host not found")
    | (_, template) :: _ =>
        match add_hosts (Z.to_nat targetCount) (h_cpuCores template) (h_memoryGB template)
                targetCount (current + 1) (mg_hosts m) with
        | Some hosts => Some (Ok (m <| mg_hosts := hosts |>))
        | None => None
        end
    end.
Definition ResourceManager_IncreaseHostCapacity (cpuDelta memoryGBDelta : Z) (m : ResourceManager)
    : ResourceManager :=
  if (cpuDelta <=? 0) && (memoryGBDelta <=? 0) then m
  else
    m <| mg_hosts := (λ h,
      let h := if 0 <? cpuDelta then Host_SetCPUCores (wrap64 (h_cpuCores h + cpuDelta)) h else h in
      if 0 <? memoryGBDelta then Host_SetMemoryGB (wrap64 (h_memoryGB h + memoryGBDelta)) h else h)
      <$> mg_hosts m |>.

Fixpoint drop_chars (n : nat) (s : string) : string :=
  match n, s with S n, String _ s => drop_chars n s | _, _ => s end.
Definition auto_number (hostID : string) : Z := default 0 (Atoi (drop_chars 10 hostID)).
(** The hosts without instances in the order in which they are removed. *)
Definition scale_in_candidates (order : list string) (m : ResourceManager) : list string :=
  let empty :=
    filter (λ id, default [] (mg_hostToInstances m !! id) = []) (fst <$> visit order (mg_hosts m)) in
  let autoEmpty := filter (λ id, HasPrefix id "host-auto-" = true) empty in
  let otherEmpty := filter (λ id, HasPrefix id "host-auto-" = false) empty in
  sort_SliceStable (λ a b, auto_number b <? auto_number a) autoEmpty ++ otherEmpty.
Definition ResourceManager_ScaleInHosts (order : list string) (targetCount : Z)
    (m : ResourceManager) : go ResourceManager :=
  let current := Z.of_nat (size (mg_hosts m)) in
  if current <=? targetCount then Ok m
  else
    let targetCount := if targetCount <? 1 then 1 else targetCount in
    if current <=? 1 then Ok m
    else
      let candidates := scale_in_candidates order m in
      let toRemove := current - targetCount in
      if toRemove <=? 0 then Ok m
      else if len candidates <? toRemove then
        Fail ("cannot scale in to " +:+ Itoa targetCount +:+ " hosts: only "
              +:+ Itoa (len candidates) +:+ " empty host(s) available")
      else
        Ok (foldl (λ m id, m <| mg_hosts := delete id (mg_hosts m) |>
                             <| mg_hostToInstances := delete id (mg_hostToInstances m) |>)
              m (take (Z.to_nat toRemove) candidates)).

Definition clamp1 (z : Z) : Z := if z <? 1 then 1 else z.
Definition check_decrease (cpuDelta memoryGBDelta : Z) (m : ResourceManager)
    (kv : string * Host) : go unit :=
  let '(hostID, host) := kv in
  let instances := ResourceManager_collectInstancesForHost hostID m in
  let newCores := clamp1 (wrap64 (h_cpuCores host + cpuDelta)) in
  let newMemGB := clamp1 (wrap64 (h_memoryGB host + memoryGBDelta)) in
  fail_if (fltb (fadd (f64_of_Z newCores) cpu_eps) (reserved_cpu instances))
    ("cannot decrease host capacity: host " +:+ hostID +:+ " allocated CPU cores would exceed new capacity") ;;!
  fail_if (fltb (fadd (fmul (f64_of_Z newMemGB) (f64_of_Z 1024)) mem_eps) (reserved_mem instances))
    ("cannot decrease host capacity: host " +:+ hostID +:+ " allocated MB would exceed new memory capacity").
Definition ResourceManager_DecreaseHostCapacity (order : list string) (cpuDelta memoryGBDelta : Z)
    (m : ResourceManager) : go ResourceManager :=
  if (0 <=? cpuDelta) && (0 <=? memoryGBDelta) then Ok m
  else
    go_each (check_decrease cpuDelta memoryGBDelta m) (visit order (mg_hosts m)) ;;!
    Ok (m <| mg_hosts := (λ h,
      let h := if cpuDelta <? 0
               then Host_SetCPUCores (clamp1 (wrap64 (h_cpuCores h + cpuDelta))) h else h in
      if memoryGBDelta <? 0
      then Host_SetMemoryGB (clamp1 (wrap64 (h_memoryGB h + memoryGBDelta))) h else h)
      <$> mg_hosts m |>).

(** * Vertical scaling *)

(** The checks of a smaller size against the live usage of one instance. *)
Definition check_downsize (cpuCores memoryMB headroom : float64) (inst : ServiceInstance) : go unit :=
  fail_if (fltb f0 cpuCores && fltb (fadd cpuCores cpu_eps) (si_cpuCores inst)
           && (negb (si_activeRequests inst =? 0) || negb (ServiceInstance_QueueLength inst =? 0)))
    ("cannot decrease CPU for instance " +:+ si_id inst
     +:+ " while it has active requests or queued work") ;;!
  fail_if (fltb f0 memoryMB && fltb (fadd memoryMB cpu_eps) (si_memoryMB inst)
           && fltb (fadd memoryMB cpu_eps) (fadd (si_activeMemoryMB inst) headroom))
    ("cannot decrease memory for instance " +:+ si_id inst
     +:+ ": proposed MB is below active usage plus headroom").
(** An instance of the service with the proposed sizes; 0 leaves a size alone. *)
Definition resized (serviceID : string) (cpuCores memoryMB : float64) (inst : ServiceInstance)
    : float64 * float64 :=
  if String.eqb (si_serviceName inst) serviceID then
    (if fltb f0 cpuCores then cpuCores else si_cpuCores inst,
     if fltb f0 memoryMB then memoryMB else si_memoryMB inst)
  else (si_cpuCores inst, si_memoryMB inst).
Definition check_resize_host (serviceID : string) (cpuCores memoryMB : float64)
    (m : ResourceManager) (kv : string * Host) : go unit :=
  let '(hostID, host) := kv in
  match ResourceManager_collectInstancesForHost hostID m with
  | [] => Ok tt
  | hostInstances =>
      let sizes := resized serviceID cpuCores memoryMB <$> hostInstances in
      let totalCPU := foldl (λ s p, fadd s (fst p)) f0 sizes in
      let totalMemMB := foldl (λ s p, fadd s (snd p)) f0 sizes in
      fail_if ((0 <? h_cpuCores host) && fltb (fadd (f64_of_Z (h_cpuCores host)) cpu_eps) totalCPU)
        ("host CPU capacity exceeded on " +:+ hostID) ;;!
      fail_if ((0 <? h_memoryGB host)
               && fltb (fadd (fmul (f64_of_Z (h_memoryGB host)) (f64_of_Z 1024)) mem_eps) totalMemMB)
        ("host memory capacity exceeded on " +:+ hostID)
  end.
Definition resize_instance (cpuCores memoryMB : float64) (inst : ServiceInstance)
    : ServiceInstance :=
  let inst := if fltb f0 cpuCores then ServiceInstance_SetCPUCores cpuCores inst else inst in
  if fltb f0 memoryMB then ServiceInstance_SetMemoryMB memoryMB inst else inst.
Definition ResourceManager_UpdateServiceResourcesWithHeadroom (iorder horder : list string)
    (serviceID : string) (cpuCores memoryMB memoryHeadroomMB : float64) (m : ResourceManager)
    : go ResourceManager :=
  if fltb cpuCores f0 || fltb memoryMB f0 then Fail "cpu_cores and memory_mb must be non-negative"
  else
    let instances :=
      filter (λ kv, si_serviceName (snd kv) = serviceID) (visit iorder (mg_instances m)) in
    match instances with
    | [] => Fail ("service not found: " +:+ serviceID)
    | _ =>
        let headroom :=
          if fleb memoryHeadroomMB f0 then DefaultMemoryDownsizeHeadroomMB else memoryHeadroomMB in
        go_each (λ kv, check_downsize cpuCores memoryMB headroom (snd kv)) instances ;;!
        go_each (check_resize_host serviceID cpuCores memoryMB m) (visit horder (mg_hosts m)) ;;!
        Ok (foldl (λ m kv, update_instance (fst kv) (resize_instance cpuCores memoryMB) m)
              m instances)
    end.
Definition ResourceManager_UpdateServiceResources (iorder horder : list string)
    (serviceID : string) (cpuCores memoryMB : float64) (m : ResourceManager) : go ResourceManager :=
  ResourceManager_UpdateServiceResourcesWithHeadroom iorder horder serviceID cpuCores memoryMB f0 m.
Definition ResourceManager_ListServiceIDs (m : ResourceManager) : list string :=
  sort_SliceStable string_ltb (remove_dups (si_serviceName ∘ snd <$> map_to_list (mg_instances m))).

(** * Work on one instance *)

Definition instance_not_found (id : string) : string := "instance not found: " +:+ id.
Definition ResourceManager_ReserveCPUWork (instanceID : string) (arrivalTime : Time)
    (cpuDemandMs : float64) (m : ResourceManager) : go (Time * Time * ResourceManager) :=
  match mg_instances m !! instanceID with
  | None => Fail (instance_not_found instanceID)
  | Some inst =>
      let '(cpuStart, cpuEnd, inst) := ServiceInstance_ReserveCPUWork arrivalTime cpuDemandMs inst in
      Ok (cpuStart, cpuEnd, m <| mg_instances := <[instanceID := inst]> (mg_instances m) |>)
  end.
Definition ResourceManager_ReserveDBWork (instanceID : string) (arrivalAfterCPU : Time)
    (ioDurMs : float64) (maxSlots : Z) (m : ResourceManager)
    : go (Time * Time * Z * float64 * ResourceManager) :=
  match mg_instances m !! instanceID with
  | None => Fail (instance_not_found instanceID)
  | Some inst =>
      let '(ioStart, ioEnd, slotIdx, waitMs, inst) :=
        ServiceInstance_ReserveDBWork arrivalAfterCPU ioDurMs maxSlots inst in
      Ok (ioStart, ioEnd, slotIdx, waitMs,
          m <| mg_instances := <[instanceID := inst]> (mg_instances m) |>)
  end.
Definition ResourceManager_ReleaseDBConnection (instanceID : string) (m : ResourceManager)
    : ResourceManager := update_instance instanceID ServiceInstance_ReleaseDBConnection m.
Definition ResourceManager_RollbackCPUTailReservation (instanceID : string)
    (cpuStart cpuEnd : Time) (m : ResourceManager) : ResourceManager :=
  update_instance instanceID (ServiceInstance_RollbackCPUTailReservation cpuStart cpuEnd) m.
(** The instance and its host, both of which must be known. *)
Definition instance_and_host (instanceID : string) (m : ResourceManager)
    : go (ServiceInstance * Host) :=
  match mg_instances m !! instanceID with
  | None => Fail (instance_not_found instanceID)
  | Some inst =>
      match mg_hosts m !! si_hostID inst with
      | None => Fail ("host not found: " +:+ si_hostID inst)
      | Some host => Ok (inst, host)
      end
  end.
Definition ResourceManager_AllocateCPU (now : Time) (instanceID : string) (cpuTimeMs : float64)
    (simTime : Time) (m : ResourceManager) : go ResourceManager :=
  let! ih := instance_and_host instanceID m in
  let hostID := si_hostID (fst ih) in
  let m := update_instance instanceID (ServiceInstance_AllocateCPU cpuTimeMs simTime) m in
  Ok (ResourceManager_updateHostCPUUtilizationWithData now hostID
        (ResourceManager_collectInstancesForHost hostID m) simTime m).
Definition ResourceManager_ReleaseCPU (now : Time) (instanceID : string) (cpuTimeMs : float64)
    (simTime : Time) (m : ResourceManager) : ResourceManager :=
  match instance_and_host instanceID m with
  | Ok ih =>
      let hostID := si_hostID (fst ih) in
      let m := update_instance instanceID (ServiceInstance_ReleaseCPU cpuTimeMs simTime) m in
      ResourceManager_updateHostCPUUtilizationWithData now hostID
        (ResourceManager_collectInstancesForHost hostID m) simTime m
  | _ => m
  end.
Definition ErrHostMemoryCapacity : string := "host memory at capacity".
Definition ResourceManager_AllocateMemory (instanceID : string) (memoryMB : float64)
    (m : ResourceManager) : go ResourceManager :=
  let! ih := instance_and_host instanceID m in
  let host := snd ih in
  let hostID := si_hostID (fst ih) in
  if (0 <? h_memoryGB host)
     && fltb f1 (fadd (h_memoryUtilization host)
                  (fdiv (fdiv memoryMB (f64_of_Z 1024)) (f64_of_Z (h_memoryGB host))))
  then Fail ErrHostMemoryCapacity
  else
    let m := update_instance instanceID (ServiceInstance_AllocateMemory memoryMB) m in
    Ok (ResourceManager_updateHostMemoryUtilizationWithData hostID
          (ResourceManager_collectInstancesForHost hostID m) m).
Definition ResourceManager_ReleaseMemory (instanceID : string) (memoryMB : float64)
    (m : ResourceManager) : ResourceManager :=
  match instance_and_host instanceID m with
  | Ok ih =>
      let hostID := si_hostID (fst ih) in
      let m := update_instance instanceID (ServiceInstance_ReleaseMemory memoryMB) m in
      ResourceManager_updateHostMemoryUtilizationWithData hostID
        (ResourceManager_collectInstancesForHost hostID m) m
  | _ => m
  end.
Definition ResourceManager_EnqueueRequest (instanceID requestID : string) (m : ResourceManager)
    : go ResourceManager :=
  match mg_instances m !! instanceID with
  | None => Fail (instance_not_found instanceID)
  | Some _ => Ok (update_instance instanceID (ServiceInstance_EnqueueRequest requestID) m)
  end.
Definition ResourceManager_DequeueRequest (instanceID : string) (m : ResourceManager)
    : option string * ResourceManager :=
  match mg_instances m !! instanceID with
  | None => (None, m)
  | Some inst =>
      let '(r, inst) := ServiceInstance_DequeueRequest inst in
      (r, m <| mg_instances := <[instanceID := inst]> (mg_instances m) |>)
  end.
Definition ResourceManager_GetQueueLength (instanceID : string) (m : ResourceManager) : Z :=
  from_option ServiceInstance_QueueLength 0 (mg_instances m !! instanceID).
Definition ResourceManager_GetHostUtilization (hostID : string) (m : ResourceManager)
    : option (float64 * float64) :=
  (λ h, (h_cpuUtilization h, h_memoryUtilization h)) <$> mg_hosts m !! hostID.
Definition ResourceManager_GetInstanceUtilization (now : Time) (instanceID : string)
    (m : ResourceManager) : option (float64 * float64) :=
  (λ i, (ServiceInstance_CPUUtilization now i, ServiceInstance_MemoryUtilization i))
    <$> mg_instances m !! instanceID.

(** * Brokers *)

Definition ResourceManager_GetBrokerQueue (brokerID topic : string) (eff : option QueueBehavior)
    (m : ResourceManager) : BrokerQueueShard * ResourceManager :=
  let '(s, bq) := BrokerQueues_GetOrCreateShard brokerID topic eff (mg_brokerQueues m) in
  (s, m <| mg_brokerQueues := bq |>).
Definition ResourceManager_GetBrokerTopicSubscriberPartitionShard (brokerID topicPath : string)
    (partition : Z) (consumerGroup : string) (topicEff : option TopicBehavior)
    (sub : option TopicSubscriber) (m : ResourceManager) : BrokerQueueShard * ResourceManager :=
  let '(s, bq) := BrokerQueues_GetOrCreateTopicSubscriberPartitionShard brokerID topicPath
                    partition consumerGroup topicEff sub (mg_brokerQueues m) in
  (s, m <| mg_brokerQueues := bq |>).

Definition ResourceManager_GetBrokerTopicSubscriberShard (brokerID topicPath consumerGroup : string)
    (topicEff : option TopicBehavior) (sub : option TopicSubscriber) (m : ResourceManager)
    : BrokerQueueShard * ResourceManager :=
  ResourceManager_GetBrokerTopicSubscriberPartitionShard brokerID topicPath 0 consumerGroup
    topicEff sub m.
Definition ResourceManager_QueueBrokerHealthSnapshots (order : list string) (now : Time)
    (m : ResourceManager) : list QueueBrokerHealthSnapshot :=
  BrokerQueues_QueueHealthSnapshots order now (mg_brokerQueues m).
Definition ResourceManager_TopicBrokerHealthSnapshots (order : list string) (now : Time)
    (m : ResourceManager) : list TopicBrokerHealthSnapshot :=
  BrokerQueues_TopicHealthSnapshots order now (mg_brokerQueues m).

(** * Placement snapshots *)

Definition safeInt32FromInt (v : Z) : Z :=
  if 2 ^ 31 - 1 <? v then 2 ^ 31 - 1 else if v <? - (2 ^ 31 - 1) - 1 then - (2 ^ 31 - 1) - 1 else v.
Record InstancePlacement := mkPlacementRow {
  ip_InstanceID : string;
  ip_ServiceID : string;
  ip_HostID : string;
  ip_HostZone : string;
  ip_HostLabels : gmap string string;
  ip_Lifecycle : string;
  ip_CPUCores : float64;
  ip_MemoryMB : float64;
  ip_CPUUtilization : float64;
  ip_MemoryUtilization : float64;
  ip_ActiveRequests : Z;
  ip_QueueLength : Z;
}.
Definition placement_less (a b : string * ServiceInstance) : bool :=
  if negb (String.eqb (si_hostID (snd a)) (si_hostID (snd b)))
  then string_ltb (si_hostID (snd a)) (si_hostID (snd b))
  else string_ltb (fst a) (fst b).
Definition ResourceManager_GetInstancePlacements (now simTime : Time) (m : ResourceManager)
    : list InstancePlacement :=
  let simTime := if IsZero simTime then now else simTime in
  (λ r,
    let inst := snd r in
    let host := mg_hosts m !! si_hostID inst in
    mkPlacementRow (fst r) (si_serviceName inst) (si_hostID inst)
      (from_option h_zone "" host) (from_option h_labels ∅ host)
      (if is_draining inst then "DRAINING" else "ACTIVE")
      (si_cpuCores inst) (si_memoryMB inst) (ServiceInstance_CPUUtilizationAt simTime inst)
      (ServiceInstance_MemoryUtilization inst) (safeInt32FromInt (si_activeRequests inst))
      (safeInt32FromInt (ServiceInstance_QueueLength inst)))
    <$> sort_SliceStable placement_less (map_to_list (mg_instances m)).

(** * Instance names *)

Definition dash : ascii := "-"%char.
Fixpoint no_dash (s : string) : bool :=
  match s with EmptyString => true | String c s => negb (Ascii.eqb c dash) && no_dash s end.
(** What follows the last dash. *)
Fixpoint after_dash (s : string) : option string :=
  match s with
  | EmptyString => None
  | String c s =>
      match after_dash s with
      | Some r => Some r
      | None => if Ascii.eqb c dash then Some s else None
      end
  end.
Lemma after_dash_none d : no_dash d = true → after_dash d = None.
Proof.
  induction d as [|c d IH]; simpl; [done|]. intros [Hc Hd]%andb_true_iff. rewrite IH by done.
  by destruct (Ascii.eqb c dash).
Qed.
Lemma after_dash_app s d : no_dash d = true → after_dash (s +:+ "-instance-" +:+ d) = Some d.
Proof.
  intros Hd. induction s as [|c s IH]; simpl; [by rewrite after_dash_none|by rewrite IH].
Qed.
Lemma no_dash_N_char n : negb (Ascii.eqb (pretty_N_char n) dash) = true.
Proof. unfold pretty_N_char. by repeat case_match. Qed.
Lemma no_dash_N_go x : ∀ s, no_dash s = true → no_dash (pretty_N_go x s) = true.
Proof.
  induction (N.lt_wf_0 x) as [x _ IH]. intros s Hs.
  destruct (decide (0 < x)%N) as [Hx|Hx].
  - rewrite pretty_N_go_step by done. apply IH; [apply N.div_lt; lia|]. simpl.
    by rewrite no_dash_N_char.
  - assert (x = 0%N) as -> by lia. by rewrite pretty_N_go_0.
Qed.
Lemma no_dash_Itoa n : 0 ≤ n → no_dash (Itoa n) = true.
Proof.
  intros Hn. destruct n as [|p|p]; [done| |lia]. change (no_dash (pretty (N.pos p)) = true).
  unfold pretty, pretty_N. case_decide; [done|]. by apply no_dash_N_go.
Qed.
Lemma instance_name_inj s1 n1 s2 n2 :
  0 ≤ n1 → 0 ≤ n2 → instance_name s1 n1 = instance_name s2 n2 → n1 = n2.
Proof.
  intros H1 H2 E. apply (f_equal after_dash) in E. unfold instance_name in E.
  rewrite !after_dash_app in E by (by apply no_dash_Itoa). injection E as E. by apply (inj pretty) in E.
Qed.
