(* ===== verification/Routing.v ===== *)
(** [internal/resource/routing.go]: selection of an instance for a request under
    a routing policy. A metadata value is used only through its [fmt.Sprint]
    text, which is what the map of a request holds here (a nil map is empty).
    [intn n] is the draw of the manager's random generator in [0, n). *)
From S2P Require Import Prelude GoFloat Utils Policy Config BrokerQueue Instance ResourceManager.
From Stdlib Require Import SpecFloat.
#[local] Open Scope string_scope.
#[local] Open Scope list_scope.
#[local] Open Scope Z_scope.

Definition RoutingRoundRobin : string := "round_robin".
Definition RoutingRandom : string := "random".
Definition RoutingLeastConnections : string := "least_connections".
Definition RoutingLeastQueue : string := "least_queue".
Definition RoutingLeastCPU : string := "least_cpu".
Definition RoutingWeightedRR : string := "weighted_round_robin".
Definition RoutingSticky : string := "sticky".
Definition weightedWheelScale : Z := 1000.

(** The fields of [models.Request] that routing reads. *)
Record RouteRequest := mkRouteRequest {
  rq_Endpoint : string;
  rq_Metadata : gmap string string;
}.

Definition normalizeRoutingStrategy (s : string) : string :=
  let s := norm s in if String.eqb s "" then RoutingRoundRobin else s.
Definition ResourceManager_routingPolicyForRequestLocked (serviceName : string)
    (req : option RouteRequest) (m : ResourceManager) : option RoutingPolicy :=
  let epPol :=
    match req with
    | Some req => mg_endpointRouting m !! (serviceName +:+ ":" +:+ rq_Endpoint req)
    | None => None
    end in
  match epPol with
  | Some p => Some p
  | None => mg_serviceRouting m !! serviceName
  end.
(** The zone a request asks for, if it asks for one. *)
Definition requested_zone (pol : option RoutingPolicy) (req : option RouteRequest) : option string :=
  match pol, req with
  | Some pol, Some req =>
      let key := TrimSpace (rt_LocalityZoneFrom pol) in
      if String.eqb key "" then None
      else
        match rq_Metadata req !! key with
        | None => None
        | Some raw =>
            let targetZone := TrimSpace raw in
            if String.eqb targetZone "" then None else Some targetZone
        end
  | _, _ => None
  end.
Definition in_zone (targetZone : string) (m : ResourceManager) (id : string) : bool :=
  match mg_instances m !! id with
  | None => false
  | Some inst =>
      match mg_hosts m !! si_hostID inst with
      | None => false
      | Some h => EqualFold (TrimSpace (h_zone h)) targetZone
      end
  end.
Definition ResourceManager_applyLocalityPreferenceLocked (instances : list string)
    (pol : option RoutingPolicy) (req : option RouteRequest) (m : ResourceManager) : list string :=
  match requested_zone pol req with
  | None => instances
  | Some targetZone =>
      let preferred := filter (λ id, in_zone targetZone m id = true) instances in
      match preferred with [] => instances | _ => preferred end
  end.

Definition ResourceManager_selectRoundRobinLocked (serviceName : string) (instances : list string)
    (m : ResourceManager) : go (string * ResourceManager) :=
  let idx := default 0 (mg_roundRobinIdx m !! serviceName) in
  let idx := if len instances <=? idx then 0 else idx in
  let! selected := index instances idx in
  Ok (selected,
      m <| mg_roundRobinIdx :=
        <[serviceName := Z.rem (idx + 1) (len instances)]> (mg_roundRobinIdx m) |>).
Definition weightedWheelSlots (w : float64) : Z :=
  if fleb w f0 then 0
  else
    let slots := f64_to_int (fadd (fmul w (f64_of_Z weightedWheelScale)) (f64_lit 1 2)) in
    if slots <? 1 then 1 else slots.

(** The first element with the least value, as the loops over instances find it. *)
Fixpoint scan_min {A V} (lt : V → V → bool) (val : A → V) (best : A) (bestVal : V) (l : list A) : A :=
  match l with
  | [] => best
  | x :: l =>
      let v := val x in
      if lt v bestVal then scan_min lt val x v l else scan_min lt val best bestVal l
  end.
Definition select_min {V} (lt : V → V → bool) (val : string → V) (instances : list string)
    : go string :=
  match instances with [] => Panic | x :: rest => Ok (scan_min lt val x (val x) rest) end.
Definition active_requests (m : ResourceManager) (id : string) : Z :=
  from_option si_activeRequests 0 (mg_instances m !! id).
Definition queue_length (m : ResourceManager) (id : string) : Z :=
  from_option ServiceInstance_QueueLength 0 (mg_instances m !! id).
Definition cpu_util_at (simTime : Time) (m : ResourceManager) (id : string) : float64 :=
  from_option (ServiceInstance_CPUUtilizationAt simTime) f0 (mg_instances m !! id).

(** The weight of an instance, and the cumulative slots of the wheel. *)
Definition weight_of (pol : option RoutingPolicy) (id : string) : float64 :=
  match pol with Some p => default f1 (rt_Weights p !! id) | None => f1 end.
Fixpoint wheel_cum (total : Z) (slots : list Z) : list Z :=
  match slots with
  | [] => []
  | wi :: slots => let total := wrap64 (total + wi) in total :: wheel_cum total slots
  end.
Fixpoint wheel_pick (cursor : Z) (cum : list Z) (instances : list string) : option string :=
  match cum, instances with
  | c :: cum, x :: instances => if cursor <? c then Some x else wheel_pick cursor cum instances
  | _, _ => None
  end.

(** FNV-1a on 64 bits, over the bytes of the text. *)
Definition fnv64a (s : string) : Z :=
  foldl (λ h c, (Z.lxor h (Z.of_N (N_of_ascii c)) * 1099511628211) mod 2 ^ 64)
    14695981039346656037 (String.list_ascii_of_string s).

(** The fallback of the other strategies. *)
Definition route_round_robin (serviceName : string) (instances : list string) (m : ResourceManager)
    : go (string * string * ResourceManager) :=
  let! r := ResourceManager_selectRoundRobinLocked serviceName instances m in
  Ok (fst r, RoutingRoundRobin, snd r).
Definition route_weighted (serviceName : string) (pol : option RoutingPolicy)
    (instances : list string) (m : ResourceManager) : go (string * string * ResourceManager) :=
  let cum := wheel_cum 0 ((λ id, weightedWheelSlots (weight_of pol id)) <$> instances) in
  let total := default 0 (last cum) in
  if total <=? 0 then route_round_robin serviceName instances m
  else
    let cursor := Z.rem (default 0 (mg_weightedRoundRobinIdx m !! serviceName)) total in
    let m := m <| mg_weightedRoundRobinIdx :=
               <[serviceName := Z.rem (cursor + 1) total]> (mg_weightedRoundRobinIdx m) |> in
    match wheel_pick cursor cum instances with
    | Some x => Ok (x, RoutingWeightedRR, m)
    | None => let! x := index instances (len instances - 1) in Ok (x, RoutingWeightedRR, m)
    end.
Definition route_sticky (serviceName : string) (pol : option RoutingPolicy)
    (req : option RouteRequest) (instances : list string) (m : ResourceManager)
    : go (string * string * ResourceManager) :=
  match pol, req with
  | Some pol, Some req =>
      let key := TrimSpace (rt_StickyKeyFrom pol) in
      if String.eqb key "" then route_round_robin serviceName instances m
      else
        match rq_Metadata req !! key with
        | None => route_round_robin serviceName instances m
        | Some v =>
            let idx64 := fnv64a v mod len instances in
            match instances !! Z.to_nat idx64 with
            | Some inst => Ok (inst, RoutingSticky, m)
            | None => let! x := index instances 0 in Ok (x, RoutingSticky, m)
            end
        end
  | _, _ => route_round_robin serviceName instances m
  end.
Definition ResourceManager_SelectInstanceForRequest (intn : Z → Z) (serviceName : string)
    (req : option RouteRequest) (simTime : Time) (m : ResourceManager)
    : go (string * string * ResourceManager) :=
  match default [] (mg_sortedServiceInstMap m !! serviceName) with
  | [] => Fail ("no instances available for service " +:+ serviceName)
  | instances =>
      let pol := ResourceManager_routingPolicyForRequestLocked serviceName req m in
      let instances := ResourceManager_applyLocalityPreferenceLocked instances pol req m in
      let strategy :=
        match pol with
        | Some p => normalizeRoutingStrategy (rt_Strategy p)
        | None => RoutingRoundRobin
        end in
      let keep (r : go string) := let! x := r in Ok (x, strategy, m) in
      if String.eqb strategy RoutingRoundRobin then route_round_robin serviceName instances m
      else if String.eqb strategy RoutingRandom then keep (index instances (intn (len instances)))
      else if String.eqb strategy RoutingLeastConnections then
        keep (select_min Z.ltb (active_requests m) instances)
      else if String.eqb strategy RoutingLeastQueue then
        keep (select_min Z.ltb (queue_length m) instances)
      else if String.eqb strategy RoutingLeastCPU then
        keep (select_min fltb (cpu_util_at simTime m) instances)
      else if String.eqb strategy RoutingWeightedRR then route_weighted serviceName pol instances m
      else if String.eqb strategy RoutingSticky then route_sticky serviceName pol req instances m
      else Fail ("unsupported routing strategy " +:+ Quote strategy +:+ " for service "
                 +:+ serviceName)
  end.
