(* ===== verification/Collector.v ===== *)
(** [internal/metrics/collector.go] and the label helpers of
    [internal/metrics/helpers.go] and [origin.go]: the metrics collector, a map from
    metric name and label set to a bounded series with streaming aggregation. *)
From S2P Require Import Prelude GoFloat Utils Config ResourceManager.
From Stdlib Require Import SpecFloat.
#[local] Open Scope string_scope.
#[local] Open Scope list_scope.
#[local] Open Scope Z_scope.

(** * Data *)

Abbreviation Labels := (gmap string string) (only parsing).
Record MetricPoint := mkMetricPoint {
  mp_Timestamp : Time;
  mp_Name : string;
  mp_Value : float64;
  mp_Labels : Labels;
}.
Record Aggregation := mkAggregation {
  ag_Count : Z;
  ag_Sum : float64;
  ag_Min : float64;
  ag_Max : float64;
  ag_Mean : float64;
  ag_P50 : float64;
  ag_P95 : float64;
  ag_P99 : float64;
}.
#[export] Instance eta_Aggregation : Eta Aggregation := λ r, mkAggregation (ag_Count r) (ag_Sum r)
  (ag_Min r) (ag_Max r) (ag_Mean r) (ag_P50 r) (ag_P95 r) (ag_P99 r).
Record metricSeries := mkSeries {
  ms_labels : Labels;
  ms_points : list MetricPoint;
  ms_maxPoints : Z;
  ms_reservoir : list float64;
  ms_maxResSize : Z;
  ms_seenValues : Z;
  ms_agg : Aggregation;
  ms_dirtyPct : bool;
}.
#[export] Instance eta_metricSeries : Eta metricSeries := λ r, mkSeries (ms_labels r) (ms_points r)
  (ms_maxPoints r) (ms_reservoir r) (ms_maxResSize r) (ms_seenValues r) (ms_agg r) (ms_dirtyPct r).
(** The two limit callbacks are present or nil; what they are called with is a
    result of [Record]. *)
Record Collector := mkCollector {
  col_startTime : Time;
  col_endTime : Time;
  col_series : gmap string (gmap string metricSeries);
  col_maxSeriesPoints : Z;
  col_maxReservoir : Z;
  col_maxSeries : Z;
  col_totalPoints : Z;
  col_totalSeries : Z;
  col_maxPoints : Z;
  col_onLimit : bool;
  col_onLimitWithName : bool;
}.
#[export] Instance eta_Collector : Eta Collector := λ r, mkCollector (col_startTime r) (col_endTime r)
  (col_series r) (col_maxSeriesPoints r) (col_maxReservoir r) (col_maxSeries r) (col_totalPoints r)
  (col_totalSeries r) (col_maxPoints r) (col_onLimit r) (col_onLimitWithName r).
Inductive CollectorCallback :=
  | OnLimit (currentCount max : Z)
  | OnLimitWithName (limit : string) (currentCount max : Z).

(** * A series *)

Definition newMetricSeries (labels : Labels) (maxSeriesPoints maxReservoir : Z) : metricSeries :=
  mkSeries labels [] maxSeriesPoints [] maxReservoir 0 (mkAggregation 0 f0 f0 f0 f0 f0 f0 f0) false.
(** The elements at even indices. *)
Fixpoint every_other {A} (l : list A) : list A :=
  match l with
  | x :: _ :: l => x :: every_other l
  | l => l
  end.
Definition metricSeries_addPoint (point : MetricPoint) (s : metricSeries) : metricSeries :=
  let points := ms_points s ++ [point] in
  s <| ms_points := if ms_maxPoints s <? Z.of_nat (length points) then every_other points else points |>.
Definition aggregation_add (value : float64) (a : Aggregation) : Aggregation :=
  let min := if ag_Count a =? 0 then value else if fltb value (ag_Min a) then value else ag_Min a in
  let max := if ag_Count a =? 0 then value else if fltb (ag_Max a) value then value else ag_Max a in
  let count := wrap64 (ag_Count a + 1) in
  let sum := fadd (ag_Sum a) value in
  mkAggregation count sum min max (fdiv sum (f64_of_Z count)) (ag_P50 a) (ag_P95 a) (ag_P99 a).
Definition reservoir_add (maxResSize seen : Z) (value : float64) (reservoir : list float64) : list float64 :=
  if Z.of_nat (length reservoir) <? maxResSize then reservoir ++ [value]
  else if 0 <? maxResSize then
    let idx := Z.rem (wrap64 (seen * 1103515245)) maxResSize in
    if (0 <=? idx) && (idx <? Z.of_nat (length reservoir))
    then <[Z.to_nat idx := value]> reservoir else reservoir
  else reservoir.
Definition metricSeries_addValue (value : float64) (s : metricSeries) : metricSeries :=
  let seen := wrap64 (ms_seenValues s + 1) in
  s <| ms_seenValues := seen |>
    <| ms_agg := aggregation_add value (ms_agg s) |>
    <| ms_reservoir := reservoir_add (ms_maxResSize s) seen value (ms_reservoir s) |>
    <| ms_dirtyPct := true |>.
Definition calculatePercentile (sortedValues : list float64) (p : float64) : go float64 :=
  let n := Z.of_nat (length sortedValues) in
  if n =? 0 then Ok f0
  else if n =? 1 then index sortedValues 0
  else
    let idx := fmul p (f64_of_Z (n - 1)) in
    let lower := f64_to_int idx in
    let upper := wrap64 (lower + 1) in
    if n <=? upper then index sortedValues (n - 1)
    else
      let weight := fsub idx (f64_of_Z lower) in
      let! a := index sortedValues lower in
      let! b := index sortedValues upper in
      Ok (fadd (fmul a (fsub f1 weight)) (fmul b weight)).
Definition metricSeries_updatePercentiles (s : metricSeries) : go metricSeries :=
  match ms_reservoir s with
  | [] => Ok (s <| ms_agg := (ms_agg s) <| ag_P50 := f0 |> <| ag_P95 := f0 |> <| ag_P99 := f0 |> |>)
  | reservoir =>
      let vals := sort_Float64s reservoir in
      let! p50 := calculatePercentile vals (f64_lit 1 2) in
      let! p95 := calculatePercentile vals (f64_lit 95 100) in
      let! p99 := calculatePercentile vals (f64_lit 99 100) in
      Ok (s <| ms_agg := (ms_agg s) <| ag_P50 := p50 |> <| ag_P95 := p95 |> <| ag_P99 := p99 |> |>)
  end.
(** The copy and the series with its percentiles brought up to date. *)
Definition metricSeries_aggregationCopy (s : metricSeries) : go (option Aggregation * metricSeries) :=
  if ag_Count (ms_agg s) =? 0 then Ok (None, s)
  else
    let! s := if ms_dirtyPct s
      then let! s := metricSeries_updatePercentiles s in Ok (s <| ms_dirtyPct := false |>)
      else Ok s in
    Ok (Some (ms_agg s), s).
Definition mergeAggregations (dst src : option Aggregation) : option Aggregation :=
  match src with
  | None => dst
  | Some b =>
      if ag_Count b =? 0 then dst
      else
        match dst with
        | None => Some b
        | Some a =>
            let count := wrap64 (ag_Count a + ag_Count b) in
            let sum := fadd (ag_Sum a) (ag_Sum b) in
            let half x y := fdiv (fadd x y) (f64_of_Z 2) in
            Some (mkAggregation count sum
              (if fltb (ag_Min b) (ag_Min a) then ag_Min b else ag_Min a)
              (if fltb (ag_Max a) (ag_Max b) then ag_Max b else ag_Max a)
              (if 0 <? count then fdiv sum (f64_of_Z count) else ag_Mean a)
              (half (ag_P50 a) (ag_P50 b)) (half (ag_P95 a) (ag_P95 b)) (half (ag_P99 a) (ag_P99 b)))
        end
  end.

(** * The collector *)

(** [labelKey]: the labels in the order of their keys. *)
Definition labelKey (labels : Labels) : string :=
  foldl (λ key k, key +:+ (k +:+ "=" +:+ default "" (labels !! k) +:+ ",")) "" (sorted_keys labels).
Definition NewCollector (now : Time) (maxSeriesPoints maxReservoir maxSeries : option Z) : Collector :=
  let positive_or (o : option Z) (def : Z) :=
    match o with Some n => if n <=? 0 then def else n | None => def end in
  mkCollector now zeroTime ∅ (positive_or maxSeriesPoints 256) (positive_or maxReservoir 1024)
    (positive_or maxSeries 10000) 0 0 0 false false.
Definition Collector_Start (now : Time) (c : Collector) : Collector := c <| col_startTime := now |>.
Definition Collector_Stop (now : Time) (c : Collector) : Collector := c <| col_endTime := now |>.
Definition Collector_SetMaxPoints (max : Z) (onLimit : bool) (c : Collector) : Collector :=
  c <| col_maxPoints := max |> <| col_onLimit := onLimit |>.
Definition Collector_SetLimitCallback (onLimit : bool) (c : Collector) : Collector :=
  c <| col_onLimitWithName := onLimit |>.
Definition series_of (name : string) (c : Collector) : gmap string metricSeries :=
  default ∅ (col_series c !! name).
Definition set_series (name key : string) (s : metricSeries) (c : Collector) : Collector :=
  c <| col_series := <[name := <[key := s]> (series_of name c)]> (col_series c) |>.
Definition Collector_Record (name : string) (value : float64) (timestamp : Time) (labels : Labels)
    (c : Collector) : Collector * list CollectorCallback :=
  if (0 <? col_maxPoints c) && (col_maxPoints c <=? col_totalPoints c) then
    (c, if col_onLimit c then [OnLimit (col_totalPoints c + 1) (col_maxPoints c)] else [])
  else
    let key := labelKey labels in
    let c := c <| col_series := <[name := series_of name c]> (col_series c) |> in
    let store c s :=
      let s := metricSeries_addPoint (mkMetricPoint timestamp name value labels) s in
      let s := metricSeries_addValue value s in
      (set_series name key s c <| col_totalPoints := col_totalPoints c + 1 |>, []) in
    match series_of name c !! key with
    | Some s => store c s
    | None =>
        if (0 <? col_maxSeries c) && (col_maxSeries c <=? col_totalSeries c) then
          (c, (if col_onLimit c then [OnLimit (col_totalSeries c + 1) (col_maxSeries c)] else [])
              ++ (if col_onLimitWithName c
                  then [OnLimitWithName "max_metric_series" (col_totalSeries c + 1) (col_maxSeries c)]
                  else []))
        else
          store (c <| col_totalSeries := col_totalSeries c + 1 |>)
            (newMetricSeries labels (col_maxSeriesPoints c) (col_maxReservoir c))
    end.
Definition Collector_GetTimeSeries (name : string) (labels : Labels) (c : Collector) : list MetricPoint :=
  from_option ms_points [] (series_of name c !! labelKey labels).
Definition Collector_GetAggregation (name : string) (labels : Labels) (c : Collector)
    : go (option Aggregation * Collector) :=
  match series_of name c !! labelKey labels with
  | None => Ok (None, c)
  | Some s =>
      let! (a, s) := metricSeries_aggregationCopy s in
      Ok (a, set_series name (labelKey labels) s c)
  end.
Definition Collector_GetLastValue (name : string) (labels : Labels) (c : Collector) : option float64 :=
  mp_Value <$> last (Collector_GetTimeSeries name labels c).
Definition Collector_GetSeriesSum (name : string) (labels : Labels) (c : Collector) : option float64 :=
  match series_of name c !! labelKey labels with
  | Some s => if ag_Count (ms_agg s) =? 0 then None else Some (ag_Sum (ms_agg s))
  | None => None
  end.
(** The loops over the series of a metric; [order] is the order of the map. *)
Definition Collector_SumMetric (order : list string) (name : string) (c : Collector) : float64 :=
  foldl (λ sum s, fadd sum (ag_Sum (ms_agg s))) f0 (visit order (series_of name c)).*2.
Definition Collector_CountMetricSamples (order : list string) (name : string) (c : Collector) : Z :=
  foldl (λ n s, wrap64 (n + ag_Count (ms_agg s))) 0 (visit order (series_of name c)).*2.
Definition Collector_SumMetricWhere (order : list string) (name key value : string) (c : Collector)
    : float64 :=
  foldl (λ sum s, if String.eqb (default "" (ms_labels s !! key)) value
                  then fadd sum (ag_Sum (ms_agg s)) else sum) f0 (visit order (series_of name c)).*2.
Definition labelsMatchSubset (labels subset : Labels) : bool :=
  forallb (λ kv, String.eqb (default "" (labels !! kv.1)) kv.2) (map_to_list subset).
(** [GetOrComputeAggregationForLabelSubset] and [GetMetricAggregation]: the
    aggregations of the selected series, merged in the order of the map. *)
Fixpoint merge_selected (select : metricSeries → bool) (name : string) (keys : list string)
    (merged : option Aggregation) (c : Collector) : go (option Aggregation * Collector) :=
  match keys with
  | [] => Ok (merged, c)
  | key :: keys =>
      match series_of name c !! key with
      | Some s =>
          if select s then
            let! (a, s) := metricSeries_aggregationCopy s in
            merge_selected select name keys (mergeAggregations merged a) (set_series name key s c)
          else merge_selected select name keys merged c
      | None => merge_selected select name keys merged c
      end
  end.
Definition Collector_GetOrComputeAggregationForLabelSubset (order : list string) (name : string)
    (labelSubset : Labels) (c : Collector) : go (option Aggregation * Collector) :=
  if bool_decide (labelSubset = ∅) then Ok (None, c)
  else merge_selected (λ s, labelsMatchSubset (ms_labels s) labelSubset) name order None c.
Definition Collector_GetMetricAggregation (order : list string) (name : string) (c : Collector)
    : go (option Aggregation * Collector) :=
  merge_selected (λ _, true) name order None c.
Definition Collector_Clear (now : Time) (c : Collector) : Collector :=
  c <| col_series := ∅ |> <| col_totalPoints := 0 |> <| col_totalSeries := 0 |>
    <| col_startTime := now |> <| col_endTime := zeroTime |>.
Record CollectorSnapshot := mkCollectorSnapshot { cs_SeriesCount : Z; cs_TotalPoints : Z }.
Definition series_count (c : Collector) : Z := map_fold (λ _ m n, Z.of_nat (size m) + n) 0 (col_series c).
Definition Collector_Snapshot (c : Collector) : CollectorSnapshot :=
  mkCollectorSnapshot (series_count c) (col_totalPoints c).

(** * Labels *)

Definition CreateServiceLabels (serviceName : string) : Labels := {["service" := serviceName]}.
Definition CreateEndpointLabels (serviceName endpoint : string) : Labels :=
  <["service" := serviceName]> {["endpoint" := endpoint]}.
Definition CreateInstanceLabels (serviceName instanceID : string) : Labels :=
  <["service" := serviceName]> {["instance" := instanceID]}.
Definition CreateHostLabels (hostID : string) : Labels := {["host" := hostID]}.
Definition EndpointLabelsWithOrigin (serviceName endpointPath origin : string) : Labels :=
  let labels := CreateEndpointLabels serviceName endpointPath in
  if is_empty origin then labels else <["origin" := origin]> labels.
Definition EndpointErrorLabels (base : Labels) (reason : string) : Labels :=
  if is_empty reason then base else <["reason" := reason]> base.

(** * Series are folds over the points recorded for them *)

Definition series_add (s : metricSeries) (p : MetricPoint) : metricSeries :=
  metricSeries_addValue (mp_Value p) (metricSeries_addPoint p s).
Definition series_after (maxPoints maxRes : Z) (labels : Labels) (pts : list MetricPoint) : metricSeries :=
  foldl series_add (newMetricSeries labels maxPoints maxRes) pts.
Lemma series_after_snoc mp mr labels pts p :
  series_after mp mr labels (pts ++ [p]) = series_add (series_after mp mr labels pts) p.
Proof. unfold series_after. by rewrite foldl_app. Qed.
Lemma series_after_settings mp mr labels pts :
  let s := series_after mp mr labels pts in
  ms_maxPoints s = mp ∧ ms_maxResSize s = mr ∧ ms_labels s = labels.
Proof.
  induction pts as [|p pts IH] using rev_ind; [done|]. rewrite series_after_snoc.
  by destruct IH as (IH1 & IH2 & IH3).
Qed.

(** ** Retained points *)

Lemma every_other_sublist {A} (l : list A) : every_other l `sublist_of` l.
Proof.
  revert l. fix IH 1. intros [|x [|y l]]; [done..|]. simpl.
  apply sublist_skip, sublist_cons, IH.
Qed.
Lemma every_other_length {A} (l : list A) : (2 * length (every_other l) ≤ length l + 1)%nat.
Proof. revert l. fix IH 1. intros [|x [|y l]]; simpl; [lia..|]. specialize (IH l). lia. Qed.
Lemma every_other_head {A} (l : list A) : head (every_other l) = head l.
Proof. by destruct l as [|x [|y l]]. Qed.
Lemma series_points_sublist mp mr labels pts :
  ms_points (series_after mp mr labels pts) `sublist_of` pts.
Proof.
  induction pts as [|p pts IH] using rev_ind; [done|]. rewrite series_after_snoc. simpl.
  assert (ms_points (series_after mp mr labels pts) ++ [p] `sublist_of` pts ++ [p]) by by apply sublist_app.
  case_match; [|done]. etrans; [apply every_other_sublist|done].
Qed.
Lemma series_points_bounded mp mr labels pts :
  1 ≤ mp → Z.of_nat (length (ms_points (series_after mp mr labels pts))) ≤ mp.
Proof.
  intros Hmp. induction pts as [|p pts IH] using rev_ind; [simpl; lia|]. rewrite series_after_snoc. simpl.
  destruct (series_after_settings mp mr labels pts) as (-> & _ & _).
  case_match eqn:E; [|by apply Z.ltb_ge in E].
  pose proof (every_other_length (ms_points (series_after mp mr labels pts) ++ [p])).
  rewrite length_app in *. simpl in *. lia.
Qed.
Lemma series_points_first mp mr labels pts :
  head (ms_points (series_after mp mr labels pts)) = head pts.
Proof.
  induction pts as [|p pts IH] using rev_ind; [done|]. rewrite series_after_snoc. simpl.
  assert (head (ms_points (series_after mp mr labels pts) ++ [p]) = head (pts ++ [p])) as <-.
  { destruct (ms_points _) as [|x l], pts as [|y pts]; simpl in *; congruence. }
  case_match; [apply every_other_head|done].
Qed.

(** ** The reservoir *)

Lemma reservoir_add_bounded mr seen v l :
  Z.of_nat (length l) ≤ Z.max 0 mr → Z.of_nat (length (reservoir_add mr seen v l)) ≤ Z.max 0 mr.
Proof.
  intros H. unfold reservoir_add. destruct (Z.ltb_spec (Z.of_nat (length l)) mr).
  - rewrite length_app. simpl. lia.
  - repeat case_match; rewrite ?length_insert; done.
Qed.
Lemma series_reservoir_bounded mp mr labels pts :
  Z.of_nat (length (ms_reservoir (series_after mp mr labels pts))) ≤ Z.max 0 mr.
Proof.
  induction pts as [|p pts IH] using rev_ind; [simpl; lia|]. rewrite series_after_snoc. simpl.
  destruct (series_after_settings mp mr labels pts) as (_ & -> & _). by apply reservoir_add_bounded.
Qed.

(** ** The aggregates *)

Definition values (pts : list MetricPoint) : list float64 := mp_Value <$> pts.
Lemma series_count_sum mp mr labels pts :
  let a := ms_agg (series_after mp mr labels pts) in
  Z.of_nat (length pts) ≤ int64_max →
  ag_Count a = Z.of_nat (length pts) ∧ ag_Sum a = utils_Sum (values pts).
Proof.
  induction pts as [|p pts IH] using rev_ind; [done|]. cbv zeta in *. rewrite length_app. simpl length.
  intros Hn. destruct IH as [Ec Es]; [lia|]. rewrite series_after_snoc. simpl. rewrite Ec, Es. split.
  - rewrite wrap64_id; [lia|]. unfold in_int64, int64_min. lia.
  - unfold values, utils_Sum. by rewrite fmap_app, foldl_app.
Qed.
Definition least (m : float64) (vs : list float64) : Prop := m ∈ vs ∧ Forall (λ v, fleb m v = true) vs.
Definition greatest (m : float64) (vs : list float64) : Prop := m ∈ vs ∧ Forall (λ v, fleb v m = true) vs.
Lemma least_snoc m v vs :
  is_nan v = false → least m vs → least (if fltb v m then v else m) (vs ++ [v]).
Proof.
  intros Hv [Hin Hall]. unfold least. rewrite elem_of_app, Forall_app, Forall_singleton, list_elem_of_singleton.
  destruct (fltb v m) eqn:E.
  - split; [by right|]. split; [|by apply fleb_refl]. eapply Forall_impl; [exact Hall|]. intros x Hx. simpl in Hx.
    eapply fleb_trans; [|exact Hx]. by apply fltb_fleb.
  - split; [by left|]. split; [done|]. apply fltb_false; [done| |done].
    rewrite Forall_forall in Hall. pose proof (Hall m Hin) as (? & ? & _)%fleb_key. done.
Qed.
Lemma greatest_snoc m v vs :
  is_nan v = false → greatest m vs → greatest (if fltb m v then v else m) (vs ++ [v]).
Proof.
  intros Hv [Hin Hall]. unfold greatest. rewrite elem_of_app, Forall_app, Forall_singleton, list_elem_of_singleton.
  destruct (fltb m v) eqn:E.
  - split; [by right|]. split; [|by apply fleb_refl]. eapply Forall_impl; [exact Hall|]. intros x Hx. simpl in Hx.
    eapply fleb_trans; [exact Hx|]. by apply fltb_fleb.
  - split; [by left|]. split; [done|]. apply fltb_false; [|done..].
    rewrite Forall_forall in Hall. pose proof (Hall m Hin) as (? & ? & _)%fleb_key. done.
Qed.
Lemma series_extremes mp mr labels pts :
  let a := ms_agg (series_after mp mr labels pts) in
  Z.of_nat (length pts) ≤ int64_max → pts ≠ [] → Forall (λ v, is_nan v = false) (values pts) →
  least (ag_Min a) (values pts) ∧ greatest (ag_Max a) (values pts).
Proof.
  induction pts as [|p pts IH] using rev_ind; [done|]. cbv zeta in *. rewrite length_app. simpl length.
  intros Hn _ Hnan. rewrite series_after_snoc. unfold values in *.
  rewrite fmap_app in *. rewrite Forall_app in Hnan. destruct Hnan as [Hnan Hp]. change (Forall (λ v, is_nan v = false) [mp_Value p]) in Hp.
  rewrite Forall_singleton in Hp.
  destruct (series_count_sum mp mr labels pts) as [Ec _]; [lia|].
  destruct pts as [|q pts].
  - change ((mp_Value <$> []) ++ (mp_Value <$> [p])) with [mp_Value p].
    change (ag_Min _) with (mp_Value p). change (ag_Max _) with (mp_Value p).
    unfold least, greatest. rewrite !Forall_singleton, !list_elem_of_singleton. auto using fleb_refl.
  - destruct IH as [IH1 IH2]; [lia|done|done|].
    change (ms_agg (series_add ?s p)) with (aggregation_add (mp_Value p) (ms_agg s)).
    unfold aggregation_add. rewrite Ec. simpl (_ =? 0). cbn [ag_Min ag_Max].
    split; [by apply least_snoc|by apply greatest_snoc].
Qed.

(** * The collector as a map of histories *)

Definition record_point (p : MetricPoint) (c : Collector) : Collector :=
  fst (Collector_Record (mp_Name p) (mp_Value p) (mp_Timestamp p) (mp_Labels p) c).
(** The collector after some calls of [Record], with the points it accepted. *)
Fixpoint record_all (recs : list MetricPoint) (c : Collector) : Collector * list MetricPoint :=
  match recs with
  | [] => (c, [])
  | p :: recs =>
      let c' := record_point p c in
      let '(c'', acc) := record_all recs c' in
      (c'', (if col_totalPoints c' =? col_totalPoints c then [] else [p]) ++ acc)
  end.
Definition point_key (p : MetricPoint) : string * string := (mp_Name p, labelKey (mp_Labels p)).
Definition points_for (name key : string) (pts : list MetricPoint) : list MetricPoint :=
  filter (λ p, point_key p = (name, key)) pts.
Definition series_for (mp mr : Z) (pts : list MetricPoint) : option metricSeries :=
  match pts with [] => None | p :: _ => Some (series_after mp mr (mp_Labels p) pts) end.
Definition distinct_series (pts : list MetricPoint) : gset (string * string) :=
  list_to_set (point_key <$> pts).
Record collects (c : Collector) (acc : list MetricPoint) : Prop := {
  cl_series : ∀ name key, series_of name c !! key
    = series_for (col_maxSeriesPoints c) (col_maxReservoir c) (points_for name key acc);
  cl_points : col_totalPoints c = Z.of_nat (length acc);
  cl_count : col_totalSeries c = series_count c;
  cl_distinct : col_totalSeries c = Z.of_nat (size (distinct_series acc));
  cl_max_points : 0 < col_maxPoints c → col_totalPoints c ≤ col_maxPoints c;
  cl_max_series : 0 < col_maxSeries c → col_totalSeries c ≤ col_maxSeries c;
}.
Lemma series_count_insert name m (M : gmap string (gmap string metricSeries)) :
  map_fold (λ _ m n, Z.of_nat (size m) + n) 0 (<[name := m]> M)
  = map_fold (λ _ m n, Z.of_nat (size m) + n) 0 M - Z.of_nat (size (default ∅ (M !! name)))
    + Z.of_nat (size m).
Proof.
  rewrite <- insert_delete_eq. rewrite map_fold_insert_L; [|lia|by rewrite lookup_delete_eq].
  destruct (M !! name) as [m0|] eqn:E; simpl.
  - rewrite (map_fold_delete_L _ 0 name m0 M); [lia|lia|done].
  - rewrite delete_id by done. change (size (∅ : gmap string metricSeries)) with 0%nat. lia.
Qed.
(** The counts of a collector whose inner map for [name] becomes [m]. *)
Lemma series_of_set name m c k :
  series_of k (c <| col_series := <[name := m]> (col_series c) |>)
  = if decide (k = name) then m else series_of k c.
Proof.
  unfold series_of. simpl. destruct (decide (k = name)) as [->|Hk].
  - by rewrite lookup_insert_eq.
  - by rewrite lookup_insert_ne.
Qed.
Lemma points_for_snoc name key acc p :
  points_for name key (acc ++ [p])
  = points_for name key acc ++ (if decide (point_key p = (name, key)) then [p] else []).
Proof. unfold points_for. rewrite filter_app. f_equal. Qed.
Lemma series_for_snoc mp mr pts p :
  series_for mp mr (pts ++ [p])
  = Some (series_add (default (newMetricSeries (mp_Labels p) mp mr) (series_for mp mr pts)) p).
Proof. destruct pts as [|q pts]; [done|]. simpl. by rewrite <- series_after_snoc. Qed.
Lemma series_for_none mp mr pts : series_for mp mr pts = None ↔ pts = [].
Proof. by destruct pts. Qed.

(** One call of [Record]: it changes nothing but empty inner maps, or it adds the
    point to its series. *)
Lemma record_point_cases p c :
  let mp := col_maxSeriesPoints c in let mr := col_maxReservoir c in
  let inner := series_of (mp_Name p) c in let key := labelKey (mp_Labels p) in
  (∃ M, record_point p c = c <| col_series := M |> ∧ (M = col_series c ∨ M = <[mp_Name p := inner]> (col_series c))
        ∧ ((0 < col_maxPoints c ∧ col_maxPoints c ≤ col_totalPoints c)
           ∨ (inner !! key = None ∧ 0 < col_maxSeries c ∧ col_maxSeries c ≤ col_totalSeries c)))
  ∨ (∃ n, record_point p c
          = c <| col_series := <[mp_Name p := <[key := series_add (default (newMetricSeries (mp_Labels p) mp mr)
                                                  (inner !! key)) p]> inner]> (col_series c) |>
              <| col_totalPoints := col_totalPoints c + 1 |> <| col_totalSeries := n |>
        ∧ (col_maxPoints c ≤ 0 ∨ col_totalPoints c < col_maxPoints c)
        ∧ ((is_Some (inner !! key) ∧ n = col_totalSeries c)
           ∨ (inner !! key = None ∧ n = col_totalSeries c + 1
              ∧ (col_maxSeries c ≤ 0 ∨ col_totalSeries c < col_maxSeries c)))).
Proof.
  cbv zeta. destruct p as [t name v labels]. unfold record_point, Collector_Record.
  cbn [mp_Name mp_Value mp_Timestamp mp_Labels].
  destruct ((0 <? col_maxPoints c) && (col_maxPoints c <=? col_totalPoints c)) eqn:E1.
  { left. exists (col_series c). apply andb_true_iff in E1 as [?%Z.ltb_lt ?%Z.leb_le]. split_and!; [by destruct c|auto|auto]. }
  assert (Hp : col_maxPoints c ≤ 0 ∨ col_totalPoints c < col_maxPoints c).
  { apply andb_false_iff in E1 as [?%Z.ltb_ge|?%Z.leb_gt]; auto. }
  rewrite series_of_set. destruct (decide (name = name)) as [_|]; [|done].
  destruct (series_of name c !! labelKey labels) as [s|] eqn:Es.
  - right. exists (col_totalSeries c). split_and!; [|done|left; eauto].
    unfold set_series, series_of at 1. simpl. rewrite lookup_insert_eq, insert_insert_eq. by destruct c.
  - cbn [col_maxSeries col_totalSeries set_field].
    destruct ((0 <? col_maxSeries c) && (col_maxSeries c <=? col_totalSeries c)) eqn:E2.
    + left. eexists. split_and!; [reflexivity| |].
      * auto.
      * apply andb_true_iff in E2 as [?%Z.ltb_lt ?%Z.leb_le]. auto.
    + right. exists (col_totalSeries c + 1). split_and!; [|done|].
      * unfold set_series. simpl. unfold series_of at 1. simpl. rewrite lookup_insert_eq. simpl.
        rewrite insert_insert_eq. by destruct c.
      * right. split_and!; [done..|]. apply andb_false_iff in E2 as [?%Z.ltb_ge|?%Z.leb_gt]; auto.
Qed.

Lemma series_count_same name c :
  map_fold (λ _ m n, Z.of_nat (size m) + n) 0 (<[name := series_of name c]> (col_series c)) = series_count c.
Proof. rewrite series_count_insert. unfold series_of, series_count. lia. Qed.
Lemma distinct_snoc acc p :
  distinct_series (acc ++ [p]) = distinct_series acc ∪ {[point_key p]}.
Proof. unfold distinct_series. rewrite fmap_app, list_to_set_app_L. simpl. set_solver. Qed.
Lemma distinct_size_snoc acc p :
  point_key p ∉ distinct_series acc →
  size (distinct_series (acc ++ [p])) = (size (distinct_series acc) + 1)%nat.
Proof.
  intros H. rewrite distinct_snoc, size_union, size_singleton; [done|].
  intros k Hk ->%elem_of_singleton. done.
Qed.
Lemma points_for_distinct name key acc :
  points_for name key acc = [] ↔ (name, key) ∉ distinct_series acc.
Proof.
  unfold distinct_series. rewrite elem_of_list_to_set, list_elem_of_fmap. unfold points_for.
  split.
  - intros E (p & Hk & Hp). assert (p ∈ ([] : list MetricPoint)) as []%not_elem_of_nil.
    rewrite <- E. by apply list_elem_of_filter.
  - intros H. destruct (filter _ acc) as [|p l] eqn:E; [done|]. exfalso. apply H. exists p.
    assert (p ∈ p :: l) as Hp by by left. rewrite <- E in Hp. apply list_elem_of_filter in Hp. naive_solver.
Qed.
Lemma collects_record p c acc :
  collects c acc →
  let c' := record_point p c in
  let acc' := acc ++ (if col_totalPoints c' =? col_totalPoints c then [] else [p]) in
  collects c' acc' ∧ col_maxPoints c' = col_maxPoints c ∧ col_maxSeries c' = col_maxSeries c
  ∧ col_maxSeriesPoints c' = col_maxSeriesPoints c ∧ col_maxReservoir c' = col_maxReservoir c
  ∧ ((col_maxPoints c ≤ 0 ∨ col_totalPoints c < col_maxPoints c) →
     (col_maxSeries c ≤ 0 ∨ Z.of_nat (size (distinct_series (acc ++ [p]))) ≤ col_maxSeries c) → acc' = acc ++ [p]).
Proof.
  intros [H1 H2 H3 H4 H5 H6]. cbv zeta.
  destruct (record_point_cases p c) as [(M & -> & HM & Hlim)|(n & -> & Hlim & Hn)].
  - simpl. rewrite Z.eqb_refl, app_nil_r. split_and!; try done.
    + split; try done; simpl.
      * intros name key. rewrite <- H1. f_equal. unfold series_of. simpl. destruct HM as [->| ->]; [done|].
        destruct (decide (name = mp_Name p)) as [->|]; [by rewrite lookup_insert_eq|by rewrite lookup_insert_ne].
      * rewrite H3. unfold series_count at 2. simpl. destruct HM as [->| ->]; [done|]. symmetry. apply series_count_same.
    + intros Hp Hs. exfalso. destruct Hlim as [?|(Hk & ? & ?)]; [lia|].
      destruct Hs as [?|Hs]; [lia|]. rewrite H1, series_for_none, points_for_distinct in Hk.
      rewrite distinct_size_snoc in Hs by done. lia.
  - simpl. rewrite (proj2 (Z.eqb_neq _ _)) by lia. split_and!; try done.
    assert (Hnd : n = Z.of_nat (size (distinct_series (acc ++ [p])))).
    { destruct Hn as [[Hs ->]|(Hs & -> & _)].
      - rewrite distinct_snoc, H4, union_comm_L, subseteq_union_1_L; [done|]. rewrite H1 in Hs.
        rewrite singleton_subseteq_l.
        apply dec_stable. intros Hno%points_for_distinct. rewrite Hno in Hs. by apply is_Some_None in Hs.
      - rewrite H1, series_for_none, points_for_distinct in Hs.
        rewrite distinct_size_snoc by done. lia. }
    split; simpl; [| | |done| |].
    + intros name key. rewrite points_for_snoc. unfold series_of at 1. simpl.
      destruct (decide (name = mp_Name p)) as [->|Hne].
      * rewrite lookup_insert_eq. simpl. unfold point_key. destruct (decide (labelKey (mp_Labels p) = key)) as [<-|Hk].
        -- rewrite decide_True by done. rewrite lookup_insert_eq, series_for_snoc, <- H1. done.
        -- rewrite decide_False by congruence. rewrite lookup_insert_ne, app_nil_r by done. apply H1.
      * rewrite lookup_insert_ne by done. rewrite decide_False by (unfold point_key; congruence).
        rewrite app_nil_r. apply H1.
    + rewrite length_app. simpl. lia.
    + unfold series_count. simpl. rewrite series_count_insert. fold (series_of (mp_Name p) c).
      fold (series_count c). destruct Hn as [[Hs ->]|(Hs & -> & _)].
      * rewrite map_size_insert_Some by done. rewrite H3. unfold series_of. lia.
      * rewrite map_size_insert_None by done. rewrite H3. unfold series_of. lia.
    + lia.
    + destruct Hn as [[_ ->]|(_ & -> & ?)]; [done|lia].
Qed.
Lemma collects_all recs : ∀ c acc,
  collects c acc →
  let '(c', new) := record_all recs c in
  collects c' (acc ++ new) ∧ new `sublist_of` recs
  ∧ col_maxPoints c' = col_maxPoints c ∧ col_maxSeries c' = col_maxSeries c
  ∧ col_maxSeriesPoints c' = col_maxSeriesPoints c ∧ col_maxReservoir c' = col_maxReservoir c
  ∧ ((col_maxPoints c ≤ 0 ∨ Z.of_nat (length (acc ++ recs)) ≤ col_maxPoints c) →
     (col_maxSeries c ≤ 0 ∨ Z.of_nat (size (distinct_series (acc ++ recs))) ≤ col_maxSeries c) → new = recs).
Proof.
  induction recs as [|p recs IH]; intros c acc Hc; simpl.
  { rewrite app_nil_r. by split_and!. }
  destruct (collects_record p c acc Hc) as (Hc' & E1 & E2 & E3 & E4 & Hall).
  set (new := if _ =? _ then [] else [p]) in *. specialize (IH _ _ Hc').
  destruct (record_all recs (record_point p c)) as [c'' new']. rewrite <- app_assoc in IH.
  destruct IH as (IH1 & IH2 & IH3 & IH4 & IH5 & IH6 & IH7).
  rewrite E1, E2, E3, E4 in *. split_and!; try done.
  - subst new. case_match; simpl; [by apply sublist_cons|by apply sublist_skip].
  - intros Hp Hs. rewrite (cons_middle p acc recs), app_assoc in Hp, Hs.
    assert (Hnew : acc ++ new = acc ++ [p]).
    { apply Hall.
      - rewrite (cl_points _ _ Hc). rewrite !length_app in Hp. simpl in Hp. lia.
      - destruct Hs as [?|Hs]; [by left|right]. etrans; [|exact Hs]. apply inj_le, subseteq_size.
        unfold distinct_series. rewrite (fmap_app _ _ recs), list_to_set_app_L. set_solver. }
    apply app_inv_head in Hnew. rewrite Hnew in *. simpl. f_equal. apply IH7; by rewrite <- app_assoc in *.
Qed.
(** A collector as the executor sets it up: the limits of the environment, a cap on
    the points and both callbacks. *)
Definition new_collector (now : Time) (mp mr ms : option Z) (maxPoints : Z) : Collector :=
  Collector_Start now (Collector_SetMaxPoints maxPoints true (Collector_SetLimitCallback true
    (NewCollector now mp mr ms))).
Lemma new_collector_limits now mp mr ms maxPoints :
  let c := new_collector now mp mr ms maxPoints in
  collects c [] ∧ 1 ≤ col_maxSeriesPoints c ∧ 1 ≤ col_maxReservoir c ∧ 1 ≤ col_maxSeries c
  ∧ col_maxPoints c = maxPoints.
Proof.
  simpl. split_and!; try done; try (by repeat case_match; lia).
  split; simpl; try done; repeat case_match; lia.
Qed.

(** whatever is recorded, the collector stays within its limits: each series
    keeps at most its share of points and reservoir values, there are never more
    series than allowed, and never more samples than the cap on points when it is
    set; the snapshot's series count is exact. *)
Theorem collector_bounded now mp mr ms maxPoints recs :
  let c0 := new_collector now mp mr ms maxPoints in
  let c := fst (record_all recs c0) in
  (∀ name labels, Z.of_nat (length (Collector_GetTimeSeries name labels c)) ≤ col_maxSeriesPoints c0)
  ∧ (∀ name key s, series_of name c !! key = Some s →
       Z.of_nat (length (ms_reservoir s)) ≤ col_maxReservoir c0)
  ∧ cs_SeriesCount (Collector_Snapshot c) = col_totalSeries c ∧ col_totalSeries c ≤ col_maxSeries c0
  ∧ (0 < maxPoints → cs_TotalPoints (Collector_Snapshot c) ≤ maxPoints).
Proof.
  destruct (new_collector_limits now mp mr ms maxPoints) as (H0 & L1 & L2 & L3 & L4).
  cbv zeta. set (c0 := new_collector now mp mr ms maxPoints) in *. clearbody c0.
  pose proof (collects_all recs c0 [] H0) as H. destruct (record_all recs c0) as [c new]. simpl fst.
  destruct H as ([H1 H2 H3 H4 H5 H6] & _ & E1 & E2 & E3 & E4 & _). rewrite E1, E2, E3, E4 in *.
  split_and!.
  - intros name labels. unfold Collector_GetTimeSeries. rewrite H1. destruct (points_for _ _ _) as [|p l]; [simpl; lia|].
    simpl. apply series_points_bounded. lia.
  - intros name key s. rewrite H1. destruct (points_for _ _ _) as [|p l]; [done|]. intros [= <-].
    etrans; [apply series_reservoir_bounded|lia].
  - done.
  - apply H6. lia.
  - intros. simpl. rewrite <- L4. apply H5. lia.
Qed.

(** streaming aggregation agrees with the history: for every metric and label
    set the collector reports the number, the sum and, when no value is NaN, the
    least and greatest of exactly the samples accepted under that key, whatever
    points it has dropped from the timeline; the retained points are some of those
    samples, in order, the first included; and below the limits every sample is
    accepted. *)
Theorem collector_aggregates now mp mr ms maxPoints recs name key :
  Z.of_nat (length recs) ≤ int64_max →
  let c0 := new_collector now mp mr ms maxPoints in
  let '(c, acc) := record_all recs c0 in
  let pts := points_for name key acc in
  acc `sublist_of` recs
  ∧ ((maxPoints ≤ 0 ∨ Z.of_nat (length recs) ≤ maxPoints) →
     Z.of_nat (size (distinct_series recs)) ≤ col_maxSeries c0 → acc = recs)
  ∧ match series_of name c !! key with
    | None => pts = []
    | Some s =>
        pts ≠ [] ∧ ms_points s `sublist_of` pts ∧ head (ms_points s) = head pts
        ∧ ag_Count (ms_agg s) = Z.of_nat (length pts) ∧ ag_Sum (ms_agg s) = utils_Sum (values pts)
        ∧ (Forall (λ v, is_nan v = false) (values pts) →
           least (ag_Min (ms_agg s)) (values pts) ∧ greatest (ag_Max (ms_agg s)) (values pts))
    end.
Proof.
  intros Hlen. destruct (new_collector_limits now mp mr ms maxPoints) as (H0 & L1 & L2 & L3 & L4).
  cbv zeta. set (c0 := new_collector now mp mr ms maxPoints) in *. clearbody c0.
  pose proof (collects_all recs c0 [] H0) as H. destruct (record_all recs c0) as [c new].
  destruct H as ([H1 H2 H3 H4 H5 H6] & Hsub & E1 & E2 & E3 & E4 & Hall). rewrite E3, E4 in H1. simpl in *.
  split_and!; [done| |].
  { intros Hp Hs. apply Hall; [lia|auto]. }
  rewrite H1. destruct (points_for name key new) as [|p l] eqn:E; simpl; [done|].
  assert (Hn : Z.of_nat (length (p :: l)) ≤ int64_max).
  { rewrite <- E. etrans; [|exact Hlen]. apply inj_le. unfold points_for.
    etrans; [apply length_filter|by apply sublist_length]. }
  destruct (series_count_sum (col_maxSeriesPoints c0) (col_maxReservoir c0) (mp_Labels p) (p :: l) Hn) as [-> ->].
  split_and!; try done.
  - apply series_points_sublist.
  - apply series_points_first.
  - intros Hnan. by apply series_extremes.
Qed.
Definition sample_point (t : Time) (v : Z) : MetricPoint :=
  mkMetricPoint t "request_count" (f64_of_Z v) (CreateServiceLabels "api").
Definition sample_recs : list MetricPoint := [sample_point 1 5; sample_point 2 3; sample_point 3 9].
Lemma collector_aggregates_witness :
  Z.of_nat (length sample_recs) ≤ int64_max ∧
  (record_all sample_recs (new_collector 0 None None None 0)).2 = sample_recs.
Proof.
  split; [by vm_compute|].
  pose proof (collector_aggregates 0 None None None 0 sample_recs "request_count" "service=api,") as H.
  cbv zeta in H. destruct (record_all sample_recs (new_collector 0 None None None 0)) as [c acc].
  destruct H as (_ & H & _); [by vm_compute|]. simpl snd. apply H; [by left|by vm_compute].
Defined.

(** ** What the collector does not keep *)

(** With an odd bound on the points of a series, compaction drops the newest point:
    [GetLastValue] then reports an older value. *)
Lemma last_value_is_stale :
  let c := fst (record_all (sample_recs ++ [sample_point 4 7]) (new_collector 0 (Some 3) None None 0)) in
  Collector_GetLastValue "request_count" (CreateServiceLabels "api") c = Some (f64_of_Z 9).
Proof. vm_compute. reflexivity. Qed.
(** Different label sets may share a key, and so a series. *)
Lemma label_keys_collide :
  let l1 : Labels := <["a" := "1"]> {["b" := "2"]} in
  let l2 : Labels := {["a" := "1,b=2"]} in l1 ≠ l2 ∧ labelKey l1 = labelKey l2.
Proof. split; [by intros [=]|vm_compute; reflexivity]. Qed.
(** The percentiles of a merge are no weighted mean: they depend on the order in
    which the series of a map are visited. *)
Lemma merged_percentiles_depend_on_order :
  let agg n v := Some (mkAggregation n f0 f0 f0 f0 (f64_of_Z v) f0 f0) in
  let merge l := foldl mergeAggregations None l in
  ag_P50 <$> merge [agg 1 0; agg 1 0; agg 1 8] ≠ ag_P50 <$> merge [agg 1 8; agg 1 0; agg 1 0].
Proof. vm_compute. congruence. Qed.
