(* ===== verification/ResourceLaws.v ===== *)
(** The invariant of the resource manager: hosts, instances, the host index and
    the routing cache stay consistent under every operation; and what scaling,
    draining and selection do. *)
From S2P Require Import Prelude GoFloat Utils Policy Config BrokerQueue Instance ResourceManager.
From Stdlib Require Import SpecFloat.
#[local] Open Scope string_scope.
#[local] Open Scope list_scope.
#[local] Open Scope Z_scope.

(** * The invariant *)

(** Instances, hosts and the host index agree; instance numbers are below [n];
    every service with an instance has an active one. *)
Record core (n : Z) (m : ResourceManager) : Prop := mkCore {
  core_name : ∀ id i, mg_instances m !! id = Some i →
    si_id i = id ∧ ∃ k, 0 ≤ k < n ∧ id = instance_name (si_serviceName i) k;
  core_host : ∀ id i, mg_instances m !! id = Some i →
    is_Some (mg_hosts m !! si_hostID i) ∧ id ∈ default [] (mg_hostToInstances m !! si_hostID i);
  core_index : ∀ h id, id ∈ default [] (mg_hostToInstances m !! h) →
    ∃ i, mg_instances m !! id = Some i ∧ si_hostID i = h;
  core_nodup : ∀ h, NoDup (default [] (mg_hostToInstances m !! h));
  core_active : ∀ id i, mg_instances m !! id = Some i →
    ∃ id' i', mg_instances m !! id' = Some i' ∧ si_serviceName i' = si_serviceName i ∧
              si_lifecycle i' = InstanceActive;
  core_rr : ∀ sn, 0 ≤ default 0 (mg_roundRobinIdx m !! sn);
}.
(** The cache lists active instances of its service, and the round-robin index
    points into it. *)
Definition cache_ok (m : ResourceManager) : Prop :=
  ∀ sn l, mg_sortedServiceInstMap m !! sn = Some l →
    l ≠ [] ∧ NoDup l ∧ default 0 (mg_roundRobinIdx m !! sn) < len l ∧
    ∀ id, id ∈ l → ∃ i, mg_instances m !! id = Some i ∧ si_serviceName i = sn ∧
                        si_lifecycle i = InstanceActive.
Definition mg_ok (m : ResourceManager) : Prop :=
  0 ≤ mg_nextInstanceID m ∧ core (mg_nextInstanceID m) m ∧ cache_ok m.

(** ** What the invariant depends on *)

Definition inst_sig (i : ServiceInstance) : string * string * string * InstanceLifecycle :=
  (si_id i, si_serviceName i, si_hostID i, si_lifecycle i).
(** The invariant sees the signatures of instances, the IDs of hosts, the host
    index, the cache and its indices. *)
Definition same_skeleton (m m' : ResourceManager) : Prop :=
  inst_sig <$> mg_instances m' = inst_sig <$> mg_instances m ∧
  (∀ h, is_Some (mg_hosts m !! h) → is_Some (mg_hosts m' !! h)) ∧
  mg_hostToInstances m' = mg_hostToInstances m ∧
  mg_sortedServiceInstMap m' = mg_sortedServiceInstMap m ∧
  mg_roundRobinIdx m' = mg_roundRobinIdx m ∧ mg_nextInstanceID m' = mg_nextInstanceID m.

Lemma same_skeleton_lookup m m' id i' :
  same_skeleton m m' → mg_instances m' !! id = Some i' →
  ∃ i, mg_instances m !! id = Some i ∧ inst_sig i' = inst_sig i.
Proof.
  intros (Hs & _) Hi. apply (f_equal (lookup id)) in Hs. rewrite !lookup_fmap, Hi in Hs.
  destruct (mg_instances m !! id) as [i|]; [|done]. exists i. apply (inj Some) in Hs. done.
Qed.
Lemma same_skeleton_lookup_r m m' id i :
  same_skeleton m m' → mg_instances m !! id = Some i →
  ∃ i', mg_instances m' !! id = Some i' ∧ inst_sig i' = inst_sig i.
Proof.
  intros (Hs & _) Hi. apply (f_equal (lookup id)) in Hs. rewrite !lookup_fmap, Hi in Hs.
  destruct (mg_instances m' !! id) as [i'|]; [|done]. exists i'. apply (inj Some) in Hs. done.
Qed.
Lemma same_skeleton_ok m m' : same_skeleton m m' → mg_ok m → mg_ok m'.
Proof.
  intros Hs (Hn & [Hname Hhost Hidx Hnd Hact Hrr] & Hc).
  pose proof Hs as (_ & Hh & Hi & Hca & Hr & Hnx).
  split; [by rewrite Hnx|]. split; [constructor|].
  - intros id i' (i & H & E)%(same_skeleton_lookup _ _ _ _ Hs). injection E as -> -> _ _.
    rewrite Hnx. by apply Hname.
  - intros id i' (i & H & E)%(same_skeleton_lookup _ _ _ _ Hs). injection E as _ _ -> _.
    rewrite Hi. destruct (Hhost id i H). auto.
  - intros h id. rewrite Hi. intros (i & H & <-)%Hidx.
    destruct (same_skeleton_lookup_r _ _ _ _ Hs H) as (i' & ? & E). exists i'. by injection E as _ _ -> _.
  - intros h. rewrite Hi. apply Hnd.
  - intros id i' (i & H & E)%(same_skeleton_lookup _ _ _ _ Hs). injection E as _ -> _ _.
    destruct (Hact id i H) as (id2 & i2 & H2 & <- & Hl).
    destruct (same_skeleton_lookup_r _ _ _ _ Hs H2) as (i3 & ? & E).
    exists id2, i3. injection E as _ -> _ ->. auto.
  - intros sn. rewrite Hr. apply Hrr.
  - intros sn l. rewrite Hca, Hr. intros (Hl & Hnd' & Hlt & Hin)%Hc. split_and!; try done.
    intros id (i & H & <- & Hlf)%Hin. destruct (same_skeleton_lookup_r _ _ _ _ Hs H) as (i' & ? & E).
    exists i'. injection E as _ -> _ ->. auto.
Qed.

Lemma update_instance_skeleton id f m :
  (∀ i, inst_sig (f i) = inst_sig i) → same_skeleton m (update_instance id f m).
Proof.
  intros Hf. split_and!; try done. simpl. apply map_eq. intros k. rewrite !lookup_fmap.
  destruct (decide (id = k)) as [<-|Hne].
  - rewrite lookup_alter_eq. destruct (mg_instances m !! id); simpl; by rewrite ?Hf.
  - by rewrite lookup_alter_ne.
Qed.
Lemma insert_instance_skeleton id i i' m :
  mg_instances m !! id = Some i → inst_sig i' = inst_sig i →
  same_skeleton m (m <| mg_instances := <[id := i']> (mg_instances m) |>).
Proof.
  intros Hi Hs. split_and!; try done. simpl. rewrite fmap_insert, Hs, insert_id; [done|].
  by rewrite lookup_fmap, Hi.
Qed.
Lemma update_host_skeleton id f m : same_skeleton m (update_host id f m).
Proof.
  split_and!; try done. intros h [x Hx]. simpl. destruct (decide (id = h)) as [<-|].
  - rewrite lookup_alter_eq, Hx. by eexists.
  - rewrite lookup_alter_ne, Hx by done. by eexists.
Qed.
Lemma same_skeleton_trans m1 m2 m3 :
  same_skeleton m1 m2 → same_skeleton m2 m3 → same_skeleton m1 m3.
Proof.
  intros (A1&A2&A3&A4&A5&A6) (B1&B2&B3&B4&B5&B6).
  split_and!; [congruence| |congruence..]. auto.
Qed.
Lemma same_skeleton_refl m : same_skeleton m m.
Proof. by split_and!. Qed.
Create HintDb skel.
#[export] Hint Resolve update_instance_skeleton update_host_skeleton same_skeleton_refl : skel.

(** * Names and reservations of new instances *)

Lemma find_first_Some {A} (f : A → bool) l x : find_first f l = Some x → x ∈ l ∧ f x = true.
Proof. intros [H1 H2]%List.find_some. split; [by apply list_elem_of_In|done]. Qed.
Lemma core_fresh n m s : core n m → 0 ≤ n → mg_instances m !! instance_name s n = None.
Proof.
  intros Hc Hn. destruct (mg_instances m !! instance_name s n) as [i|] eqn:E; [exfalso|done].
  destruct (core_name n m Hc _ _ E) as [_ (k & Hk & Heq)]. apply instance_name_inj in Heq; lia.
Qed.
Lemma core_mono n n' m : n ≤ n' → core n m → core n' m.
Proof.
  intros Hn [Hname ?????]. constructor; try done. intros id i H.
  destruct (Hname id i H) as [? (k & ? & ?)]. split; [done|]. exists k. split; [lia|done].
Qed.

(** ** Sorting and maps built from lists *)

Lemma lookup_list_to_map_fn {B} (f : string → B) (ks : list string) k :
  (list_to_map ((λ k, (k, f k)) <$> ks) : gmap string B) !! k
  = if decide (k ∈ ks) then Some (f k) else None.
Proof.
  induction ks as [|k' ks IH]; csimpl; [by rewrite lookup_empty|].
  destruct (decide (k' = k)) as [->|Hne].
  - rewrite lookup_insert_eq. by rewrite decide_True by (by left).
  - rewrite lookup_insert_ne, IH by done.
    destruct (decide (k ∈ ks)); [rewrite decide_True by (by right); done|].
    rewrite decide_False; [done|]. by intros [?|?]%elem_of_cons.
Qed.

(** ** The routing cache *)

Lemma elem_of_service_instances sn m id :
  id ∈ service_instances sn m ↔ ∃ i, mg_instances m !! id = Some i ∧ si_serviceName i = sn.
Proof.
  unfold service_instances. rewrite list_elem_of_fmap. setoid_rewrite list_elem_of_filter. split.
  - intros ([k i] & -> & Hs & Hi%elem_of_map_to_list). by exists i.
  - intros (i & Hi & Hs). exists (id, i). by rewrite elem_of_map_to_list.
Qed.
Lemma NoDup_service_instances sn m : NoDup (service_instances sn m).
Proof.
  unfold service_instances.
  eapply sublist_NoDup; [apply (NoDup_fst_map_to_list (mg_instances m))|].
  apply fmap_sublist, sublist_filter.
Qed.
Lemma routable_active i : ServiceInstance_IsRoutable i = true ↔ si_lifecycle i = InstanceActive.
Proof. unfold ServiceInstance_IsRoutable. by rewrite bool_decide_eq_true. Qed.
Lemma elem_of_active_ids sn m id :
  id ∈ active_ids sn m ↔
  ∃ i, mg_instances m !! id = Some i ∧ si_serviceName i = sn ∧ si_lifecycle i = InstanceActive.
Proof.
  unfold active_ids. rewrite (sort_SliceStable_perm _ _), list_elem_of_filter, elem_of_service_instances.
  split.
  - intros [Hr (i & Hi & Hs)]. rewrite Hi in Hr. simpl in Hr. exists i. by rewrite <- routable_active.
  - intros (i & Hi & Hs & Ha). split; [rewrite Hi; by apply routable_active|]. by exists i.
Qed.
Lemma NoDup_active_ids sn m : NoDup (active_ids sn m).
Proof.
  unfold active_ids. rewrite (sort_SliceStable_perm _ _). apply NoDup_filter, NoDup_service_instances.
Qed.
Lemma elem_of_active_services sn m : sn ∈ active_services m ↔ ∃ id, id ∈ active_ids sn m.
Proof.
  unfold active_services. rewrite elem_of_remove_dups, list_elem_of_fmap.
  setoid_rewrite list_elem_of_filter. setoid_rewrite elem_of_active_ids. split.
  - intros ([id i] & -> & Hr%routable_active & Hi%elem_of_map_to_list). eauto.
  - intros (id & i & Hi & <- & Ha%routable_active). exists (id, i). by rewrite elem_of_map_to_list.
Qed.
Lemma active_ids_nonempty sn m : sn ∈ active_services m → 0 < len (active_ids sn m).
Proof.
  intros (id & Hid)%elem_of_active_services. unfold len. destruct (active_ids sn m); simpl; [|lia].
  by apply elem_of_nil in Hid.
Qed.

Lemma rebuild_rr (f : string → list string) svcs : ∀ (rr : gmap string Z) sn,
  default 0 (foldl (λ (rr : gmap string Z) sn,
      let instances := f sn in
      if (0 <? len instances) && (len instances <=? default 0 (rr !! sn))
      then <[sn := 0]> rr else rr) rr svcs !! sn)
  = if decide (sn ∈ svcs ∧ 0 < len (f sn) ∧ len (f sn) ≤ default 0 (rr !! sn))
    then 0 else default 0 (rr !! sn).
Proof.
  induction svcs as [|s svcs IH]; intros rr sn; csimpl; [done|].
  rewrite IH. destruct (decide (s = sn)) as [->|Hne].
  - destruct (Z.ltb_spec 0 (len (f sn))), (Z.leb_spec (len (f sn)) (default 0 (rr !! sn))); simpl;
      rewrite ?lookup_insert_eq; simpl; repeat case_decide; try done; set_unfold; naive_solver lia.
  - destruct (_ && _); [rewrite lookup_insert_ne by done|]; repeat case_decide; try done;
      set_unfold; naive_solver.
Qed.
Lemma rebuild_ok n m :
  core n m → core n (ResourceManager_rebuildSortedInstanceCache m) ∧
             cache_ok (ResourceManager_rebuildSortedInstanceCache m).
Proof.
  intros [Hname Hhost Hidx Hnd Hact Hrr]. split.
  - constructor; try done. intros sn. simpl. rewrite rebuild_rr. case_decide; [lia|apply Hrr].
  - intros sn l. simpl. rewrite lookup_list_to_map_fn. case_decide as Hsn; [|done].
    intros [= <-]. pose proof (active_ids_nonempty sn m Hsn) as Hlen. split_and!.
    + intros E. rewrite E in Hlen. by vm_compute in Hlen.
    + apply NoDup_active_ids.
    + rewrite rebuild_rr. case_decide as Hd; [lia|]. apply Z.nle_gt. intros ?. by apply Hd.
    + intros id. by rewrite elem_of_active_ids.
Qed.

(** ** New instances *)

Lemma alter_lookup_is_Some {A} (f : A → A) (M : gmap string A) h h' :
  is_Some (alter f h' M !! h) ↔ is_Some (M !! h).
Proof.
  destruct (decide (h' = h)) as [->|].
  - rewrite lookup_alter_eq. by rewrite fmap_is_Some.
  - by rewrite lookup_alter_ne.
Qed.
Lemma add_instance_core clock s h n cpu mem m :
  0 ≤ n → core n m → is_Some (mg_hosts m !! h) → core (n + 1) (add_instance clock s h n cpu mem m).
Proof.
  intros Hn Hc Hh. pose proof (core_fresh n m s Hc Hn) as Hfr.
  destruct Hc as [Hname Hhost Hidx Hnd Hact Hrr].
  set (id0 := instance_name s n) in *. unfold add_instance. fold id0.
  set (i0 := NewServiceInstance (clock n) id0 s h cpu mem).
  assert (Hnot : ∀ h', id0 ∉ default [] (mg_hostToInstances m !! h')).
  { intros h' (i & Hi & _)%Hidx. by rewrite Hfr in Hi. }
  constructor; simpl.
  - intros id i [[<- <-]|[Hne Hi]]%lookup_insert_Some.
    + split; [done|]. exists n. split; [lia|done].
    + destruct (Hname id i Hi) as [? (k & ? & ?)]. split; [done|]. exists k. split; [lia|done].
  - intros id i [[<- <-]|[Hne Hi]]%lookup_insert_Some.
    + rewrite alter_lookup_is_Some, lookup_insert_eq. simpl.
      split; [done|]. apply elem_of_app. right. by left.
    + destruct (Hhost id i Hi) as [H1 H2].
      rewrite alter_lookup_is_Some. split; [done|].
      destruct (decide (h = si_hostID i)) as [->|].
      * rewrite lookup_insert_eq. simpl. apply elem_of_app. by left.
      * by rewrite lookup_insert_ne.
  - intros h' id. destruct (decide (h = h')) as [->|].
    + rewrite lookup_insert_eq. simpl. intros [Hin|Hin%list_elem_of_singleton]%elem_of_app; [|subst id].
      * destruct (Hidx h' id Hin) as (i & Hi & <-). exists i. split; [|done].
        rewrite lookup_insert_ne; [done|]. intros <-. by rewrite Hfr in Hi.
      * exists i0. by rewrite lookup_insert_eq.
    + rewrite lookup_insert_ne by done. intros (i & Hi & <-)%Hidx. exists i. split; [|done].
      rewrite lookup_insert_ne; [done|]. intros <-. by rewrite Hfr in Hi.
  - intros h'. destruct (decide (h = h')) as [->|].
    + rewrite lookup_insert_eq. simpl. apply NoDup_app. split_and!; [apply Hnd| |apply NoDup_singleton].
      intros x Hx Hx2%list_elem_of_singleton. subst x. by apply (Hnot h').
    + by rewrite lookup_insert_ne.
  - intros id i [[<- <-]|[Hne Hi]]%lookup_insert_Some.
    + exists id0, i0. by rewrite lookup_insert_eq.
    + destruct (Hact id i Hi) as (id' & i' & Hi' & ? & ?). exists id', i'.
      rewrite lookup_insert_ne; [done|]. intros <-. by rewrite Hfr in Hi'.
  - done.
Qed.
Lemma add_instance_cache clock s h n cpu mem m :
  mg_instances m !! instance_name s n = None → cache_ok m →
  cache_ok (add_instance clock s h n cpu mem m).
Proof.
  intros Hfr Hc sn l (Hl & Hnd & Hlt & Hin)%Hc. split_and!; try done.
  intros id (i & Hi & ? & ?)%Hin. exists i. split; [|done]. simpl.
  rewrite lookup_insert_ne; [done|]. intros <-. by rewrite Hfr in Hi.
Qed.

Lemma pickHost_some s cpu mem m h :
  ResourceManager_pickHostForNewInstanceLocked s cpu mem m = Ok h → is_Some (mg_hosts m !! h).
Proof.
  unfold ResourceManager_pickHostForNewInstanceLocked. destruct (sorted_keys _); [done|].
  case_match eqn:E; [|done]. intros [= ->]. apply find_first_Some in E as [_ E].
  by destruct (mg_hosts m !! h).
Qed.
Lemma pickHost_no_panic s cpu mem m :
  ResourceManager_pickHostForNewInstanceLocked s cpu mem m ≠ Panic.
Proof.
  unfold ResourceManager_pickHostForNewInstanceLocked. destruct (sorted_keys _); [done|].
  by case_match.
Qed.
Lemma core_next n m k : core n (m <| mg_nextInstanceID := k |>) ↔ core n m.
Proof. split; intros []; by constructor. Qed.
#[global] Arguments add_instance : simpl never.
Lemma add_next_ok clock s h cpu mem m :
  mg_ok m → is_Some (mg_hosts m !! h) →
  mg_ok (add_instance clock s h (mg_nextInstanceID m) cpu mem
           (m <| mg_nextInstanceID := mg_nextInstanceID m + 1 |>)).
Proof.
  intros (Hn & Hc & Hca) Hh. split; [simpl; lia|]. split.
  - change (mg_nextInstanceID (add_instance clock s h (mg_nextInstanceID m) cpu mem
              (m <| mg_nextInstanceID := mg_nextInstanceID m + 1 |>))) with (mg_nextInstanceID m + 1).
    apply add_instance_core; [done|by apply (proj2 (core_next _ _ _))|done].
  - apply add_instance_cache; [exact (core_fresh _ m s Hc Hn)|done].
Qed.
Lemma scale_up_ok clock s cpu mem k : ∀ m,
  mg_ok m → mg_ok (snd (scale_up clock s cpu mem k m)).
Proof.
  induction k as [|k IH]; intros m Hm; cbn [scale_up]; [done|].
  destruct (ResourceManager_pickHostForNewInstanceLocked s cpu mem m) as [h| |] eqn:E; try done.
  apply pickHost_some in E. by apply IH, add_next_ok.
Qed.

(** ** Draining and removal *)

Definition drain_all (deadline : Time) (ids : list string) (m : ResourceManager) : ResourceManager :=
  foldl (λ m id, update_instance id (ServiceInstance_SetDraining deadline) m) m ids.
Lemma drain_all_lookup deadline ids : ∀ m id,
  mg_instances (drain_all deadline ids m) !! id
  = if decide (id ∈ ids) then ServiceInstance_SetDraining deadline <$> mg_instances m !! id
    else mg_instances m !! id.
Proof.
  induction ids as [|x ids IH]; intros m id; simpl; [done|]. unfold drain_all in *. simpl.
  rewrite IH. simpl. destruct (decide (x = id)) as [->|Hne].
  - rewrite lookup_alter_eq, (decide_True (P := id ∈ id :: ids)) by (by left).
    case_decide; [|done]. by destruct (mg_instances m !! id).
  - rewrite lookup_alter_ne by done. do 2 case_decide; try done; set_unfold; naive_solver.
Qed.
Lemma drain_all_frame deadline ids : ∀ m,
  let m' := drain_all deadline ids m in
  mg_hosts m' = mg_hosts m ∧ mg_hostToInstances m' = mg_hostToInstances m ∧
  mg_roundRobinIdx m' = mg_roundRobinIdx m ∧ mg_nextInstanceID m' = mg_nextInstanceID m ∧
  mg_sortedServiceInstMap m' = mg_sortedServiceInstMap m.
Proof. induction ids as [|x ids IH]; intros m; [done|]. apply (IH (update_instance _ _ m)). Qed.
(** Draining keeps the core as long as an active instance of the service remains. *)
Lemma drain_all_core deadline ids keep i0 n m :
  core n m → mg_instances m !! keep = Some i0 → si_lifecycle i0 = InstanceActive → keep ∉ ids →
  (∀ id, id ∈ ids → ∃ i, mg_instances m !! id = Some i ∧ si_serviceName i = si_serviceName i0) →
  core n (drain_all deadline ids m).
Proof.
  intros [Hname Hhost Hidx Hnd Hact Hrr] Hk Hl Hnk Hids.
  destruct (drain_all_frame deadline ids m) as (E1 & E2 & E3 & E4 & E5).
  assert (Hback : ∀ id i', mg_instances (drain_all deadline ids m) !! id = Some i' →
    ∃ i, mg_instances m !! id = Some i ∧ si_id i' = si_id i ∧ si_serviceName i' = si_serviceName i ∧
         si_hostID i' = si_hostID i ∧ (id ∉ ids → i' = i)).
  { intros id i'. rewrite drain_all_lookup. case_decide as Hin; [|intros; by exists i'].
    intros (i & Hi & ->)%fmap_Some. exists i. by split_and!. }
  assert (Hkeep : mg_instances (drain_all deadline ids m) !! keep = Some i0)
    by (by rewrite drain_all_lookup, decide_False).
  constructor; rewrite ?E1, ?E2, ?E3; try done.
  - intros id i' (i & Hi & -> & -> & _ & _)%Hback. by apply Hname.
  - intros id i' (i & Hi & _ & _ & -> & _)%Hback. by apply Hhost.
  - intros h id (i & Hi & <-)%Hidx.
    destruct (decide (id ∈ ids)); [exists (ServiceInstance_SetDraining deadline i)|exists i];
      rewrite drain_all_lookup, ?decide_True, ?decide_False, Hi by done; done.
  - intros id i' (i & Hi & _ & -> & _ & _)%Hback.
    destruct (Hact id i Hi) as (id2 & i2 & Hi2 & <- & Hl2).
    destruct (decide (id2 ∈ ids)) as [Hin|Hin].
    + destruct (Hids id2 Hin) as (i3 & Hi3 & Hs). rewrite Hi2 in Hi3. injection Hi3 as <-.
      exists keep, i0. by rewrite Hs.
    + exists id2, i2. by rewrite drain_all_lookup, decide_False.
Qed.

(** The last steps of removing an instance. *)
Definition forget_instance (id hostID : string) (m : ResourceManager) : ResourceManager :=
  update_host hostID (Host_RemoveService id)
    (m <| mg_instances := delete id (mg_instances m) |>
       <| mg_hostToInstances := alter (filter (λ x, x ≠ id)) hostID (mg_hostToInstances m) |>).
Lemma forget_index id h (M : gmap string (list string)) h' x :
  x ∈ default [] (alter (filter (λ y, y ≠ id)) h M !! h') ↔
  x ∈ default [] (M !! h') ∧ (h' = h → x ≠ id).
Proof.
  destruct (decide (h = h')) as [->|Hne].
  - rewrite lookup_alter_eq. destruct (M !! h'); simpl; [|by rewrite elem_of_nil; naive_solver].
    rewrite list_elem_of_filter. naive_solver.
  - rewrite lookup_alter_ne by done. naive_solver.
Qed.
Lemma forget_instance_ok id i m :
  mg_ok m → mg_instances m !! id = Some i → si_lifecycle i = InstanceDraining →
  mg_ok (forget_instance id (si_hostID i) m).
Proof.
  intros (Hn & [Hname Hhost Hidx Hnd Hact Hrr] & Hc) Hi Hd. split; [done|]. split; [constructor; simpl|].
  - intros k j [_ Hj]%lookup_delete_Some. by apply Hname.
  - intros k j [Hne Hj]%lookup_delete_Some. destruct (Hhost k j Hj) as [? ?].
    rewrite alter_lookup_is_Some, forget_index. naive_solver.
  - intros h k. rewrite forget_index. intros [(j & Hj & <-)%Hidx Hk]. exists j. split; [|done].
    rewrite lookup_delete_ne; [done|]. intros <-. rewrite Hi in Hj. injection Hj as <-. naive_solver.
  - intros h. destruct (decide (si_hostID i = h)) as [<-|].
    + rewrite lookup_alter_eq. specialize (Hnd (si_hostID i)).
      destruct (mg_hostToInstances m !! si_hostID i); simpl in *; [by apply NoDup_filter|constructor].
    + by rewrite lookup_alter_ne.
  - intros k j [_ Hj]%lookup_delete_Some. destruct (Hact k j Hj) as (k2 & j2 & Hj2 & ? & Ha).
    exists k2, j2. rewrite lookup_delete_ne; [done|]. intros <-. congruence.
  - done.
  - intros sn l (Hl & Hnd' & Hlt & Hin)%Hc. split_and!; try done. intros k (j & Hj & ? & Ha)%Hin.
    exists j. simpl. rewrite lookup_delete_ne; [done|]. intros <-. congruence.
Qed.
Lemma removeInstance_ok now id t ev i m :
  mg_ok m → mg_instances m !! id = Some i → si_lifecycle i = InstanceDraining →
  mg_ok (snd (ResourceManager_removeInstanceLocked now id t ev m)).
Proof.
  intros Hm Hi Hd. unfold ResourceManager_removeInstanceLocked. rewrite Hi. destruct ev; cbv zeta.
  - destruct (ServiceInstance_EvictResourceState (if IsZero t then now else t) i) as [ds i'] eqn:Ee.
    assert (Hsig : inst_sig i' = inst_sig i) by (by injection Ee as _ <-).
    set (m1 := m <| mg_instances := <[id := i']> (mg_instances m) |>).
    set (m2 := ResourceManager_updateHostMemoryUtilizationWithData _ _ _).
    assert (Hs : same_skeleton m m2).
    { eapply same_skeleton_trans; [|apply update_host_skeleton].
      eapply same_skeleton_trans; [|apply update_host_skeleton].
      by eapply insert_instance_skeleton. }
    apply (same_skeleton_ok _ _ Hs) in Hm as Hm2.
    destruct (same_skeleton_lookup_r _ _ _ _ Hs Hi) as (i2 & Hi2 & E2).
    injection E2 as _ _ E2h E2l. rewrite <- E2h. clearbody m2.
    change (mg_ok (forget_instance id (si_hostID i2) m2)). apply forget_instance_ok; congruence.
  - change (mg_ok (forget_instance id (si_hostID i) m)). by apply forget_instance_ok.
Qed.
(** Removal leaves every other instance as it was. *)
Lemma removeInstance_lookup now id t ev m k :
  mg_instances (snd (ResourceManager_removeInstanceLocked now id t ev m)) !! k
  = if decide (k = id) then None else mg_instances m !! k.
Proof.
  unfold ResourceManager_removeInstanceLocked.
  destruct (mg_instances m !! id) as [i|] eqn:Hi; [|by case_decide; subst].
  destruct ev; cbv zeta; simpl; case_decide as Hk; subst; rewrite ?lookup_delete_eq; try done;
    rewrite ?lookup_delete_ne, ?lookup_insert_ne by done; done.
Qed.

(** ** Sorted IDs *)

Lemma string_ltb_le s t : string_ltb s t = true → String.le s t.
Proof. unfold string_ltb, String.le, String.leb. by case_match. Qed.
Lemma string_ltb_ge s t : string_ltb s t = false → String.le t s.
Proof.
  unfold string_ltb, String.le, String.leb. rewrite (String.compare_antisym t s).
  by destruct (String.compare s t).
Qed.
Lemma sort_strings_sorted l : StronglySorted String.le (sort_SliceStable string_ltb l).
Proof. apply sort_SliceStable_sorted; [apply _|apply string_ltb_le|apply string_ltb_ge]. Qed.
Lemma StronglySorted_filter {A} (R : relation A) (P : A → Prop) `{∀ x, Decision (P x)} l :
  StronglySorted R l → StronglySorted R (filter P l).
Proof.
  induction 1 as [|x l Hl IH Hx]; [constructor|]. rewrite filter_cons. case_decide; [|done].
  constructor; [done|]. rewrite Forall_forall in *. intros y [_ ?]%list_elem_of_filter. auto.
Qed.
Lemma StronglySorted_take {A} (R : relation A) (l : list A) n :
  StronglySorted R l → StronglySorted R (take n l).
Proof.
  intros H. revert n. induction H as [|x l Hl IH Hx]; intros [|n]; simpl; constructor; auto.
  by apply Forall_take.
Qed.
(** A list sorted by ID is determined by its elements. *)
Lemma sorted_ids_unique (l1 l2 : list string) :
  StronglySorted String.le l1 → StronglySorted String.le l2 → NoDup l1 → NoDup l2 →
  (∀ id, id ∈ l1 ↔ id ∈ l2) → l1 = l2.
Proof.
  intros S1 S2 N1 N2 H. apply (StronglySorted_unique String.le); [done..|]. by apply NoDup_Permutation.
Qed.
Lemma active_ids_sorted sn m : StronglySorted String.le (active_ids sn m).
Proof. apply sort_strings_sorted. Qed.
(** The list of active instances that scaling works with is the cached one. *)
Lemma scale_active_ids sn m :
  filter (λ id, si_lifecycle <$> mg_instances m !! id = Some InstanceActive)
    (sort_SliceStable string_ltb (service_instances sn m)) = active_ids sn m.
Proof.
  apply sorted_ids_unique; [apply StronglySorted_filter, sort_strings_sorted|apply active_ids_sorted| | |].
  - apply NoDup_filter. rewrite (sort_SliceStable_perm _ _). apply NoDup_service_instances.
  - apply NoDup_active_ids.
  - intros id. rewrite elem_of_active_ids, list_elem_of_filter, (sort_SliceStable_perm _ _).
    rewrite elem_of_service_instances, fmap_Some. naive_solver.
Qed.

(** ** Scaling *)

Lemma rebuild_mg_ok m :
  0 ≤ mg_nextInstanceID m → core (mg_nextInstanceID m) m →
  mg_ok (ResourceManager_rebuildSortedInstanceCache m).
Proof. intros Hn Hc. destruct (rebuild_ok _ m Hc). by split_and!. Qed.
Lemma sort_nil_inv {A} (less : A → A → bool) l : sort_SliceStable less l = [] → l = [].
Proof. intros H. apply Permutation_nil_r. by rewrite <- H, (sort_SliceStable_perm less l). Qed.
(** A service with an instance has an active one. *)
Lemma core_active_ids n m sn :
  core n m → service_instances sn m ≠ [] → ∃ id l, active_ids sn m = id :: l.
Proof.
  intros Hc Hne. destruct (service_instances sn m) as [|id l] eqn:E; [done|].
  assert (Hin : id ∈ service_instances sn m) by (rewrite E; by left).
  apply elem_of_service_instances in Hin as (i & Hi & Hs).
  destruct (core_active n m Hc id i Hi) as (id' & i' & ? & ? & ?).
  assert (Hact : id' ∈ active_ids sn m).
  { apply elem_of_active_ids. exists i'. split_and!; congruence. }
  destruct (active_ids sn m); [by apply elem_of_nil in Hact|eauto].
Qed.

(** What scaling returns, case by case. *)
Lemma scale_service_cases clock now sn n opts m :
  mg_ok m → 1 ≤ n → service_instances sn m ≠ [] →
  let simTime := if IsZero (so_SimTime opts) then now else so_SimTime opts in
  let deadline := simTime + ResourceManager_effectiveDrainTimeout opts m in
  let act := active_ids sn m in
  ∃ i0, mg_instances m !! hd "" act = Some i0 ∧
    ResourceManager_ScaleServiceWithOptions clock now sn n opts m =
    Ok (if len act <? n then
          if bool_decide (mg_hosts m = ∅) then (Some "no hosts available", m)
          else
            match scale_up clock sn (si_cpuCores i0) (si_memoryMB i0) (Z.to_nat (n - len act)) m with
            | (Some e, m') => (Some e, m')
            | (None, m') => (None, ResourceManager_rebuildSortedInstanceCache m')
            end
        else if n <? len act then
          (None, ResourceManager_rebuildSortedInstanceCache
                   (drain_all deadline (drop (Z.to_nat n) act) m))
        else (None, m)).
Proof.
  intros (Hn & Hc & _) H1 Hne simTime deadline act.
  destruct (core_active_ids _ m sn Hc Hne) as (id & l & Ea).
  assert (Hid : id ∈ active_ids sn m) by (rewrite Ea; by left).
  apply elem_of_active_ids in Hid as (i0 & Hi0 & _).
  exists i0. unfold act. rewrite Ea. split; [done|].
  unfold ResourceManager_ScaleServiceWithOptions. rewrite (proj2 (Z.ltb_ge n 1)) by lia. cbv zeta.
  rewrite scale_active_ids. rewrite Ea.
  destruct (sort_SliceStable _ (service_instances sn m)) eqn:Es; [by apply sort_nil_inv in Es|].
  destruct (len (id :: l) <? n); [case_bool_decide; [done|]|by destruct (n <? len (id :: l))].
  cbn [index go_bind Z.ltb Z.compare Z.to_nat lookup list_lookup]. unfold index; simpl. rewrite Hi0.
  by destruct (scale_up _ _ _ _ _ _) as [[]].
Qed.

Lemma add_instance_active clock s h n cpu mem m sn :
  mg_instances m !! instance_name s n = None →
  active_ids sn (add_instance clock s h n cpu mem m) ≡ₚ
    (if String.eqb s sn then [instance_name s n] else []) ++ active_ids sn m.
Proof.
  intros Hfr. apply NoDup_Permutation; [apply NoDup_active_ids| |].
  - apply NoDup_app. split_and!; [|intros id Hid|apply NoDup_active_ids].
    + destruct (String.eqb s sn); [apply NoDup_singleton|constructor].
    + destruct (String.eqb s sn); [apply list_elem_of_singleton in Hid as ->|by apply elem_of_nil in Hid].
      rewrite elem_of_active_ids. intros (i & Hi & _). congruence.
  - intros id. rewrite elem_of_app, !elem_of_active_ids.
    change (mg_instances (add_instance clock s h n cpu mem m)) with
      (<[instance_name s n := NewServiceInstance (clock n) (instance_name s n) s h cpu mem]>
         (mg_instances m)).
    destruct (String.eqb_spec s sn) as [->|Hs]; rewrite ?list_elem_of_singleton, ?elem_of_nil;
      setoid_rewrite lookup_insert_Some; [|naive_solver].
    split; [naive_solver|]. intros [->|(i & Hi & ? & ?)]; [by eexists; split; [left|]|].
    exists i. split; [right|done]. split; [congruence|done].
Qed.
(** Scaling up adds [k] active instances, or stops early with an error; it
    changes no instance that exists. *)
Lemma scale_up_spec clock s cpu mem k : ∀ m err m',
  mg_ok m → scale_up clock s cpu mem k m = (err, m') →
  mg_instances m ⊆ mg_instances m' ∧
  (∀ sn, sn ≠ s → active_ids sn m' ≡ₚ active_ids sn m) ∧
  (err = None → len (active_ids s m') = len (active_ids s m) + Z.of_nat k).
Proof.
  induction k as [|k IH]; intros m err m' Hm; cbn [scale_up].
  { intros [= <- <-]. split_and!; [done|done|lia]. }
  destruct (ResourceManager_pickHostForNewInstanceLocked s cpu mem m) as [h| |] eqn:E;
    [|by intros [= <- <-]..].
  set (m1 := add_instance _ _ _ _ _ _ _). intros Hup. destruct Hm as (Hn & Hc & Hca).
  pose proof (core_fresh _ m s Hc Hn) as Hfr.
  apply IH in Hup as (Hsub & Hoth & Hlen).
  - assert (Hact : ∀ sn, active_ids sn m1 ≡ₚ
      (if String.eqb s sn then [instance_name s (mg_nextInstanceID m)] else []) ++ active_ids sn m).
    { intros sn. change (active_ids sn m)
        with (active_ids sn (m <| mg_nextInstanceID := mg_nextInstanceID m + 1 |>)).
      by apply add_instance_active. }
    split_and!.
    + etrans; [|exact Hsub]. by apply insert_subseteq.
    + intros sn Hsn. rewrite Hoth, Hact by done.
      by destruct (String.eqb_spec s sn); [congruence|].
    + intros He. rewrite (Hlen He). unfold len. rewrite (Hact s), String.eqb_refl. simpl. lia.
  - apply pickHost_some in E. by apply add_next_ok.
Qed.
Lemma drain_all_active d ids sn m id :
  id ∈ active_ids sn (drain_all d ids m) ↔ id ∈ active_ids sn m ∧ (id ∉ ids).
Proof.
  rewrite !elem_of_active_ids. setoid_rewrite drain_all_lookup.
  destruct (decide (id ∈ ids)) as [Hin|Hin]; [|naive_solver].
  split; [|naive_solver]. intros (i & (i' & _ & ->)%fmap_Some & _ & Hl). by cbv in Hl.
Qed.
Lemma drain_surplus_active d n sn sn' m :
  active_ids sn' (drain_all d (drop n (active_ids sn m)) m)
  = if decide (sn' = sn) then take n (active_ids sn m) else active_ids sn' m.
Proof.
  apply sorted_ids_unique; [apply active_ids_sorted| |apply NoDup_active_ids| |].
  - case_decide; [apply StronglySorted_take|]; apply active_ids_sorted.
  - case_decide; [|apply NoDup_active_ids].
    eapply sublist_NoDup; [apply (NoDup_active_ids sn m)|apply sublist_take].
  - intros id. rewrite drain_all_active. case_decide as Hsn; [subst sn'|].
    + pose proof (NoDup_active_ids sn m) as Hnd.
      rewrite <- (take_drop n (active_ids sn m)) in Hnd. apply NoDup_app in Hnd as (_ & Hdis & _).
      rewrite <- (take_drop n (active_ids sn m)) at 1. rewrite elem_of_app. naive_solver.
    + split; [naive_solver|]. intros Hid. split; [done|]. intros Hd.
      assert (id ∈ active_ids sn m) as Hid2
        by (rewrite <- (take_drop n (active_ids sn m)); apply elem_of_app; by right).
      apply elem_of_active_ids in Hid as (i & ? & ? & _).
      apply elem_of_active_ids in Hid2 as (i2 & ? & ? & _). congruence.
Qed.
Lemma drain_surplus_ok d n sn m :
  mg_ok m → (0 < n)%nat → active_ids sn m ≠ [] →
  mg_ok (ResourceManager_rebuildSortedInstanceCache (drain_all d (drop n (active_ids sn m)) m)).
Proof.
  intros (Hn & Hc & _) Hpos Hne. destruct (drain_all_frame d (drop n (active_ids sn m)) m)
    as (_ & _ & _ & En & _).
  apply rebuild_mg_ok; rewrite En; [done|].
  pose proof (NoDup_active_ids sn m) as Hnd.
  assert (Hin : ∀ id, id ∈ active_ids sn m → ∃ i, mg_instances m !! id = Some i ∧
    si_serviceName i = sn ∧ si_lifecycle i = InstanceActive) by (intros id; apply elem_of_active_ids).
  destruct (active_ids sn m) as [|id l]; [done|]. destruct n as [|n]; [lia|].
  destruct (Hin id) as (i0 & Hi0 & Hs & Hl); [by left|].
  apply (drain_all_core d _ id i0); [done..| |].
  - simpl. inversion_clear Hnd as [|? ? Hni ?]. intros Hx. apply Hni.
    rewrite <- (take_drop n l). apply elem_of_app. by right.
  - intros x Hx. destruct (Hin x) as (i & Hi & Hsi & _).
    { simpl in Hx. right. rewrite <- (take_drop n l). apply elem_of_app. by right. }
    exists i. by rewrite Hs.
Qed.
Lemma scale_service_ok clock now sn n opts m :
  mg_ok m → ∃ r, ResourceManager_ScaleServiceWithOptions clock now sn n opts m = Ok r ∧ mg_ok (snd r).
Proof.
  intros Hm. destruct (Z.ltb_spec n 1) as [Hlt|Hge].
  { unfold ResourceManager_ScaleServiceWithOptions. rewrite (proj2 (Z.ltb_lt n 1)) by lia. eauto. }
  destruct (decide (service_instances sn m = [])) as [He|Hne].
  { unfold ResourceManager_ScaleServiceWithOptions. rewrite (proj2 (Z.ltb_ge n 1)) by lia.
    rewrite He. simpl. eauto. }
  destruct (scale_service_cases clock now sn n opts m Hm Hge Hne) as (i0 & Hi0 & ->).
  eexists. split; [done|].
  destruct (len (active_ids sn m) <? n); [case_bool_decide; [done|]|].
  - pose proof (scale_up_ok clock sn (si_cpuCores i0) (si_memoryMB i0)
      (Z.to_nat (n - len (active_ids sn m))) m Hm) as Hu.
    destruct (scale_up _ _ _ _ _ _) as [[e|] m']; [done|]. destruct Hu as (? & ? & _).
    by apply rebuild_mg_ok.
  - destruct (n <? len (active_ids sn m)); [|done]. apply drain_surplus_ok; [done|lia|].
    destruct Hm as (_ & Hc & _). by destruct (core_active_ids _ m sn Hc Hne) as (? & ? & ->).
Qed.

(** ** Removing the drained instances *)

Definition remove_all (now t : Time) (ev : bool) (ids : list string) (m : ResourceManager)
    : ResourceManager :=
  foldl (λ m id, snd (ResourceManager_removeInstanceLocked now id t ev m)) m ids.
Lemma remove_all_lookup now t ev ids : ∀ m k,
  mg_instances (remove_all now t ev ids m) !! k
  = if decide (k ∈ ids) then None else mg_instances m !! k.
Proof.
  induction ids as [|id ids IH]; intros m k; [done|]. unfold remove_all in *. simpl.
  rewrite IH, removeInstance_lookup. repeat case_decide; try done; set_unfold; naive_solver.
Qed.
Definition all_draining (ids : list string) (m : ResourceManager) : Prop :=
  ∀ id i, id ∈ ids → mg_instances m !! id = Some i → si_lifecycle i = InstanceDraining.
Lemma remove_all_ok now t ev ids : ∀ m,
  mg_ok m → all_draining ids m → mg_ok (remove_all now t ev ids m).
Proof.
  induction ids as [|id ids IH]; intros m Hm Hd; [done|]. unfold remove_all in *. simpl. apply IH.
  - destruct (mg_instances m !! id) as [i|] eqn:Hi.
    + eapply removeInstance_ok; [done..|]. eapply Hd; [by left|done].
    + unfold ResourceManager_removeInstanceLocked. by rewrite Hi.
  - intros k i Hk. rewrite removeInstance_lookup. case_decide; [done|]. apply Hd. by right.
Qed.
(** The queued requests of an instance, without the empty IDs. *)
Definition queued_ids (id : string) (m : ResourceManager) : list string :=
  from_option (λ i, filter (λ r, r ≠ "") (si_requestQueue i)) [] (mg_instances m !! id).
Lemma removeInstance_dropped now id t m :
  fst (ResourceManager_removeInstanceLocked now id t true m) = queued_ids id m.
Proof.
  unfold ResourceManager_removeInstanceLocked, queued_ids. by destruct (mg_instances m !! id).
Qed.
Lemma list_bind_ext_in {A B} (f g : A → list B) l :
  (∀ x, x ∈ l → f x = g x) → l ≫= f = l ≫= g.
Proof.
  induction l as [|x l IH]; intros H; csimpl; [done|].
  rewrite (H x) by (by left). f_equal. apply IH. intros y ?. apply H. by right.
Qed.
Lemma evict_all_spec now t ids : ∀ ds m,
  NoDup ids →
  foldl (λ '(ds, m) id,
    let '(d, m) := ResourceManager_removeInstanceLocked now id t true m in (ds ++ d, m)) (ds, m) ids
  = (ds ++ (ids ≫= λ id, queued_ids id m), remove_all now t true ids m).
Proof.
  induction ids as [|id ids IH]; intros ds m Hnd; [by rewrite app_nil_r|]. inversion_clear Hnd.
  cbn [foldl]. pose proof (removeInstance_dropped now id t m) as Hd.
  pose proof (removeInstance_lookup now id t true m) as Hl.
  unfold remove_all. cbn [foldl].
  destruct (ResourceManager_removeInstanceLocked now id t true m) as [d m'] eqn:E. simpl in Hd, Hl.
  rewrite IH by done. subst d. rewrite <- app_assoc. simpl. do 3 f_equal.
  apply list_bind_ext_in. intros k Hk. unfold queued_ids. rewrite Hl.
  case_decide; [congruence|done].
Qed.

(** What a draining pass removes. *)
Definition drained (simTime : Time) (i : ServiceInstance) : bool :=
  is_draining i && (drain_idle i || drain_timed_out simTime i).
Definition evicted (simTime : Time) (i : ServiceInstance) : bool :=
  is_draining i && negb (drain_idle i) && drain_timed_out simTime i.
Lemma elem_of_visit {A} order (M : gmap string A) k x :
  (k, x) ∈ visit order M ↔ k ∈ order ∧ M !! k = Some x.
Proof.
  unfold visit. rewrite list_elem_of_omap. split.
  - intros (k' & Hk & (y & Hy & [= -> ->])%fmap_Some). done.
  - intros [Hk Hx]. exists k. by rewrite Hx.
Qed.
Lemma visit_fst {A} order (M : gmap string A) : fst <$> visit order M = filter (λ k, is_Some (M !! k)) order.
Proof.
  induction order as [|k order IH]; [done|]. rewrite filter_cons. unfold visit in *. csimpl.
  destruct (M !! k) eqn:E; csimpl; by rewrite IH.
Qed.

Lemma visit_NoDup {A} order (M : gmap string A) : NoDup order → NoDup (fst <$> visit order M).
Proof. intros. rewrite visit_fst. by apply NoDup_filter. Qed.
Lemma NoDup_fst_filter {A} (P : string * A → Prop) `{∀ x, Decision (P x)} (l : list (string * A)) :
  NoDup (fst <$> l) → NoDup (fst <$> filter P l).
Proof. intros Hl. eapply sublist_NoDup; [exact Hl|]. apply fmap_sublist, sublist_filter. Qed.
Lemma NoteSimTime_skeleton t m : same_skeleton m (ResourceManager_NoteSimTime t m).
Proof. unfold ResourceManager_NoteSimTime. by case_match. Qed.
Lemma NoteSimTime_instances t m : mg_instances (ResourceManager_NoteSimTime t m) = mg_instances m.
Proof. unfold ResourceManager_NoteSimTime. by case_match. Qed.

(** The IDs a pass removes: of idle draining instances, and of timed-out ones. *)
Definition idle_ids (order : list string) (m : ResourceManager) : list string :=
  fst <$> filter (λ kv, drain_idle (snd kv) = true)
    (filter (λ kv, is_draining (snd kv) = true) (visit order (mg_instances m))).
Definition evicted_ids (order : list string) (simTime : Time) (m : ResourceManager) : list string :=
  fst <$> filter (λ kv, drain_timed_out simTime (snd kv) && negb (drain_idle (snd kv)) = true)
    (filter (λ kv, is_draining (snd kv) = true) (visit order (mg_instances m))).
Lemma elem_of_idle_ids order m id :
  id ∈ idle_ids order m ↔
  id ∈ order ∧ ∃ i, mg_instances m !! id = Some i ∧ is_draining i = true ∧ drain_idle i = true.
Proof.
  unfold idle_ids. rewrite list_elem_of_fmap. setoid_rewrite list_elem_of_filter.
  setoid_rewrite list_elem_of_filter. split.
  - intros ([k i] & -> & ? & ? & [? ?]%elem_of_visit). simpl in *. eauto.
  - intros (? & i & ? & ? & ?). exists (id, i). by rewrite elem_of_visit.
Qed.
Lemma elem_of_evicted_ids order t m id :
  id ∈ evicted_ids order t m ↔
  id ∈ order ∧ ∃ i, mg_instances m !! id = Some i ∧ evicted t i = true.
Proof.
  unfold evicted_ids, evicted. rewrite list_elem_of_fmap. setoid_rewrite list_elem_of_filter.
  setoid_rewrite list_elem_of_filter. split.
  - intros ([k i] & -> & [? ?]%andb_true_iff & Hd & [? ?]%elem_of_visit). simpl in *.
    split; [done|]. exists i. rewrite Hd. split; [done|]. by rewrite !andb_true_iff.
  - intros (? & i & ? & [[? ?]%andb_true_iff ?]%andb_true_iff). exists (id, i).
    rewrite elem_of_visit. simpl. by rewrite andb_true_iff.
Qed.
Lemma process_draining_eq order now simTime m :
  NoDup order →
  let m0 := ResourceManager_NoteSimTime simTime m in
  let m1 := remove_all now simTime false (idle_ids order m)
              (remove_all now simTime true (evicted_ids order simTime m) m0) in
  ResourceManager_ProcessDrainingInstances order now simTime m
  = (evicted_ids order simTime m ≫= λ id, queued_ids id m,
     if 0 <? len (idle_ids order m) + len (evicted_ids order simTime m)
     then ResourceManager_rebuildSortedInstanceCache m1 else m1).
Proof.
  intros Hnd m0 m1. unfold ResourceManager_ProcessDrainingInstances. fold m0.
  unfold m1, m0. clear m1 m0. cbv zeta. rewrite !NoteSimTime_instances.
  fold (evicted_ids order simTime m) (idle_ids order m).
  rewrite evict_all_spec by (by apply NoDup_fst_filter, NoDup_fst_filter, visit_NoDup).
  f_equal. apply list_bind_ext_in. intros id _. unfold queued_ids. by rewrite NoteSimTime_instances.
Qed.
Lemma process_draining_lookup order now simTime m id :
  NoDup order → (∀ k, is_Some (mg_instances m !! k) → k ∈ order) →
  mg_instances (snd (ResourceManager_ProcessDrainingInstances order now simTime m)) !! id
  = match mg_instances m !! id with
    | Some i => if drained simTime i then None else Some i
    | None => None
    end.
Proof.
  intros Hnd Hord. rewrite process_draining_eq by done. cbv zeta. cbn [snd].
  set (m1 := remove_all _ _ _ _ _).
  transitivity (mg_instances m1 !! id); [by destruct (0 <? _)|]. unfold m1.
  rewrite !remove_all_lookup, NoteSimTime_instances.
  destruct (mg_instances m !! id) as [i|] eqn:Hi; [|by repeat case_decide].
  assert (Hin : id ∈ order) by (apply Hord; by rewrite Hi).
  assert (Hd : drained simTime i = true ↔ id ∈ idle_ids order m ∨ id ∈ evicted_ids order simTime m).
  { rewrite elem_of_idle_ids, elem_of_evicted_ids, Hi. unfold drained, evicted.
    rewrite !andb_true_iff, orb_true_iff. split.
    - intros (Hdr & Hor). destruct (drain_idle i) eqn:Ei; [left; eauto|right].
      destruct Hor as [|Ht]; [done|]. split; [done|]. exists i. by rewrite Hdr, Ei, Ht.
    - intros [(_ & j & [= <-] & ? & ?)|(_ & j & [= <-] & H)]; [tauto|].
      rewrite !andb_true_iff in H. tauto. }
  destruct (drained simTime i); [destruct (proj1 Hd eq_refl)|]; repeat case_decide; naive_solver.
Qed.
Lemma process_draining_ok order now simTime m :
  NoDup order → mg_ok m →
  mg_ok (snd (ResourceManager_ProcessDrainingInstances order now simTime m)).
Proof.
  intros Hnd Hm. rewrite process_draining_eq by done. cbv zeta. cbn [snd].
  assert (H1 : mg_ok (remove_all now simTime false (idle_ids order m)
    (remove_all now simTime true (evicted_ids order simTime m) (ResourceManager_NoteSimTime simTime m)))).
  { apply remove_all_ok; [apply remove_all_ok|].
    - eapply same_skeleton_ok; [apply NoteSimTime_skeleton|done].
    - intros id i Hid. rewrite NoteSimTime_instances.
      apply elem_of_evicted_ids in Hid as (_ & j & -> & Hj). intros [= <-].
      unfold evicted, is_draining in Hj. rewrite !andb_true_iff, bool_decide_eq_true in Hj. tauto.
    - intros id i Hid. rewrite remove_all_lookup, NoteSimTime_instances. case_decide; [done|].
      apply elem_of_idle_ids in Hid as (_ & j & -> & Hj%bool_decide_eq_true & _). by intros [= <-]. }
  destruct (0 <? _); [|done]. destruct H1 as (? & ? & _). by apply rebuild_mg_ok.
Qed.

(** ** Hosts *)

Definition auto_host (n : Z) : string := "host-auto-" +:+ Itoa n.
Lemma auto_host_inj a b : auto_host a = auto_host b → a = b.
Proof. intros H. unfold auto_host in H. apply (inj (String.app _)) in H. by apply (inj pretty) in H. Qed.
(** The loop of [ScaleOutHosts] ends: it skips at most the numbers in use. *)
Lemma add_hosts_spec fuel cores mem target : ∀ next (hosts : gmap string Host) (X : gset string),
  (∀ j, next ≤ j → is_Some (hosts !! auto_host j) → auto_host j ∈ X) →
  target - Z.of_nat (size hosts) + Z.of_nat (size X) ≤ Z.of_nat fuel →
  ∃ hosts', add_hosts fuel cores mem target next hosts = Some hosts' ∧ hosts ⊆ hosts' ∧
    Z.of_nat (size hosts') = Z.max target (Z.of_nat (size hosts)) ∧
    ∀ id h, hosts' !! id = Some h → hosts !! id = None → h = NewHost id cores mem.
Proof.
  induction fuel as [|fuel IH]; intros next hosts X HX Hf; cbn [add_hosts];
    destruct (Z.leb_spec target (Z.of_nat (size hosts))) as [Hle|Hgt].
  1, 3: exists hosts; split_and!; [done..|lia|congruence].
  { lia. }
  fold (auto_host next). destruct (hosts !! auto_host next) as [h0|] eqn:Eh.
  - assert (HinX : auto_host next ∈ X) by (apply HX; [lia|by rewrite Eh]).
    apply (IH _ _ (X ∖ {[auto_host next]})).
    + intros j Hj Hs. apply elem_of_difference. split; [apply HX; [lia|done]|].
      rewrite elem_of_singleton. intros ?%auto_host_inj. lia.
    + rewrite size_difference by set_solver. rewrite size_singleton.
      assert (size X ≠ 0)%nat by (rewrite size_non_empty_iff; set_solver). lia.
  - destruct (IH (next + 1) (<[auto_host next := NewHost (auto_host next) cores mem]> hosts) X)
      as (hosts' & E & Hsub & Hsz & Hnew).
    + intros j Hj Hs. apply HX; [lia|]. rewrite lookup_insert_ne in Hs; [done|].
      intros ?%auto_host_inj. lia.
    + rewrite map_size_insert_None by done. lia.
    + rewrite map_size_insert_None in Hsz by done. exists hosts'. split_and!; [done| |lia|].
      * etrans; [by apply insert_subseteq|done].
      * intros id h Hid Hno. destruct (decide (auto_host next = id)) as [<-|Hne].
        -- eapply lookup_weaken in Hsub; [|apply lookup_insert_eq]. congruence.
        -- apply Hnew; [done|]. by rewrite lookup_insert_ne.
Qed.
Lemma more_hosts_ok hosts m : mg_ok m → mg_hosts m ⊆ hosts → mg_ok (m <| mg_hosts := hosts |>).
Proof.
  intros Hm Hsub. eapply same_skeleton_ok; [|done]. split_and!; try done.
  intros h [x Hx]. simpl. eapply lookup_weaken in Hsub; [|done]. by rewrite Hsub.
Qed.
Lemma map_hosts_ok f m : mg_ok m → mg_ok (m <| mg_hosts := f <$> mg_hosts m |>).
Proof.
  intros Hm. eapply same_skeleton_ok; [|done]. split_and!; try done.
  intros h [x Hx]. simpl. rewrite lookup_fmap, Hx. by eexists.
Qed.
Lemma scale_out_hosts_eq order target m :
  Z.of_nat (size (mg_hosts m)) < target → (∃ id, id ∈ order ∧ is_Some (mg_hosts m !! id)) →
  ∃ template hosts, ResourceManager_ScaleOutHosts order target m
      = Some (Ok (m <| mg_hosts := hosts |>)) ∧
    mg_hosts m ⊆ hosts ∧ Z.of_nat (size hosts) = target ∧
    (∃ id, mg_hosts m !! id = Some template) ∧
    ∀ id h, hosts !! id = Some h → mg_hosts m !! id = None →
      h = NewHost id (h_cpuCores template) (h_memoryGB template).
Proof.
  intros Hlt (id0 & Hid0 & h0 & Hh0). unfold ResourceManager_ScaleOutHosts.
  rewrite (proj2 (Z.leb_gt _ _) Hlt).
  assert (Hsz : (size (mg_hosts m) ≠ 0)%nat).
  { rewrite map_size_empty_iff. intros E. by rewrite E in Hh0. }
  rewrite (proj2 (Z.eqb_neq _ 0)) by lia.
  assert (Hv : (id0, h0) ∈ visit order (mg_hosts m)) by (by apply elem_of_visit).
  assert (Hin : ∀ kv, kv ∈ visit order (mg_hosts m) → mg_hosts m !! kv.1 = Some kv.2).
  { intros [k x] [_ ?]%elem_of_visit. done. }
  destruct (visit order (mg_hosts m)) as [|[tid t] rest]; [by apply elem_of_nil in Hv|].
  destruct (add_hosts_spec (Z.to_nat target) (h_cpuCores t) (h_memoryGB t) target
    (Z.of_nat (size (mg_hosts m)) + 1) (mg_hosts m) (dom (mg_hosts m))) as (hosts & -> & Hsub & Hs & Hn).
  - intros j _ Hj. by apply elem_of_dom.
  - rewrite size_dom. lia.
  - exists t, hosts. split_and!; [done..|lia| |done]. exists tid. apply (Hin (tid, t)). by left.
Qed.

Definition remove_host (id : string) (m : ResourceManager) : ResourceManager :=
  m <| mg_hosts := delete id (mg_hosts m) |> <| mg_hostToInstances := delete id (mg_hostToInstances m) |>.
Lemma remove_host_ok h m :
  default [] (mg_hostToInstances m !! h) = [] → mg_ok m → mg_ok (remove_host h m).
Proof.
  intros He (Hn & [Hname Hhost Hidx Hnd Hact Hrr] & Hc).
  assert (Hdel : ∀ h', default [] (delete h (mg_hostToInstances m) !! h')
                       = default [] (mg_hostToInstances m !! h')).
  { intros h'. destruct (decide (h = h')) as [->|]; [by rewrite lookup_delete_eq, He|].
    by rewrite lookup_delete_ne. }
  split; [done|]. split; [|done]. constructor; simpl; try done.
  - intros id i Hi. destruct (Hhost id i Hi) as [Hs Hin]. rewrite Hdel. split; [|done].
    rewrite lookup_delete_ne; [done|]. intros ->. rewrite He in Hin. by apply elem_of_nil in Hin.
  - intros h' id. rewrite Hdel. apply Hidx.
  - intros h'. rewrite Hdel. apply Hnd.
Qed.
Definition remove_hosts (ids : list string) (m : ResourceManager) : ResourceManager :=
  foldl (λ m id, remove_host id m) m ids.
Lemma remove_hosts_spec ids : ∀ m,
  NoDup ids → (∀ id, id ∈ ids → is_Some (mg_hosts m !! id) ∧ default [] (mg_hostToInstances m !! id) = []) →
  mg_ok m →
  let m' := remove_hosts ids m in
  mg_ok m' ∧ mg_instances m' = mg_instances m ∧
  (∀ id, mg_hosts m' !! id = if decide (id ∈ ids) then None else mg_hosts m !! id) ∧
  (size (mg_hosts m') + length ids = size (mg_hosts m))%nat.
Proof.
  induction ids as [|x ids IH]; intros m Hnd Hids Hm; [by split_and!; [..|simpl; lia]|].
  inversion_clear Hnd as [|? ? Hx Hnd']. destruct (Hids x) as [Hsx Hex]; [by left|].
  destruct (IH (remove_host x m)) as (Hok & Hi & Hl & Hsz); [done| |by apply remove_host_ok|].
  { intros id Hid. assert (x ≠ id) by (by intros ->). simpl. rewrite !lookup_delete_ne by done.
    apply Hids. by right. }
  split_and!; [done|done| |].
  - intros id. change (remove_hosts (x :: ids) m) with (remove_hosts ids (remove_host x m)).
    rewrite Hl. simpl. destruct (decide (x = id)) as [->|Hne].
    + rewrite lookup_delete_eq, (decide_True (P := id ∈ id :: ids)) by (by left). by case_decide.
    + rewrite lookup_delete_ne by done. repeat case_decide; try done; set_unfold; naive_solver.
  - change (remove_hosts (x :: ids) m) with (remove_hosts ids (remove_host x m)).
    cbn [length]. rewrite Nat.add_succ_r, Hsz. simpl. rewrite map_size_delete.
    destruct Hsx as [y Hy]. rewrite Hy. simpl.
    assert (size (mg_hosts m) ≠ 0)%nat by (rewrite map_size_empty_iff; intros E; by rewrite E in Hy).
    lia.
Qed.

(** The order in which empty hosts are removed. *)
Definition removed_before (a b : string) : Prop :=
  HasPrefix b "host-auto-" = true →
  HasPrefix a "host-auto-" = true ∧ auto_number b ≤ auto_number a.
Definition empty_host (m : ResourceManager) (id : string) : Prop :=
  is_Some (mg_hosts m !! id) ∧ default [] (mg_hostToInstances m !! id) = [].
Lemma elem_of_scale_in_candidates order m id :
  id ∈ scale_in_candidates order m ↔ id ∈ order ∧ empty_host m id.
Proof.
  unfold scale_in_candidates, empty_host. rewrite elem_of_app, (sort_SliceStable_perm _ _).
  rewrite visit_fst, !list_elem_of_filter. destruct (HasPrefix id "host-auto-"); naive_solver.
Qed.
Lemma NoDup_scale_in_candidates order m : NoDup order → NoDup (scale_in_candidates order m).
Proof.
  intros Hnd. unfold scale_in_candidates. rewrite (sort_SliceStable_perm _ _).
  apply (visit_NoDup order (mg_hosts m)) in Hnd. apply NoDup_app. split_and!.
  - by apply NoDup_filter, NoDup_filter.
  - intros id [H1 _]%list_elem_of_filter [H2 _]%list_elem_of_filter. congruence.
  - by apply NoDup_filter, NoDup_filter.
Qed.
Lemma StronglySorted_vacuous (l : list string) :
  (∀ b, b ∈ l → HasPrefix b "host-auto-" = false) → StronglySorted removed_before l.
Proof.
  induction l as [|x l IH]; intros H; constructor.
  - apply IH. intros b ?. apply H. by right.
  - apply Forall_forall. intros b Hb Hp. rewrite H in Hp; [done|by right].
Qed.
Lemma StronglySorted_impl_in {A} (R R' : relation A) l :
  (∀ a b, a ∈ l → b ∈ l → R a b → R' a b) → StronglySorted R l → StronglySorted R' l.
Proof.
  intros H Hs. induction Hs as [|x l Hl IH Hx]; constructor.
  - apply IH. intros a b ??. apply H; by right.
  - rewrite Forall_forall in *. intros b ?. apply H; [by left|by right|auto].
Qed.
Lemma scale_in_candidates_sorted order m :
  StronglySorted removed_before (scale_in_candidates order m).
Proof.
  unfold scale_in_candidates. apply StronglySorted_app. split_and!.
  - intros a b _ [Hb _]%list_elem_of_filter. unfold removed_before. by rewrite Hb.
  - eapply (StronglySorted_impl_in (λ a b, auto_number b ≤ auto_number a)).
    + intros a b Ha Hb Hle. rewrite (sort_SliceStable_perm _ _), list_elem_of_filter in Ha.
      intros _. split; [apply Ha|done].
    + apply sort_SliceStable_sorted; [intros ???; simpl; lia|intros; lia..].
  - apply StronglySorted_vacuous. intros b [? _]%list_elem_of_filter. done.
Qed.
Lemma StronglySorted_take_drop {A} (R : relation A) n l a b :
  StronglySorted R l → a ∈ take n l → b ∈ drop n l → R a b.
Proof.
  intros H. rewrite <- (take_drop n l), StronglySorted_app in H. intros. by apply H.
Qed.
