(* ===== verification/ResourceSpec.v ===== *)
(** Properties of the resource manager: the invariant holds in every reachable
    state, placements respect host capacity, and what scaling, draining, host
    scaling and round-robin selection do. *)
From S2P Require Import Prelude GoFloat Utils Policy Config BrokerQueue Instance ResourceManager.
From S2P Require Import Routing ResourceLaws.
From Stdlib Require Import SpecFloat.
#[local] Open Scope string_scope.
#[local] Open Scope list_scope.
#[local] Open Scope Z_scope.

(** * Placement *)

Lemma go_fold_inv {A S} (P : S → Prop) (f : S → A → go S) :
  (∀ s x s', P s → f s x = Ok s' → P s') → ∀ l s s', P s → go_fold f s l = Ok s' → P s'.
Proof.
  intros Hf. induction l as [|x l IH]; intros s s' Hs; simpl; [by intros [= <-]|].
  rewrite go_bind_ok. intros (s1 & H1 & H2). eauto.
Qed.

(** The reservations on a host are within its capacity. *)
Definition host_within (m : ResourceManager) (hostID : string) (h : Host) : Prop :=
  let l := ResourceManager_collectInstancesForHost hostID m in
  fleb (reserved_cpu l) (fadd (f64_of_Z (h_cpuCores h)) cpu_eps) = true ∧
  fleb (reserved_mem l) (fadd (hostMemoryCapacityMB h) mem_eps) = true.
(** Every host that has an instance is within its capacity. *)
Definition capacity_ok (m : ResourceManager) : Prop :=
  ∀ hostID h, mg_hosts m !! hostID = Some h →
    default [] (mg_hostToInstances m !! hostID) ≠ [] → host_within m hostID h.

Lemma collect_add_instance clock s h n cpu mem m h' :
  0 ≤ n → core n m →
  ResourceManager_collectInstancesForHost h' (add_instance clock s h n cpu mem m)
  = ResourceManager_collectInstancesForHost h' m
    ++ (if decide (h = h') then [NewServiceInstance (clock n) (instance_name s n) s h cpu mem] else []).
Proof.
  intros Hn Hc. pose proof (core_fresh n m s Hc Hn) as Hfr.
  unfold ResourceManager_collectInstancesForHost, instances_of, add_instance. simpl.
  assert (Hold : omap (λ id, <[instance_name s n := NewServiceInstance (clock n) (instance_name s n) s h cpu mem]>
      (mg_instances m) !! id) (default [] (mg_hostToInstances m !! h'))
    = omap (λ id, mg_instances m !! id) (default [] (mg_hostToInstances m !! h'))).
  { apply list_omap_ext, Forall_Forall2_diag, Forall_forall. intros id Hid.
    rewrite lookup_insert_ne; [done|]. intros <-.
    destruct (core_index n m Hc h' _ Hid) as (i & Hi & _). congruence. }
  case_decide as Hh; [subst h'|].
  - rewrite lookup_insert_eq. simpl. rewrite omap_app, Hold. f_equal. csimpl.
    by rewrite lookup_insert_eq.
  - rewrite lookup_insert_ne, app_nil_r by done. exact Hold.
Qed.
Lemma reserved_cpu_snoc l i : reserved_cpu (l ++ [i]) = fadd (reserved_cpu l) (si_cpuCores i).
Proof. unfold reserved_cpu. by rewrite foldl_app. Qed.
Lemma reserved_mem_snoc l i : reserved_mem (l ++ [i]) = fadd (reserved_mem l) (si_memoryMB i).
Proof. unfold reserved_mem. by rewrite foldl_app. Qed.
(** A new instance that fits keeps every host within its capacity. *)
Lemma add_instance_capacity clock s h n cpu mem m host :
  0 ≤ n → core n m → capacity_ok m → mg_hosts m !! h = Some host →
  (let l := ResourceManager_collectInstancesForHost h m in
   host_fits host (reserved_cpu l) (reserved_mem l) cpu mem = true) →
  capacity_ok (add_instance clock s h n cpu mem m).
Proof.
  intros Hn Hc Hcap Hh Hfit h' host' Hh'. unfold host_within. rewrite collect_add_instance by done.
  unfold add_instance in *. simpl in Hh'.
  case_decide as Heq; [subst h'|].
  - intros _. rewrite lookup_alter_eq, Hh in Hh'. injection Hh' as <-.
    apply andb_true_iff in Hfit. rewrite reserved_cpu_snoc, reserved_mem_snoc. exact Hfit.
  - rewrite lookup_alter_ne in Hh' by done. simpl. rewrite lookup_insert_ne, app_nil_r by done.
    by apply Hcap.
Qed.

(** The placement loop: [svcs] are the services placed so far. *)
Definition placed_in_zone (svcs : list Service) (m : ResourceManager) : Prop :=
  ∀ id i, mg_instances m !! id = Some i →
    ∃ svc h, svc ∈ svcs ∧ svc_ID svc = si_serviceName i ∧
             mg_hosts m !! si_hostID i = Some h ∧ zone_ok (svc_Placement svc) h = true.
Record place_inv (svcs : list Service) (hosts : list string) (st : PlaceState) : Prop := mkPlaceInv {
  pi_n : 0 ≤ st.1.2;
  pi_core : core st.1.2 st.1.1;
  pi_cap : capacity_ok st.1.1;
  pi_load : ∀ h, default (f0, f0) (st.2 !! h)
                 = (reserved_cpu (ResourceManager_collectInstancesForHost h st.1.1),
                    reserved_mem (ResourceManager_collectInstancesForHost h st.1.1));
  pi_zone : placed_in_zone svcs st.1.1;
}.
(** The part of the manager that placement reads. *)
Definition same_placement (m m' : ResourceManager) : Prop :=
  mg_instances m' = mg_instances m ∧ mg_hosts m' = mg_hosts m ∧
  mg_hostToInstances m' = mg_hostToInstances m ∧ mg_roundRobinIdx m' = mg_roundRobinIdx m.
Lemma same_placement_trans m1 m2 m3 :
  same_placement m1 m2 → same_placement m2 m3 → same_placement m1 m3.
Proof. intros (?&?&?&?) (?&?&?&?). split_and!; congruence. Qed.
Lemma same_placement_core n m m' : same_placement m m' → core n m → core n m'.
Proof. intros (E1 & E2 & E3 & E4) []. constructor; rewrite ?E1, ?E2, ?E3, ?E4; done. Qed.
Lemma same_placement_collect m m' h :
  same_placement m m' →
  ResourceManager_collectInstancesForHost h m' = ResourceManager_collectInstancesForHost h m.
Proof.
  intros (E1 & E2 & E3 & E4). unfold ResourceManager_collectInstancesForHost, instances_of.
  by rewrite E1, E3.
Qed.
Lemma same_placement_capacity m m' : same_placement m m' → capacity_ok m → capacity_ok m'.
Proof.
  intros Hs Hc h host. pose proof Hs as (E1 & E2 & E3 & E4). rewrite E2, E3. unfold host_within.
  rewrite (same_placement_collect m m') by done. apply Hc.
Qed.
Lemma same_placement_active m m' sn : same_placement m m' → active_ids sn m' = active_ids sn m.
Proof. intros (E1 & _). unfold active_ids, service_instances. by rewrite E1. Qed.
Lemma register_routing_placement svc m : same_placement m (register_routing svc m).
Proof.
  unfold register_routing. generalize (svc_Endpoints svc). intros eps.
  assert (H : ∀ m, same_placement m (foldl (λ m ep,
    match ep_Routing ep with
    | Some r => m <| mg_endpointRouting :=
                  <[svc_ID svc +:+ ":" +:+ ep_Path ep := r]> (mg_endpointRouting m) |>
    | None => m end) m eps)).
  { induction eps as [|ep eps IH]; intros m0; [done|]. simpl.
    destruct (ep_Routing ep); [|apply IH]. eapply same_placement_trans; [|apply IH]. done. }
  destruct (svc_Routing svc); [|apply H]. eapply same_placement_trans; [|apply H]. done.
Qed.

Lemma place_replica_inv clock svc cpu mem hosts svcs st r st' :
  svc ∈ svcs → place_inv svcs hosts st → place_replica clock svc cpu mem hosts st r = Ok st' →
  place_inv svcs hosts st' ∧
  ∀ sn, len (active_ids sn st'.1.1)
        = len (active_ids sn st.1.1) + (if String.eqb (svc_ID svc) sn then 1 else 0).
Proof.
  intros Hsvc [Hn Hc Hcap Hload Hz]. destruct st as [[m n] load]. simpl in *.
  unfold place_replica. destruct (find_first _ _) as [hid|] eqn:Ef; [|done].
  apply find_first_Some in Ef as [_ Ef]. destruct (mg_hosts m !! hid) as [h|] eqn:Eh; [|done].
  rewrite Hload in *. intros [= <-]. apply andb_true_iff in Ef as [[Ez _]%andb_true_iff Efit].
  pose proof (core_fresh n m (svc_ID svc) Hc Hn) as Hfr.
  split; [constructor|]; cbn [fst snd].
  - lia.
  - apply add_instance_core; [done..|by rewrite Eh].
  - by apply (add_instance_capacity _ _ _ _ _ _ _ h).
  - intros h'. rewrite collect_add_instance by done. case_decide as Hh; [subst h'|].
    + rewrite lookup_insert_eq, reserved_cpu_snoc, reserved_mem_snoc. done.
    + by rewrite lookup_insert_ne, app_nil_r.
  - intros id i. unfold add_instance. simpl. rewrite lookup_insert_Some.
    intros [[<- <-]|[Hne Hi]].
    + exists svc, (Host_AddService (instance_name (svc_ID svc) n) h). simpl.
      rewrite lookup_alter_eq, Eh. done.
    + destruct (Hz id i Hi) as (svc' & h' & ? & ? & Hh' & Hz').
      destruct (decide (hid = si_hostID i)) as [->|].
      * exists svc', (Host_AddService (instance_name (svc_ID svc) n) h').
        rewrite lookup_alter_eq, Hh'. done.
      * exists svc', h'. by rewrite lookup_alter_ne.
  - intros sn. unfold len. rewrite add_instance_active by done. rewrite length_app.
    destruct (String.eqb (svc_ID svc) sn); simpl; lia.
Qed.
Lemma place_replicas_inv clock svc cpu mem hosts svcs : svc ∈ svcs → ∀ rs st st',
  place_inv svcs hosts st → go_fold (place_replica clock svc cpu mem hosts) st rs = Ok st' →
  place_inv svcs hosts st' ∧
  ∀ sn, len (active_ids sn st'.1.1)
        = len (active_ids sn st.1.1) + (if String.eqb (svc_ID svc) sn then len rs else 0).
Proof.
  intros Hsvc. induction rs as [|r rs IH]; intros st st' Hi; simpl.
  { intros [= <-]. split; [done|]. intros sn. rewrite len_nil. case_match; lia. }
  rewrite go_bind_ok. intros (st1 & H1 & H2).
  destruct (place_replica_inv _ _ _ _ _ _ _ _ _ Hsvc Hi H1) as [Hi1 E1].
  destruct (IH _ _ Hi1 H2) as [Hi2 E2]. split; [done|]. intros sn. rewrite E2, E1.
  rewrite len_cons. case_match; lia.
Qed.
(** The replicas the services of a list ask for under one ID. *)
Definition replicas_of (sn : string) (svcs : list Service) : Z :=
  foldr (λ svc acc, (if String.eqb (svc_ID svc) sn then Z.max 0 (svc_Replicas svc) else 0) + acc)
    0 svcs.
Lemma place_services_inv clock hosts svcs : ∀ todo st st',
  (∀ svc, svc ∈ todo → svc ∈ svcs) → place_inv svcs hosts st →
  go_fold (place_service clock hosts) st todo = Ok st' →
  place_inv svcs hosts st' ∧
  ∀ sn, len (active_ids sn st'.1.1) = len (active_ids sn st.1.1) + replicas_of sn todo.
Proof.
  induction todo as [|svc todo IH]; intros st st' Hin Hi; simpl.
  { intros [= <-]. split; [done|]. intros sn. lia. }
  rewrite go_bind_ok. intros (st1 & H1 & H2). destruct st as [[m n] load]. unfold place_service in H1.
  pose proof (register_routing_placement svc m) as Hrr.
  apply (place_replicas_inv _ _ _ _ _ svcs) in H1 as [Hi1 E1].
  - destruct (IH _ _ (λ s Hs, Hin s (list_elem_of_further _ _ _ Hs)) Hi1 H2) as [Hi2 E2].
    split; [done|]. intros sn. rewrite E2, E1. cbn [fst]. rewrite (same_placement_active m) by done.
    unfold len at 2. rewrite length_seq. case_match; lia.
  - apply Hin. by left.
  - destruct Hi as [Hn Hc Hcap Hload Hz]. constructor; cbn [fst snd] in *; [done|..].
    + by eapply same_placement_core.
    + by eapply same_placement_capacity.
    + intros h. rewrite (same_placement_collect m) by done. apply Hload.
    + destruct Hrr as (E1' & E2' & _). unfold placed_in_zone. by rewrite E1', E2'.
Qed.

(** A manager fresh from a scenario. *)
Lemma initialize_inv clock scn m :
  ResourceManager_InitializeFromScenario clock scn NewManager = Ok m →
  mg_ok m ∧ capacity_ok m ∧ placed_in_zone (scn_Services scn) m ∧
  ∀ sn, len (active_ids sn m) = replicas_of sn (scn_Services scn) ∧
        (mg_sortedServiceInstMap m !! sn
         = if decide (sn ∈ active_services m) then Some (active_ids sn m) else None).
Proof.
  unfold ResourceManager_InitializeFromScenario. set (m0 := NewManager <| mg_hosts := _ |>).
  destruct (sorted_keys (mg_hosts m0)) as [|h0 hs] eqn:Ek; [done|].
  rewrite go_bind_ok. intros ([[m1 n] load] & Hf & [= <-]).
  apply (place_services_inv _ _ (scn_Services scn)) in Hf as [[Hn Hc Hcap _ Hz] Hlen]; [|done|].
  - cbn [fst snd] in *. split_and!.
    + apply rebuild_mg_ok; [done|]. by apply (proj2 (core_next _ _ _)).
    + exact Hcap.
    + exact Hz.
    + intros sn. split; [|cbn; by rewrite lookup_list_to_map_fn].
      transitivity (len (active_ids sn m1)); [done|]. rewrite Hlen. done.
  - constructor; cbn [fst snd]; [lia| | | |].
    + constructor; simpl; try (intros *; by rewrite lookup_empty).
      * intros h id. rewrite lookup_empty. simpl. by intros ?%elem_of_nil.
      * intros h. rewrite lookup_empty. constructor.
    + intros h host _. simpl. by rewrite lookup_empty.
    + intros h. rewrite lookup_list_to_map_fn. by case_decide.
    + intros id i. simpl. by rewrite lookup_empty.
Qed.

(** * Reachable managers *)

(** The operations of the manager, with the map orders and clocks they see. *)
Inductive MgOp :=
  | OpSelect (sn : string)
  | OpSelectRequest (intn : Z → Z) (sn : string) (req : option RouteRequest) (simTime : Time)
  | OpScaleService (now : Time) (sn : string) (n : Z) (opts : ScaleServiceOptions)
  | OpProcessDraining (order : list string) (now simTime : Time)
  | OpNoteSimTime (t : Time)
  | OpSetDrainTimeout (d : Duration)
  | OpScaleOut (order : list string) (target : Z)
  | OpScaleIn (order : list string) (target : Z)
  | OpIncrease (cpu mem : Z)
  | OpDecrease (order : list string) (cpu mem : Z)
  | OpResize (iorder horder : list string) (sn : string) (cpu mem headroom : float64)
  | OpReserveCPU (id : string) (t : Time) (ms : float64)
  | OpReserveDB (id : string) (t : Time) (ms : float64) (slots : Z)
  | OpReleaseDB (id : string)
  | OpRollback (id : string) (a b : Time)
  | OpAllocateCPU (now : Time) (id : string) (ms : float64) (t : Time)
  | OpReleaseCPU (now : Time) (id : string) (ms : float64) (t : Time)
  | OpAllocateMemory (id : string) (mb : float64)
  | OpReleaseMemory (id : string) (mb : float64)
  | OpEnqueue (id r : string)
  | OpDequeue (id : string)
  | OpBrokerQueue (b t : string) (eff : option QueueBehavior)
  | OpBrokerTopic (b t : string) (p : Z) (g : string) (eff : option TopicBehavior)
      (sub : option TopicSubscriber).
(** The state after a call that fails without a change. *)
Definition or_same (m : ResourceManager) (r : go ResourceManager) : option ResourceManager :=
  match r with Ok m' => Some m' | Fail _ => Some m | Panic => None end.
(** The manager after an operation; [None] if the call panics or does not return. *)
Definition mg_apply (clock : Z → Time) (op : MgOp) (m : ResourceManager) : option ResourceManager :=
  match op with
  | OpSelect sn => or_same m (let! r := ResourceManager_SelectInstanceForService sn m in Ok (snd r))
  | OpSelectRequest intn sn req t =>
      or_same m (let! r := ResourceManager_SelectInstanceForRequest intn sn req t m in Ok (snd r))
  | OpScaleService now sn n opts =>
      or_same m (let! r := ResourceManager_ScaleServiceWithOptions clock now sn n opts m in Ok (snd r))
  | OpProcessDraining o now t => Some (snd (ResourceManager_ProcessDrainingInstances o now t m))
  | OpNoteSimTime t => Some (ResourceManager_NoteSimTime t m)
  | OpSetDrainTimeout d => Some (ResourceManager_SetScaleDownDrainTimeout d m)
  | OpScaleOut o n => ResourceManager_ScaleOutHosts o n m ≫= or_same m
  | OpScaleIn o n => or_same m (ResourceManager_ScaleInHosts o n m)
  | OpIncrease c g => Some (ResourceManager_IncreaseHostCapacity c g m)
  | OpDecrease o c g => or_same m (ResourceManager_DecreaseHostCapacity o c g m)
  | OpResize io ho sn c mb hr =>
      or_same m (ResourceManager_UpdateServiceResourcesWithHeadroom io ho sn c mb hr m)
  | OpReserveCPU id t ms => or_same m (let! r := ResourceManager_ReserveCPUWork id t ms m in Ok (snd r))
  | OpReserveDB id t ms k => or_same m (let! r := ResourceManager_ReserveDBWork id t ms k m in Ok (snd r))
  | OpReleaseDB id => Some (ResourceManager_ReleaseDBConnection id m)
  | OpRollback id a b => Some (ResourceManager_RollbackCPUTailReservation id a b m)
  | OpAllocateCPU now id ms t => or_same m (ResourceManager_AllocateCPU now id ms t m)
  | OpReleaseCPU now id ms t => Some (ResourceManager_ReleaseCPU now id ms t m)
  | OpAllocateMemory id mb => or_same m (ResourceManager_AllocateMemory id mb m)
  | OpReleaseMemory id mb => Some (ResourceManager_ReleaseMemory id mb m)
  | OpEnqueue id r => or_same m (ResourceManager_EnqueueRequest id r m)
  | OpDequeue id => Some (snd (ResourceManager_DequeueRequest id m))
  | OpBrokerQueue b t e => Some (snd (ResourceManager_GetBrokerQueue b t e m))
  | OpBrokerTopic b t p g e s =>
      Some (snd (ResourceManager_GetBrokerTopicSubscriberPartitionShard b t p g e s m))
  end.
(** A map iteration visits every key once. *)
Definition visits_all {A} (order : list string) (M : gmap string A) : Prop :=
  NoDup order ∧ ∀ k, k ∈ order ↔ is_Some (M !! k).
(** [rand.Intn] draws from [0, n). *)
Definition intn_ok (intn : Z → Z) : Prop := ∀ n, 0 < n → 0 ≤ intn n < n.
Definition mg_op_ok (op : MgOp) (m : ResourceManager) : Prop :=
  match op with
  | OpSelectRequest intn _ _ _ => intn_ok intn
  | OpProcessDraining o _ _ => visits_all o (mg_instances m)
  | OpScaleOut o _ | OpScaleIn o _ | OpDecrease o _ _ => visits_all o (mg_hosts m)
  | OpResize io ho _ _ _ _ => visits_all io (mg_instances m) ∧ visits_all ho (mg_hosts m)
  | _ => True
  end.
Inductive mg_reachable (clock : Z → Time) : ResourceManager → Prop :=
  | reach_init scn m :
      ResourceManager_InitializeFromScenario clock scn NewManager = Ok m → mg_reachable clock m
  | reach_op op m m' :
      mg_reachable clock m → mg_op_ok op m → mg_apply clock op m = Some m' → mg_reachable clock m'.

(** ** Calls that change one instance or the brokers only *)

(** Work on an instance keeps its ID, service, host and lifecycle. *)
Ltac inst_sig_tac := intros; unfold inst_sig; cbv zeta; repeat case_match; simplify_eq; reflexivity.
Lemma sig_ReserveCPU t ms i a b i' :
  ServiceInstance_ReserveCPUWork t ms i = (a, b, i') → inst_sig i' = inst_sig i.
Proof. unfold ServiceInstance_ReserveCPUWork. inst_sig_tac. Qed.
Lemma sig_ReserveDB t ms k i a b c d i' :
  ServiceInstance_ReserveDBWork t ms k i = (a, b, c, d, i') → inst_sig i' = inst_sig i.
Proof.
  unfold ServiceInstance_ReserveDBWork. destruct (k <=? 0); [by intros [= _ _ _ _ <-]|].
  destruct (default _ _) as [x y]. by intros [= _ _ _ _ <-].
Qed.
Lemma sig_Dequeue i r i' : ServiceInstance_DequeueRequest i = (r, i') → inst_sig i' = inst_sig i.
Proof. unfold ServiceInstance_DequeueRequest. inst_sig_tac. Qed.
Lemma sig_ReleaseDB i : inst_sig (ServiceInstance_ReleaseDBConnection i) = inst_sig i.
Proof. unfold ServiceInstance_ReleaseDBConnection. inst_sig_tac. Qed.
Lemma sig_Rollback a b i : inst_sig (ServiceInstance_RollbackCPUTailReservation a b i) = inst_sig i.
Proof. unfold ServiceInstance_RollbackCPUTailReservation. inst_sig_tac. Qed.
Lemma sig_AllocateCPU ms t i : inst_sig (ServiceInstance_AllocateCPU ms t i) = inst_sig i.
Proof. unfold ServiceInstance_AllocateCPU. inst_sig_tac. Qed.
Lemma sig_ReleaseCPU ms t i : inst_sig (ServiceInstance_ReleaseCPU ms t i) = inst_sig i.
Proof. unfold ServiceInstance_ReleaseCPU. inst_sig_tac. Qed.
Lemma sig_ReleaseMemory mb i : inst_sig (ServiceInstance_ReleaseMemory mb i) = inst_sig i.
Proof. unfold ServiceInstance_ReleaseMemory. inst_sig_tac. Qed.
Lemma sig_resize c mb i : inst_sig (resize_instance c mb i) = inst_sig i.
Proof. unfold resize_instance. inst_sig_tac. Qed.
#[export] Hint Resolve sig_ReserveCPU sig_ReserveDB sig_Dequeue sig_ReleaseDB sig_Rollback
  sig_AllocateCPU sig_ReleaseCPU sig_ReleaseMemory sig_resize : skel.

(** The operations that keep the signatures, the hosts, the index and the cache. *)
Definition keeps_skeleton (op : MgOp) : bool :=
  match op with
  | OpNoteSimTime _ | OpSetDrainTimeout _ | OpReserveCPU _ _ _ | OpReserveDB _ _ _ _ | OpReleaseDB _
  | OpRollback _ _ _ | OpAllocateCPU _ _ _ _ | OpReleaseCPU _ _ _ _ | OpAllocateMemory _ _
  | OpReleaseMemory _ _ | OpEnqueue _ _ | OpDequeue _ | OpBrokerQueue _ _ _
  | OpBrokerTopic _ _ _ _ _ _ | OpResize _ _ _ _ _ _ => true
  | _ => false
  end.
Lemma resize_fold_skeleton c mb (l : list (string * ServiceInstance)) : ∀ m,
  same_skeleton m (foldl (λ m kv, update_instance kv.1 (resize_instance c mb) m) m l).
Proof.
  induction l as [|x l IH]; intros m; [apply same_skeleton_refl|]. simpl.
  eapply same_skeleton_trans; [|apply IH]. apply update_instance_skeleton, sig_resize.
Qed.
Lemma resize_skeleton io ho sn c mb hr m m' :
  ResourceManager_UpdateServiceResourcesWithHeadroom io ho sn c mb hr m = Ok m' → same_skeleton m m'.
Proof.
  unfold ResourceManager_UpdateServiceResourcesWithHeadroom. case_match; [done|].
  destruct (filter _ _) as [|kv l]; [done|]. intros Hr. go_inv.
  apply (resize_fold_skeleton c mb (kv :: l)).
Qed.
Lemma go_each_no_panic {A} (f : A → go unit) l : (∀ x, f x ≠ Panic) → go_each f l ≠ Panic.
Proof.
  intros Hf. unfold go_each. induction l as [|x l IH]; simpl; [done|].
  specialize (Hf x). destruct (f x) as [[]| |]; [exact IH|done|done].
Qed.
Lemma fail_if_no_panic b e : fail_if b e ≠ Panic.
Proof. by destruct b. Qed.
Lemma go_bind_no_panic {A B} (a : go A) (k : A → go B) :
  a ≠ Panic → (∀ x, k x ≠ Panic) → go_bind a k ≠ Panic.
Proof. intros Ha Hk. destruct a; simpl; [apply Hk|done|done]. Qed.
Create HintDb nopanic.
#[export] Hint Resolve go_each_no_panic fail_if_no_panic go_bind_no_panic : nopanic.
Lemma resize_no_panic io ho sn c mb hr m :
  ResourceManager_UpdateServiceResourcesWithHeadroom io ho sn c mb hr m ≠ Panic.
Proof.
  unfold ResourceManager_UpdateServiceResourcesWithHeadroom. case_match; [done|].
  destruct (filter _ _) as [|kv l]; [done|]. cbv zeta.
  apply go_bind_no_panic; [|intros _; apply go_bind_no_panic; [|done]]; apply go_each_no_panic.
  - intros x. apply go_bind_no_panic; auto with nopanic.
  - intros [h host]. unfold check_resize_host. case_match; [done|].
    apply go_bind_no_panic; auto with nopanic.
Qed.
(** An update of one instance followed by one of its host. *)
Lemma update_both_skeleton id f h g m :
  (∀ i, inst_sig (f i) = inst_sig i) → same_skeleton m (update_host h g (update_instance id f m)).
Proof.
  intros Hf. eapply same_skeleton_trans; [by apply update_instance_skeleton|apply update_host_skeleton].
Qed.
#[export] Hint Resolve update_both_skeleton insert_instance_skeleton : skel.
Lemma keeps_skeleton_ok clock op m :
  keeps_skeleton op = true → ∃ m', mg_apply clock op m = Some m' ∧ same_skeleton m m'.
Proof.
  destruct op; try done; intros _; cbn [mg_apply or_same].
  - eexists. split; [done|]. apply NoteSimTime_skeleton.
  - eexists. split; [done|]. unfold ResourceManager_SetScaleDownDrainTimeout. by case_match.
  - pose proof (resize_no_panic iorder horder sn cpu mem headroom m) as Hp.
    destruct (ResourceManager_UpdateServiceResourcesWithHeadroom _ _ _ _ _ _ _) as [m'| |] eqn:E;
      [|by eexists|done].
    exists m'. split; [done|]. by eapply resize_skeleton.
  - unfold ResourceManager_ReserveCPUWork. destruct (mg_instances m !! id) eqn:E; [|by eexists].
    destruct (ServiceInstance_ReserveCPUWork _ _ _) as [[??] ?] eqn:?.
    eexists. split; [done|]. eapply insert_instance_skeleton; eauto with skel.
  - unfold ResourceManager_ReserveDBWork. destruct (mg_instances m !! id) eqn:E; [|by eexists].
    destruct (ServiceInstance_ReserveDBWork _ _ _ _) as [[[[??]?]?] ?] eqn:?.
    eexists. split; [done|]. eapply insert_instance_skeleton; eauto with skel.
  - eexists. split; [done|]. apply update_instance_skeleton. auto with skel.
  - eexists. split; [done|]. apply update_instance_skeleton. auto with skel.
  - unfold ResourceManager_AllocateCPU. destruct (instance_and_host id m) eqn:E; [|by eexists|].
    + eexists. split; [done|]. apply update_both_skeleton. auto with skel.
    + unfold instance_and_host in E. by repeat case_match.
  - eexists. split; [done|]. unfold ResourceManager_ReleaseCPU.
    destruct (instance_and_host id m); try done. apply update_both_skeleton. auto with skel.
  - unfold ResourceManager_AllocateMemory. destruct (instance_and_host id m) eqn:E; [|by eexists|].
    + cbn [go_bind]. case_match; [by eexists|].
      eexists. split; [done|]. by apply update_both_skeleton.
    + unfold instance_and_host in E. by repeat case_match.
  - eexists. split; [done|]. unfold ResourceManager_ReleaseMemory.
    destruct (instance_and_host id m); try done. apply update_both_skeleton. auto with skel.
  - unfold ResourceManager_EnqueueRequest. destruct (mg_instances m !! id); [|by eexists].
    eexists. split; [done|]. by apply update_instance_skeleton.
  - eexists. split; [done|]. unfold ResourceManager_DequeueRequest.
    destruct (mg_instances m !! id) eqn:E; [|done].
    destruct (ServiceInstance_DequeueRequest _) eqn:?.
    eapply insert_instance_skeleton; eauto with skel.
  - eexists. split; [done|]. unfold ResourceManager_GetBrokerQueue. by case_match.
  - eexists. split; [done|]. unfold ResourceManager_GetBrokerTopicSubscriberPartitionShard. by case_match.
Qed.

(** ** Selection *)

Lemma select_eq sn m l :
  mg_ok m → mg_sortedServiceInstMap m !! sn = Some l →
  let idx := default 0 (mg_roundRobinIdx m !! sn) in
  0 ≤ idx < len l ∧
  ∃ id, l !! Z.to_nat idx = Some id ∧
    ResourceManager_SelectInstanceForService sn m
    = Ok (id, m <| mg_roundRobinIdx := <[sn := Z.rem (idx + 1) (len l)]> (mg_roundRobinIdx m) |>).
Proof.
  intros (_ & Hc & Hca) Hl. destruct (Hca sn l Hl) as (Hne & _ & Hlt & _).
  pose proof (core_rr _ m Hc sn) as H0. cbv zeta. split; [done|].
  set (idx := default 0 (mg_roundRobinIdx m !! sn)) in *.
  destruct (lookup_lt_is_Some_2 l (Z.to_nat idx)) as [id Hid]; [unfold len in Hlt; lia|].
  exists id. split; [done|]. unfold ResourceManager_SelectInstanceForService. rewrite Hl.
  change (default [] (Some l)) with l. fold idx. destruct l as [|x l]; [done|].
  unfold index. rewrite (proj2 (Z.ltb_ge idx 0)), Hid by lia. done.
Qed.
(** Moving the round-robin index of a service inside its cached list. *)
Lemma set_rr_ok sn k l m :
  mg_ok m → mg_sortedServiceInstMap m !! sn = Some l → 0 ≤ k < len l →
  mg_ok (m <| mg_roundRobinIdx := <[sn := k]> (mg_roundRobinIdx m) |>).
Proof.
  intros (Hn & [] & Hca) Hl Hk. split; [done|]. split; [constructor; try done|]; simpl.
  - intros sn'. destruct (decide (sn = sn')) as [->|]; [rewrite lookup_insert_eq; simpl; lia|].
    by rewrite lookup_insert_ne.
  - intros sn' l' Hl'. cbn in Hl'. destruct (Hca sn' l' Hl') as (? & ? & ? & ?). split_and!; try done. simpl.
    destruct (decide (sn = sn')) as [->|]; [|by rewrite lookup_insert_ne].
    rewrite lookup_insert_eq. simpl. rewrite Hl in Hl'. injection Hl' as <-. lia.
Qed.
Lemma select_ok sn m :
  mg_ok m →
  match ResourceManager_SelectInstanceForService sn m with
  | Ok (_, m') => mg_ok m' | Fail _ => True | Panic => False
  end.
Proof.
  intros Hm. destruct (mg_sortedServiceInstMap m !! sn) as [l|] eqn:Hl.
  - destruct (select_eq sn m l Hm Hl) as (Hidx & id & Hid & ->).
    eapply set_rr_ok; [done..|]. apply Z.rem_bound_pos; lia.
  - unfold ResourceManager_SelectInstanceForService. by rewrite Hl.
Qed.

(** ** Routing *)

Lemma locality_candidates l pol req m :
  l ≠ [] →
  let c := ResourceManager_applyLocalityPreferenceLocked l pol req m in
  c ≠ [] ∧ c `sublist_of` l ∧
  ∀ z, requested_zone pol req = Some z → (∃ id, id ∈ l ∧ in_zone z m id = true) →
       ∀ id, id ∈ c → in_zone z m id = true.
Proof.
  intros Hl. unfold ResourceManager_applyLocalityPreferenceLocked.
  destruct (requested_zone pol req) as [z|]; [|done].
  destruct (filter _ l) as [|x pref] eqn:E; cbv zeta.
  - split_and!; [done..|]. intros z' [= <-] (id & Hid & Hz).
    assert (Hf : id ∈ filter (λ id, in_zone z m id = true) l) by (by apply list_elem_of_filter).
    rewrite E in Hf. by apply elem_of_nil in Hf.
  - split_and!; [done|rewrite <- E; apply sublist_filter|]. intros z' [= <-] _ id. rewrite <- E.
    by intros [? _]%list_elem_of_filter.
Qed.
Lemma index_ok {A} (l : list A) i : 0 ≤ i < len l → ∃ x, index l i = Ok x ∧ l !! Z.to_nat i = Some x.
Proof.
  intros Hi. destruct (lookup_lt_is_Some_2 l (Z.to_nat i)) as [x Hx]; [unfold len in Hi; lia|].
  exists x. unfold index. by rewrite (proj2 (Z.ltb_ge i 0)), Hx by lia.
Qed.
Lemma scan_min_in {A V} (lt : V → V → bool) (val : A → V) l : ∀ b v, scan_min lt val b v l ∈ b :: l.
Proof.
  induction l as [|x l IH]; intros b v; cbn [scan_min]; [by left|].
  destruct (lt (val x) v).
  - specialize (IH x (val x)). set_solver.
  - specialize (IH b v). set_solver.
Qed.
Lemma wheel_pick_in c cum l x : wheel_pick c cum l = Some x → x ∈ l.
Proof.
  revert l. induction cum as [|k cum IH]; intros [|y l]; cbn; try done.
  case_match; [intros [= ->]; by left|]. intros Hw%IH. by right.
Qed.
(** What a routing step must return for candidates [c]; it may fail only if [P]. *)
Definition route_good (P : Prop) (c : list string) (r : go (string * string * ResourceManager)) : Prop :=
  match r with
  | Ok (id, _, m') => id ∈ c ∧ mg_ok m'
  | Fail _ => P
  | Panic => False
  end.
Section route.
Variables (P : Prop) (sn : string) (l c : list string) (m : ResourceManager).
Hypotheses (Hm : mg_ok m) (Hl : mg_sortedServiceInstMap m !! sn = Some l).
Hypotheses (Hc : c ≠ []) (Hsub : c `sublist_of` l).
Lemma cand_len : 0 < len c ≤ len l.
Proof. apply sublist_length in Hsub. unfold len. destruct c; [done|]. simpl in *. lia. Qed.
Lemma route_round_robin_good : route_good P c (route_round_robin sn c m).
Proof.
  unfold route_round_robin, ResourceManager_selectRoundRobinLocked. pose proof cand_len as Hlen.
  pose proof Hm as (_ & Hcore & _). pose proof (core_rr _ m Hcore sn) as H0.
  set (idx := if len c <=? _ then 0 else _).
  assert (Hidx : 0 ≤ idx < len c) by (unfold idx; case_match eqn:E; lia).
  destruct (index_ok c idx Hidx) as (x & -> & Hx). cbn [go_bind fst snd route_good].
  split; [by eapply list_elem_of_lookup_2|]. eapply set_rr_ok; [done..|].
  pose proof (Z.rem_bound_pos (idx + 1) (len c)). lia.
Qed.
Lemma route_weighted_good pol : route_good P c (route_weighted sn pol c m).
Proof.
  unfold route_weighted. case_match; [apply route_round_robin_good|]. cbv zeta.
  assert (Hm' : ∀ w, mg_ok (m <| mg_weightedRoundRobinIdx := w |>)).
  { intros w. by eapply same_skeleton_ok; [|exact Hm]. }
  destruct (wheel_pick _ _ _) as [x|] eqn:E; [split; [by eapply wheel_pick_in|apply Hm']|].
  pose proof cand_len. destruct (index_ok c (len c - 1)) as (x & -> & Hx); [lia|].
  split; [by eapply list_elem_of_lookup_2|apply Hm'].
Qed.
Lemma route_sticky_good pol req : route_good P c (route_sticky sn pol req c m).
Proof.
  unfold route_sticky. destruct pol as [pol|]; [|apply route_round_robin_good].
  destruct req as [req|]; [|apply route_round_robin_good]. cbv zeta.
  case_match; [apply route_round_robin_good|].
  destruct (rq_Metadata req !! _) as [v|]; [|apply route_round_robin_good].
  destruct (c !! _) as [x|] eqn:E; [split; [by eapply list_elem_of_lookup_2|done]|].
  pose proof cand_len. destruct (index_ok c 0) as (x & -> & Hx); [lia|].
  split; [by eapply list_elem_of_lookup_2|done].
Qed.
Lemma select_min_good {V} (lt : V → V → bool) val st :
  route_good P c (let! x := select_min lt val c in Ok (x, st, m)).
Proof. destruct c as [|x rest]; [done|]. split; [apply scan_min_in|done]. Qed.
End route.
(** The instances routing chooses from. *)
Definition candidates (sn : string) (req : option RouteRequest) (m : ResourceManager) : list string :=
  ResourceManager_applyLocalityPreferenceLocked (default [] (mg_sortedServiceInstMap m !! sn))
    (ResourceManager_routingPolicyForRequestLocked sn req m) req m.
(** The strategy in force, after the default. *)
Definition strategy_of (sn : string) (req : option RouteRequest) (m : ResourceManager) : string :=
  match ResourceManager_routingPolicyForRequestLocked sn req m with
  | Some p => normalizeRoutingStrategy (rt_Strategy p)
  | None => RoutingRoundRobin
  end.
Definition known_strategies : list string :=
  [RoutingRoundRobin; RoutingRandom; RoutingLeastConnections; RoutingLeastQueue; RoutingLeastCPU;
   RoutingWeightedRR; RoutingSticky].

(** Routing over a non-empty cache, unfolded. *)
Lemma select_request_eq intn sn req t m :
  default [] (mg_sortedServiceInstMap m !! sn) ≠ [] →
  let c := candidates sn req m in
  let st := strategy_of sn req m in
  let pol := ResourceManager_routingPolicyForRequestLocked sn req m in
  let keep (r : go string) := let! x := r in Ok (x, st, m) in
  ResourceManager_SelectInstanceForRequest intn sn req t m =
  if String.eqb st RoutingRoundRobin then route_round_robin sn c m
  else if String.eqb st RoutingRandom then keep (index c (intn (len c)))
  else if String.eqb st RoutingLeastConnections then keep (select_min Z.ltb (active_requests m) c)
  else if String.eqb st RoutingLeastQueue then keep (select_min Z.ltb (queue_length m) c)
  else if String.eqb st RoutingLeastCPU then keep (select_min fltb (cpu_util_at t m) c)
  else if String.eqb st RoutingWeightedRR then route_weighted sn pol c m
  else if String.eqb st RoutingSticky then route_sticky sn pol req c m
  else Fail ("unsupported routing strategy " +:+ Quote st +:+ " for service " +:+ sn).
Proof.
  intros Hne. unfold ResourceManager_SelectInstanceForRequest, candidates, strategy_of.
  by destruct (default [] _) as [|x l].
Qed.

Lemma not_known st :
  String.eqb st RoutingRoundRobin = false → String.eqb st RoutingRandom = false →
  String.eqb st RoutingLeastConnections = false → String.eqb st RoutingLeastQueue = false →
  String.eqb st RoutingLeastCPU = false → String.eqb st RoutingWeightedRR = false →
  String.eqb st RoutingSticky = false → st ∉ known_strategies.
Proof.
  intros ?%String.eqb_neq ?%String.eqb_neq ?%String.eqb_neq ?%String.eqb_neq ?%String.eqb_neq
    ?%String.eqb_neq ?%String.eqb_neq. unfold known_strategies. set_solver.
Qed.
Lemma select_request_good intn sn req t m :
  mg_ok m → intn_ok intn →
  route_good (default [] (mg_sortedServiceInstMap m !! sn) = [] ∨ strategy_of sn req m ∉ known_strategies)
    (candidates sn req m) (ResourceManager_SelectInstanceForRequest intn sn req t m).
Proof.
  intros Hm Hi.
  destruct (mg_sortedServiceInstMap m !! sn) as [l|] eqn:El; cycle 1.
  { unfold ResourceManager_SelectInstanceForRequest. rewrite El. by left. }
  pose proof Hm as (_ & _ & Hca). destruct (Hca sn l El) as (Hne & _).
  rewrite select_request_eq by (by rewrite El). cbv zeta.
  destruct (locality_candidates l (ResourceManager_routingPolicyForRequestLocked sn req m) req m Hne)
    as (Hc & Hsub & _).
  assert (Ec : candidates sn req m = ResourceManager_applyLocalityPreferenceLocked l
    (ResourceManager_routingPolicyForRequestLocked sn req m) req m) by (unfold candidates; by rewrite El).
  rewrite <- Ec in Hc, Hsub. pose proof (cand_len l _ Hc Hsub) as Hlen.
  destruct (String.eqb _ RoutingRoundRobin) eqn:?; [by eapply route_round_robin_good|].
  destruct (String.eqb _ RoutingRandom) eqn:?.
  { destruct (index_ok (candidates sn req m) (intn (len (candidates sn req m)))) as (x & -> & Hx);
      [apply Hi; lia|].
    split; [by eapply list_elem_of_lookup_2|done]. }
  destruct (String.eqb _ RoutingLeastConnections) eqn:?; [by eapply select_min_good|].
  destruct (String.eqb _ RoutingLeastQueue) eqn:?; [by eapply select_min_good|].
  destruct (String.eqb _ RoutingLeastCPU) eqn:?; [by eapply select_min_good|].
  destruct (String.eqb _ RoutingWeightedRR) eqn:?; [by eapply route_weighted_good|].
  destruct (String.eqb _ RoutingSticky) eqn:?; [by eapply route_sticky_good|].
  right. by apply not_known.
Qed.

(** ** Hosts *)

Lemma scale_in_eq order target m m' :
  NoDup order → mg_ok m → ResourceManager_ScaleInHosts order target m = Ok m' →
  let n := size (mg_hosts m) in
  (m' = m ∧ (Z.of_nat n ≤ Z.max 1 target)) ∨
  ∃ k, (Z.of_nat k = Z.of_nat n - Z.max 1 target) ∧
       (k ≤ length (scale_in_candidates order m))%nat ∧
       m' = remove_hosts (take k (scale_in_candidates order m)) m.
Proof.
  intros Hnd Hm. unfold ResourceManager_ScaleInHosts. cbv zeta.
  destruct (Z.leb_spec (Z.of_nat (size (mg_hosts m))) target); [intros [= <-]; left; split; [done|lia]|].
  destruct (Z.leb_spec (Z.of_nat (size (mg_hosts m))) 1); [intros [= <-]; left; split; [done|lia]|].
  set (t := if target <? 1 then 1 else target).
  assert (Ht : t = Z.max 1 target) by (unfold t; destruct (Z.ltb_spec target 1); lia).
  destruct (Z.leb_spec (Z.of_nat (size (mg_hosts m)) - t) 0); [lia|].
  destruct (Z.ltb_spec (len (scale_in_candidates order m)) (Z.of_nat (size (mg_hosts m)) - t)); [done|].
  intros [= <-]. right. exists (Z.to_nat (Z.of_nat (size (mg_hosts m)) - t)).
  unfold len in *. split_and!; [lia|lia|done].
Qed.
Lemma take_candidates_empty order k m id :
  id ∈ take k (scale_in_candidates order m) → empty_host m id.
Proof.
  intros H. apply (elem_of_scale_in_candidates order). rewrite <- (take_drop k (scale_in_candidates _ _)).
  apply elem_of_app. by left.
Qed.
Lemma NoDup_take {A} k (l : list A) : NoDup l → NoDup (take k l).
Proof. intros. eapply sublist_NoDup; [done|apply sublist_take]. Qed.
Lemma scale_in_ok order target m m' :
  NoDup order → mg_ok m → ResourceManager_ScaleInHosts order target m = Ok m' → mg_ok m'.
Proof.
  intros Hnd Hm H. destruct (scale_in_eq _ _ _ _ Hnd Hm H) as [[-> _]|(k & _ & _ & ->)]; [done|].
  apply remove_hosts_spec; [by apply NoDup_take, NoDup_scale_in_candidates| |done].
  intros id. apply take_candidates_empty.
Qed.
Lemma scale_in_no_panic order target m : ResourceManager_ScaleInHosts order target m ≠ Panic.
Proof. unfold ResourceManager_ScaleInHosts. by repeat case_match. Qed.
Lemma decrease_no_panic order c g m : ResourceManager_DecreaseHostCapacity order c g m ≠ Panic.
Proof.
  unfold ResourceManager_DecreaseHostCapacity. case_match; [done|].
  apply go_bind_no_panic; [|done]. apply go_each_no_panic. intros [h host].
  apply go_bind_no_panic; auto with nopanic.
Qed.

(** No operation panics or loops, and each keeps the invariant. *)
Lemma mg_apply_ok clock op m :
  mg_ok m → mg_op_ok op m → ∃ m', mg_apply clock op m = Some m' ∧ mg_ok m'.
Proof.
  intros Hm Hop. destruct (keeps_skeleton op) eqn:Hk.
  { destruct (keeps_skeleton_ok clock op m Hk) as (m' & E & Hs). exists m'. split; [done|].
    by eapply same_skeleton_ok. }
  destruct op; try done; cbn [mg_apply].
  - pose proof (select_ok sn m Hm). destruct (ResourceManager_SelectInstanceForService sn m) as [[? m']| |];
      [by exists m'|by exists m|done].
  - pose proof (select_request_good intn sn req simTime m Hm Hop) as Hg.
    destruct (ResourceManager_SelectInstanceForRequest intn sn req simTime m) as [[[? ?] m']| |];
      [exists m'; split; [done|apply Hg]|by exists m|done].
  - destruct (scale_service_ok clock now sn n opts m Hm) as ([e m'] & -> & Hm'). by exists m'.
  - eexists. split; [done|]. apply process_draining_ok; [apply Hop|done].
  - destruct Hop as [Hnd Hall]. destruct (Z.leb_spec target (Z.of_nat (size (mg_hosts m)))) as [Hle|Hgt].
    { exists m. unfold ResourceManager_ScaleOutHosts. by rewrite (proj2 (Z.leb_le _ _) Hle). }
    destruct (decide (mg_hosts m = ∅)) as [He|Hne].
    { exists m. unfold ResourceManager_ScaleOutHosts. rewrite (proj2 (Z.leb_gt _ _) Hgt), He. done. }
    destruct (map_choose _ Hne) as (id & h & Hid).
    destruct (scale_out_hosts_eq order target m Hgt) as (t & hosts & -> & Hsub & _).
    { exists id. split; [apply Hall|]; by rewrite Hid. }
    eexists. split; [done|]. by apply more_hosts_ok.
  - destruct Hop as [Hnd _]. pose proof (scale_in_no_panic order target m) as Hp.
    destruct (ResourceManager_ScaleInHosts order target m) as [m'| |] eqn:E; [|by exists m|done].
    exists m'. split; [done|]. by eapply scale_in_ok.
  - eexists. split; [done|]. unfold ResourceManager_IncreaseHostCapacity. case_match; [done|].
    by apply map_hosts_ok.
  - pose proof (decrease_no_panic order cpu mem m) as Hp.
    destruct (ResourceManager_DecreaseHostCapacity order cpu mem m) as [m'| |] eqn:E; [|by exists m|done].
    exists m'. split; [done|]. unfold ResourceManager_DecreaseHostCapacity in E.
    case_match; go_inv; [done|]. by apply map_hosts_ok.
Qed.
Lemma reachable_ok clock m : mg_reachable clock m → mg_ok m.
Proof.
  induction 1 as [scn m H|op m m' _ IH Hop H]; [apply initialize_inv in H; tauto|].
  destruct (mg_apply_ok clock op m IH Hop) as (m2 & E & ?). congruence.
Qed.

(** ** Sample managers *)

Definition demo_clock (n : Z) : Time := 1000 + n.
Definition demo_service (id : string) (replicas : Z) (p : option PlacementPolicy) : Service :=
  mkService id "" "" replicas "cpu" f1 f0 None None None p None [].
Definition demo_scenario : Scenario :=
  mkScenario None None None [mkHostSpec "h1" 2 16 "z1" ∅; mkHostSpec "h2" 2 16 "z2" ∅]
    [demo_service "api" 2 None] [] None.
Definition init_or_new (scn : Scenario) : ResourceManager :=
  match ResourceManager_InitializeFromScenario demo_clock scn NewManager with
  | Ok m => m
  | _ => NewManager
  end.
Definition demo : ResourceManager := init_or_new demo_scenario.
Lemma demo_init : ResourceManager_InitializeFromScenario demo_clock demo_scenario NewManager = Ok demo.
Proof. vm_compute. reflexivity. Qed.
Lemma demo_reachable : mg_reachable demo_clock demo.
Proof. exact (reach_init demo_clock demo_scenario demo demo_init). Qed.
Definition api0 : string := "api-instance-0".
Definition api1 : string := "api-instance-1".

(** * Properties *)

(** C35: in every state the manager can reach from a scenario, instances, hosts,
    the host index and the routing cache agree ([mg_ok]): instance IDs are
    distinct and below the counter, every instance sits on a known host that
    lists it exactly once, every service that has instances has an active one,
    and the cache holds only active instances of its service with the
    round-robin index inside it. No operation on such a state panics or fails
    to return. *)
Theorem resource_manager_consistent clock m :
  mg_reachable clock m →
  mg_ok m ∧ ∀ op, mg_op_ok op m → is_Some (mg_apply clock op m).
Proof.
  intros H%reachable_ok. split; [done|]. intros op Hop.
  destruct (mg_apply_ok clock op m H Hop) as (m' & -> & _). done.
Qed.

Lemma resource_manager_consistent_witness : is_Some (mg_apply demo_clock (OpSelect "api") demo).
Proof. exact (proj2 (resource_manager_consistent demo_clock demo demo_reachable) (OpSelect "api") I). Defined.

(** after a successful initialisation the cache of every service holds
    exactly the replicas its scenario entry asks for, every instance is on a
    host in a zone its placement requires, and the reservations on every host
    are within the host's CPU and memory capacity. *)
Theorem initialize_spec clock scn m :
  ResourceManager_InitializeFromScenario clock scn NewManager = Ok m →
  (∀ sn, ResourceManager_ActiveReplicas sn m = replicas_of sn (scn_Services scn)) ∧
  placed_in_zone (scn_Services scn) m ∧ capacity_ok m.
Proof.
  intros (Hm & Hcap & Hz & Hsn)%initialize_inv. split_and!; [|done..]. intros sn.
  destruct (Hsn sn) as [<- Hc]. unfold ResourceManager_ActiveReplicas. rewrite Hc.
  case_decide as Hin; [done|]. destruct (active_ids sn m) as [|id l] eqn:E; [done|].
  destruct Hin. apply elem_of_active_services. exists id. rewrite E. by left.
Qed.
Lemma initialize_spec_witness : ResourceManager_ActiveReplicas "api" demo = 2.
Proof. exact (proj1 (initialize_spec demo_clock demo_scenario demo demo_init) "api"). Defined.

(** ** Selection *)

(** [k] selections in a row. *)
Fixpoint select_n (k : nat) (sn : string) (m : ResourceManager) : go (list string * ResourceManager) :=
  match k with
  | O => Ok ([], m)
  | S k =>
      let! r := ResourceManager_SelectInstanceForService sn m in
      let! rs := select_n k sn (snd r) in
      Ok (fst r :: fst rs, snd rs)
  end.
(** The elements of a cyclic list from index [start] on. *)
Definition cycle {A} (start k : nat) (l : list A) : list A :=
  omap (λ j, l !! ((start + j) mod length l)%nat) (seq 0 k).
Lemma omap_fmap_compose {A B C} (f : B → option C) (g : A → B) (l : list A) :
  omap f (g <$> l) = omap (f ∘ g) l.
Proof. induction l as [|x l IH]; csimpl; [done|]. by rewrite IH. Qed.
Lemma omap_ext_in {A B} (f g : A → option B) (l : list A) :
  (∀ x, x ∈ l → f x = g x) → omap f l = omap g l.
Proof.
  induction l as [|x l IH]; intros H; csimpl; [done|]. rewrite (H x) by (by left).
  rewrite IH; [done|]. intros y ?. apply H. by right.
Qed.
Lemma cycle_S {A} start k (l : list A) x :
  l !! start = Some x → cycle start (S k) l = x :: cycle ((start + 1) mod length l) k l.
Proof.
  intros Hx. pose proof (lookup_lt_Some _ _ _ Hx) as Hlt. unfold cycle. cbn [seq]. csimpl.
  rewrite Nat.add_0_r, Nat.mod_small, Hx by done. f_equal. rewrite <- fmap_S_seq, omap_fmap_compose.
  apply omap_ext_in. intros j _. simpl. rewrite Nat.Div0.add_mod_idemp_l. do 2 f_equal. lia.
Qed.
Lemma omap_lookup_seq {A} (l : list A) : omap (λ j, l !! j) (seq 0 (length l)) = l.
Proof.
  induction l as [|x l IH]; csimpl; [done|]. f_equal. rewrite <- fmap_S_seq, omap_fmap_compose.
  exact IH.
Qed.
(** One full turn visits every element once. *)
Lemma cycle_turn {A} start (l : list A) :
  (start < length l)%nat → cycle start (length l) l = drop start l ++ take start l.
Proof.
  intros Hlt. unfold cycle.
  assert (E : length l = ((length l - start) + start)%nat) by lia.
  rewrite E at 1. clear E.
  rewrite seq_app, omap_app. f_equal.
  - rewrite <- (omap_lookup_seq (drop start l)) at 1. rewrite length_drop. apply omap_ext_in.
    intros j Hj%elem_of_seq. by rewrite lookup_drop, Nat.mod_small by lia.
  - rewrite <- (omap_lookup_seq (take start l)) at 1. rewrite length_take, Nat.min_l by lia.
    rewrite Nat.add_0_l, <- (Nat.add_0_r (length l - start)), <- fmap_add_seq, omap_fmap_compose.
    apply omap_ext_in. intros j Hj%elem_of_seq. simpl. rewrite lookup_take_lt by lia. f_equal.
    replace (start + (length l - start + j))%nat with (j + 1 * length l)%nat by lia.
    rewrite Nat.Div0.mod_add, Nat.mod_small; lia.
Qed.
Lemma select_n_spec k sn l : ∀ m,
  mg_ok m → mg_sortedServiceInstMap m !! sn = Some l →
  let idx := default 0 (mg_roundRobinIdx m !! sn) in
  ∃ m', select_n k sn m = Ok (cycle (Z.to_nat idx) k l, m') ∧
        mg_ok m' ∧ mg_sortedServiceInstMap m' !! sn = Some l ∧
        default 0 (mg_roundRobinIdx m' !! sn) = (idx + Z.of_nat k) mod len l.
Proof.
  induction k as [|k IH]; intros m Hm Hl idx.
  { exists m. destruct (select_eq sn m l Hm Hl) as ([? ?] & _). split_and!; [done..|].
    rewrite Z.add_0_r, Z.mod_small; done. }
  destruct (select_eq sn m l Hm Hl) as ([H0 Hlt] & id & Hid & Es). fold idx in H0, Hlt, Hid, Es.
  pose proof (select_ok sn m Hm) as Hm1. rewrite Es in Hm1. cbn [select_n]. rewrite Es. cbn [go_bind snd fst].
  set (m1 := m <| mg_roundRobinIdx := _ |>) in *.
  destruct (IH m1 Hm1 Hl) as (m' & Em & Hm' & Hl' & Hr). exists m'.
  assert (Ei : default 0 (mg_roundRobinIdx m1 !! sn) = (idx + 1) mod len l).
  { unfold m1. simpl. rewrite lookup_insert_eq. simpl. rewrite Z.rem_mod_nonneg; lia. }
  rewrite Ei in Em, Hr. rewrite Em. cbn [go_bind fst snd]. split_and!; [|done|done|].
  - rewrite (cycle_S _ _ _ id) by done. do 4 f_equal.
    unfold len. rewrite Z2Nat.inj_mod, Nat2Z.id, Z2Nat.inj_add by lia. done.
  - rewrite Hr, Zplus_mod_idemp_l. f_equal. lia.
Qed.

(** round robin is fair: with [n] instances in the cache, [n] selections in a
    row return each of them exactly once, in the cache's order from the current
    index on, and bring the index back to where it was. *)
Theorem round_robin_fair clock sn l m :
  mg_reachable clock m → mg_sortedServiceInstMap m !! sn = Some l →
  let idx := default 0 (mg_roundRobinIdx m !! sn) in
  ∃ m', select_n (length l) sn m = Ok (drop (Z.to_nat idx) l ++ take (Z.to_nat idx) l, m') ∧
        default 0 (mg_roundRobinIdx m' !! sn) = idx ∧ NoDup l ∧
        ∀ id, id ∈ l → ∃ i, mg_instances m !! id = Some i ∧ si_serviceName i = sn ∧
                            si_lifecycle i = InstanceActive.
Proof.
  intros Hm%reachable_ok Hl idx. destruct (select_eq sn m l Hm Hl) as ([H0 Hlt] & _).
  fold idx in H0, Hlt. destruct (select_n_spec (length l) sn l m Hm Hl) as (m' & E & _ & _ & Hr).
  fold idx in E, Hr. exists m'. destruct Hm as (_ & _ & Hca). destruct (Hca sn l Hl) as (_ & Hnd & _ & Hin).
  split_and!; [|..|done|done].
  - rewrite E, cycle_turn by (unfold len in Hlt; lia). done.
  - rewrite Hr. change (Z.of_nat (length l)) with (len l).
    replace (idx + len l) with (idx + 1 * len l) by lia. rewrite Z_mod_plus_full, Z.mod_small; lia.
Qed.
Lemma round_robin_fair_witness :
  ∃ m', select_n 2 "api" demo = Ok ([api0; api1], m') ∧ default 0 (mg_roundRobinIdx m' !! "api") = 0.
Proof.
  destruct (round_robin_fair demo_clock "api" [api0; api1] demo demo_reachable) as (m' & E & Hr & _).
  { vm_compute. reflexivity. }
  exists m'. split; [exact E|exact Hr].
Defined.

(** ** Scaling a service *)

Lemma rebuild_cache m sn :
  mg_sortedServiceInstMap (ResourceManager_rebuildSortedInstanceCache m) !! sn
  = if decide (sn ∈ active_services m) then Some (active_ids sn m) else None.
Proof. cbn. by rewrite lookup_list_to_map_fn. Qed.
Lemma rebuild_active m sn :
  active_ids sn (ResourceManager_rebuildSortedInstanceCache m) = active_ids sn m.
Proof. done. Qed.
(** C36: scaling an existing service to [n >= 1] replicas never panics. Without an
    error, exactly [n] instances are active afterwards: scaling down keeps the
    first [n] by ID and sets the others draining with the deadline, scaling up
    keeps all active ones, and the cache then holds the active instances.
    Other services keep their active instances, and no instance is removed. *)
Theorem scale_service_spec clock now sn n opts m :
  mg_reachable clock m → 1 ≤ n → service_instances sn m ≠ [] →
  ∃ err m', ResourceManager_ScaleServiceWithOptions clock now sn n opts m = Ok (err, m') ∧
    (∀ id, is_Some (mg_instances m !! id) → is_Some (mg_instances m' !! id)) ∧
    (∀ sn', sn' ≠ sn → active_ids sn' m' ≡ₚ active_ids sn' m) ∧
    (err = None →
      len (active_ids sn m') = n ∧
      (n ≤ len (active_ids sn m) → active_ids sn m' = take (Z.to_nat n) (active_ids sn m)) ∧
      (len (active_ids sn m) ≤ n → mg_instances m ⊆ mg_instances m') ∧
      (n ≠ len (active_ids sn m) → mg_sortedServiceInstMap m' !! sn = Some (active_ids sn m'))).
Proof.
  intros Hm%reachable_ok Hn Hne.
  destruct (scale_service_cases clock now sn n opts m Hm Hn Hne) as (i0 & Hi0 & ->).
  set (act := active_ids sn m) in *. destruct (Z.ltb_spec (len act) n) as [Hup|Hup].
  - case_bool_decide; [eexists _, _; split; [done|]; by split_and!|].
    destruct (scale_up _ _ _ _ _ _) as [err m'] eqn:E.
    destruct (scale_up_spec _ _ _ _ _ _ _ _ Hm E) as (Hsub & Hoth & Hlen). fold act in Hlen.
    assert (Hsome : ∀ id, is_Some (mg_instances m !! id) → is_Some (mg_instances m' !! id)).
    { intros id [i Hi]. exists i. by eapply lookup_weaken. }
    destruct err as [e|]; eexists _, _; (split; [done|]); split_and!; try done. intros _.
    rewrite rebuild_active, (Hlen eq_refl), rebuild_cache.
    assert (len (active_ids sn m') = n) as Hn' by (rewrite (Hlen eq_refl); lia).
    split_and!; [lia|lia|done|]. intros _. rewrite decide_True; [done|].
    apply elem_of_active_services. destruct (active_ids sn m') as [|id l]; [rewrite len_nil in Hn'; lia|].
    exists id. by left.
  - destruct (Z.ltb_spec n (len act)) as [Hdn|Hdn]; eexists _, _; (split; [done|]).
    + set (d := (if IsZero (so_SimTime opts) then now else so_SimTime opts) + _).
      assert (Ha : ∀ sn', active_ids sn' (drain_all d (drop (Z.to_nat n) act) m)
        = if decide (sn' = sn) then take (Z.to_nat n) act else active_ids sn' m)
        by (intros; apply drain_surplus_active).
      split_and!.
      * intros id [i Hi]. cbn. rewrite drain_all_lookup, Hi. case_decide; by eexists.
      * intros sn' Hsn. rewrite rebuild_active, Ha, decide_False by done. done.
      * intros _. rewrite rebuild_active, rebuild_cache, Ha, (decide_True (P := sn = sn)) by done.
        assert (len (take (Z.to_nat n) act) = n) as Hl.
        { unfold len in *. rewrite length_take. lia. }
        split_and!; [done|done|lia|]. intros _. rewrite decide_True; [done|].
        apply elem_of_active_services. rewrite Ha, decide_True by done.
        destruct (take (Z.to_nat n) act) as [|id l]; [rewrite len_nil in Hl; lia|].
        exists id. by left.
    + assert (n = len act) as -> by lia. split_and!; [done..|]. intros _. split_and!; [done| |done|done].
      intros _. fold act. unfold len. by rewrite Nat2Z.id, take_ge.
Qed.
Lemma scale_service_spec_witness :
  ∃ m', ResourceManager_ScaleService demo_clock 5000 "api" 1 demo = Ok (None, m') ∧
        active_ids "api" m' = [api0].
Proof.
  destruct (scale_service_spec demo_clock 5000 "api" 1 (mkScaleOptions zeroTime 0) demo demo_reachable)
    as (err & m' & E & _ & _ & H); [lia|by vm_compute|].
  pose proof E as E'. vm_compute in E'. injection E' as He _. symmetry in He. subst err.
  exists m'. split; [exact E|]. destruct (H eq_refl) as (_ & Ht & _). rewrite Ht; by vm_compute.
Defined.

(** The manager and the error after a scaling call. *)
Definition scaled_manager (r : go (option string * ResourceManager)) : ResourceManager :=
  match r with Ok (_, m) => m | _ => NewManager end.
Definition scale_error (r : go (option string * ResourceManager)) : option string :=
  match r with Ok (e, _) => e | _ => None end.
Definition over_scaled : go (option string * ResourceManager) :=
  ResourceManager_ScaleService demo_clock 5000 "api" 5 demo.
(** a scale-up that runs out of host capacity reports an error but keeps the
    instances it has added, and does not put them in the routing cache: asking
    for the reached number of replicas afterwards succeeds without doing
    anything, and fewer replicas serve traffic than were asked for. *)
Theorem failed_scale_up_leaves_orphans :
  let m1 := scaled_manager over_scaled in
  scale_error over_scaled = Some "no host has capacity for new instance" ∧
  len (active_ids "api" m1) = 4 ∧ ResourceManager_ActiveReplicas "api" m1 = 2 ∧
  ResourceManager_ScaleService demo_clock 6000 "api" 4 m1 = Ok (None, m1).
Proof. split_and!; vm_compute; reflexivity. Qed.

(** ** Draining *)

(** The two reasons to remove a draining instance. *)
Definition idle_drain (i : ServiceInstance) : Prop :=
  si_lifecycle i = InstanceDraining ∧ si_activeRequests i = 0 ∧ si_requestQueue i = [].
Definition overdue_drain (t : Time) (i : ServiceInstance) : Prop :=
  si_lifecycle i = InstanceDraining ∧ ¬ idle_drain i ∧ si_drainDeadline i ≠ 0 ∧ si_drainDeadline i ≤ t.
Lemma drain_idle_iff i : is_draining i = true → drain_idle i = true ↔ idle_drain i.
Proof.
  unfold drain_idle, idle_drain, is_draining, ServiceInstance_QueueLength.
  rewrite bool_decide_eq_true, andb_true_iff, !Z.eqb_eq. intros E. unfold len.
  destruct (si_requestQueue i); simpl; [tauto|]. split; [intros [_ H]; lia|intros (_ & _ & [=])].
Qed.
Lemma drain_timed_out_iff t i :
  drain_timed_out t i = true ↔ si_drainDeadline i ≠ 0 ∧ si_drainDeadline i ≤ t.
Proof. unfold drain_timed_out, IsZero, Before. rewrite andb_true_iff, !negb_true_iff, Z.eqb_neq, Z.ltb_ge. done. Qed.
Lemma evicted_iff t i : evicted t i = true ↔ overdue_drain t i.
Proof.
  unfold evicted, overdue_drain. rewrite !andb_true_iff, negb_true_iff, drain_timed_out_iff.
  destruct (is_draining i) eqn:E.
  - rewrite <- (drain_idle_iff i E). unfold is_draining in E. apply bool_decide_eq_true in E.
    rewrite not_true_iff_false. tauto.
  - unfold is_draining in E. apply bool_decide_eq_false in E. split; [intros [[[=] _] _]|tauto].
Qed.
Lemma drained_iff t i : drained t i = true ↔ idle_drain i ∨ overdue_drain t i.
Proof.
  rewrite <- evicted_iff. unfold drained, evicted. destruct (is_draining i) eqn:E; simpl.
  - rewrite <- (drain_idle_iff i E). destruct (drain_idle i), (drain_timed_out t i); simpl; tauto.
  - unfold idle_drain. unfold is_draining in E. apply bool_decide_eq_false in E.
    split; [intros [=]|intros [H|[=]]; tauto].
Qed.

(** a draining pass removes exactly the draining instances that are idle or
    past their deadline; it leaves the others untouched, takes the removed ones
    off their hosts' lists, keeps the manager consistent, and returns the queued
    request IDs of the evicted ones, and of no other instance. *)
Theorem process_draining_spec clock order now simTime m :
  mg_reachable clock m → visits_all order (mg_instances m) →
  let '(dropped, m') := ResourceManager_ProcessDrainingInstances order now simTime m in
  (∀ id i, mg_instances m' !! id = Some i ↔
     mg_instances m !! id = Some i ∧ ¬ idle_drain i ∧ ¬ overdue_drain simTime i) ∧
  (∀ r, r ∈ dropped ↔ r ≠ "" ∧ ∃ id i, mg_instances m !! id = Some i ∧
                                 overdue_drain simTime i ∧ r ∈ si_requestQueue i) ∧
  (∀ h id, id ∈ default [] (mg_hostToInstances m' !! h) → is_Some (mg_instances m' !! id)) ∧
  mg_ok m'.
Proof.
  intros Hm%reachable_ok [Hnd Hall].
  pose proof (process_draining_ok order now simTime m Hnd Hm) as Hok.
  pose proof (λ id, process_draining_lookup order now simTime m id Hnd (λ k, proj2 (Hall k))) as Hl.
  pose proof (process_draining_eq order now simTime m Hnd) as Heq.
  destruct (ResourceManager_ProcessDrainingInstances order now simTime m) as [dropped m'].
  cbn [snd] in *. injection Heq as -> _. setoid_rewrite <- evicted_iff. split_and!; [| | |done].
  - intros id i. rewrite Hl, evicted_iff. pose proof (drained_iff simTime) as Hd.
    destruct (mg_instances m !! id) as [j|]; [|naive_solver].
    specialize (Hd j). destruct (drained simTime j); naive_solver.
  - intros r. rewrite list_elem_of_bind. setoid_rewrite elem_of_evicted_ids. unfold queued_ids. split.
    + intros (id & Hr & _ & i & Hi & He). rewrite Hi in Hr. cbn in Hr.
      apply list_elem_of_filter in Hr as [? ?]. eauto 10.
    + intros (Hr & id & i & Hi & He & Hq). exists id. split.
      * rewrite Hi. cbn. by apply list_elem_of_filter.
      * split; [apply Hall; by rewrite Hi|]. eauto.
  - intros h id Hid. destruct Hok as (_ & Hc & _).
    destruct (core_index _ _ Hc h id Hid) as (i & -> & _). done.
Qed.
(** A decidable way to see that an order visits a map. *)
Lemma visits_all_list {A} (order : list string) (M : gmap string A) :
  bool_decide (NoDup order) = true → bool_decide (dom M = list_to_set order) = true →
  visits_all order M.
Proof.
  intros Hnd%bool_decide_eq_true Hd%bool_decide_eq_true. split; [done|]. intros k.
  by rewrite <- elem_of_dom, Hd, elem_of_list_to_set.
Qed.
(** A scaled-down service whose second instance still has a queued request. *)
Definition draining_demo : ResourceManager :=
  scaled_manager (ResourceManager_ScaleServiceWithOptions demo_clock 0 "api" 1 (mkScaleOptions 5000 100)
    (from_option id demo (mg_apply demo_clock (OpEnqueue api1 "r1") demo))).
Lemma draining_demo_reachable : mg_reachable demo_clock draining_demo.
Proof.
  eapply (reach_op _ (OpScaleService 0 "api" 1 (mkScaleOptions 5000 100)));
    [eapply (reach_op _ (OpEnqueue api1 "r1")); [exact demo_reachable|done|vm_compute; reflexivity]|done|].
  vm_compute. reflexivity.
Qed.
Lemma process_draining_spec_witness :
  ∃ m', ResourceManager_ProcessDrainingInstances [api0; api1] 0 5100 draining_demo = (["r1"], m') ∧
        mg_instances m' !! api1 = None.
Proof.
  pose proof (process_draining_spec demo_clock [api0; api1] 0 5100 draining_demo
    draining_demo_reachable) as H.
  destruct (ResourceManager_ProcessDrainingInstances [api0; api1] 0 5100 draining_demo) as [d m'] eqn:E.
  exists m'. destruct H as (Hl & _).
  - by apply visits_all_list; vm_compute.
  - split; [|].
    2:{ destruct (mg_instances m' !! api1) as [i|] eqn:Ei; [|done]. exfalso.
        apply Hl in Ei as (Ei & _ & Ho). apply Ho. vm_compute in Ei. injection Ei as <-.
        split_and!; [reflexivity|intros (_ & _ & [=])|intros [=]|intros [=]]. }
    f_equal. apply (f_equal fst) in E. vm_compute in E. by symmetry.
Defined.

(** ** Scaling hosts *)

(** scaling out ends with exactly the target number of hosts: the loop over
    candidate names terminates, existing hosts are untouched, and every new host
    has the capacity of an existing one; without hosts it reports an error. *)
Theorem scale_out_hosts_spec order target m :
  visits_all order (mg_hosts m) → Z.of_nat (size (mg_hosts m)) < target →
  (mg_hosts m = ∅ ∧ ∃ e, ResourceManager_ScaleOutHosts order target m = Some (Fail e)) ∨
  ∃ m' t0 template, ResourceManager_ScaleOutHosts order target m = Some (Ok m') ∧
    ResourceManager_HostCount m' = target ∧ mg_hosts m ⊆ mg_hosts m' ∧
    mg_instances m' = mg_instances m ∧ mg_hosts m !! t0 = Some template ∧
    ∀ id h, mg_hosts m' !! id = Some h → mg_hosts m !! id = None →
      h = NewHost id (h_cpuCores template) (h_memoryGB template).
Proof.
  intros [_ Hall] Hlt. destruct (decide (mg_hosts m = ∅)) as [He|Hne]; [left|right].
  - split; [done|]. eexists. unfold ResourceManager_ScaleOutHosts.
    rewrite (proj2 (Z.leb_gt _ _) Hlt), He. done.
  - destruct (map_choose _ Hne) as (id & h & Hid).
    destruct (scale_out_hosts_eq order target m Hlt) as (t & hosts & -> & Hsub & Hsz & (t0 & Ht) & Hnew).
    { exists id. split; [apply Hall|]; by rewrite Hid. }
    by exists (m <| mg_hosts := hosts |>), t0, t.
Qed.
Lemma scale_out_hosts_spec_witness :
  ∃ m', ResourceManager_ScaleOutHosts ["h1"; "h2"] 4 demo = Some (Ok m') ∧
        ResourceManager_HostCount m' = 4.
Proof.
  destruct (scale_out_hosts_spec ["h1"; "h2"] 4 demo) as [[He _]|(m' & t0 & t & E & Hn & _)].
  - by apply visits_all_list; vm_compute.
  - vm_compute. reflexivity.
  - vm_compute in He. discriminate He.
  - exists m'. split; [exact E|exact Hn].
Defined.

(** a successful scale-in leaves [max 1 target] hosts (or the hosts there
    were, if fewer), removes only hosts without instances, removes no
    scenario-defined host while an empty [host-auto-N] host stays, and removes
    the auto hosts with the highest numbers first; it fails only when there are
    too few empty hosts. *)
Theorem scale_in_hosts_spec clock order target m :
  mg_reachable clock m → visits_all order (mg_hosts m) →
  match ResourceManager_ScaleInHosts order target m with
  | Ok m' =>
      ResourceManager_HostCount m' = Z.min (ResourceManager_HostCount m) (Z.max 1 target) ∧
      mg_instances m' = mg_instances m ∧ mg_ok m' ∧
      (∀ a, is_Some (mg_hosts m !! a) → mg_hosts m' !! a = None →
        empty_host m a ∧
        ∀ b, empty_host m b → mg_hosts m' !! b ≠ None → removed_before a b)
  | Fail _ =>
      ∀ ids, NoDup ids → (∀ id, id ∈ ids → empty_host m id) →
        len ids < ResourceManager_HostCount m - Z.max 1 target
  | Panic => False
  end.
Proof.
  intros Hm%reachable_ok [Hnd Hall]. pose proof (scale_in_no_panic order target m) as Hp.
  destruct (ResourceManager_ScaleInHosts order target m) as [m'|e|] eqn:E; [| |done].
  - destruct (scale_in_eq _ _ _ _ Hnd Hm E) as [[-> Hle]|(k & Hk & Hlen & ->)].
    { split_and!; [unfold ResourceManager_HostCount; lia|done|done|]. intros a [h Ha]. congruence. }
    destruct (remove_hosts_spec (take k (scale_in_candidates order m)) m) as (Hok & Hi & Hl & Hsz);
      [by apply NoDup_take, NoDup_scale_in_candidates|intros id; apply take_candidates_empty|done|].
    rewrite length_take, Nat.min_l in Hsz by done.
    split_and!; [unfold ResourceManager_HostCount; lia|done|done|].
    intros a Ha Hra. rewrite Hl in Hra. case_decide as Hin; [|by destruct Ha; congruence].
    split; [by eapply take_candidates_empty|]. intros b Hb Hkb.
    eapply StronglySorted_take_drop; [apply scale_in_candidates_sorted|exact Hin|].
    assert (Hcand : b ∈ scale_in_candidates order m).
    { apply elem_of_scale_in_candidates. split; [apply Hall, Hb|done]. }
    rewrite <- (take_drop k (scale_in_candidates order m)) in Hcand.
    apply elem_of_app in Hcand as [Ht|?]; [|done]. destruct Hkb. rewrite Hl. by rewrite decide_True.
  - intros ids Hndi Hids. assert (length ids ≤ length (scale_in_candidates order m))%nat as Hle.
    { apply submseteq_length, NoDup_submseteq; [done|]. intros id Hid.
      apply elem_of_scale_in_candidates. split; [apply Hall, Hids; done|by apply Hids]. }
    unfold ResourceManager_ScaleInHosts in E. cbv zeta in E.
    destruct (_ <=? target) eqn:?; [done|]. destruct (_ <=? 1) eqn:?; [done|].
    set (t := if target <? 1 then 1 else target) in E.
    assert (Ht : t = Z.max 1 target) by (unfold t; destruct (Z.ltb_spec target 1); lia).
    destruct (_ - t <=? 0); [done|]. destruct (len _ <? _) eqn:Hlt; [|done].
    apply Z.ltb_lt in Hlt. unfold len, ResourceManager_HostCount in *. lia.
Qed.
(** The sample manager scaled out to three hosts. *)
Definition wide_demo : ResourceManager :=
  from_option id demo (mg_apply demo_clock (OpScaleOut ["h1"; "h2"] 3) demo).
Lemma wide_demo_reachable : mg_reachable demo_clock wide_demo.
Proof.
  eapply (reach_op _ (OpScaleOut ["h1"; "h2"] 3)); [exact demo_reachable| |vm_compute; reflexivity].
  by apply visits_all_list; vm_compute.
Qed.
Lemma scale_in_hosts_spec_witness :
  match ResourceManager_ScaleInHosts ["h1"; "h2"; "host-auto-3"] 2 wide_demo with
  | Ok m' => ResourceManager_HostCount m' = 2 ∧ mg_hosts m' !! "host-auto-3" = None
  | _ => False
  end.
Proof.
  pose proof (scale_in_hosts_spec demo_clock ["h1"; "h2"; "host-auto-3"] 2 wide_demo wide_demo_reachable)
    as H.
  destruct (ResourceManager_ScaleInHosts ["h1"; "h2"; "host-auto-3"] 2 wide_demo) as [m'|e|] eqn:E;
    vm_compute in E; [|discriminate E..].
  destruct H as (Hc & _); [by apply visits_all_list; vm_compute|]. split; [exact Hc|].
  injection E as <-. vm_compute. reflexivity.
Defined.

(** ** Placement constraints *)

Definition pinned_policy : PlacementPolicy :=
  mkPlacement ["z1"] [] [] ["z1"] {["rack" := "r1"]} ∅ [] true 1.
Definition pinned : ResourceManager :=
  init_or_new (demo_scenario <| scn_Services := [demo_service "api" 2 (Some pinned_policy)] |>).
Definition pinned_up : ResourceManager :=
  scaled_manager (ResourceManager_ScaleService demo_clock 5000 "api" 3 pinned).
Definition hosts_of (sn : string) (m : ResourceManager) : list string :=
  omap (λ id, si_hostID <$> mg_instances m !! id) (active_ids sn m).
(** initialisation enforces the required zones only. A service with at most
    one replica per host, a zone it must avoid and a host label it requires gets
    both replicas on one unlabelled host of that zone; and scaling up ignores
    the required zone too, placing the third replica in zone [z2]. *)
Theorem placement_constraints_ignored :
  hosts_of "api" pinned = ["h1"; "h1"] ∧
  pl_MaxReplicasPerHost pinned_policy = 1 ∧
  h_labels <$> mg_hosts pinned !! "h1" = Some ∅ ∧
  hosts_of "api" pinned_up = ["h1"; "h1"; "h2"] ∧ h_zone <$> mg_hosts pinned_up !! "h2" = Some "z2".
Proof. split_and!; vm_compute; reflexivity. Qed.

(** ** Vertical scaling *)

Lemma resize_fold_lookup c mb (l : list (string * ServiceInstance)) : ∀ m id,
  NoDup (fst <$> l) →
  mg_instances (foldl (λ m kv, update_instance kv.1 (resize_instance c mb) m) m l) !! id
  = if decide (id ∈ fst <$> l) then resize_instance c mb <$> mg_instances m !! id
    else mg_instances m !! id.
Proof.
  induction l as [|[k i] l IH]; intros m id Hnd; csimpl; [done|].
  inversion_clear Hnd as [|? ? Hk Hnd']. rewrite IH by done. cbn.
  destruct (decide (k = id)) as [->|Hne].
  - rewrite lookup_alter_eq, decide_False by done. by rewrite decide_True by (by left).
  - rewrite lookup_alter_ne by done. repeat case_decide; try done; set_unfold; naive_solver.
Qed.
Lemma resize_fields sn c mb i :
  si_serviceName i = sn → fltb c f0 = false → fltb mb f0 = false →
  (si_cpuCores (resize_instance c mb i), si_memoryMB (resize_instance c mb i)) = resized sn c mb i.
Proof.
  intros Hs Hc Hm. unfold resize_instance, resized. rewrite Hs, String.eqb_refl.
  unfold ServiceInstance_SetCPUCores, ServiceInstance_SetMemoryMB.
  destruct (fltb f0 c), (fltb f0 mb); cbn; by rewrite ?Hc, ?Hm.
Qed.
Lemma reserved_resized (l : list ServiceInstance) (g : ServiceInstance → ServiceInstance)
    (f : ServiceInstance → float64 * float64) :
  (∀ i, i ∈ l → (si_cpuCores (g i), si_memoryMB (g i)) = f i) →
  reserved_cpu (g <$> l) = foldl (λ s p, fadd s p.1) f0 (f <$> l) ∧
  reserved_mem (g <$> l) = foldl (λ s p, fadd s p.2) f0 (f <$> l).
Proof.
  intros H. unfold reserved_cpu, reserved_mem. generalize f0. revert H.
  induction l as [|i l IH]; intros H a; csimpl; [done|].
  rewrite <- (H i) by (by left). cbn.
  split; apply IH; intros j ?; apply H; by right.
Qed.
Definition host_total (hostID : string) (m : ResourceManager) : float64 * float64 :=
  let l := ResourceManager_collectInstancesForHost hostID m in (reserved_cpu l, reserved_mem l).
(** The manager after a resize of the instances of [sn]. *)
Definition resize_all (iorder : list string) (sn : string) (c mb : float64) (m : ResourceManager)
    : ResourceManager :=
  foldl (λ m kv, update_instance kv.1 (resize_instance c mb) m) m
    (filter (λ kv, si_serviceName kv.2 = sn) (visit iorder (mg_instances m))).
Definition resize_if (sn : string) (c mb : float64) (i : ServiceInstance) : ServiceInstance :=
  if String.eqb (si_serviceName i) sn then resize_instance c mb i else i.
Lemma resize_all_lookup iorder sn c mb m id :
  visits_all iorder (mg_instances m) →
  mg_instances (resize_all iorder sn c mb m) !! id = resize_if sn c mb <$> mg_instances m !! id.
Proof.
  intros [Hnd Hall]. unfold resize_all, resize_if.
  rewrite resize_fold_lookup by (apply NoDup_fst_filter; by apply visit_NoDup).
  destruct (mg_instances m !! id) as [i|] eqn:Hi; [|by case_decide]. cbn.
  set (l := filter _ _). assert (Hin : id ∈ fst <$> l ↔ si_serviceName i = sn).
  { unfold l. rewrite list_elem_of_fmap. setoid_rewrite list_elem_of_filter. split.
    - intros ([k j] & -> & Hs & [_ Hj]%elem_of_visit). cbn in *. congruence.
    - intros Hs. exists (id, i). split; [done|]. split; [done|]. apply elem_of_visit.
      split; [apply Hall; by rewrite Hi|done]. }
  destruct (String.eqb_spec (si_serviceName i) sn); case_decide; tauto || done.
Qed.
Lemma resize_all_collect iorder sn c mb m hostID :
  visits_all iorder (mg_instances m) →
  ResourceManager_collectInstancesForHost hostID (resize_all iorder sn c mb m)
  = resize_if sn c mb <$> ResourceManager_collectInstancesForHost hostID m.
Proof.
  intros Hio. unfold ResourceManager_collectInstancesForHost, instances_of.
  destruct (resize_fold_skeleton c mb
    (filter (λ kv, si_serviceName kv.2 = sn) (visit iorder (mg_instances m))) m) as (_ & _ & Hh & _).
  fold (resize_all iorder sn c mb m) in Hh. rewrite Hh, list_fmap_omap.
  apply omap_ext_in. intros id _. by apply resize_all_lookup.
Qed.
Lemma resize_all_hosts iorder sn c mb m : mg_hosts (resize_all iorder sn c mb m) = mg_hosts m.
Proof.
  unfold resize_all. generalize (filter (λ kv, si_serviceName kv.2 = sn) (visit iorder (mg_instances m))).
  intros l. revert m. induction l as [|x l IH]; intros m; [done|]. cbn. by rewrite IH.
Qed.
Lemma resize_if_fields sn c mb i :
  fltb c f0 = false → fltb mb f0 = false →
  (si_cpuCores (resize_if sn c mb i), si_memoryMB (resize_if sn c mb i)) = resized sn c mb i.
Proof.
  intros Hc Hm. unfold resize_if. destruct (String.eqb_spec (si_serviceName i) sn) as [Hs|Hs].
  - by apply resize_fields.
  - unfold resized. by destruct (String.eqb_spec (si_serviceName i) sn).
Qed.
Lemma resize_ok_inv io ho sn c mb hr m m' :
  ResourceManager_UpdateServiceResourcesWithHeadroom io ho sn c mb hr m = Ok m' →
  m' = resize_all io sn c mb m ∧ fltb c f0 = false ∧ fltb mb f0 = false ∧
  ∀ kv, kv ∈ visit ho (mg_hosts m) → check_resize_host sn c mb m kv = Ok tt.
Proof.
  unfold ResourceManager_UpdateServiceResourcesWithHeadroom, resize_all.
  destruct (fltb c f0); [done|]. destruct (fltb mb f0); [done|]. cbn [orb].
  destruct (filter _ _) as [|kv l]; [done|].
  rewrite go_bind_ok. intros (u & _ & (u' & He & Hr)%go_bind_ok).
  apply go_each_ok in He. rewrite Forall_forall in He. split_and!; [congruence|done..].
Qed.
Lemma check_resize_host_ok sn c mb m h host :
  check_resize_host sn c mb m (h, host) = Ok tt →
  let l := ResourceManager_collectInstancesForHost h m in
  l ≠ [] →
  (0 < h_cpuCores host → fltb (fadd (f64_of_Z (h_cpuCores host)) cpu_eps)
     (foldl (λ s p, fadd s p.1) f0 (resized sn c mb <$> l)) = false) ∧
  (0 < h_memoryGB host →
     fltb (fadd (fmul (f64_of_Z (h_memoryGB host)) (f64_of_Z 1024)) mem_eps)
       (foldl (λ s p, fadd s p.2) f0 (resized sn c mb <$> l)) = false).
Proof.
  unfold check_resize_host. destruct (ResourceManager_collectInstancesForHost h m) as [|i l] eqn:El; [done|].
  cbv zeta. rewrite go_bind_ok. intros ([] & H1%fail_if_ok & H2%fail_if_ok) _.
  split; intros Hpos%Z.ltb_lt; [rewrite Hpos in H1; exact H1|rewrite Hpos in H2; exact H2].
Qed.
(** a vertical resize succeeds only if every host still holds its instances:
    afterwards no host with a positive capacity is reserved beyond it, the sizes
    of the service's instances are the ones asked for (0 meaning unchanged), and
    every other instance is as before. *)
Theorem resize_within_capacity iorder horder sn cpu mem hr m m' :
  visits_all iorder (mg_instances m) → visits_all horder (mg_hosts m) →
  ResourceManager_UpdateServiceResourcesWithHeadroom iorder horder sn cpu mem hr m = Ok m' →
  (∀ id i, mg_instances m !! id = Some i →
    ∃ i', mg_instances m' !! id = Some i' ∧
      (si_cpuCores i', si_memoryMB i') = resized sn cpu mem i ∧
      (si_serviceName i ≠ sn → i' = i)) ∧
  ∀ hostID host, mg_hosts m' !! hostID = Some host →
    let '(usedCPU, usedMem) := host_total hostID m' in
    ResourceManager_collectInstancesForHost hostID m' ≠ [] →
    (0 < h_cpuCores host → fltb (fadd (f64_of_Z (h_cpuCores host)) cpu_eps) usedCPU = false) ∧
    (0 < h_memoryGB host →
      fltb (fadd (fmul (f64_of_Z (h_memoryGB host)) (f64_of_Z 1024)) mem_eps) usedMem = false).
Proof.
  intros Hio Hho (-> & Hc & Hm & Hchk)%resize_ok_inv. split.
  - intros id i Hi. exists (resize_if sn cpu mem i). rewrite resize_all_lookup, Hi by done. split_and!.
    + done.
    + by apply resize_if_fields.
    + intros Hs. unfold resize_if. by destruct (String.eqb_spec (si_serviceName i) sn).
  - intros hostID host. rewrite resize_all_hosts. intros Hh. unfold host_total. cbv zeta. rewrite resize_all_collect by done.
    destruct (reserved_resized (ResourceManager_collectInstancesForHost hostID m)
      (resize_if sn cpu mem) (resized sn cpu mem)) as [-> ->].
    { intros i _. by apply resize_if_fields. }
    intros Hne. apply check_resize_host_ok.
    + apply Hchk. apply elem_of_visit. split; [|exact Hh]. apply Hho. by rewrite Hh.
    + intros He. by rewrite He in Hne.
Qed.
Lemma resize_within_capacity_witness :
  ∃ m', ResourceManager_UpdateServiceResources [api0; api1] ["h1"; "h2"] "api" (f64_of_Z 2) f0 demo
        = Ok m' ∧ si_cpuCores <$> mg_instances m' !! api0 = Some (f64_of_Z 2).
Proof.
  set (r := ResourceManager_UpdateServiceResources [api0; api1] ["h1"; "h2"] "api" (f64_of_Z 2) f0 demo).
  destruct r as [m'|e|] eqn:E; [|vm_compute in E; discriminate E..].
  exists m'. split; [reflexivity|].
  destruct (resize_within_capacity [api0; api1] ["h1"; "h2"] "api" (f64_of_Z 2) f0 f0 demo m')
    as [Hi _]; [by apply visits_all_list; vm_compute|by apply visits_all_list; vm_compute|exact E|].
  destruct (mg_instances demo !! api0) as [i|] eqn:Ei; [|vm_compute in Ei; discriminate Ei].
  destruct (Hi api0 i Ei) as (i' & -> & Hf & _). apply (f_equal fst) in Hf. cbn in Hf. cbn. rewrite Hf.
  vm_compute in Ei. injection Ei as <-. vm_compute. reflexivity.
Defined.
