(* ===== verification/RoutingSpec.v ===== *)
(** Properties of request routing: every strategy returns an active instance of
    the service and honours a satisfiable zone preference; the least-loaded
    strategies return a minimum; sticky routing depends on the key only; the
    weighted wheel is a round robin over the slots of the instances. *)
From S2P Require Import Prelude GoFloat Utils Policy Config BrokerQueue Instance ResourceManager.
From S2P Require Import Routing ResourceLaws ResourceSpec.
From Stdlib Require Import SpecFloat.
#[local] Open Scope string_scope.
#[local] Open Scope list_scope.
#[local] Open Scope Z_scope.

(** * Soundness *)

(** An active instance of the service. *)
Definition serves (sn : string) (m : ResourceManager) (id : string) : Prop :=
  ∃ i, mg_instances m !! id = Some i ∧ si_serviceName i = sn ∧ si_lifecycle i = InstanceActive.
Lemma candidates_active sn req m :
  mg_ok m → ∀ id, id ∈ candidates sn req m → serves sn m id.
Proof.
  intros (_ & _ & Hca) id Hid. unfold candidates in Hid.
  destruct (mg_sortedServiceInstMap m !! sn) as [l|] eqn:El; cbn in Hid.
  - destruct (Hca sn l El) as (Hne & _ & _ & Hin). apply Hin.
    destruct (locality_candidates l (ResourceManager_routingPolicyForRequestLocked sn req m) req m Hne)
      as (_ & Hsub & _).
    by eapply elem_of_submseteq, sublist_submseteq.
  - unfold ResourceManager_applyLocalityPreferenceLocked in Hid.
    destruct (requested_zone _ _); cbn in Hid; by apply elem_of_nil in Hid.
Qed.
(** Routing moves cursors only. *)
Lemma round_robin_instances sn l m x m' :
  ResourceManager_selectRoundRobinLocked sn l m = Ok (x, m') → mg_instances m' = mg_instances m.
Proof.
  unfold ResourceManager_selectRoundRobinLocked. cbv zeta.
  destruct (index l _); cbn [go_bind]; [|done..]. by intros [= _ <-].
Qed.
Lemma route_round_robin_instances sn l m x st m' :
  route_round_robin sn l m = Ok (x, st, m') → mg_instances m' = mg_instances m.
Proof.
  unfold route_round_robin. destruct (ResourceManager_selectRoundRobinLocked sn l m) as [[y my]| |] eqn:E; cbn [go_bind]; [|done..].
  intros [= _ _ <-]. by eapply round_robin_instances.
Qed.
Lemma select_request_instances intn sn req t m id st m' :
  ResourceManager_SelectInstanceForRequest intn sn req t m = Ok (id, st, m') → mg_instances m' = mg_instances m.
Proof.
  destruct (decide (default [] (mg_sortedServiceInstMap m !! sn) = [])) as [He|Hne].
  { unfold ResourceManager_SelectInstanceForRequest. by rewrite He. }
  rewrite select_request_eq by done. cbv zeta.
  assert (Hk : ∀ (r : go string) s, (let! x := r in Ok (x, s, m)) = Ok (id, st, m') → mg_instances m' = mg_instances m).
  { intros [x| |] s; cbn [go_bind]; [|done..]. by intros [= _ _ <-]. }
  repeat (destruct (String.eqb _ _); [first [apply Hk|apply route_round_robin_instances|idtac]|]); [| |done].
  - unfold route_weighted. cbv zeta. destruct (_ <=? 0); [apply route_round_robin_instances|].
    destruct (wheel_pick _ _ _); [by intros [= _ _ <-]|]. destruct (index _ _); cbn [go_bind]; [|done..]. by intros [= _ _ <-].
  - unfold route_sticky. destruct (ResourceManager_routingPolicyForRequestLocked _ _ _); [|apply route_round_robin_instances].
    destruct req; [|apply route_round_robin_instances]. cbv zeta. destruct (String.eqb (TrimSpace _) _); [apply route_round_robin_instances|].
    destruct (rq_Metadata _ !! _); [|apply route_round_robin_instances].
    destruct (candidates _ _ _ !! _); [by intros [= _ _ <-]|]. apply Hk.
Qed.
(** C37: routing a request never panics and keeps the manager consistent. It
    returns an active instance of the service; if the request asks for a zone in
    which the service has an active cached instance, the instance is in that
    zone. It fails only for a service without cached instances or an unknown
    strategy. *)
Theorem select_request_sound clock intn sn req t m :
  mg_reachable clock m → intn_ok intn →
  match ResourceManager_SelectInstanceForRequest intn sn req t m with
  | Ok (id, _, m') =>
      mg_ok m' ∧
      serves sn m id ∧
      (∀ z, requested_zone (ResourceManager_routingPolicyForRequestLocked sn req m) req = Some z →
        (∃ x, x ∈ default [] (mg_sortedServiceInstMap m !! sn) ∧ in_zone z m x = true) →
        in_zone z m id = true)
  | Fail _ => default [] (mg_sortedServiceInstMap m !! sn) = [] ∨ strategy_of sn req m ∉ known_strategies
  | Panic => False
  end.
Proof.
  intros Hm%reachable_ok Hi. pose proof (select_request_good intn sn req t m Hm Hi) as Hg.
  destruct (ResourceManager_SelectInstanceForRequest intn sn req t m) as [[[id st] m']|e|] eqn:E; [| |done].
  - destruct Hg as [Hin Hm']. split_and!; [done|by eapply candidates_active|].
    destruct (decide (default [] (mg_sortedServiceInstMap m !! sn) = [])) as [He|Hne].
    + rewrite He. by intros z _ (x & ?%elem_of_nil & _).
    + intros z Hz Hx. by eapply locality_candidates.
  - exact Hg.
Qed.

(** * Least-loaded instances *)

(** [r] is the first element of [l] with the least value. *)
Definition first_least {A} (val : A → Z) (l : list A) (r : A) : Prop :=
  (∀ x, x ∈ l → val r ≤ val x) ∧
  ∃ before after, l = before ++ r :: after ∧ ∀ x, x ∈ before → val r < val x.
Lemma scan_min_spec {A} (val : A → Z) l : ∀ b,
  first_least val (b :: l) (scan_min Z.ltb val b (val b) l).
Proof.
  induction l as [|y l IH]; intros b; cbn [scan_min]; unfold first_least in *.
  { split; [intros x Hx%list_elem_of_singleton; by subst x|]. exists [], []. split; [done|].
    by intros x ?%elem_of_nil. }
  destruct (Z.ltb_spec (val y) (val b)) as [Hlt|Hge].
  - destruct (IH y) as (Hmin & bef & aft & E & Hb). generalize dependent (scan_min Z.ltb val y (val y) l). intros r Hmin E Hb. split.
    + intros x [->|Hx]%elem_of_cons; [|auto]. specialize (Hmin y ltac:(by left)). lia.
    + exists (b :: bef), aft. split; [by rewrite E|]. intros x [->|Hx]%elem_of_cons; [|auto].
      specialize (Hmin y ltac:(by left)). lia.
  - destruct (IH b) as (Hmin & bef & aft & E & Hb). generalize dependent (scan_min Z.ltb val b (val b) l). intros r Hmin E Hb.
    pose proof (Hmin b ltac:(by left)) as Hrb. split.
    + intros x [->|[->|Hx]%elem_of_cons]%elem_of_cons; [done|lia|]. apply Hmin. by right.
    + destruct bef as [|b' bef]; cbn in E; injection E as -> E.
      * exists [], (y :: l). split; [done|]. by intros x ?%elem_of_nil.
      * exists (b' :: y :: bef), aft. split; [cbn; by rewrite E|].
        intros x [->|[->|Hx]%elem_of_cons]%elem_of_cons.
        -- apply Hb. by left.
        -- specialize (Hb b' ltac:(by left)). lia.
        -- apply Hb. by right.
Qed.
(** least-connections and least-queue routing return the first candidate with
    the least number of active (queued) requests, and change nothing. *)
Theorem least_loaded_minimal intn sn req t m val :
  default [] (mg_sortedServiceInstMap m !! sn) ≠ [] →
  (strategy_of sn req m = RoutingLeastConnections ∧ val = active_requests m) ∨
  (strategy_of sn req m = RoutingLeastQueue ∧ val = queue_length m) →
  ∃ id,
    ResourceManager_SelectInstanceForRequest intn sn req t m = Ok (id, strategy_of sn req m, m) ∧
    first_least val (candidates sn req m) id.
Proof.
  intros Hne Hst. rewrite select_request_eq by done. cbv zeta.
  destruct (candidates sn req m) as [|b l] eqn:Ec.
  { by destruct (locality_candidates (default [] (mg_sortedServiceInstMap m !! sn))
      (ResourceManager_routingPolicyForRequestLocked sn req m) req m Hne) as [[] _]. }
  exists (scan_min Z.ltb val b (val b) l). split; [|apply scan_min_spec].
  destruct Hst as [[-> ->]|[-> ->]]; reflexivity.
Qed.
(** Two instances of [api] under least-connections, the first with one active
    request. *)
Definition routed_scenario (p : RoutingPolicy) : Scenario :=
  demo_scenario <| scn_Services :=
    [mkService "api" "" "" 2 "cpu" f1 f0 None None None None (Some p) []] |>.
Definition least_demo : ResourceManager :=
  update_instance api0 (ServiceInstance_AllocateCPU f1 2000)
    (init_or_new (routed_scenario (mkRoutingPolicy " Least_Connections" "" "" ∅))).
Lemma least_loaded_minimal_witness :
  ∃ id, ResourceManager_SelectInstanceForRequest (λ _, 0) "api" None 3000 least_demo
        = Ok (id, RoutingLeastConnections, least_demo) ∧ id = api1.
Proof.
  destruct (least_loaded_minimal (λ _, 0) "api" None 3000 least_demo (active_requests least_demo))
    as (id & E & _); [by vm_compute|left; split; [vm_compute; reflexivity|reflexivity]|].
  exists id. split; [exact E|]. vm_compute in E. injection E as <-. reflexivity.
Defined.

(** * Sticky routing *)

(** The position a key value hashes to. *)
Definition sticky_slot (v : string) (c : list string) : nat := Z.to_nat (fnv64a v mod len c).
(** sticky routing sends requests with the same key value to the same
    candidate, the one at the FNV-1a hash of the value modulo the number of
    candidates, whatever the round-robin state, and changes nothing. *)
Theorem sticky_by_key intn sn req t m p v :
  default [] (mg_sortedServiceInstMap m !! sn) ≠ [] →
  strategy_of sn (Some req) m = RoutingSticky →
  ResourceManager_routingPolicyForRequestLocked sn (Some req) m = Some p →
  TrimSpace (rt_StickyKeyFrom p) ≠ "" → rq_Metadata req !! TrimSpace (rt_StickyKeyFrom p) = Some v →
  let c := candidates sn (Some req) m in
  ∃ id, c !! sticky_slot v c = Some id ∧
    ResourceManager_SelectInstanceForRequest intn sn (Some req) t m = Ok (id, RoutingSticky, m).
Proof.
  intros Hne Hst Hp Hk Hv c. rewrite select_request_eq by done. cbv zeta. rewrite Hst, Hp. fold c.
  assert (Hc : c ≠ []).
  { by destruct (locality_candidates (default [] (mg_sortedServiceInstMap m !! sn))
      (ResourceManager_routingPolicyForRequestLocked sn (Some req) m) (Some req) m Hne). }
  assert (Hlen : 0 < len c) by (unfold len; destruct c; [done|simpl; lia]).
  pose proof (Z.mod_pos_bound (fnv64a v) (len c) Hlen) as Hb.
  destruct (lookup_lt_is_Some_2 c (Z.to_nat (fnv64a v mod len c))) as [id Hid];
    [unfold len in *; lia|].
  exists id. split; [done|]. cbn. unfold route_sticky. cbv zeta.
  rewrite (proj2 (String.eqb_neq _ _) Hk), Hv, Hid. done.
Qed.
Definition sticky_demo : ResourceManager :=
  init_or_new (routed_scenario (mkRoutingPolicy "sticky" "user" "" ∅)).
Definition user_request (u : string) : RouteRequest := mkRouteRequest "/" {["user" := u]}.
Lemma sticky_by_key_witness :
  ∃ id, ResourceManager_SelectInstanceForRequest (λ _, 0) "api" (Some (user_request "bob")) 3000
          sticky_demo = Ok (id, RoutingSticky, sticky_demo) ∧ (id = api0 ∨ id = api1).
Proof.
  destruct (sticky_by_key (λ _, 0) "api" (user_request "bob") 3000 sticky_demo
    (mkRoutingPolicy "sticky" "user" "" ∅) "bob") as (id & Hid & E); [by vm_compute..|].
  exists id. split; [exact E|]. vm_compute in Hid. injection Hid as <-. vm_compute. auto.
Defined.

(** * Weighted round robin *)

Definition slots_of (pol : option RoutingPolicy) (id : string) : Z :=
  weightedWheelSlots (weight_of pol id).
(** The wheel written out: every candidate as often as it has slots. *)
Definition wheel (pol : option RoutingPolicy) (c : list string) : list string :=
  c ≫= λ id, replicate (Z.to_nat (slots_of pol id)) id.
Lemma slots_nonneg pol id : 0 ≤ slots_of pol id.
Proof. unfold slots_of, weightedWheelSlots. repeat case_match; lia. Qed.
Lemma wheel_cons pol id c :
  wheel pol (id :: c) = replicate (Z.to_nat (slots_of pol id)) id ++ wheel pol c.
Proof. done. Qed.
Lemma len_wheel_cons pol id c : len (wheel pol (id :: c)) = slots_of pol id + len (wheel pol c).
Proof.
  rewrite wheel_cons. unfold len. rewrite length_app, length_replicate.
  pose proof (slots_nonneg pol id). lia.
Qed.
Lemma default_last {A} (x y : A) l : default x (last (y :: l)) = default y (last l).
Proof.
  destruct l as [|z l]; [done|]. change (last (y :: z :: l)) with (last (z :: l)).
  by destruct (last (z :: l)) eqn:E; [|apply last_None in E].
Qed.
Lemma wheel_cum_last pol c : ∀ b,
  0 ≤ b → b + len (wheel pol c) < 2 ^ 63 →
  default b (last (wheel_cum b (slots_of pol <$> c))) = b + len (wheel pol c).
Proof.
  induction c as [|id c IH]; intros b Hb Hlt; [change (b = b + 0); lia|].
  rewrite len_wheel_cons in *. pose proof (slots_nonneg pol id) as Hs.
  assert (0 ≤ len (wheel pol c)) by (unfold len; lia). csimpl.
  rewrite wrap64_id by (unfold in_int64, int64_min, int64_max; lia).
  rewrite default_last, IH; lia.
Qed.
Lemma wheel_pick_spec pol c : ∀ b cursor,
  0 ≤ b → b + len (wheel pol c) < 2 ^ 63 → b ≤ cursor < b + len (wheel pol c) →
  wheel_pick cursor (wheel_cum b (slots_of pol <$> c)) c = wheel pol c !! Z.to_nat (cursor - b).
Proof.
  induction c as [|id c IH]; intros b cursor Hb Hlt Hc; [change (b ≤ cursor < b + 0) in Hc; lia|].
  rewrite len_wheel_cons in *. pose proof (slots_nonneg pol id) as Hs.
  assert (0 ≤ len (wheel pol c)) by (unfold len; lia). rewrite wheel_cons. csimpl.
  rewrite wrap64_id by (unfold in_int64, int64_min, int64_max; lia).
  destruct (Z.ltb_spec cursor (b + slots_of pol id)) as [Hin|Hout].
  - rewrite lookup_app_l by (rewrite length_replicate; lia). symmetry. apply lookup_replicate_2. lia.
  - rewrite IH by lia. rewrite lookup_app_r by (rewrite length_replicate; lia).
    rewrite length_replicate. f_equal. lia.
Qed.
(** [k] requests in a row. *)
Fixpoint route_n (k : nat) (intn : Z → Z) (sn : string) (req : option RouteRequest) (t : Time)
    (m : ResourceManager) : go (list string * ResourceManager) :=
  match k with
  | O => Ok ([], m)
  | S k =>
      let! r := ResourceManager_SelectInstanceForRequest intn sn req t m in
      let! rs := route_n k intn sn req t (snd r) in
      Ok (fst (fst r) :: fst rs, snd rs)
  end.
Definition wrr_index (sn : string) (m : ResourceManager) : Z :=
  default 0 (mg_weightedRoundRobinIdx m !! sn).
Definition set_wrr (sn : string) (k : Z) (m : ResourceManager) : ResourceManager :=
  m <| mg_weightedRoundRobinIdx := <[sn := k]> (mg_weightedRoundRobinIdx m) |>.
Lemma wrr_index_set sn k m : wrr_index sn (set_wrr sn k m) = k.
Proof. unfold wrr_index, set_wrr. cbn. by rewrite lookup_insert_eq. Qed.
Lemma weighted_step intn sn req t m :
  default [] (mg_sortedServiceInstMap m !! sn) ≠ [] → strategy_of sn req m = RoutingWeightedRR →
  0 ≤ wrr_index sn m →
  let w := wheel (ResourceManager_routingPolicyForRequestLocked sn req m) (candidates sn req m) in
  0 < len w < 2 ^ 63 →
  let cursor := wrr_index sn m mod len w in
  ∃ id, w !! Z.to_nat cursor = Some id ∧
    ResourceManager_SelectInstanceForRequest intn sn req t m
    = Ok (id, RoutingWeightedRR, set_wrr sn ((cursor + 1) mod len w) m).
Proof.
  intros Hne Hst Hi w Hw cursor. rewrite select_request_eq by done. cbv zeta. rewrite Hst.
  set (pol := ResourceManager_routingPolicyForRequestLocked sn req m) in *.
  set (c := candidates sn req m) in *.
  change (∃ id, w !! Z.to_nat cursor = Some id ∧
    route_weighted sn pol c m = Ok (id, RoutingWeightedRR, set_wrr sn ((cursor + 1) mod len w) m)).
  pose proof (Z.mod_pos_bound (wrr_index sn m) (len w)) as Hb. fold cursor in Hb.
  destruct (lookup_lt_is_Some_2 w (Z.to_nat cursor)) as [id Hid]; [unfold len in *; lia|].
  exists id. split; [done|]. unfold route_weighted.
  change ((λ id, weightedWheelSlots (weight_of pol id)) <$> c) with (slots_of pol <$> c).
  rewrite (wheel_cum_last pol c 0) by (fold w; lia). fold w. cbv zeta. rewrite Z.add_0_l.
  rewrite (proj2 (Z.leb_gt _ _)) by lia. fold (wrr_index sn m). rewrite Z.rem_mod_nonneg by lia.
  fold cursor. rewrite (wheel_pick_spec pol c 0) by (fold w; lia). fold w.
  rewrite Z.sub_0_r, Hid, Z.rem_mod_nonneg by lia. done.
Qed.
Lemma route_n_weighted k intn sn req t : ∀ m,
  default [] (mg_sortedServiceInstMap m !! sn) ≠ [] → strategy_of sn req m = RoutingWeightedRR →
  0 ≤ wrr_index sn m →
  let w := wheel (ResourceManager_routingPolicyForRequestLocked sn req m) (candidates sn req m) in
  0 < len w < 2 ^ 63 →
  ∃ m', route_n k intn sn req t m = Ok (cycle (Z.to_nat (wrr_index sn m mod len w)) k w, m').
Proof.
  induction k as [|k IH]; intros m Hne Hst Hi w Hw; [by exists m|].
  destruct (weighted_step intn sn req t m Hne Hst Hi Hw) as (id & Hid & E). fold w in Hid, E.
  set (cursor := wrr_index sn m mod len w) in *. set (m1 := set_wrr sn ((cursor + 1) mod len w) m) in *.
  pose proof (Z.mod_pos_bound (cursor + 1) (len w)) as Hb.
  pose proof (Z.mod_pos_bound (wrr_index sn m) (len w)) as Hb0. fold cursor in Hb0.
  assert (Hi1 : wrr_index sn m1 = (cursor + 1) mod len w) by apply wrr_index_set.
  destruct (IH m1 Hne Hst) as (m' & E'); [rewrite Hi1; lia|exact Hw|].
  exists m'. cbn [route_n]. rewrite E. cbn [go_bind snd fst]. rewrite E'. cbn [go_bind fst snd].
  rewrite (cycle_S _ _ _ id) by done. rewrite Hi1.
  change (wheel (ResourceManager_routingPolicyForRequestLocked sn req m1) (candidates sn req m1)) with w.
  rewrite Z.mod_mod by lia. do 4 f_equal.
  unfold len in *. rewrite Z2Nat.inj_mod, Nat2Z.id, Z2Nat.inj_add by lia. done.
Qed.
(** weighted round robin is a plain round robin over the wheel in which every
    candidate has [weightedWheelSlots] slots: over one turn of the wheel every
    candidate is chosen exactly as often as it has slots, so traffic is divided
    in proportion to the weights (rounded to a thousandth). *)
Theorem weighted_proportional intn sn req t m :
  default [] (mg_sortedServiceInstMap m !! sn) ≠ [] → strategy_of sn req m = RoutingWeightedRR →
  0 ≤ wrr_index sn m →
  let w := wheel (ResourceManager_routingPolicyForRequestLocked sn req m) (candidates sn req m) in
  0 < len w < 2 ^ 63 →
  let start := Z.to_nat (wrr_index sn m mod len w) in
  ∃ m', route_n (length w) intn sn req t m = Ok (drop start w ++ take start w, m').
Proof.
  intros Hne Hst Hi w Hw start. destruct (route_n_weighted (length w) intn sn req t m Hne Hst Hi Hw) as (m' & E).
  exists m'. rewrite E. fold w. rewrite cycle_turn; [done|].
  pose proof (Z.mod_pos_bound (wrr_index sn m) (len w)). unfold start, len in *. lia.
Qed.
Definition weighted_demo : ResourceManager :=
  init_or_new (routed_scenario (mkRoutingPolicy "weighted_round_robin" "" ""
    {[api0 := f64_lit 3 1000; api1 := f64_lit 1 1000]})).
Lemma weighted_proportional_witness :
  ∃ m', route_n 4 (λ _, 0) "api" None 3000 weighted_demo = Ok ([api0; api0; api0; api1], m').
Proof.
  destruct (weighted_proportional (λ _, 0) "api" None 3000 weighted_demo) as (m' & E);
    [by vm_compute..|]. exists m'. exact E.
Defined.
Lemma select_request_sound_witness :
  match ResourceManager_SelectInstanceForRequest (λ _, 0) "api" None 3000 demo with
  | Ok (id, _, m') => mg_ok m' ∧ is_Some (mg_instances demo !! id)
  | _ => False
  end.
Proof.
  pose proof (select_request_sound demo_clock (λ _, 0) "api" None 3000 demo demo_reachable) as H.
  destruct (ResourceManager_SelectInstanceForRequest (λ _, 0) "api" None 3000 demo) as [[[id st] m']|e|] eqn:E;
    [|vm_compute in E; discriminate E..].
  destruct H as (Hm & (i & Hi & _) & _); [intros n Hn; lia|]. split; [exact Hm|]. exists i. exact Hi.
Defined.
