(* ===== verification/SimState.v ===== *)
(** [internal/simd/handlers.go]: the state the event handlers share, the effects
    they are written in, and the small helpers on metadata and metric labels.
    Requests are objects behind pointers: the store maps addresses to requests, and
    events and the run manager hold addresses. *)
From S2P Require Import Prelude GoFloat Utils EventQueue RunManager Engine Policy Config Graph.
From S2P Require Import BrokerQueue Instance ResourceManager Routing Collector.
From Stdlib Require Import SpecFloat.
#[local] Open Scope string_scope.
#[local] Open Scope list_scope.
#[local] Open Scope Z_scope.

(** * Data *)

Abbreviation Metadata := (gmap string DataVal) (only parsing).
(** [models.Request]. *)
Record ReqObject := mkReqObject {
  q_ID : string;
  q_TraceID : string;
  q_ParentID : string;
  q_ServiceName : string;
  q_Endpoint : string;
  q_Status : RequestStatus;
  q_ArrivalTime : Time;
  q_StartTime : Time;
  q_CompletionTime : Time;
  q_Duration : Duration;
  q_CPUTimeMs : float64;
  q_NetworkLatencyMs : float64;
  q_QueueTimeMs : float64;
  q_Error : string;
  q_Metadata : Metadata;
}.
#[export] Instance eta_ReqObject : Eta ReqObject := λ r, mkReqObject (q_ID r) (q_TraceID r) (q_ParentID r)
  (q_ServiceName r) (q_Endpoint r) (q_Status r) (q_ArrivalTime r) (q_StartTime r) (q_CompletionTime r)
  (q_Duration r) (q_CPUTimeMs r) (q_NetworkLatencyMs r) (q_QueueTimeMs r) (q_Error r) (q_Metadata r).
(** The fields the run manager reads. *)
Definition tracked (r : ReqObject) : Request := mkRequest (q_ID r) (q_Status r) (q_Error r).

(** [utils.RandSource]: the draws of [rng.Float64], of the standard normal
    [rng.NormFloat64] and of the standard exponential [rng.ExpFloat64] still to come. *)
Record RandSource := mkRandSource { rnd_uniform : Rng; rnd_normal : Rng; rnd_exp : Rng }.
#[export] Instance eta_RandSource : Eta RandSource := λ r, mkRandSource (rnd_uniform r) (rnd_normal r) (rnd_exp r).
Definition RandSource_Float64 (r : RandSource) : float64 * RandSource :=
  let '(x, u) := rng_Float64 (rnd_uniform r) in (x, r <| rnd_uniform := u |>).
Definition RandSource_NormFloat64 (mean stddev : float64) (r : RandSource) : float64 * RandSource :=
  let '(x, n) := rng_Float64 (rnd_normal r) in (fadd (fmul x stddev) mean, r <| rnd_normal := n |>).
Definition RandSource_ExpFloat64 (lambda : float64) (r : RandSource) : float64 * RandSource :=
  let '(x, e) := rng_Float64 (rnd_exp r) in (fdiv x lambda, r <| rnd_exp := e |>).
Definition RandSource_BernoulliBool (p : float64) (r : RandSource) : bool * RandSource :=
  let '(x, r) := RandSource_Float64 r in (fltb x p, r).
Definition RandSource_UniformFloat64 (min max : float64) (r : RandSource) : float64 * RandSource :=
  let '(x, r) := RandSource_Float64 r in (fadd min (fmul x (fsub max min)), r).

(** What one event reads from outside: the wall clock, the orders in which Go visits
    the instance map and the zone tables, the draws of random routing, and how
    [fmt.Sprint] prints floats, times and maps. *)
Record Outside := mkOutside {
  out_now : Time;
  out_order : list string;
  out_intn : Z → Z;
  out_zones : gmap string (gmap string LatencySpec) → list (string * gmap string LatencySpec);
  out_innerZones : gmap string LatencySpec → list (string * LatencySpec);
  out_format : DataVal → string;
}.
(** [scenarioState], with the object store, the supply of generated IDs and the
    outside world of the events to come. *)
Record scenarioState := mkState {
  st_scenario : Scenario;
  st_services : gmap string Service;
  st_endpoints : gmap string Endpoint;
  st_rng : RandSource;
  st_rm : ResourceManager;
  st_collector : Collector;
  st_policies : option PolicyManager;
  st_graph : Graph;
  st_branchRng : Rng;
  st_simEndTime : Time;
  st_pendingSync : gmap string Z;
  st_topicPartitionCursor : gmap string Z;
  st_heap : gmap positive ReqObject;
  st_ids : nat → string;
  st_outside : nat → Outside;
}.
#[export] Instance eta_scenarioState : Eta scenarioState := λ r, mkState (st_scenario r) (st_services r)
  (st_endpoints r) (st_rng r) (st_rm r) (st_collector r) (st_policies r) (st_graph r) (st_branchRng r)
  (st_simEndTime r) (st_pendingSync r) (st_topicPartitionCursor r) (st_heap r) (st_ids r) (st_outside r).
(** [newScenarioState], given the graph of its interaction manager. *)
Definition add_maps (m : gmap string Service * gmap string Endpoint) (svc : Service)
    : gmap string Service * gmap string Endpoint :=
  (<[svc_ID svc := svc]> (fst m),
   foldl (λ eps ep, <[svc_ID svc +:+ ":" +:+ ep_Path ep := ep]> eps) (snd m) (svc_Endpoints svc)).
Definition newScenarioState (scenario : Scenario) (rm : ResourceManager) (collector : Collector)
    (policies : option PolicyManager) (graph : Graph) (rng : RandSource) (branchRng : Rng)
    (ids : nat → string) (outside : nat → Outside) : scenarioState :=
  let '(services, endpoints) := foldl add_maps (∅, ∅) (scn_Services scenario) in
  mkState scenario services endpoints rng rm collector policies graph branchRng zeroTime ∅ ∅ ∅ ids outside.
Definition scenarioState_SetSimEndTime (t : Time) (s : scenarioState) : scenarioState :=
  s <| st_simEndTime := t |>.

(** * Effects *)

(** The state, the engine with the calls made on it so far applied, and these calls,
    the latest first. *)
Record World := mkWorld {
  w_st : scenarioState;
  w_eng : Engine;
  w_acts : list EngineAction;
}.
#[export] Instance eta_World : Eta World := λ r, mkWorld (w_st r) (w_eng r) (w_acts r).
(** A returned error keeps the effects before it; a panic ends the process. *)
Inductive outcome (A : Type) :=
  | Done (a : A) (w : World)
  | Err (msg : string) (w : World)
  | Crash
  | NoFuel.
#[global] Arguments Done {_} _ _.
#[global] Arguments Err {_} _ _.
#[global] Arguments Crash {_}.
#[global] Arguments NoFuel {_}.
Definition M (A : Type) : Type := World → outcome A.
Definition ret {A} (a : A) : M A := Done a.
Definition mbind_M {A B} (m : M A) (k : A → M B) : M B := λ w,
  match m w with
  | Done a w => k a w
  | Err msg w => Err msg w
  | Crash => Crash
  | NoFuel => NoFuel
  end.
Declare Scope sim_scope.
Delimit Scope sim_scope with sim.
Notation "'let*' x := m 'in' k" := (mbind_M m (λ x, k))
  (at level 10, x binder, m at level 100, k at level 200) : sim_scope.
Notation "m ;;* k" := (mbind_M m (λ _, k)) (at level 100, k at level 200, right associativity) : sim_scope.
#[local] Open Scope sim_scope.
Definition throw {A} (msg : string) : M A := Err msg.
(** An error the caller drops. *)
Definition ignore {A} (m : M A) : M unit := λ w,
  match m w with
  | Done _ w | Err _ w => Done tt w
  | Crash => Crash
  | NoFuel => NoFuel
  end.
Definition gets {A} (f : scenarioState → A) : M A := λ w, Done (f (w_st w)) w.
Definition modify (f : scenarioState → scenarioState) : M unit := λ w, Done tt (w <| w_st := f (w_st w) |>).
Definition when (b : bool) (m : M unit) : M unit := if b then m else ret tt.
Fixpoint mfor {A} (l : list A) (f : A → M unit) : M unit :=
  match l with
  | [] => ret tt
  | x :: l => f x ;;* mfor l f
  end.
(** A result of a fallible operation: errors are values, a panic is a crash. *)
Definition lift {A} (r : go A) : M (go A) := match r with Panic => λ _, Crash | r => ret r end.

(** ** The engine *)

Definition act (a : EngineAction) : M unit := λ w,
  Done tt (w <| w_eng := apply_action (w_eng w) a |> <| w_acts := a :: w_acts w |>).
Definition GetSimTime : M Time := λ w, Done (SimTime_Now (eng_simTime (w_eng w))) w.
Definition ScheduleAtPriority (ty : EventType) (t : Time) (priority : Z) (request : option positive)
    (serviceID : string) (data : Metadata) : M unit :=
  act (ActSchedule (mkEvent "" ty t priority 0 request serviceID data)).
Definition ScheduleAt (ty : EventType) (t : Time) (request : option positive) (serviceID : string)
    (data : Metadata) : M unit := ScheduleAtPriority ty t 0 request serviceID data.
Definition rm_GetRequest (id : string) : M (option positive) := λ w,
  Done (RunManager_GetRequest id (eng_runManager (w_eng w))) w.
Definition rm_RecordLatency (ms : float64) : M unit := act (ActRecordLatency ms).

(** ** Requests *)

Definition deref (p : positive) : M ReqObject := λ w,
  match st_heap (w_st w) !! p with Some r => Done r w | None => Crash end.
Definition update (p : positive) (f : ReqObject → ReqObject) : M unit :=
  let* _ := deref p in modify (λ s, s <| st_heap := alter f p (st_heap s) |>).
Definition set_meta (k : string) (v : DataVal) (r : ReqObject) : ReqObject :=
  r <| q_Metadata := <[k := v]> (q_Metadata r) |>.
Definition del_meta (k : string) (r : ReqObject) : ReqObject :=
  r <| q_Metadata := delete k (q_Metadata r) |>.
Definition setMeta (p : positive) (k : string) (v : DataVal) : M unit := update p (set_meta k v).
Definition delMeta (p : positive) (k : string) : M unit := update p (del_meta k).
Definition setStatus (p : positive) (s : RequestStatus) : M unit := update p (λ r, r <| q_Status := s |>).
Definition alloc (r : ReqObject) : M positive := λ w,
  let p := fresh (dom (st_heap (w_st w))) in
  Done p (w <| w_st := (w_st w) <| st_heap := <[p := r]> (st_heap (w_st w)) |> |>).
Definition rm_AddRequest (p : positive) : M unit := let* r := deref p in act (ActAddRequest p (tracked r)).
Definition rm_FinalizeRequest (p : positive) : M unit :=
  let* r := deref p in act (ActFinalizeRequest (Some (p, tracked r))).
Definition GenerateID : M string := λ w,
  Done (st_ids (w_st w) 0%nat) (w <| w_st := (w_st w) <| st_ids := λ n, st_ids (w_st w) (S n) |> |>).

(** ** The resource manager, random draws, policies *)

Definition on_rm {A} (f : ResourceManager → A * ResourceManager) : M A := λ w,
  let '(a, m) := f (st_rm (w_st w)) in Done a (w <| w_st := (w_st w) <| st_rm := m |> |>).
Definition mod_rm (f : ResourceManager → ResourceManager) : M unit := on_rm (λ m, (tt, f m)).
Definition outside : M Outside := gets (λ s, st_outside s 0%nat).
Definition draw_Float64 : M float64 := λ w,
  let '(x, r) := RandSource_Float64 (st_rng (w_st w)) in Done x (w <| w_st := (w_st w) <| st_rng := r |> |>).
Definition draw_NormFloat64 (mean stddev : float64) : M float64 := λ w,
  let '(x, r) := RandSource_NormFloat64 mean stddev (st_rng (w_st w)) in
  Done x (w <| w_st := (w_st w) <| st_rng := r |> |>).
Definition on_breaker (f : circuitBreakerPolicy → circuitBreakerPolicy) : M unit :=
  modify (λ s,
    match st_policies s with
    | Some pm =>
        match pm_circuitBreaker pm with
        | Some cb => s <| st_policies := Some (pm <| pm_circuitBreaker := Some (f cb) |>) |>
        | None => s
        end
    | None => s
    end).
Definition breaker_failure (serviceID endpointPath : string) (t : Time) : M unit :=
  on_breaker (circuitBreakerPolicy_RecordFailure serviceID endpointPath t).
Definition breaker_success (serviceID endpointPath : string) (t : Time) : M unit :=
  on_breaker (circuitBreakerPolicy_RecordSuccess serviceID endpointPath t).
(** [AllowRequest] of the rate limiter and of the circuit breaker; an absent policy
    allows every request. *)
Definition limiter_allows (serviceID endpointPath : string) (t : Time) : M bool := λ w,
  match st_policies (w_st w) with
  | Some pm =>
      match pm_rateLimiting pm with
      | Some rl =>
          let '(ok, rl) := rateLimitingPolicy_AllowRequest serviceID endpointPath t rl in
          Done ok (w <| w_st := (w_st w) <| st_policies := Some (pm <| pm_rateLimiting := Some rl |>) |> |>)
      | None => Done true w
      end
  | None => Done true w
  end.
Definition breaker_allows (serviceID endpointPath : string) (t : Time) : M bool := λ w,
  match st_policies (w_st w) with
  | Some pm =>
      match pm_circuitBreaker pm with
      | Some cb =>
          let '(ok, cb) := circuitBreakerPolicy_AllowRequest serviceID endpointPath t cb in
          Done ok (w <| w_st := (w_st w) <| st_policies := Some (pm <| pm_circuitBreaker := Some cb |>) |> |>)
      | None => Done true w
      end
  | None => Done true w
  end.

(** ** Metrics *)

(** The limit callbacks the executor installs stop the engine. *)
Definition metric_limit_error (cb : CollectorCallback) : EngineErr :=
  match cb with
  | OnLimit n max => LimitExceeded "max_metric_points" n max
  | OnLimitWithName limit n max => LimitExceeded limit n max
  end.
Definition record (name : string) (value : float64) (t : Time) (labels : Labels) : M unit := λ w,
  let '(c, cbs) := Collector_Record name value t labels (st_collector (w_st w)) in
  mfor cbs (λ cb, act (ActTrigger (metric_limit_error cb)))
    (w <| w_st := (w_st w) <| st_collector := c |> |>).

(** * Metadata *)

Definition metadataInt (m : Metadata) (key : string) : Z :=
  match m !! key with
  | Some (DInt z) => z
  | Some (DFloat x) => f64_to_int x
  | _ => 0
  end.
Definition metadataInt64 (m : Metadata) (key : string) : Z := metadataInt m key.
Definition metadataBool (m : Metadata) (key : string) : bool :=
  match m !! key with Some (DBool b) => b | _ => false end.
Definition metadataTime (m : Metadata) (key : string) : option Time :=
  match m !! key with Some (DTime t) => Some t | _ => None end.
Definition metadataFloat64 (m : Metadata) (key : string) : float64 :=
  match m !! key with
  | Some (DFloat x) => x
  | Some (DInt z) => f64_of_Z z
  | _ => f0
  end.
Definition metadataString (m : Metadata) (key : string) : string :=
  match m !! key with Some (DString s) => s | _ => "" end.
(** The assertion [v, ok := m[key].(string)]. *)
Definition asString (m : Metadata) (key : string) : option string :=
  match m !! key with Some (DString s) => Some s | _ => None end.
Definition asFloat (m : Metadata) (key : string) : option float64 :=
  match m !! key with Some (DFloat x) => Some x | _ => None end.
(** [fmt.Sprint] of one value. *)
Definition Sprint (format : DataVal → string) (v : DataVal) : string :=
  match v with
  | DNil => "<nil>"
  | DString s => s
  | DInt z => Itoa z
  | DBool b => if b then "true" else "false"
  | v => format v
  end.
Definition mapOf (l : list (string * DataVal)) : Metadata := list_to_map l.
(** [time.Duration(ms * float64(time.Millisecond))] and
    [time.Duration(ms) * time.Millisecond]. *)
Definition ms_scaled (ms : float64) : Duration := f64_to_int (fmul ms (f64_of_Z Millisecond)).
Definition ms_whole (ms : float64) : Duration := wrap64 (f64_to_int ms * Millisecond).
