(* ===== verification/ServiceModel.v ===== *)
(** [internal/simd/behavior_helpers.go], [service_model.go] and [network_topo.go]:
    what a request costs at a service, how often it fails, and the latency the
    placement of caller and callee adds. *)
From S2P Require Import Prelude GoFloat Utils RunManager Engine Config Graph BrokerQueue Instance.
From S2P Require Import ResourceManager Routing Collector SimState.
From Stdlib Require Import SpecFloat.
#[local] Open Scope string_scope.
#[local] Open Scope list_scope.
#[local] Open Scope Z_scope.
#[local] Open Scope sim_scope.

(** * Labels of requests *)

Definition metaIsRetry : string := "is_retry".
Definition metaRetryAttempt : string := "retry_attempt".
Definition labelsForRequestMetrics (req : ReqObject) (serviceID endpointPath : string) : Labels :=
  let origin := if is_empty (q_ParentID req) then "ingress" else "downstream" in
  let lbl := EndpointLabelsWithOrigin serviceID endpointPath origin in
  let put (k l : string) (lbl : Labels) :=
    match asString (q_Metadata req) k with
    | Some v => if is_empty v then lbl else <[l := v]> lbl
    | None => lbl
    end in
  let lbl := put "workload_traffic_class" "traffic_class" lbl in
  let lbl := put "workload_source_kind" "source_kind" lbl in
  if metadataBool (q_Metadata req) metaIsRetry
  then <["attempt" := Itoa (metadataInt (q_Metadata req) metaRetryAttempt)]> (<["is_retry" := "true"]> lbl)
  else lbl.
Definition labelsForQueueWaitMetrics (req : ReqObject) (serviceID endpointPath instanceID : string) : Labels :=
  let lbl := labelsForRequestMetrics req serviceID endpointPath in
  if is_empty instanceID then lbl else <["instance" := instanceID]> lbl.
Definition localServiceHopLatencyMs (r : ReqObject) (simTime : Time) : float64 :=
  f64_of_Z (Milliseconds (Sub simTime (q_ArrivalTime r))).
Definition localServiceProcessingLatencyMs (r : ReqObject) (simTime : Time) : float64 :=
  if IsZero (q_StartTime r) then localServiceHopLatencyMs r simTime
  else f64_of_Z (Milliseconds (Sub simTime (q_StartTime r))).

(** * behavior_helpers.go *)

Definition isDatastoreWorkload (svc : Service) (ep : Endpoint) : bool :=
  let k := norm (svc_Kind svc) in
  if String.eqb k "database" || String.eqb (norm (svc_Role svc)) "datastore"
     || String.eqb (norm (svc_Model svc)) "db_latency" then true
  else if String.eqb k "external" then
    fltb f0 (lat_Mean (ep_IOMs ep)) || fltb f0 (lat_Sigma (ep_IOMs ep))
    || (0 <? ep_ConnectionPool ep)
    || match svc_Behavior svc with Some b => 0 <? sb_MaxConnections b | None => false end
  else false.
Definition effectiveDBMaxConnections (svc : Service) (ep : Endpoint) : Z :=
  if 0 <? ep_ConnectionPool ep then ep_ConnectionPool ep
  else match svc_Behavior svc with
       | Some b => if 0 <? sb_MaxConnections b then sb_MaxConnections b else 0
       | None => 0
       end.
(** A normal draw, negative values cut to zero. *)
Definition draw_clamped (mean sigma : float64) : M float64 :=
  let* v := draw_NormFloat64 mean sigma in ret (if fltb v f0 then f0 else v).
Definition sampleEndpointIOWorkloadMs (ep : Endpoint) : M float64 :=
  if fltb f0 (lat_Mean (ep_IOMs ep)) || fltb f0 (lat_Sigma (ep_IOMs ep))
  then draw_clamped (lat_Mean (ep_IOMs ep)) (lat_Sigma (ep_IOMs ep))
  else draw_clamped (lat_Mean (ep_NetLatencyMs ep)) (lat_Sigma (ep_NetLatencyMs ep)).
Definition mergedDependencyFailureRate (ds : DownstreamCall) (tgt : option Service) : float64 :=
  let p := ds_FailureRate ds in
  let p := if fltb p f0 then f0 else p in
  let p :=
    match tgt with
    | Some t =>
        match svc_Behavior t with
        | Some b =>
            let q := sb_FailureRate b in
            if String.eqb (norm (svc_Kind t)) "external" && fltb f0 q
            then fsub f1 (fmul (fsub f1 p) (fsub f1 q)) else p
        | None => p
        end
    | None => p
    end in
  if fltb f1 p then f1 else p.
Definition mergedLocalFailureRate (svc : Service) (ep : Endpoint) : float64 :=
  let p := match svc_Behavior svc with Some b => fadd f0 (sb_FailureRate b) | None => f0 end in
  let p := fadd p (ep_FailureRate ep) in
  if fltb f1 p then f1 else if fltb p f0 then f0 else p.

(** * service_model.go *)

Record ServiceExecutionProfile := mkProfile {
  xp_CPUTimeMs : float64;
  xp_NetworkLatencyMs : float64;
  xp_MemoryMB : float64;
  xp_ConcurrencyCost : float64;
  xp_QueueClass : string;
  xp_QueueMeanWorkMs : float64;
}.
(** [math.Max] and [math.Min] with their special cases: infinities, NaN and the
    signs of zeros. *)
Definition math_Max (x y : float64) : float64 :=
  match x, y with
  | S754_infinity false, _ | _, S754_infinity false => S754_infinity false
  | S754_nan, _ | _, S754_nan => S754_nan
  | S754_zero true, S754_zero _ => y
  | S754_zero false, S754_zero _ => x
  | _, _ => if fltb y x then x else y
  end.
Definition math_Min (x y : float64) : float64 :=
  match x, y with
  | S754_infinity true, _ | _, S754_infinity true => S754_infinity true
  | S754_nan, _ | _, S754_nan => S754_nan
  | S754_zero true, S754_zero _ => x
  | _, _ => if fltb x y then x else y
  end.
Definition f_pct (n : Z) : float64 := f64_lit n 100.
Definition profile_queue_class (svc : Service) : string :=
  let model := norm (svc_Model svc) in
  let kind := norm (svc_Kind svc) in
  let role := norm (svc_Role svc) in
  if String.eqb kind "database" || String.eqb model "db_latency" || String.eqb role "datastore"
  then "datastore_io"
  else if String.eqb kind "api_gateway" || String.eqb role "ingress" then "ingress"
  else if String.eqb kind "cache" then "cache" else "default".
(** The CPU ceiling of the latency-dominated model. *)
Definition db_cpu_ceiling (ep : Endpoint) : float64 :=
  let netMean := lat_Mean (ep_NetLatencyMs ep) in
  let netMean := if fltb netMean f0 then f0 else netMean in
  if fltb (fmul netMean (f_pct 110)) (ep_MeanCPUMs ep) then fmul (ep_MeanCPUMs ep) (f_pct 105)
  else math_Max (fmul netMean (f_pct 55)) (fmul (ep_MeanCPUMs ep) (f_pct 85)).
Definition profile_queue_mean (db : bool) (ep : Endpoint) : float64 :=
  let m :=
    if db then
      let io := lat_Mean (ep_NetLatencyMs ep) in
      let io := if fltb io f0 then f0 else io in
      fadd (math_Min (ep_MeanCPUMs ep) (fmul io (f_pct 45))) io
    else fadd (ep_MeanCPUMs ep) (lat_Mean (ep_NetLatencyMs ep)) in
  if fltb m f0 then f0 else m.
(** [dsKind] is the kind of the downstream hint, empty at the start of a request. *)
Definition resolveServiceExecutionProfile (svc : Service) (ep : Endpoint) (dsKind : string)
    : M ServiceExecutionProfile :=
  let* cpu := draw_clamped (ep_MeanCPUMs ep) (ep_CPUSigmaMs ep) in
  let* net := draw_clamped (lat_Mean (ep_NetLatencyMs ep)) (lat_Sigma (ep_NetLatencyMs ep)) in
  let mem := ep_DefaultMemoryMB ep in
  let mem := if fleb mem f0 then f64_of_Z 10 else mem in
  let model := norm (svc_Model svc) in
  let kind := norm (svc_Kind svc) in
  let db := String.eqb model "db_latency" in
  let concurrencyCost :=
    if String.eqb model "mixed" && fltb f0 mem then fadd f1 (fdiv mem (f64_of_Z 1024)) else f1 in
  let ceiling := db_cpu_ceiling ep in
  let cpu := if db && fltb ceiling cpu then ceiling else cpu in
  let mem := if db then fmul mem (f_pct 105) else mem in
  let net := if db && (String.eqb dsKind "db" || String.eqb kind "database")
             then fmul net (f_pct 102) else net in
  let '(cpu, net) :=
    if String.eqb kind "database" then (cpu, if db then net else fmul net (f_pct 105))
    else if String.eqb kind "cache" then (fmul cpu (f_pct 85), fmul net (f_pct 90))
    else if String.eqb kind "external" then (cpu, fmul net (f_pct 110))
    else (cpu, net) in
  ret (mkProfile cpu net mem concurrencyCost (profile_queue_class svc) (profile_queue_mean db ep)).

(** * network_topo.go *)

Definition zero_latency : LatencySpec := mkLatency f0 f0.
(** [spec.Mean == 0 && spec.Sigma == 0]. *)
Definition no_latency (spec : LatencySpec) : bool := feqb (lat_Mean spec) f0 && feqb (lat_Sigma spec) f0.
(** The loops of the second lookup visit the zones in the order of the maps. *)
Definition lookupDirectedCrossZone (order : gmap string (gmap string LatencySpec) → list (string * gmap string LatencySpec))
    (iorder : gmap string LatencySpec → list (string * LatencySpec))
    (m : gmap string (gmap string LatencySpec)) (callerZone calleeZone : string) : option LatencySpec :=
  match m !! callerZone ≫= lookup calleeZone with
  | Some s => Some s
  | None =>
      head (order m ≫= λ kv,
        if EqualFold (TrimSpace (fst kv)) callerZone then
          snd <$> filter (λ ts, EqualFold (TrimSpace (fst ts)) calleeZone = true) (iorder (snd kv))
        else [])
  end.
Definition findCrossZoneLatencySpec order iorder (net : option NetworkConfig) (callerZone calleeZone : string)
    : option LatencySpec :=
  match net with
  | None => None
  | Some net =>
      let callerZone := TrimSpace callerZone in
      let calleeZone := TrimSpace calleeZone in
      if is_empty callerZone || is_empty calleeZone then None
      else if EqualFold callerZone calleeZone then None
      else
        match lookupDirectedCrossZone order iorder (net_CrossZoneLatencyMs net) callerZone calleeZone with
        | Some s => Some s
        | None =>
            let reverse :=
              if net_SymmetricCrossZoneLatency net
              then lookupDirectedCrossZone order iorder (net_CrossZoneLatencyMs net) calleeZone callerZone
              else None in
            match reverse with
            | Some s => Some s
            | None =>
                let d := net_DefaultCrossZoneLatencyMs net in
                if no_latency d then None else Some d
            end
        end
  end.
Definition is_inf (x : float64) : bool := match x with S754_infinity _ => true | _ => false end.
Definition sampleCrossZoneNetworkPenaltyMs (spec : LatencySpec) : M float64 :=
  let* v := draw_NormFloat64 (lat_Mean spec) (lat_Sigma spec) in
  ret (if is_nan v || is_inf v then f0 else if fltb v f0 then f0 else v).
Definition instance_zone (m : ResourceManager) (instanceID : string) : option string :=
  match mg_instances m !! instanceID with
  | Some inst => (λ h, TrimSpace (h_zone h)) <$> mg_hosts m !! si_hostID inst
  | None => None
  end.
Definition downstreamCallerHostZone (m : ResourceManager) (req : ReqObject) : string :=
  let live :=
    match asString (q_Metadata req) "caller_instance_id" with
    | Some id => if is_empty id then "" else default "" (instance_zone m id)
    | None => ""
    end in
  if is_empty live then from_option TrimSpace "" (asString (q_Metadata req) "caller_host_zone") else live.
Definition downstreamCallerHostID (m : ResourceManager) (req : ReqObject) : string :=
  let live :=
    match asString (q_Metadata req) "caller_instance_id" with
    | Some id => if is_empty id then None else mg_instances m !! id
    | None => None
    end in
  match live with
  | Some inst => TrimSpace (si_hostID inst)
  | None => from_option TrimSpace "" (asString (q_Metadata req) "caller_host_id")
  end.
Definition calleeZoneForInstance (m : ResourceManager) (instanceID : string) : string :=
  if is_empty instanceID then "" else default "" (instance_zone m instanceID).
Definition calleeHostForInstance (m : ResourceManager) (instanceID : string) : string :=
  if is_empty instanceID then ""
  else from_option (λ i, TrimSpace (si_hostID i)) "" (mg_instances m !! instanceID).
Definition copyMetricLabelsWithZones (base : Labels) (callerZ calleeZ : string) : Labels :=
  <["callee_zone" := calleeZ]> (<["caller_zone" := callerZ]> base).
(** A sampled penalty, recorded under the given metrics when it is positive. *)
Definition penalty (spec : LatencySpec) (metrics : list string) (lbl : Labels) (simTime : Time) : M float64 :=
  if no_latency spec then ret f0
  else
    let* pen := sampleCrossZoneNetworkPenaltyMs spec in
    if fleb pen f0 then ret f0
    else mfor metrics (λ name, record name pen simTime lbl) ;;* ret pen.
Definition applyTopologyNetworkPenaltyMs (serviceID endpointPath : string) (p : positive)
    (instanceID : string) (simTime : Time) : M float64 :=
  let* request := deref p in
  let* st := gets id in
  let* o := outside in
  match scn_Network (st_scenario st), st_services st !! serviceID with
  | Some net, Some svc =>
      if is_empty (q_ParentID request) then ret f0
      else
        let lbl := labelsForRequestMetrics request serviceID endpointPath in
        if String.eqb (norm (svc_Kind svc)) "external" then
          penalty (default (net_ExternalLatencyMs net) (svc_ExternalNetworkLatencyMs svc))
            ["external_latency_penalty_ms"; "topology_latency_penalty_ms"] lbl simTime
        else
          let callerZ := downstreamCallerHostZone (st_rm st) request in
          let calleeZ := calleeZoneForInstance (st_rm st) instanceID in
          let callerHost := downstreamCallerHostID (st_rm st) request in
          let calleeHost := calleeHostForInstance (st_rm st) instanceID in
          if is_empty callerZ || is_empty calleeZ then ret f0
          else
            let lblZ := copyMetricLabelsWithZones lbl callerZ calleeZ in
            if negb (is_empty callerHost) && negb (is_empty calleeHost) && String.eqb callerHost calleeHost then
              penalty (net_SameHostLatencyMs net) ["topology_latency_penalty_ms"] lblZ simTime
            else if EqualFold callerZ calleeZ then
              if is_empty callerHost || is_empty calleeHost || String.eqb callerHost calleeHost then ret f0
              else penalty (net_SameZoneLatencyMs net)
                     ["same_zone_latency_penalty_ms"; "topology_latency_penalty_ms"] lblZ simTime
            else
              match findCrossZoneLatencySpec (out_zones o) (out_innerZones o) (Some net) callerZ calleeZ with
              | None => ret f0
              | Some spec =>
                  let* pen := sampleCrossZoneNetworkPenaltyMs spec in
                  if fleb pen f0 then ret f0
                  else
                    mfor ["cross_zone_latency_penalty_ms"; "topology_latency_penalty_ms"]
                      (λ name, record name pen simTime lblZ) ;;* ret pen
              end
  | _, _ => ret f0
  end.
