(* ===== verification/Lifecycle.v ===== *)
(** [internal/simd/handlers.go], [handlers_finalization.go], [handlers_retry.go],
    [handlers_downstream_caller.go] and [handlers_timeout.go]: the life of a request,
    from arrival over CPU, datastore and network to completion, downstream calls,
    retries, timeouts and the propagation of results to waiting parents; and the
    publishing side of [queue_handlers.go] and [topic_handlers.go]. *)
From S2P Require Import Prelude GoFloat Utils EventQueue RunManager Engine Policy Config Graph.
From S2P Require Import BrokerQueue Instance ResourceManager Routing Collector SimState.
From S2P Require Import ServiceModel.
From Stdlib Require Import SpecFloat.
#[local] Open Scope string_scope.
#[local] Open Scope list_scope.
#[local] Open Scope Z_scope.
#[local] Open Scope sim_scope.

(** * Metadata keys *)

Definition metaDESFinalized : string := "des_finalized".
Definition metaCallerSyncResolved : string := "caller_sync_resolved".
Definition metaSubtreeFailed : string := "sync_subtree_failed".
Definition metaFailureReason : string := "failure_reason".
Definition metaAsyncOpTimedOut : string := "async_operation_timed_out".
Definition metaSyncWaitTimedOut : string := "sync_wait_timed_out".
Definition metaDownstreamAsync : string := "downstream_call_async".
Definition metaBrokerAckTimedOut : string := "broker_ack_timed_out".
Definition metaLogicalCallID : string := "logical_call_id".
Definition metaAsyncAttemptAbandoned : string := "async_attempt_abandoned".
Definition metaOverheadFromRetry : string := "overhead_from_retry".
Definition metaQueueEdge : string := "queue_edge".
Definition metaBrokerService : string := "broker_service".
Definition metaBrokerTopic : string := "broker_topic".
Definition metaQueueConsumer : string := "queue_consumer".
Definition metaQueueMsgID : string := "queue_msg_id".
Definition metaQueueShardKey : string := "queue_shard_key".
Definition metaDeferredQueueFinalize : string := "deferred_queue_finalize".
Definition metaQueueAckDeadline : string := "queue_ack_deadline".
Definition metaDeferredCallerExtraMs : string := "deferred_caller_extra_ms".
Definition metaTopicConsumer : string := "topic_consumer".
Definition metaTopicShardKey : string := "topic_shard_key".
Definition metaTopicSubscriber : string := "topic_subscriber_name".
Definition metaTopicConsumerGrp : string := "topic_consumer_group".
Definition metaTopicPartition : string := "topic_partition".
Definition metaTopicOffset : string := "topic_offset".
Definition metaCPUDeferredStart : string := "cpu_deferred_start".
Definition metaCPUServiceStart : string := "cpu_service_start".
Definition metaCPUServiceEnd : string := "cpu_service_end".

(** * Gauges and routing *)

Definition recordInstanceAndHostGauges (serviceID instanceID : string) (simTime : Time) : M unit :=
  let* m := gets st_rm in
  match mg_instances m !! instanceID with
  | None => ret tt
  | Some inst =>
      let lbl := CreateInstanceLabels serviceID instanceID in
      record "cpu_utilization" (ServiceInstance_CPUUtilizationAt simTime inst) simTime lbl ;;*
      record "memory_utilization" (ServiceInstance_MemoryUtilization inst) simTime lbl ;;*
      record "queue_length" (f64_of_Z (ServiceInstance_QueueLength inst)) simTime lbl ;;*
      record "concurrent_requests" (f64_of_Z (ServiceInstance_ActiveRequests inst)) simTime lbl ;;*
      match mg_hosts m !! si_hostID inst with
      | None => ret tt
      | Some host =>
          let lbl := CreateHostLabels (si_hostID inst) in
          record "cpu_utilization" (h_cpuUtilization host) simTime lbl ;;*
          record "memory_utilization" (h_memoryUtilization host) simTime lbl
      end
  end.
(** The metadata key that names the preferred zone: of the endpoint, else of the service. *)
Definition locality_key (services : gmap string Service) (request : ReqObject) : string :=
  let key pol := TrimSpace (rt_LocalityZoneFrom pol) in
  match services !! q_ServiceName request with
  | None => ""
  | Some svc =>
      let own := omap (λ ep,
        match ep_Routing ep with
        | Some pol => if String.eqb (ep_Path ep) (q_Endpoint request) && negb (is_empty (key pol))
                      then Some (key pol) else None
        | None => None
        end) (svc_Endpoints svc) in
      match own with
      | k :: _ => k
      | [] => from_option key "" (svc_Routing svc)
      end
  end.
Definition caller_zone (m : ResourceManager) (format : DataVal → string) (localityKey : string)
    (request : ReqObject) : string :=
  let md := q_Metadata request in
  let z := metadataString md "caller_host_zone" in
  let z :=
    if is_empty z then
      let id := metadataString md "caller_instance_id" in
      if is_empty id then "" else default "" (instance_zone m id)
    else z in
  if is_empty z && negb (is_empty localityKey)
  then from_option (λ raw, TrimSpace (Sprint format raw)) "" (md !! localityKey) else z.
(** The routing metrics of [selectInstanceForRequest]. *)
Definition record_route (request : ReqObject) (instanceID strategy : string) (simTime : Time) : M unit :=
  let* m := gets st_rm in
  let* services := gets st_services in
  let* o := outside in
  let labels := labelsForRequestMetrics request (q_ServiceName request) (q_Endpoint request) in
  let labels := <["instance" := instanceID]> (<["strategy" := strategy]> labels) in
  record "route_selection_count" f1 simTime labels ;;*
  let localityKey := locality_key services request in
  let calleeZone := default "" (instance_zone m instanceID) in
  let callerZone := caller_zone m (out_format o) localityKey request in
  (if is_empty localityKey then ret tt
   else match q_Metadata request !! localityKey with
        | None => ret tt
        | Some raw =>
            let targetZone := TrimSpace (Sprint (out_format o) raw) in
            when (negb (is_empty targetZone) && negb (is_empty calleeZone))
              (if EqualFold targetZone calleeZone
               then record "locality_route_hit_count" f1 simTime labels
               else record "locality_route_miss_count" f1 simTime labels)
        end) ;;*
  when (negb (is_empty callerZone) && negb (is_empty calleeZone))
    (if EqualFold callerZone calleeZone then record "same_zone_request_count" f1 simTime labels
     else record "cross_zone_request_count" f1 simTime labels).
(** The instance chosen for the request, or the routing error. *)
Definition selectInstanceForRequest (p : positive) (simTime : Time) : M (go string) :=
  let* request := deref p in
  let* o := outside in
  let* m := gets st_rm in
  let req := mkRouteRequest (q_Endpoint request) (Sprint (out_format o) <$> q_Metadata request) in
  let* r := lift (ResourceManager_SelectInstanceForRequest (out_intn o) (q_ServiceName request)
                    (Some req) simTime m) in
  match r with
  | Ok (inst, strategy, m) =>
      mod_rm (λ _, m) ;;* record_route request inst strategy simTime ;;* ret (Ok inst)
  | Fail e => ret (Fail e)
  | Panic => λ _, Crash
  end.

(** * Where a call comes from *)

Record downstreamCallerTopology := mkTopology {
  ct_InstanceID : string;
  ct_HostZone : string;
  ct_HostID : string;
}.
Definition no_topology : downstreamCallerTopology := mkTopology "" "" "".
Definition or_else (s d : string) : string := if is_empty s then d else s.
Definition resolve_topology (m : ResourceManager) (md : Metadata) (explicit : downstreamCallerTopology)
    : downstreamCallerTopology :=
  let inst := or_else (TrimSpace (ct_InstanceID explicit))
                (from_option TrimSpace "" (asString md "instance_id")) in
  let zone := TrimSpace (ct_HostZone explicit) in
  let host := TrimSpace (ct_HostID explicit) in
  let fallback := mkTopology inst (or_else zone (from_option TrimSpace "" (asString md "caller_host_zone")))
                    (or_else host (from_option TrimSpace "" (asString md "caller_host_id"))) in
  if is_empty inst then fallback
  else match mg_instances m !! inst with
       | None => fallback
       | Some i =>
           let hid := TrimSpace (si_hostID i) in
           match mg_hosts m !! hid with
           | Some h => mkTopology inst (TrimSpace (h_zone h)) hid
           | None => mkTopology inst zone hid
           end
       end.
Definition resolveCallerTopologyForSpawn (parent : positive) (explicit : downstreamCallerTopology)
    : M downstreamCallerTopology :=
  let* r := deref parent in
  let* m := gets st_rm in
  ret (resolve_topology m (q_Metadata r) explicit).
Definition callerTopologyFromRequest (parent : positive) : M downstreamCallerTopology :=
  let* r := deref parent in
  let* m := gets st_rm in
  let md := q_Metadata r in
  let inst := default "" (asString md "instance_id") in
  let fallback := mkTopology inst (from_option TrimSpace "" (asString md "caller_host_zone"))
                    (from_option TrimSpace "" (asString md "caller_host_id")) in
  ret (if is_empty inst then fallback
       else match mg_instances m !! inst with
            | None => fallback
            | Some i =>
                let hid := TrimSpace (si_hostID i) in
                match mg_hosts m !! hid with
                | Some h => mkTopology inst (TrimSpace (h_zone h)) hid
                | None => mkTopology inst "" hid
                end
            end).
Definition topology_of (data : Metadata) : downstreamCallerTopology :=
  mkTopology (metadataString data "caller_instance_id") (metadataString data "caller_host_zone")
    (metadataString data "caller_host_id").
Definition topology_data (t : downstreamCallerTopology) : list (string * DataVal) :=
  [("caller_instance_id", DString (ct_InstanceID t)); ("caller_host_zone", DString (ct_HostZone t));
   ("caller_host_id", DString (ct_HostID t))].
(** The parts of a topology that are known. *)
Definition known_topology (t : downstreamCallerTopology) : list (string * DataVal) :=
  (λ kv, (fst kv, DString (snd kv))) <$>
    filter (λ kv, is_empty (snd kv) = false)
      [("caller_instance_id", ct_InstanceID t); ("caller_host_zone", ct_HostZone t);
       ("caller_host_id", ct_HostID t)].

(** * Brokers as targets *)

Definition kind_is (services : gmap string Service) (rc : ResolvedCall) (k : string) : bool :=
  String.eqb (norm (ds_Kind (rc_Call rc))) k
  || match services !! rc_ServiceID rc with
     | Some tgt => String.eqb (norm (svc_Kind tgt)) k
     | None => false
     end.
Definition usesQueueBroker (services : gmap string Service) (rc : ResolvedCall) : bool :=
  kind_is services rc "queue".
Definition usesTopicBroker (services : gmap string Service) (rc : ResolvedCall) : bool :=
  kind_is services rc "topic".
Definition usesAsyncBroker (services : gmap string Service) (rc : ResolvedCall) : bool :=
  usesQueueBroker services rc || usesTopicBroker services rc.
Definition effectiveQueueForBroker (services : gmap string Service) (brokerID : string) : QueueBehavior :=
  EffectiveQueueBehavior ((services !! brokerID ≫= svc_Behavior) ≫= sb_Queue).
Definition effectiveTopicForBroker (services : gmap string Service) (brokerID : string) : TopicBehavior :=
  EffectiveTopicBehavior ((services !! brokerID ≫= svc_Behavior) ≫= sb_Topic).
(** A delivery latency drawn from its distribution. *)
Definition sample_delivery (spec : LatencySpec) : M float64 :=
  if fltb f0 (lat_Mean spec)
  then draw_clamped (lat_Mean spec) (if fltb (lat_Sigma spec) f0 then f0 else lat_Sigma spec)
  else ret f0.
Definition sampleQueueDeliveryMs (brokerID : string) : M float64 :=
  let* services := gets st_services in
  sample_delivery (qb_DeliveryLatencyMs (effectiveQueueForBroker services brokerID)).
Definition sampleTopicDeliveryMs (brokerID : string) : M float64 :=
  let* services := gets st_services in
  sample_delivery (tb_DeliveryLatencyMs (effectiveTopicForBroker services brokerID)).
Definition applyTopicPartitionKeyToPublishData (format : DataVal → string) (parent : ReqObject)
    (d : DownstreamCall) (data : Metadata) : Metadata :=
  let key := TrimSpace (ds_PartitionKey d) in
  let from := TrimSpace (ds_PartitionKeyFrom d) in
  if negb (is_empty key) then <["partition_key" := DString key]> data
  else if is_empty from then data
  else match q_Metadata parent !! from with
       | Some v => <["partition_key" := DString (Sprint format v)]> data
       | None => data
       end.
(** The data of a publish event. *)
Definition publish_data (call : ResolvedCall) (nextTD nextAD : Z) (fromRetry : bool) (retryAttempt : Z)
    (logicalID : string) (delivery : float64) (t : downstreamCallerTopology) : list (string * DataVal) :=
  [("endpoint_path", DString (rc_Path call)); ("trace_depth", DInt nextTD); ("async_depth", DInt nextAD);
   ("is_async_downstream", DBool true); ("downstream_timeout_ms", DFloat (ds_TimeoutMs (rc_Call call)));
   (metaRetryAttempt, DInt retryAttempt); (metaLogicalCallID, DString logicalID);
   (metaOverheadFromRetry, DBool fromRetry); (metaBrokerService, DString (rc_ServiceID call));
   (metaBrokerTopic, DString (rc_Path call)); (metaQueueEdge, DBool true); ("delivery_ms", DFloat delivery)]
  ++ topology_data t.
(** A negative [fixedDeliveryMs] asks for a draw; the result is the time of the
    publish acknowledgement. *)
Definition scheduleQueuePublishFromOverhead (parent : positive) (call : ResolvedCall) (simTime : Time)
    (nextTD nextAD : Z) (fromRetry : bool) (retryAttempt : Z) (logicalID : string)
    (fixedDeliveryMs : float64) (callerTopology : downstreamCallerTopology) : M Time :=
  let* delivery := if fltb fixedDeliveryMs f0 then sampleQueueDeliveryMs (rc_ServiceID call)
                   else ret fixedDeliveryMs in
  let ackTime := simTime + ms_scaled delivery in
  let* t := resolveCallerTopologyForSpawn parent callerTopology in
  ScheduleAt EventTypeQueueEnqueue ackTime (Some parent) (rc_ServiceID call)
    (mapOf (publish_data call nextTD nextAD fromRetry retryAttempt logicalID delivery t)) ;;*
  ret ackTime.
Definition scheduleTopicPublishFromOverhead (parent : positive) (call : ResolvedCall) (simTime : Time)
    (nextTD nextAD : Z) (fromRetry : bool) (retryAttempt : Z) (logicalID : string)
    (fixedDeliveryMs : float64) (callerTopology : downstreamCallerTopology) : M Time :=
  let* delivery := if fltb fixedDeliveryMs f0 then sampleTopicDeliveryMs (rc_ServiceID call)
                   else ret fixedDeliveryMs in
  let ackTime := simTime + ms_scaled delivery in
  let* t := resolveCallerTopologyForSpawn parent callerTopology in
  let* r := deref parent in
  let* o := outside in
  let data := mapOf (("meta_topic_edge", DBool true)
                     :: publish_data call nextTD nextAD fromRetry retryAttempt logicalID delivery t) in
  ScheduleAt EventTypeTopicPublish ackTime (Some parent) (rc_ServiceID call)
    (applyTopicPartitionKeyToPublishData (out_format o) r (rc_Call call) data) ;;*
  ret ackTime.

(** * Downstream calls *)

(** [MaxTraceDepth] and [MaxAsyncHops] cut the calls that would go too deep. *)
Definition call_within (lim : option SimulationLimits) (nextTD nextAD : Z) (isAsync : bool) : bool :=
  match lim with
  | None => true
  | Some lim =>
      negb ((0 <? sl_MaxTraceDepth lim) && (sl_MaxTraceDepth lim <? nextTD))
      && negb ((0 <? sl_MaxAsyncHops lim) && isAsync && (sl_MaxAsyncHops lim <? nextAD))
  end.
Definition call_is_async (services : gmap string Service) (rc : ResolvedCall) : bool :=
  DownstreamCall_IsAsync (rc_Call rc) || usesAsyncBroker services rc.
(** The asynchronous calls and the synchronous ones, in their order. *)
Fixpoint partitionDownstreamFiltered (lim : option SimulationLimits) (services : gmap string Service)
    (calls : list ResolvedCall) (td ad : Z) : list ResolvedCall * list ResolvedCall :=
  match calls with
  | [] => ([], [])
  | c :: calls =>
      let '(asyncCalls, syncCalls) := partitionDownstreamFiltered lim services calls td ad in
      let isAsync := call_is_async services c in
      if negb (call_within lim (td + 1) (if isAsync then ad + 1 else ad) isAsync) then (asyncCalls, syncCalls)
      else if usesAsyncBroker services c then (c :: asyncCalls, syncCalls)
      else if DownstreamCall_IsAsync (rc_Call c) then (c :: asyncCalls, syncCalls)
      else (asyncCalls, c :: syncCalls)
  end.
Definition scheduleDownstreamCallEvent (parent : positive) (call : ResolvedCall) (simTime : Time)
    (nextTD nextAD : Z) (isAsync : bool) : M unit :=
  let* callLatencyMs := sample_delivery (ds_CallLatencyMs (rc_Call call)) in
  let scheduleTime := simTime + ms_scaled callLatencyMs in
  let* t := resolveCallerTopologyForSpawn parent no_topology in
  let* r := deref parent in
  ScheduleAt EventTypeDownstreamCall scheduleTime (Some parent) (rc_ServiceID call)
    (mapOf ([("endpoint_path", DString (rc_Path call)); ("parent_request_id", DString (q_ID r));
             ("trace_depth", DInt nextTD); ("async_depth", DInt nextAD);
             ("is_async_downstream", DBool isAsync);
             ("downstream_timeout_ms", DFloat (ds_TimeoutMs (rc_Call call)))] ++ known_topology t)).
Definition zeroDownstream : DownstreamCall :=
  mkDownstream "" "" "" f0 f0 (mkLatency f0 f0) f0 f0 None f0 "" "".
Definition resolveDownstreamCallSpec (g : Graph) (parent : ReqObject) (childSvc childPath : string)
    : option DownstreamCall :=
  ed_Call <$> List.find (λ e, String.eqb (ed_ToServiceID e) childSvc && String.eqb (ed_ToPath e) childPath)
                (Graph_GetDownstreamEdges (q_ServiceName parent) (q_Endpoint parent) g).
(** [interaction.Manager.CreateDownstreamRequest]. *)
Definition CreateDownstreamRequest (parent : positive) (serviceID path : string) : M positive :=
  let* g := gets st_graph in
  match gr_services g !! serviceID with
  | None => throw ("downstream service " +:+ Quote serviceID +:+ " does not exist")
  | Some _ =>
      let* requestID := GenerateID in
      let* r := deref parent in
      let md := match asString (q_Metadata r) "instance_id" with
                | Some id => <["parent_instance_id" := DString id]> ∅
                | None => ∅
                end in
      alloc (mkReqObject requestID (q_TraceID r) (q_ID r) serviceID path RequestStatusPending zeroTime
               zeroTime zeroTime 0 f0 f0 f0 "" md)
  end.
(** [interaction.Manager.GetDownstreamCalls] with the default branching. *)
Definition GetDownstreamCalls (serviceID path : string) : M (list ResolvedCall) := λ w,
  let calls := Graph_ResolveDownstreamCalls serviceID path (st_graph (w_st w)) in
  match calls with
  | [] => Done [] w
  | _ =>
      let '(selected, rng) := DefaultBranchingStrategy_SelectCalls calls (st_branchRng (w_st w)) in
      Done selected (w <| w_st := (w_st w) <| st_branchRng := rng |> |>)
  end.

(** * Evicted queues and draining *)

Definition endpoint_error (base : Labels) (reason : string) (simTime : Time) : M unit :=
  record "request_error_count" f1 simTime (EndpointErrorLabels base reason).
Definition ingress_failure (base : Labels) (reason : string) (simTime : Time) : M unit :=
  record "ingress_logical_failure_count" f1 simTime (EndpointErrorLabels base reason).
Definition fail_dropped (simTime : Time) (reqID : string) : M unit :=
  let* o := rm_GetRequest reqID in
  match o with
  | None => ret tt
  | Some p =>
      let* r := deref p in
      match q_Status r with
      | RequestStatusPending =>
          setStatus p RequestStatusFailed ;;*
          let lbl := labelsForRequestMetrics r (q_ServiceName r) (q_Endpoint r) in
          endpoint_error lbl "drain_evicted" simTime ;;*
          when (is_empty (q_ParentID r)) (ingress_failure lbl "drain_evicted" simTime)
      | _ => ret tt
      end
  end.
Definition failDroppedQueueRequests (simTime : Time) (dropped : list string) : M unit :=
  mfor dropped (fail_dropped simTime).
Definition NoteSimTime (simTime : Time) : M unit := mod_rm (ResourceManager_NoteSimTime simTime).
(** The first steps of the request handlers. *)
Definition process_draining (simTime : Time) : M unit :=
  NoteSimTime simTime ;;*
  let* o := outside in
  let* dropped := on_rm (ResourceManager_ProcessDrainingInstances (out_order o) (out_now o) simTime) in
  failDroppedQueueRequests simTime dropped.
Definition drainSweepInterval : Duration := 100 * Millisecond.
Definition handleDrainSweep (evt : Event) : M unit :=
  let* simTime := GetSimTime in
  process_draining simTime ;;*
  let next := simTime + drainSweepInterval in
  let* simEndTime := gets st_simEndTime in
  when (IsZero simEndTime || Before next simEndTime) (ScheduleAt EventTypeDrainSweep next None "" ∅).
Definition ScheduleDrainSweepKickoff (startTime : Time) (eng : Engine) : Engine :=
  Engine_ScheduleAt EventTypeDrainSweep (startTime + 50 * Millisecond) None "" ∅ eng.
