(* ===== verification/Completion.v ===== *)
(** [internal/simd/handlers_finalization.go], [handlers_retry.go],
    [handlers_downstream_caller.go] and [handlers_timeout.go]: how a request ends, how
    its result reaches the parent that waits for it, how failed calls are retried, and
    the CPU a caller spends on its calls. *)
From S2P Require Import Prelude GoFloat Utils EventQueue RunManager Engine Policy Config Graph.
From S2P Require Import BrokerQueue Instance ResourceManager Routing Collector SimState.
From S2P Require Import ServiceModel Lifecycle.
From Stdlib Require Import SpecFloat.
#[local] Open Scope string_scope.
#[local] Open Scope list_scope.
#[local] Open Scope Z_scope.
#[local] Open Scope sim_scope.

(** * Finalisation *)

Definition recordDeferredQueueParentMetricsIfNeeded (parent : positive) (simTime : Time) (labels : Labels)
    : M unit :=
  let* r := deref parent in
  if negb (metadataBool (q_Metadata r) metaDeferredQueueFinalize) then ret tt
  else
    let extra := metadataFloat64 (q_Metadata r) metaDeferredCallerExtraMs in
    record "service_request_latency_ms" (fadd (localServiceHopLatencyMs r simTime) extra) simTime labels ;;*
    record "service_processing_latency_ms" (fadd (localServiceProcessingLatencyMs r simTime) extra) simTime
      labels ;;*
    delMeta parent metaDeferredCallerExtraMs ;;*
    delMeta parent metaDeferredQueueFinalize ;;*
    delMeta parent metaQueueAckDeadline.
(** The completion time and the duration that follows from it. *)
Definition completed_at (simTime : Time) (r : ReqObject) : ReqObject :=
  r <| q_CompletionTime := simTime |> <| q_Duration := Sub simTime (q_ArrivalTime r) |>.
Definition mark_finalized (r : ReqObject) : ReqObject := set_meta metaDESFinalized (DBool true) r.
Definition is_finalized (r : ReqObject) : bool := metadataBool (q_Metadata r) metaDESFinalized.
Definition duration_ms (r : ReqObject) : float64 := f64_of_Z (Milliseconds (q_Duration r)).
(** The type of [notifyParentSyncChildResolved]. *)
Definition Notify : Type := positive → string → Time → bool → string → M unit.
Definition notify_parent (notify : Notify) (p : positive) (simTime : Time) (failed : bool) (reason : string)
    : M unit :=
  let* r := deref p in
  when (negb (is_empty (q_ParentID r)) && negb (metadataBool (q_Metadata r) metaDownstreamAsync))
    (notify p (q_ParentID r) simTime failed reason).
(** The success series, unless the caller stopped waiting. *)
Definition record_success (p : positive) (simTime : Time) (labels : Labels) : M unit :=
  let* r := deref p in
  let md := q_Metadata r in
  if negb (metadataBool md metaSyncWaitTimedOut) then
    record "request_latency_ms" (duration_ms r) simTime labels ;;*
    when (is_empty (q_ParentID r)) (record "root_request_latency_ms" (duration_ms r) simTime labels) ;;*
    rm_RecordLatency (duration_ms r) ;;*
    breaker_success (q_ServiceName r) (q_Endpoint r) simTime
  else
    when (negb (metadataBool md metaCallerSyncResolved))
      (breaker_failure (q_ServiceName r) (q_Endpoint r) simTime).
Definition finalize_completion (notify : Notify) (p : positive) (simTime : Time) (labels : Labels) : M unit :=
  let* r := deref p in
  let md := q_Metadata r in
  if metadataBool md metaDESFinalized then ret tt
  else if metadataBool md metaAsyncAttemptAbandoned then
    update p (λ r, completed_at simTime ((mark_finalized r) <| q_Status := RequestStatusCompleted |>)) ;;*
    rm_FinalizeRequest p
  else
    match q_Status r with
    | RequestStatusFailed =>
        update p mark_finalized ;;*
        when (IsZero (q_CompletionTime r)) (update p (completed_at simTime)) ;;*
        rm_FinalizeRequest p
    | _ =>
        update p (λ r, completed_at simTime ((mark_finalized r) <| q_Status := RequestStatusCompleted |>)) ;;*
        if metadataBool md metaAsyncOpTimedOut && metadataBool md metaDownstreamAsync
        then breaker_failure (q_ServiceName r) (q_Endpoint r) simTime
        else
          record_success p simTime labels ;;*
          notify_parent notify p simTime false "" ;;*
          rm_FinalizeRequest p
    end.
Definition set_reason (reason : string) (r : ReqObject) : ReqObject :=
  if is_empty reason then r
  else set_meta metaFailureReason (DString reason) (r <| q_Error := reason |>).
Definition finalize_failure (notify : Notify) (p : positive) (simTime : Time) (labels : Labels)
    (reason : string) : M unit :=
  let* r := deref p in
  if metadataBool (q_Metadata r) metaDESFinalized then ret tt
  else
    update p (λ r, completed_at simTime (set_reason reason ((mark_finalized r) <| q_Status := RequestStatusFailed |>))) ;;*
    let* r := deref p in
    record "request_latency_ms" (duration_ms r) simTime labels ;;*
    when (is_empty (q_ParentID r)) (record "root_request_latency_ms" (duration_ms r) simTime labels) ;;*
    endpoint_error labels reason simTime ;;*
    when (is_empty (q_ParentID r)) (ingress_failure labels reason simTime) ;;*
    breaker_failure (q_ServiceName r) (q_Endpoint r) simTime ;;*
    notify_parent notify p simTime true reason ;;*
    rm_FinalizeRequest p.
(** The count of synchronous children still to come, decremented: [None] when nobody
    waits, and then whether the last one has reported. *)
Definition child_reported (parentID : string) (note : M unit) : M (option bool) :=
  let* pending := gets st_pendingSync in
  match pending !! parentID with
  | None => ret None
  | Some n =>
      if n <=? 0 then ret None
      else
        note ;;*
        if 0 <? n - 1 then
          modify (λ s, s <| st_pendingSync := <[parentID := n - 1]> (st_pendingSync s) |>) ;;* ret (Some false)
        else
          modify (λ s, s <| st_pendingSync := delete parentID (st_pendingSync s) |>) ;;* ret (Some true)
  end.
(** A failed child marks its parent. *)
Definition mark_subtree_failed (keepReason : bool) (parentID reason : string) : M unit :=
  let* o := rm_GetRequest parentID in
  match o with
  | None => ret tt
  | Some q =>
      setMeta q metaSubtreeFailed (DBool true) ;;*
      when (negb (keepReason && is_empty reason)) (setMeta q metaFailureReason (DString reason))
  end.
Definition request_labels (r : ReqObject) : Labels :=
  labelsForRequestMetrics r (q_ServiceName r) (q_Endpoint r).
(** [fuel] bounds the length of the chain of parents that end with this child. *)
Fixpoint notify_chain (fuel : nat) : Notify := λ child parentID simTime childFailed failureReason,
  match fuel with
  | O => λ _, NoFuel
  | S fuel =>
      let* c := deref child in
      if is_empty parentID || metadataBool (q_Metadata c) metaDownstreamAsync
         || metadataBool (q_Metadata c) metaCallerSyncResolved then ret tt
      else
        setMeta child metaCallerSyncResolved (DBool true) ;;*
        let* last := child_reported parentID
                       (when childFailed (mark_subtree_failed true parentID failureReason)) in
        match last with
        | Some true =>
            let* o := rm_GetRequest parentID in
            match o with
            | None => ret tt
            | Some parent =>
                let* r := deref parent in
                let plabels := request_labels r in
                if metadataBool (q_Metadata r) metaSubtreeFailed then
                  finalize_failure (notify_chain fuel) parent simTime plabels "downstream_failure"
                else
                  match metadataTime (q_Metadata r) metaQueueAckDeadline with
                  | Some deadline =>
                      if Before simTime deadline then ret tt
                      else recordDeferredQueueParentMetricsIfNeeded parent simTime plabels ;;*
                           finalize_completion (notify_chain fuel) parent simTime plabels
                  | None =>
                      recordDeferredQueueParentMetricsIfNeeded parent simTime plabels ;;*
                      finalize_completion (notify_chain fuel) parent simTime plabels
                  end
            end
        | _ => ret tt
        end
  end.
(** Every finalised request ends one link, so the requests of the store are enough. *)
Definition chain_fuel (w : World) : nat := S (size (st_heap (w_st w))).
Definition notifyParentSyncChildResolved : Notify := λ child parentID simTime childFailed reason w,
  notify_chain (chain_fuel w) child parentID simTime childFailed reason w.
Definition finalizeRequestCompletion (p : positive) (simTime : Time) (labels : Labels) : M unit :=
  finalize_completion notifyParentSyncChildResolved p simTime labels.
Definition finalizeRequestFailure (p : positive) (simTime : Time) (labels : Labels) (reason : string)
    : M unit := finalize_failure notifyParentSyncChildResolved p simTime labels reason.
Definition propagateSyncPendingFromCallerOverheadFailure (parent : positive) (simTime : Time)
    (reason : string) (isAsync : bool) : M unit :=
  if isAsync then ret tt
  else
    let* r := deref parent in
    let* last := child_reported (q_ID r)
                   (setMeta parent metaSubtreeFailed (DBool true) ;;*
                    setMeta parent metaFailureReason (DString reason)) in
    match last with
    | Some true =>
        let* r := deref parent in
        finalizeRequestFailure parent simTime (request_labels r) "downstream_failure"
    | _ => ret tt
    end.
Definition propagateSyncChildFailureFromStartFailure (p : positive) (simTime : Time) (reason : string)
    : M unit :=
  let* r := deref p in
  let md := q_Metadata r in
  if is_empty (q_ParentID r) || metadataBool md metaDownstreamAsync || metadataBool md metaCallerSyncResolved
  then ret tt
  else
    setMeta p metaCallerSyncResolved (DBool true) ;;*
    let* last := child_reported (q_ParentID r) (mark_subtree_failed false (q_ParentID r) reason) in
    match last with
    | Some true =>
        let* o := rm_GetRequest (q_ParentID r) in
        match o with
        | None => ret tt
        | Some parent =>
            let* pr := deref parent in
            finalizeRequestFailure parent simTime (request_labels pr) "downstream_failure"
        end
    | _ => ret tt
    end.

(** * Retries *)

Definition getRetryPolicy (pm : option PolicyManager) : option retryPolicy :=
  match pm ≫= pm_retry with
  | Some rp => if rp_enabled rp then Some rp else None
  | None => None
  end.
Definition isolateFailedSyncAttempt (child : positive) : M unit :=
  setMeta child metaCallerSyncResolved (DBool true).
(** A downstream attempt that is to run again: which call of which parent, at which
    depth, with which attempt number. *)
Record RetryCall := mkRetryCall {
  ry_service : string;
  ry_path : string;
  ry_traceDepth : Z;
  ry_asyncDepth : Z;
  ry_isAsync : bool;
  ry_timeoutMs : float64;
  ry_attempt : Z;
  ry_logicalID : string;
  ry_caller : downstreamCallerTopology;
}.
Definition retry_data (parentID : string) (c : RetryCall) : Metadata :=
  mapOf ([("endpoint_path", DString (ry_path c)); ("parent_request_id", DString parentID);
          ("trace_depth", DInt (ry_traceDepth c)); ("async_depth", DInt (ry_asyncDepth c));
          ("is_async_downstream", DBool (ry_isAsync c)); ("downstream_timeout_ms", DFloat (ry_timeoutMs c));
          (metaRetryAttempt, DInt (ry_attempt c)); (metaLogicalCallID, DString (ry_logicalID c))]
         ++ topology_data (ry_caller c)).
Definition scheduleDownstreamRetryEvent (parent : positive) (c : RetryCall) (delay : Duration) : M unit :=
  let* now := GetSimTime in
  let* r := deref parent in
  ScheduleAt EventTypeDownstreamRetry (now + delay) (Some parent) (ry_service c) (retry_data (q_ID r) c).
(** The next attempt of the call that [child] carries out. *)
Definition next_attempt (child : ReqObject) (isAsync : bool) : RetryCall :=
  let md := q_Metadata child in
  mkRetryCall (q_ServiceName child) (q_Endpoint child) (metadataInt md "trace_depth")
    (metadataInt md "async_depth") isAsync (metadataFloat64 md "downstream_timeout_ms")
    (metadataInt md metaRetryAttempt + 1) (or_else (metadataString md metaLogicalCallID) (q_ID child))
    (topology_of md).
(** Whether the policy allows another attempt of the child, and which policy it is. *)
Definition may_retry (child : ReqObject) (reason : string) : M (option retryPolicy) :=
  let* pm := gets st_policies in
  ret (match getRetryPolicy pm with
       | Some rp =>
           if retryPolicy_ShouldRetry (metadataInt (q_Metadata child) metaRetryAttempt) (Some reason) rp
           then Some rp else None
       | None => None
       end).
(** Schedule the next attempt with the parent, if the parent is still known;
    [isolate] detaches the failed attempt. *)
Definition retry_child (child : positive) (parentID : string) (isAsync : bool) (reason : string)
    (isolate : M unit) : M bool :=
  let* c := deref child in
  let* rp := may_retry c reason in
  match rp with
  | None => ret false
  | Some rp =>
      let* o := rm_GetRequest parentID in
      match o with
      | None => ret false
      | Some parent =>
          isolate ;;*
          let next := next_attempt c isAsync in
          scheduleDownstreamRetryEvent parent next (retryPolicy_GetBackoffDuration (ry_attempt next) rp) ;;*
          ret true
      end
  end.
Definition maybeRetrySyncTimeout (child : positive) (parentID : string) : M bool :=
  retry_child child parentID false "timeout" (isolateFailedSyncAttempt child).
Definition maybeRetryAsyncTimeout (child : positive) (parentID : string) : M bool :=
  retry_child child parentID true "timeout" (setMeta child metaAsyncAttemptAbandoned (DBool true)).
Definition maybeRetrySyncStartFailure (child : positive) (reason : string) : M bool :=
  let* c := deref child in
  if is_empty (q_ParentID c) || metadataBool (q_Metadata c) metaDownstreamAsync then ret false
  else retry_child child (q_ParentID c) false reason (isolateFailedSyncAttempt child).
Definition maybeRetrySyncDependencyFailure (child : positive) (reason : string) (dsCall : DownstreamCall)
    : M bool :=
  if negb (DownstreamCall_IsRetryable dsCall) then ret false else maybeRetrySyncStartFailure child reason.
(** [evt] is the overhead event; its data is never nil. *)
Definition maybeRetrySyncCallerOverheadFailure (parent : positive) (evt : Event) (reason : string) : M bool :=
  let data := ev_Data evt in
  let* pm := gets st_policies in
  match getRetryPolicy pm with
  | None => ret false
  | Some rp =>
      let attempt := metadataInt data metaRetryAttempt in
      if metadataBool data "is_async_downstream" then ret false
      else if negb (retryPolicy_ShouldRetry attempt (Some reason) rp) then ret false
      else
        let* r := deref parent in
        let childPath := metadataString data "child_endpoint_path" in
        let logical := or_else (metadataString data metaLogicalCallID)
                         (q_ID r +:+ ":" +:+ ev_ServiceID evt +:+ ":" +:+ childPath) in
        let t := topology_of data in
        let* fb := callerTopologyFromRequest parent in
        let t := mkTopology (or_else (ct_InstanceID t) (ct_InstanceID fb))
                   (or_else (ct_HostZone t) (ct_HostZone fb)) (or_else (ct_HostID t) (ct_HostID fb)) in
        let next := mkRetryCall (ev_ServiceID evt) childPath (metadataInt data "trace_depth")
                      (metadataInt data "async_depth") false (metadataFloat64 data "downstream_timeout_ms")
                      (attempt + 1) logical t in
        scheduleDownstreamRetryEvent parent next (retryPolicy_GetBackoffDuration (attempt + 1) rp) ;;*
        ret true
  end.

(** * Spawning a downstream request *)

Definition copy_keys (keys : list string) (from : Metadata) (md : Metadata) : Metadata :=
  foldl (λ md k, match from !! k with Some v => <[k := v]> md | None => md end) md keys.
Definition workload_keys : list string := ["workload_from"; "workload_source_kind"; "workload_traffic_class"].
(** The metadata of a spawned request, on top of what creation set. *)
Definition spawn_meta (parentMd : Metadata) (t : downstreamCallerTopology) (traceDepth asyncDepth : Z)
    (isAsync : bool) (timeoutMs : float64) (retryAttempt : Z) (logicalCallID : string) (r : ReqObject)
    : ReqObject :=
  let md := q_Metadata r in
  let md := <["trace_depth" := DInt traceDepth]> md in
  let md := <["async_depth" := DInt asyncDepth]> md in
  let md := <[metaDownstreamAsync := DBool isAsync]> md in
  let md := <[metaRetryAttempt := DInt retryAttempt]> md in
  let md := <[metaLogicalCallID := DString (or_else logicalCallID (q_ID r))]> md in
  let md := if 0 <? retryAttempt then <[metaIsRetry := DBool true]> md else md in
  let md := copy_keys workload_keys parentMd md in
  let md := mapOf (known_topology t) ∪ md in
  let md := if fltb f0 timeoutMs then <["downstream_timeout_ms" := DFloat timeoutMs]> md else md in
  r <| q_Metadata := md |>.
(** A request that fails before it reaches its service: the dependency is broken. *)
Definition spawn_dependency_failure (child : positive) (dsCall : DownstreamCall) (tgtSvc : option Service)
    (simTime : Time) : M unit :=
  setStatus child RequestStatusFailed ;;*
  let reason := match tgtSvc with
                | Some t => if String.eqb (norm (svc_Kind t)) "external" then "external_failure"
                            else "dependency_failure"
                | None => "dependency_failure"
                end in
  rm_AddRequest child ;;*
  let* c := deref child in
  let dsLabels := request_labels c in
  record "request_count" f1 simTime dsLabels ;;*
  let* retried := maybeRetrySyncDependencyFailure child reason dsCall in
  if retried : bool then endpoint_error dsLabels reason simTime
  else finalizeRequestFailure child simTime dsLabels reason.
Definition start_data (path instanceID : string) : Metadata :=
  mapOf [("endpoint_path", DString path); ("instance_id", DString instanceID)].
Definition no_instances (serviceID e : string) : string :=
  "no instances available for service " +:+ serviceID +:+ ": " +:+ e.
Definition execDownstreamSpawn (parent : positive) (serviceID endpointPath : string)
    (traceDepth asyncDepth : Z) (isAsync : bool) (timeoutMs : float64) (retryAttempt : Z)
    (logicalCallID : string) (callerTopology : downstreamCallerTopology) : M unit :=
  let* simTime := GetSimTime in
  let* child := CreateDownstreamRequest parent serviceID endpointPath in
  let* pr := deref parent in
  let* g := gets st_graph in
  let* services := gets st_services in
  let dsCall := default zeroDownstream (resolveDownstreamCallSpec g pr serviceID endpointPath) in
  let tgtSvc := services !! serviceID in
  let pFail := mergedDependencyFailureRate dsCall tgtSvc in
  let* broken := if fltb f0 pFail then let* x := draw_Float64 in ret (fltb x pFail) else ret false in
  let* t := resolveCallerTopologyForSpawn parent callerTopology in
  update child (λ r, spawn_meta (q_Metadata pr) t traceDepth asyncDepth isAsync timeoutMs retryAttempt
                       logicalCallID r <| q_ArrivalTime := simTime |>) ;;*
  if broken : bool then spawn_dependency_failure child dsCall tgtSvc simTime
  else
    let* c := deref child in
    let dsLabels := request_labels c in
    record "request_count" f1 simTime dsLabels ;;*
    let* inst := selectInstanceForRequest child simTime in
    match inst with
    | Ok inst =>
        setMeta child "instance_id" (DString inst) ;;*
        rm_AddRequest child ;;*
        ScheduleAt EventTypeRequestStart simTime (Some child) serviceID (start_data endpointPath inst) ;;*
        when (fltb f0 timeoutMs)
          (ScheduleAtPriority EventTypeDownstreamTimeout (simTime + ms_whole timeoutMs) 1 None ""
             (mapOf [("child_request_id", DString (q_ID c)); ("parent_request_id", DString (q_ID pr));
                     ("is_async_downstream", DBool isAsync)]))
    | Fail e =>
        setStatus child RequestStatusFailed ;;*
        endpoint_error dsLabels "no_instance" simTime ;;*
        throw (no_instances serviceID e)
    | Panic => λ _, Crash
    end.
Definition execDownstreamSpawnFromEvent (parent : positive) (serviceID : string) (data : Metadata) : M unit :=
  execDownstreamSpawn parent serviceID (default "/" (asString data "endpoint_path"))
    (metadataInt data "trace_depth") (metadataInt data "async_depth")
    (metadataBool data "is_async_downstream") (metadataFloat64 data "downstream_timeout_ms")
    (metadataInt data metaRetryAttempt) (default "" (asString data metaLogicalCallID)) (topology_of data).

(** * The CPU a caller spends on its calls *)

Definition referenceCPUForDownstream (endpoints : gmap string Endpoint) (call : ResolvedCall) : float64 :=
  let mean := lat_Mean (ds_CallLatencyMs (rc_Call call)) in
  if fltb f0 mean then mean
  else match endpoints !! (rc_ServiceID call +:+ ":" +:+ rc_Path call) with
       | Some ep => if fltb f0 (ep_MeanCPUMs ep) then ep_MeanCPUMs ep else f0
       | None => f0
       end.
Definition clampDownstreamFractionCPU (f : float64) : float64 :=
  if fltb f f0 then f0 else if fltb f1 f then f1 else f.
Definition computeDownstreamCallerCPU (endpoints : gmap string Endpoint) (call : ResolvedCall) : float64 :=
  let fr := clampDownstreamFractionCPU (ds_DownstreamFractionCPU (rc_Call call)) in
  if fleb fr f0 then f0 else fmul fr (referenceCPUForDownstream endpoints call).
Definition labelsDownstreamCallerCPU (parent : ReqObject) (callerSvc callerEp : string) (call : ResolvedCall)
    (data : Metadata) : Labels :=
  let lbl := labelsForRequestMetrics parent callerSvc callerEp in
  let lbl := <["downstream_service" := rc_ServiceID call]> lbl in
  let lbl := <["downstream_endpoint" := rc_Path call]> lbl in
  let lbl := <["downstream_mode" := or_else (TrimSpace (ds_Mode (rc_Call call))) "sync"]> lbl in
  if metadataBool data metaOverheadFromRetry
  then <["attempt" := Itoa (metadataInt data metaRetryAttempt)]> (<["is_retry" := "true"]> lbl) else lbl.
Definition execRetrySpawnImmediate (parent : positive) (call : ResolvedCall) (nextTD nextAD : Z)
    (isAsync : bool) (retryAttempt : Z) (logicalID : string) (callerTopology : downstreamCallerTopology)
    : M unit :=
  let* t := resolveCallerTopologyForSpawn parent callerTopology in
  let data := mapOf ([("endpoint_path", DString (rc_Path call)); ("trace_depth", DInt nextTD);
                      ("async_depth", DInt nextAD); ("is_async_downstream", DBool isAsync);
                      ("downstream_timeout_ms", DFloat (ds_TimeoutMs (rc_Call call)));
                      (metaRetryAttempt, DInt retryAttempt); (metaLogicalCallID, DString logicalID)]
                     ++ known_topology t) in
  ignore (execDownstreamSpawnFromEvent parent (rc_ServiceID call) data).
(** The CPU interval reserved at the caller's instance; [None] when the call costs the
    caller nothing, the caller has no instance or the instance is gone. *)
Definition reserve_overhead (parent : positive) (tCursor : Time) (overhead : float64)
    : M (option (string * Time * Time)) :=
  if fleb overhead f0 then ret None
  else
    let* r := deref parent in
    match asString (q_Metadata r) "instance_id" with
    | None => ret None
    | Some instanceID =>
        if is_empty instanceID then ret None
        else
          let* m := gets st_rm in
          match ResourceManager_ReserveCPUWork instanceID tCursor overhead m with
          | Ok (cpuStart, cpuEnd, m) => mod_rm (λ _, m) ;;* ret (Some (instanceID, cpuStart, cpuEnd))
          | _ => ret None
          end
    end.
(** The data both overhead events carry. *)
Definition overhead_data (parent : ReqObject) (call : ResolvedCall) (nextTD nextAD : Z)
    (isAsync fromRetry : bool) (retryAttempt : Z) (logicalID : string) (t : downstreamCallerTopology)
    (overhead : float64) (instanceID : string) (cpuStart cpuEnd : Time) (extra : list (string * DataVal))
    : Metadata :=
  mapOf ([("instance_id", DString instanceID); ("cpu_ms", DFloat overhead);
          ("caller_service", DString (q_ServiceName parent)); ("caller_endpoint", DString (q_Endpoint parent));
          ("child_endpoint_path", DString (rc_Path call)); ("trace_depth", DInt nextTD);
          ("async_depth", DInt nextAD); ("is_async_downstream", DBool isAsync);
          ("downstream_timeout_ms", DFloat (ds_TimeoutMs (rc_Call call)));
          (metaOverheadFromRetry, DBool fromRetry); (metaRetryAttempt, DInt retryAttempt);
          (metaLogicalCallID, DString logicalID); ("reserved_cpu_start", DTime cpuStart);
          ("reserved_cpu_end", DTime cpuEnd)] ++ extra ++ topology_data t).
Definition schedule_overhead (parent : positive) (serviceID : string) (cpuStart cpuEnd : Time)
    (data : Metadata) : M unit :=
  ScheduleAt EventTypeDownstreamCallerOverheadStart cpuStart (Some parent) serviceID data ;;*
  ScheduleAt EventTypeDownstreamCallerOverheadEnd cpuEnd (Some parent) serviceID data.
(** The time after this call: the end of the caller's CPU interval, or for a broker
    the acknowledgement of the publish. *)
Definition scheduleDownstreamWithCallerOverhead (parent : positive) (call : ResolvedCall) (tCursor : Time)
    (nextTD nextAD : Z) (isAsync fromRetry : bool) (retryAttempt : Z) (logicalID : string)
    (callerTopology : downstreamCallerTopology) : M Time :=
  let* t := resolveCallerTopologyForSpawn parent callerTopology in
  let* services := gets st_services in
  let* endpoints := gets st_endpoints in
  let* r := deref parent in
  let overhead := computeDownstreamCallerCPU endpoints call in
  let data := overhead_data r call nextTD nextAD isAsync fromRetry retryAttempt logicalID t overhead in
  let brokered publish sample (key : string) : M Time :=
    let* slot := reserve_overhead parent tCursor overhead in
    match slot with
    | None => publish
    | Some (instanceID, cpuStart, cpuEnd) =>
        let* deliveryMs := sample in
        schedule_overhead parent (rc_ServiceID call) cpuStart cpuEnd
          (data instanceID cpuStart cpuEnd [(metaQueueEdge, DBool true); (key, DFloat deliveryMs)]) ;;*
        ret (cpuEnd + ms_scaled deliveryMs)
    end in
  if usesTopicBroker services call then
    brokered (scheduleTopicPublishFromOverhead parent call tCursor nextTD nextAD fromRetry retryAttempt
                logicalID (f64_of_Z (-1)) callerTopology)
      (sampleTopicDeliveryMs (rc_ServiceID call)) "topic_delivery_ms"
  else if usesQueueBroker services call then
    brokered (scheduleQueuePublishFromOverhead parent call tCursor nextTD nextAD fromRetry retryAttempt
                logicalID (f64_of_Z (-1)) callerTopology)
      (sampleQueueDeliveryMs (rc_ServiceID call)) "queue_delivery_ms"
  else
    let* slot := reserve_overhead parent tCursor overhead in
    match slot with
    | None =>
        (if fromRetry
         then execRetrySpawnImmediate parent call nextTD nextAD isAsync retryAttempt logicalID callerTopology
         else scheduleDownstreamCallEvent parent call tCursor nextTD nextAD isAsync) ;;*
        ret tCursor
    | Some (instanceID, cpuStart, cpuEnd) =>
        schedule_overhead parent (rc_ServiceID call) cpuStart cpuEnd (data instanceID cpuStart cpuEnd []) ;;*
        ret cpuEnd
    end.

(** * Handlers *)

(** The pointer an event carries; a handler that needs it rejects a nil request. *)
Definition need_request (evt : Event) (what : string) : M positive :=
  match ev_Request evt with
  | Some p => ret p
  | None => throw ("request is nil in " +:+ what)
  end.
Definition handleDownstreamCall (evt : Event) : M unit :=
  let* parent := need_request evt "downstream call event" in
  let* simTime := GetSimTime in
  NoteSimTime simTime ;;*
  let data := match ev_Data evt !! metaRetryAttempt with
              | Some _ => ev_Data evt
              | None => <[metaRetryAttempt := DInt 0]> (ev_Data evt)
              end in
  execDownstreamSpawnFromEvent parent (ev_ServiceID evt) data.
Definition resolved_call (parent : positive) (serviceID path : string) : M ResolvedCall :=
  let* r := deref parent in
  let* g := gets st_graph in
  ret (mkResolvedCall serviceID path (default zeroDownstream (resolveDownstreamCallSpec g r serviceID path))).
Definition handleDownstreamRetry (evt : Event) : M unit :=
  let* parent := need_request evt "downstream retry event" in
  let* simTime := GetSimTime in
  NoteSimTime simTime ;;*
  let data := ev_Data evt in
  let* call := resolved_call parent (ev_ServiceID evt) (metadataString data "endpoint_path") in
  let* _ := scheduleDownstreamWithCallerOverhead parent call simTime (metadataInt data "trace_depth")
              (metadataInt data "async_depth") (metadataBool data "is_async_downstream") true
              (metadataInt data metaRetryAttempt) (metadataString data metaLogicalCallID) (topology_of data) in
  ret tt.
Definition handleDownstreamTimeout (evt : Event) : M unit :=
  let* simTime := GetSimTime in
  NoteSimTime simTime ;;*
  let data := ev_Data evt in
  let parentID := metadataString data "parent_request_id" in
  let* o := rm_GetRequest (metadataString data "child_request_id") in
  match o with
  | None => ret tt
  | Some child =>
      let* c := deref child in
      let done := match q_Status c with RequestStatusCompleted => true | _ => false end in
      let failed := match q_Status c with RequestStatusFailed => true | _ => false end in
      if metadataBool (q_Metadata c) metaCallerSyncResolved then ret tt
      else if metadataBool data "is_async_downstream" then
        if done || failed then ret tt
        else if metadataBool (q_Metadata c) metaAsyncOpTimedOut then ret tt
        else
          endpoint_error (request_labels c) "timeout" simTime ;;*
          breaker_failure (q_ServiceName c) (q_Endpoint c) simTime ;;*
          let* retried := maybeRetryAsyncTimeout child parentID in
          if retried : bool then ret tt
          else setMeta child metaAsyncOpTimedOut (DBool true) ;;*
               setMeta child metaFailureReason (DString "timeout")
      else if done then ret tt
      else
        setMeta child metaSyncWaitTimedOut (DBool true) ;;*
        setMeta child metaFailureReason (DString "timeout") ;;*
        endpoint_error (request_labels c) "timeout" simTime ;;*
        breaker_failure (q_ServiceName c) (q_Endpoint c) simTime ;;*
        let* retried := maybeRetrySyncTimeout child parentID in
        if retried : bool then ret tt
        else notifyParentSyncChildResolved child parentID simTime true "timeout"
  end.
(** The error of a fallible resource operation, whose effects are kept on success. *)
Definition try_rm (f : ResourceManager → go ResourceManager) : M (option string) :=
  let* m := gets st_rm in
  match f m with
  | Ok m => mod_rm (λ _, m) ;;* ret None
  | Fail e => ret (Some e)
  | Panic => λ _, Crash
  end.
Definition handleDownstreamCallerOverheadStart (evt : Event) : M unit :=
  let* parent := need_request evt "downstream caller overhead start" in
  let* simTime := GetSimTime in
  NoteSimTime simTime ;;*
  let data := ev_Data evt in
  let instanceID := metadataString data "instance_id" in
  let cpuMs := metadataFloat64 data "cpu_ms" in
  let callerSvc := metadataString data "caller_service" in
  let callerEp := metadataString data "caller_endpoint" in
  let* call := resolved_call parent (ev_ServiceID evt) (metadataString data "child_endpoint_path") in
  let* o := outside in
  let* err := try_rm (ResourceManager_AllocateCPU (out_now o) instanceID cpuMs simTime) in
  let* r := deref parent in
  match err with
  | Some _ =>
      match metadataTime data "reserved_cpu_start", metadataTime data "reserved_cpu_end" with
      | Some t0, Some t1 => mod_rm (ResourceManager_RollbackCPUTailReservation instanceID t0 t1)
      | _, _ => ret tt
      end ;;*
      endpoint_error (labelsForRequestMetrics r callerSvc callerEp) "cpu_capacity" simTime ;;*
      let* retried := maybeRetrySyncCallerOverheadFailure parent evt "cpu_capacity" in
      if retried : bool then ret tt
      else propagateSyncPendingFromCallerOverheadFailure parent simTime "cpu_capacity"
             (metadataBool data "is_async_downstream")
  | None => record "downstream_caller_cpu_ms" cpuMs simTime (labelsDownstreamCallerCPU r callerSvc callerEp call data)
  end.
Definition handleDownstreamCallerOverheadEnd (evt : Event) : M unit :=
  let* parent := need_request evt "downstream caller overhead end" in
  let* simTime := GetSimTime in
  NoteSimTime simTime ;;*
  let data := ev_Data evt in
  let* call := resolved_call parent (ev_ServiceID evt) (metadataString data "child_endpoint_path") in
  let* services := gets st_services in
  let* o := outside in
  mod_rm (ResourceManager_ReleaseCPU (out_now o) (metadataString data "instance_id")
            (metadataFloat64 data "cpu_ms") simTime) ;;*
  let nextTD := metadataInt data "trace_depth" in
  let nextAD := metadataInt data "async_depth" in
  let isAsync := metadataBool data "is_async_downstream" in
  let fromRetry := metadataBool data metaOverheadFromRetry in
  let retryAttempt := metadataInt data metaRetryAttempt in
  let logicalID := metadataString data metaLogicalCallID in
  let fixed key := default (f64_of_Z (-1)) (asFloat data key) in
  if usesTopicBroker services call then
    let* _ := scheduleTopicPublishFromOverhead parent call simTime nextTD nextAD fromRetry retryAttempt
                logicalID (fixed "topic_delivery_ms") (topology_of data) in ret tt
  else if usesQueueBroker services call then
    let* _ := scheduleQueuePublishFromOverhead parent call simTime nextTD nextAD fromRetry retryAttempt
                logicalID (fixed "queue_delivery_ms") (topology_of data) in ret tt
  else if fromRetry then
    execRetrySpawnImmediate parent call nextTD nextAD isAsync retryAttempt logicalID (topology_of data)
  else scheduleDownstreamCallEvent parent call simTime nextTD nextAD isAsync.
