(* ===== verification/Brokers.v ===== *)
(** [internal/simd/queue_handlers.go] and [topic_handlers.go]: messages from producers
    through queue and topic shards to consumer requests, with acknowledgement timeouts,
    redelivery, dead letters and retention. *)
From S2P Require Import Prelude GoFloat Utils EventQueue RunManager Engine Policy Config Graph.
From S2P Require Import BrokerQueue Instance ResourceManager Routing Collector SimState.
From S2P Require Import ServiceModel Lifecycle Completion.
From Stdlib Require Import SpecFloat.
#[local] Open Scope string_scope.
#[local] Open Scope list_scope.
#[local] Open Scope Z_scope.
#[local] Open Scope sim_scope.

(** * Labels, targets and shards *)

Definition parseWorkloadTarget (target : string) : go (string * string) :=
  let invalid why := "invalid workload target format: " +:+ target +:+ why in
  match cut_colon target with
  | None => Fail (invalid " (expected serviceID:path)")
  | Some (a, b) =>
      let serviceID := TrimSpace a in
      let path := TrimSpace b in
      if is_empty serviceID then Fail (invalid " (serviceID must be non-empty)")
      else if is_empty path then Fail (invalid " (path must be non-empty)")
      else Ok (serviceID, path)
  end.
Definition parseConsumerTarget (target : string) : go (string * string) :=
  parseWorkloadTarget (TrimSpace target).
Definition queueBrokerLabels (brokerID topic producerSvc producerEp : string) : Labels :=
  let lbl := if is_empty producerSvc then EndpointLabelsWithOrigin brokerID topic "downstream"
             else EndpointLabelsWithOrigin producerSvc producerEp "downstream" in
  <["queue" := topic]> (<["topic" := topic]> (<["broker_service" := brokerID]> lbl)).
Definition queueStateLabels (brokerID topic : string) : Labels :=
  <["queue" := topic]> (<["topic" := topic]> {["broker_service" := brokerID]}).
Definition withReason (lbl : Labels) (reason : string) : Labels := <["reason" := reason]> lbl.
Definition opt_label (k v : string) (lbl : Labels) : Labels := if is_empty v then lbl else <[k := v]> lbl.
Definition topicBrokerLabels (brokerID topicPath producerSvc producerEp subName consumerGroup consumerSvc
    consumerEp : string) : Labels :=
  let lbl :=
    if is_empty producerSvc then EndpointLabelsWithOrigin brokerID topicPath "downstream"
    else <["producer_endpoint" := producerEp]> (<["producer_service" := producerSvc]>
           (EndpointLabelsWithOrigin producerSvc producerEp "downstream")) in
  let lbl := <["topic_service" := brokerID]> lbl in
  let lbl := <["broker_service" := brokerID]> lbl in
  let lbl := <["topic" := topicPath]> lbl in
  let lbl := opt_label "consumer_group" consumerGroup lbl in
  let lbl := opt_label "subscriber" subName lbl in
  if is_empty consumerSvc then lbl
  else <["consumer_endpoint" := consumerEp]> (<["consumer_service" := consumerSvc]> lbl).
Definition withTopicPartitionLabel (lbl : Labels) (partition : Z) : Labels :=
  <["partition" := Itoa partition]> lbl.
Definition topicStateLabels (brokerID topicPath subName consumerGroup : string) (partition : Z) : Labels :=
  let lbl := <["topic_service" := brokerID]> ∅ in
  let lbl := <["broker_service" := brokerID]> lbl in
  let lbl := <["topic" := topicPath]> lbl in
  let lbl := <["partition" := Itoa partition]> lbl in
  opt_label "subscriber" subName (opt_label "consumer_group" consumerGroup lbl).
(** The shards are objects of the resource manager: an operation changes the one
    stored under its key. *)
Definition shards : M BrokerQueues := gets (λ s, mg_brokerQueues (st_rm s)).
Definition mod_brokers (f : BrokerQueues → BrokerQueues) : M unit :=
  mod_rm (λ m, m <| mg_brokerQueues := f (mg_brokerQueues m) |>).
Definition on_queue (key : string) (f : BrokerQueueShard → BrokerQueueShard) : M unit :=
  mod_brokers (λ bq, bq <| bq_queueShards := alter f key (bq_queueShards bq) |>).
Definition on_topic (key : string) (f : BrokerQueueShard → BrokerQueueShard) : M unit :=
  mod_brokers (λ bq, bq <| bq_topicShards := alter f key (bq_topicShards bq) |>).
(** The caller of a publish: what the event says, else what the request shows now. *)
Definition publish_topology (evt : Event) (parent : positive) : M downstreamCallerTopology :=
  let t := topology_of (ev_Data evt) in
  let* fb := callerTopologyFromRequest parent in
  ret (mkTopology (or_else (ct_InstanceID t) (ct_InstanceID fb)) (or_else (ct_HostZone t) (ct_HostZone fb))
         (or_else (ct_HostID t) (ct_HostID fb))).
(** The metadata of a published message; a missing workload key is stored as nil. *)
Definition message_meta (data : Metadata) (parent : ReqObject) (brokerID topic : string)
    (t : downstreamCallerTopology) (extra : list (string * DataVal)) : Metadata :=
  let put k s := if is_empty s then [] else [(k, DString s)] in
  mapOf ([("trace_depth", DInt (metadataInt data "trace_depth"));
          ("async_depth", DInt (metadataInt data "async_depth"));
          (metaLogicalCallID, DString (metadataString data metaLogicalCallID));
          (metaRetryAttempt, DInt (metadataInt data metaRetryAttempt));
          (metaBrokerService, DString brokerID); (metaBrokerTopic, DString topic)] ++ extra
         ++ ((λ k, (k, default DNil (q_Metadata parent !! k))) <$> workload_keys)
         ++ put "instance_id" (ct_InstanceID t) ++ put "caller_host_zone" (ct_HostZone t)
         ++ put "caller_host_id" (ct_HostID t)).
Definition queue_wakeup (brokerID topic : string) (simTime : Time) : M unit :=
  ScheduleAt EventTypeQueueDequeue simTime None brokerID
    (mapOf [(metaBrokerService, DString brokerID); (metaBrokerTopic, DString topic)]).
Definition topic_wakeup (brokerID topic g subName : string) (partition : Z) (simTime : Time) : M unit :=
  ScheduleAt EventTypeTopicDequeue simTime None brokerID
    (mapOf [(metaBrokerService, DString brokerID); (metaBrokerTopic, DString topic);
            (metaTopicConsumerGrp, DString g); (metaTopicSubscriber, DString subName);
            (metaTopicPartition, DInt partition)]).

(** * Queues *)

Definition handleQueueEnqueue (evt : Event) : M unit :=
  let* parent := need_request evt "queue enqueue" in
  let* simTime := GetSimTime in
  NoteSimTime simTime ;;*
  let data := ev_Data evt in
  let brokerID := ev_ServiceID evt in
  let topic := or_else (metadataString data "endpoint_path") "/" in
  let* services := gets st_services in
  let* shard := on_rm (ResourceManager_GetBrokerQueue brokerID topic
                         (Some (effectiveQueueForBroker services brokerID))) in
  let* msgID := GenerateID in
  let* r := deref parent in
  let* t := publish_topology evt parent in
  let msg := mkMessage msgID simTime 0 (q_ID r) (q_TraceID r) (message_meta data r brokerID topic t []) 0 in
  let '(res, shard) := BrokerQueueShard_Enqueue msg shard in
  on_queue (BrokerQueueKey brokerID topic) (λ _, shard) ;;*
  let lbl := queueBrokerLabels brokerID topic (q_ServiceName r) (q_Endpoint r) in
  let stateLbl := queueStateLabels brokerID topic in
  let depth := f64_of_Z (BrokerQueueShard_Depth shard) in
  record "queue_publish_attempt_count" f1 simTime lbl ;;*
  if negb (er_Accepted res) then
    record "queue_drop_count" f1 simTime (withReason lbl (er_DropReason res)) ;;*
    record "queue_depth" depth simTime stateLbl
  else
    record "queue_enqueue_count" f1 simTime lbl ;;*
    when (er_DroppedOldest res) (record "queue_drop_count" f1 simTime (withReason lbl "drop_oldest")) ;;*
    record "queue_publish_latency_ms" (metadataFloat64 data "delivery_ms") simTime lbl ;;*
    record "queue_depth" depth simTime stateLbl ;;*
    record "message_age_ms" f0 simTime lbl ;;*
    queue_wakeup brokerID topic simTime.
(** The metadata of a consumer request, from the message it consumes. *)
Definition consumer_meta (msg : QueuedMessage) (own : list (string * DataVal)) (r : ReqObject) : ReqObject :=
  let mm := qm_Metadata msg in
  let put (k from : string) (md : Metadata) :=
    match asString mm from with
    | Some v => if is_empty v then md else <[k := DString v]> md
    | None => md
    end in
  let md := q_Metadata r in
  let md := <["trace_depth" := DInt (metadataInt mm "trace_depth")]> md in
  let md := <["async_depth" := DInt (metadataInt mm "async_depth")]> md in
  let md := put metaLogicalCallID metaLogicalCallID md in
  let md := foldl (λ md kv, <[fst kv := snd kv]> md) md own in
  let md := copy_keys (workload_keys ++ [metaRetryAttempt]) mm md in
  let md := put "caller_instance_id" "instance_id" md in
  let md := put "caller_host_zone" "caller_host_zone" md in
  let md := put "caller_host_id" "caller_host_id" md in
  r <| q_Metadata := md |>.
(** A consumer request for a message; the error of the creation is handed to
    [on_error] first. *)
Definition create_consumer (parent : positive) (svc path : string) (on_error : M unit) : M positive := λ w,
  match CreateDownstreamRequest parent svc path w with
  | Err e w => (on_error ;;* throw e) w
  | o => o
  end.
(** The message an acknowledgement timeout brings back. *)
Definition ack_data (child : ReqObject) (brokerID topic : string) (msg : QueuedMessage)
    (extra : list (string * DataVal)) : Metadata :=
  mapOf ([("child_request_id", DString (q_ID child)); (metaBrokerService, DString brokerID);
          (metaBrokerTopic, DString topic); (metaQueueMsgID, DString (qm_ID msg));
          ("msg_parent_request_id", DString (qm_ParentRequestID msg)); ("msg_trace_id", DString (qm_TraceID msg));
          ("msg_enqueue_time", DTime (qm_EnqueueTime msg)); ("msg_redeliveries", DInt (qm_Redeliveries msg));
          ("msg_metadata", DMap (qm_Metadata msg))] ++ extra).
Definition redelivered (simTime : Time) (data : Metadata) (topicOffset : Z) : QueuedMessage :=
  mkMessage (metadataString data metaQueueMsgID)
    (match metadataTime data "msg_enqueue_time" with
     | Some t => if IsZero t then simTime else t
     | None => simTime
     end)
    (metadataInt data "msg_redeliveries" + 1) (metadataString data "msg_parent_request_id")
    (metadataString data "msg_trace_id")
    (match data !! "msg_metadata" with Some (DMap m) => m | _ => ∅ end) topicOffset.
Definition handleQueueDequeue (evt : Event) : M unit :=
  let* simTime := GetSimTime in
  NoteSimTime simTime ;;*
  let data := ev_Data evt in
  let brokerID := or_else (metadataString data metaBrokerService) (ev_ServiceID evt) in
  let topic := metadataString data metaBrokerTopic in
  let key := BrokerQueueKey brokerID topic in
  let* services := gets st_services in
  let* bq := shards in
  match BrokerQueues_GetShard brokerID topic bq with
  | None => ret tt
  | Some shard =>
      let eff := effectiveQueueForBroker services brokerID in
      let '(o, shard) := BrokerQueueShard_TryPopForDispatch shard in
      on_queue key (λ _, shard) ;;*
      match o with
      | None => ret tt
      | Some msg =>
          let lbl := queueBrokerLabels brokerID topic "" "" in
          record "queue_dequeue_count" f1 simTime lbl ;;*
          record "message_age_ms" (f64_of_Z (Milliseconds (Sub simTime (qm_EnqueueTime msg)))) simTime lbl ;;*
          match parseConsumerTarget (sh_ConsumerTarget shard) with
          | Ok (consumerSvc, consumerPath) =>
              let* o := rm_GetRequest (qm_ParentRequestID msg) in
              match o with
              | None => on_queue key BrokerQueueShard_ConsumerFinished
              | Some parent =>
                  let* child := create_consumer parent consumerSvc consumerPath
                                  (on_queue key BrokerQueueShard_ConsumerFinished) in
                  update child (λ r, consumer_meta msg
                    [(metaQueueConsumer, DBool true); (metaQueueMsgID, DString (qm_ID msg));
                     (metaBrokerService, DString brokerID); (metaBrokerTopic, DString topic);
                     (metaQueueShardKey, DString key)] r <| q_ArrivalTime := simTime |>) ;;*
                  let* inst := selectInstanceForRequest child simTime in
                  match inst with
                  | Ok inst =>
                      setMeta child "instance_id" (DString inst) ;;*
                      rm_AddRequest child ;;*
                      let* c := deref child in
                      record "request_count" f1 simTime (request_labels c) ;;*
                      ScheduleAt EventTypeRequestStart simTime (Some child) consumerSvc
                        (start_data consumerPath inst) ;;*
                      when (fltb f0 (qb_AckTimeoutMs eff))
                        (ScheduleAtPriority EventTypeQueueAckTimeout (simTime + ms_whole (qb_AckTimeoutMs eff)) 1
                           None "" (ack_data c brokerID topic msg []))
                  | _ => on_queue key (BrokerQueueShard_RequeueFront msg)
                  end
              end
          | Fail e => throw e
          | Panic => λ _, Crash
          end
      end
  end.
(** A consumer that did not acknowledge in time fails. *)
Definition fail_unacked (child : positive) (simTime : Time) : M unit :=
  setStatus child RequestStatusFailed ;;*
  setMeta child metaBrokerAckTimedOut (DBool true) ;;*
  let* c := deref child in
  endpoint_error (request_labels c) "timeout" simTime.
Definition handleQueueAckTimeout (evt : Event) : M unit :=
  let* simTime := GetSimTime in
  NoteSimTime simTime ;;*
  let data := ev_Data evt in
  let brokerID := metadataString data metaBrokerService in
  let topic := metadataString data metaBrokerTopic in
  let key := BrokerQueueKey brokerID topic in
  let* o := rm_GetRequest (metadataString data "child_request_id") in
  match o with
  | None => ret tt
  | Some child =>
      let* c := deref child in
      match q_Status c with
      | RequestStatusProcessing =>
          let* services := gets st_services in
          let* bq := shards in
          match BrokerQueues_GetShard brokerID topic bq with
          | None => ret tt
          | Some _ =>
              let eff := effectiveQueueForBroker services brokerID in
              fail_unacked child simTime ;;*
              let msg := redelivered simTime data 0 in
              (if qb_MaxRedeliveries eff <? qm_Redeliveries msg then
                 on_queue key BrokerQueueShard_ConsumerFinished ;;*
                 ScheduleAt EventTypeQueueDLQ simTime None brokerID
                   (mapOf [(metaBrokerTopic, DString topic)])
               else
                 on_queue key (BrokerQueueShard_RequeueFront msg) ;;*
                 on_queue key BrokerQueueShard_NoteRedelivery ;;*
                 record "queue_redelivery_count" f1 simTime (queueBrokerLabels brokerID topic "" "")) ;;*
              queue_wakeup brokerID topic simTime
          end
      | _ => ret tt
      end
  end.
Definition handleQueueDLQ (evt : Event) : M unit :=
  let* simTime := GetSimTime in
  NoteSimTime simTime ;;*
  let topic := metadataString (ev_Data evt) metaBrokerTopic in
  when (negb (is_empty topic)) (on_queue (BrokerQueueKey (ev_ServiceID evt) topic) BrokerQueueShard_NoteDLQ) ;;*
  record "queue_dlq_count" f1 simTime (queueBrokerLabels (ev_ServiceID evt) topic "" "").
Definition handleQueueRedelivery (evt : Event) : M unit :=
  let* simTime := GetSimTime in
  NoteSimTime simTime ;;*
  record "queue_redelivery_count" f1 simTime
    (queueBrokerLabels (ev_ServiceID evt) (metadataString (ev_Data evt) metaBrokerTopic) "" "").
Definition metaQueueConsumerDone (p : positive) (simTime : Time) : M unit :=
  let* r := deref p in
  if negb (metadataBool (q_Metadata r) metaQueueConsumer) then ret tt
  else
    match cut_colon (metadataString (q_Metadata r) metaQueueShardKey) with
    | None => ret tt
    | Some (brokerID, topic) =>
        let key := BrokerQueueKey brokerID topic in
        on_queue key BrokerQueueShard_ConsumerFinished ;;*
        let* bq := shards in
        match BrokerQueues_GetShard brokerID topic bq with
        | None => ret tt
        | Some shard =>
            record "queue_depth" (f64_of_Z (BrokerQueueShard_Depth shard)) simTime
              (queueStateLabels brokerID topic) ;;*
            queue_wakeup brokerID topic simTime
        end
    end.

(** * Topics *)

Fixpoint partition_hash (partitions h : Z) (k : string) : Z :=
  match k with
  | EmptyString => h
  | String c k => partition_hash partitions (Z.rem (wrap64 (h * 31 + Z.of_N (N_of_ascii c))) partitions) k
  end.
Definition topicPartitionForPublish (brokerID topicPath : string) (partitions : Z) (data : Metadata) : M Z :=
  if partitions <=? 1 then ret 0
  else
    let k := metadataString data "partition_key" in
    if negb (is_empty k) then
      let h := partition_hash partitions 0 k in
      ret (if h <? 0 then h + partitions else h)
    else
      let key := brokerID +:+ "|" +:+ topicPath in
      let* cursors := gets st_topicPartitionCursor in
      let c := default 0 (cursors !! key) in
      modify (λ s, s <| st_topicPartitionCursor := <[key := Z.rem (c + 1) partitions]> (st_topicPartitionCursor s) |>) ;;*
      ret (Z.rem c partitions).
Definition topicAckTimeoutMs (shard : BrokerQueueShard) : float64 :=
  if fltb f0 (sh_AckTimeoutMs shard) then sh_AckTimeoutMs shard else f0.
Definition scheduleTopicShardRetention (brokerID topic : string) (partition : Z) (g : string)
    (eff : TopicBehavior) : M unit :=
  let retention := tb_RetentionMs eff in
  if retention <=? 0 then ret tt
  else
    let key := TopicSubscriberPartitionShardKey brokerID topic partition g in
    let* bq := shards in
    let* simTime := GetSimTime in
    match BrokerQueues_GetTopicSubscriberPartitionShard brokerID topic partition g bq with
    | None => ret tt
    | Some shard =>
        match BrokerQueueShard_OldestQueuedEnqueueTime shard with
        | None => ret tt
        | Some t0 =>
            let deadline := t0 + wrap64 (retention * Millisecond) in
            let deadline := if Before deadline simTime then simTime else deadline in
            if negb (BrokerQueueShard_ShouldScheduleRetentionAt deadline shard) then ret tt
            else
              ScheduleAt EventTypeTopicRetentionExpire deadline None brokerID
                (mapOf [(metaBrokerService, DString brokerID); (metaBrokerTopic, DString topic);
                        (metaTopicConsumerGrp, DString g); (metaTopicPartition, DInt partition)]) ;;*
              on_topic key (BrokerQueueShard_NoteRetentionScheduled deadline)
        end
    end.
(** The backlog and the lag of a consumer group. *)
Definition record_backlog (shard : BrokerQueueShard) (simTime : Time) (lbl : Labels) : M unit :=
  record "topic_backlog_depth" (f64_of_Z (BrokerQueueShard_Depth shard)) simTime lbl.
Definition record_lag (brokerID topic : string) (partition : Z) (shard : BrokerQueueShard) (simTime : Time)
    (lbl : Labels) : M unit :=
  let* bq := shards in
  record "topic_consumer_lag"
    (TopicConsumerLagMessages (BrokerQueues_HighWatermarkExclusive brokerID topic partition bq)
       (BrokerQueueShard_CommittedOffsetExclusive shard)) simTime lbl.
Definition handleTopicRetentionExpire (evt : Event) : M unit :=
  let* simTime := GetSimTime in
  NoteSimTime simTime ;;*
  let data := ev_Data evt in
  let brokerID := or_else (metadataString data metaBrokerService) (ev_ServiceID evt) in
  let topic := metadataString data metaBrokerTopic in
  let g := metadataString data metaTopicConsumerGrp in
  let partition := metadataInt data metaTopicPartition in
  let key := TopicSubscriberPartitionShardKey brokerID topic partition g in
  let* services := gets st_services in
  let eff := effectiveTopicForBroker services brokerID in
  let retention := tb_RetentionMs eff in
  if retention <=? 0 then ret tt
  else
    let* bq := shards in
    match BrokerQueues_GetTopicSubscriberPartitionShard brokerID topic partition g bq with
    | None => ret tt
    | Some shard =>
        let '(removed, shard) := BrokerQueueShard_ExpireQueuedByRetention simTime retention
                                   (BrokerQueueShard_ClearRetentionSchedule shard) in
        let shard := foldl (λ s off, BrokerQueueShard_RecordTopicOffsetProcessed off s) shard removed in
        on_topic key (λ _, shard) ;;*
        let more := when (0 <? BrokerQueueShard_Depth shard)
                      (scheduleTopicShardRetention brokerID topic partition g eff) in
        match removed with
        | [] => more
        | _ =>
            let lbl := withTopicPartitionLabel
                         (topicBrokerLabels brokerID topic "" "" (sh_SubscriberName shard) g "" "") partition in
            record "topic_drop_count" (f64_of_Z (len removed)) simTime (withReason lbl "retention_expired") ;;*
            let stateLbl := topicStateLabels brokerID topic (sh_SubscriberName shard) g partition in
            record_backlog shard simTime stateLbl ;;*
            record_lag brokerID topic partition shard simTime stateLbl ;;*
            more ;;*
            topic_wakeup brokerID topic g (sh_SubscriberName shard) partition simTime
        end
    end.
(** One subscriber's copy of a published message. *)
Definition publish_to (evt : Event) (parent : positive) (brokerID topic : string) (eff : TopicBehavior)
    (partition partOffset : Z) (simTime : Time) (sub : TopicSubscriber) : M unit :=
  let data := ev_Data evt in
  let g := TrimSpace (sub_ConsumerGroup sub) in
  let name := TrimSpace (sub_Name sub) in
  let key := TopicSubscriberPartitionShardKey brokerID topic partition g in
  let* msgID := GenerateID in
  let* shard := on_rm (ResourceManager_GetBrokerTopicSubscriberPartitionShard brokerID topic partition g
                         (Some eff) (Some sub)) in
  let* r := deref parent in
  let* t := publish_topology evt parent in
  let meta := message_meta data r brokerID topic t
                [(metaTopicSubscriber, DString name); (metaTopicConsumerGrp, DString g);
                 (metaTopicPartition, DInt partition); (metaTopicOffset, DInt partOffset)] in
  let '(res, shard) := BrokerQueueShard_Enqueue (mkMessage msgID simTime 0 (q_ID r) (q_TraceID r) meta partOffset)
                         shard in
  let lbl := withTopicPartitionLabel
               (topicBrokerLabels brokerID topic (q_ServiceName r) (q_Endpoint r) name g "" "") partition in
  let stateLbl := topicStateLabels brokerID topic name g partition in
  if negb (er_Accepted res) then
    record "topic_drop_count" f1 simTime (withReason lbl (er_DropReason res)) ;;*
    let shard := BrokerQueueShard_RecordTopicOffsetProcessed partOffset shard in
    on_topic key (λ _, shard) ;;*
    record_backlog shard simTime stateLbl ;;*
    record_lag brokerID topic partition shard simTime stateLbl
  else
    when (er_DroppedOldest res) (record "topic_drop_count" f1 simTime (withReason lbl "drop_oldest")) ;;*
    let shard := if er_DroppedOldest res
                 then BrokerQueueShard_RecordTopicOffsetProcessed (er_EvictedTopicOffset res) shard else shard in
    on_topic key (λ _, shard) ;;*
    record_backlog shard simTime stateLbl ;;*
    record_lag brokerID topic partition shard simTime stateLbl ;;*
    record "topic_message_age_ms" f0 simTime lbl ;;*
    scheduleTopicShardRetention brokerID topic partition g eff ;;*
    topic_wakeup brokerID topic g name partition simTime.
Definition handleTopicPublish (evt : Event) : M unit :=
  let* parent := need_request evt "topic publish" in
  let* simTime := GetSimTime in
  NoteSimTime simTime ;;*
  let data := ev_Data evt in
  let brokerID := ev_ServiceID evt in
  let topic := or_else (metadataString data "endpoint_path") "/" in
  let* services := gets st_services in
  let subs := CanonicalTopicSubscribersForHash ((services !! brokerID ≫= svc_Behavior) ≫= sb_Topic) in
  let eff := effectiveTopicForBroker services brokerID in
  let subs := match subs with [] => tb_Subscribers eff | _ => subs end in
  let partitions := if tb_Partitions eff <=? 0 then 1 else tb_Partitions eff in
  let* r := deref parent in
  let pubLbl := topicBrokerLabels brokerID topic (q_ServiceName r) (q_Endpoint r) "" "" "" "" in
  record "topic_publish_count" f1 simTime pubLbl ;;*
  record "topic_publish_latency_ms" (metadataFloat64 data "delivery_ms") simTime pubLbl ;;*
  let* partition := topicPartitionForPublish brokerID topic partitions data in
  let* partOffset := on_rm (λ m,
    let '(o, bq) := BrokerQueues_NextTopicPartitionOffset brokerID topic partition (mg_brokerQueues m) in
    (o, m <| mg_brokerQueues := bq |>)) in
  mfor subs (publish_to evt parent brokerID topic eff partition partOffset simTime).
Definition handleTopicDequeue (evt : Event) : M unit :=
  let* simTime := GetSimTime in
  NoteSimTime simTime ;;*
  let data := ev_Data evt in
  let brokerID := or_else (metadataString data metaBrokerService) (ev_ServiceID evt) in
  let topic := metadataString data metaBrokerTopic in
  let g := metadataString data metaTopicConsumerGrp in
  let partition := metadataInt data metaTopicPartition in
  let key := TopicSubscriberPartitionShardKey brokerID topic partition g in
  let* services := gets st_services in
  let* bq := shards in
  match BrokerQueues_GetTopicSubscriberPartitionShard brokerID topic partition g bq with
  | None => ret tt
  | Some shard =>
      let '(o, shard) := BrokerQueueShard_TryPopForDispatch shard in
      on_topic key (λ _, shard) ;;*
      match o with
      | None => ret tt
      | Some msg =>
          let partition := metadataInt (qm_Metadata msg) metaTopicPartition in
          let subName := metadataString (qm_Metadata msg) metaTopicSubscriber in
          match parseConsumerTarget (sh_ConsumerTarget shard) with
          | Ok (cs, cp) =>
              let lbl := withTopicPartitionLabel (topicBrokerLabels brokerID topic "" "" subName g cs cp) partition in
              record "topic_deliver_count" f1 simTime lbl ;;*
              record "topic_message_age_ms" (f64_of_Z (Milliseconds (Sub simTime (qm_EnqueueTime msg)))) simTime lbl ;;*
              let* o := rm_GetRequest (qm_ParentRequestID msg) in
              match o with
              | None => on_topic key BrokerQueueShard_ConsumerFinished
              | Some parent =>
                  let* child := create_consumer parent cs cp (on_topic key BrokerQueueShard_ConsumerFinished) in
                  update child (λ r, consumer_meta msg
                    [(metaTopicConsumer, DBool true); (metaQueueMsgID, DString (qm_ID msg));
                     (metaBrokerService, DString brokerID); (metaBrokerTopic, DString topic);
                     (metaTopicShardKey, DString (TopicSubscriberPartitionShardKey brokerID topic partition g));
                     (metaTopicConsumerGrp, DString g); (metaTopicSubscriber, DString subName);
                     (metaTopicPartition, DInt partition); (metaTopicOffset, DInt (qm_TopicOffset msg))] r
                     <| q_ArrivalTime := simTime |>) ;;*
                  let* inst := selectInstanceForRequest child simTime in
                  match inst with
                  | Ok inst =>
                      setMeta child "instance_id" (DString inst) ;;*
                      rm_AddRequest child ;;*
                      let* c := deref child in
                      record "request_count" f1 simTime (request_labels c) ;;*
                      ScheduleAt EventTypeRequestStart simTime (Some child) cs (start_data cp inst) ;;*
                      let ackMs := topicAckTimeoutMs shard in
                      when (fltb f0 ackMs)
                        (ScheduleAtPriority EventTypeTopicAckTimeout (simTime + ms_whole ackMs) 1 None ""
                           (ack_data c brokerID topic msg
                              [(metaTopicConsumerGrp, DString g); (metaTopicPartition, DInt partition);
                               ("msg_topic_offset", DInt (qm_TopicOffset msg))]))
                  | _ =>
                      on_topic key (BrokerQueueShard_RequeueFront msg) ;;*
                      scheduleTopicShardRetention brokerID topic partition g
                        (effectiveTopicForBroker services brokerID)
                  end
              end
          | Fail e => throw e
          | Panic => λ _, Crash
          end
      end
  end.
Definition handleTopicAckTimeout (evt : Event) : M unit :=
  let* simTime := GetSimTime in
  NoteSimTime simTime ;;*
  let data := ev_Data evt in
  let brokerID := metadataString data metaBrokerService in
  let topic := metadataString data metaBrokerTopic in
  let g := metadataString data metaTopicConsumerGrp in
  let partition := metadataInt data metaTopicPartition in
  let key := TopicSubscriberPartitionShardKey brokerID topic partition g in
  let offset := metadataInt64 data "msg_topic_offset" in
  let* o := rm_GetRequest (metadataString data "child_request_id") in
  match o with
  | None => ret tt
  | Some child =>
      let* c := deref child in
      match q_Status c with
      | RequestStatusProcessing =>
          let* services := gets st_services in
          let* bq := shards in
          match BrokerQueues_GetTopicSubscriberPartitionShard brokerID topic partition g bq with
          | None => ret tt
          | Some shard =>
              fail_unacked child simTime ;;*
              let msg := redelivered simTime data offset in
              let tLbl := withTopicPartitionLabel
                            (topicBrokerLabels brokerID topic "" "" (sh_SubscriberName shard) g "" "") partition in
              (if sh_MaxRedeliveries shard <? qm_Redeliveries msg then
                 on_topic key BrokerQueueShard_ConsumerFinished ;;*
                 ScheduleAt EventTypeTopicDLQ simTime None brokerID
                   (mapOf [(metaBrokerTopic, DString topic); (metaTopicConsumerGrp, DString g);
                           (metaTopicPartition, DInt partition); ("msg_topic_offset", DInt offset)])
               else
                 on_topic key (BrokerQueueShard_RequeueFront msg) ;;*
                 on_topic key BrokerQueueShard_NoteRedelivery ;;*
                 record "topic_redelivery_count" f1 simTime tLbl ;;*
                 scheduleTopicShardRetention brokerID topic partition g
                   (effectiveTopicForBroker services brokerID)) ;;*
              topic_wakeup brokerID topic g (sh_SubscriberName shard) partition simTime
          end
      | _ => ret tt
      end
  end.
Definition handleTopicDLQ (evt : Event) : M unit :=
  let* simTime := GetSimTime in
  NoteSimTime simTime ;;*
  let data := ev_Data evt in
  let g := metadataString data metaTopicConsumerGrp in
  let topic := metadataString data metaBrokerTopic in
  let partition := metadataInt data metaTopicPartition in
  on_topic (TopicSubscriberPartitionShardKey (ev_ServiceID evt) topic partition g)
    (λ s, BrokerQueueShard_RecordTopicOffsetProcessed (metadataInt64 data "msg_topic_offset")
            (BrokerQueueShard_NoteDLQ s)) ;;*
  record "topic_dlq_count" f1 simTime
    (withTopicPartitionLabel (topicBrokerLabels (ev_ServiceID evt) topic "" "" "" g "" "") partition).
(** [strings.Split(s, "\x1e")]. *)
Fixpoint split_rs (acc s : string) : list string :=
  match s with
  | EmptyString => [acc]
  | String c s => if Ascii.eqb c (ascii_of_N 30) then acc :: split_rs "" s
                  else split_rs (acc +:+ String c "") s
  end.
(** Broker, topic, partition and consumer group of a shard key. *)
Definition topic_key_parts (key : string) : string * string * Z * string :=
  match split_rs "" key with
  | b :: t :: p :: g :: _ =>
      (b, t, match Atoi p with Some n => if 0 <=? n then n else 0 | None => 0 end, g)
  | [b; t; g] => (b, t, 0, g)
  | _ => ("", "", 0, "")
  end.
Definition metaTopicConsumerDone (p : positive) (simTime : Time) : M unit :=
  let* r := deref p in
  let md := q_Metadata r in
  let key := metadataString md metaTopicShardKey in
  if negb (metadataBool md metaTopicConsumer) || is_empty key then ret tt
  else
    let* bq := shards in
    match BrokerQueues_GetTopicShardByKey key bq with
    | None => ret tt
    | Some shard =>
        let shard := BrokerQueueShard_RecordTopicOffsetProcessed (metadataInt64 md metaTopicOffset)
                       (BrokerQueueShard_ConsumerFinished shard) in
        on_topic key (λ _, shard) ;;*
        let '(brokerID, topic, partition, g) := topic_key_parts key in
        let lbl := topicStateLabels brokerID topic (sh_SubscriberName shard) g partition in
        record_backlog shard simTime lbl ;;*
        record_lag brokerID topic partition shard simTime lbl ;;*
        topic_wakeup brokerID topic g (sh_SubscriberName shard) partition simTime
    end.
