(* ===== verification/Handlers.v ===== *)
(** [internal/simd/handlers.go]: arrival, start and completion of a request, the deferred
    end of a producer, and the registration of every handler with the engine. *)
From S2P Require Import Prelude GoFloat Utils EventQueue RunManager Engine Policy Config Graph.
From S2P Require Import BrokerQueue Instance ResourceManager Routing Collector SimState.
From S2P Require Import ServiceModel Lifecycle Completion Brokers.
From Stdlib Require Import SpecFloat.
#[local] Open Scope string_scope.
#[local] Open Scope list_scope.
#[local] Open Scope Z_scope.
#[local] Open Scope sim_scope.

(** * Arrival *)

(** The metadata of a new request: depths, where it came from, and the caller's own
    metadata, which wins. *)
Definition arrival_meta (data : Metadata) : Metadata :=
  let copy (k from : string) (md : Metadata) :=
    match data !! from with Some v => <[k := v]> md | None => md end in
  let md := <["trace_depth" := DInt 0]> ∅ in
  let md := <["async_depth" := DInt 0]> md in
  let md := copy "workload_from" "from" md in
  let md := copy "workload_source_kind" "source_kind" md in
  let md := copy "workload_traffic_class" "traffic_class" md in
  match data !! "metadata" with Some (DMap m) => m ∪ md | _ => md end.
(** A rejected arrival is failed and counted; it is not finalised. *)
Definition reject_arrival (p : positive) (labels : Labels) (reason : string) (simTime : Time) (msg : string)
    : M unit :=
  setStatus p RequestStatusFailed ;;*
  endpoint_error labels reason simTime ;;*
  ingress_failure labels reason simTime ;;*
  throw msg.
Definition handleRequestArrival (evt : Event) : M unit :=
  let* simTime := GetSimTime in
  process_draining simTime ;;*
  let data := ev_Data evt in
  match asString data "service_id", asString data "endpoint_path" with
  | None, _ => throw "missing service_id in request arrival event"
  | Some _, None => throw "missing endpoint_path in request arrival event"
  | Some serviceID, Some endpointPath =>
      let ingressLabels := EndpointLabelsWithOrigin serviceID endpointPath "ingress" in
      let* requestID := GenerateID in
      let* traceID := GenerateID in
      let* p := alloc (mkReqObject requestID traceID "" serviceID endpointPath RequestStatusPending simTime
                         zeroTime zeroTime 0 f0 f0 f0 "" (arrival_meta data)) in
      rm_AddRequest p ;;*
      record "request_count" f1 simTime ingressLabels ;;*
      let* ok := limiter_allows serviceID endpointPath simTime in
      if negb ok then
        reject_arrival p ingressLabels "rate_limited" simTime
          ("rate limit exceeded for " +:+ serviceID +:+ ":" +:+ endpointPath)
      else
        let* ok := breaker_allows serviceID endpointPath simTime in
        if negb ok then
          reject_arrival p ingressLabels "circuit_open" simTime
            ("circuit breaker open for " +:+ serviceID +:+ ":" +:+ endpointPath)
        else
          let* inst := selectInstanceForRequest p simTime in
          match inst with
          | Ok inst =>
              setMeta p "instance_id" (DString inst) ;;*
              ScheduleAt EventTypeRequestStart simTime (Some p) serviceID (start_data endpointPath inst)
          | Fail e =>
              reject_arrival p ingressLabels "no_instance" simTime (no_instances serviceID e)
          | Panic => λ _, Crash
          end
  end.

(** * Start *)

(** The instance that runs the request: of the event, of the request, or a new choice. *)
Definition start_instance (p : positive) (evt : Event) (serviceID : string) (simTime : Time) : M string :=
  let* r := deref p in
  match asString (ev_Data evt) "instance_id" with
  | Some id => ret id
  | None =>
      match asString (q_Metadata r) "instance_id" with
      | Some id => ret id
      | None =>
          let* inst := selectInstanceForRequest p simTime in
          match inst with
          | Ok inst => setMeta p "instance_id" (DString inst) ;;* ret inst
          | Fail e => throw (no_instances serviceID e)
          | Panic => λ _, Crash
          end
      end
  end.
(** The host of an ingress request is remembered for its downstream calls. *)
Definition seed_topology (p : positive) (instanceID : string) : M unit :=
  let* r := deref p in
  let* m := gets st_rm in
  if is_empty (q_ParentID r) && is_empty (metadataString (q_Metadata r) "caller_host_id") then
    match mg_instances m !! instanceID with
    | None => ret tt
    | Some inst =>
        let hostID := si_hostID inst in
        if is_empty hostID then ret tt
        else
          setMeta p "caller_host_id" (DString hostID) ;;*
          match mg_hosts m !! hostID with
          | None => ret tt
          | Some host =>
              when (negb (is_empty (TrimSpace (h_zone host))))
                (setMeta p "caller_host_zone" (DString (TrimSpace (h_zone host))))
          end
    end
  else ret tt.
(** CPU, network and memory after saturation and the cache. *)
Definition start_costs (p : positive) (svc : Service) (prof : ServiceExecutionProfile) (instanceID : string)
    (simTime : Time) : M (float64 * float64 * float64) :=
  let* r := deref p in
  let* m := gets st_rm in
  let cpu := xp_CPUTimeMs prof in
  let net := xp_NetworkLatencyMs prof in
  let mem := default (xp_MemoryMB prof) (asFloat (q_Metadata r) "memory_mb") in
  let '(cpu, net) :=
    match mg_instances m !! instanceID, svc_Behavior svc with
    | Some inst, Some b =>
        if fltb f0 (sb_SaturationLatencyFactor b) then
          let f := fadd f1 (fmul (sb_SaturationLatencyFactor b) (ServiceInstance_CPUUtilizationAt simTime inst)) in
          (fmul cpu f, fmul net f)
        else (cpu, net)
    | _, _ => (cpu, net)
    end in
  match svc_Behavior svc ≫= sb_Cache with
  | None => ret (cpu, net, mem)
  | Some c =>
      let* x := draw_Float64 in
      if fltb x (cab_HitRate c) then
        setMeta p "cache_hit" (DBool true) ;;*
        let* hit := draw_clamped (lat_Mean (cab_HitLatencyMs c)) (lat_Sigma (cab_HitLatencyMs c)) in
        ret (fmul hit (f64_lit 4 10), fmul hit (f64_lit 6 10), fmul mem (f_pct 85))
      else
        setMeta p "cache_miss" (DBool true) ;;*
        let* miss := draw_clamped (lat_Mean (cab_MissLatencyMs c)) (lat_Sigma (cab_MissLatencyMs c)) in
        ret (fadd cpu (fmul miss (f64_lit 5 10)), fadd net (fmul miss (f64_lit 5 10)), mem)
  end.
(** A request that cannot start: failed and counted, then retried or reported to the
    parent that waits; whether it is retried. *)
Definition reject_start (p : positive) (reason : string) (simTime : Time) : M bool :=
  setStatus p RequestStatusFailed ;;*
  let* r := deref p in
  endpoint_error (request_labels r) reason simTime ;;*
  when (is_empty (q_ParentID r)) (ingress_failure (request_labels r) reason simTime) ;;*
  breaker_failure (q_ServiceName r) (q_Endpoint r) simTime ;;*
  let* retried := maybeRetrySyncStartFailure p reason in
  if retried : bool then ret true
  else propagateSyncChildFailureFromStartFailure p simTime reason ;;* ret false.
(** The failure of the service itself. *)
Definition local_failure (p : positive) (simTime : Time) : M unit :=
  setStatus p RequestStatusFailed ;;*
  let* r := deref p in
  let lbl := request_labels r in
  let* retried := maybeRetrySyncStartFailure p "local_failure" in
  if retried : bool then endpoint_error lbl "local_failure" simTime
  else finalizeRequestFailure p simTime lbl "local_failure".
(** The CPU interval a deferred start comes back with. *)
Definition deferred_slot (md : Metadata) : option (Time * Time) :=
  if metadataBool md metaCPUDeferredStart then
    match metadataTime md metaCPUServiceStart, metadataTime md metaCPUServiceEnd with
    | Some t0, Some t1 => Some (t0, t1)
    | _, _ => None
    end
  else None.
(** The CPU interval of the request; [None] when the start ends here: the instance is
    gone, or the CPU is free only later and the start is scheduled for then. *)
Definition start_slot (p : positive) (serviceID endpointPath instanceID : string) (cpuTimeMs : float64)
    (simTime : Time) : M (option (Time * Time)) :=
  let* r := deref p in
  match deferred_slot (q_Metadata r) with
  | Some slot =>
      delMeta p metaCPUDeferredStart ;;* delMeta p metaCPUServiceStart ;;* delMeta p metaCPUServiceEnd ;;*
      ret (Some slot)
  | None =>
      let* m := gets st_rm in
      match ResourceManager_ReserveCPUWork instanceID (q_ArrivalTime r) cpuTimeMs m with
      | Ok (cpuStart, cpuEnd, m) =>
          mod_rm (λ _, m) ;;*
          if After cpuStart simTime then
            setMeta p metaCPUDeferredStart (DBool true) ;;*
            setMeta p metaCPUServiceStart (DTime cpuStart) ;;*
            setMeta p metaCPUServiceEnd (DTime cpuEnd) ;;*
            ScheduleAt EventTypeRequestStart cpuStart (Some p) serviceID (start_data endpointPath instanceID) ;;*
            ret None
          else ret (Some (cpuStart, cpuEnd))
      | _ => let* _ := reject_start p "no_instance" simTime in ret None
      end
  end.
(** The datastore part of the work: the end of the IO. *)
Definition start_io (p : positive) (svc : Service) (endpoint : Endpoint) (instanceID : string)
    (cpuEnd simTime : Time) : M Time :=
  if negb (isDatastoreWorkload svc endpoint) then ret cpuEnd
  else
    let maxConn := effectiveDBMaxConnections svc endpoint in
    let* ioDur := sampleEndpointIOWorkloadMs endpoint in
    let* m := gets st_rm in
    match ResourceManager_ReserveDBWork instanceID cpuEnd ioDur maxConn m with
    | Ok (_, ioEnd, _, dbWaitMs, m) =>
        mod_rm (λ _, m) ;;*
        let* r := deref p in
        when (fltb f0 dbWaitMs)
          (record "db_wait_ms" dbWaitMs simTime
             (labelsForQueueWaitMetrics r (q_ServiceName r) (q_Endpoint r) instanceID)) ;;*
        setMeta p "db_wait_ms" (DFloat dbWaitMs) ;;*
        when (0 <? maxConn) (setMeta p "db_reserved" (DBool true)) ;;*
        match mg_instances m !! instanceID with
        | None => ret tt
        | Some inst =>
            record "active_connections" (f64_of_Z (si_dbActiveConnections inst)) simTime
              (CreateInstanceLabels (q_ServiceName r) instanceID)
        end ;;*
        ret ioEnd
    | Fail e => throw e
    | Panic => λ _, Crash
    end.
(** The work itself, from the CPU interval on. *)
Definition start_run (p : positive) (svc : Service) (endpoint : Endpoint) (prof : ServiceExecutionProfile)
    (instanceID : string) (cpuTimeMs netLatencyMs memoryMB : float64) (cpuStart cpuEnd simTime : Time) : M unit :=
  let* r := deref p in
  let serviceID := q_ServiceName r in
  let endpointPath := q_Endpoint r in
  let* penaltyMs := applyTopologyNetworkPenaltyMs serviceID endpointPath p instanceID simTime in
  let net := if fltb f0 penaltyMs then fadd netLatencyMs penaltyMs else netLatencyMs in
  let wait := Sub cpuStart (q_ArrivalTime r) in
  let queueTimeMs := fdiv (f64_of_Z (if wait <? 0 then 0 else wait)) (f64_of_Z 1000000) in
  update p (λ r, set_meta "queue_wait_ms" (DFloat queueTimeMs)
    (r <| q_CPUTimeMs := cpuTimeMs |> <| q_NetworkLatencyMs := net |> <| q_Status := RequestStatusProcessing |>
       <| q_StartTime := cpuStart |> <| q_QueueTimeMs := queueTimeMs |>)) ;;*
  let* r := deref p in
  record "queue_wait_ms" queueTimeMs simTime (labelsForQueueWaitMetrics r serviceID endpointPath instanceID) ;;*
  let* err := try_rm (ResourceManager_AllocateMemory instanceID memoryMB) in
  match err with
  | Some e =>
      mod_rm (ResourceManager_RollbackCPUTailReservation instanceID cpuStart cpuEnd) ;;*
      let* _ := reject_start p "memory_capacity" simTime in
      if String.eqb e ErrHostMemoryCapacity then ret tt else throw ("failed to allocate memory: " +:+ e)
  | None =>
      let* o := outside in
      let* err := try_rm (ResourceManager_AllocateCPU (out_now o) instanceID cpuTimeMs cpuStart) in
      match err with
      | Some e =>
          mod_rm (ResourceManager_ReleaseMemory instanceID memoryMB) ;;*
          mod_rm (ResourceManager_RollbackCPUTailReservation instanceID cpuStart cpuEnd) ;;*
          let* retried := reject_start p "cpu_capacity" simTime in
          if retried : bool then ret tt else throw ("failed to allocate CPU: " +:+ e)
      | None =>
          setMeta p "allocated_cpu_ms" (DFloat cpuTimeMs) ;;*
          setMeta p "allocated_memory_mb" (DFloat memoryMB) ;;*
          let* m := gets st_rm in
          when (bool_decide (is_Some (mg_instances m !! instanceID)))
            (recordInstanceAndHostGauges serviceID instanceID simTime ;;*
             when (negb (is_empty (xp_QueueClass prof)))
               (setMeta p "queue_class" (DString (xp_QueueClass prof)))) ;;*
          let* ioEnd := start_io p svc endpoint instanceID cpuEnd simTime in
          let completionTime := ioEnd + ms_scaled net in
          let deadline := cpuStart + ms_whole (ep_TimeoutMs endpoint) in
          let late := fltb f0 (ep_TimeoutMs endpoint) && After completionTime deadline in
          when late (setMeta p "local_timeout" (DBool true)) ;;*
          ScheduleAt EventTypeRequestComplete (if late then deadline else completionTime) (Some p) serviceID
            (start_data endpointPath instanceID)
      end
  end.
Definition handleRequestStart (evt : Event) : M unit :=
  let* p := need_request evt "request start event" in
  let* simTime := GetSimTime in
  process_draining simTime ;;*
  let* r := deref p in
  let serviceID := q_ServiceName r in
  let endpointPath := q_Endpoint r in
  let key := serviceID +:+ ":" +:+ endpointPath in
  let* endpoints := gets st_endpoints in
  let* services := gets st_services in
  match endpoints !! key, services !! serviceID with
  | None, _ => throw ("endpoint not found: " +:+ key)
  | Some _, None => throw ("service not found: " +:+ serviceID)
  | Some endpoint, Some svc =>
      let* prof := resolveServiceExecutionProfile svc endpoint "" in
      let* instanceID := start_instance p evt serviceID simTime in
      when (negb (is_empty instanceID)) (setMeta p "instance_id" (DString instanceID)) ;;*
      seed_topology p instanceID ;;*
      let* costs := start_costs p svc prof instanceID simTime in
      let '(cpuTimeMs, netLatencyMs, memoryMB) := costs in
      let pLocal := mergedLocalFailureRate svc endpoint in
      let* broken := if fltb f0 pLocal then let* x := draw_Float64 in ret (fltb x pLocal) else ret false in
      if broken : bool then local_failure p simTime
      else
        let* slot := start_slot p serviceID endpointPath instanceID cpuTimeMs simTime in
        match slot with
        | None => ret tt
        | Some (cpuStart, cpuEnd) =>
            start_run p svc endpoint prof instanceID cpuTimeMs netLatencyMs memoryMB cpuStart cpuEnd simTime
        end
  end.

(** * Completion *)

(** The next queued request of the instance starts at [scheduleAt]. *)
Definition dequeueNextRequestForInstance (instanceID serviceID endpointPath : string) (scheduleAt : Time)
    : M unit :=
  let* next := on_rm (ResourceManager_DequeueRequest instanceID) in
  match next with
  | None => ret tt
  | Some id =>
      let* o := rm_GetRequest id in
      match o with
      | None => throw ("queued request " +:+ id +:+ " not found in run manager")
      | Some q =>
          ScheduleAt EventTypeRequestStart scheduleAt (Some q) serviceID
            (mapOf [("service_id", DString serviceID); ("endpoint_path", DString endpointPath);
                    ("instance_id", DString instanceID)]) ;;*
          recordInstanceAndHostGauges serviceID instanceID scheduleAt
      end
  end.
(** The instance of the request gives back what the request held. *)
Definition release_resources (p : positive) (serviceID : string) (simTime : Time) : M unit :=
  let* r := deref p in
  let md := q_Metadata r in
  match asString md "instance_id" with
  | None => ret tt
  | Some instanceID =>
      let* o := outside in
      match asFloat md "allocated_cpu_ms" with
      | Some cpuMs => mod_rm (ResourceManager_ReleaseCPU (out_now o) instanceID cpuMs simTime)
      | None => ret tt
      end ;;*
      match asFloat md "allocated_memory_mb" with
      | Some memoryMB => mod_rm (ResourceManager_ReleaseMemory instanceID memoryMB)
      | None => ret tt
      end ;;*
      when (metadataBool md "db_reserved") (mod_rm (ResourceManager_ReleaseDBConnection instanceID)) ;;*
      recordInstanceAndHostGauges serviceID instanceID simTime
  end.
Definition record_hop (r : ReqObject) (extra : option float64) (simTime : Time) (labels : Labels) : M unit :=
  let plus x := match extra with Some e => fadd x e | None => x end in
  record "service_request_latency_ms" (plus (localServiceHopLatencyMs r simTime)) simTime labels ;;*
  record "service_processing_latency_ms" (plus (localServiceProcessingLatencyMs r simTime)) simTime labels.
(** Whether a call makes its producer wait for the publish acknowledgement. *)
Definition defers_finalize (services : gmap string Service) (dc : ResolvedCall) : bool :=
  if usesTopicBroker services dc then
    negb (tb_AsyncFireAndForget (effectiveTopicForBroker services (rc_ServiceID dc)))
  else if usesQueueBroker services dc then
    negb (qb_AsyncFireAndForget (effectiveQueueForBroker services (rc_ServiceID dc)))
  else false.
(** The calls one after the other, each from the time the one before it left off; the
    time after the last one and the latest acknowledgement. *)
Fixpoint schedule_calls (p : positive) (nextTD nextAD : Z) (isAsync : bool) (topo : downstreamCallerTopology)
    (calls : list ResolvedCall) (tAfter maxAck : Time) : M (Time * Time) :=
  match calls with
  | [] => ret (tAfter, maxAck)
  | c :: calls =>
      let* ackT := scheduleDownstreamWithCallerOverhead p c tAfter nextTD nextAD isAsync false 0 "" topo in
      schedule_calls p nextTD nextAD isAsync topo calls ackT (if After ackT maxAck then ackT else maxAck)
  end.
Definition finalize_at_ack (p : positive) (serviceID endpointPath : string) (maxAck : Time) : M unit :=
  ScheduleAt EventTypeAsyncParentFinalize maxAck (Some p) serviceID
    (mapOf [("endpoint_path", DString endpointPath)]).
(** The downstream calls of a completed request, and its end when it waits for none. *)
Definition complete_calls (p : positive) (simTime : Time) (labels : Labels) : M unit :=
  let* r := deref p in
  let serviceID := q_ServiceName r in
  let endpointPath := q_Endpoint r in
  let md := q_Metadata r in
  let* calls := GetDownstreamCalls serviceID endpointPath in
  let* st := gets id in
  let services := st_services st in
  let td := metadataInt md "trace_depth" in
  let ad := metadataInt md "async_depth" in
  let '(asyncCalls, syncCalls) :=
    partitionDownstreamFiltered (scn_SimulationLimits (st_scenario st)) services calls td ad in
  let deferred := existsb (defers_finalize services) asyncCalls in
  let callerExtraMs := foldl (λ x c, fadd x (computeDownstreamCallerCPU (st_endpoints st) c)) f0
                         (asyncCalls ++ syncCalls) in
  when (negb deferred) (record_hop r (Some callerExtraMs) simTime labels) ;;*
  when (metadataBool md "cache_miss") (record "cache_miss_count" f1 simTime labels) ;;*
  let topo := mkTopology (metadataString md "instance_id") (metadataString md "caller_host_zone")
                (metadataString md "caller_host_id") in
  let* ts := schedule_calls p (td + 1) (ad + 1) true topo asyncCalls simTime zeroTime in
  let '(tAfter, maxAck) := ts in
  when deferred
    (setMeta p metaDeferredQueueFinalize (DBool true) ;;*
     setMeta p metaQueueAckDeadline (DTime maxAck) ;;*
     setMeta p metaDeferredCallerExtraMs (DFloat callerExtraMs)) ;;*
  let dequeue at_ := match asString md "instance_id" with
                     | Some inst => dequeueNextRequestForInstance inst serviceID endpointPath at_
                     | None => ret tt
                     end in
  match syncCalls with
  | [] =>
      (if deferred then finalize_at_ack p serviceID endpointPath maxAck
       else finalizeRequestCompletion p simTime labels) ;;*
      dequeue (if deferred then maxAck else tAfter)
  | _ =>
      modify (λ s, s <| st_pendingSync := <[q_ID r := len syncCalls]> (st_pendingSync s) |>) ;;*
      when deferred (finalize_at_ack p serviceID endpointPath maxAck) ;;*
      let* ts := schedule_calls p (td + 1) ad false topo syncCalls tAfter zeroTime in
      let tAfter := fst ts in
      dequeue (if deferred && After maxAck tAfter then maxAck else tAfter)
  end.
Definition handleRequestComplete (evt : Event) : M unit :=
  let* p := need_request evt "request complete event" in
  let* simTime := GetSimTime in
  process_draining simTime ;;*
  let* r := deref p in
  let serviceID := q_ServiceName r in
  let endpointPath := q_Endpoint r in
  release_resources p serviceID simTime ;;*
  let labels := request_labels r in
  let md := q_Metadata r in
  let dequeue := match asString md "instance_id" with
                 | Some inst => dequeueNextRequestForInstance inst serviceID endpointPath simTime
                 | None => ret tt
                 end in
  if metadataBool md metaBrokerAckTimedOut then dequeue
  else
    when (metadataBool md metaQueueConsumer) (metaQueueConsumerDone p simTime) ;;*
    when (metadataBool md metaTopicConsumer) (metaTopicConsumerDone p simTime) ;;*
    if metadataBool md "local_timeout" then
      record_hop r None simTime labels ;;*
      when (metadataBool md "cache_hit") (record "cache_hit_count" f1 simTime labels) ;;*
      when (metadataBool md "cache_miss") (record "cache_miss_count" f1 simTime labels) ;;*
      finalizeRequestFailure p simTime labels "local_failure" ;;*
      dequeue
    else if metadataBool md "cache_hit" then
      record_hop r None simTime labels ;;*
      record "cache_hit_count" f1 simTime labels ;;*
      finalizeRequestCompletion p simTime labels ;;*
      dequeue
    else complete_calls p simTime labels.
Definition handleAsyncParentFinalize (evt : Event) : M unit :=
  let* p := need_request evt "async parent finalize" in
  let* simTime := GetSimTime in
  NoteSimTime simTime ;;*
  let* r := deref p in
  let* pending := gets st_pendingSync in
  if 0 <? default 0 (pending !! q_ID r) then ret tt
  else
    let extra := metadataFloat64 (q_Metadata r) metaDeferredCallerExtraMs in
    delMeta p metaDeferredQueueFinalize ;;*
    delMeta p metaQueueAckDeadline ;;*
    delMeta p metaDeferredCallerExtraMs ;;*
    let labels := request_labels r in
    record_hop r (Some extra) simTime labels ;;*
    finalizeRequestCompletion p simTime labels ;;*
    match asString (q_Metadata r) "instance_id" with
    | Some inst => dequeueNextRequestForInstance inst (q_ServiceName r) (q_Endpoint r) simTime
    | None => ret tt
    end.

(** * Registration *)

Definition handler_of (ty : EventType) : option (Event → M unit) :=
  match ty with
  | EventTypeRequestArrival => Some handleRequestArrival
  | EventTypeRequestStart => Some handleRequestStart
  | EventTypeRequestComplete => Some handleRequestComplete
  | EventTypeDownstreamCall => Some handleDownstreamCall
  | EventTypeDownstreamRetry => Some handleDownstreamRetry
  | EventTypeDownstreamCallerOverheadStart => Some handleDownstreamCallerOverheadStart
  | EventTypeDownstreamCallerOverheadEnd => Some handleDownstreamCallerOverheadEnd
  | EventTypeQueueEnqueue => Some handleQueueEnqueue
  | EventTypeQueueDequeue => Some handleQueueDequeue
  | EventTypeQueueAckTimeout => Some handleQueueAckTimeout
  | EventTypeQueueRedelivery => Some handleQueueRedelivery
  | EventTypeQueueDLQ => Some handleQueueDLQ
  | EventTypeAsyncParentFinalize => Some handleAsyncParentFinalize
  | EventTypeTopicPublish => Some handleTopicPublish
  | EventTypeTopicDequeue => Some handleTopicDequeue
  | EventTypeTopicAckTimeout => Some handleTopicAckTimeout
  | EventTypeTopicRetentionExpire => Some handleTopicRetentionExpire
  | EventTypeTopicDLQ => Some handleTopicDLQ
  | EventTypeDownstreamTimeout => Some handleDownstreamTimeout
  | EventTypeDrainSweep => Some handleDrainSweep
  | EventTypeScaleUp | EventTypeScaleDown | EventTypeSimulationEnd | EventTypeWorkloadGenerate => None
  end.
(** A handler as the engine runs it. [None] is a process that panicked; the outside
    world moves on with every event. *)
Definition run_handler (h : Event → M unit) : @Handler (option scenarioState) := λ s eng evt,
  match s with
  | None => (None, [], None)
  | Some st =>
      let next w := Some ((w_st w) <| st_outside := λ n, st_outside (w_st w) (S n) |>) in
      match h evt (mkWorld st eng []) with
      | Done _ w => (next w, rev (w_acts w), None)
      | Err e w => (next w, rev (w_acts w), Some e)
      | Crash | NoFuel => (None, [], None)
      end
  end.
Definition RegisterHandlers (ty : EventType) : option (@Handler (option scenarioState)) :=
  run_handler <$> handler_of ty.
