(* ===== verification/HandlerInv.v ===== *)
(** Invariants of the event handlers. [Tri I R m Q] says that a computation started in
    a state with [I] does not run out of fuel, keeps [I], relates the states before and
    after by [R], and returns a value with [Q] when it returns one. *)
From S2P Require Import Prelude GoFloat Utils EventQueue RunManager Engine Policy Config Graph.
From S2P Require Import BrokerQueue Instance ResourceManager Routing Collector SimState.
From S2P Require Import ServiceModel Lifecycle Completion Brokers Handlers.
From Stdlib Require Import SpecFloat.
#[local] Open Scope string_scope.
#[local] Open Scope list_scope.
#[local] Open Scope Z_scope.
#[local] Open Scope sim_scope.

(** * The logic *)

Section tri.
Context (I : World → Prop) (R : World → World → Prop) `{!PreOrder R}.
Definition Tri {A} (m : M A) (Q : A → Prop) : Prop := ∀ w, I w →
  match m w with
  | Done a w' => I w' ∧ R w w' ∧ Q a
  | Err _ w' => I w' ∧ R w w'
  | Crash => True
  | NoFuel => False
  end.
Lemma tri_ret {A} (a : A) (Q : A → Prop) : Q a → Tri (ret a) Q.
Proof. intros HQ w HI. by split_and!. Qed.
Lemma tri_ret_eq {A} (a : A) : Tri (ret a) (λ x, x = a).
Proof. by apply tri_ret. Qed.
Lemma tri_throw {A} e (Q : A → Prop) : Tri (throw e) Q.
Proof. intros w HI. by split. Qed.
Lemma tri_crash {A} (Q : A → Prop) : Tri (λ _, Crash) Q.
Proof. by intros w HI. Qed.
Lemma tri_bind {A B} (m : M A) (k : A → M B) Q Q' :
  Tri m Q → (∀ a, Q a → Tri (k a) Q') → Tri (mbind_M m k) Q'.
Proof.
  intros Hm Hk w HI. unfold mbind_M. specialize (Hm w HI).
  destruct (m w) as [a w1|e w1| |]; try done.
  destruct Hm as (HI1 & HR & HQ). specialize (Hk a HQ w1 HI1).
  destruct (k a w1) as [b w2|e w2| |]; [| |done..].
  - destruct Hk as (? & ? & ?). split_and!; [done|by etrans|done].
  - destruct Hk as (? & ?). split; [done|by etrans].
Qed.
Lemma tri_mono {A} (m : M A) (Q Q' : A → Prop) : Tri m Q → (∀ a, Q a → Q' a) → Tri m Q'.
Proof.
  intros Hm HQ w HI. specialize (Hm w HI).
  destruct (m w); [|done..]. naive_solver.
Qed.
Lemma tri_gets {A} (f : scenarioState → A) : Tri (gets f) (λ a, ∃ w, I w ∧ a = f (w_st w)).
Proof. intros w HI. split_and!; [done|done|by exists w]. Qed.
Lemma tri_when b (m : M unit) : (b = true → Tri m (λ _, True)) → Tri (when b m) (λ _, True).
Proof. destruct b; [auto|intros _; by apply tri_ret]. Qed.
Lemma tri_ignore {A} (m : M A) Q : Tri m Q → Tri (ignore m) (λ _, True).
Proof.
  intros Hm w HI. unfold ignore. specialize (Hm w HI). destruct (m w); naive_solver.
Qed.
Lemma tri_mfor {A} (l : list A) (f : A → M unit) :
  (∀ x, x ∈ l → Tri (f x) (λ _, True)) → Tri (mfor l f) (λ _, True).
Proof.
  induction l as [|x l IH]; intros Hf; cbn [mfor]; [by apply tri_ret|].
  eapply tri_bind; [apply Hf; left|]. intros _ _. apply IH. intros y Hy. apply Hf. by right.
Qed.
Lemma tri_lift {A} (r : go A) : Tri (lift r) (λ x, x = r ∧ x ≠ Panic).
Proof. destruct r; intros w HI; cbn; split_and?; done. Qed.
(** A computation that only reads. *)
Lemma tri_read {A} (f : World → A) : Tri (λ w, Done (f w) w) (λ _, True).
Proof. intros w HI. by split_and!. Qed.
End tri.
#[global] Arguments Tri I R {A} m Q : rename.
Lemma tri_weaken I (R R' : World → World → Prop) {A} (m : M A) Q :
  (∀ w w', R w w' → R' w w') → Tri I R m Q → Tri I R' m Q.
Proof. intros HR Hm w HI. specialize (Hm w HI). destruct (m w); naive_solver. Qed.

(** * The invariant *)

(** The limits and the retry policy of the run. *)
Record RunConf := mkRunConf { rc_limits : option SimulationLimits; rc_retry : option retryPolicy }.
Definition within_limit (max d : Z) : Prop := 0 < max → d ≤ max.
Definition depths_ok (lim : option SimulationLimits) (td ad : Z) : Prop :=
  match lim with
  | None => True
  | Some l => within_limit (sl_MaxTraceDepth l) td ∧ within_limit (sl_MaxAsyncHops l) ad
  end.
Definition depth_ok (lim : option SimulationLimits) (md : Metadata) : Prop :=
  depths_ok lim (metadataInt md "trace_depth") (metadataInt md "async_depth").
(** The depths an event carries, and those of the message or request data inside it. *)
Definition nested_ok (lim : option SimulationLimits) (data : Metadata) (k : string) : Prop :=
  match data !! k with Some (DMap m) => depth_ok lim m | _ => True end.
Definition data_ok (lim : option SimulationLimits) (data : Metadata) : Prop :=
  depth_ok lim data ∧ nested_ok lim data "msg_metadata" ∧ nested_ok lim data "metadata".
(** A retry event carries an attempt the policy allows. *)
Definition retry_ok (rp : option retryPolicy) (ev : Event) : Prop :=
  ev_Type ev = EventTypeDownstreamRetry →
  match rp with
  | Some rp => rp_enabled rp = true ∧ metadataInt (ev_Data ev) metaRetryAttempt ≤ rp_maxRetries rp
  | None => False
  end.
Definition act_ok (c : RunConf) (a : EngineAction) : Prop :=
  match a with
  | ActSchedule ev => data_ok (rc_limits c) (ev_Data ev) ∧ retry_ok (rc_retry c) ev
  | _ => True
  end.
Definition messages_ok (lim : option SimulationLimits) (s : BrokerQueueShard) : Prop :=
  Forall (λ m, depth_ok lim (qm_Metadata m)) (sh_messages s).
Definition brokers_ok (lim : option SimulationLimits) (bq : BrokerQueues) : Prop :=
  map_Forall (λ _, messages_ok lim) (bq_queueShards bq) ∧ map_Forall (λ _, messages_ok lim) (bq_topicShards bq).
Definition resources_ok (lim : option SimulationLimits) (m : ResourceManager) : Prop := brokers_ok lim (mg_brokerQueues m).
(** How often a request was handed to [FinalizeRequest]. *)
Definition finalizes (p : positive) (a : EngineAction) : bool :=
  match a with ActFinalizeRequest (Some (q, _)) => bool_decide (p = q) | _ => false end.
Definition nfin (p : positive) (acts : list EngineAction) : nat := length (filter (λ a, finalizes p a = true) acts).
Definition fin_at (w : World) (p : positive) : Prop :=
  ∃ r, st_heap (w_st w) !! p = Some r ∧ is_finalized r = true.
Record Inv (c : RunConf) (w : World) : Prop := {
  inv_limits : scn_SimulationLimits (st_scenario (w_st w)) = rc_limits c;
  inv_retry : (st_policies (w_st w) ≫= pm_retry) = rc_retry c;
  inv_heap : map_Forall (λ _ r, depth_ok (rc_limits c) (q_Metadata r)) (st_heap (w_st w));
  inv_acts : Forall (act_ok c) (w_acts w);
  inv_brokers : resources_ok (rc_limits c) (st_rm (w_st w));
  inv_pending : map_Forall (λ _ n, 0 < n) (st_pendingSync (w_st w));
  inv_cursor : map_Forall (λ _ n, 0 ≤ n) (st_topicPartitionCursor (w_st w));
  inv_once : ∀ p, (nfin p (w_acts w) ≤ 1)%nat;
  inv_fin : ∀ p, (1 ≤ nfin p (w_acts w))%nat → fin_at w p;
}.
(** A finalised request stays finalised and is not finalised again; [Keep] also
    creates no request. *)
Definition Grow (w w' : World) : Prop :=
  ∀ p, fin_at w p → fin_at w' p ∧ nfin p (w_acts w') = nfin p (w_acts w).
Definition Keep (w w' : World) : Prop := Grow w w' ∧ dom (st_heap (w_st w)) = dom (st_heap (w_st w')).
#[export] Instance Grow_pre : PreOrder Grow.
Proof.
  split; [by intros w p Hp|].
  intros w1 w2 w3 H12 H23 p Hp. destruct (H12 p Hp) as [H2 E2]. destruct (H23 p H2) as [H3 E3].
  by rewrite E3.
Qed.
#[export] Instance Keep_pre : PreOrder Keep.
Proof.
  split; [intros w; by split|]. intros w1 w2 w3 [G1 D1] [G2 D2]. split; [by etrans|by rewrite D1].
Qed.
(** The relations the primitives are proved against. *)
Class Weaker (R : World → World → Prop) : Prop := {
  weaker_pre :: PreOrder R;
  weaker_sub : ∀ w w', Keep w w' → R w w';
}.
#[export] Instance weaker_Keep : Weaker Keep.
Proof. split; [apply _|done]. Qed.
#[export] Instance weaker_Grow : Weaker Grow.
Proof. split; [apply _|by intros w w' []]. Qed.

(** * Primitives *)

Section prims.
Context (c : RunConf).
Abbreviation lim := (rc_limits c).

Record state_safe (s s' : scenarioState) : Prop := {
  ss_heap : st_heap s' = st_heap s;
  ss_limits : scn_SimulationLimits (st_scenario s') = scn_SimulationLimits (st_scenario s);
  ss_retry : (st_policies s' ≫= pm_retry) = (st_policies s ≫= pm_retry);
  ss_brokers : resources_ok lim (st_rm s) → resources_ok lim (st_rm s');
  ss_pending : map_Forall (λ _ n, 0 < n) (st_pendingSync s) → map_Forall (λ _ n, 0 < n) (st_pendingSync s');
  ss_cursor : map_Forall (λ _ n, 0 ≤ n) (st_topicPartitionCursor s) →
              map_Forall (λ _ n, 0 ≤ n) (st_topicPartitionCursor s');
}.
Lemma safe_state w s' : Inv c w → state_safe (w_st w) s' →
  Inv c (mkWorld s' (w_eng w) (w_acts w)) ∧ Keep w (mkWorld s' (w_eng w) (w_acts w)).
Proof.
  intros [] [Eh El Er Hb Hp Hc]. split.
  - split; cbn; rewrite ?Eh, ?El, ?Er; auto.
    intros p Hn. unfold fin_at. cbn. rewrite Eh. by apply inv_fin0.
  - split; [|by cbn; rewrite Eh]. intros p Hp'. unfold fin_at in *. cbn. by rewrite Eh.
Qed.
Lemma safe_rm s f : (∀ m, resources_ok lim m → resources_ok lim (f m)) → state_safe s (s <| st_rm := f (st_rm s) |>).
Proof. intros Hf. split; cbn; auto. Qed.
Lemma tri_done {A R} `{!Weaker R} (m : M A) (g : World → scenarioState) (a : World → A) :
  (∀ w, m w = Done (a w) (mkWorld (g w) (w_eng w) (w_acts w))) →
  (∀ w, state_safe (w_st w) (g w)) → Tri (Inv c) R m (λ _, True).
Proof.
  intros Hm Hg w HI. rewrite Hm. destruct (safe_state w (g w) HI (Hg w)) as [HI' HK].
  split_and!; [done|by apply weaker_sub|done].
Qed.
Lemma tri_modify R `{!Weaker R} f : (∀ s, state_safe s (f s)) → Tri (Inv c) R (modify f) (λ _, True).
Proof. intros Hf. apply (tri_done _ (λ w, f (w_st w)) (λ _, tt)); [by intros []|auto]. Qed.
Lemma tri_mod_rm R `{!Weaker R} f : (∀ m, resources_ok lim m → resources_ok lim (f m)) →
  Tri (Inv c) R (mod_rm f) (λ _, True).
Proof.
  intros Hf. apply (tri_done _ (λ w, (w_st w) <| st_rm := f (st_rm (w_st w)) |>) (λ _, tt)); [by intros []|].
  intros w. by apply safe_rm.
Qed.
Lemma tri_on_rm {A} R `{!Weaker R} (f : ResourceManager → A * ResourceManager) (Q : A → Prop) :
  (∀ m, resources_ok lim m → resources_ok lim (snd (f m)) ∧ Q (fst (f m))) → Tri (Inv c) R (on_rm f) Q.
Proof.
  intros Hf w HI. unfold on_rm. destruct (f (st_rm (w_st w))) as [a m] eqn:E.
  destruct (Hf _ (inv_brokers _ _ HI)) as [Hok HQ]. rewrite E in Hok, HQ. cbn in Hok, HQ.
  destruct (safe_state w ((w_st w) <| st_rm := m |>) HI) as [HI' HK]; [by split; cbn|].
  destruct w. split_and!; [done|by apply weaker_sub|done].
Qed.
Lemma tri_GenerateID R `{!Weaker R} : Tri (Inv c) R GenerateID (λ _, True).
Proof.
  apply (tri_done _ (λ w, (w_st w) <| st_ids := λ n, st_ids (w_st w) (S n) |>) (λ w, st_ids (w_st w) 0%nat));
    [by intros []|]. by split; cbn.
Qed.
Lemma tri_draw_Float64 R `{!Weaker R} : Tri (Inv c) R draw_Float64 (λ _, True).
Proof.
  intros w HI. unfold draw_Float64. destruct (RandSource_Float64 _) as [x r].
  destruct (safe_state w ((w_st w) <| st_rng := r |>) HI) as [HI' HK]; [by split; cbn|].
  destruct w. split_and!; [done|by apply weaker_sub|done].
Qed.
Lemma tri_draw_NormFloat64 R `{!Weaker R} m s : Tri (Inv c) R (draw_NormFloat64 m s) (λ _, True).
Proof.
  intros w HI. unfold draw_NormFloat64. destruct (RandSource_NormFloat64 _ _ _) as [x r].
  destruct (safe_state w ((w_st w) <| st_rng := r |>) HI) as [HI' HK]; [by split; cbn|].
  destruct w. split_and!; [done|by apply weaker_sub|done].
Qed.
Lemma tri_on_breaker R `{!Weaker R} f : Tri (Inv c) R (on_breaker f) (λ _, True).
Proof.
  apply tri_modify; [apply _|]. intros s. destruct (st_policies s) as [pm|] eqn:E; [|by split].
  destruct (pm_circuitBreaker pm); [|by split]. split; cbn; rewrite ?E; auto.
Qed.
Lemma tri_allows R `{!Weaker R} s e t :
  Tri (Inv c) R (limiter_allows s e t) (λ _, True) ∧ Tri (Inv c) R (breaker_allows s e t) (λ _, True).
Proof.
  assert (Hpm : ∀ (w : World) pm pm', st_policies (w_st w) = Some pm → pm_retry pm' = pm_retry pm → Inv c w →
    Inv c (w <| w_st := (w_st w) <| st_policies := Some pm' |> |>) ∧
    R w (w <| w_st := (w_st w) <| st_policies := Some pm' |> |>)).
  { intros w pm pm' E Er HI.
    destruct (safe_state w ((w_st w) <| st_policies := Some pm' |>) HI) as [HI' HK];
      [by split; cbn; rewrite ?E; auto|]. destruct w. split; [done|by apply weaker_sub]. }
  split; intros w HI.
  - unfold limiter_allows. destruct (st_policies (w_st w)) as [pm|] eqn:E; [|by split_and!].
    destruct (pm_rateLimiting pm) as [rl|]; [|by split_and!].
    destruct (rateLimitingPolicy_AllowRequest s e t rl) as [ok rl'].
    destruct (Hpm w pm (pm <| pm_rateLimiting := Some rl' |>) E) as [? ?]; [done..|]. by split_and!.
  - unfold breaker_allows. destruct (st_policies (w_st w)) as [pm|] eqn:E; [|by split_and!].
    destruct (pm_circuitBreaker pm) as [cb|]; [|by split_and!].
    destruct (circuitBreakerPolicy_AllowRequest s e t cb) as [ok cb'].
    destruct (Hpm w pm (pm <| pm_circuitBreaker := Some cb' |>) E) as [? ?]; [done..|]. by split_and!.
Qed.

(** ** Calls on the engine *)

Definition plain (a : EngineAction) : Prop := match a with ActFinalizeRequest _ => False | _ => True end.
Lemma nfin_plain p a acts : plain a → nfin p (a :: acts) = nfin p acts.
Proof. intros Ha. unfold nfin. rewrite filter_cons_False; [done|]. destruct a; done. Qed.
Lemma tri_act R `{!Weaker R} a : act_ok c a → plain a → Tri (Inv c) R (act a) (λ _, True).
Proof.
  intros Ha Hp w HI. unfold act. cbn.
  assert (E : ∀ p, nfin p (a :: w_acts w) = nfin p (w_acts w)) by (intros p; by apply nfin_plain).
  split_and!; [|apply weaker_sub; split; [|done]; intros p Hf; split; [exact Hf|apply E]|done].
  destruct HI. split; try done.
  - by constructor.
  - intros p. change (nfin p (a :: w_acts w) ≤ 1)%nat. by rewrite E.
  - intros p. change (1 ≤ nfin p (a :: w_acts w) → fin_at w p)%nat. rewrite E. auto.
Qed.
Lemma tri_ScheduleAtPriority R `{!Weaker R} ty t pr q s d :
  ty ≠ EventTypeDownstreamRetry → data_ok lim d →
  Tri (Inv c) R (ScheduleAtPriority ty t pr q s d) (λ _, True).
Proof. intros Hty Hd. apply tri_act; [apply _|split; [done|by intros E; destruct (Hty E)]|done]. Qed.
Lemma tri_record R `{!Weaker R} n v t l : Tri (Inv c) R (record n v t l) (λ _, True).
Proof.
  intros w HI. unfold record. destruct (Collector_Record n v t l _) as [col cbs].
  destruct (safe_state w ((w_st w) <| st_collector := col |>) HI) as [HI' HK]; [by split; cbn|].
  assert (HT : Tri (Inv c) R (mfor cbs (λ cb, act (ActTrigger (metric_limit_error cb)))) (λ _, True)).
  { apply tri_mfor; [apply _|]. intros cb _. by apply (tri_act _). }
  destruct w as [s e acts]. specialize (HT _ HI').
  change ((mkWorld s e acts) <| w_st := _ |>) with (mkWorld (s <| st_collector := col |>) e acts).
  apply weaker_sub in HK. cbn [w_st w_eng w_acts] in HT, HK.
  destruct (mfor _ _ _) as [[] w'|e' w'| |]; [| |done..].
  - destruct HT as (? & ? & _). split_and!; [done|by etrans|done].
  - destruct HT as (? & ?). split; [done|by etrans].
Qed.

(** ** Requests *)

Lemma tri_deref R `{!Weaker R} p : Tri (Inv c) R (deref p) (λ r, depth_ok lim (q_Metadata r)).
Proof.
  intros w HI. unfold deref. destruct (st_heap (w_st w) !! p) as [r|] eqn:E; [|done].
  split_and!; [done|done|]. by apply (inv_heap _ _ HI p).
Qed.
Definition safe_update (f : ReqObject → ReqObject) : Prop := ∀ r,
  (depth_ok lim (q_Metadata r) → depth_ok lim (q_Metadata (f r))) ∧ (is_finalized r = true → is_finalized (f r) = true).
Lemma update_run w p f r : st_heap (w_st w) !! p = Some r →
  update p f w = Done tt (mkWorld ((w_st w) <| st_heap := alter f p (st_heap (w_st w)) |>) (w_eng w) (w_acts w)).
Proof. intros E. unfold update, mbind_M, deref. rewrite E. by destruct w. Qed.
Lemma update_crash w p f : st_heap (w_st w) !! p = None → update p f w = Crash.
Proof. intros E. unfold update, mbind_M, deref. by rewrite E. Qed.
Lemma fin_alter w p f q : (∀ r, is_finalized r = true → is_finalized (f r) = true) → fin_at w q →
  fin_at (mkWorld ((w_st w) <| st_heap := alter f p (st_heap (w_st w)) |>) (w_eng w) (w_acts w)) q.
Proof.
  intros Hf (r & E & Hr). unfold fin_at. cbn. destruct (decide (p = q)) as [->|Hn].
  - exists (f r). rewrite lookup_alter_eq, E. auto.
  - exists r. by rewrite lookup_alter_ne.
Qed.
Lemma safe_update_inv w p f : safe_update f → Inv c w →
  let w' := mkWorld ((w_st w) <| st_heap := alter f p (st_heap (w_st w)) |>) (w_eng w) (w_acts w) in
  Inv c w' ∧ Keep w w'.
Proof.
  intros Hf HI. cbn zeta. assert (Hf2 := λ r, proj2 (Hf r)). split.
  - destruct HI. split; cbn; auto.
    + intros q r Hr. apply lookup_alter_Some in Hr as [(-> & r0 & E & ->)|(_ & E)]; [|by eapply inv_heap0].
      apply Hf. by eapply inv_heap0.
    + intros q Hq. apply fin_alter; auto.
  - split; [|by cbn; rewrite dom_alter_L]. intros q Hq. split; [by apply fin_alter|done].
Qed.
Lemma tri_update R `{!Weaker R} p f : safe_update f → Tri (Inv c) R (update p f) (λ _, True).
Proof.
  intros Hf w HI. destruct (st_heap (w_st w) !! p) as [r|] eqn:E.
  - rewrite (update_run _ _ _ r E). destruct (safe_update_inv w p f Hf HI) as [? ?].
    split_and!; [done|by apply weaker_sub|done].
  - by rewrite update_crash.
Qed.
(** The keys handlers may write: not the depths, not the finalisation mark. *)
Definition free_key (k : string) : bool :=
  negb (String.eqb k "trace_depth" || String.eqb k "async_depth" || String.eqb k metaDESFinalized).
Lemma free_key_ne k : free_key k = true → k ≠ "trace_depth" ∧ k ≠ "async_depth" ∧ k ≠ metaDESFinalized.
Proof.
  unfold free_key. intros H%negb_true_iff. apply orb_false_iff in H as [[H1 H2]%orb_false_iff H3].
  by apply String.eqb_neq in H1, H2, H3.
Qed.
Lemma metadataInt_insert_ne k k' v md : k ≠ k' → metadataInt (<[k := v]> md) k' = metadataInt md k'.
Proof. intros Hk. unfold metadataInt. by rewrite lookup_insert_ne. Qed.
Lemma metadataBool_insert_ne k k' v md : k ≠ k' → metadataBool (<[k := v]> md) k' = metadataBool md k'.
Proof. intros Hk. unfold metadataBool. by rewrite lookup_insert_ne. Qed.
Lemma depth_insert k v md : free_key k = true → depth_ok lim (<[k := v]> md) ↔ depth_ok lim md.
Proof.
  intros (? & ? & ?)%free_key_ne. unfold depth_ok. by rewrite !metadataInt_insert_ne.
Qed.
Lemma depth_delete k md : free_key k = true → depth_ok lim (delete k md) ↔ depth_ok lim md.
Proof.
  intros (? & ? & ?)%free_key_ne. unfold depth_ok, metadataInt. by rewrite !lookup_delete_ne.
Qed.
Lemma tri_setMeta R `{!Weaker R} p k v : free_key k = true → Tri (Inv c) R (setMeta p k v) (λ _, True).
Proof.
  intros Hk. apply tri_update; [apply _|]. intros r. unfold set_meta, is_finalized. cbn.
  apply free_key_ne in Hk as Hk'. rewrite depth_insert, metadataBool_insert_ne by naive_solver. done.
Qed.
Lemma tri_delMeta R `{!Weaker R} p k : free_key k = true → Tri (Inv c) R (delMeta p k) (λ _, True).
Proof.
  intros Hk. apply tri_update; [apply _|]. intros r. unfold del_meta, is_finalized, metadataBool. cbn.
  apply free_key_ne in Hk as Hk'. rewrite depth_delete, lookup_delete_ne by naive_solver. done.
Qed.
Lemma tri_setStatus R `{!Weaker R} p s : Tri (Inv c) R (setStatus p s) (λ _, True).
Proof. by apply tri_update; [apply _|]. Qed.
Lemma tri_alloc r : depth_ok lim (q_Metadata r) → Tri (Inv c) Grow (alloc r) (λ _, True).
Proof.
  intros Hr w HI. unfold alloc. cbn.
  set (p := fresh (dom (st_heap (w_st w)))).
  assert (Hp : st_heap (w_st w) !! p = None) by (apply not_elem_of_dom, is_fresh).
  assert (HG : ∀ q, fin_at w q → fin_at (w <| w_st := (w_st w) <| st_heap := <[p := r]> (st_heap (w_st w)) |> |>) q).
  { intros q (rq & E & Hq). exists rq. split; [|done]. cbn. rewrite lookup_insert_ne; [done|congruence]. }
  split_and!; [|intros q Hq; split; [by apply HG|done]|done].
  destruct HI. split; cbn; auto. apply map_Forall_insert_2; auto.
Qed.
Lemma tri_rm_AddRequest R `{!Weaker R} p : Tri (Inv c) R (rm_AddRequest p) (λ _, True).
Proof. eapply tri_bind; [apply _|by apply tri_deref|]. intros r _. by apply (tri_act _). Qed.
End prims.
