(* ===== verification/HandlerLaws.v ===== *)
(** The handlers keep the invariant of [HandlerInv]: one lemma per operation, from the
    resource manager's up to the registered handlers. *)
From S2P Require Import Prelude GoFloat Utils EventQueue RunManager Engine Policy Config Graph.
From S2P Require Import BrokerQueue Instance ResourceManager Routing Collector SimState.
From S2P Require Import ServiceModel Lifecycle Completion Brokers Handlers HandlerInv.
From Stdlib Require Import SpecFloat.
#[local] Open Scope string_scope.
#[local] Open Scope list_scope.
#[local] Open Scope Z_scope.
#[local] Open Scope sim_scope.

(** * Resource operations leave the brokers alone *)

Create Rewrite HintDb brokers.
Create HintDb tri discriminated.
#[export] Hint Constants Opaque : tri.
Lemma bq_NoteSimTime t m : mg_brokerQueues (ResourceManager_NoteSimTime t m) = mg_brokerQueues m.
Proof. unfold ResourceManager_NoteSimTime. by case_match. Qed.
Lemma bq_removeInstance now id t b m :
  mg_brokerQueues (snd (ResourceManager_removeInstanceLocked now id t b m)) = mg_brokerQueues m.
Proof.
  unfold ResourceManager_removeInstanceLocked. case_match; [|done].
  destruct b; [|done]. by destruct (ServiceInstance_EvictResourceState _ _).
Qed.
Lemma bq_evict now t l : ∀ ds m,
  mg_brokerQueues (snd (foldl (λ '(ds, m) id,
      let '(d, m) := ResourceManager_removeInstanceLocked now id t true m in (ds ++ d, m)) (ds, m) l))
  = mg_brokerQueues m.
Proof.
  induction l as [|id l IH]; intros ds m; cbn [foldl]; [done|].
  pose proof (bq_removeInstance now id t true m) as E.
  destruct (ResourceManager_removeInstanceLocked now id t true m) as [d m']. cbn in E. by rewrite IH.
Qed.
Lemma bq_remove now t l : ∀ m,
  mg_brokerQueues (foldl (λ m id, snd (ResourceManager_removeInstanceLocked now id t false m)) m l) = mg_brokerQueues m.
Proof. induction l as [|id l IH]; intros m; cbn [foldl]; [done|]. by rewrite IH, bq_removeInstance. Qed.
Lemma bq_ProcessDraining order now t m :
  mg_brokerQueues (snd (ResourceManager_ProcessDrainingInstances order now t m)) = mg_brokerQueues m.
Proof.
  unfold ResourceManager_ProcessDrainingInstances. cbn zeta.
  match goal with |- context [foldl _ ([], ?m0) ?l] => pose proof (bq_evict now t l [] m0) as E end.
  destruct (foldl _ ([], _) _) as [dropped m1]. cbn [snd] in *. rewrite bq_NoteSimTime in E.
  case_match; cbn; by rewrite bq_remove.
Qed.
Lemma bq_AllocateCPU now id x t m m' : ResourceManager_AllocateCPU now id x t m = Ok m' →
  mg_brokerQueues m' = mg_brokerQueues m.
Proof. unfold ResourceManager_AllocateCPU. by destruct (instance_and_host id m) as [ih| |]; intros [= <-]. Qed.
Lemma bq_ReleaseCPU now id x t m :
  mg_brokerQueues (ResourceManager_ReleaseCPU now id x t m) = mg_brokerQueues m.
Proof. unfold ResourceManager_ReleaseCPU. by destruct (instance_and_host id m). Qed.
Lemma bq_AllocateMemory id x m m' : ResourceManager_AllocateMemory id x m = Ok m' →
  mg_brokerQueues m' = mg_brokerQueues m.
Proof.
  unfold ResourceManager_AllocateMemory. destruct (instance_and_host id m) as [ih| |]; cbn; try done.
  case_match; [done|]. by intros [= <-].
Qed.
Lemma bq_ReleaseMemory id x m : mg_brokerQueues (ResourceManager_ReleaseMemory id x m) = mg_brokerQueues m.
Proof. unfold ResourceManager_ReleaseMemory. by destruct (instance_and_host id m). Qed.
Lemma bq_ReserveCPUWork id t x m a b m' : ResourceManager_ReserveCPUWork id t x m = Ok (a, b, m') →
  mg_brokerQueues m' = mg_brokerQueues m.
Proof.
  unfold ResourceManager_ReserveCPUWork. case_match; [|done].
  destruct (ServiceInstance_ReserveCPUWork _ _ _) as [[? ?] ?]. by intros [= <- <- <-].
Qed.
Lemma bq_ReserveDBWork id t x n m a b s d m' : ResourceManager_ReserveDBWork id t x n m = Ok (a, b, s, d, m') →
  mg_brokerQueues m' = mg_brokerQueues m.
Proof.
  unfold ResourceManager_ReserveDBWork. case_match; [|done].
  destruct (ServiceInstance_ReserveDBWork _ _ _ _) as [[[[? ?] ?] ?] ?]. by intros [= <- <- <- <- <-].
Qed.
Lemma bq_Dequeue id m : mg_brokerQueues (snd (ResourceManager_DequeueRequest id m)) = mg_brokerQueues m.
Proof.
  unfold ResourceManager_DequeueRequest. case_match; [|done].
  by destruct (ServiceInstance_DequeueRequest _).
Qed.
Lemma bq_round_robin s l m x st m' : route_round_robin s l m = Ok (x, st, m') → mg_brokerQueues m' = mg_brokerQueues m.
Proof.
  unfold route_round_robin, ResourceManager_selectRoundRobinLocked. cbn zeta.
  destruct (index _ _); cbn; try done. by intros [= <- <- <-].
Qed.
Lemma bq_Select intn s req t m x st m' :
  ResourceManager_SelectInstanceForRequest intn s req t m = Ok (x, st, m') → mg_brokerQueues m' = mg_brokerQueues m.
Proof.
  assert (Hkeep : ∀ (r : go string) str, (let! x := r in Ok (x, str, m)) = Ok (x, st, m') →
    mg_brokerQueues m' = mg_brokerQueues m) by (intros [] str; cbn; try done; by intros [= <- <- <-]).
  unfold ResourceManager_SelectInstanceForRequest. destruct (default [] _) as [|i0 l0]; [done|]. cbn zeta.
  repeat (match goal with |- (if ?b then _ else _) = _ → _ => destruct b end); eauto using bq_round_robin; [| |done].
  - unfold route_weighted. case_match; [by apply bq_round_robin|]. case_match; [by intros [= <- <- <-]|].
    destruct (index _ _); cbn; try done. by intros [= <- <- <-].
  - unfold route_sticky. repeat case_match; eauto using bq_round_robin; try (by intros [= <- <- <-]).
Qed.
#[export] Hint Rewrite bq_NoteSimTime bq_ProcessDraining bq_ReleaseCPU bq_ReleaseMemory bq_Dequeue : brokers.

(** * Shards *)

Section shards.
Context (lim : option SimulationLimits).
Lemma enqueue_messages msg s : depth_ok lim (qm_Metadata msg) → messages_ok lim s →
  messages_ok lim (snd (BrokerQueueShard_Enqueue msg s)).
Proof.
  intros Hm Hs. unfold BrokerQueueShard_Enqueue, shard_append, shard_count_drop, messages_ok in *.
  assert (Ha : ∀ l, Forall (λ m, depth_ok lim (qm_Metadata m)) l →
               Forall (λ m, depth_ok lim (qm_Metadata m)) (l ++ [msg])).
  { intros l Hl. apply Forall_app; split; [done|]. by constructor. }
  repeat (match goal with |- context [if ?b then _ else _] => destruct b end); cbn; auto.
  destruct (sh_messages s) as [|old rest] eqn:E; cbn; rewrite ?E; [by constructor|].
  apply Ha. by inversion Hs.
Qed.
Lemma pop_messages s : messages_ok lim s → messages_ok lim (snd (BrokerQueueShard_TryPopForDispatch s)) ∧
  ∀ msg, fst (BrokerQueueShard_TryPopForDispatch s) = Some msg → depth_ok lim (qm_Metadata msg).
Proof.
  intros Hs. unfold BrokerQueueShard_TryPopForDispatch, messages_ok in *. case_match; [done|].
  destruct (sh_messages s) as [|old rest] eqn:E; cbn; [by rewrite E|]. inversion Hs; subst.
  split; [done|]. by intros ? [= <-].
Qed.
Lemma finished_messages s : messages_ok lim s → messages_ok lim (BrokerQueueShard_ConsumerFinished s).
Proof. intros Hs. unfold BrokerQueueShard_ConsumerFinished. by case_match. Qed.
Lemma requeue_messages msg s : depth_ok lim (qm_Metadata msg) → messages_ok lim s →
  messages_ok lim (BrokerQueueShard_RequeueFront msg s).
Proof.
  intros Hm Hs. unfold BrokerQueueShard_RequeueFront. apply finished_messages in Hs.
  unfold messages_ok in *. cbn. by constructor.
Qed.
Lemma offset_messages o s : messages_ok lim s → messages_ok lim (BrokerQueueShard_RecordTopicOffsetProcessed o s).
Proof.
  intros Hs. unfold BrokerQueueShard_RecordTopicOffsetProcessed. case_match; [done|].
  by destruct (advance_frontier _ _ _).
Qed.
Lemma offsets_messages os : ∀ s, messages_ok lim s →
  messages_ok lim (foldl (λ s off, BrokerQueueShard_RecordTopicOffsetProcessed off s) s os).
Proof. induction os as [|o os IH]; intros s Hs; cbn [foldl]; [done|]. by apply IH, offset_messages. Qed.
Lemma expire_messages now ret s : messages_ok lim s →
  messages_ok lim (snd (BrokerQueueShard_ExpireQueuedByRetention now ret s)).
Proof.
  intros Hs. unfold BrokerQueueShard_ExpireQueuedByRetention. case_match; [done|].
  assert (He : ∀ t l, Forall (λ m, depth_ok lim (qm_Metadata m)) l →
    Forall (λ m, depth_ok lim (qm_Metadata m)) (snd (expire_front t l))).
  { intros t l. induction l as [|m l IH]; intros Hl; cbn; [done|]. case_match; [done|].
    inversion Hl; subst. destruct (expire_front t l); cbn in *; auto. }
  specialize (He (now + wrap64 (- ret * Millisecond)) _ Hs).
  destruct (expire_front _ _) as [removed rest]. done.
Qed.
Lemma get_shard_ok b t bq s : brokers_ok lim bq → BrokerQueues_GetShard b t bq = Some s → messages_ok lim s.
Proof. intros [H _]. apply H. Qed.
Lemma get_topic_ok b t p g bq s : brokers_ok lim bq →
  BrokerQueues_GetTopicSubscriberPartitionShard b t p g bq = Some s → messages_ok lim s.
Proof. intros [_ H]. apply H. Qed.
Lemma GetBrokerQueue_ok b t eff m : resources_ok lim m →
  resources_ok lim (snd (ResourceManager_GetBrokerQueue b t eff m)) ∧
  messages_ok lim (fst (ResourceManager_GetBrokerQueue b t eff m)).
Proof.
  intros [Hq Ht]. unfold ResourceManager_GetBrokerQueue, BrokerQueues_GetOrCreateShard.
  destruct (bq_queueShards _ !! _) as [s|] eqn:E; cbn.
  - split; [by split|by eapply Hq].
  - assert (Hn : messages_ok lim (new_queue_shard b t (default DefaultQueueBehavior eff))) by constructor.
    split; [|done]. split; cbn; [|done]. by apply map_Forall_insert_2.
Qed.
Lemma GetBrokerTopic_ok b t p g eff sub m : resources_ok lim m →
  resources_ok lim (snd (ResourceManager_GetBrokerTopicSubscriberPartitionShard b t p g eff sub m)) ∧
  messages_ok lim (fst (ResourceManager_GetBrokerTopicSubscriberPartitionShard b t p g eff sub m)).
Proof.
  intros [Hq Ht].
  unfold ResourceManager_GetBrokerTopicSubscriberPartitionShard, BrokerQueues_GetOrCreateTopicSubscriberPartitionShard.
  destruct (bq_topicShards _ !! _) as [s|] eqn:E; cbn.
  - split; [by split|by eapply Ht].
  - set (n := new_topic_shard _ _ _ _ _ _). assert (Hn : messages_ok lim n) by constructor.
    split; [|done]. split; cbn; [done|]. by apply map_Forall_insert_2.
Qed.
End shards.

(** * Lookup in literal maps *)

Fixpoint aget (k : string) (l : list (string * DataVal)) : option DataVal :=
  match l with
  | [] => None
  | (k', v) :: l => if String.eqb k' k then Some v else aget k l
  end.
Lemma mapOf_lookup l k : mapOf l !! k = aget k l.
Proof.
  induction l as [|[k' v] l IH]; [apply lookup_empty|]. unfold mapOf in *. cbn.
  destruct (String.eqb_spec k' k) as [->|Hn]; [by rewrite lookup_insert_eq|by rewrite lookup_insert_ne].
Qed.
#[global] Opaque mapOf.
Lemma aget_app k l1 l2 : aget k (l1 ++ l2) = match aget k l1 with Some v => Some v | None => aget k l2 end.
Proof. induction l1 as [|[k' v] l1 IH]; cbn; [done|]. by destruct (String.eqb k' k). Qed.
Lemma aget_known_topology k t :
  String.eqb "caller_instance_id" k || String.eqb "caller_host_zone" k || String.eqb "caller_host_id" k = false →
  aget k (known_topology t) = None.
Proof.
  intros H. apply orb_false_iff in H as [[H1 H2]%orb_false_iff H3]. destruct t as [a b d].
  unfold known_topology. cbn [ct_InstanceID ct_HostZone ct_HostID].
  rewrite !filter_cons, filter_nil.
  repeat (case_decide; cbn [fmap list_fmap fst snd aget]; rewrite ?H1, ?H2, ?H3); done.
Qed.
Lemma depth_mapOf lim l : depth_ok lim (mapOf l) ↔
  depths_ok lim (match aget "trace_depth" l with Some (DInt z) => z | Some (DFloat x) => f64_to_int x | _ => 0 end)
    (match aget "async_depth" l with Some (DInt z) => z | Some (DFloat x) => f64_to_int x | _ => 0 end).
Proof. unfold depth_ok, metadataInt. by rewrite !mapOf_lookup. Qed.
Lemma depths_zero lim : depths_ok lim 0 0.
Proof. destruct lim as [l|]; [|done]. split; intros ?; lia. Qed.
#[export] Hint Resolve depths_zero : tri.
(** Evaluate the lookups in a literal map. *)
Ltac literal_map :=
  rewrite ?depth_mapOf; unfold nested_ok; rewrite ?mapOf_lookup; rewrite ?aget_app;
  rewrite ?aget_known_topology by reflexivity;
  lazy [aget app topology_data String.eqb Ascii.eqb Bool.eqb metaRetryAttempt metaLogicalCallID metaOverheadFromRetry
        metaBrokerService metaBrokerTopic metaQueueEdge metaTopicConsumerGrp metaTopicSubscriber metaTopicPartition
        metaQueueMsgID metaTopicOffset].
Ltac data_literal := split_and!; literal_map; try done; try apply depths_zero.

(** * Proof search *)

#[export] Hint Extern 0 (Weaker _) => apply _ : tri.
#[export] Hint Extern 0 (free_key _ = true) => reflexivity : tri.
#[export] Hint Extern 0 (_ ≠ EventTypeDownstreamRetry) => discriminate : tri.
#[export] Hint Extern 0 (plain _) => exact I : tri.
Lemma tri_True {A} I R (m : M A) Q : Tri I R m Q → Tri I R m (λ _, True).
Proof. intros H. by eapply tri_mono. Qed.
Lemma tri_bindT {A B} I R `{!PreOrder R} (m : M A) (k : A → M B) Q' :
  Tri I R m (λ _, True) → (∀ a, Tri I R (k a) Q') → Tri I R (mbind_M m k) Q'.
Proof. intros Hm Hk. eapply tri_bind; [apply _|done|auto]. Qed.
#[export] Hint Resolve tri_GenerateID tri_draw_Float64 tri_draw_NormFloat64 tri_on_breaker tri_record tri_deref
  tri_setMeta tri_delMeta tri_setStatus tri_rm_AddRequest tri_ScheduleAtPriority tri_modify : tri.
Ltac tri_leaf :=
  lazymatch goal with
  | |- Tri _ _ (gets _) (λ _, True) => eapply tri_True, tri_gets; apply _
  | |- Tri _ _ (gets _) _ => eapply tri_gets; apply _
  | |- Tri _ _ outside (λ _, True) => eapply tri_True, tri_gets; apply _
  | |- Tri _ _ outside _ => eapply tri_gets; apply _
  | |- Tri _ _ (ret _) (λ _, True) => apply tri_ret; [apply _|done]
  | |- Tri _ _ (ret _) _ => apply tri_ret_eq; apply _
  | |- Tri _ _ (throw _) _ => apply tri_throw; apply _
  | |- Tri _ _ (λ _, Crash) _ => apply tri_crash
  | |- Tri _ _ GetSimTime _ => eapply tri_read; apply _
  | |- Tri _ _ (rm_GetRequest _) _ => eapply tri_read; apply _
  | |- Tri _ _ _ (λ _, True) => first [solve [eauto 4 with tri] | eapply tri_True; solve [eauto 4 with tri]]
  | |- _ => solve [eauto 4 with tri]
  end.
Ltac tri :=
  cbn beta zeta;
  lazymatch goal with
  | |- Tri _ _ (mbind_M (mbind_M _ _) _) _ => eapply tri_bindT; [apply _| |intros ?]; tri
  | |- Tri _ _ (mbind_M (when _ _) _) _ => eapply tri_bindT; [apply _| |intros ?]; tri
  | |- Tri _ _ (mbind_M (match _ with _ => _ end) _) _ => eapply tri_bindT; [apply _| |intros ?]; tri
  | |- Tri _ _ (mbind_M _ _) _ =>
      first [eapply tri_bind; [apply _|tri_leaf|intros ? ?] | eapply tri_bindT; [apply _| |intros ?]]; tri
  | |- Tri _ _ (when _ _) _ => apply tri_when; [apply _|intros ?; tri]
  | |- Tri _ _ (mfor _ _) _ => apply tri_mfor; [apply _|intros ? ?; tri]
  | |- Tri _ _ (if ?b then _ else _) _ => destruct b eqn:?; tri
  | |- Tri _ _ (match ?x with _ => _ end) _ => destruct x eqn:?; tri
  | |- Tri _ _ _ _ => try tri_leaf
  | |- _ => idtac
  end.

Section laws.
Context (c : RunConf).
Abbreviation lim := (rc_limits c).

Lemma resources_eq m m' : mg_brokerQueues m' = mg_brokerQueues m → resources_ok lim m → resources_ok lim m'.
Proof. unfold resources_ok. by intros ->. Qed.
Lemma tri_mod_rm_eq R `{!Weaker R} f : (∀ m, mg_brokerQueues (f m) = mg_brokerQueues m) →
  Tri (Inv c) R (mod_rm f) (λ _, True).
Proof. intros Hf. apply tri_mod_rm; [apply _|]. intros m. by apply resources_eq. Qed.
Lemma tri_replace_rm R `{!Weaker R} m : resources_ok lim m → Tri (Inv c) R (mod_rm (λ _, m)) (λ _, True).
Proof. intros Hm. by apply tri_mod_rm; [apply _|]. Qed.

(** ** Sampling, costs and routing *)

Lemma tri_draw_clamped R `{!Weaker R} m s : Tri (Inv c) R (draw_clamped m s) (λ _, True).
Proof. unfold draw_clamped. tri. Qed.
#[local] Hint Resolve tri_draw_clamped : tri.
Lemma tri_sample_delivery R `{!Weaker R} s : Tri (Inv c) R (sample_delivery s) (λ _, True).
Proof. unfold sample_delivery. tri. Qed.
#[local] Hint Resolve tri_sample_delivery : tri.
Lemma tri_sampleQueue R `{!Weaker R} b : Tri (Inv c) R (sampleQueueDeliveryMs b) (λ _, True).
Proof. unfold sampleQueueDeliveryMs. tri. Qed.
Lemma tri_sampleTopic R `{!Weaker R} b : Tri (Inv c) R (sampleTopicDeliveryMs b) (λ _, True).
Proof. unfold sampleTopicDeliveryMs. tri. Qed.
Lemma tri_sampleIO R `{!Weaker R} ep : Tri (Inv c) R (sampleEndpointIOWorkloadMs ep) (λ _, True).
Proof. unfold sampleEndpointIOWorkloadMs. tri. Qed.
Lemma tri_profile R `{!Weaker R} s e k : Tri (Inv c) R (resolveServiceExecutionProfile s e k) (λ _, True).
Proof.
  unfold resolveServiceExecutionProfile. eapply tri_bind; [apply _|tri_leaf|intros cpu _].
  eapply tri_bind; [apply _|tri_leaf|intros net _]. cbn zeta.
  match goal with |- Tri _ _ (let '(_, _) := ?x in _) _ => destruct x end. tri.
Qed.
Lemma tri_penalty R `{!Weaker R} s l lb t : Tri (Inv c) R (penalty s l lb t) (λ _, True).
Proof. unfold penalty, sampleCrossZoneNetworkPenaltyMs. tri. Qed.
#[local] Hint Resolve tri_penalty tri_sampleQueue tri_sampleTopic tri_sampleIO tri_profile : tri.
Lemma tri_topology_penalty R `{!Weaker R} s e p i t :
  Tri (Inv c) R (applyTopologyNetworkPenaltyMs s e p i t) (λ _, True).
Proof. unfold applyTopologyNetworkPenaltyMs, sampleCrossZoneNetworkPenaltyMs. tri. Qed.
Lemma tri_gauges R `{!Weaker R} s i t : Tri (Inv c) R (recordInstanceAndHostGauges s i t) (λ _, True).
Proof. unfold recordInstanceAndHostGauges. tri. Qed.
Lemma tri_record_route R `{!Weaker R} r i s t : Tri (Inv c) R (record_route r i s t) (λ _, True).
Proof. unfold record_route. tri. Qed.
#[local] Hint Resolve tri_topology_penalty tri_gauges tri_record_route : tri.
Lemma tri_select R `{!Weaker R} p t : Tri (Inv c) R (selectInstanceForRequest p t) (λ _, True).
Proof.
  unfold selectInstanceForRequest.
  eapply tri_bind; [apply _|tri_leaf|intros req _]. eapply tri_bind; [apply _|tri_leaf|intros o _].
  eapply tri_bind; [apply _|tri_leaf|intros m (w & HI & ->)]. cbn zeta.
  eapply tri_bind; [apply _|apply tri_lift; apply _|intros r [Er _]]. destruct r as [[[inst str] m']|e|]; tri.
  apply tri_replace_rm; [apply _|]. eapply resources_eq; [by eapply bq_Select|apply HI].
Qed.
#[local] Hint Resolve tri_select : tri.
Lemma tri_resolveTopology R `{!Weaker R} p t : Tri (Inv c) R (resolveCallerTopologyForSpawn p t) (λ _, True).
Proof. unfold resolveCallerTopologyForSpawn. tri. Qed.
Lemma tri_callerTopology R `{!Weaker R} p : Tri (Inv c) R (callerTopologyFromRequest p) (λ _, True).
Proof. unfold callerTopologyFromRequest. tri. Qed.
#[local] Hint Resolve tri_resolveTopology tri_callerTopology : tri.

(** ** Publishing and downstream calls *)

Lemma publish_data_ok call td ad fr at_ lg d t extra :
  depths_ok lim td ad → aget "trace_depth" extra = None → aget "async_depth" extra = None →
  aget "msg_metadata" extra = None → aget "metadata" extra = None →
  data_ok lim (mapOf (extra ++ publish_data call td ad fr at_ lg d t)).
Proof.
  intros Hd E1 E2 E3 E4. unfold publish_data. split_and!; unfold nested_ok;
  rewrite ?depth_mapOf, ?mapOf_lookup, !aget_app, ?E1, ?E2, ?E3, ?E4; literal_map; done.
Qed.
Lemma data_insert k v data : free_key k = true → k ≠ "msg_metadata" → k ≠ "metadata" →
  data_ok lim (<[k := v]> data) ↔ data_ok lim data.
Proof.
  intros Hk H1 H2. unfold data_ok, nested_ok. rewrite depth_insert by done. by rewrite !lookup_insert_ne.
Qed.
Lemma tri_queuePublish R `{!Weaker R} p call t td ad fr at_ lg fx topo : depths_ok lim td ad →
  Tri (Inv c) R (scheduleQueuePublishFromOverhead p call t td ad fr at_ lg fx topo) (λ _, True).
Proof.
  intros Hd. unfold scheduleQueuePublishFromOverhead, ScheduleAt. tri.
  apply tri_ScheduleAtPriority; [apply _|done|]. by apply (publish_data_ok _ _ _ _ _ _ _ _ []).
Qed.
Lemma tri_topicPublish R `{!Weaker R} p call t td ad fr at_ lg fx topo : depths_ok lim td ad →
  Tri (Inv c) R (scheduleTopicPublishFromOverhead p call t td ad fr at_ lg fx topo) (λ _, True).
Proof.
  intros Hd. unfold scheduleTopicPublishFromOverhead, ScheduleAt. tri.
  apply tri_ScheduleAtPriority; [apply _|done|]. unfold applyTopicPartitionKeyToPublishData.
  assert (HP : ∀ d t, data_ok lim (mapOf (("meta_topic_edge", DBool true) :: publish_data call td ad fr at_ lg d t)))
    by (intros; by apply (publish_data_ok _ _ _ _ _ _ _ _ [_])).
  destruct (negb _); [|destruct (is_empty _); [apply HP|destruct (_ !! _); [|apply HP]]];
    (apply data_insert; [done..|apply HP]).
Qed.
Lemma tri_downstreamCall R `{!Weaker R} p call t td ad ia : depths_ok lim td ad →
  Tri (Inv c) R (scheduleDownstreamCallEvent p call t td ad ia) (λ _, True).
Proof.
  intros Hd. unfold scheduleDownstreamCallEvent, ScheduleAt. tri.
  apply tri_ScheduleAtPriority; [apply _|done|]. split_and!; literal_map; done.
Qed.
#[local] Hint Resolve tri_queuePublish tri_topicPublish tri_downstreamCall : tri.
Lemma tri_CreateDownstream p s path : Tri (Inv c) Grow (CreateDownstreamRequest p s path) (λ _, True).
Proof.
  unfold CreateDownstreamRequest. tri. eapply tri_alloc. cbn.
  case_match; [rewrite depth_insert by done|]; unfold depth_ok, metadataInt; rewrite !lookup_empty; apply depths_zero.
Qed.
Lemma tri_GetDownstreamCalls R `{!Weaker R} s p : Tri (Inv c) R (GetDownstreamCalls s p) (λ _, True).
Proof.
  intros w HI. unfold GetDownstreamCalls. cbn zeta. destruct (Graph_ResolveDownstreamCalls _ _ _) eqn:E; [by split_and!|].
  destruct (DefaultBranchingStrategy_SelectCalls _ _) as [sel rng].
  destruct (safe_state c w ((w_st w) <| st_branchRng := rng |>) HI) as [HI' HK]; [by split; cbn|].
  destruct w. split_and!; [done|by apply weaker_sub|done].
Qed.
#[local] Hint Resolve tri_CreateDownstream tri_GetDownstreamCalls : tri.

(** ** Draining *)

Lemma tri_error R `{!Weaker R} l r t : Tri (Inv c) R (endpoint_error l r t) (λ _, True).
Proof. unfold endpoint_error. tri. Qed.
Lemma tri_ingress R `{!Weaker R} l r t : Tri (Inv c) R (ingress_failure l r t) (λ _, True).
Proof. unfold ingress_failure. tri. Qed.
#[local] Hint Resolve tri_error tri_ingress : tri.
Lemma tri_NoteSimTime R `{!Weaker R} t : Tri (Inv c) R (NoteSimTime t) (λ _, True).
Proof. unfold NoteSimTime. apply tri_mod_rm_eq; [apply _|]. apply bq_NoteSimTime. Qed.
#[local] Hint Resolve tri_NoteSimTime : tri.
Lemma tri_draining R `{!Weaker R} t : Tri (Inv c) R (process_draining t) (λ _, True).
Proof.
  unfold process_draining, failDroppedQueueRequests, fail_dropped. eapply tri_bindT; [apply _|tri_leaf|intros _].
  eapply tri_bind; [apply _|tri_leaf|intros o _].
  eapply (tri_bind _ _ _ _ (λ _, True)); [|intros l _; tri].
  apply tri_on_rm; [apply _|]. intros m Hm. split; [|done]. eapply resources_eq; [apply bq_ProcessDraining|done].
Qed.
#[local] Hint Resolve tri_draining : tri.
Lemma no_data : data_ok lim ∅.
Proof. split_and!; [|by unfold nested_ok; rewrite lookup_empty..]. apply (depth_mapOf lim []), depths_zero. Qed.
#[local] Hint Resolve no_data : tri.
Lemma tri_drainSweep R `{!Weaker R} evt : Tri (Inv c) R (handleDrainSweep evt) (λ _, True).
Proof. unfold handleDrainSweep, ScheduleAt. tri. Qed.

(** ** Finalisation *)

Definition unfin (w : World) : nat := size (filter (λ kv, is_finalized (snd kv) = false) (st_heap (w_st w))).
Definition InvN (n : nat) (w : World) : Prop := Inv c w ∧ (unfin w ≤ n)%nat.
Lemma unfin_sub w w' : (∀ p r', st_heap (w_st w') !! p = Some r' → is_finalized r' = false →
    ∃ r, st_heap (w_st w) !! p = Some r ∧ is_finalized r = false) →
  dom (filter (λ kv, is_finalized (snd kv) = false) (st_heap (w_st w'))) ⊆
  dom (filter (λ kv, is_finalized (snd kv) = false) (st_heap (w_st w))).
Proof.
  intros H p. rewrite !elem_of_dom. intros [r' Hr]. apply map_lookup_filter_Some in Hr as [E F].
  destruct (H p r' E F) as (r & Er & Fr). exists r. by apply map_lookup_filter_Some.
Qed.
Lemma keep_unfin_lookup w w' p r' : Keep w w' → st_heap (w_st w') !! p = Some r' → is_finalized r' = false →
  ∃ r, st_heap (w_st w) !! p = Some r ∧ is_finalized r = false.
Proof.
  intros [HG HD] E F. assert (Hp : p ∈ dom (st_heap (w_st w))) by (rewrite HD; by apply elem_of_dom_2 in E).
  apply elem_of_dom in Hp as [r Hr]. exists r. split; [done|]. destruct (is_finalized r) eqn:Fr; [|done].
  destruct (HG p) as [(r2 & E2 & F2) _]; [by exists r|]. congruence.
Qed.
Lemma keep_unfin w w' : Keep w w' → (unfin w' ≤ unfin w)%nat.
Proof.
  intros HK. unfold unfin. rewrite <- !size_dom. apply subseteq_size, unfin_sub.
  intros p r'. by apply keep_unfin_lookup.
Qed.
Lemma keep_mark w w' p r : Keep w w' → st_heap (w_st w) !! p = Some r → is_finalized r = false →
  fin_at w' p → (unfin w' < unfin w)%nat.
Proof.
  intros HK E F (r' & E' & F'). unfold unfin. rewrite <- !size_dom. apply subset_size. split.
  - apply unfin_sub. intros q rq. by apply keep_unfin_lookup.
  - intros H. assert (Hp : p ∈ dom (filter (λ kv, is_finalized (snd kv) = false) (st_heap (w_st w'))))
      by (apply H, elem_of_dom; exists r; by apply map_lookup_filter_Some).
    apply elem_of_dom in Hp as [r2 H2]. apply map_lookup_filter_Some in H2 as [? ?]. cbn in *. congruence.
Qed.
Lemma tri_bounded {A} n (m : M A) Q : Tri (Inv c) Keep m Q → Tri (InvN n) Keep m Q.
Proof.
  intros Hm w [HI Hn]. specialize (Hm w HI). destruct (m w) as [a w'|e w'| |]; try done.
  - destruct Hm as (? & HK & ?). apply keep_unfin in HK as ?. split_and!; [|done..]. split; [done|lia].
  - destruct Hm as (? & HK). apply keep_unfin in HK as ?. split; [|done]. split; [done|lia].
Qed.
(** Between the mark and [FinalizeRequest], the request [p] is finalised and not yet
    handed over. *)
Definition KeepX (p : positive) (w w' : World) : Prop :=
  (∀ q, q ≠ p → fin_at w q → fin_at w' q ∧ nfin q (w_acts w') = nfin q (w_acts w)) ∧ (fin_at w p → fin_at w' p) ∧
  dom (st_heap (w_st w)) = dom (st_heap (w_st w')).
Definition FinSeq (n : nat) (p : positive) (m : M unit) : Prop := ∀ w, InvN n w → fin_at w p →
  nfin p (w_acts w) = 0%nat →
  match m w with
  | Done _ w' | Err _ w' => Inv c w' ∧ KeepX p w w'
  | Crash => True
  | NoFuel => False
  end.
Lemma keepX_trans p w1 w2 w3 : Keep w1 w2 → KeepX p w2 w3 → KeepX p w1 w3.
Proof.
  intros [G D] (X & P & DX). split_and!; [|intros Hp; apply P, G, Hp|by rewrite D].
  intros q Hq Hf. destruct (G q Hf) as [H2 E2]. destruct (X q Hq H2) as [H3 E3]. by rewrite E3.
Qed.
Lemma finseq_bind {A} n p (m : M A) k Q : Tri (InvN n) Keep m Q → (∀ a, FinSeq n p (k a)) → FinSeq n p (mbind_M m k).
Proof.
  intros Hm Hk w HI Hp H0. unfold mbind_M. specialize (Hm w HI).
  destruct (m w) as [a w1|e w1| |]; try done.
  - destruct Hm as (HI1 & HK & _). destruct (proj1 HK p Hp) as [Hp1 E1].
    specialize (Hk a w1 HI1 Hp1). rewrite E1 in Hk. specialize (Hk H0).
    destruct (k a w1) as [[] w2|e w2| |]; try done;
      (destruct Hk as [? ?]; split; [done|by eapply keepX_trans]).
  - destruct Hm as ([HI1 _] & HK). split; [done|]. split_and!; [|by apply HK..]. intros q _. apply HK.
Qed.
Lemma finseq_tri n p m : Tri (InvN n) Keep m (λ _, True) → FinSeq n p m.
Proof.
  intros Hm w HI Hp H0. specialize (Hm w HI).
  assert (HX : ∀ w', Keep w w' → KeepX p w w').
  { intros w' [HG HD]. split_and!; [|by apply HG|done]. intros q _. apply HG. }
  destruct (m w) as [[] w'|e w'| |]; try done; destruct Hm as ([HI1 _] & HK); (split; [done|]); apply HX, HK.
Qed.
Lemma nfin_finalize q p r acts :
  nfin q (ActFinalizeRequest (Some (p, r)) :: acts) = ((if decide (q = p) then 1 else 0) + nfin q acts)%nat.
Proof.
  unfold nfin. rewrite filter_cons. cbn [finalizes]. destruct (decide (q = p)) as [->|Hn].
  - rewrite decide_True by (by apply bool_decide_eq_true_2). done.
  - rewrite decide_False; [done|]. by rewrite bool_decide_eq_true.
Qed.
Lemma finseq_finalize n p : FinSeq n p (rm_FinalizeRequest p).
Proof.
  intros w [HI _] Hp H0. unfold rm_FinalizeRequest, mbind_M, deref. destruct Hp as (r & E & F). rewrite E.
  unfold act. set (w' := w <| w_eng := _ |> <| w_acts := _ |>). cbn iota.
  assert (EA : ∀ q, nfin q (w_acts w') = ((if decide (q = p) then 1 else 0) + nfin q (w_acts w))%nat)
    by (intros q; apply nfin_finalize).
  assert (EF : ∀ q, fin_at w' q ↔ fin_at w q) by done.
  split.
  - constructor; try (by apply HI).
    + constructor; [done|apply HI].
    + intros q. rewrite EA. pose proof (inv_once _ _ HI q). destruct (decide (q = p)) as [->|]; lia.
    + intros q Hq. rewrite EA in Hq. apply EF. destruct (decide (q = p)) as [->|]; [by exists r|].
      by apply (inv_fin _ _ HI).
  - split_and!; [|done|done]. intros q Hq Hf. split; [done|]. rewrite EA. by rewrite decide_False.
Qed.
(** Mark, then hand over. *)
Lemma mark_seq n p f k w r : InvN (S n) w → st_heap (w_st w) !! p = Some r → is_finalized r = false →
  (∀ r, depth_ok lim (q_Metadata r) → depth_ok lim (q_Metadata (f r))) → (∀ r, is_finalized (f r) = true) →
  FinSeq n p k →
  match mbind_M (update p f) (λ _, k) w with
  | Done _ w' => InvN (S n) w' ∧ Keep w w' ∧ True
  | Err _ w' => InvN (S n) w' ∧ Keep w w'
  | Crash => True
  | NoFuel => False
  end.
Proof.
  intros [HI Hn] E F Hd Hf Hk. unfold mbind_M. rewrite (update_run _ _ _ r E).
  set (w1 := mkWorld _ _ _). destruct (safe_update_inv c w p f) as [HI1 HK1]; [by intros r0; split; auto|done|].
  fold w1 in HI1, HK1.
  assert (Hp1 : fin_at w1 p) by (exists (f r); split; [unfold w1; cbn; by rewrite lookup_alter_eq, E|apply Hf]).
  assert (H0 : nfin p (w_acts w1) = 0%nat).
  { change (nfin p (w_acts w) = 0%nat). destruct (nfin p (w_acts w)) eqn:En; [done|]. exfalso.
    destruct (inv_fin _ _ HI p) as (r0 & E0 & F0); [lia|]. congruence. }
  pose proof (keep_mark _ _ _ _ HK1 E F Hp1) as Hlt.
  assert (HIN : InvN n w1) by (split; [done|lia]). specialize (Hk w1 HIN Hp1 H0).
  assert (HX : ∀ w', Inv c w' ∧ KeepX p w1 w' → InvN (S n) w' ∧ Keep w w').
  { intros w' (HI' & HX & HP & HD).
    assert (HK : Keep w w').
    { split; [|by rewrite (proj2 HK1)]. intros q Hq. destruct (decide (q = p)) as [->|Hne].
      - destruct Hq as (? & ? & ?). congruence.
      - destruct (proj1 HK1 q Hq) as [Hq1 E1]. destruct (HX q Hne Hq1) as [? E2]. by rewrite E2. }
    split; [|done]. split; [done|]. apply keep_unfin in HK. lia. }
  destruct (k w1) as [[] w'|e w'| |]; [|by auto..]. destruct (HX w' Hk). by split_and!.
Qed.
#[local] Hint Resolve tri_bounded : tri.
#[local] Hint Extern 0 (Tri _ _ (breaker_failure _ _ _) _) => apply (tri_on_breaker _ _) : tri.
#[local] Hint Extern 0 (Tri _ _ (breaker_success _ _ _) _) => apply (tri_on_breaker _ _) : tri.
Lemma mark_depth f r : q_Metadata (f r) = <[metaDESFinalized := DBool true]> (q_Metadata r) →
  depth_ok lim (q_Metadata r) → depth_ok lim (q_Metadata (f r)).
Proof. intros -> Hd. unfold depth_ok. by rewrite !metadataInt_insert_ne. Qed.
Lemma is_finalized_mark r : is_finalized (mark_finalized r) = true.
Proof. unfold is_finalized, mark_finalized, set_meta, metadataBool. cbn. by rewrite lookup_insert_eq. Qed.
Lemma tri_success p t l : Tri (Inv c) Keep (record_success p t l) (λ _, True).
Proof. unfold record_success. tri. by apply tri_act; [apply _|..]. Qed.
#[local] Hint Resolve tri_success : tri.
Lemma no_unfinalized w p r : InvN 0 w → st_heap (w_st w) !! p = Some r → is_finalized r = true.
Proof.
  intros [_ Hn] E. destruct (is_finalized r) eqn:F; [done|].
  assert (Hs : (unfin w = 0)%nat) by lia. apply map_size_empty_iff in Hs.
  assert (Hp : filter (λ kv, is_finalized (snd kv) = false) (st_heap (w_st w)) !! p = Some r)
    by (by apply map_lookup_filter_Some). by rewrite Hs in Hp.
Qed.
Section chain.
Context (n : nat) (notify : Notify) (Hnotify : ∀ p id t b r, Tri (InvN n) Keep (notify p id t b r) (λ _, True)).
Lemma tri_notify_parent p t b r : Tri (InvN n) Keep (notify_parent notify p t b r) (λ _, True).
Proof. unfold notify_parent. tri. Qed.
Lemma finish_finseq p t b r : FinSeq n p (notify_parent notify p t b r ;;* rm_FinalizeRequest p).
Proof. eapply finseq_bind; [apply tri_notify_parent|]. intros _. apply finseq_finalize. Qed.
Lemma tri_completion p t l : Tri (InvN (S n)) Keep (finalize_completion notify p t l) (λ _, True).
Proof.
  intros w HI. unfold finalize_completion. unfold mbind_M at 1, deref at 1.
  destruct (st_heap (w_st w) !! p) as [r|] eqn:E; [|done]. cbn zeta.
  destruct (metadataBool (q_Metadata r) metaDESFinalized) eqn:F; [by split_and!|].
  set (done_ := λ r, completed_at t ((mark_finalized r) <| q_Status := RequestStatusCompleted |>)).
  assert (Hseq : ∀ f k, (∀ r, depth_ok lim (q_Metadata r) → depth_ok lim (q_Metadata (f r))) →
    (∀ r, is_finalized (f r) = true) → FinSeq n p k →
    match mbind_M (update p f) (λ _, k) w with
    | Done a w' => InvN (S n) w' ∧ Keep w w' ∧ True
    | Err _ w' => InvN (S n) w' ∧ Keep w w' | Crash => True | NoFuel => False end).
  { intros f k Hd Hf Hk. by apply (mark_seq n p f k w r). }
  assert (Hd1 : ∀ r, depth_ok lim (q_Metadata r) → depth_ok lim (q_Metadata (done_ r)))
    by (intros r0; by apply (mark_depth done_)).
  destruct (metadataBool (q_Metadata r) metaAsyncAttemptAbandoned).
  { apply (Hseq done_); [done|apply is_finalized_mark|apply finseq_finalize]. }
  assert (Hdone : ∀ k, FinSeq n p k → match mbind_M (update p done_) (λ _, k) w with
    | Done a w' => InvN (S n) w' ∧ Keep w w' ∧ True
    | Err _ w' => InvN (S n) w' ∧ Keep w w' | Crash => True | NoFuel => False end)
    by (intros k Hk; apply Hseq; [done|apply is_finalized_mark|done]).
  assert (Hend : FinSeq n p (if metadataBool (q_Metadata r) metaAsyncOpTimedOut && metadataBool (q_Metadata r) metaDownstreamAsync
     then breaker_failure (q_ServiceName r) (q_Endpoint r) t
     else record_success p t l ;;* notify_parent notify p t false "" ;;* rm_FinalizeRequest p)).
  { destruct (_ && _); [apply finseq_tri; tri_leaf|].
    eapply finseq_bind; [apply tri_bounded, tri_success|]. intros _. apply finish_finseq. }
  destruct (q_Status r); [by apply Hdone..| ].
  apply (Hseq mark_finalized); [intros r0; by apply (mark_depth mark_finalized)|apply is_finalized_mark|].
  eapply (finseq_bind _ _ _ _ (λ _, True)); [|intros _; apply finseq_finalize].
  tri. apply tri_bounded. by apply tri_update; [apply _|].
Qed.
Lemma tri_failure p t l reason : Tri (InvN (S n)) Keep (finalize_failure notify p t l reason) (λ _, True).
Proof.
  intros w HI. unfold finalize_failure. unfold mbind_M at 1, deref at 1.
  destruct (st_heap (w_st w) !! p) as [r|] eqn:E; [|done]. cbn zeta.
  destruct (metadataBool (q_Metadata r) metaDESFinalized) eqn:F; [by split_and!|].
  eapply mark_seq; [done..| | |].
  - intros r0 Hd. unfold set_reason. apply (mark_depth mark_finalized) in Hd; [|done].
    destruct (is_empty reason); [done|]. by apply (depth_insert c).
  - intros r0. unfold set_reason, is_finalized. destruct (is_empty reason); [apply is_finalized_mark|].
    unfold set_meta, metadataBool. cbn. rewrite lookup_insert_ne by done. by rewrite lookup_insert_eq.
  - eapply finseq_bind; [apply tri_bounded, tri_deref; apply _|]. intros r1.
    do 5 (eapply (finseq_bind _ _ _ _ (λ _, True)); [tri|intros _]). apply finish_finseq.
Qed.
End chain.
(** Where every request is finalised, nothing is left to do. *)
Lemma tri_end_zero notify p t l reason :
  Tri (InvN 0) Keep (finalize_completion notify p t l) (λ _, True) ∧
  Tri (InvN 0) Keep (finalize_failure notify p t l reason) (λ _, True).
Proof.
  split; intros w HI; unfold finalize_completion, finalize_failure; unfold mbind_M at 1, deref at 1;
    (destruct (st_heap (w_st w) !! p) as [r|] eqn:E; [|done]); cbn zeta;
    pose proof (no_unfinalized _ _ _ HI E) as F; unfold is_finalized in F; rewrite F; by split_and!.
Qed.
Lemma tri_markSubtree R `{!Weaker R} b id r : Tri (Inv c) R (mark_subtree_failed b id r) (λ _, True).
Proof. unfold mark_subtree_failed. tri. Qed.
#[local] Hint Resolve tri_markSubtree : tri.
Lemma safe_pending f s :
  (map_Forall (λ _ n, 0 < n) (st_pendingSync s) → map_Forall (λ _ n, 0 < n) (f (st_pendingSync s))) →
  state_safe c s (s <| st_pendingSync := f (st_pendingSync s) |>).
Proof. intros Hf. split; cbn; auto. Qed.
Lemma tri_child_reported R `{!Weaker R} id note : Tri (Inv c) R note (λ _, True) →
  Tri (Inv c) R (child_reported id note) (λ _, True).
Proof.
  intros Hn. unfold child_reported. tri; apply tri_modify; [apply _| |apply _|]; intros s.
  - apply (safe_pending (<[id := _]>)). intros Hp. apply map_Forall_insert_2; [lia|done].
  - apply (safe_pending (delete id)). apply map_Forall_delete.
Qed.
#[local] Hint Resolve tri_child_reported : tri.
Lemma tri_deferred R `{!Weaker R} p t l : Tri (Inv c) R (recordDeferredQueueParentMetricsIfNeeded p t l) (λ _, True).
Proof. unfold recordDeferredQueueParentMetricsIfNeeded. tri. Qed.
#[local] Hint Resolve tri_deferred : tri.
Lemma tri_chain n : ∀ p id t b r, Tri (InvN n) Keep (notify_chain (S n) p id t b r) (λ _, True).
Proof.
  induction n as [|n IH]; intros p id t b r; cbn [notify_chain];
    (eapply tri_bind; [apply _|tri_leaf|intros ch _]); (case_match; [tri_leaf|]);
    (eapply tri_bindT; [apply _|tri_leaf|intros _]);
    (eapply tri_bindT; [apply _|apply tri_bounded, tri_child_reported; [apply _|]; tri|intros last]);
    (destruct last as [[]|]; [|tri_leaf..]); (eapply tri_bind; [apply _|tri_leaf|intros o _]);
    (destruct o as [q|]; [|tri_leaf]); (eapply tri_bind; [apply _|tri_leaf|intros pr _]); cbn zeta;
    (case_match; [first [by apply tri_failure|by apply tri_end_zero]|]);
    (destruct (metadataTime _ _); [case_match; [tri_leaf|]|]);
    (eapply tri_bindT; [apply _|tri_leaf|intros _]); first [by apply tri_completion|by apply (tri_end_zero _ _ _ _ "")].
Qed.
Lemma chain_enough w : (unfin w ≤ size (st_heap (w_st w)))%nat.
Proof.
  unfold unfin. rewrite <- !size_dom. apply subseteq_size, subseteq_dom, map_filter_subseteq.
Qed.
Lemma drop_bound {A} n (m : M A) Q w : Tri (InvN n) Keep m Q → Inv c w → (unfin w ≤ n)%nat →
  match m w with
  | Done a w' => Inv c w' ∧ Keep w w' ∧ Q a
  | Err _ w' => Inv c w' ∧ Keep w w'
  | Crash => True
  | NoFuel => False
  end.
Proof.
  intros Hm HI Hn. specialize (Hm w (conj HI Hn)). destruct (m w) as [a w'|e w'| |]; try done.
  - destruct Hm as ([? _] & ? & ?). done.
  - destruct Hm as ([? _] & ?). done.
Qed.
Lemma tri_up {A} R `{!Weaker R} (m : M A) Q : Tri (Inv c) Keep m Q → Tri (Inv c) R m Q.
Proof. apply tri_weaken, weaker_sub. Qed.
Lemma tri_notify_keep p id t b r : Tri (Inv c) Keep (notifyParentSyncChildResolved p id t b r) (λ _, True).
Proof.
  intros w HI. exact (drop_bound _ _ _ w (tri_chain _ p id t b r) HI (chain_enough w)).
Qed.
#[local] Hint Resolve tri_notify_keep : tri.
Lemma tri_notify R `{!Weaker R} p id t b r : Tri (Inv c) R (notifyParentSyncChildResolved p id t b r) (λ _, True).
Proof. apply tri_up; [apply _|]. apply tri_notify_keep. Qed.
Lemma tri_finalizeCompletion R `{!Weaker R} p t l : Tri (Inv c) R (finalizeRequestCompletion p t l) (λ _, True).
Proof.
  apply tri_up; [apply _|].
  intros w HI. apply (drop_bound (S (unfin w))); [|done|lia]. apply tri_completion. intros. tri_leaf.
Qed.
Lemma tri_finalizeFailure R `{!Weaker R} p t l r : Tri (Inv c) R (finalizeRequestFailure p t l r) (λ _, True).
Proof.
  apply tri_up; [apply _|].
  intros w HI. apply (drop_bound (S (unfin w))); [|done|lia]. apply tri_failure. intros. tri_leaf.
Qed.
#[local] Hint Resolve tri_notify tri_finalizeCompletion tri_finalizeFailure : tri.
Lemma tri_propagateOverhead R `{!Weaker R} p t r b :
  Tri (Inv c) R (propagateSyncPendingFromCallerOverheadFailure p t r b) (λ _, True).
Proof.
  unfold propagateSyncPendingFromCallerOverheadFailure. destruct b; [tri_leaf|].
  eapply tri_bind; [apply _|tri_leaf|intros pr _].
  eapply tri_bindT; [apply _|apply tri_child_reported; [apply _|]; tri|intros last]. tri.
Qed.
Lemma tri_propagateStart R `{!Weaker R} p t r :
  Tri (Inv c) R (propagateSyncChildFailureFromStartFailure p t r) (λ _, True).
Proof. unfold propagateSyncChildFailureFromStartFailure. tri. Qed.
#[local] Hint Resolve tri_propagateOverhead tri_propagateStart : tri.

(** ** Retries *)

Lemma retry_data_ok id ry : depths_ok lim (ry_traceDepth ry) (ry_asyncDepth ry) → data_ok lim (retry_data id ry).
Proof. intros Hd. unfold retry_data. split_and!; literal_map; done. Qed.
Lemma tri_scheduleRetry R `{!Weaker R} p ry d rp :
  depths_ok lim (ry_traceDepth ry) (ry_asyncDepth ry) → rc_retry c = Some rp → rp_enabled rp = true →
  ry_attempt ry ≤ rp_maxRetries rp → Tri (Inv c) R (scheduleDownstreamRetryEvent p ry d) (λ _, True).
Proof.
  intros Hd Hrp Hen Hat. unfold scheduleDownstreamRetryEvent, ScheduleAt, ScheduleAtPriority. tri.
  apply tri_act; [apply _| |done]. split; [by apply retry_data_ok|].
  intros _. rewrite Hrp. split; [done|]. cbn [ev_Data]. unfold retry_data, metadataInt. rewrite mapOf_lookup. by literal_map.
Qed.
Lemma retry_policy_conf w rp : Inv c w → getRetryPolicy (st_policies (w_st w)) = Some rp →
  rc_retry c = Some rp ∧ rp_enabled rp = true.
Proof.
  intros HI. unfold getRetryPolicy. rewrite (inv_retry _ _ HI). destruct (rc_retry c) as [rp'|]; [|done].
  destruct (rp_enabled rp') eqn:E; [|done]. by intros [= ->].
Qed.
Lemma should_retry at_ r rp : retryPolicy_ShouldRetry at_ (Some r) rp = true → at_ + 1 ≤ rp_maxRetries rp.
Proof.
  unfold retryPolicy_ShouldRetry. destruct (negb _); [done|]. destruct (Z.leb_spec (rp_maxRetries rp) at_); [done|lia].
Qed.
Lemma tri_retry_child R `{!Weaker R} p id b r iso : Tri (Inv c) R iso (λ _, True) →
  Tri (Inv c) R (retry_child p id b r iso) (λ _, True).
Proof.
  intros Hiso. unfold retry_child, may_retry. eapply tri_bind; [apply _|tri_leaf|intros ch Hch].
  eapply (tri_bind _ _ _ _ (λ o, ∀ rp, o = Some rp → rc_retry c = Some rp ∧ rp_enabled rp = true ∧
            metadataInt (q_Metadata ch) metaRetryAttempt + 1 ≤ rp_maxRetries rp)).
  - eapply tri_bind; [apply _|tri_leaf|intros pm (w & HI & ->)]. apply tri_ret; [apply _|].
    intros rp. destruct (getRetryPolicy _) as [rp'|] eqn:E; [|done].
    destruct (retryPolicy_ShouldRetry _ _ _) eqn:Es; [|done]. intros [= ->].
    destruct (retry_policy_conf _ _ HI E). split_and!; [done..|]. by eapply should_retry.
  - intros o Ho. destruct o as [rp|]; [|tri_leaf]. destruct (Ho rp eq_refl) as (? & ? & ?).
    eapply tri_bind; [apply _|tri_leaf|intros o _]. destruct o as [q|]; [|tri_leaf].
    eapply tri_bindT; [apply _|done|intros _]. tri. by eapply tri_scheduleRetry.
Qed.
#[local] Hint Resolve tri_retry_child : tri.
Lemma tri_retrySyncTimeout R `{!Weaker R} p id : Tri (Inv c) R (maybeRetrySyncTimeout p id) (λ _, True).
Proof. unfold maybeRetrySyncTimeout, isolateFailedSyncAttempt. tri. Qed.
Lemma tri_retryAsyncTimeout R `{!Weaker R} p id : Tri (Inv c) R (maybeRetryAsyncTimeout p id) (λ _, True).
Proof. unfold maybeRetryAsyncTimeout. tri. Qed.
Lemma tri_retryStart R `{!Weaker R} p r : Tri (Inv c) R (maybeRetrySyncStartFailure p r) (λ _, True).
Proof. unfold maybeRetrySyncStartFailure, isolateFailedSyncAttempt. tri. Qed.
#[local] Hint Resolve tri_retrySyncTimeout tri_retryAsyncTimeout tri_retryStart : tri.
Lemma tri_retryDependency R `{!Weaker R} p r d : Tri (Inv c) R (maybeRetrySyncDependencyFailure p r d) (λ _, True).
Proof. unfold maybeRetrySyncDependencyFailure. tri. Qed.
Lemma tri_retryOverhead R `{!Weaker R} p evt r : data_ok lim (ev_Data evt) →
  Tri (Inv c) R (maybeRetrySyncCallerOverheadFailure p evt r) (λ _, True).
Proof.
  intros [Hd _]. unfold maybeRetrySyncCallerOverheadFailure. cbn zeta.
  eapply tri_bind; [apply _|tri_leaf|intros pm (w & HI & ->)].
  destruct (getRetryPolicy _) as [rp|] eqn:E; [|tri_leaf]. destruct (retry_policy_conf _ _ HI E).
  tri. eapply tri_scheduleRetry; [apply _|done..|]. apply should_retry with r. by apply negb_false_iff.
Qed.
#[local] Hint Resolve tri_retryDependency tri_retryOverhead : tri.

(** ** Spawning *)

Lemma copy_keys_lookup keys from k : k ∉ keys → ∀ md, copy_keys keys from md !! k = md !! k.
Proof.
  unfold copy_keys. induction keys as [|k' keys IH]; intros Hk md; cbn [foldl]; [done|].
  rewrite not_elem_of_cons in Hk. destruct Hk as [Hne Hk]. rewrite IH by done.
  destruct (from !! k'); [by rewrite lookup_insert_ne|done].
Qed.
(** What the metadata of a spawned request says under the keys of the invariant. *)
Lemma spawn_meta_lookup pmd topo td ad ia tm at_ lg r k : k ∈ ["trace_depth"; "async_depth"; metaDESFinalized] →
  (q_Metadata (spawn_meta pmd topo td ad ia tm at_ lg r)) !! k =
  (<["async_depth" := DInt ad]> (<["trace_depth" := DInt td]> (q_Metadata r))) !! k.
Proof.
  intros Hk. unfold spawn_meta. cbn zeta.
  assert (Hn : (k ∉ workload_keys) ∧ aget k (known_topology topo) = None ∧ k ≠ "downstream_timeout_ms" ∧ k ≠ metaIsRetry
    ∧ k ≠ metaLogicalCallID ∧ k ≠ metaRetryAttempt ∧ k ≠ metaDownstreamAsync).
  { repeat (apply elem_of_cons in Hk as [->|Hk]; [|]); try (by apply elem_of_nil in Hk);
      (split; [unfold workload_keys; by rewrite !not_elem_of_cons; split_and!; try apply not_elem_of_nil|split; [by apply aget_known_topology|done]]). }
  destruct Hn as (Hw & Ht & H1 & H2 & H3 & H4 & H5).
  match goal with |- (q_Metadata (r <| q_Metadata := ?m |>)) !! k = ?rhs => change (m !! k = rhs) end.
  destruct (fltb f0 tm); [rewrite lookup_insert_ne by done|];
    rewrite lookup_union_r by (by rewrite mapOf_lookup); rewrite copy_keys_lookup by done;
    (destruct (0 <? at_); [rewrite lookup_insert_ne by done|]);
    by rewrite !(lookup_insert_ne _ metaLogicalCallID), !(lookup_insert_ne _ metaRetryAttempt),
         !(lookup_insert_ne _ metaDownstreamAsync) by done.
Qed.
Lemma depths_safe f td ad : depths_ok lim td ad →
  (∀ r k, k ∈ ["trace_depth"; "async_depth"; metaDESFinalized] →
     q_Metadata (f r) !! k = (<["async_depth" := DInt ad]> (<["trace_depth" := DInt td]> (q_Metadata r))) !! k) →
  safe_update c f.
Proof.
  intros Hd Hf r. unfold depth_ok, is_finalized, metadataInt, metadataBool. rewrite !Hf by set_solver. split.
  - intros _. rewrite (lookup_insert_ne _ "async_depth" "trace_depth") by done. by rewrite !lookup_insert_eq.
  - by rewrite !(lookup_insert_ne _ _ metaDESFinalized) by done.
Qed.
Lemma tri_dependencyFailure p d s t : Tri (Inv c) Grow (spawn_dependency_failure p d s t) (λ _, True).
Proof. unfold spawn_dependency_failure. tri. Qed.
#[local] Hint Resolve tri_dependencyFailure : tri.
Lemma start_data_ok p i : data_ok lim (start_data p i).
Proof. unfold start_data. data_literal. Qed.
#[local] Hint Resolve start_data_ok : tri.
Lemma tri_spawn p s e td ad ia tm at_ lg topo : depths_ok lim td ad →
  Tri (Inv c) Grow (execDownstreamSpawn p s e td ad ia tm at_ lg topo) (λ _, True).
Proof.
  intros Hd. unfold execDownstreamSpawn, ScheduleAt. tri; try (by apply tri_ScheduleAtPriority; [apply _|done|data_literal]).
  all: apply tri_update; [apply _|]; apply (depths_safe _ td ad Hd); intros r k Hk;
    by rewrite spawn_meta_lookup.
Qed.
Lemma tri_spawnEvent p s data : data_ok lim data → Tri (Inv c) Grow (execDownstreamSpawnFromEvent p s data) (λ _, True).
Proof. intros [Hd _]. by apply tri_spawn. Qed.
#[local] Hint Resolve tri_spawnEvent : tri.

(** ** Caller overhead *)

Lemma tri_retrySpawn p call td ad ia at_ lg topo : depths_ok lim td ad →
  Tri (Inv c) Grow (execRetrySpawnImmediate p call td ad ia at_ lg topo) (λ _, True).
Proof.
  intros Hd. unfold execRetrySpawnImmediate. tri. eapply tri_ignore, tri_spawnEvent.
  split_and!; literal_map; done.
Qed.
Lemma tri_reserve_overhead R `{!Weaker R} p t x : Tri (Inv c) R (reserve_overhead p t x) (λ _, True).
Proof.
  unfold reserve_overhead. destruct (fleb _ _); [tri_leaf|]. eapply tri_bind; [apply _|tri_leaf|intros r _].
  destruct (asString _ _) as [i|]; [|tri_leaf]. destruct (is_empty i); [tri_leaf|].
  eapply tri_bind; [apply _|tri_leaf|intros m (w & HI & ->)].
  destruct (ResourceManager_ReserveCPUWork _ _ _ _) as [[[a b] m']|e|] eqn:E; tri.
  apply tri_replace_rm; [apply _|]. eapply resources_eq; [by eapply bq_ReserveCPUWork|apply HI].
Qed.
#[local] Hint Resolve tri_retrySpawn tri_reserve_overhead : tri.
Lemma tri_schedule_overhead R `{!Weaker R} p s a b d : data_ok lim d →
  Tri (Inv c) R (schedule_overhead p s a b d) (λ _, True).
Proof. intros Hd. unfold schedule_overhead, ScheduleAt. tri. Qed.
#[local] Hint Resolve tri_schedule_overhead : tri.
Lemma overhead_data_ok r call td ad ia fr at_ lg topo x i a b extra : depths_ok lim td ad →
  aget "trace_depth" extra = None → aget "async_depth" extra = None → aget "msg_metadata" extra = None →
  aget "metadata" extra = None →
  data_ok lim (overhead_data r call td ad ia fr at_ lg topo x i a b extra).
Proof.
  intros Hd E1 E2 E3 E4. unfold overhead_data. split_and!; unfold nested_ok;
  rewrite ?depth_mapOf, ?mapOf_lookup, !aget_app, ?E1, ?E2, ?E3, ?E4; literal_map; done.
Qed.
Lemma tri_withOverhead p call t td ad ia fr at_ lg topo : depths_ok lim td ad →
  Tri (Inv c) Grow (scheduleDownstreamWithCallerOverhead p call t td ad ia fr at_ lg topo) (λ _, True).
Proof.
  intros Hd. unfold scheduleDownstreamWithCallerOverhead. tri.
  all: apply tri_schedule_overhead; [apply _|]; by apply overhead_data_ok.
Qed.
#[local] Hint Resolve tri_withOverhead : tri.

(** ** Handlers of calls *)

Lemma tri_need R `{!Weaker R} evt s : Tri (Inv c) R (need_request evt s) (λ _, True).
Proof. unfold need_request. tri. Qed.
Lemma tri_resolvedCall R `{!Weaker R} p s e : Tri (Inv c) R (resolved_call p s e) (λ _, True).
Proof. unfold resolved_call. tri. Qed.
#[local] Hint Resolve tri_need tri_resolvedCall : tri.
Lemma tri_try_rm R `{!Weaker R} f : (∀ m m', f m = Ok m' → mg_brokerQueues m' = mg_brokerQueues m) →
  Tri (Inv c) R (try_rm f) (λ _, True).
Proof.
  intros Hf. unfold try_rm. eapply tri_bind; [apply _|tri_leaf|intros m (w & HI & ->)].
  destruct (f _) as [m'|e|] eqn:E; tri. apply tri_replace_rm; [apply _|].
  eapply resources_eq; [by apply Hf|apply HI].
Qed.
#[local] Hint Resolve tri_try_rm tri_mod_rm_eq bq_AllocateCPU bq_AllocateMemory bq_ReleaseCPU bq_ReleaseMemory : tri.
Lemma tri_handleDownstreamCall evt : data_ok lim (ev_Data evt) → Tri (Inv c) Grow (handleDownstreamCall evt) (λ _, True).
Proof.
  intros Hd. unfold handleDownstreamCall. tri. apply tri_spawnEvent. destruct (_ !! _); [done|].
  by apply data_insert.
Qed.
Lemma tri_handleDownstreamRetry evt : data_ok lim (ev_Data evt) → Tri (Inv c) Grow (handleDownstreamRetry evt) (λ _, True).
Proof. intros [Hd _]. unfold handleDownstreamRetry. tri. Qed.
Lemma tri_handleDownstreamTimeout evt : Tri (Inv c) Grow (handleDownstreamTimeout evt) (λ _, True).
Proof. unfold handleDownstreamTimeout. tri. Qed.
Lemma tri_rollback R `{!Weaker R} i a b : Tri (Inv c) R (mod_rm (ResourceManager_RollbackCPUTailReservation i a b)) (λ _, True).
Proof. by apply tri_mod_rm_eq; [apply _|]. Qed.
#[local] Hint Resolve tri_rollback : tri.
Lemma tri_handleOverheadStart evt : data_ok lim (ev_Data evt) →
  Tri (Inv c) Grow (handleDownstreamCallerOverheadStart evt) (λ _, True).
Proof. intros Hd. unfold handleDownstreamCallerOverheadStart. tri. Qed.
Lemma tri_handleOverheadEnd evt : data_ok lim (ev_Data evt) →
  Tri (Inv c) Grow (handleDownstreamCallerOverheadEnd evt) (λ _, True).
Proof. intros [Hd _]. unfold handleDownstreamCallerOverheadEnd. tri. Qed.

(** ** Brokers *)

Lemma tri_on_queue R `{!Weaker R} key f : (∀ s, messages_ok lim s → messages_ok lim (f s)) →
  Tri (Inv c) R (on_queue key f) (λ _, True).
Proof.
  intros Hf. apply tri_mod_rm; [apply _|]. intros m [Hq Ht]. split; cbn; [|done].
  intros k s Hs. apply lookup_alter_Some in Hs as [(_ & s0 & E & ->)|[_ E]]; [|by eapply Hq].
  apply Hf. by eapply Hq.
Qed.
Lemma tri_on_topic R `{!Weaker R} key f : (∀ s, messages_ok lim s → messages_ok lim (f s)) →
  Tri (Inv c) R (on_topic key f) (λ _, True).
Proof.
  intros Hf. apply tri_mod_rm; [apply _|]. intros m [Hq Ht]. split; cbn; [done|].
  intros k s Hs. apply lookup_alter_Some in Hs as [(_ & s0 & E & ->)|[_ E]]; [|by eapply Ht].
  apply Hf. by eapply Ht.
Qed.
Lemma tri_shards R `{!Weaker R} : Tri (Inv c) R shards (λ bq, brokers_ok lim bq).
Proof.
  eapply tri_mono; [apply tri_gets; apply _|]. intros bq (w & HI & ->). apply HI.
Qed.
#[local] Hint Resolve tri_shards finished_messages offset_messages : tri.
Lemma tri_publish_topology R `{!Weaker R} evt p : Tri (Inv c) R (publish_topology evt p) (λ _, True).
Proof. unfold publish_topology. tri. Qed.
#[local] Hint Resolve tri_publish_topology : tri.
Lemma message_meta_ok data r b t topo extra : data_ok lim data → aget "trace_depth" extra = None →
  aget "async_depth" extra = None → depth_ok lim (message_meta data r b t topo extra).
Proof.
  intros [Hd _] E1 E2. unfold message_meta. cbn zeta. rewrite depth_mapOf, !aget_app, E1, E2. literal_map. exact Hd.
Qed.
Lemma tri_queue_wakeup R `{!Weaker R} b t s : Tri (Inv c) R (queue_wakeup b t s) (λ _, True).
Proof. unfold queue_wakeup, ScheduleAt. apply tri_ScheduleAtPriority; [apply _|done|data_literal]. Qed.
Lemma tri_topic_wakeup R `{!Weaker R} b t g n pt s : Tri (Inv c) R (topic_wakeup b t g n pt s) (λ _, True).
Proof. unfold topic_wakeup, ScheduleAt. apply tri_ScheduleAtPriority; [apply _|done|data_literal]. Qed.
#[local] Hint Resolve tri_queue_wakeup tri_topic_wakeup : tri.
Lemma tri_handleQueueEnqueue evt : data_ok lim (ev_Data evt) → Tri (Inv c) Grow (handleQueueEnqueue evt) (λ _, True).
Proof.
  intros Hd. unfold handleQueueEnqueue. do 4 (eapply tri_bindT; [apply _|tri_leaf|intros ?]).
  eapply (tri_bind _ _ _ _ (messages_ok lim)); [apply tri_on_rm; [apply _|]; intros m; by apply GetBrokerQueue_ok|].
  intros shard Hs. do 3 (eapply tri_bindT; [apply _|tri_leaf|intros ?]). cbn zeta.
  match goal with |- context [BrokerQueueShard_Enqueue ?msg shard] =>
    pose proof (enqueue_messages lim msg shard (message_meta_ok _ _ _ _ _ [] Hd eq_refl eq_refl) Hs) as He;
    destruct (BrokerQueueShard_Enqueue msg shard) as [res shard'] end.
  tri. by apply tri_on_queue; [apply _|].
Qed.
Lemma consumer_meta_safe msg own f : depth_ok lim (qm_Metadata msg) →
  Forall (λ kv, free_key (fst kv) = true) own → (∀ r, q_Metadata (f r) = q_Metadata r) →
  safe_update c (λ r, consumer_meta msg own (f r)).
Proof.
  intros Hd Hown Hf. apply (depths_safe _ _ _ Hd). intros r k Hk. unfold consumer_meta. cbn zeta.
  match goal with |- (q_Metadata ((f r) <| q_Metadata := ?m |>)) !! k = ?rhs => change (m !! k = rhs) end.
  assert (Hput : ∀ md a b, k ≠ a →
    match asString (qm_Metadata msg) b with
    | Some v => if is_empty v then md else <[a := DString v]> md
    | None => md
    end !! k = (md : Metadata) !! k).
  { intros md a b Ha. destruct (asString _ b) as [v|]; [|done]. destruct (is_empty v); [done|]. by rewrite lookup_insert_ne. }
  assert (Hfold : ∀ l md, Forall (λ kv, free_key (fst kv) = true) l →
    foldl (λ (md : Metadata) (kv : string * DataVal), <[fst kv := snd kv]> md) md l !! k = md !! k).
  { induction l as [|[a v] l IH]; intros md Hl; cbn [foldl]; [done|]. inversion Hl as [|? ? Ha Hl']; subst.
    rewrite IH by done. cbn [fst snd] in *. apply free_key_ne in Ha as (? & ? & ?). rewrite lookup_insert_ne; [done|].
    intros <-. repeat (apply elem_of_cons in Hk as [?|Hk]; [done|]). by apply elem_of_nil in Hk. }
  assert (Hn : k ≠ "caller_host_id" ∧ k ≠ "caller_host_zone" ∧ k ≠ "caller_instance_id" ∧ k ≠ metaLogicalCallID ∧
    (k ∉ workload_keys ++ [metaRetryAttempt])).
  { repeat (apply elem_of_cons in Hk as [->|Hk]; [|]); try (by apply elem_of_nil in Hk);
      (split_and!; [done..|]); unfold workload_keys; cbn [app]; by rewrite !not_elem_of_cons; split_and!; try apply not_elem_of_nil. }
  destruct Hn as (H1 & H2 & H3 & H4 & H5).
  rewrite !Hput, copy_keys_lookup, Hfold, Hput by done. by rewrite Hf.
Qed.
End laws.

#[export] Hint Resolve tri_draw_clamped tri_sample_delivery tri_penalty tri_sampleQueue tri_sampleTopic
  tri_sampleIO tri_profile tri_topology_penalty tri_gauges tri_record_route tri_select tri_resolveTopology
  tri_callerTopology tri_queuePublish tri_topicPublish tri_downstreamCall tri_CreateDownstream
  tri_GetDownstreamCalls tri_error tri_ingress tri_NoteSimTime tri_draining no_data tri_bounded tri_success
  tri_markSubtree tri_child_reported tri_deferred tri_notify_keep tri_notify tri_finalizeCompletion
  tri_finalizeFailure tri_propagateOverhead tri_propagateStart tri_retry_child tri_retrySyncTimeout
  tri_retryAsyncTimeout tri_retryStart tri_retryDependency tri_retryOverhead tri_dependencyFailure
  start_data_ok tri_spawnEvent tri_retrySpawn tri_reserve_overhead tri_schedule_overhead tri_withOverhead
  tri_need tri_resolvedCall tri_try_rm tri_mod_rm_eq bq_AllocateCPU bq_AllocateMemory bq_ReleaseCPU
  bq_ReleaseMemory tri_rollback tri_shards finished_messages offset_messages tri_publish_topology
  tri_queue_wakeup tri_topic_wakeup : tri.
#[export] Hint Extern 0 (Tri _ _ (breaker_failure _ _ _) _) => apply (tri_on_breaker _ _) : tri.
#[export] Hint Extern 0 (Tri _ _ (breaker_success _ _ _) _) => apply (tri_on_breaker _ _) : tri.
