(* ===== verification/HandlerSteps.v ===== *)
(** The remaining handlers keep the invariant of [HandlerInv]: broker deliveries and the
    request's arrival, start and completion. *)
From S2P Require Import Prelude GoFloat Utils EventQueue RunManager Engine Policy Config Graph.
From S2P Require Import BrokerQueue Instance ResourceManager Routing Collector SimState.
From S2P Require Import ServiceModel Lifecycle Completion Brokers Handlers HandlerInv HandlerLaws.
From Stdlib Require Import SpecFloat.
#[local] Open Scope string_scope.
#[local] Open Scope list_scope.
#[local] Open Scope Z_scope.
#[local] Open Scope sim_scope.

Section steps.
Context (c : RunConf).
Abbreviation lim := (rc_limits c).

(** * Queues *)

Lemma tri_create_consumer p s e on_error : Tri (Inv c) Grow on_error (λ _, True) →
  Tri (Inv c) Grow (create_consumer p s e on_error) (λ _, True).
Proof.
  intros Hon w HI. unfold create_consumer. pose proof (tri_CreateDownstream c p s e w HI) as H.
  destruct (CreateDownstreamRequest p s e w) as [a w1|err w1| |]; try done.
  destruct H as [HI1 HG].
  assert (HT : Tri (Inv c) Grow (on_error ;;* @throw positive err) (λ _, True)) by tri.
  specialize (HT w1 HI1). destruct ((on_error ;;* throw err) w1) as [a w2|e2 w2| |]; try done.
  - destruct HT as (? & ? & ?). split_and!; [done|by etrans|done].
  - destruct HT as (? & ?). split; [done|by etrans].
Qed.
Lemma ack_data_ok ch b t msg extra : depth_ok lim (qm_Metadata msg) → aget "trace_depth" extra = None →
  aget "async_depth" extra = None → aget "metadata" extra = None → data_ok lim (ack_data ch b t msg extra).
Proof.
  intros Hd E1 E2 E3. unfold ack_data. split_and!; unfold nested_ok;
    rewrite ?depth_mapOf, ?mapOf_lookup, !aget_app, ?E1, ?E2, ?E3; literal_map; try done. apply depths_zero.
Qed.
Lemma redelivered_ok t data o : data_ok lim data → depth_ok lim (qm_Metadata (redelivered t data o)).
Proof.
  intros (_ & Hn & _). unfold redelivered, nested_ok in *. cbn [qm_Metadata].
  destruct (data !! "msg_metadata") as [[]|]; try done; apply (depth_mapOf lim []), depths_zero.
Qed.
Lemma tri_on_finished R `{!Weaker R} k :
  Tri (Inv c) R (on_queue k BrokerQueueShard_ConsumerFinished) (λ _, True) ∧
  Tri (Inv c) R (on_topic k BrokerQueueShard_ConsumerFinished) (λ _, True).
Proof. split; [apply tri_on_queue|apply tri_on_topic]; try apply _; apply finished_messages. Qed.
Lemma tri_replace_shard R `{!Weaker R} k s : messages_ok lim s →
  Tri (Inv c) R (on_queue k (λ _, s)) (λ _, True) ∧ Tri (Inv c) R (on_topic k (λ _, s)) (λ _, True).
Proof. intros Hs. split; [apply tri_on_queue|apply tri_on_topic]; try apply _; done. Qed.
Lemma tri_requeue R `{!Weaker R} k msg : depth_ok lim (qm_Metadata msg) →
  Tri (Inv c) R (on_queue k (BrokerQueueShard_RequeueFront msg)) (λ _, True) ∧
  Tri (Inv c) R (on_topic k (BrokerQueueShard_RequeueFront msg)) (λ _, True).
Proof. intros Hs. split; [apply tri_on_queue|apply tri_on_topic]; try apply _; intros s; by apply requeue_messages. Qed.
(** A shard operation that leaves the backlog alone. *)
Lemma tri_same_messages R `{!Weaker R} k f : (∀ s, sh_messages (f s) = sh_messages s) →
  Tri (Inv c) R (on_queue k f) (λ _, True) ∧ Tri (Inv c) R (on_topic k f) (λ _, True).
Proof.
  intros Hf. split; [apply tri_on_queue|apply tri_on_topic]; try apply _; intros s; unfold messages_ok; by rewrite Hf.
Qed.
#[local] Hint Extern 1 (Tri _ _ (on_queue _ BrokerQueueShard_ConsumerFinished) _) => apply tri_on_finished; apply _ : tri.
#[local] Hint Extern 1 (Tri _ _ (on_topic _ BrokerQueueShard_ConsumerFinished) _) => apply tri_on_finished; apply _ : tri.
#[local] Hint Extern 1 (Tri _ _ (on_queue _ (λ _, _)) _) => by apply tri_replace_shard; [apply _|] : tri.
#[local] Hint Extern 1 (Tri _ _ (on_topic _ (λ _, _)) _) => by apply tri_replace_shard; [apply _|] : tri.
#[local] Hint Extern 1 (Tri _ _ (on_queue _ (BrokerQueueShard_RequeueFront _)) _) =>
  apply tri_requeue; [apply _|first [done|by apply redelivered_ok]] : tri.
#[local] Hint Extern 1 (Tri _ _ (on_topic _ (BrokerQueueShard_RequeueFront _)) _) =>
  apply tri_requeue; [apply _|first [done|by apply redelivered_ok]] : tri.
#[local] Hint Extern 2 (Tri _ _ (on_queue _ _) _) => by apply tri_same_messages; [apply _|] : tri.
#[local] Hint Extern 2 (Tri _ _ (on_topic _ _) _) => by apply tri_same_messages; [apply _|] : tri.
#[local] Hint Resolve tri_create_consumer : tri.
Lemma tri_handleQueueDequeue evt : Tri (Inv c) Grow (handleQueueDequeue evt) (λ _, True).
Proof.
  unfold handleQueueDequeue, ScheduleAt. do 3 (eapply tri_bindT; [apply _|tri_leaf|intros ?]). cbn zeta.
  eapply tri_bind; [apply _|tri_leaf|intros bq Hbq].
  destruct (BrokerQueues_GetShard _ _ bq) as [shard|] eqn:Es; [|tri_leaf].
  destruct (pop_messages lim shard) as [Hs Hm]; [by eapply get_shard_ok|].
  destruct (BrokerQueueShard_TryPopForDispatch shard) as [o shard']. cbn [fst snd] in *.
  eapply tri_bindT; [apply _|tri_leaf|intros _]. destruct o as [msg|]; [|tri_leaf].
  specialize (Hm msg eq_refl). tri.
  - apply tri_update; [apply _|]. apply consumer_meta_safe; [done| |done]. by repeat constructor.
  - apply tri_ScheduleAtPriority; [apply _|done|]. by apply ack_data_ok.
Qed.
Lemma tri_unacked R `{!Weaker R} p t : Tri (Inv c) R (fail_unacked p t) (λ _, True).
Proof. unfold fail_unacked. tri. Qed.
#[local] Hint Resolve tri_unacked : tri.
Lemma tri_handleQueueAckTimeout evt : data_ok lim (ev_Data evt) → Tri (Inv c) Grow (handleQueueAckTimeout evt) (λ _, True).
Proof.
  intros Hd. unfold handleQueueAckTimeout, ScheduleAt. tri.
  apply tri_ScheduleAtPriority; [apply _|done|data_literal].
Qed.
Lemma tri_handleQueueDLQ evt : Tri (Inv c) Grow (handleQueueDLQ evt) (λ _, True).
Proof. unfold handleQueueDLQ. tri. Qed.
Lemma tri_handleQueueRedelivery evt : Tri (Inv c) Grow (handleQueueRedelivery evt) (λ _, True).
Proof. unfold handleQueueRedelivery. tri. Qed.
Lemma tri_queueDone R `{!Weaker R} p t : Tri (Inv c) R (metaQueueConsumerDone p t) (λ _, True).
Proof. unfold metaQueueConsumerDone. tri. Qed.
#[local] Hint Resolve tri_queueDone : tri.

(** * Topics *)

Lemma tri_partition R `{!Weaker R} b t n d : Tri (Inv c) R (topicPartitionForPublish b t n d) (λ p, 0 ≤ p < Z.max 1 n).
Proof.
  unfold topicPartitionForPublish. destruct (Z.leb_spec n 1); [apply tri_ret; [apply _|lia]|].
  cbn zeta. destruct (negb _).
  - apply tri_ret; [apply _|].
    assert (Hh : ∀ k h, - n < h < n → - n < partition_hash n h k < n).
    { induction k as [|a k IH]; intros h Hh; cbn [partition_hash]; [done|]. apply IH.
      pose proof (Z.rem_bound_abs (wrap64 (h * 31 + Z.of_N (N_of_ascii a))) n). lia. }
    specialize (Hh (metadataString d "partition_key") 0). destruct (Z.ltb_spec (partition_hash n 0 (metadataString d "partition_key")) 0); lia.
  - eapply tri_bind; [apply _|tri_leaf|intros cur (w & HI & ->)]. cbn zeta.
    assert (H0 : 0 ≤ default 0 (st_topicPartitionCursor (w_st w) !! (b +:+ "|" +:+ t))).
    { destruct (_ !! _) as [z|] eqn:E; [|done]. by apply (inv_cursor _ _ HI _ _ E). }
    eapply tri_bindT; [apply _| |intros _; apply tri_ret; [apply _|]; pose proof (Z.rem_bound_pos _ n H0); lia].
    apply tri_modify; [apply _|]. intros s. split; cbn; auto. intros Hc. apply map_Forall_insert_2; [|done].
    apply Z.rem_bound_pos; lia.
Qed.
Lemma tri_retention R `{!Weaker R} b t p g eff : Tri (Inv c) R (scheduleTopicShardRetention b t p g eff) (λ _, True).
Proof.
  unfold scheduleTopicShardRetention, ScheduleAt. tri. apply tri_ScheduleAtPriority; [apply _|done|data_literal].
Qed.
Lemma tri_backlog R `{!Weaker R} s t l : Tri (Inv c) R (record_backlog s t l) (λ _, True).
Proof. unfold record_backlog. tri. Qed.
Lemma tri_lag R `{!Weaker R} b t p s tm l : Tri (Inv c) R (record_lag b t p s tm l) (λ _, True).
Proof. unfold record_lag. tri. Qed.
#[local] Hint Resolve tri_retention tri_backlog tri_lag : tri.
Lemma tri_handleRetention evt : Tri (Inv c) Grow (handleTopicRetentionExpire evt) (λ _, True).
Proof.
  unfold handleTopicRetentionExpire. do 3 (eapply tri_bindT; [apply _|tri_leaf|intros ?]). cbn zeta.
  destruct (_ <=? _); [tri_leaf|]. eapply tri_bind; [apply _|tri_leaf|intros bq Hbq].
  destruct (BrokerQueues_GetTopicSubscriberPartitionShard _ _ _ _ bq) as [shard|] eqn:Es; [|tri_leaf].
  match goal with |- context [BrokerQueueShard_ExpireQueuedByRetention ?a ?b ?s] =>
    pose proof (expire_messages lim a b s) as Hs; destruct (BrokerQueueShard_ExpireQueuedByRetention a b s) as [removed shard'] end.
  cbn [snd] in Hs. specialize (Hs (get_topic_ok _ _ _ _ _ _ _ Hbq Es)).
  apply (offsets_messages lim removed) in Hs. tri.
Qed.
Lemma tri_publish_to evt p b t eff pt o tm sub : data_ok lim (ev_Data evt) →
  Tri (Inv c) Grow (publish_to evt p b t eff pt o tm sub) (λ _, True).
Proof.
  intros Hd. unfold publish_to. cbn zeta. eapply tri_bindT; [apply _|tri_leaf|intros ?].
  eapply (tri_bind _ _ _ _ (messages_ok lim)); [apply tri_on_rm; [apply _|]; intros m; by apply GetBrokerTopic_ok|].
  intros shard Hs. do 2 (eapply tri_bindT; [apply _|tri_leaf|intros ?]). cbn zeta.
  match goal with |- context [BrokerQueueShard_Enqueue ?msg shard] =>
    assert (He : messages_ok lim (snd (BrokerQueueShard_Enqueue msg shard)));
      [by apply enqueue_messages; [apply message_meta_ok|]|];
    destruct (BrokerQueueShard_Enqueue msg shard) as [res shard'] end.
  cbn [snd] in He. pose proof (λ o, offset_messages lim o shard' He) as Ho. tri.
  all: apply tri_replace_shard; [apply _|]; by destruct (er_DroppedOldest res).
Qed.
Lemma tri_handleTopicPublish evt : data_ok lim (ev_Data evt) → Tri (Inv c) Grow (handleTopicPublish evt) (λ _, True).
Proof.
  intros Hd. unfold handleTopicPublish. do 5 (eapply tri_bindT; [apply _|tri_leaf|intros ?]). cbn zeta.
  do 2 (eapply tri_bindT; [apply _|tri_leaf|intros ?]).
  eapply tri_bind; [apply _|eapply tri_partition; apply _|intros pt _].
  eapply (tri_bind _ _ _ _ (λ _, True)).
  - apply tri_on_rm; [apply _|]. intros m [Hq Ht]. by split.
  - intros o _. apply tri_mfor; [apply _|]. intros sub _. by apply tri_publish_to.
Qed.
Lemma tri_handleTopicDequeue evt : Tri (Inv c) Grow (handleTopicDequeue evt) (λ _, True).
Proof.
  unfold handleTopicDequeue, ScheduleAt. do 3 (eapply tri_bindT; [apply _|tri_leaf|intros ?]). cbn zeta.
  eapply tri_bind; [apply _|tri_leaf|intros bq Hbq].
  destruct (BrokerQueues_GetTopicSubscriberPartitionShard _ _ _ _ bq) as [shard|] eqn:Es; [|tri_leaf].
  destruct (pop_messages lim shard) as [Hs Hm]; [by eapply get_topic_ok|].
  destruct (BrokerQueueShard_TryPopForDispatch shard) as [o shard']. cbn [fst snd] in *.
  eapply tri_bindT; [apply _|tri_leaf|intros _]. destruct o as [msg|]; [|tri_leaf].
  specialize (Hm msg eq_refl). tri.
  - apply tri_update; [apply _|]. apply consumer_meta_safe; [done| |done]. by repeat constructor.
  - apply tri_ScheduleAtPriority; [apply _|done|]. by apply ack_data_ok.
Qed.
Lemma tri_handleTopicAckTimeout evt : data_ok lim (ev_Data evt) → Tri (Inv c) Grow (handleTopicAckTimeout evt) (λ _, True).
Proof.
  intros Hd. unfold handleTopicAckTimeout, ScheduleAt. tri.
  apply tri_ScheduleAtPriority; [apply _|done|data_literal].
Qed.
Lemma tri_handleTopicDLQ evt : Tri (Inv c) Grow (handleTopicDLQ evt) (λ _, True).
Proof.
  unfold handleTopicDLQ. do 2 (eapply tri_bindT; [apply _|tri_leaf|intros ?]). cbn zeta.
  eapply tri_bindT; [apply _| |intros _; tri_leaf].
  apply tri_on_topic; [apply _|]. intros s Hs. by apply offset_messages.
Qed.
Lemma tri_topicDone R `{!Weaker R} p t : Tri (Inv c) R (metaTopicConsumerDone p t) (λ _, True).
Proof.
  unfold metaTopicConsumerDone. eapply tri_bindT; [apply _|tri_leaf|intros r]. cbn zeta.
  destruct (_ || _); [tri_leaf|]. eapply tri_bind; [apply _|tri_leaf|intros bq [_ Hbq]].
  destruct (BrokerQueues_GetTopicShardByKey _ bq) as [shard|] eqn:Es; [|tri_leaf].
  assert (Hs : messages_ok lim (BrokerQueueShard_RecordTopicOffsetProcessed (metadataInt64 (q_Metadata r) metaTopicOffset)
                                  (BrokerQueueShard_ConsumerFinished shard)))
    by (apply offset_messages, finished_messages; by apply (Hbq _ _ Es)).
  eapply tri_bindT; [apply _|tri_leaf|intros _]. destruct (topic_key_parts _) as [[[b tp] pt] g]. tri.
Qed.
#[local] Hint Resolve tri_topicDone : tri.

(** * Requests *)

Lemma arrival_meta_ok data : data_ok lim data → depth_ok lim (arrival_meta data).
Proof.
  intros (_ & _ & Hm). unfold arrival_meta, nested_ok in *. cbn zeta.
  match goal with |- context [_ ∪ ?m] => set (base := m) end.
  assert (Hb : metadataInt base "trace_depth" = 0 ∧ metadataInt base "async_depth" = 0).
  { unfold base. destruct (data !! "traffic_class"), (data !! "source_kind"), (data !! "from");
      split; rewrite ?metadataInt_insert_ne by done; unfold metadataInt;
      rewrite ?(lookup_insert_ne _ "async_depth" "trace_depth") by done; by rewrite lookup_insert_eq. }
  destruct Hb as [Hb1 Hb2].
  assert (Hbase : depth_ok lim base) by (unfold depth_ok; rewrite Hb1, Hb2; apply depths_zero).
  destruct (data !! "metadata") as [[]|]; try done.
  assert (Hu : ∀ k, metadataInt base k = 0 → metadataInt (m ∪ base) k = metadataInt m k).
  { intros k Hk. unfold metadataInt in *. destruct (m !! k) as [v|] eqn:E.
    - by rewrite (lookup_union_Some_l _ _ _ v E).
    - by rewrite lookup_union_r. }
  unfold depth_ok. by rewrite !Hu.
Qed.
Lemma tri_reject_arrival p l r t msg : Tri (Inv c) Grow (reject_arrival p l r t msg) (λ _, True).
Proof. unfold reject_arrival. tri. Qed.
#[local] Hint Resolve tri_reject_arrival : tri.
Lemma tri_limiter R `{!Weaker R} s e t : Tri (Inv c) R (limiter_allows s e t) (λ _, True).
Proof. by apply tri_allows. Qed.
Lemma tri_breaker R `{!Weaker R} s e t : Tri (Inv c) R (breaker_allows s e t) (λ _, True).
Proof. by apply tri_allows. Qed.
#[local] Hint Resolve tri_limiter tri_breaker : tri.
Lemma tri_handleArrival evt : data_ok lim (ev_Data evt) → Tri (Inv c) Grow (handleRequestArrival evt) (λ _, True).
Proof.
  intros Hd. unfold handleRequestArrival, ScheduleAt. tri; try (apply tri_alloc; by apply arrival_meta_ok).
Qed.
Lemma tri_start_instance R `{!Weaker R} p evt s t : Tri (Inv c) R (start_instance p evt s t) (λ _, True).
Proof. unfold start_instance. tri. Qed.
Lemma tri_seed R `{!Weaker R} p i : Tri (Inv c) R (seed_topology p i) (λ _, True).
Proof. unfold seed_topology. tri. Qed.
Lemma tri_costs R `{!Weaker R} p s pr i t : Tri (Inv c) R (start_costs p s pr i t) (λ _, True).
Proof.
  unfold start_costs. do 2 (eapply tri_bindT; [apply _|tri_leaf|intros ?]). cbn zeta.
  match goal with |- Tri _ _ (let '(_, _) := ?x in _) _ => destruct x end. tri.
Qed.
Lemma tri_reject_start R `{!Weaker R} p r t : Tri (Inv c) R (reject_start p r t) (λ _, True).
Proof. unfold reject_start. tri. Qed.
Lemma tri_local_failure R `{!Weaker R} p t : Tri (Inv c) R (local_failure p t) (λ _, True).
Proof. unfold local_failure. tri. Qed.
#[local] Hint Resolve tri_start_instance tri_seed tri_costs tri_reject_start tri_local_failure : tri.
Lemma tri_slot R `{!Weaker R} p s e i x t : Tri (Inv c) R (start_slot p s e i x t) (λ _, True).
Proof.
  unfold start_slot, ScheduleAt. eapply tri_bind; [apply _|tri_leaf|intros r _].
  destruct (deferred_slot _); [tri|]. eapply tri_bind; [apply _|tri_leaf|intros m (w & HI & ->)].
  destruct (ResourceManager_ReserveCPUWork _ _ _ _) as [[[a b] m']|err|] eqn:E; tri.
  apply tri_replace_rm; [apply _|]. eapply resources_eq; [by eapply bq_ReserveCPUWork|apply HI].
Qed.
Lemma tri_io R `{!Weaker R} p s e i a t : Tri (Inv c) R (start_io p s e i a t) (λ _, True).
Proof.
  unfold start_io. destruct (negb _); [tri_leaf|]. cbn zeta. eapply tri_bindT; [apply _|tri_leaf|intros d].
  eapply tri_bind; [apply _|tri_leaf|intros m (w & HI & ->)].
  destruct (ResourceManager_ReserveDBWork _ _ _ _ _) as [[[[[x y] z] u] m']|err|] eqn:E; tri.
  apply tri_replace_rm; [apply _|]. eapply resources_eq; [by eapply bq_ReserveDBWork|apply HI].
Qed.
#[local] Hint Resolve tri_slot tri_io : tri.
Lemma tri_run p s e pr i x y z a b t : Tri (Inv c) Grow (start_run p s e pr i x y z a b t) (λ _, True).
Proof.
  unfold start_run, ScheduleAt. tri. apply tri_update; [apply _|]. intros r. split.
  - intros Hr. by apply depth_insert.
  - intros Hr. unfold is_finalized, set_meta. cbn. by rewrite metadataBool_insert_ne.
Qed.
#[local] Hint Resolve tri_run : tri.
Lemma tri_handleStart evt : Tri (Inv c) Grow (handleRequestStart evt) (λ _, True).
Proof. unfold handleRequestStart. tri. Qed.
Lemma tri_dequeueNext R `{!Weaker R} i s e t : Tri (Inv c) R (dequeueNextRequestForInstance i s e t) (λ _, True).
Proof.
  unfold dequeueNextRequestForInstance, ScheduleAt. eapply (tri_bind _ _ _ _ (λ _, True)).
  - apply tri_on_rm; [apply _|]. intros m Hm. split; [|done]. eapply resources_eq; [apply bq_Dequeue|done].
  - intros o _. tri. apply tri_ScheduleAtPriority; [apply _|done|data_literal].
Qed.
Lemma tri_release R `{!Weaker R} p s t : Tri (Inv c) R (release_resources p s t) (λ _, True).
Proof. unfold release_resources. tri. Qed.
Lemma tri_hop R `{!Weaker R} r x t l : Tri (Inv c) R (record_hop r x t l) (λ _, True).
Proof. unfold record_hop. tri. Qed.
#[local] Hint Resolve tri_dequeueNext tri_release tri_hop : tri.
Lemma tri_calls p td ad ia topo calls : depths_ok lim td ad → ∀ t m,
  Tri (Inv c) Grow (schedule_calls p td ad ia topo calls t m) (λ _, True).
Proof.
  intros Hd. induction calls as [|call calls IH]; intros t m; cbn [schedule_calls]; [tri_leaf|].
  eapply tri_bindT; [apply _|tri_leaf|intros ackT]. apply IH.
Qed.
(** Partitioning keeps the depths within the limits. *)
Lemma partition_depths services calls td ad x y : partitionDownstreamFiltered lim services calls td ad = (x, y) →
  depths_ok lim td ad → (x ≠ [] → depths_ok lim (td + 1) (ad + 1)) ∧ (y ≠ [] → depths_ok lim (td + 1) ad).
Proof.
  revert x y. induction calls as [|call calls IH]; intros x y; cbn [partitionDownstreamFiltered].
  { by intros [= <- <-]. }
  destruct (partitionDownstreamFiltered lim services calls td ad) as [a s]. intros E Hd.
  destruct (IH a s eq_refl Hd) as [Ha Hs]. cbn zeta in E.
  destruct (call_within _ _ _ _) eqn:Ew; cbn [negb] in E; [|by simplify_eq].
  assert (Hw : depths_ok lim (td + 1) (if call_is_async services call then ad + 1 else ad)).
  { unfold call_within, depths_ok, within_limit in *. destruct lim as [l|]; [|done].
    apply andb_true_iff in Ew as [E1%negb_true_iff E2%negb_true_iff].
    split; intros Hpos.
    - destruct (Z.ltb_spec (sl_MaxTraceDepth l) (td + 1)); [|lia]. by rewrite (proj2 (Z.ltb_lt _ _) Hpos) in E1.
    - destruct Hd as [_ Hd]. specialize (Hd Hpos). rewrite (proj2 (Z.ltb_lt _ _) Hpos) in E2.
      destruct (call_is_async services call); [|lia]. destruct (Z.ltb_spec (sl_MaxAsyncHops l) (ad + 1)); [done|lia]. }
  unfold call_is_async in Hw. destruct (usesAsyncBroker services call), (DownstreamCall_IsAsync _); cbn in E, Hw;
    injection E as <- <-; split; auto.
Qed.
Lemma tri_at_ack R `{!Weaker R} p s e t : Tri (Inv c) R (finalize_at_ack p s e t) (λ _, True).
Proof. unfold finalize_at_ack, ScheduleAt. apply tri_ScheduleAtPriority; [apply _|done|data_literal]. Qed.
#[local] Hint Resolve tri_at_ack : tri.
Lemma tri_calls_nonempty p td ad ia topo calls t m : (calls ≠ [] → depths_ok lim td ad) →
  Tri (Inv c) Grow (schedule_calls p td ad ia topo calls t m) (λ _, True).
Proof. destruct calls as [|call calls]; intros Hd; [cbn [schedule_calls]; tri_leaf|]. by apply tri_calls, Hd. Qed.
Lemma tri_complete_calls p t l : Tri (Inv c) Grow (complete_calls p t l) (λ _, True).
Proof.
  unfold complete_calls. eapply tri_bind; [apply _|tri_leaf|intros r Hr]. cbn zeta.
  eapply tri_bindT; [apply _|tri_leaf|intros calls].
  eapply tri_bind; [apply _|tri_leaf|intros st (w & HI & ->)]. unfold id. rewrite (inv_limits _ _ HI).
  destruct (partitionDownstreamFiltered _ _ _ _ _) as [a s] eqn:E.
  apply partition_depths in E as [Ha Hs]; [|done].
  do 2 (eapply tri_bindT; [apply _|tri|intros _]).
  eapply tri_bindT; [apply _|by apply tri_calls_nonempty|intros [tAfter maxAck]].
  eapply tri_bindT; [apply _|tri|intros _]. destruct s as [|sc s]; [tri|].
  eapply tri_bindT; [apply _| |intros _].
  { apply tri_modify; [apply _|]. intros s0. apply (safe_pending c (<[q_ID r := _]>)).
    intros Hp. apply map_Forall_insert_2; [unfold len; cbn; lia|done]. }
  eapply tri_bindT; [apply _|tri|intros _].
  eapply tri_bindT; [apply _|by apply tri_calls_nonempty|intros ts]. tri.
Qed.
#[local] Hint Resolve tri_complete_calls : tri.
Lemma tri_handleComplete evt : Tri (Inv c) Grow (handleRequestComplete evt) (λ _, True).
Proof. unfold handleRequestComplete. tri. Qed.
Lemma tri_handleAsyncParent evt : Tri (Inv c) Grow (handleAsyncParentFinalize evt) (λ _, True).
Proof. unfold handleAsyncParentFinalize. tri. Qed.

(** * Every handler *)

Lemma tri_handler ty h evt : handler_of ty = Some h → data_ok lim (ev_Data evt) →
  Tri (Inv c) Grow (h evt) (λ _, True).
Proof.
  intros Hh Hd. destruct ty; inversion Hh; subst h;
  eauto using tri_handleArrival, tri_handleStart, tri_handleComplete, tri_handleDownstreamCall,
    tri_handleDownstreamRetry, tri_handleOverheadStart, tri_handleOverheadEnd, tri_handleQueueEnqueue,
    tri_handleQueueDequeue, tri_handleQueueAckTimeout, tri_handleQueueRedelivery, tri_handleQueueDLQ,
    tri_handleAsyncParent, tri_handleTopicPublish, tri_handleTopicDequeue, tri_handleTopicAckTimeout,
    tri_handleRetention, tri_handleTopicDLQ, tri_handleDownstreamTimeout.
  apply tri_drainSweep; apply _.
Qed.
End steps.
