(* ===== verification/HandlerSpec.v ===== *)
(** What the event handlers guarantee for every interleaving: they terminate, finalise
    each request at most once, and respect the depth limits and the retry budget; and
    what an arrival, a drain sweep and a redelivery do. *)
From S2P Require Import Prelude GoFloat Utils EventQueue RunManager Engine Policy Config Graph.
From S2P Require Import BrokerQueue Instance ResourceManager Routing Collector SimState.
From S2P Require Import ResourceLaws ResourceSpec RoutingSpec.
From S2P Require Import ServiceModel Lifecycle Completion Brokers Handlers HandlerInv HandlerLaws.
From S2P Require Import HandlerSteps.
From Stdlib Require Import SpecFloat.
#[local] Open Scope string_scope.
#[local] Open Scope list_scope.
#[local] Open Scope Z_scope.
#[local] Open Scope sim_scope.

(** * Runs of the handlers *)

(** The engine may dispatch an event that was scheduled (it assigns ID, time and
    sequence number), and the workload adds arrivals. *)
Definition same_event (ev evt : Event) : Prop :=
  ev_Type evt = ev_Type ev ∧ ev_Request evt = ev_Request ev ∧ ev_ServiceID evt = ev_ServiceID ev ∧ ev_Data evt = ev_Data ev.
Definition dispatchable (c : RunConf) (w : World) (evt : Event) : Prop :=
  (∃ ev, ActSchedule ev ∈ w_acts w ∧ same_event ev evt) ∨
  (ev_Type evt = EventTypeRequestArrival ∧ data_ok (rc_limits c) (ev_Data evt)).
Definition ends (o : outcome unit) (w' : World) : Prop :=
  match o with Done _ w | Err _ w => w = w' | _ => False end.
(** A handler runs on an event; or the engine moves on, the outside world changes, or
    other goroutines change the instances, the hosts or the policies that are not
    about retries. *)
Inductive sim_step (c : RunConf) : World → World → Prop :=
  | step_handler w w' evt h : dispatchable c w evt → handler_of (ev_Type evt) = Some h → ends (h evt w) w' →
      sim_step c w w'
  | step_engine w e : sim_step c w (mkWorld (w_st w) e (w_acts w))
  | step_world w o : sim_step c w (mkWorld ((w_st w) <| st_outside := o |>) (w_eng w) (w_acts w))
  | step_resources w m : mg_brokerQueues m = mg_brokerQueues (st_rm (w_st w)) →
      sim_step c w (mkWorld ((w_st w) <| st_rm := m |>) (w_eng w) (w_acts w))
  | step_policies w pm : (pm ≫= pm_retry) = (st_policies (w_st w) ≫= pm_retry) →
      sim_step c w (mkWorld ((w_st w) <| st_policies := pm |>) (w_eng w) (w_acts w)).
Definition run_conf (scenario : Scenario) (policies : option PolicyManager) : RunConf :=
  mkRunConf (scn_SimulationLimits scenario) (policies ≫= pm_retry).
(** The states of a run that starts from a fresh scenario state. *)
Inductive sim_reachable (c : RunConf) (w : World) : Prop :=
  sim_reach scenario rm collector policies graph rng brng ids out eng :
    c = run_conf scenario policies → mg_brokerQueues rm = newBrokerQueues →
    rtc (sim_step c)
      (mkWorld (newScenarioState scenario rm collector policies graph rng brng ids out) eng []) w →
    sim_reachable c w.

Lemma dispatchable_data c w evt : Inv c w → dispatchable c w evt → data_ok (rc_limits c) (ev_Data evt).
Proof.
  intros HI [(ev & Hin & _ & _ & _ & ->)|[_ Hd]]; [|done].
  by destruct (proj1 (Forall_forall _ _) (inv_acts _ _ HI) _ Hin).
Qed.
Lemma handler_inv c w evt h : Inv c w → dispatchable c w evt → handler_of (ev_Type evt) = Some h →
  match h evt w with Done _ w' | Err _ w' => Inv c w' | Crash => True | NoFuel => False end.
Proof.
  intros HI Hd Hh. pose proof (tri_handler c _ _ _ Hh (dispatchable_data _ _ _ HI Hd) w HI) as H.
  destruct (h evt w) as [[] w'|e w'| |]; try done; by destruct H.
Qed.
Lemma inv_sim_step c w w' : sim_step c w w' → Inv c w → Inv c w'.
Proof.
  intros [w0 w1 evt h Hd Hh He|w0 e|w0 o|w0 m Em|w0 pm Epm] HI.
  - pose proof (handler_inv _ _ _ _ HI Hd Hh) as H. destruct (h evt w0) as [[] w2|? w2| |]; cbn in He; try done; by subst.
  - by destruct HI.
  - destruct (safe_state c w0 ((w_st w0) <| st_outside := o |>)) as [? _]; [done|by split|done].
  - destruct (safe_state c w0 ((w_st w0) <| st_rm := m |>)) as [? _]; [done| |done].
    split; try done. apply resources_eq. done.
  - by destruct (safe_state c w0 ((w_st w0) <| st_policies := pm |>)) as [? _]; [|split|].
Qed.
Lemma new_state_fields scenario rm collector policies graph rng brng ids out :
  let s := newScenarioState scenario rm collector policies graph rng brng ids out in
  st_scenario s = scenario ∧ st_rm s = rm ∧ st_policies s = policies ∧ st_heap s = ∅ ∧ st_pendingSync s = ∅ ∧
  st_topicPartitionCursor s = ∅.
Proof. unfold newScenarioState. by destruct (foldl _ _ _). Qed.
Lemma reachable_inv c w : sim_reachable c w → Inv c w.
Proof.
  intros [scenario rm collector policies graph rng brng ids out eng Hc Hm Hr].
  set (w0 := mkWorld _ _ _) in Hr.
  assert (HI : Inv c w0).
  { destruct (new_state_fields scenario rm collector policies graph rng brng ids out) as (E1 & E2 & E3 & E4 & E5 & E6).
    subst c. unfold w0. split; cbn [w_st w_eng w_acts rc_limits rc_retry run_conf]; rewrite ?E1, ?E2, ?E3, ?E4, ?E5, ?E6;
      try done; try apply map_Forall_empty; try (by constructor); try (intros p; cbn; lia).
    unfold resources_ok, brokers_ok. rewrite Hm. split; apply map_Forall_empty. }
  clearbody w0. clear Hm. induction Hr as [|w1 w2 w3 H12 _ IH]; [done|]. apply IH. by eapply inv_sim_step.
Qed.

(** * Every interleaving *)

(** C5: in every reachable state, whatever event the engine dispatches, the handler
    registered for it terminates: the chain of parents that end with a finalised child
    is never longer than the fuel it is given, and no other handler loops. *)
Theorem handlers_terminate c w evt h : sim_reachable c w → dispatchable c w evt →
  handler_of (ev_Type evt) = Some h → h evt w ≠ NoFuel.
Proof.
  intros Hr Hd Hh E. pose proof (handler_inv c w evt h (reachable_inv c w Hr) Hd Hh) as H. by rewrite E in H.
Qed.

(** C4: whatever the interleaving of completions, failures, timeouts, retries and broker
    deliveries, a request is handed to the run manager's [FinalizeRequest] at most
    once; a request that was handed over carries the finalisation mark, and the
    counters of synchronous children still to come are positive while they exist. *)
Theorem requests_finalized_once c w : sim_reachable c w →
  (∀ p, (nfin p (w_acts w) ≤ 1)%nat) ∧
  (∀ p, nfin p (w_acts w) = 1%nat → ∃ r, st_heap (w_st w) !! p = Some r ∧ is_finalized r = true) ∧
  (∀ id n, st_pendingSync (w_st w) !! id = Some n → 0 < n).
Proof.
  intros Hr. apply reachable_inv in Hr as HI. split_and!.
  - apply HI.
  - intros p Hp. apply (inv_fin _ _ HI). lia.
  - intros id n. apply (inv_pending _ _ HI).
Qed.

(** C6: no call chain goes deeper than the configured limits: with a positive
    [MaxTraceDepth] (or [MaxAsyncHops]) every request, every scheduled event and every
    message waiting in a broker has a trace depth (a number of asynchronous hops) of at
    most the limit, through retries, redeliveries and topic fan-out. *)
Theorem depth_limits_hold c w l : sim_reachable c w → rc_limits c = Some l →
  let shallow md :=
    (0 < sl_MaxTraceDepth l → metadataInt md "trace_depth" ≤ sl_MaxTraceDepth l) ∧
    (0 < sl_MaxAsyncHops l → metadataInt md "async_depth" ≤ sl_MaxAsyncHops l) in
  (∀ p r, st_heap (w_st w) !! p = Some r → shallow (q_Metadata r)) ∧
  (∀ ev, ActSchedule ev ∈ w_acts w → shallow (ev_Data ev)) ∧
  (∀ k s msg, bq_queueShards (mg_brokerQueues (st_rm (w_st w))) !! k = Some s ∨
              bq_topicShards (mg_brokerQueues (st_rm (w_st w))) !! k = Some s →
              msg ∈ sh_messages s → shallow (qm_Metadata msg)).
Proof.
  intros Hr Hl shallow. apply reachable_inv in Hr as HI.
  assert (Hs : ∀ md, depth_ok (rc_limits c) md → shallow md) by (intros md; by rewrite Hl).
  split_and!.
  - intros p r E. apply Hs. by apply (inv_heap _ _ HI p).
  - intros ev Hev. apply Hs. by destruct (proj1 (Forall_forall _ _) (inv_acts _ _ HI) _ Hev) as [[? _] _].
  - intros k s msg Hk Hm. apply Hs. destruct (inv_brokers _ _ HI) as [Hq Ht].
    assert (Hok : messages_ok (rc_limits c) s) by (destruct Hk as [Hk|Hk]; [by eapply Hq|by eapply Ht]).
    by apply (proj1 (Forall_forall _ _) Hok).
Qed.

(** C7: the retry budget is respected by every path that retries (timeouts, start
    failures, dependency failures, caller overhead): a retry event is scheduled only
    under an enabled retry policy, and its attempt number is at most the policy's
    maximum. *)
Theorem retries_within_budget c w ev : sim_reachable c w → ActSchedule ev ∈ w_acts w →
  ev_Type ev = EventTypeDownstreamRetry →
  ∃ rp, rc_retry c = Some rp ∧ rp_enabled rp = true ∧
        metadataInt (ev_Data ev) metaRetryAttempt ≤ rp_maxRetries rp.
Proof.
  intros Hr Hev Hty. apply reachable_inv in Hr as HI.
  destruct (proj1 (Forall_forall _ _) (inv_acts _ _ HI) _ Hev) as [_ H]. specialize (H Hty).
  destruct (rc_retry c) as [rp|]; [|done]. by exists rp.
Qed.

(** * A message survives its acknowledgement timeout *)

(** The retry call an event of [scheduleDownstreamRetryEvent] is read back as. *)
Definition read_retry (serviceID : string) (data : Metadata) : RetryCall :=
  mkRetryCall serviceID (metadataString data "endpoint_path") (metadataInt data "trace_depth")
    (metadataInt data "async_depth") (metadataBool data "is_async_downstream")
    (metadataFloat64 data "downstream_timeout_ms") (metadataInt data metaRetryAttempt)
    (metadataString data metaLogicalCallID) (topology_of data).

(** what handlers pass to each other through event data comes back unchanged: the
    message rebuilt by an acknowledgement timeout is the dispatched one with one more
    redelivery (queues and topics), and a retry event is read back as the call it was
    scheduled for. *)
Theorem event_data_roundtrip now ch broker topic g pt msg parentID call :
  IsZero (qm_EnqueueTime msg) = false →
  (let data := ack_data ch broker topic msg
                 [(metaTopicConsumerGrp, DString g); (metaTopicPartition, DInt pt);
                  ("msg_topic_offset", DInt (qm_TopicOffset msg))] in
   redelivered now data (metadataInt64 data "msg_topic_offset") =
     msg <| qm_Redeliveries := qm_Redeliveries msg + 1 |>) ∧
  (qm_TopicOffset msg = 0 →
   redelivered now (ack_data ch broker topic msg []) 0 = msg <| qm_Redeliveries := qm_Redeliveries msg + 1 |>) ∧
  read_retry (ry_service call) (retry_data parentID call) = call.
Proof.
  intros Hz. destruct msg as [id t red par tr md off]. cbn [qm_EnqueueTime qm_TopicOffset] in *.
  split_and!.
  - unfold redelivered, ack_data, metadataInt64, metadataInt, metadataString, metadataTime. rewrite !mapOf_lookup. literal_map.
    cbn [qm_ID qm_EnqueueTime qm_Redeliveries qm_ParentRequestID qm_TraceID qm_Metadata qm_TopicOffset]. by rewrite Hz.
  - intros ->. unfold redelivered, ack_data, metadataInt, metadataString, metadataTime. rewrite !mapOf_lookup. literal_map.
    cbn [qm_ID qm_EnqueueTime qm_Redeliveries qm_ParentRequestID qm_TraceID qm_Metadata qm_TopicOffset]. by rewrite Hz.
  - destruct call as [s p td ad ia tm at_ lg [i z h]].
    unfold read_retry, retry_data, topology_of, metadataInt, metadataString, metadataBool, metadataFloat64.
    rewrite !mapOf_lookup. by literal_map.
Qed.

(** * Computations that only observe and record *)

Definition schedules (acts : list EngineAction) : list Event :=
  omap (λ a, match a with ActSchedule ev => Some ev | _ => None end) acts.
(** What the handlers rely on: the run manager knows only requests of the store, the
    resource manager is consistent, Go visits an instance once per loop, and a random
    draw below [n] is below [n]. *)
Record sound (w : World) : Prop := {
  snd_closed : ∀ id p, RunManager_GetRequest id (eng_runManager (w_eng w)) = Some p → is_Some (st_heap (w_st w) !! p);
  snd_rm : mg_ok (st_rm (w_st w));
  snd_order : NoDup (out_order (st_outside (w_st w) 0%nat));
  snd_intn : intn_ok (out_intn (st_outside (w_st w) 0%nat));
}.
(** Nothing is scheduled or finalised, no request appears or disappears; [Silent] also
    changes no request and no instance. *)
Record Quiet (w w' : World) : Prop := {
  qt_schedules : schedules (w_acts w') = schedules (w_acts w);
  qt_nfin : ∀ p, nfin p (w_acts w') = nfin p (w_acts w);
  qt_requests : ∀ id, RunManager_GetRequest id (eng_runManager (w_eng w')) = RunManager_GetRequest id (eng_runManager (w_eng w));
  qt_now : eng_simTime (w_eng w') = eng_simTime (w_eng w);
  qt_end : st_simEndTime (w_st w') = st_simEndTime (w_st w);
  qt_out : st_outside (w_st w') = st_outside (w_st w);
  qt_dom : dom (st_heap (w_st w')) = dom (st_heap (w_st w));
  qt_rm : mg_ok (st_rm (w_st w)) → mg_ok (st_rm (w_st w'));
}.
Record Silent (w w' : World) : Prop := {
  sl_quiet : Quiet w w';
  sl_heap : st_heap (w_st w') = st_heap (w_st w);
  sl_instances : mg_instances (st_rm (w_st w')) = mg_instances (st_rm (w_st w));
}.
#[export] Instance Quiet_pre : PreOrder Quiet.
Proof.
  split; [by split|]. intros w1 w2 w3 [] []. split; intros; first [congruence|auto].
Qed.
#[export] Instance Silent_pre : PreOrder Silent.
Proof. split; [by split|]. intros w1 w2 w3 [Q1 E1 I1] [Q2 E2 I2]. split; [by etrans|congruence..]. Qed.
Class QuietRel (R : World → World → Prop) : Prop := {
  quiet_pre :: PreOrder R;
  quiet_sub : ∀ w w', Silent w w' → R w w';
  quiet_sup : ∀ w w', R w w' → Quiet w w';
}.
#[export] Instance QuietRel_Quiet : QuietRel Quiet.
Proof. split; [apply _|by intros ?? []|done]. Qed.
#[export] Instance QuietRel_Silent : QuietRel Silent.
Proof. split; [apply _|done|by intros ?? []]. Qed.
Lemma sound_quiet w w' : Quiet w w' → sound w → sound w'.
Proof.
  intros HQ [Hc Hm Ho Hi]. split; rewrite ?(qt_out _ _ HQ); [|by apply (qt_rm _ _ HQ)|done..].
  intros id p. rewrite (qt_requests _ _ HQ). intros E. apply elem_of_dom. rewrite (qt_dom _ _ HQ).
  by apply elem_of_dom, (Hc id).
Qed.
Definition Tot {A} (R : World → World → Prop) (m : M A) : Prop :=
  ∀ w, sound w → ∃ a w', m w = Done a w' ∧ R w w'.
Section tot.
Context (R : World → World → Prop) `{!QuietRel R}.
Lemma tot_ret {A} (a : A) : Tot R (ret a).
Proof. intros w _. by exists a, w. Qed.
Lemma tot_bind {A B} (m : M A) (k : A → M B) : Tot R m → (∀ a, Tot R (k a)) → Tot R (mbind_M m k).
Proof.
  intros Hm Hk w Hc. destruct (Hm w Hc) as (a & w1 & E1 & R1).
  destruct (Hk a w1) as (b & w2 & E2 & R2); [by eapply sound_quiet; [apply quiet_sup|]|].
  exists b, w2. unfold mbind_M. rewrite E1. split; [done|by etrans].
Qed.
Lemma tot_when b m : Tot R m → Tot R (when b m).
Proof. destruct b; [done|]. intros _. apply tot_ret. Qed.
Lemma tot_mfor {A} (l : list A) f : (∀ x, Tot R (f x)) → Tot R (mfor l f).
Proof. intros Hf. induction l as [|x l IH]; cbn [mfor]; [apply tot_ret|]. by apply tot_bind. Qed.
Lemma tot_gets {A} (f : scenarioState → A) : Tot R (gets f).
Proof. intros w _. by exists (f (w_st w)), w. Qed.
Lemma tot_read {A} (f : World → A) : Tot R (λ w, Done (f w) w).
Proof. intros w _. by exists (f w), w. Qed.
Lemma tot_state {A} (m : M A) (g : World → scenarioState) (a : World → A) :
  (∀ w, m w = Done (a w) (mkWorld (g w) (w_eng w) (w_acts w))) →
  (∀ w, st_heap (g w) = st_heap (w_st w) ∧ st_simEndTime (g w) = st_simEndTime (w_st w) ∧
        st_outside (g w) = st_outside (w_st w) ∧ st_rm (g w) = st_rm (w_st w)) → Tot R m.
Proof.
  intros Hm Hg w _. exists (a w), (mkWorld (g w) (w_eng w) (w_acts w)). split; [done|].
  destruct (Hg w) as (E1 & E2 & E3 & E4). apply quiet_sub. split; cbn [w_st]; [|by rewrite ?E1, ?E4..].
  split; cbn [w_st w_eng w_acts]; by rewrite ?E1, ?E4.
Qed.
Lemma tot_trigger err : Tot R (act (ActTrigger err)).
Proof.
  intros w _. eexists tt, _. split; [reflexivity|]. apply quiet_sub. split; [|done..].
  split; cbn; try done; unfold Engine_TriggerLimitExceeded, Engine_triggerGuardFailure; by destruct (eng_guardErr _).
Qed.
Lemma tot_record n v t l : Tot R (record n v t l).
Proof.
  intros w Hc. unfold record. destruct (Collector_Record n v t l _) as [col cbs].
  set (w1 := w <| w_st := _ |>). assert (HS : Silent w w1) by (by split; [split|..]).
  destruct (tot_mfor cbs (λ cb, act (ActTrigger (metric_limit_error cb))) (λ cb, tot_trigger _) w1) as (a & w2 & E & R2).
  - eapply sound_quiet; [apply HS|done].
  - exists a, w2. split; [done|]. etrans; [by apply quiet_sub|done].
Qed.
Lemma tot_allows s e t : Tot R (limiter_allows s e t) ∧ Tot R (breaker_allows s e t).
Proof.
  split; intros w _; [unfold limiter_allows|unfold breaker_allows];
    (destruct (st_policies (w_st w)) as [pm|]; [|by eexists _, w]).
  - destruct (pm_rateLimiting pm) as [rl|]; [|by eexists _, w].
    destruct (rateLimitingPolicy_AllowRequest s e t rl). eexists _, _. split; [done|]. apply quiet_sub. by split; [split|..].
  - destruct (pm_circuitBreaker pm) as [cb|]; [|by eexists _, w].
    destruct (circuitBreakerPolicy_AllowRequest s e t cb). eexists _, _. split; [done|]. apply quiet_sub. by split; [split|..].
Qed.
Lemma tot_GenerateID : Tot R GenerateID.
Proof.
  by apply (tot_state _ (λ w, (w_st w) <| st_ids := λ n, st_ids (w_st w) (S n) |>) (λ w, st_ids (w_st w) 0%nat)); [intros []|].
Qed.
Lemma tot_record_route r i s t : Tot R (record_route r i s t).
Proof.
  unfold record_route, outside. repeat (apply tot_bind; [apply tot_gets|intros ?]). cbn zeta.
  apply tot_bind; [apply tot_record|intros _]. apply tot_bind; [|intros _].
  - destruct (is_empty _); [apply tot_ret|]. destruct (_ !! _); [|apply tot_ret]. apply tot_when.
    destruct (EqualFold _ _); apply tot_record.
  - apply tot_when. destruct (EqualFold _ _); apply tot_record.
Qed.
End tot.

(** ** The steps that change requests or instances *)

(** A new resource manager: the instances may change, consistency may not. *)
Lemma quiet_rm w m : (mg_ok (st_rm (w_st w)) → mg_ok m) →
  Quiet w (mkWorld ((w_st w) <| st_rm := m |>) (w_eng w) (w_acts w)).
Proof. by split. Qed.
Lemma request_update w p f r : st_heap (w_st w) !! p = Some r →
  ∃ w', update p f w = Done tt w' ∧ Quiet w w' ∧ st_rm (w_st w') = st_rm (w_st w) ∧
        st_heap (w_st w') = <[p := f r]> (st_heap (w_st w)).
Proof.
  intros E. eexists. split; [by apply (update_run _ _ _ r)|].
  assert (Ea : alter f p (st_heap (w_st w)) = <[p := f r]> (st_heap (w_st w))).
  { apply map_eq. intros q. destruct (decide (q = p)) as [->|Hn].
    - by rewrite lookup_alter_eq, lookup_insert_eq, E.
    - by rewrite lookup_alter_ne, lookup_insert_ne. }
  split; [|by cbn]. split; try done. cbn. by rewrite dom_alter_L.
Qed.
Lemma tot_fail_dropped t id : Tot Quiet (fail_dropped t id).
Proof.
  intros w Hc. unfold fail_dropped, mbind_M at 1, rm_GetRequest.
  destruct (RunManager_GetRequest _ _) as [p|] eqn:Ep; [|by eexists tt, w].
  destruct (snd_closed _ Hc id p Ep) as [r E]. unfold mbind_M at 1, deref at 1. rewrite E.
  destruct (q_Status r); try (by eexists tt, w).
  destruct (request_update w p (λ r, r <| q_Status := RequestStatusFailed |>) r E) as (w1 & E1 & Q1 & _).
  unfold mbind_M at 1, setStatus. rewrite E1. cbn zeta.
  destruct (tot_bind Quiet (endpoint_error (labelsForRequestMetrics r (q_ServiceName r) (q_Endpoint r)) "drain_evicted" t)
    (λ _, when (is_empty (q_ParentID r)) (ingress_failure (labelsForRequestMetrics r (q_ServiceName r) (q_Endpoint r)) "drain_evicted" t)))
    with (w := w1) as (a & w2 & E2 & Q2); [apply tot_record; apply _| |by eapply sound_quiet|].
  - intros _. apply tot_when; [apply _|]. apply tot_record; apply _.
  - destruct a. exists tt, w2. split; [done|by etrans].
Qed.
Lemma tot_NoteSimTime t : Tot Quiet (NoteSimTime t).
Proof.
  intros w _. eexists tt, _. split; [reflexivity|]. destruct w. apply quiet_rm. cbn.
  intros Hm. eapply same_skeleton_ok; [apply NoteSimTime_skeleton|done].
Qed.
Lemma tot_draining t : Tot Quiet (process_draining t).
Proof.
  unfold process_draining. apply tot_bind; [apply _|apply tot_NoteSimTime|intros _].
  intros w Hs. unfold mbind_M at 1, outside, gets. unfold mbind_M at 1, on_rm.
  set (o := st_outside (w_st w) 0%nat).
  pose proof (process_draining_ok (out_order o) (out_now o) t (st_rm (w_st w)) (snd_order _ Hs)) as Hok.
  destruct (ResourceManager_ProcessDrainingInstances _ _ _ _) as [l m]. cbn [snd] in Hok.
  set (w1 := w <| w_st := _ |>). assert (Q1 : Quiet w w1) by (by split).
  destruct (tot_mfor Quiet l (fail_dropped t) (tot_fail_dropped t) w1) as (a & w2 & E & Q2).
  - by eapply sound_quiet.
  - exists a, w2. split; [done|by etrans].
Qed.

Lemma schedule_run ty t q s d w : ∃ w', ScheduleAt ty t q s d w = Done tt w' ∧
  schedules (w_acts w') = mkEvent "" ty t 0 0 q s d :: schedules (w_acts w) ∧
  (∀ p, nfin p (w_acts w') = nfin p (w_acts w)) ∧ w_st w' = w_st w.
Proof. by eexists. Qed.

(** a drain sweep always completes, finalises nothing, and keeps the sweeps going:
    it schedules exactly the next sweep, [drainSweepInterval] later, as long as that is
    before the end of the simulation (or no end is set), and nothing otherwise. *)
Theorem drain_sweep_continues w evt : sound w →
  let next := SimTime_Now (eng_simTime (w_eng w)) + drainSweepInterval in
  let simEnd := st_simEndTime (w_st w) in
  ∃ w', handleDrainSweep evt w = Done tt w' ∧
    schedules (w_acts w') =
      (if IsZero simEnd || Before next simEnd then [mkEvent "" EventTypeDrainSweep next 0 0 None "" ∅] else []) ++
      schedules (w_acts w) ∧
    (∀ p, nfin p (w_acts w') = nfin p (w_acts w)) ∧
    dom (st_heap (w_st w')) = dom (st_heap (w_st w)).
Proof.
  intros Hs next simEnd. unfold handleDrainSweep, GetSimTime. unfold mbind_M at 1.
  destruct (tot_draining (SimTime_Now (eng_simTime (w_eng w))) w Hs) as ([] & w1 & E1 & Q1).
  unfold mbind_M at 1. rewrite E1. cbn zeta. unfold mbind_M at 1, gets.
  rewrite (qt_end _ _ Q1). fold next simEnd. destruct (IsZero simEnd || Before next simEnd).
  - destruct (schedule_run EventTypeDrainSweep next None "" ∅ w1) as (w2 & E2 & Es & En & Est).
    exists w2. split; [done|]. rewrite Es, Est, (qt_schedules _ _ Q1), (qt_dom _ _ Q1).
    split_and!; [done| |done]. intros p. by rewrite En, (qt_nfin _ _ Q1).
  - exists w1. split; [done|]. by rewrite (qt_schedules _ _ Q1), (qt_dom _ _ Q1); split_and!; [|apply Q1|].
Qed.

(** * Arrival *)

Lemma reject_run w p r labels reason t msg : sound w → st_heap (w_st w) !! p = Some r →
  ∃ w', reject_arrival p labels reason t msg w = Err msg w' ∧ Quiet w w' ∧
        st_heap (w_st w') = <[p := r <| q_Status := RequestStatusFailed |>]> (st_heap (w_st w)).
Proof.
  intros Hs E. destruct (request_update w p (λ r, r <| q_Status := RequestStatusFailed |>) r E) as (w1 & E1 & Q1 & _ & H1).
  destruct (tot_bind Silent (endpoint_error labels reason t) (λ _, ingress_failure labels reason t)) with (w := w1)
    as ([] & w2 & E2 & S2); [apply tot_record; apply _|intros _; apply tot_record; apply _|by eapply sound_quiet|].
  exists w2. split_and!; [|by etrans; [|apply S2]|by rewrite (sl_heap _ _ S2)].
  unfold reject_arrival, setStatus. unfold mbind_M at 1. rewrite E1. unfold mbind_M at 1 in E2. unfold mbind_M at 1.
  destruct (endpoint_error labels reason t w1) as [[] w3| | |]; try done. unfold mbind_M. by rewrite E2.
Qed.
(** Routing a request: an active instance of its service, or an error. *)
Lemma select_run w p r t : sound w → st_heap (w_st w) !! p = Some r →
  ∃ i w', selectInstanceForRequest p t w = Done i w' ∧ Silent w w' ∧
    match i with Ok id => serves (q_ServiceName r) (st_rm (w_st w')) id | Fail _ => True | Panic => False end.
Proof.
  intros Hs E. unfold selectInstanceForRequest. unfold mbind_M at 1, deref. rewrite E.
  unfold mbind_M at 1, outside, gets. unfold mbind_M at 1.
  set (o := st_outside (w_st w) 0%nat). set (req := mkRouteRequest _ _).
  pose proof (select_request_good (out_intn o) (q_ServiceName r) (Some req) t (st_rm (w_st w)) (snd_rm _ Hs) (snd_intn _ Hs)) as Hg.
  destruct (ResourceManager_SelectInstanceForRequest _ _ _ _ _) as [[[id st] m]|e|] eqn:Er; [| |done].
  - destruct Hg as [Hin Hm]. apply select_request_instances in Er.
    apply (candidates_active _ _ _ (snd_rm _ Hs)) in Hin.
    set (w1 := mkWorld ((w_st w) <| st_rm := m |>) (w_eng w) (w_acts w)).
    assert (S1 : Silent w w1) by (by split; [apply quiet_rm|..]).
    destruct (tot_record_route Silent r id st t w1) as ([] & w2 & E2 & S2); [by eapply sound_quiet; [apply S1|]|].
    exists (Ok id), w2. split_and!; [|by etrans|].
    + unfold mbind_M at 1, lift, ret at 1. unfold mbind_M at 1.
      assert (Em : mod_rm (λ _, m) w = Done tt w1) by (unfold w1; by destruct w). rewrite Em.
      unfold mbind_M at 1. by rewrite E2.
    + destruct Hin as (x & Hx & Hx2). exists x. rewrite (sl_instances _ _ S2). unfold w1. cbn. by rewrite Er.
  - by exists (Fail e), w.
Qed.

(** The new request, as every branch of an arrival starts with. *)
Definition new_request (requestID traceID serviceID endpointPath : string) (now : Time) (data : Metadata) : ReqObject :=
  mkReqObject requestID traceID "" serviceID endpointPath RequestStatusPending now zeroTime zeroTime 0 f0 f0 f0 ""
    (arrival_meta data).
Lemma guard_requests err e id :
  RunManager_GetRequest id (eng_runManager (Engine_triggerGuardFailure err e)) = RunManager_GetRequest id (eng_runManager e).
Proof. unfold Engine_triggerGuardFailure. destruct err; [|done]. by destruct (eng_guardErr e). Qed.
Lemma added_requests e p r id q :
  RunManager_GetRequest id (eng_runManager (apply_action e (ActAddRequest p r))) = Some q →
  q = p ∨ RunManager_GetRequest id (eng_runManager e) = Some q.
Proof.
  cbn [apply_action]. unfold RunManager_AddRequest.
  destruct (_ && _); [rewrite guard_requests; by right|].
  destruct (_ && _); [rewrite guard_requests; by right|]. rewrite guard_requests.
  unfold RunManager_GetRequest. cbn.
  destruct (decide (req_ID r = id)) as [->|Hn].
  - rewrite lookup_insert_eq. intros [= ->]. by left.
  - rewrite lookup_insert_ne by done. by right.
Qed.
Lemma alloc_run w r : sound w → let p := fresh (dom (st_heap (w_st w))) in
  ∃ w', (∀ B (k : positive → M B), (let* p := alloc r in rm_AddRequest p ;;* k p) w = k p w') ∧ sound w' ∧
    st_heap (w_st w) !! p = None ∧ st_heap (w_st w') = <[p := r]> (st_heap (w_st w)) ∧
    schedules (w_acts w') = schedules (w_acts w) ∧ (∀ q, nfin q (w_acts w') = nfin q (w_acts w)).
Proof.
  intros Hs p. assert (Hp : st_heap (w_st w) !! p = None) by (apply not_elem_of_dom; apply is_fresh).
  exists (mkWorld ((w_st w) <| st_heap := <[p := r]> (st_heap (w_st w)) |>)
            (apply_action (w_eng w) (ActAddRequest p (tracked r))) (ActAddRequest p (tracked r) :: w_acts w)).
  split_and!; try done.
  - intros B k. unfold alloc, rm_AddRequest. unfold mbind_M at 1. fold p. unfold mbind_M at 1. unfold mbind_M at 1, deref.
    destruct w. cbn. by rewrite lookup_insert_eq.
  - destruct Hs as [Hc Hm Ho Hi]. split; try done. intros id q Hq. cbn [w_eng] in Hq.
    apply added_requests in Hq as [->|Hq]; cbn; [by rewrite lookup_insert_eq|].
    apply Hc in Hq. destruct (decide (p = q)) as [->|Hn]; [by rewrite lookup_insert_eq|by rewrite lookup_insert_ne].
Qed.

(** What an admitted or rejected request looks like afterwards. *)
Definition rejected (w : World) (p : positive) (r : ReqObject) (o : outcome unit) : Prop :=
  ∃ msg w', o = Err msg w' ∧ (∀ q, nfin q (w_acts w') = nfin q (w_acts w)) ∧
    dom (st_heap (w_st w')) = dom (st_heap (w_st w)) ∧ schedules (w_acts w') = schedules (w_acts w) ∧
    st_heap (w_st w') !! p = Some (r <| q_Status := RequestStatusFailed |>).
Definition admitted (w : World) (p : positive) (r : ReqObject) (now : Time) (o : outcome unit) : Prop :=
  ∃ inst w', o = Done tt w' ∧ (∀ q, nfin q (w_acts w') = nfin q (w_acts w)) ∧
    dom (st_heap (w_st w')) = dom (st_heap (w_st w)) ∧
    schedules (w_acts w') =
      mkEvent "" EventTypeRequestStart now 0 0 (Some p) (q_ServiceName r) (start_data (q_Endpoint r) inst) ::
      schedules (w_acts w) ∧
    st_heap (w_st w') !! p = Some (set_meta "instance_id" (DString inst) r) ∧
    serves (q_ServiceName r) (st_rm (w_st w')) inst.
Lemma decided_silent w w1 p r now o : Silent w w1 →
  rejected w1 p r o ∨ admitted w1 p r now o → rejected w p r o ∨ admitted w p r now o.
Proof.
  intros [Q _ _]. pose proof (qt_nfin _ _ Q) as En. pose proof (qt_dom _ _ Q) as Ed. pose proof (qt_schedules _ _ Q) as Es.
  intros [(msg & w' & E & H1 & H2 & H3 & H4)|(i & w' & E & H1 & H2 & H3 & H4 & H5)]; [left; exists msg, w'|right; exists i, w'].
  all: rewrite <- Ed, <- Es; split_and!; try done; intros q; by rewrite H1, En.
Qed.
Lemma rejected_run w p r labels reason t msg : sound w → st_heap (w_st w) !! p = Some r →
  rejected w p r (reject_arrival p labels reason t msg w).
Proof.
  intros Hs E. destruct (reject_run w p r labels reason t msg Hs E) as (w' & E' & Q & H).
  exists msg, w'. split_and!; [done|apply Q|apply Q|apply Q|]. by rewrite H, lookup_insert_eq.
Qed.
Lemma routed_run w p r labels now : sound w → st_heap (w_st w) !! p = Some r →
  let o := (let* inst := selectInstanceForRequest p now in
            match inst with
            | Ok inst =>
                setMeta p "instance_id" (DString inst) ;;*
                ScheduleAt EventTypeRequestStart now (Some p) (q_ServiceName r) (start_data (q_Endpoint r) inst)
            | Fail e => reject_arrival p labels "no_instance" now (no_instances (q_ServiceName r) e)
            | Panic => λ _, Crash
            end) w in
  rejected w p r o ∨ admitted w p r now o.
Proof.
  intros Hs E. cbn zeta. destruct (select_run w p r now Hs E) as (i & w1 & E1 & S1 & Hi).
  apply (decided_silent w w1 p r now); [done|].
  pose proof (sound_quiet _ _ (sl_quiet _ _ S1) Hs) as Hs1. rewrite <- (sl_heap _ _ S1) in E.
  unfold mbind_M at 1 3. rewrite E1. destruct i as [inst|e|]; [right|left; by apply rejected_run|done].
  destruct (request_update w1 p (set_meta "instance_id" (DString inst)) r E) as (w2 & E2 & Q2 & R2 & H2).
  unfold mbind_M, setMeta. rewrite E2.
  destruct (schedule_run EventTypeRequestStart now (Some p) (q_ServiceName r) (start_data (q_Endpoint r) inst) w2)
    as (w3 & E3 & Es & En & Est).
  exists inst, w3. split; [done|]. rewrite Es, Est, (qt_schedules _ _ Q2), (qt_dom _ _ Q2), R2, H2.
  split_and!; try done; [|by rewrite lookup_insert_eq]. intros q. by rewrite En, (qt_nfin _ _ Q2).
Qed.

(** An arrival from the moment the run manager knows the request. *)
Definition decide_arrival (p : positive) (serviceID endpointPath : string) (labels : Labels) (now : Time) : M unit :=
  record "request_count" f1 now labels ;;*
  let* ok := limiter_allows serviceID endpointPath now in
  if negb ok then
    reject_arrival p labels "rate_limited" now ("rate limit exceeded for " +:+ serviceID +:+ ":" +:+ endpointPath)
  else
    let* ok := breaker_allows serviceID endpointPath now in
    if negb ok then
      reject_arrival p labels "circuit_open" now ("circuit breaker open for " +:+ serviceID +:+ ":" +:+ endpointPath)
    else
      let* inst := selectInstanceForRequest p now in
      match inst with
      | Ok inst =>
          setMeta p "instance_id" (DString inst) ;;*
          ScheduleAt EventTypeRequestStart now (Some p) serviceID (start_data endpointPath inst)
      | Fail e => reject_arrival p labels "no_instance" now (no_instances serviceID e)
      | Panic => λ _, Crash
      end.
Lemma decided_run w p r labels now : sound w → st_heap (w_st w) !! p = Some r →
  let o := decide_arrival p (q_ServiceName r) (q_Endpoint r) labels now w in
  rejected w p r o ∨ admitted w p r now o.
Proof.
  intros Hs E. cbn zeta. unfold decide_arrival.
  assert (Hstep : ∀ A (m : M A) (k : A → M unit), Tot Silent m →
    (∀ a w', sound w' → st_heap (w_st w') !! p = Some r → rejected w' p r (k a w') ∨ admitted w' p r now (k a w')) →
    ∀ w', sound w' → st_heap (w_st w') !! p = Some r →
    rejected w' p r (mbind_M m k w') ∨ admitted w' p r now (mbind_M m k w')).
  { intros A m k Hm Hk w1 Hs1 Hp1. destruct (Hm w1 Hs1) as (a & w2 & E2 & S2).
    apply (decided_silent _ w2); [done|]. unfold mbind_M. rewrite E2.
    apply Hk; [by eapply sound_quiet; [apply S2|]|by rewrite (sl_heap _ _ S2)]. }
  revert w Hs E. apply Hstep; [apply tot_record; apply _|intros _].
  apply Hstep; [apply (tot_allows Silent)|intros []; cbn [negb]; [|intros; left; by apply rejected_run]].
  apply Hstep; [apply (tot_allows Silent)|intros []; cbn [negb]; [|intros; left; by apply rejected_run]].
  intros w Hs E. by apply routed_run.
Qed.

Lemma opened_run w evt serviceID endpointPath : sound w →
  ev_Data evt !! "service_id" = Some (DString serviceID) →
  ev_Data evt !! "endpoint_path" = Some (DString endpointPath) →
  let now := SimTime_Now (eng_simTime (w_eng w)) in
  ∃ p rid tid w', handleRequestArrival evt w =
      decide_arrival p serviceID endpointPath (EndpointLabelsWithOrigin serviceID endpointPath "ingress") now w' ∧
    sound w' ∧ st_heap (w_st w) !! p = None ∧
    dom (st_heap (w_st w')) = {[p]} ∪ dom (st_heap (w_st w)) ∧
    st_heap (w_st w') !! p = Some (new_request rid tid serviceID endpointPath now (ev_Data evt)) ∧
    schedules (w_acts w') = schedules (w_acts w) ∧ (∀ q, nfin q (w_acts w') = nfin q (w_acts w)).
Proof.
  intros Hs Hd1 Hd2 now. unfold handleRequestArrival, GetSimTime. unfold mbind_M at 1. fold now.
  destruct (tot_draining now w Hs) as ([] & w1 & E1 & Q1).
  pose proof (sound_quiet _ _ Q1 Hs) as Hs1. unfold mbind_M at 1. rewrite E1. cbn zeta. unfold asString. rewrite Hd1, Hd2.
  destruct (tot_GenerateID Silent w1 Hs1) as (rid & w2 & E2 & S2).
  pose proof (sound_quiet _ _ (sl_quiet _ _ S2) Hs1) as Hs2. unfold mbind_M at 1. rewrite E2.
  destruct (tot_GenerateID Silent w2 Hs2) as (tid & w3 & E3 & S3).
  pose proof (sound_quiet _ _ (sl_quiet _ _ S3) Hs2) as Hs3. unfold mbind_M at 1. rewrite E3.
  set (r := mkReqObject rid tid _ _ _ _ _ _ _ _ _ _ _ _ _).
  destruct (alloc_run w3 r Hs3) as (w4 & E4 & Hs4 & Hp & H4 & Sc4 & N4). set (p := fresh _) in *.
  assert (Q3 : Quiet w w3) by (etrans; [apply Q1|]; etrans; [apply S2|apply S3]).
  exists p, rid, tid, w4. rewrite (E4 unit). split_and!; [done..| | | | |].
  - apply not_elem_of_dom. rewrite <- (qt_dom _ _ Q3). by apply not_elem_of_dom.
  - by rewrite H4, dom_insert_L, (qt_dom _ _ Q3).
  - by rewrite H4, lookup_insert_eq.
  - by rewrite Sc4, (qt_schedules _ _ Q3).
  - intros q. by rewrite N4, (qt_nfin _ _ Q3).
Qed.

(** an arrival that names its service and endpoint never panics. It puts exactly one
    new request into the store, leaves the finalisations alone, and either succeeds:
    the request is pending, it arrived now, it is routed to an active instance of the
    service and exactly one start event, for now and this instance, is scheduled; or
    returns an error: the request is failed and nothing is scheduled for it. *)
Theorem arrival_spec w evt serviceID endpointPath : sound w →
  ev_Data evt !! "service_id" = Some (DString serviceID) →
  ev_Data evt !! "endpoint_path" = Some (DString endpointPath) →
  let now := SimTime_Now (eng_simTime (w_eng w)) in
  ∃ p requestID traceID w', st_heap (w_st w) !! p = None ∧
    dom (st_heap (w_st w')) = {[p]} ∪ dom (st_heap (w_st w)) ∧
    (∀ q, nfin q (w_acts w') = nfin q (w_acts w)) ∧
    let r := new_request requestID traceID serviceID endpointPath now (ev_Data evt) in
    ((∃ inst, handleRequestArrival evt w = Done tt w' ∧ serves serviceID (st_rm (w_st w')) inst ∧
        st_heap (w_st w') !! p = Some (set_meta "instance_id" (DString inst) r) ∧
        schedules (w_acts w') =
          mkEvent "" EventTypeRequestStart now 0 0 (Some p) serviceID (start_data endpointPath inst) :: schedules (w_acts w)) ∨
     (∃ msg, handleRequestArrival evt w = Err msg w' ∧
        st_heap (w_st w') !! p = Some (r <| q_Status := RequestStatusFailed |>) ∧
        schedules (w_acts w') = schedules (w_acts w))).
Proof.
  intros Hs Hd1 Hd2 now.
  destruct (opened_run w evt serviceID endpointPath Hs Hd1 Hd2) as (p & rid & tid & w1 & Eo & Hs1 & Hp & Ed & Hr & Es & En).
  fold now in Eo, Hr.
  destruct (decided_run w1 p _ (EndpointLabelsWithOrigin serviceID endpointPath "ingress") now Hs1 Hr)
    as [(msg & w' & E & H1 & H2 & H3 & H5)|(inst & w' & E & H1 & H2 & H3 & H5 & H6)]; exists p, rid, tid, w';
    cbn [new_request q_ServiceName q_Endpoint] in *; rewrite Eo, E, H3, H2.
  all: split_and!; [done|done|intros q; by rewrite H1|]; cbn zeta.
  - right. exists msg. by rewrite <- Es.
  - left. exists inst. by rewrite <- Es.
Qed.

(** * A small system *)

(** A gateway that calls [api] and publishes to a queue read by [worker]; [api] fails
    always, or never, and is slow. *)
Definition demo_scenario (failure ioMs : float64) : Scenario :=
  mkScenario None (Some (mkSimLimits 3 0)) None [mkHostSpec "h1" 4 16 "z1" ∅]
    [sample_service "web" "api_gateway" None
       [sample_endpoint "/" [sample_call "api:/q" "rest"; sample_call "q:/in" "queue"]];
     sample_service "api" "" (Some (mkServiceBehavior failure f0 0 None None None))
       [mkEndpoint "/q" ioMs f0 f0 f0 f0 lat0 0 None [] lat0];
     sample_service "q" "Queue" (Some (mkServiceBehavior f0 f0 0 None (Some sample_queue) None))
       [sample_endpoint "/in" []];
     sample_service "worker" "" None [sample_endpoint "/job" []]]
    [] None.
Definition demo_outside : nat → Outside := λ _, mkOutside 0 [] (λ _, 0) (λ _, []) (λ _, []) (λ _, "").
Definition demo_rm (s : Scenario) : ResourceManager :=
  match ResourceManager_InitializeFromScenario (λ _, 0) s NewManager with Ok m => m | _ => NewManager end.
Definition demo_graph (s : Scenario) : Graph :=
  match NewGraph (endpoint_keys s) s with Some (Ok g) => g | _ => mkGraph ∅ ∅ ∅ end.
Definition demo_policies : option PolicyManager :=
  Some (mkPolicyManager None None (Some (NewRetryPolicy true 2 "constant" 10)) None).
Definition demo_world (s : Scenario) : World :=
  mkWorld (newScenarioState s (demo_rm s) (NewCollector 0 None None None) demo_policies (demo_graph s)
             (mkRandSource (λ _, f0) (λ _, f0) (λ _, f0)) (λ _, f0) (λ n, "id-" +:+ Itoa (Z.of_nat n)) demo_outside)
    (setup_engine sample_env 0 "run" 100 (mkRuntimeLimits 0 50 0 0) []) [].
Definition demo_arrival : Event :=
  mkEvent "" EventTypeRequestArrival 105 0 0 None ""
    (mapOf [("service_id", DString "web"); ("endpoint_path", DString "/")]).
(** Dispatches, for each given type, the latest scheduled event of that type. *)
Definition outcome_world (o : outcome unit) : option World :=
  match o with Done _ w | Err _ w => Some w | _ => None end.
Definition latest (ty : EventType) (w : World) : option Event :=
  head (filter (λ ev, ev_Type ev = ty) (schedules (w_acts w))).
Definition dispatch (w : World) (evt : Event) : option World :=
  handler_of (ev_Type evt) ≫= λ h, outcome_world (h evt w).
Fixpoint drive (tys : list EventType) (w : World) : option World :=
  match tys with
  | [] => Some w
  | ty :: tys => (latest ty w ≫= dispatch w) ≫= drive tys
  end.

Lemma dispatch_reachable c w evt w' :
  sim_reachable c w → dispatchable c w evt → dispatch w evt = Some w' → sim_reachable c w'.
Proof.
  intros [scenario rm collector policies graph rng brng ids out eng Hc Hm Hr] Hd. unfold dispatch.
  destruct (handler_of (ev_Type evt)) as [h|] eqn:Hh; [|done]. cbn. intros E.
  apply (sim_reach c w' scenario rm collector policies graph rng brng ids out eng); [done..|].
  eapply rtc_r; [exact Hr|]. apply (step_handler c w w' evt h); [done..|].
  by destruct (h evt w); cbn in *; simplify_eq.
Qed.
Lemma elem_of_schedules ev acts : ev ∈ schedules acts → ActSchedule ev ∈ acts.
Proof. intros (a & Ha & E)%list_elem_of_omap. destruct a; simplify_eq. done. Qed.
Lemma drive_reachable c tys : ∀ w w', sim_reachable c w → drive tys w = Some w' → sim_reachable c w'.
Proof.
  induction tys as [|ty tys IH]; intros w w' Hw; cbn [drive]; [by intros [= <-]|].
  destruct (latest ty w) as [evt|] eqn:El; [|done]. cbn. destruct (dispatch w evt) as [w1|] eqn:Ed; [|done]. cbn.
  apply IH. eapply dispatch_reachable; [done| |done]. left. exists evt. split; [|by split_and!].
  apply elem_of_schedules. unfold latest in El. apply head_Some in El as (l & El).
  assert (Hin : evt ∈ filter (λ ev, ev_Type ev = ty) (schedules (w_acts w))) by (rewrite El; left).
  by apply list_elem_of_filter in Hin as [_ ?].
Qed.
Definition demo_conf (s : Scenario) : RunConf := run_conf s demo_policies.
Definition failing : Scenario := demo_scenario f1 f1.
Lemma demo_reach : sim_reachable (demo_conf failing) (demo_world failing).
Proof.
  apply (sim_reach _ _ failing (demo_rm failing) (NewCollector 0 None None None) demo_policies (demo_graph failing)
           (mkRandSource (λ _, f0) (λ _, f0) (λ _, f0)) (λ _, f0) (λ n, "id-" +:+ Itoa (Z.of_nat n)) demo_outside
           (setup_engine sample_env 0 "run" 100 (mkRuntimeLimits 0 50 0 0) [])); [done|by vm_compute|apply rtc_refl].
Qed.
Lemma demo_arrival_dispatchable w : dispatchable (demo_conf failing) w demo_arrival.
Proof. right. split; [done|]. by vm_compute. Qed.
Definition driven (tys : list EventType) : option World :=
  dispatch (demo_world failing) demo_arrival ≫= drive tys.
Lemma driven_reachable tys w : driven tys = Some w → sim_reachable (demo_conf failing) w.
Proof.
  unfold driven. destruct (dispatch _ _) as [w1|] eqn:E; [|done]. cbn. apply drive_reachable.
  eapply dispatch_reachable; [apply demo_reach|apply demo_arrival_dispatchable|done].
Qed.
Definition to_retry : list EventType :=
  [EventTypeRequestStart; EventTypeRequestComplete; EventTypeDownstreamCall; EventTypeRequestStart].
Definition demo_retry : World := default (demo_world failing) (driven to_retry).
Lemma demo_retry_reachable : sim_reachable (demo_conf failing) demo_retry.
Proof.
  apply (driven_reachable to_retry). unfold demo_retry.
  assert (Hd : (match driven to_retry with Some _ => true | None => false end) = true) by (vm_compute; reflexivity). by destruct (driven to_retry).
Qed.

Lemma handlers_terminate_witness : handleRequestArrival demo_arrival demo_retry ≠ NoFuel.
Proof.
  apply (handlers_terminate (demo_conf failing)); [apply demo_retry_reachable|apply demo_arrival_dispatchable|reflexivity].
Defined.
Lemma requests_finalized_once_witness : (nfin 1 (w_acts demo_retry) ≤ 1)%nat.
Proof. apply (requests_finalized_once (demo_conf failing) demo_retry demo_retry_reachable). Defined.
Lemma depth_limits_hold_witness :
  ∃ r, st_heap (w_st demo_retry) !! 2%positive = Some r ∧ metadataInt (q_Metadata r) "trace_depth" ≤ 3.
Proof.
  assert (Hd : (match st_heap (w_st demo_retry) !! 2%positive with Some _ => true | None => false end) = true) by (vm_compute; reflexivity).
  destruct (st_heap (w_st demo_retry) !! 2%positive) as [r|] eqn:E; [|discriminate Hd].
  exists r. split; [done|].
  destruct (depth_limits_hold (demo_conf failing) demo_retry (mkSimLimits 3 0) demo_retry_reachable eq_refl) as [H _].
  apply (H 2%positive r E). reflexivity.
Defined.
Lemma retries_within_budget_witness :
  ∃ ev, ActSchedule ev ∈ w_acts demo_retry ∧ metadataInt (ev_Data ev) metaRetryAttempt ≤ 2.
Proof.
  assert (Hd : (match latest EventTypeDownstreamRetry demo_retry with Some _ => true | None => false end) = true) by (vm_compute; reflexivity).
  destruct (latest EventTypeDownstreamRetry demo_retry) as [ev|] eqn:E; [|discriminate Hd].
  apply head_Some in E as (l & E).
  assert (Hin : ev ∈ filter (λ ev, ev_Type ev = EventTypeDownstreamRetry) (schedules (w_acts demo_retry)))
    by (rewrite E; left).
  apply list_elem_of_filter in Hin as [Hty Hin]. apply elem_of_schedules in Hin. exists ev. split; [done|].
  destruct (retries_within_budget (demo_conf failing) demo_retry ev demo_retry_reachable Hin Hty) as (rp & Erp & _ & H).
  injection Erp as <-. exact H.
Defined.
Definition demo_request : ReqObject := new_request "r" "tr" "worker" "/job" 9 ∅.
Lemma event_data_roundtrip_witness :
  redelivered 9 (ack_data demo_request "q" "t" (mkMessage "m" 5 1 "p" "tr" ∅ 0) []) 0 = mkMessage "m" 5 2 "p" "tr" ∅ 0.
Proof.
  apply (event_data_roundtrip 9 demo_request "q" "t" "g" 0 (mkMessage "m" 5 1 "p" "tr" ∅ 0) "parent"
           (mkRetryCall "s" "/" 0 0 false f0 1 "l" no_topology)); reflexivity.
Defined.
Lemma demo_sound : sound (demo_world failing).
Proof.
  split; [|apply (reachable_ok (λ _, 0)), (reach_init _ failing); by vm_compute|apply NoDup_nil_2|intros n Hn; split; [done|exact Hn]].
  intros id p. unfold RunManager_GetRequest. vm_compute. done.
Qed.
Lemma drain_sweep_continues_witness :
  ∃ w', handleDrainSweep demo_arrival (demo_world failing) = Done tt w' ∧
        schedules (w_acts w') = [mkEvent "" EventTypeDrainSweep (100 + drainSweepInterval) 0 0 None "" ∅].
Proof.
  destruct (drain_sweep_continues (demo_world failing) demo_arrival demo_sound) as (w' & E & Es & _).
  exists w'. split; [exact E|]. rewrite Es. reflexivity.
Defined.
Lemma arrival_spec_witness :
  ∃ p w' r inst, handleRequestArrival demo_arrival (demo_world failing) = Done tt w' ∧
    st_heap (w_st w') !! p = Some r ∧ q_ServiceName r = "web" ∧ serves "web" (st_rm (w_st w')) inst.
Proof.
  assert (Hd : (match handleRequestArrival demo_arrival (demo_world failing) with Done _ _ => true | _ => false end) = true)
    by (vm_compute; reflexivity).
  destruct (arrival_spec (demo_world failing) demo_arrival "web" "/" demo_sound eq_refl eq_refl)
    as (p & rid & tid & w' & _ & _ & _ & [(inst & E & Hi & H & _)|(msg & E & _)]); [|rewrite E in Hd; discriminate Hd].
  exists p, w'. eexists _, inst. split; [exact E|]. split; [exact H|]. split; [reflexivity|exact Hi].
Defined.

(** * Whole runs *)

(** The engine with every handler registered, on one arrival; what is left of each
    request at the end: service, status and completion time. *)
Definition demo_run (s : Scenario) (ms : Z) : option (list (string * RequestStatus * Time)) :=
  match Engine_Run RegisterHandlers 60 quiet_env 0 1 (ms * Millisecond) (Some (w_st (demo_world s)))
          (setup_engine sample_env 0 "run" 100 (mkRuntimeLimits 0 50 0 0) [ActSchedule demo_arrival]) with
  | Some (Ok (Some st, _, _, RunNil)) =>
      Some ((λ kv, (q_ServiceName kv.2, q_Status kv.2, q_CompletionTime kv.2)) <$> map_to_list (st_heap st))
  | _ => None
  end.
(** A message's consumer carries the producer as its parent but not the mark of an
    asynchronous call, so its end counts as the end of a synchronous child: the gateway
    completes with [worker], 49 ms before the synchronous call to [api] returns. *)
Example queue_consumer_releases_producer :
  demo_run (demo_scenario f0 (f64_of_Z 50)) 200 =
  Some [("worker", RequestStatusCompleted, 3000105); ("api", RequestStatusCompleted, 52000105);
        ("web", RequestStatusCompleted, 3000105)].
Proof. vm_compute. reflexivity. Qed.
(** A rejected arrival is failed but stays among the active requests of the run manager. *)
Example rejected_arrival_stays_active :
  let w := demo_world (failing <| scn_Services := [] |>) in
  match handleRequestArrival demo_arrival w with
  | Err _ w' => size (rm_requests (eng_runManager (w_eng w'))) = 1%nat
  | _ => False
  end.
Proof. vm_compute. reflexivity. Qed.
