(* ===== verification/Workload.v ===== *)
(** [internal/simd/workload_state.go]: the live workload of a run, which draws arrival
    times pattern by pattern and schedules arrival events ahead of the clock, in windows.
    The order in which Go visits the map of patterns is an argument, and so is the fuel of
    the scheduling loop; [None] is a loop that has not ended within its fuel. *)
From S2P Require Import Prelude GoFloat Utils EventQueue RunManager Engine Policy Config Graph.
From S2P Require Import BrokerQueue Instance ResourceManager Routing Collector SimState.
From Stdlib Require Import SpecFloat.
#[local] Open Scope string_scope.
#[local] Open Scope list_scope.
#[local] Open Scope Z_scope.

(** * Constants and state *)

Definition DefaultFallbackRateRPS : float64 := f1.
Definition DefaultStdDevPercentage : float64 := f64_lit 1 10.
Definition MinInterArrivalTimeSeconds : float64 := f64_lit 1 1000.
Definition EventGenerationLookaheadWindow : Duration := 10 * Second.
Definition uniformCompactionThreshold : Z := 2048.

Record WorkloadPatternState := mkPattern {
  wp_Pattern : WorkloadPattern;
  wp_ServiceID : string;
  wp_EndpointPath : string;
  wp_Epoch : Time;
  wp_LastEventTime : Time;
  wp_NextEventTime : Time;
  wp_uniformTimes : list Time;
  wp_uniformCursor : Z;
  wp_uniformLazy : bool;
  wp_uniformStreamWatermark : Time;
  wp_uniformGlobalCountMode : bool;
  wp_uniformRemaining : Z;
  wp_Active : bool;
}.
#[export] Instance eta_WorkloadPatternState : Eta WorkloadPatternState := λ r, mkPattern (wp_Pattern r)
  (wp_ServiceID r) (wp_EndpointPath r) (wp_Epoch r) (wp_LastEventTime r) (wp_NextEventTime r)
  (wp_uniformTimes r) (wp_uniformCursor r) (wp_uniformLazy r) (wp_uniformStreamWatermark r)
  (wp_uniformGlobalCountMode r) (wp_uniformRemaining r) (wp_Active r).
(** The engine is passed along; [ws_done] says whether the context is cancelled. *)
Record WorkloadState := mkWorkloadState {
  ws_runID : string;
  ws_patterns : gmap string WorkloadPatternState;
  ws_generator : RandSource;
  ws_done : bool;
  ws_endTime : Time;
  ws_realTimeMode : bool;
  ws_generatedHorizon : Time;
}.
#[export] Instance eta_WorkloadState : Eta WorkloadState := λ r, mkWorkloadState (ws_runID r) (ws_patterns r)
  (ws_generator r) (ws_done r) (ws_endTime r) (ws_realTimeMode r) (ws_generatedHorizon r).
Definition NewWorkloadState (runID : string) (endTime : Time) (gen : RandSource) : WorkloadState :=
  mkWorkloadState runID ∅ gen false endTime false zeroTime.
Definition WorkloadState_Stop (ws : WorkloadState) : WorkloadState := ws <| ws_done := true |>.
Definition WorkloadState_GeneratedHorizon (ws : WorkloadState) : Time := ws_generatedHorizon ws.
Definition patternKey (from to : string) : string := from +:+ ":" +:+ to.

(** * Inter-arrival times *)

(** [t.Add(time.Duration(seconds * float64(time.Second)))]. *)
Definition seconds_later (t : Time) (seconds : float64) : Time := t + f64_to_int (fmul seconds (f64_of_Z Second)).
Definition at_least_min (seconds : float64) : float64 :=
  if fltb seconds MinInterArrivalTimeSeconds then MinInterArrivalTimeSeconds else seconds.
Definition rate_or (rate dflt : float64) : float64 := if fleb rate f0 then dflt else rate.
Definition set_or (x dflt : float64) : float64 := if fltb f0 x then x else dflt.
(** The burst after the one of cycle [cycleNumber], later than [t]. *)
Definition next_burst (epoch t : Time) (cycleNumber : Z) (cycleDuration : float64) : Time :=
  let start k := seconds_later epoch (fmul (f64_of_Z (wrap64 (cycleNumber + k))) cycleDuration) in
  if After (start 1) t then start 1 else start 2.
Definition cycle_position (epoch t : Time) (cycleDuration : float64) : Z * float64 :=
  let since := Seconds (Sub t epoch) in
  let cycleNumber := f64_to_int (math_Floor (fdiv since cycleDuration)) in
  (cycleNumber, fsub since (fmul (f64_of_Z cycleNumber) cycleDuration)).
(** The loop of [burstyNextArrivalTime]; it panics after [maxIter] rounds. *)
Fixpoint burst_loop (fuel : nat) (epoch : Time) (burstRate burstDuration cycleDuration : float64)
    (t : Time) (gen : RandSource) : go (Time * RandSource) :=
  match fuel with
  | O => Panic
  | S fuel =>
      let t := if fltb (Seconds (Sub t epoch)) f0 then epoch else t in
      let '(cycleNumber, timeInCycle) := cycle_position epoch t cycleDuration in
      if negb (fltb timeInCycle burstDuration) then
        burst_loop fuel epoch burstRate burstDuration cycleDuration (next_burst epoch t cycleNumber cycleDuration) gen
      else
        let '(x, gen) := RandSource_ExpFloat64 burstRate gen in
        let candidate := seconds_later t (at_least_min x) in
        let '(cycleNumber, timeInCycle) := cycle_position epoch candidate cycleDuration in
        if fltb timeInCycle burstDuration then Ok (candidate, gen)
        else burst_loop fuel epoch burstRate burstDuration cycleDuration
               (next_burst epoch t cycleNumber cycleDuration) gen
  end.
Definition maxIter : nat := Z.to_nat 100000.
Definition burstyNextArrivalTime (epoch lastEventTime : Time) (arrival : ArrivalSpec) (gen : RandSource)
    : go (Time * RandSource) :=
  let baseRate := rate_or (ar_RateRPS arrival) (f64_of_Z 10) in
  let burstRate := set_or (ar_BurstRateRPS arrival) (fmul baseRate (f64_of_Z 5)) in
  let burstDuration := set_or (ar_BurstDurationSeconds arrival) (f64_of_Z 5) in
  let quietDuration := set_or (ar_QuietDurationSeconds arrival) (f64_of_Z 10) in
  let cycleDuration := fadd burstDuration quietDuration in
  if fleb cycleDuration f0 || fleb burstDuration f0 then
    let '(x, gen) := RandSource_ExpFloat64 baseRate gen in
    Ok (seconds_later lastEventTime (at_least_min x), gen)
  else
    burst_loop maxIter epoch burstRate burstDuration cycleDuration
      (if Before lastEventTime epoch then epoch else lastEventTime) gen.
Definition calculateNextArrivalTime (arrival : ArrivalSpec) (currentTime epoch : Time) (gen : RandSource)
    : go (Time * RandSource) :=
  let rate := rate_or (ar_RateRPS arrival) DefaultFallbackRateRPS in
  let ty := ar_Type arrival in
  if String.eqb ty "poisson" || String.eqb ty "exponential" then
    let '(x, gen) := RandSource_ExpFloat64 rate gen in
    Ok (seconds_later currentTime (at_least_min x), gen)
  else if String.eqb ty "constant" then Ok (seconds_later currentTime (fdiv f1 rate), gen)
  else if String.eqb ty "normal" || String.eqb ty "gaussian" then
    let stddevRPS := rate_or (ar_StdDevRPS arrival) (fmul rate DefaultStdDevPercentage) in
    let '(x, gen) := RandSource_NormFloat64 (fdiv f1 rate) (fdiv stddevRPS (fmul rate rate)) gen in
    Ok (seconds_later currentTime (at_least_min x), gen)
  else if String.eqb ty "bursty" then burstyNextArrivalTime epoch currentTime arrival gen
  else Panic.

(** * Uniform arrivals *)

(** The arrival times of [n] uniform draws in the interval, in the order of the draws. *)
Fixpoint place_times (n : nat) (startTime endTime : Time) (totalSeconds : float64) (gen : RandSource)
    : list Time * RandSource :=
  match n with
  | O => ([], gen)
  | S n =>
      let '(x, gen) := RandSource_UniformFloat64 f0 totalSeconds gen in
      let arrivalTime := seconds_later startTime x in
      let '(times, gen) := place_times n startTime endTime totalSeconds gen in
      (if After arrivalTime endTime then times else arrivalTime :: times, gen)
  end.
(** [sort.Slice] by [Before]: equal times cannot be told apart. *)
Definition sort_times (l : list Time) : list Time := merge_sort Z.le l.
Definition uniformPlaceNInInterval (startTime endTime : Time) (n : Z) (gen : RandSource)
    : list Time * RandSource :=
  if n <=? 0 then ([], gen)
  else
    let totalSeconds := Seconds (Sub endTime startTime) in
    if fleb totalSeconds f0 then ([], gen)
    else
      let '(times, gen) := place_times (Z.to_nat n) startTime endTime totalSeconds gen in
      (sort_times times, gen).
Definition sampleUniformArrivalTimes (startTime endTime : Time) (rateRPS : float64) (gen : RandSource)
    : list Time * RandSource :=
  let totalSeconds := Seconds (Sub endTime startTime) in
  if fleb totalSeconds f0 then ([], gen)
  else uniformPlaceNInInterval startTime endTime (f64_to_int (math_Round (fmul rateRPS totalSeconds))) gen.
Definition sampleLazyUniformChunk (chunkStart chunkEnd : Time) (rateRPS : float64) (epoch : Time)
    (gen : RandSource) : list Time * RandSource :=
  let sec0 := Seconds (Sub chunkStart epoch) in
  let sec1 := Seconds (Sub chunkEnd epoch) in
  if fleb sec1 sec0 then ([], gen)
  else
    let sec0 := if fltb sec0 f0 then f0 else sec0 in
    let n := wrap64 (f64_to_int (math_Floor (fmul rateRPS sec1)) - f64_to_int (math_Floor (fmul rateRPS sec0))) in
    uniformPlaceNInInterval chunkStart chunkEnd (if n <? 0 then 0 else n) gen.
Fixpoint bernoulli_sum (n : nat) (p : float64) (gen : RandSource) : Z * RandSource :=
  match n with
  | O => (0, gen)
  | S n =>
      let '(b, gen) := RandSource_BernoulliBool p gen in
      let '(out, gen) := bernoulli_sum n p gen in
      (if b then out + 1 else out, gen)
  end.
Definition sampleBinomial (n : Z) (p : float64) (gen : RandSource) : Z * RandSource :=
  if (n <=? 0) || fleb p f0 then (0, gen)
  else if fleb f1 p then (n, gen)
  else if n <=? 200000 then bernoulli_sum (Z.to_nat n) p gen
  else
    let mean := fmul (f64_of_Z n) p in
    let stddev := SFsqrt 53 1024 (fmul (fmul (f64_of_Z n) p) (fsub f1 p)) in
    let '(x, gen) := RandSource_NormFloat64 mean stddev gen in
    let val := math_Round x in
    (if fltb val f0 then 0 else if fltb (f64_of_Z n) val then n else f64_to_int val, gen).
(** How many of the remaining arrivals fall into the chunk. *)
Definition sampleGlobalUniformChunkCount (wsEnd : Time) (ps : WorkloadPatternState) (chunkStart chunkEnd : Time)
    (gen : RandSource) : Z * WorkloadPatternState * RandSource :=
  let rem := wp_uniformRemaining ps in
  let all := (rem, ps <| wp_uniformRemaining := 0 |>, gen) in
  if negb (Before chunkStart chunkEnd) || (rem <=? 0) then (0, ps, gen)
  else if negb (Before chunkEnd wsEnd) then all
  else
    let remainingDuration := Seconds (Sub wsEnd chunkStart) in
    if fleb remainingDuration f0 then all
    else
      let p := fdiv (Seconds (Sub chunkEnd chunkStart)) remainingDuration in
      if fleb p f0 then (0, ps, gen)
      else if fleb f1 p then all
      else
        let '(n, gen) := sampleBinomial rem p gen in
        let n := if rem <? n then rem else n in
        (n, ps <| wp_uniformRemaining := rem - n |>, gen).
Definition compactUniformSchedule (ps : WorkloadPatternState) : WorkloadPatternState :=
  if negb (wp_uniformLazy ps) || (wp_uniformCursor ps <? uniformCompactionThreshold) then ps
  else
    ps <| wp_uniformTimes := drop (Z.to_nat (wp_uniformCursor ps)) (wp_uniformTimes ps) |>
       <| wp_uniformCursor := 0 |>.
(** One chunk of the schedule, starting at the watermark. *)
Definition extend_chunk (wsEnd : Time) (ps : WorkloadPatternState) (gen : RandSource)
    : WorkloadPatternState * RandSource :=
  let chunkStart := wp_uniformStreamWatermark ps in
  let chunkEnd := chunkStart + EventGenerationLookaheadWindow in
  let chunkEnd := if After chunkEnd wsEnd then wsEnd else chunkEnd in
  let '(part, ps, gen) :=
    if wp_uniformGlobalCountMode ps then
      let '(n, ps, gen) := sampleGlobalUniformChunkCount wsEnd ps chunkStart chunkEnd gen in
      let '(part, gen) := uniformPlaceNInInterval chunkStart chunkEnd n gen in
      (part, ps, gen)
    else
      let '(part, gen) := sampleLazyUniformChunk chunkStart chunkEnd (ar_RateRPS (wl_Arrival (wp_Pattern ps)))
                            (wp_Epoch ps) gen in
      (part, ps, gen) in
  let times := wp_uniformTimes ps ++ part in
  let k := Z.to_nat (wp_uniformCursor ps) in
  (ps <| wp_uniformTimes := take k times ++ sort_times (drop k times) |>
      <| wp_uniformStreamWatermark := chunkEnd |>, gen).
Fixpoint extend_chunks (fuel : nat) (wsEnd coverThrough : Time) (ps : WorkloadPatternState) (gen : RandSource)
    : WorkloadPatternState * RandSource :=
  match fuel with
  | O => (ps, gen)
  | S fuel =>
      if Before (wp_uniformStreamWatermark ps) coverThrough && Before (wp_uniformStreamWatermark ps) wsEnd then
        let '(ps, gen) := extend_chunk wsEnd ps gen in extend_chunks fuel wsEnd coverThrough ps gen
      else (ps, gen)
  end.
(** The loop ends: a chunk moves the watermark by a window or to the end. *)
Definition chunk_fuel (from through : Time) : nat :=
  Z.to_nat ((through - from) / EventGenerationLookaheadWindow + 2).
Definition ensureUniformHorizon (wsEnd : Time) (ps : WorkloadPatternState) (coverThrough : Time) (gen : RandSource)
    : WorkloadPatternState * RandSource :=
  if negb (wp_uniformLazy ps) then (ps, gen)
  else
    let coverThrough := if After coverThrough wsEnd then wsEnd else coverThrough in
    let '(ps, gen) := extend_chunks (chunk_fuel (wp_uniformStreamWatermark ps) coverThrough) wsEnd coverThrough ps gen in
    (compactUniformSchedule ps, gen).

(** * Scheduling *)

(** The arrival after the one scheduled at [scheduledAt]. *)
Definition advanceToNextArrival (wsEnd : Time) (ps : WorkloadPatternState) (scheduledAt : Time) (gen : RandSource)
    : go (Time * WorkloadPatternState * RandSource) :=
  if negb (String.eqb (ar_Type (wl_Arrival (wp_Pattern ps))) "uniform") then
    let! r := calculateNextArrivalTime (wl_Arrival (wp_Pattern ps)) scheduledAt (wp_Epoch ps) gen in
    Ok (fst r, ps, snd r)
  else
    let '(ps, gen) :=
      if wp_uniformLazy ps then ensureUniformHorizon wsEnd ps (scheduledAt + EventGenerationLookaheadWindow) gen
      else (ps, gen) in
    match wp_uniformTimes ps with
    | [] => Ok (wsEnd, ps, gen)
    | _ =>
        let ps := compactUniformSchedule (ps <| wp_uniformCursor := wp_uniformCursor ps + 1 |>) in
        let current ps := wp_uniformTimes ps !! Z.to_nat (wp_uniformCursor ps) in
        match current ps with
        | Some t => Ok (t, ps, gen)
        | None =>
            if wp_uniformLazy ps && Before (wp_uniformStreamWatermark ps) wsEnd then
              let '(ps, gen) := ensureUniformHorizon wsEnd ps
                                  (wp_uniformStreamWatermark ps + EventGenerationLookaheadWindow) gen in
              Ok (default wsEnd (current ps), ps, gen)
            else Ok (wsEnd, ps, gen)
        end
    end.
Definition workloadArrivalEventData (ps : WorkloadPatternState) : Metadata :=
  let p := wp_Pattern ps in
  let data := mapOf [("service_id", DString (wp_ServiceID ps)); ("endpoint_path", DString (wp_EndpointPath ps));
                     ("from", DString (wl_From p)); ("source_kind", DString (wl_SourceKind p));
                     ("traffic_class", DString (wl_TrafficClass p))] in
  if bool_decide (wl_Metadata p = ∅) then data
  else <["metadata" := DMap (DString <$> wl_Metadata p)]> data.
Definition schedule_arrival (ps : WorkloadPatternState) (eng : Engine) : Engine :=
  Engine_ScheduleAt EventTypeRequestArrival (wp_NextEventTime ps) None (wp_ServiceID ps)
    (workloadArrivalEventData ps) eng.
(** What the generation of one pattern leaves: how many arrivals, whether a guardrail
    stopped it, and the new state. *)
Record Generated := mkGenerated {
  gd_count : Z;
  gd_stopped : bool;
  gd_pattern : WorkloadPatternState;
  gd_gen : RandSource;
  gd_eng : Engine;
}.
(** The inner loop of [generateUpToHorizon] ([guarded]) and [generateNextEvents]. *)
Fixpoint generate_pattern (fuel : nat) (guarded : bool) (wsEnd horizon : Time) (n : Z)
    (ps : WorkloadPatternState) (gen : RandSource) (eng : Engine) : option (go Generated) :=
  match fuel with
  | O => None
  | S fuel =>
      if Before (wp_NextEventTime ps) horizon && Before (wp_NextEventTime ps) wsEnd then
        let eng := schedule_arrival ps eng in
        if guarded && bool_decide (is_Some (Engine_guardrailErr eng)) then
          Some (Ok (mkGenerated (n + 1) true ps gen eng))
        else
          match advanceToNextArrival wsEnd ps (wp_NextEventTime ps) gen with
          | Ok (nextTime, ps', gen) =>
              generate_pattern fuel guarded wsEnd horizon (n + 1)
                (ps' <| wp_LastEventTime := wp_NextEventTime ps' |> <| wp_NextEventTime := nextTime |>) gen eng
          | Fail e => Some (Fail e)
          | Panic => Some Panic
          end
      else Some (Ok (mkGenerated n false ps gen eng))
  end.
(** One pattern: a uniform one first extends its schedule to the horizon. *)
Definition generate_one (fuel : nat) (guarded : bool) (wsEnd horizon : Time) (n : Z) (ps : WorkloadPatternState)
    (gen : RandSource) (eng : Engine) : option (go Generated) :=
  let '(ps, gen) :=
    if String.eqb (ar_Type (wl_Arrival (wp_Pattern ps))) "uniform" && wp_uniformLazy ps
    then ensureUniformHorizon wsEnd ps horizon gen else (ps, gen) in
  generate_pattern fuel guarded wsEnd horizon n ps gen eng.
(** The patterns one after the other, in the order of the map iteration. *)
Fixpoint generate_patterns (fuel : nat) (guarded : bool) (horizon : Time) (order : list string) (n : Z)
    (ws : WorkloadState) (eng : Engine) : option (go (Z * WorkloadState * Engine)) :=
  match order with
  | [] => Some (Ok (n, ws, eng))
  | key :: order =>
      match ws_patterns ws !! key with
      | None => generate_patterns fuel guarded horizon order n ws eng
      | Some ps =>
          if guarded && ws_done ws then Some (Ok (n, ws, eng))
          else if negb (wp_Active ps) then generate_patterns fuel guarded horizon order n ws eng
          else
            match generate_one fuel guarded (ws_endTime ws) horizon n ps (ws_generator ws) eng with
            | None => None
            | Some (Ok g) =>
                let ws := ws <| ws_patterns := <[key := gd_pattern g]> (ws_patterns ws) |>
                             <| ws_generator := gd_gen g |> in
                if gd_stopped g then Some (Ok (gd_count g, ws, gd_eng g))
                else generate_patterns fuel guarded horizon order (gd_count g) ws (gd_eng g)
            | Some (Fail e) => Some (Fail e)
            | Some Panic => Some Panic
            end
      end
  end.
Definition clip (wsEnd t : Time) : Time := if After t wsEnd then wsEnd else t.
Definition WorkloadState_generateUpToHorizon (fuel : nat) (order : list string) (horizon : Time)
    (ws : WorkloadState) (eng : Engine) : option (go (Z * WorkloadState * Engine)) :=
  if negb (Before (SimTime_Now (eng_simTime eng)) (ws_endTime ws)) then Some (Ok (0, ws, eng))
  else generate_patterns fuel true (clip (ws_endTime ws) horizon) order 0 ws eng.
Definition WorkloadState_generateNextEvents (fuel : nat) (order : list string) (ws : WorkloadState) (eng : Engine)
    : option (go (Z * WorkloadState * Engine)) :=
  let now := SimTime_Now (eng_simTime eng) in
  if After now (ws_endTime ws) then Some (Ok (0, ws, eng))
  else generate_patterns fuel false (clip (ws_endTime ws) (now + EventGenerationLookaheadWindow)) order 0 ws eng.
(** The non-uniform loop of [generateAllEventsUpToEndTime]; a uniform schedule is not extended first. *)
Fixpoint generate_all (fuel : nat) (order : list string) (ws : WorkloadState) (eng : Engine)
    : option (go (WorkloadState * Engine)) :=
  match order with
  | [] => Some (Ok (ws, eng))
  | key :: order =>
      match ws_patterns ws !! key with
      | None => generate_all fuel order ws eng
      | Some ps =>
          if negb (wp_Active ps) then generate_all fuel order ws eng
          else
            match generate_pattern fuel false (ws_endTime ws) (ws_endTime ws) 0 ps (ws_generator ws) eng with
            | None => None
            | Some (Ok g) =>
                generate_all fuel order (ws <| ws_patterns := <[key := gd_pattern g]> (ws_patterns ws) |>
                                            <| ws_generator := gd_gen g |>) (gd_eng g)
            | Some (Fail e) => Some (Fail e)
            | Some Panic => Some Panic
            end
      end
  end.
Definition WorkloadState_handleWorkloadGenerate (fuel : nat) (order : list string) (ws : WorkloadState)
    (eng : Engine) : option (go (WorkloadState * Engine)) :=
  if ws_done ws then Some (Ok (ws, eng))
  else
    let nextHorizon := clip (ws_endTime ws) (SimTime_Now (eng_simTime eng) + EventGenerationLookaheadWindow) in
    match WorkloadState_generateUpToHorizon fuel order nextHorizon ws eng with
    | Some (Ok (_, ws, eng)) =>
        let ws := if After nextHorizon (ws_generatedHorizon ws)
                  then ws <| ws_generatedHorizon := nextHorizon |> else ws in
        Some (Ok (ws, if Before nextHorizon (ws_endTime ws)
                      then Engine_ScheduleAt EventTypeWorkloadGenerate nextHorizon None "" ∅ eng else eng))
    | Some (Fail e) => Some (Fail e)
    | Some Panic => Some Panic
    | None => None
    end.

(** * Start and changes *)

Definition uniform_total (rate : float64) (from wsEnd : Time) : Z :=
  let n := f64_to_int (math_Round (fmul rate (Seconds (Sub wsEnd from)))) in
  if n <? 0 then 0 else n.
(** The first arrival of a uniform schedule. *)
Definition first_uniform (wsEnd : Time) (ps : WorkloadPatternState) : WorkloadPatternState :=
  ps <| wp_NextEventTime := default wsEnd (head (wp_uniformTimes ps)) |>.
Definition is_uniform (a : ArrivalSpec) : bool := String.eqb (ar_Type a) "uniform".
Definition init_pattern (startTime : Time) (realTime : bool) (ws : WorkloadState) (wl : WorkloadPattern)
    : go WorkloadState :=
  let! target := wrap_err ("invalid workload target " +:+ wl_To wl +:+ ": ") (ParseDownstreamTarget (wl_To wl)) in
  let uniform := is_uniform (wl_Arrival wl) in
  let! first := if uniform then Ok (zeroTime, ws_generator ws)
                else calculateNextArrivalTime (wl_Arrival wl) startTime startTime (ws_generator ws) in
  let remaining := if uniform && negb realTime
                   then uniform_total (ar_RateRPS (wl_Arrival wl)) startTime (ws_endTime ws) else 0 in
  let ps := mkPattern wl (fst target) (snd target) startTime startTime (fst first) [] 0 uniform
              (if uniform then startTime else zeroTime) (negb realTime) remaining true in
  let '(ps, gen) :=
    if uniform then
      let '(ps, gen) := ensureUniformHorizon (ws_endTime ws) ps (startTime + EventGenerationLookaheadWindow) (snd first) in
      (first_uniform (ws_endTime ws) ps, gen)
    else (ps, snd first) in
  Ok (ws <| ws_patterns := <[patternKey (wl_From wl) (wl_To wl) := ps]> (ws_patterns ws) |>
         <| ws_generator := gen |>).
Definition WorkloadState_initPatternsLocked (scenario : Scenario) (startTime : Time) (realTime : bool)
    (ws : WorkloadState) : go WorkloadState :=
  go_fold (init_pattern startTime realTime) (ws <| ws_patterns := ∅ |>) (scn_Workload scenario).
(** [Start]; whether the handler for further windows (standard mode) is registered. *)
Definition WorkloadState_Start (fuel : nat) (order : list string) (scenario : Scenario) (startTime : Time)
    (realTime : bool) (ws : WorkloadState) (eng : Engine) : option (go (WorkloadState * Engine * bool)) :=
  match WorkloadState_initPatternsLocked scenario startTime realTime (ws <| ws_realTimeMode := realTime |>) with
  | Fail e => Some (Fail e)
  | Panic => Some Panic
  | Ok ws =>
      if realTime then
        match WorkloadState_generateNextEvents fuel order ws eng with
        | Some (Ok (_, ws, eng)) => Some (Ok (ws, eng, false))
        | Some (Fail e) => Some (Fail e)
        | Some Panic => Some Panic
        | None => None
        end
      else
        let initialHorizon := clip (ws_endTime ws) (startTime + EventGenerationLookaheadWindow) in
        match WorkloadState_generateUpToHorizon fuel order initialHorizon ws eng with
        | Some (Ok (_, ws, eng)) =>
            let ws := ws <| ws_generatedHorizon := initialHorizon |> in
            if Before initialHorizon (ws_endTime ws)
            then Some (Ok (ws, Engine_ScheduleAt EventTypeWorkloadGenerate initialHorizon None "" ∅ eng, true))
            else Some (Ok (ws, eng, false))
        | Some (Fail e) => Some (Fail e)
        | Some Panic => Some Panic
        | None => None
        end
  end.
(** A uniform pattern starts over at [now]. *)
Definition restart_uniform (realTimeMode : bool) (wsEnd now : Time) (rate : float64) (ps : WorkloadPatternState)
    (gen : RandSource) : WorkloadPatternState * RandSource :=
  let ps := ps <| wp_uniformLazy := true |> <| wp_uniformTimes := [] |> <| wp_uniformCursor := 0 |>
               <| wp_uniformStreamWatermark := now |> <| wp_Epoch := now |>
               <| wp_uniformGlobalCountMode := negb realTimeMode |>
               <| wp_uniformRemaining := if realTimeMode then 0 else uniform_total rate now wsEnd |> in
  let '(ps, gen) := ensureUniformHorizon wsEnd ps (now + EventGenerationLookaheadWindow) gen in
  (first_uniform wsEnd ps, gen).
Definition set_rate (rate : float64) (ps : WorkloadPatternState) : WorkloadPatternState :=
  ps <| wp_Pattern := (wp_Pattern ps) <| wl_Arrival := (wl_Arrival (wp_Pattern ps)) <| ar_RateRPS := rate |> |> |>.
Definition WorkloadState_UpdateRate (key : string) (newRateRPS : float64) (now : Time) (ws : WorkloadState)
    : go WorkloadState :=
  if fleb newRateRPS f0 then Fail "rate must be positive"
  else
    match ws_patterns ws !! key with
    | None => Fail ("workload pattern not found: " +:+ key)
    | Some ps =>
        let ps := set_rate newRateRPS ps in
        let '(ps, gen) :=
          if is_uniform (wl_Arrival (wp_Pattern ps))
          then restart_uniform (ws_realTimeMode ws) (ws_endTime ws) now newRateRPS ps (ws_generator ws)
          else (ps <| wp_NextEventTime := now |>, ws_generator ws) in
        Ok (ws <| ws_patterns := <[key := ps]> (ws_patterns ws) |> <| ws_generator := gen |>)
    end.
Definition WorkloadState_UpdatePattern (key : string) (pattern : WorkloadPattern) (now : Time) (ws : WorkloadState)
    : go WorkloadState :=
  match ws_patterns ws !! key with
  | None => Fail ("workload pattern not found: " +:+ key)
  | Some ps =>
      let! target := wrap_err ("invalid workload target " +:+ wl_To pattern +:+ ": ")
                       (ParseDownstreamTarget (wl_To pattern)) in
      let ps := ps <| wp_Pattern := pattern |> <| wp_ServiceID := fst target |>
                   <| wp_EndpointPath := snd target |> <| wp_Epoch := now |> in
      let '(ps, gen) :=
        if is_uniform (wl_Arrival pattern)
        then restart_uniform (ws_realTimeMode ws) (ws_endTime ws) now (ar_RateRPS (wl_Arrival pattern)) ps (ws_generator ws)
        else
          (ps <| wp_uniformTimes := [] |> <| wp_uniformCursor := 0 |> <| wp_uniformLazy := false |>
              <| wp_uniformStreamWatermark := zeroTime |> <| wp_uniformGlobalCountMode := false |>
              <| wp_uniformRemaining := 0 |> <| wp_NextEventTime := now |>, ws_generator ws) in
      Ok (ws <| ws_patterns := <[key := ps]> (ws_patterns ws) |> <| ws_generator := gen |>)
  end.
Definition WorkloadState_GetPattern (key : string) (ws : WorkloadState) : option WorkloadPatternState :=
  ws_patterns ws !! key.
Definition WorkloadState_GetAllPatterns (ws : WorkloadState) : gmap string WorkloadPatternState := ws_patterns ws.

(** * [internal/workload]: the generators used outside live runs *)

(** [ScheduleAt] of one arrival, with the given further data. *)
Definition arrival_event (serviceID endpointPath : string) (extra : list (string * DataVal)) (t : Time) (eng : Engine)
    : Engine :=
  Engine_ScheduleAt EventTypeRequestArrival t None serviceID
    (mapOf ([("service_id", DString serviceID); ("endpoint_path", DString endpointPath)] ++ extra)) eng.
(** [schedulePoissonArrivals] and [scheduleNormalArrivals] after their checks: [draw] is the
    gap before the minimum is applied. *)
Fixpoint gap_arrivals (fuel : nat) (draw : RandSource → float64 * RandSource) (endTime : Time)
    (emit : Time → Engine → Engine) (currentTime : Time) (gen : RandSource) (eng : Engine)
    : option (RandSource * Engine) :=
  match fuel with
  | O => None
  | S fuel =>
      if Before currentTime endTime then
        let '(x, gen) := draw gen in
        let currentTime := seconds_later currentTime (at_least_min x) in
        if negb (Before currentTime endTime) then Some (gen, eng)
        else gap_arrivals fuel draw endTime emit currentTime gen (emit currentTime eng)
      else Some (gen, eng)
  end.
Fixpoint constant_arrivals (fuel : nat) (intervalSeconds : float64) (endTime : Time) (emit : Time → Engine → Engine)
    (currentTime : Time) (gen : RandSource) (eng : Engine) : option (RandSource * Engine) :=
  match fuel with
  | O => None
  | S fuel =>
      if Before currentTime endTime then
        constant_arrivals fuel intervalSeconds endTime emit (seconds_later currentTime intervalSeconds) gen (emit currentTime eng)
      else Some (gen, eng)
  end.
Fixpoint uniform_arrivals (n : nat) (startTime endTime : Time) (totalSeconds : float64) (emit : Time → Engine → Engine)
    (gen : RandSource) (eng : Engine) : RandSource * Engine :=
  match n with
  | O => (gen, eng)
  | S n =>
      let '(x, gen) := RandSource_UniformFloat64 f0 totalSeconds gen in
      let t := seconds_later startTime x in
      uniform_arrivals n startTime endTime totalSeconds emit gen (if After t endTime then eng else emit t eng)
  end.
(** The loop of [scheduleBurstyArrivals]; the error is that time stands still. *)
Fixpoint bursty_arrivals (fuel : nat) (burstRate burstDuration cycleDuration : float64) (startTime endTime : Time)
    (emit : Time → Engine → Engine) (currentTime lastTime : Time) (gen : RandSource) (eng : Engine)
    : option (go (RandSource * Engine)) :=
  match fuel with
  | O => None
  | S fuel =>
      let position t :=
        let since := Seconds (Sub t startTime) in
        let cycleNumber := f64_to_int (fdiv since cycleDuration) in
        (cycleNumber, fsub since (fmul (f64_of_Z cycleNumber) cycleDuration)) in
      let burst_after cycleNumber := seconds_later startTime (fmul (fadd (f64_of_Z cycleNumber) f1) cycleDuration) in
      let stuck next last := negb (IsZero last) && negb (After next last) in
      let error := Some (Fail "bursty arrivals not making progress") in
      if negb (Before currentTime endTime) then Some (Ok (gen, eng))
      else
        let '(cycleNumber, timeInCycle) := position currentTime in
        if negb (fltb timeInCycle burstDuration) then
          let next := burst_after cycleNumber in
          if After next endTime then Some (Ok (gen, eng))
          else if stuck next lastTime then error
          else bursty_arrivals fuel burstRate burstDuration cycleDuration startTime endTime emit next currentTime gen eng
        else
          let '(x, gen) := RandSource_ExpFloat64 burstRate gen in
          let nextTime := seconds_later currentTime (at_least_min x) in
          if stuck nextTime lastTime then error
          else
            let '(cycleNumber, timeInCycle) := position nextTime in
            if fleb burstDuration timeInCycle then
              let next := burst_after cycleNumber in
              if After next endTime then Some (Ok (gen, eng))
              else if stuck next currentTime then error
              else bursty_arrivals fuel burstRate burstDuration cycleDuration startTime endTime emit next nextTime gen eng
            else if negb (Before nextTime endTime) then Some (Ok (gen, eng))
            else bursty_arrivals fuel burstRate burstDuration cycleDuration startTime endTime emit nextTime currentTime gen
                   (emit nextTime eng)
  end.
Definition lift_ok {A} (r : option A) : option (go A) := Ok <$> r.
Definition Generator_ScheduleArrivals (fuel : nat) (startTime endTime : Time) (arrival : ArrivalSpec)
    (serviceID endpointPath : string) (gen : RandSource) (eng : Engine) : option (go (RandSource * Engine)) :=
  let emit := arrival_event serviceID endpointPath [] in
  let rate := ar_RateRPS arrival in
  let ty := ar_Type arrival in
  if String.eqb ty "poisson" || String.eqb ty "exponential" then
    if fleb rate f0 then Some (Fail "rate must be positive")
    else lift_ok (gap_arrivals fuel (RandSource_ExpFloat64 rate) endTime emit startTime gen eng)
  else if String.eqb ty "uniform" then
    if fleb rate f0 then Some (Fail "rate must be positive")
    else
      let totalSeconds := Seconds (Sub endTime startTime) in
      Some (Ok (uniform_arrivals (Z.to_nat (f64_to_int (math_Round (fmul rate totalSeconds)))) startTime endTime
                  totalSeconds emit gen eng))
  else if String.eqb ty "normal" || String.eqb ty "gaussian" then
    let stddev := set_or (ar_StdDevRPS arrival) (fmul rate (f64_lit 1 10)) in
    if fleb rate f0 then Some (Fail "mean rate must be positive")
    else lift_ok (gap_arrivals fuel (RandSource_NormFloat64 (fdiv f1 rate) (fdiv stddev (fmul rate rate))) endTime emit
                    startTime gen eng)
  else if String.eqb ty "bursty" then
    let baseRate := rate_or rate (f64_of_Z 10) in
    let burstDuration := set_or (ar_BurstDurationSeconds arrival) (f64_of_Z 5) in
    let quietDuration := set_or (ar_QuietDurationSeconds arrival) (f64_of_Z 10) in
    bursty_arrivals fuel (set_or (ar_BurstRateRPS arrival) (fmul baseRate (f64_of_Z 5))) burstDuration
      (fadd burstDuration quietDuration) startTime endTime emit startTime zeroTime gen eng
  else if String.eqb ty "constant" then
    if fleb rate f0 then Some (Fail "rate must be positive")
    else lift_ok (constant_arrivals fuel (fdiv f1 rate) endTime emit startTime gen eng)
  else Some (Fail ("unsupported arrival type " +:+ Quote ty)).
(** [handlers.go]: [ScheduleWorkload]. *)
Definition ScheduleWorkload (fuel : nat) (scenario : Scenario) (duration : Duration) (gen : RandSource) (eng : Engine)
    : option (go (RandSource * Engine)) :=
  let startTime := SimTime_Now (eng_simTime eng) in
  let endTime := startTime + duration in
  foldl (λ acc wl,
    match acc with
    | Some (Ok (gen, eng)) =>
        match ParseDownstreamTarget (wl_To wl) with
        | Ok (serviceID, endpointPath) =>
            match Generator_ScheduleArrivals fuel startTime endTime (wl_Arrival wl) serviceID endpointPath gen eng with
            | Some r => Some (wrap_err ("failed to schedule arrivals for " +:+ wl_To wl +:+ ": ") r)
            | None => None
            end
        | Fail e => Some (Fail ("invalid workload target " +:+ wl_To wl +:+ ": " +:+ e))
        | Panic => Some Panic
        end
    | acc => acc
    end) (Some (Ok (gen, eng))) (scn_Workload scenario).

(** [user_flow.go]. *)
Record FlowStep := mkFlowStep { fs_ServiceID : string; fs_Endpoint : string; fs_DelayMs : float64; fs_Probability : float64 }.
(** Whether the step is taken, and the generator after the draw. *)
Definition takes_step (step : FlowStep) (gen : RandSource) : bool * RandSource :=
  if fleb (fs_Probability step) f0 then (false, gen)
  else if fltb (fs_Probability step) f1 then RandSource_BernoulliBool (fs_Probability step) gen
  else (true, gen).
Fixpoint flow_steps (flowID : string) (i : Z) (steps : list FlowStep) (currentTime : Time) (gen : RandSource) (eng : Engine)
    : RandSource * Engine :=
  match steps with
  | [] => (gen, eng)
  | step :: steps =>
      let '(taken, gen) := takes_step step gen in
      if negb taken then flow_steps flowID (i + 1) steps currentTime gen eng
      else
        let currentTime := if fltb f0 (fs_DelayMs step) then currentTime + ms_whole (fs_DelayMs step) else currentTime in
        flow_steps flowID (i + 1) steps currentTime gen
          (arrival_event (fs_ServiceID step) (fs_Endpoint step) [("flow_id", DString flowID); ("flow_step", DInt i)]
             currentTime eng)
  end.
Definition ScheduleUserFlow (flowID : string) (steps : list FlowStep) (startTime : Time) (gen : RandSource) (eng : Engine)
    : go (RandSource * Engine) :=
  match steps with
  | [] => Fail "user flow must have at least one step"
  | _ => Ok (flow_steps flowID 0 steps startTime gen eng)
  end.
(** The gap to the next flow, before the minimum is applied. *)
Definition flow_gap (arrival : ArrivalSpec) (startTime endTime : Time) (gen : RandSource) : float64 * RandSource :=
  let rate := ar_RateRPS arrival in
  if String.eqb (ar_Type arrival) "uniform" then
    let duration := Seconds (Sub endTime startTime) in (fdiv duration (fmul rate duration), gen)
  else if String.eqb (ar_Type arrival) "constant" then (fdiv f1 rate, gen)
  else RandSource_ExpFloat64 rate gen.
Definition flow_kind (arrival : ArrivalSpec) : string :=
  let ty := ar_Type arrival in
  if String.eqb ty "poisson" || String.eqb ty "exponential" then " for poisson arrival"
  else if String.eqb ty "uniform" then " for uniform arrival"
  else if String.eqb ty "constant" then " for constant arrival"
  else "".
(** [Time.Unix]: whole seconds, rounded down. *)
Definition Unix (t : Time) : Z := t / Second.
Fixpoint user_flows (fuel : nat) (arrival : ArrivalSpec) (startTime endTime : Time) (flowID : string) (steps : list FlowStep)
    (currentTime : Time) (gen : RandSource) (eng : Engine) : option (go (RandSource * Engine)) :=
  match fuel with
  | O => None
  | S fuel =>
      if negb (Before currentTime endTime) then Some (Ok (gen, eng))
      else if fleb (ar_RateRPS arrival) f0 then Some (Fail ("rate must be positive" +:+ flow_kind arrival))
      else
        let '(x, gen) := flow_gap arrival startTime endTime gen in
        let currentTime := seconds_later currentTime (if fltb x f0 then f64_lit 1 1000 else x) in
        if negb (Before currentTime endTime) then Some (Ok (gen, eng))
        else
          match ScheduleUserFlow (flowID +:+ "-" +:+ Itoa (Unix currentTime)) steps currentTime gen eng with
          | Ok (gen, eng) => user_flows fuel arrival startTime endTime flowID steps currentTime gen eng
          | Fail e => Some (Fail e)
          | Panic => Some Panic
          end
  end.
Definition ScheduleUserFlows (fuel : nat) (startTime endTime : Time) (arrival : ArrivalSpec) (flowID : string)
    (steps : list FlowStep) (gen : RandSource) (eng : Engine) : option (go (RandSource * Engine)) :=
  user_flows fuel arrival startTime endTime flowID steps startTime gen eng.
