(* ===== verification/WorkloadSpec.v ===== *)
(** What the live workload guarantees: the events a window schedules and where the next
    window continues, that windows do not matter for patterns with independent gaps, that
    generation ends, and that a uniform pattern's schedule has exactly its arrivals. *)
From S2P Require Import Prelude GoFloat FloatExact Utils EventQueue RunManager Engine Policy Config Graph.
From S2P Require Import BrokerQueue Instance ResourceManager Routing Collector SimState Workload.
From Stdlib Require Import SpecFloat.
#[local] Open Scope string_scope.
#[local] Open Scope list_scope.
#[local] Open Scope Z_scope.

(** * What generation schedules *)

(** The part of the pattern a step does not change. *)
Definition same_source (ps ps' : WorkloadPatternState) : Prop :=
  wp_Pattern ps' = wp_Pattern ps ∧ wp_ServiceID ps' = wp_ServiceID ps ∧ wp_EndpointPath ps' = wp_EndpointPath ps ∧
  wp_Epoch ps' = wp_Epoch ps ∧ wp_Active ps' = wp_Active ps ∧ wp_uniformLazy ps' = wp_uniformLazy ps ∧
  wp_uniformGlobalCountMode ps' = wp_uniformGlobalCountMode ps.
#[export] Instance same_source_pre : PreOrder same_source.
Proof.
  split; [by repeat split|]. intros p q r (? & ? & ? & ? & ? & ? & ?) (? & ? & ? & ? & ? & ? & ?).
  repeat split; congruence.
Qed.
Lemma compact_same ps : same_source ps (compactUniformSchedule ps) ∧
  wp_NextEventTime (compactUniformSchedule ps) = wp_NextEventTime ps.
Proof. unfold compactUniformSchedule. by destruct (_ || _). Qed.
Lemma global_count_same wsEnd ps s e gen :
  let '(n, ps', gen') := sampleGlobalUniformChunkCount wsEnd ps s e gen in
  same_source ps ps' ∧ wp_NextEventTime ps' = wp_NextEventTime ps ∧ wp_uniformTimes ps' = wp_uniformTimes ps ∧
  wp_uniformCursor ps' = wp_uniformCursor ps ∧ wp_uniformStreamWatermark ps' = wp_uniformStreamWatermark ps.
Proof.
  unfold sampleGlobalUniformChunkCount. repeat (destruct (_ : bool); [done|]).
  by destruct (sampleBinomial _ _ _).
Qed.
Lemma extend_chunk_same wsEnd ps gen :
  let ps' := fst (extend_chunk wsEnd ps gen) in
  same_source ps ps' ∧ wp_NextEventTime ps' = wp_NextEventTime ps.
Proof.
  unfold extend_chunk. cbv zeta. destruct (wp_uniformGlobalCountMode ps) eqn:Eg.
  - pose proof (global_count_same wsEnd ps (wp_uniformStreamWatermark ps) (clip wsEnd (wp_uniformStreamWatermark ps +
      EventGenerationLookaheadWindow)) gen) as H. unfold clip in H.
    destruct (sampleGlobalUniformChunkCount _ _ _ _ _) as [[n ps1] gen1]. destruct H as ((? & ? & ? & ? & ? & ? & ?) & ? & _).
    destruct (uniformPlaceNInInterval _ _ _ _) as [part gen2]. by repeat split.
  - destruct (sampleLazyUniformChunk _ _ _ _ _) as [part gen2]. by repeat split.
Qed.
Lemma extend_chunks_same wsEnd cover : ∀ fuel ps gen,
  let ps' := fst (extend_chunks fuel wsEnd cover ps gen) in
  same_source ps ps' ∧ wp_NextEventTime ps' = wp_NextEventTime ps.
Proof.
  induction fuel as [|fuel IH]; intros ps gen; cbn [extend_chunks]; [by split|]. destruct (_ && _); [|by split].
  pose proof (extend_chunk_same wsEnd ps gen) as [H1 E1]. destruct (extend_chunk wsEnd ps gen) as [ps1 gen1]. cbn [fst] in *.
  destruct (IH ps1 gen1) as [H2 E2]. split; [by etrans|congruence].
Qed.
Lemma ensure_same wsEnd ps cover gen :
  let ps' := fst (ensureUniformHorizon wsEnd ps cover gen) in
  same_source ps ps' ∧ wp_NextEventTime ps' = wp_NextEventTime ps.
Proof.
  unfold ensureUniformHorizon. destruct (negb _); [by split|]. cbv zeta.
  set (c := if After cover wsEnd then wsEnd else cover).
  pose proof (extend_chunks_same wsEnd c (chunk_fuel (wp_uniformStreamWatermark ps) c) ps gen) as [H1 E1].
  destruct (extend_chunks _ _ _ _ _) as [ps1 gen1]. cbn [fst] in *.
  destruct (compact_same ps1) as [H2 E2]. split; [by etrans|congruence].
Qed.
Lemma advance_same wsEnd ps t gen t' ps' gen' :
  advanceToNextArrival wsEnd ps t gen = Ok (t', ps', gen') →
  same_source ps ps' ∧ wp_NextEventTime ps' = wp_NextEventTime ps.
Proof.
  unfold advanceToNextArrival. destruct (negb _).
  { destruct (calculateNextArrivalTime _ _ _ _) as [[t1 g1]| |]; cbn; [|done..]. intros [= _ <- _]. by split. }
  assert (H0 : let ps1 := fst (if wp_uniformLazy ps then ensureUniformHorizon wsEnd ps (t + EventGenerationLookaheadWindow) gen
                               else (ps, gen)) in same_source ps ps1 ∧ wp_NextEventTime ps1 = wp_NextEventTime ps).
  { destruct (wp_uniformLazy ps); [apply ensure_same|by split]. }
  destruct (if wp_uniformLazy ps then _ else _) as [ps1 gen1]. cbn [fst] in H0. destruct H0 as [H1 E1].
  destruct (wp_uniformTimes ps1) as [|x l] eqn:El; [by intros [= _ <- _]|]. cbv zeta.
  set (ps2 := compactUniformSchedule _).
  assert (H2 : same_source ps1 ps2 ∧ wp_NextEventTime ps2 = wp_NextEventTime ps1) by
    (destruct (compact_same (ps1 <| wp_uniformCursor := wp_uniformCursor ps1 + 1 |>)) as [(? & ? & ? & ? & ? & ? & ?) ?]; by repeat split).
  clearbody ps2. destruct H2 as [H2 E2]. assert (HS : same_source ps ps2) by (by etrans).
  destruct (_ !! _); [intros [= _ <- _]; split; [done|congruence]|].
  destruct (_ && _); [|intros [= _ <- _]; split; [done|congruence]].
  pose proof (ensure_same wsEnd ps2 (wp_uniformStreamWatermark ps2 + EventGenerationLookaheadWindow) gen1) as [H3 E3].
  destruct (ensureUniformHorizon _ _ _ _) as [ps3 gen3]. cbn [fst] in *. intros [= _ <- _]. split; [by etrans|congruence].
Qed.

(** Arrival events of one pattern, at the given times. *)
Definition schedule_all (ps : WorkloadPatternState) (times : list Time) (eng : Engine) : Engine :=
  foldl (λ e t, Engine_ScheduleAt EventTypeRequestArrival t None (wp_ServiceID ps) (workloadArrivalEventData ps) e) eng times.
Lemma event_data_same ps ps' : same_source ps ps' →
  workloadArrivalEventData ps' = workloadArrivalEventData ps ∧ wp_ServiceID ps' = wp_ServiceID ps.
Proof. intros (E1 & E2 & E3 & _). unfold workloadArrivalEventData. by rewrite E1, E2, E3. Qed.
(** The next arrival of the pattern is never before the one it follows. *)
Definition forward (wsEnd : Time) (ps : WorkloadPatternState) : Prop := ∀ ps' gen t t' ps'' gen',
  same_source ps ps' → t < wsEnd → advanceToNextArrival wsEnd ps' t gen = Ok (t', ps'', gen') → t ≤ t'.
Lemma forward_same wsEnd ps ps' : same_source ps ps' → forward wsEnd ps → forward wsEnd ps'.
Proof. intros Hs Hf p g t t' p'' g' H. apply Hf. by etrans. Qed.
Lemma generate_pattern_spec guarded wsEnd horizon ps0 : ∀ fuel n ps gen eng g, same_source ps0 ps →
  generate_pattern fuel guarded wsEnd horizon n ps gen eng = Some (Ok g) →
  ∃ times, gd_eng g = schedule_all ps0 times eng ∧ gd_count g = n + len times ∧ same_source ps0 (gd_pattern g) ∧
    Forall (λ t, t < Z.min horizon wsEnd) times ∧
    (gd_stopped g = false → Z.min horizon wsEnd ≤ wp_NextEventTime (gd_pattern g)) ∧
    (gd_stopped g = true → guarded = true ∧ is_Some (Engine_guardrailErr (gd_eng g))) ∧
    (forward wsEnd ps → Forall (λ t, wp_NextEventTime ps ≤ t) times ∧ StronglySorted Z.le times).
Proof.
  induction fuel as [|fuel IH]; intros n ps gen eng g Hs; cbn [generate_pattern]; [done|].
  destruct (Before _ horizon && Before _ wsEnd) eqn:Eb; cycle 1.
  { intros [= <-]. exists []. cbn. unfold Before in Eb. split_and!; try done; [unfold len; cbn; lia|intros _; lia|].
    intros _. by repeat constructor. }
  unfold Before in Eb. apply andb_true_iff in Eb as [E1%Z.ltb_lt E2%Z.ltb_lt]. cbv zeta.
  destruct (event_data_same _ _ Hs) as [Ed Es].
  assert (Eng : schedule_arrival ps eng = schedule_all ps0 [wp_NextEventTime ps] eng)
    by (unfold schedule_arrival, schedule_all; cbn; by rewrite Ed, Es).
  destruct (guarded && _) eqn:Eg.
  { apply andb_true_iff in Eg as [-> Eg]. apply bool_decide_eq_true in Eg. intros [= <-]. exists [wp_NextEventTime ps]. cbn.
    split_and!; try done; [by repeat constructor; lia|]. intros _. by repeat constructor; lia. }
  destruct (advanceToNextArrival _ _ _ _) as [[[t' ps'] gen']| |] eqn:Ea; [|done..].
  destruct (advance_same _ _ _ _ _ _ _ Ea) as [Hs' En'].
  set (ps1 := ps' <| wp_LastEventTime := _ |> <| wp_NextEventTime := _ |>).
  assert (Hs1 : same_source ps0 ps1) by (etrans; [done|]; by destruct Hs' as (? & ? & ? & ? & ? & ? & ?); repeat split).
  intros H. destruct (IH _ _ _ _ _ Hs1 H) as (times & H1 & H2 & H3 & H4 & H5 & H6 & H7).
  exists (wp_NextEventTime ps :: times). split_and!; try done.
  - rewrite H1, Eng. done.
  - rewrite H2. unfold len. cbn. lia.
  - constructor; [lia|done].
  - intros Hf. assert (Hle : wp_NextEventTime ps ≤ t') by (by eapply (Hf ps)).
    destruct H7 as [H7 H8].
    { eapply forward_same; [|exact Hf]. by destruct Hs' as (? & ? & ? & ? & ? & ? & ?); repeat split. }
    change (wp_NextEventTime ps1) with t' in H7.
    assert (Hall : Forall (λ t, wp_NextEventTime ps ≤ t) times) by (eapply Forall_impl; [exact H7|]; cbn; lia).
    by repeat constructor; [lia|..].
Qed.

(** * Windows *)



(** * The times of the arrivals *)

(** Patterns whose gaps do not depend on the time: exponential, normal or constant. *)
Definition is_poisson (a : ArrivalSpec) : bool := String.eqb (ar_Type a) "poisson" || String.eqb (ar_Type a) "exponential".



(** * The live workload and the stand-alone generator *)

(** The event the live workload schedules for an arrival of the pattern at [t]. *)
Definition live_event (ps : WorkloadPatternState) (t : Time) (eng : Engine) : Engine :=
  Engine_ScheduleAt EventTypeRequestArrival t None (wp_ServiceID ps) (workloadArrivalEventData ps) eng.
Lemma poisson_next a t epoch gen : is_poisson a = true → fleb (ar_RateRPS a) f0 = false →
  calculateNextArrivalTime a t epoch gen =
  Ok (seconds_later t (at_least_min (fst (RandSource_ExpFloat64 (ar_RateRPS a) gen))),
      snd (RandSource_ExpFloat64 (ar_RateRPS a) gen)).
Proof. intros Hp Hr. unfold calculateNextArrivalTime, rate_or. unfold is_poisson in Hp. by rewrite Hp, Hr. Qed.
Lemma poisson_advance wsEnd ps t gen : is_poisson (wl_Arrival (wp_Pattern ps)) = true →
  fleb (ar_RateRPS (wl_Arrival (wp_Pattern ps))) f0 = false →
  let d := RandSource_ExpFloat64 (ar_RateRPS (wl_Arrival (wp_Pattern ps))) gen in
  advanceToNextArrival wsEnd ps t gen = Ok (seconds_later t (at_least_min (fst d)), ps, snd d).
Proof.
  intros Hp Hr. unfold advanceToNextArrival.
  assert (Hn : String.eqb (ar_Type (wl_Arrival (wp_Pattern ps))) "uniform" = false).
  { unfold is_poisson in Hp. apply orb_true_iff in Hp as [E|E]; apply String.eqb_eq in E; by rewrite E. }
  rewrite Hn. cbn [negb]. by rewrite poisson_next.
Qed.

(** the live workload agrees with the stand-alone generator. For a Poisson pattern, if the
    generator, started at [t], schedules its arrivals and returns, then the live workload,
    started with the first arrival after [t], schedules the same events in the same order
    and leaves the same random draws. *)
Theorem live_poisson_is_generator fuel wsEnd n ps t gen eng gen' eng' :
  is_poisson (wl_Arrival (wp_Pattern ps)) = true → fleb (ar_RateRPS (wl_Arrival (wp_Pattern ps))) f0 = false → t < wsEnd →
  gap_arrivals fuel (RandSource_ExpFloat64 (ar_RateRPS (wl_Arrival (wp_Pattern ps)))) wsEnd (live_event ps) t gen eng =
    Some (gen', eng') →
  ∃ t1 gen1 g, calculateNextArrivalTime (wl_Arrival (wp_Pattern ps)) t (wp_Epoch ps) gen = Ok (t1, gen1) ∧
    generate_pattern fuel false wsEnd wsEnd n (ps <| wp_NextEventTime := t1 |>) gen1 eng = Some (Ok g) ∧
    gd_eng g = eng' ∧ gd_gen g = gen'.
Proof.
  set (rate := ar_RateRPS (wl_Arrival (wp_Pattern ps))). intros Hp Hr.
  assert (Hmain : ∀ fuel n p t gen eng, same_source ps p → t < wsEnd →
    gap_arrivals fuel (RandSource_ExpFloat64 rate) wsEnd (live_event ps) t gen eng = Some (gen', eng') →
    let d := RandSource_ExpFloat64 rate gen in
    ∃ g, generate_pattern fuel false wsEnd wsEnd n (p <| wp_NextEventTime := seconds_later t (at_least_min (fst d)) |>) (snd d) eng
      = Some (Ok g) ∧ gd_eng g = eng' ∧ gd_gen g = gen').
  { clear n t gen eng fuel. induction fuel as [|fuel IH]; intros n p t gen eng Hs Ht; [done|]. cbn [gap_arrivals generate_pattern].
    unfold Before at 1. rewrite (proj2 (Z.ltb_lt _ _) Ht). cbv zeta. destruct (RandSource_ExpFloat64 rate gen) as [x gen1]. cbn [fst snd].
    set (t1 := seconds_later t (at_least_min x)). set (p1 := p <| wp_NextEventTime := t1 |>).
    change (wp_NextEventTime p1) with t1. unfold Before. destruct (Z.ltb_spec t1 wsEnd) as [Hlt|Hge]; cbn [negb andb].
    - assert (Ep : wp_Pattern p1 = wp_Pattern ps) by apply Hs.
      assert (Ee : schedule_arrival p1 eng = live_event ps t1 eng).
      { destruct (event_data_same ps p1) as [Ed Es]; [by destruct Hs as (? & ? & ? & ? & ? & ? & ?); repeat split|].
        unfold schedule_arrival, live_event. by rewrite Ed, Es. }
      rewrite Ee. rewrite (poisson_advance wsEnd p1 t1 gen1) by (by rewrite Ep). rewrite Ep. fold rate. intros H.
      destruct (IH (n + 1) (p1 <| wp_LastEventTime := t1 |>) t1 gen1 (live_event ps t1 eng)) as (g & Hg); [|done|done|by exists g].
      by destruct Hs as (? & ? & ? & ? & ? & ? & ?); repeat split.
    - intros [= <- <-]. by eexists. }
  intros Ht H. destruct (Hmain fuel n ps t gen eng (reflexivity _) Ht H) as (g & Hg & He).
  rewrite poisson_next by done. eexists _, _, g. split; [done|]. by split.
Qed.

(** * Termination *)


(** * The schedule of a uniform pattern *)

(** A generator whose draws are among those of another. *)
Definition later_draws (gen gen' : RandSource) : Prop := ∀ i, ∃ j, rnd_uniform gen' i = rnd_uniform gen j.
#[export] Instance later_draws_pre : PreOrder later_draws.
Proof.
  split; [by intros g i; exists i|]. intros g1 g2 g3 H12 H23 i. destruct (H23 i) as (j & ->). apply H12.
Qed.



(** * All patterns *)

(** Arrivals of one pattern: the pattern as it was, and their times. *)
Definition Batch : Type := WorkloadPatternState * list Time.
Definition schedule_batches (batches : list Batch) (eng : Engine) : Engine :=
  foldl (λ e b, schedule_all b.1 b.2 e) eng batches.
Definition arrivals (batches : list Batch) : Z := foldr (λ b n, len b.2 + n) 0 batches.
(** A batch comes from an active pattern, ends before the horizon and, when the pattern
    only moves forward, is sorted and does not start before its next arrival. *)
Definition batch_ok (wsEnd limit : Time) (order : list string) (patterns : gmap string WorkloadPatternState)
    (b : Batch) : Prop :=
  (∃ key, key ∈ order ∧ patterns !! key = Some b.1) ∧ wp_Active b.1 = true ∧ Forall (λ t, t < limit) b.2 ∧
  (forward wsEnd b.1 → Forall (λ t, wp_NextEventTime b.1 ≤ t) b.2 ∧ StronglySorted Z.le b.2).
Lemma generate_one_spec fuel guarded wsEnd horizon n ps gen eng g :
  generate_one fuel guarded wsEnd horizon n ps gen eng = Some (Ok g) →
  ∃ times, gd_eng g = schedule_all ps times eng ∧ gd_count g = n + len times ∧ same_source ps (gd_pattern g) ∧
    Forall (λ t, t < Z.min horizon wsEnd) times ∧
    (gd_stopped g = false → Z.min horizon wsEnd ≤ wp_NextEventTime (gd_pattern g)) ∧
    (gd_stopped g = true → guarded = true ∧ is_Some (Engine_guardrailErr (gd_eng g))) ∧
    (forward wsEnd ps → Forall (λ t, wp_NextEventTime ps ≤ t) times ∧ StronglySorted Z.le times).
Proof.
  unfold generate_one.
  assert (H0 : let p := fst (if String.eqb (ar_Type (wl_Arrival (wp_Pattern ps))) "uniform" && wp_uniformLazy ps
                then ensureUniformHorizon wsEnd ps horizon gen else (ps, gen)) in
               same_source ps p ∧ wp_NextEventTime p = wp_NextEventTime ps)
    by (destruct (_ && _); [apply ensure_same|by split]).
  destruct (if _ && _ then _ else _) as [p gen1]. cbn [fst] in H0. destruct H0 as [Hs En]. intros H.
  destruct (generate_pattern_spec guarded wsEnd horizon ps fuel n p gen1 eng g Hs H) as (times & H1 & H2 & H3 & H4 & H5 & H6 & H7).
  exists times. split_and!; try done. intros Hf. rewrite <- En. apply H7. by eapply forward_same.
Qed.
Lemma batch_ok_mono wsEnd limit order order' patterns patterns' b :
  (∀ key, key ∈ order → key ∈ order' ∧ patterns' !! key = patterns !! key) →
  batch_ok wsEnd limit order patterns b → batch_ok wsEnd limit order' patterns' b.
Proof. intros H ((key & Hin & Ek) & Hb). destruct (H key Hin) as [Hin' E]. split; [|done]. exists key. by rewrite E. Qed.
Lemma generate_patterns_spec fuel guarded horizon : ∀ order n ws eng n' ws' eng', NoDup order →
  generate_patterns fuel guarded horizon order n ws eng = Some (Ok (n', ws', eng')) →
  let limit := Z.min horizon (ws_endTime ws) in
  ws_endTime ws' = ws_endTime ws ∧ ws_done ws' = ws_done ws ∧ ws_generatedHorizon ws' = ws_generatedHorizon ws ∧
  (∀ key, key ∉ order → ws_patterns ws' !! key = ws_patterns ws !! key) ∧
  (ws_done ws = false → Engine_guardrailErr eng' = None → ∀ key ps, key ∈ order →
     ws_patterns ws' !! key = Some ps → wp_Active ps = true → limit ≤ wp_NextEventTime ps) ∧
  ∃ batches, eng' = schedule_batches batches eng ∧ n' = n + arrivals batches ∧
    Forall (batch_ok (ws_endTime ws) limit order (ws_patterns ws)) batches.
Proof.
  induction order as [|key order IH]; intros n ws eng n' ws' eng' Hnd; cbn [generate_patterns].
  { intros [= <- <- <-]. split_and!; try done; [intros _ _ ? ? H; by apply elem_of_nil in H|].
    exists []. split_and!; [done|cbn; lia|by constructor]. }
  apply NoDup_cons in Hnd as [Hk Hnd].
  destruct (ws_patterns ws !! key) as [ps|] eqn:Ek; cycle 1.
  { intros H. destruct (IH _ _ _ _ _ _ Hnd H) as (E1 & E2 & E3 & E4 & E5 & bs & Hb1 & Hb2 & Hb3). split_and!; try done.
    - intros k Hk'. apply E4. set_solver.
    - intros Hd Hg k p [->|Hin]%elem_of_cons; [|by apply E5]. by rewrite E4, Ek.
    - exists bs. split_and!; [done|done|]. eapply Forall_impl; [exact Hb3|]. intros b. apply batch_ok_mono. intros k ?. split; [by right|done]. }
  destruct (guarded && ws_done ws) eqn:Ed.
  { apply andb_true_iff in Ed as [_ Ed]. intros [= <- <- <-]. split_and!; try done; [congruence|].
    exists []. split_and!; [done|cbn; lia|by constructor]. }
  destruct (wp_Active ps) eqn:Ea; cbn [negb]; cycle 1.
  { intros H. destruct (IH _ _ _ _ _ _ Hnd H) as (E1 & E2 & E3 & E4 & E5 & bs & Hb1 & Hb2 & Hb3). split_and!; try done.
    - intros k Hk'. apply E4. set_solver.
    - intros Hd Hg k p [->|Hin]%elem_of_cons; [|by apply E5]. rewrite E4, Ek by done. intros [= <-]. congruence.
    - exists bs. split_and!; [done|done|]. eapply Forall_impl; [exact Hb3|]. intros b. apply batch_ok_mono. intros k ?. split; [by right|done]. }
  destruct (generate_one _ _ _ _ _ _ _ _) as [[g| |]|] eqn:Eo; [|done..].
  destruct (generate_one_spec _ _ _ _ _ _ _ _ _ Eo) as (times & H1 & H2 & H3 & H4 & H5 & H6 & H7). cbv zeta.
  assert (Hb0 : batch_ok (ws_endTime ws) (Z.min horizon (ws_endTime ws)) (key :: order) (ws_patterns ws) (ps, times)).
  { split_and!; [exists key; split; [by left|done]|done|done|done]. }
  destruct (gd_stopped g) eqn:Est.
  { intros [= <- <- <-]. destruct (H6 eq_refl) as [_ Hge]. split_and!; try done.
    - intros k Hk'. cbn. rewrite lookup_insert_ne; [done|set_solver].
    - intros _ Hg. rewrite Hg in Hge. by destruct Hge.
    - exists [(ps, times)]. split_and!; [by rewrite H1|cbn; lia|by constructor]. }
  set (ws1 := ws <| ws_patterns := _ |> <| ws_generator := _ |>). intros H.
  destruct (IH _ ws1 _ _ _ _ Hnd H) as (E1 & E2 & E3 & E4 & E5 & batches & Hb1 & Hb2 & Hb3). cbn in E1, E2, E3, E5, Hb3.
  split_and!; try done.
  - intros k Hk'. rewrite E4 by set_solver. cbn. rewrite lookup_insert_ne; [done|set_solver].
  - intros Hd Hg k p [->|Hin]%elem_of_cons; [|by apply E5]. rewrite E4 by done. cbn. rewrite lookup_insert_eq. intros [= <-] _. auto.
  - exists ((ps, times) :: batches). split_and!; [cbn; by rewrite Hb1, H1|rewrite H2 in Hb2; change (n' = n + (len times + arrivals batches)); lia|]. constructor; [done|].
    eapply Forall_impl; [exact Hb3|]. intros b. apply batch_ok_mono. intros k Hk'. split; [by right|].
    cbn. rewrite lookup_insert_ne; [done|]. by intros ->.
Qed.

Lemma schedule_guard_none ty t q s d e :
  Engine_guardrailErr (Engine_ScheduleAt ty t q s d e) = None → Engine_guardrailErr e = None.
Proof.
  unfold Engine_guardrailErr, Engine_ScheduleAt, Engine_ScheduleAtPriority, Engine_ScheduleEvent, Engine_triggerGuardFailure.
  cbv zeta. repeat (destruct (_ && _); [by cbn; destruct (eng_guardErr e)|]). done.
Qed.

(** a window of the workload. When the event that generates the next window is handled
    and no guardrail is hit: the arrivals scheduled are those of active patterns, all before
    the new horizon, for a pattern that only moves forward in order and none before its next
    arrival; afterwards the next arrival of every active pattern is at or beyond the horizon,
    so that the following window continues where this one ended; and exactly when the
    horizon is before the end, the next window is scheduled for it. *)
Theorem workload_window fuel order ws eng ws' eng' :
  NoDup order → (∀ key, is_Some (ws_patterns ws !! key) → key ∈ order) →
  ws_done ws = false → SimTime_Now (eng_simTime eng) < ws_endTime ws →
  WorkloadState_handleWorkloadGenerate fuel order ws eng = Some (Ok (ws', eng')) →
  Engine_guardrailErr eng' = None →
  let horizon := Z.min (SimTime_Now (eng_simTime eng) + EventGenerationLookaheadWindow) (ws_endTime ws) in
  WorkloadState_GeneratedHorizon ws' = Z.max (WorkloadState_GeneratedHorizon ws) horizon ∧
  (∀ key ps, WorkloadState_GetPattern key ws' = Some ps → wp_Active ps = true → horizon ≤ wp_NextEventTime ps) ∧
  ∃ batches, Forall (batch_ok (ws_endTime ws) horizon order (ws_patterns ws)) batches ∧
    eng' = (if horizon <? ws_endTime ws then Engine_ScheduleAt EventTypeWorkloadGenerate horizon None "" ∅ else id)
             (schedule_batches batches eng).
Proof.
  intros Hnd Hcov Hd Hnow. unfold WorkloadState_handleWorkloadGenerate, WorkloadState_generateUpToHorizon.
  rewrite Hd. unfold Before. rewrite (proj2 (Z.ltb_lt _ _) Hnow). cbn [negb]. cbv zeta.
  set (horizon := Z.min _ _).
  assert (Ec : clip (ws_endTime ws) (SimTime_Now (eng_simTime eng) + EventGenerationLookaheadWindow) = horizon)
    by (unfold clip, After, horizon; destruct (Z.ltb_spec (ws_endTime ws) (SimTime_Now (eng_simTime eng) + EventGenerationLookaheadWindow)); lia).
  rewrite !Ec. assert (Ec2 : clip (ws_endTime ws) horizon = horizon).
  { unfold clip, After. destruct (Z.ltb_spec (ws_endTime ws) horizon); unfold horizon in *; lia. }
  rewrite Ec2. destruct (generate_patterns _ _ _ _ _ _ _) as [[[[n1 ws1] eng1]| |]|] eqn:E; [|done..].
  destruct (generate_patterns_spec _ _ _ _ _ _ _ _ _ _ Hnd E) as (E1 & E2 & E3 & E4 & E5 & bs & Hb1 & Hb2 & Hb3).
  replace (Z.min horizon (ws_endTime ws)) with horizon in * by (unfold horizon; lia).
  intros [= <- <-]. unfold After.
  assert (Ew : ∀ A (f : WorkloadState → A), (∀ w h, f (w <| ws_generatedHorizon := h |>) = f w) →
    f (if ws_generatedHorizon ws1 <? horizon then
         mkWorkloadState (ws_runID ws1) (ws_patterns ws1) (ws_generator ws1) (ws_done ws1) (ws_endTime ws1) (ws_realTimeMode ws1) horizon
       else ws1) = f ws1)
    by (intros A f Hf; destruct (_ <? _); [apply (Hf ws1 horizon)|done]).
  rewrite (Ew _ ws_endTime) by done. rewrite E1. intros Hg.
  assert (Hg1 : Engine_guardrailErr eng1 = None).
  { destruct (horizon <? ws_endTime ws); [|done]. revert Hg. apply schedule_guard_none. }
  split_and!.
  - unfold WorkloadState_GeneratedHorizon. rewrite E3. destruct (Z.ltb_spec (ws_generatedHorizon ws) horizon); cbn; lia.
  - intros key ps Hk Ha.
    assert (Hk1 : ws_patterns ws1 !! key = Some ps) by (revert Hk; unfold WorkloadState_GetPattern; by destruct (_ <? _)).
    destruct (decide (key ∈ order)) as [Hin|Hn]; [by eapply E5|]. exfalso. apply Hn, Hcov. rewrite <- (E4 key Hn). by exists ps.
  - exists bs. split; [done|]. rewrite Hb1. by destruct (horizon <? ws_endTime ws).
Qed.

(** * Examples *)

Definition even_draws : RandSource := mkRandSource (λ _, f0) (λ _, f0) (λ _, f1).
Definition arrival_of (ty : string) (rate : float64) : ArrivalSpec := mkArrival ty rate f0 f0 f0 f0.
Definition pattern_of (ty : string) (rate : float64) : WorkloadPattern := mkWorkload "client" "" "" ∅ "web:/" (arrival_of ty rate).
Definition constant_state : WorkloadPatternState :=
  mkPattern (pattern_of "constant" (f64_of_Z 2)) "web" "/" 0 0 (500 * Millisecond) [] 0 false 0 true 0 true.
Definition run_engine : Engine := setup_engine sample_env 0 "run" 0 (mkRuntimeLimits 0 0 0 0) [].
Definition poisson_state : WorkloadPatternState :=
  mkPattern (pattern_of "poisson" (f64_of_Z 2)) "web" "/" 0 0 0 [] 0 false 0 true 0 true.
Lemma live_poisson_is_generator_witness : ∃ t1 gen1 g, t1 = 500 * Millisecond ∧
  generate_pattern 20 false (4 * Second) (4 * Second) 0 (poisson_state <| wp_NextEventTime := t1 |>) gen1 run_engine = Some (Ok g).
Proof.
  assert (Hc : (match gap_arrivals 20 (RandSource_ExpFloat64 (f64_of_Z 2)) (4 * Second) (live_event poisson_state) 0 even_draws run_engine
                with Some _ => true | None => false end) = true) by (vm_compute; reflexivity).
  destruct (gap_arrivals 20 (RandSource_ExpFloat64 (f64_of_Z 2)) (4 * Second) (live_event poisson_state) 0 even_draws run_engine)
    as [[gen' eng']|] eqn:E; [|discriminate Hc].
  destruct (live_poisson_is_generator 20 (4 * Second) 0 poisson_state 0 even_draws run_engine gen' eng')
    as (t1 & gen1 & g & E1 & E2 & _); [reflexivity|reflexivity|reflexivity|exact E|].
  exists t1, gen1, g. split; [|exact E2].
  assert (Ht : (match calculateNextArrivalTime (wl_Arrival (wp_Pattern poisson_state)) 0 (wp_Epoch poisson_state) even_draws
                with Ok (t, _) => t | _ => 0 end) = 500 * Millisecond) by (vm_compute; reflexivity).
  rewrite E1 in Ht. exact Ht.
Defined.

Definition constant_ws : WorkloadState :=
  mkWorkloadState "run" {["client:web:/" := constant_state]} even_draws false (15 * Second) false 0.
Lemma workload_window_witness : ∃ ws' eng',
  WorkloadState_handleWorkloadGenerate 40 ["client:web:/"] constant_ws run_engine = Some (Ok (ws', eng')) ∧
  WorkloadState_GeneratedHorizon ws' = 10 * Second ∧
  ∀ key ps, WorkloadState_GetPattern key ws' = Some ps → wp_Active ps = true → 10 * Second ≤ wp_NextEventTime ps.
Proof.
  assert (Hg : (match WorkloadState_handleWorkloadGenerate 40 ["client:web:/"] constant_ws run_engine
                with Some (Ok (_, eng')) => match Engine_guardrailErr eng' with None => true | _ => false end | _ => false end) = true)
    by (vm_compute; reflexivity).
  destruct (WorkloadState_handleWorkloadGenerate 40 ["client:web:/"] constant_ws run_engine) as [[[ws' eng']| |]|] eqn:E;
    [|discriminate Hg..].
  assert (He : Engine_guardrailErr eng' = None) by (by destruct (Engine_guardrailErr eng')).
  destruct (workload_window 40 ["client:web:/"] constant_ws run_engine ws' eng') as (H1 & H2 & _);
    [by apply NoDup_singleton| |reflexivity|reflexivity|exact E|exact He|].
  - intros key [ps Hp]. cbn [constant_ws ws_patterns] in Hp. apply lookup_singleton_Some in Hp as [<- _]. by left.
  - exists ws', eng'. split; [reflexivity|]. split; [exact H1|exact H2].
Defined.

(** * Defects *)

(** The generator is shared and the map of patterns is visited in an order of Go's choice:
    the same seed gives different arrivals. *)
Definition two_patterns : WorkloadState :=
  mkWorkloadState "run"
    (<["a" := mkPattern (pattern_of "poisson" f1) "a" "/" 0 0 0 [] 0 false 0 true 0 true]>
      (<["b" := mkPattern (pattern_of "poisson" f1) "b" "/" 0 0 0 [] 0 false 0 true 0 true]> ∅))
    (mkRandSource (λ _, f0) (λ _, f0) (λ n, f64_of_Z (Z.of_nat n + 1))) false (20 * Second) false 0.
Definition next_of (key : string) (r : option (go (Z * WorkloadState * Engine))) : option Time :=
  match r with Some (Ok (_, ws, _)) => wp_NextEventTime <$> WorkloadState_GetPattern key ws | _ => None end.
Example arrivals_depend_on_map_order :
  next_of "a" (WorkloadState_generateUpToHorizon 10 ["a"; "b"] 1 two_patterns run_engine) = Some (1 * Second) ∧
  next_of "a" (WorkloadState_generateUpToHorizon 10 ["b"; "a"] 1 two_patterns run_engine) = Some (2 * Second).
Proof. by vm_compute. Qed.
(** A uniform pattern whose first window has no arrival takes the end of the run as its next
    arrival and never looks at the later windows: of the five arrivals of 0.05 requests per
    second over 100 seconds none is ever scheduled. *)
Definition sparse : Scenario :=
  mkScenario None None None [] [] [pattern_of "uniform" (f64_lit 5 100)] None.
Fixpoint windows (n : nat) (t : Time) (ws : WorkloadState) (eng : Engine) : option (WorkloadState * Engine) :=
  match n with
  | O => Some (ws, eng)
  | S n =>
      match WorkloadState_handleWorkloadGenerate 20 ["client:web:/"] ws (eng <| eng_simTime := t |>) with
      | Some (Ok (ws, eng)) => windows n (t + EventGenerationLookaheadWindow) ws eng
      | _ => None
      end
  end.
Definition late_draws : RandSource := mkRandSource (λ _, f64_lit 9 10) (λ _, f0) (λ _, f1).
Example sparse_uniform_never_arrives :
  (match WorkloadState_Start 20 ["client:web:/"] sparse 0 false (NewWorkloadState "run" (100 * Second) late_draws) run_engine with
   | Some (Ok (ws, eng, _)) =>
       match windows 9 (10 * Second) ws eng with
       | Some (ws, eng) =>
           Some (length (filter (λ ev, ev_Type ev = EventTypeRequestArrival) (eng_eventQueue eng)),
                 (λ ps, length (wp_uniformTimes ps)) <$> WorkloadState_GetPattern "client:web:/" ws)
       | None => None
       end
   | _ => None
   end) = Some (0%nat, Some 5%nat).
Proof. by vm_compute. Qed.
