(* ===== verification/ConfigHash.v ===== *)
(** [internal/batchspec/hash.go]: the identity of a scenario for the optimisers, an FNV-1a
    hash of a canonical byte stream. [h.Write] appends to the stream, so the stream is a
    list of bytes and the hash is taken at the end. Hosts, services, endpoints, calls and
    workload patterns are written in a sorted order; the theorem at the end says for which
    scenarios the order of declaration does not matter. *)
From S2P Require Import Prelude GoFloat Policy Config BrokerQueue Instance ResourceManager ResourceLaws.
From Stdlib Require Import SpecFloat.
#[local] Open Scope string_scope.
#[local] Open Scope list_scope.
#[local] Open Scope Z_scope.

(** * Writing *)

Abbreviation bytes := (list Z) (only parsing).
(** The [n] low bytes of [z] in two's complement, the lowest first. *)
Fixpoint le_bytes (n : nat) (z : Z) : bytes :=
  match n with O => [] | S n => Z.land z 255 :: le_bytes n (Z.shiftr z 8) end.
(** [math.Float64bits]; every NaN is the one of [math.NaN]. *)
Definition Float64bits (x : float64) : Z :=
  let sign (s : bool) := if s then 2 ^ 63 else 0 in
  match x with
  | S754_zero s => sign s
  | S754_infinity s => sign s + 2047 * 2 ^ 52
  | S754_nan => 2047 * 2 ^ 52 + 2 ^ 51 + 1
  | S754_finite s m e =>
      sign s + (if Zpos m <? 2 ^ 52 then Zpos m else (e + 1075) * 2 ^ 52 + (Zpos m - 2 ^ 52))
  end.
Definition writeStr (x : string) : bytes :=
  ((λ c, Z.of_N (N_of_ascii c)) <$> String.list_ascii_of_string x) ++ [0].
Definition writeF (x : float64) : bytes := le_bytes 8 (Float64bits x).
Definition writeI (x : Z) : bytes := le_bytes 8 x.
Definition writeI64 (x : Z) : bytes := le_bytes 8 x.
Definition writeB (x : bool) : bytes := [if x then 1 else 0].
Definition writeLatency (l : LatencySpec) : bytes := writeF (lat_Mean l) ++ writeF (lat_Sigma l).
(** A map in the order of its keys. *)
Definition sorted_items {A} (m : gmap string A) : list (string * A) := visit (sorted_keys m) m.
Definition writeItems {A} (w : A → bytes) (m : gmap string A) : bytes :=
  concat ((λ kv, writeStr kv.1 ++ w kv.2) <$> sorted_items m).
Definition writeMap {A} (w : A → bytes) (m : gmap string A) : bytes :=
  writeI (Z.of_nat (size m)) ++ writeItems w m.
(** A nil pointer, or a tag and the value. *)
Definition writeOpt {A} (tag nil : string) (w : A → bytes) (x : option A) : bytes :=
  match x with None => writeStr nil | Some x => writeStr tag ++ w x end.

(** * Orders *)

(** One comparison of a chain [if a != b { return a < b }]: [None] goes on. *)
Definition differ_s (a b : string) : option bool := if String.eqb a b then None else Some (string_ltb a b).
Definition differ_f (a b : float64) : option bool := if feqb a b then None else Some (fltb a b).
Definition differ_z (a b : Z) : option bool := if a =? b then None else Some (a <? b).
Definition differ_b (a b : bool) : option bool := if Bool.eqb a b then None else Some (negb a && b).
Definition then_differ (c d : option bool) : option bool := match c with None => d | _ => c end.
Fixpoint chain (l : list (option bool)) : option bool :=
  match l with [] => None | c :: l => then_differ c (chain l) end.
(** [sort.SliceStable] of the indices; the last tie is broken by the index. *)
Definition sort_indexed {A} (differ : A → A → option bool) (l : list A) : list A :=
  snd <$> sort_SliceStable (λ x y : nat * A, match differ x.2 y.2 with Some b => b | None => bool_decide (x.1 < y.1)%nat end)
            (imap pair l).
Fixpoint items_differ (a b : list (string * string)) : option bool :=
  match a, b with
  | x :: a, y :: b => then_differ (differ_s x.1 y.1) (then_differ (differ_s x.2 y.2) (items_differ a b))
  | _, _ => None
  end.
Definition metadata_differ (a b : gmap string string) : option bool :=
  then_differ (differ_z (Z.of_nat (size a)) (Z.of_nat (size b))) (items_differ (sorted_items a) (sorted_items b)).
Definition endpoint_differ (a b : Endpoint) : option bool := differ_s (ep_Path a) (ep_Path b).
Definition downstream_differ (a b : DownstreamCall) : option bool :=
  let retry d := default false (ds_Retryable d) in
  chain [differ_s (ds_To a) (ds_To b); differ_s (ds_Mode a) (ds_Mode b); differ_s (ds_Kind a) (ds_Kind b);
         differ_f (ds_Probability a) (ds_Probability b); differ_f (ds_CallCountMean a) (ds_CallCountMean b);
         differ_f (lat_Mean (ds_CallLatencyMs a)) (lat_Mean (ds_CallLatencyMs b));
         differ_f (lat_Sigma (ds_CallLatencyMs a)) (lat_Sigma (ds_CallLatencyMs b));
         differ_f (ds_TimeoutMs a) (ds_TimeoutMs b);
         differ_f (ds_DownstreamFractionCPU a) (ds_DownstreamFractionCPU b);
         differ_s (ds_PartitionKey a) (ds_PartitionKey b); differ_s (ds_PartitionKeyFrom a) (ds_PartitionKeyFrom b);
         differ_f (ds_FailureRate a) (ds_FailureRate b); differ_b (retry a) (retry b)].
Definition workload_differ (a b : WorkloadPattern) : option bool :=
  let x := wl_Arrival a in let y := wl_Arrival b in
  chain [differ_s (wl_From a) (wl_From b); differ_s (wl_To a) (wl_To b);
         differ_s (wl_TrafficClass a) (wl_TrafficClass b); differ_s (wl_SourceKind a) (wl_SourceKind b);
         metadata_differ (wl_Metadata a) (wl_Metadata b); differ_s (ar_Type x) (ar_Type y);
         differ_f (ar_RateRPS x) (ar_RateRPS y); differ_f (ar_StdDevRPS x) (ar_StdDevRPS y);
         differ_f (ar_BurstRateRPS x) (ar_BurstRateRPS y);
         differ_f (ar_BurstDurationSeconds x) (ar_BurstDurationSeconds y);
         differ_f (ar_QuietDurationSeconds x) (ar_QuietDurationSeconds y)].

(** * The parts of a scenario *)

Definition hash_limits (l : SimulationLimits) : bytes := writeI (sl_MaxTraceDepth l) ++ writeI (sl_MaxAsyncHops l).
Definition hash_network (n : NetworkConfig) : bytes :=
  writeB (net_SymmetricCrossZoneLatency n) ++ writeLatency (net_SameHostLatencyMs n) ++
  writeLatency (net_SameZoneLatencyMs n) ++ writeLatency (net_DefaultCrossZoneLatencyMs n) ++
  writeLatency (net_ExternalLatencyMs n) ++ writeItems (writeItems writeLatency) (net_CrossZoneLatencyMs n).
(** The elements by sorted ID; for each ID, the first element that has it. *)
Definition hash_by_id {A} (id : A → string) (w : A → bytes) (l : list A) : bytes :=
  concat ((λ i, from_option (w ∘ snd) [] (list_find (λ x, id x = i) l)) <$> sort_SliceStable string_ltb (id <$> l)).
Definition hash_host (h : HostSpec) : bytes :=
  writeStr "host" ++ writeStr (hs_ID h) ++ writeI (hs_Cores h) ++ writeI (hs_MemoryGB h) ++
  writeStr (hs_Zone h) ++ writeMap writeStr (hs_Labels h).
Definition hash_scaling (p : ScalingPolicy) : bytes :=
  writeB (sc_Horizontal p) ++ writeB (sc_VerticalCPU p) ++ writeB (sc_VerticalMemory p).
Definition hash_names (l : list string) : bytes :=
  writeI (len l) ++ concat ((λ z, writeStr (TrimSpace z)) <$> sort_SliceStable string_ltb l).
Definition hash_placement (p : PlacementPolicy) : bytes :=
  hash_names (pl_RequiredZones p) ++ hash_names (pl_PreferredZones p) ++ hash_names (pl_AffinityZones p) ++
  hash_names (pl_AntiAffinityZones p) ++ hash_names (pl_AntiAffinityServices p) ++
  writeB (pl_SpreadAcrossZones p) ++ writeI (pl_MaxReplicasPerHost p) ++
  writeMap writeStr (pl_RequiredHostLabels p) ++ writeMap writeStr (pl_PreferredHostLabels p).
Definition hash_routing (r : RoutingPolicy) : bytes :=
  writeStr (ToLower (TrimSpace (rt_Strategy r))) ++ writeStr (rt_StickyKeyFrom r) ++
  writeStr (rt_LocalityZoneFrom r) ++ writeMap writeF (rt_Weights r).
Definition hash_cache (c : CacheBehavior) : bytes :=
  writeF (cab_HitRate c) ++ writeLatency (cab_HitLatencyMs c) ++ writeLatency (cab_MissLatencyMs c).
Definition hash_queue (q : QueueBehavior) : bytes :=
  writeI (qb_Capacity q) ++ writeI (qb_ConsumerConcurrency q) ++ writeI (qb_MinConsumerConcurrency q) ++
  writeI (qb_MaxConsumerConcurrency q) ++ writeStr (qb_ConsumerTarget q) ++ writeLatency (qb_DeliveryLatencyMs q) ++
  writeF (qb_AckTimeoutMs q) ++ writeI (qb_MaxRedeliveries q) ++ writeStr (qb_DLQTarget q) ++
  writeStr (qb_DropPolicy q) ++ writeB (qb_AsyncFireAndForget q).
Definition hash_subscriber (s : TopicSubscriber) : bytes :=
  writeStr (sub_Name s) ++ writeStr (sub_ConsumerTarget s) ++ writeStr (sub_ConsumerGroup s) ++
  writeI (sub_ConsumerConcurrency s) ++ writeI (sub_MinConsumerConcurrency s) ++ writeI (sub_MaxConsumerConcurrency s) ++
  writeF (sub_AckTimeoutMs s) ++ writeI (sub_MaxRedeliveries s) ++ writeStr (sub_DLQ s) ++ writeStr (sub_DropPolicy s).
Definition hash_topic (t : TopicBehavior) : bytes :=
  let subs := CanonicalTopicSubscribersForHash (Some t) in
  writeI (tb_Partitions t) ++ writeI64 (tb_RetentionMs t) ++ writeI (tb_Capacity t) ++
  writeLatency (tb_DeliveryLatencyMs t) ++ writeStr (tb_PublishAck t) ++ writeB (tb_AsyncFireAndForget t) ++
  writeI (len subs) ++ concat (hash_subscriber <$> subs).
Definition hash_behavior (b : ServiceBehavior) : bytes :=
  writeF (sb_FailureRate b) ++ writeF (sb_SaturationLatencyFactor b) ++ writeI (sb_MaxConnections b) ++
  writeOpt "cache" "cache_nil" hash_cache (sb_Cache b) ++ writeOpt "queue" "queue_nil" hash_queue (sb_Queue b) ++
  writeOpt "topic" "topic_nil" hash_topic (sb_Topic b).
Definition hash_downstream (d : DownstreamCall) : bytes :=
  writeStr "ds" ++ writeStr (ds_To d) ++ writeStr (ds_Mode d) ++ writeStr (ds_Kind d) ++
  writeF (ds_Probability d) ++ writeF (ds_CallCountMean d) ++ writeLatency (ds_CallLatencyMs d) ++
  writeF (ds_TimeoutMs d) ++ writeF (ds_FailureRate d) ++
  match ds_Retryable d with None => writeStr "dr_nil" | Some b => writeB b end ++
  writeF (ds_DownstreamFractionCPU d) ++ writeStr (ds_PartitionKey d) ++ writeStr (ds_PartitionKeyFrom d).
Definition hash_endpoint (e : Endpoint) : bytes :=
  writeStr "ep" ++ writeStr (ep_Path e) ++ writeF (ep_MeanCPUMs e) ++ writeF (ep_CPUSigmaMs e) ++
  writeF (ep_DefaultMemoryMB e) ++ writeF (ep_FailureRate e) ++ writeF (ep_TimeoutMs e) ++
  writeLatency (ep_IOMs e) ++ writeI (ep_ConnectionPool e) ++
  writeOpt "ep_routing" "ep_routing_nil" hash_routing (ep_Routing e) ++ writeLatency (ep_NetLatencyMs e) ++
  writeI (len (ep_Downstream e)) ++ concat (hash_downstream <$> sort_indexed downstream_differ (ep_Downstream e)).
Definition hash_service (s : Service) : bytes :=
  writeStr "svc" ++ writeStr (svc_ID s) ++ writeStr (svc_Kind s) ++ writeStr (svc_Role s) ++
  writeI (svc_Replicas s) ++ writeStr (svc_Model s) ++ writeF (svc_CPUCores s) ++ writeF (svc_MemoryMB s) ++
  writeOpt "extnetlat" "extnetlat_nil" writeLatency (svc_ExternalNetworkLatencyMs s) ++
  writeOpt "scaling" "scaling_nil" hash_scaling (svc_Scaling s) ++
  writeOpt "placement" "placement_nil" hash_placement (svc_Placement s) ++
  writeOpt "routing" "routing_nil" hash_routing (svc_Routing s) ++
  writeOpt "beh" "beh_nil" hash_behavior (svc_Behavior s) ++
  concat (hash_endpoint <$> sort_indexed endpoint_differ (svc_Endpoints s)).
Definition hash_workload (w : WorkloadPattern) : bytes :=
  let a := wl_Arrival w in
  writeStr "wl" ++ writeStr (wl_From w) ++ writeStr (wl_SourceKind w) ++ writeStr (wl_TrafficClass w) ++
  writeMap writeStr (wl_Metadata w) ++ writeStr (wl_To w) ++ writeStr (ar_Type a) ++ writeF (ar_RateRPS a) ++
  writeF (ar_StdDevRPS a) ++ writeF (ar_BurstRateRPS a) ++ writeF (ar_BurstDurationSeconds a) ++
  writeF (ar_QuietDurationSeconds a).
Definition hash_autoscaling (a : AutoscalingPolicyConfig) : bytes :=
  writeB (ac_Enabled a) ++ writeF (ac_TargetCPUUtil a) ++ writeI (ac_ScaleStep a).
Definition hash_retries (r : RetryPolicyConfig) : bytes :=
  writeB (rc_Enabled r) ++ writeI (rc_MaxRetries r) ++ writeStr (rc_Backoff r) ++ writeI (rc_BaseMs r).
Definition hash_policies (p : PoliciesConfig) : bytes :=
  writeOpt "as" "as_nil" hash_autoscaling (pc_Autoscaling p) ++ writeOpt "ret" "ret_nil" hash_retries (pc_Retries p).
Definition hash_stream (s : Scenario) : bytes :=
  writeOpt "meta" "meta_nil" writeStr (scn_SchemaVersion s) ++
  writeOpt "sl" "sl_nil" hash_limits (scn_SimulationLimits s) ++
  writeOpt "net" "net_nil" hash_network (scn_Network s) ++
  hash_by_id hs_ID hash_host (scn_Hosts s) ++ hash_by_id svc_ID hash_service (scn_Services s) ++
  concat (hash_workload <$> sort_indexed workload_differ (scn_Workload s)) ++
  writeOpt "pol" "pol_nil" hash_policies (scn_Policies s).

(** * The hash *)

Definition fnv64_bytes (data : bytes) : Z :=
  foldl (λ h b, (Z.lxor h b * 1099511628211) mod 2 ^ 64) 14695981039346656037 data.
(** [Sum] gives the bytes of the state with the highest first; [LittleEndian.Uint64] reads
    them with the lowest first. *)
Definition le_value (data : bytes) : Z := foldr (λ b acc, b + 256 * acc) 0 data.
Definition ConfigHash (s : option Scenario) : Z :=
  match s with
  | None => 0
  | Some s => le_value (reverse (le_bytes 8 (fnv64_bytes (hash_stream s))))
  end.
Definition ScenarioSemanticsEqual (a b : option Scenario) : bool :=
  match a, b with
  | Some _, Some _ => ConfigHash a =? ConfigHash b
  | None, None => true
  | _, _ => false
  end.

(** * Laws of the orders *)

(** A chain of comparisons that orders the elements satisfying [P]: it is antisymmetric,
    and a comparison through a third element keeps strictness. *)
Record ordered {A} (P : A → Prop) (c : A → A → option bool) : Prop := {
  ord_swap : ∀ x y, P x → P y → c y x = negb <$> c x y;
  ord_trans : ∀ x y z, P x → P y → P z → c x y ≠ Some false → c y z ≠ Some false →
    c x z ≠ Some false ∧ (c x y = Some true ∨ c y z = Some true → c x z = Some true);
}.
Lemma ordered_proj {A B} (f : A → B) (P : A → Prop) (Q : B → Prop) c :
  (∀ x, P x → Q (f x)) → ordered Q c → ordered P (λ x y, c (f x) (f y)).
Proof. intros H [Hs Ht]. split; intros; [apply Hs|eapply (Ht _ (f y))]; auto. Qed.
Lemma ordered_weaken {A} (P Q : A → Prop) c : (∀ x, P x → Q x) → ordered Q c → ordered P c.
Proof. intros H. by apply (ordered_proj id). Qed.
Lemma ordered_refl {A} (P : A → Prop) c x : ordered P c → P x → c x x = None.
Proof. intros [Hs _] Hx. specialize (Hs x x Hx Hx). by destruct (c x x) as [[]|]. Qed.
(** The second comparison only has to order the ties of the first. *)
Lemma ordered_then {A} (P : A → Prop) c d : ordered P c →
  (∀ a, P a → ordered (λ x, P x ∧ c a x = None) d) → ordered P (λ x y, then_differ (c x y) (d x y)).
Proof.
  intros Hc Hd. split.
  - intros x y Hx Hy. rewrite (ord_swap _ _ Hc x y Hx Hy). destruct (c x y) as [b|] eqn:E; simpl; [done|].
    apply (ord_swap _ _ (Hd x Hx)); [by split; [|apply (ordered_refl P)]|by split].
  - intros x y z Hx Hy Hz H1 H2.
    assert (Hxy : c x y ≠ Some false) by (intros E; by rewrite E in H1).
    assert (Hyz : c y z ≠ Some false) by (intros E; by rewrite E in H2).
    destruct (ord_trans _ _ Hc x y z Hx Hy Hz Hxy Hyz) as [Hle Hst].
    destruct (c x z) as [[]|] eqn:E; [by split| |]; [done|].
    assert (Exy : c x y = None) by (destruct (c x y) as [[]|]; [|done|done]; discriminate Hst; by left).
    assert (Eyz : c y z = None) by (destruct (c y z) as [[]|]; [|done|done]; discriminate Hst; by right).
    rewrite Exy, Eyz in *. simpl in *.
    apply (ord_trans _ _ (Hd x Hx) x y z); try done; split; try done. by apply (ordered_refl P).
Qed.
Lemma ordered_then_all {A} (P : A → Prop) c d :
  ordered P c → ordered P d → ordered P (λ x y, then_differ (c x y) (d x y)).
Proof. intros Hc Hd. apply ordered_then; [done|]. intros a _. eapply ordered_weaken; [|exact Hd]. by intros x []. Qed.
Lemma ordered_none {A} (P : A → Prop) : ordered P (λ _ _, None).
Proof. split; [done|]. intros x y z _ _ _ _ _. split; [done|]. by intros []. Qed.

(** A total strict order on a type of keys. *)
Lemma ordered_strict {A} (P : A → Prop) (lt : A → A → bool) (eqb : A → A → bool) :
  (∀ x y, P x → P y → eqb x y = true ↔ x = y) → (∀ x, P x → lt x x = false) →
  (∀ x y, P x → P y → x ≠ y → lt y x = negb (lt x y)) →
  (∀ x y z, P x → P y → P z → lt x y = true → lt y z = true → lt x z = true) →
  ordered P (λ x y, if eqb x y then None else Some (lt x y)).
Proof.
  intros He Hi Ht Htr.
  assert (Hle : ∀ x y, P x → P y → (if eqb x y then None else Some (lt x y)) ≠ Some false → x = y ∨ lt x y = true).
  { intros x y Hx Hy. destruct (eqb x y) eqn:E; [left; by apply He|]. destruct (lt x y); [by right|done]. }
  assert (Hlt : ∀ x y, P x → P y → lt x y = true → (if eqb x y then None else Some (lt x y)) = Some true).
  { intros x y Hx Hy Hl. destruct (eqb x y) eqn:E; [|by rewrite Hl]. apply He in E as ->; [|done..]. by rewrite Hi in Hl. }
  assert (Hrefl : ∀ x, P x → eqb x x = true) by (intros; by apply He).
  split.
  - intros x y Hx Hy. destruct (eqb x y) eqn:E.
    + apply He in E as ->; [|done..]. by rewrite Hrefl.
    + destruct (eqb y x) eqn:E'; [apply He in E' as ->; [by rewrite Hrefl in E|done..]|].
      simpl. f_equal. apply Ht; try done. intros ->. by rewrite Hrefl in E.
  - intros x y z Hx Hy Hz [->|H1]%Hle [->|H2]%Hle; try done.
    + split; [by rewrite Hrefl|]. rewrite Hrefl by done. by intros [|].
    + split; [by rewrite Hlt|]. intros _. by apply Hlt.
    + split; [by rewrite Hlt|]. intros _. by apply Hlt.
    + rewrite (Hlt x z) by eauto. by split.
Qed.
Lemma string_ltb_antisym x y : x ≠ y → string_ltb y x = negb (string_ltb x y).
Proof.
  intros H. unfold string_ltb. rewrite (String.compare_antisym y x).
  destruct (String.compare x y) eqn:E; try done. by apply String.compare_eq_iff in E.
Qed.
Lemma string_ltb_irrefl x : string_ltb x x = false.
Proof. unfold string_ltb. pose proof (String.compare_antisym x x). by destruct (String.compare x x). Qed.
Lemma string_ltb_trans x y z : string_ltb x y = true → string_ltb y z = true → string_ltb x z = true.
Proof.
  intros H1 H2. destruct (string_ltb x z) eqn:E; [done|].
  pose proof (string_ltb_ge _ _ E) as E1. pose proof (string_ltb_le _ _ H1) as L1. pose proof (string_ltb_le _ _ H2) as L2.
  assert (x = y). { apply (anti_symm String.le); [done|]. etrans; [exact L2|done]. }
  subst. by rewrite string_ltb_irrefl in H1.
Qed.
Lemma ordered_s : ordered (λ _, True) differ_s.
Proof.
  apply ordered_strict; intros.
  - apply String.eqb_eq.
  - apply string_ltb_irrefl.
  - by apply string_ltb_antisym.
  - by eapply string_ltb_trans.
Qed.
Lemma ordered_z : ordered (λ _, True) differ_z.
Proof.
  apply ordered_strict; intros; rewrite ?Z.eqb_eq, ?Z.ltb_irrefl, ?Z.ltb_lt in *; try done; [|lia].
  destruct (Z.ltb_spec y x), (Z.ltb_spec x y); simpl; try done; lia.
Qed.
(** Not a NaN and not the negative zero: equal values have the same bits. *)
Definition plain (x : float64) : bool := match x with S754_nan | S754_zero true => false | _ => true end.
Lemma feqb_plain x y : plain x = true → plain y = true → feqb x y = true ↔ x = y.
Proof.
  intros Hx Hy. split; [|intros ->; destruct y as [[]|[]| |[] m e]; try done; unfold feqb; simpl;
    rewrite Z.compare_refl, pos_compare_cont_eq, Pos.compare_refl; done].
  unfold feqb. destruct x as [[]|[]| |[] m e], y as [[]|[]| |[] m' e']; simpl; try done;
    destruct (Z.compare_spec e e') as [->| |]; simpl; try done; rewrite pos_compare_cont_eq;
    destruct (Pos.compare_spec m m') as [->| |]; done.
Qed.
Lemma plain_not_nan x : plain x = true → is_nan x = false.
Proof. by destruct x as [[]| | |]. Qed.
Lemma f64_key_inj x y : plain x = true → plain y = true → f64_key x = f64_key y → x = y.
Proof. by destruct x as [[]|[]| |[] m e], y as [[]|[]| |[] m' e']; simpl; try done; intros _ _ [= ? ?]; subst; f_equal; lia. Qed.
Lemma ordered_f : ordered (λ x, plain x = true) differ_f.
Proof.
  apply ordered_strict.
  - intros. by apply feqb_plain.
  - intros x _. apply fltb_irrefl.
  - intros x y Hx Hy Hne. apply plain_not_nan in Hx as Nx, Hy as Ny.
    destruct (key_lt_total (f64_key x) (f64_key y)) as [L|[E|L]]; [|by apply f64_key_inj in E|].
    + assert (E : fltb x y = true) by (rewrite fltb_key; eauto). rewrite E. apply not_true_is_false. intros E'.
      pose proof (fltb_trans _ _ _ E E') as F. by rewrite fltb_irrefl in F.
    + assert (E : fltb y x = true) by (rewrite fltb_key; eauto). rewrite E. symmetry. apply negb_true_iff, not_true_is_false.
      intros E'. pose proof (fltb_trans _ _ _ E E') as F. by rewrite fltb_irrefl in F.
  - intros x y z _ _ _. apply fltb_trans.
Qed.
Lemma ordered_ext {A} (P : A → Prop) c c' :
  (∀ x y, P x → P y → c x y = c' x y) → ordered P c → ordered P c'.
Proof.
  intros H [Hs Ht]. split.
  - intros x y Hx Hy. rewrite <- !H by done. by apply Hs.
  - intros x y z Hx Hy Hz. rewrite <- !H by done. by apply Ht.
Qed.
Lemma sorted_items_perm {A} (m : gmap string A) : sorted_items m ≡ₚ map_to_list m.
Proof.
  unfold sorted_items, visit, sorted_keys. rewrite (sort_SliceStable_perm _ _).
  assert (H : ∀ l : list (string * A), (∀ kv, kv ∈ l → m !! kv.1 = Some kv.2) → omap (λ k, pair k <$> m !! k) (fst <$> l) = l).
  { induction l as [|[k v] l IH]; intros Hl; [done|]. pose proof (Hl (k, v) ltac:(by left)) as E. simpl in E.
    csimpl. rewrite E. simpl. f_equal. apply IH. intros kv Hkv. apply Hl. by right. }
  rewrite H; [done|]. intros [k v] Hkv. by apply elem_of_map_to_list in Hkv.
Qed.
Lemma length_sorted_items {A} (m : gmap string A) : length (sorted_items m) = size m.
Proof. by rewrite sorted_items_perm, length_map_to_list. Qed.
Lemma sorted_items_inj {A} (a b : gmap string A) : sorted_items a = sorted_items b → a = b.
Proof. intros E. apply map_to_list_inj. by rewrite <- !sorted_items_perm, E. Qed.
Lemma items_differ_none : ∀ a b, length a = length b → items_differ a b = None → a = b.
Proof.
  induction a as [|[k v] a IH]; intros [|[k' v'] b]; simpl; try done. intros [= Hl]. unfold differ_s.
  destruct (String.eqb_spec k k') as [->|], (String.eqb_spec v v') as [->|]; simpl; try done. intros H. by rewrite (IH b).
Qed.
Lemma ordered_items n : ordered (λ l, length l = n) items_differ.
Proof.
  induction n as [|n IH].
  - eapply ordered_ext; [|apply ordered_none]. by intros [] [].
  - set (hd l := default ("", "") (head l) : string * string).
    apply (ordered_ext _ (λ x y, then_differ (differ_s (hd x).1 (hd y).1)
      (then_differ (differ_s (hd x).2 (hd y).2) (items_differ (tail x) (tail y))))); [by intros [] []|].
    repeat apply ordered_then_all.
    + apply (ordered_proj (λ l, (hd l).1) _ (λ _, True)); [done|apply ordered_s].
    + apply (ordered_proj (λ l, (hd l).2) _ (λ _, True)); [done|apply ordered_s].
    + eapply (ordered_proj tail); [|exact IH]. intros []; simpl; lia.
Qed.
Lemma differ_z_none x y : differ_z x y = None → x = y.
Proof. unfold differ_z. destruct (Z.eqb_spec x y); by intros. Qed.
Lemma ordered_metadata : ordered (λ _, True) metadata_differ.
Proof.
  apply (ordered_then _ (λ a b : gmap string string, differ_z (Z.of_nat (size a)) (Z.of_nat (size b)))).
  - by apply (ordered_proj (λ m : gmap string string, Z.of_nat (size m)) _ (λ _, True)), ordered_z.
  - intros a _. apply (ordered_proj sorted_items _ (λ l, length l = size a)); [|apply ordered_items].
    intros m [_ E%differ_z_none]. rewrite length_sorted_items. lia.
Qed.
(** The numbers of an arrival are plain. *)
Definition plain_arrival (a : ArrivalSpec) : bool :=
  plain (ar_RateRPS a) && plain (ar_StdDevRPS a) && plain (ar_BurstRateRPS a) &&
  plain (ar_BurstDurationSeconds a) && plain (ar_QuietDurationSeconds a).
Definition plain_pattern (w : WorkloadPattern) : Prop := plain_arrival (wl_Arrival w) = true.
Ltac plain_field f :=
  apply (ordered_proj (λ w, f (wl_Arrival w)) _ (λ x, plain x = true)); [|apply ordered_f];
  unfold plain_pattern, plain_arrival; intros ? Hp; by rewrite !andb_true_iff in Hp; destruct_and!.
Lemma ordered_workload : ordered plain_pattern workload_differ.
Proof.
  unfold workload_differ. cbn [chain].
  repeat match goal with |- ordered _ (λ x y, then_differ _ _) => apply ordered_then_all end; try apply ordered_none.
  1-4: eapply (ordered_proj _ _ (λ _, True)); [done|apply ordered_s].
  - eapply (ordered_proj wl_Metadata _ (λ _, True)); [done|apply ordered_metadata].
  - eapply (ordered_proj (λ w, ar_Type (wl_Arrival w)) _ (λ _, True)); [done|apply ordered_s].
  - plain_field ar_RateRPS.
  - plain_field ar_StdDevRPS.
  - plain_field ar_BurstRateRPS.
  - plain_field ar_BurstDurationSeconds.
  - plain_field ar_QuietDurationSeconds.
Qed.
Lemma differ_s_none x y : differ_s x y = None → x = y.
Proof. unfold differ_s. destruct (String.eqb_spec x y); by intros. Qed.
Lemma differ_f_none x y : plain x = true → plain y = true → differ_f x y = None → x = y.
Proof. intros Hx Hy. unfold differ_f. destruct (feqb x y) eqn:E; [intros _|done]. by apply feqb_plain in E. Qed.
Lemma then_differ_none c d : then_differ c d = None ↔ c = None ∧ d = None.
Proof. destruct c; simpl; naive_solver. Qed.
Lemma metadata_differ_none a b : metadata_differ a b = None → a = b.
Proof.
  unfold metadata_differ. rewrite then_differ_none. intros [E1%differ_z_none E2]. apply sorted_items_inj.
  apply items_differ_none; [|done]. rewrite !length_sorted_items. lia.
Qed.
(** Patterns that tie are the same pattern. *)
Lemma workload_differ_none a b : plain_pattern a → plain_pattern b → workload_differ a b = None → a = b.
Proof.
  unfold plain_pattern, plain_arrival, workload_differ. cbn [chain]. rewrite !andb_true_iff, !then_differ_none.
  destruct a as [? ? ? ? ? []], b as [? ? ? ? ? []]; simpl. intros Ha Hb H. destruct_and!.
  repeat match goal with
  | E : differ_s _ _ = None |- _ => apply differ_s_none in E
  | E : metadata_differ _ _ = None |- _ => apply metadata_differ_none in E
  | E : differ_f _ _ = None |- _ => apply differ_f_none in E; [|done..]
  end. by subst.
Qed.

(** * Sorting does not see the order of declaration *)

Lemma insert_stable_sorted_on {A} (P : A → Prop) (R : relation A) less x l :
  (∀ a b c, P a → P b → P c → R a b → R b c → R a c) →
  (∀ a b, P a → P b → less a b = true → R a b) → (∀ a b, P a → P b → less a b = false → R b a) →
  P x → Forall P l → StronglySorted R l → StronglySorted R (insert_stable less x l).
Proof.
  intros Ht Hlt Hge Hx Hl Hs. induction Hs as [|y l Hs IH Hy]; simpl; [by repeat constructor|].
  apply Forall_cons in Hl as [Py Hl]. destruct (less y x) eqn:E; constructor.
  - auto.
  - rewrite insert_stable_perm. constructor; auto.
  - by constructor.
  - apply Hge in E; [|done..]. constructor; [done|]. rewrite Forall_forall in *. intros z Hz. eauto.
Qed.
Lemma sort_SliceStable_sorted_on {A} (P : A → Prop) (R : relation A) less l :
  (∀ a b c, P a → P b → P c → R a b → R b c → R a c) →
  (∀ a b, P a → P b → less a b = true → R a b) → (∀ a b, P a → P b → less a b = false → R b a) →
  Forall P l → StronglySorted R (sort_SliceStable less l).
Proof.
  intros Ht Hlt Hge. induction 1 as [|x l Hx Hl IH]; simpl; [constructor|].
  apply (insert_stable_sorted_on P); try done. change (Forall P (sort_SliceStable less l)). by rewrite (sort_SliceStable_perm _ _).
Qed.
Lemma StronglySorted_proj {A B} (f : A → B) (R : relation B) l :
  StronglySorted (λ x y, R (f x) (f y)) l → StronglySorted R (f <$> l).
Proof.
  induction 1 as [|x l Hs IH Hx]; [constructor|]. csimpl. constructor; [done|]. by apply Forall_fmap.
Qed.
Lemma snd_imap_pair {A} (l : list A) : snd <$> imap pair l = l.
Proof. apply list_eq. intros i. rewrite list_lookup_fmap, list_lookup_imap. by destruct (l !! i). Qed.
Lemma sort_indexed_elems {A} (differ : A → A → option bool) l : sort_indexed differ l ≡ₚ l.
Proof. unfold sort_indexed. rewrite (sort_SliceStable_perm _ _). by rewrite snd_imap_pair. Qed.
Lemma sort_indexed_sorted {A} (P : A → Prop) differ l : ordered P differ → Forall P l →
  StronglySorted (λ a b, differ a b ≠ Some false) (sort_indexed differ l).
Proof.
  intros Ho Hl. apply StronglySorted_proj, (sort_SliceStable_sorted_on (λ x, P x.2)).
  - intros [i a] [j b] [k c] Ha Hb Hc H1 H2. by apply (ord_trans _ _ Ho a b c).
  - intros [i a] [j b] Ha Hb. simpl. destruct (differ a b) as [[]|] eqn:E; by intros.
  - intros [i a] [j b] Ha Hb. simpl. rewrite (ord_swap _ _ Ho a b Ha Hb).
    destruct (differ a b) as [[]|] eqn:E; by intros.
  - apply (Forall_fmap snd P). by rewrite snd_imap_pair.
Qed.
(** Where ties are equal elements, the sorted list depends on the elements only. *)
Lemma sort_indexed_perm {A} (P : A → Prop) differ l l' : ordered P differ →
  (∀ a b, P a → P b → differ a b = None → a = b) → Forall P l → l ≡ₚ l' →
  sort_indexed differ l = sort_indexed differ l'.
Proof.
  intros Ho Htie Hl Hp. assert (Hl' : Forall P l') by (by rewrite <- Hp).
  eapply StronglySorted_unique_strong; [|by eapply sort_indexed_sorted..|].
  - intros a b Ha Hb H1 H2. rewrite sort_indexed_elems in Ha, Hb. rewrite Forall_forall in Hl, Hl'.
    cbv beta in H1, H2. apply Htie; [auto..|]. rewrite (ord_swap _ _ Ho a b) in H2 by auto. by destruct (differ a b) as [[]|].
  - by rewrite !sort_indexed_elems.
Qed.
Lemma find_by_id {A} (id : A → string) (l : list A) x i : NoDup (id <$> l) → x ∈ l → id x = i →
  snd <$> list_find (λ x, id x = i) l = Some x.
Proof.
  intros Hnd Hx Hid. destruct (list_find (λ x, id x = i) l) as [[k y]|] eqn:E; simpl.
  - apply list_find_Some in E as (Hy & Ey & _). f_equal. apply list_elem_of_lookup_2 in Hy.
    eapply (NoDup_fmap_inj_on id); eauto. congruence.
  - apply list_find_None in E. rewrite Forall_forall in E. by destruct (E x Hx).
Qed.
Lemma hash_by_id_perm {A} (id : A → string) w (l l' : list A) : NoDup (id <$> l) → l ≡ₚ l' →
  hash_by_id id w l = hash_by_id id w l'.
Proof.
  intros Hnd Hp. unfold hash_by_id. assert (Hnd' : NoDup (id <$> l')) by (by rewrite <- Hp). f_equal.
  assert (Es : sort_SliceStable string_ltb (id <$> l) = sort_SliceStable string_ltb (id <$> l')).
  { apply (StronglySorted_unique String.le); [apply sort_strings_sorted..|].
    by rewrite !(sort_SliceStable_perm _ _), Hp. }
  rewrite Es. apply list_fmap_ext. intros k i Hi%list_elem_of_lookup_2.
  rewrite (sort_SliceStable_perm _ _) in Hi. apply list_elem_of_fmap in Hi as (x & Hi & Hx).
  pose proof (find_by_id id l' x i Hnd' Hx (eq_sym Hi)) as F1.
  pose proof (find_by_id id l x i Hnd ltac:(by rewrite Hp) (eq_sym Hi)) as F2.
  destruct (list_find (λ x, id x = i) l) as [[? ?]|], (list_find (λ x, id x = i) l') as [[? ?]|]; by simplify_eq/=.
Qed.

Lemma hash_by_id_same {A} (id : A → string) w (l l' : list A) :
  Forall2 (λ x y, id x = id y ∧ w x = w y) l l' → hash_by_id id w l = hash_by_id id w l'.
Proof.
  intros H. unfold hash_by_id.
  assert (Ei : id <$> l = id <$> l') by (induction H as [|x y l l' [E _] _ IH]; csimpl; congruence).
  rewrite Ei. f_equal. apply list_fmap_ext. intros _ i _. clear Ei.
  induction H as [|x y l l' [E1 E2] _ IH]; [done|]. simpl. rewrite E1. case_decide; simpl; [by rewrite E2|].
  by destruct (list_find (λ x, id x = i) l) as [[? ?]|], (list_find (λ x, id x = i) l') as [[? ?]|].
Qed.
Lemma ordered_endpoint : ordered (λ _, True) endpoint_differ.
Proof. by apply (ordered_proj ep_Path _ (λ _, True)), ordered_s. Qed.
(** Endpoints with distinct paths are written in the same order. *)
Lemma endpoints_perm l l' : NoDup (ep_Path <$> l) → l ≡ₚ l' →
  sort_indexed endpoint_differ l = sort_indexed endpoint_differ l'.
Proof.
  intros Hnd Hp. apply (sort_indexed_perm (λ e, e ∈ l)); [|..|done].
  - eapply ordered_weaken; [|exact ordered_endpoint]. done.
  - intros a b Ha Hb E%differ_s_none. by eapply (NoDup_fmap_inj_on ep_Path).
  - by apply Forall_forall.
Qed.

(** * The identity of a scenario *)

(** The same service up to the order of its endpoints, which have distinct paths. *)
Definition same_service (a b : Service) : Prop :=
  b = a <| svc_Endpoints := svc_Endpoints b |> ∧ svc_Endpoints a ≡ₚ svc_Endpoints b ∧
  NoDup (ep_Path <$> svc_Endpoints a).
Lemma same_service_hash a b : same_service a b → svc_ID a = svc_ID b ∧ hash_service a = hash_service b.
Proof.
  intros (-> & Hp & Hnd). split; [done|]. unfold hash_service. simpl in *.
  by rewrite (endpoints_perm _ _ Hnd Hp).
Qed.
(** The same scenario up to the order of hosts, services, their endpoints and workload
    patterns. *)
Record reordered (s s' : Scenario) : Prop := {
  re_version : scn_SchemaVersion s = scn_SchemaVersion s';
  re_limits : scn_SimulationLimits s = scn_SimulationLimits s';
  re_network : scn_Network s = scn_Network s';
  re_hosts : scn_Hosts s ≡ₚ scn_Hosts s';
  re_services : ∃ l, scn_Services s ≡ₚ l ∧ Forall2 same_service l (scn_Services s');
  re_workload : scn_Workload s ≡ₚ scn_Workload s';
  re_policies : scn_Policies s = scn_Policies s';
}.
(** C11: the identity of a scenario is canonical. Reordering its hosts, its services, the
    endpoints of each service and its workload patterns does not change the hash, when host
    and service IDs are distinct, paths are distinct within a service and no number of a
    workload pattern is a NaN or a negative zero. *)
Theorem config_hash_canonical s s' : reordered s s' →
  NoDup (hs_ID <$> scn_Hosts s) → NoDup (svc_ID <$> scn_Services s) → Forall plain_pattern (scn_Workload s) →
  ConfigHash (Some s) = ConfigHash (Some s').
Proof.
  intros [E1 E2 E3 Hh (l & Hl & Hs) Hw E4] Nh Ns Pw. unfold ConfigHash, hash_stream. rewrite E1, E2, E3, E4.
  rewrite (hash_by_id_perm hs_ID hash_host _ _ Nh Hh), (hash_by_id_perm svc_ID hash_service _ _ Ns Hl).
  rewrite (hash_by_id_same svc_ID hash_service l (scn_Services s')).
  - by rewrite (sort_indexed_perm plain_pattern _ _ _ ordered_workload workload_differ_none Pw Hw).
  - eapply Forall2_impl; [exact Hs|]. intros. by apply same_service_hash.
Qed.

(** Two scenarios written in different orders. *)
Definition ordered_scenario : Scenario :=
  mkScenario (Some "0.2.0") None None [mkHostSpec "h1" 4 16 "z1" ∅; mkHostSpec "h2" 8 16 "z2" ∅]
    [sample_service "api" "" None [sample_endpoint "/a" []; sample_endpoint "/b" [sample_call "db:/q" "db"]];
     sample_service "db" "database" None [sample_endpoint "/q" []]]
    [sample_workload "api:/a"; sample_workload "api:/b"] None.
Definition reordered_scenario : Scenario :=
  mkScenario (Some "0.2.0") None None [mkHostSpec "h2" 8 16 "z2" ∅; mkHostSpec "h1" 4 16 "z1" ∅]
    [sample_service "db" "database" None [sample_endpoint "/q" []];
     sample_service "api" "" None [sample_endpoint "/b" [sample_call "db:/q" "db"]; sample_endpoint "/a" []]]
    [sample_workload "api:/b"; sample_workload "api:/a"] None.
Lemma config_hash_canonical_witness :
  ordered_scenario ≠ reordered_scenario ∧ ConfigHash (Some ordered_scenario) = ConfigHash (Some reordered_scenario).
Proof.
  split; [discriminate|]. apply config_hash_canonical.
  - split; try reflexivity; simpl; try apply Permutation_swap.
    eexists. split; [apply Permutation_swap|].
    repeat constructor; try reflexivity; simpl; try apply Permutation_swap; set_solver.
  - repeat constructor; set_solver.
  - repeat constructor; set_solver.
  - repeat constructor.
Defined.
(** Downstream calls are not canonical: the order takes a missing [Retryable] for false,
    although it is written, and means, something else. Two calls that differ in nothing
    but that keep their order of declaration, and the hash changes with it. *)
Theorem downstream_order_changes_hash :
  let call retryable := mkDownstream "db:/q" "" "db" f0 f0 lat0 f0 f0 retryable f0 "" "" in
  let s calls := Some (mkScenario None None None [] [sample_service "api" "" None [sample_endpoint "/" calls]] [] None) in
  ConfigHash (s [call None; call (Some false)]) ≠ ConfigHash (s [call (Some false); call None]).
Proof. vm_compute. discriminate. Qed.
(** With duplicate host IDs the hash reads the first host twice: the size of the second
    host is no part of the identity. *)
Theorem duplicate_hosts_hash_alike cores :
  let s c := Some (mkScenario None None None [mkHostSpec "h" 4 16 "" ∅; mkHostSpec "h" c 16 "" ∅] [] [] None) in
  ConfigHash (s cores) = ConfigHash (s 4).
Proof. reflexivity. Qed.
