(* ===== verification/RunMetrics.v ===== *)
(** The metrics of a run as the optimisers see them: the messages of the API, the
    combination of several runs of one candidate ([batch_metrics_agg.go]), error rates
    ([error_rate.go]), the objectives ([objective.go]), comparisons of runs
    ([comparison.go]) and the choice among candidates ([selection.go]), all of
    [internal/improvement]. Lists of messages hold no nil entries. A number printed into
    an error text is left out. *)
From S2P Require Import Prelude GoFloat Utils Policy Config Graph BrokerQueue BatchSpec Instance ResourceManager ServiceModel.
From Stdlib Require Import SpecFloat.
#[local] Open Scope string_scope.
#[local] Open Scope list_scope.
#[local] Open Scope Z_scope.

(** * Messages *)

Record ServiceMetrics := mkServiceMetrics {
  sm_ServiceName : string;
  sm_RequestCount : Z;
  sm_ErrorCount : Z;
  sm_LatencyP50Ms : float64;
  sm_LatencyP95Ms : float64;
  sm_LatencyP99Ms : float64;
  sm_LatencyMeanMs : float64;
  sm_CpuUtilization : float64;
  sm_MemoryUtilization : float64;
  sm_ActiveReplicas : Z;
  sm_ConcurrentRequests : Z;
  sm_QueueLength : Z;
  sm_QueueWaitP50Ms : float64;
  sm_QueueWaitP95Ms : float64;
  sm_QueueWaitP99Ms : float64;
  sm_QueueWaitMeanMs : float64;
  sm_ProcessingLatencyP50Ms : float64;
  sm_ProcessingLatencyP95Ms : float64;
  sm_ProcessingLatencyP99Ms : float64;
  sm_ProcessingLatencyMeanMs : float64;
}.
Record HostMetrics := mkHostMetrics {
  hm_HostId : string;
  hm_CpuUtilization : float64;
  hm_MemoryUtilization : float64;
}.
Record EndpointRequestStats := mkEndpointStats {
  ers_ServiceName : string;
  ers_EndpointPath : string;
  ers_RequestCount : Z;
  ers_ErrorCount : Z;
  ers_LatencyP50Ms : option float64;
  ers_LatencyP95Ms : option float64;
  ers_LatencyP99Ms : option float64;
  ers_LatencyMeanMs : option float64;
  ers_RootLatencyP50Ms : option float64;
  ers_RootLatencyP95Ms : option float64;
  ers_RootLatencyP99Ms : option float64;
  ers_RootLatencyMeanMs : option float64;
  ers_QueueWaitP50Ms : option float64;
  ers_QueueWaitP95Ms : option float64;
  ers_QueueWaitP99Ms : option float64;
  ers_QueueWaitMeanMs : option float64;
  ers_ProcessingLatencyP50Ms : option float64;
  ers_ProcessingLatencyP95Ms : option float64;
  ers_ProcessingLatencyP99Ms : option float64;
  ers_ProcessingLatencyMeanMs : option float64;
}.
Record InstanceRouteStats := mkRouteStats {
  irs_ServiceName : string;
  irs_EndpointPath : string;
  irs_InstanceId : string;
  irs_Strategy : string;
  irs_SelectionCount : Z;
}.
Record RunMetrics := mkRunMetrics {
  met_TotalRequests : Z;
  met_SuccessfulRequests : Z;
  met_FailedRequests : Z;
  met_LatencyP50Ms : float64;
  met_LatencyP95Ms : float64;
  met_LatencyP99Ms : float64;
  met_LatencyMeanMs : float64;
  met_ThroughputRps : float64;
  met_IngressRequests : Z;
  met_InternalRequests : Z;
  met_IngressThroughputRps : float64;
  met_IngressFailedRequests : Z;
  met_IngressErrorRate : float64;
  met_AttemptFailedRequests : Z;
  met_AttemptErrorRate : float64;
  met_RetryAttempts : Z;
  met_TimeoutErrors : Z;
  met_QueueEnqueueCountTotal : Z;
  met_QueueDequeueCountTotal : Z;
  met_QueueDropCountTotal : Z;
  met_QueueRedeliveryCountTotal : Z;
  met_QueueDlqCountTotal : Z;
  met_QueueDepthSum : float64;
  met_TopicPublishCountTotal : Z;
  met_TopicDeliverCountTotal : Z;
  met_TopicDropCountTotal : Z;
  met_TopicRedeliveryCountTotal : Z;
  met_TopicDlqCountTotal : Z;
  met_TopicBacklogDepthSum : float64;
  met_TopicConsumerLagSum : float64;
  met_QueueOldestMessageAgeMs : float64;
  met_TopicOldestMessageAgeMs : float64;
  met_MaxQueueDepth : float64;
  met_MaxTopicBacklogDepth : float64;
  met_MaxTopicConsumerLag : float64;
  met_QueueDropRate : float64;
  met_TopicDropRate : float64;
  met_ServiceMetrics : list ServiceMetrics;
  met_HostMetrics : list HostMetrics;
  met_EndpointRequestStats : list EndpointRequestStats;
  met_InstanceRouteStats : list InstanceRouteStats;
  met_LocalityHitRate : float64;
  met_CrossZoneRequestCountTotal : Z;
  met_SameZoneRequestCountTotal : Z;
  met_CrossZoneRequestFraction : float64;
  met_CrossZoneLatencyPenaltyMsTotal : float64;
  met_CrossZoneLatencyPenaltyMsMean : float64;
  met_SameZoneLatencyPenaltyMsTotal : float64;
  met_SameZoneLatencyPenaltyMsMean : float64;
  met_ExternalLatencyMsTotal : float64;
  met_ExternalLatencyMsMean : float64;
  met_TopologyLatencyPenaltyMsTotal : float64;
  met_TopologyLatencyPenaltyMsMean : float64;
}.
#[export] Instance eta_RunMetrics : Eta RunMetrics := λ r, mkRunMetrics (met_TotalRequests r)
  (met_SuccessfulRequests r) (met_FailedRequests r) (met_LatencyP50Ms r) (met_LatencyP95Ms r)
  (met_LatencyP99Ms r) (met_LatencyMeanMs r) (met_ThroughputRps r) (met_IngressRequests r)
  (met_InternalRequests r) (met_IngressThroughputRps r) (met_IngressFailedRequests r)
  (met_IngressErrorRate r) (met_AttemptFailedRequests r) (met_AttemptErrorRate r)
  (met_RetryAttempts r) (met_TimeoutErrors r) (met_QueueEnqueueCountTotal r)
  (met_QueueDequeueCountTotal r) (met_QueueDropCountTotal r) (met_QueueRedeliveryCountTotal r)
  (met_QueueDlqCountTotal r) (met_QueueDepthSum r) (met_TopicPublishCountTotal r)
  (met_TopicDeliverCountTotal r) (met_TopicDropCountTotal r) (met_TopicRedeliveryCountTotal r)
  (met_TopicDlqCountTotal r) (met_TopicBacklogDepthSum r) (met_TopicConsumerLagSum r)
  (met_QueueOldestMessageAgeMs r) (met_TopicOldestMessageAgeMs r) (met_MaxQueueDepth r)
  (met_MaxTopicBacklogDepth r) (met_MaxTopicConsumerLag r) (met_QueueDropRate r)
  (met_TopicDropRate r) (met_ServiceMetrics r) (met_HostMetrics r) (met_EndpointRequestStats r)
  (met_InstanceRouteStats r) (met_LocalityHitRate r) (met_CrossZoneRequestCountTotal r)
  (met_SameZoneRequestCountTotal r) (met_CrossZoneRequestFraction r)
  (met_CrossZoneLatencyPenaltyMsTotal r) (met_CrossZoneLatencyPenaltyMsMean r)
  (met_SameZoneLatencyPenaltyMsTotal r) (met_SameZoneLatencyPenaltyMsMean r)
  (met_ExternalLatencyMsTotal r) (met_ExternalLatencyMsMean r)
  (met_TopologyLatencyPenaltyMsTotal r) (met_TopologyLatencyPenaltyMsMean r).
(** The message with no field set. *)
Definition RunMetrics_zero : RunMetrics := mkRunMetrics 0 0 0 f0 f0 f0 f0 f0 0 0 f0 0 f0 0 f0 0 0
  0 0 0 0 0 f0 0 0 0 0 0 f0 f0 f0 f0 f0 f0 f0 f0 f0 [] [] [] [] f0 0 0 f0 f0 f0 f0 f0 f0 f0 f0 f0.

(** * Combining runs *)

Definition maxFloat (a b : float64) : float64 := if fltb b a then a else b.
Definition minFloat (a b : float64) : float64 := if fltb a b then a else b.
(** The accumulators of the loops over the runs: sums of counts (int64, int32) and of
    numbers, the largest value above zero, and the largest and smallest value. *)
Section accumulators.
  Context {A : Type}.
Definition sum_int (f : A → Z) (l : list A) : Z := foldl (λ s x, wrap64 (s + f x)) 0 l.
Definition sum_int32 (f : A → Z) (l : list A) : Z := foldl (λ s x, wrap32 (s + f x)) 0 l.
Definition sum_float (f : A → float64) (l : list A) : float64 := foldl (λ s x, fadd s (f x)) f0 l.
Definition max_above (f : A → float64) (l : list A) : float64 :=
  foldl (λ m x, if fltb m (f x) then f x else m) f0 l.
Definition first_then (op : float64 → float64 → float64) (f : A → float64) (l : list A) : float64 :=
  match l with [] => f0 | x :: l => foldl (λ m y, op m (f y)) (f x) l end.
(** The mean of [f] weighted by the positive weights, or the plain mean. *)
Definition weighted_mean (w : A → Z) (f : A → float64) (l : list A) : float64 :=
  let counted := filter (λ x, 0 < w x) l in
  let num := sum_float (λ x, fmul (f x) (f64_of_Z (w x))) counted in
  let den := sum_float (λ x, f64_of_Z (w x)) counted in
  if fltb f0 den then fdiv num den else fdiv (sum_float f l) (f64_of_Z (len l)).
(** [int64(float64(sum) / n)]. *)
Definition average_int (f : A → Z) (l : list A) : Z := f64_to_int (fdiv (f64_of_Z (sum_int f l)) (f64_of_Z (len l))).
Definition average_int32 (f : A → Z) (l : list A) : Z :=
  wrap32 (f64_to_int (fdiv (f64_of_Z (sum_int32 f l)) (f64_of_Z (len l)))).
Definition average (f : A → float64) (l : list A) : float64 := fdiv (sum_float f l) (f64_of_Z (len l)).
(** The elements by name, in the order of the names. *)
Definition group_by (name : A → string) (l : list A) : list (string * list A) :=
  (λ n, (n, filter (λ x, name x = n) l)) <$>
    sort_SliceStable string_ltb (elements (list_to_set (name <$> l) : gset string)).
End accumulators.

Definition service_weight (m : ServiceMetrics) : Z :=
  let w := wrap64 (sm_RequestCount m - sm_ErrorCount m) in if w <? 0 then 0 else w.
Definition combine_service (g : string * list ServiceMetrics) : ServiceMetrics :=
  let '(name, l) := g in
  {| sm_ServiceName := name;
     sm_RequestCount := average_int sm_RequestCount l;
     sm_ErrorCount := average_int sm_ErrorCount l;
     sm_LatencyP50Ms := first_then maxFloat sm_LatencyP50Ms l;
     sm_LatencyP95Ms := first_then maxFloat sm_LatencyP95Ms l;
     sm_LatencyP99Ms := first_then maxFloat sm_LatencyP99Ms l;
     sm_LatencyMeanMs := weighted_mean service_weight sm_LatencyMeanMs l;
     sm_CpuUtilization := average sm_CpuUtilization l;
     sm_MemoryUtilization := average sm_MemoryUtilization l;
     sm_ActiveReplicas := average_int32 sm_ActiveReplicas l;
     sm_ConcurrentRequests := average_int32 sm_ConcurrentRequests l;
     sm_QueueLength := average_int32 sm_QueueLength l;
     sm_QueueWaitP50Ms := first_then maxFloat sm_QueueWaitP50Ms l;
     sm_QueueWaitP95Ms := first_then maxFloat sm_QueueWaitP95Ms l;
     sm_QueueWaitP99Ms := first_then maxFloat sm_QueueWaitP99Ms l;
     sm_QueueWaitMeanMs := weighted_mean service_weight sm_QueueWaitMeanMs l;
     sm_ProcessingLatencyP50Ms := first_then maxFloat sm_ProcessingLatencyP50Ms l;
     sm_ProcessingLatencyP95Ms := first_then maxFloat sm_ProcessingLatencyP95Ms l;
     sm_ProcessingLatencyP99Ms := first_then maxFloat sm_ProcessingLatencyP99Ms l;
     sm_ProcessingLatencyMeanMs := weighted_mean service_weight sm_ProcessingLatencyMeanMs l |}.
Definition combine_host (g : string * list HostMetrics) : HostMetrics :=
  let '(id, l) := g in mkHostMetrics id (average hm_CpuUtilization l) (average hm_MemoryUtilization l).
Definition combine_runs (l : list RunMetrics) : RunMetrics :=
  {| met_TotalRequests := average_int met_TotalRequests l;
     met_SuccessfulRequests := average_int met_SuccessfulRequests l;
     met_FailedRequests := average_int met_FailedRequests l;
     met_LatencyP50Ms := first_then maxFloat met_LatencyP50Ms l;
     met_LatencyP95Ms := first_then maxFloat met_LatencyP95Ms l;
     met_LatencyP99Ms := first_then maxFloat met_LatencyP99Ms l;
     met_LatencyMeanMs := weighted_mean met_SuccessfulRequests met_LatencyMeanMs l;
     met_ThroughputRps := average met_ThroughputRps l;
     met_IngressRequests := average_int met_IngressRequests l;
     met_InternalRequests := average_int met_InternalRequests l;
     met_IngressThroughputRps := average met_IngressThroughputRps l;
     met_IngressFailedRequests := average_int met_IngressFailedRequests l;
     met_IngressErrorRate := max_above met_IngressErrorRate l;
     met_AttemptFailedRequests := average_int met_AttemptFailedRequests l;
     met_AttemptErrorRate := max_above met_AttemptErrorRate l;
     met_RetryAttempts := average_int met_RetryAttempts l;
     met_TimeoutErrors := average_int met_TimeoutErrors l;
     met_QueueEnqueueCountTotal := average_int met_QueueEnqueueCountTotal l;
     met_QueueDequeueCountTotal := average_int met_QueueDequeueCountTotal l;
     met_QueueDropCountTotal := average_int met_QueueDropCountTotal l;
     met_QueueRedeliveryCountTotal := average_int met_QueueRedeliveryCountTotal l;
     met_QueueDlqCountTotal := average_int met_QueueDlqCountTotal l;
     met_QueueDepthSum := average met_QueueDepthSum l;
     met_TopicPublishCountTotal := average_int met_TopicPublishCountTotal l;
     met_TopicDeliverCountTotal := average_int met_TopicDeliverCountTotal l;
     met_TopicDropCountTotal := average_int met_TopicDropCountTotal l;
     met_TopicRedeliveryCountTotal := average_int met_TopicRedeliveryCountTotal l;
     met_TopicDlqCountTotal := average_int met_TopicDlqCountTotal l;
     met_TopicBacklogDepthSum := average met_TopicBacklogDepthSum l;
     met_TopicConsumerLagSum := average met_TopicConsumerLagSum l;
     met_QueueOldestMessageAgeMs := max_above met_QueueOldestMessageAgeMs l;
     met_TopicOldestMessageAgeMs := max_above met_TopicOldestMessageAgeMs l;
     met_MaxQueueDepth := max_above met_MaxQueueDepth l;
     met_MaxTopicBacklogDepth := max_above met_MaxTopicBacklogDepth l;
     met_MaxTopicConsumerLag := max_above met_MaxTopicConsumerLag l;
     met_QueueDropRate := max_above met_QueueDropRate l;
     met_TopicDropRate := max_above met_TopicDropRate l;
     met_ServiceMetrics := combine_service <$> group_by sm_ServiceName (concat (met_ServiceMetrics <$> l));
     met_HostMetrics := combine_host <$>
       group_by hm_HostId (filter (λ h, hm_HostId h ≠ "") (concat (met_HostMetrics <$> l)));
     met_EndpointRequestStats := [];
     met_InstanceRouteStats := [];
     met_LocalityHitRate := first_then minFloat met_LocalityHitRate l;
     met_CrossZoneRequestCountTotal := average_int met_CrossZoneRequestCountTotal l;
     met_SameZoneRequestCountTotal := average_int met_SameZoneRequestCountTotal l;
     met_CrossZoneRequestFraction := first_then maxFloat met_CrossZoneRequestFraction l;
     met_CrossZoneLatencyPenaltyMsTotal := average met_CrossZoneLatencyPenaltyMsTotal l;
     met_CrossZoneLatencyPenaltyMsMean := first_then maxFloat met_CrossZoneLatencyPenaltyMsMean l;
     met_SameZoneLatencyPenaltyMsTotal := average met_SameZoneLatencyPenaltyMsTotal l;
     met_SameZoneLatencyPenaltyMsMean := first_then maxFloat met_SameZoneLatencyPenaltyMsMean l;
     met_ExternalLatencyMsTotal := average met_ExternalLatencyMsTotal l;
     met_ExternalLatencyMsMean := first_then maxFloat met_ExternalLatencyMsMean l;
     met_TopologyLatencyPenaltyMsTotal := average met_TopologyLatencyPenaltyMsTotal l;
     met_TopologyLatencyPenaltyMsMean := first_then maxFloat met_TopologyLatencyPenaltyMsMean l |}.
Definition AggregateRunMetrics (runs : list (option RunMetrics)) : option RunMetrics :=
  match omap id runs with
  | [] => None
  | [m] => Some m
  | l => Some (combine_runs l)
  end.
Definition UserVisibleErrorRate (m : option RunMetrics) : float64 :=
  match m with
  | None => f0
  | Some m =>
      if 0 <? met_IngressRequests m
      then fdiv (f64_of_Z (met_IngressFailedRequests m)) (f64_of_Z (met_IngressRequests m))
      else if 0 <? met_TotalRequests m
      then fdiv (f64_of_Z (met_FailedRequests m)) (f64_of_Z (met_TotalRequests m))
      else f0
  end.

(** * Objectives *)

Definition highPenaltyScore : float64 := f64_of_Z 1000000000.
Definition cpuCostWeight : float64 := f64_lit 4 10.
Definition memoryCostWeight : float64 := f64_lit 3 10.
Definition replicaCostWeight : float64 := f64_lit 3 10.
Definition defaultServiceCPUCores : float64 := f1.
Definition defaultServiceMemoryMB : float64 := f64_of_Z 512.
(** [a >= b] and [a > b]. *)
Abbreviation fge a b := (fleb b a) (only parsing).
Abbreviation fgt a b := (fltb b a) (only parsing).
Definition math_Abs (x : float64) : float64 := SFabs x.

Record UtilizationTarget := mkTarget { ut_Low : float64; ut_High : float64 }.
Definition UtilizationTarget_Valid (u : option UtilizationTarget) : bool :=
  match u with
  | None => false
  | Some u => fge (ut_Low u) f0 && fleb (ut_High u) f1 && fltb (ut_Low u) (ut_High u)
  end.
Definition scoreForUtilBand (u low high : float64) : float64 :=
  if fge u low && fleb u high then f0 else if fltb u low then fsub low u else fsub u high.
(** The implementations of [ObjectiveFunction]; the utilisation ones carry their band. *)
Inductive ObjectiveFunction :=
  | P95LatencyObjective
  | P99LatencyObjective
  | MeanLatencyObjective
  | ThroughputObjective
  | ErrorRateObjective
  | CostObjective
  | CPUUtilizationObjective (targetLow targetHigh : float64)
  | MemoryUtilizationObjective (targetLow targetHigh : float64).
Definition Objective_Name (o : ObjectiveFunction) : string :=
  match o with
  | P95LatencyObjective => "p95_latency_ms"
  | P99LatencyObjective => "p99_latency_ms"
  | MeanLatencyObjective => "mean_latency_ms"
  | ThroughputObjective => "throughput_rps"
  | ErrorRateObjective => "error_rate"
  | CostObjective => "cost"
  | CPUUtilizationObjective _ _ => "cpu_utilization"
  | MemoryUtilizationObjective _ _ => "memory_utilization"
  end.
(** Whether the objective minimises. *)
Definition Objective_Direction (o : ObjectiveFunction) : bool :=
  match o with ThroughputObjective => false | _ => true end.
Definition NewObjectiveFunction (objType : string) (utilTarget : option UtilizationTarget) : go ObjectiveFunction :=
  let '(low, high) :=
    match utilTarget with
    | Some u => if UtilizationTarget_Valid utilTarget then (ut_Low u, ut_High u) else (f0, f0)
    | None => (f0, f0)
    end in
  if String.eqb objType "p95_latency_ms" then Ok P95LatencyObjective
  else if String.eqb objType "p99_latency_ms" then Ok P99LatencyObjective
  else if String.eqb objType "mean_latency_ms" then Ok MeanLatencyObjective
  else if String.eqb objType "throughput_rps" then Ok ThroughputObjective
  else if String.eqb objType "error_rate" then Ok ErrorRateObjective
  else if String.eqb objType "cost" then Ok CostObjective
  else if String.eqb objType "cpu_utilization" then Ok (CPUUtilizationObjective low high)
  else if String.eqb objType "memory_utilization" then Ok (MemoryUtilizationObjective low high)
  else Fail ("unknown objective type: " +:+ objType).
(** The largest utilisation of the services that are not clients, and their number. *)
Definition maxServiceUtilFromProto (m : RunMetrics) (util : ServiceMetrics → float64) : float64 * Z :=
  let l := filter (λ s, HasPrefix (sm_ServiceName s) "client" = false) (met_ServiceMetrics m) in
  (max_above util l, len l).
Definition band_score (m : RunMetrics) (util : ServiceMetrics → float64) (low high : float64) : float64 :=
  let '(maxUtil, nonClientCount) := maxServiceUtilFromProto m util in
  if nonClientCount =? 0 then highPenaltyScore
  else if fltb low high && fge low f0 && fleb high f1 then scoreForUtilBand maxUtil low high
  else maxUtil.
Definition or_penalty (x : float64) : float64 := if fleb x f0 then highPenaltyScore else x.
Definition cost_score (m : RunMetrics) : float64 :=
  let l := met_ServiceMetrics m in
  let avg (f : ServiceMetrics → float64) := if 0 <? len l then average f l else f0 in
  fadd (fadd (fmul (avg sm_CpuUtilization) cpuCostWeight) (fmul (avg sm_MemoryUtilization) memoryCostWeight))
       (fmul (f64_of_Z (sum_int32 sm_ActiveReplicas l)) replicaCostWeight).
Definition Objective_Evaluate (o : ObjectiveFunction) (metrics : option RunMetrics) : go float64 :=
  match metrics with
  | None => Fail "invalid metrics: metrics is nil"
  | Some m =>
      Ok match o with
         | P95LatencyObjective => or_penalty (met_LatencyP95Ms m)
         | P99LatencyObjective => or_penalty (met_LatencyP99Ms m)
         | MeanLatencyObjective => or_penalty (met_LatencyMeanMs m)
         | ThroughputObjective => if fleb (met_ThroughputRps m) f0 then highPenaltyScore else SFopp (met_ThroughputRps m)
         | ErrorRateObjective => UserVisibleErrorRate metrics
         | CostObjective => cost_score m
         | CPUUtilizationObjective low high => band_score m sm_CpuUtilization low high
         | MemoryUtilizationObjective low high => band_score m sm_MemoryUtilization low high
         end
  end.
(** Replicas, CPU and memory of a service, with their defaults. *)
Definition effective_replicas (svc : Service) : float64 :=
  let r := f64_of_Z (svc_Replicas svc) in if fltb r f1 then f1 else r.
Definition effective_cpu (svc : Service) : float64 :=
  if fleb (svc_CPUCores svc) f0 then defaultServiceCPUCores else svc_CPUCores svc.
Definition effective_memory (svc : Service) : float64 :=
  if fleb (svc_MemoryMB svc) f0 then defaultServiceMemoryMB else svc_MemoryMB svc.
Definition memory_gb (svc : Service) : float64 := fdiv (effective_memory svc) (f64_of_Z 1024).
Definition EvaluateInfrastructureCost (scenario : option Scenario) : float64 :=
  match scenario with
  | None => highPenaltyScore
  | Some s =>
      match scn_Services s with
      | [] => highPenaltyScore
      | l =>
          fadd (fadd (fmul (sum_float (λ v, fmul (effective_replicas v) (effective_cpu v)) l) cpuCostWeight)
                     (fmul (sum_float (λ v, fmul (effective_replicas v) (memory_gb v)) l) memoryCostWeight))
               (fmul (sum_float effective_replicas l) replicaCostWeight)
      end
  end.

(** * Comparison of runs *)

Record LatencyComparison := mkLatencyComparison {
  lc_P50Diff : float64;
  lc_P95Diff : float64;
  lc_P99Diff : float64;
  lc_MeanDiff : float64;
}.
Record ResourceComparison := mkResourceComparison {
  rcmp_CPUUtilDiff : float64;
  rcmp_MemoryUtilDiff : float64;
  rcmp_ReplicaDiff : Z;
}.
(** [RunID1] and [RunID2] are left to the caller. *)
Record MetricsComparison := mkComparison {
  mcmp_ObjectiveDiff : float64;
  mcmp_Improvement : bool;
  mcmp_LatencyDiff : LatencyComparison;
  mcmp_ThroughputDiff : float64;
  mcmp_ErrorRateDiff : float64;
  mcmp_ResourceDiff : ResourceComparison;
}.
Definition aggregateResources (m : RunMetrics) : float64 * float64 * Z :=
  match met_ServiceMetrics m with
  | [] => (f0, f0, 0)
  | l => (average sm_CpuUtilization l, average sm_MemoryUtilization l, sum_int32 sm_ActiveReplicas l)
  end.
Definition compareResources (m1 m2 : RunMetrics) : ResourceComparison :=
  let '(cpu1, mem1, n1) := aggregateResources m1 in
  let '(cpu2, mem2, n2) := aggregateResources m2 in
  mkResourceComparison (fsub cpu2 cpu1) (fsub mem2 mem1) (wrap32 (n2 - n1)).
Definition CompareMetrics (metrics1 metrics2 : option RunMetrics) (objective : option ObjectiveFunction)
    : go MetricsComparison :=
  match metrics1, metrics2, objective with
  | None, _, _ => Fail "metrics1 is nil"
  | _, None, _ => Fail "metrics2 is nil"
  | _, _, None => Fail "objective function is nil"
  | Some m1, Some m2, Some o =>
      let! score1 := wrap_err "failed to evaluate objective for metrics1: " (Objective_Evaluate o metrics1) in
      let! score2 := wrap_err "failed to evaluate objective for metrics2: " (Objective_Evaluate o metrics2) in
      let improvement := if Objective_Direction o then fltb score2 score1 else fgt score2 score1 in
      let diff f := fsub (f m2) (f m1) in
      Ok (mkComparison (fsub score2 score1) improvement
            (mkLatencyComparison (diff met_LatencyP50Ms) (diff met_LatencyP95Ms) (diff met_LatencyP99Ms)
               (diff met_LatencyMeanMs))
            (diff met_ThroughputRps) (fsub (UserVisibleErrorRate metrics2) (UserVisibleErrorRate metrics1))
            (compareResources m1 m2))
  end.
Record RunMetricsWithID := mkRunWithID { rmi_RunID : string; rmi_Metrics : option RunMetrics; rmi_Score : float64 }.
Record RunHistoryComparison := mkHistoryComparison {
  rhc_Runs : list RunMetricsWithID;
  rhc_BestRunID : string;
  rhc_WorstRunID : string;
  rhc_ImprovementTrend : string;
  rhc_AverageScore : float64;
  rhc_ScoreVariance : float64;
}.
(** Index of the first element that no earlier or later one beats. *)
Fixpoint pick_from (beats : float64 → float64 → bool) (i : Z) (l : list float64) (best : float64) (at_ : Z) : Z :=
  match l with
  | [] => at_
  | x :: l => if beats x best then pick_from beats (i + 1) l x i else pick_from beats (i + 1) l best at_
  end.
Definition pick (beats : float64 → float64 → bool) (l : list float64) : Z :=
  match l with [] => 0 | x :: _ => pick_from beats 0 l x 0 end.
Definition mean (values : list float64) : float64 :=
  match values with [] => f0 | _ => fdiv (sum_float id values) (f64_of_Z (len values)) end.
Definition variance (values : list float64) (m : float64) : float64 :=
  match values with
  | [] => f0
  | _ => fdiv (sum_float (λ v, fmul (fsub v m) (fsub v m)) values) (f64_of_Z (len values))
  end.
Definition determineTrend (scores : list float64) : string :=
  if len scores <? 2 then "stable"
  else
    let n := f64_of_Z (len scores) in
    let points := imap (λ i y, (f64_of_Z (Z.of_nat i), y)) scores in
    let sumX := sum_float fst points in
    let sumY := sum_float snd points in
    let sumXY := sum_float (λ p, fmul p.1 p.2) points in
    let sumX2 := sum_float (λ p, fmul p.1 p.1) points in
    let slope := fdiv (fsub (fmul n sumXY) (fmul sumX sumY)) (fsub (fmul n sumX2) (fmul sumX sumX)) in
    if fltb slope (SFopp (f64_lit 1 100)) then "improving"
    else if fgt slope (f64_lit 1 100) then "degrading" else "stable".
Definition CompareRunHistory (runs : list RunMetricsWithID) (objective : option ObjectiveFunction)
    : go RunHistoryComparison :=
  match runs, objective with
  | [], _ => Fail "no runs provided"
  | _, None => Fail "objective function is nil"
  | _, Some o =>
      let! scored := go_fold (λ acc r,
        let! s := wrap_err ("failed to evaluate objective for run " +:+ rmi_RunID r +:+ ": ")
                    (Objective_Evaluate o (rmi_Metrics r)) in
        Ok (acc ++ [mkRunWithID (rmi_RunID r) (rmi_Metrics r) s])) [] runs in
      let scores := rmi_Score <$> scored in
      let! best := index scored (pick (λ x b, fltb x b) scores) in
      let! worst := index scored (pick (λ x b, fgt x b) scores) in
      Ok (mkHistoryComparison scored (rmi_RunID best) (rmi_RunID worst) (determineTrend scores) (mean scores)
            (variance scores (mean scores)))
  end.
Definition GetImprovementPercentage (score1 score2 : float64) (minimize : bool) : float64 :=
  if feqb score1 f0 then f0
  else
    let ratio := fdiv (fsub score2 score1) score1 in
    if minimize then fmul (SFopp ratio) (f64_of_Z 100) else fmul ratio (f64_of_Z 100).
Definition IsSignificantImprovement (comparison : option MetricsComparison) (thresholdPercent : float64) : bool :=
  match comparison with
  | None => false
  | Some c => if negb (mcmp_Improvement c) then false else fge (math_Abs (mcmp_ObjectiveDiff c)) thresholdPercent
  end.

(** * Selection among candidates *)

Record ConfigurationCandidate := mkCandidate {
  ca_Config : option Scenario;
  ca_RunID : string;
  ca_Metrics : option RunMetrics;
  ca_Score : float64;
  ca_Iteration : Z;
  ca_Evaluated : bool;
}.
#[export] Instance eta_ConfigurationCandidate : Eta ConfigurationCandidate := λ r, mkCandidate (ca_Config r)
  (ca_RunID r) (ca_Metrics r) (ca_Score r) (ca_Iteration r) (ca_Evaluated r).
Definition evaluated (c : ConfigurationCandidate) : bool := ca_Evaluated c && bool_decide (is_Some (ca_Metrics c)).
Definition best_by (score : ConfigurationCandidate → float64) (first : ConfigurationCandidate)
    (l : list ConfigurationCandidate) : ConfigurationCandidate :=
  foldl (λ best c, if fltb (score c) (score best) then c else best) first l.
(** The evaluated candidates, with the errors of every strategy. *)
Definition evaluated_candidates (candidates : list ConfigurationCandidate) (objective : option ObjectiveFunction)
    : go (ConfigurationCandidate * list ConfigurationCandidate * ObjectiveFunction) :=
  match candidates, objective with
  | [], _ => Fail "no candidates provided"
  | _, None => Fail "objective function is required"
  | _, Some o =>
      match filter (λ c, evaluated c = true) candidates with
      | [] => Fail "no evaluated candidates"
      | c :: l => Ok (c, l, o)
      end
  end.
Definition BestScoreStrategy_SelectBest (candidates : list ConfigurationCandidate) (objective : option ObjectiveFunction)
    : go ConfigurationCandidate :=
  let! (c, l, _) := evaluated_candidates candidates objective in Ok (best_by ca_Score c l).
Definition near (x y : float64) : bool := fltb (math_Abs (fsub x y)) (f64_lit 1 10000).
(** The loop of [dominates] over the secondary objectives; [better] is [atLeastOneBetter]. *)
Fixpoint dominates_in (secondary : list ObjectiveFunction) (m1 m2 : option RunMetrics) (all better : bool) : bool :=
  match secondary with
  | [] => all && better
  | o :: secondary =>
      match Objective_Evaluate o m1, Objective_Evaluate o m2 with
      | Ok s1, Ok s2 =>
          if negb (fleb s1 s2) && negb (near s1 s2) then false
          else dominates_in secondary m1 m2 (all && (fleb s1 s2 || near s1 s2)) (better || fleb s1 s2)
      | _, _ => dominates_in secondary m1 m2 all better
      end
  end.
Definition dominates (c1 c2 : ConfigurationCandidate) (secondary : list ObjectiveFunction) : bool :=
  let primaryBetter := fleb (ca_Score c1) (ca_Score c2) in
  let primaryEqual := near (ca_Score c1) (ca_Score c2) in
  if negb primaryBetter && negb primaryEqual then false
  else dominates_in secondary (ca_Metrics c1) (ca_Metrics c2) (primaryBetter || primaryEqual) primaryBetter.
(** Candidates are compared with all others: pointers, so positions in the list. *)
Definition findParetoOptimal (candidates : list ConfigurationCandidate) (secondary : list ObjectiveFunction)
    : list ConfigurationCandidate :=
  let indexed := imap pair candidates in
  snd <$> filter (λ c, forallb (λ d, Nat.eqb c.1 d.1 || negb (dominates d.2 c.2 secondary)) indexed = true) indexed.
Definition ParetoOptimalStrategy_SelectBest (secondary : list ObjectiveFunction)
    (candidates : list ConfigurationCandidate) (objective : option ObjectiveFunction) : go ConfigurationCandidate :=
  let! (c, l, _) := evaluated_candidates candidates objective in
  match findParetoOptimal (c :: l) secondary with
  | [] => BestScoreStrategy_SelectBest candidates objective
  | p :: ps => Ok (best_by ca_Score p ps)
  end.
(** [order] is the order in which the map of weights is visited. *)
Definition calculateWeightedScore (order : list string) (weights : gmap string float64) (primary : ObjectiveFunction)
    (c : ConfigurationCandidate) : float64 :=
  foldl (λ score kv,
    if String.eqb kv.1 (Objective_Name primary) then score
    else
      match NewObjectiveFunction kv.1 None with
      | Ok o =>
          match Objective_Evaluate o (ca_Metrics c) with
          | Ok s => fadd score (fmul kv.2 s)
          | _ => score
          end
      | _ => score
      end) (ca_Score c) (visit order weights).
Definition BalancedStrategy_SelectBest (order : list string) (weights : gmap string float64)
    (candidates : list ConfigurationCandidate) (objective : option ObjectiveFunction) : go ConfigurationCandidate :=
  let! (c, l, o) := evaluated_candidates candidates objective in
  Ok (best_by (calculateWeightedScore order weights o) c l).
Definition SelectBestConfiguration := BestScoreStrategy_SelectBest.
Definition EvaluateCandidate (candidate : option ConfigurationCandidate) (objective : option ObjectiveFunction)
    : go ConfigurationCandidate :=
  match candidate, objective with
  | None, _ => Fail "candidate is nil"
  | Some c, o =>
      match ca_Metrics c, o with
      | None, _ => Fail "candidate metrics are nil"
      | _, None => Fail "objective function is nil"
      | _, Some o =>
          let! score := wrap_err "failed to evaluate objective: " (Objective_Evaluate o (ca_Metrics c)) in
          Ok (c <| ca_Score := score |> <| ca_Evaluated := true |>)
      end
  end.

(** * Laws *)

Lemma fltb_opp x y : fltb (SFopp x) (SFopp y) = fltb y x.
Proof.
  destruct (fltb y x) eqn:E.
  - apply fltb_key in E as (Ny & Nx & L). apply fltb_key. split_and!; [by destruct x|by destruct y|].
    destruct x as [[]|[]| |[] m e], y as [[]|[]| |[] m' e']; simpl in *; try done; lia.
  - apply not_true_is_false. intros (Nx & Ny & L)%fltb_key. assert (F : fltb y x = true); [|congruence].
    apply fltb_key. split_and!; [by destruct y|by destruct x|].
    destruct x as [[]|[]| |[] m e], y as [[]|[]| |[] m' e']; simpl in *; try done; lia.
Qed.
Lemma maxFloat_spec a b : is_nan a = false → is_nan b = false →
  is_nan (maxFloat a b) = false ∧ fleb a (maxFloat a b) = true ∧ fleb b (maxFloat a b) = true.
Proof.
  intros Ha Hb. unfold maxFloat. destruct (fltb b a) eqn:E; split_and!; auto using fleb_refl, fltb_fleb, fltb_false.
Qed.
Lemma minFloat_spec a b : is_nan a = false → is_nan b = false →
  is_nan (minFloat a b) = false ∧ fleb (minFloat a b) a = true ∧ fleb (minFloat a b) b = true.
Proof.
  intros Ha Hb. unfold minFloat. destruct (fltb a b) eqn:E; split_and!; auto using fleb_refl, fltb_fleb, fltb_false.
Qed.
(** An accumulator that moves in one direction ends beyond every value it has seen. *)
Lemma foldl_beyond {A} (le : float64 → float64 → Prop) (op : float64 → float64 → float64) (f : A → float64) :
  (∀ a b c, le a b → le b c → le a c) → (∀ a, is_nan a = false → le a a) →
  (∀ a b, is_nan a = false → is_nan b = false → is_nan (op a b) = false ∧ le a (op a b) ∧ le b (op a b)) →
  ∀ l a, is_nan a = false → Forall (λ x, is_nan (f x) = false) l →
    is_nan (foldl (λ m y, op m (f y)) a l) = false ∧ le a (foldl (λ m y, op m (f y)) a l) ∧
    Forall (λ x, le (f x) (foldl (λ m y, op m (f y)) a l)) l.
Proof.
  intros Htr Hrefl Hop. induction l as [|x l IH]; intros a Ha Hl; simpl; [auto|].
  apply Forall_cons in Hl as [Hx Hl]. destruct (Hop a (f x) Ha Hx) as (Hn & H1 & H2).
  destruct (IH _ Hn Hl) as (Hn' & H3 & H4). split_and!; [done|by eapply Htr|]. constructor; [by eapply Htr|done].
Qed.
Section extremes.
  Context {A : Type} (f : A → float64) (l : list A) (Hl : Forall (λ x, is_nan (f x) = false) l).
Lemma first_then_max : Forall (λ x, fleb (f x) (first_then maxFloat f l) = true) l.
Proof.
  destruct l as [|x l']; [done|]. apply Forall_cons in Hl as [Hx Hl']. simpl.
  destruct (foldl_beyond (λ a b, fleb a b = true) maxFloat f fleb_trans fleb_refl maxFloat_spec l' (f x)) as (_ & H1 & H2); auto.
Qed.
Lemma first_then_min : Forall (λ x, fleb (first_then minFloat f l) (f x) = true) l.
Proof.
  destruct l as [|x l']; [done|]. apply Forall_cons in Hl as [Hx Hl']. simpl.
  destruct (foldl_beyond (λ a b, fleb b a = true) minFloat f) with l' (f x) as (_ & H1 & H2); auto using fleb_refl, minFloat_spec.
  intros a b c ??. by eapply fleb_trans.
Qed.
Lemma max_above_max : Forall (λ x, fleb (f x) (max_above f l) = true) l.
Proof.
  destruct (foldl_beyond (λ a b, fleb a b = true) (λ m v, if fltb m v then v else m) f fleb_trans fleb_refl) with l f0
    as (_ & _ & H); auto.
  intros a b Ha Hb. destruct (fltb a b) eqn:E; split_and!; auto using fleb_refl, fltb_fleb, fltb_false.
Qed.
End extremes.
(** The values that decide about feasibility are numbers. *)
Definition real_metrics (m : RunMetrics) : Prop :=
  Forall (λ x, is_nan x = false) [met_LatencyP50Ms m; met_LatencyP95Ms m; met_LatencyP99Ms m;
    met_QueueOldestMessageAgeMs m; met_TopicOldestMessageAgeMs m; met_LocalityHitRate m;
    met_CrossZoneRequestFraction m; met_TopologyLatencyPenaltyMsMean m; met_IngressErrorRate m].
Lemma real_field (f : RunMetrics → float64) (runs : list RunMetrics) :
  (∀ m, real_metrics m → is_nan (f m) = false) → Forall real_metrics runs → Forall (λ m, is_nan (f m) = false) runs.
Proof. intros H Hr. eapply Forall_impl; [exact Hr|done]. Qed.
(** combining runs is conservative. The percentiles, message ages, cross-zone fraction,
    topology penalty and ingress error rate of the combination are at least those of every
    run, and its locality hit rate is at most that of every run, when no run reports a NaN
    there. *)
Theorem aggregate_conservative runs out m : AggregateRunMetrics runs = Some out → Some m ∈ runs →
  (∀ r, Some r ∈ runs → real_metrics r) →
  Forall (λ f, fleb (f m) (f out) = true) [met_LatencyP50Ms; met_LatencyP95Ms; met_LatencyP99Ms;
    met_QueueOldestMessageAgeMs; met_TopicOldestMessageAgeMs; met_CrossZoneRequestFraction;
    met_TopologyLatencyPenaltyMsMean; met_IngressErrorRate] ∧
  fleb (met_LocalityHitRate out) (met_LocalityHitRate m) = true.
Proof.
  intros Ho Hm Hr. assert (Hin : m ∈ omap id runs) by (apply list_elem_of_omap; by exists (Some m)).
  assert (Hreal : Forall real_metrics (omap id runs)).
  { apply Forall_forall. intros r (o & Ho' & Er)%list_elem_of_omap. apply Hr. by rewrite <- Er. }
  unfold AggregateRunMetrics in Ho. clear Hm Hr.
  destruct (omap id runs) as [|m1 [|m2 l]] eqn:E; [done| |]; injection Ho as <-.
  - apply list_elem_of_singleton in Hin as ->. apply Forall_cons in Hreal as [Hm _]. unfold real_metrics in Hm.
    rewrite !Forall_cons in Hm. destruct_and!. split; [repeat constructor|]; by apply fleb_refl.
  - rewrite <- E in *. clear E. revert Hin Hreal. generalize (omap id runs). clear. intros l Hin Hreal.
    assert (Hmax : ∀ f, (∀ r, real_metrics r → is_nan (f r) = false) →
      fleb (f m) (first_then maxFloat f l) = true ∧ fleb (f m) (max_above f l) = true ∧
      fleb (first_then minFloat f l) (f m) = true).
    { intros f Hf. pose proof (real_field f l Hf Hreal) as Hl. split_and!.
      - by apply (proj1 (Forall_forall _ _) (first_then_max f l Hl)).
      - by apply (proj1 (Forall_forall _ _) (max_above_max f l Hl)).
      - by apply (proj1 (Forall_forall _ _) (first_then_min f l Hl)). }
    assert (Hreal' : ∀ r, real_metrics r → is_nan (met_LatencyP50Ms r) = false ∧ is_nan (met_LatencyP95Ms r) = false ∧
      is_nan (met_LatencyP99Ms r) = false ∧ is_nan (met_QueueOldestMessageAgeMs r) = false ∧
      is_nan (met_TopicOldestMessageAgeMs r) = false ∧ is_nan (met_LocalityHitRate r) = false ∧
      is_nan (met_CrossZoneRequestFraction r) = false ∧ is_nan (met_TopologyLatencyPenaltyMsMean r) = false ∧
      is_nan (met_IngressErrorRate r) = false).
    { intros r H. unfold real_metrics in H. rewrite !Forall_cons in H. by destruct_and!. }
    split; [repeat constructor|]; apply Hmax; intros r Hr; apply Hreal' in Hr; by destruct_and!.
Qed.
Lemma best_by_spec score l : ∀ first, is_nan (score first) = false → Forall (λ c, is_nan (score c) = false) l →
  best_by score first l ∈ first :: l ∧ Forall (λ c, fleb (score (best_by score first l)) (score c) = true) (first :: l).
Proof.
  unfold best_by. induction l as [|x l IH]; intros first Hf Hl; simpl.
  - split; [by left|]. repeat constructor. by apply fleb_refl.
  - apply Forall_cons in Hl as [Hx Hl].
    destruct (fltb (score x) (score first)) eqn:E.
    + destruct (IH x Hx Hl) as [Hin [H1 H2]%Forall_cons]. split; [by right|]. repeat constructor; try done. eapply fleb_trans; [exact H1|]. by apply fltb_fleb.
    + destruct (IH first Hf Hl) as [Hin [H1 H2]%Forall_cons].
      split; [apply elem_of_cons in Hin as [E1|Hin]; [rewrite E1; by left|by right; right]|]. repeat constructor; try done.
      eapply fleb_trans; [exact H1|]. by apply fltb_false.
Qed.
(** The default selection returns an evaluated candidate with the lowest score. *)
Theorem best_score_minimal candidates o best : BestScoreStrategy_SelectBest candidates o = Ok best →
  Forall (λ c, is_nan (ca_Score c) = false) candidates →
  best ∈ candidates ∧ evaluated best = true ∧
  ∀ c, c ∈ candidates → evaluated c = true → fleb (ca_Score best) (ca_Score c) = true.
Proof.
  unfold BestScoreStrategy_SelectBest, evaluated_candidates. intros H Hn.
  destruct candidates as [|c0 cs]; [done|]. destruct o as [o|]; [|done].
  destruct (filter (λ c, evaluated c = true) (c0 :: cs)) as [|c l] eqn:E; [done|]. simpl in H. injection H as <-.
  assert (Hl : Forall (λ c, is_nan (ca_Score c) = false) (c :: l)).
  { rewrite <- E. rewrite Forall_forall in *. intros x [_ Hx]%list_elem_of_filter. auto. }
  apply Forall_cons in Hl as [Hc Hl]. destruct (best_by_spec ca_Score l c Hc Hl) as [Hin Hall].
  rewrite <- E in Hin, Hall. apply list_elem_of_filter in Hin as [He Hin]. split_and!; [done..|].
  intros x Hx Hex. rewrite Forall_forall in Hall. apply Hall, list_elem_of_filter. by split.
Qed.
(** The throughput objective negates its score, so that lower is better for it as for the
    others; the comparison then takes the higher score for the improvement. It reports an
    improvement exactly when throughput has dropped. *)
Theorem throughput_improvement_inverted m1 m2 c :
  fleb (met_ThroughputRps m1) f0 = false → fleb (met_ThroughputRps m2) f0 = false →
  CompareMetrics (Some m1) (Some m2) (Some ThroughputObjective) = Ok c →
  mcmp_Improvement c = fltb (met_ThroughputRps m2) (met_ThroughputRps m1).
Proof.
  intros H1 H2. simpl. rewrite H1, H2. simpl. destruct (compareResources m1 m2). intros [= <-]. simpl. apply fltb_opp.
Qed.
(** Domination asks for "better in at least one objective" but counts equal scores as
    better: two evaluations with the same results dominate each other. *)
Lemma dominates_in_self secondary m all : all = true →
  (∀ o s, Objective_Evaluate o m = Ok s → is_nan s = false) → dominates_in secondary m m all true = true.
Proof.
  intros -> H. induction secondary as [|o l IH]; [done|]. simpl.
  destruct (Objective_Evaluate o m) as [s| |] eqn:E; [|done..]. rewrite (fleb_refl s) by (by eapply H). done.
Qed.
Theorem equal_candidates_dominate_each_other c d secondary : ca_Score d = ca_Score c → ca_Metrics d = ca_Metrics c →
  is_nan (ca_Score c) = false → (∀ o s, Objective_Evaluate o (ca_Metrics c) = Ok s → is_nan s = false) →
  dominates c d secondary = true.
Proof.
  intros Es Em Hn H. unfold dominates. rewrite Es, Em. rewrite (fleb_refl _ Hn). simpl. by apply dominates_in_self.
Qed.
Definition sample_metrics (p95 : Z) : RunMetrics := RunMetrics_zero <| met_LatencyP95Ms := f64_of_Z p95 |>.
Lemma aggregate_conservative_witness :
  ∃ out, AggregateRunMetrics [Some (sample_metrics 120); None; Some (sample_metrics 80)] = Some out ∧
    fleb (met_LatencyP95Ms (sample_metrics 120)) (met_LatencyP95Ms out) = true.
Proof.
  eexists. split; [reflexivity|].
  destruct (aggregate_conservative [Some (sample_metrics 120); None; Some (sample_metrics 80)] _ (sample_metrics 120) eq_refl)
    as [H _]; [by left| |].
  - intros r Hr. repeat (apply elem_of_cons in Hr as [Hr|Hr]; [simplify_eq; by repeat constructor|]).
    by apply elem_of_nil in Hr.
  - apply Forall_cons in H as [_ H]. by apply Forall_cons in H as [H _].
Defined.
