(* ===== verification/BatchNeighbors.v ===== *)
(** The candidates of the batch optimiser ([internal/improvement]): deep copies of
    scenarios ([scenario_clone.go]), the score of a candidate ([batch_score.go]) and the
    neighbours of a configuration ([batch_neighbors.go]). The specification carries its
    weights, so the branches for missing weights do not occur. A Go map is a finite map,
    so a nil and an empty map are the same. *)
From S2P Require Import Prelude GoFloat Utils Policy Config Graph BrokerQueue BatchSpec Instance ResourceManager ServiceModel.
From S2P Require Import RunMetrics.
From Stdlib Require Import SpecFloat.
#[local] Open Scope string_scope.
#[local] Open Scope list_scope.
#[local] Open Scope Z_scope.

(** * Deep copies *)

(** A new map with the same entries, or nil. *)
Definition copy_map {A} (m : gmap string A) : gmap string A :=
  if 0 <? Z.of_nat (size m) then list_to_map (map_to_list m) else ∅.
Definition cloneRoutingPolicy (rp : RoutingPolicy) : RoutingPolicy :=
  {| rt_Strategy := rt_Strategy rp;
     rt_StickyKeyFrom := rt_StickyKeyFrom rp;
     rt_LocalityZoneFrom := rt_LocalityZoneFrom rp;
     rt_Weights := copy_map (rt_Weights rp) |}.
Definition clonePlacementPolicy (pp : PlacementPolicy) : PlacementPolicy :=
  {| pl_RequiredZones := [] ++ pl_RequiredZones pp;
     pl_PreferredZones := [] ++ pl_PreferredZones pp;
     pl_AffinityZones := [] ++ pl_AffinityZones pp;
     pl_AntiAffinityZones := [] ++ pl_AntiAffinityZones pp;
     pl_AntiAffinityServices := [] ++ pl_AntiAffinityServices pp;
     pl_SpreadAcrossZones := pl_SpreadAcrossZones pp;
     pl_MaxReplicasPerHost := pl_MaxReplicasPerHost pp;
     pl_RequiredHostLabels := copy_map (pl_RequiredHostLabels pp);
     pl_PreferredHostLabels := copy_map (pl_PreferredHostLabels pp) |}.
Definition clone_network (n : NetworkConfig) : NetworkConfig :=
  {| net_SymmetricCrossZoneLatency := net_SymmetricCrossZoneLatency n;
     net_SameHostLatencyMs := net_SameHostLatencyMs n;
     net_SameZoneLatencyMs := net_SameZoneLatencyMs n;
     net_DefaultCrossZoneLatencyMs := net_DefaultCrossZoneLatencyMs n;
     net_ExternalLatencyMs := net_ExternalLatencyMs n;
     net_CrossZoneLatencyMs := copy_map (copy_map <$> net_CrossZoneLatencyMs n) |}.
Definition clone_host (h : HostSpec) : HostSpec := h <| hs_Labels := copy_map (hs_Labels h) |>.
Definition clone_cache (c : CacheBehavior) : CacheBehavior :=
  {| cab_HitRate := cab_HitRate c; cab_HitLatencyMs := cab_HitLatencyMs c; cab_MissLatencyMs := cab_MissLatencyMs c |}.
Definition clone_queue (q : QueueBehavior) : QueueBehavior :=
  {| qb_Capacity := qb_Capacity q;
     qb_ConsumerConcurrency := qb_ConsumerConcurrency q;
     qb_MinConsumerConcurrency := qb_MinConsumerConcurrency q;
     qb_MaxConsumerConcurrency := qb_MaxConsumerConcurrency q;
     qb_ConsumerTarget := qb_ConsumerTarget q;
     qb_DeliveryLatencyMs := qb_DeliveryLatencyMs q;
     qb_AckTimeoutMs := qb_AckTimeoutMs q;
     qb_MaxRedeliveries := qb_MaxRedeliveries q;
     qb_DLQTarget := qb_DLQTarget q;
     qb_DropPolicy := qb_DropPolicy q;
     qb_AsyncFireAndForget := qb_AsyncFireAndForget q |}.
Definition clone_topic (t : TopicBehavior) : TopicBehavior :=
  {| tb_Partitions := tb_Partitions t;
     tb_RetentionMs := tb_RetentionMs t;
     tb_Capacity := tb_Capacity t;
     tb_DeliveryLatencyMs := tb_DeliveryLatencyMs t;
     tb_PublishAck := tb_PublishAck t;
     tb_AsyncFireAndForget := tb_AsyncFireAndForget t;
     tb_Subscribers := tb_Subscribers t |}.
Definition clone_behavior (b : ServiceBehavior) : ServiceBehavior :=
  {| sb_FailureRate := sb_FailureRate b;
     sb_SaturationLatencyFactor := sb_SaturationLatencyFactor b;
     sb_MaxConnections := sb_MaxConnections b;
     sb_Cache := clone_cache <$> sb_Cache b;
     sb_Queue := clone_queue <$> sb_Queue b;
     sb_Topic := clone_topic <$> sb_Topic b |}.
Definition clone_scaling (p : ScalingPolicy) : ScalingPolicy :=
  {| sc_Horizontal := sc_Horizontal p; sc_VerticalCPU := sc_VerticalCPU p; sc_VerticalMemory := sc_VerticalMemory p |}.
Definition clone_downstream (ds : DownstreamCall) : DownstreamCall :=
  {| ds_To := ds_To ds;
     ds_Mode := ds_Mode ds;
     ds_Kind := ds_Kind ds;
     ds_Probability := ds_Probability ds;
     ds_CallCountMean := ds_CallCountMean ds;
     ds_CallLatencyMs := ds_CallLatencyMs ds;
     ds_TimeoutMs := ds_TimeoutMs ds;
     ds_FailureRate := ds_FailureRate ds;
     ds_DownstreamFractionCPU := ds_DownstreamFractionCPU ds;
     ds_PartitionKey := ds_PartitionKey ds;
     ds_PartitionKeyFrom := ds_PartitionKeyFrom ds;
     ds_Retryable := ds_Retryable ds |}.
Definition clone_endpoint (ep : Endpoint) : Endpoint :=
  {| ep_Path := ep_Path ep;
     ep_MeanCPUMs := ep_MeanCPUMs ep;
     ep_CPUSigmaMs := ep_CPUSigmaMs ep;
     ep_DefaultMemoryMB := ep_DefaultMemoryMB ep;
     ep_FailureRate := ep_FailureRate ep;
     ep_TimeoutMs := ep_TimeoutMs ep;
     ep_IOMs := ep_IOMs ep;
     ep_ConnectionPool := ep_ConnectionPool ep;
     ep_Routing := cloneRoutingPolicy <$> ep_Routing ep;
     ep_NetLatencyMs := ep_NetLatencyMs ep;
     ep_Downstream := clone_downstream <$> ep_Downstream ep |}.
Definition clone_service (svc : Service) : Service :=
  {| svc_ID := svc_ID svc;
     svc_Kind := svc_Kind svc;
     svc_Role := svc_Role svc;
     svc_Replicas := svc_Replicas svc;
     svc_Model := svc_Model svc;
     svc_CPUCores := svc_CPUCores svc;
     svc_MemoryMB := svc_MemoryMB svc;
     svc_Placement := clonePlacementPolicy <$> svc_Placement svc;
     svc_Routing := cloneRoutingPolicy <$> svc_Routing svc;
     svc_ExternalNetworkLatencyMs := svc_ExternalNetworkLatencyMs svc;
     svc_Scaling := clone_scaling <$> svc_Scaling svc;
     svc_Behavior := clone_behavior <$> svc_Behavior svc;
     svc_Endpoints := clone_endpoint <$> svc_Endpoints svc |}.
Definition clone_workload (wl : WorkloadPattern) : WorkloadPattern :=
  {| wl_From := wl_From wl;
     wl_SourceKind := wl_SourceKind wl;
     wl_TrafficClass := wl_TrafficClass wl;
     wl_Metadata := copy_map (wl_Metadata wl);
     wl_To := wl_To wl;
     wl_Arrival := wl_Arrival wl |}.
Definition clone_policies (p : PoliciesConfig) : PoliciesConfig :=
  {| pc_Autoscaling := (λ a, {| ac_Enabled := ac_Enabled a; ac_TargetCPUUtil := ac_TargetCPUUtil a;
                                ac_ScaleStep := ac_ScaleStep a |}) <$> pc_Autoscaling p;
     pc_Retries := (λ r, {| rc_Enabled := rc_Enabled r; rc_MaxRetries := rc_MaxRetries r; rc_Backoff := rc_Backoff r;
                            rc_BaseMs := rc_BaseMs r |}) <$> pc_Retries p |}.
Definition cloneScenario (s : Scenario) : Scenario :=
  {| scn_SchemaVersion := scn_SchemaVersion s;
     scn_SimulationLimits := (λ l, {| sl_MaxTraceDepth := sl_MaxTraceDepth l; sl_MaxAsyncHops := sl_MaxAsyncHops l |})
                               <$> scn_SimulationLimits s;
     scn_Network := clone_network <$> scn_Network s;
     scn_Hosts := clone_host <$> scn_Hosts s;
     scn_Services := clone_service <$> scn_Services s;
     scn_Workload := clone_workload <$> scn_Workload s;
     scn_Policies := clone_policies <$> scn_Policies s |}.

(** * Scores *)

Definition scoreEps : float64 := f64_lit 1 1000000000.
Record BatchScore := mkBatchScore {
  sco_Feasible : bool;
  sco_ViolationScore : float64;
  sco_EfficiencyScore : float64;
  sco_LatViolation : float64;
  sco_P99Violation : float64;
  sco_ErrViolation : float64;
  sco_TputViolation : float64;
  sco_QueueDepthViolation : float64;
  sco_TopicBacklogViolation : float64;
  sco_TopicLagViolation : float64;
  sco_QueueOldestAgeViolation : float64;
  sco_TopicOldestAgeViolation : float64;
  sco_QueueDropViolation : float64;
  sco_TopicDropViolation : float64;
  sco_QueueDlqViolation : float64;
  sco_TopicDlqViolation : float64;
  sco_LocalityViolation : float64;
  sco_CrossZoneViolation : float64;
  sco_TopologyLatencyViolation : float64;
  sco_InfraCost : float64;
  sco_ServiceCPUBal : float64;
  sco_ServiceMemBal : float64;
  sco_HostCPUBal : float64;
  sco_HostMemBal : float64;
  sco_Churn : float64;
  sco_LocalityPenalty : float64;
  sco_CrossZonePenalty : float64;
  sco_TopologyPenalty : float64;
}.
Definition bandPenalty (u low high : float64) : float64 :=
  if fge u low && fleb u high then f0 else if fltb u low then fsub low u else fsub u high.
(** Maximum and mean of CPU and memory, and how many entries count. *)
Record util_stats := mkStats { us_maxCPU : float64; us_meanCPU : float64; us_maxMem : float64; us_meanMem : float64; us_n : Z }.
Definition stats_of {A} (cpu mem : A → float64) (l : list A) : util_stats :=
  match l with
  | [] => mkStats f0 f0 f0 f0 0
  | _ => mkStats (max_above cpu l) (average cpu l) (max_above mem l) (average mem l) (len l)
  end.
Definition serviceUtilStats (m : option RunMetrics) : util_stats :=
  stats_of sm_CpuUtilization sm_MemoryUtilization
    (filter (λ s, HasPrefix (sm_ServiceName s) "client" = false) (from_option met_ServiceMetrics [] m)).
Definition hostUtilStats (m : option RunMetrics) : util_stats :=
  stats_of hm_CpuUtilization hm_MemoryUtilization (from_option met_HostMetrics [] m).
Definition balanceTerm (maxU meanU low high : float64) : float64 :=
  fadd (fmul (f64_lit 7 10) (bandPenalty maxU low high)) (fmul (f64_lit 3 10) (bandPenalty meanU low high)).
Definition host_memory_gb (h : HostSpec) : Z := if hs_MemoryGB h <? 1 then 16 else hs_MemoryGB h.
(** The sum of the terms, from the left. *)
Definition fsum (l : list float64) : float64 := match l with [] => f0 | x :: l => foldl (λ s y, fadd s y) x l end.
Definition ComputeInfraCostWeighted (s : option Scenario) (w : option BatchCostWeights) : float64 :=
  match s, w with
  | Some s, Some w =>
      let l := scn_Services s in
      fsum [fmul (cw_ServiceCpu w) (sum_float (λ v, fmul (effective_replicas v) (effective_cpu v)) l);
            fmul (cw_ServiceMemoryGb w) (sum_float (λ v, fmul (effective_replicas v) (memory_gb v)) l);
            fmul (cw_Replicas w) (sum_float effective_replicas l);
            fmul (cw_Hosts w) (f64_of_Z (len (scn_Hosts s)));
            fmul (cw_HostCpu w) (f64_of_Z (sum_int hs_Cores (scn_Hosts s)));
            fmul (cw_HostMemoryGb w) (f64_of_Z (sum_int host_memory_gb (scn_Hosts s)))]
  | _, _ => EvaluateInfrastructureCost s
  end.
Definition ComputeChurn (base cur : option Scenario) : float64 :=
  match base, cur with
  | Some base, Some cur =>
      let rel d b lo := fdiv (math_Abs d) (math_Max lo b) in
      let sum :=
        foldl (λ sum p,
          let '(b, c) := p in
          if negb (String.eqb (svc_ID b) (svc_ID c)) then sum
          else
            let sum := fadd sum (rel (f64_of_Z (wrap64 (svc_Replicas c - svc_Replicas b))) (f64_of_Z (svc_Replicas b)) f1) in
            let sum := fadd sum (rel (fsub (svc_CPUCores c) (svc_CPUCores b)) (svc_CPUCores b) (f64_lit 1 4)) in
            fadd sum (rel (fsub (svc_MemoryMB c) (svc_MemoryMB b)) (svc_MemoryMB b) (f64_of_Z 128)))
          f0 (zip (scn_Services base) (scn_Services cur)) in
      fadd sum (rel (f64_of_Z (len (scn_Hosts cur) - len (scn_Hosts base))) (f64_of_Z (len (scn_Hosts base))) f1)
  | _, _ => f0
  end.
(** How far a value is over a limit, as a fraction, if there is a limit. *)
Definition over (value limit : float64) : float64 :=
  if fltb f0 limit then math_Max f0 (fsub (fdiv value limit) f1) else f0.
Definition under (value limit : float64) : float64 :=
  if fltb f0 limit then math_Max f0 (fsub (fdiv limit (math_Max value scoreEps)) f1) else f0.
Definition ingress_throughput (m : RunMetrics) : float64 :=
  if fleb (met_IngressThroughputRps m) f0 then met_ThroughputRps m else met_IngressThroughputRps m.
Definition ComputeBatchScore (spec : BatchSpec) (baseline scenario : Scenario) (m : option RunMetrics) : BatchScore :=
  let pw := bs_PenaltyWeights spec in
  let cw := bs_CostWeights spec in
  let met (f : RunMetrics → float64) := from_option f f0 m in
  (** Limits other than the first four are only checked when there are metrics. *)
  let over_if (f : RunMetrics → float64) limit := match m with Some m => over (f m) limit | None => f0 end in
  let count (f : RunMetrics → Z) m := f64_of_Z (f m) in
  let lat := over (met met_LatencyP95Ms) (bs_MaxP95Ms spec) in
  let p99 := over (met met_LatencyP99Ms) (bs_MaxP99Ms spec) in
  let err := over (UserVisibleErrorRate m) (bs_MaxErrorRate spec) in
  let tput := under (met ingress_throughput) (bs_MinThroughput spec) in
  let qdepth := over_if met_QueueDepthSum (bs_MaxQueueDepthSum spec) in
  let tbacklog := over_if met_TopicBacklogDepthSum (bs_MaxTopicBacklogDepthSum spec) in
  let tlag := over_if met_TopicConsumerLagSum (bs_MaxTopicConsumerLagSum spec) in
  let qage := over_if met_QueueOldestMessageAgeMs (bs_MaxQueueOldestMessageAgeMs spec) in
  let tage := over_if met_TopicOldestMessageAgeMs (bs_MaxTopicOldestMessageAgeMs spec) in
  let qdrop := over_if (count met_QueueDropCountTotal) (bs_MaxQueueDropCount spec) in
  let tdrop := over_if (count met_TopicDropCountTotal) (bs_MaxTopicDropCount spec) in
  let qdlq := over_if (count met_QueueDlqCountTotal) (bs_MaxQueueDlqCount spec) in
  let tdlq := over_if (count met_TopicDlqCountTotal) (bs_MaxTopicDlqCount spec) in
  let loc := match m with Some m => under (met_LocalityHitRate m) (bs_MinLocalityHitRate spec) | None => f0 end in
  let xzone := over_if met_CrossZoneRequestFraction (bs_MaxCrossZoneRequestFraction spec) in
  let topo := over_if met_TopologyLatencyPenaltyMsMean (bs_MaxTopologyLatencyPenaltyMeanMs spec) in
  let violation :=
    fsum [fmul (pw_P95 pw) lat; fmul (pw_P99 pw) p99; fmul (pw_ErrorRate pw) err; fmul (pw_Throughput pw) tput;
          fmul (pw_QueueDepth pw) qdepth; fmul (pw_TopicBacklog pw) tbacklog; fmul (pw_TopicLag pw) tlag;
          fmul (pw_QueueOldestAge pw) qage; fmul (pw_TopicOldestAge pw) tage; fmul (pw_QueueDrop pw) qdrop;
          fmul (pw_TopicDrop pw) tdrop; fmul (pw_QueueDlq pw) qdlq; fmul (pw_TopicDlq pw) tdlq;
          fmul (pw_Locality pw) loc; fmul (pw_CrossZone pw) xzone; fmul (pw_TopologyLatency pw) topo] in
  let sv := serviceUtilStats m in
  let ho := hostUtilStats m in
  let balance st low high (cpu : bool) :=
    if 0 <? us_n st then
      if cpu then balanceTerm (us_maxCPU st) (us_meanCPU st) low high
      else balanceTerm (us_maxMem st) (us_meanMem st) low high
    else f0 in
  let svcCPU := balance sv (bs_ServiceCPUBandLow spec) (bs_ServiceCPUBandHigh spec) true in
  let svcMem := balance sv (bs_ServiceMemBandLow spec) (bs_ServiceMemBandHigh spec) false in
  (** Without host metrics the service figures stand in. *)
  let hostStats := if 0 <? us_n ho then ho else sv in
  let hostCPU := balance hostStats (bs_HostCPUBandLow spec) (bs_HostCPUBandHigh spec) true in
  let hostMem := balance hostStats (bs_HostMemBandLow spec) (bs_HostMemBandHigh spec) false in
  let cost := ComputeInfraCostWeighted (Some scenario) (Some cw) in
  let churn := ComputeChurn (Some baseline) (Some scenario) in
  let locPenalty := match m with Some m => math_Max f0 (fsub f1 (met_LocalityHitRate m)) | None => f0 end in
  let xzonePenalty := met met_CrossZoneRequestFraction in
  let topoPenalty := met met_TopologyLatencyPenaltyMsMean in
  let efficiency :=
    fsum [cost; fmul (pw_ServiceCpuBalance pw) svcCPU; fmul (pw_ServiceMemoryBalance pw) svcMem;
          fmul (pw_HostCpuBalance pw) hostCPU; fmul (pw_HostMemoryBalance pw) hostMem;
          fmul (pw_Locality pw) locPenalty; fmul (pw_CrossZone pw) xzonePenalty;
          fmul (pw_TopologyLatency pw) topoPenalty; fmul (cw_Churn cw) churn] in
  mkBatchScore (fleb violation scoreEps) violation efficiency lat p99 err tput qdepth tbacklog tlag qage tage qdrop
    tdrop qdlq tdlq loc xzone topo cost svcCPU svcMem hostCPU hostMem churn locPenalty xzonePenalty topoPenalty.
(** Whether [a] is better than [b]. *)
Definition CompareBatchScores (a b : BatchScore) (hashA hashB : Z) : bool :=
  if negb (Bool.eqb (sco_Feasible a) (sco_Feasible b)) then sco_Feasible a && negb (sco_Feasible b)
  else if fgt (math_Abs (fsub (sco_ViolationScore a) (sco_ViolationScore b))) scoreEps
  then fltb (sco_ViolationScore a) (sco_ViolationScore b)
  else if fgt (math_Abs (fsub (sco_EfficiencyScore a) (sco_EfficiencyScore b))) scoreEps
  then fltb (sco_EfficiencyScore a) (sco_EfficiencyScore b)
  else hashA <? hashB.

(** * Static checks *)

Definition StaticCapacityOK (s : option Scenario) : bool :=
  match s with
  | None => false
  | Some s =>
      if len (scn_Services s) =? 0 then false
      else
        let needCPU := sum_float (λ v, fmul (effective_replicas v) (effective_cpu v)) (scn_Services s) in
        let needMemMB := sum_float (λ v, fmul (effective_replicas v) (effective_memory v)) (scn_Services s) in
        let capCPU := sum_float (λ h, f64_of_Z (hs_Cores h)) (scn_Hosts s) in
        let capMemMB := sum_float (λ h, fmul (f64_of_Z (host_memory_gb h)) (f64_of_Z 1024)) (scn_Hosts s) in
        let capCPU := if fleb capCPU f0 then needCPU else capCPU in
        let capMemMB := if fleb capMemMB f0 then needMemMB else capMemMB in
        fleb needCPU (fmul capCPU (f64_lit 1001 1000)) && fleb needMemMB (fmul capMemMB (f64_lit 1001 1000))
  end.
(** The consumer concurrency is inside its own bounds, where it has any. *)
Definition concurrency_ok (c lo hi : Z) : bool :=
  negb ((0 <? lo) && (0 <? c) && (c <? lo)) && negb ((0 <? hi) && (0 <? c) && (hi <? c)).
Definition subscriber_ok (s : TopicSubscriber) : bool :=
  concurrency_ok (sub_ConsumerConcurrency s) (sub_MinConsumerConcurrency s) (sub_MaxConsumerConcurrency s).
Definition service_within (spec : BatchSpec) (svc : Service) : bool :=
  negb (svc_Replicas svc <? bs_MinReplicasPerSvc spec) && negb (bs_MaxReplicasPerSvc spec <? svc_Replicas svc) &&
  negb (fltb (svc_CPUCores svc) (bs_MinCPUPerInst spec)) && negb (fgt (svc_CPUCores svc) (bs_MaxCPUPerInst spec)) &&
  negb (fltb (svc_MemoryMB svc) (bs_MinMemPerInst spec)) && negb (fgt (svc_MemoryMB svc) (bs_MaxMemPerInst spec)) &&
  match svc_Behavior svc with
  | None => true
  | Some b =>
      match sb_Queue b with
      | Some q => concurrency_ok (qb_ConsumerConcurrency q) (qb_MinConsumerConcurrency q) (qb_MaxConsumerConcurrency q)
      | None => true
      end &&
      match sb_Topic b with Some t => forallb subscriber_ok (tb_Subscribers t) | None => true end
  end.
Definition host_within (spec : BatchSpec) (h : HostSpec) : bool :=
  negb (hs_Cores h <? bs_MinHostCPUCores spec) && negb (bs_MaxHostCPUCores spec <? hs_Cores h) &&
  negb (host_memory_gb h <? bs_MinHostMemGB spec) && negb (bs_MaxHostMemGB spec <? host_memory_gb h).
Definition withinBatchBounds (spec : BatchSpec) (cur : Scenario) : bool :=
  negb (len (scn_Hosts cur) <? bs_MinHosts spec) && negb (bs_MaxHosts spec <? len (scn_Hosts cur)) &&
  forallb (service_within spec) (scn_Services cur) && forallb (host_within spec) (scn_Hosts cur).
(** Whether the metrics look overloaded. *)
Definition neighborStress (spec : BatchSpec) (m : option RunMetrics) : bool :=
  match m with
  | None => true
  | Some r =>
      let exceeds limit factor value := fltb f0 limit && fgt value (fmul limit factor) in
      let f101 := f64_lit 101 100 in
      let sv := serviceUtilStats m in
      exceeds (bs_MaxP95Ms spec) (f64_lit 1005 1000) (met_LatencyP95Ms r)
      || ((0 <? us_n sv) && fgt (us_maxCPU sv) (bs_ServiceCPUBandHigh spec))
      || (fltb f0 (bs_MinThroughput spec) &&
          fltb (ingress_throughput r) (fmul (bs_MinThroughput spec) (f64_lit 95 100)))
      || exceeds (bs_MaxQueueDepthSum spec) f101 (met_QueueDepthSum r)
      || exceeds (bs_MaxTopicBacklogDepthSum spec) f101 (met_TopicBacklogDepthSum r)
      || exceeds (bs_MaxTopicConsumerLagSum spec) f101 (met_TopicConsumerLagSum r)
      || exceeds (bs_MaxQueueOldestMessageAgeMs spec) f101 (met_QueueOldestMessageAgeMs r)
      || exceeds (bs_MaxTopicOldestMessageAgeMs spec) f101 (met_TopicOldestMessageAgeMs r)
      || exceeds (bs_MaxQueueDropCount spec) f101 (f64_of_Z (met_QueueDropCountTotal r))
      || exceeds (bs_MaxTopicDropCount spec) f101 (f64_of_Z (met_TopicDropCountTotal r))
      || exceeds (bs_MaxQueueDlqCount spec) f101 (f64_of_Z (met_QueueDlqCountTotal r))
      || exceeds (bs_MaxTopicDlqCount spec) f101 (f64_of_Z (met_TopicDlqCountTotal r))
  end.
Definition capacityDelta (cur nb : Scenario) : float64 :=
  let d :=
    foldl (λ d p,
      let '(n, c) := p in
      let dr := f64_of_Z (wrap64 (svc_Replicas n - svc_Replicas c)) in
      let dc := fsub (svc_CPUCores n) (svc_CPUCores c) in
      let dm := fsub (svc_MemoryMB n) (svc_MemoryMB c) in
      fadd d (fadd (fadd (fmul dr (f64_of_Z 50)) (fmul dc (f64_of_Z 2))) (fdiv dm (f64_of_Z 256))))
      f0 (zip (scn_Services nb) (scn_Services cur)) in
  fadd d (fmul (f64_of_Z (len (scn_Hosts nb) - len (scn_Hosts cur))) (f64_of_Z 80)).

(** * Which services to scale *)

(** ID to position; the last service with an ID wins. *)
Definition serviceIndexByID (s : Scenario) : gmap string nat :=
  foldl (λ m p, <[svc_ID p.2 := p.1]> m) ∅ (imap pair (scn_Services s)).
Definition servicePressureScore (m : option RunMetrics) : gmap string float64 :=
  foldl (λ scores sm,
    if is_empty (TrimSpace (sm_ServiceName sm)) then scores
    else
      <[sm_ServiceName sm :=
        fadd (fadd (fadd (sm_CpuUtilization sm) (sm_MemoryUtilization sm))
                   (fmul (f64_of_Z (sm_ConcurrentRequests sm)) (f64_lit 1 100)))
             (fmul (f64_of_Z (sm_QueueLength sm)) (f64_lit 5 100))]> scores)
    ∅ (from_option met_ServiceMetrics [] m).
(** The service a consumer target names. *)
Definition target_index (byID : gmap string nat) (target : string) : option nat :=
  match cut_colon (TrimSpace target) with Some (svc, _) => byID !! TrimSpace svc | None => None end.
Definition consumer_targets (svc : Service) : list string :=
  match svc_Behavior svc with
  | None => []
  | Some b =>
      match sb_Queue b with Some q => [qb_ConsumerTarget q] | None => [] end ++
      match sb_Topic b with Some t => sub_ConsumerTarget <$> tb_Subscribers t | None => [] end
  end.
Definition id_at (s : Scenario) (i : nat) : string := from_option svc_ID "" (scn_Services s !! i).
(** The services that consume from brokers, those under most pressure first. The indices
    come from a map; the order by pressure and ID does not leave ties. *)
Definition brokerConsumerTargetServiceIndices (cur : Scenario) (lastMetrics : option RunMetrics) : list nat :=
  let byID := serviceIndexByID cur in
  let seen : gset nat := list_to_set (omap (target_index byID) (concat (consumer_targets <$> scn_Services cur))) in
  let scores := servicePressureScore lastMetrics in
  let pressure i := default f0 (scores !! id_at cur i) in
  sort_SliceStable (λ i j,
    if feqb (pressure i) (pressure j) then string_ltb (id_at cur i) (id_at cur j) else fgt (pressure i) (pressure j))
    (elements seen).
Definition orderNeighborsForExpansion (spec : BatchSpec) (cur : Scenario) (lastMetrics : option RunMetrics)
    (neighbors : list Scenario) : list Scenario :=
  if len neighbors <? 2 then neighbors
  else if neighborStress spec lastMetrics
  then sort_SliceStable (λ a b, fgt (capacityDelta cur a) (capacityDelta cur b)) neighbors
  else sort_SliceStable (λ a b, fltb (capacityDelta cur a) (capacityDelta cur b)) neighbors.

(** * Neighbours *)

(** A copy with service [i] replaced by [f] of it, unless [f] declines. *)
Definition change_service (i : nat) (f : Service → option Service) (cur : Scenario) : option Scenario :=
  let ns := cloneScenario cur in
  match scn_Services ns !! i ≫= f with
  | Some svc => Some (ns <| scn_Services := <[i := svc]> (scn_Services ns) |>)
  | None => None
  end.
Definition change_host (i : nat) (f : HostSpec → HostSpec) (cur : Scenario) : option Scenario :=
  let ns := cloneScenario cur in Some (ns <| scn_Hosts := alter f i (scn_Hosts ns) |>).
Definition positions {A} (l : list A) : list nat := seq 0 (length l).
(** The services an action is tried on: all, or under stress the consumers if there are any. *)
Definition scale_indices (spec : BatchSpec) (cur : Scenario) (m : option RunMetrics) : list nat :=
  match (if neighborStress spec m then brokerConsumerTargetServiceIndices cur m else []) with
  | [] => positions (scn_Services cur)
  | l => l
  end.
Definition allowed_services (act : BatchScalingAction) (cur : Scenario) (l : list nat) : list nat :=
  filter (λ i, ServiceAllowsBatchScalingAction (scn_Services cur !! i) act = true) l.
Definition scale_out (spec : BatchSpec) (svc : Service) : option Service :=
  if bs_MaxReplicasPerSvc spec <=? svc_Replicas svc then None
  else
    let r := wrap64 (svc_Replicas svc + bs_ReplicaStep spec) in
    Some (svc <| svc_Replicas := if bs_MaxReplicasPerSvc spec <? r then bs_MaxReplicasPerSvc spec else r |>).
Definition scale_in (spec : BatchSpec) (svc : Service) : option Service :=
  let r := wrap64 (svc_Replicas svc - bs_ReplicaStep spec) in
  if r <? bs_MinReplicasPerSvc spec then None
  else Some (svc <| svc_Replicas := if r <? bs_MinReplicasPerSvc spec then bs_MinReplicasPerSvc spec else r |>).
Definition scale_up_cpu (spec : BatchSpec) (svc : Service) : option Service :=
  let cpu := fmul (effective_cpu svc) (fadd f1 (bs_ServiceCPURatio spec)) in
  Some (svc <| svc_CPUCores := if fgt cpu (bs_MaxCPUPerInst spec) then bs_MaxCPUPerInst spec else cpu |>).
Definition scale_down_cpu (spec : BatchSpec) (svc : Service) : option Service :=
  let cpu := fmul (effective_cpu svc) (fsub f1 (bs_ServiceCPURatio spec)) in
  Some (svc <| svc_CPUCores := if fltb cpu (bs_MinCPUPerInst spec) then bs_MinCPUPerInst spec else cpu |>).
Definition scale_up_memory (spec : BatchSpec) (svc : Service) : option Service :=
  let mb := fmul (effective_memory svc) (fadd f1 (bs_ServiceMemRatio spec)) in
  Some (svc <| svc_MemoryMB := if fgt mb (bs_MaxMemPerInst spec) then bs_MaxMemPerInst spec else mb |>).
Definition scale_down_memory (spec : BatchSpec) (svc : Service) : option Service :=
  let mb := fmul (effective_memory svc) (fsub f1 (bs_ServiceMemRatio spec)) in
  Some (svc <| svc_MemoryMB := if fltb mb (bs_MinMemPerInst spec) then bs_MinMemPerInst spec else mb |>).
Definition service_neighbors (act : BatchScalingAction) (f : Service → option Service) (l : list nat) (cur : Scenario)
    : list Scenario := omap (λ i, change_service i f cur) (allowed_services act cur l).
Definition host_scale_out (spec : BatchSpec) (cur : Scenario) : list Scenario :=
  match scn_Hosts cur with
  | [] => []
  | _ =>
      let ns := cloneScenario cur in
      if bs_MaxHosts spec <=? len (scn_Hosts ns) then []
      else
        match scn_Hosts ns with
        | [] => []
        | h0 :: _ =>
            [ns <| scn_Hosts := scn_Hosts ns ++
              [mkHostSpec ("host-" +:+ Itoa (len (scn_Hosts ns) + 1)) (hs_Cores h0) (hs_MemoryGB h0) "" ∅] |>]
        end
  end.
Definition host_scale_in (spec : BatchSpec) (cur : Scenario) : list Scenario :=
  if len (scn_Hosts cur) <=? bs_MinHosts spec then []
  else let ns := cloneScenario cur in [ns <| scn_Hosts := take (length (scn_Hosts ns) - 1) (scn_Hosts ns) |>].
Definition host_neighbors (f : HostSpec → HostSpec) (cur : Scenario) : list Scenario :=
  omap (λ i, change_host i f cur) (positions (scn_Hosts cur)).
Definition cap_above (hi x : Z) : Z := if hi <? x then hi else x.
Definition cap_below (lo x : Z) : Z := if x <? lo then lo else x.
(** The next consumer concurrency up or down, unless it is at its bound. *)
Definition next_up (spec : BatchSpec) (c hi : Z) : option Z :=
  let curC := if c <=? 0 then 1 else c in
  let maxC := if hi <=? 0 then (if bs_MaxReplicasPerSvc spec <? 1 then 64 else bs_MaxReplicasPerSvc spec) else hi in
  if maxC <=? curC then None else Some (cap_above maxC (wrap64 (curC + bs_ReplicaStep spec))).
Definition next_down (spec : BatchSpec) (c lo : Z) : option Z :=
  let curC := if c <=? 0 then 1 else c in
  let minC := if lo <=? 0 then 1 else lo in
  if curC <=? minC then None else Some (cap_below minC (wrap64 (curC - bs_ReplicaStep spec))).
Definition set_queue (f : QueueBehavior → option Z) (svc : Service) : option Service :=
  match svc_Behavior svc with
  | Some b =>
      match sb_Queue b with
      | Some q =>
          (λ c, svc <| svc_Behavior := Some (b <| sb_Queue := Some (q <| qb_ConsumerConcurrency := c |>) |>) |>) <$> f q
      | None => None
      end
  | None => None
  end.
Definition set_subscriber (j : nat) (f : TopicSubscriber → option Z) (svc : Service) : option Service :=
  match svc_Behavior svc with
  | Some b =>
      match sb_Topic b with
      | Some t =>
          match tb_Subscribers t !! j with
          | Some sub =>
              (λ c, svc <| svc_Behavior := Some (b <| sb_Topic := Some (t <| tb_Subscribers :=
                 <[j := sub <| sub_ConsumerConcurrency := c |>]> (tb_Subscribers t) |>) |>) |>) <$> f sub
          | None => None
          end
      | None => None
      end
  | None => None
  end.
Definition subscribers (svc : Service) : list TopicSubscriber :=
  match svc_Behavior svc with
  | Some b => from_option tb_Subscribers [] (sb_Topic b)
  | None => []
  end.
Definition queue_neighbors (f : QueueBehavior → option Z) (cur : Scenario) : list Scenario :=
  omap (λ i, change_service i (set_queue f) cur) (positions (scn_Services cur)).
Definition topic_neighbors (f : TopicSubscriber → option Z) (cur : Scenario) : list Scenario :=
  concat (imap (λ i svc, omap (λ j, change_service i (set_subscriber j f) cur) (positions (subscribers svc)))
            (scn_Services cur)).
(** The candidates of one action, before [add] drops some. *)
Definition action_neighbors (spec : BatchSpec) (cur : Scenario) (m : option RunMetrics) (a : Z) : list Scenario :=
  let all := positions (scn_Services cur) in
  let stressed := scale_indices spec cur m in
  let cores d h := h <| hs_Cores := d (hs_Cores h) |> in
  let memory d h := h <| hs_MemoryGB := d (hs_MemoryGB h) |> in
  match a with
  | 1 => service_neighbors SERVICE_SCALE_OUT (scale_out spec) stressed cur
  | 2 => service_neighbors SERVICE_SCALE_IN (scale_in spec) all cur
  | 3 => service_neighbors SERVICE_SCALE_UP_CPU (scale_up_cpu spec) stressed cur
  | 4 => service_neighbors SERVICE_SCALE_DOWN_CPU (scale_down_cpu spec) all cur
  | 5 => service_neighbors SERVICE_SCALE_UP_MEMORY (scale_up_memory spec) stressed cur
  | 6 => service_neighbors SERVICE_SCALE_DOWN_MEMORY (scale_down_memory spec) all cur
  | 7 => host_scale_out spec cur
  | 8 => host_scale_in spec cur
  | 9 => host_neighbors (cores (λ c, cap_above (bs_MaxHostCPUCores spec) (wrap64 (c + bs_HostCPUStepCores spec)))) cur
  | 10 => host_neighbors (cores (λ c, cap_below (bs_MinHostCPUCores spec) (wrap64 (c - bs_HostCPUStepCores spec)))) cur
  | 11 => host_neighbors (memory (λ g, cap_above (bs_MaxHostMemGB spec) (wrap64 (g + bs_HostMemStepGB spec)))) cur
  | 12 => host_neighbors (memory (λ g, cap_below (bs_MinHostMemGB spec) (wrap64 (g - bs_HostMemStepGB spec)))) cur
  | 13 => queue_neighbors (λ q, next_up spec (qb_ConsumerConcurrency q) (qb_MaxConsumerConcurrency q)) cur
  | 14 => queue_neighbors (λ q, next_down spec (qb_ConsumerConcurrency q) (qb_MinConsumerConcurrency q)) cur
  | 15 => topic_neighbors (λ s, next_up spec (sub_ConsumerConcurrency s) (sub_MaxConsumerConcurrency s)) cur
  | 16 => topic_neighbors (λ s, next_down spec (sub_ConsumerConcurrency s) (sub_MinConsumerConcurrency s)) cur
  | _ => []
  end.
Definition workload_neighbors (spec : BatchSpec) (cur : Scenario) : list Scenario :=
  if bs_FreezeWorkload spec then []
  else
    concat ((λ i, (λ mul : float64,
      let ns := cloneScenario cur in
      let rate w := let r := fmul (ar_RateRPS (wl_Arrival w)) mul in if fltb r (f64_lit 1 100) then f64_lit 1 100 else r in
      ns <| scn_Workload := alter (λ w, w <| wl_Arrival := (wl_Arrival w) <| ar_RateRPS := rate w |> |>) i (scn_Workload ns) |>)
      <$> [f64_lit 11 10; f64_lit 9 10]) <$> positions (scn_Workload cur)).
Definition policy_neighbors (spec : BatchSpec) (cur : Scenario) : list Scenario :=
  if bs_FreezePolicies spec then []
  else
    match scn_Policies cur ≫= pc_Autoscaling with
    | None => []
    | Some _ =>
        let ns := cloneScenario cur in
        [ns <| scn_Policies := (λ p, p <| pc_Autoscaling := (λ a, a <| ac_Enabled := negb (ac_Enabled a) |>) <$> pc_Autoscaling p |>)
                 <$> scn_Policies ns |>]
    end.
(** The guard of [add]. *)
Definition admissible (spec : BatchSpec) (ns : Scenario) : bool := StaticCapacityOK (Some ns) && withinBatchBounds spec ns.
Definition neighbor_actions (spec : BatchSpec) : list Z :=
  match bs_AllowedActionsOrdered spec with
  | [] => merge_sort Z.le (elements (bs_AllowedActions spec))
  | l => l
  end.
Definition max_neighbors (spec : BatchSpec) : Z :=
  if bs_MaxNeighborsPerState spec <=? 0 then 24 else bs_MaxNeighborsPerState spec.
Definition GenerateBatchNeighbors (spec : BatchSpec) (cur : Scenario) (lastMetrics : option RunMetrics) : list Scenario :=
  let out := concat (action_neighbors spec cur lastMetrics <$> neighbor_actions spec) ++
             workload_neighbors spec cur ++ policy_neighbors spec cur in
  let out := filter (λ ns, admissible spec ns = true) out in
  take (Z.to_nat (max_neighbors spec)) (orderNeighborsForExpansion spec cur lastMetrics out).

(** * Copies are equal *)

Lemma copy_map_id {A} (m : gmap string A) : copy_map m = m.
Proof.
  unfold copy_map. destruct (Z.ltb_spec 0 (Z.of_nat (size m))); [apply list_to_map_to_list|].
  symmetry. apply map_size_empty_inv. lia.
Qed.
Lemma cloneRoutingPolicy_id r : cloneRoutingPolicy r = r.
Proof. destruct r. unfold cloneRoutingPolicy. simpl. by rewrite copy_map_id. Qed.
Lemma clonePlacementPolicy_id p : clonePlacementPolicy p = p.
Proof. destruct p. unfold clonePlacementPolicy. simpl. by rewrite !copy_map_id. Qed.
Lemma clone_network_id n : clone_network n = n.
Proof.
  destruct n as [a b c d m e]. unfold clone_network. simpl. f_equal. rewrite copy_map_id.
  apply map_eq. intros i. rewrite lookup_fmap. destruct (m !! i); simpl; [by rewrite copy_map_id|done].
Qed.
Lemma clone_host_id h : clone_host h = h.
Proof. destruct h. unfold clone_host. simpl. by rewrite copy_map_id. Qed.
Lemma option_fmap_same {A} (f : A → A) (x : option A) : (∀ a, f a = a) → f <$> x = x.
Proof. intros H. destruct x; simpl; [by rewrite H|done]. Qed.
Lemma list_fmap_same {A} (f : A → A) (l : list A) : (∀ a, f a = a) → f <$> l = l.
Proof. intros H. induction l as [|x l IH]; csimpl; [done|]. by rewrite H, IH. Qed.
Lemma clone_behavior_id b : clone_behavior b = b.
Proof.
  destruct b. unfold clone_behavior. simpl. f_equal; apply option_fmap_same; by intros [].
Qed.
Lemma clone_endpoint_id e : clone_endpoint e = e.
Proof.
  destruct e. unfold clone_endpoint. simpl.
  f_equal; [apply option_fmap_same, cloneRoutingPolicy_id|apply list_fmap_same; by intros []].
Qed.
Lemma clone_service_id s : clone_service s = s.
Proof.
  destruct s. unfold clone_service. simpl.
  f_equal; [apply option_fmap_same; by intros []|apply option_fmap_same, clone_behavior_id
    |apply option_fmap_same, clonePlacementPolicy_id|apply option_fmap_same, cloneRoutingPolicy_id
    |apply list_fmap_same, clone_endpoint_id].
Qed.
Lemma clone_workload_id w : clone_workload w = w.
Proof. destruct w. unfold clone_workload. simpl. by rewrite copy_map_id. Qed.
Lemma cloneScenario_id s : cloneScenario s = s.
Proof.
  destruct s. unfold cloneScenario. simpl.
  f_equal; [apply option_fmap_same; by intros []|apply option_fmap_same, clone_network_id
    |apply list_fmap_same, clone_host_id|apply list_fmap_same, clone_service_id|apply list_fmap_same, clone_workload_id|].
  apply option_fmap_same. intros []. unfold clone_policies. simpl. f_equal; apply option_fmap_same; by intros [].
Qed.

(** * What a neighbour is *)

(** A step keeps what a service is and may change its replicas, CPU, memory and the
    concurrency of its consumers, the first three only where its scaling policy allows. *)
Record service_step (a b : Service) : Prop := {
  step_identity : b = a <| svc_Replicas := svc_Replicas b |> <| svc_CPUCores := svc_CPUCores b |>
    <| svc_MemoryMB := svc_MemoryMB b |> <| svc_Behavior := svc_Behavior b |>;
  step_replicas : ServiceAllowsHorizontalScaling (Some a) = false → svc_Replicas b = svc_Replicas a;
  step_cpu : ServiceAllowsVerticalCPU (Some a) = false → svc_CPUCores b = svc_CPUCores a;
  step_memory : ServiceAllowsVerticalMemory (Some a) = false → svc_MemoryMB b = svc_MemoryMB a;
}.
(** One step changes at most one service and respects what the specification freezes. *)
Record neighbor_of (spec : BatchSpec) (cur nb : Scenario) : Prop := {
  nb_version : scn_SchemaVersion nb = scn_SchemaVersion cur;
  nb_limits : scn_SimulationLimits nb = scn_SimulationLimits cur;
  nb_network : scn_Network nb = scn_Network cur;
  nb_services : Forall2 service_step (scn_Services cur) (scn_Services nb);
  nb_one : ∃ i, ∀ j, j ≠ i → scn_Services nb !! j = scn_Services cur !! j;
  nb_workload : bs_FreezeWorkload spec = true → scn_Workload nb = scn_Workload cur;
  nb_policies : bs_FreezePolicies spec = true → scn_Policies nb = scn_Policies cur;
}.
(** The bounds of the specification. *)
Definition service_bounds (spec : BatchSpec) (svc : Service) : Prop :=
  bs_MinReplicasPerSvc spec ≤ svc_Replicas svc ≤ bs_MaxReplicasPerSvc spec ∧
  fltb (svc_CPUCores svc) (bs_MinCPUPerInst spec) = false ∧ fltb (bs_MaxCPUPerInst spec) (svc_CPUCores svc) = false ∧
  fltb (svc_MemoryMB svc) (bs_MinMemPerInst spec) = false ∧ fltb (bs_MaxMemPerInst spec) (svc_MemoryMB svc) = false.
Definition host_bounds (spec : BatchSpec) (h : HostSpec) : Prop :=
  bs_MinHostCPUCores spec ≤ hs_Cores h ≤ bs_MaxHostCPUCores spec ∧
  bs_MinHostMemGB spec ≤ host_memory_gb h ≤ bs_MaxHostMemGB spec.
Definition in_bounds (spec : BatchSpec) (s : Scenario) : Prop :=
  bs_MinHosts spec ≤ len (scn_Hosts s) ≤ bs_MaxHosts spec ∧
  Forall (service_bounds spec) (scn_Services s) ∧ Forall (host_bounds spec) (scn_Hosts s).
Lemma forallb_Forall {A} (f : A → bool) l : forallb f l = true → Forall (λ x, f x = true) l.
Proof. induction l; simpl; [constructor|]. intros [? ?]%andb_true_iff. constructor; auto. Qed.
Lemma withinBatchBounds_in_bounds spec s : withinBatchBounds spec s = true → in_bounds spec s.
Proof.
  unfold withinBatchBounds. rewrite !andb_true_iff, !negb_true_iff, !Z.ltb_ge.
  intros [[[H1 H2] Hs%forallb_Forall] Hh%forallb_Forall]. split; [lia|]. split.
  - eapply Forall_impl; [exact Hs|]. intros svc H. unfold service_within in H.
    rewrite !andb_true_iff, !negb_true_iff, !Z.ltb_ge in H. unfold service_bounds. by destruct_and!.
  - eapply Forall_impl; [exact Hh|]. intros h H. unfold host_within in H.
    rewrite !andb_true_iff, !negb_true_iff, !Z.ltb_ge in H. unfold host_bounds. by destruct_and!.
Qed.
Lemma service_step_refl a : service_step a a.
Proof. split; [by destruct a|done..]. Qed.
Lemma services_same spec (cur nb : Scenario) : scn_SchemaVersion nb = scn_SchemaVersion cur →
  scn_SimulationLimits nb = scn_SimulationLimits cur → scn_Network nb = scn_Network cur →
  scn_Services nb = scn_Services cur → (bs_FreezeWorkload spec = true → scn_Workload nb = scn_Workload cur) →
  (bs_FreezePolicies spec = true → scn_Policies nb = scn_Policies cur) → neighbor_of spec cur nb.
Proof.
  intros E1 E2 E3 E4 E5 E6. split; try done; rewrite E4; [|by exists 0%nat].
  clear. induction (scn_Services cur); constructor; auto using service_step_refl.
Qed.
Lemma change_service_ok spec i f cur nb : change_service i f cur = Some nb →
  (∀ a b, scn_Services cur !! i = Some a → f a = Some b → service_step a b) → neighbor_of spec cur nb.
Proof.
  unfold change_service. rewrite cloneScenario_id. intros H Hf.
  destruct (scn_Services cur !! i) as [a|] eqn:Ea; simpl in H; [|done].
  destruct (f a) as [b|] eqn:Eb; [|done]. injection H as <-. split; try done; simpl.
  - apply Forall2_same_length_lookup. split; [by rewrite length_insert|]. intros j x y Hx Hy.
    destruct (decide (i = j)) as [<-|Hne].
    + rewrite list_lookup_insert_eq in Hy by (by eapply lookup_lt_Some). simplify_eq. eauto.
    + rewrite list_lookup_insert_ne in Hy by done. simplify_eq. apply service_step_refl.
  - exists i. intros j Hj. by rewrite list_lookup_insert_ne.
Qed.
Lemma allowed_kind act svc : ServiceAllowsBatchScalingAction (Some svc) act = true →
  match act with
  | SERVICE_SCALE_OUT | SERVICE_SCALE_IN => ServiceAllowsHorizontalScaling (Some svc) = true
  | SERVICE_SCALE_UP_CPU | SERVICE_SCALE_DOWN_CPU => ServiceAllowsVerticalCPU (Some svc) = true
  | SERVICE_SCALE_UP_MEMORY | SERVICE_SCALE_DOWN_MEMORY => ServiceAllowsVerticalMemory (Some svc) = true
  | OTHER_SCALING_ACTION => True
  end.
Proof. by destruct act; simpl; destruct (svc_Scaling svc). Qed.
(** What one of the six service actions may do to a service. *)
Definition scales (act : BatchScalingAction) (a b : Service) : Prop :=
  match act with
  | SERVICE_SCALE_OUT | SERVICE_SCALE_IN => b = a <| svc_Replicas := svc_Replicas b |>
  | SERVICE_SCALE_UP_CPU | SERVICE_SCALE_DOWN_CPU => b = a <| svc_CPUCores := svc_CPUCores b |>
  | SERVICE_SCALE_UP_MEMORY | SERVICE_SCALE_DOWN_MEMORY => b = a <| svc_MemoryMB := svc_MemoryMB b |>
  | OTHER_SCALING_ACTION => False
  end.
Lemma scales_step act a b : ServiceAllowsBatchScalingAction (Some a) act = true → scales act a b → service_step a b.
Proof.
  intros H%allowed_kind Hs.
  destruct act; simpl in Hs; try done; destruct b; simpl in Hs; injection Hs; intros; subst;
    split; intros; try done; congruence.
Qed.
Lemma service_neighbors_ok spec act f l cur nb : (∀ a b, f a = Some b → scales act a b) →
  nb ∈ service_neighbors act f l cur → neighbor_of spec cur nb.
Proof.
  intros Hf (i & Hi & Hc)%list_elem_of_omap. unfold allowed_services in Hi. apply list_elem_of_filter in Hi as [Ha _].
  eapply change_service_ok; [exact Hc|]. intros a b Hl Hb. rewrite Hl in Ha. eapply scales_step; eauto.
Qed.
Lemma host_neighbors_ok spec f cur nb : nb ∈ host_neighbors f cur → neighbor_of spec cur nb.
Proof.
  intros (i & _ & Hc)%list_elem_of_omap. unfold change_host in Hc. rewrite cloneScenario_id in Hc. injection Hc as <-.
  by apply services_same.
Qed.
Lemma behavior_step a b : b = a <| svc_Behavior := svc_Behavior b |> → service_step a b.
Proof. generalize (svc_Behavior b). intros v ->. by split. Qed.
Lemma set_queue_step f a b : set_queue f a = Some b → service_step a b.
Proof.
  unfold set_queue. destruct (svc_Behavior a) as [h|]; [|done]. destruct (sb_Queue h) as [q|]; [|done].
  destruct (f q); intros [= <-]. by apply behavior_step.
Qed.
Lemma set_subscriber_step j f a b : set_subscriber j f a = Some b → service_step a b.
Proof.
  unfold set_subscriber. destruct (svc_Behavior a) as [h|]; [|done]. destruct (sb_Topic h) as [t|]; [|done].
  destruct (tb_Subscribers t !! j) as [s|]; [|done]. destruct (f s); intros [= <-]. by apply behavior_step.
Qed.
Lemma elem_of_concat {A} (x : A) ls : x ∈ concat ls → ∃ l, x ∈ l ∧ l ∈ ls.
Proof.
  induction ls as [|l ls IH]; simpl; [by intros ?%elem_of_nil|].
  intros [H|(l' & ? & ?)%IH]%elem_of_app; [exists l|exists l']; (split; [done|]); [by left|by right].
Qed.
Lemma topic_neighbors_ok spec f cur nb : nb ∈ topic_neighbors f cur → neighbor_of spec cur nb.
Proof.
  unfold topic_neighbors. intros (l & Hl & Hin)%elem_of_concat. apply elem_of_lookup_imap in Hin as (i & svc & -> & _).
  apply list_elem_of_omap in Hl as (j & _ & Hc). eapply change_service_ok; [exact Hc|].
  intros a b _. apply set_subscriber_step.
Qed.
Lemma queue_neighbors_ok spec f cur nb : nb ∈ queue_neighbors f cur → neighbor_of spec cur nb.
Proof.
  intros (i & _ & Hc)%list_elem_of_omap. eapply change_service_ok; [exact Hc|]. intros a b _. apply set_queue_step.
Qed.
Lemma host_count_ok spec cur nb : nb ∈ host_scale_out spec cur ∨ nb ∈ host_scale_in spec cur → neighbor_of spec cur nb.
Proof.
  unfold host_scale_out, host_scale_in. rewrite cloneScenario_id. intros [H|H].
  - destruct (scn_Hosts cur) as [|h0 hs]; [by apply elem_of_nil in H|]. case_match; [by apply elem_of_nil in H|].
    apply list_elem_of_singleton in H as ->. by apply services_same.
  - case_match; [by apply elem_of_nil in H|]. apply list_elem_of_singleton in H as ->. by apply services_same.
Qed.
Create HintDb neighbors.
#[local] Hint Resolve host_neighbors_ok topic_neighbors_ok queue_neighbors_ok host_count_ok : neighbors.
Lemma action_neighbors_ok spec cur m a nb : nb ∈ action_neighbors spec cur m a → neighbor_of spec cur nb.
Proof.
  unfold action_neighbors. intros H.
  repeat match type of H with nb ∈ match ?x with _ => _ end => destruct x; try by apply elem_of_nil in H end;
    eauto with neighbors;
    (eapply service_neighbors_ok; [|exact H]; intros x y; unfold scale_out, scale_in;
     repeat case_match; by intros [= <-]).
Qed.
Lemma frozen_neighbors_ok spec cur nb : nb ∈ workload_neighbors spec cur ++ policy_neighbors spec cur →
  neighbor_of spec cur nb.
Proof.
  unfold workload_neighbors, policy_neighbors. rewrite !cloneScenario_id. intros [H|H]%elem_of_app.
  - destruct (bs_FreezeWorkload spec) eqn:E; [by apply elem_of_nil in H|].
    apply elem_of_concat in H as (l & Hl & Hin). apply list_elem_of_fmap in Hin as (i & -> & _).
    apply list_elem_of_fmap in Hl as (mul & -> & _). apply services_same; try done. by rewrite E.
  - destruct (bs_FreezePolicies spec) eqn:E; [by apply elem_of_nil in H|].
    destruct (scn_Policies cur ≫= pc_Autoscaling); [|by apply elem_of_nil in H].
    apply list_elem_of_singleton in H as ->. apply services_same; try done. by rewrite E.
Qed.
Lemma orderNeighbors_perm spec cur m l : orderNeighborsForExpansion spec cur m l ≡ₚ l.
Proof. unfold orderNeighborsForExpansion. repeat case_match; try done; apply sort_SliceStable_perm. Qed.
Lemma neighbors_ok spec cur m nb : nb ∈ GenerateBatchNeighbors spec cur m →
  admissible spec nb = true ∧ neighbor_of spec cur nb.
Proof.
  unfold GenerateBatchNeighbors. intros H. apply elem_of_take in H as (i & H & _).
  apply list_elem_of_lookup_2 in H. rewrite orderNeighbors_perm in H. apply list_elem_of_filter in H as [Ha H].
  split; [done|]. rewrite elem_of_app in H. destruct H as [H|H]; [|by apply frozen_neighbors_ok].
  apply elem_of_concat in H as (l & Hl & Hin). apply list_elem_of_fmap in Hin as (a & -> & _).
  by eapply action_neighbors_ok.
Qed.
Lemma neighbors_capped spec cur m : len (GenerateBatchNeighbors spec cur m) ≤ max_neighbors spec.
Proof.
  unfold GenerateBatchNeighbors, len, max_neighbors. rewrite length_take. case_match; lia.
Qed.
(** C12: what the search may try next. There are at most as many neighbours as the
    specification allows, and each of them fits on the hosts by the static check, is inside
    the bounds of the specification, differs from the current scenario in at most one
    service (its replicas, CPU and memory only where its scaling policy allows it), and
    leaves a frozen workload and frozen policies as they are. *)
Theorem neighbors_sound spec cur m nb : nb ∈ GenerateBatchNeighbors spec cur m →
  len (GenerateBatchNeighbors spec cur m) ≤ max_neighbors spec ∧
  StaticCapacityOK (Some nb) = true ∧ in_bounds spec nb ∧ neighbor_of spec cur nb.
Proof.
  intros [[Hc Hb]%andb_true_iff Hn]%neighbors_ok. split; [apply neighbors_capped|].
  split_and!; [done|by apply withinBatchBounds_in_bounds|done].
Qed.
(** A scenario of two services on two hosts. *)
Definition sized_service (id : string) (replicas : Z) (memory : float64) : Service :=
  mkService id "" "" replicas "cpu" f1 memory None None None None None [sample_endpoint "/" []].
Definition two_services (memory : float64) : Scenario :=
  mkScenario None None None [mkHostSpec "host-1" 4 16 "" ∅; mkHostSpec "host-3" 4 16 "" ∅]
    [sized_service "api" 2 memory; sized_service "db" 1 memory] [sample_workload "api:/"] None.
Definition two_spec (s : Scenario) : BatchSpec := DefaultBatchSpec (Some s).
Lemma neighbors_sound_witness :
  let s := two_services (f64_of_Z 512) in
  ∃ nb, nb ∈ GenerateBatchNeighbors (two_spec s) s None ∧ in_bounds (two_spec s) nb ∧ neighbor_of (two_spec s) s nb.
Proof.
  cbv zeta.
  assert (E : match GenerateBatchNeighbors (two_spec (two_services (f64_of_Z 512))) (two_services (f64_of_Z 512)) None
              with [] => false | _ => true end = true) by (vm_compute; reflexivity).
  destruct (GenerateBatchNeighbors _ _ _) as [|nb l] eqn:El; [discriminate|]. exists nb. split; [by left|].
  destruct (neighbors_sound (two_spec (two_services (f64_of_Z 512))) (two_services (f64_of_Z 512)) None nb)
    as (_ & _ & H1 & H2); [rewrite El; by left|]. by split.
Defined.
(** The bounds are checked on the values as written, where everything else takes an unset
    CPU or memory for its default. If two services leave their memory unset (or are out of
    bounds in any other way), no change of one service is inside the bounds, and the search
    has no neighbours at all. *)
Theorem unset_memory_leaves_no_neighbors spec cur m i j a b : i ≠ j →
  scn_Services cur !! i = Some a → scn_Services cur !! j = Some b →
  fltb (svc_MemoryMB a) (bs_MinMemPerInst spec) = true → fltb (svc_MemoryMB b) (bs_MinMemPerInst spec) = true →
  GenerateBatchNeighbors spec cur m = [].
Proof.
  intros Hij Ha Hb La Lb. destruct (GenerateBatchNeighbors spec cur m) as [|nb l] eqn:E; [done|]. exfalso.
  destruct (neighbors_ok spec cur m nb) as [[_ Hw]%andb_true_iff Hn]; [rewrite E; by left|].
  apply withinBatchBounds_in_bounds in Hw as (_ & Hs & _). destruct (nb_one _ _ _ Hn) as (k & Hk).
  assert (Hbad : ∀ n x, scn_Services nb !! n = Some x → fltb (svc_MemoryMB x) (bs_MinMemPerInst spec) = true → False).
  { intros n x Hx Hlt. rewrite Forall_forall in Hs. apply list_elem_of_lookup_2 in Hx. apply Hs in Hx as (_ & _ & _ & Hf & _).
    congruence. }
  destruct (decide (i = k)) as [->|]; [apply (Hbad j b)|apply (Hbad i a)]; try done; rewrite Hk by congruence; done.
Qed.
Example unset_memory_blocks_default_search : GenerateBatchNeighbors (two_spec (two_services f0)) (two_services f0) None = [].
Proof. by apply (unset_memory_leaves_no_neighbors _ _ _ 0 1 (sized_service "api" 2 f0) (sized_service "db" 1 f0)). Qed.
(** A new host is named after the number of hosts. With hosts "host-1" and "host-3" it
    becomes a second "host-3", and the neighbour does not validate. *)
Example scale_out_duplicates_host_id :
  let s := two_services (f64_of_Z 512) in
  ∃ nb, nb ∈ host_scale_out (two_spec s) s ∧ ValidateScenario nb = Fail "duplicate host id: host-3".
Proof. eexists. split; [left|]. vm_compute. reflexivity. Qed.
