(* ===== verification/BatchSearch.v ===== *)
(** The beam search over batch candidates ([batch_search.go], [candidate_store.go],
    [orchestrator_batch.go] of [internal/improvement]).

    One evaluation runs simulations and can fail or be cancelled; it is an argument that
    takes and returns the state of the world it runs in, and it may register run IDs in the
    candidate store. [sort.Slice] does not say in which order it leaves elements that its
    comparison does not order; it is an argument of which only the permutation property is
    assumed. The order in which a Go map is visited is an argument as well. *)
From S2P Require Import Prelude GoFloat Utils Policy Config Graph BrokerQueue BatchSpec Instance ResourceManager ServiceModel.
From S2P Require Import ConfigHash RunMetrics BatchNeighbors.
From Stdlib Require Import SpecFloat.
#[local] Open Scope string_scope.
#[local] Open Scope list_scope.
#[local] Open Scope Z_scope.

(** * The candidate store *)

Record BatchCandidateRecord := mkCandidateRecord {
  bcr_ConfigHash : Z;
  bcr_RunID : string;
  bcr_Feasible : bool;
  bcr_ViolationScore : float64;
  bcr_EfficiencyScore : float64;
}.
Record CandidateStore := mkCandidateStore {
  cst_m : gmap Z string;
  cst_batchScores : gmap Z BatchScore;
}.
#[export] Instance eta_CandidateStore : Eta CandidateStore := λ r, mkCandidateStore (cst_m r) (cst_batchScores r).
Definition NewCandidateStore : CandidateStore := mkCandidateStore ∅ ∅.
Definition CandidateStore_Register (h : Z) (runID : string) (c : CandidateStore) : CandidateStore :=
  if (h =? 0) || is_empty runID then c
  else match cst_m c !! h with Some _ => c | None => c <| cst_m := <[h := runID]> (cst_m c) |> end.
Definition CandidateStore_RecordBatchScore (h : Z) (bs : BatchScore) (c : CandidateStore) : CandidateStore :=
  if h =? 0 then c else c <| cst_batchScores := <[h := bs]> (cst_batchScores c) |>.
Definition CandidateStore_Lookup (h : Z) (c : CandidateStore) : option string := cst_m c !! h.
Definition CandidateStore_Len (c : CandidateStore) : Z := Z.of_nat (size (cst_m c)).
(** The run IDs without repetitions, in the order of the visit. *)
Definition CandidateStore_AllRunIDs (order : list Z) (c : CandidateStore) : list string :=
  reverse (foldl (λ acc h, match cst_m c !! h with
                           | Some id => if bool_decide (id ∈ acc) then acc else id :: acc
                           | None => acc
                           end) [] order).
(** The scored candidates, best first. *)
Definition scored_rows (order : list Z) (c : CandidateStore) : list (Z * string * BatchScore) :=
  omap (λ h, match cst_m c !! h, cst_batchScores c !! h with
             | Some id, Some bs => if is_empty id then None else Some (h, id, bs)
             | _, _ => None
             end) order.
Definition sorted_rows (order : list Z) (c : CandidateStore) : list (Z * string * BatchScore) :=
  sort_SliceStable (λ x y, CompareBatchScores x.2 y.2 x.1.1 y.1.1) (scored_rows order c).
Definition CandidateStore_SortedBatchCandidateRunIDs (order : list Z) (c : CandidateStore) : list string :=
  (λ r, r.1.2) <$> sorted_rows order c.
Definition CandidateStore_BatchCandidateRecords (order : list Z) (c : CandidateStore) : list BatchCandidateRecord :=
  (λ r, mkCandidateRecord r.1.1 r.1.2 (sco_Feasible r.2) (sco_ViolationScore r.2) (sco_EfficiencyScore r.2))
    <$> sorted_rows order c.

(** * The search *)

Record beamState := mkBeam {
  bst_scenario : Scenario;
  bst_metrics : option RunMetrics;
  bst_score : BatchScore;
  bst_hash : Z;
  bst_depth : Z;
}.
#[export] Instance eta_beamState : Eta beamState := λ r, mkBeam (bst_scenario r) (bst_metrics r) (bst_score r)
  (bst_hash r) (bst_depth r).
(** [Summary] is kept up to its first number. *)
Record BatchSearchResult := mkSearchResult {
  bsr_BestScenario : Scenario;
  bsr_BestRunID : string;
  bsr_BestScore : BatchScore;
  bsr_Feasible : bool;
  bsr_Summary : string;
  bsr_Evaluations : Z;
  bsr_RefinementEvaluations : Z;
  bsr_CandidateRunIDs : list string;
  bsr_AllFeasibleEmpty : bool;
  bsr_EffectiveMaxEvaluations : Z;
  bsr_BudgetExhausted : bool;
}.
Section search.
  (** The state of the world, an evaluation, and whether the context is done. *)
  Context {W : Type}.
  Context (eval : Scenario → CandidateStore → W → (string + option RunMetrics * Z) * CandidateStore * W).
  Context (ctxErr : W → option string).
  Context (sort : ∀ A : Type, (A → A → bool) → list A → list A) (order : gmap Z string → list Z).
(** The variables the closure [tryEval] shares with the loops. [se_log] is every state
    evaluated so far, the latest first; the code does not keep it. *)
Record search_state := mkSearch {
  se_visited : gset Z;
  se_evalCount : Z;
  se_globalBest : option beamState;
  se_cand : CandidateStore;
  se_world : W;
  se_log : list beamState;
}.
#[export] Instance eta_search_state : Eta search_state := λ r, mkSearch (se_visited r) (se_evalCount r)
  (se_globalBest r) (se_cand r) (se_world r) (se_log r).
Definition reevaluations (spec : BatchSpec) : Z := if bs_ReevalPerCandidate spec <? 1 then 1 else bs_ReevalPerCandidate spec.
Inductive try_result :=
  | TryEvaluated (st : beamState)
  | TryVisited
  | TryBudget
  | TryError (e : string).
Definition beats_best (st : beamState) (best : option beamState) : bool :=
  match best with
  | None => true
  | Some b => CompareBatchScores (bst_score st) (bst_score b) (bst_hash st) (bst_hash b)
  end.
Definition tryEval (spec : BatchSpec) (baseline : Scenario) (maxEvaluations : Z) (sc : Scenario) (s : search_state)
    : try_result * search_state :=
  let h := ConfigHash (Some sc) in
  if bool_decide (h ∈ se_visited s) then (TryVisited, s)
  else
    match ctxErr (se_world s) with
    | Some e => (TryError e, s)
    | None =>
        if (0 <? maxEvaluations) && (maxEvaluations <? wrap64 (se_evalCount s + reevaluations spec)) then (TryBudget, s)
        else
          match eval sc (se_cand s) (se_world s) with
          | (inr (m, cost), cand, w) =>
              let score := ComputeBatchScore spec baseline sc m in
              let st := mkBeam sc m score h 0 in
              (TryEvaluated st,
               s <| se_visited := {[h]} ∪ se_visited s |> <| se_evalCount := wrap64 (se_evalCount s + cost) |>
                 <| se_cand := CandidateStore_RecordBatchScore h score cand |> <| se_world := w |>
                 <| se_globalBest := if beats_best st (se_globalBest s) then Some st else se_globalBest s |>
                 <| se_log := st :: se_log s |>)
          | (inl e, cand, w) => (TryError e, s <| se_cand := cand |> <| se_world := w |>)
          end
    end.
(** A loop over neighbours: the states it adds, or why it stops. *)
Inductive layer := LayerDone (next : list beamState) | LayerBudget | LayerError (e : string).
Section loops.
  Context (spec : BatchSpec) (baseline : Scenario) (maxEvaluations : Z).
Fixpoint try_neighbors (depth : Z) (neighbors : list Scenario) (acc : list beamState) (s : search_state)
    : layer * search_state :=
  match neighbors with
  | [] => (LayerDone acc, s)
  | nsc :: neighbors =>
      match tryEval spec baseline maxEvaluations nsc s with
      | (TryEvaluated ns, s) => try_neighbors depth neighbors (acc ++ [ns <| bst_depth := depth + 1 |>]) s
      | (TryVisited, s) => try_neighbors depth neighbors acc s
      | (TryBudget, s) => (LayerBudget, s)
      | (TryError e, s) => (LayerError e, s)
      end
  end.
Fixpoint expand_frontier (depth : Z) (frontier : list beamState) (acc : list beamState) (s : search_state)
    : layer * search_state :=
  match frontier with
  | [] => (LayerDone acc, s)
  | st :: frontier =>
      match try_neighbors depth (GenerateBatchNeighbors spec (bst_scenario st) (bst_metrics st)) acc s with
      | (LayerDone acc, s) => expand_frontier depth frontier acc s
      | r => r
      end
  end.
Definition beam_width : Z := if bs_BeamWidth spec <? 1 then 8 else bs_BeamWidth spec.
Definition infeasible_width : Z := if bs_InfeasibleBeamWidth spec <? 1 then 4 else bs_InfeasibleBeamWidth spec.
(** The best feasible and the best infeasible states. *)
Definition select_beam (next : list beamState) : list beamState :=
  let best l := sort beamState (λ a b, CompareBatchScores (bst_score a) (bst_score b) (bst_hash a) (bst_hash b)) l in
  take (Z.to_nat beam_width) (best (filter (λ st, sco_Feasible (bst_score st) = true) next)) ++
  take (Z.to_nat infeasible_width) (best (filter (λ st, sco_Feasible (bst_score st) = false) next)).
Definition depth_limit : Z := if bs_MaxSearchDepth spec <? 1 then 1 else bs_MaxSearchDepth spec.
(** The layers; [inr true] when the budget is exhausted. *)
Fixpoint beam_layers (n : nat) (depth : Z) (frontier : list beamState) (s : search_state)
    : (string + bool) * search_state :=
  match n with
  | O => (inr false, s)
  | S n =>
      match expand_frontier depth frontier [] s with
      | (LayerDone [], s) => (inr false, s)
      | (LayerDone next, s) => beam_layers n (depth + 1) (select_beam next) s
      | (LayerBudget, s) => (inr true, s)
      | (LayerError e, s) => (inl e, s)
      end
  end.
(** Local refinement around the best state found. *)
Definition refine (s : search_state) : (string + bool) * search_state :=
  match bs_EnableLocalRefinement spec, se_globalBest s with
  | true, Some best =>
      match try_neighbors 0 (GenerateBatchNeighbors (BatchSpec_RefinementSpec spec) (bst_scenario best) (bst_metrics best)) [] s with
      | (LayerDone _, s) => (inr false, s)
      | (LayerBudget, s) => (inr true, s)
      | (LayerError e, s) => (inl e, s)
      end
  | _, _ => (inr false, s)
  end.
Definition search_result (budget : bool) (beamEvalCount : Z) (best : beamState) (s : search_state) : BatchSearchResult :=
  let h := ConfigHash (Some (cloneScenario (bst_scenario best))) in
  let feasible := sco_Feasible (bst_score best) in
  {| bsr_BestScenario := cloneScenario (bst_scenario best);
     bsr_BestScore := bst_score best;
     bsr_Feasible := feasible;
     bsr_Evaluations := se_evalCount s;
     bsr_RefinementEvaluations := wrap64 (se_evalCount s - beamEvalCount);
     bsr_CandidateRunIDs := CandidateStore_SortedBatchCandidateRunIDs (order (cst_m (se_cand s))) (se_cand s);
     bsr_EffectiveMaxEvaluations := maxEvaluations;
     bsr_BudgetExhausted := budget;
     bsr_BestRunID := if h =? 0 then "" else default "" (CandidateStore_Lookup h (se_cand s));
     bsr_Summary := if feasible then "feasible candidate violation="
                    else "no feasible candidate in search; least-violating violation=";
     bsr_AllFeasibleEmpty := negb feasible |}.
(** The search; after the evaluation of the baseline there is always a best state
    ([search_best_some] below), so that the last branch, where the code would follow a nil
    scenario, is not taken. *)
Definition RunBatchBeamSearch (cand : option CandidateStore) (w : W) : go BatchSearchResult * search_state :=
  let s := mkSearch ∅ 0 None (default NewCandidateStore cand) w [] in
  match tryEval spec baseline maxEvaluations (cloneScenario baseline) s with
  | (TryError e, s) => (Fail e, s)
  | (TryBudget, s) => (Fail "batch evaluation budget exhausted", s)
  | (TryVisited, s) => (Fail "baseline duplicate or empty", s)
  | (TryEvaluated baseSt, s) =>
      match beam_layers (Z.to_nat depth_limit) 0 [baseSt <| bst_depth := 0 |>] s with
      | (inl e, s) => (Fail e, s)
      | (inr budget, s) =>
          let beamEvalCount := se_evalCount s in
          match refine s with
          | (inl e, s) => (Fail e, s)
          | (inr budget', s) =>
              match se_globalBest s with
              | Some best => (Ok (search_result (budget || budget') beamEvalCount best s), s)
              | None => (Panic, s)
              end
          end
      end
  end.
End loops.
End search.
