(* ===== verification/BatchSearchSpec.v ===== *)
(** What the beam search guarantees, whatever its evaluations return: how many simulations
    it starts, which scenarios it may look at, and that the candidate it returns is the best
    of those it evaluated. *)
From S2P Require Import Prelude GoFloat Utils Policy Config Graph BrokerQueue BatchSpec Instance ResourceManager ServiceModel.
From S2P Require Import ConfigHash RunMetrics BatchNeighbors BatchSearch.
From Stdlib Require Import SpecFloat.
#[local] Open Scope string_scope.
#[local] Open Scope list_scope.
#[local] Open Scope Z_scope.

(** * The order on scores *)

Definition score_key : Type := BatchScore * Z.
Definition better (a b : score_key) : bool := CompareBatchScores a.1 b.1 a.2 b.2.
Definition key_of (st : beamState) : score_key := (bst_score st, bst_hash st).
(** The tolerance of the comparison does not matter for these keys: two scores are either
    equal or further apart than the tolerance. *)
Definition apart (x y : float64) : Prop := fgt (math_Abs (fsub x y)) scoreEps = negb (feqb x y).
Definition separated (l : list score_key) : Prop :=
  ∀ a b, a ∈ l → b ∈ l → apart (sco_ViolationScore a.1) (sco_ViolationScore b.1) ∧
    apart (sco_EfficiencyScore a.1) (sco_EfficiencyScore b.1).
Definition plain_score (a : score_key) : Prop :=
  plain (sco_ViolationScore a.1) = true ∧ plain (sco_EfficiencyScore a.1) = true.
(** Feasible first, then the smaller violation, then the smaller efficiency score, then the hash. *)
Definition key_differ (a b : score_key) : option bool :=
  chain [differ_b (negb (sco_Feasible a.1)) (negb (sco_Feasible b.1));
         differ_f (sco_ViolationScore a.1) (sco_ViolationScore b.1);
         differ_f (sco_EfficiencyScore a.1) (sco_EfficiencyScore b.1); differ_z a.2 b.2].
Lemma ordered_b : ordered (λ _, True) differ_b.
Proof.
  apply (ordered_ext _ (λ x y, if Bool.eqb x y then None else Some (negb x && y))); [done|].
  apply ordered_strict; [intros; apply Bool.eqb_true_iff|..]; intros;
    repeat match goal with b : bool |- _ => destruct b end; done.
Qed.
Lemma ordered_key : ordered plain_score key_differ.
Proof.
  unfold key_differ, chain. repeat apply ordered_then_all.
  - by apply (ordered_proj (λ a : score_key, negb (sco_Feasible a.1)) _ (λ _, True)), ordered_b.
  - apply (ordered_proj (λ a : score_key, sco_ViolationScore a.1) _ (λ x, plain x = true)), ordered_f. by intros ? [].
  - apply (ordered_proj (λ a : score_key, sco_EfficiencyScore a.1) _ (λ x, plain x = true)), ordered_f. by intros ? [].
  - by apply (ordered_proj (λ a : score_key, a.2) _ (λ _, True)), ordered_z.
  - apply ordered_none.
Qed.
(** On separated scores the comparison is that lexicographic order. *)
Lemma better_lexicographic l a b : separated l → a ∈ l → b ∈ l →
  better a b = match key_differ a b with Some c => c | None => false end.
Proof.
  intros Hs Ha Hb. destruct (Hs a b Ha Hb) as [Hv He]. unfold better, CompareBatchScores, key_differ, chain.
  unfold apart in *. rewrite Hv, He. unfold differ_b, differ_f, differ_z.
  generalize (fltb (sco_ViolationScore a.1) (sco_ViolationScore b.1)), (feqb (sco_ViolationScore a.1) (sco_ViolationScore b.1)),
    (fltb (sco_EfficiencyScore a.1) (sco_EfficiencyScore b.1)), (feqb (sco_EfficiencyScore a.1) (sco_EfficiencyScore b.1)).
  intros lv ev le ee. assert (Hh : (a.2 <? b.2) = match (if a.2 =? b.2 then None else Some (a.2 <? b.2)) with
    | Some c => c | None => false end) by (destruct (Z.eqb_spec a.2 b.2) as [->|]; [apply Z.ltb_irrefl|done]).
  clear Hv He.
  destruct (sco_Feasible a.1), (sco_Feasible b.1), ev, ee; simpl; try reflexivity;
    rewrite Hh; by destruct (a.2 =? b.2).
Qed.

(** * The best state of a log *)

Definition best_of (log : list beamState) : option beamState :=
  foldr (λ st acc, if beats_best st acc then Some st else acc) None log.
Lemma best_of_elem log best : best_of log = Some best → best ∈ log.
Proof.
  revert best. induction log as [|st log IH]; simpl; [done|]. intros best.
  case_match; [intros [= <-]; left|]. intros Hb. right. by apply IH.
Qed.
Lemma best_of_some log : log ≠ [] → ∃ best, best_of log = Some best.
Proof.
  destruct log as [|st log]; [done|]. intros _. simpl. destruct (beats_best st (best_of log)) eqn:E; [by eexists|].
  destruct (best_of log); [by eexists|done].
Qed.
(** Feasibility decides a comparison first. *)
Lemma compare_feasible a b ha hb : CompareBatchScores a b ha hb = true → sco_Feasible b = true → sco_Feasible a = true.
Proof. unfold CompareBatchScores. intros H Hb. rewrite Hb in H. by destruct (sco_Feasible a). Qed.
Lemma compare_infeasible a b ha hb : CompareBatchScores a b ha hb = false → sco_Feasible a = true → sco_Feasible b = true.
Proof. unfold CompareBatchScores. intros H Ha. rewrite Ha in H. by destruct (sco_Feasible b). Qed.
(** The best state is feasible as soon as one state is. *)
Lemma best_of_feasible log best st : best_of log = Some best → st ∈ log →
  sco_Feasible (bst_score st) = true → sco_Feasible (bst_score best) = true.
Proof.
  revert best st. induction log as [|x log IH]; simpl; [by intros ??? ?%not_elem_of_nil|]. intros best st H Hin Hf.
  destruct (best_of log) as [b|] eqn:Eb; simpl in H.
  - destruct (CompareBatchScores _ _ _ _) eqn:E; injection H as <-; apply elem_of_cons in Hin as [->|Hin]; try done.
    + eapply compare_feasible; [exact E|]. by eapply IH.
    + by eapply compare_infeasible.
    + by eapply IH.
  - injection H as <-. apply elem_of_cons in Hin as [->|Hin]; [done|].
    destruct (best_of_some log) as [? Hb]; [by intros ->; apply not_elem_of_nil in Hin|congruence].
Qed.
(** No state of the log beats the best one. *)
Lemma best_of_unbeaten log best st : separated (key_of <$> log) → Forall (plain_score ∘ key_of) log →
  best_of log = Some best → st ∈ log → better (key_of st) (key_of best) = false.
Proof.
  revert best st. induction log as [|x log IH]; simpl; [done|]. intros best st Hsep Hp H Hin.
  pose proof (Forall_cons_1 _ _ _ Hp) as [Hx Hp'].
  assert (Hsep' : separated (key_of <$> log)) by (intros ????; apply Hsep; by right).
  assert (Hlex : ∀ a b, a ∈ x :: log → b ∈ x :: log → better (key_of a) (key_of b) =
      match key_differ (key_of a) (key_of b) with Some c => c | None => false end).
  { intros. apply (better_lexicographic (key_of <$> x :: log)); [done|by apply list_elem_of_fmap_2..]. }
  assert (Hpl : ∀ a, a ∈ x :: log → plain_score (key_of a)) by (by apply Forall_forall).
  pose proof ordered_key as Ho.
  assert (Hself : ∀ a, a ∈ x :: log → better (key_of a) (key_of a) = false).
  { intros a Ha. rewrite Hlex by done. by rewrite (ordered_refl _ _ _ Ho) by auto. }
  destruct (best_of log) as [b|] eqn:Eb; simpl in H.
  2: { injection H as <-. apply elem_of_cons in Hin as [->|Hin]; [apply Hself; by left|].
       destruct (best_of_some log) as [? Hb]; [by intros ->; apply not_elem_of_nil in Hin|congruence]. }
  assert (Hb : b ∈ log) by (by apply best_of_elem).
  change (CompareBatchScores _ _ _ _) with (better (key_of x) (key_of b)) in H.
  destruct (better (key_of x) (key_of b)) eqn:E; injection H as <-.
  - apply elem_of_cons in Hin as [->|Hin]; [apply Hself; by left|].
    pose proof (IH b st Hsep' Hp' eq_refl Hin) as Hbs.
    rewrite Hlex in E, Hbs |- * by (first [by left | by right]).
    destruct (key_differ (key_of st) (key_of x)) as [[]|] eqn:Esx; [|done..]. exfalso.
    assert (Hxb : key_differ (key_of x) (key_of b) = Some true) by (revert E; destruct (key_differ (key_of x) (key_of b)) as [[]|]; congruence).
    destruct (ord_trans _ _ Ho (key_of st) (key_of x) (key_of b)) as [_ Ht];
      [by apply Hpl; first [by left|by right]..|congruence|congruence|]. rewrite Ht in Hbs by (by left). done.
  - apply elem_of_cons in Hin as [->|Hin]; [done|]. by apply IH.
Qed.

(** * What the search may look at *)

(** The scenarios that steps inside the bounds lead to. *)
Inductive search_reach (spec : BatchSpec) (base : Scenario) : Scenario → Prop :=
  | reach_base : search_reach spec base base
  | reach_step a b : search_reach spec base a → neighbor_of spec a b → in_bounds spec b →
      StaticCapacityOK (Some b) = true → search_reach spec base b.
Lemma neighbors_reach spec base cur m : search_reach spec base cur →
  Forall (search_reach spec base) (GenerateBatchNeighbors spec cur m).
Proof.
  intros Hr. apply Forall_forall. intros nb [[Hc Hb]%andb_true_iff Hn]%neighbors_ok.
  apply (reach_step spec base cur); [done..| |done]. by apply withinBatchBounds_in_bounds.
Qed.
(** The refinement specification has the same bounds and freezes the same parts. *)
Lemma refinement_reach spec base cur m : search_reach spec base cur →
  Forall (search_reach spec base) (GenerateBatchNeighbors (BatchSpec_RefinementSpec spec) cur m).
Proof.
  intros Hr. apply Forall_forall. intros nb [[Hc Hb]%andb_true_iff Hn]%neighbors_ok.
  apply (reach_step spec base cur); [done|by destruct Hn; split| |done].
  apply withinBatchBounds_in_bounds in Hb. exact Hb.
Qed.

Section guarantees.
  Context {W : Type}.
  Context (eval : Scenario → CandidateStore → W → (string + option RunMetrics * Z) * CandidateStore * W).
  Context (ctxErr : W → option string).
  Context (sort : ∀ A : Type, (A → A → bool) → list A → list A) (order : gmap Z string → list Z).
  Context (spec : BatchSpec) (baseline : Scenario) (maxEvaluations : Z).
  (** An evaluation reports the simulations it has run, [sort.Slice] permutes its argument,
      and the numbers come from 32-bit fields. *)
  Context (eval_cost : ∀ sc c w m cost c' w', eval sc c w = (inr (m, cost), c', w') → cost = reevaluations spec).
  Context (sort_perm : ∀ A lt (l : list A), sort A lt l ≡ₚ l).
  Context (evaluations_range : maxEvaluations ≤ 2147483647) (reeval_range : bs_ReevalPerCandidate spec ≤ 2147483647).
  (** The simulations started in a world; an evaluation, failed or not, starts at most one per re-evaluation. *)
  Context (sims : W → Z) (w0 : W).
  Context (eval_sims : ∀ sc c w r c' w', eval sc c w = (r, c', w') → sims w' ≤ sims w + reevaluations spec).
  Implicit Types s : search_state (W := W).

Definition logged (st : beamState) : Prop :=
  bst_hash st = ConfigHash (Some (bst_scenario st)) ∧
  bst_score st = ComputeBatchScore spec baseline (bst_scenario st) (bst_metrics st) ∧
  search_reach spec baseline (bst_scenario st).
Record search_inv s : Prop := {
  si_count : se_evalCount s = wrap64 (reevaluations spec * len (se_log s));
  si_budget : 0 < maxEvaluations → reevaluations spec * len (se_log s) ≤ maxEvaluations;
  si_hashes : NoDup (bst_hash <$> se_log s);
  si_visited : ∀ h, h ∈ se_visited s ↔ h ∈ bst_hash <$> se_log s;
  si_best : se_globalBest s = best_of (se_log s);
  si_log : Forall logged (se_log s);
  si_spent : 0 < maxEvaluations → sims (se_world s) ≤ sims w0 + maxEvaluations;
}.
(** While no evaluation has failed, every simulation belongs to a logged one. *)
Definition on_track s : Prop := sims (se_world s) ≤ sims w0 + reevaluations spec * len (se_log s).
Definition live s : Prop := search_inv s ∧ on_track s.
Lemma reevaluations_range : 1 ≤ reevaluations spec ≤ 2147483647.
Proof. unfold reevaluations. case_match; lia. Qed.
(** One more candidate would exceed the cap. *)
Definition exhausted s : Prop := 0 < maxEvaluations < reevaluations spec * (len (se_log s) + 1).
(** How far the log grows. *)
Definition grows (n : nat) s s' : Prop := (length (se_log s) ≤ length (se_log s') ≤ length (se_log s) + n)%nat.
Lemma budget_guard s : search_inv s →
  (0 <? maxEvaluations) && (maxEvaluations <? wrap64 (se_evalCount s + reevaluations spec)) = true ↔ exhausted s.
Proof.
  intros [Hc Hb _ _ _ _ _]. pose proof reevaluations_range. unfold exhausted. rewrite andb_true_iff, !Z.ltb_lt, Hc.
  rewrite wrap64_add. split; intros [Hm H']; specialize (Hb Hm); (split; [done|]); unfold len in *;
    rewrite wrap64_id in * by (unfold in_int64, int64_min, int64_max; lia); lia.
Qed.
Lemma tryEval_inv sc s r s' : live s → search_reach spec baseline sc →
  tryEval eval ctxErr spec baseline maxEvaluations sc s = (r, s') →
  search_inv s' ∧ grows 1 s s' ∧
  match r with
  | TryEvaluated st => on_track s' ∧ bst_scenario st = sc ∧ se_log s' = st :: se_log s
  | TryVisited => on_track s'
  | TryBudget => on_track s' ∧ exhausted s'
  | TryError _ => True
  end.
Proof.
  intros [Hi Ht] Hr. pose proof (budget_guard s Hi) as Hg. unfold tryEval, grows.
  case_bool_decide as Hv; [intros [= <- <-]; split_and!; [done|lia|lia|done]|].
  destruct (ctxErr (se_world s)); [intros [= <- <-]; split_and!; [done|lia|lia|done]|].
  destruct ((0 <? maxEvaluations) && _) eqn:Eb.
  { intros [= <- <-]. split_and!; [done|lia|lia|done|]. by apply Hg. }
  destruct (eval sc (se_cand s) (se_world s)) as [[res c] w] eqn:Ev. pose proof (eval_sims _ _ _ _ _ _ Ev) as Hsims.
  assert (Hfit : 0 < maxEvaluations → reevaluations spec * (len (se_log s) + 1) ≤ maxEvaluations).
  { intros Hm. apply Z.le_ngt. intros Hx. by discriminate (proj2 Hg); split. }
  unfold on_track in *. destruct res as [e|[m cost]]; intros [= <- <-]; simpl.
  { split_and!; [|lia|lia|done]. destruct Hi; split; simpl; try done. intros Hm. specialize (Hfit Hm). lia. }
  apply eval_cost in Ev as ->. pose proof reevaluations_range. unfold len in *.
  destruct Hi as [Hc Hb Hn Hvis Hbest Hlog _]. split_and!; [|lia|lia|simpl; lia|done|done]. split; simpl.
  - rewrite Hc, wrap64_add. unfold len. f_equal. simpl. lia.
  - intros Hm. specialize (Hfit Hm). unfold len. simpl. lia.
  - constructor; [by rewrite <-Hvis|done].
  - intros h. rewrite elem_of_union, elem_of_singleton, elem_of_cons, Hvis. done.
  - by rewrite Hbest.
  - constructor; [done|done].
  - intros Hm. specialize (Hfit Hm). lia.
Qed.
Definition reached (st : beamState) : Prop := search_reach spec baseline (bst_scenario st).
(** A loop keeps the invariant, evaluates at most [n] candidates and adds reached states. *)
Definition loop_ok (n : nat) s (r : layer * search_state) : Prop :=
  search_inv r.2 ∧ grows n s r.2 ∧ match r.1 with
  | LayerDone next => on_track r.2 ∧ Forall reached next
  | LayerBudget => on_track r.2 ∧ exhausted r.2
  | LayerError _ => True
  end.
Lemma loop_ok_after m n k s s' r : grows m s s' → loop_ok n s' r → (m + n ≤ k)%nat → loop_ok k s r.
Proof. unfold loop_ok, grows. intros ? (? & ? & ?) ?. split_and!; [done|lia|lia|done]. Qed.
Lemma loop_ok_stop m k s s' r : search_inv s' → grows m s s' → (m ≤ k)%nat →
  match r with
  | LayerDone next => on_track s' ∧ Forall reached next
  | LayerBudget => on_track s' ∧ exhausted s'
  | LayerError _ => True
  end →
  loop_ok k s (r, s').
Proof. unfold loop_ok, grows. intros ????. split_and!; [done|simpl; lia|simpl; lia|done]. Qed.
Lemma grows_refl s : grows 0 s s.
Proof. unfold grows. lia. Qed.
Lemma try_neighbors_ok depth nbs acc s : live s → Forall (search_reach spec baseline) nbs → Forall reached acc →
  loop_ok (length nbs) s (try_neighbors eval ctxErr spec baseline maxEvaluations depth nbs acc s).
Proof.
  intros Hi Hn Ha. revert acc s Hi Ha. induction Hn as [|sc nbs Hsc Hn IH]; intros acc s Hi Ha; simpl.
  { destruct Hi. by eapply loop_ok_stop; [|apply grows_refl|..]. }
  destruct (tryEval _ _ _ _ _ _ _) as [r s'] eqn:E. apply tryEval_inv in E as (Hi' & Hg & Hr); [|done..].
  destruct r as [st| | |].
  - destruct Hr as (Ht & <- & _). eapply loop_ok_after; [exact Hg|apply IH; [done|]|lia].
    apply Forall_app; split; [done|]. by constructor.
  - eapply loop_ok_after; [exact Hg|by apply IH|lia].
  - eapply loop_ok_stop; [done|exact Hg|lia|done].
  - eapply loop_ok_stop; [done|exact Hg|lia|done].
Qed.
Lemma neighbors_length sp cur m : (length (GenerateBatchNeighbors sp cur m) ≤ Z.to_nat (max_neighbors sp))%nat.
Proof. pose proof (neighbors_capped sp cur m) as H. unfold len in H. lia. Qed.
Lemma expand_frontier_ok depth frontier acc s : live s → Forall reached frontier → Forall reached acc →
  loop_ok (length frontier * Z.to_nat (max_neighbors spec)) s
    (expand_frontier eval ctxErr spec baseline maxEvaluations depth frontier acc s).
Proof.
  intros Hi Hf Ha. revert acc s Hi Ha. induction Hf as [|st frontier Hst Hf IH]; intros acc s Hi Ha; simpl.
  { destruct Hi. by eapply loop_ok_stop; [|apply grows_refl|..]; [|lia|]. }
  pose proof (try_neighbors_ok depth (GenerateBatchNeighbors spec (bst_scenario st) (bst_metrics st)) acc s Hi
    (neighbors_reach _ _ _ _ Hst) Ha) as (H1 & H2 & H3).
  pose proof (neighbors_length spec (bst_scenario st) (bst_metrics st)).
  destruct (try_neighbors _ _ _ _ _ _ _ _ _) as [[next| |e] s'] eqn:E; cbn [fst snd] in *.
  - destruct H3. eapply loop_ok_after; [exact H2|by apply IH|lia].
  - eapply loop_ok_stop; [done|exact H2|lia|done].
  - eapply loop_ok_stop; [done|exact H2|lia|done].
Qed.
Definition width : nat := Z.to_nat (beam_width spec) + Z.to_nat (infeasible_width spec).
Lemma select_beam_ok next : Forall reached next →
  Forall reached (select_beam sort spec next) ∧ (length (select_beam sort spec next) ≤ width)%nat.
Proof.
  intros Hf. unfold select_beam, width. rewrite length_app, !length_take. split; [|lia].
  apply Forall_app; split; apply Forall_take; rewrite sort_perm; apply Forall_forall;
    intros st [_ Hin]%list_elem_of_filter; rewrite Forall_forall in Hf; by apply Hf.
Qed.
Lemma beam_layers_ok n depth frontier s : live s → Forall reached frontier → (length frontier ≤ width)%nat →
  let '(r, s') := beam_layers eval ctxErr sort spec baseline maxEvaluations n depth frontier s in
  search_inv s' ∧ grows (n * (width * Z.to_nat (max_neighbors spec))) s s' ∧
  match r with inr budget => on_track s' ∧ (budget = true → exhausted s') | inl _ => True end.
Proof.
  revert depth frontier s. induction n as [|n IH]; intros depth frontier s Hi Hf Hw; simpl.
  { destruct Hi. split_and!; [done|unfold grows; lia..|done|done]. }
  pose proof (expand_frontier_ok depth frontier [] s Hi Hf (Forall_nil_2 _)) as (H1 & H2 & H3).
  pose proof (Nat.mul_le_mono_r _ _ (Z.to_nat (max_neighbors spec)) Hw).
  destruct (expand_frontier _ _ _ _ _ _ _ _ _) as [[next| |e] s'] eqn:E; cbn [fst snd] in *;
    [|destruct H3; split_and!; [done|unfold grows in *; lia..|done|done]|split_and!; [done|unfold grows in *; lia..|done]].
  destruct H3 as [Ht H3]. destruct next as [|st next]; [split_and!; [done|unfold grows in *; lia..|done|done]|].
  destruct (select_beam_ok (st :: next) H3) as [Hs Hl].
  specialize (IH (depth + 1) (select_beam sort spec (st :: next)) s' (conj H1 Ht) Hs Hl).
  destruct (beam_layers _ _ _ _ _ _ _ _ _ _) as [r s'']. destruct IH as (G1 & G2 & G3). split_and!; [done|unfold grows in *; lia..|done].
Qed.
Lemma refine_ok s : live s →
  let '(r, s') := refine eval ctxErr spec baseline maxEvaluations s in
  search_inv s' ∧ grows (Z.to_nat (max_neighbors (BatchSpec_RefinementSpec spec))) s s' ∧
  match r with inr budget => on_track s' ∧ (budget = true → exhausted s') | inl _ => True end.
Proof.
  intros [Hi Ht]. unfold refine. assert (Hz : search_inv s ∧
    grows (Z.to_nat (max_neighbors (BatchSpec_RefinementSpec spec))) s s ∧ on_track s ∧ (false = true → exhausted s))
    by (split_and!; [done|unfold grows; lia..|done|done]).
  destruct (bs_EnableLocalRefinement spec); [|done]. destruct (se_globalBest s) as [best|] eqn:Eb; [|done].
  assert (Hr : reached best).
  { rewrite (si_best _ Hi) in Eb. apply best_of_elem in Eb. pose proof (si_log _ Hi) as Hl.
    rewrite Forall_forall in Hl. by destruct (Hl best Eb) as (_ & _ & ?). }
  pose proof (try_neighbors_ok 0 _ [] s (conj Hi Ht) (refinement_reach _ _ _ (bst_metrics best) Hr) (Forall_nil_2 _)) as (H1 & H2 & H3).
  pose proof (neighbors_length (BatchSpec_RefinementSpec spec) (bst_scenario best) (bst_metrics best)).
  destruct (try_neighbors _ _ _ _ _ _ _ _ _) as [[] s']; cbn [fst snd] in *; unfold grows in *;
    [destruct H3; split_and!; [done|lia..|done|done]|destruct H3; split_and!; [done|lia..|done|done]|
     split_and!; [done|lia..|done]].
Qed.
(** The most candidates a search evaluates: the baseline, the neighbours of the states of
    every layer, and the neighbours of the best state. *)
Definition search_bound : nat :=
  1 + Z.to_nat (depth_limit spec) * (width * Z.to_nat (max_neighbors spec)) +
  Z.to_nat (max_neighbors (BatchSpec_RefinementSpec spec)).
Definition run cand := RunBatchBeamSearch eval ctxErr sort order spec baseline maxEvaluations cand w0.
Lemma initial_inv cand : live (mkSearch ∅ 0 None cand w0 []).
Proof.
  split; [|unfold on_track, len; simpl; lia].
  split; simpl; [|unfold len; simpl; lia|constructor| |done|constructor|lia].
  - unfold len. simpl. by rewrite Z.mul_0_r.
  - intros h. split; intros H; [by apply elem_of_empty in H|by apply not_elem_of_nil in H].
Qed.
Lemma width_pos : (1 ≤ width)%nat.
Proof. unfold width, beam_width. case_match; lia. Qed.
Lemma search_best_some s best : search_inv s → se_globalBest s = Some best → best_of (se_log s) = Some best ∧ best ∈ se_log s.
Proof. intros Hi Hb. rewrite (si_best _ Hi) in Hb. split; [done|by apply best_of_elem]. Qed.
Lemma search_ok cand :
  let '(r, s) := run cand in
  search_inv s ∧ (length (se_log s) ≤ search_bound)%nat ∧
  match r with
  | Ok res => ∃ best beam budget, res = search_result order maxEvaluations budget beam best s ∧
      se_globalBest s = Some best ∧ (budget = true → exhausted s)
  | Fail _ => True
  | Panic => False
  end.
Proof.
  unfold run, RunBatchBeamSearch. rewrite cloneScenario_id.
  destruct (tryEval _ _ _ _ _ _ _) as [r0 s0] eqn:E0.
  apply tryEval_inv in E0 as (Hi & Hg & Hr); [|apply initial_inv|constructor].
  unfold grows in Hg. simpl in Hg. unfold search_bound.
  destruct r0 as [st| | |]; [|split_and!; [done|lia|done]..]. destruct Hr as (Ht & Hst & Hlog).
  pose proof (beam_layers_ok (Z.to_nat (depth_limit spec)) 0 [st <| bst_depth := 0 |>] s0 (conj Hi Ht)) as Hb.
  assert (Hf : Forall reached [st <| bst_depth := 0 |>]) by (constructor; [unfold reached; simpl; rewrite Hst|]; constructor).
  specialize (Hb Hf width_pos). clear Hf.
  destruct (beam_layers _ _ _ _ _ _ _ _ _ _) as [[e|budget] s1]; destruct Hb as (Hi1 & Hg1 & Hx1);
    unfold grows in Hg1; [split_and!; [done|lia|done]|].
  destruct Hx1 as [Ht1 Hx1]. pose proof (refine_ok s1 (conj Hi1 Ht1)) as Hb.
  destruct (refine _ _ _ _ _ _) as [[e|budget'] s2]; destruct Hb as (Hi2 & Hg2 & Hx2);
    unfold grows in Hg2; [split_and!; [done|lia|done]|].
  destruct (se_globalBest s2) as [best|] eqn:Eb.
  - split_and!; [done|lia|]. exists best, (se_evalCount s1), (budget || budget'). split_and!; [done..|].
    intros [->| ->]%orb_true_iff; [|by apply (proj2 Hx2)]. specialize (Hx1 eq_refl). unfold exhausted, len in *.
    pose proof reevaluations_range. nia.
  - destruct (best_of_some (se_log s2)) as [b Hb].
    { intros E. rewrite E, Hlog in *. simpl in *. lia. }
    rewrite (si_best _ Hi2) in Eb. congruence.
Qed.
(** C13: the search stays within its budget. Whatever the evaluations return and wherever the
    search stops, it has evaluated no scenario twice (by hash) and at most the baseline, the
    neighbours of every state of every layer and the neighbours of the best state; with a cap
    the simulations started, those of a failed evaluation included, do not exceed it. The result reports their number, and
    says that the budget is exhausted only if one more candidate would exceed the cap. *)
Theorem batch_search_budget cand r s :
  RunBatchBeamSearch eval ctxErr sort order spec baseline maxEvaluations cand w0 = (r, s) →
  NoDup ((λ st, ConfigHash (Some (bst_scenario st))) <$> se_log s) ∧ (length (se_log s) ≤ search_bound)%nat ∧
  (0 < maxEvaluations → sims (se_world s) ≤ sims w0 + maxEvaluations) ∧
  r ≠ Panic ∧
  (∀ res, r = Ok res → bsr_Evaluations res = wrap64 (reevaluations spec * len (se_log s)) ∧
    (bsr_BudgetExhausted res = true → 0 < maxEvaluations < reevaluations spec * (len (se_log s) + 1))).
Proof.
  intros E. pose proof (search_ok cand) as H. unfold run in H. rewrite E in H. destruct H as (Hi & Hl & Hr).
  split_and!; [|done|apply Hi|by intros ->|].
  - rewrite (list_fmap_ext _ bst_hash (se_log s)); [apply Hi|].
    intros i st Hst%list_elem_of_lookup_2. pose proof (si_log _ Hi) as Hlog. rewrite Forall_forall in Hlog.
    symmetry. by apply Hlog.
  - intros res ->. destruct Hr as (best & beam & budget & -> & _ & Hx). split; [apply Hi|exact Hx].
Qed.
End guarantees.

Section best.
  Context {W : Type}.
  Context (eval : Scenario → CandidateStore → W → (string + option RunMetrics * Z) * CandidateStore * W).
  Context (ctxErr : W → option string).
  Context (sort : ∀ A : Type, (A → A → bool) → list A → list A) (order : gmap Z string → list Z).
  Context (spec : BatchSpec) (baseline : Scenario) (maxEvaluations : Z).
  Context (eval_cost : ∀ sc c w m cost c' w', eval sc c w = (inr (m, cost), c', w') → cost = reevaluations spec).
  Context (sort_perm : ∀ A lt (l : list A), sort A lt l ≡ₚ l).
  Context (evaluations_range : maxEvaluations ≤ 2147483647) (reeval_range : bs_ReevalPerCandidate spec ≤ 2147483647).
(** C14: the search returns the best of what it evaluated. The scenario it returns is one it
    evaluated, reported with its own score; it comes from the baseline by steps that stay
    inside the bounds and fit the hosts; and it is feasible exactly if an evaluated scenario
    is. If no two scores are closer than the tolerance of the comparison without being equal,
    no evaluated scenario is better. *)
Theorem batch_search_best cand w res s :
  RunBatchBeamSearch eval ctxErr sort order spec baseline maxEvaluations cand w = (Ok res, s) →
  ∃ best, best ∈ se_log s ∧ bsr_BestScenario res = bst_scenario best ∧
    bsr_BestScore res = ComputeBatchScore spec baseline (bst_scenario best) (bst_metrics best) ∧
    search_reach spec baseline (bsr_BestScenario res) ∧
    (bsr_Feasible res = true ↔ ∃ st, st ∈ se_log s ∧ sco_Feasible (bst_score st) = true) ∧
    (separated (key_of <$> se_log s) → Forall (plain_score ∘ key_of) (se_log s) →
     ∀ st, st ∈ se_log s → CompareBatchScores (bst_score st) (bsr_BestScore res) (bst_hash st) (bst_hash best) = false).
Proof.
  intros E. pose proof (search_ok eval ctxErr sort order spec baseline maxEvaluations eval_cost sort_perm evaluations_range
    reeval_range (λ _, 0) w) as H.
  specialize (H ltac:(intros; pose proof (reevaluations_range spec reeval_range); simpl; lia) cand). unfold run in H. rewrite E in H.
  destruct H as (Hi & _ & best & beam & budget & -> & Hb & _).
  destruct (search_best_some _ _ _ _ _ s best Hi Hb) as [Hof Hin]. pose proof (si_log _ _ _ _ _ _ Hi) as Hlog.
  rewrite Forall_forall in Hlog. destruct (Hlog best Hin) as (Hh & Hs & Hr). exists best. simpl.
  rewrite cloneScenario_id. split_and!; try done.
  - split; [by exists best|]. intros (st & Hst & Hf). by eapply best_of_feasible.
  - intros Hsep Hp st Hst. by apply (best_of_unbeaten (se_log s)).
Qed.
End best.

(** * A search over two services *)

(** Every evaluation returns the same metrics and the world counts the simulations; the order
    of [sort.Slice] is that of a stable sort. *)
Definition flat_eval (sc : Scenario) (c : CandidateStore) (w : Z) : (string + option RunMetrics * Z) * CandidateStore * Z :=
  (inr (Some RunMetrics_zero, 3), CandidateStore_Register (ConfigHash (Some sc)) "run" c, w + 3).
Definition stable_sort (A : Type) (lt : A → A → bool) (l : list A) : list A := sort_SliceStable lt l.
Definition sample_search : go BatchSearchResult * search_state :=
  let s := two_services (f64_of_Z 512) in
  RunBatchBeamSearch flat_eval (λ _, None) stable_sort (λ m, (map_to_list m).*1) (two_spec s) s 8 None 0.
Lemma batch_search_budget_witness : se_world sample_search.2 ≤ 8 ∧ sample_search.1 ≠ Panic.
Proof.
  destruct sample_search as [r s] eqn:E. unfold sample_search in E. cbv zeta in E.
  apply (batch_search_budget flat_eval (λ _, None) stable_sort) with (sims := id) in E as (_ & _ & Hb & Hp & _).
  - split; [|exact Hp]. apply Hb. reflexivity.
  - intros sc c w m cost c' w' [= <- <- <-]. vm_compute. reflexivity.
  - intros. apply sort_SliceStable_perm.
  - lia.
  - vm_compute. discriminate.
  - intros sc c w r' c' w' [= _ _ <-]. assert (Hr : reevaluations (two_spec (two_services (f64_of_Z 512))) = 3)
      by (vm_compute; reflexivity). rewrite Hr. simpl. lia.
Defined.
Lemma batch_search_best_witness : ∃ res s best, sample_search = (Ok res, s) ∧ best ∈ se_log s ∧
  bsr_BestScenario res = bst_scenario best.
Proof.
  assert (Eok : match sample_search.1 with Ok _ => true | _ => false end = true) by (vm_compute; reflexivity).
  destruct sample_search as [[res| |] s] eqn:E; [|discriminate..]. unfold sample_search in E. cbv zeta in E.
  apply (batch_search_best flat_eval (λ _, None) stable_sort _ _ _ 8) in E as (best & Hin & Hbest & _).
  - by exists res, s, best.
  - intros sc c w m cost c' w' [= <- <- <-]. vm_compute. reflexivity.
  - intros. apply sort_SliceStable_perm.
  - lia.
  - vm_compute. discriminate.
Defined.
(** The tolerance makes the comparison cyclic: three candidates whose violations differ by
    less than the tolerance from one to the next, but by more from the first to the last.
    Which of them the search returns depends on the order of evaluation, and the sorted
    candidates on the order in which the map is visited. *)
Example near_ties_cycle :
  let score v := mkBatchScore true (f64_lit v 10000000000) f0 f0 f0 f0 f0 f0 f0 f0 f0 f0 f0 f0 f0 f0 f0 f0 f0 f0 f0 f0 f0
    f0 f0 f0 f0 f0 in
  better (score 16, 1) (score 8, 2) = true ∧ better (score 8, 2) (score 0, 3) = true ∧
  better (score 0, 3) (score 16, 1) = true.
Proof. vm_compute. done. Qed.
