(* ===== verification/HillClimb.v ===== *)
(** The hill-climbing optimiser: its exploration of neighbouring scenarios, its convergence
    strategies and its loop ([exploration.go], [convergence.go], [optimizer.go] of
    [internal/improvement]).

    An evaluation is an argument that takes and returns the state of the world it runs in.
    The optimiser's mutex only guards readers of its progress and is not modelled. *)
From S2P Require Import Prelude GoFloat Utils Policy Config Graph BrokerQueue BatchSpec Instance ResourceManager ServiceModel.
From S2P Require Import RunMetrics BatchNeighbors.
From Stdlib Require Import SpecFloat.
#[local] Open Scope string_scope.
#[local] Open Scope list_scope.
#[local] Open Scope Z_scope.

(** * Exploration *)

Record DefaultExplorer := mkExplorer {
  ex_maxReplicas : Z;
  ex_minReplicas : Z;
  ex_replicaStep : Z;
  ex_policyStepSize : float64;
  ex_workloadStepSize : float64;
  ex_resourceStepSize : float64;
}.
#[export] Instance eta_DefaultExplorer : Eta DefaultExplorer := λ r, mkExplorer (ex_maxReplicas r) (ex_minReplicas r)
  (ex_replicaStep r) (ex_policyStepSize r) (ex_workloadStepSize r) (ex_resourceStepSize r).
Definition NewDefaultExplorer : DefaultExplorer := mkExplorer 20 1 1 (f64_lit 5 100) (f64_lit 1 10) (f64_lit 1 10).
Definition WithMaxReplicas (max : Z) (e : DefaultExplorer) : DefaultExplorer := e <| ex_maxReplicas := max |>.
Definition WithMinReplicas (min : Z) (e : DefaultExplorer) : DefaultExplorer := e <| ex_minReplicas := min |>.
Definition WithReplicaStep (step : Z) (e : DefaultExplorer) : DefaultExplorer := e <| ex_replicaStep := step |>.
Definition WithPolicyStepSize (step : float64) (e : DefaultExplorer) : DefaultExplorer := e <| ex_policyStepSize := step |>.
(** The implementations of [ParameterExplorer]; the other two embed the default one. *)
Inductive ParameterExplorer :=
  | ExplorerDefault (e : DefaultExplorer)
  | ExplorerConservative (e : DefaultExplorer)
  | ExplorerAggressive (e : DefaultExplorer).
Definition NewConservativeExplorer : ParameterExplorer :=
  ExplorerConservative (NewDefaultExplorer <| ex_policyStepSize := f64_lit 2 100 |> <| ex_workloadStepSize := f64_lit 5 100 |>
    <| ex_resourceStepSize := f64_lit 5 100 |> <| ex_replicaStep := 1 |>).
Definition NewAggressiveExplorer : ParameterExplorer :=
  ExplorerAggressive (NewDefaultExplorer <| ex_policyStepSize := f64_lit 1 10 |> <| ex_workloadStepSize := f64_lit 2 10 |>
    <| ex_resourceStepSize := f64_lit 2 10 |> <| ex_replicaStep := 2 |>).
Definition Explorer_Name (e : ParameterExplorer) : string :=
  match e with
  | ExplorerDefault _ => "default"
  | ExplorerConservative _ => "conservative"
  | ExplorerAggressive _ => "aggressive"
  end.
(** A copy of [base] with one service, workload or policy changed. *)
Definition with_service (i : nat) (f : Service → Service) (base : Scenario) : Scenario :=
  let nb := cloneScenario base in nb <| scn_Services := alter f i (scn_Services nb) |>.
Definition with_arrival (i : nat) (f : ArrivalSpec → ArrivalSpec) (base : Scenario) : Scenario :=
  let nb := cloneScenario base in
  nb <| scn_Workload := alter (λ w, w <| wl_Arrival := f (wl_Arrival w) |>) i (scn_Workload nb) |>.
Definition with_autoscaling (f : AutoscalingPolicyConfig → AutoscalingPolicyConfig) (base : Scenario) : Scenario :=
  let nb := cloneScenario base in
  nb <| scn_Policies := (λ p, p <| pc_Autoscaling := f <$> pc_Autoscaling p |>) <$> scn_Policies nb |>.
Definition with_retries (f : RetryPolicyConfig → RetryPolicyConfig) (base : Scenario) : Scenario :=
  let nb := cloneScenario base in
  nb <| scn_Policies := (λ p, p <| pc_Retries := f <$> pc_Retries p |>) <$> scn_Policies nb |>.
(** [nb] if the condition holds. *)
Definition neighbor_if (b : bool) (nb : Scenario) : list Scenario := if b then [nb] else [].
Section explore.
  Context (e : DefaultExplorer) (base : Scenario).
Definition explore_replicas (i : nat) (svc : Service) : list Scenario :=
  let set n := with_service i (λ s, s <| svc_Replicas := n |>) base in
  let up := wrap64 (svc_Replicas svc + ex_replicaStep e) in
  let down := wrap64 (svc_Replicas svc - ex_replicaStep e) in
  neighbor_if ((svc_Replicas svc <? ex_maxReplicas e) && (up <=? ex_maxReplicas e)) (set up) ++
  neighbor_if ((ex_minReplicas e <? svc_Replicas svc) && (ex_minReplicas e <=? down)) (set down).
Definition exploreReplicas : list Scenario := concat (imap explore_replicas (scn_Services base)).
Definition grown (x step : float64) : float64 := fmul x (fadd f1 step).
Definition shrunk (lo x step : float64) : float64 := math_Max lo (fmul x (fsub f1 step)).
Definition explore_resources (i : nat) (svc : Service) : list Scenario :=
  let cpu := if feqb (svc_CPUCores svc) f0 then f1 else svc_CPUCores svc in
  let mem := if feqb (svc_MemoryMB svc) f0 then f64_of_Z 512 else svc_MemoryMB svc in
  let set_cpu x := with_service i (λ s, s <| svc_CPUCores := x |>) base in
  let set_mem x := with_service i (λ s, s <| svc_MemoryMB := x |>) base in
  let step := ex_resourceStepSize e in
  [set_cpu (grown cpu step)] ++ neighbor_if (fgt cpu (f64_lit 1 10)) (set_cpu (shrunk (f64_lit 1 10) cpu step)) ++
  [set_mem (grown mem step)] ++ neighbor_if (fgt mem (f64_of_Z 64)) (set_mem (shrunk (f64_of_Z 64) mem step)).
Definition exploreResources : list Scenario := concat (imap explore_resources (scn_Services base)).
Definition explore_autoscaling (a : AutoscalingPolicyConfig) : list Scenario :=
  let target := ac_TargetCPUUtil a in
  let set_target x := with_autoscaling (λ a, a <| ac_TargetCPUUtil := x |>) base in
  let set_step n := with_autoscaling (λ a, a <| ac_ScaleStep := n |>) base in
  neighbor_if (fgt target (f64_lit 1 10)) (set_target (math_Max (f64_lit 1 10) (fsub target (ex_policyStepSize e)))) ++
  neighbor_if (fltb target (f64_lit 9 10)) (set_target (math_Min (f64_lit 9 10) (fadd target (ex_policyStepSize e)))) ++
  neighbor_if (1 <? ac_ScaleStep a) (set_step (ac_ScaleStep a - 1)) ++
  neighbor_if (ac_ScaleStep a <? 5) (set_step (ac_ScaleStep a + 1)).
Definition explore_retries (r : RetryPolicyConfig) : list Scenario :=
  let set_max n := with_retries (λ r, mkRetryConfig (rc_Enabled r) n (rc_Backoff r) (rc_BaseMs r)) base in
  let set_base n := with_retries (λ r, mkRetryConfig (rc_Enabled r) (rc_MaxRetries r) (rc_Backoff r) n) base in
  neighbor_if (0 <? rc_MaxRetries r) (set_max (rc_MaxRetries r - 1)) ++
  neighbor_if (rc_MaxRetries r <? 10) (set_max (rc_MaxRetries r + 1)) ++
  neighbor_if (1 <? rc_BaseMs r) (set_base (rc_BaseMs r - 1)) ++
  neighbor_if (rc_BaseMs r <? 1000) (set_base (rc_BaseMs r + 1)).
Definition explorePolicies : list Scenario :=
  match scn_Policies base with
  | None => []
  | Some p =>
      match pc_Autoscaling p with Some a => if ac_Enabled a then explore_autoscaling a else [] | None => [] end ++
      match pc_Retries p with Some r => if rc_Enabled r then explore_retries r else [] | None => [] end
  end.
Definition explore_arrival (i : nat) (w : WorkloadPattern) : list Scenario :=
  let a := wl_Arrival w in
  let step := ex_workloadStepSize e in
  let set_rate x := with_arrival i (λ a, a <| ar_RateRPS := x |>) base in
  let set_dev x := with_arrival i (λ a, a <| ar_StdDevRPS := x |>) base in
  let set_burst x := with_arrival i (λ a, a <| ar_BurstRateRPS := x |>) base in
  let tenth := f64_lit 1 10 in
  let hundredth := f64_lit 1 100 in
  [set_rate (grown (ar_RateRPS a) step)] ++
  neighbor_if (fgt (ar_RateRPS a) tenth) (set_rate (shrunk tenth (ar_RateRPS a) step)) ++
  (if String.eqb (ar_Type a) "normal" && fgt (ar_StdDevRPS a) f0
   then [set_dev (grown (ar_StdDevRPS a) step)] ++
        neighbor_if (fgt (ar_StdDevRPS a) hundredth) (set_dev (shrunk hundredth (ar_StdDevRPS a) step))
   else []) ++
  (if String.eqb (ar_Type a) "bursty" && fgt (ar_BurstRateRPS a) f0
   then [set_burst (grown (ar_BurstRateRPS a) step)] ++
        neighbor_if (fgt (ar_BurstRateRPS a) tenth) (set_burst (shrunk tenth (ar_BurstRateRPS a) step))
   else []).
Definition exploreWorkload : list Scenario := concat (imap explore_arrival (scn_Workload base)).
End explore.
(** The step size is not used. *)
Definition Explorer_GenerateNeighbors (x : ParameterExplorer) (base : Scenario) (stepSize : float64) : list Scenario :=
  let e := match x with ExplorerDefault e | ExplorerConservative e | ExplorerAggressive e => e end in
  exploreReplicas e base ++ exploreResources e base ++ explorePolicies e base ++ exploreWorkload e base.

(** * Convergence *)

Definition math_MaxFloat64 : float64 := S754_finite false 9007199254740991 971.
Record OptimizationStep := mkStep {
  ops_Iteration : Z;
  ops_Score : float64;
  ops_Config : Scenario;
}.
Record ConvergenceConfig := mkConvergence {
  cvc_NoImprovementIterations : Z;
  cvc_ImprovementThreshold : float64;
  cvc_ScoreTolerance : float64;
  cvc_MinIterations : Z;
  cvc_PlateauIterations : Z;
}.
Definition DefaultConvergenceConfig : ConvergenceConfig := mkConvergence 5 (f64_lit 1 100) (f64_lit 1 1000) 3 5.
Inductive ConvergenceStrategy :=
  | NoImprovementStrategy (c : ConvergenceConfig)
  | PlateauStrategy (c : ConvergenceConfig)
  | ThresholdStrategy (c : ConvergenceConfig)
  | VarianceStrategy (c : ConvergenceConfig)
  | CombinedStrategy (strategies : list ConvergenceStrategy).
Definition NewNoImprovementStrategy (c : option ConvergenceConfig) := NoImprovementStrategy (default DefaultConvergenceConfig c).
Definition NewPlateauStrategy (c : option ConvergenceConfig) := PlateauStrategy (default DefaultConvergenceConfig c).
Definition NewThresholdStrategy (c : option ConvergenceConfig) := ThresholdStrategy (default DefaultConvergenceConfig c).
Definition NewVarianceStrategy (c : option ConvergenceConfig) := VarianceStrategy (default DefaultConvergenceConfig c).
Definition NewCombinedStrategy (c : option ConvergenceConfig) : ConvergenceStrategy :=
  let c := default DefaultConvergenceConfig c in
  CombinedStrategy [NewNoImprovementStrategy (Some c); NewPlateauStrategy (Some c); NewThresholdStrategy (Some c)].
Definition Strategy_Name (s : ConvergenceStrategy) : string :=
  match s with
  | NoImprovementStrategy _ => "no_improvement"
  | PlateauStrategy _ => "plateau"
  | ThresholdStrategy _ => "improvement_threshold"
  | VarianceStrategy _ => "variance"
  | CombinedStrategy _ => "combined"
  end.
(** The first step with the smallest score below the largest float; the position is -1 if there is none. *)
Definition best_step (history : list OptimizationStep) : float64 * Z :=
  let '(best, at_, _) := foldl (λ '(best, at_, i) step,
    if fltb (ops_Score step) best then (ops_Score step, i, i + 1) else (best, at_, i + 1))
    (math_MaxFloat64, -1, 0) history in (best, at_).
(** The steps from position [len history - n]; slicing outside the history panics. *)
Definition last_steps (n : Z) (history : list OptimizationStep) : go (list OptimizationStep) :=
  if (n <? 0) || (len history <? n) then Panic else Ok (drop (Z.to_nat (len history - n)) history).
Definition no_improvement (c : ConvergenceConfig) (history : list OptimizationStep) : go (bool * string) :=
  if len history <? cvc_MinIterations c then Ok (false, "")
  else
    let bestIteration := (best_step history).2 in
    let since := len history - 1 - bestIteration in
    if bestIteration <? 0 then Ok (false, "")
    else if cvc_NoImprovementIterations c <=? since
    then Ok (true, "no improvement for " +:+ Itoa since +:+ " iterations (best at iteration " +:+ Itoa bestIteration +:+ ")")
    else Ok (false, "").
(** The reason is kept up to its first floating-point number. *)
Definition plateau (c : ConvergenceConfig) (history : list OptimizationStep) : go (bool * string) :=
  if (len history <? cvc_MinIterations c) || (len history <? cvc_PlateauIterations c) then Ok (false, "")
  else
    let! recent := last_steps (cvc_PlateauIterations c) history in
    match recent with
    | [] => Panic
    | first :: _ =>
        let lo := foldl (λ m step, if fltb (ops_Score step) m then ops_Score step else m) (ops_Score first) recent in
        let hi := foldl (λ m step, if fgt (ops_Score step) m then ops_Score step else m) (ops_Score first) recent in
        if fleb (fsub hi lo) (cvc_ScoreTolerance c)
        then Ok (true, "score plateaued for " +:+ Itoa (cvc_PlateauIterations c) +:+ " iterations (range: ")
        else Ok (false, "")
    end.
Fixpoint relative_improvements (prev : OptimizationStep) (steps : list OptimizationStep) : list float64 :=
  match steps with
  | [] => []
  | step :: steps =>
      (if fgt (ops_Score prev) f0
       then [fdiv (fsub (ops_Score prev) (ops_Score step)) (ops_Score prev)] else []) ++ relative_improvements step steps
  end.
Definition threshold (c : ConvergenceConfig) (history : list OptimizationStep) : go (bool * string) :=
  if len history <? wrap64 (cvc_MinIterations c + 1) then Ok (false, "")
  else
    let windowSize := Z.min (cvc_NoImprovementIterations c) (len history) in
    if windowSize <? 2 then Ok (false, "")
    else
      let! recent := last_steps windowSize history in
      match recent with
      | [] | [_] => Ok (false, "")
      | first :: rest =>
          let improvements := relative_improvements first rest in
          if forallb (λ imp, negb (fgt imp (cvc_ImprovementThreshold c))) improvements &&
             negb (bool_decide (improvements = []))
          then Ok (true, "improvements below threshold (max: ") else Ok (false, "")
      end.
Definition low_variance (c : ConvergenceConfig) (history : list OptimizationStep) : go (bool * string) :=
  if len history <? cvc_MinIterations c then Ok (false, "")
  else
    let! recent := last_steps (Z.min (cvc_PlateauIterations c) (len history)) history in
    if len recent <? 2 then Ok (false, "")
    else
      let n := f64_of_Z (len recent) in
      let mean := fdiv (sum_float ops_Score recent) n in
      let variance := fdiv (sum_float (λ step, let diff := fsub (ops_Score step) mean in fmul diff diff) recent) n in
      if fgt mean f0 && fltb (fdiv (SFsqrt 53 1024 variance) mean) (cvc_ImprovementThreshold c)
      then Ok (true, "low score variance (relative stddev: ") else Ok (false, "").
(** The strategies one after the other, until one has converged. *)
Fixpoint CheckConvergence (s : ConvergenceStrategy) (history : list OptimizationStep) : go (bool * string) :=
  match s with
  | NoImprovementStrategy c => no_improvement c history
  | PlateauStrategy c => plateau c history
  | ThresholdStrategy c => threshold c history
  | VarianceStrategy c => low_variance c history
  | CombinedStrategy strategies =>
      (fix any (l : list ConvergenceStrategy) : go (bool * string) :=
         match l with
         | [] => Ok (false, "")
         | s :: l =>
             let! r := CheckConvergence s history in
             if r.1 then Ok (true, Strategy_Name s +:+ ": " +:+ r.2) else any l
         end) strategies
  end.
Definition AddStrategy (strategy s : ConvergenceStrategy) : ConvergenceStrategy :=
  match s with CombinedStrategy l => CombinedStrategy (l ++ [strategy]) | s => s end.

(** * The optimiser *)

(** [opt_progressReporter] says whether a reporter is set, [opt_reports] is what it was called with. *)
Record Optimizer := mkOptimizer {
  opt_objective : option ObjectiveFunction;
  opt_maxIterations : Z;
  opt_maxEvaluations : Z;
  opt_stepSize : float64;
  opt_explorer : option ParameterExplorer;
  opt_convergenceStrategy : option ConvergenceStrategy;
  opt_progressReporter : bool;
  opt_bestScore : float64;
  opt_bestConfig : option Scenario;
  opt_iteration : Z;
  opt_history : list OptimizationStep;
  opt_reports : list (Z * float64);
}.
#[export] Instance eta_Optimizer : Eta Optimizer := λ r, mkOptimizer (opt_objective r) (opt_maxIterations r)
  (opt_maxEvaluations r) (opt_stepSize r) (opt_explorer r) (opt_convergenceStrategy r) (opt_progressReporter r)
  (opt_bestScore r) (opt_bestConfig r) (opt_iteration r) (opt_history r) (opt_reports r).
Record OptimizationResult := mkOptimizationResult {
  opr_BestConfig : option Scenario;
  opr_BestScore : float64;
  opr_Iterations : Z;
  opr_History : list OptimizationStep;
  opr_Converged : bool;
  opr_ConvergenceReason : string;
}.
Definition NewOptimizer (objective : option ObjectiveFunction) (maxIterations : Z) (stepSize : float64) : Optimizer :=
  mkOptimizer objective maxIterations 0 (if fleb stepSize f0 then f1 else stepSize)
    (Some (ExplorerDefault NewDefaultExplorer)) (Some (NewCombinedStrategy (Some DefaultConvergenceConfig))) false
    math_MaxFloat64 None 0 [] [].
Definition WithExplorer (x : option ParameterExplorer) (o : Optimizer) : Optimizer := o <| opt_explorer := x |>.
Definition WithConvergenceStrategy (s : option ConvergenceStrategy) (o : Optimizer) : Optimizer :=
  o <| opt_convergenceStrategy := s |>.
Definition WithProgressReporter (b : bool) (o : Optimizer) : Optimizer := o <| opt_progressReporter := b |>.
Definition WithMaxEvaluations (n : Z) (o : Optimizer) : Optimizer := o <| opt_maxEvaluations := if n <? 0 then 0 else n |>.
Definition generateNeighbors (scenario : Scenario) (o : Optimizer) : list Scenario * Optimizer :=
  let x := default (ExplorerDefault NewDefaultExplorer) (opt_explorer o) in
  (Explorer_GenerateNeighbors x scenario (opt_stepSize o), o <| opt_explorer := Some x |>).
Definition buildResult (converged : bool) (reason : string) (o : Optimizer) : OptimizationResult :=
  mkOptimizationResult (cloneScenario <$> opt_bestConfig o) (opt_bestScore o) (opt_iteration o) (opt_history o)
    converged reason.
Definition GetBestConfig (o : Optimizer) : option Scenario := cloneScenario <$> opt_bestConfig o.
Definition GetBestScore (o : Optimizer) : float64 := opt_bestScore o.
Definition GetIteration (o : Optimizer) : Z := opt_iteration o.
(** What is added to the history and reported after an iteration. *)
Definition record_step (iteration : Z) (score : float64) (cfg : Scenario) (o : Optimizer) : Optimizer :=
  let o := o <| opt_history := opt_history o ++ [mkStep iteration score (cloneScenario cfg)] |> in
  if opt_progressReporter o then o <| opt_reports := opt_reports o ++ [(iteration, score)] |> else o.

Section optimize.
  (** An evaluation fails with an error, which says whether the context was cancelled. *)
  Context {W : Type} (evaluateFunc : Scenario → W → ((string * bool) + float64) * W).
(** The optimiser and the variables of its loop. [cl_log] is every evaluation made, the
    latest first; the code does not keep it. *)
Record climb := mkClimb {
  cl_o : Optimizer;
  cl_config : Scenario;
  cl_score : float64;
  cl_evaluations : Z;
  cl_world : W;
  cl_log : list (Scenario * option float64);
}.
#[export] Instance eta_climb : Eta climb := λ r, mkClimb (cl_o r) (cl_config r) (cl_score r) (cl_evaluations r)
  (cl_world r) (cl_log r).
(** The end of a round over the neighbours. *)
Inductive round :=
  | RoundBest (best : Scenario) (score : float64)
  | RoundCap
  | RoundCanceled (e : string).
Fixpoint evaluate_neighbors (neighbors : list Scenario) (best : Scenario) (score : float64) (c : climb) : round * climb :=
  match neighbors with
  | [] => (RoundBest best score, c)
  | nb :: neighbors =>
      if (0 <? opt_maxEvaluations (cl_o c)) && (opt_maxEvaluations (cl_o c) <=? cl_evaluations c) then (RoundCap, c)
      else
        let '(r, w) := evaluateFunc nb (cl_world c) in
        let c := c <| cl_evaluations := wrap64 (cl_evaluations c + 1) |> <| cl_world := w |>
                   <| cl_log := (nb, match r with inr x => Some x | inl _ => None end) :: cl_log c |> in
        match r with
        | inl (e, true) => (RoundCanceled e, c)
        | inl (_, false) => evaluate_neighbors neighbors best score c
        | inr x => if fltb x score then evaluate_neighbors neighbors nb x c else evaluate_neighbors neighbors best score c
        end
  end.
(** The end of an iteration after a full round. *)
Definition adopt (iteration : Z) (best : Scenario) (score : float64) (c : climb) : go (option OptimizationResult) * climb :=
  let o := cl_o c in
  if fltb score (cl_score c)
  then
    let o := if fltb score (opt_bestScore o)
             then o <| opt_bestScore := score |> <| opt_bestConfig := Some (cloneScenario best) |> else o in
    (Ok None, c <| cl_config := best |> <| cl_score := score |> <| cl_o := record_step iteration score best o |>)
  else
    let o := record_step iteration (cl_score c) (cl_config c) o in
    let c := c <| cl_o := o |> in
    match opt_convergenceStrategy o with
    | None => (Ok None, c)
    | Some s =>
        (let! r := CheckConvergence s (opt_history o) in
         Ok (if r.1 then Some (buildResult true r.2 o) else None), c)
    end.
Fixpoint iterations (n : nat) (iteration : Z) (c : climb) : go OptimizationResult * climb :=
  match n with
  | O => (Ok (buildResult false "max iterations reached" (cl_o c)), c)
  | S n =>
      let '(neighbors, o) := generateNeighbors (cl_config c) ((cl_o c) <| opt_iteration := iteration |>) in
      let c := c <| cl_o := o |> in
      match neighbors with
      | [] => (Ok (buildResult true "no valid neighbors" o), c)
      | first :: _ =>
          match evaluate_neighbors neighbors first math_MaxFloat64 c with
          | (RoundCanceled e, c) => (Fail e, c)
          | (RoundCap, c) => (Ok (buildResult false "max evaluations reached" (cl_o c)), c)
          | (RoundBest best score, c) =>
              match adopt iteration best score c with
              | (Ok (Some r), c) => (Ok r, c)
              | (Ok None, c) => iterations n (iteration + 1) c
              | (Fail e, c) => (Fail e, c)
              | (Panic, c) => (Panic, c)
              end
          end
      end
  end.
Definition Optimize (o : Optimizer) (initialConfig : Scenario) (w : W) : go OptimizationResult * climb :=
  let o := o <| opt_bestConfig := Some (cloneScenario initialConfig) |> <| opt_iteration := 0 |> <| opt_history := [] |> in
  let '(r, w) := evaluateFunc initialConfig w in
  let c := mkClimb o (cloneScenario initialConfig) f0 1 w
    [(initialConfig, match r with inr x => Some x | inl _ => None end)] in
  match r with
  | inl (e, true) => (Fail e, c)
  | inl (e, false) => (Fail ("failed to evaluate initial configuration: " +:+ e), c)
  | inr score =>
      let o := record_step 0 score initialConfig (o <| opt_bestScore := score |>) in
      iterations (Z.to_nat (opt_maxIterations o)) 1 (c <| cl_o := o |> <| cl_score := score |>)
  end.
End optimize.

(** * What a run of the optimiser guarantees *)

Lemma fltb_fleb_trans x y z : fltb x y = true → fleb y z = true → fltb x z = true.
Proof. rewrite fleb_key, !fltb_key. intros (?&?&?) (?&?&[?|E]); rewrite <-?E; eauto using key_lt_trans. Qed.
Lemma not_below x y z : fltb x y = false → fleb z y = true → fltb x z = false.
Proof. intros H Hle. apply not_true_is_false. intros Hlt. by rewrite (fltb_fleb_trans _ _ _ Hlt Hle) in H. Qed.
Section climbing.
  Context {W : Type} (evaluateFunc : Scenario → W → ((string * bool) + float64) * W).
  Implicit Types c : climb (W := W).
(** The evaluations of a log that returned a score. *)
Definition scored (log : list (Scenario * option float64)) (sc : Scenario) (x : float64) : Prop := (sc, Some x) ∈ log.
Definition minimal (log : list (Scenario * option float64)) (x : float64) : Prop :=
  ∀ sc y, scored log sc y → fltb y x = false.
(** The evaluations counted so far and their cap. *)
Definition counted c : Prop :=
  cl_evaluations c = wrap64 (len (cl_log c)) ∧ opt_maxEvaluations (cl_o c) ≤ int64_max ∧
  (0 < opt_maxEvaluations (cl_o c) → len (cl_log c) ≤ opt_maxEvaluations (cl_o c)).
Lemma counted_step c e w : counted c →
  (0 <? opt_maxEvaluations (cl_o c)) && (opt_maxEvaluations (cl_o c) <=? cl_evaluations c) = false →
  counted (c <| cl_evaluations := wrap64 (cl_evaluations c + 1) |> <| cl_world := w |> <| cl_log := e :: cl_log c |>).
Proof.
  intros (He & Hm & Hc) Hg. unfold counted. simpl. split_and!; [|done|].
  - rewrite He, wrap64_add. f_equal. unfold len. simpl. lia.
  - intros H0. specialize (Hc H0). unfold int64_max in Hm. rewrite He, wrap64_id in Hg;
      unfold len, in_int64, int64_min, int64_max in *; simpl; lia.
Qed.
(** A round keeps the optimiser and the current scenario, adds the evaluations it makes and
    finds the smallest of their scores. *)
Record round_ok c (score : float64) (r : round) c' (new : list (Scenario * option float64)) : Prop := {
  ro_o : cl_o c' = cl_o c;
  ro_config : cl_config c' = cl_config c;
  ro_score : cl_score c' = cl_score c;
  ro_log : cl_log c' = new ++ cl_log c;
  ro_counted : counted c';
  ro_best : match r with
    | RoundBest b s => (s = math_MaxFloat64 ∨ scored (cl_log c') b s) ∧ minimal new s ∧ fleb s score = true
    | _ => True
    end;
}.
Lemma round_ok_nil c best score : counted c → is_nan score = false →
  score = math_MaxFloat64 ∨ scored (cl_log c) best score → round_ok c score (RoundBest best score) c [].
Proof. intros. split; try done. split_and!; [done|by intros ?? ?%not_elem_of_nil|by apply fleb_refl]. Qed.
Lemma round_ok_cons c e ev w score score' r c' new :
  round_ok (mkClimb (cl_o c) (cl_config c) (cl_score c) ev w (e :: cl_log c)) score' r c' new →
  fleb score' score = true → (∀ x, e.2 = Some x → fltb x score' = false) → round_ok c score r c' (new ++ [e]).
Proof.
  intros [Ho Hc Hs Hl Hn Hb] Hle He. split; try done; [by rewrite Hl, <-(assoc app)|].
  destruct r as [b s| |]; try done. destruct Hb as (Hb & Hmin & Hle'). split_and!; [done| |by eapply fleb_trans].
  intros sc y [H|H%list_elem_of_singleton]%elem_of_app; [by eapply Hmin|].
  eapply not_below; [apply He; by rewrite <-H|done].
Qed.
Lemma evaluate_neighbors_ok neighbors best score c r c' : counted c →
  is_nan score = false → score = math_MaxFloat64 ∨ scored (cl_log c) best score →
  evaluate_neighbors evaluateFunc neighbors best score c = (r, c') → ∃ new, round_ok c score r c' new.
Proof.
  revert best score c. induction neighbors as [|nb neighbors IH]; intros best score c Hc Hn Hs; simpl.
  { intros [= <- <-]. exists []. by apply round_ok_nil. }
  destruct (_ && _) eqn:Eg; [intros [= <- <-]; exists []; by split|].
  destruct (evaluateFunc nb (cl_world c)) as [res w] eqn:Ee.
  pose proof (counted_step c (nb, match res with inr x => Some x | inl _ => None end) w Hc Eg) as Hc1.
  pose proof (fleb_refl _ Hn) as Hrefl.
  destruct res as [[e []]|x].
  - intros [= <- <-]. exists [(nb, None)]. by split.
  - intros H. apply IH in H as [new Hr]; [|done|done|destruct Hs; [by left|right; by right]].
    exists (new ++ [(nb, None)]). eapply round_ok_cons; [exact Hr|done|done].
  - destruct (fltb x score) eqn:El; intros H.
    + apply fltb_not_nan in El as Hx. apply IH in H as [new Hr]; [|done|apply Hx|right; by left].
      exists (new ++ [(nb, Some x)]). eapply round_ok_cons; [exact Hr|by apply fltb_fleb|].
      intros ? [= <-]. apply fltb_irrefl.
    + apply IH in H as [new Hr]; [|done|done|destruct Hs; [by left|right; by right]].
      exists (new ++ [(nb, Some x)]). eapply round_ok_cons; [exact Hr|done|]. by intros ? [= <-].
Qed.
(** Between two iterations the optimiser stands on the best scenario evaluated so far. *)
Definition not_rising (a b : OptimizationStep) : Prop := fltb (ops_Score a) (ops_Score b) = false.
Record history_ok (log : list (Scenario * option float64)) (best : float64) (h : list OptimizationStep) : Prop := {
  hi_scored : Forall (λ st, scored log (ops_Config st) (ops_Score st)) h;
  hi_best : Forall (λ st, fltb (ops_Score st) best = false) h;
  hi_sorted : StronglySorted not_rising h;
}.
Record climb_inv c : Prop := {
  ci_counted : counted c;
  ci_bestScore : opt_bestScore (cl_o c) = cl_score c;
  ci_bestConfig : opt_bestConfig (cl_o c) = Some (cl_config c);
  ci_scored : scored (cl_log c) (cl_config c) (cl_score c);
  ci_minimal : minimal (cl_log c) (cl_score c);
  ci_range : is_nan (cl_score c) = false ∧ fltb math_MaxFloat64 (cl_score c) = false;
  ci_history : history_ok (cl_log c) (cl_score c) (opt_history (cl_o c));
}.
Lemma record_step_eq i x cfg (o : Optimizer) :
  opt_maxEvaluations (record_step i x cfg o) = opt_maxEvaluations o ∧ opt_bestScore (record_step i x cfg o) = opt_bestScore o ∧
  opt_bestConfig (record_step i x cfg o) = opt_bestConfig o ∧
  opt_history (record_step i x cfg o) = opt_history o ++ [mkStep i x cfg].
Proof. unfold record_step. rewrite cloneScenario_id. by destruct (opt_progressReporter _). Qed.
Lemma scored_app new log sc x : scored log sc x → scored (new ++ log) sc x.
Proof. unfold scored. rewrite elem_of_app. by right. Qed.
Lemma StronglySorted_snoc {A} (R : A → A → Prop) l x : StronglySorted R l → Forall (λ a, R a x) l → StronglySorted R (l ++ [x]).
Proof.
  induction 1 as [|a l Hs IH Ha]; intros Hf; simpl; [by repeat constructor|].
  apply Forall_cons_1 in Hf as [? ?]. constructor; [by apply IH|]. apply Forall_app; split; [done|by constructor].
Qed.
(** A new step at a score that no evaluation is below. *)
Lemma history_snoc new log best h i x cfg : history_ok log best h → scored (new ++ log) cfg x → minimal (new ++ log) x →
  history_ok (new ++ log) x (h ++ [mkStep i x cfg]).
Proof.
  intros [Hs _ Hd] Hx Hmin.
  assert (Hlow : Forall (λ st, fltb (ops_Score st) x = false) h).
  { eapply Forall_impl; [exact Hs|]. intros st Hst. eapply Hmin, scored_app, Hst. }
  split.
  - apply Forall_app; split; [|by repeat constructor]. eapply Forall_impl; [exact Hs|]. intros st. apply scored_app.
  - apply Forall_app; split; [done|]. constructor; [apply fltb_irrefl|constructor].
  - by apply StronglySorted_snoc.
Qed.
Lemma round_minimal c b s c' new : climb_inv c → round_ok c math_MaxFloat64 (RoundBest b s) c' new →
  let x := if fltb s (cl_score c) then s else cl_score c in minimal (cl_log c') x.
Proof.
  intros Hi [_ _ _ Hl _ (Hb & Hmin & Hle)]. destruct (ci_range _ Hi) as [Hn _]. cbv zeta. rewrite Hl.
  apply fleb_key in Hle as Hk. destruct Hk as (Hsn & _ & _).
  intros sc y [H|H]%elem_of_app; destruct (fltb s (cl_score c)) eqn:E.
  - by eapply Hmin.
  - eapply not_below; [by eapply Hmin|]. by apply fltb_false.
  - eapply not_below; [by eapply (ci_minimal _ Hi)|]. by apply fltb_fleb.
  - by eapply (ci_minimal _ Hi).
Qed.
Lemma adopt_ok iteration b s c c1 new r c2 : climb_inv c → round_ok c math_MaxFloat64 (RoundBest b s) c1 new →
  adopt iteration b s c1 = (r, c2) →
  climb_inv c2 ∧ opt_maxEvaluations (cl_o c2) = opt_maxEvaluations (cl_o c) ∧ cl_log c2 = cl_log c1 ∧
  match r with Ok (Some res) => ∃ reason, res = buildResult true reason (cl_o c2) | _ => True end.
Proof.
  intros Hi Hr. pose proof (round_minimal _ _ _ _ _ Hi Hr) as Hmin. cbv zeta in Hmin.
  destruct Hr as [Ho Hcf Hsc Hl Hcn (Hb & _ & Hle)]. destruct (ci_range _ Hi) as [Hnn Hmax]. unfold adopt. rewrite Ho, Hsc.
  destruct (fltb s (cl_score c)) eqn:E.
  - rewrite (ci_bestScore _ Hi), E. destruct Hb as [->|Hb]; [congruence|].
    destruct (record_step_eq iteration s b ((cl_o c) <| opt_bestScore := s |> <| opt_bestConfig := Some (cloneScenario b) |>))
      as (R1 & R2 & R3 & R4).
    set (o := record_step iteration s b _) in *. clearbody o. cbn in R1, R2, R3, R4. rewrite cloneScenario_id in R3.
    intros [= <- <-]. split_and!; [|done..]. split; cbn; try done.
    + unfold counted in *. cbn. rewrite R1. by rewrite Ho in Hcn.
    + split; [by apply fltb_not_nan in E as [? _]|]. apply not_true_is_false. intros Hlt.
      by rewrite (fltb_trans _ _ _ Hlt E) in Hmax.
    + rewrite R4, Hl. apply (history_snoc _ _ (cl_score c)); [apply Hi|by rewrite <-Hl|by rewrite <-Hl].
  - destruct (record_step_eq iteration (cl_score c) (cl_config c1) (cl_o c)) as (R1 & R2 & R3 & R4).
    set (o := record_step iteration (cl_score c) (cl_config c1) (cl_o c)) in *. clearbody o.
    assert (Hinv : climb_inv (c1 <| cl_o := o |>)).
    { split; cbn; rewrite ?Hsc, ?Hcf, ?R2, ?R3, ?R4, ?Hl; try apply Hi.
      - unfold counted in *. cbn. rewrite R1. by rewrite Ho, Hl in Hcn.
      - apply scored_app, Hi.
      - by rewrite <-Hl.
      - rewrite Hcf. apply (history_snoc _ _ (cl_score c)); [apply Hi|apply scored_app, Hi|by rewrite <-Hl]. }
    destruct (opt_convergenceStrategy o) as [st|]; intros [= <- <-]; (split_and!; [done|exact R1|done|]); [|done].
    destruct (CheckConvergence st (opt_history o)) as [[[] reason]| |]; simpl; try done. by exists reason.
Qed.
(** What a result says of the evaluations made. *)
Record result_ok (log : list (Scenario * option float64)) (res : OptimizationResult) : Prop := {
  res_evaluated : ∃ cfg, opr_BestConfig res = Some cfg ∧ scored log cfg (opr_BestScore res);
  res_minimal : opr_ConvergenceReason res ≠ "max evaluations reached" → minimal log (opr_BestScore res);
  res_history : history_ok log (opr_BestScore res) (opr_History res);
}.
Lemma inv_result c converged reason : climb_inv c → result_ok (cl_log c) (buildResult converged reason (cl_o c)).
Proof.
  intros Hi. split; cbn; rewrite ?(ci_bestScore _ Hi); [|intros _; apply Hi|apply Hi].
  exists (cl_config c). rewrite (ci_bestConfig _ Hi). simpl. rewrite cloneScenario_id. split; [done|apply Hi].
Qed.
Lemma history_weaken new log best h : history_ok log best h → history_ok (new ++ log) best h.
Proof. intros [Hs Hb Hd]. split; [|done..]. eapply Forall_impl; [exact Hs|]. intros st. apply scored_app. Qed.
(** A round that hits the cap leaves the result of the iterations before it. *)
Lemma cap_result c c' new converged : climb_inv c → cl_o c' = cl_o c → cl_log c' = new ++ cl_log c →
  result_ok (cl_log c') (buildResult converged "max evaluations reached" (cl_o c')).
Proof.
  intros Hi Ho Hl. rewrite Ho, Hl.
  destruct (inv_result c converged "max evaluations reached" Hi) as [(cfg & H1 & H2) _ H3]. split; [|done|].
  - exists cfg. split; [done|by apply scored_app].
  - by apply history_weaken.
Qed.
Lemma inv_iteration c o : climb_inv c → opt_maxEvaluations o = opt_maxEvaluations (cl_o c) →
  opt_bestScore o = opt_bestScore (cl_o c) → opt_bestConfig o = opt_bestConfig (cl_o c) →
  opt_history o = opt_history (cl_o c) → climb_inv (c <| cl_o := o |>).
Proof.
  intros Hi H1 H2 H3 H4. split; cbn; rewrite ?H2, ?H3, ?H4; try apply Hi. unfold counted. cbn. rewrite H1. apply Hi.
Qed.
Lemma iterations_ok n i c : climb_inv c →
  let '(r, c') := iterations evaluateFunc n i c in
  counted c' ∧ opt_maxEvaluations (cl_o c') = opt_maxEvaluations (cl_o c) ∧
  match r with Ok res => result_ok (cl_log c') res | _ => True end.
Proof.
  revert i c. induction n as [|n IH]; intros i c Hi.
  { simpl. split_and!; [apply Hi|done|by apply inv_result]. }
  cbn [iterations]. destruct (generateNeighbors _ _) as [nbs o] eqn:En.
  assert (Ho : o = (cl_o c) <| opt_iteration := i |>
    <| opt_explorer := Some (default (ExplorerDefault NewDefaultExplorer) (opt_explorer (cl_o c))) |>).
  { unfold generateNeighbors in En. injection En as _ <-. done. }
  pose proof (inv_iteration c o Hi) as Hi1. rewrite Ho in Hi1 at 1 2 3 4. specialize (Hi1 eq_refl eq_refl eq_refl eq_refl).
  assert (Hmax : opt_maxEvaluations (cl_o (c <| cl_o := o |>)) = opt_maxEvaluations (cl_o c)) by (rewrite Ho; done).
  clear Ho En. set (c1 := c <| cl_o := o |>) in *. change o with (cl_o c1). clearbody c1.
  destruct nbs as [|first nbs]; [split_and!; [apply Hi1|done|by apply inv_result]|].
  destruct (evaluate_neighbors _ _ _ _ _) as [r c2] eqn:Er.
  apply evaluate_neighbors_ok in Er as [new Hr]; [|apply Hi1|done|by left].
  rewrite <-Hmax, <-(ro_o _ _ _ _ _ Hr) in *. destruct r as [b s| |e].
  - destruct (adopt i b s c2) as [ra c3] eqn:Ea. pose proof (adopt_ok _ _ _ _ _ _ _ _ Hi1 Hr Ea) as (Hi3 & Hm3 & _ & Hres).
    rewrite <-(ro_o _ _ _ _ _ Hr) in Hm3.
    destruct ra as [[res|]|e|]; [|specialize (IH (i + 1) c3 Hi3)|..].
    + destruct Hres as [reason ->]. split_and!; [apply Hi3|done|by apply inv_result].
    + destruct (iterations _ _ _ _) as [r' c']. rewrite <-Hm3. done.
    + split_and!; [apply Hi3|done|done].
    + split_and!; [apply Hi3|done|done].
  - split_and!; [apply Hr|done|]. by eapply cap_result; [exact Hi1|apply Hr..].
  - split_and!; [apply Hr|done|done].
Qed.
(** C15: hill climbing never loses what it found. For an initial score that is a number of at
    most the largest float, the returned scenario is one that was evaluated, with the score it
    was evaluated to; the history holds evaluated scenarios with scores that never rise and are
    never below the returned one; and unless the run stopped at the cap on evaluations, no
    evaluation had a smaller score. With a cap no more evaluations are made than it allows. *)
Theorem hill_climb_sound (o : Optimizer) initial w score w0 r c :
  evaluateFunc initial w = (inr score, w0) → is_nan score = false → fltb math_MaxFloat64 score = false →
  opt_maxEvaluations o ≤ int64_max → Optimize evaluateFunc o initial w = (r, c) →
  (0 < opt_maxEvaluations o → len (cl_log c) ≤ opt_maxEvaluations o) ∧
  (∀ res, r = Ok res →
    (∃ cfg, opr_BestConfig res = Some cfg ∧ scored (cl_log c) cfg (opr_BestScore res)) ∧
    history_ok (cl_log c) (opr_BestScore res) (opr_History res) ∧
    (opr_ConvergenceReason res ≠ "max evaluations reached" → minimal (cl_log c) (opr_BestScore res))).
Proof.
  intros He Hn Hmax Hcap. unfold Optimize. rewrite He.
  destruct (record_step_eq 0 score initial (o <| opt_bestConfig := Some (cloneScenario initial) |> <| opt_iteration := 0 |>
    <| opt_history := [] |> <| opt_bestScore := score |>)) as (R1 & R2 & R3 & R4).
  set (o1 := record_step _ _ _ _) in *. clearbody o1. cbn in R1, R2, R3, R4. rewrite !cloneScenario_id in *.
  intros H.
  assert (Hs : scored [(initial, Some score)] initial score) by by left.
  assert (Hmin : minimal [(initial, Some score)] score).
  { intros sc y Hy%list_elem_of_singleton. injection Hy as _ ->. apply fltb_irrefl. }
  assert (Hi : climb_inv (mkClimb o1 initial score 1 w0 [(initial, Some score)])).
  { split; cbn; try done.
    - unfold counted. cbn. rewrite R1. split_and!; [done|done|unfold len; simpl; lia].
    - rewrite R4. apply (history_snoc [(initial, Some score)] [] score []); [|done..]. by repeat constructor. }
  pose proof (iterations_ok (Z.to_nat (opt_maxIterations o1)) 1 _ Hi) as Hit. cbn in H.
  rewrite H in Hit. destruct Hit as (Hc & Hm & Hr). cbn in Hm. rewrite R1 in Hm. split.
  - destruct Hc as (_ & _ & Hc). by rewrite Hm in Hc.
  - intros res ->. destruct Hr as [H1 H2 H3]. by split_and!.
Qed.
End climbing.

(** * What a run of the optimiser costs *)

Section cost.
  Context {W : Type} (evaluateFunc : Scenario → W → ((string * bool) + float64) * W).
  (** The simulations started in a world; an evaluation, failed or not, starts at most one. *)
  Context (sims : W → Z) (w0 : W) (eval_sims : ∀ sc w r w', evaluateFunc sc w = (r, w') → sims w' ≤ sims w + 1).
  Implicit Types c : climb (W := W).
Definition spent c : Prop := counted c ∧ sims (cl_world c) ≤ sims w0 + len (cl_log c).
Lemma evaluate_neighbors_spent neighbors best score c :
  spent c → let c' := (evaluate_neighbors evaluateFunc neighbors best score c).2 in spent c' ∧ cl_o c' = cl_o c.
Proof.
  cbv zeta. revert best score c. induction neighbors as [|nb neighbors IH]; intros best score c Hs; simpl; [done|].
  destruct (_ && _) eqn:Eg; [done|]. destruct (evaluateFunc nb (cl_world c)) as [res w] eqn:Ee.
  apply eval_sims in Ee. destruct Hs as [Hc Hs].
  pose proof (counted_step c (nb, match res with inr x => Some x | inl _ => None end) w Hc Eg) as Hc1.
  assert (Hs1 : spent (mkClimb (cl_o c) (cl_config c) (cl_score c) (wrap64 (cl_evaluations c + 1)) w
    ((nb, match res with inr x => Some x | inl _ => None end) :: cl_log c))).
  { split; [exact Hc1|]. unfold len in *. simpl. lia. }
  destruct res as [[e []]|x]; [by split|by apply (IH _ _ _ Hs1)|]. destruct (fltb x score); by apply (IH _ _ _ Hs1).
Qed.
Lemma spent_o c o : spent c → opt_maxEvaluations o = opt_maxEvaluations (cl_o c) → spent (c <| cl_o := o |>).
Proof. intros [Hc Hs] Ho. split; [|done]. unfold counted in *. cbn. by rewrite Ho. Qed.
Lemma adopt_spent iteration best score c :
  spent c → let c' := (adopt iteration best score c).2 in
  spent c' ∧ opt_maxEvaluations (cl_o c') = opt_maxEvaluations (cl_o c).
Proof.
  intros Hs. cbv zeta. unfold adopt.
  assert (Hr : ∀ i x cfg o, opt_maxEvaluations o = opt_maxEvaluations (cl_o c) →
    opt_maxEvaluations (record_step i x cfg o) = opt_maxEvaluations (cl_o c))
    by (intros i x cfg o <-; apply record_step_eq).
  destruct (fltb score (cl_score c)); cbn [snd].
  - match goal with |- spent (_ <| cl_o := ?o |>) ∧ _ => assert (Ho : opt_maxEvaluations o = opt_maxEvaluations (cl_o c))
      by (apply Hr; by destruct (fltb _ _)); split; [by apply (spent_o (c <| cl_config := best |> <| cl_score := score |>) o)|exact Ho] end.
  - pose proof (Hr iteration (cl_score c) (cl_config c) (cl_o c) eq_refl) as Ho. pose proof (spent_o c _ Hs Ho).
    destruct (opt_convergenceStrategy _); by split.
Qed.
Lemma iterations_spent n i c : spent c → let c' := (iterations evaluateFunc n i c).2 in
  spent c' ∧ opt_maxEvaluations (cl_o c') = opt_maxEvaluations (cl_o c).
Proof.
  cbv zeta. revert i c. induction n as [|n IH]; intros i c Hs; cbn [iterations]; [done|].
  destruct (generateNeighbors _ _) as [nbs o] eqn:En.
  assert (Ho : opt_maxEvaluations o = opt_maxEvaluations (cl_o c)) by (unfold generateNeighbors in En; by injection En as _ <-).
  pose proof (spent_o c o Hs Ho) as Hs1. set (c1 := c <| cl_o := o |>) in *.
  change (opt_maxEvaluations (cl_o c1) = opt_maxEvaluations (cl_o c)) in Ho. rewrite <-Ho. clearbody c1. clear Hs Ho En c.
  destruct nbs as [|first nbs]; [done|].
  pose proof (evaluate_neighbors_spent (first :: nbs) first math_MaxFloat64 c1 Hs1) as [Hs2 Ho2].
  destruct (evaluate_neighbors _ _ _ _ _) as [r c2]. simpl in Hs2, Ho2. rewrite <-Ho2.
  destruct r as [b s| |e]; [|done..].
  pose proof (adopt_spent i b s c2 Hs2) as [Hs3 Ho3]. destruct (adopt i b s c2) as [ra c3]. simpl in Hs3, Ho3.
  rewrite <-Ho3. destruct ra as [[res|]| |]; try done. by apply IH.
Qed.
(** A run with a cap starts no more simulations than it. *)
Lemma Optimize_spent (o : Optimizer) initial : 0 < opt_maxEvaluations o ≤ int64_max →
  sims (cl_world (Optimize evaluateFunc o initial w0).2) ≤ sims w0 + opt_maxEvaluations o.
Proof.
  intros Hm. unfold Optimize. destruct (evaluateFunc initial w0) as [r w] eqn:Ee. apply eval_sims in Ee.
  destruct r as [[e []]|x]; simpl; [lia..|].
  set (o1 := record_step 0 x initial _).
  assert (Ho1 : opt_maxEvaluations o1 = opt_maxEvaluations o) by (unfold o1; by rewrite (proj1 (record_step_eq _ _ _ _))).
  clearbody o1. set (c1 := mkClimb o1 _ x 1 w _).
  assert (Hs1 : spent c1).
  { split; [|unfold len; simpl; lia]. unfold counted. simpl. rewrite Ho1. split_and!; [done|lia|unfold len; simpl; lia]. }
  pose proof (iterations_spent (Z.to_nat (opt_maxIterations o1)) 1 c1 Hs1) as [[(_ & _ & Hc) Hs] Ho].
  simpl in Ho. rewrite Ho, Ho1 in Hc. specialize (Hc (proj1 Hm)). lia.
Qed.
End cost.

(** * Runs over two services *)

Definition cost_eval (sc : Scenario) (w : unit) : ((string * bool) + float64) * unit :=
  (inr (EvaluateInfrastructureCost (Some sc)), w).
#[local] Abbreviation cost_run iterations cap :=
  (Optimize cost_eval (WithMaxEvaluations cap (NewOptimizer None iterations f1)) (two_services (f64_of_Z 512)) tt).
Lemma hill_climb_sound_witness : ∃ res c cfg, cost_run 2 0 = (Ok res, c) ∧ opr_BestConfig res = Some cfg ∧
  scored (cl_log c) cfg (opr_BestScore res) ∧ minimal (cl_log c) (opr_BestScore res).
Proof.
  assert (Eok : match (cost_run 2 0).1 with
                | Ok res => String.eqb (opr_ConvergenceReason res) "max iterations reached" | _ => false end = true)
    by (vm_compute; reflexivity).
  destruct (cost_run 2 0) as [[res| |] c] eqn:E; [|discriminate..]. simpl in Eok. apply String.eqb_eq in Eok.
  destruct (hill_climb_sound cost_eval (WithMaxEvaluations 0 (NewOptimizer None 2 f1)) (two_services (f64_of_Z 512)) tt
    (EvaluateInfrastructureCost (Some (two_services (f64_of_Z 512)))) tt (Ok res) c) as [_ H].
  - reflexivity.
  - vm_compute. reflexivity.
  - vm_compute. reflexivity.
  - vm_compute. discriminate.
  - exact E.
  - destruct (H res eq_refl) as ((cfg & H1 & H2) & _ & H3). exists res, c, cfg. split_and!; [done..|].
    apply H3. rewrite Eok. discriminate.
Defined.
(** At the cap, the scores of the unfinished round are thrown away: the third evaluation is
    cheaper than the initial scenario, and the result is the initial scenario. *)
Example cap_discards_improvement :
  match cost_run 2 3 with
  | (Ok res, c) =>
      feqb (opr_BestScore res) (EvaluateInfrastructureCost (Some (two_services (f64_of_Z 512)))) &&
      existsb (λ e, match e.2 with Some x => fltb x (opr_BestScore res) | None => false end) (cl_log c)
  | _ => false
  end = true.
Proof. vm_compute. reflexivity. Qed.
(** After an infinite initial score a round in which every evaluation fails still moves: the
    score it starts from is below infinity, and the first neighbour is returned with it. *)
Definition failing_eval (sc : Scenario) (first : bool) : ((string * bool) + float64) * bool :=
  (if first then inr (f64_inf false) else inl ("invalid", false), false).
Example failed_round_is_adopted :
  match Optimize failing_eval (NewOptimizer None 1 f1) (two_services (f64_of_Z 512)) true with
  | (Ok res, c) =>
      feqb (opr_BestScore res) math_MaxFloat64 &&
      forallb (λ e, match e.2 with Some x => feqb x (f64_inf false) | None => true end) (cl_log c)
  | _ => false
  end = true.
Proof. vm_compute. reflexivity. Qed.
(** After the deadline of the experiment every evaluation fails with an error that is not a
    cancellation. The rounds go on without evaluating anything and end as converged. *)
Definition deadline_eval (sc : Scenario) (first : bool) : ((string * bool) + float64) * bool :=
  (if first then inr f1 else inl ("context deadline exceeded", false), false).
Example deadline_ends_as_converged :
  match Optimize deadline_eval (NewOptimizer None 10 f1) (two_services (f64_of_Z 512)) true with
  | (Ok res, _) => opr_Converged res
  | _ => false
  end = true.
Proof. vm_compute. reflexivity. Qed.
