(* ===== verification/Orchestrator.v ===== *)
(** Experiments of many simulations ([orchestrator.go], [orchestrator_batch.go], [safety.go]
    of [internal/improvement], and the adapter of [cmd/simd/main.go] that starts them).

    A candidate runs in the run store and the executor while the orchestrator polls. What the
    orchestrator observes of it (whether the context ends first, the generated run ID, the
    answers of the store at each tick) is a [candidate_env], taken from a world that the
    requests change. Wall-clock fields are left out. The adapter waits for one experiment in a
    goroutine of its own; here it calls it. *)
From S2P Require Import Prelude GoFloat Utils Policy Config Graph BrokerQueue BatchSpec Instance ResourceManager ServiceModel.
From S2P Require Import RunStore Limits RunControl ConfigHash RunMetrics BatchNeighbors BatchSearch BatchSearchSpec HillClimb.
From Stdlib Require Import SpecFloat.
#[local] Open Scope string_scope.
#[local] Open Scope list_scope.
#[local] Open Scope Z_scope.

(** * State *)

Inductive RunStatus := RunStatusPending | RunStatusRunning | RunStatusCompleted | RunStatusFailed.
#[export] Instance RunStatus_eq_dec : EqDecision RunStatus.
Proof. solve_decision. Defined.
Inductive CandidateOutcome :=
  | OutcomeUnset | CandidateSucceeded | CandidateFailed | CandidateTimedOut | CandidateCancelled
  | CandidateLimitExceeded | CandidateInvalidConfig.
(** An error: its message and whether it is [context.Canceled]. *)
Definition error : Type := string * bool.
Inductive ctx_error := Canceled | DeadlineExceeded.
Definition ctx_Error (e : ctx_error) : error :=
  match e with Canceled => ("context canceled", true) | DeadlineExceeded => ("context deadline exceeded", false) end.
Definition wrapped (prefix : string) (e : error) : error := (prefix +:+ e.1, e.2).
Record RunContext := mkRunContext {
  rcx_RunID : string;
  rcx_Config : Scenario;
  rcx_Status : RunStatus;
  rcx_Score : float64;
  rcx_Metrics : option RunMetrics;
  rcx_Error : option error;
  rcx_Outcome : CandidateOutcome;
  rcx_Reason : string;
  rcx_HasMetrics : bool;
}.
#[export] Instance eta_RunContext : Eta RunContext := λ r, mkRunContext (rcx_RunID r) (rcx_Config r) (rcx_Status r)
  (rcx_Score r) (rcx_Metrics r) (rcx_Error r) (rcx_Outcome r) (rcx_Reason r) (rcx_HasMetrics r).
(** The store, the executor and the semaphore belong to the world. *)
Record Orchestrator := mkOrchestrator {
  orc_optimizer : Optimizer;
  orc_objective : option ObjectiveFunction;
  orc_activeRuns : gmap string RunContext;
  orc_maxParallelRuns : Z;
  orc_safety : OptimizationSafetyLimits;
  orc_failedCandidates : Z;
  orc_batchCandidateStore : option CandidateStore;
}.
#[export] Instance eta_Orchestrator : Eta Orchestrator := λ r, mkOrchestrator (orc_optimizer r) (orc_objective r)
  (orc_activeRuns r) (orc_maxParallelRuns r) (orc_safety r) (orc_failedCandidates r) (orc_batchCandidateStore r).
Definition NewOrchestrator (safety : OptimizationSafetyLimits) (optimizer : Optimizer) (objective : option ObjectiveFunction)
    : Orchestrator := mkOrchestrator optimizer objective ∅ 1 safety 0 None.
Definition WithMaxParallelRuns (max : Z) (o : Orchestrator) : Orchestrator :=
  o <| orc_maxParallelRuns := if max <? 1 then 1 else max |>.
Record ExperimentResult := mkExperimentResult {
  exr_BestConfig : option Scenario;
  exr_BestScore : float64;
  exr_BestRunID : string;
  exr_Iterations : Z;
  exr_TotalRuns : Z;
  exr_CompletedRuns : Z;
  exr_FailedRuns : Z;
  exr_Runs : list RunContext;
  exr_Converged : bool;
  exr_ConvergenceReason : string;
  exr_Batch : option BatchSearchResult;
  exr_BatchCandidateRunIDs : list string;
}.
Definition DefaultOptimizationSafetyConfig : OptimizationSafetyLimits :=
  mkOptSafety 128 20 2 (20 * Minute) (90 * Second) 16 64 10000 true.
Definition OptimizationSafetyConfigFromEnv (ParseDuration : string → go Duration) (Getenv : string → string)
    : OptimizationSafetyLimits :=
  let cfg := DefaultOptimizationSafetyConfig in
  mkOptSafety
    (pos_or (getenvInt32 Getenv "SIMD_OPTIMIZATION_MAX_EVALUATIONS") (os_MaxEvaluations cfg))
    (pos_or (getenvInt32 Getenv "SIMD_OPTIMIZATION_MAX_ITERATIONS") (os_MaxIterations cfg))
    (pos_or (getenvInt Getenv "SIMD_OPTIMIZATION_MAX_CONCURRENT_CANDIDATES") (os_MaxConcurrentCandidates cfg))
    (pos_or (getenvDuration ParseDuration Getenv "SIMD_OPTIMIZATION_MAX_WALL_CLOCK_RUNTIME") (os_MaxWallClockRuntime cfg))
    (pos_or (getenvDuration ParseDuration Getenv "SIMD_OPTIMIZATION_CANDIDATE_MAX_WALL_CLOCK_RUNTIME") (os_CandidateMaxWallClock cfg))
    (pos_or (getenvInt Getenv "SIMD_OPTIMIZATION_MAX_FAILED_CANDIDATES") (os_MaxFailedCandidates cfg))
    (pos_or (getenvInt Getenv "SIMD_OPTIMIZATION_MAX_RETAINED_CANDIDATES") (os_MaxRetainedCandidates cfg))
    (pos_or (getenvInt64 Getenv "SIMD_OPTIMIZATION_DEFAULT_EVALUATION_DURATION") (os_DefaultEvaluationDuration cfg))
    (default (os_AllowBatch cfg) (getenvBool Getenv "SIMD_OPTIMIZATION_ALLOW_BATCH")).

(** * One candidate *)

(** The run as the store returns it. *)
Record candidate_view := mkView {
  cvw_Status : Status;
  cvw_Metrics : option RunMetrics;
  cvw_Error : string;
}.
Record candidate_env := mkCandidateEnv {
  (** the context ends before a slot of the semaphore is free *)
  cev_acquire : option ctx_error;
  (** the errors of marshalling, of reading random bytes, of [Create] and of [Start] *)
  cev_marshal : option string;
  cev_random : option string;
  cev_runID : string;
  cev_create : option string;
  cev_start : option string;
  (** the answers of the store at the ticks, and how the completion context and [ctx] end *)
  cev_ticks : list (option candidate_view);
  cev_done : ctx_error;
  cev_parent : option ctx_error;
}.
Record candidate_request := mkRequest {
  crq_scenario : Scenario;
  crq_durationMs : Z;
  crq_seed : Z;
  crq_timeout : Duration;
  crq_pollInterval : Duration;
}.
Definition completion_timeout (durationMs : Z) : Duration :=
  let timeout := wrap64 (durationMs * Millisecond) in
  if durationMs <? 5000 then if timeout <? 10 * Second then 10 * Second else timeout
  else wrap64 ((if timeout <? 30 * Second then 30 * Second else timeout) * 2).
Definition poll_interval (durationMs : Z) : Duration :=
  if durationMs <? 5000 then 100 * Millisecond else 500 * Millisecond.
Definition too_many_failures (o : Orchestrator) : bool := os_MaxFailedCandidates (orc_safety o) <=? orc_failedCandidates o.
Definition change_run (runID : string) (f : RunContext → RunContext) (o : Orchestrator) : Orchestrator :=
  o <| orc_activeRuns := alter f runID (orc_activeRuns o) |>.
Definition count_failure (o : Orchestrator) : Orchestrator :=
  o <| orc_failedCandidates := wrap32 (orc_failedCandidates o + 1) |>.
Definition failed (err : error) (outcome : CandidateOutcome) (reason : string) (r : RunContext) : RunContext :=
  r <| rcx_Status := RunStatusFailed |> <| rcx_Error := Some err |> <| rcx_Outcome := outcome |> <| rcx_Reason := reason |>.
(** A run that fails, is counted as failed and ends the evaluation with [ret]. *)
Definition fail_run (runID : string) (err : error) (outcome : CandidateOutcome) (reason : string) (ret : error)
    (o : Orchestrator) : (error + RunMetrics) * Orchestrator :=
  (inl ret, count_failure (change_run runID (failed err outcome reason) o)).
Definition evaluateRunScore (scenario : Scenario) (metrics : RunMetrics) (o : Orchestrator) : error + float64 :=
  match orc_objective o with
  | None => inl ("objective function is nil", false)
  | Some obj =>
      if String.eqb (Objective_Name obj) "cost" then inr (EvaluateInfrastructureCost (Some scenario))
      else match Objective_Evaluate obj (Some metrics) with
           | Ok score => inr score
           | Fail e => inl (e, false)
           | Panic => inl ("", false)
           end
  end.
Definition Contains (s sub : string) : bool := match String.index 0 sub s with Some _ => true | None => false end.
(** The run has completed. *)
Definition completed_run (runID : string) (scenario : Scenario) (metrics : option RunMetrics) (o : Orchestrator)
    : (error + RunMetrics) * Orchestrator :=
  match metrics with
  | None =>
      let err := ("run completed but no metrics available", false) in fail_run runID err CandidateFailed err.1 err o
  | Some metrics =>
      match evaluateRunScore scenario metrics o with
      | inl evalErr =>
          let err := wrapped "failed to evaluate objective: " evalErr in fail_run runID err CandidateFailed err.1 evalErr o
      | inr score =>
          (inr metrics, change_run runID (λ r, r <| rcx_Status := RunStatusCompleted |> <| rcx_Score := score |>
             <| rcx_Metrics := Some metrics |> <| rcx_Outcome := CandidateSucceeded |> <| rcx_Reason := "" |>
             <| rcx_HasMetrics := true |>) o)
      end
  end.
(** The polling loop. *)
Fixpoint poll_run (env : candidate_env) (runID : string) (scenario : Scenario) (ticks : list (option candidate_view))
    (o : Orchestrator) : (error + RunMetrics) * Orchestrator :=
  match ticks with
  | [] =>
      let err := ctx_Error (cev_done env) in
      let ret := match cev_parent env with Some e => ctx_Error e | None => err end in
      match cev_done env with
      | DeadlineExceeded => fail_run runID err CandidateTimedOut "candidate timeout" ret o
      | Canceled => fail_run runID err CandidateCancelled err.1 ret o
      end
  | None :: _ =>
      let err := ("run not found", false) in
      (inl err, change_run runID (λ r, r <| rcx_Status := RunStatusFailed |> <| rcx_Error := Some err |>) o)
  | Some rec :: ticks =>
      match cvw_Status rec with
      | COMPLETED => completed_run runID scenario (cvw_Metrics rec) o
      | FAILED | CANCELLED | STOPPED =>
          let err := ("run failed: " +:+ cvw_Error rec, false) in
          fail_run runID err (if Contains (ToLower (cvw_Error rec)) "limit" then CandidateLimitExceeded else CandidateFailed)
            (cvw_Error rec) err o
      | _ => poll_run env runID scenario ticks o
      end
  end.
Section experiment.
  Context {E : Type} (next : candidate_request → E → candidate_env * E) (ctxErr : E → option ctx_error).
  Context (sort : ∀ A : Type, (A → A → bool) → list A → list A).
  Context (order : gmap Z string → list Z) (runs_order : gmap string RunContext → list string).
Definition evaluateConfigurationMetrics (scenario : Scenario) (durationMs : Z) (cand : option CandidateStore) (seed : Z)
    (o : Orchestrator) (w : E) : (error + RunMetrics) * option CandidateStore * Orchestrator * E :=
  if too_many_failures o then (inl ("max failed candidates reached", false), cand, o, w)
  else
    let durationMs := if durationMs <=? 0 then os_DefaultEvaluationDuration (orc_safety o) else durationMs in
    let '(env, w) := next (mkRequest scenario durationMs seed (completion_timeout durationMs) (poll_interval durationMs)) w in
    match cev_acquire env, cev_marshal env, cev_random env, cev_create env with
    | Some e, _, _, _ => (inl (ctx_Error e), cand, o, w)
    | _, Some e, _, _ => (inl ("failed to marshal scenario: " +:+ e, false), cand, o, w)
    | _, _, Some e, _ => (inl ("failed to generate run ID: " +:+ e, false), cand, o, w)
    | _, _, _, Some e => (inl ("failed to create run: " +:+ e, false), cand, o, w)
    | None, None, None, None =>
        let runID := cev_runID env in
        let cand := CandidateStore_Register (ConfigHash (Some scenario)) runID <$> cand in
        let o := o <| orc_activeRuns := <[runID := mkRunContext runID scenario RunStatusPending f0 None None OutcomeUnset "" false]>
                        (orc_activeRuns o) |> in
        match cev_start env with
        | Some e =>
            let '(r, o) := fail_run runID (e, false) CandidateFailed e ("failed to start run: " +:+ e, false) o in
            (r, cand, o, w)
        | None =>
            let o := change_run runID (λ r, r <| rcx_Status := RunStatusRunning |>) o in
            let '(r, o) := poll_run env runID scenario (cev_ticks env) o in
            (r, cand, o, w)
        end
    end.
Definition evaluateConfiguration (scenario : Scenario) (durationMs : Z) (w : Orchestrator * E)
    : (error + float64) * (Orchestrator * E) :=
  let '(r, _, o, e) := evaluateConfigurationMetrics scenario durationMs None 0 w.1 w.2 in
  match r with
  | inl err => (inl err, (o, e))
  | inr metrics => (evaluateRunScore scenario metrics o, (o, e))
  end.

(** * Experiments *)

(** A configuration is found by its hash, first in the candidates of the batch experiment. *)
Definition findRunContextForConfig (scenario : Scenario) (o : Orchestrator) : option RunContext :=
  let registered :=
    match orc_batchCandidateStore o with
    | Some store => match CandidateStore_Lookup (ConfigHash (Some scenario)) store with
                    | Some rid => orc_activeRuns o !! rid | None => None end
    | None => None
    end in
  match registered with
  | Some rc => Some rc
  | None => List.find (λ rc, ScenarioSemanticsEqual (Some (rcx_Config rc)) (Some scenario))
              (omap (λ id, orc_activeRuns o !! id) (runs_order (orc_activeRuns o)))
  end.
Definition RunExperiment (initialConfig : option Scenario) (durationMs : Z) (o : Orchestrator) (w : E)
    : go ExperimentResult * (Orchestrator * E) :=
  let o := o <| orc_failedCandidates := 0 |> in
  match initialConfig with
  | None => (Fail "initial configuration is required", (o, w))
  | Some initialConfig =>
      let '(r, c) := Optimize (λ sc w, evaluateConfiguration sc durationMs w) (orc_optimizer o) initialConfig (o, w) in
      let '(o, w) := cl_world c in
      let o := o <| orc_optimizer := cl_o c |> in
      (let! opt := wrap_err "optimization failed: " r in
       let runs := omap (λ step, findRunContextForConfig (ops_Config step) o) (opr_History opt) in
       let with_status s := len (filter (λ rc, rcx_Status rc = s) runs) in
       Ok {| exr_BestConfig := opr_BestConfig opt; exr_BestScore := opr_BestScore opt;
             exr_BestRunID := match opr_BestConfig opt with
                              | Some cfg => match findRunContextForConfig cfg o with Some rc => rcx_RunID rc | None => "" end
                              | None => ""
                              end;
             exr_Iterations := opr_Iterations opt; exr_TotalRuns := len runs;
             exr_CompletedRuns := with_status RunStatusCompleted; exr_FailedRuns := with_status RunStatusFailed;
             exr_Runs := runs; exr_Converged := opr_Converged opt; exr_ConvergenceReason := opr_ConvergenceReason opt;
             exr_Batch := None; exr_BatchCandidateRunIDs := [] |}, (o, w))
  end.
(** The seed of the re-evaluation [i]. *)
Definition candidate_seed (spec : BatchSpec) (sc : Scenario) (i : Z) : Z :=
  if bs_DeterministicCandidateSeeds spec then Z.lxor (ConfigHash (Some sc) mod (2 ^ 63 - 1)) (i + 1) else 0.
(** The re-evaluations of a candidate. *)
Fixpoint reevaluate (spec : BatchSpec) (durationMs : Z) (sc : Scenario) (n : nat) (i : Z) (runs : list RunMetrics)
    (cand : option CandidateStore) (o : Orchestrator) (w : E)
    : (error + list RunMetrics) * option CandidateStore * Orchestrator * E :=
  match n with
  | O => (inr runs, cand, o, w)
  | S n =>
      match evaluateConfigurationMetrics sc durationMs cand (candidate_seed spec sc i) o w with
      | (inl err, cand, o, w) => (inl err, cand, o, w)
      | (inr m, cand, o, w) => reevaluate spec durationMs sc n (i + 1) (runs ++ [m]) cand o w
      end
  end.
(** The evaluation function of a batch experiment. *)
Definition batch_eval (spec : BatchSpec) (durationMs : Z) (sc : Scenario) (cand : CandidateStore) (w : Orchestrator * E)
    : (string + option RunMetrics * Z) * CandidateStore * (Orchestrator * E) :=
  if too_many_failures w.1 then (inl "max failed candidates reached", cand, w)
  else
    let n := reevaluations spec in
    let '(r, cand', o, e) := reevaluate spec durationMs sc (Z.to_nat n) 0 [] (Some cand) w.1 w.2 in
    let cand := default cand cand' in
    match r with
    | inl err => (inl err.1, cand, (o, e))
    | inr runs => (inr (AggregateRunMetrics (Some <$> runs), n), cand, (o, e))
    end.
Definition RunBatchExperiment (initial : option Scenario) (durationMs : Z) (pb : option BatchOptimizationConfig)
    (maxEvaluations : Z) (o : Orchestrator) (w : E) : go ExperimentResult * (Orchestrator * E) :=
  let o := o <| orc_failedCandidates := 0 |> in
  match initial with
  | None => (Fail "initial configuration is required", (o, w))
  | Some initial =>
      match ParseBatchSpec pb (Some initial) with
      | Fail e => (Fail e, (o, w))
      | Panic => (Panic, (o, w))
      | Ok spec =>
          let '(r, s) := RunBatchBeamSearch (batch_eval spec durationMs) (λ w, fst ∘ ctx_Error <$> ctxErr w.2) sort order
            spec initial maxEvaluations (Some NewCandidateStore) (o, w) in
          let '(o, w) := se_world s in
          let cand := se_cand s in
          (let! b := r in
           let ids := CandidateStore_SortedBatchCandidateRunIDs (order (cst_m cand)) cand in
           Ok {| exr_BestConfig := Some (bsr_BestScenario b);
                 exr_BestScore := sco_EfficiencyScore (bsr_BestScore b);
                 exr_BestRunID := if is_empty (bsr_BestRunID b)
                                  then default "" (CandidateStore_Lookup (ConfigHash (Some (bsr_BestScenario b))) cand)
                                  else bsr_BestRunID b;
                 exr_Iterations := bsr_Evaluations b; exr_TotalRuns := CandidateStore_Len cand;
                 exr_CompletedRuns := CandidateStore_Len cand; exr_FailedRuns := 0;
                 exr_Runs := omap (λ rid, orc_activeRuns o !! rid) ids;
                 exr_Converged := true; exr_ConvergenceReason := "batch_beam"; exr_Batch := Some b;
                 exr_BatchCandidateRunIDs := ids |}, (o, w))
      end
  end.

(** * Tracking *)

Definition GetActiveRuns (o : Orchestrator) : list RunContext :=
  omap (λ id, orc_activeRuns o !! id) (runs_order (orc_activeRuns o)).
Definition GetRunContext (runID : string) (o : Orchestrator) : option RunContext := orc_activeRuns o !! runID.
Definition GetActiveRunCount (o : Orchestrator) : Z := Z.of_nat (size (orc_activeRuns o)).
Definition CleanupCompletedRuns (o : Orchestrator) : Orchestrator :=
  o <| orc_activeRuns := filter (λ kv, negb (bool_decide (rcx_Status kv.2 = RunStatusCompleted) ||
                                             bool_decide (rcx_Status kv.2 = RunStatusFailed)) = true) (orc_activeRuns o) |>.

(** * The adapter of the server *)

Definition first_occurrences (ids : list string) : list string :=
  reverse (foldl (λ acc id, if bool_decide (id ∈ acc) then acc else id :: acc) [] ids).
(** At most [n] identifiers, each once, in order; the loop stops when [n] are found. *)
Definition top_ids (n : Z) (ids : list string) : list string := take (Z.to_nat n) (first_occurrences ids).
Definition with_best (best : string) (out : list string) : list string :=
  if negb (is_empty best) && negb (bool_decide (best ∈ out)) then out ++ [best] else out.
Definition trimTopBatchCandidates (ordered : list string) (bestRunID : string) (n : Z) : list string :=
  let ids := filter (λ id, is_empty id = false) ordered in
  if (n <=? 0) || (len ordered <=? n) then first_occurrences ids else with_best bestRunID (top_ids n ids).
Definition buildTopCandidateRunIDs (r : ExperimentResult) (n : Z) : list string :=
  match exr_BatchCandidateRunIDs r with
  | _ :: _ => trimTopBatchCandidates (exr_BatchCandidateRunIDs r) (exr_BestRunID r) n
  | [] =>
      let runs := filter (λ rc, is_empty (rcx_RunID rc) = false) (exr_Runs r) in
      if (n <=? 0) || (len runs <=? n) then first_occurrences (rcx_RunID <$> runs)
      else with_best (exr_BestRunID r)
             (top_ids n (rcx_RunID <$> sort RunContext (λ a b, fltb (rcx_Score a) (rcx_Score b)) runs))
  end.
Record adapter_result := mkAdapterResult {
  adr_bestRunID : string;
  adr_bestScore : float64;
  adr_iterations : Z;
  adr_candidateRunIDs : list string;
}.
Definition clamp_int32 (n : Z) : Z := Z.max 0 (Z.min n math_MaxInt32).
(** The experiment the parameters ask for, or why it is refused. *)
Inductive experiment_plan :=
  | PlanBatch (objective : ObjectiveFunction) (batch : BatchOptimizationConfig) (maxEval : Z)
  | PlanHillClimb (objective : ObjectiveFunction) (optimizer : Optimizer).
Definition plan_experiment (safety : OptimizationSafetyLimits) (params : OptimizationParams) : go experiment_plan :=
  let objName := if is_empty (op_Objective params) then "p95_latency_ms" else op_Objective params in
  let low := op_TargetUtilLow params in
  let high := op_TargetUtilHigh params in
  let utilTarget :=
    if (String.eqb objName "cpu_utilization" || String.eqb objName "memory_utilization") &&
       fleb f0 low && fleb high f1 && fltb low high then Some (mkTarget low high) else None in
  let! objective := NewObjectiveFunction objName utilTarget in
  let maxIter := if op_MaxIterations params <=? 0 then 10 else op_MaxIterations params in
  fail_if ((0 <? os_MaxIterations safety) && (os_MaxIterations safety <? maxIter))
    ("optimization max_iterations " +:+ Itoa maxIter +:+ " exceeds server limit " +:+ Itoa (os_MaxIterations safety)) ;;!
  let stepSize := if fleb (op_StepSize params) f0 then f1 else op_StepSize params in
  let limit n := fail_if ((0 <? os_MaxEvaluations safety) && (os_MaxEvaluations safety <? n))
    ("optimization max_evaluations " +:+ Itoa n +:+ " exceeds server limit " +:+ Itoa (os_MaxEvaluations safety)) in
  match op_Batch params with
  | Some batch =>
      fail_if (negb (os_AllowBatch safety)) "batch optimization disabled by server" ;;!
      let maxEval := if op_MaxEvaluations params <=? 0 then os_MaxEvaluations safety else op_MaxEvaluations params in
      limit maxEval ;;!
      Ok (PlanBatch objective batch maxEval)
  | None =>
      let optimizer := WithProgressReporter true (NewOptimizer (Some objective) maxIter stepSize) in
      if 0 <? op_MaxEvaluations params
      then limit (op_MaxEvaluations params) ;;! Ok (PlanHillClimb objective (WithMaxEvaluations (op_MaxEvaluations params) optimizer))
      else if 0 <? os_MaxEvaluations safety
      then Ok (PlanHillClimb objective (WithMaxEvaluations (os_MaxEvaluations safety) optimizer))
      else Ok (PlanHillClimb objective optimizer)
  end.
Definition adapter_summary (topN : Z) (r : ExperimentResult) : adapter_result :=
  mkAdapterResult (exr_BestRunID r) (exr_BestScore r) (clamp_int32 (exr_Iterations r)) (buildTopCandidateRunIDs r topN).
(** [RunExperiment] of the adapter, when the context does not end first. *)
Definition adapter_RunExperiment (safety : OptimizationSafetyLimits) (topN : Z) (scenario : option Scenario) (durationMs : Z)
    (params : OptimizationParams) (w : E) : go adapter_result * E :=
  match plan_experiment safety params with
  | Fail e => (Fail e, w)
  | Panic => (Panic, w)
  | Ok (PlanBatch objective batch maxEval) =>
      let o := WithMaxParallelRuns (os_MaxConcurrentCandidates safety)
                 (NewOrchestrator safety (NewOptimizer (Some objective) 1 f1) (Some objective)) in
      let '(r, (_, w)) := RunBatchExperiment scenario durationMs (Some batch) maxEval o w in
      (let! r := r in Ok (adapter_summary topN r), w)
  | Ok (PlanHillClimb objective optimizer) =>
      let o := WithMaxParallelRuns (os_MaxConcurrentCandidates safety) (NewOrchestrator safety optimizer (Some objective)) in
      let '(r, (_, w)) := RunExperiment scenario durationMs o w in
      (let! r := r in Ok (adapter_summary topN r), w)
  end.
End experiment.

(** * How many simulations an experiment starts *)

Lemma Objective_Evaluate_total obj m : Objective_Evaluate obj m ≠ Panic.
Proof. unfold Objective_Evaluate. destruct m; [|done]. by destruct obj. Qed.
Lemma parse_reevaluations pb base spec : ParseBatchSpec (Some pb) (Some base) = Ok spec →
  bs_ReevalPerCandidate spec = pos_or (pb_ReevaluationsPerCandidate pb) (bs_ReevalPerCandidate (DefaultBatchSpec (Some base))).
Proof. intros (actions & _ & ->%validate_batch_spec_eq)%parse_batch_spec_inv. reflexivity. Qed.
Lemma default_reevaluations base : bs_ReevalPerCandidate (DefaultBatchSpec (Some base)) = 3.
Proof. unfold DefaultBatchSpec, initBoundsFromBaseline. by destruct (scn_Hosts base). Qed.
(** The cap of a plan. *)
Definition plan_cap (p : experiment_plan) : Z :=
  match p with PlanBatch _ _ n => n | PlanHillClimb _ o => opt_maxEvaluations o end.
Lemma plan_ok safety opt plan : 0 < os_MaxEvaluations safety →
  plan_experiment safety (optimization_params (Some opt)) = Ok plan →
  0 < plan_cap plan ≤ os_MaxEvaluations safety ∧ (0 < oc_MaxEvaluations opt → plan_cap plan = oc_MaxEvaluations opt) ∧
  match plan with PlanBatch _ pb _ => oc_Batch opt = Some pb | PlanHillClimb _ _ => True end.
Proof.
  intros Hs Ep. unfold plan_experiment in Ep. apply go_bind_ok in Ep as (obj & _ & Ep). apply go_bind_ok in Ep as (_ & _ & Ep).
  cbn [optimization_params op_Batch op_MaxEvaluations] in Ep. unfold applyMaxEvaluationsFromOpt in Ep.
  rewrite (proj2 (Z.ltb_lt 0 (os_MaxEvaluations safety))) in Ep by done. cbn [andb] in Ep.
  destruct (oc_Batch opt) as [pb|] eqn:Eb.
  - apply go_bind_ok in Ep as (_ & _ & Ep). apply go_bind_ok in Ep as (u & Hl%fail_if_ok & [= <-]).
    apply Z.ltb_ge in Hl. simpl. destruct (Z.ltb_spec 0 (oc_MaxEvaluations opt)).
    + destruct (Z.leb_spec (oc_MaxEvaluations opt) 0); [lia|]. split_and!; [lia..|done].
    + split_and!; [done|exact Hl|lia|done].
  - destruct (Z.ltb_spec 0 (oc_MaxEvaluations opt)).
    + rewrite (proj2 (Z.ltb_lt 0 (oc_MaxEvaluations opt))) in Ep by done.
      apply go_bind_ok in Ep as (u & Hl%fail_if_ok & [= <-]). apply Z.ltb_ge in Hl. simpl.
      destruct (Z.ltb_spec (oc_MaxEvaluations opt) 0); [lia|]. split_and!; [lia..|done].
    + injection Ep as <-. simpl. destruct (Z.ltb_spec (os_MaxEvaluations safety) 0); [lia|]. split_and!; [lia..|done].
Qed.
Section simulations.
  Context {E : Type} (next : candidate_request → E → candidate_env * E) (ctxErr : E → option ctx_error).
  Context (sort : ∀ A : Type, (A → A → bool) → list A → list A).
  Context (order : gmap Z string → list Z) (runs_order : gmap string RunContext → list string).
  (** The simulations started in a world: a request starts at most one. *)
  Context (sims : E → Z) (sort_perm : ∀ A lt (l : list A), sort A lt l ≡ₚ l).
  Context (next_sims : ∀ rq w, sims w ≤ sims (next rq w).2 ≤ sims w + 1).
Lemma evaluate_sims sc d cand seed o w r cand' o' w' :
  evaluateConfigurationMetrics next sc d cand seed o w = (r, cand', o', w') → sims w ≤ sims w' ≤ sims w + 1.
Proof.
  unfold evaluateConfigurationMetrics. destruct (too_many_failures o); [intros [= _ _ _ <-]; lia|].
  match goal with |- context [next ?rq w] => pose proof (next_sims rq w) as H; destruct (next rq w) as [env w1] end.
  simpl in H. destruct (cev_acquire env), (cev_marshal env), (cev_random env), (cev_create env);
    try (intros [= _ _ _ <-]; lia).
  destruct (cev_start env); [|destruct (poll_run _ _ _ _ _)]; intros [= _ _ _ <-]; lia.
Qed.
Lemma reevaluate_sims spec d sc n : ∀ i runs cand o w r cand' o' w',
  reevaluate next spec d sc n i runs cand o w = (r, cand', o', w') → sims w ≤ sims w' ≤ sims w + Z.of_nat n.
Proof.
  induction n as [|n IH]; intros i runs cand o w r cand' o' w'; cbn [reevaluate]; [intros [= _ _ _ <-]; lia|].
  destruct (evaluateConfigurationMetrics _ _ _ _ _ _ _) as [[[[err|m] c1] o1] w1] eqn:Ee; apply evaluate_sims in Ee.
  - intros [= _ _ _ <-]. lia.
  - intros H%IH. lia.
Qed.
Lemma batch_eval_sims spec d sc cand w r cand' w' : batch_eval next spec d sc cand w = (r, cand', w') →
  sims w'.2 ≤ sims w.2 + reevaluations spec.
Proof.
  assert (1 ≤ reevaluations spec) by (unfold reevaluations; case_match; lia).
  unfold batch_eval. destruct (too_many_failures w.1); [intros [= _ _ <-]; lia|].
  destruct (reevaluate _ _ _ _ _ _ _ _ _ _) as [[[res c1] o1] w1] eqn:Er. apply reevaluate_sims in Er.
  destruct res; intros [= _ _ <-]; simpl; lia.
Qed.
Lemma batch_eval_cost spec d sc cand w m cost cand' w' :
  batch_eval next spec d sc cand w = (inr (m, cost), cand', w') → cost = reevaluations spec.
Proof.
  unfold batch_eval. destruct (too_many_failures w.1); [done|].
  destruct (reevaluate _ _ _ _ _ _ _ _ _ _) as [[[[err|runs] c1] o1] w1]; intros [=]; done.
Qed.
Lemma batch_experiment_sims sc d pb cap o w : 0 < cap ≤ 2147483647 → pb_ReevaluationsPerCandidate pb ≤ 2147483647 →
  sims (RunBatchExperiment next ctxErr sort order sc d (Some pb) cap o w).2.2 ≤ sims w + cap.
Proof.
  intros Hcap Hre. unfold RunBatchExperiment. destruct sc as [sc|]; [|simpl; lia].
  destruct (ParseBatchSpec (Some pb) (Some sc)) as [spec| |] eqn:Ep; [|simpl; lia..].
  assert (Hrange : bs_ReevalPerCandidate spec ≤ 2147483647).
  { apply parse_reevaluations in Ep as ->. rewrite default_reevaluations. unfold pos_or. case_match; lia. }
  set (o1 := o <| orc_failedCandidates := 0 |>).
  pose proof (search_ok (batch_eval next spec d) (λ w, fst ∘ ctx_Error <$> ctxErr w.2) sort order spec sc cap
    (λ c c0 w0 m cost c' w', batch_eval_cost spec d c c0 w0 m cost c' w') sort_perm (proj2 Hcap) Hrange
    (λ w, sims w.2) (o1, w) (λ c c0 w0 r c' w', batch_eval_sims spec d c c0 w0 r c' w') (Some NewCandidateStore)) as H.
  unfold run in H. destruct (RunBatchBeamSearch _ _ _ _ _ _ _ _ _) as [r s]. destruct H as (Hi & _).
  pose proof (si_spent _ _ _ _ _ _ Hi (proj1 Hcap)) as Hs. destruct (se_world s). exact Hs.
Qed.
Lemma hill_climb_sims sc d o w : 0 < opt_maxEvaluations (orc_optimizer o) ≤ 2147483647 →
  sims (RunExperiment next runs_order sc d o w).2.2 ≤ sims w + opt_maxEvaluations (orc_optimizer o).
Proof.
  intros Hcap. unfold RunExperiment. destruct sc as [sc|]; [|simpl; lia].
  set (o1 := o <| orc_failedCandidates := 0 |>). change (orc_optimizer o) with (orc_optimizer o1) in *.
  pose proof (Optimize_spent (λ sc w, evaluateConfiguration next sc d w) (λ w, sims w.2) (o1, w)) as H.
  specialize (H ltac:(unfold evaluateConfiguration; intros ? [oo e] ? ?;
    destruct (evaluateConfigurationMetrics _ _ _ _ _ _ _) as [[[[?|?] ?] ?] ?] eqn:Ee;
    apply evaluate_sims in Ee; intros [= _ <-]; simpl in *; lia) (orc_optimizer o1) sc ltac:(unfold int64_max; lia)).
  destruct (Optimize _ _ _ _) as [r c]. simpl in H. destruct (cl_world c). exact H.
Qed.
(** C16: an optimisation never starts more simulations than the server allows. Whatever the
    candidates do (fail, time out, be cancelled), the experiment that a run's optimisation
    parameters lead to, by beam search or by hill climbing, starts at most the evaluations
    the server limit allows, and at most those the client asked for if it named a number. *)
Theorem experiment_simulations_bounded safety topN scenario durationMs opt w :
  0 < os_MaxEvaluations safety ≤ 2147483647 → oc_MaxEvaluations opt ≤ 2147483647 →
  (∀ pb, oc_Batch opt = Some pb → pb_ReevaluationsPerCandidate pb ≤ 2147483647) →
  let '(_, w') := adapter_RunExperiment next ctxErr sort order runs_order safety topN scenario durationMs
    (optimization_params (Some opt)) w in
  sims w' ≤ sims w + os_MaxEvaluations safety ∧
  (0 < oc_MaxEvaluations opt → sims w' ≤ sims w + oc_MaxEvaluations opt).
Proof.
  intros Hs Hm Hpb. unfold adapter_RunExperiment. destruct (plan_experiment _ _) as [plan| |] eqn:Ep; [|split; lia..].
  apply plan_ok in Ep as (Hcap & Hask & Hbatch); [|lia]. destruct plan as [obj pb n|obj opti]; simpl in Hcap, Hask.
  - pose proof (batch_experiment_sims scenario durationMs pb n (WithMaxParallelRuns (os_MaxConcurrentCandidates safety)
      (NewOrchestrator safety (NewOptimizer (Some obj) 1 f1) (Some obj))) w ltac:(lia) (Hpb pb Hbatch)) as H.
    destruct (RunBatchExperiment _ _ _ _ _ _ _ _ _ _) as [r [o' w']]. simpl in H. split; [lia|]. intros P. by rewrite <-Hask.
  - pose proof (hill_climb_sims scenario durationMs (WithMaxParallelRuns (os_MaxConcurrentCandidates safety)
      (NewOrchestrator safety opti (Some obj))) w ltac:(simpl; lia)) as H.
    destruct (RunExperiment _ _ _ _ _ _) as [r [o' w']]. simpl in H. split; [lia|]. intros P. by rewrite <-Hask.
Qed.
End simulations.
(** A world that counts its requests, in which every candidate completes at the second tick. *)
Definition counting_next (rq : candidate_request) (n : Z) : candidate_env * Z :=
  (mkCandidateEnv None None None ("opt-" +:+ Itoa n) None None
     [Some (mkView RUNNING None ""); Some (mkView COMPLETED (Some RunMetrics_zero) "")] DeadlineExceeded None, n + 1).
Definition asking (n : Z) (batch : option BatchOptimizationConfig) : OptimizationConfig :=
  mkOptConfig "" 0 f0 0 false f0 0 0 0 f0 f0 "" f0 f0 f0 n 0 f0 f0 0 0 0 f0 f0 0 0 false 0 0 batch f0 f0 f0.
Lemma experiment_simulations_bounded_witness :
  let '(_, n) := adapter_RunExperiment counting_next (λ _, None) stable_sort (λ m, (map_to_list m).*1)
    (λ m, (map_to_list m).*1) DefaultOptimizationSafetyConfig 0 (Some (two_services (f64_of_Z 512))) 1000
    (optimization_params (Some (asking 6 (Some (sample_batch_config []))))) 0 in
  n ≤ 6.
Proof.
  pose proof (experiment_simulations_bounded counting_next (λ _, None) stable_sort (λ m, (map_to_list m).*1)
    (λ m, (map_to_list m).*1) id (λ A lt l, sort_SliceStable_perm lt l)
    ltac:(intros; simpl; lia) DefaultOptimizationSafetyConfig 0 (Some (two_services (f64_of_Z 512))) 1000
    (asking 6 (Some (sample_batch_config []))) 0 ltac:(simpl; lia) ltac:(simpl; lia)
    ltac:(intros pb [= <-]; simpl; lia)) as H.
  destruct (adapter_RunExperiment _ _ _ _ _ _ _ _ _ _ _) as [r n]. destruct H as [_ H]. apply H. reflexivity.
Defined.
(** Hill climbing without a number of evaluations is capped at the server limit, where the
    executor leaves it unlimited. *)
Example hill_climb_default_cap : plan_cap <$> (match plan_experiment DefaultOptimizationSafetyConfig
  (optimization_params (Some (asking 0 None))) with Ok p => Some p | _ => None end) = Some 128.
Proof. vm_compute. reflexivity. Qed.
(** A candidate whose run has left the store does not count as failed. *)
Lemma vanished_run_not_counted env runID sc ticks o : 
  orc_failedCandidates (poll_run env runID sc (None :: ticks) o).2 = orc_failedCandidates o.
Proof. reflexivity. Qed.
