(* ===== verification/EngineMetrics.v ===== *)
(** [internal/metrics/helpers.go], the metric types of [pkg/models/types.go], the
    conversion to the protocol message of [internal/simd/executor.go] and the
    inventory of [executor_methods.go]: the snapshot of a run's metrics that the
    executor stores, the controller reads and the optimisers score. *)
From S2P Require Import Prelude GoFloat Utils Config BrokerQueue Instance ResourceManager Collector RunMetrics RunStore.
From Stdlib Require Import SpecFloat.
#[local] Open Scope string_scope.
#[local] Open Scope list_scope.
#[local] Open Scope Z_scope.

(** * Data *)

Record EngineServiceMetrics := mkEngineService {
  es_ServiceName : string;
  es_RequestCount : Z;
  es_ErrorCount : Z;
  es_LatencyP50 : float64;
  es_LatencyP95 : float64;
  es_LatencyP99 : float64;
  es_LatencyMean : float64;
  es_CPUUtilization : float64;
  es_MemoryUtilization : float64;
  es_ActiveReplicas : Z;
  es_ConcurrentRequests : Z;
  es_QueueLength : Z;
  es_QueueWaitP50Ms : float64;
  es_QueueWaitP95Ms : float64;
  es_QueueWaitP99Ms : float64;
  es_QueueWaitMeanMs : float64;
  es_ProcessingLatencyP50Ms : float64;
  es_ProcessingLatencyP95Ms : float64;
  es_ProcessingLatencyP99Ms : float64;
  es_ProcessingLatencyMeanMs : float64;
}.
#[export] Instance eta_EngineServiceMetrics : Eta EngineServiceMetrics := λ r, mkEngineService
  (es_ServiceName r) (es_RequestCount r) (es_ErrorCount r) (es_LatencyP50 r) (es_LatencyP95 r)
  (es_LatencyP99 r) (es_LatencyMean r) (es_CPUUtilization r) (es_MemoryUtilization r) (es_ActiveReplicas r)
  (es_ConcurrentRequests r) (es_QueueLength r) (es_QueueWaitP50Ms r) (es_QueueWaitP95Ms r)
  (es_QueueWaitP99Ms r) (es_QueueWaitMeanMs r) (es_ProcessingLatencyP50Ms r) (es_ProcessingLatencyP95Ms r)
  (es_ProcessingLatencyP99Ms r) (es_ProcessingLatencyMeanMs r).
Record EngineHostMetrics := mkEngineHost {
  eh_HostID : string;
  eh_CPUUtilization : float64;
  eh_MemoryUtilization : float64;
}.
#[export] Instance eta_EngineHostMetrics : Eta EngineHostMetrics := λ r, mkEngineHost (eh_HostID r)
  (eh_CPUUtilization r) (eh_MemoryUtilization r).
(** [models.RunMetrics]. The rows of [EndpointRequestStats] and [InstanceRouteStats]
    have the fields of the protocol messages of the same names. *)
Record EngineRunMetrics := mkEngineRun {
  em_TotalRequests : Z;
  em_SuccessfulRequests : Z;
  em_FailedRequests : Z;
  em_LatencyP50 : float64;
  em_LatencyP95 : float64;
  em_LatencyP99 : float64;
  em_LatencyMean : float64;
  em_ThroughputRPS : float64;
  em_IngressRequests : Z;
  em_InternalRequests : Z;
  em_IngressThroughputRPS : float64;
  em_IngressFailedRequests : Z;
  em_IngressErrorRate : float64;
  em_AttemptFailedRequests : Z;
  em_AttemptErrorRate : float64;
  em_RetryAttempts : Z;
  em_TimeoutErrors : Z;
  em_QueueEnqueueCountTotal : Z;
  em_QueueDequeueCountTotal : Z;
  em_QueueDropCountTotal : Z;
  em_QueueRedeliveryCountTotal : Z;
  em_QueueDlqCountTotal : Z;
  em_QueueDepthSum : float64;
  em_TopicPublishCountTotal : Z;
  em_TopicDeliverCountTotal : Z;
  em_TopicDropCountTotal : Z;
  em_TopicRedeliveryCountTotal : Z;
  em_TopicDlqCountTotal : Z;
  em_TopicBacklogDepthSum : float64;
  em_TopicConsumerLagSum : float64;
  em_QueueOldestMessageAgeMs : float64;
  em_TopicOldestMessageAgeMs : float64;
  em_MaxQueueDepth : float64;
  em_MaxTopicBacklogDepth : float64;
  em_MaxTopicConsumerLag : float64;
  em_QueueDropRate : float64;
  em_TopicDropRate : float64;
  em_CPUUtilization : float64;
  em_MemoryUtilization : float64;
  em_ServiceMetrics : gmap string EngineServiceMetrics;
  em_HostMetrics : gmap string EngineHostMetrics;
  em_EndpointRequestStats : list EndpointRequestStats;
  em_InstanceRouteStats : list InstanceRouteStats;
  em_LocalityHitRate : float64;
  em_CrossZoneRequestCountTotal : Z;
  em_SameZoneRequestCountTotal : Z;
  em_CrossZoneRequestFraction : float64;
  em_CrossZoneLatencyPenaltyMsTotal : float64;
  em_CrossZoneLatencyPenaltyMsMean : float64;
  em_SameZoneLatencyPenaltyMsTotal : float64;
  em_SameZoneLatencyPenaltyMsMean : float64;
  em_ExternalLatencyMsTotal : float64;
  em_ExternalLatencyMsMean : float64;
  em_TopologyLatencyPenaltyMsTotal : float64;
  em_TopologyLatencyPenaltyMsMean : float64;
}.
#[export] Instance eta_EngineRunMetrics : Eta EngineRunMetrics := λ r, mkEngineRun (em_TotalRequests r)
  (em_SuccessfulRequests r) (em_FailedRequests r) (em_LatencyP50 r) (em_LatencyP95 r) (em_LatencyP99 r)
  (em_LatencyMean r) (em_ThroughputRPS r) (em_IngressRequests r) (em_InternalRequests r)
  (em_IngressThroughputRPS r) (em_IngressFailedRequests r) (em_IngressErrorRate r)
  (em_AttemptFailedRequests r) (em_AttemptErrorRate r) (em_RetryAttempts r) (em_TimeoutErrors r)
  (em_QueueEnqueueCountTotal r) (em_QueueDequeueCountTotal r) (em_QueueDropCountTotal r)
  (em_QueueRedeliveryCountTotal r) (em_QueueDlqCountTotal r) (em_QueueDepthSum r)
  (em_TopicPublishCountTotal r) (em_TopicDeliverCountTotal r) (em_TopicDropCountTotal r)
  (em_TopicRedeliveryCountTotal r) (em_TopicDlqCountTotal r) (em_TopicBacklogDepthSum r)
  (em_TopicConsumerLagSum r) (em_QueueOldestMessageAgeMs r) (em_TopicOldestMessageAgeMs r)
  (em_MaxQueueDepth r) (em_MaxTopicBacklogDepth r) (em_MaxTopicConsumerLag r) (em_QueueDropRate r)
  (em_TopicDropRate r) (em_CPUUtilization r) (em_MemoryUtilization r) (em_ServiceMetrics r)
  (em_HostMetrics r) (em_EndpointRequestStats r) (em_InstanceRouteStats r) (em_LocalityHitRate r)
  (em_CrossZoneRequestCountTotal r) (em_SameZoneRequestCountTotal r) (em_CrossZoneRequestFraction r)
  (em_CrossZoneLatencyPenaltyMsTotal r) (em_CrossZoneLatencyPenaltyMsMean r)
  (em_SameZoneLatencyPenaltyMsTotal r) (em_SameZoneLatencyPenaltyMsMean r) (em_ExternalLatencyMsTotal r)
  (em_ExternalLatencyMsMean r) (em_TopologyLatencyPenaltyMsTotal r) (em_TopologyLatencyPenaltyMsMean r).

(** * Reading the collector *)

(** A conversion reads the collector many times; the reads that compute percentiles
    cache them in the series. Each loop over a Go map sees the keys in an order of
    its own: [rd_ranges] counts the loops, and the [n]-th one, over the series of
    [name], visits [orders n name]; a loop over another map visits its entries in the
    order of [shuffle n]. *)
Record Reading := mkReading { rd_col : Collector; rd_ranges : nat }.
#[export] Instance eta_Reading : Eta Reading := λ r, mkReading (rd_col r) (rd_ranges r).
(** Computations over a state [S] that may fail. *)
Definition SM (S A : Type) : Type := S → go (A * S).
Definition cret {S A} (a : A) : SM S A := λ r, Ok (a, r).
Definition cbind {S A B} (m : SM S A) (k : A → SM S B) : SM S B := λ r, let! (a, r) := m r in k a r.
Declare Scope cm_scope.
Notation "x <~ m ;~ k" := (cbind m (λ x, k)) (at level 100, m at next level, right associativity) : cm_scope.
#[local] Open Scope cm_scope.
Fixpoint cfold {S A T} (f : T → A → SM S T) (t : T) (l : list A) : SM S T :=
  match l with
  | [] => cret t
  | x :: l => t <~ f t x ;~ cfold f t l
  end.
Abbreviation CM := (SM Reading) (only parsing).

Section Convert.
Context (orders : nat → string → list string) (shuffle : nat → ∀ A : Type, list A → list A).

(** A read that does not change the collector, and one that may cache percentiles. *)
Definition looking {A} (name : string) (f : list string → Collector → A) : CM A := λ r,
  Ok (f (orders (rd_ranges r) name) (rd_col r), r <| rd_ranges := S (rd_ranges r) |>).
Definition caching {A} (name : string) (f : list string → Collector → go (A * Collector)) : CM A := λ r,
  let! (a, c) := f (orders (rd_ranges r) name) (rd_col r) in Ok (a, mkReading c (S (rd_ranges r))).

Definition shuffled {A} (l : list A) : CM (list A) := λ r,
  Ok (shuffle (rd_ranges r) A l, r <| rd_ranges := S (rd_ranges r) |>).

Definition GetLabelsForMetric (name : string) : CM (list Labels) :=
  looking name (λ order c, ms_labels <$> (visit order (series_of name c)).*2).
Definition GetTimeSeries (name : string) (labels : Labels) : CM (list MetricPoint) :=
  looking name (λ _, Collector_GetTimeSeries name labels).
Definition GetLastValue (name : string) (labels : Labels) : CM (option float64) :=
  looking name (λ _, Collector_GetLastValue name labels).
Definition GetOrComputeAggregation (name : string) (labels : Labels) : CM (option Aggregation) :=
  caching name (λ _, Collector_GetAggregation name labels).
Definition GetOrComputeAggregationForLabelSubset (name : string) (labels : Labels) : CM (option Aggregation) :=
  caching name (λ order, Collector_GetOrComputeAggregationForLabelSubset order name labels).
Definition GetMetricAggregation (name : string) : CM (option Aggregation) :=
  caching name (λ order, Collector_GetMetricAggregation order name).

Record MetricsSummary := mkSummary {
  su_StartTime : Time;
  su_EndTime : Time;
  su_Duration : Duration;
  su_Metrics : gmap string (list float64);
  su_Aggregations : gmap string Aggregation;
}.
(** [GetMetricNames]: the names, in the order of the outer map. *)
Definition GetMetricNames : CM (list string) := λ r, shuffled (map_to_list (col_series (rd_col r))).*1 r.
Definition GetSummary : CM MetricsSummary :=
  names <~ GetMetricNames ;~
  values <~ cfold (λ values name,
    vs <~ looking name (λ order c, concat ((λ s, mp_Value <$> ms_points s) <$> (visit order (series_of name c)).*2)) ;~
    cret (<[name := vs]> values)) (∅ : gmap string (list float64)) names ;~
  names <~ GetMetricNames ;~
  aggs <~ cfold (λ aggs name,
    merged <~ GetMetricAggregation name ;~
    cret (match merged with Some a => <[name := a]> aggs | None => aggs end))
    (∅ : gmap string Aggregation) names ;~
  λ r, let c := rd_col r in
    Ok (mkSummary (col_startTime c) (col_endTime c) (Sub (col_endTime c) (col_startTime c)) values aggs, r).

(** * Rollups *)

Record RunMetricsOptions := mkMetricsOptions {
  ro_InstanceIDsByService : gmap string (list string);
  ro_QueueBrokerSnapshots : list QueueBrokerHealthSnapshot;
  ro_TopicBrokerSnapshots : list TopicBrokerHealthSnapshot;
}.
Definition optsInstanceIDs (opts : option RunMetricsOptions) (serviceName : string) : list string :=
  match opts with
  | None => []
  | Some o => default [] (ro_InstanceIDsByService o !! serviceName)
  end.
Definition sumSampleValuesForMetric (metricName : string) : CM float64 :=
  looking metricName (λ order, Collector_SumMetric order metricName).
Definition countSamplesForMetric (metricName : string) : CM Z :=
  looking metricName (λ order, Collector_CountMetricSamples order metricName).
Definition sum_int64 (metricName : string) : CM Z :=
  v <~ sumSampleValuesForMetric metricName ;~ cret (f64_to_int v).
Definition sumLatestGaugeAcrossLabels (metricName : string) : CM float64 :=
  combos <~ GetLabelsForMetric metricName ;~
  cfold (λ sum labels,
    points <~ GetTimeSeries metricName labels ;~
    cret (match last points with Some p => fadd sum (mp_Value p) | None => sum end)) f0 combos.
Definition maxLatestGaugeAcrossLabels (metricName : string) : CM float64 :=
  combos <~ GetLabelsForMetric metricName ;~
  cfold (λ maxV labels,
    points <~ GetTimeSeries metricName labels ;~
    cret (match last points with
          | Some p => if fltb maxV (mp_Value p) then mp_Value p else maxV
          | None => maxV
          end)) f0 combos.
Definition sumRequestCountWithLabel (key value : string) : CM Z :=
  v <~ looking "request_count" (λ order, Collector_SumMetricWhere order "request_count" key value) ;~
  cret (f64_to_int v).
Definition sumErrorCountWithReason (reason : string) : CM Z :=
  v <~ looking "request_error_count" (λ order, Collector_SumMetricWhere order "request_error_count" "reason" reason) ;~
  cret (f64_to_int v).
Definition meanLatestGaugePerInstanceWithInventory (metricName serviceName : string) (instanceIDs : list string)
    : CM float64 :=
  match instanceIDs with
  | [] => cret f0
  | _ =>
      sum <~ cfold (λ sum id,
        v <~ GetLastValue metricName (CreateInstanceLabels serviceName id) ;~
        cret (from_option (fadd sum) sum v)) f0 instanceIDs ;~
      cret (fdiv sum (f64_of_Z (len instanceIDs)))
  end.
(** The latest samples of the series with this service and some instance. *)
Definition instance_series (serviceName : string) (l : Labels) : bool :=
  String.eqb (default "" (l !! "service")) serviceName && negb (is_empty (default "" (l !! "instance"))).
Definition latest_per_instance (metricName serviceName : string) : CM (list float64) :=
  combos <~ GetLabelsForMetric metricName ;~
  cfold (λ latest l,
    if instance_series serviceName l then
      v <~ GetLastValue metricName l ;~
      cret (match v with Some v => latest ++ [v] | None => latest end)
    else cret latest) [] combos.
Definition meanLatestGaugePerInstance (metricName serviceName : string) : CM (option float64) :=
  latest <~ latest_per_instance metricName serviceName ;~
  match latest with
  | [] => cret None
  | _ => cret (Some (fdiv (foldl (λ s v, fadd s v) f0 latest) (f64_of_Z (len latest))))
  end.
Definition sumLatestGaugePerInstance (metricName serviceName : string) : CM Z :=
  latest <~ latest_per_instance metricName serviceName ;~
  cret (foldl (λ s v, wrap64 (s + f64_to_int v)) 0 latest).
Definition sumLatestGaugePerInstanceWithInventory (metricName serviceName : string) (instanceIDs : list string)
    : CM Z :=
  cfold (λ sum id,
    v <~ GetLastValue metricName (CreateInstanceLabels serviceName id) ;~
    cret (match v with Some v => wrap64 (sum + f64_to_int v) | None => sum end)) 0 instanceIDs.
Definition splitRequestCountByOrigin : CM (Z * Z) :=
  combos <~ GetLabelsForMetric "request_count" ;~
  cfold (λ '(ingress, internal) labels,
    agg <~ GetOrComputeAggregation "request_count" labels ;~
    cret (match agg with
          | None => (ingress, internal)
          | Some a =>
              let n := f64_to_int (ag_Sum a) in
              if String.eqb (default "" (labels !! "origin")) "downstream"
              then (ingress, wrap64 (internal + n))
              else (wrap64 (ingress + n), internal)
          end)) (0, 0) combos.

(** * Rows per endpoint and per instance *)

Definition aggregationLatencyFields (agg : option Aggregation)
    : option float64 * option float64 * option float64 * option float64 :=
  match agg with
  | Some a =>
      if ag_Count a <=? 0 then (None, None, None, None)
      else (Some (ag_P50 a), Some (ag_P95 a), Some (ag_P99 a), Some (ag_Mean a))
  | None => (None, None, None, None)
  end.
Definition no_samples (agg : option Aggregation) : bool :=
  match agg with None => true | Some a => ag_Count a <=? 0 end.
(** The row of an endpoint with its latency rollups. *)
Definition attachEndpointLatencyRollups (svc ep : string) (requests errors : Z) : CM EndpointRequestStats :=
  let subset : Labels := <["service" := svc]> {["endpoint" := ep]} in
  hop <~ GetOrComputeAggregationForLabelSubset "service_request_latency_ms" subset ;~
  hop <~ (if no_samples hop then GetOrComputeAggregationForLabelSubset "request_latency_ms" subset else cret hop) ;~
  root <~ GetOrComputeAggregationForLabelSubset "root_request_latency_ms" subset ;~
  qw <~ GetOrComputeAggregationForLabelSubset "queue_wait_ms" subset ;~
  proc <~ GetOrComputeAggregationForLabelSubset "service_processing_latency_ms" subset ;~
  let '(l50, l95, l99, lm) := aggregationLatencyFields hop in
  let '(r50, r95, r99, rm) := aggregationLatencyFields root in
  let '(q50, q95, q99, qm) := aggregationLatencyFields qw in
  let '(p50, p95, p99, pm) := aggregationLatencyFields proc in
  cret (mkEndpointStats svc ep requests errors l50 l95 l99 lm r50 r95 r99 rm q50 q95 q99 qm p50 p95 p99 pm).
Definition endpoint_of (labels : Labels) : option (string * string) :=
  let svc := default "" (labels !! "service") in
  let ep := default "" (labels !! "endpoint") in
  if is_empty svc || is_empty ep then None else Some (svc, ep).
(** The sums of a counter per service and endpoint. *)
Definition sums_by_endpoint (name : string) : CM (gmap (string * string) float64) :=
  combos <~ GetLabelsForMetric name ;~
  cfold (λ sums labels,
    match endpoint_of labels with
    | None => cret sums
    | Some k =>
        agg <~ GetOrComputeAggregation name labels ;~
        cret (match agg with
              | Some a => <[k := fadd (default f0 (sums !! k)) (ag_Sum a)]> sums
              | None => sums
              end)
    end) ∅ combos.
Definition endpoint_less (a b : EndpointRequestStats) : bool :=
  if negb (String.eqb (ers_ServiceName a) (ers_ServiceName b))
  then string_ltb (ers_ServiceName a) (ers_ServiceName b)
  else string_ltb (ers_EndpointPath a) (ers_EndpointPath b).
(** The rows have different keys, so [sort.Slice] has one result. *)
Definition AttachEndpointRequestStats : CM (list EndpointRequestStats) :=
  req <~ sums_by_endpoint "request_count" ;~
  err <~ sums_by_endpoint "request_error_count" ;~
  rows <~ shuffled (map_to_list req) ;~
  stats <~ cfold (λ stats '(k, sum),
    row <~ attachEndpointLatencyRollups k.1 k.2 (f64_to_int sum) (f64_to_int (default f0 (err !! k))) ;~
    cret (stats ++ [row])) [] rows ;~
  cret (sort_SliceStable endpoint_less stats).
Definition route_of (labels : Labels) : option (string * string * string * string) :=
  let service := default "" (labels !! "service") in
  let endpoint := default "" (labels !! "endpoint") in
  let instance := default "" (labels !! "instance") in
  if is_empty service || is_empty endpoint || is_empty instance then None
  else Some (service, endpoint, instance, default "" (labels !! "strategy")).
Definition route_less (a b : InstanceRouteStats) : bool :=
  if negb (String.eqb (irs_ServiceName a) (irs_ServiceName b))
  then string_ltb (irs_ServiceName a) (irs_ServiceName b)
  else if negb (String.eqb (irs_EndpointPath a) (irs_EndpointPath b))
  then string_ltb (irs_EndpointPath a) (irs_EndpointPath b)
  else if negb (String.eqb (irs_InstanceId a) (irs_InstanceId b))
  then string_ltb (irs_InstanceId a) (irs_InstanceId b)
  else string_ltb (irs_Strategy a) (irs_Strategy b).
Definition AttachInstanceRouteStats : CM (list InstanceRouteStats) :=
  combos <~ GetLabelsForMetric "route_selection_count" ;~
  rows <~ cfold (λ rows labels,
    match route_of labels with
    | None => cret rows
    | Some k =>
        agg <~ GetOrComputeAggregation "route_selection_count" labels ;~
        cret (match agg with
              | Some a => <[k := wrap64 (default 0 (rows !! k) + f64_to_int (ag_Sum a))]> rows
              | None => rows
              end)
    end) (∅ : gmap (string * string * string * string) Z) combos ;~
  out <~ shuffled (map_to_list rows) ;~
  cret (sort_SliceStable route_less ((λ '(s, e, i, st, n), mkRouteStats s e i st n) <$> out)).

(** * The snapshot *)

(** A count read from an aggregation: the sum of the samples, or their number. *)
Definition rollup_count (agg : option Aggregation) : Z :=
  match agg with
  | None => 0
  | Some a =>
      let n := f64_to_int (ag_Sum a) in
      if (n =? 0) && (0 <? ag_Count a) then ag_Count a else n
  end.
Definition gauge_mean (metricName serviceName : string) (instIDs : list string) (agg : option Aggregation)
    : CM float64 :=
  match instIDs with
  | [] =>
      v <~ meanLatestGaugePerInstance metricName serviceName ;~
      cret (match v with Some v => v | None => from_option ag_Mean f0 agg end)
  | _ => meanLatestGaugePerInstanceWithInventory metricName serviceName instIDs
  end.
Definition gauge_sum (metricName serviceName : string) (instIDs : list string) : CM Z :=
  match instIDs with
  | [] => sumLatestGaugePerInstance metricName serviceName
  | _ => sumLatestGaugePerInstanceWithInventory metricName serviceName instIDs
  end.
Definition service_snapshot (opts : option RunMetricsOptions) (serviceName : string) (labels : Labels)
    : CM EngineServiceMetrics :=
  let subset name := GetOrComputeAggregationForLabelSubset name labels in
  lat <~ subset "service_request_latency_ms" ;~
  lat <~ (match lat with None => subset "request_latency_ms" | Some _ => cret lat end) ;~
  queue <~ subset "queue_wait_ms" ;~
  proc <~ subset "service_processing_latency_ms" ;~
  request <~ subset "request_count" ;~
  error <~ subset "request_error_count" ;~
  cpu <~ subset "cpu_utilization" ;~
  mem <~ subset "memory_utilization" ;~
  let instIDs := optsInstanceIDs opts serviceName in
  cpuUtil <~ gauge_mean "cpu_utilization" serviceName instIDs cpu ;~
  memUtil <~ gauge_mean "memory_utilization" serviceName instIDs mem ;~
  concurrent <~ gauge_sum "concurrent_requests" serviceName instIDs ;~
  queueLength <~ gauge_sum "queue_length" serviceName instIDs ;~
  let part (f : Aggregation → float64) (agg : option Aggregation) := from_option f f0 agg in
  cret (mkEngineService serviceName (rollup_count request) (rollup_count error)
    (part ag_P50 lat) (part ag_P95 lat) (part ag_P99 lat) (part ag_Mean lat) cpuUtil memUtil 0 concurrent queueLength
    (part ag_P50 queue) (part ag_P95 queue) (part ag_P99 queue) (part ag_Mean queue)
    (part ag_P50 proc) (part ag_P95 proc) (part ag_P99 proc) (part ag_Mean proc)).
Definition service_snapshots (serviceLabels : list Labels) (opts : option RunMetricsOptions)
    : CM (gmap string EngineServiceMetrics) :=
  cfold (λ services labels,
    let serviceName := default "" (labels !! "service") in
    if is_empty serviceName then cret services
    else
      svc <~ service_snapshot opts serviceName labels ;~
      cret (<[serviceName := svc]> services)) ∅ serviceLabels.
(** [float64(a) / float64(b)] when [b] is positive. *)
Definition rate (a b : Z) : float64 := if 0 <? b then fdiv (f64_of_Z a) (f64_of_Z b) else f0.
Definition raise_to (m x : float64) : float64 := if fltb m x then x else m.
(** The total of a latency penalty and its mean per sample. *)
Definition penalty_rollup (name : string) : CM (float64 * float64) :=
  sum <~ sumSampleValuesForMetric name ;~
  n <~ countSamplesForMetric name ;~
  cret (sum, if 0 <? n then fdiv sum (f64_of_Z n) else f0).
(** The duration over which throughput is measured. *)
Definition summary_duration (now : Time) (su : MetricsSummary) : Duration :=
  if (su_Duration su <=? 0) && negb (IsZero (su_StartTime su)) then Sub now (su_StartTime su) else su_Duration su.
Definition per_second (n : Z) (d : Duration) : float64 :=
  if 0 <? d then fdiv (f64_of_Z n) (Seconds d) else f0.
Definition queue_snaps (opts : option RunMetricsOptions) : list BrokerShardRuntimeSnapshot :=
  from_option (λ o, qh_snapshot <$> ro_QueueBrokerSnapshots o) [] opts.
Definition topic_snaps (opts : option RunMetricsOptions) : list BrokerShardRuntimeSnapshot :=
  from_option (λ o, th_snapshot <$> ro_TopicBrokerSnapshots o) [] opts.
Definition oldest_age (l : list BrokerShardRuntimeSnapshot) : float64 :=
  foldl (λ m s, raise_to m (ss_OldestMessageAgeMs s)) f0 l.
Definition deepest (init : float64) (l : list BrokerShardRuntimeSnapshot) : float64 :=
  foldl (λ m s, raise_to m (f64_of_Z (ss_Depth s))) init l.

Definition ConvertToRunMetrics (now : Time) (serviceLabels : list Labels) (opts : option RunMetricsOptions)
    : CM EngineRunMetrics :=
  ingressReqP <~ splitRequestCountByOrigin ;~ let '(ingressReq, internalReq) := ingressReqP in
  latAgg <~ GetMetricAggregation "request_latency_ms" ;~
  rootAgg <~ GetMetricAggregation "root_request_latency_ms" ;~
  let latAgg := if no_samples rootAgg then latAgg else rootAgg in
  let lat f := from_option f f0 latAgg in
  totalRequests <~ sum_int64 "request_count" ;~
  failedRequests <~ sum_int64 "request_error_count" ;~
  ingressFailed <~ sum_int64 "ingress_logical_failure_count" ;~
  retryAttempts <~ sumRequestCountWithLabel "is_retry" "true" ;~
  timeoutErrors <~ sumErrorCountWithReason "timeout" ;~
  summary <~ GetSummary ;~
  let duration := summary_duration now summary in
  services <~ service_snapshots serviceLabels opts ;~
  queueEnq <~ sum_int64 "queue_enqueue_count" ;~
  queueAttempts <~ sum_int64 "queue_publish_attempt_count" ;~
  queueDrop <~ sum_int64 "queue_drop_count" ;~
  topicPub <~ sum_int64 "topic_publish_count" ;~
  topicDrop <~ sum_int64 "topic_drop_count" ;~
  maxQueue <~ maxLatestGaugeAcrossLabels "queue_depth" ;~
  maxBacklog <~ maxLatestGaugeAcrossLabels "topic_backlog_depth" ;~
  maxLag <~ maxLatestGaugeAcrossLabels "topic_consumer_lag" ;~
  delivered <~ sum_int64 "topic_deliver_count" ;~
  let topicDeliveryAttempts := wrap64 (delivered + topicDrop) in
  dequeued <~ sum_int64 "queue_dequeue_count" ;~
  queueRedelivered <~ sum_int64 "queue_redelivery_count" ;~
  queueDlq <~ sum_int64 "queue_dlq_count" ;~
  queueDepth <~ sumLatestGaugeAcrossLabels "queue_depth" ;~
  topicDelivered <~ sum_int64 "topic_deliver_count" ;~
  topicRedelivered <~ sum_int64 "topic_redelivery_count" ;~
  topicDlq <~ sum_int64 "topic_dlq_count" ;~
  backlog <~ sumLatestGaugeAcrossLabels "topic_backlog_depth" ;~
  lag <~ sumLatestGaugeAcrossLabels "topic_consumer_lag" ;~
  crossZone <~ sum_int64 "cross_zone_request_count" ;~
  sameZone <~ sum_int64 "same_zone_request_count" ;~
  crossSumP <~ penalty_rollup "cross_zone_latency_penalty_ms" ;~ let '(crossSum, crossMean) := crossSumP in
  sameSumP <~ penalty_rollup "same_zone_latency_penalty_ms" ;~ let '(sameSum, sameMean) := sameSumP in
  extSumP <~ penalty_rollup "external_latency_penalty_ms" ;~ let '(extSum, extMean) := extSumP in
  topoSumP <~ penalty_rollup "topology_latency_penalty_ms" ;~ let '(topoSum, topoMean) := topoSumP in
  locHit <~ sumSampleValuesForMetric "locality_route_hit_count" ;~
  locMiss <~ sumSampleValuesForMetric "locality_route_miss_count" ;~
  endpoints <~ AttachEndpointRequestStats ;~
  routes <~ AttachInstanceRouteStats ;~
  cret (mkEngineRun totalRequests (wrap64 (totalRequests - failedRequests)) failedRequests
    (lat ag_P50) (lat ag_P95) (lat ag_P99) (lat ag_Mean) (per_second totalRequests duration)
    ingressReq internalReq (per_second ingressReq duration) ingressFailed (rate ingressFailed ingressReq)
    failedRequests (rate failedRequests totalRequests) retryAttempts timeoutErrors
    queueEnq dequeued queueDrop queueRedelivered queueDlq queueDepth
    topicPub topicDelivered topicDrop topicRedelivered topicDlq backlog lag
    (oldest_age (queue_snaps opts)) (oldest_age (topic_snaps opts))
    (deepest maxQueue (queue_snaps opts)) (deepest maxBacklog (topic_snaps opts)) (deepest maxLag (topic_snaps opts))
    (rate queueDrop queueAttempts) (rate topicDrop topicDeliveryAttempts) f0 f0 services ∅ endpoints routes
    (if fltb f0 (fadd locHit locMiss) then fdiv locHit (fadd locHit locMiss) else f0)
    crossZone sameZone (rate crossZone (wrap64 (crossZone + sameZone)))
    crossSum crossMean sameSum sameMean extSum extMean topoSum topoMean).

Definition AttachHostUtilization (hostIDs : list string) (m : EngineRunMetrics) : CM EngineRunMetrics :=
  cfold (λ m hid,
    cpu <~ GetTimeSeries "cpu_utilization" (CreateHostLabels hid) ;~
    mem <~ GetTimeSeries "memory_utilization" (CreateHostLabels hid) ;~
    let latest pts := from_option mp_Value f0 (last pts) in
    cret (m <| em_HostMetrics := <[hid := mkEngineHost hid (latest cpu) (latest mem)]> (em_HostMetrics m) |>))
    m hostIDs.
End Convert.

(** * What the executor adds *)

Definition attachHostMetrics orders (m : ResourceManager) (em : EngineRunMetrics) : CM EngineRunMetrics :=
  AttachHostUtilization orders (ResourceManager_HostIDs m) em.
Definition applyThroughputFromSimDuration (simDuration : Duration) (m : EngineRunMetrics) : EngineRunMetrics :=
  if simDuration <=? 0 then m
  else
    let sec := Seconds simDuration in
    if fleb sec f0 then m
    else
      m <| em_ThroughputRPS := fdiv (f64_of_Z (em_TotalRequests m)) sec |>
        <| em_IngressThroughputRPS := fdiv (f64_of_Z (em_IngressRequests m)) sec |>.
Definition set_active_replicas (services : list Service) (rm : ResourceManager) (m : EngineRunMetrics) : EngineRunMetrics :=
  foldl (λ m svc,
    match em_ServiceMetrics m !! svc_ID svc with
    | Some sm =>
        m <| em_ServiceMetrics :=
          <[svc_ID svc := sm <| es_ActiveReplicas := ResourceManager_ActiveReplicas (svc_ID svc) rm |>]>
            (em_ServiceMetrics m) |>
    | None => m
    end) m services.
Definition ResourceManager_GetInstancesForService (order : list string) (serviceName : string) (m : ResourceManager)
    : list ServiceInstance :=
  filter (λ i, si_serviceName i = serviceName) (visit order (mg_instances m)).*2.
(** [names] is sorted, so the order of the map does not matter. *)
Definition instanceIDsByServiceFromRM (m : ResourceManager) : gmap string (list string) :=
  foldl (λ out svcID, <[svcID := sort_SliceStable string_ltb
    (si_id <$> filter (λ i, si_serviceName i = svcID) (map_to_list (mg_instances m)).*2)]> out)
    ∅ (ResourceManager_ListServiceIDs m).
Definition RunMetricsOptionsFromResourceManager (qorder torder : list string) (now : Time) (m : ResourceManager)
    : option RunMetricsOptions :=
  let snapshotAt := if IsZero (mg_lastSimTime m) then now else mg_lastSimTime m in
  let bySvc := instanceIDsByServiceFromRM m in
  let queueSnaps := ResourceManager_QueueBrokerHealthSnapshots qorder snapshotAt m in
  let topicSnaps := ResourceManager_TopicBrokerHealthSnapshots torder snapshotAt m in
  if bool_decide (bySvc = ∅) && (len queueSnaps =? 0) && (len topicSnaps =? 0) then None
  else Some (mkMetricsOptions bySvc queueSnaps topicSnaps).

(** * The protocol message *)

Definition int32_count (n : Z) : Z :=
  if n <? 0 then 0 else if math_MaxInt32 <? n then math_MaxInt32 else n.
Definition service_to_proto (kv : string * EngineServiceMetrics) : ServiceMetrics :=
  let '(serviceName, s) := kv in
  mkServiceMetrics serviceName (es_RequestCount s) (es_ErrorCount s) (es_LatencyP50 s) (es_LatencyP95 s)
    (es_LatencyP99 s) (es_LatencyMean s) (es_CPUUtilization s) (es_MemoryUtilization s)
    (int32_count (es_ActiveReplicas s)) (int32_count (es_ConcurrentRequests s)) (int32_count (es_QueueLength s))
    (es_QueueWaitP50Ms s) (es_QueueWaitP95Ms s) (es_QueueWaitP99Ms s) (es_QueueWaitMeanMs s)
    (es_ProcessingLatencyP50Ms s) (es_ProcessingLatencyP95Ms s) (es_ProcessingLatencyP99Ms s)
    (es_ProcessingLatencyMeanMs s).
Definition host_to_proto (kv : string * EngineHostMetrics) : HostMetrics :=
  let '(_, h) := kv in mkHostMetrics (eh_HostID h) (eh_CPUUtilization h) (eh_MemoryUtilization h).
(** [shuffle]: the orders in which the two maps are visited. *)
Definition convertMetricsToProto (shuffle : ∀ A : Type, list A → list A) (e : EngineRunMetrics) : RunMetrics :=
  mkRunMetrics (em_TotalRequests e) (em_SuccessfulRequests e) (em_FailedRequests e) (em_LatencyP50 e)
    (em_LatencyP95 e) (em_LatencyP99 e) (em_LatencyMean e) (em_ThroughputRPS e) (em_IngressRequests e)
    (em_InternalRequests e) (em_IngressThroughputRPS e) (em_IngressFailedRequests e) (em_IngressErrorRate e)
    (em_AttemptFailedRequests e) (em_AttemptErrorRate e) (em_RetryAttempts e) (em_TimeoutErrors e)
    (em_QueueEnqueueCountTotal e) (em_QueueDequeueCountTotal e) (em_QueueDropCountTotal e)
    (em_QueueRedeliveryCountTotal e) (em_QueueDlqCountTotal e) (em_QueueDepthSum e)
    (em_TopicPublishCountTotal e) (em_TopicDeliverCountTotal e) (em_TopicDropCountTotal e)
    (em_TopicRedeliveryCountTotal e) (em_TopicDlqCountTotal e) (em_TopicBacklogDepthSum e)
    (em_TopicConsumerLagSum e) (em_QueueOldestMessageAgeMs e) (em_TopicOldestMessageAgeMs e)
    (em_MaxQueueDepth e) (em_MaxTopicBacklogDepth e) (em_MaxTopicConsumerLag e) (em_QueueDropRate e)
    (em_TopicDropRate e)
    (service_to_proto <$> shuffle _ (map_to_list (em_ServiceMetrics e)))
    (host_to_proto <$> shuffle _ (map_to_list (em_HostMetrics e)))
    (em_EndpointRequestStats e) (em_InstanceRouteStats e)
    (em_LocalityHitRate e) (em_CrossZoneRequestCountTotal e) (em_SameZoneRequestCountTotal e)
    (em_CrossZoneRequestFraction e) (em_CrossZoneLatencyPenaltyMsTotal e) (em_CrossZoneLatencyPenaltyMsMean e)
    (em_SameZoneLatencyPenaltyMsTotal e) (em_SameZoneLatencyPenaltyMsMean e) (em_ExternalLatencyMsTotal e)
    (em_ExternalLatencyMsMean e) (em_TopologyLatencyPenaltyMsTotal e) (em_TopologyLatencyPenaltyMsMean e).
