(* ===== verification/EngineMetricsSpec.v ===== *)
(** Reading the collector never fails and changes nothing that can be observed, and
    the counters of a snapshot are exact. *)
From S2P Require Import Prelude GoFloat FloatExact Utils Config BrokerQueue Instance ResourceManager Collector RunMetrics RunStore EngineMetrics.
From Stdlib Require Import SpecFloat.
#[local] Open Scope string_scope.
#[local] Open Scope list_scope.
#[local] Open Scope Z_scope.
#[local] Open Scope cm_scope.

(** * What can be observed of a collector *)

Record ObsSeries := mkObs {
  ob_labels : Labels;
  ob_points : list MetricPoint;
  ob_reservoir : list float64;
  ob_count : Z;
  ob_sum : float64;
  ob_copy : go (option Aggregation);
}.
Definition go_fst {A B} (m : go (A * B)) : go A := let! (a, _) := m in Ok a.
(** A series without the cached percentiles; what [aggregationCopy] would return
    instead of them. *)
Definition obs_series (s : metricSeries) : ObsSeries :=
  mkObs (ms_labels s) (ms_points s) (ms_reservoir s) (ag_Count (ms_agg s)) (ag_Sum (ms_agg s))
    (go_fst (metricSeries_aggregationCopy s)).
Definition obs (c : Collector) : Time * Time * gmap string (gmap string ObsSeries) :=
  (col_startTime c, col_endTime c, (fmap (M := gmap string) obs_series) <$> col_series c).
Lemma obs_series_of name c c' : obs c' = obs c → obs_series <$> series_of name c' = obs_series <$> series_of name c.
Proof.
  intros [= _ _ H]. apply (f_equal (lookup name)) in H. rewrite !lookup_fmap in H. unfold series_of.
  destruct (col_series c' !! name), (col_series c !! name); simpl in *; simplify_eq; by rewrite ?fmap_empty.
Qed.
Lemma obs_lookup name key c c' s : obs c' = obs c → series_of name c' !! key = Some s →
  ∃ s0, series_of name c !! key = Some s0 ∧ obs_series s = obs_series s0.
Proof.
  intros H Hs. apply (obs_series_of name) in H. apply (f_equal (lookup key)) in H. rewrite !lookup_fmap, Hs in H.
  destruct (series_of name c !! key) as [s0|]; simpl in H; [|done]. apply (inj Some) in H. eauto.
Qed.
Lemma obs_set name key s s' c : series_of name c !! key = Some s → obs_series s' = obs_series s →
  obs (set_series name key s' c) = obs c.
Proof.
  intros Hs He. unfold obs, set_series. simpl. f_equal. rewrite fmap_insert, fmap_insert, He.
  rewrite <- fmap_insert, (insert_id (series_of name c)) by done. unfold series_of in *.
  destruct (col_series c !! name) as [m|] eqn:E; simpl in *; [|by rewrite lookup_empty in Hs].
  rewrite <- fmap_insert, insert_id; done.
Qed.
Lemma visit_obs {A} (f : metricSeries → A) (g : ObsSeries → A) order name c c' :
  (∀ s, f s = g (obs_series s)) → obs c' = obs c →
  f <$> (visit order (series_of name c')).*2 = f <$> (visit order (series_of name c)).*2.
Proof.
  intros Hf H. apply (obs_series_of name) in H. unfold visit. induction order as [|k order IH]; [done|].
  apply (f_equal (lookup k)) in H. rewrite !lookup_fmap in H. csimpl.
  destruct (series_of name c' !! k), (series_of name c !! k); csimpl; simpl in H; try done.
  rewrite IH, !Hf. apply (inj Some) in H. by rewrite H.
Qed.

(** * Percentiles of a reservoir that fits in memory *)

Definition small {A} (l : list A) : Prop := Z.of_nat (length l) ≤ 2 ^ 53.
Lemma index_in_range {A} (l : list A) i : 0 ≤ i < Z.of_nat (length l) → ∃ x, index l i = Ok x.
Proof.
  intros H. unfold index. rewrite (proj2 (Z.ltb_ge _ _)) by lia.
  destruct (l !! Z.to_nat i) as [x|] eqn:E; [eauto|]. apply lookup_ge_None in E. lia.
Qed.
Lemma calculatePercentile_ok l p : fraction p = true → small l → ∃ x, calculatePercentile l p = Ok x.
Proof.
  intros Hp Hs. unfold small in Hs. unfold calculatePercentile. cbv zeta.
  destruct (Z.eqb_spec (Z.of_nat (length l)) 0); [eauto|].
  destruct (Z.eqb_spec (Z.of_nat (length l)) 1); [apply index_in_range; lia|].
  pose proof (fraction_index p (Z.of_nat (length l) - 1) Hp ltac:(lia)) as Hi.
  set (lower := f64_to_int _) in *. clearbody lower.
  rewrite wrap64_id by (unfold in_int64, int64_min, int64_max; lia).
  destruct (Z.leb_spec (Z.of_nat (length l)) (lower + 1)) as [Hle|Hlt]; [apply index_in_range; lia|].
  destruct (index_in_range l lower) as [a ->]; [lia|]. destruct (index_in_range l (lower + 1)) as [b ->]; [lia|]. simpl. eauto.
Qed.
Lemma sort_small l : small l → small (sort_Float64s l).
Proof. unfold small, sort_Float64s. by rewrite (Permutation_length (merge_sort_Permutation _ l)). Qed.
(** A copy of the aggregation exists and taking it cannot be observed. *)
Lemma aggregationCopy_ok s : small (ms_reservoir s) →
  ∃ a s', metricSeries_aggregationCopy s = Ok (a, s') ∧ obs_series s' = obs_series s ∧ ob_copy (obs_series s) = Ok a
    ∧ from_option ag_Count 0 a = ag_Count (ms_agg s) ∧ (a = None → ag_Count (ms_agg s) = 0)
    ∧ (is_Some a → from_option ag_Sum f0 a = ag_Sum (ms_agg s)).
Proof.
  intros Hs. assert (Hu : ∃ x y z, metricSeries_updatePercentiles s
    = Ok (s <| ms_agg := (ms_agg s) <| ag_P50 := x |> <| ag_P95 := y |> <| ag_P99 := z |> |>)).
  { unfold metricSeries_updatePercentiles. destruct (ms_reservoir s) as [|v l] eqn:E; [eauto|]. cbv zeta.
    pose proof (sort_small _ Hs) as Hs'. pose proof percentile_fractions as Hf. rewrite !Forall_cons in Hf.
    destruct Hf as (F1 & F2 & F3 & _). generalize dependent (sort_Float64s (v :: l)). intros vs Hvs.
    destruct (calculatePercentile_ok vs _ F1 Hvs) as [x ->]. destruct (calculatePercentile_ok vs _ F2 Hvs) as [y ->].
    destruct (calculatePercentile_ok vs _ F3 Hvs) as [z ->]. simpl. eauto. }
  destruct Hu as (x & y & z & Hu). unfold obs_series, metricSeries_aggregationCopy. rewrite Hu.
  destruct (Z.eqb_spec (ag_Count (ms_agg s)) 0) as [E|E].
  { exists None, s. simpl. rewrite E. by split_and!. }
  destruct (ms_dirtyPct s) eqn:Ed; cbn [go_bind].
  - eexists _, _. split; [done|]. simpl. rewrite (proj2 (Z.eqb_neq _ _) E). by split_and!.
  - eexists _, _. split; [done|]. rewrite (proj2 (Z.eqb_neq _ _) E), Ed. by split_and!.
Qed.

(** * A logic of reads *)

Section Reads.
Context (orders : nat → string → list string) (shuffle : nat → ∀ A : Type, list A → list A).
Context (c : Collector).
Hypothesis readable : ∀ name key s, series_of name c !! key = Some s → small (ms_reservoir s).
(** A read of a collector that looks like [c] returns a value with property [P] and
    leaves the collector looking like [c]. *)
Definition reads {A} (m : CM A) (P : A → Prop) : Prop := ∀ r, obs (rd_col r) = obs c →
  ∃ a r', m r = Ok (a, r') ∧ obs (rd_col r') = obs c ∧ P a.
Lemma reads_ret {A} (a : A) (P : A → Prop) : P a → reads (cret a) P.
Proof. intros Ha r Hr. by exists a, r. Qed.
Lemma reads_bind {A B} (m : CM A) (k : A → CM B) P Q :
  reads m P → (∀ a, P a → reads (k a) Q) → reads (cbind m k) Q.
Proof.
  intros Hm Hk r Hr. destruct (Hm r Hr) as (a & r1 & E1 & O1 & Pa). destruct (Hk a Pa r1 O1) as (b & r2 & E2 & O2 & Qb).
  exists b, r2. unfold cbind. by rewrite E1.
Qed.
Lemma reads_mono {A} (m : CM A) (P Q : A → Prop) : reads m P → (∀ a, P a → Q a) → reads m Q.
Proof. intros Hm HPQ r Hr. destruct (Hm r Hr) as (a & r1 & E1 & O1 & Pa). exists a, r1. auto. Qed.
Lemma reads_fold {A S} (f : S → A → CM S) (I : S → list A → Prop) l : ∀ s seen,
  I s seen → (∀ s x seen, x ∈ l → I s seen → reads (f s x) (λ s', I s' (seen ++ [x]))) →
  reads (cfold f s l) (λ s', I s' (seen ++ l)).
Proof.
  induction l as [|x l IH]; intros s seen Hs Hf; simpl.
  { apply reads_ret. by rewrite app_nil_r. }
  eapply reads_bind; [apply Hf; [by left|exact Hs]|]. intros s' Hs'.
  replace (seen ++ x :: l) with ((seen ++ [x]) ++ l) by by rewrite <- app_assoc.
  apply IH; [done|]. intros s1 y seen1 Hy. apply Hf. by right.
Qed.
Lemma reads_fold_any {A S} (f : S → A → CM S) s l :
  (∀ s x, reads (f s x) (λ _, True)) → reads (cfold f s l) (λ _, True).
Proof.
  intros Hf. apply (reads_fold f (λ _ _, True) l s []); [done|]. intros. apply Hf.
Qed.
Lemma reads_looking {A} name (f : list string → Collector → A) :
  (∀ order c', obs c' = obs c → f order c' = f order c) →
  reads (looking orders name f) (λ a, ∃ n, a = f (orders n name) c).
Proof. intros Hf r Hr. eexists _, _. split; [done|]. split; [done|]. exists (rd_ranges r). by apply Hf. Qed.
Lemma reads_shuffled {A} (l : list A) : reads (shuffled shuffle l) (λ a, ∃ n, a = shuffle n A l).
Proof. intros r Hr. eexists _, _. split; [done|]. eauto. Qed.
Lemma readable_obs c' name key s : obs c' = obs c → series_of name c' !! key = Some s → small (ms_reservoir s).
Proof.
  intros H Hs. destruct (obs_lookup name key c c' s H Hs) as (s0 & E & Ho). apply (f_equal ob_reservoir) in Ho.
  simpl in Ho. rewrite Ho. eauto.
Qed.

(** The aggregation of a series of [c], as a reader sees it. *)
Definition copy_of (s : metricSeries) (a : option Aggregation) : Prop := ob_copy (obs_series s) = Ok a.
Lemma copy_exists s : small (ms_reservoir s) → ∃ a, copy_of s a.
Proof. intros Hs. destruct (aggregationCopy_ok s Hs) as (a & s' & _ & _ & Ha & _). eauto. Qed.
Lemma copy_fields s a : small (ms_reservoir s) → copy_of s a →
  from_option ag_Count 0 a = ag_Count (ms_agg s) ∧ (a = None → ag_Count (ms_agg s) = 0)
  ∧ (is_Some a → from_option ag_Sum f0 a = ag_Sum (ms_agg s)).
Proof.
  intros Hs Ha. destruct (aggregationCopy_ok s Hs) as (a' & s' & _ & _ & Ha' & H). unfold copy_of in Ha.
  rewrite Ha in Ha'. by simplify_eq.
Qed.
Lemma reads_aggregation name labels :
  reads (GetOrComputeAggregation orders name labels)
    (λ a, match series_of name c !! labelKey labels with Some s => copy_of s a | None => a = None end).
Proof.
  intros r Hr. unfold GetOrComputeAggregation, caching, Collector_GetAggregation.
  destruct (series_of name (rd_col r) !! labelKey labels) as [s|] eqn:Es.
  - destruct (obs_lookup _ _ _ _ _ Hr Es) as (s0 & E0 & Ho).
    destruct (aggregationCopy_ok s (readable_obs _ _ _ _ Hr Es)) as (a & s' & -> & Ho' & Ha & _).
    cbn [go_bind]. eexists _, _. split; [done|]. rewrite E0. split; [|unfold copy_of; by rewrite <- Ho].
    cbn [rd_col]. by rewrite (obs_set _ _ s).
  - cbn [go_bind]. eexists _, _. split; [done|]. split; [done|].
    destruct (series_of name c !! labelKey labels) as [s0|] eqn:E0; [|done].
    destruct (obs_lookup name (labelKey labels) (rd_col r) c s0) as (s & E & _); [done|done|congruence].
Qed.
(** The merged aggregation of the series with selected labels. *)
Definition merge_of (sel : Labels → bool) (merged : option Aggregation) (visited : list metricSeries)
    (a : option Aggregation) : Prop :=
  ∃ copies, Forall2 copy_of (filter (λ s, sel (ms_labels s) = true) visited) copies
    ∧ a = foldl mergeAggregations merged copies.
Lemma merge_selected_reads sel name keys : ∀ merged c', obs c' = obs c →
  ∃ a c'', merge_selected (λ s, sel (ms_labels s)) name keys merged c' = Ok (a, c'') ∧ obs c'' = obs c
    ∧ merge_of sel merged (visit keys (series_of name c)).*2 a.
Proof.
  induction keys as [|k keys IH]; intros merged c' Hc; simpl.
  { eexists _, _. split; [done|]. split; [done|]. exists []. by split; [constructor|]. }
  unfold visit. csimpl. fold (visit keys (series_of name c)).
  destruct (series_of name c' !! k) as [s|] eqn:Es.
  - destruct (obs_lookup _ _ _ _ _ Hc Es) as (s0 & E0 & Ho). rewrite E0. csimpl.
    pose proof (f_equal ob_labels Ho) as Hl. simpl in Hl. unfold merge_of. rewrite filter_cons, <- Hl.
    destruct (sel (ms_labels s)) eqn:Esel.
    + rewrite decide_True by done.
      destruct (aggregationCopy_ok s (readable_obs _ _ _ _ Hc Es)) as (a & s' & -> & Ho' & Ha & _). cbn [go_bind].
      destruct (IH (mergeAggregations merged a) (set_series name k s' c')) as (b & c'' & -> & Hb & copies & Hcs & ->).
      { by rewrite (obs_set _ _ s). }
      eexists _, _. split; [done|]. split; [done|]. exists (a :: copies). split; [|done].
      constructor; [|done]. unfold copy_of. by rewrite <- Ho.
    + rewrite decide_False by congruence. destruct (IH merged c' Hc) as (b & c'' & -> & Hb & Hm). eauto 10.
  - assert (series_of name c !! k = None) as ->; [|by apply IH].
    destruct (series_of name c !! k) as [s0|] eqn:E0; [|done].
    destruct (obs_lookup name k c' c s0) as (s & E & _); [done|done|congruence].
Qed.
Lemma reads_metric name :
  reads (GetMetricAggregation orders name) (λ a, ∃ n, merge_of (λ _, true) None (visit (orders n name) (series_of name c)).*2 a).
Proof.
  intros r Hr. unfold GetMetricAggregation, caching, Collector_GetMetricAggregation.
  destruct (merge_selected_reads (λ _, true) name (orders (rd_ranges r) name) None _ Hr) as (a & c'' & -> & Ho & Hm).
  eexists _, _. split; [done|]. eauto.
Qed.
Lemma reads_subset name labels :
  reads (GetOrComputeAggregationForLabelSubset orders name labels) (λ a, ∃ n,
    if bool_decide (labels = ∅) then a = None
    else merge_of (λ l, labelsMatchSubset l labels) None (visit (orders n name) (series_of name c)).*2 a).
Proof.
  intros r Hr. unfold GetOrComputeAggregationForLabelSubset, caching, Collector_GetOrComputeAggregationForLabelSubset.
  case_bool_decide.
  { cbn [go_bind]. eexists _, _. split; [done|]. split; [done|]. by exists O. }
  destruct (merge_selected_reads (λ l, labelsMatchSubset l labels) name (orders (rd_ranges r) name) None _ Hr)
    as (a & c'' & -> & Ho & Hm).
  eexists _, _. split; [done|]. eauto.
Qed.

(** ** Reads that do not change the collector *)

Definition readers {A} (m : CM A) : Prop := reads m (λ _, True).
Lemma reads_any {A} (m : CM A) : readers m → reads m (λ _, True).
Proof. done. Qed.
Lemma readers_of {A} (m : CM A) P : reads m P → readers m.
Proof. intros H. by eapply reads_mono. Qed.

Lemma reads_labels name : reads (GetLabelsForMetric orders name)
  (λ l, ∃ n, l = ms_labels <$> (visit (orders n name) (series_of name c)).*2).
Proof. apply reads_looking. intros order c' Hc. by apply (visit_obs _ ob_labels). Qed.
Lemma foldl_visit {S} (f : S → metricSeries → S) (g : S → ObsSeries → S) order name c' s :
  (∀ x y, f x y = g x (obs_series y)) → obs c' = obs c →
  foldl f s (visit order (series_of name c')).*2 = foldl f s (visit order (series_of name c)).*2.
Proof.
  intros Hf Hc. assert (H : ∀ s l, foldl f s l = foldl g s (obs_series <$> l)).
  { intros s0 l. revert s0. induction l as [|y l IH]; intros s0; [done|]. csimpl. by rewrite IH, Hf. }
  rewrite !H. f_equal. by apply (visit_obs _ id).
Qed.
Lemma reads_sum name : reads (sumSampleValuesForMetric orders name)
  (λ v, ∃ n, v = Collector_SumMetric (orders n name) name c).
Proof. apply reads_looking. intros order c' Hc. by apply (foldl_visit _ (λ sum o, fadd sum (ob_sum o))). Qed.
Lemma readers_samples name : readers (countSamplesForMetric orders name).
Proof.
  eapply reads_mono; [apply reads_looking|done]. intros order c' Hc.
  by apply (foldl_visit _ (λ n o, wrap64 (n + ob_count o))).
Qed.
Lemma readers_where name key value :
  readers (looking orders name (λ order, Collector_SumMetricWhere order name key value)).
Proof.
  eapply reads_mono; [apply reads_looking|done]. intros order c' Hc.
  by apply (foldl_visit _ (λ sum o, if String.eqb (default "" (ob_labels o !! key)) value
                                    then fadd sum (ob_sum o) else sum)).
Qed.
Lemma points_obs name labels c' : obs c' = obs c → Collector_GetTimeSeries name labels c' = Collector_GetTimeSeries name labels c.
Proof.
  intros Hc. unfold Collector_GetTimeSeries. apply (obs_series_of name), (f_equal (lookup (labelKey labels))) in Hc.
  rewrite !lookup_fmap in Hc. destruct (series_of name c' !! _), (series_of name c !! _); simpl in *; try done.
  apply (inj Some) in Hc. by apply (f_equal ob_points) in Hc.
Qed.
Lemma readers_points name labels : readers (GetTimeSeries orders name labels).
Proof. eapply reads_mono; [apply reads_looking|done]. intros order c' Hc. by apply points_obs. Qed.
Lemma readers_last name labels : readers (GetLastValue orders name labels).
Proof.
  eapply reads_mono; [apply reads_looking|done]. intros order c' Hc. unfold Collector_GetLastValue.
  by rewrite (points_obs _ _ c').
Qed.
Lemma readers_names : readers (GetMetricNames shuffle).
Proof. intros r Hr. unfold GetMetricNames, shuffled. by eexists _, _. Qed.

(** ** Every part of the conversion succeeds *)

Lemma readers_ret {A} (a : A) : readers (cret a).
Proof. by apply reads_ret. Qed.
Lemma readers_bind {A B} (m : CM A) (k : A → CM B) : readers m → (∀ a, readers (k a)) → readers (cbind m k).
Proof. intros Hm Hk. eapply reads_bind; [exact Hm|]. intros a _. apply Hk. Qed.
Lemma readers_fold {A S} (f : S → A → CM S) s l : (∀ s x, readers (f s x)) → readers (cfold f s l).
Proof. intros. by apply reads_fold_any. Qed.
Lemma readers_aggregation name labels : readers (GetOrComputeAggregation orders name labels).
Proof. eapply readers_of, reads_aggregation. Qed.
Lemma readers_subset name labels : readers (GetOrComputeAggregationForLabelSubset orders name labels).
Proof. eapply readers_of, reads_subset. Qed.
Lemma readers_metric name : readers (GetMetricAggregation orders name).
Proof. eapply readers_of, reads_metric. Qed.
Lemma readers_labels name : readers (GetLabelsForMetric orders name).
Proof. eapply readers_of, reads_labels. Qed.
Lemma readers_sum name : readers (sumSampleValuesForMetric orders name).
Proof. eapply readers_of, reads_sum. Qed.
Lemma readers_shuffled {A} (l : list A) : readers (shuffled shuffle l).
Proof. eapply readers_of, reads_shuffled. Qed.
Lemma readers_summary_values name (f : metricSeries → list float64) :
  (∀ s, f s = mp_Value <$> ob_points (obs_series s)) →
  readers (looking orders name (λ order c, concat (f <$> (visit order (series_of name c)).*2))).
Proof.
  intros Hf. eapply readers_of, reads_looking. intros order c' Hc. f_equal.
  by apply (visit_obs _ (λ o, mp_Value <$> ob_points o)).
Qed.
Create HintDb reads.
#[local] Hint Resolve readers_ret readers_aggregation readers_subset readers_metric readers_labels readers_sum readers_shuffled
  readers_points readers_last readers_samples readers_where readers_names : reads.
Ltac reads_step :=
  first
    [ solve [auto with reads]
    | apply readers_bind; [|intros ?]
    | apply readers_fold; intros
    | case_match ].
Ltac reads_all := repeat reads_step.
Lemma readers_int64 name : readers (sum_int64 orders name).
Proof. unfold sum_int64. reads_all. Qed.
Lemma readers_gauge_sum name : readers (sumLatestGaugeAcrossLabels orders name).
Proof. unfold sumLatestGaugeAcrossLabels. reads_all. Qed.
Lemma readers_gauge_max name : readers (maxLatestGaugeAcrossLabels orders name).
Proof. unfold maxLatestGaugeAcrossLabels. reads_all. Qed.
Lemma readers_latest name sn : readers (latest_per_instance orders name sn).
Proof. unfold latest_per_instance. reads_all. Qed.
#[local] Hint Resolve readers_int64 readers_gauge_sum readers_gauge_max readers_latest : reads.
Lemma readers_mean name sn ids agg : readers (gauge_mean orders name sn ids agg).
Proof.
  unfold gauge_mean, meanLatestGaugePerInstance, meanLatestGaugePerInstanceWithInventory. reads_all.
Qed.
Lemma readers_count name sn ids : readers (gauge_sum orders name sn ids).
Proof. unfold gauge_sum, sumLatestGaugePerInstance, sumLatestGaugePerInstanceWithInventory. reads_all. Qed.
#[local] Hint Resolve readers_mean readers_count : reads.
Lemma readers_service opts sn labels : readers (service_snapshot orders opts sn labels).
Proof. unfold service_snapshot. cbv zeta. reads_all. Qed.
Lemma readers_rollups sn ep q e : readers (attachEndpointLatencyRollups orders sn ep q e).
Proof. unfold attachEndpointLatencyRollups. cbv zeta. reads_all. Qed.
Lemma readers_by_endpoint name : readers (sums_by_endpoint orders name).
Proof. unfold sums_by_endpoint. reads_all. Qed.
Lemma readers_penalty name : readers (penalty_rollup orders name).
Proof. unfold penalty_rollup. reads_all. Qed.
#[local] Hint Resolve readers_service readers_rollups readers_by_endpoint readers_penalty : reads.
Lemma readers_endpoints : readers (AttachEndpointRequestStats orders shuffle).
Proof. unfold AttachEndpointRequestStats. reads_all. Qed.
Lemma readers_routes : readers (AttachInstanceRouteStats orders shuffle).
Proof. unfold AttachInstanceRouteStats. reads_all. Qed.
Lemma readers_pure {A} (g : Collector → A) : readers (λ r, Ok (g (rd_col r), r)).
Proof. intros r Hr. by eexists _, _. Qed.
#[local] Hint Resolve readers_endpoints readers_routes readers_pure : reads.
Lemma readers_summary : readers (GetSummary orders shuffle).
Proof.
  unfold GetSummary. reads_all; [by apply readers_summary_values|].
  intros r Hr. by eexists _, _.
Qed.
#[local] Hint Resolve readers_summary : reads.
Lemma readers_split : readers (splitRequestCountByOrigin orders).
Proof. unfold splitRequestCountByOrigin. reads_all. Qed.
Lemma readers_with_label key value : readers (sumRequestCountWithLabel orders key value).
Proof. unfold sumRequestCountWithLabel. reads_all. Qed.
Lemma readers_with_reason reason : readers (sumErrorCountWithReason orders reason).
Proof. unfold sumErrorCountWithReason. reads_all. Qed.
#[local] Hint Resolve readers_split readers_with_label readers_with_reason : reads.
Lemma readers_services labels opts : readers (service_snapshots orders labels opts).
Proof. unfold service_snapshots. reads_all. Qed.
#[local] Hint Resolve readers_services : reads.
(** A snapshot can always be taken. *)
Lemma readers_convert now labels opts : readers (ConvertToRunMetrics orders shuffle now labels opts).
Proof. unfold ConvertToRunMetrics. cbv zeta. reads_all. Qed.
Lemma readers_hosts m em : readers (attachHostMetrics orders m em).
Proof. unfold attachHostMetrics, AttachHostUtilization. cbv zeta. reads_all. Qed.

(** * Counting *)

(** The samples of a metric under the keys that satisfy [sel]. *)
Context (acc : list MetricPoint) (Hcol : collects c acc) (Hlen : Z.of_nat (length acc) < 2 ^ 53).
Hypothesis visits : ∀ n name, orders n name ≡ₚ (map_to_list (series_of name c)).*1.
Definition unit_samples (name : string) : Prop := ∀ p, p ∈ acc → mp_Name p = name → mp_Value p = f1.
Definition samples (name : string) (sel : string → bool) : list MetricPoint :=
  filter (λ p, mp_Name p = name ∧ sel (labelKey (mp_Labels p)) = true) acc.
Lemma samples_le name sel : Z.of_nat (length (samples name sel)) < 2 ^ 53.
Proof. pose proof (length_filter (λ p, mp_Name p = name ∧ sel (labelKey (mp_Labels p)) = true) acc). unfold samples. lia. Qed.
Lemma unit_sum pts : Forall (λ p, mp_Value p = f1) pts → Z.of_nat (length pts) < 2 ^ 53 →
  utils_Sum (values pts) = f64_of_Z (Z.of_nat (length pts)).
Proof.
  induction pts as [|p pts IH] using rev_ind; [done|]. rewrite Forall_app, Forall_singleton, length_app. simpl length.
  intros [Hp Hv] Hl. unfold utils_Sum, values in *. rewrite fmap_app, foldl_app. simpl. rewrite IH, Hv by (done || lia).
  change f1 with (f64_of_Z 1). rewrite f64_of_Z_add by lia. f_equal. lia.
Qed.
Lemma points_for_le name key : Z.of_nat (length (points_for name key acc)) < 2 ^ 53.
Proof. pose proof (length_filter (λ p, point_key p = (name, key)) acc). unfold points_for. lia. Qed.
Lemma stored name key s : series_of name c !! key = Some s → unit_samples name →
  ag_Sum (ms_agg s) = f64_of_Z (Z.of_nat (length (points_for name key acc)))
  ∧ ag_Count (ms_agg s) = Z.of_nat (length (points_for name key acc)) ∧ 0 < ag_Count (ms_agg s)
  ∧ labelKey (ms_labels s) = key
  ∧ (∃ p, p ∈ acc ∧ point_key p = (name, key) ∧ ms_labels s = mp_Labels p).
Proof.
  rewrite (cl_series _ _ Hcol). intros Hs Hu. pose proof (points_for_le name key) as Hl.
  destruct (points_for name key acc) as [|p pts] eqn:E; [done|]. simpl in Hs. simplify_eq.
  assert (Hall : ∀ q, q ∈ p :: pts → q ∈ acc ∧ point_key q = (name, key)).
  { intros q. rewrite <- E. unfold points_for. rewrite list_elem_of_filter. tauto. }
  destruct (series_count_sum (col_maxSeriesPoints c) (col_maxReservoir c) (mp_Labels p) (p :: pts)) as [Ec Es].
  { unfold int64_max. lia. }
  destruct (series_after_settings (col_maxSeriesPoints c) (col_maxReservoir c) (mp_Labels p) (p :: pts)) as (_ & _ & El).
  destruct (Hall p) as [Hp Hk]; [by left|]. rewrite Ec, El. unfold point_key in Hk. split_and!; try (simpl; lia).
  - rewrite Es. apply unit_sum; [|done]. apply Forall_forall. intros q Hq.
    destruct (Hall q Hq) as [Ha Hk']. apply Hu; [done|]. unfold point_key in Hk'. by simplify_eq.
  - by simplify_eq.
  - exists p. by split_and!; [| |].
Qed.
(** The samples under a set of keys are counted once each. *)
Lemma keys_samples name sel keys : NoDup keys →
  (∀ p, p ∈ acc → mp_Name p = name → labelKey (mp_Labels p) ∈ keys) →
  sum_list_with (λ k, length (points_for name k acc)) (filter (λ k, sel k = true) keys) = length (samples name sel).
Proof.
  clear Hcol Hlen visits. intros Hnd. unfold samples. induction acc as [|p l IH]; intros Hin.
  { clear. by induction (filter _ keys). }
  rewrite filter_cons. specialize (IH ltac:(intros; apply Hin; [by right|done])).
  assert (Hstep : ∀ ks, NoDup ks → sum_list_with (λ k, length (points_for name k (p :: l))) ks
    = (sum_list_with (λ k, length (points_for name k l)) ks
       + if decide (mp_Name p = name ∧ labelKey (mp_Labels p) ∈ ks) then 1 else 0)%nat).
  { clear. induction ks as [|k ks IH]; intros Hnd; [by destruct (decide _) as [[_ []%not_elem_of_nil]|]|].
    apply NoDup_cons in Hnd as [Hk Hnd]. simpl. rewrite IH by done. unfold points_for. rewrite filter_cons.
    unfold point_key at 1. destruct (decide ((mp_Name p, labelKey (mp_Labels p)) = (name, k))) as [E|E]; simplify_eq; simpl.
    - rewrite decide_False by tauto. rewrite decide_True by (split; [done|by left]). lia.
    - assert (mp_Name p = name ∧ labelKey (mp_Labels p) ∈ ks ↔ mp_Name p = name ∧ labelKey (mp_Labels p) ∈ k :: ks).
      { rewrite elem_of_cons. naive_solver. }
      repeat case_decide; try lia; tauto. }
  rewrite Hstep, IH by (by apply NoDup_filter). destruct (decide (mp_Name p = name ∧ sel _ = true)) as [[E1 E2]|E]; simpl.
  - rewrite decide_True; [lia|]. split; [done|]. apply list_elem_of_filter. split; [done|]. apply Hin; [by left|done].
  - rewrite decide_False; [lia|]. rewrite list_elem_of_filter. tauto.
Qed.
Lemma orders_nodup n name : NoDup (orders n name).
Proof. rewrite visits. apply NoDup_fst_map_to_list. Qed.
Lemma orders_cover n name p : p ∈ acc → mp_Name p = name → labelKey (mp_Labels p) ∈ orders n name.
Proof.
  intros Hp Hn. rewrite visits. assert (is_Some (series_of name c !! labelKey (mp_Labels p))) as [s Hs].
  { rewrite (cl_series _ _ Hcol). assert (p ∈ points_for name (labelKey (mp_Labels p)) acc) as Hin.
    { apply list_elem_of_filter. split; [|done]. unfold point_key. by rewrite Hn. }
    destruct (points_for _ _ _); [by apply not_elem_of_nil in Hin|]. by eexists. }
  apply list_elem_of_fmap. exists (labelKey (mp_Labels p), s). split; [done|]. by apply elem_of_map_to_list.
Qed.
Lemma orders_stored n name k : k ∈ orders n name → is_Some (series_of name c !! k).
Proof.
  rewrite visits. intros ([k' s] & -> & Hs)%list_elem_of_fmap. apply elem_of_map_to_list in Hs. by eexists.
Qed.
(** A sum over the visited series is a sum over their keys. *)
Lemma visit_keys n name : (visit (orders n name) (series_of name c)).*1 = orders n name.
Proof.
  assert (H : ∀ k, k ∈ orders n name → is_Some (series_of name c !! k)) by apply orders_stored.
  unfold visit. induction (orders n name) as [|k l IH]; [done|]. csimpl.
  destruct (H k) as [s Hs]; [by left|]. rewrite Hs. csimpl. f_equal. apply IH. intros. apply H. by right.
Qed.
Lemma foldl_exact {A} (f : A → float64) (g : A → nat) l : ∀ z, 0 ≤ z →
  Forall (λ x, f x = f64_of_Z (Z.of_nat (g x))) l → z + Z.of_nat (sum_list_with g l) < 2 ^ 53 →
  foldl (λ s x, fadd s (f x)) (f64_of_Z z) l = f64_of_Z (z + Z.of_nat (sum_list_with g l)).
Proof.
  induction l as [|x l IH]; intros z Hz Hf Hs; simpl in *; [by rewrite Z.add_0_r|].
  apply Forall_cons in Hf as [Hx Hf]. rewrite Hx, f64_of_Z_add by lia. rewrite IH by (done || lia). f_equal. lia.
Qed.
Definition held (name : string) (k : string) : nat := length (points_for name k acc).
Lemma visited_stored n name :
  Forall (λ kv, series_of name c !! kv.1 = Some kv.2) (visit (orders n name) (series_of name c)).
Proof.
  apply Forall_forall. intros [k s] Hin. unfold visit in Hin. apply list_elem_of_omap in Hin as (k' & _ & Hk).
  destruct (series_of name c !! k') eqn:E; simpl in Hk; by simplify_eq.
Qed.
Lemma sum_pairs (g : string → nat) (l : list (string * metricSeries)) :
  sum_list_with (λ kv, g kv.1) l = sum_list_with g l.*1.
Proof. induction l as [|kv l IH]; [done|]. simpl. by rewrite IH. Qed.
Lemma filter_true {A} (l : list A) : filter (λ _, true = true) l = l.
Proof. induction l as [|x l IH]; [done|]. rewrite filter_cons_True by done. by rewrite IH. Qed.
Lemma held_total n name : sum_list_with (held name) (orders n name) = length (samples name (λ _, true)).
Proof.
  rewrite <- (keys_samples name (λ _, true) (orders n name)); [by rewrite filter_true|apply orders_nodup|].
  intros. by apply orders_cover.
Qed.
Lemma foldl_snd {A S} (h : S → A → S) (l : list (string * A)) : ∀ s, foldl h s l.*2 = foldl (λ s kv, h s kv.2) s l.
Proof. induction l as [|kv l IH]; intros s; [done|]. csimpl. apply IH. Qed.
Lemma reads_counter name : unit_samples name →
  reads (sum_int64 orders name) (λ z, z = Z.of_nat (length (samples name (λ _, true)))).
Proof.
  intros Hu. eapply reads_bind; [apply reads_sum|]. intros v [n ->]. apply reads_ret.
  pose proof (samples_le name (λ _, true)) as Hl. rewrite <- (held_total n) in *. unfold Collector_SumMetric.
  rewrite foldl_snd. change f0 with (f64_of_Z 0).
  rewrite (foldl_exact (λ kv, ag_Sum (ms_agg kv.2)) (λ kv, held name kv.1)); rewrite ?sum_pairs, ?visit_keys.
  - rewrite f64_to_int_of_Z; lia.
  - lia.
  - eapply Forall_impl; [apply visited_stored|]. intros [k s] Hs. by apply (stored name k s).
  - lia.
Qed.
(** The copy of a stored series of ones. *)
Lemma copy_counts name k s a : series_of name c !! k = Some s → unit_samples name → copy_of s a →
  ∃ b, a = Some b ∧ ag_Sum b = f64_of_Z (Z.of_nat (held name k)) ∧ ag_Count b = Z.of_nat (held name k) ∧ (0 < held name k)%nat.
Proof.
  intros Hs Hu Ha. destruct (stored name k s Hs Hu) as (E1 & E2 & E3 & _).
  destruct (copy_fields s a (readable _ _ _ Hs) Ha) as (F1 & F2 & F3). destruct a as [b|].
  - exists b. simpl in *. rewrite (F3 ltac:(eauto)), F1, E1. unfold held. split_and!; try done. lia.
  - specialize (F2 eq_refl). lia.
Qed.

(** ** Ingress and internal requests *)

Definition downstream (l : Labels) : bool := String.eqb (default "" (l !! "origin")) "downstream".
Definition labels_at (name k : string) : Labels := from_option ms_labels ∅ (series_of name c !! k).
Lemma reads_split : unit_samples "request_count" →
  reads (splitRequestCountByOrigin orders) (λ p,
    p.1 = Z.of_nat (length (samples "request_count" (λ k, negb (downstream (labels_at "request_count" k)))))
    ∧ p.2 = Z.of_nat (length (samples "request_count" (λ k, downstream (labels_at "request_count" k))))).
Proof.
  set (name := "request_count"). intros Hu. eapply reads_bind; [apply reads_labels|]. intros combos [n ->].
  set (L := visit (orders n name) (series_of name c)).
  set (part (b : bool) (ls : list Labels) := sum_list_with (λ l, if Bool.eqb (downstream l) b then held name (labelKey l) else 0%nat) ls).
  assert (Hpart : ∀ b, part b (ms_labels <$> L.*2) = length (samples name (λ k, Bool.eqb (downstream (labels_at name k)) b))).
  { intros b. rewrite <- (keys_samples name _ (orders n name)); [|apply orders_nodup|intros; by apply orders_cover].
    rewrite <- (visit_keys n name). fold L. pose proof (visited_stored n name) as Hst. fold L in Hst.
    unfold part. clear -Hst Hu Hcol Hlen. induction L as [|[k s] l IH]; [done|]. apply Forall_cons in Hst as [Hs Hst]. csimpl.
    simpl in Hs. rewrite filter_cons, IH by done. assert (labels_at name k = ms_labels s) as El by (unfold labels_at; by rewrite Hs).
    destruct (stored name k s Hs Hu) as (_ & _ & _ & -> & _).
    destruct (decide _) as [E|E]; rewrite El in E; [by rewrite E|]. by apply not_true_is_false in E as ->. }
  eapply reads_mono; [apply (reads_fold _ (λ p seen, p.1 = wrap64 (Z.of_nat (part false seen))
    ∧ p.2 = wrap64 (Z.of_nat (part true seen))) _ _ [])|].
  - done.
  - intros [i d] l seen Hl [Ei Ed]. simpl in Ei, Ed. eapply reads_bind; [apply reads_aggregation|].
    intros a Ha. apply reads_ret. apply list_elem_of_fmap in Hl as (s & -> & ([k s'] & -> & Hin)%list_elem_of_fmap).
    simpl in *. pose proof (visited_stored n name) as Hst. fold L in Hst. rewrite Forall_forall in Hst.
    specialize (Hst _ Hin). simpl in Hst. destruct (stored name k s' Hst Hu) as (_ & _ & _ & Ek & _).
    fold name in Ha. rewrite Ek, Hst in Ha. destruct (copy_counts name k s' a Hst Hu Ha) as (b & -> & Es & _).
    rewrite Es, f64_to_int_of_Z by (pose proof (points_for_le name k); unfold held; lia).
    fold (downstream (ms_labels s')). unfold part in Ei, Ed |- *. rewrite !sum_list_with_app. simpl. rewrite Ek, Ei, Ed.
    destruct (downstream (ms_labels s')); simpl; rewrite ?wrap64_add; split; f_equal; lia.
  - intros [i d] [-> ->]. simpl app. rewrite !Hpart. simpl. pose proof (samples_le name).
    rewrite !wrap64_id by (unfold in_int64, int64_min, int64_max; pose proof (samples_le name (λ k, Bool.eqb (downstream (labels_at name k)) false)); pose proof (samples_le name (λ k, Bool.eqb (downstream (labels_at name k)) true)); lia).
    assert (He : ∀ f g : string → bool, (∀ k, f k = g k) → samples name f = samples name g).
    { intros f g Hfg. unfold samples. apply list_filter_iff. intros p. by rewrite Hfg. }
    split; do 2 f_equal; apply He; intros k; by destruct (downstream _).
Qed.

(** ** Requests of one service *)

Definition of_service (id : string) (l : Labels) : bool := String.eqb (default "" (l !! "service")) id.
Lemma match_service l id : labelsMatchSubset l (CreateServiceLabels id) = of_service id l.
Proof. unfold labelsMatchSubset, CreateServiceLabels. rewrite map_to_list_singleton. simpl. by rewrite andb_true_r. Qed.
(** A merged aggregation of [n] ones. *)
Definition counts (n : nat) (a : option Aggregation) : Prop :=
  match a with
  | None => n = 0%nat
  | Some b => (0 < n)%nat ∧ ag_Sum b = f64_of_Z (Z.of_nat n) ∧ ag_Count b = Z.of_nat n
  end.
Lemma counts_rollup n a : counts n a → Z.of_nat n < 2 ^ 53 → rollup_count a = Z.of_nat n.
Proof.
  intros Ha Hn. destruct a as [b|]; simpl in *; [|lia]. destruct Ha as (H1 & -> & ->).
  rewrite f64_to_int_of_Z by lia. by rewrite (proj2 (Z.eqb_neq _ _)) by lia.
Qed.
Lemma counts_merge n m a b : counts n a → counts m b → Z.of_nat (n + m) < 2 ^ 53 → counts (n + m) (mergeAggregations a b).
Proof.
  intros Ha Hb Hs. destruct b as [b|]; simpl in Hb; [|by rewrite Hb, Nat.add_0_r]. destruct Hb as (Hm & Eb & Cb). simpl.
  rewrite (proj2 (Z.eqb_neq _ _)) by lia. destruct a as [a|]; simpl in *; [|by rewrite Ha; split_and!; try lia].
  destruct Ha as (Hn & Ea & Ca). split; [lia|]. rewrite Ea, Eb, Ca, Cb, f64_of_Z_add by lia.
  rewrite wrap64_id by (unfold in_int64, int64_min, int64_max; lia). split; [f_equal|]; lia.
Qed.
Lemma counts_fold name (sel : Labels → bool) : unit_samples name → ∀ L n merged copies,
  Forall (λ kv, series_of name c !! kv.1 = Some kv.2) L → counts n merged →
  Forall2 copy_of (filter (λ s, sel (ms_labels s) = true) L.*2) copies →
  let m := sum_list_with (held name) (filter (λ k, sel (labels_at name k) = true) L.*1) in
  Z.of_nat (n + m) < 2 ^ 53 → counts (n + m) (foldl mergeAggregations merged copies).
Proof.
  intros Hu. induction L as [|[k s] L IH]; intros n merged copies Hst Hn Hcs; simpl.
  { inversion Hcs. by rewrite Nat.add_0_r. }
  apply Forall_cons in Hst as [Hs Hst]. simpl in Hs. csimpl in Hcs. revert Hcs. rewrite !filter_cons.
  assert (labels_at name k = ms_labels s) as El by (unfold labels_at; by rewrite Hs).
  destruct (decide (sel (ms_labels s) = true)) as [E|E], (decide (sel (labels_at name k) = true)) as [E'|E'];
    rewrite El in E'; try done; [|by apply IH].
  intros (a & copies' & Ha & Hcs & ->)%Forall2_cons_inv_l. simpl. rewrite Nat.add_assoc. intros Hb. apply IH; try done.
  destruct (copy_counts name k s a Hs Hu Ha) as (b & -> & Es & Ec & Hpos). apply counts_merge; [done|by split_and!|lia].
Qed.
Lemma reads_service_count name id : unit_samples name →
  reads (GetOrComputeAggregationForLabelSubset orders name (CreateServiceLabels id))
    (λ a, rollup_count a = Z.of_nat (length (samples name (λ k, of_service id (labels_at name k))))).
Proof.
  intros Hu. eapply reads_mono; [apply reads_subset|]. intros a [n Ha]. rewrite bool_decide_false in Ha by done.
  destruct Ha as (copies & Hcs & ->). pose proof (samples_le name (λ k, of_service id (labels_at name k))) as Hl.
  pose proof (keys_samples name (λ k, of_service id (labels_at name k)) (orders n name) (orders_nodup n name)
    (orders_cover n name)) as Hk.
  rewrite <- Hk in Hl |- *. rewrite <- (visit_keys n name) in Hl |- *. apply counts_rollup; [|done].
  apply (counts_fold name (of_service id) Hu _ 0%nat None); [apply visited_stored|done| |exact Hl].
  erewrite list_filter_iff; [exact Hcs|]. intros s. simpl. by rewrite match_service.
Qed.
Lemma reads_service opts id : unit_samples "request_count" → unit_samples "request_error_count" →
  reads (service_snapshot orders opts id (CreateServiceLabels id)) (λ sm,
    es_RequestCount sm = Z.of_nat (length (samples "request_count" (λ k, of_service id (labels_at "request_count" k))))
    ∧ es_ErrorCount sm = Z.of_nat (length (samples "request_error_count" (λ k, of_service id (labels_at "request_error_count" k))))).
Proof.
  intros Hr He. unfold service_snapshot. cbv zeta.
  eapply reads_bind; [apply readers_subset|intros lat _].
  eapply reads_bind; [apply reads_any; reads_all|intros lat' _].
  eapply reads_bind; [apply readers_subset|intros queue _].
  eapply reads_bind; [apply readers_subset|intros proc _].
  eapply reads_bind; [by apply reads_service_count|intros request Hreq].
  eapply reads_bind; [by apply reads_service_count|intros error Herr].
  do 2 (eapply reads_bind; [apply readers_subset|intros ? _]).
  do 2 (eapply reads_bind; [apply readers_mean|intros ? _]).
  do 2 (eapply reads_bind; [apply readers_count|intros ? _]).
  by apply reads_ret.
Qed.
Lemma reads_services opts ids : unit_samples "request_count" → unit_samples "request_error_count" →
  reads (service_snapshots orders (CreateServiceLabels <$> ids) opts) (λ services, ∀ id,
    (is_Some (services !! id) ↔ id ∈ ids ∧ id ≠ "")
    ∧ ∀ sm, services !! id = Some sm →
        es_RequestCount sm = Z.of_nat (length (samples "request_count" (λ k, of_service id (labels_at "request_count" k))))
        ∧ es_ErrorCount sm = Z.of_nat (length (samples "request_error_count" (λ k, of_service id (labels_at "request_error_count" k))))).
Proof.
  intros Hr He. unfold service_snapshots.
  set (row id sm := es_RequestCount sm = Z.of_nat (length (samples "request_count" (λ k, of_service id (labels_at "request_count" k))))
    ∧ es_ErrorCount sm = Z.of_nat (length (samples "request_error_count" (λ k, of_service id (labels_at "request_error_count" k))))).
  eapply reads_mono; [apply (reads_fold _ (λ services seen, ∀ id,
    (is_Some (services !! id) ↔ CreateServiceLabels id ∈ seen ∧ id ≠ "") ∧ ∀ sm, services !! id = Some sm → row id sm) _ _ [])|].
  - intros id. rewrite lookup_empty. split; [|done]. split; [by intros []|]. by intros [[]%not_elem_of_nil _].
  - intros services l seen (id & -> & Hid)%list_elem_of_fmap Hs.
    assert (default "" (CreateServiceLabels id !! "service") = id) as ->.
    { unfold CreateServiceLabels. by rewrite lookup_singleton_eq. }
    assert (Hinj : ∀ i j, CreateServiceLabels i = CreateServiceLabels j → i = j).
    { intros i j H. apply (f_equal (lookup "service")) in H. unfold CreateServiceLabels in H.
      rewrite !lookup_singleton_eq in H. by simplify_eq. }
    destruct (is_empty id) eqn:Ei.
    + apply reads_ret. intros i. destruct (Hs i) as [H1 H2]. split; [|done]. rewrite H1, elem_of_app, list_elem_of_singleton.
      split; [tauto|]. intros [[H|H%Hinj] Hne]; [done|]. subst. by destruct id.
    + eapply reads_bind; [by apply reads_service|]. intros sm Hsm. apply reads_ret. intros i.
      destruct (decide (i = id)) as [->|Hne].
      * rewrite lookup_insert_eq, elem_of_app, list_elem_of_singleton. split; [|by intros ? [= <-]].
        split; [|done]. intros _. split; [by right|by destruct id].
      * rewrite lookup_insert_ne by done. destruct (Hs i) as [H1 H2]. split; [|done].
        rewrite H1, elem_of_app, list_elem_of_singleton. split; [tauto|]. intros [[H|H%Hinj] ?]; [done|congruence].
  - intros services Hs id. destruct (Hs id) as [H1 H2]. split; [|done]. rewrite H1. simpl. rewrite list_elem_of_fmap.
    split; [|by intros [Hi Hne]; split; [exists id|]]. intros [(j & Hj & Hin) Hne].
    apply (f_equal (lookup "service")) in Hj. unfold CreateServiceLabels in Hj. rewrite !lookup_singleton_eq in Hj.
    by simplify_eq.
Qed.
(** The snapshot as a whole. *)
Lemma reads_snapshot now ids opts : unit_samples "request_count" → unit_samples "request_error_count" →
  reads (ConvertToRunMetrics orders shuffle now (CreateServiceLabels <$> ids) opts) (λ m,
    em_TotalRequests m = Z.of_nat (length (samples "request_count" (λ _, true)))
    ∧ em_FailedRequests m = Z.of_nat (length (samples "request_error_count" (λ _, true)))
    ∧ em_SuccessfulRequests m = em_TotalRequests m - em_FailedRequests m
    ∧ em_IngressRequests m = Z.of_nat (length (samples "request_count" (λ k, negb (downstream (labels_at "request_count" k)))))
    ∧ em_InternalRequests m = Z.of_nat (length (samples "request_count" (λ k, downstream (labels_at "request_count" k))))
    ∧ ∀ id, (is_Some (em_ServiceMetrics m !! id) ↔ id ∈ ids ∧ id ≠ "")
    ∧ ∀ sm, em_ServiceMetrics m !! id = Some sm →
        es_RequestCount sm = Z.of_nat (length (samples "request_count" (λ k, of_service id (labels_at "request_count" k))))
        ∧ es_ErrorCount sm = Z.of_nat (length (samples "request_error_count" (λ k, of_service id (labels_at "request_error_count" k))))).
Proof.
  intros Hr He. unfold ConvertToRunMetrics. cbv zeta.
  eapply reads_bind; [by apply reads_split|intros [ingress internal] [Hi Hd]].
  do 2 (eapply reads_bind; [apply readers_metric|intros ? _]).
  eapply reads_bind; [by apply reads_counter|intros total Ht].
  eapply reads_bind; [by apply reads_counter|intros failed Hf].
  eapply reads_bind; [apply readers_int64|intros ? _].
  do 2 (eapply reads_bind; [apply reads_any; unfold sumRequestCountWithLabel, sumErrorCountWithReason; reads_all|intros ? _]).
  eapply reads_bind; [apply readers_summary|intros ? _].
  eapply reads_bind; [by apply reads_services|intros services Hs].
  repeat first
    [ eapply reads_bind; [first [apply readers_int64 | apply readers_gauge_max | apply readers_gauge_sum | apply readers_penalty
        | apply readers_sum | apply readers_endpoints | apply readers_routes]|intros ? _]
    | match goal with |- reads (match ?p with pair _ _ => _ end) _ => destruct p end ].
  apply reads_ret. simpl in *. pose proof (samples_le "request_count" (λ _, true)).
  pose proof (samples_le "request_error_count" (λ _, true)). split_and!; try done.
  rewrite wrap64_id; [lia|]. unfold in_int64, int64_min, int64_max. lia.
Qed.
End Reads.

(** * The snapshot of recorded requests *)

(** The samples of a metric whose labels satisfy [f]. *)
Definition labelled (name : string) (f : Labels → bool) (acc : list MetricPoint) : Z :=
  Z.of_nat (length (filter (λ p, mp_Name p = name ∧ f (mp_Labels p) = true) acc)).
(** Samples with one key have the same labels: no label value imitates a separator. *)
Definition keys_tell (acc : list MetricPoint) : Prop :=
  ∀ p q, p ∈ acc → q ∈ acc → point_key p = point_key q → mp_Labels p = mp_Labels q.
Lemma filter_in {A} (P Q : A → Prop) `{!∀ x, Decision (P x), !∀ x, Decision (Q x)} (l : list A) :
  (∀ x, x ∈ l → P x ↔ Q x) → filter P l = filter Q l.
Proof.
  induction l as [|x l IH]; intros Hin; [done|]. rewrite !filter_cons, IH by (intros; apply Hin; by right).
  pose proof (Hin x ltac:(by left)). repeat case_decide; tauto.
Qed.
Lemma samples_split acc name f :
  (length (samples acc name (λ k, negb (f k))) + length (samples acc name f) = length (samples acc name (λ _, true)))%nat.
Proof.
  unfold samples. induction acc as [|p l IH]; [done|]. rewrite !filter_cons.
  destruct (f (labelKey (mp_Labels p))) eqn:Ef; repeat case_decide; simpl; rewrite <- ?IH; try lia; naive_solver.
Qed.
Lemma samples_labelled c acc name f : collects c acc → keys_tell acc →
  Z.of_nat (length (samples acc name (λ k, f (labels_at c name k)))) = labelled name f acc.
Proof.
  intros Hc Hk. unfold samples, labelled. do 2 f_equal.
  assert (H : ∀ p, p ∈ acc → mp_Name p = name → labels_at c name (labelKey (mp_Labels p)) = mp_Labels p).
  { intros p Hp Hn. unfold labels_at. rewrite (cl_series _ _ Hc).
    assert (Hin : p ∈ points_for name (labelKey (mp_Labels p)) acc).
    { apply list_elem_of_filter. split; [|done]. unfold point_key. by rewrite Hn. }
    destruct (points_for name _ acc) as [|q l] eqn:E; [by apply not_elem_of_nil in Hin|]. simpl.
    destruct (series_after_settings (col_maxSeriesPoints c) (col_maxReservoir c) (mp_Labels q) (q :: l)) as (_ & _ & ->).
    assert (q ∈ points_for name (labelKey (mp_Labels p)) acc) as [Hq1 Hq2]%list_elem_of_filter by (rewrite E; by left).
    apply Hk; [done..|]. unfold point_key in *. rewrite Hq1. by rewrite Hn. }
  apply filter_in. intros p Hp. split; intros [Hn Hf]; (split; [done|]); by rewrite (H p) in *.
Qed.
(** C17: a snapshot of a run's metrics always succeeds, changes nothing that a later
    read of the collector can see, and counts exactly: when the requests and the errors
    are recorded with the value one, fewer than [2 ^ 53] in all, the totals are the
    numbers of samples the collector accepted, ingress and internal requests add up to
    the total, there is a row for exactly the named services, and - no two label sets
    sharing a key - each row has the numbers of samples with its service label and the
    internal requests are those with origin [downstream]; in whatever orders the maps
    are visited. *)
Theorem snapshot_counts now mp mr ms maxPoints recs orders shuffle wall ids opts start :
  Z.of_nat (length recs) < 2 ^ 53 → col_maxReservoir (new_collector now mp mr ms maxPoints) ≤ 2 ^ 53 →
  Forall (λ p, mp_Name p = "request_count" ∨ mp_Name p = "request_error_count" → mp_Value p = f1) recs →
  let '(c, acc) := record_all recs (new_collector now mp mr ms maxPoints) in
  (∀ n name, orders n name ≡ₚ (map_to_list (series_of name c)).*1) →
  ∃ m r, ConvertToRunMetrics orders shuffle wall (CreateServiceLabels <$> ids) opts (mkReading c start) = Ok (m, r)
    ∧ obs (rd_col r) = obs c
    ∧ em_TotalRequests m = labelled "request_count" (λ _, true) acc
    ∧ em_FailedRequests m = labelled "request_error_count" (λ _, true) acc
    ∧ em_SuccessfulRequests m = em_TotalRequests m - em_FailedRequests m
    ∧ em_IngressRequests m + em_InternalRequests m = em_TotalRequests m
    ∧ (∀ id, is_Some (em_ServiceMetrics m !! id) ↔ id ∈ ids ∧ id ≠ "")
    ∧ (keys_tell acc →
       em_InternalRequests m = labelled "request_count" downstream acc
       ∧ ∀ id sm, em_ServiceMetrics m !! id = Some sm →
           es_RequestCount sm = labelled "request_count" (of_service id) acc
           ∧ es_ErrorCount sm = labelled "request_error_count" (of_service id) acc).
Proof.
  intros Hlen Hres Hunit. destruct (new_collector_limits now mp mr ms maxPoints) as (H0 & L1 & L2 & L3 & L4).
  set (c0 := new_collector now mp mr ms maxPoints) in *. clearbody c0.
  pose proof (collects_all recs c0 [] H0) as H. destruct (record_all recs c0) as [c acc].
  destruct H as (Hc & Hsub & E1 & E2 & E3 & E4 & _). simpl in Hc. intros Hord.
  assert (Hlen' : Z.of_nat (length acc) < 2 ^ 53) by (apply sublist_length in Hsub; lia).
  assert (Hu : ∀ name, name = "request_count" ∨ name = "request_error_count" → unit_samples acc name).
  { intros name Hn p Hp Ep. rewrite Forall_forall in Hunit. apply Hunit; [|by rewrite Ep].
    by eapply elem_of_submseteq, sublist_submseteq. }
  assert (Hread : ∀ name key s, series_of name c !! key = Some s → small (ms_reservoir s)).
  { intros name key s. rewrite (cl_series _ _ Hc). destruct (points_for _ _ _) as [|p l]; [done|]. intros [= <-].
    unfold small. etrans; [apply series_reservoir_bounded|]. rewrite E4. lia. }
  destruct (reads_snapshot orders shuffle c Hread acc Hc Hlen' Hord wall ids opts (Hu _ (or_introl eq_refl))
    (Hu _ (or_intror eq_refl)) (mkReading c start) eq_refl) as (m & r & -> & Ho & R1 & R2 & R3 & R4 & R5 & R6).
  exists m, r. split; [done|]. split; [done|]. split_and!; try done.
  - rewrite R4, R5, R1, <- Nat2Z.inj_add. f_equal. apply (samples_split acc).
  - intros id. apply R6.
  - intros Hk. split; [rewrite R5; by apply samples_labelled|]. intros id sm Hsm. destruct (R6 id) as [_ R7].
    destruct (R7 sm Hsm) as [-> ->]. split; by apply samples_labelled.
Qed.
Definition request_at (t : Time) (service origin : string) : MetricPoint :=
  mkMetricPoint t "request_count" f1 (EndpointLabelsWithOrigin service "/x" origin).
Definition sample_requests : list MetricPoint :=
  [request_at 1 "api" "ingress"; request_at 2 "db" "downstream"; request_at 3 "api" "ingress";
   mkMetricPoint 4 "request_error_count" f1 (CreateEndpointLabels "db" "/x");
   mkMetricPoint 5 "request_latency_ms" (f64_of_Z 20) (CreateEndpointLabels "db" "/x")].
Definition sample_collector : Collector := fst (record_all sample_requests (new_collector 1 None None None 0)).
Definition key_orders (c : Collector) (_ : nat) (name : string) : list string := (map_to_list (series_of name c)).*1.
Lemma snapshot_counts_witness :
  ∃ m r, ConvertToRunMetrics (key_orders sample_collector) (λ _ _ l, l) 10 (CreateServiceLabels <$> ["api"; "db"]) None
      (mkReading sample_collector 0) = Ok (m, r)
    ∧ em_TotalRequests m = 3 ∧ em_FailedRequests m = 1 ∧ em_IngressRequests m + em_InternalRequests m = 3.
Proof.
  pose proof (snapshot_counts 1 None None None 0 sample_requests (key_orders sample_collector) (λ _ _ l, l) 10
    ["api"; "db"] None 0) as H.
  assert (Hl : Z.of_nat (length sample_requests) < 2 ^ 53) by done. specialize (H Hl). clear Hl.
  assert (Hr : col_maxReservoir (new_collector 1 None None None 0) ≤ 2 ^ 53) by done. specialize (H Hr). clear Hr.
  assert (Hu : Forall (λ p, mp_Name p = "request_count" ∨ mp_Name p = "request_error_count" → mp_Value p = f1) sample_requests)
    by (repeat constructor; by intros [|]). specialize (H Hu). clear Hu.
  assert (Ea : snd (record_all sample_requests (new_collector 1 None None None 0)) = sample_requests) by (vm_compute; reflexivity).
  assert (Ec : fst (record_all sample_requests (new_collector 1 None None None 0)) = sample_collector) by (unfold sample_collector; reflexivity).
  destruct (record_all sample_requests (new_collector 1 None None None 0)) as [c acc]. simpl in Ea, Ec. subst c acc.
  destruct H as (m & r & E & _ & H1 & H2 & _ & H3 & _); [done|]. exists m, r. split; [exact E|]. rewrite H3, H1, H2. split_and!; reflexivity.
Defined.
