(* ===== verification/RunConfig.v ===== *)
(** [internal/simd/executor_methods.go]: the methods with which the servers and the
    online controller read and change a running simulation. *)
From S2P Require Import Prelude GoFloat Utils Policy Config Graph BrokerQueue Instance ResourceManager Collector RunMetrics RunStore RunControl SimState Workload EngineMetrics.
From Stdlib Require Import SpecFloat.
#[local] Open Scope string_scope.
#[local] Open Scope list_scope.
#[local] Open Scope Z_scope.

(** * Data *)

Record ServiceConfigEntry := mkServiceEntry {
  sce_ServiceId : string;
  sce_Replicas : Z;
  sce_CpuCores : float64;
  sce_MemoryMb : float64;
}.
Record HostConfigEntry := mkHostEntry {
  hce_HostId : string;
  hce_CpuCores : Z;
  hce_MemoryGb : Z;
}.
Record WorkloadPatternEntry := mkPatternEntry {
  wpe_PatternKey : string;
  wpe_RateRps : float64;
}.
Record InstancePlacementEntry := mkPlacementEntry {
  ipe_InstanceId : string;
  ipe_ServiceId : string;
  ipe_HostId : string;
  ipe_Lifecycle : string;
  ipe_CpuCores : float64;
  ipe_MemoryMb : float64;
  ipe_CpuUtilization : float64;
  ipe_MemoryUtilization : float64;
  ipe_ActiveRequests : Z;
  ipe_QueueLength : Z;
}.
Record RunConfiguration := mkRunConfiguration {
  rc_Services : list ServiceConfigEntry;
  rc_Workload : list WorkloadPatternEntry;
  rc_Hosts : list HostConfigEntry;
  rc_Placements : list InstancePlacementEntry;
}.
(** What the executor keeps for a run while it executes: the entries of
    [resourceManagers], [workloadStates], [policyManagers] and [runScenarios], which
    are set and deleted together, and the clock of the run's engine. *)
Record LiveRun := mkLiveRun {
  lr_rm : ResourceManager;
  lr_ws : WorkloadState;
  lr_pm : PolicyManager;
  lr_scenario : Scenario;
  lr_simTime : option Time;
}.
#[export] Instance eta_LiveRun : Eta LiveRun := λ r, mkLiveRun (lr_rm r) (lr_ws r) (lr_pm r) (lr_scenario r)
  (lr_simTime r).
Abbreviation LiveRuns := (gmap string LiveRun) (only parsing).

(** * Changes of a running simulation *)

Definition no_run (runID : string) : string := ErrRunNotFound +:+ ": " +:+ runID.
(** The time of the engine, or the wall clock when there is none. *)
Definition engine_time (now : Time) (lr : LiveRun) : Time := default now (lr_simTime lr).
(** The error, if any, and the runs, which may have changed also when there is one. *)
Definition RunExecutor_UpdateServiceReplicas (clock : Z → Time) (now : Time) (runID serviceID : string) (replicas : Z)
    (runs : LiveRuns) : go (option string * LiveRuns) :=
  if is_empty runID then Ok (Some ErrRunIDMissing, runs)
  else if is_empty serviceID then Ok (Some "service_id is required", runs)
  else
    match runs !! runID with
    | None => Ok (Some (no_run runID), runs)
    | Some lr =>
        let! (err, rm) := ResourceManager_ScaleServiceWithOptions clock now serviceID replicas
          (mkScaleOptions (engine_time now lr) 0) (lr_rm lr) in
        Ok (err, <[runID := lr <| lr_rm := rm |>]> runs)
    end.
Definition RunExecutor_UpdateServiceResourcesWithHeadroom (iorder horder : list string) (runID serviceID : string)
    (cpuCores memoryMB memoryHeadroomMB : float64) (runs : LiveRuns) : go LiveRuns :=
  if is_empty runID then Fail ErrRunIDMissing
  else if is_empty serviceID then Fail "service_id is required"
  else if fltb cpuCores f0 || fltb memoryMB f0 then Fail "cpu_cores and memory_mb must be non-negative"
  else if feqb cpuCores f0 && feqb memoryMB f0 then Ok runs
  else
    match runs !! runID with
    | None => Fail (no_run runID)
    | Some lr =>
        let! rm := ResourceManager_UpdateServiceResourcesWithHeadroom iorder horder serviceID cpuCores memoryMB
          memoryHeadroomMB (lr_rm lr) in
        Ok (<[runID := lr <| lr_rm := rm |>]> runs)
    end.
Definition RunExecutor_UpdateServiceResources (iorder horder : list string) (runID serviceID : string)
    (cpuCores memoryMB : float64) (runs : LiveRuns) : go LiveRuns :=
  RunExecutor_UpdateServiceResourcesWithHeadroom iorder horder runID serviceID cpuCores memoryMB f0 runs.
Definition RunExecutor_UpdatePolicies (runID : string) (policies : option PoliciesConfig)
    (runs : LiveRuns) : go LiveRuns :=
  if is_empty runID then Fail ErrRunIDMissing
  else
    match runs !! runID with
    | None => Fail (no_run runID)
    | Some lr =>
        match policies ≫= pc_Autoscaling with
        | Some autoscaling =>
            Ok (<[runID := lr <| lr_pm := PolicyManager_UpdateAutoscaling (Some autoscaling) (lr_pm lr) |>]> runs)
        | None => Ok runs
        end
    end.
Definition RunExecutor_UpdateWorkloadRate (now : Time) (runID patternKey : string) (newRateRPS : float64)
    (runs : LiveRuns) : go LiveRuns :=
  if is_empty runID then Fail ErrRunIDMissing
  else if fleb newRateRPS f0 then Fail "rate must be positive"
  else
    match runs !! runID with
    | None => Fail (no_run runID)
    | Some lr =>
        let! ws := WorkloadState_UpdateRate patternKey newRateRPS (engine_time now lr) (lr_ws lr) in
        Ok (<[runID := lr <| lr_ws := ws |>]> runs)
    end.
Definition RunExecutor_UpdateWorkloadPattern (now : Time) (runID patternKey : string) (pattern : WorkloadPattern)
    (runs : LiveRuns) : go LiveRuns :=
  if is_empty runID then Fail ErrRunIDMissing
  else
    match runs !! runID with
    | None => Fail (no_run runID)
    | Some lr =>
        let! ws := WorkloadState_UpdatePattern patternKey pattern (engine_time now lr) (lr_ws lr) in
        Ok (<[runID := lr <| lr_ws := ws |>]> runs)
    end.

(** * Reading a running simulation *)

Definition RunExecutor_GetWorkloadPattern (runID patternKey : string) (runs : LiveRuns) : option WorkloadPatternState :=
  if is_empty runID then None
  else match runs !! runID with None => None | Some lr => WorkloadState_GetPattern patternKey (lr_ws lr) end.
Definition RunExecutor_GetScenarioSnapshot (runID : string) (runs : LiveRuns) : option Scenario :=
  if is_empty runID then None else lr_scenario <$> runs !! runID.
Definition RunExecutor_hostIDsForRun (runID : string) (runs : LiveRuns) : list string :=
  match runs !! runID with None => [] | Some lr => ResourceManager_HostIDs (lr_rm lr) end.
Definition RunExecutor_runMetricsOptsForRun (qorder torder : list string) (now : Time) (runID : string)
    (runs : LiveRuns) : option RunMetricsOptions :=
  match runs !! runID with
  | None => None
  | Some lr => RunMetricsOptionsFromResourceManager qorder torder now (lr_rm lr)
  end.
Definition clampIntToInt32 (n : Z) : Z :=
  let max := 2 ^ 31 - 1 in
  let min := - 2 ^ 31 in
  if max <? n then max else if n <? min then min else n.
(** The sizes of a routable instance when there is one, else of any instance. *)
Definition instance_sizes (def : float64 * float64) (instances : list ServiceInstance) : float64 * float64 :=
  match find_first ServiceInstance_IsRoutable instances with
  | Some inst => (si_cpuCores inst, si_memoryMB inst)
  | None => match instances with inst :: _ => (si_cpuCores inst, si_memoryMB inst) | [] => def end
  end.
Definition service_entry (iorder : string → list string) (rm : ResourceManager) (svcID : string) : ServiceConfigEntry :=
  let '(cpu, mem) := instance_sizes (f0, f0) (ResourceManager_GetInstancesForService (iorder svcID) svcID rm) in
  mkServiceEntry svcID (int32_count (ResourceManager_ActiveReplicas svcID rm)) cpu mem.
Definition host_entry (rm : ResourceManager) (hostID : string) : option HostConfigEntry :=
  (λ h, mkHostEntry hostID (clampIntToInt32 (h_cpuCores h)) (clampIntToInt32 (h_memoryGB h))) <$> mg_hosts rm !! hostID.
Definition pattern_entry (ws : WorkloadState) (key : string) : option WorkloadPatternEntry :=
  match WorkloadState_GetAllPatterns ws !! key with
  | Some st =>
      let rate := ar_RateRPS (wl_Arrival (wp_Pattern st)) in
      if fltb f0 rate then Some (mkPatternEntry key rate) else None
  | None => None
  end.
Definition placement_entry (p : InstancePlacement) : InstancePlacementEntry :=
  mkPlacementEntry (ip_InstanceID p) (ip_ServiceID p) (ip_HostID p) (ip_Lifecycle p) (ip_CPUCores p) (ip_MemoryMB p)
    (ip_CPUUtilization p) (ip_MemoryUtilization p) (ip_ActiveRequests p) (ip_QueueLength p).
(** [iorder svc] is the order in which the loop for [svc] visits the instances. *)
Definition RunExecutor_GetRunConfiguration (iorder : string → list string) (now : Time) (runID : string)
    (runs : LiveRuns) : option RunConfiguration :=
  if is_empty runID then None
  else
    match runs !! runID with
    | None => None
    | Some lr =>
        let rm := lr_rm lr in
        Some (mkRunConfiguration (service_entry iorder rm <$> ResourceManager_ListServiceIDs rm)
          (omap (pattern_entry (lr_ws lr)) (sorted_keys (WorkloadState_GetAllPatterns (lr_ws lr))))
          (omap (host_entry rm) (ResourceManager_HostIDs rm))
          (placement_entry <$> ResourceManager_GetInstancePlacements now (engine_time now lr) rm))
    end.
