(* ===== verification/OnlineController.v ===== *)
(** [runOnlineController] of [internal/simd/executor.go] with its helpers: the loop
    that reads the metrics of a running simulation at every control interval and
    changes hosts, replicas and sizes to keep latency or utilisation near the target. *)
From S2P Require Import Prelude GoFloat Utils Policy Config Graph BrokerQueue BatchSpec Instance ResourceManager Collector RunMetrics RunStore Limits RunControl SimState ServiceModel Workload EngineMetrics RunConfig.
From Stdlib Require Import SpecFloat.
#[local] Open Scope string_scope.
#[local] Open Scope list_scope.
#[local] Open Scope Z_scope.
#[local] Open Scope cm_scope.

(** * Guards *)

Definition allowScaleDownReplicas (svcCPUUtil svcMemUtil scaleDownCPUMax scaleDownMemMax : float64) : bool :=
  if fleb (f64_lit 8 10) svcCPUUtil then false
  else if fleb scaleDownCPUMax f0 && fleb scaleDownMemMax f0 then true
  else if fltb f0 scaleDownCPUMax && fleb scaleDownCPUMax svcCPUUtil then false
  else negb (fltb f0 scaleDownMemMax && fleb scaleDownMemMax svcMemUtil).
(** A sum of ints: the order of the instances does not matter. *)
Definition serviceQueueDepthTotal (rm : ResourceManager) (serviceID : string) : Z :=
  foldl (λ total inst, wrap64 (total + ServiceInstance_QueueLength inst)) 0
    (ResourceManager_GetInstancesForService (sorted_keys (mg_instances rm)) serviceID rm).
Record brokerPressureSignal := mkPressure {
  bp_HasBacklog : bool;
  bp_HasInFlight : bool;
  bp_HasDrops : bool;
  bp_HasDLQ : bool;
  bp_MaxDepth : Z;
  bp_MaxOldestAgeMs : float64;
  bp_Reason : string;
}.
Definition no_pressure : brokerPressureSignal := mkPressure false false false false 0 f0 "".
Definition targetServiceIDFromConsumerTarget (target : string) : string :=
  match cut_colon (TrimSpace target) with None => "" | Some (s, _) => TrimSpace s end.
Definition add_pressure (reason : string) (s : BrokerShardRuntimeSnapshot) (out : gmap string brokerPressureSignal)
    : gmap string brokerPressureSignal :=
  let svc := targetServiceIDFromConsumerTarget (ss_ConsumerTarget s) in
  if is_empty svc then out
  else
    let cur := default no_pressure (out !! svc) in
    <[svc := mkPressure
       (bp_HasBacklog cur || (0 <? ss_Depth s)) (bp_HasInFlight cur || (0 <? ss_InFlight s))
       (bp_HasDrops cur || (0 <? ss_DropCount s)) (bp_HasDLQ cur || (0 <? ss_DlqCount s))
       (if bp_MaxDepth cur <? ss_Depth s then ss_Depth s else bp_MaxDepth cur)
       (if fltb (bp_MaxOldestAgeMs cur) (ss_OldestMessageAgeMs s) then ss_OldestMessageAgeMs s else bp_MaxOldestAgeMs cur)
       (if is_empty (bp_Reason cur) then reason else bp_Reason cur)]> out.
Definition brokerPressureByConsumerService (qorder torder : list string) (now : Time) (rm : ResourceManager)
    : gmap string brokerPressureSignal :=
  let out := foldl (λ out q, add_pressure "queue_pressure" (qh_snapshot q) out) ∅
    (ResourceManager_QueueBrokerHealthSnapshots qorder now rm) in
  foldl (λ out t, add_pressure "topic_pressure" (th_snapshot t) out) out
    (ResourceManager_TopicBrokerHealthSnapshots torder now rm).
Definition error_fraction (em : EngineRunMetrics) : float64 :=
  fdiv (f64_of_Z (em_FailedRequests em)) (f64_of_Z (em_TotalRequests em)).
(** Whether scaling down should be skipped. *)
Definition onlineScaleDownGuard (rm : ResourceManager) (em : EngineRunMetrics) (svcID : string)
    (targetP95 prevErrFrac : float64) (pressure : gmap string brokerPressureSignal) : bool :=
  (fltb f0 targetP95 && fleb (fmul targetP95 (f64_lit 95 100)) (em_LatencyP95 em))
  || match em_ServiceMetrics em !! svcID with Some sm => 10 <? es_ConcurrentRequests sm | None => false end
  || (0 <? serviceQueueDepthTotal rm svcID)
  || match pressure !! svcID with
     | Some p => bp_HasBacklog p || bp_HasInFlight p || bp_HasDrops p || bp_HasDLQ p || fltb f0 (bp_MaxOldestAgeMs p)
     | None => false
     end
  || (fltb f0 (f64_of_Z (em_TotalRequests em)) && fleb f0 prevErrFrac
      && fltb (fadd prevErrFrac (f64_lit 5 1000)) (error_fraction em)).
(** Not used by the controller. *)
Definition onlineTopologyGuard (em : EngineRunMetrics) (opt : OptimizationConfig) : bool * string :=
  if fltb f0 (oc_MinLocalityHitRate opt) && fltb (em_LocalityHitRate em) (oc_MinLocalityHitRate opt)
  then (true, "locality_hit_rate_below_min")
  else if fltb f0 (oc_MaxCrossZoneRequestFraction opt)
          && fltb (oc_MaxCrossZoneRequestFraction opt) (em_CrossZoneRequestFraction em)
  then (true, "cross_zone_fraction_above_max")
  else if fltb f0 (oc_MaxTopologyLatencyPenaltyMeanMs opt)
          && fltb (oc_MaxTopologyLatencyPenaltyMeanMs opt) (em_TopologyLatencyPenaltyMsMean em)
  then (true, "topology_latency_penalty_above_max")
  else (false, "").
(** The maximum over the services, which no order of the map changes. *)
Definition maxServiceUtilization (kind : string) (em : EngineRunMetrics) : float64 :=
  foldl (λ maxUtil kv,
    if HasPrefix (ToLower kv.1) "client" then maxUtil
    else
      let u := if String.eqb kind "memory" then es_MemoryUtilization kv.2 else es_CPUUtilization kv.2 in
      if fltb maxUtil u then u else maxUtil) f0 (map_to_list (em_ServiceMetrics em)).

(** * State of the loop *)

Record ControllerStep := mkControllerStep {
  os_IterationIndex : Z;
  os_TargetP95Ms : float64;
  os_ScoreP95Ms : float64;
  os_Reason : string;
  os_PreviousConfig : RunConfiguration;
  os_CurrentConfig : RunConfiguration;
}.
(** The calls of the loop into the simulation, the executor and the run store. *)
Inductive ControllerEffect :=
  | FailDropped (t : Time) (ids : list string)
  | SignalLeaseEnd (reason : string)
  | SetProgress (iteration : Z) (score : float64)
  | AppendStep (step : ControllerStep).
Record Controller := mkController {
  ct_bestScore : float64;
  ct_iter : Z;
  ct_stepIndex : Z;
  ct_lastScaleWall : Time;
  ct_stableRepDown : gmap string Z;
  ct_stableHostScaleIn : Z;
  ct_stableHostCPUDown : Z;
  ct_stableHostMemDown : Z;
  ct_stableVertCPUDown : gmap string Z;
  ct_stableVertMemDown : gmap string Z;
  ct_prevErrFrac : float64;
  ct_noopStreak : Z;
}.
#[export] Instance eta_Controller : Eta Controller := λ r, mkController (ct_bestScore r) (ct_iter r) (ct_stepIndex r)
  (ct_lastScaleWall r) (ct_stableRepDown r) (ct_stableHostScaleIn r) (ct_stableHostCPUDown r)
  (ct_stableHostMemDown r) (ct_stableVertCPUDown r) (ct_stableVertMemDown r) (ct_prevErrFrac r) (ct_noopStreak r).
Definition new_controller : Controller :=
  mkController (f64_inf false) 0 0 zeroTime ∅ 0 0 0 ∅ ∅ (SFopp f1) 0.
(** The state of a tick: the run, which the executor still has registered or not, the
    variables of the loop, the calls made so far and the number of map loops. *)
Record TickState := mkTick {
  tc_run : LiveRun;
  tc_registered : bool;
  tc_ctl : Controller;
  tc_effects : list ControllerEffect;
  tc_ranges : nat;
}.
#[export] Instance eta_TickState : Eta TickState := λ r, mkTick (tc_run r) (tc_registered r) (tc_ctl r) (tc_effects r)
  (tc_ranges r).
Abbreviation TM := (SM TickState) (only parsing).
Definition tc_rm (s : TickState) : ResourceManager := lr_rm (tc_run s).
Definition getting {A} (f : TickState → A) : TM A := λ s, Ok (f s, s).
Definition changing (f : TickState → TickState) : TM unit := λ s, Ok (tt, f s).
Definition set_rm (rm : ResourceManager) : TM unit := changing (λ s, s <| tc_run := (tc_run s) <| lr_rm := rm |> |>).
Definition change_ctl (f : Controller → Controller) : TM unit := changing (λ s, s <| tc_ctl := f (tc_ctl s) |>).
Definition emit (e : ControllerEffect) : TM unit := changing (λ s, s <| tc_effects := tc_effects s ++ [e] |>).

(** * Settings *)

Definition primary_target (opt : OptimizationConfig) : string :=
  let p := norm (oc_OptimizationTargetPrimary opt) in if is_empty p then "p95_latency" else p.
Definition by_utilization (opt : OptimizationConfig) : bool :=
  String.eqb (primary_target opt) "cpu_utilization" || String.eqb (primary_target opt) "memory_utilization".
Definition p95_guard (opt : OptimizationConfig) : bool := fltb f0 (oc_TargetP95LatencyMs opt).
(** The controller does not run without a latency target when latency is primary. *)
Definition controller_starts (opt : OptimizationConfig) : bool :=
  negb (String.eqb (primary_target opt) "p95_latency" && fleb (oc_TargetP95LatencyMs opt) f0).
Definition control_interval (opt : OptimizationConfig) : Duration :=
  if 0 <? oc_ControlIntervalMs opt then wrap64 (oc_ControlIntervalMs opt * Millisecond) else Second.
Definition interval_ms (opt : OptimizationConfig) : Z :=
  let ms := Z.quot (control_interval opt) Millisecond in if ms <? 1 then 1 else ms.
Definition stab_ticks (opt : OptimizationConfig) : Z :=
  let window := oc_ScaleDownStabilizationWindowMs opt in
  if 0 <? window then
    let ticks := Z.quot (wrap64 (wrap64 (window + interval_ms opt) - 1)) (interval_ms opt) in
    if ticks <? 1 then 1 else ticks
  else 1.
Definition min_replicas (opt : OptimizationConfig) : Z :=
  if oc_MinReplicasPerService opt <? 1 then 1 else oc_MinReplicasPerService opt.
Definition min_hosts (scenario : Scenario) (opt : OptimizationConfig) : Z :=
  if oc_MinHosts opt <=? 0 then len (scn_Hosts scenario) else oc_MinHosts opt.
Definition max_hosts (scenario : Scenario) (opt : OptimizationConfig) : Z :=
  let maxHosts := if oc_MaxHosts opt <=? 0 then len (scn_Hosts scenario) else oc_MaxHosts opt in
  if maxHosts <? min_hosts scenario opt then min_hosts scenario opt else maxHosts.
(** The sizes of the first host of the scenario. *)
Definition initial_cores (scenario : Scenario) : Z :=
  clamp1 (match scn_Hosts scenario with h :: _ => hs_Cores h | [] => 0 end).
Definition initial_mem (scenario : Scenario) : Z :=
  clamp1 (match scn_Hosts scenario with h :: _ => hs_MemoryGB h | [] => 0 end).
Definition host_step (opt : OptimizationConfig) : Z := clamp1 (f64_to_int (math_Ceil (oc_StepSize opt))).
Definition replica_step (opt : OptimizationConfig) : Z := clamp1 (f64_to_int (oc_StepSize opt)).
Definition cpu_step (opt : OptimizationConfig) : float64 := if fleb (oc_StepSize opt) f0 then f1 else oc_StepSize opt.
Definition hot : float64 := f64_lit 8 10.
Definition above_target (opt : OptimizationConfig) (p95 : float64) : bool :=
  fltb (fmul (oc_TargetP95LatencyMs opt) (f64_lit 105 100)) p95.
Definition well_below_target (opt : OptimizationConfig) (p95 : float64) : bool :=
  fltb p95 (fmul (oc_TargetP95LatencyMs opt) (f64_lit 7 10)).
Definition util_high (opt : OptimizationConfig) : float64 :=
  if fleb (oc_TargetUtilHigh opt) f0 then f64_lit 7 10 else oc_TargetUtilHigh opt.
Definition util_low (opt : OptimizationConfig) : float64 :=
  if fleb (oc_TargetUtilLow opt) f0 then f64_lit 4 10 else oc_TargetUtilLow opt.

(** * What to do with one service *)

Record ServiceView := mkServiceView {
  sv_replicas : Z;
  sv_cores : float64;
  sv_mem : float64;
  sv_cpuUtil : float64;
  sv_memUtil : float64;
  sv_pressure : brokerPressureSignal;
  sv_guarded : bool;
}.
Record Decision := mkDecision {
  de_replicas : Z;
  de_cores : float64;
  de_vertical : bool;
  de_mem : float64;
  de_repDown : Z;
  de_cpuDown : Z;
  de_memDown : Z;
}.
Section Decide.
Context (opt : OptimizationConfig) (p95 : float64) (svc : Service) (v : ServiceView).
Definition may_scale_down : bool :=
  allowScaleDownReplicas (sv_cpuUtil v) (sv_memUtil v) (oc_ScaleDownCpuUtilMax opt) (oc_ScaleDownMemUtilMax opt).
Definition p95_ok_for_down : bool :=
  negb (p95_guard opt) || fleb p95 (fmul (oc_TargetP95LatencyMs opt) (f64_lit 105 100)).
Definition pressed : bool :=
  bp_HasBacklog (sv_pressure v) || bp_HasInFlight (sv_pressure v) || fltb f0 (bp_MaxOldestAgeMs (sv_pressure v)).
(** Replicas, cores and whether cores change, when more capacity is wanted. *)
Definition scale_up_choice : Z * float64 * bool :=
  if ServiceAllowsVerticalCPU (Some svc) && fleb hot (sv_cpuUtil v)
  then (sv_replicas v, fadd (sv_cores v) (cpu_step opt), true)
  else if ServiceAllowsHorizontalScaling (Some svc)
  then (wrap64 (sv_replicas v + replica_step opt), sv_cores v, false)
  else (sv_replicas v, sv_cores v, false).
Definition scale_down_choice : Z * float64 * bool :=
  if ServiceAllowsHorizontalScaling (Some svc) && may_scale_down
  then (sv_replicas v - 1, sv_cores v, false)
  else (sv_replicas v, sv_cores v, false).
Definition primary_choice : Z * float64 * bool :=
  if by_utilization opt then
    let util := if String.eqb (primary_target opt) "memory_utilization" then sv_memUtil v else sv_cpuUtil v in
    if pressed then scale_up_choice
    else if fltb (util_high opt) util then scale_up_choice
    else if fltb util (util_low opt) && (1 <? sv_replicas v) && p95_ok_for_down then scale_down_choice
    else (sv_replicas v, sv_cores v, false)
  else if pressed then scale_up_choice
  else if p95_guard opt && above_target opt p95 then scale_up_choice
  else if p95_guard opt && well_below_target opt p95 && (1 <? sv_replicas v) then scale_down_choice
  else (sv_replicas v, sv_cores v, false).
(** The smaller size to which a vertical downscale would go. *)
Definition smaller (current step floor : float64) : option float64 :=
  let n := fsub current step in
  let n := if fltb f0 floor && fltb n floor then floor else n in
  if fltb (fadd n cpu_eps) current then Some n else None.
(** [down] counts the intervals in a row; the change is due after [stab_ticks]. *)
Definition count_down (want : option float64) (down : Z) : option float64 * Z :=
  match want with
  | Some target =>
      let down := wrap64 (down + 1) in
      if (stab_ticks opt <=? down) && fltb f0 target then (Some target, 0) else (None, down)
  | None => (None, 0)
  end.
Definition wants_down (target : string) (allowed : bool) (util : float64) (newReplicas : Z) : bool :=
  String.eqb (primary_target opt) target && allowed && fltb util (util_low opt) && p95_ok_for_down
  && (sv_replicas v <=? newReplicas) && may_scale_down && negb (sv_guarded v).
Definition decide_service (repDown cpuDown memDown : Z) : Decision :=
  let '(newReplicas, newCores, vertical) := primary_choice in
  let wantCPU := if wants_down "cpu_utilization" (ServiceAllowsVerticalCPU (Some svc)) (sv_cpuUtil v) newReplicas
    then smaller (sv_cores v) (cpu_step opt) (oc_MinCpuCoresPerInstance opt) else None in
  let '(downCores, cpuDown) := count_down wantCPU cpuDown in
  let '(newCores, vertical) := match downCores with Some c => (c, true) | None => (newCores, vertical) end in
  let wantMem := if wants_down "memory_utilization" (ServiceAllowsVerticalMemory (Some svc)) (sv_memUtil v) newReplicas
    then smaller (sv_mem v) (fmul (f64_of_Z (replica_step opt)) (f64_of_Z 128)) (oc_MinMemoryMbPerInstance opt) else None in
  let '(downMem, memDown) := count_down wantMem memDown in
  let newMem := default (sv_mem v) downMem in
  let '(newReplicas, repDown) :=
    if newReplicas <? sv_replicas v then
      let repDown := wrap64 (repDown + 1) in
      (if repDown <? stab_ticks opt then sv_replicas v else newReplicas, repDown)
    else (newReplicas, 0) in
  let '(newReplicas, repDown) :=
    if (newReplicas <? sv_replicas v) && sv_guarded v then (sv_replicas v, 0) else (newReplicas, repDown) in
  let newReplicas := if newReplicas <? min_replicas opt then min_replicas opt else newReplicas in
  mkDecision newReplicas newCores vertical newMem repDown cpuDown memDown.
End Decide.

(** * One tick *)

Section Tick.
(** [ords n tag m] is the order in which the [n]-th call that loops over maps visits [m];
    [tag] tells the loops of one call apart. [orders] and [shuffle] are those of the
    metrics conversion, [clock] the start times of new instances, [now] the wall clock
    at the tick. *)
Context (ords : nat → string → ∀ A : Type, gmap string A → list string).
Context (orders : nat → string → list string) (shuffle : nat → ∀ A : Type, list A → list A).
Context (clock : Z → Time) (runID : string) (scenario : Scenario) (opt : OptimizationConfig) (now : Time).

Definition range {A} (tag : string) (m : gmap string A) : TM (list string) := λ s,
  Ok (ords (tc_ranges s) tag A m, s <| tc_ranges := S (tc_ranges s) |>).
Definition runs_of (s : TickState) : gmap string LiveRun := if tc_registered s then {[runID := tc_run s]} else ∅.
(** The manager after a call through the executor. *)
Definition rm_after (runs : gmap string LiveRun) (s : TickState) : ResourceManager :=
  from_option lr_rm (tc_rm s) (runs !! runID).
Definition get_config : TM (option RunConfiguration) := λ s,
  Ok (RunExecutor_GetRunConfiguration (λ svc, ords (tc_ranges s) svc _ (mg_instances (tc_rm s))) now runID (runs_of s),
      s <| tc_ranges := S (tc_ranges s) |>).
Definition recordOptimizationStep (iterationIndex : Z) (scoreP95 : float64) (reason : string)
    (prevConfig currConfig : RunConfiguration) : TM unit :=
  emit (AppendStep (mkControllerStep iterationIndex (oc_TargetP95LatencyMs opt) scoreP95 reason prevConfig currConfig)).
(** After a change: one more step, recorded with the configurations before and after. *)
Definition record_change (p95 : float64) (reason : string) (prevConfig : option RunConfiguration) : TM unit :=
  currConfig <~ get_config ;~
  match currConfig, prevConfig with
  | Some curr, Some prev =>
      _ <~ change_ctl (λ c, c <| ct_stepIndex := wrap32 (ct_stepIndex c + 1) |>) ;~
      i <~ getting (λ s, ct_stepIndex (tc_ctl s)) ;~
      recordOptimizationStep i p95 reason prev curr
  | _, _ => cret tt
  end.

(** ** Hosts *)

Definition scale_hosts_up (p95 : float64) (hostCount : Z) (maxHostCPU : float64) : TM unit :=
  if p95_guard opt && above_target opt p95 && (0 <? hostCount) then
    if (hostCount <? max_hosts scenario opt) && fleb hot maxHostCPU then
      prev <~ get_config ;~
      rm <~ getting tc_rm ;~
      order <~ range "hosts" (mg_hosts rm) ;~
      match ResourceManager_ScaleOutHosts order (hostCount + 1) rm with
      | Some (Ok rm') =>
          _ <~ set_rm rm' ;~ record_change p95 "p95 above target, host CPU hot, scaled out hosts" prev
      | Some (Fail _) => cret tt
      | _ => λ _, Panic
      end
    else if (max_hosts scenario opt <=? hostCount) && fleb hot maxHostCPU then
      prev <~ get_config ;~
      rm <~ getting tc_rm ;~
      _ <~ set_rm (ResourceManager_IncreaseHostCapacity (host_step opt) 0 rm) ;~
      record_change p95 "p95 above target, hosts at max, increased host CPU capacity" prev
    else cret tt
  else cret tt.
Definition scale_hosts_in (p95 : float64) (hostCount : Z) (maxHostCPU : float64) : TM unit :=
  let cpuMax := oc_ScaleDownHostCpuUtilMax opt in
  let cond := p95_guard opt && fltb f0 cpuMax && well_below_target opt p95 && (min_hosts scenario opt <? hostCount)
              && fltb maxHostCPU cpuMax in
  _ <~ change_ctl (λ c, c <| ct_stableHostScaleIn := if cond then wrap64 (ct_stableHostScaleIn c + 1) else 0 |>) ;~
  stable <~ getting (λ s, ct_stableHostScaleIn (tc_ctl s)) ;~
  if cond && (stab_ticks opt <=? stable) then
    prev <~ get_config ;~
    rm <~ getting tc_rm ;~
    order <~ range "hosts" (mg_hosts rm) ;~
    match ResourceManager_ScaleInHosts order (hostCount - 1) rm with
    | Ok rm' =>
        _ <~ set_rm rm' ;~
        if ResourceManager_HostCount rm' <? hostCount then
          _ <~ change_ctl (λ c, c <| ct_stableHostScaleIn := 0 |>) ;~
          record_change p95 "p95 and host utilization low, scaled in hosts" prev
        else cret tt
    | Fail _ => cret tt
    | Panic => λ _, Panic
    end
  else cret tt.
(** The first host by ID. *)
Definition first_host {A} (f : Host → A) (def : A) (rm : ResourceManager) : A :=
  match omap (λ hid, mg_hosts rm !! hid) (ResourceManager_HostIDs rm) with h :: _ => f h | [] => def end.
Definition decrease_hosts (cpuDelta memDelta : Z) (reset : Controller → Controller) (p95 : float64) (reason : string)
    : TM unit :=
  prev <~ get_config ;~
  rm <~ getting tc_rm ;~
  order <~ range "hosts" (mg_hosts rm) ;~
  match ResourceManager_DecreaseHostCapacity order cpuDelta memDelta rm with
  | Ok rm' => _ <~ set_rm rm' ;~ _ <~ change_ctl reset ;~ record_change p95 reason prev
  | Fail _ => cret tt
  | Panic => λ _, Panic
  end.
Definition shrink_host_cpu (p95 : float64) (hostCount : Z) (maxHostCPU : float64) : TM unit :=
  cores <~ getting (λ s, first_host h_cpuCores 0 (tc_rm s)) ;~
  let cpuMax := oc_ScaleDownHostCpuUtilMax opt in
  let cond := fltb f0 cpuMax && (min_hosts scenario opt <=? hostCount) && fltb maxHostCPU cpuMax
              && (initial_cores scenario <? cores) in
  _ <~ change_ctl (λ c, c <| ct_stableHostCPUDown := if cond then wrap64 (ct_stableHostCPUDown c + 1) else 0 |>) ;~
  stable <~ getting (λ s, ct_stableHostCPUDown (tc_ctl s)) ;~
  if cond && (stab_ticks opt <=? stable)
  then decrease_hosts (- host_step opt) 0 (λ c, c <| ct_stableHostCPUDown := 0 |>) p95
         "host utilization low, decreased host CPU capacity"
  else cret tt.
Definition shrink_host_mem (p95 : float64) (hostCount : Z) (maxHostMem : float64) : TM unit :=
  mem <~ getting (λ s, first_host h_memoryGB 0 (tc_rm s)) ;~
  let memMax := oc_ScaleDownHostMemUtilMax opt in
  let cond := fltb f0 memMax && (min_hosts scenario opt <=? hostCount) && fltb maxHostMem memMax
              && (initial_mem scenario <? mem) in
  _ <~ change_ctl (λ c, c <| ct_stableHostMemDown := if cond then wrap64 (ct_stableHostMemDown c + 1) else 0 |>) ;~
  stable <~ getting (λ s, ct_stableHostMemDown (tc_ctl s)) ;~
  if cond && (stab_ticks opt <=? stable)
  then decrease_hosts 0 (- host_step opt) (λ c, c <| ct_stableHostMemDown := 0 |>) p95
         "host memory utilization low, decreased host memory capacity"
  else cret tt.

(** ** Services *)

Definition view_service (em : EngineRunMetrics) (pressure : gmap string brokerPressureSignal) (svc : Service) : TM ServiceView :=
  s <~ getting id ;~
  let rm := tc_rm s in
  order <~ range (svc_ID svc) (mg_instances rm) ;~
  let current := ResourceManager_ActiveReplicas (svc_ID svc) rm in
  let '(cores, mem) := instance_sizes (DefaultInstanceCPUCores, DefaultInstanceMemoryMB)
    (ResourceManager_GetInstancesForService order (svc_ID svc) rm) in
  let sm := em_ServiceMetrics em !! svc_ID svc in
  cret (mkServiceView (if current <? 1 then 1 else current) cores mem
    (from_option es_CPUUtilization f0 sm) (from_option es_MemoryUtilization f0 sm)
    (default no_pressure (pressure !! svc_ID svc))
    (onlineScaleDownGuard rm em (svc_ID svc) (oc_TargetP95LatencyMs opt) (ct_prevErrFrac (tc_ctl s)) pressure)).
(** The error of the call, if any. *)
Definition update_resources (svcID : string) (cpu mem headroom : float64) : TM (option string) :=
  rm <~ getting tc_rm ;~
  iorder <~ range "instances" (mg_instances rm) ;~
  horder <~ range "hosts" (mg_hosts rm) ;~
  s <~ getting id ;~
  match RunExecutor_UpdateServiceResourcesWithHeadroom iorder horder runID svcID cpu mem headroom (runs_of s) with
  | Ok runs => _ <~ set_rm (rm_after runs s) ;~ cret None
  | Fail e => cret (Some e)
  | Panic => λ _, Panic
  end.
Definition update_replicas (svcID : string) (replicas : Z) : TM (option string) := λ s,
  let! (err, runs) := RunExecutor_UpdateServiceReplicas clock now runID svcID replicas (runs_of s) in
  (_ <~ set_rm (rm_after runs s) ;~ cret err) s.
Definition replica_reason (old new : Z) : string :=
  if new <? old then
    if by_utilization opt then "utilization below target and P95 ok, scaled replicas down"
    else "p95 below target and utilization low, scaled replicas down"
  else if by_utilization opt then "utilization above target, scaled replicas up"
  else "p95 above target, scaled replicas up".
Definition apply_replicas (p95 : float64) (svc : Service) (old new : Z) : TM unit :=
  if new =? old then cret tt
  else
    prev <~ get_config ;~
    err <~ update_replicas (svc_ID svc) new ;~
    match err with
    | Some _ => cret tt
    | None => record_change p95 (replica_reason old new) prev
    end.
Definition apply_memory (p95 : float64) (svc : Service) (v : ServiceView) (newMem : float64) (replicas : Z) : TM unit :=
  if fltb (fadd newMem cpu_eps) (sv_mem v) then
    prev <~ get_config ;~
    err <~ update_resources (svc_ID svc) f0 newMem (oc_MemoryDownsizeHeadroomMb opt) ;~
    match err with
    | Some _ => apply_replicas p95 svc (sv_replicas v) replicas
    | None => record_change p95 "memory utilization low, decreased per-instance memory" prev
    end
  else apply_replicas p95 svc (sv_replicas v) replicas.
(** The replicas to set when the cores could not be changed. *)
Definition fallback_replicas (p95 : float64) (svc : Service) (v : ServiceView) (replicas : Z) : Z :=
  if ServiceAllowsHorizontalScaling (Some svc)
     && (by_utilization opt || (p95_guard opt && above_target opt p95))
  then wrap64 (sv_replicas v + replica_step opt) else replicas.
Definition apply_decision (p95 : float64) (svc : Service) (v : ServiceView) (d : Decision) : TM unit :=
  if de_vertical d && negb (feqb (de_cores d) (sv_cores v)) then
    prev <~ get_config ;~
    err <~ update_resources (svc_ID svc) (de_cores d) f0 f0 ;~
    match err with
    | Some _ => apply_memory p95 svc v (de_mem d) (fallback_replicas p95 svc v (de_replicas d))
    | None => record_change p95 "p95 above target, service CPU hot, scaled CPU cores" prev
    end
  else apply_memory p95 svc v (de_mem d) (de_replicas d).
Definition control_service (em : EngineRunMetrics) (pressure : gmap string brokerPressureSignal) (svc : Service) : TM unit :=
  v <~ view_service em pressure svc ;~
  c <~ getting tc_ctl ;~
  let id := svc_ID svc in
  let count (m : gmap string Z) := default 0 (m !! id) in
  let d := decide_service opt (em_LatencyP95 em) svc v (count (ct_stableRepDown c)) (count (ct_stableVertCPUDown c))
             (count (ct_stableVertMemDown c)) in
  _ <~ change_ctl (λ c, c <| ct_stableRepDown := <[id := de_repDown d]> (ct_stableRepDown c) |>
      <| ct_stableVertCPUDown := <[id := de_cpuDown d]> (ct_stableVertCPUDown c) |>
      <| ct_stableVertMemDown := <[id := de_memDown d]> (ct_stableVertMemDown c) |>) ;~
  apply_decision (em_LatencyP95 em) svc v d.

(** ** The tick *)

Definition current_score (em : EngineRunMetrics) : float64 :=
  if String.eqb (primary_target opt) "cpu_utilization" then maxServiceUtilization "cpu" em
  else if String.eqb (primary_target opt) "memory_utilization" then maxServiceUtilization "memory" em
  else em_LatencyP95 em.
Definition note_score (score : float64) : TM unit :=
  c <~ getting tc_ctl ;~
  if fltb score (ct_bestScore c) then
    _ <~ change_ctl (λ c, c <| ct_bestScore := score |> <| ct_iter := wrap32 (ct_iter c + 1) |>) ;~
    emit (SetProgress (wrap32 (ct_iter c + 1)) score)
  else cret tt.
Definition drain_instances : TM unit :=
  rm <~ getting tc_rm ;~
  let lt := mg_lastSimTime rm in
  if IsZero lt then cret tt
  else
    order <~ range "instances" (mg_instances rm) ;~
    let '(dropped, rm') := ResourceManager_ProcessDrainingInstances order now lt rm in
    _ <~ set_rm rm' ;~
    s <~ getting id ;~
    if tc_registered s && bool_decide (is_Some (lr_simTime (tc_run s))) then emit (FailDropped lt dropped) else cret tt.
Definition finish_tick (em : EngineRunMetrics) (before : Z) : TM unit :=
  _ <~ change_ctl (λ c, c <| ct_lastScaleWall := if before <? ct_stepIndex c then now else ct_lastScaleWall c |>
      <| ct_prevErrFrac := if 0 <? em_TotalRequests em then error_fraction em else ct_prevErrFrac c |>) ;~
  if 0 <? oc_MaxNoopIntervals opt then
    c <~ getting tc_ctl ;~
    if ct_stepIndex c =? before then
      let streak := wrap32 (ct_noopStreak c + 1) in
      _ <~ change_ctl (λ c, c <| ct_noopStreak := streak |>) ;~
      if oc_MaxNoopIntervals opt <=? streak then emit (SignalLeaseEnd "converged") else cret tt
    else change_ctl (λ c, c <| ct_noopStreak := 0 |>)
  else cret tt.
(** Everything after the snapshot of the metrics. *)
Definition control (em : EngineRunMetrics) (before : Z) : TM unit :=
  rm <~ getting tc_rm ;~
  let snapshotAt := if IsZero (mg_lastSimTime rm) then now else mg_lastSimTime rm in
  qorder <~ range "queues" (bq_queueShards (mg_brokerQueues rm)) ;~
  torder <~ range "topics" (bq_topicShards (mg_brokerQueues rm)) ;~
  let pressure := brokerPressureByConsumerService qorder torder snapshotAt rm in
  _ <~ note_score (current_score em) ;~
  let hostCount := ResourceManager_HostCount rm in
  corder <~ range "hosts" (mg_hosts rm) ;~
  morder <~ range "hosts" (mg_hosts rm) ;~
  let maxHostCPU := ResourceManager_MaxHostCPUUtilization corder rm in
  let maxHostMem := ResourceManager_MaxHostMemoryUtilization morder rm in
  let p95 := em_LatencyP95 em in
  _ <~ scale_hosts_up p95 hostCount maxHostCPU ;~
  _ <~ scale_hosts_in p95 hostCount maxHostCPU ;~
  _ <~ shrink_host_cpu p95 hostCount maxHostCPU ;~
  _ <~ shrink_host_mem p95 hostCount maxHostMem ;~
  _ <~ cfold (λ _ svc, control_service em pressure svc) tt (scn_Services scenario) ;~
  finish_tick em before.
Definition snapshot (rm : ResourceManager) (opts : option RunMetricsOptions) : SM Reading EngineRunMetrics :=
  em <~ ConvertToRunMetrics orders shuffle now (CreateServiceLabels ∘ svc_ID <$> scn_Services scenario) opts ;~
  attachHostMetrics orders rm em.
(** [leaseExpired]: what [onlineLeaseExpired] answers at this tick. *)
Definition controller_tick (leaseExpired : bool) (rd : Reading) : TM Reading :=
  before <~ getting (λ s, ct_stepIndex (tc_ctl s)) ;~
  _ <~ drain_instances ;~
  c <~ getting tc_ctl ;~
  let cooldown := wrap64 (oc_ScaleDownCooldownMs opt * Millisecond) in
  if (0 <? oc_LeaseTtlMs opt) && leaseExpired then
    _ <~ emit (SignalLeaseEnd "heartbeat_expired") ;~ cret rd
  else if (0 <? oc_MaxControllerSteps opt) && (oc_MaxControllerSteps opt <=? ct_stepIndex c) then
    _ <~ emit (SignalLeaseEnd "controller_steps_limit") ;~ cret rd
  else if (0 <? cooldown) && negb (IsZero (ct_lastScaleWall c)) && (Sub now (ct_lastScaleWall c) <? cooldown) then cret rd
  else
    rm <~ getting tc_rm ;~
    qorder <~ range "queues" (bq_queueShards (mg_brokerQueues rm)) ;~
    torder <~ range "topics" (bq_topicShards (mg_brokerQueues rm)) ;~
    s <~ getting id ;~
    match snapshot rm (RunExecutor_runMetricsOptsForRun qorder torder now runID (runs_of s)) rd with
    | Ok (em, rd) => _ <~ control em before ;~ cret rd
    | Fail e => λ _, Fail e
    | Panic => λ _, Panic
    end.
End Tick.

(** ** The loop *)

(** A tick of the ticker: the wall clock, whether the lease has expired, what the rest of
    the program did to the run since the last tick, whether the executor still has the
    run, and the collector. *)
Record TickInput := mkTickInput {
  ti_now : Time;
  ti_leaseExpired : bool;
  ti_env : LiveRun → LiveRun;
  ti_registered : bool;
  ti_reading : Reading;
}.
Section Loop.
Context (ords : nat → string → ∀ A : Type, gmap string A → list string).
Context (orders : nat → string → list string) (shuffle : nat → ∀ A : Type, list A → list A).
Context (clock : Z → Time) (runID : string) (scenario : Scenario) (opt : OptimizationConfig).
Definition loop_body (i : TickInput) : TM unit :=
  _ <~ changing (λ s, s <| tc_run := ti_env i (tc_run s) |> <| tc_registered := ti_registered i |>) ;~
  _ <~ controller_tick ords orders shuffle clock runID scenario opt (ti_now i) (ti_leaseExpired i) (ti_reading i) ;~
  cret tt.
(** The loop on the ticks that come before the context is done. [time.NewTicker] panics
    if the interval is not positive. *)
Definition runOnlineController (ticks : list TickInput) (lr : LiveRun) : go (unit * TickState) :=
  let start := mkTick lr true new_controller [] 0 in
  if negb (controller_starts opt) then Ok (tt, start)
  else if control_interval opt <=? 0 then Panic
  else cfold (λ _ i, loop_body i) tt ticks start.
End Loop.
