(* ===== verification/OnlineSpec.v ===== *)
(** Properties of the online controller: what it may decide for a service, and what a
    run of ticks does to the resource manager, the hosts and the recorded steps. *)
From S2P Require Import Prelude GoFloat Utils Policy Config Graph BrokerQueue BatchSpec Instance ResourceManager Collector RunMetrics RunStore Limits RunControl ResourceLaws ResourceSpec SimState ServiceModel Workload FloatExact EngineMetrics EngineMetricsSpec RunConfig OnlineController.
From Stdlib Require Import SpecFloat.
#[local] Open Scope string_scope.
#[local] Open Scope list_scope.
#[local] Open Scope Z_scope.
#[local] Open Scope cm_scope.

(** * Decisions *)

Section Decisions.
Context (opt : OptimizationConfig) (svc : Service).
(** The reasons to add capacity and to give some back. *)
Definition wants_more (p95 : float64) (v : ServiceView) : Prop :=
  pressed v = true
  ∨ if by_utilization opt
    then fltb (util_high opt) (sv_cpuUtil v) = true ∨ fltb (util_high opt) (sv_memUtil v) = true
    else p95_guard opt = true ∧ above_target opt p95 = true.
Definition wants_less (p95 : float64) (v : ServiceView) : Prop :=
  1 < sv_replicas v ∧ pressed v = false ∧ ServiceAllowsHorizontalScaling (Some svc) = true ∧ may_scale_down opt v = true
  ∧ if by_utilization opt then p95_ok_for_down opt p95 = true
    else p95_guard opt = true ∧ well_below_target opt p95 = true.
Definition choice_ok (p95 : float64) (v : ServiceView) (choice : Z * float64 * bool) : Prop :=
  let '(n, cores, vertical) := choice in
  (n = sv_replicas v ∧ vertical = false)
  ∨ (wants_more p95 v ∧ n = sv_replicas v ∧ cores = fadd (sv_cores v) (cpu_step opt) ∧ vertical = true
     ∧ ServiceAllowsVerticalCPU (Some svc) = true ∧ fleb hot (sv_cpuUtil v) = true)
  ∨ (wants_more p95 v ∧ n = wrap64 (sv_replicas v + replica_step opt) ∧ vertical = false
     ∧ ServiceAllowsHorizontalScaling (Some svc) = true)
  ∨ (wants_less p95 v ∧ n = sv_replicas v - 1 ∧ vertical = false).
Lemma scale_up_choice_ok p95 v : wants_more p95 v → choice_ok p95 v (scale_up_choice opt svc v).
Proof.
  intros Hm. unfold scale_up_choice. destruct (_ && fleb hot _) eqn:E; [apply andb_true_iff in E as []; right; left; split_and!; solve [assumption|reflexivity]|].
  destruct (ServiceAllowsHorizontalScaling (Some svc)) eqn:E2; [by right; right; left|by left].
Qed.
Lemma scale_down_choice_ok p95 v : 1 < sv_replicas v → pressed v = false →
  (if by_utilization opt then p95_ok_for_down opt p95 = true else p95_guard opt = true ∧ well_below_target opt p95 = true) →
  choice_ok p95 v (scale_down_choice opt svc v).
Proof.
  intros H1 H2 H3. unfold scale_down_choice. destruct (_ && may_scale_down opt v) eqn:E; [|by left].
  apply andb_true_iff in E as []. right; right; right. unfold wants_less.
  split_and!; solve [assumption|reflexivity].
Qed.
Lemma primary_choice_ok p95 v : choice_ok p95 v (primary_choice opt p95 svc v).
Proof.
  unfold primary_choice. destruct (by_utilization opt) eqn:Eb.
  - destruct (pressed v) eqn:Ep; [apply scale_up_choice_ok; by left|].
    destruct (fltb (util_high opt) _) eqn:Eh.
    { apply scale_up_choice_ok. right. rewrite Eb. destruct (String.eqb _ "memory_utilization"); tauto. }
    destruct (_ && _ && _) eqn:El; [|by left]. apply andb_true_iff in El as [[El Er]%andb_true_iff Eo].
    apply scale_down_choice_ok; [lia|done|]. by rewrite Eb.
  - destruct (pressed v) eqn:Ep; [apply scale_up_choice_ok; by left|].
    destruct (p95_guard opt && above_target opt p95) eqn:Eh.
    { apply scale_up_choice_ok. right. rewrite Eb. by apply andb_true_iff. }
    destruct (_ && _ && _) eqn:El; [|by left]. apply andb_true_iff in El as [El Er].
    apply scale_down_choice_ok; [lia|done|]. rewrite Eb. by apply andb_true_iff.
Qed.
Lemma stab_ticks_pos : 1 ≤ stab_ticks opt.
Proof. unfold stab_ticks. cbv zeta. repeat case_match; lia. Qed.
Lemma count_down_some want down target n : count_down opt want down = (Some target, n) →
  want = Some target ∧ stab_ticks opt ≤ wrap64 (down + 1).
Proof.
  unfold count_down. destruct want as [t|]; [|done]. destruct (_ && _) eqn:E; [|done]. intros [= <- <-].
  apply andb_true_iff in E as [E _]. split; [done|lia].
Qed.
Lemma smaller_floor current step floor n : smaller current step floor = Some n →
  fltb (fadd n cpu_eps) current = true ∧ (fltb f0 floor = true → fltb n floor = false).
Proof.
  unfold smaller. cbv zeta. set (m := fsub current step). destruct (fltb f0 floor && fltb m floor) eqn:E.
  - destruct (fltb (fadd floor cpu_eps) current) eqn:E2; [|done]. intros [= <-]. split; [done|]. intros _. apply fltb_irrefl.
  - destruct (fltb (fadd m cpu_eps) current) eqn:E2; [|done]. intros [= <-]. split; [done|]. intros H. by rewrite H in E.
Qed.
Lemma wants_down_true target allowed util v p95 n : wants_down opt p95 v target allowed util n = true →
  primary_target opt = target ∧ allowed = true ∧ may_scale_down opt v = true ∧ sv_guarded v = false.
Proof.
  unfold wants_down. rewrite !andb_true_iff, negb_true_iff. intros ((((((H1 & H2) & _) & _) & _) & H6) & H7).
  apply String.eqb_eq in H1. split_and!; assumption.
Qed.

(** ** The replicas of one decision *)

Definition drains (p95 : float64) (v : ServiceView) : bool := fst (fst (primary_choice opt p95 svc v)) <? sv_replicas v.
(** The counter of intervals in a row and the replicas, as functions of the choice. *)
Definition down_after (p95 : float64) (v : ServiceView) (repDown : Z) : Z :=
  if drains p95 v then
    let n := wrap64 (repDown + 1) in
    if (stab_ticks opt <=? n) && sv_guarded v then 0 else n
  else 0.
Definition replicas_after (p95 : float64) (v : ServiceView) (repDown : Z) : Z :=
  let n := fst (fst (primary_choice opt p95 svc v)) in
  if drains p95 v && ((wrap64 (repDown + 1) <? stab_ticks opt) || sv_guarded v) then sv_replicas v else n.
Lemma raise_floor n f : (if n <? f then f else n) = Z.max f n.
Proof. destruct (Z.ltb_spec n f); lia. Qed.
Lemma decide_replicas p95 v rd cd md : let d := decide_service opt p95 svc v rd cd md in
  de_repDown d = down_after p95 v rd ∧
  de_replicas d = Z.max (min_replicas opt) (replicas_after p95 v rd).
Proof.
  unfold decide_service, down_after, replicas_after, drains.
  destruct (primary_choice opt p95 svc v) as [[n cores] vertical]. simpl fst.
  destruct (count_down _ _ cd) as [dc cd'], (count_down _ _ md) as [dm md'].
  assert (∃ c b, match dc with Some c => (c, true) | None => (cores, vertical) end = (c, b)) as (c & b & ->)
    by (destruct dc; eauto).
  destruct (Z.ltb_spec n (sv_replicas v)) as [Hn|Hn]; cbn [andb];
    [|rewrite (proj2 (Z.ltb_ge _ _) Hn); cbn [andb de_repDown de_replicas]; by rewrite raise_floor].
  rewrite Z.leb_antisym. destruct (wrap64 (rd + 1) <? stab_ticks opt); cbn [andb orb negb];
    rewrite ?Z.ltb_irrefl, ?(proj2 (Z.ltb_lt _ _) Hn); cbn [andb]; destruct (sv_guarded v);
    cbn [andb de_repDown de_replicas]; by rewrite raise_floor.
Qed.
Definition view_ok (v : ServiceView) : Prop := 1 ≤ sv_replicas v ∧ sv_replicas v + replica_step opt ≤ int64_max.
Lemma replica_step_pos : 1 ≤ replica_step opt.
Proof. unfold replica_step, clamp1. case_match; lia. Qed.
Lemma drains_wants p95 v : view_ok v → drains p95 v = true →
  wants_less p95 v ∧ fst (fst (primary_choice opt p95 svc v)) = sv_replicas v - 1.
Proof.
  intros [H1 H2] Hd. unfold drains in Hd. pose proof (primary_choice_ok p95 v) as Hc. pose proof replica_step_pos.
  destruct (primary_choice opt p95 svc v) as [[n cores] vertical]. simpl in *. apply Z.ltb_lt in Hd.
  destruct Hc as [[? _]|[(_ & ? & _)|[(_ & Hn & _)|(Hw & Hn & _)]]]; [lia|lia| |split; assumption].
  rewrite wrap64_id in Hn; [lia|]. unfold in_int64, int64_min. lia.
Qed.
(** The counter after a history of intervals. *)
Definition counter_after (views : list (float64 * ServiceView)) : Z :=
  foldl (λ repDown pv, de_repDown (decide_service opt pv.1 svc pv.2 repDown 0 0)) 0 views.
(** The last [k] intervals of a history wanted fewer replicas. *)
Definition lately_less (k : Z) (views : list (float64 * ServiceView)) : Prop :=
  ∃ pre recent, views = pre ++ recent ∧ Z.of_nat (length recent) = k ∧ Forall (λ pv, wants_less pv.1 pv.2) recent.
Lemma lately_less_snoc k views p95 v : lately_less k views → wants_less p95 v → lately_less (k + 1) (views ++ [(p95, v)]).
Proof.
  intros (pre & recent & -> & Hk & Hf) Hw. exists pre, (recent ++ [(p95, v)]). rewrite length_app. simpl.
  split; [by rewrite app_assoc|]. split; [lia|]. apply Forall_app_2; [done|]. apply Forall_singleton. exact Hw.
Qed.
Lemma lately_less_0 views : lately_less 0 views.
Proof. exists views, []. rewrite app_nil_r. by split_and!. Qed.
Lemma counter_recent views : Forall (λ pv, view_ok pv.2) views → Z.of_nat (length views) < 2 ^ 62 →
  0 ≤ counter_after views ≤ Z.of_nat (length views) ∧ lately_less (counter_after views) views.
Proof.
  induction views as [|[p95 v] views IH] using rev_ind.
  { intros _ _. split; [done|apply lately_less_0]. }
  rewrite Forall_app, Forall_singleton, length_app. simpl length. intros [Hvs Hv] Hl.
  destruct IH as [Hb Hr]; [done|lia|]. unfold counter_after. rewrite foldl_app. fold (counter_after views). simpl foldl.
  destruct (decide_replicas p95 v (counter_after views) 0 0) as [-> _]. unfold down_after.
  destruct (drains p95 v) eqn:Ed; [|split; [lia|apply lately_less_0]].
  rewrite wrap64_id by (unfold in_int64, int64_min, int64_max; lia). cbv zeta.
  destruct (_ && sv_guarded v); [split; [lia|apply lately_less_0]|]. split; [lia|].
  apply lately_less_snoc; [done|]. by apply (drains_wants p95 v).
Qed.
Lemma decide_sizes p95 v rd cd md : let d := decide_service opt p95 svc v rd cd md in
  (de_vertical d = true → ServiceAllowsVerticalCPU (Some svc) = true
     ∧ ((wants_more p95 v ∧ de_cores d = fadd (sv_cores v) (cpu_step opt) ∧ fleb hot (sv_cpuUtil v) = true)
        ∨ (sv_guarded v = false ∧ stab_ticks opt ≤ wrap64 (cd + 1) ∧ fltb (fadd (de_cores d) cpu_eps) (sv_cores v) = true
           ∧ (fltb f0 (oc_MinCpuCoresPerInstance opt) = true → fltb (de_cores d) (oc_MinCpuCoresPerInstance opt) = false))))
  ∧ (de_mem d = sv_mem v
     ∨ (ServiceAllowsVerticalMemory (Some svc) = true ∧ sv_guarded v = false ∧ stab_ticks opt ≤ wrap64 (md + 1)
        ∧ fltb (fadd (de_mem d) cpu_eps) (sv_mem v) = true
        ∧ (fltb f0 (oc_MinMemoryMbPerInstance opt) = true → fltb (de_mem d) (oc_MinMemoryMbPerInstance opt) = false))).
Proof.
  unfold decide_service. pose proof (primary_choice_ok p95 v) as Hc.
  destruct (primary_choice opt p95 svc v) as [[n cores] vertical]. simpl in Hc.
  destruct (count_down opt _ cd) as [dc cd'] eqn:Ec. destruct (count_down opt _ md) as [dm md'] eqn:Em.
  set (r1 := if n <? sv_replicas v then _ else _). clearbody r1. destruct r1 as [n1 rd1].
  set (r2 := if _ && sv_guarded v then _ else _). clearbody r2. destruct r2 as [n2 rd2].
  assert (Hmem : default (sv_mem v) dm = sv_mem v ∨
    (ServiceAllowsVerticalMemory (Some svc) = true ∧ sv_guarded v = false ∧ stab_ticks opt ≤ wrap64 (md + 1)
     ∧ fltb (fadd (default (sv_mem v) dm) cpu_eps) (sv_mem v) = true
     ∧ (fltb f0 (oc_MinMemoryMbPerInstance opt) = true → fltb (default (sv_mem v) dm) (oc_MinMemoryMbPerInstance opt) = false))).
  { destruct dm as [m|]; [right|by left]. apply count_down_some in Em as [Em Hs].
    destruct (wants_down _ _ _ "memory_utilization" _ _ _) eqn:Ew; [|discriminate Em]. apply wants_down_true in Ew as (_ & ? & _ & ?).
    apply smaller_floor in Em as [? ?]. simpl default. split_and!; assumption. }
  destruct dc as [c|]; cbn [de_vertical de_cores de_mem]; (split; [|exact Hmem]).
  - intros _. apply count_down_some in Ec as [Ec Hs].
    destruct (wants_down _ _ _ "cpu_utilization" _ _ _) eqn:Ew; [|discriminate Ec]. apply wants_down_true in Ew as (_ & ? & _ & ?).
    apply smaller_floor in Ec as [? ?]. split; [assumption|right]. split_and!; assumption.
  - intros ->. destruct Hc as [[_ ?]|[(? & _ & ? & _ & ? & ?)|[(_ & _ & ? & _)|(_ & _ & ?)]]]; try discriminate.
    split; [assumption|left]. split_and!; assumption.
Qed.
End Decisions.

(** C18: what the controller may decide for a service, whatever the history of control
    intervals: it never goes below the configured minimum of replicas; it gives back
    one replica at a time, only when the guard does not object and after the whole
    stabilisation window of intervals in a row that all wanted fewer replicas, were
    free of broker pressure and allowed by policy and utilisation limits; it adds
    replicas only by the step, with a reason and where the policy allows it, or to
    reach the minimum; and cores or memory change only where the policy allows it, up
    when the CPU is hot, or down after the window, unguarded and not below the minimum. *)
Theorem service_decision_sound opt svc views p95 v cpuDown memDown :
  Forall (λ pv, view_ok opt pv.2) (views ++ [(p95, v)]) → Z.of_nat (length views) < 2 ^ 62 - 1 →
  let d := decide_service opt p95 svc v (counter_after opt svc views) cpuDown memDown in
  min_replicas opt ≤ de_replicas d
  ∧ (de_replicas d < sv_replicas v →
       de_replicas d = sv_replicas v - 1 ∧ sv_guarded v = false
       ∧ ∃ k, stab_ticks opt ≤ k ∧ lately_less opt svc k (views ++ [(p95, v)]))
  ∧ (sv_replicas v < de_replicas d →
       (de_replicas d = sv_replicas v + replica_step opt ∧ wants_more opt p95 v
        ∧ ServiceAllowsHorizontalScaling (Some svc) = true)
       ∨ de_replicas d = min_replicas opt)
  ∧ (de_vertical d = true → ServiceAllowsVerticalCPU (Some svc) = true
     ∧ ((wants_more opt p95 v ∧ de_cores d = fadd (sv_cores v) (cpu_step opt) ∧ fleb hot (sv_cpuUtil v) = true)
        ∨ (sv_guarded v = false ∧ stab_ticks opt ≤ wrap64 (cpuDown + 1)
           ∧ fltb (fadd (de_cores d) cpu_eps) (sv_cores v) = true
           ∧ (fltb f0 (oc_MinCpuCoresPerInstance opt) = true → fltb (de_cores d) (oc_MinCpuCoresPerInstance opt) = false))))
  ∧ (de_mem d = sv_mem v
     ∨ (ServiceAllowsVerticalMemory (Some svc) = true ∧ sv_guarded v = false ∧ stab_ticks opt ≤ wrap64 (memDown + 1)
        ∧ fltb (fadd (de_mem d) cpu_eps) (sv_mem v) = true
        ∧ (fltb f0 (oc_MinMemoryMbPerInstance opt) = true → fltb (de_mem d) (oc_MinMemoryMbPerInstance opt) = false))).
Proof.
  rewrite Forall_app, Forall_singleton. intros [Hvs Hv] Hl. cbv zeta.
  destruct (decide_sizes opt svc p95 v (counter_after opt svc views) cpuDown memDown) as [Hcpu Hmem].
  destruct (decide_replicas opt svc p95 v (counter_after opt svc views) cpuDown memDown) as [_ Er].
  destruct (counter_recent opt svc views Hvs) as [Hb Hrec]; [lia|]. rewrite Er in *. simpl in Hv.
  split; [lia|]. split_and!; [| |exact Hcpu|exact Hmem]; unfold replicas_after in *.
  - intros Hlt. destruct (drains opt svc p95 v) eqn:Ed.
    2:{ unfold drains in Ed. apply Z.ltb_ge in Ed. cbn [andb] in Hlt. lia. }
    destruct (drains_wants opt svc p95 v Hv Ed) as [Hw Hn]. rewrite Hn in *.
    rewrite wrap64_id in * by (unfold in_int64, int64_min, int64_max; lia).
    destruct (Z.ltb_spec (counter_after opt svc views + 1) (stab_ticks opt)); cbn [andb orb] in *; [lia|].
    destruct (sv_guarded v); [lia|]. split; [lia|]. split; [done|].
    exists (counter_after opt svc views + 1). split; [lia|]. by apply lately_less_snoc.
  - intros Hgt. destruct (drains opt svc p95 v) eqn:Ed; cbn [andb] in *.
    { apply Z.ltb_lt in Ed. destruct (_ || _); [right; lia|]. lia. }
    pose proof (primary_choice_ok opt svc p95 v) as Hc. destruct Hv as [Hv1 Hv2]. pose proof (replica_step_pos opt).
    destruct (primary_choice opt p95 svc v) as [[n cores] vertical]. simpl fst in *.
    destruct Hc as [[-> _]|[(_ & -> & _)|[(Hw & Hn & _ & Ha)|(_ & -> & _)]]]; [right; lia|right; lia| |right; lia].
    rewrite wrap64_id in Hn by (unfold in_int64, int64_min; lia).
    destruct (Z.le_gt_cases (min_replicas opt) n); [left|right; lia]. split; [lia|]. split; assumption.
Qed.
Definition demo_opt : OptimizationConfig := (sample_opt true 600000) <| oc_TargetP95LatencyMs := f64_of_Z 100 |>
  <| oc_ScaleDownStabilizationWindowMs := 2000 |> <| oc_MaxControllerSteps := 5 |> <| oc_MaxHosts := 3 |>.
Definition idle_view (replicas : Z) : ServiceView :=
  mkServiceView replicas f1 (f64_of_Z 512) (f64_lit 1 10) (f64_lit 1 10) no_pressure false.
Lemma service_decision_sound_witness :
  let views := [(f64_of_Z 20, idle_view 3)] in
  de_replicas (decide_service demo_opt (f64_of_Z 20) (demo_service "api" 2 None) (idle_view 3)
    (counter_after demo_opt (demo_service "api" 2 None) views) 0 0) = 2
  ∧ ∃ k, stab_ticks demo_opt ≤ k ∧ lately_less demo_opt (demo_service "api" 2 None) k (views ++ [(f64_of_Z 20, idle_view 3)]).
Proof.
  assert (H2 : de_replicas (decide_service demo_opt (f64_of_Z 20) (demo_service "api" 2 None) (idle_view 3)
    (counter_after demo_opt (demo_service "api" 2 None) [(f64_of_Z 20, idle_view 3)]) 0 0) = 2) by (vm_compute; reflexivity).
  split; [exact H2|].
  assert (Hr : replica_step demo_opt = 1) by (vm_compute; reflexivity).
  destruct (service_decision_sound demo_opt (demo_service "api" 2 None) [(f64_of_Z 20, idle_view 3)] (f64_of_Z 20)
    (idle_view 3) 0 0) as (_ & H & _).
  - repeat (apply Forall_cons; split); try (apply Forall_nil; exact I);
      unfold view_ok; rewrite Hr; unfold int64_max; cbn [sv_replicas idle_view snd]; lia.
  - simpl length. lia.
  - rewrite H2 in H. destruct H as (_ & _ & Hk); [cbn [sv_replicas idle_view]; lia|exact Hk].
Defined.
(** A database may not be scaled horizontally, but the minimum of replicas is applied to
    it all the same. *)
Example floor_ignores_policy :
  let db := mkService "db" "database" "" 1 "cpu" f1 f0 None None None None None [] in
  ServiceAllowsHorizontalScaling (Some db) = false
  ∧ de_replicas (decide_service (demo_opt <| oc_MinReplicasPerService := 2 |>) (f64_of_Z 20) db (idle_view 1) 0 0 0) = 2.
Proof. vm_compute. split; reflexivity. Qed.
(** When giving back cores fails, replicas are added. *)
Example failed_downsize_scales_out :
  let opt := demo_opt <| oc_OptimizationTargetPrimary := "cpu_utilization" |> <| oc_ScaleDownStabilizationWindowMs := 0 |> in
  let v := (mkServiceView 1 (f64_of_Z 4) (f64_of_Z 512) (f64_lit 1 10) (f64_lit 1 10) no_pressure false) in
  let d := decide_service opt (f64_of_Z 20) (demo_service "api" 2 None) v 0 0 0 in
  de_vertical d = true ∧ fltb (de_cores d) (sv_cores v) = true ∧ de_replicas d = 1
  ∧ fallback_replicas opt (f64_of_Z 20) (demo_service "api" 2 None) v (de_replicas d) = 2.
Proof. vm_compute. repeat split; reflexivity. Qed.

(** * Operations that keep the hosts *)

Definition same_hosts (m m' : ResourceManager) : Prop := dom (mg_hosts m') = dom (mg_hosts m).
Lemma same_hosts_count m m' : same_hosts m m' → ResourceManager_HostCount m' = ResourceManager_HostCount m.
Proof. intros H. unfold ResourceManager_HostCount. by rewrite <- !size_dom, H. Qed.
Lemma same_hosts_refl m : same_hosts m m.
Proof. done. Qed.
Lemma same_hosts_trans m1 m2 m3 : same_hosts m1 m2 → same_hosts m2 m3 → same_hosts m1 m3.
Proof. unfold same_hosts. congruence. Qed.
Lemma same_hosts_foldl {A} (f : ResourceManager → A → ResourceManager) l : ∀ m,
  (∀ m x, same_hosts m (f m x)) → same_hosts m (foldl f m l).
Proof.
  induction l as [|x l IH]; intros m Hf; simpl; [done|]. eapply same_hosts_trans; [apply Hf|by apply IH].
Qed.
Lemma same_hosts_update id f m : same_hosts m (update_host id f m).
Proof. unfold same_hosts, update_host. simpl. apply dom_alter_L. Qed.
Lemma same_hosts_rebuild m : same_hosts m (ResourceManager_rebuildSortedInstanceCache m).
Proof. done. Qed.
Lemma same_hosts_scale_up clock sn cpu mem k : ∀ m, same_hosts m (snd (scale_up clock sn cpu mem k m)).
Proof.
  induction k as [|k IH]; intros m; simpl; [done|]. destruct (ResourceManager_pickHostForNewInstanceLocked _ _ _ _); [|done..].
  eapply same_hosts_trans; [|apply IH]. unfold add_instance, same_hosts. simpl. apply dom_alter_L.
Qed.
Lemma same_hosts_scale clock now sn n opts m err m' :
  ResourceManager_ScaleServiceWithOptions clock now sn n opts m = Ok (err, m') → same_hosts m m'.
Proof.
  unfold ResourceManager_ScaleServiceWithOptions. cbv zeta. destruct (n <? 1); [by intros [= _ <-]|].
  destruct (sort_SliceStable string_ltb (service_instances sn m)) as [|i0 l]; [by intros [= _ <-]|].
  set (act := filter _ _). clearbody act. destruct (len act <? n).
  - case_bool_decide; [by intros [= _ <-]|]. destruct (index act 0) as [tid| |]; simpl; try done.
    destruct (mg_instances m !! tid) as [tpl|]; [|done].
    pose proof (same_hosts_scale_up clock sn (si_cpuCores tpl) (si_memoryMB tpl) (Z.to_nat (n - len act)) m) as Hs.
    destruct (scale_up _ _ _ _ _ m) as [[e|] m1]; simpl in Hs; intros [= _ <-]; [done|].
    eapply same_hosts_trans; [exact Hs|apply same_hosts_rebuild].
  - destruct (n <? len act); [|by intros [= _ <-]]. intros [= _ <-].
    eapply same_hosts_trans; [|apply same_hosts_rebuild]. by apply same_hosts_foldl.
Qed.
Lemma same_hosts_remove now id t evict m : same_hosts m (snd (ResourceManager_removeInstanceLocked now id t evict m)).
Proof.
  unfold ResourceManager_removeInstanceLocked. destruct (mg_instances m !! id) as [i|]; [|done]. cbv zeta.
  destruct evict.
  - destruct (ServiceInstance_EvictResourceState _ i) as [d i']. unfold same_hosts. simpl. by rewrite !dom_alter_L.
  - unfold same_hosts. simpl. by rewrite dom_alter_L.
Qed.
Lemma same_hosts_draining order now t m : same_hosts m (snd (ResourceManager_ProcessDrainingInstances order now t m)).
Proof.
  unfold ResourceManager_ProcessDrainingInstances. cbv zeta.
  assert (H0 : same_hosts m (ResourceManager_NoteSimTime t m)) by (unfold ResourceManager_NoteSimTime; by case_match).
  set (m0 := ResourceManager_NoteSimTime t m) in *. clearbody m0.
  assert (H1 : ∀ l ds m1, same_hosts m1 (snd (foldl (λ '(ds, m) id,
    let '(d, m) := ResourceManager_removeInstanceLocked now id t true m in (ds ++ d, m)) (ds, m1) l))).
  { induction l as [|id l IH]; intros ds m1; simpl; [done|]. pose proof (same_hosts_remove now id t true m1) as Hr.
    destruct (ResourceManager_removeInstanceLocked now id t true m1) as [d m2]. simpl in Hr.
    eapply same_hosts_trans; [exact Hr|apply IH]. }
  set (evict := fmap fst (filter _ _)). specialize (H1 evict [] m0). destruct (foldl _ ([], m0) evict) as [ds m1]. simpl in H1.
  set (idle := fmap fst (filter _ _)). clearbody idle evict. simpl snd.
  assert (H2 : same_hosts m1 (foldl (λ m id, snd (ResourceManager_removeInstanceLocked now id t false m)) m1 idle)).
  { apply same_hosts_foldl. intros. apply same_hosts_remove. }
  eapply same_hosts_trans; [exact H0|]. eapply same_hosts_trans; [exact H1|]. eapply same_hosts_trans; [exact H2|].
  by case_match.
Qed.
Lemma same_hosts_resize io ho sn c mb hr m m' :
  ResourceManager_UpdateServiceResourcesWithHeadroom io ho sn c mb hr m = Ok m' → same_hosts m m'.
Proof.
  unfold ResourceManager_UpdateServiceResourcesWithHeadroom. destruct (_ || _); [done|]. cbv zeta.
  destruct (filter _ _) as [|kv l]; [done|]. intros H. go_inv.
  eapply same_hosts_trans; [|by apply same_hosts_foldl]. done.
Qed.
Lemma same_hosts_map f m : same_hosts m (m <| mg_hosts := f <$> mg_hosts m |>).
Proof. unfold same_hosts. simpl. apply dom_fmap_L. Qed.
Lemma same_hosts_increase c g m : same_hosts m (ResourceManager_IncreaseHostCapacity c g m).
Proof. unfold ResourceManager_IncreaseHostCapacity. destruct (_ && _); [done|apply same_hosts_map]. Qed.
Lemma same_hosts_decrease o c g m m' : ResourceManager_DecreaseHostCapacity o c g m = Ok m' → same_hosts m m'.
Proof.
  unfold ResourceManager_DecreaseHostCapacity. destruct (_ && _); [by intros [= <-]|]. intros H. go_inv. apply same_hosts_map.
Qed.

(** * What a tick may do *)

Section Ticks.
Context (ords : nat → string → ∀ A : Type, gmap string A → list string).
Context (orders : nat → string → list string) (shuffle : nat → ∀ A : Type, list A → list A).
Context (clock : Z → Time) (runID : string) (scenario : Scenario) (opt : OptimizationConfig).
Hypothesis visiting : ∀ n tag A (m : gmap string A), visits_all (ords n tag A m) m.

Definition appended (effects : list ControllerEffect) : list ControllerStep :=
  omap (λ e, match e with AppendStep st => Some st | _ => None end) effects.
Context (lo hi : Z) (Hlo : lo ≤ min_hosts scenario opt) (Hhi : max_hosts scenario opt ≤ hi).
Definition hosts_within (m : ResourceManager) : Prop := lo ≤ ResourceManager_HostCount m ≤ hi.
(** From [s] to [s'] the manager stays reachable, the hosts stay within their bounds
    and at most [k] steps are recorded, with the next numbers. *)
Record advance (k : nat) (s s' : TickState) : Prop := {
  ad_reach : mg_reachable clock (tc_rm s');
  ad_hosts : hosts_within (tc_rm s) → hosts_within (tc_rm s');
  ad_registered : tc_registered s' = tc_registered s;
  ad_steps : ∃ new n, tc_effects s' = tc_effects s ++ new ∧ (n ≤ k)%nat
    ∧ os_IterationIndex <$> appended new = seqZ (ct_stepIndex (tc_ctl s) + 1) (Z.of_nat n)
    ∧ ct_stepIndex (tc_ctl s') = ct_stepIndex (tc_ctl s) + Z.of_nat n;
}.
Definition ready (k : nat) (s : TickState) : Prop :=
  mg_reachable clock (tc_rm s) ∧ 0 ≤ ct_stepIndex (tc_ctl s) ∧ ct_stepIndex (tc_ctl s) + Z.of_nat k < 2 ^ 31.
Definition adv {A} (k : nat) (m : TM A) (s : TickState) : Prop := ∃ a s', m s = Ok (a, s') ∧ advance k s s'.
Definition advances {A} (k : nat) (m : TM A) : Prop := ∀ s, ready k s → adv k m s.

Lemma wrap32_id z : - 2 ^ 31 ≤ z < 2 ^ 31 → wrap32 z = z.
Proof. intros Hz. unfold wrap32. rewrite Z.mod_small; lia. Qed.
Lemma advance_trans k1 k2 s1 s2 s3 : advance k1 s1 s2 → advance k2 s2 s3 → advance (k1 + k2) s1 s3.
Proof.
  intros [A1 A2 A3 (e1 & n1 & E1 & L1 & I1 & X1)] [B1 B2 B3 (e2 & n2 & E2 & L2 & I2 & X2)].
  split; [done|auto|congruence|]. exists (e1 ++ e2), (n1 + n2)%nat. rewrite E2, E1, app_assoc. split; [done|]. split; [lia|].
  unfold appended in *. rewrite omap_app, fmap_app, I1, I2, X2, X1. split; [|lia].
  rewrite Nat2Z.inj_add, seqZ_app by lia. do 2 f_equal; lia.
Qed.
Lemma advance_mono k k' s s' : advance k s s' → (k ≤ k')%nat → advance k' s s'.
Proof. intros [A1 A2 A3 (e & n & ? & ? & ? & ?)] Hk. split; try done. exists e, n. split_and!; try done. lia. Qed.
Lemma advance_ready k1 k2 s s' : ready (k1 + k2) s → advance k1 s s' → ready k2 s'.
Proof. intros (H1 & H2 & H3) [A1 _ _ (e & n & _ & ? & _ & ?)]. split; [done|]. lia. Qed.
(** A change that records nothing. *)
Lemma advance_quiet s s' new : mg_reachable clock (tc_rm s') → (hosts_within (tc_rm s) → hosts_within (tc_rm s')) →
  tc_registered s' = tc_registered s → tc_effects s' = tc_effects s ++ new → appended new = [] →
  ct_stepIndex (tc_ctl s') = ct_stepIndex (tc_ctl s) → advance 0 s s'.
Proof.
  intros H1 H2 H3 H4 H5 H6. split; try done. exists new, 0%nat. rewrite H5. split_and!; try done. lia.
Qed.
Lemma adv_bind {A B} k1 k2 (m : TM A) (f : A → TM B) s : ready (k1 + k2) s → adv k1 m s → (∀ a, advances k2 (f a)) →
  adv (k1 + k2) (cbind m f) s.
Proof.
  intros Hr (a & s1 & E1 & A1) Hf. destruct (Hf a s1) as (b & s2 & E2 & A2); [by eapply advance_ready|].
  exists b, s2. unfold cbind. rewrite E1. split; [done|]. by eapply advance_trans.
Qed.
Lemma advances_bind {A B} k1 k2 (m : TM A) (f : A → TM B) : advances k1 m → (∀ a, advances k2 (f a)) →
  advances (k1 + k2) (cbind m f).
Proof. intros Hm Hf s Hr. apply adv_bind; [done| |done]. apply Hm. destruct Hr as (H1 & H2 & H3). split; [done|]. lia. Qed.
Lemma advances_ret {A} k (a : A) : advances k (cret a).
Proof.
  intros s (H1 & H2 & H3). exists a, s. split; [done|]. apply (advance_mono 0); [|lia]. apply (advance_quiet _ _ []); try done.
  by rewrite app_nil_r.
Qed.
Lemma advances_mono {A} k k' (m : TM A) : advances k m → (k ≤ k')%nat → advances k' m.
Proof.
  intros Hm Hk s (H1 & H2 & H3). destruct (Hm s) as (a & s' & E & Ha); [split; [done|]; lia|]. exists a, s'. split; [done|].
  by eapply advance_mono.
Qed.
(** A read of the state passes its value on. *)
Lemma advances_get {A B} k (f : TickState → A) (g : A → TM B) :
  (∀ s, ready k s → adv k (g (f s)) s) → advances k (cbind (getting f) g).
Proof. intros H s Hr. destruct (H s Hr) as (b & s' & E & Ha). by exists b, s'. Qed.
Lemma advances_fold {A} k (f : unit → A → TM unit) l : (∀ x, advances k (f tt x)) → advances (length l * k) (cfold f tt l).
Proof.
  intros Hf. induction l as [|x l IH]; simpl; [apply advances_ret|]. apply advances_bind; [apply Hf|]. by intros [].
Qed.
Lemma advances_changing (f : TickState → TickState) :
  (∀ s, mg_reachable clock (tc_rm s) → advance 0 s (f s)) → advances 0 (changing f).
Proof. intros H s (H1 & _). exists tt, (f s). split; [done|]. by apply H. Qed.
Lemma advances_ctl f : (∀ c, ct_stepIndex (f c) = ct_stepIndex c) → advances 0 (change_ctl f).
Proof.
  intros Hf. apply advances_changing. intros s Hs. apply (advance_quiet _ _ []); try done; simpl; [by rewrite app_nil_r|apply Hf].
Qed.
Lemma advances_emit e : appended [e] = [] → advances 0 (emit e).
Proof. intros He. apply advances_changing. intros s Hs. by apply (advance_quiet _ _ [e]). Qed.
Lemma advances_range {A} tag (m : gmap string A) : advances 0 (range ords tag m).
Proof.
  intros s (H1 & _). eexists _, _. split; [done|]. apply (advance_quiet _ _ []); try done. simpl. by rewrite app_nil_r.
Qed.
Lemma advances_config now : advances 0 (get_config ords runID now).
Proof.
  intros s (H1 & _). eexists _, _. split; [done|]. apply (advance_quiet _ _ []); try done. simpl. by rewrite app_nil_r.
Qed.
(** Replacing the manager by one that an operation leads to. *)
Lemma adv_set_rm s rm : mg_reachable clock rm → (hosts_within (tc_rm s) → hosts_within rm) → adv 0 (set_rm rm) s.
Proof.
  intros H1 H2. eexists _, _. split; [done|]. apply (advance_quiet _ _ []); try done. simpl. by rewrite app_nil_r.
Qed.
Lemma advances_record now p95 reason prev : advances 1 (record_change ords runID opt now p95 reason prev).
Proof.
  unfold record_change. apply (advances_bind 0 1); [apply advances_config|]. intros curr.
  destruct curr as [curr|], prev as [prev|]; try apply advances_ret.
  intros s (H1 & H2 & H3). eexists _, _. split; [done|].
  assert (Hw : wrap32 (ct_stepIndex (tc_ctl s) + 1) = ct_stepIndex (tc_ctl s) + 1) by (apply wrap32_id; lia).
  split; try done. eexists [_], 1%nat. split; [done|]. split; [done|]. split; [|simpl; lia].
  simpl. by rewrite Hw.
Qed.
(** ** The stages of a tick *)

Lemma adv_range {A B} k tag (m : gmap string A) (g : list string → TM B) s : ready k s →
  (∀ order s', visits_all order m → tc_run s' = tc_run s → tc_registered s' = tc_registered s → ready k s' →
    adv k (g order) s') → adv k (cbind (range ords tag m) g) s.
Proof.
  intros (H1 & H2) Hg. destruct (Hg (ords (tc_ranges s) tag A m) (s <| tc_ranges := S (tc_ranges s) |>))
    as (b & s' & E & [A1 A2 A3 A4]); try done.
  by exists b, s'.
Qed.
Lemma adv_get {A B} k (f : TickState → A) (g : A → TM B) s : adv k (g (f s)) s → adv k (cbind (getting f) g) s.
Proof. intros (b & s' & E & Ha). by exists b, s'. Qed.
(** Going on with the manager that an operation leads to. *)
Lemma adv_set {B} k rm (f : unit → TM B) s : ready k s → mg_reachable clock rm →
  (hosts_within (tc_rm s) → hosts_within rm) → (∀ u, advances k (f u)) → adv k (cbind (set_rm rm) f) s.
Proof. intros Hr H1 H2 Hf. by apply (adv_bind 0 k); [|apply adv_set_rm|]. Qed.
Lemma reach_next op m : mg_reachable clock m → mg_op_ok op m →
  ∃ m', mg_apply clock op m = Some m' ∧ mg_reachable clock m'.
Proof.
  intros Hm Hop. destruct (mg_apply_ok clock op m (reachable_ok _ _ Hm) Hop) as (m' & E & _). exists m'. split; [done|].
  by eapply reach_op.
Qed.
Lemma same_hosts_within m m' : same_hosts m m' → hosts_within m → hosts_within m'.
Proof. intros H. unfold hosts_within. by rewrite (same_hosts_count _ _ H). Qed.
Lemma advances_config_then {A} now k (g : option RunConfiguration → TM A) :
  (∀ c, advances k (g c)) → advances k (cbind (get_config ords runID now) g).
Proof. intros Hg. apply (advances_bind 0 k); [apply advances_config|done]. Qed.
Lemma advances_ctl_then {A} k f (g : unit → TM A) : (∀ c, ct_stepIndex (f c) = ct_stepIndex c) →
  (∀ u, advances k (g u)) → advances k (cbind (change_ctl f) g).
Proof. intros Hf Hg. apply (advances_bind 0 k); [by apply advances_ctl|done]. Qed.

Lemma advances_hosts_up now p95 n cpu : advances 1 (scale_hosts_up ords runID scenario opt now p95 n cpu).
Proof.
  unfold scale_hosts_up. destruct (_ && _); [|apply advances_ret].
  destruct ((n <? max_hosts scenario opt) && _) eqn:E1.
  - apply andb_true_iff in E1 as [E1 _]. apply Z.ltb_lt in E1. apply advances_config_then. intros prev.
    intros s Hr. apply adv_get, adv_range; [done|]. intros order s' Ho Hrun Hreg Hr'.
    assert (Hrm : tc_rm s' = tc_rm s) by (unfold tc_rm; by rewrite Hrun). rewrite <- Hrm in *.
    destruct (reach_next (OpScaleOut order (n + 1)) (tc_rm s')) as (m' & Em & Hm'); [apply Hr'|done|]. simpl in Em.
    destruct (Z.le_gt_cases (n + 1) (Z.of_nat (size (mg_hosts (tc_rm s'))))) as [Hle|Hgt].
    { unfold ResourceManager_ScaleOutHosts. rewrite (proj2 (Z.leb_le _ _) Hle).
      apply adv_set; [done|apply Hr'|done|]. intros. apply advances_record. }
    destruct (scale_out_hosts_spec order (n + 1) (tc_rm s') Ho Hgt) as [(_ & e & E)|(m2 & _ & _ & E & Hc & _)]; rewrite E in *.
    + by apply advances_ret.
    + simpl in Em. simplify_eq. apply adv_set; [done|done| |intros; apply advances_record].
      unfold hosts_within. rewrite Hc. unfold ResourceManager_HostCount. lia.
  - clear E1. destruct (_ && _); [|apply advances_ret]. apply advances_config_then. intros prev s Hr. apply adv_get, adv_set; [done| | |].
    + destruct (reach_next (OpIncrease (host_step opt) 0) (tc_rm s)) as (m' & Em & Hm'); [apply Hr|done|].
      simpl in Em. by simplify_eq.
    + apply same_hosts_within, same_hosts_increase.
    + intros. apply advances_record.
Qed.
Lemma advances_hosts_in now p95 n cpu : advances 1 (scale_hosts_in ords runID scenario opt now p95 n cpu).
Proof.
  unfold scale_hosts_in. cbv zeta. set (cond := _ && fltb cpu _).
  assert (Hc : cond = true → min_hosts scenario opt < n).
  { unfold cond. intros H. rewrite !andb_true_iff in H. apply Z.ltb_lt. tauto. }
  clearbody cond. apply advances_ctl_then; [done|]. intros _ s Hr. apply adv_get.
  destruct (cond && _) eqn:E; [|by apply advances_ret]. apply andb_true_iff in E as [-> _]. specialize (Hc eq_refl).
  apply advances_config_then; [|done]. clear s Hr. intros prev s Hr. apply adv_get, adv_range; [done|].
  intros order s' Ho Hrun Hreg Hr'. assert (Hrm : tc_rm s' = tc_rm s) by (unfold tc_rm; by rewrite Hrun). rewrite <- Hrm in *.
  destruct (reach_next (OpScaleIn order (n - 1)) (tc_rm s')) as (m' & Em & Hm'); [apply Hr'|done|]. simpl in Em.
  pose proof (scale_in_hosts_spec clock order (n - 1) (tc_rm s') (proj1 Hr') Ho) as Hs.
  destruct (ResourceManager_ScaleInHosts order (n - 1) (tc_rm s')) as [m2|e|]; [|by apply advances_ret|done].
  simpl in Em. simplify_eq. destruct Hs as (Hn & _). apply adv_set; [done|done| |].
  - unfold hosts_within. rewrite Hn. lia.
  - intros _. destruct (_ <? n); [|apply advances_ret]. apply advances_ctl_then; [done|]. intros. apply advances_record.
Qed.
Lemma advances_decrease now c g reset p95 reason : (∀ ct, ct_stepIndex (reset ct) = ct_stepIndex ct) →
  advances 1 (decrease_hosts ords runID opt now c g reset p95 reason).
Proof.
  intros Hreset. apply advances_config_then. intros prev s Hr. apply adv_get, adv_range; [done|].
  intros order s' Ho Hrun Hreg Hr'. assert (Hrm : tc_rm s' = tc_rm s) by (unfold tc_rm; by rewrite Hrun). rewrite <- Hrm in *.
  destruct (reach_next (OpDecrease order c g) (tc_rm s')) as (m' & Em & Hm'); [apply Hr'|done|]. simpl in Em.
  pose proof (decrease_no_panic order c g (tc_rm s')).
  destruct (ResourceManager_DecreaseHostCapacity order c g (tc_rm s')) as [m2|e|] eqn:E; [|by apply advances_ret|done].
  simpl in Em. simplify_eq. apply adv_set; [done|done| |].
  - by eapply same_hosts_within, same_hosts_decrease.
  - intros _. apply advances_ctl_then; [done|]. intros. apply advances_record.
Qed.
Lemma advances_host_cpu now p95 n cpu : advances 1 (shrink_host_cpu ords runID scenario opt now p95 n cpu).
Proof.
  intros s Hr. apply adv_get. cbv zeta. apply advances_ctl_then; [done| |done]. intros _ s' Hr'. apply adv_get.
  destruct (_ && _); [by apply advances_decrease|by apply advances_ret].
Qed.
Lemma advances_host_mem now p95 n mem : advances 1 (shrink_host_mem ords runID scenario opt now p95 n mem).
Proof.
  intros s Hr. apply adv_get. cbv zeta. apply advances_ctl_then; [done| |done]. intros _ s' Hr'. apply adv_get.
  destruct (_ && _); [by apply advances_decrease|by apply advances_ret].
Qed.
Lemma rm_after_same s : rm_after runID (runs_of runID s) s = tc_rm s.
Proof.
  unfold rm_after, runs_of. destruct (tc_registered s); [by rewrite lookup_singleton_eq|by rewrite lookup_empty].
Qed.
Lemma rm_after_insert lr runs s : rm_after runID (<[runID := lr]> runs) s = lr_rm lr.
Proof. unfold rm_after. by rewrite lookup_insert_eq. Qed.
Lemma runs_of_lookup s lr : runs_of runID s !! runID = Some lr → lr = tc_run s.
Proof. unfold runs_of. destruct (tc_registered s); [rewrite lookup_singleton_eq; congruence|by rewrite lookup_empty]. Qed.
Lemma advances_resources svcID cpu mem headroom : advances 0 (update_resources ords runID svcID cpu mem headroom).
Proof.
  intros s Hr. apply adv_get, adv_range; [done|]. intros io s1 Hio Hrun1 _ Hr1. apply adv_range; [done|].
  intros ho s2 Hho Hrun2 _ Hr2. apply adv_get. unfold id.
  assert (Hrm : tc_rm s = tc_rm s2) by (unfold tc_rm; congruence). rewrite Hrm in *.
  assert (Hkeep : adv 0 (cbind (set_rm (rm_after runID (runs_of runID s2) s2)) (λ _, cret (@None string))) s2).
  { rewrite rm_after_same. apply adv_set; [done|apply Hr2|done|intros; apply advances_ret]. }
  unfold RunExecutor_UpdateServiceResourcesWithHeadroom.
  destruct (is_empty runID); [by apply advances_ret|]. destruct (is_empty svcID); [by apply advances_ret|].
  destruct (_ || _); [by apply advances_ret|]. destruct (_ && _); [done|].
  destruct (runs_of runID s2 !! runID) as [lr|] eqn:El; [|by apply advances_ret]. apply runs_of_lookup in El as ->.
  destruct (reach_next (OpResize io ho svcID cpu mem headroom) (tc_rm s2)) as (m' & Em & Hm'); [apply Hr2|done|]. simpl in Em.
  change (lr_rm (tc_run s2)) with (tc_rm s2).
  destruct (ResourceManager_UpdateServiceResourcesWithHeadroom io ho svcID cpu mem headroom (tc_rm s2)) as [m2|e|] eqn:E;
    simpl in Em; simplify_eq; cbn [go_bind]; [|by apply advances_ret].
  rewrite rm_after_insert. apply adv_set; [done|done| |intros; apply advances_ret].
  by eapply same_hosts_within, same_hosts_resize.
Qed.
Lemma advances_replicas now svcID n : advances 0 (update_replicas clock runID now svcID n).
Proof.
  intros s Hr. unfold update_replicas, RunExecutor_UpdateServiceReplicas.
  assert (Hkeep : ∀ e : string, adv 0 (cbind (set_rm (rm_after runID (runs_of runID s) s)) (λ _, cret (Some e))) s).
  { intros e. rewrite rm_after_same. apply adv_set; [done|apply Hr|done|intros; apply advances_ret]. }
  unfold adv at 1. cbv beta. destruct (is_empty runID); [apply Hkeep|]. destruct (is_empty svcID); [apply Hkeep|].
  destruct (runs_of runID s !! runID) as [lr|] eqn:El; [|apply Hkeep]. apply runs_of_lookup in El as ->.
  set (opts := mkScaleOptions _ _). change (lr_rm (tc_run s)) with (tc_rm s).
  destruct (reach_next (OpScaleService now svcID n opts) (tc_rm s)) as (m' & Em & Hm'); [apply Hr|done|]. simpl in Em.
  destruct (scale_service_ok clock now svcID n opts (tc_rm s) (reachable_ok _ _ (proj1 Hr))) as ([e m2] & E & _).
  rewrite E in *. simpl in Em. simplify_eq. cbn [go_bind].
  rewrite rm_after_insert. apply (adv_set 0); [done|done| |intros; apply advances_ret].
  by eapply same_hosts_within, same_hosts_scale.
Qed.
Lemma advances_apply_replicas now p95 svc old new : advances 1 (apply_replicas ords clock runID opt now p95 svc old new).
Proof.
  unfold apply_replicas. destruct (_ =? _); [apply advances_ret|]. apply advances_config_then. intros prev.
  apply (advances_bind 0 1); [apply advances_replicas|]. intros [e|]; [apply advances_ret|apply advances_record].
Qed.
Lemma advances_apply_memory now p95 svc v mem n : advances 1 (apply_memory ords clock runID opt now p95 svc v mem n).
Proof.
  unfold apply_memory. destruct (fltb _ _); [|apply advances_apply_replicas]. apply advances_config_then. intros prev.
  apply (advances_bind 0 1); [apply advances_resources|]. intros [e|]; [apply advances_apply_replicas|apply advances_record].
Qed.
Lemma advances_apply now p95 svc v d : advances 1 (apply_decision ords clock runID opt now p95 svc v d).
Proof.
  unfold apply_decision. destruct (_ && _); [|apply advances_apply_memory]. apply advances_config_then. intros prev.
  apply (advances_bind 0 1); [apply advances_resources|]. intros [e|]; [apply advances_apply_memory|apply advances_record].
Qed.
Lemma advances_service now em pressure svc : advances 1 (control_service ords clock runID opt now em pressure svc).
Proof.
  unfold control_service. apply (advances_bind 0 1).
  - intros s Hr. apply adv_get, adv_range; [done|]. intros order s' _ _ _ Hr'. unfold id. cbv zeta.
    destruct (instance_sizes _ _). by apply advances_ret.
  - intros v s Hr. apply adv_get. apply advances_ctl_then; [done| |done]. intros _. apply advances_apply.
Qed.
Lemma advances_score score : advances 0 (note_score score).
Proof.
  intros s Hr. apply adv_get. destruct (fltb _ _); [|by apply advances_ret].
  apply advances_ctl_then; [done| |done]. intros _. by apply advances_emit.
Qed.
Lemma advances_draining now : advances 0 (drain_instances ords now).
Proof.
  intros s Hr. apply adv_get. cbv zeta. destruct (IsZero _); [by apply advances_ret|]. apply adv_range; [done|].
  intros order s' Ho Hrun _ Hr'. assert (Hrm : tc_rm s = tc_rm s') by (unfold tc_rm; by rewrite Hrun). rewrite Hrm in *.
  destruct (reach_next (OpProcessDraining order now (mg_lastSimTime (tc_rm s'))) (tc_rm s')) as (m' & Em & Hm'); [apply Hr'|done|].
  pose proof (same_hosts_draining order now (mg_lastSimTime (tc_rm s')) (tc_rm s')) as Hs. simpl in Em.
  destruct (ResourceManager_ProcessDrainingInstances _ _ _ _) as [ids m2]. simpl in *. simplify_eq.
  apply adv_set; [done|done|by apply same_hosts_within|]. intros _ s2 Hr2. apply adv_get.
  destruct (_ && _); [by apply advances_emit|by apply advances_ret].
Qed.
Lemma advances_finish now em before : advances 0 (finish_tick opt now em before).
Proof.
  apply advances_ctl_then; [done|]. intros _. destruct (_ <? _); [|apply advances_ret]. intros s Hr. apply adv_get.
  destruct (_ =? _); [|by apply advances_ctl]. cbv zeta. apply advances_ctl_then; [done| |done].
  intros _. destruct (_ <=? _); [by apply advances_emit|apply advances_ret].
Qed.
Lemma advances_control now em before :
  advances (4 + length (scn_Services scenario)) (control ords clock runID scenario opt now em before).
Proof.
  intros s Hr. apply adv_get. cbv zeta. apply adv_range; [done|]. intros qo s1 _ _ _ Hr1. apply adv_range; [done|].
  intros to s2 _ _ _ Hr2. apply (advances_bind 0); [apply advances_score| |done]. intros _ s3 Hr3.
  apply adv_range; [done|]. intros co s4 _ _ _ Hr4. apply adv_range; [done|]. intros mo s5 _ _ _ Hr5.
  apply (advances_bind 1 (3 + length (scn_Services scenario))); [apply advances_hosts_up| |done]. intros _.
  apply (advances_bind 1 (2 + length (scn_Services scenario))); [apply advances_hosts_in|]. intros _.
  apply (advances_bind 1 (1 + length (scn_Services scenario))); [apply advances_host_cpu|]. intros _.
  apply (advances_bind 1 (length (scn_Services scenario))); [apply advances_host_mem|]. intros _.
  rewrite <- (Nat.add_0_r (length _)), <- (Nat.mul_1_r (length _)).
  apply (advances_bind (length (scn_Services scenario) * 1) 0); [|intros _; apply advances_finish].
  apply (advances_fold 1 (λ _ svc, _)). intros. apply advances_service.
Qed.
Definition readable (c : Collector) : Prop := ∀ name key s, series_of name c !! key = Some s → small (ms_reservoir s).
Definition per_tick : nat := 4 + length (scn_Services scenario).
Lemma advances_tick now expired rd : readable (rd_col rd) →
  advances per_tick (controller_tick ords orders shuffle clock runID scenario opt now expired rd).
Proof.
  intros Hrd s0 Hr0. apply adv_get. generalize (ct_stepIndex (tc_ctl s0)). intros before.
  apply (advances_bind 0); [apply advances_draining| |done]. intros _ s Hr. apply adv_get. cbv zeta.
  destruct (_ && expired); [apply (advances_bind 0); [by apply advances_emit|intros; apply advances_ret|done]|].
  destruct (_ && (_ <=? _)); [apply (advances_bind 0); [by apply advances_emit|intros; apply advances_ret|done]|].
  destruct (_ && (_ <? _)); [by apply advances_ret|].
  apply adv_get, adv_range; [done|]. intros qo s1 _ _ _ Hr1. apply adv_range; [done|]. intros to s2 _ _ _ Hr2. apply adv_get.
  unfold snapshot, id, cbind at 1. set (opts := RunExecutor_runMetricsOptsForRun _ _ _ _ _).
  destruct (readers_convert orders shuffle (rd_col rd) Hrd now (CreateServiceLabels ∘ svc_ID <$> scn_Services scenario) opts rd
    eq_refl) as (em & rd1 & -> & Ho & _). cbn [go_bind].
  destruct (readers_hosts orders (rd_col rd) (tc_rm s) em rd1 Ho) as (em' & rd2 & -> & _ & _).
  apply (advances_mono (per_tick + 0)); [|unfold per_tick; lia|done].
  apply advances_bind; [apply advances_control|intros; apply advances_ret].
Qed.
(** A tick at the limit of steps records none. *)
Lemma tick_at_limit now expired rd s : ready 0 s → 0 < oc_MaxControllerSteps opt ≤ ct_stepIndex (tc_ctl s) →
  adv 0 (controller_tick ords orders shuffle clock runID scenario opt now expired rd) s.
Proof.
  intros Hr Hl. apply adv_get. destruct (advances_draining now s Hr) as (u & s1 & E1 & A1).
  pose proof (advance_ready 0 0 _ _ Hr A1) as Hr1.
  assert (Hsame : ct_stepIndex (tc_ctl s1) = ct_stepIndex (tc_ctl s)).
  { destruct A1 as [_ _ _ (? & n & _ & ? & _ & ?)]. lia. }
  assert (H1 : adv 0 (cbind (getting tc_ctl) (λ c, _ <~ emit (SignalLeaseEnd (if (0 <? oc_LeaseTtlMs opt) && expired
    then "heartbeat_expired" else "controller_steps_limit")) ;~ cret rd)) s1).
  { apply adv_get. apply (advances_bind 0 0); [by apply advances_emit|intros; apply advances_ret|done]. }
  destruct H1 as (a & s2 & E2 & A2). exists a, s2. split; [|by apply (advance_trans 0 0 _ s1)].
  unfold cbind at 1. rewrite E1. rewrite <- E2. unfold cbind at 1. unfold cbind at 3. unfold getting. cbv zeta.
  cbn [go_bind]. destruct (_ && expired); [done|]. rewrite (proj2 (Z.ltb_lt _ _)), (proj2 (Z.leb_le _ _)) by lia. done.
Qed.

(** ** The loop *)

(** The rest of the program leads the manager only to reachable managers and leaves the
    hosts alone; the reservoirs fit in memory. *)
Record input_ok (i : TickInput) : Prop := {
  io_reach : ∀ lr, mg_reachable clock (lr_rm lr) → mg_reachable clock (lr_rm (ti_env i lr));
  io_hosts : ∀ lr, same_hosts (lr_rm lr) (lr_rm (ti_env i lr));
  io_read : readable (rd_col (ti_reading i));
}.
(** Steps after [n] ticks. *)
Definition step_bound (ticks : nat) : Z :=
  if 0 <? oc_MaxControllerSteps opt then Z.min (Z.of_nat (ticks * per_tick)) (oc_MaxControllerSteps opt - 1 + Z.of_nat per_tick)
  else Z.of_nat (ticks * per_tick).
Record loop_inv (ticks : nat) (s : TickState) : Prop := {
  li_reach : mg_reachable clock (tc_rm s);
  li_hosts : hosts_within (tc_rm s);
  li_steps : os_IterationIndex <$> appended (tc_effects s) = seqZ 1 (ct_stepIndex (tc_ctl s));
  li_bound : 0 ≤ ct_stepIndex (tc_ctl s) ≤ step_bound ticks;
}.
Lemma step_bound_pos n : 0 ≤ step_bound n.
Proof. unfold step_bound, per_tick. destruct (Z.ltb_spec 0 (oc_MaxControllerSteps opt)); lia. Qed.
Lemma step_bound_next n : step_bound n ≤ step_bound (S n).
Proof. unfold step_bound. destruct (0 <? _); nia. Qed.
Lemma loop_inv_advance k n s s' : loop_inv n s → advance k s s' →
  ct_stepIndex (tc_ctl s) + Z.of_nat k ≤ step_bound (S n) → loop_inv (S n) s'.
Proof.
  intros [I1 I2 I3 I4] [A1 A2 A3 (new & j & E & Hj & Hi & Hx)] Hb. split; [done|auto| |lia].
  unfold appended in *. rewrite E, omap_app, fmap_app, I3, Hi, Hx, seqZ_app by lia. do 2 f_equal. lia.
Qed.
Lemma loop_step n i s : loop_inv n s → input_ok i → step_bound (S n) < 2 ^ 31 →
  ∃ s', loop_body ords orders shuffle clock runID scenario opt i s = Ok (tt, s') ∧ loop_inv (S n) s'.
Proof.
  intros [I1 I2 I3 I4] [O1 O2 O3] Hb. pose proof (step_bound_next n) as Hn.
  set (s1 := s <| tc_run := ti_env i (tc_run s) |> <| tc_registered := ti_registered i |>).
  assert (I : loop_inv n s1).
  { split; [by apply O1|by eapply same_hosts_within, I2; apply O2|done|done]. }
  assert (H : ∃ k, adv k (controller_tick ords orders shuffle clock runID scenario opt (ti_now i) (ti_leaseExpired i)
    (ti_reading i)) s1 ∧ ct_stepIndex (tc_ctl s) + Z.of_nat k ≤ step_bound (S n)).
  { destruct (decide (0 < oc_MaxControllerSteps opt ≤ ct_stepIndex (tc_ctl s))) as [Hl|Hl].
    - exists 0%nat. split; [|lia]. apply tick_at_limit; [|done]. split; [apply I|simpl; lia].
    - exists per_tick. assert (ct_stepIndex (tc_ctl s) + Z.of_nat per_tick ≤ step_bound (S n)) as Hk.
      { unfold step_bound in *. destruct (Z.ltb_spec 0 (oc_MaxControllerSteps opt)); lia. }
      split; [|done]. apply advances_tick; [done|]. split; [apply I|simpl; lia]. }
  destruct H as (k & (a & s2 & E & A) & Hk). exists s2. split; [|by eapply loop_inv_advance].
  unfold loop_body, cbind, changing. cbn [go_bind]. fold s1. by rewrite E.
Qed.
Lemma step_bound_mono n k : step_bound n ≤ step_bound (k + n).
Proof. induction k as [|k IH]; [done|]. pose proof (step_bound_next (k + n)). simpl. lia. Qed.
Lemma loop_all ticks : ∀ n s, loop_inv n s → Forall input_ok ticks → step_bound (length ticks + n) < 2 ^ 31 →
  ∃ s', cfold (λ _ i, loop_body ords orders shuffle clock runID scenario opt i) tt ticks s = Ok (tt, s')
    ∧ loop_inv (length ticks + n) s'.
Proof.
  induction ticks as [|i ticks IH]; intros n s Hs Hi Hb; simpl; [by exists s|]. apply Forall_cons in Hi as [Hi His].
  simpl in Hb. rewrite <- Nat.add_succ_r in *. pose proof (step_bound_mono (S n) (length ticks)).
  destruct (loop_step n i s) as (s1 & E & H1); [done|done|lia|].
  destruct (IH (S n) s1) as (s2 & E2 & H2); [done..|]. exists s2. unfold cbind. rewrite E. by cbn [go_bind].
Qed.
End Ticks.

(** C19: for any sequence of ticks, wall clock times, collectors and lease answers, and whatever the
    rest of the program does to the run in between (as long as its operations keep the hosts), the
    controller's loop never panics or gets stuck; the resource manager stays a reachable one (so its
    invariant holds); the number of hosts stays between [min_hosts] and [max_hosts], or where it
    started if that was outside; the recorded steps are numbered 1, 2, 3, ... without gaps, and there
    are at most [max_controller_steps - 1 + 4 + #services] of them: one tick changes the hosts at most four
    times and every service at most once, and no tick starts at the limit. *)
Theorem controller_bounded ords orders shuffle clock runID scenario opt ticks lr :
  (∀ n tag A (m : gmap string A), visits_all (ords n tag A m) m) →
  mg_reachable clock (lr_rm lr) → Forall (input_ok clock) ticks → step_bound scenario opt (length ticks) < 2 ^ 31 →
  0 < control_interval opt →
  ∃ s, runOnlineController ords orders shuffle clock runID scenario opt ticks lr = Ok (tt, s)
    ∧ mg_reachable clock (tc_rm s)
    ∧ Z.min (ResourceManager_HostCount (lr_rm lr)) (min_hosts scenario opt) ≤ ResourceManager_HostCount (tc_rm s)
      ≤ Z.max (ResourceManager_HostCount (lr_rm lr)) (max_hosts scenario opt)
    ∧ os_IterationIndex <$> appended (tc_effects s) = seqZ 1 (len (appended (tc_effects s)))
    ∧ len (appended (tc_effects s)) ≤ step_bound scenario opt (length ticks).
Proof.
  intros Hv Hr Hi Hb Hint. set (n0 := ResourceManager_HostCount (lr_rm lr)).
  pose proof (step_bound_pos scenario opt 0) as H0.
  assert (I : loop_inv clock scenario opt (Z.min n0 (min_hosts scenario opt)) (Z.max n0 (max_hosts scenario opt)) 0
    (mkTick lr true new_controller [] 0)).
  { split; [done| |done|split; [done|exact H0]]. unfold hosts_within, tc_rm, tc_run. lia. }
  assert (H : ∃ s, runOnlineController ords orders shuffle clock runID scenario opt ticks lr = Ok (tt, s)
    ∧ loop_inv clock scenario opt (Z.min n0 (min_hosts scenario opt)) (Z.max n0 (max_hosts scenario opt)) (length ticks) s).
  { unfold runOnlineController. cbv zeta. destruct (controller_starts opt); cbn [negb].
    - rewrite (proj2 (Z.leb_gt _ _) Hint).
      destruct (loop_all ords orders shuffle clock runID scenario opt Hv (Z.min n0 (min_hosts scenario opt))
        (Z.max n0 (max_hosts scenario opt)) ltac:(lia) ltac:(lia) ticks 0 _ I Hi) as (s & E & Hs);
        rewrite Nat.add_0_r in *; [done|]. by exists s.
    - eexists. split; [done|]. destruct I as [I1 I2 I3 I4]. split; try done.
      pose proof (step_bound_mono scenario opt 0 (length ticks)) as Hm. rewrite Nat.add_0_r in Hm. lia. }
  destruct H as (s & E & [I1 I2 I3 I4]). exists s. split; [done|]. split; [done|]. split; [exact I2|].
  assert (Hn : len (appended (tc_effects s)) = ct_stepIndex (tc_ctl s)).
  { apply (f_equal length) in I3. rewrite length_fmap, length_seqZ in I3. unfold len. lia. }
  rewrite Hn. split; [done|lia].
Qed.
(** ** A run *)

Definition listed (n : nat) (tag : string) (A : Type) (m : gmap string A) : list string := (map_to_list m).*1.
Lemma listed_visits n tag A (m : gmap string A) : visits_all (listed n tag A m) m.
Proof.
  split; [apply NoDup_fst_map_to_list|]. intros k. unfold listed. rewrite list_elem_of_fmap. split.
  - intros ([k' x] & -> & Hx). apply elem_of_map_to_list in Hx. eauto.
  - intros [x Hx]. exists (k, x). split; [done|]. by apply elem_of_map_to_list.
Qed.
Definition two_services : Scenario :=
  mkScenario None None None [mkHostSpec "h1" 2 16 "z1" ∅; mkHostSpec "h2" 2 16 "z2" ∅]
    [demo_service "api" 1 None; demo_service "web" 1 None] [] None.
Definition slow_collector : Collector :=
  fst (record_all [mkMetricPoint 1 "request_latency_ms" (f64_of_Z 1000) ∅] (new_collector 1 None None None 0)).
Lemma slow_readable : readable slow_collector.
Proof.
  assert (H : map_Forall (λ _ m, map_Forall (λ _ s, Z.of_nat (length (ms_reservoir s)) ≤ 2 ^ 53) m) (col_series slow_collector)).
  { apply (bool_decide_eq_true_1 _). vm_compute. reflexivity. }
  intros name key s. unfold series_of. destruct (col_series slow_collector !! name) as [m|] eqn:E; simpl; [|by rewrite lookup_empty].
  intros Hs. exact (H name m E key s Hs).
Qed.
Definition slow_tick (t : Time) : TickInput := mkTickInput t false id true (mkReading slow_collector 0).
Definition two_run : LiveRun := mkLiveRun (init_or_new two_services) (NewWorkloadState "run" (100 * Second) (mkRandSource (λ _, f0) (λ _, f0) (λ _, f1)))
  (NewPolicyManager None) two_services None.
Definition two_step_run (limit : Z) : go (unit * TickState) :=
  runOnlineController listed (key_orders slow_collector) (λ _ _ l, l) demo_clock "run" two_services
    (demo_opt <| oc_MaxControllerSteps := limit |>) [slow_tick 2000; slow_tick 3000; slow_tick 4000] two_run.
(** Latency is above the target, so every service gets a replica in the same tick: two
    steps are recorded where one is the limit, and none after that. *)
Example step_limit_overshot :
  ∃ s, two_step_run 1 = Ok (tt, s) ∧ len (appended (tc_effects s)) = 2
    ∧ ResourceManager_ActiveReplicas "api" (tc_rm s) = 2 ∧ ResourceManager_ActiveReplicas "web" (tc_rm s) = 2.
Proof. eexists. split; [vm_compute; reflexivity|]. vm_compute. repeat split; reflexivity. Qed.
Lemma two_run_reachable : mg_reachable demo_clock (lr_rm two_run).
Proof. apply (reach_init _ two_services). vm_compute. reflexivity. Qed.
Lemma controller_bounded_witness :
  ∃ s, two_step_run 1 = Ok (tt, s) ∧ 2 ≤ ResourceManager_HostCount (tc_rm s) ≤ 3 ∧ len (appended (tc_effects s)) ≤ 6.
Proof.
  destruct (controller_bounded listed (key_orders slow_collector) (λ _ _ l, l) demo_clock "run" two_services
    (demo_opt <| oc_MaxControllerSteps := 1 |>) [slow_tick 2000; slow_tick 3000; slow_tick 4000] two_run listed_visits
    two_run_reachable) as (s & E & _ & Hh & _ & Hl).
  - repeat constructor; intros; solve [assumption | reflexivity | apply slow_readable].
  - vm_compute. reflexivity.
  - vm_compute. reflexivity.
  - exists s. split; [exact E|]. split; [exact Hh|]. exact Hl.
Defined.
