(* ===== verification/CalibrationData.v ===== *)
(** The data of [internal/calibration]: observations, options, tolerances, the
    calibration report and the policy that decides whether a field may be changed. *)
From S2P Require Import Prelude GoFloat Utils Config RunMetrics SimState ServiceModel EngineMetrics.
From Stdlib Require Import SpecFloat.
#[local] Open Scope string_scope.
#[local] Open Scope list_scope.
#[local] Open Scope Z_scope.

(** * Observations *)

(** An [ObservedValue] is an option: [Present] is [Some]. *)
Abbreviation ObservedValue A := (option A) (only parsing).
Definition F64 (v : float64) : ObservedValue float64 := Some v.
Definition I64 (v : Z) : ObservedValue Z := Some v.
Record ObservationWindow := mkWindow {
  ow_Duration : Duration;
  ow_Source : string;
  ow_CollectionNote : string;
}.
#[export] Instance eta_ObservationWindow : Eta ObservationWindow := λ r, mkWindow (ow_Duration
  r) (ow_Source r) (ow_CollectionNote r).
Record EndpointObservation := mkEndpointObs {
  eo_ServiceID : string;
  eo_EndpointPath : string;
  eo_ThroughputRPS : option float64;
  eo_LatencyP50Ms : option float64;
  eo_LatencyP95Ms : option float64;
  eo_LatencyP99Ms : option float64;
  eo_LatencyMeanMs : option float64;
  eo_ProcessingLatencyP50Ms : option float64;
  eo_ProcessingLatencyP95Ms : option float64;
  eo_ProcessingLatencyP99Ms : option float64;
  eo_ProcessingLatencyMeanMs : option float64;
  eo_QueueWaitP50Ms : option float64;
  eo_QueueWaitP95Ms : option float64;
  eo_QueueWaitP99Ms : option float64;
  eo_QueueWaitMeanMs : option float64;
  eo_DBWaitMeanMs : option float64;
  eo_RequestCount : option Z;
  eo_ErrorCount : option Z;
  eo_RetryCount : option Z;
  eo_TimeoutCount : option Z;
}.
#[export] Instance eta_EndpointObservation : Eta EndpointObservation := λ r, mkEndpointObs
  (eo_ServiceID r) (eo_EndpointPath r) (eo_ThroughputRPS r) (eo_LatencyP50Ms r) (eo_LatencyP95Ms
  r) (eo_LatencyP99Ms r) (eo_LatencyMeanMs r) (eo_ProcessingLatencyP50Ms r)
  (eo_ProcessingLatencyP95Ms r) (eo_ProcessingLatencyP99Ms r) (eo_ProcessingLatencyMeanMs r)
  (eo_QueueWaitP50Ms r) (eo_QueueWaitP95Ms r) (eo_QueueWaitP99Ms r) (eo_QueueWaitMeanMs r)
  (eo_DBWaitMeanMs r) (eo_RequestCount r) (eo_ErrorCount r) (eo_RetryCount r) (eo_TimeoutCount
  r).
Record DownstreamEdgeObservation := mkEdgeObs {
  de_FromService : string;
  de_FromPath : string;
  de_To : string;
  de_SampleCount : option float64;
  de_ProbabilityHint : option float64;
  de_CallCountMeanHint : option float64;
}.
#[export] Instance eta_DownstreamEdgeObservation : Eta DownstreamEdgeObservation := λ r,
  mkEdgeObs (de_FromService r) (de_FromPath r) (de_To r) (de_SampleCount r) (de_ProbabilityHint
  r) (de_CallCountMeanHint r).
Record QueueBrokerObservation := mkQueueObs {
  qo_BrokerService : string;
  qo_Topic : string;
  qo_DepthMean : option float64;
  qo_DropCount : option Z;
  qo_DLQCount : option Z;
  qo_EnqueueCount : option Z;
  qo_DequeueCount : option Z;
  qo_QueuePublishAttemptCount : option Z;
  qo_OldestAgeMs : option float64;
}.
#[export] Instance eta_QueueBrokerObservation : Eta QueueBrokerObservation := λ r, mkQueueObs
  (qo_BrokerService r) (qo_Topic r) (qo_DepthMean r) (qo_DropCount r) (qo_DLQCount r)
  (qo_EnqueueCount r) (qo_DequeueCount r) (qo_QueuePublishAttemptCount r) (qo_OldestAgeMs r).
Record TopicBrokerObservation := mkTopicObs {
  to_BrokerService : string;
  to_Topic : string;
  to_Partition : Z;
  to_ConsumerGroup : string;
  to_BacklogDepth : option float64;
  to_ConsumerLag : option float64;
  to_DropCount : option Z;
  to_DLQCount : option Z;
  to_PublishCount : option Z;
  to_TopicDeliverCount : option Z;
  to_OldestAgeMs : option float64;
}.
#[export] Instance eta_TopicBrokerObservation : Eta TopicBrokerObservation := λ r, mkTopicObs
  (to_BrokerService r) (to_Topic r) (to_Partition r) (to_ConsumerGroup r) (to_BacklogDepth r)
  (to_ConsumerLag r) (to_DropCount r) (to_DLQCount r) (to_PublishCount r) (to_TopicDeliverCount
  r) (to_OldestAgeMs r).
Record CacheObservation := mkCacheObs {
  ca_ServiceID : string;
  ca_HitCount : option Z;
  ca_MissCount : option Z;
}.
#[export] Instance eta_CacheObservation : Eta CacheObservation := λ r, mkCacheObs (ca_ServiceID
  r) (ca_HitCount r) (ca_MissCount r).
Record GlobalObservation := mkGlobalObs {
  go_RootLatencyP50Ms : option float64;
  go_RootLatencyP95Ms : option float64;
  go_RootLatencyP99Ms : option float64;
  go_RootLatencyMeanMs : option float64;
  go_IngressThroughputRPS : option float64;
  go_IngressErrorRate : option float64;
  go_LocalityHitRate : option float64;
  go_CrossZoneFraction : option float64;
  go_CrossZoneLatencyPenaltyMeanMs : option float64;
  go_TopologyLatencyPenaltyMeanMs : option float64;
  go_TotalRequests : option Z;
  go_IngressRequests : option Z;
  go_FailedRequests : option Z;
  go_RetryAttempts : option Z;
  go_TimeoutErrors : option Z;
  go_IngressFailedRequests : option Z;
}.
#[export] Instance eta_GlobalObservation : Eta GlobalObservation := λ r, mkGlobalObs
  (go_RootLatencyP50Ms r) (go_RootLatencyP95Ms r) (go_RootLatencyP99Ms r) (go_RootLatencyMeanMs
  r) (go_IngressThroughputRPS r) (go_IngressErrorRate r) (go_LocalityHitRate r)
  (go_CrossZoneFraction r) (go_CrossZoneLatencyPenaltyMeanMs r) (go_TopologyLatencyPenaltyMeanMs
  r) (go_TotalRequests r) (go_IngressRequests r) (go_FailedRequests r) (go_RetryAttempts r)
  (go_TimeoutErrors r) (go_IngressFailedRequests r).
Record WorkloadTargetObservation := mkTargetObs {
  wt_To : string;
  wt_TrafficClass : string;
  wt_SourceKind : string;
  wt_ThroughputRPS : option float64;
}.
#[export] Instance eta_WorkloadTargetObservation : Eta WorkloadTargetObservation := λ r,
  mkTargetObs (wt_To r) (wt_TrafficClass r) (wt_SourceKind r) (wt_ThroughputRPS r).
Record ServiceObservation := mkServiceObs {
  so_ServiceID : string;
  so_CPUUtilization : option float64;
  so_MemoryUtilization : option float64;
}.
#[export] Instance eta_ServiceObservation : Eta ServiceObservation := λ r, mkServiceObs
  (so_ServiceID r) (so_CPUUtilization r) (so_MemoryUtilization r).
Record InstanceRoutingObservation := mkRoutingObs {
  ro_ServiceID : string;
  ro_EndpointPath : string;
  ro_InstanceID : string;
  ro_RequestShare : option float64;
  ro_RequestCount : option Z;
}.
#[export] Instance eta_InstanceRoutingObservation : Eta InstanceRoutingObservation := λ r,
  mkRoutingObs (ro_ServiceID r) (ro_EndpointPath r) (ro_InstanceID r) (ro_RequestShare r)
  (ro_RequestCount r).
Record ObservedMetrics := mkObserved {
  om_Window : ObservationWindow;
  om_Global : GlobalObservation;
  om_Endpoints : list EndpointObservation;
  om_Services : list ServiceObservation;
  om_DownstreamEdges : list DownstreamEdgeObservation;
  om_QueueBrokers : list QueueBrokerObservation;
  om_TopicBrokers : list TopicBrokerObservation;
  om_Caches : list CacheObservation;
  om_InstanceRouting : list InstanceRoutingObservation;
  om_WorkloadTargets : list WorkloadTargetObservation;
}.
#[export] Instance eta_ObservedMetrics : Eta ObservedMetrics := λ r, mkObserved (om_Window r)
  (om_Global r) (om_Endpoints r) (om_Services r) (om_DownstreamEdges r) (om_QueueBrokers r)
  (om_TopicBrokers r) (om_Caches r) (om_InstanceRouting r) (om_WorkloadTargets r).
Definition no_global : GlobalObservation :=
  mkGlobalObs None None None None None None None None None None None None None None None None.
Definition no_endpoint (svc ep : string) : EndpointObservation :=
  mkEndpointObs svc ep None None None None None None None None None None None None None None None None None None.
Definition no_observations : ObservedMetrics :=
  mkObserved (mkWindow 0 "" "") no_global [] [] [] [] [] [] [] [].

(** * Options and policy *)

Inductive OverwritePolicy := OverwriteNever | OverwriteWhenHigherConfidence | OverwriteAlways.
Inductive ConfidenceLevel := ConfidenceHigh | ConfidenceMedium | ConfidenceLow.
Record CalibrateOptions := mkCalibrateOptions {
  cal_Overwrite : OverwritePolicy;
  cal_PredictedRun : option EngineRunMetrics;
  cal_ConfidenceFloor : float64;
  cal_MinScaleFactor : float64;
  cal_MaxScaleFactor : float64;
}.
#[export] Instance eta_CalibrateOptions : Eta CalibrateOptions := λ r, mkCalibrateOptions
  (cal_Overwrite r) (cal_PredictedRun r) (cal_ConfidenceFloor r) (cal_MinScaleFactor r)
  (cal_MaxScaleFactor r).
Definition defaultCalibrateOptions : CalibrateOptions :=
  mkCalibrateOptions OverwriteWhenHigherConfidence None (f64_lit 2 10) (f64_lit 25 100) (f64_of_Z 4).
Definition fieldEmptyFloat (old : float64) : bool := fltb (math_Abs old) (f64_lit 1 (10 ^ 12)).
Definition fieldEmptyInt (old : Z) : bool := old <=? 0.
Definition confidenceScore (c : ConfidenceLevel) : float64 :=
  match c with
  | ConfidenceHigh => f64_lit 9 10
  | ConfidenceMedium => f64_lit 65 100
  | ConfidenceLow => f64_lit 35 100
  end.
Definition shouldApply (policy : OverwritePolicy) (fieldEmpty : bool) (conf : ConfidenceLevel) (floor : float64) : bool :=
  let floor := if is_nan floor || fltb floor f0 then f0 else floor in
  if fltb (confidenceScore conf) floor then false
  else
    match policy with
    | OverwriteNever => fieldEmpty
    | OverwriteWhenHigherConfidence =>
        fieldEmpty || match conf with ConfidenceLow => false | _ => true end
    | OverwriteAlways => true
    end.
Definition clampScale (f lo hi : float64) : float64 := if fltb f lo then lo else if fgt f hi then hi else f.

(** * The calibration report *)

Inductive FieldValue := FloatValue (x : float64) | IntValue (n : Z).
Record FieldChange := mkFieldChange {
  fc_Path : string;
  fc_OldValue : FieldValue;
  fc_NewValue : FieldValue;
  fc_Reason : string;
  fc_Confidence : ConfidenceLevel;
}.
#[export] Instance eta_FieldChange : Eta FieldChange := λ r, mkFieldChange (fc_Path r)
  (fc_OldValue r) (fc_NewValue r) (fc_Reason r) (fc_Confidence r).
Record CalibrationReport := mkReport {
  cr_Changes : list FieldChange;
  cr_Warnings : list string;
  cr_Skipped : list string;
  cr_SkippedLowConfidence : list string;
  cr_AmbiguousMappings : list string;
}.
#[export] Instance eta_CalibrationReport : Eta CalibrationReport := λ r, mkReport (cr_Changes r)
  (cr_Warnings r) (cr_Skipped r) (cr_SkippedLowConfidence r) (cr_AmbiguousMappings r).
Definition empty_report : CalibrationReport := mkReport [] [] [] [] [].
Definition report_add (path : string) (oldv newv : FieldValue) (reason : string) (conf : ConfidenceLevel)
    (r : CalibrationReport) : CalibrationReport :=
  r <| cr_Changes := cr_Changes r ++ [mkFieldChange path oldv newv reason conf] |>.
(** The messages of [warnf] and [ambiguousf] are kept up to their first formatted float
    or quoted string. *)
Definition report_warn (msg : string) (r : CalibrationReport) : CalibrationReport :=
  r <| cr_Warnings := cr_Warnings r ++ [msg] |>.
Definition report_skip (msg : string) (r : CalibrationReport) : CalibrationReport :=
  r <| cr_Skipped := cr_Skipped r ++ [msg] |>.
Definition report_skipLowConf (msg : string) (r : CalibrationReport) : CalibrationReport :=
  r <| cr_SkippedLowConfidence := cr_SkippedLowConfidence r ++ [msg] |>.
Definition report_ambiguous (msg : string) (r : CalibrationReport) : CalibrationReport :=
  r <| cr_AmbiguousMappings := cr_AmbiguousMappings r ++ [msg] |>.

(** * Tolerances *)

Record ValidationTolerances := mkTolerances {
  vt_ThroughputRel : float64;
  vt_LatencyP50Rel : float64;
  vt_LatencyP95Rel : float64;
  vt_LatencyP99Rel : float64;
  vt_UtilizationAbsPP : float64;
  vt_IngressErrorRateAbs : float64;
  vt_IngressErrorRateRel : float64;
  vt_QueueDropRateAbs : float64;
  vt_TopicDropRateAbs : float64;
  vt_LocalityRateAbs : float64;
  vt_CrossZoneRateAbs : float64;
  vt_CrossZonePenaltyMeanAbs : float64;
  vt_TopologyPenaltyMeanAbs : float64;
  vt_QueueDepthAbsSmall : float64;
  vt_QueueDepthRel : float64;
  vt_TopicLagAbsSmall : float64;
  vt_TopicLagRel : float64;
  vt_RouteShareAbsSmall : float64;
  vt_RouteShareRel : float64;
  vt_RouteCountAbsSmall : float64;
  vt_RouteCountRel : float64;
}.
#[export] Instance eta_ValidationTolerances : Eta ValidationTolerances := λ r, mkTolerances
  (vt_ThroughputRel r) (vt_LatencyP50Rel r) (vt_LatencyP95Rel r) (vt_LatencyP99Rel r)
  (vt_UtilizationAbsPP r) (vt_IngressErrorRateAbs r) (vt_IngressErrorRateRel r)
  (vt_QueueDropRateAbs r) (vt_TopicDropRateAbs r) (vt_LocalityRateAbs r) (vt_CrossZoneRateAbs r)
  (vt_CrossZonePenaltyMeanAbs r) (vt_TopologyPenaltyMeanAbs r) (vt_QueueDepthAbsSmall r)
  (vt_QueueDepthRel r) (vt_TopicLagAbsSmall r) (vt_TopicLagRel r) (vt_RouteShareAbsSmall r)
  (vt_RouteShareRel r) (vt_RouteCountAbsSmall r) (vt_RouteCountRel r).
Record ValidateOptions := mkValidateOptions {
  vo_Seeds : list Z;
  vo_RealTimeWorkload : bool;
  vo_Tolerances : option ValidationTolerances;
  vo_AllowPartialFields : bool;
}.
#[export] Instance eta_ValidateOptions : Eta ValidateOptions := λ r, mkValidateOptions (vo_Seeds
  r) (vo_RealTimeWorkload r) (vo_Tolerances r) (vo_AllowPartialFields r).
Definition DefaultValidationTolerances : ValidationTolerances := mkTolerances (f64_lit 5 100) (f64_lit 12 100)
  (f64_lit 15 100) (f64_lit 18 100) (f64_lit 10 100) (f64_lit 2 100) (f64_lit 50 100) (f64_lit 3 100) (f64_lit
  3 100) (f64_lit 10 100) (f64_lit 10 100) (f64_of_Z 10) (f64_of_Z 10) (f64_of_Z 2) (f64_lit 25 100) (f64_of_Z
  2) (f64_lit 30 100) (f64_lit 8 100) (f64_lit 25 100) (f64_of_Z 10) (f64_lit 30 100).
Definition StrictValidationTolerances : ValidationTolerances := mkTolerances (f64_lit 3 100) (f64_lit 8 100)
  (f64_lit 10 100) (f64_lit 12 100) (f64_lit 6 100) (f64_lit 1 100) (f64_lit 35 100) (f64_lit 2 100) (f64_lit
  2 100) (f64_lit 6 100) (f64_lit 6 100) (f64_of_Z 6) (f64_of_Z 6) (f64_of_Z 1) (f64_lit 15 100) (f64_of_Z 1)
  (f64_lit 20 100) (f64_lit 5 100) (f64_lit 15 100) (f64_of_Z 5) (f64_lit 20 100).
Definition LooseValidationTolerances : ValidationTolerances := mkTolerances (f64_lit 10 100) (f64_lit 18 100)
  (f64_lit 22 100) (f64_lit 28 100) (f64_lit 15 100) (f64_lit 4 100) (f64_lit 60 100) (f64_lit 5 100) (f64_lit
  5 100) f0 f0 f0 f0 (f64_of_Z 4) (f64_lit 40 100) (f64_of_Z 4) (f64_lit 45 100) (f64_lit 12 100) (f64_lit 35
  100) (f64_of_Z 20) (f64_lit 45 100).
Definition defaultValidateOptions : ValidateOptions := mkValidateOptions [1; 2; 3] false (Some DefaultValidationTolerances) true.
Definition ResolveToleranceProfile (name : string) : ValidationTolerances :=
  let name := ToLower (TrimSpace name) in
  if String.eqb name "strict" then StrictValidationTolerances
  else if String.eqb name "loose" then LooseValidationTolerances
  else DefaultValidationTolerances.
(** The field a key of the JSON object names. *)
Definition tolerance_key (key : string) (v : float64) (out : ValidationTolerances) : option ValidationTolerances :=
  if String.eqb key "throughput_rel" then Some (out <| vt_ThroughputRel := v |>)
  else if String.eqb key "latency_p50_rel" then Some (out <| vt_LatencyP50Rel := v |>)
  else if String.eqb key "latency_p95_rel" then Some (out <| vt_LatencyP95Rel := v |>)
  else if String.eqb key "latency_p99_rel" then Some (out <| vt_LatencyP99Rel := v |>)
  else if String.eqb key "utilization_abs_pp" then Some (out <| vt_UtilizationAbsPP := v |>)
  else if String.eqb key "ingress_error_rate_abs" then Some (out <| vt_IngressErrorRateAbs := v |>)
  else if String.eqb key "ingress_error_rate_rel" then Some (out <| vt_IngressErrorRateRel := v |>)
  else if String.eqb key "queue_drop_rate_abs" then Some (out <| vt_QueueDropRateAbs := v |>)
  else if String.eqb key "topic_drop_rate_abs" then Some (out <| vt_TopicDropRateAbs := v |>)
  else if String.eqb key "queue_depth_abs_small" then Some (out <| vt_QueueDepthAbsSmall := v |>)
  else if String.eqb key "queue_depth_rel" then Some (out <| vt_QueueDepthRel := v |>)
  else if String.eqb key "topic_lag_abs_small" then Some (out <| vt_TopicLagAbsSmall := v |>)
  else if String.eqb key "topic_lag_rel" then Some (out <| vt_TopicLagRel := v |>)
  else if String.eqb key "route_share_abs_small" then Some (out <| vt_RouteShareAbsSmall := v |>)
  else if String.eqb key "route_share_rel" then Some (out <| vt_RouteShareRel := v |>)
  else if String.eqb key "route_count_abs_small" then Some (out <| vt_RouteCountAbsSmall := v |>)
  else if String.eqb key "route_count_rel" then Some (out <| vt_RouteCountRel := v |>)
  else if String.eqb key "locality_rate_abs" then Some (out <| vt_LocalityRateAbs := v |>)
  else if String.eqb key "cross_zone_rate_abs" then Some (out <| vt_CrossZoneRateAbs := v |>)
  else if String.eqb key "cross_zone_penalty_mean_abs" then Some (out <| vt_CrossZonePenaltyMeanAbs := v |>)
  else if String.eqb key "topology_penalty_mean_abs" then Some (out <| vt_TopologyPenaltyMeanAbs := v |>)
  else None.
(** [decode]: the members of the JSON object, in the order in which its map is visited. *)
Definition ApplyToleranceJSON (decode : string → go (list (string * float64))) (base : option ValidationTolerances)
    (raw : string) : go ValidationTolerances :=
  let base := default DefaultValidationTolerances base in
  if is_empty raw then Ok base
  else
    match decode raw with
    | Fail e => Fail ("tolerances JSON: " +:+ e)
    | Panic => Panic
    | Ok members =>
        foldl (λ out kv, let! out := out in
          match tolerance_key (ToLower (TrimSpace kv.1)) kv.2 out with
          | Some out => Ok out
          | None => Fail "tolerances: unknown key "
          end) (Ok base) members
    end.
Definition withinRel (obs pred rel : float64) : bool :=
  if is_nan obs || is_nan pred then false
  else fleb (fdiv (math_Abs (fsub pred obs)) (math_Max (math_Abs obs) (f64_lit 1 (10 ^ 9)))) rel.
Definition withinAbsRatio (obs pred absSmall rel : float64) : bool :=
  if fltb (math_Abs obs) absSmall && fltb (math_Abs pred) absSmall
  then fleb (math_Abs (fsub pred obs)) absSmall
  else withinRel obs pred rel.
