(* ===== verification/Calibrate.v ===== *)
(** [CalibrateScenario] of [internal/calibration]: moving a scenario towards observed
    metrics. The fields it may set are named by [Field]; every change of a field goes
    through [adjust], which asks the policy and writes the report. *)
From S2P Require Import Prelude GoFloat Utils Policy Config BrokerQueue RunMetrics RunStore SimState ServiceModel EngineMetrics CalibrationData.
From Stdlib Require Import SpecFloat.
#[local] Open Scope string_scope.
#[local] Open Scope list_scope.
#[local] Open Scope Z_scope.

#[export] Instance eta_LatencySpec : Eta LatencySpec := λ r, mkLatency (lat_Mean r) (lat_Sigma r).
#[export] Instance eta_CacheBehavior : Eta CacheBehavior := λ r, mkCacheBehavior (cab_HitRate r) (cab_HitLatencyMs r)
  (cab_MissLatencyMs r).
#[export] Instance eta_DownstreamCall : Eta DownstreamCall := λ r, mkDownstream (ds_To r) (ds_Mode r) (ds_Kind r)
  (ds_Probability r) (ds_CallCountMean r) (ds_CallLatencyMs r) (ds_TimeoutMs r) (ds_FailureRate r) (ds_Retryable r)
  (ds_DownstreamFractionCPU r) (ds_PartitionKey r) (ds_PartitionKeyFrom r).
#[export] Instance eta_Endpoint : Eta Endpoint := λ r, mkEndpoint (ep_Path r) (ep_MeanCPUMs r) (ep_CPUSigmaMs r)
  (ep_DefaultMemoryMB r) (ep_FailureRate r) (ep_TimeoutMs r) (ep_IOMs r) (ep_ConnectionPool r) (ep_Routing r)
  (ep_Downstream r) (ep_NetLatencyMs r).

(** * The fields that calibration sets *)

Inductive Field :=
  | FRate (i : nat)
  | FMeanCPU (si ei : nat)
  | FNetLatency (si ei : nat)
  | FFailureRate (si ei : nat)
  | FProbability (si ei di : nat)
  | FCallCount (si ei di : nat)
  | FQueueCapacity (si : nat)
  | FTopicCapacity (si : nat)
  | FHitRate (si : nat).
Definition float_of (v : FieldValue) : float64 := match v with FloatValue x => x | IntValue _ => f0 end.
Definition int_of (v : FieldValue) : Z := match v with FloatValue _ => 0 | IntValue n => n end.
Definition change_endpoint (si ei : nat) (f : Endpoint → Endpoint) (s : Scenario) : Scenario :=
  s <| scn_Services := alter (λ svc, svc <| svc_Endpoints := alter f ei (svc_Endpoints svc) |>) si (scn_Services s) |>.
Definition change_call (si ei di : nat) (f : DownstreamCall → DownstreamCall) : Scenario → Scenario :=
  change_endpoint si ei (λ ep, ep <| ep_Downstream := alter f di (ep_Downstream ep) |>).
Definition change_behavior (si : nat) (f : ServiceBehavior → ServiceBehavior) (s : Scenario) : Scenario :=
  s <| scn_Services := alter (λ svc, svc <| svc_Behavior := f <$> svc_Behavior svc |>) si (scn_Services s) |>.
(** Assignment to a field. *)
Definition put (f : Field) (v : FieldValue) (s : Scenario) : Scenario :=
  match f with
  | FRate i => s <| scn_Workload :=
      alter (λ w, w <| wl_Arrival := (wl_Arrival w) <| ar_RateRPS := float_of v |> |>) i (scn_Workload s) |>
  | FMeanCPU si ei => change_endpoint si ei (λ ep, ep <| ep_MeanCPUMs := float_of v |>) s
  | FNetLatency si ei =>
      change_endpoint si ei (λ ep, ep <| ep_NetLatencyMs := (ep_NetLatencyMs ep) <| lat_Mean := float_of v |> |>) s
  | FFailureRate si ei => change_endpoint si ei (λ ep, ep <| ep_FailureRate := float_of v |>) s
  | FProbability si ei di => change_call si ei di (λ d, d <| ds_Probability := float_of v |>) s
  | FCallCount si ei di => change_call si ei di (λ d, d <| ds_CallCountMean := float_of v |>) s
  | FQueueCapacity si =>
      change_behavior si (λ b, b <| sb_Queue := (λ q, q <| qb_Capacity := int_of v |>) <$> sb_Queue b |>) s
  | FTopicCapacity si =>
      change_behavior si (λ b, b <| sb_Topic := (λ t, t <| tb_Capacity := int_of v |>) <$> sb_Topic b |>) s
  | FHitRate si =>
      change_behavior si (λ b, b <| sb_Cache := (λ c, c <| cab_HitRate := float_of v |>) <$> sb_Cache b |>) s
  end.

Record Calibration := mkCalibration {
  cb_out : Scenario;
  cb_report : CalibrationReport;
  cb_handled : gset nat;
}.
#[export] Instance eta_Calibration : Eta Calibration := λ r, mkCalibration (cb_out r) (cb_report r) (cb_handled r).
Definition reporting (f : CalibrationReport → CalibrationReport) (c : Calibration) : Calibration :=
  c <| cb_report := f (cb_report c) |>.

(** * Looking things up *)

Definition findServiceIndex (sc : Scenario) (id : string) : option nat :=
  fst <$> list_find (λ svc, svc_ID svc = id) (scn_Services sc).
Definition findService (sc : Scenario) (id : string) : option (nat * Service) :=
  list_find (λ svc, svc_ID svc = id) (scn_Services sc).
Definition findServiceByKind (sc : Scenario) (kind id : string) : option (nat * Service) :=
  list_find (λ svc, svc_ID svc = id ∧ (is_empty kind || EqualFold (TrimSpace (svc_Kind svc)) (TrimSpace kind)) = true)
    (scn_Services sc).
Definition findEndpoint (sc : Scenario) (serviceID path : string) : option (nat * nat * Endpoint) :=
  '(si, svc) ← findService sc serviceID;
  '(ei, ep) ← list_find (λ ep, ep_Path ep = path) (svc_Endpoints svc);
  Some (si, ei, ep).
Definition isIngressLikeWorkload (tc : string) : bool :=
  let tc := ToLower (TrimSpace tc) in negb (String.eqb tc "background" || String.eqb tc "replay").
Definition eps9 : float64 := f64_lit 1 (10 ^ 9).
Definition eps6 : float64 := f64_lit 1 (10 ^ 6).
Definition eps3 : float64 := f64_lit 1 (10 ^ 3).
Definition rate_of (w : WorkloadPattern) : float64 := ar_RateRPS (wl_Arrival w).
Definition rates_of (out : Scenario) (idxs : list nat) : float64 :=
  foldl (λ s i, from_option (λ w, fadd s (rate_of w)) s (scn_Workload out !! i)) f0 idxs.
Definition indices_where (p : nat → WorkloadPattern → bool) (out : Scenario) : list nat :=
  omap (λ iw, if p iw.1 iw.2 then Some iw.1 else None) (imap pair (scn_Workload out)).
Definition matchingWorkloadIndices (out : Scenario) (wt : WorkloadTargetObservation) : list nat :=
  indices_where (λ _ w,
    (is_empty (wt_To wt) || String.eqb (TrimSpace (wt_To wt)) (TrimSpace (wl_To w)))
    && (is_empty (wt_TrafficClass wt) || EqualFold (TrimSpace (wt_TrafficClass wt)) (TrimSpace (wl_TrafficClass w)))
    && (is_empty (wt_SourceKind wt) || String.eqb (TrimSpace (wt_SourceKind wt)) (TrimSpace (wl_SourceKind w)))) out.
Definition allWorkloadIndices (out : Scenario) (handled : gset nat) : list nat :=
  indices_where (λ i _, negb (bool_decide (i ∈ handled))) out.
Definition ingressWorkloadIndices (out : Scenario) (handled : gset nat) (r : CalibrationReport)
    : list nat * CalibrationReport :=
  let ingress := indices_where (λ i w, negb (bool_decide (i ∈ handled)) && isIngressLikeWorkload (wl_TrafficClass w)) out in
  if 0 <? len ingress then
    (ingress, if 1 <? len ingress then report_ambiguous ("multiple (" +:+ Itoa (len ingress) +:+
       ") ingress-like workload rows; applying global ingress ratio to all of them (check workload_targets for explicit mapping)") r
     else r)
  else
    let all := allWorkloadIndices out handled in
    (all, if 1 <? len all then report_warn
       "no ingress-like workload found (traffic_class may be background/replay for all rows); scaling all remaining workloads by global ingress ratio (ambiguous)" r
     else r).
Definition hasMixedTrafficClasses (out : Scenario) : bool :=
  existsb (λ w, isIngressLikeWorkload (wl_TrafficClass w)) (scn_Workload out)
  && existsb (λ w, negb (isIngressLikeWorkload (wl_TrafficClass w))) (scn_Workload out).
Definition sumIngressLikeArrivalRPS (out : Scenario) : float64 :=
  foldl (λ s w, if isIngressLikeWorkload (wl_TrafficClass w) then fadd s (rate_of w) else s) f0 (scn_Workload out).
Definition predictedIngressRPS (pred : option EngineRunMetrics) (obs : ObservedMetrics) (out : Scenario)
    (r : CalibrationReport) : float64 * CalibrationReport :=
  match pred with
  | None => (f0, r)
  | Some pred =>
      let dsec := Seconds (ow_Duration (om_Window obs)) in
      let rps := em_IngressThroughputRPS pred in
      let rps :=
        if fltb rps eps9 && fgt dsec f0 && (0 <? em_IngressRequests pred) then
          let rps := fdiv (f64_of_Z (em_IngressRequests pred)) dsec in
          if fltb rps eps9 then fdiv (f64_of_Z (em_TotalRequests pred)) dsec else rps
        else rps in
      if fltb rps eps9 then
        let rps := foldl (λ s w, if fgt (rate_of w) eps9 && isIngressLikeWorkload (wl_TrafficClass w)
                                 then fadd s (rate_of w) else s) rps (scn_Workload out) in
        if fltb rps eps9 then
          match list_find (λ w, fgt (rate_of w) eps9 = true) (scn_Workload out) with
          | Some (_, w) =>
              (rate_of w, report_warn "predicted run had no request throughput; using configured workload rate_rps=" r)
          | None => (rps, r)
          end
        else (rps, r)
      else (rps, r)
  end.

(** * The denominator for processing latencies *)

Definition findEndpointRequestStats (pred : EngineRunMetrics) (serviceID path : string) : option EndpointRequestStats :=
  snd <$> list_find (λ es, ers_ServiceName es = serviceID ∧ ers_EndpointPath es = path) (em_EndpointRequestStats pred).
Definition any_path (path : string) : bool := is_empty path || String.eqb path "*".
Definition fallbackDenomFromScenarioCPU (out : Scenario) (serviceID pathPattern : string) : float64 :=
  match findService out serviceID with
  | None => f0
  | Some (_, svc) =>
      let denom := foldl (λ denom ep,
        if any_path pathPattern || String.eqb (ep_Path ep) pathPattern
        then if fgt (ep_MeanCPUMs ep) denom then ep_MeanCPUMs ep else denom else denom) f0 (svc_Endpoints svc) in
      if fltb denom eps3 then f1 else denom
  end.
Definition resolveProcessingDenom (pred : EngineRunMetrics) (eo : EndpointObservation) (out : Scenario)
    (r : CalibrationReport) : float64 * CalibrationReport :=
  let epPath := TrimSpace (eo_EndpointPath eo) in
  let sm := em_ServiceMetrics pred !! eo_ServiceID eo in
  let warn msg := report_warn ("calibration " +:+ eo_ServiceID eo +:+ ":" +:+ epPath +:+ ": " +:+ msg) r in
  let from_cpu :=
    let d := fallbackDenomFromScenarioCPU out (eo_ServiceID eo) epPath in
    if fltb d eps6 then (f0, r)
    else (d, warn "using scenario mean_cpu_ms as predicted processing baseline denominator (endpoint and service predicted processing unavailable)") in
  if any_path epPath then
    match sm with
    | None => (f0, r)
    | Some pm =>
        let denom := es_ProcessingLatencyMeanMs pm in
        let denom := if fltb denom eps6 then fallbackDenomFromScenarioCPU out (eo_ServiceID eo) "*" else denom in
        (if fltb denom eps3 then f1 else denom, r)
    end
  else
    match findEndpointRequestStats pred (eo_ServiceID eo) epPath ≫= ers_ProcessingLatencyMeanMs with
    | Some x => (x, r)
    | None =>
        match sm with
        | Some pm =>
            if fgt (es_ProcessingLatencyMeanMs pm) eps6
            then (es_ProcessingLatencyMeanMs pm,
                  warn "using service-level predicted processing mean as baseline denominator (endpoint-specific prediction unavailable)")
            else from_cpu
        | None => from_cpu
        end
    end.

(** * The stages *)

Section Stages.
Context (overwrite : OverwritePolicy) (floor minS maxS : float64).
(** A change that the policy allows is made and reported; otherwise it is reported as skipped. *)
Definition adjust (conf : ConfidenceLevel) (empty : bool) (path skipped : string) (f : Field) (oldv newv : FieldValue)
    (reason : string) (c : Calibration) : Calibration :=
  if shouldApply overwrite empty conf floor
  then c <| cb_out := put f newv (cb_out c) |> <| cb_report := report_add path oldv newv reason conf (cb_report c) |>
  else reporting (report_skipLowConf skipped) c.
Definition rate_path (i : nat) : string := "workload[" +:+ Itoa (Z.of_nat i) +:+ "].arrival.rate_rps".
(** [mark]: a row that was scaled to a target of its own is not scaled again. *)
Definition scale_rate (fallback r : float64) (reason : string) (mark : bool) (c : Calibration) (i : nat) : Calibration :=
  if bool_decide (i ∈ cb_handled c) then c
  else
    match scn_Workload (cb_out c) !! i with
    | None => c
    | Some w =>
        let old := if fleb (rate_of w) f0 then fallback else rate_of w in
        let c := adjust ConfidenceHigh (fieldEmptyFloat old) (rate_path i) (rate_path i +:+ " (policy/confidence)") (FRate i)
                   (FloatValue old) (FloatValue (fmul old r)) reason c in
        if mark && shouldApply overwrite (fieldEmptyFloat old) ConfidenceHigh floor
        then c <| cb_handled := {[i]} ∪ cb_handled c |> else c
    end.
Definition calibrate_target (c : Calibration) (tw : nat * WorkloadTargetObservation) : Calibration :=
  let '(ti, wt) := tw in
  match wt_ThroughputRPS wt with
  | None => c
  | Some obsRate =>
      let idxs := matchingWorkloadIndices (cb_out c) wt in
      let row := "workload_targets[" +:+ Itoa (Z.of_nat ti) +:+ "]: " in
      if len idxs =? 0 then reporting (report_ambiguous (row +:+ "no workload row matched To=")) c
      else
        let predRate := rates_of (cb_out c) idxs in
        if fltb predRate eps9
        then reporting (report_warn (row +:+ "matched workloads have zero configured rate; skipped")) c
        else foldl (scale_rate (fdiv obsRate (f64_of_Z (len idxs))) (clampScale (fdiv obsRate predRate) minS maxS)
                      "scale to workload_targets throughput vs configured ingress split" true) c idxs
  end.
Definition calibrate_ingress (pred : option EngineRunMetrics) (obs : ObservedMetrics) (predIngress : float64)
    (mixedTraffic : bool) (c : Calibration) : Calibration :=
  let simulator := String.eqb (ow_Source (om_Window obs)) "simulator_run_metrics" in
  let sl := sumIngressLikeArrivalRPS (cb_out c) in
  let '(denom, c) :=
    if mixedTraffic && negb simulator && fgt sl eps9
    then (sl, reporting (report_ambiguous "mixed workload traffic_class: global throughput ratio uses sum of ingress-like rates only as denominator (use workload_targets to disambiguate)") c)
    else (predIngress, c) in
  match go_IngressThroughputRPS (om_Global obs) with
  | None => c
  | Some v =>
      match pred with
      | Some _ =>
          if fgt denom eps9 then
            let r := clampScale (fdiv v denom) minS maxS in
            let '(idxs, report) :=
              if mixedTraffic && simulator then
                let idxs := allWorkloadIndices (cb_out c) (cb_handled c) in
                (idxs, if 1 <? len idxs then report_ambiguous "simulator_run_metrics with mixed traffic classes: scaling all workloads by global ingress ratio to preserve golden-run compatibility" (cb_report c)
                 else cb_report c)
              else ingressWorkloadIndices (cb_out c) (cb_handled c) (cb_report c) in
            foldl (scale_rate (fdiv v (f64_of_Z (Z.max 1 (len idxs)))) r
                     "scale ingress RPS to match observed global throughput vs predicted" false)
              (c <| cb_report := report |>) idxs
          else reporting (report_warn "predicted ingress throughput missing; skipped global workload rate ratio") c
      | None => reporting (report_warn "predicted ingress throughput missing; skipped global workload rate ratio") c
      end
  end.
Definition ep_name (eo : EndpointObservation) (path : string) : string := eo_ServiceID eo +:+ ":" +:+ path.
Definition scale_cpu (eo : EndpointObservation) (r : float64) (si : nat) (c : Calibration) (ie : nat * Endpoint) : Calibration :=
  let '(ei, ep) := ie in
  let old := ep_MeanCPUMs ep in
  let path := ep_name eo (ep_Path ep) +:+ ".mean_cpu_ms (service rollup)" in
  adjust ConfidenceMedium (fieldEmptyFloat old) path path (FMeanCPU si ei) (FloatValue old) (FloatValue (fmul old r))
    "align processing latency using service-level processing mean" c.
Definition calibrate_processing (pred : EngineRunMetrics) (c : Calibration) (eo : EndpointObservation) : Calibration :=
  match eo_ProcessingLatencyMeanMs eo with
  | None => c
  | Some v =>
      if is_empty (eo_ServiceID eo) then c
      else
        let '(denom, report) := resolveProcessingDenom pred eo (cb_out c) (cb_report c) in
        let c := c <| cb_report := report |> in
        if fltb denom eps6 then c
        else
          let r := clampScale (fdiv v denom) minS maxS in
          if any_path (eo_EndpointPath eo) then
            match em_ServiceMetrics pred !! eo_ServiceID eo, findService (cb_out c) (eo_ServiceID eo) with
            | Some _, Some (si, svc) => foldl (scale_cpu eo r si) c (imap pair (svc_Endpoints svc))
            | _, _ => c
            end
          else
            match findEndpoint (cb_out c) (eo_ServiceID eo) (eo_EndpointPath eo) with
            | None => c
            | Some (si, ei, ep) =>
                let old := ep_MeanCPUMs ep in
                let path := ep_name eo (eo_EndpointPath eo) +:+ ".mean_cpu_ms" in
                adjust ConfidenceMedium (fieldEmptyFloat old) path path (FMeanCPU si ei) (FloatValue old)
                  (FloatValue (fmul old r)) "align processing latency (heuristic: CPU scales with observed processing mean)" c
            end
  end.
Definition calibrate_residual (c : Calibration) (eo : EndpointObservation) : Calibration :=
  if is_empty (eo_ServiceID eo) || any_path (eo_EndpointPath eo) then c
  else
    match findEndpoint (cb_out c) (eo_ServiceID eo) (eo_EndpointPath eo) with
    | None => c
    | Some (si, ei, ep) =>
        let qw := default f0 (eo_QueueWaitMeanMs eo) in
        let pl := default f0 (eo_ProcessingLatencyMeanMs eo) in
        if fgt qw (fmul pl (f64_lit 5 10)) && fgt qw f0 then
          let old := lat_Mean (ep_NetLatencyMs ep) in
          let path := ep_name eo (eo_EndpointPath eo) +:+ ".net_latency_ms.mean" in
          adjust ConfidenceLow (fieldEmptyFloat old) path path (FNetLatency si ei) (FloatValue old)
            (FloatValue (fadd old (fmul qw (f64_lit 15 100))))
            "increment net latency mean to reflect elevated queue wait (partial residual)" c
        else c
    end.
Definition calibrate_failure (c : Calibration) (eo : EndpointObservation) : Calibration :=
  match findEndpoint (cb_out c) (eo_ServiceID eo) (eo_EndpointPath eo), eo_RequestCount eo, eo_ErrorCount eo with
  | Some (si, ei, ep), Some requests, Some errors =>
      if requests <=? 10 then c
      else
        let path := ep_name eo (eo_EndpointPath eo) +:+ ".failure_rate" in
        adjust ConfidenceMedium (fieldEmptyFloat (ep_FailureRate ep)) path path (FFailureRate si ei)
          (FloatValue (ep_FailureRate ep)) (FloatValue (fdiv (f64_of_Z errors) (f64_of_Z requests)))
          "empirical error rate from observation window" c
  | _, _, _ => c
  end.
Definition calibrate_call (edge : DownstreamEdgeObservation) (si ei : nat) (c : Calibration) (id : nat * DownstreamCall)
    : Calibration :=
  let '(di, ds) := id in
  if negb (String.eqb (TrimSpace (ds_To ds)) (TrimSpace (de_To edge))) then c
  else
    let c := match de_ProbabilityHint edge with
      | Some v =>
          let path := "downstream.probability " +:+ de_To edge in
          adjust ConfidenceLow (fieldEmptyFloat (ds_Probability ds)) path path (FProbability si ei di)
            (FloatValue (ds_Probability ds)) (FloatValue v) "observed edge share" c
      | None => c
      end in
    match de_CallCountMeanHint edge with
    | Some v =>
        let path := "downstream.call_count_mean " +:+ de_To edge in
        adjust ConfidenceLow (fieldEmptyFloat (ds_CallCountMean ds)) path path (FCallCount si ei di)
          (FloatValue (ds_CallCountMean ds)) (FloatValue v) "observed fan-out mean" c
    | None => c
    end.
Definition calibrate_edge (c : Calibration) (edge : DownstreamEdgeObservation) : Calibration :=
  match findEndpoint (cb_out c) (de_FromService edge) (de_FromPath edge) with
  | None => c
  | Some (si, ei, ep) => foldl (calibrate_call edge si ei) c (imap pair (ep_Downstream ep))
  end.
(** Twice the depth and some headroom. *)
Definition capacity_hint (depth : float64) (headroom : Z) : Z :=
  let candidate := wrap64 (f64_to_int (fmul depth (f64_of_Z 2)) + headroom) in if candidate <? 1 then 1 else candidate.
Definition calibrate_queue (c : Calibration) (qb : QueueBrokerObservation) : Calibration :=
  match findServiceByKind (cb_out c) "queue" (qo_BrokerService qb) ≫=
        λ x, q ← svc_Behavior x.2 ≫= sb_Queue; Some (x.1, q) with
  | None => reporting (report_skip ("queue broker " +:+ qo_BrokerService qb +:+ " not found")) c
  | Some (si, q) =>
      match qo_DepthMean qb with
      | Some depth =>
          if fgt depth f0 then
            let path := "service[" +:+ qo_BrokerService qb +:+ "].behavior.queue.capacity" in
            adjust ConfidenceLow (fieldEmptyInt (qb_Capacity q)) path path (FQueueCapacity si) (IntValue (qb_Capacity q))
              (IntValue (capacity_hint depth 10)) "capacity hint from observed mean depth (2x + headroom)" c
          else c
      | None => c
      end
  end.
Definition calibrate_topic (c : Calibration) (tb : TopicBrokerObservation) : Calibration :=
  match findServiceByKind (cb_out c) "topic" (to_BrokerService tb) ≫=
        λ x, t ← svc_Behavior x.2 ≫= sb_Topic; Some (x.1, t) with
  | None => c
  | Some (si, t) =>
      match to_BacklogDepth tb with
      | Some depth =>
          if fgt depth f0 then
            let path := "service[" +:+ to_BrokerService tb +:+ "].behavior.topic.capacity" in
            adjust ConfidenceLow (fieldEmptyInt (tb_Capacity t)) path path (FTopicCapacity si) (IntValue (tb_Capacity t))
              (IntValue (capacity_hint depth 32)) "subscriber backlog hint" c
          else c
      | None => c
      end
  end.
Definition calibrate_cache (c : Calibration) (o : CacheObservation) : Calibration :=
  match findService (cb_out c) (ca_ServiceID o) ≫= λ x, k ← svc_Behavior x.2 ≫= sb_Cache; Some (x.1, k),
        ca_HitCount o, ca_MissCount o with
  | Some (si, k), Some hits, Some misses =>
      let total := wrap64 (hits + misses) in
      if total <=? 0 then c
      else
        let path := "service[" +:+ ca_ServiceID o +:+ "].behavior.cache.hit_rate" in
        adjust ConfidenceMedium (fieldEmptyFloat (cab_HitRate k)) path path (FHitRate si) (FloatValue (cab_HitRate k))
          (FloatValue (fdiv (f64_of_Z hits) (f64_of_Z total))) "empirical hit ratio" c
  | _, _, _ => c
  end.
Definition calibrate_stages (pred : option EngineRunMetrics) (obs : ObservedMetrics) (base : Scenario) : Calibration :=
  let '(predIngress, report) := predictedIngressRPS pred obs base empty_report in
  let c := mkCalibration base report ∅ in
  let mixedTraffic := hasMixedTrafficClasses base in
  let c := foldl calibrate_target c (imap pair (om_WorkloadTargets obs)) in
  let c := calibrate_ingress pred obs predIngress mixedTraffic c in
  let c := match pred with Some pred => foldl (calibrate_processing pred) c (om_Endpoints obs) | None => c end in
  let c := foldl calibrate_residual c (om_Endpoints obs) in
  let c := foldl calibrate_failure c (om_Endpoints obs) in
  let c := foldl calibrate_edge c (om_DownstreamEdges obs) in
  let c := foldl calibrate_queue c (om_QueueBrokers obs) in
  let c := foldl calibrate_topic c (om_TopicBrokers obs) in
  foldl calibrate_cache c (om_Caches obs).
End Stages.

(** * The whole *)

Section Yaml.
(** [yaml.Marshal] and the decoding of YAML. *)
Context (marshal : Scenario → go string) (unmarshal : string → go Scenario).
Definition cloneScenarioViaYAML (s : Scenario) : go Scenario :=
  let! raw := marshal s in ParseScenarioYAML unmarshal raw.
Definition CalibrateScenario (base : option Scenario) (obs : option ObservedMetrics) (opts : option CalibrateOptions)
    : go (Scenario * CalibrationReport) :=
  match base, obs with
  | None, _ => Fail "base scenario is nil"
  | _, None => Fail "observed metrics is nil"
  | Some base, Some obs =>
      let opts := default defaultCalibrateOptions opts in
      match cloneScenarioViaYAML base with
      | Fail e => Fail ("clone scenario: " +:+ e)
      | Panic => Panic
      | Ok out =>
          let minS := if fleb (cal_MinScaleFactor opts) f0 then f64_lit 25 100 else cal_MinScaleFactor opts in
          let maxS := if fleb (cal_MaxScaleFactor opts) f0 then f64_of_Z 4 else cal_MaxScaleFactor opts in
          let floor := if fltb (cal_ConfidenceFloor opts) f0 then f0 else cal_ConfidenceFloor opts in
          let c := calibrate_stages (cal_Overwrite opts) floor minS maxS (cal_PredictedRun opts) obs out in
          Ok (cb_out c, cb_report c)
      end
  end.
End Yaml.
