(* ===== verification/CalibrateSpec.v ===== *)
(** What calibration may change: only its fields, only what the policy allows, and
    nothing without saying so. *)
From S2P Require Import Prelude GoFloat Utils Policy Config BrokerQueue RunMetrics RunStore SimState ServiceModel EngineMetrics CalibrationData Calibrate.
From Stdlib Require Import SpecFloat.
#[local] Open Scope string_scope.
#[local] Open Scope list_scope.
#[local] Open Scope Z_scope.

(** * Reading a field *)

Definition endpoint_at (si ei : nat) (s : Scenario) : option Endpoint :=
  svc ← scn_Services s !! si; svc_Endpoints svc !! ei.
Definition call_at (si ei di : nat) (s : Scenario) : option DownstreamCall :=
  ep ← endpoint_at si ei s; ep_Downstream ep !! di.
Definition behavior_at (si : nat) (s : Scenario) : option ServiceBehavior :=
  svc ← scn_Services s !! si; svc_Behavior svc.
Definition get (f : Field) (s : Scenario) : option FieldValue :=
  match f with
  | FRate i => FloatValue ∘ rate_of <$> scn_Workload s !! i
  | FMeanCPU si ei => FloatValue ∘ ep_MeanCPUMs <$> endpoint_at si ei s
  | FNetLatency si ei => FloatValue ∘ lat_Mean ∘ ep_NetLatencyMs <$> endpoint_at si ei s
  | FFailureRate si ei => FloatValue ∘ ep_FailureRate <$> endpoint_at si ei s
  | FProbability si ei di => FloatValue ∘ ds_Probability <$> call_at si ei di s
  | FCallCount si ei di => FloatValue ∘ ds_CallCountMean <$> call_at si ei di s
  | FQueueCapacity si => IntValue ∘ qb_Capacity <$> (behavior_at si s ≫= sb_Queue)
  | FTopicCapacity si => IntValue ∘ tb_Capacity <$> (behavior_at si s ≫= sb_Topic)
  | FHitRate si => FloatValue ∘ cab_HitRate <$> (behavior_at si s ≫= sb_Cache)
  end.
#[export] Instance field_eq_dec : EqDecision Field.
Proof. solve_decision. Defined.

Lemma endpoint_at_endpoint si ei f si' ei' s : endpoint_at si' ei' (change_endpoint si ei f s)
  = if decide (si = si' ∧ ei = ei') then f <$> endpoint_at si' ei' s else endpoint_at si' ei' s.
Proof.
  unfold endpoint_at, change_endpoint. cbn [scn_Services]. destruct (decide (si = si')) as [->|Hs].
  - cbn. rewrite list_lookup_alter_eq. destruct (scn_Services s !! si') as [svc|]; [cbn|by destruct (decide _)].
    destruct (decide (ei = ei')) as [->|He]; [rewrite decide_True by done; apply list_lookup_alter_eq|].
    rewrite decide_False by naive_solver. by apply list_lookup_alter_ne.
  - simpl. rewrite list_lookup_alter_ne by done. by rewrite decide_False by naive_solver.
Qed.
Lemma behavior_at_endpoint si ei f si' s : behavior_at si' (change_endpoint si ei f s) = behavior_at si' s.
Proof.
  unfold behavior_at, change_endpoint. simpl. destruct (decide (si = si')) as [->|Hs].
  - rewrite list_lookup_alter_eq. by destruct (scn_Services s !! si').
  - by rewrite list_lookup_alter_ne.
Qed.
Lemma behavior_at_behavior si f si' s : behavior_at si' (change_behavior si f s)
  = if decide (si = si') then f <$> behavior_at si' s else behavior_at si' s.
Proof.
  unfold behavior_at, change_behavior. simpl. destruct (decide (si = si')) as [->|Hs].
  - rewrite list_lookup_alter_eq. by destruct (scn_Services s !! si').
  - by rewrite list_lookup_alter_ne.
Qed.
Lemma endpoint_at_behavior si f si' ei' s : endpoint_at si' ei' (change_behavior si f s) = endpoint_at si' ei' s.
Proof.
  unfold endpoint_at, change_behavior. simpl. destruct (decide (si = si')) as [->|Hs].
  - rewrite list_lookup_alter_eq. by destruct (scn_Services s !! si').
  - by rewrite list_lookup_alter_ne.
Qed.
Lemma call_at_call si ei di f si' ei' di' s : call_at si' ei' di' (change_call si ei di f s)
  = if decide (si = si' ∧ ei = ei' ∧ di = di') then f <$> call_at si' ei' di' s else call_at si' ei' di' s.
Proof.
  unfold call_at, change_call. rewrite endpoint_at_endpoint. destruct (decide (si = si' ∧ ei = ei')) as [[-> ->]|H].
  - destruct (endpoint_at si' ei' s) as [ep|]; [cbn|by destruct (decide _)].
    destruct (decide (di = di')) as [->|Hd]; [rewrite decide_True by done; apply list_lookup_alter_eq|].
    rewrite decide_False by naive_solver. by apply list_lookup_alter_ne.
  - by rewrite decide_False by naive_solver.
Qed.
(** Assigning to a field leaves the others. *)
Lemma get_put_ne f g v s : f ≠ g → get g (put f v s) = get g s.
Proof.
  intros Hne.
  destruct f, g; simpl; unfold call_at, change_call;
    rewrite ?endpoint_at_endpoint, ?behavior_at_behavior, ?behavior_at_endpoint, ?endpoint_at_behavior; try done.
  all: try (rewrite list_lookup_alter_ne by congruence; done).
  all: try (case_decide as Hd; [destruct_and?; simplify_eq|done]; try congruence).
  all: try (destruct (endpoint_at _ _ s) as [ep|]; simpl; [|done]).
  all: try (destruct (behavior_at _ s) as [b|]; simpl; [|done]).
  all: try done.
  all: try (by destruct (sb_Queue b)); try (by destruct (sb_Topic b)); try (by destruct (sb_Cache b)).
  all: try (match goal with |- context [alter ?h ?i ?l !! ?j] => destruct (decide (i = j)) as [->|] end;
    [rewrite list_lookup_alter_eq|rewrite list_lookup_alter_ne by done; done]; try congruence;
    by destruct (ep_Downstream ep !! _)).
Qed.

(** * Everything but the fields *)

Definition erase_call (d : DownstreamCall) : DownstreamCall := d <| ds_Probability := f0 |> <| ds_CallCountMean := f0 |>.
Definition erase_endpoint (ep : Endpoint) : Endpoint :=
  ep <| ep_MeanCPUMs := f0 |> <| ep_NetLatencyMs := (ep_NetLatencyMs ep) <| lat_Mean := f0 |> |> <| ep_FailureRate := f0 |>
     <| ep_Downstream := erase_call <$> ep_Downstream ep |>.
Definition erase_behavior (b : ServiceBehavior) : ServiceBehavior :=
  b <| sb_Queue := (λ q, q <| qb_Capacity := 0 |>) <$> sb_Queue b |>
    <| sb_Topic := (λ t, t <| tb_Capacity := 0 |>) <$> sb_Topic b |>
    <| sb_Cache := (λ c, c <| cab_HitRate := f0 |>) <$> sb_Cache b |>.
Definition erase_service (svc : Service) : Service :=
  svc <| svc_Endpoints := erase_endpoint <$> svc_Endpoints svc |> <| svc_Behavior := erase_behavior <$> svc_Behavior svc |>.
Definition erase (s : Scenario) : Scenario :=
  s <| scn_Workload := (λ w, w <| wl_Arrival := (wl_Arrival w) <| ar_RateRPS := f0 |> |>) <$> scn_Workload s |>
    <| scn_Services := erase_service <$> scn_Services s |>.
Lemma fmap_alter_same {A B} (h : A → B) (g : A → A) (i : nat) (l : list A) : (∀ x, h (g x) = h x) → h <$> alter g i l = h <$> l.
Proof.
  intros H. apply list_eq. intros j. rewrite !list_lookup_fmap. destruct (decide (i = j)) as [->|Hne].
  - rewrite list_lookup_alter_eq. destruct (l !! j); simpl; [by rewrite H|done].
  - by rewrite list_lookup_alter_ne.
Qed.
Lemma erase_change_endpoint si ei f s : (∀ ep, erase_endpoint (f ep) = erase_endpoint ep) →
  erase (change_endpoint si ei f s) = erase s.
Proof.
  intros H. unfold erase, change_endpoint. cbn. f_equal. apply fmap_alter_same. intros svc. unfold erase_service. cbn.
  f_equal. by apply fmap_alter_same.
Qed.
Lemma erase_change_behavior si f s : (∀ b, erase_behavior (f b) = erase_behavior b) → erase (change_behavior si f s) = erase s.
Proof.
  intros H. unfold erase, change_behavior. cbn. f_equal. apply fmap_alter_same. intros svc. unfold erase_service. cbn.
  f_equal. destruct (svc_Behavior svc); cbn; [by rewrite H|done].
Qed.
Lemma erase_put f v s : erase (put f v s) = erase s.
Proof.
  destruct f; cbn [put]; try (apply erase_change_endpoint; intros [] ; done).
  - unfold erase. cbn. f_equal. by apply fmap_alter_same.
  - apply erase_change_endpoint. intros ep. unfold erase_endpoint. cbn. f_equal. by apply fmap_alter_same.
  - apply erase_change_endpoint. intros ep. unfold erase_endpoint. cbn. f_equal. by apply fmap_alter_same.
  - apply erase_change_behavior. intros b. unfold erase_behavior. cbn. f_equal. by destruct (sb_Queue b).
  - apply erase_change_behavior. intros b. unfold erase_behavior. cbn. f_equal. by destruct (sb_Topic b).
  - apply erase_change_behavior. intros b. unfold erase_behavior. cbn. f_equal. by destruct (sb_Cache b).
Qed.

(** * Calibration as a sequence of allowed changes *)

Section Steps.
Context (overwrite : OverwritePolicy) (floor minS maxS : float64).
(** [empty] says of a field's value whether the policy may fill it; a rate that is not
    positive is filled by the observed one. *)
Definition tested (v : option FieldValue) (empty : bool) : Prop :=
  match v with
  | Some (FloatValue x) => empty = fieldEmptyFloat x ∨ fleb x f0 = true
  | Some (IntValue n) => empty = fieldEmptyInt n
  | None => False
  end.
(** How sure calibration is of what it finds for a field: rates come from measured
    throughput; CPU times, failure and hit rates from means and counts; the rest are hints. *)
Definition field_confidence (f : Field) : ConfidenceLevel :=
  match f with
  | FRate _ => ConfidenceHigh
  | FMeanCPU _ _ | FFailureRate _ _ | FHitRate _ => ConfidenceMedium
  | FNetLatency _ _ | FProbability _ _ _ | FCallCount _ _ _ | FQueueCapacity _ | FTopicCapacity _ => ConfidenceLow
  end.
Inductive cal_step : Calibration → Calibration → Prop :=
  | cal_note c c' :
      cb_out c' = cb_out c → cr_Changes (cb_report c') = cr_Changes (cb_report c) → cal_step c c'
  | cal_change c c' f empty fc :
      tested (get f (cb_out c)) empty → fc_Confidence fc = field_confidence f →
      shouldApply overwrite empty (fc_Confidence fc) floor = true →
      cb_out c' = put f (fc_NewValue fc) (cb_out c) → cr_Changes (cb_report c') = cr_Changes (cb_report c) ++ [fc] → cal_step c c'.
Abbreviation steps := (rtc cal_step).

Lemma note c c' : cb_out c' = cb_out c → cr_Changes (cb_report c') = cr_Changes (cb_report c) → steps c c'.
Proof. intros. apply rtc_once. by apply cal_note. Qed.
Lemma note_refl c : steps c c.
Proof. apply rtc_refl. Qed.
Lemma steps_adjust conf empty path skipped f oldv newv reason c `{!TCEq conf (field_confidence f)} :
  tested (get f (cb_out c)) empty →
  steps c (adjust overwrite floor conf empty path skipped f oldv newv reason c).
Proof.
  intros Ht. unfold adjust. destruct (shouldApply overwrite empty conf floor) eqn:E; [|by apply note].
  apply rtc_once. eapply (cal_change _ _ f empty (mkFieldChange path oldv newv reason conf)); try done. by apply TCEq_eq.
Qed.
Ltac step_adjust := apply steps_adjust; [apply _|].
Lemma steps_foldl {A} (h : Calibration → A → Calibration) l : (∀ c x, steps c (h c x)) → ∀ c, steps c (foldl h c l).
Proof. intros H. induction l as [|x l IH]; intros c; simpl; [apply rtc_refl|]. etrans; [apply H|apply IH]. Qed.
(** A loop over rows that were read before it: an iteration leaves what the others need. *)
Lemma steps_rows {A} (h : Calibration → nat * A → Calibration) (P : nat → A → Scenario → Prop) l :
  (∀ c i x, P i x (cb_out c) → steps c (h c (i, x)) ∧ ∀ j y, j ≠ i → P j y (cb_out c) → P j y (cb_out (h c (i, x)))) →
  ∀ c, (∀ i x, l !! i = Some x → P i x (cb_out c)) → steps c (foldl h c (imap pair l)).
Proof.
  intros H. assert (G : ∀ l k c, (∀ i x, l !! i = Some x → P (k + i)%nat x (cb_out c)) →
    steps c (foldl h c (imap (λ i, pair (k + i)%nat) l))); [|intros c Hc; by apply (G l 0%nat)].
  clear l. induction l as [|x l IH]; intros k c Hc; simpl; [apply rtc_refl|].
  destruct (H c (k + 0)%nat x) as [H1 H2]; [by apply Hc|]. etrans; [exact H1|].
  replace (imap ((λ i : nat, pair (k + i)%nat) ∘ S) l) with (imap (λ i, pair (S k + i)%nat) l).
  2:{ apply imap_ext. intros i y _. simpl. by rewrite Nat.add_succ_r. }
  apply IH. intros i y Hy. apply H2; [lia|]. replace (S k + i)%nat with (k + S i)%nat by lia. by apply Hc.
Qed.
Lemma put_other f g v s x : f ≠ g → get g s = x → get g (put f v s) = x.
Proof. intros Hne <-. by apply get_put_ne. Qed.
Lemma adjust_other conf empty path skipped f oldv newv reason c g x : f ≠ g → get g (cb_out c) = x →
  get g (cb_out (adjust overwrite floor conf empty path skipped f oldv newv reason c)) = x.
Proof. intros Hne Hg. unfold adjust. destruct (shouldApply _ _ _ _); [by apply put_other|done]. Qed.

Lemma steps_rate fallback r reason mark c i : steps c (scale_rate overwrite floor fallback r reason mark c i).
Proof.
  unfold scale_rate. case_bool_decide; [apply note_refl|]. destruct (scn_Workload (cb_out c) !! i) as [w|] eqn:E; [|apply note_refl].
  cbv zeta. set (old := if fleb (rate_of w) f0 then fallback else rate_of w).
  assert (Ht : tested (get (FRate i) (cb_out c)) (fieldEmptyFloat old)).
  { simpl. rewrite E. simpl. unfold old. destruct (fleb (rate_of w) f0); auto. }
  etrans; [step_adjust; exact Ht|].
  destruct (mark && _); [by apply note|apply note_refl].
Qed.
Lemma steps_target c tw : steps c (calibrate_target overwrite floor minS maxS c tw).
Proof.
  destruct tw as [ti wt]. unfold calibrate_target. destruct (wt_ThroughputRPS wt) as [v|]; [|apply note_refl]. cbv zeta.
  destruct (_ =? 0); [by apply note|]. destruct (fltb _ eps9); [by apply note|]. apply steps_foldl. intros. apply steps_rate.
Qed.
Lemma ingress_changes out handled r : cr_Changes (snd (ingressWorkloadIndices out handled r)) = cr_Changes r.
Proof. unfold ingressWorkloadIndices. cbv zeta. destruct (_ <? _), (_ <? _); done. Qed.
Lemma steps_ingress pred obs p mixed c : steps c (calibrate_ingress overwrite floor minS maxS pred obs p mixed c).
Proof.
  unfold calibrate_ingress. cbv zeta.
  set (dc := if (_ : bool) then _ else (p, c)).
  assert (H0 : steps c dc.2) by (unfold dc; destruct (_ && _ && _); [by apply note|apply note_refl]).
  clearbody dc. destruct dc as [denom c1]. simpl in H0. etrans; [exact H0|]. clear H0 c.
  destruct (go_IngressThroughputRPS _) as [v|]; [|apply note_refl]. destruct pred as [m|]; [|by apply note].
  destruct (fltb eps9 denom); [|by apply note].
  set (ir := if mixed && (_ : bool) then (_ : list nat * CalibrationReport) else _).
  assert (Hr : cr_Changes ir.2 = cr_Changes (cb_report c1)).
  { unfold ir. destruct (mixed && _); [|apply ingress_changes]. simpl. by destruct (1 <? _). }
  clearbody ir. destruct ir as [idxs report]. simpl in Hr. etrans; [by apply (note c1 (c1 <| cb_report := report |>))|].
  apply steps_foldl. intros. apply steps_rate.
Qed.
Lemma found_endpoint sc sid path si ei ep : findEndpoint sc sid path = Some (si, ei, ep) → endpoint_at si ei sc = Some ep.
Proof.
  unfold findEndpoint, findService, endpoint_at. intros H. destruct (list_find _ (scn_Services sc)) as [[i svc]|] eqn:E; [|done].
  simpl in H. destruct (list_find _ (svc_Endpoints svc)) as [[j e]|] eqn:E2; [|done]. simpl in H. simplify_eq.
  apply list_find_Some in E as (-> & _). by apply list_find_Some in E2 as (? & _).
Qed.
Lemma resolve_changes pred eo out r : cr_Changes (snd (resolveProcessingDenom pred eo out r)) = cr_Changes r.
Proof.
  unfold resolveProcessingDenom. cbv zeta. destruct (any_path _); [by destruct (_ !! _)|].
  destruct (findEndpointRequestStats _ _ _ ≫= _); [done|]. destruct (_ !! _); [destruct (fltb eps6 _); [done|]|]; by destruct (fltb _ _).
Qed.
Lemma steps_processing pred c eo : steps c (calibrate_processing overwrite floor minS maxS pred c eo).
Proof.
  unfold calibrate_processing. destruct (eo_ProcessingLatencyMeanMs eo) as [v|]; [|apply note_refl].
  destruct (is_empty _); [apply note_refl|]. pose proof (resolve_changes pred eo (cb_out c) (cb_report c)) as Hr.
  destruct (resolveProcessingDenom pred eo (cb_out c) (cb_report c)) as [denom report]. simpl in Hr. cbv zeta.
  etrans; [by apply (note c (c <| cb_report := report |>))|]. set (c1 := c <| cb_report := report |>). clearbody c1. clear Hr c.
  destruct (fltb denom eps6); [apply note_refl|]. set (r := clampScale _ _ _). clearbody r. destruct (any_path _).
  - destruct (em_ServiceMetrics pred !! _); [|apply note_refl].
    destruct (findService (cb_out c1) (eo_ServiceID eo)) as [[si svc]|] eqn:E; [|apply note_refl].
    apply list_find_Some in E as (Hsi & _).
    apply (steps_rows _ (λ ei ep s, get (FMeanCPU si ei) s = Some (FloatValue (ep_MeanCPUMs ep)))).
    + intros c0 ei ep Hg. split; [step_adjust; rewrite Hg; by left|]. intros j ep' Hj Hg'.
      apply adjust_other; [congruence|done].
    + intros ei ep Hep. simpl. unfold endpoint_at. rewrite Hsi. simpl. by rewrite Hep.
  - destruct (findEndpoint _ _ _) as [[[si ei] ep]|] eqn:E; [|apply note_refl]. apply found_endpoint in E.
    step_adjust. simpl. rewrite E. by left.
Qed.
Lemma steps_residual c eo : steps c (calibrate_residual overwrite floor c eo).
Proof.
  unfold calibrate_residual. destruct (_ || _); [apply note_refl|].
  destruct (findEndpoint _ _ _) as [[[si ei] ep]|] eqn:E; [|apply note_refl]. apply found_endpoint in E. cbv zeta.
  destruct (_ && _); [|apply note_refl]. step_adjust. simpl. rewrite E. by left.
Qed.
Lemma steps_failure c eo : steps c (calibrate_failure overwrite floor c eo).
Proof.
  unfold calibrate_failure. destruct (findEndpoint _ _ _) as [[[si ei] ep]|] eqn:E; [|apply note_refl].
  destruct (eo_RequestCount eo) as [n|], (eo_ErrorCount eo) as [e|]; try apply note_refl. destruct (_ <=? _); [apply note_refl|].
  apply found_endpoint in E. step_adjust. simpl. rewrite E. by left.
Qed.
Definition call_row (si ei di : nat) (ds : DownstreamCall) (s : Scenario) : Prop :=
  get (FProbability si ei di) s = Some (FloatValue (ds_Probability ds))
  ∧ get (FCallCount si ei di) s = Some (FloatValue (ds_CallCountMean ds)).
Lemma steps_call edge si ei c di ds : call_row si ei di ds (cb_out c) →
  steps c (calibrate_call overwrite floor edge si ei c (di, ds))
  ∧ ∀ j y, j ≠ di → call_row si ei j y (cb_out c) →
      call_row si ei j y (cb_out (calibrate_call overwrite floor edge si ei c (di, ds))).
Proof.
  intros [Hp Hc]. unfold calibrate_call. destruct (negb _); [by split; [apply note_refl|]|]. cbv zeta.
  set (c1 := match de_ProbabilityHint edge with Some _ => _ | None => _ end).
  assert (H1 : steps c c1 ∧ get (FCallCount si ei di) (cb_out c1) = Some (FloatValue (ds_CallCountMean ds))
    ∧ ∀ j y, j ≠ di → call_row si ei j y (cb_out c) → call_row si ei j y (cb_out c1)).
  { unfold c1. destruct (de_ProbabilityHint edge) as [v|]; [|by split_and!; [apply note_refl|..]]. split_and!.
    - step_adjust. rewrite Hp. by left.
    - by apply adjust_other.
    - intros j y Hj [A B]. split; apply adjust_other; congruence. }
  clearbody c1. destruct H1 as (S1 & G1 & K1). destruct (de_CallCountMeanHint edge) as [v|]; [|done]. split.
  - etrans; [exact S1|]. step_adjust. rewrite G1. by left.
  - intros j y Hj Hr. destruct (K1 j y Hj Hr) as [A B]. split; apply adjust_other; congruence.
Qed.
Lemma steps_edge c edge : steps c (calibrate_edge overwrite floor c edge).
Proof.
  unfold calibrate_edge. destruct (findEndpoint _ _ _) as [[[si ei] ep]|] eqn:E; [|apply note_refl]. apply found_endpoint in E.
  apply (steps_rows _ (call_row si ei)); [intros; by apply steps_call|]. intros di ds Hd.
  unfold call_row. simpl. unfold call_at. rewrite E. simpl. by rewrite Hd.
Qed.
Lemma found_kind sc kind id si svc : findServiceByKind sc kind id = Some (si, svc) → scn_Services sc !! si = Some svc.
Proof. intros H. by apply list_find_Some in H as (? & _). Qed.
Lemma steps_queue c qb : steps c (calibrate_queue overwrite floor c qb).
Proof.
  unfold calibrate_queue. destruct (findServiceByKind _ _ _) as [[si svc]|] eqn:E; simpl; [|by apply note]. apply found_kind in E.
  destruct (svc_Behavior svc) as [b|] eqn:Eb; simpl; [|by apply note].
  destruct (sb_Queue b) as [q|] eqn:Eq; simpl; [|by apply note].
  destruct (qo_DepthMean qb) as [d|]; [|apply note_refl]. destruct (fltb f0 d); [|apply note_refl].
  step_adjust. simpl. unfold behavior_at. rewrite E. simpl. rewrite Eb. simpl. by rewrite Eq.
Qed.
Lemma steps_topic c tb : steps c (calibrate_topic overwrite floor c tb).
Proof.
  unfold calibrate_topic. destruct (findServiceByKind _ _ _) as [[si svc]|] eqn:E; simpl; [|apply note_refl]. apply found_kind in E.
  destruct (svc_Behavior svc) as [b|] eqn:Eb; simpl; [|apply note_refl].
  destruct (sb_Topic b) as [q|] eqn:Eq; simpl; [|apply note_refl].
  destruct (to_BacklogDepth tb) as [d|]; [|apply note_refl]. destruct (fltb f0 d); [|apply note_refl].
  step_adjust. simpl. unfold behavior_at. rewrite E. simpl. rewrite Eb. simpl. by rewrite Eq.
Qed.
Lemma steps_cache c o : steps c (calibrate_cache overwrite floor c o).
Proof.
  unfold calibrate_cache. destruct (findService _ _) as [[si svc]|] eqn:E; simpl; [|apply note_refl].
  apply list_find_Some in E as (E & _). destruct (svc_Behavior svc) as [b|] eqn:Eb; simpl; [|apply note_refl].
  destruct (sb_Cache b) as [k|] eqn:Ek; simpl; [|apply note_refl].
  destruct (ca_HitCount o) as [h|], (ca_MissCount o) as [m|]; try apply note_refl. cbv zeta. destruct (_ <=? _); [apply note_refl|].
  step_adjust. simpl. unfold behavior_at. rewrite E. simpl. rewrite Eb. simpl. rewrite Ek. by left.
Qed.
Lemma predicted_changes pred obs out r : cr_Changes (snd (predictedIngressRPS pred obs out r)) = cr_Changes r.
Proof.
  unfold predictedIngressRPS. destruct pred as [p|]; [|done]. cbv zeta. destruct (fltb _ eps9); [|done].
  destruct (fltb _ eps9); [|done]. by destruct (list_find _ _) as [[]|].
Qed.
Ltac last_loop H := etrans; [|apply steps_foldl; intros; apply H].
Lemma steps_stages pred obs base :
  steps (mkCalibration base empty_report ∅) (calibrate_stages overwrite floor minS maxS pred obs base).
Proof.
  unfold calibrate_stages. pose proof (predicted_changes pred obs base empty_report) as Hp.
  destruct (predictedIngressRPS pred obs base empty_report) as [p report]. simpl in Hp. cbv zeta.
  last_loop steps_cache. last_loop steps_topic. last_loop steps_queue. last_loop steps_edge. last_loop steps_failure.
  last_loop steps_residual.
  etrans; [|destruct pred as [m|]; [apply steps_foldl; intros; apply steps_processing|apply note_refl]].
  etrans; [|apply steps_ingress].
  last_loop steps_target.
  by apply note.
Qed.

(** ** What such a sequence keeps *)

Lemma steps_erase c c' : steps c c' → erase (cb_out c') = erase (cb_out c).
Proof.
  induction 1 as [|c c1 c2 H _ IH]; [done|]. rewrite IH. destruct H as [c c1 E _|c c1 f empty fc _ _ _ E _]; rewrite E; [done|].
  apply erase_put.
Qed.
(** The report is a log of the changes: replaying it on the scenario gives the result. *)
Definition replay (s : Scenario) (log : list (Field * FieldChange)) : Scenario :=
  foldl (λ s l, put l.1 (fc_NewValue l.2) s) s log.
Lemma steps_prefix c c' : steps c c' → ∃ log, cr_Changes (cb_report c') = cr_Changes (cb_report c) ++ log.*2
  ∧ Forall (λ l, fc_Confidence l.2 = field_confidence l.1 ∧ ∃ empty, shouldApply overwrite empty (fc_Confidence l.2) floor = true) log
  ∧ cb_out c' = replay (cb_out c) log.
Proof.
  induction 1 as [c|c c1 c2 H _ (log & E & Hf & Ho)]; [exists []; by rewrite app_nil_r|].
  destruct H as [c c1 Eo Ec|c c1 f empty fc _ Hc Ha Eo Ec].
  - exists log. rewrite E, Ec. split; [done|]. split; [done|]. by rewrite Ho, Eo.
  - exists ((f, fc) :: log). rewrite E, Ec, <- app_assoc. split; [done|]. split; [constructor; eauto|].
    by rewrite Ho, Eo.
Qed.
(** A value that the policy may not fill. *)
Definition filled (v : FieldValue) : Prop :=
  match v with
  | FloatValue x => fleb x f0 = false ∧ fieldEmptyFloat x = false
  | IntValue n => 0 < n
  end.
Lemma tested_filled v empty : tested (Some v) empty → filled v → empty = false.
Proof. destruct v as [x|n]; simpl; [intros [->|H] [H1 H2]; congruence|]. intros -> Hn. unfold fieldEmptyInt. lia. Qed.
(** The fields the policy protects once they have a value: all of them, or those that
    calibration has only hints for. *)
Definition protected (f : Field) : Prop :=
  match overwrite with
  | OverwriteNever => True
  | OverwriteWhenHigherConfidence => field_confidence f = ConfidenceLow
  | OverwriteAlways => False
  end.
Lemma steps_kept c c' f v : protected f → steps c c' → get f (cb_out c) = Some v → filled v →
  get f (cb_out c') = Some v.
Proof.
  intros Hov H. induction H as [|c c1 c2 H _ IH]; [done|]. intros Hg Hv. apply IH; [|done].
  destruct H as [c c1 Eo _|c c1 g empty fc Ht Hc Ha Eo _]; rewrite Eo; [done|].
  destruct (decide (g = f)) as [->|Hne]; [|by apply put_other].
  rewrite Hg in Ht. rewrite (tested_filled _ _ Ht Hv) in Ha. unfold shouldApply in Ha. unfold protected in Hov.
  destruct (fltb (confidenceScore _) _); [done|]. destruct overwrite; [done| |done]. rewrite Hc, Hov in Ha. done.
Qed.
End Steps.

Lemma confidence_positive conf : fltb (confidenceScore conf) f0 = false.
Proof. by destruct conf; vm_compute. Qed.
Lemma applied_above_floor overwrite empty conf floor :
  shouldApply overwrite empty conf (if fltb floor f0 then f0 else floor) = true → fltb (confidenceScore conf) floor = false.
Proof.
  unfold shouldApply. destruct (fltb floor f0) eqn:E.
  - intros _. destruct (fltb (confidenceScore conf) floor) eqn:E2; [|done].
    pose proof (fltb_trans _ _ _ E2 E) as H. by rewrite confidence_positive in H.
  - rewrite E, orb_false_r. destruct (is_nan floor) eqn:En; [intros _|by destruct (fltb (confidenceScore conf) floor)].
    destruct (fltb (confidenceScore conf) floor) eqn:E2; [|done]. apply fltb_not_nan in E2 as [_ E2]. congruence.
Qed.

(** C20: for a scenario that its YAML text describes, calibration fails exactly when validation does.
    Otherwise the result has the hosts, services, endpoints, calls, behaviours and workload rows of the
    validated scenario and differs from it at most in arrival rates, CPU times, network latencies, failure
    rates, call probabilities and counts, capacities and hit rates. A field that has a positive value keeps it
    under [OverwriteNever], and under [OverwriteWhenHigherConfidence] (the default) if it is one of those that
    observations only hint at: network latencies, call probabilities and counts, capacities. The report is a log
    of all changes: replaying its new values on the validated scenario, in order, gives the result, each with the
    confidence of its field, not below the floor. *)
Theorem calibration_sound marshal unmarshal base raw obs opts :
  marshal base = Ok raw → unmarshal raw = Ok base →
  let o := default defaultCalibrateOptions opts in
  match CalibrateScenario marshal unmarshal (Some base) (Some obs) opts with
  | Ok (out, report) => ∃ valid log, ValidateScenario base = Ok valid
      ∧ erase out = erase valid
      ∧ (∀ f v, protected (cal_Overwrite o) f → get f valid = Some v → filled v → get f out = Some v)
      ∧ cr_Changes report = log.*2 ∧ out = replay valid log
      ∧ Forall (λ l, fc_Confidence l.2 = field_confidence l.1
                 ∧ fltb (confidenceScore (fc_Confidence l.2)) (cal_ConfidenceFloor o) = false) log
  | Fail _ => ∃ e, ValidateScenario base = Fail e
  | Panic => ValidateScenario base = Panic
  end.
Proof.
  intros Hm Hu. cbv zeta. unfold CalibrateScenario, cloneScenarioViaYAML, ParseScenarioYAML.
  rewrite Hm. cbn [go_bind]. rewrite Hu. cbn [go_bind].
  destruct (ValidateScenario base) as [valid|e|]; cbn [wrap_err]; [|eauto|done].
  set (o := default defaultCalibrateOptions opts). set (floor := if fltb (cal_ConfidenceFloor o) f0 then _ else _).
  set (minS := if fleb (cal_MinScaleFactor o) f0 then _ else _). set (maxS := if fleb (cal_MaxScaleFactor o) f0 then _ else _).
  pose proof (steps_stages (cal_Overwrite o) floor minS maxS (cal_PredictedRun o) obs valid) as H.
  set (c := calibrate_stages _ _ _ _ _ _ _) in *.
  destruct (steps_prefix _ _ _ _ H) as (log & Hlog & Hf & Hout). simpl in Hlog. exists valid, log. split; [done|].
  split; [exact (steps_erase _ _ _ _ H)|].
  split; [intros f v Hov; exact (steps_kept _ _ _ _ f v Hov H)|]. split; [done|]. split; [done|].
  eapply Forall_impl; [exact Hf|]. intros l [Hc [empty Ha]]. split; [done|]. by eapply applied_above_floor.
Qed.

(** ** A calibration *)

(** Twice the configured rate was seen, and more errors than requests. *)
Definition busy_observations : ObservedMetrics :=
  no_observations <| om_WorkloadTargets := [mkTargetObs "gw" "" "" (Some (f64_of_Z 2))] |>
    <| om_Endpoints := [(no_endpoint "gw" "/") <| eo_RequestCount := Some 11 |> <| eo_ErrorCount := Some 22 |>] |>.
Definition calibrated (policy : OverwritePolicy) : go (Scenario * CalibrationReport) :=
  CalibrateScenario (λ _, Ok "text") (λ _, Ok sample_scenario) (Some sample_scenario) (Some busy_observations)
    (Some (defaultCalibrateOptions <| cal_Overwrite := policy |>)).
(** The rate is doubled, but the failure rate becomes 2, and the result is not a valid
    scenario. *)
Example calibrated_scenario_invalid :
  ∃ s r e, calibrated OverwriteAlways = Ok (s, r) ∧ get (FRate 0) s = Some (FloatValue (f64_of_Z 2))
    ∧ get (FFailureRate 0 0) s = Some (FloatValue (f64_of_Z 2)) ∧ ValidateScenario s = Fail e.
Proof. do 3 eexists. split; [vm_compute; reflexivity|]. repeat split; vm_compute; reflexivity. Qed.
Lemma calibration_sound_witness :
  ∃ s r, calibrated OverwriteNever = Ok (s, r) ∧ len (cr_Changes r) = 1
    ∧ get (FRate 0) s = Some (FloatValue f1) ∧ erase s = erase sample_scenario_normalised.
Proof.
  pose proof (calibration_sound (λ _, Ok "text") (λ _, Ok sample_scenario) sample_scenario "text" busy_observations
    (Some (defaultCalibrateOptions <| cal_Overwrite := OverwriteNever |>)) eq_refl eq_refl) as H.
  assert (E : ∃ s r, calibrated OverwriteNever = Ok (s, r) ∧ len (cr_Changes r) = 1)
    by (do 2 eexists; split; vm_compute; reflexivity).
  destruct E as (s & r & E & Hl). unfold calibrated in E. cbv zeta in H. rewrite E in H.
  destruct H as (valid & log & Ev & He & Hk & _). exists s, r. split; [exact E|]. split; [exact Hl|].
  assert (En : ValidateScenario sample_scenario = Ok sample_scenario_normalised) by (vm_compute; reflexivity).
  rewrite En in Ev. injection Ev as <-. split; [|exact He].
  apply Hk; [exact I|vm_compute; reflexivity|]. split; vm_compute; reflexivity.
Defined.
