(* ===== verification/CalibrationCheck.v ===== *)
(** [ValidateScenario] of [internal/calibration]: simulations of a scenario against
    observed metrics ([validate.go], [endpoint_validate.go]). *)
From S2P Require Import Prelude GoFloat Utils Policy Config BrokerQueue RunMetrics RunStore SimState ServiceModel EngineMetrics CalibrationData.
From Stdlib Require Import SpecFloat.
#[local] Open Scope string_scope.
#[local] Open Scope list_scope.
#[local] Open Scope Z_scope.

(** * Checks *)

Record MetricCheckResult := mkCheck {
  mc_Name : string;
  mc_Observed : float64;
  mc_Predicted : float64;
  mc_AbsError : float64;
  mc_RelError : float64;
  mc_Pass : bool;
  mc_Detail : string;
  mc_Importance : float64;
}.
Record ValidationReport := mkValidation {
  vr_Pass : bool;
  vr_Summary : string;
  vr_Checks : list MetricCheckResult;
  vr_LargestErrors : list MetricCheckResult;
  vr_SeedsUsed : list Z;
  vr_PredictedNote : string;
  vr_Warnings : list string;
}.
Inductive compareMode := compareRel | compareAbsPP | compareErrRate | compareHybrid | compareAbsOnly.
Definition compareOne (name : string) (obs pred relTol absTol : float64) (mode : compareMode) : MetricCheckResult :=
  let absError := math_Abs (fsub pred obs) in
  let relError := if fgt (math_Abs obs) (f64_lit 1 (10 ^ 9)) then fdiv absError (math_Abs obs) else f0 in
  let '(pass, detail) :=
    match mode with
    | compareRel =>
        ((fltb (math_Abs obs) (f64_lit 1 (10 ^ 12)) && fltb (math_Abs pred) (f64_lit 1 (10 ^ 9)))
         || withinRel obs pred relTol, "relative tolerance")
    | compareAbsPP => (fleb (math_Abs (fsub pred obs)) absTol, "absolute percentage-point tolerance")
    | compareErrRate =>
        ((feqb obs f0 && feqb pred f0) || fleb (math_Abs (fsub pred obs)) absTol || withinRel obs pred relTol,
         "error rate absolute or relative")
    | compareHybrid => (withinAbsRatio obs pred absTol relTol, "small-absolute or relative")
    | compareAbsOnly => (fleb (math_Abs (fsub pred obs)) relTol, "absolute")
    end in
  mkCheck name obs pred absError relError pass detail absError.
(** One round of the exchange sort: the largest importance comes to the front. *)
Fixpoint sweep (x : MetricCheckResult) (rest : list MetricCheckResult) : MetricCheckResult * list MetricCheckResult :=
  match rest with
  | [] => (x, [])
  | y :: rest =>
      let '(first, other) := if fgt (mc_Importance y) (mc_Importance x) then (y, x) else (x, y) in
      let '(first, rest) := sweep first rest in (first, other :: rest)
  end.
Fixpoint exchange_sort (n : nat) (l : list MetricCheckResult) : list MetricCheckResult :=
  match n, l with
  | S n, x :: rest => let '(first, rest) := sweep x rest in first :: exchange_sort n rest
  | _, _ => l
  end.
Definition largestDrivers (cs : list MetricCheckResult) (n : nat) : list MetricCheckResult :=
  take n (exchange_sort (length cs) cs).
Definition dedupeStrings (l : list string) : list string :=
  foldl (λ out s, let s := TrimSpace s in
    if is_empty s || bool_decide (s ∈ out) then out else out ++ [s]) [] l.

(** * Predictions *)

Record aggRuns := mkAggRuns {
  ag_IngressMean : float64;
  ag_LatencyP50Mean : float64;
  ag_LatencyMeanMean : float64;
  ag_LatencyP95Max : float64;
  ag_LatencyP99Max : float64;
  ag_IngressErrMax : float64;
  ag_MaxServiceCPU : float64;
  ag_MaxServiceMem : float64;
  ag_QueueWaitMeanMax : float64;
  ag_QueueDepthSumMax : float64;
  ag_QueueDropRateMax : float64;
  ag_TopicDropRateMax : float64;
  ag_TopicBacklogSumMax : float64;
  ag_TopicLagSumMax : float64;
  ag_QueueDlqMax : Z;
  ag_TopicDlqMax : Z;
  ag_QueueOldestAgeMax : float64;
  ag_TopicOldestAgeMax : float64;
  ag_RetryMax : Z;
  ag_TimeoutMax : Z;
  ag_LocalityHitRateMean : float64;
  ag_CrossZoneFractionMean : float64;
  ag_CrossZoneLatencyPenaltyMeanMean : float64;
  ag_TopologyLatencyPenaltyMeanMean : float64;
}.
Definition services_of (rm : EngineRunMetrics) : list EngineServiceMetrics := (map_to_list (em_ServiceMetrics rm)).*2.
Definition sum_over {A} (f : A → float64) (l : list A) : float64 := foldl (λ s x, fadd s (f x)) f0 l.
(** A running maximum that starts at zero; the order does not matter. *)
Definition max_over {A} (f : A → float64) (l : list A) : float64 := foldl (λ m x, if fgt (f x) m then f x else m) f0 l.
Definition max_count {A} (f : A → Z) (l : list A) : Z := foldl (λ m x, if m <? f x then f x else m) 0 l.
Definition aggregateRunsConservative (runs : list EngineRunMetrics) : aggRuns :=
  match runs with
  | [] => mkAggRuns f0 f0 f0 f0 f0 f0 f0 f0 f0 f0 f0 f0 f0 f0 0 0 f0 f0 0 0 f0 f0 f0 f0
  | _ =>
      let mean f := fdiv (sum_over f runs) (f64_of_Z (len runs)) in
      let services := runs ≫= services_of in
      mkAggRuns (mean em_IngressThroughputRPS) (mean em_LatencyP50) (mean em_LatencyMean)
        (max_over em_LatencyP95 runs) (max_over em_LatencyP99 runs) (max_over em_IngressErrorRate runs)
        (max_over es_CPUUtilization services) (max_over es_MemoryUtilization services) (max_over es_QueueWaitMeanMs services)
        (max_over em_QueueDepthSum runs) (max_over em_QueueDropRate runs) (max_over em_TopicDropRate runs)
        (max_over em_TopicBacklogDepthSum runs) (max_over em_TopicConsumerLagSum runs)
        (max_count em_QueueDlqCountTotal runs) (max_count em_TopicDlqCountTotal runs)
        (max_over em_QueueOldestMessageAgeMs runs) (max_over em_TopicOldestMessageAgeMs runs)
        (max_count em_RetryAttempts runs) (max_count em_TimeoutErrors runs)
        (mean em_LocalityHitRate) (mean em_CrossZoneRequestFraction) (mean em_CrossZoneLatencyPenaltyMsMean)
        (mean em_TopologyLatencyPenaltyMsMean)
  end.
(** The largest rate of a key. *)
Definition raise_rate (k : string) (errors requests : Z) (out : gmap string float64) : gmap string float64 :=
  if requests <=? 0 then out
  else
    let r := fdiv (f64_of_Z errors) (f64_of_Z requests) in
    match out !! k with Some prev => if fgt r prev then <[k := r]> out else out | None => <[k := r]> out end.
Definition maxServiceErrorRateByService (runs : list EngineRunMetrics) : gmap string float64 :=
  foldl (λ out kv, raise_rate kv.1 (es_ErrorCount kv.2) (es_RequestCount kv.2) out) ∅
    (runs ≫= λ rm, map_to_list (em_ServiceMetrics rm)).
Definition endpointObservationKey (serviceID path : string) : string := serviceID +:+ ":" +:+ path.
Definition maxEndpointErrorRateByEndpoint (runs : list EngineRunMetrics) : gmap string float64 :=
  foldl (λ out es, raise_rate (endpointObservationKey (ers_ServiceName es) (ers_EndpointPath es)) (ers_ErrorCount es)
    (ers_RequestCount es) out) ∅ (runs ≫= em_EndpointRequestStats).
Definition endpointRollupAvailable (runs : list EngineRunMetrics) : bool :=
  existsb (λ rm, 0 <? len (em_EndpointRequestStats rm)) runs.

(** * What was observed *)

Definition has {A} (o : option A) : bool := match o with Some _ => true | None => false end.
Definition present {A B} (f : A → option B) (l : list A) : list B := omap f l.
(** A value if there is at least one observation. *)
Definition if_any {B C} (f : list B → C) (l : list B) : option C := match l with [] => None | _ => Some (f l) end.
Definition sum_floats (l : list float64) : float64 := sum_over id l.
Definition maxPresentServiceUtil (pick : ServiceObservation → option float64) (l : list ServiceObservation) : option float64 :=
  if_any (max_over id) (present pick l).
Definition meanQueueWaitPresent (obs : ObservedMetrics) : option float64 :=
  if_any (λ l, fdiv (sum_floats l) (f64_of_Z (len l))) (present eo_QueueWaitMeanMs (om_Endpoints obs)).
Definition sumQueueDepthPresent (obs : ObservedMetrics) : option float64 :=
  if_any sum_floats (present qo_DepthMean (om_QueueBrokers obs)).
Definition sumTopicBacklogPresent (obs : ObservedMetrics) : option float64 :=
  if_any sum_floats (present to_BacklogDepth (om_TopicBrokers obs)).
Definition sumTopicLagPresent (obs : ObservedMetrics) : option float64 :=
  if_any sum_floats (present to_ConsumerLag (om_TopicBrokers obs)).
Definition sum_ints (l : list Z) : Z := foldl (λ s n, wrap64 (s + n)) 0 l.
Definition sumPresentIntQueue (pick : QueueBrokerObservation → option Z) (l : list QueueBrokerObservation) : option Z :=
  if_any sum_ints (present pick l).
Definition sumPresentIntTopic (pick : TopicBrokerObservation → option Z) (l : list TopicBrokerObservation) : option Z :=
  if_any sum_ints (present pick l).
(** Unlike [max_over] this starts with the first value. *)
Definition max_floats (l : list float64) : option float64 :=
  foldl (λ m x, match m with Some y => if fgt x y then Some x else Some y | None => Some x end) None l.
Definition maxPresentFloatQueue (pick : QueueBrokerObservation → option float64) (l : list QueueBrokerObservation)
    : option float64 := max_floats (present pick l).
Definition maxPresentFloatTopicOldest (l : list TopicBrokerObservation) : option float64 :=
  max_floats (present to_OldestAgeMs l).
(** Drops and attempts so far and whether attempts were estimated; [None] when a row has
    drops but nothing to infer attempts from. *)
Definition queue_drops (acc : option (Z * Z * bool * bool)) (q : QueueBrokerObservation) : option (Z * Z * bool * bool) :=
  '(drops, attempts, approx, saw) ← acc;
  match qo_DropCount q with
  | None => Some (drops, attempts, approx, saw)
  | Some d =>
      match qo_QueuePublishAttemptCount q, qo_EnqueueCount q with
      | Some n, _ => Some (wrap64 (drops + d), wrap64 (attempts + n), approx, true)
      | None, Some n => Some (wrap64 (drops + d), wrap64 (attempts + wrap64 (n + d)), true, true)
      | None, None => None
      end
  end.
Definition aggregateQueueDropRateObserved (obs : ObservedMetrics) : option float64 * list string :=
  match foldl queue_drops (Some (0, 0, false, false)) (om_QueueBrokers obs) with
  | None => (None, ["queue_drop_rate: skipped — drop_count present without queue_publish_attempt_count or enqueue_count to infer attempts (matches RunMetrics denominator)"])
  | Some (drops, attempts, approx, saw) =>
      if negb saw then (None, [])
      else if attempts <=? 0 then (None, ["queue_drop_rate: skipped — inferred publish attempts sum to zero"])
      else (Some (fdiv (f64_of_Z drops) (f64_of_Z attempts)),
            if approx then ["queue_drop_rate: approximate denominator (enqueue_count + drop_count) used where queue_publish_attempt_count was absent"] else [])
  end.
Definition topic_drops (acc : option (Z * Z * bool)) (t : TopicBrokerObservation) : option (Z * Z * bool) :=
  '(drops, attempts, saw) ← acc;
  match to_DropCount t with
  | None => Some (drops, attempts, saw)
  | Some d =>
      match to_TopicDeliverCount t with
      | Some del => Some (wrap64 (drops + d), wrap64 (attempts + wrap64 (del + d)), true)
      | None => None
      end
  end.
Definition aggregateTopicDropRateObserved (obs : ObservedMetrics) : option float64 * list string :=
  match foldl topic_drops (Some (0, 0, false)) (om_TopicBrokers obs) with
  | None => (None, ["topic_drop_rate: skipped — drop_count present without topic_deliver_count (denominator must be deliver + drop, not publish)"])
  | Some (drops, attempts, saw) =>
      if negb saw then (None, [])
      else if attempts <=? 0 then (None, ["topic_drop_rate: skipped — deliver+drop attempt sum is zero"])
      else (Some (fdiv (f64_of_Z drops) (f64_of_Z attempts)), [])
  end.

(** * Endpoints *)

Record stat4 := mkStat4 { st_p50 : option float64; st_mean : option float64; st_p95 : option float64; st_p99 : option float64 }.
Record epLatencyPred := mkLatencyPred {
  lp_sumP50 : float64;
  lp_sumMean : float64;
  lp_nP50 : Z;
  lp_nMean : Z;
  lp_maxP95 : option float64;
  lp_maxP99 : option float64;
}.
Definition no_pred : epLatencyPred := mkLatencyPred f0 f0 0 0 None None.
Definition raise_tail (m v : option float64) : option float64 :=
  match v, m with
  | Some x, Some y => if fgt x y then Some x else Some y
  | Some x, None => Some x
  | None, _ => m
  end.
Definition epLatencyPred_add (a : epLatencyPred) (s : stat4) : epLatencyPred :=
  mkLatencyPred (from_option (fadd (lp_sumP50 a)) (lp_sumP50 a) (st_p50 s))
    (from_option (fadd (lp_sumMean a)) (lp_sumMean a) (st_mean s))
    (if has (st_p50 s) then lp_nP50 a + 1 else lp_nP50 a) (if has (st_mean s) then lp_nMean a + 1 else lp_nMean a)
    (raise_tail (lp_maxP95 a) (st_p95 s)) (raise_tail (lp_maxP99 a) (st_p99 s)).
Definition epLatencyPred_meanP50 (a : epLatencyPred) : option float64 :=
  if lp_nP50 a =? 0 then None else Some (fdiv (lp_sumP50 a) (f64_of_Z (lp_nP50 a))).
Definition epLatencyPred_meanMean (a : epLatencyPred) : option float64 :=
  if lp_nMean a =? 0 then None else Some (fdiv (lp_sumMean a) (f64_of_Z (lp_nMean a))).
Definition foldEndpointStat (runs : list EngineRunMetrics) (pick : EndpointRequestStats → stat4) : gmap string epLatencyPred :=
  foldl (λ out es,
    let k := endpointObservationKey (ers_ServiceName es) (ers_EndpointPath es) in
    <[k := epLatencyPred_add (default no_pred (out !! k)) (pick es)]> out) ∅ (runs ≫= em_EndpointRequestStats).
Definition service_stat (pick : EngineServiceMetrics → stat4) (runs : list EngineRunMetrics) (service : string) : epLatencyPred :=
  foldl (λ a rm,
    match em_ServiceMetrics rm !! service with
    | Some sm => if es_RequestCount sm <=? 0 then a else epLatencyPred_add a (pick sm)
    | None => a
    end) no_pred runs.
Definition serviceHopStat4 : list EngineRunMetrics → string → epLatencyPred := service_stat (λ sm,
  mkStat4 (Some (es_LatencyP50 sm)) (Some (es_LatencyMean sm)) (Some (es_LatencyP95 sm)) (Some (es_LatencyP99 sm))).
Definition serviceQueueWaitStat4 : list EngineRunMetrics → string → epLatencyPred := service_stat (λ sm,
  mkStat4 (Some (es_QueueWaitP50Ms sm)) (Some (es_QueueWaitMeanMs sm)) (Some (es_QueueWaitP95Ms sm)) (Some (es_QueueWaitP99Ms sm))).
Definition serviceProcStat4 : list EngineRunMetrics → string → epLatencyPred := service_stat (λ sm,
  mkStat4 (Some (es_ProcessingLatencyP50Ms sm)) (Some (es_ProcessingLatencyMeanMs sm)) (Some (es_ProcessingLatencyP95Ms sm))
    (Some (es_ProcessingLatencyP99Ms sm))).
Definition any_samples (p : epLatencyPred) : bool :=
  (0 <? lp_nP50 p) || (0 <? lp_nMean p) || has (lp_maxP95 p) || has (lp_maxP99 p).
(** The endpoint's own samples or else those of its service, with a warning. *)
Definition predict (by_service : list EngineRunMetrics → string → epLatencyPred) (what name service path : string) (star : bool)
    (ep : gmap string epLatencyPred) (runs : list EngineRunMetrics) (rollup : bool) (warns : list string)
    : epLatencyPred * list string :=
  let fallback := (by_service runs service, if rollup then warns ++ [name +:+ ":" +:+ service +:+ ":" +:+ path +:+
    ": no endpoint-level " +:+ what +:+ " samples in predictions; using service-level aggregate"] else warns) in
  if star then (by_service runs service, warns)
  else
    match ep !! endpointObservationKey service path with
    | Some p => if any_samples p then (p, warns) else fallback
    | None => fallback
    end.
Definition predictHop := predict serviceHopStat4 "hop latency".
Definition predictQueue := predict serviceQueueWaitStat4 "queue wait".
Definition predictProc := predict serviceProcStat4 "processing latency".
Definition appendEpCompare (out : list MetricCheckResult) (ov : option float64) (name : string) (pred : option float64)
    (relTol : float64) : list MetricCheckResult :=
  match ov with
  | None => out
  | Some v =>
      out ++ [match pred with
              | None => mkCheck name v f0 f0 f0 false "observation present but no matching predicted aggregate (see warnings)" f0
              | Some p => compareOne name v p relTol f0 compareRel
              end]
  end.
Definition any_present (s : stat4) : bool :=
  existsb has [st_p50 s; st_mean s; st_p95 s; st_p99 s].
(** The checks of one kind of latency of an observed endpoint. *)
Definition check_stat (predictor : string → string → string → bool → gmap string epLatencyPred → list EngineRunMetrics → bool →
      list string → epLatencyPred * list string) (name : string) (s : stat4)
    (ep : gmap string epLatencyPred) (runs : list EngineRunMetrics) (rollup : bool) (tol : ValidationTolerances)
    (eo : EndpointObservation) (acc : list MetricCheckResult * list string) : list MetricCheckResult * list string :=
  let '(out, warns) := acc in
  let path := TrimSpace (eo_EndpointPath eo) in
  let star := is_empty path || String.eqb path "*" in
  if any_present s then
    let '(p, warns) := predictor name (eo_ServiceID eo) path star ep runs rollup warns in
    let base := name +:+ ":" +:+ eo_ServiceID eo +:+ ":" +:+ eo_EndpointPath eo in
    let out := appendEpCompare out (st_p50 s) (base +:+ ":p50_ms") (epLatencyPred_meanP50 p) (vt_LatencyP50Rel tol) in
    let out := appendEpCompare out (st_mean s) (base +:+ ":mean_ms") (epLatencyPred_meanMean p) (vt_LatencyP50Rel tol) in
    let out := appendEpCompare out (st_p95 s) (base +:+ ":p95_ms") (lp_maxP95 p) (vt_LatencyP95Rel tol) in
    (appendEpCompare out (st_p99 s) (base +:+ ":p99_ms") (lp_maxP99 p) (vt_LatencyP99Rel tol), warns)
  else acc.
Definition hop_of (es : EndpointRequestStats) : stat4 :=
  mkStat4 (ers_LatencyP50Ms es) (ers_LatencyMeanMs es) (ers_LatencyP95Ms es) (ers_LatencyP99Ms es).
Definition queue_of (es : EndpointRequestStats) : stat4 :=
  mkStat4 (ers_QueueWaitP50Ms es) (ers_QueueWaitMeanMs es) (ers_QueueWaitP95Ms es) (ers_QueueWaitP99Ms es).
Definition proc_of (es : EndpointRequestStats) : stat4 :=
  mkStat4 (ers_ProcessingLatencyP50Ms es) (ers_ProcessingLatencyMeanMs es) (ers_ProcessingLatencyP95Ms es)
    (ers_ProcessingLatencyP99Ms es).
Definition hop_observed (eo : EndpointObservation) : stat4 :=
  mkStat4 (eo_LatencyP50Ms eo) (eo_LatencyMeanMs eo) (eo_LatencyP95Ms eo) (eo_LatencyP99Ms eo).
Definition queue_observed (eo : EndpointObservation) : stat4 :=
  mkStat4 (eo_QueueWaitP50Ms eo) (eo_QueueWaitMeanMs eo) (eo_QueueWaitP95Ms eo) (eo_QueueWaitP99Ms eo).
Definition proc_observed (eo : EndpointObservation) : stat4 :=
  mkStat4 (eo_ProcessingLatencyP50Ms eo) (eo_ProcessingLatencyMeanMs eo) (eo_ProcessingLatencyP95Ms eo)
    (eo_ProcessingLatencyP99Ms eo).
Definition star_path (eo : EndpointObservation) : bool :=
  let path := TrimSpace (eo_EndpointPath eo) in is_empty path || String.eqb path "*".
Definition validate_endpoint_hop (runs : list EngineRunMetrics) (tol : ValidationTolerances)
    (acc : list MetricCheckResult * list string) (eo : EndpointObservation) : list MetricCheckResult * list string :=
  if is_empty (eo_ServiceID eo) then acc
  else
    let rollup := endpointRollupAvailable runs in
    let acc := check_stat predictHop "endpoint_hop_latency" (hop_observed eo) (foldEndpointStat runs hop_of)
                 runs rollup tol eo acc in
    let acc := check_stat predictQueue "endpoint_queue_wait" (queue_observed eo)
                 (foldEndpointStat runs queue_of) runs rollup tol eo acc in
    check_stat predictProc "endpoint_processing_latency" (proc_observed eo)
      (foldEndpointStat runs proc_of) runs rollup tol eo acc.
Definition validateEndpointLatencyAndQueue (obs : ObservedMetrics) (runs : list EngineRunMetrics) (tol : ValidationTolerances)
    : list MetricCheckResult * list string :=
  let warns := if endpointRollupAvailable runs then [] else
    ["endpoint latency/queue/processing: RunMetrics.EndpointRequestStats is empty; predictions use service-level aggregates only"] in
  let '(out, warns) := foldl (validate_endpoint_hop runs tol) ([], warns) (om_Endpoints obs) in
  let usedStar := existsb (λ eo, negb (is_empty (eo_ServiceID eo)) && star_path eo) (om_Endpoints obs) in
  (out, dedupeStrings (if usedStar then warns ++ ["endpoint latency/queue/processing: at least one observation uses endpoint path " +:+ Quote "*" +:+
     " (service rollup) compared to service-level predicted aggregates"] else warns)).
(** The predicted error rate of an endpoint observation, with a warning if it is that of
    the service. *)
Definition predicted_error (rollup : bool) (svcErr endpErr : gmap string float64) (name : string) (eo : EndpointObservation)
    : float64 * list string :=
  let by_service := default f0 (svcErr !! eo_ServiceID eo) in
  if star_path eo then (by_service, [])
  else
    match endpErr !! endpointObservationKey (eo_ServiceID eo) (TrimSpace (eo_EndpointPath eo)) with
    | Some p => if rollup then (p, []) else (by_service, [name +:+ ": no matching endpoint-level prediction; using service-level max rate"])
    | None => (by_service, [name +:+ ": no matching endpoint-level prediction; using service-level max rate"])
    end.
Definition checks_errors (eo : EndpointObservation) : option float64 :=
  match eo_RequestCount eo, eo_ErrorCount eo with
  | Some requests, Some errors =>
      if is_empty (eo_ServiceID eo) || (requests <=? 0) then None else Some (fdiv (f64_of_Z errors) (f64_of_Z requests))
  | _, _ => None
  end.
Definition check_error_rate (rollup : bool) (svcErr endpErr : gmap string float64) (tol : ValidationTolerances)
    (acc : list MetricCheckResult * list string) (eo : EndpointObservation) : list MetricCheckResult * list string :=
  match checks_errors eo with
  | None => acc
  | Some obsRate =>
      let name := "endpoint_error_rate:" +:+ eo_ServiceID eo +:+ ":" +:+ eo_EndpointPath eo in
      let '(pred, warns) := predicted_error rollup svcErr endpErr name eo in
      (acc.1 ++ [compareOne name obsRate pred (vt_IngressErrorRateRel tol) (vt_IngressErrorRateAbs tol) compareErrRate],
       acc.2 ++ warns)
  end.
Definition validateEndpointErrorRates (obs : ObservedMetrics) (runs : list EngineRunMetrics)
    (svcErr endpErr : gmap string float64) (tol : ValidationTolerances) : list MetricCheckResult * list string :=
  let rollup := endpointRollupAvailable runs in
  let warns := if rollup then [] else
    ["endpoint error rates: RunMetrics.EndpointRequestStats is empty; predictions use service-level max error rate only"] in
  let '(out, warns) := foldl (check_error_rate rollup svcErr endpErr tol) ([], warns) (om_Endpoints obs) in
  let usedStar := existsb (λ eo, has (checks_errors eo) && star_path eo) (om_Endpoints obs) in
  (out, dedupeStrings (if usedStar then warns ++ ["endpoint error rates: at least one observation uses endpoint path " +:+ Quote "*" +:+
     " (service rollup) compared to service-level max predicted error rate"] else warns)).

(** * Routing *)

Record routeSkewAgg := mkRouteSkew { rk_countByInstance : gmap string float64; rk_total : float64 }.
Definition blank (s : string) : bool := is_empty (TrimSpace s).
Definition route_key (service endpoint : string) : string := service +:+ "|" +:+ endpoint.
Definition add_route (byRoute : gmap string routeSkewAgg) (st : InstanceRouteStats) : gmap string routeSkewAgg :=
  if blank (irs_ServiceName st) || blank (irs_EndpointPath st) || blank (irs_InstanceId st) then byRoute
  else
    let k := route_key (irs_ServiceName st) (irs_EndpointPath st) in
    let agg := default (mkRouteSkew ∅ f0) (byRoute !! k) in
    let n := f64_of_Z (irs_SelectionCount st) in
    let c := default f0 (rk_countByInstance agg !! irs_InstanceId st) in
    <[k := mkRouteSkew (<[irs_InstanceId st := fadd c n]> (rk_countByInstance agg)) (fadd (rk_total agg) n)]> byRoute.
Definition aggregatePredictedRouteDistributions (runs : list EngineRunMetrics) : gmap string routeSkewAgg :=
  let byRoute := foldl add_route ∅ (runs ≫= em_InstanceRouteStats) in
  let n := f64_of_Z (len runs) in
  if len runs <=? 1 then byRoute
  else (λ a, mkRouteSkew ((λ c, fdiv c n) <$> rk_countByInstance a) (fdiv (rk_total a) n)) <$> byRoute.
Definition check_route (byRoute : gmap string routeSkewAgg) (tol : ValidationTolerances)
    (acc : list MetricCheckResult * list string) (r : InstanceRoutingObservation) : list MetricCheckResult * list string :=
  let '(checks, warns) := acc in
  if blank (ro_ServiceID r) || blank (ro_EndpointPath r) || blank (ro_InstanceID r)
  then (checks, warns ++ ["instance_routing row skipped: service_id, endpoint_path, and instance_id must be non-empty"])
  else
    let at_ := ro_ServiceID r +:+ ":" +:+ ro_EndpointPath r in
    let none := (checks, warns ++ ["instance_routing skipped for " +:+ at_ +:+ ": no predicted route_selection_count samples available"]) in
    match byRoute !! route_key (ro_ServiceID r) (ro_EndpointPath r) with
    | None => none
    | Some agg =>
        if fleb (rk_total agg) f0 then none
        else
          let predCount := default f0 (rk_countByInstance agg !! ro_InstanceID r) in
          let share := match ro_RequestShare r with
            | Some v => [compareOne ("instance_routing_share:" +:+ at_ +:+ ":" +:+ ro_InstanceID r) v
                           (fdiv predCount (rk_total agg)) (vt_RouteShareRel tol) (vt_RouteShareAbsSmall tol) compareHybrid]
            | None => []
            end in
          let count := match ro_RequestCount r with
            | Some n => [compareOne ("instance_routing_count:" +:+ at_ +:+ ":" +:+ ro_InstanceID r) (f64_of_Z n) predCount
                           (vt_RouteCountRel tol) (vt_RouteCountAbsSmall tol) compareHybrid]
            | None => []
            end in
          (checks ++ share ++ count,
           if has (ro_RequestShare r) || has (ro_RequestCount r) then warns
           else warns ++ ["instance_routing row ignored for " +:+ at_ +:+ ":" +:+ ro_InstanceID r +:+
                          ": neither request_share nor request_count was present"])
    end.
Definition validateInstanceRoutingSkew (obs : ObservedMetrics) (runs : list EngineRunMetrics) (tol : ValidationTolerances)
    : list MetricCheckResult * list string :=
  foldl (check_route (aggregatePredictedRouteDistributions runs) tol) ([], []) (om_InstanceRouting obs).

(** * The report *)

Definition larger (a b : float64) : float64 := if fgt a b then a else b.
(** The checks of run-wide quantities, in order: name, observation, prediction,
    relative and absolute tolerance, mode. *)
Definition global_checks (obs : ObservedMetrics) (agg : aggRuns) (tol : ValidationTolerances)
    : list (string * option float64 * float64 * float64 * float64 * compareMode) :=
  let g := om_Global obs in
  [("ingress_throughput_rps", go_IngressThroughputRPS g, ag_IngressMean agg, vt_ThroughputRel tol, f0, compareRel);
   ("root_latency_p50_ms", go_RootLatencyP50Ms g, ag_LatencyP50Mean agg, vt_LatencyP50Rel tol, f0, compareRel);
   ("root_latency_p95_ms", go_RootLatencyP95Ms g, ag_LatencyP95Max agg, vt_LatencyP95Rel tol, f0, compareRel);
   ("root_latency_p99_ms", go_RootLatencyP99Ms g, ag_LatencyP99Max agg, vt_LatencyP99Rel tol, f0, compareRel);
   ("root_latency_mean_ms", go_RootLatencyMeanMs g, ag_LatencyMeanMean agg, vt_LatencyP50Rel tol, f0, compareRel);
   ("ingress_error_rate", go_IngressErrorRate g, ag_IngressErrMax agg, vt_IngressErrorRateRel tol, vt_IngressErrorRateAbs tol,
      compareErrRate);
   ("locality_hit_rate", go_LocalityHitRate g, ag_LocalityHitRateMean agg, vt_IngressErrorRateRel tol, vt_LocalityRateAbs tol,
      compareErrRate);
   ("cross_zone_fraction", go_CrossZoneFraction g, ag_CrossZoneFractionMean agg, vt_IngressErrorRateRel tol,
      vt_CrossZoneRateAbs tol, compareErrRate);
   ("cross_zone_latency_penalty_mean_ms", go_CrossZoneLatencyPenaltyMeanMs g, ag_CrossZoneLatencyPenaltyMeanMean agg,
      vt_LatencyP50Rel tol, vt_CrossZonePenaltyMeanAbs tol, compareHybrid);
   ("topology_latency_penalty_mean_ms", go_TopologyLatencyPenaltyMeanMs g, ag_TopologyLatencyPenaltyMeanMean agg,
      vt_LatencyP50Rel tol, vt_TopologyPenaltyMeanAbs tol, compareHybrid);
   ("max_service_cpu_util", maxPresentServiceUtil so_CPUUtilization (om_Services obs), ag_MaxServiceCPU agg, f0,
      vt_UtilizationAbsPP tol, compareAbsPP);
   ("max_service_memory_util", maxPresentServiceUtil so_MemoryUtilization (om_Services obs), ag_MaxServiceMem agg, f0,
      vt_UtilizationAbsPP tol, compareAbsPP);
   ("queue_wait_mean_ms", meanQueueWaitPresent obs, ag_QueueWaitMeanMax agg, vt_LatencyP50Rel tol, f0, compareRel);
   ("queue_depth_sum_proxy", sumQueueDepthPresent obs, ag_QueueDepthSumMax agg, vt_QueueDepthRel tol,
      vt_QueueDepthAbsSmall tol, compareHybrid);
   ("topic_backlog_depth_sum_proxy", sumTopicBacklogPresent obs, ag_TopicBacklogSumMax agg, vt_TopicLagRel tol,
      vt_TopicLagAbsSmall tol, compareHybrid);
   ("topic_consumer_lag_sum", sumTopicLagPresent obs, ag_TopicLagSumMax agg, vt_TopicLagRel tol, vt_TopicLagAbsSmall tol,
      compareHybrid);
   ("queue_drop_rate", (aggregateQueueDropRateObserved obs).1, ag_QueueDropRateMax agg, vt_IngressErrorRateRel tol,
      vt_QueueDropRateAbs tol, compareErrRate);
   ("topic_drop_rate", (aggregateTopicDropRateObserved obs).1, ag_TopicDropRateMax agg, vt_IngressErrorRateRel tol,
      vt_TopicDropRateAbs tol, compareErrRate);
   ("queue_dlq_count_total", f64_of_Z <$> sumPresentIntQueue qo_DLQCount (om_QueueBrokers obs), f64_of_Z (ag_QueueDlqMax agg),
      vt_TopicLagRel tol, larger (f64_of_Z 5) (vt_QueueDepthAbsSmall tol), compareHybrid);
   ("topic_dlq_count_total", f64_of_Z <$> sumPresentIntTopic to_DLQCount (om_TopicBrokers obs), f64_of_Z (ag_TopicDlqMax agg),
      vt_TopicLagRel tol, larger (f64_of_Z 5) (vt_QueueDepthAbsSmall tol), compareHybrid);
   ("queue_oldest_message_age_ms", maxPresentFloatQueue qo_OldestAgeMs (om_QueueBrokers obs), ag_QueueOldestAgeMax agg,
      vt_TopicLagRel tol, vt_TopicLagAbsSmall tol, compareHybrid);
   ("topic_oldest_message_age_ms", maxPresentFloatTopicOldest (om_TopicBrokers obs), ag_TopicOldestAgeMax agg,
      vt_TopicLagRel tol, vt_TopicLagAbsSmall tol, compareHybrid);
   ("retry_attempts", f64_of_Z <$> go_RetryAttempts g, f64_of_Z (ag_RetryMax agg), vt_TopicLagRel tol,
      larger (f64_of_Z 10) (vt_TopicLagAbsSmall tol), compareHybrid);
   ("timeout_errors", f64_of_Z <$> go_TimeoutErrors g, f64_of_Z (ag_TimeoutMax agg), vt_TopicLagRel tol,
      larger (f64_of_Z 5) (vt_TopicLagAbsSmall tol), compareHybrid)].
Definition run_checks (rows : list (string * option float64 * float64 * float64 * float64 * compareMode))
    : list MetricCheckResult :=
  omap (λ '(name, obs, pred, rel, abs, mode), (λ v, compareOne name v pred rel abs mode) <$> obs) rows.
(** All checks and warnings for the given simulations. *)
Definition check_runs (obs : ObservedMetrics) (runs : list EngineRunMetrics) (tol : ValidationTolerances)
    : list MetricCheckResult * list string :=
  let checks := run_checks (global_checks obs (aggregateRunsConservative runs) tol) in
  let '(echecks, ewarn) := validateEndpointErrorRates obs runs (maxServiceErrorRateByService runs)
    (maxEndpointErrorRateByEndpoint runs) tol in
  let '(lchecks, lwarn) := validateEndpointLatencyAndQueue obs runs tol in
  let '(rchecks, rwarn) := validateInstanceRoutingSkew obs runs tol in
  (checks ++ echecks ++ lchecks ++ rchecks,
   (aggregateQueueDropRateObserved obs).2 ++ (aggregateTopicDropRateObserved obs).2 ++ ewarn ++ lwarn ++ rwarn).
Section Validate.
(** [RunScenarioForMetrics]: scenario, duration, seed, real time. *)
Context (RunScenarioForMetrics : Scenario → Duration → Z → bool → go EngineRunMetrics).
Fixpoint run_seeds (scenario : Scenario) (dur : Duration) (realTime : bool) (seeds : list Z) : go (list EngineRunMetrics) :=
  match seeds with
  | [] => Ok []
  | seed :: seeds =>
      let! rm := RunScenarioForMetrics scenario dur seed realTime in
      let! runs := run_seeds scenario dur realTime seeds in Ok (rm :: runs)
  end.
Definition sim_duration (ms : Z) : Duration := wrap64 ((if ms <=? 0 then 10000 else ms) * Millisecond).
Definition seeds_of (opts : ValidateOptions) : list Z := match vo_Seeds opts with [] => [1] | l => l end.
Definition tolerances_of (opts : ValidateOptions) : ValidationTolerances := default DefaultValidationTolerances (vo_Tolerances opts).
Definition ValidateScenario_calibration (scenario : option Scenario) (obs : option ObservedMetrics) (simDuration : Z)
    (opts : option ValidateOptions) : go ValidationReport :=
  match scenario, obs with
  | None, _ => Fail "scenario is nil"
  | _, None => Fail "observed metrics is nil"
  | Some scenario, Some obs =>
      let opts := default defaultValidateOptions opts in
      let! runs := run_seeds scenario (sim_duration simDuration) (vo_RealTimeWorkload opts) (seeds_of opts) in
      let '(checks, warnings) := check_runs obs runs (tolerances_of opts) in
      let pass := forallb mc_Pass checks in
      Ok (mkValidation pass
        (if pass then "Validation passed: predicted metrics within configured tolerances (conservative tail aggregation)."
         else "Validation failed: one or more metrics exceed tolerances. See checks and largest_errors.")
        checks (largestDrivers checks 5) (seeds_of opts)
        "throughput, P50, root mean latency: mean across seeds; P95/P99, ingress error, drops, topic lag/depth, DLQ counts, oldest message age, retries, timeouts: max across seeds (conservative)"
        (dedupeStrings warnings))
  end.
End Validate.
