(* ===== verification/CalibrationImport.v ===== *)
(** Where observations come from ([internal/calibration]): metrics of a simulation
    ([from_run_metrics.go]), the three import formats ([import_*.go]), and the baseline run a
    calibration compares with ([predicted_run.go], [predicted_run_endpoint_merge.go]). *)
From S2P Require Import Prelude GoFloat Utils Policy Config BrokerQueue RunMetrics RunStore SimState ServiceModel EngineMetrics CalibrationData CalibrationCheck.
From Stdlib Require Import SpecFloat.
#[local] Open Scope string_scope.
#[local] Open Scope list_scope.
#[local] Open Scope Z_scope.

(** * Metrics of a simulation *)

Definition maxSec (s : float64) : float64 := if fleb s f0 then f1 else s.
(** [F64] or [I64] of what a pointer points to is the pointer itself in this model. *)
Definition endpointObservationFromStats (es : EndpointRequestStats) (window : Duration) : EndpointObservation :=
  mkEndpointObs (ers_ServiceName es) (ers_EndpointPath es)
    (if (0 <? ers_RequestCount es) && (0 <? window)
     then F64 (fdiv (f64_of_Z (ers_RequestCount es)) (maxSec (Seconds window))) else None)
    (ers_LatencyP50Ms es) (ers_LatencyP95Ms es) (ers_LatencyP99Ms es) (ers_LatencyMeanMs es)
    (ers_ProcessingLatencyP50Ms es) (ers_ProcessingLatencyP95Ms es) (ers_ProcessingLatencyP99Ms es)
    (ers_ProcessingLatencyMeanMs es) (ers_QueueWaitP50Ms es) (ers_QueueWaitP95Ms es) (ers_QueueWaitP99Ms es)
    (ers_QueueWaitMeanMs es) None (I64 (ers_RequestCount es)) (I64 (ers_ErrorCount es)) None None.
Definition serviceObservation (kv : string * EngineServiceMetrics) : ServiceObservation :=
  mkServiceObs kv.1 (F64 (es_CPUUtilization kv.2)) (F64 (es_MemoryUtilization kv.2)).
(** A service without endpoint rows is observed as a whole. *)
Definition rollupObservation (window : Duration) (kv : string * EngineServiceMetrics) : EndpointObservation :=
  let sm := kv.2 in
  mkEndpointObs kv.1 "*" (F64 (fdiv (f64_of_Z (es_RequestCount sm)) (maxSec (Seconds window))))
    (F64 (es_LatencyP50 sm)) (F64 (es_LatencyP95 sm)) (F64 (es_LatencyP99 sm)) (F64 (es_LatencyMean sm))
    (F64 (es_ProcessingLatencyP50Ms sm)) (F64 (es_ProcessingLatencyP95Ms sm)) (F64 (es_ProcessingLatencyP99Ms sm))
    (F64 (es_ProcessingLatencyMeanMs sm)) (F64 (es_QueueWaitP50Ms sm)) (F64 (es_QueueWaitP95Ms sm))
    (F64 (es_QueueWaitP99Ms sm)) (F64 (es_QueueWaitMeanMs sm)) None (I64 (es_RequestCount sm)) (I64 (es_ErrorCount sm))
    None None.
Definition routeTotals (l : list InstanceRouteStats) : gmap string float64 :=
  foldl (λ totals rs,
    if irs_SelectionCount rs <=? 0 then totals
    else
      let k := route_key (irs_ServiceName rs) (irs_EndpointPath rs) in
      <[k := fadd (default f0 (totals !! k)) (f64_of_Z (irs_SelectionCount rs))]> totals) ∅ l.
Definition routingObservation (totals : gmap string float64) (rs : InstanceRouteStats) : InstanceRoutingObservation :=
  let total := default f0 (totals !! route_key (irs_ServiceName rs) (irs_EndpointPath rs)) in
  mkRoutingObs (irs_ServiceName rs) (irs_EndpointPath rs) (irs_InstanceId rs)
    (if fgt total f0 then F64 (fdiv (f64_of_Z (irs_SelectionCount rs)) total) else None) (I64 (irs_SelectionCount rs)).
Definition queueObservation (rm : EngineRunMetrics) : list QueueBrokerObservation :=
  if (0 <? em_QueueEnqueueCountTotal rm) || (0 <? em_QueueDequeueCountTotal rm) || (0 <? em_QueueDropCountTotal rm)
     || (0 <? em_QueueDlqCountTotal rm) || fgt (em_QueueDepthSum rm) f0 || fgt (em_QueueOldestMessageAgeMs rm) f0
  then
    let attempts :=
      if fgt (em_QueueDropRate rm) f0 && (0 <? em_QueueDropCountTotal rm)
      then f64_to_int (math_Round (fdiv (f64_of_Z (em_QueueDropCountTotal rm)) (em_QueueDropRate rm)))
      else wrap64 (em_QueueEnqueueCountTotal rm + em_QueueDropCountTotal rm) in
    [mkQueueObs "*" "*" (F64 (em_QueueDepthSum rm)) (I64 (em_QueueDropCountTotal rm)) (I64 (em_QueueDlqCountTotal rm))
       (I64 (em_QueueEnqueueCountTotal rm)) (I64 (em_QueueDequeueCountTotal rm)) (I64 attempts)
       (F64 (em_QueueOldestMessageAgeMs rm))]
  else [].
Definition topicObservation (rm : EngineRunMetrics) : list TopicBrokerObservation :=
  if (0 <? em_TopicPublishCountTotal rm) || (0 <? em_TopicDeliverCountTotal rm) || (0 <? em_TopicDropCountTotal rm)
     || (0 <? em_TopicDlqCountTotal rm) || fgt (em_TopicBacklogDepthSum rm) f0 || fgt (em_TopicConsumerLagSum rm) f0
     || fgt (em_TopicOldestMessageAgeMs rm) f0
  then
    [mkTopicObs "*" "*" (-1) "*" (F64 (em_TopicBacklogDepthSum rm)) (F64 (em_TopicConsumerLagSum rm))
       (I64 (em_TopicDropCountTotal rm)) (I64 (em_TopicDlqCountTotal rm)) (I64 (em_TopicPublishCountTotal rm))
       (I64 (em_TopicDeliverCountTotal rm)) (F64 (em_TopicOldestMessageAgeMs rm))]
  else [].
Definition ingressThroughput (rm : EngineRunMetrics) (window : Duration) : float64 :=
  let sec := Seconds window in
  if fgt sec f0 && fltb (em_IngressThroughputRPS rm) (f64_lit 1 (10 ^ 9)) then
    if 0 <? em_IngressRequests rm then fdiv (f64_of_Z (em_IngressRequests rm)) sec
    else if 0 <? em_TotalRequests rm then fdiv (f64_of_Z (em_TotalRequests rm)) sec
    else em_IngressThroughputRPS rm
  else em_IngressThroughputRPS rm.
Definition globalObservation (rm : EngineRunMetrics) (window : Duration) : GlobalObservation :=
  mkGlobalObs (F64 (em_LatencyP50 rm)) (F64 (em_LatencyP95 rm)) (F64 (em_LatencyP99 rm)) (F64 (em_LatencyMean rm))
    (F64 (ingressThroughput rm window)) (F64 (em_IngressErrorRate rm)) (F64 (em_LocalityHitRate rm))
    (F64 (em_CrossZoneRequestFraction rm))
    (if fgt (em_CrossZoneLatencyPenaltyMsTotal rm) f0 then F64 (em_CrossZoneLatencyPenaltyMsMean rm) else None)
    (if fgt (em_TopologyLatencyPenaltyMsTotal rm) f0 then F64 (em_TopologyLatencyPenaltyMsMean rm) else None)
    (I64 (em_TotalRequests rm)) (I64 (em_IngressRequests rm)) (I64 (em_FailedRequests rm)) (I64 (em_RetryAttempts rm))
    (I64 (em_TimeoutErrors rm)) (I64 (em_IngressFailedRequests rm)).
(** The services are visited in the orders [o1] (for utilisation) and [o2] (for rollups). *)
Definition FromRunMetrics (o1 o2 : gmap string EngineServiceMetrics → list (string * EngineServiceMetrics))
    (rm : option EngineRunMetrics) (window : Duration) : ObservedMetrics :=
  match rm with
  | None => no_observations
  | Some rm =>
      mkObserved (mkWindow window "simulator_run_metrics" "") (globalObservation rm window)
        (if 0 <? len (em_EndpointRequestStats rm)
         then (λ es, endpointObservationFromStats es window) <$> em_EndpointRequestStats rm
         else rollupObservation window <$> o2 (em_ServiceMetrics rm))
        (serviceObservation <$> o1 (em_ServiceMetrics rm)) [] (queueObservation rm) (topicObservation rm) []
        (routingObservation (routeTotals (em_InstanceRouteStats rm)) <$> em_InstanceRouteStats rm) []
  end.

(** * The baseline of several runs *)

Definition zero_service : EngineServiceMetrics := mkEngineService "" 0 0 f0 f0 f0 f0 f0 f0 0 0 0 f0 f0 f0 f0 f0 f0 f0 f0.
Definition zero_run : EngineRunMetrics :=
  mkEngineRun 0 0 0 f0 f0 f0 f0 f0 0 0 f0 0 f0 0 f0 0 0 0 0 0 0 0 f0 0 0 0 0 0 f0 f0 f0 f0 f0 f0 f0 f0 f0 f0 f0 ∅ ∅ [] []
    f0 0 0 f0 f0 f0 f0 f0 f0 f0 f0 f0.
Definition epKey (serviceName path : string) : string := serviceName +:+ String "000"%char path.
Record rollup4 := mkRollup {
  ru_sum50 : float64;
  ru_sumMean : float64;
  ru_n50 : Z;
  ru_nMean : Z;
  ru_max95 : option float64;
  ru_max99 : option float64;
}.
#[export] Instance eta_rollup4 : Eta rollup4 := λ r, mkRollup (ru_sum50 r) (ru_sumMean r) (ru_n50 r) (ru_nMean r)
  (ru_max95 r) (ru_max99 r).
Definition no_rollup : rollup4 := mkRollup f0 f0 0 0 None None.
Definition rollup4_addP50 (v : option float64) (r : rollup4) : rollup4 :=
  match v with Some x => r <| ru_sum50 := fadd (ru_sum50 r) x |> <| ru_n50 := ru_n50 r + 1 |> | None => r end.
Definition rollup4_addMean (v : option float64) (r : rollup4) : rollup4 :=
  match v with Some x => r <| ru_sumMean := fadd (ru_sumMean r) x |> <| ru_nMean := ru_nMean r + 1 |> | None => r end.
Definition rollup4_addP95 (v : option float64) (r : rollup4) : rollup4 := r <| ru_max95 := raise_tail (ru_max95 r) v |>.
Definition rollup4_addP99 (v : option float64) (r : rollup4) : rollup4 := r <| ru_max99 := raise_tail (ru_max99 r) v |>.
Definition mergeRollup4 (r : rollup4) (p50 p95 p99 mean : option float64) : rollup4 :=
  rollup4_addMean mean (rollup4_addP99 p99 (rollup4_addP95 p95 (rollup4_addP50 p50 r))).
Definition rollup4_finP50 (r : rollup4) : option float64 :=
  if ru_n50 r =? 0 then None else Some (fdiv (ru_sum50 r) (f64_of_Z (ru_n50 r))).
Definition rollup4_finMean (r : rollup4) : option float64 :=
  if ru_nMean r =? 0 then None else Some (fdiv (ru_sumMean r) (f64_of_Z (ru_nMean r))).
Record endpointAgg := mkEndpointAgg {
  ea_serviceName : string;
  ea_endpointPath : string;
  ea_n : Z;
  ea_sumReq : Z;
  ea_sumErr : Z;
  ea_hop : rollup4;
  ea_root : rollup4;
  ea_qwait : rollup4;
  ea_proc : rollup4;
}.
Definition merge_endpoint (dst : gmap string endpointAgg) (es : EndpointRequestStats) : gmap string endpointAgg :=
  let key := epKey (ers_ServiceName es) (ers_EndpointPath es) in
  let a := default (mkEndpointAgg (ers_ServiceName es) (ers_EndpointPath es) 0 0 0 no_rollup no_rollup no_rollup no_rollup)
             (dst !! key) in
  <[key := mkEndpointAgg (ea_serviceName a) (ea_endpointPath a) (ea_n a + 1) (wrap64 (ea_sumReq a + ers_RequestCount es))
      (wrap64 (ea_sumErr a + ers_ErrorCount es))
      (mergeRollup4 (ea_hop a) (ers_LatencyP50Ms es) (ers_LatencyP95Ms es) (ers_LatencyP99Ms es) (ers_LatencyMeanMs es))
      (mergeRollup4 (ea_root a) (ers_RootLatencyP50Ms es) (ers_RootLatencyP95Ms es) (ers_RootLatencyP99Ms es)
         (ers_RootLatencyMeanMs es))
      (mergeRollup4 (ea_qwait a) (ers_QueueWaitP50Ms es) (ers_QueueWaitP95Ms es) (ers_QueueWaitP99Ms es)
         (ers_QueueWaitMeanMs es))
      (mergeRollup4 (ea_proc a) (ers_ProcessingLatencyP50Ms es) (ers_ProcessingLatencyP95Ms es)
         (ers_ProcessingLatencyP99Ms es) (ers_ProcessingLatencyMeanMs es))]> dst.
Definition mergeEndpointStatsInto (dst : gmap string endpointAgg) (stats : list EndpointRequestStats) : gmap string endpointAgg :=
  foldl merge_endpoint dst stats.
Definition finalize_endpoint (a : endpointAgg) : EndpointRequestStats :=
  mkEndpointStats (ea_serviceName a) (ea_endpointPath a) (Z.quot (ea_sumReq a) (ea_n a)) (Z.quot (ea_sumErr a) (ea_n a))
    (rollup4_finP50 (ea_hop a)) (ru_max95 (ea_hop a)) (ru_max99 (ea_hop a)) (rollup4_finMean (ea_hop a))
    (rollup4_finP50 (ea_root a)) (ru_max95 (ea_root a)) (ru_max99 (ea_root a)) (rollup4_finMean (ea_root a))
    (rollup4_finP50 (ea_qwait a)) (ru_max95 (ea_qwait a)) (ru_max99 (ea_qwait a)) (rollup4_finMean (ea_qwait a))
    (rollup4_finP50 (ea_proc a)) (ru_max95 (ea_proc a)) (ru_max99 (ea_proc a)) (rollup4_finMean (ea_proc a)).
Definition finalizeEndpointMerge (dst : gmap string endpointAgg) : list EndpointRequestStats :=
  omap (λ k, a ← dst !! k; if ea_n a =? 0 then None else Some (finalize_endpoint a))
    (sort_SliceStable string_ltb (map_to_list dst).*1).
Record serviceAgg := mkServiceAgg { sg_n : Z; sg_sumReq : Z; sg_sumErr : Z; sg_sums : EngineServiceMetrics }.
(** Means of a service are kept as sums and tails as maxima, in the fields of
    [sg_sums] they end up in. *)
Definition above (old new : float64) : float64 := if fgt new old then new else old.
Definition above_int (old new : Z) : Z := if old <? new then new else old.
Definition merge_service (a : serviceAgg) (sm : EngineServiceMetrics) : serviceAgg :=
  let s := sg_sums a in
  mkServiceAgg (sg_n a + 1) (wrap64 (sg_sumReq a + es_RequestCount sm)) (wrap64 (sg_sumErr a + es_ErrorCount sm))
    (s <| es_LatencyP50 := fadd (es_LatencyP50 s) (es_LatencyP50 sm) |>
       <| es_LatencyMean := fadd (es_LatencyMean s) (es_LatencyMean sm) |>
       <| es_LatencyP95 := above (es_LatencyP95 s) (es_LatencyP95 sm) |>
       <| es_LatencyP99 := above (es_LatencyP99 s) (es_LatencyP99 sm) |>
       <| es_ProcessingLatencyMeanMs := fadd (es_ProcessingLatencyMeanMs s) (es_ProcessingLatencyMeanMs sm) |>
       <| es_ProcessingLatencyP95Ms := above (es_ProcessingLatencyP95Ms s) (es_ProcessingLatencyP95Ms sm) |>
       <| es_ProcessingLatencyP99Ms := above (es_ProcessingLatencyP99Ms s) (es_ProcessingLatencyP99Ms sm) |>
       <| es_QueueWaitMeanMs := fadd (es_QueueWaitMeanMs s) (es_QueueWaitMeanMs sm) |>
       <| es_QueueWaitP95Ms := above (es_QueueWaitP95Ms s) (es_QueueWaitP95Ms sm) |>
       <| es_QueueWaitP99Ms := above (es_QueueWaitP99Ms s) (es_QueueWaitP99Ms sm) |>
       <| es_CPUUtilization := above (es_CPUUtilization s) (es_CPUUtilization sm) |>
       <| es_MemoryUtilization := above (es_MemoryUtilization s) (es_MemoryUtilization sm) |>
       <| es_QueueLength := above_int (es_QueueLength s) (es_QueueLength sm) |>
       <| es_ConcurrentRequests := above_int (es_ConcurrentRequests s) (es_ConcurrentRequests sm) |>
       <| es_ActiveReplicas := above_int (es_ActiveReplicas s) (es_ActiveReplicas sm) |>).
Definition no_service_agg : serviceAgg := mkServiceAgg 0 0 0 zero_service.
Definition mergeServiceMetricsInto (dst : gmap string serviceAgg) (smap : gmap string EngineServiceMetrics)
    : gmap string serviceAgg :=
  foldl (λ dst kv, <[kv.1 := merge_service (default no_service_agg (dst !! kv.1)) kv.2]> dst) dst (map_to_list smap).
Definition finalize_service (id : string) (a : serviceAgg) : option EngineServiceMetrics :=
  if sg_n a =? 0 then None
  else
    let div := f64_of_Z (sg_n a) in
    let s := sg_sums a in
    Some (s <| es_ServiceName := id |> <| es_RequestCount := Z.quot (sg_sumReq a) (sg_n a) |>
      <| es_ErrorCount := Z.quot (sg_sumErr a) (sg_n a) |> <| es_LatencyP50 := fdiv (es_LatencyP50 s) div |>
      <| es_LatencyMean := fdiv (es_LatencyMean s) div |>
      <| es_ProcessingLatencyMeanMs := fdiv (es_ProcessingLatencyMeanMs s) div |>
      <| es_QueueWaitMeanMs := fdiv (es_QueueWaitMeanMs s) div |>).
Definition finalizeServiceMerge (dst : gmap string serviceAgg) : gmap string EngineServiceMetrics :=
  map_imap finalize_service dst.
(** The copy shares nothing with the original, which is not changed afterwards. *)
Definition cloneRunMetricsForBaseline (rm : EngineRunMetrics) : EngineRunMetrics := rm.
Definition MergeRunMetricsForCalibrationBaseline (runs : list (option EngineRunMetrics)) : option EngineRunMetrics :=
  match runs with
  | [] => None
  | [Some rm] => Some (cloneRunMetricsForBaseline rm)
  | _ =>
      let n := f64_of_Z (len runs) in
      let l := omap id runs in
      let mean f := fdiv (sum_over f l) n in
      let mean_int f := f64_to_int (fdiv (f64_of_Z (sum_ints (f <$> l))) n) in
      Some (zero_run <| em_IngressThroughputRPS := mean em_IngressThroughputRPS |> <| em_LatencyP50 := mean em_LatencyP50 |>
        <| em_LatencyMean := mean em_LatencyMean |> <| em_LatencyP95 := max_over em_LatencyP95 l |>
        <| em_LatencyP99 := max_over em_LatencyP99 l |> <| em_IngressErrorRate := max_over em_IngressErrorRate l |>
        <| em_IngressRequests := mean_int em_IngressRequests |> <| em_TotalRequests := mean_int em_TotalRequests |>
        <| em_SuccessfulRequests := mean_int em_SuccessfulRequests |> <| em_FailedRequests := mean_int em_FailedRequests |>
        <| em_ThroughputRPS := mean em_IngressThroughputRPS |> <| em_QueueDepthSum := max_over em_QueueDepthSum l |>
        <| em_TopicBacklogDepthSum := max_over em_TopicBacklogDepthSum l |>
        <| em_TopicConsumerLagSum := max_over em_TopicConsumerLagSum l |>
        <| em_QueueDropRate := max_over em_QueueDropRate l |> <| em_TopicDropRate := max_over em_TopicDropRate l |>
        <| em_QueueDlqCountTotal := max_count em_QueueDlqCountTotal l |>
        <| em_TopicDlqCountTotal := max_count em_TopicDlqCountTotal l |>
        <| em_QueueOldestMessageAgeMs := max_over em_QueueOldestMessageAgeMs l |>
        <| em_TopicOldestMessageAgeMs := max_over em_TopicOldestMessageAgeMs l |>
        <| em_RetryAttempts := max_count em_RetryAttempts l |> <| em_TimeoutErrors := max_count em_TimeoutErrors l |>
        <| em_ServiceMetrics := finalizeServiceMerge (foldl mergeServiceMetricsInto ∅ (em_ServiceMetrics <$> l)) |>
        <| em_EndpointRequestStats := finalizeEndpointMerge (foldl mergeEndpointStatsInto ∅ (em_EndpointRequestStats <$> l)) |>)
  end.
Section Baseline.
Context (RunScenarioForMetrics : Scenario → Duration → Z → bool → go EngineRunMetrics).
Fixpoint baseline_runs (scenario : Scenario) (dur : Duration) (realTime : bool) (seeds : list Z)
    : go (list (option EngineRunMetrics)) :=
  match seeds with
  | [] => Ok []
  | seed :: seeds =>
      let! rm := wrap_err ("baseline seed " +:+ pretty seed +:+ ": ") (RunScenarioForMetrics scenario dur seed realTime) in
      let! runs := baseline_runs scenario dur realTime seeds in Ok (Some rm :: runs)
  end.
Definition RunBaselinePredictedRun (scenario : option Scenario) (simDurationMs : Z) (seeds : list Z) (realTime : bool)
    : go (option EngineRunMetrics) :=
  match scenario with
  | None => Fail "scenario is nil"
  | Some scenario =>
      let seeds := match seeds with [] => [1; 2; 3] | _ => seeds end in
      let! runs := baseline_runs scenario (sim_duration simDurationMs) realTime seeds in
      Ok (MergeRunMetricsForCalibrationBaseline runs)
  end.
End Baseline.

(** * Import formats *)

(** [switch] on a string. *)
Definition switch {A} (cases : list (string * A)) (m : string) : option A := snd <$> List.find (λ kv, String.eqb kv.1 m) cases.
(** [int64(v + 0.5)]. *)
Definition count_of (v : float64) : option Z := I64 (f64_to_int (fadd v (f64_lit 1 2))).
Definition global_metrics : list (string * (float64 → GlobalObservation → GlobalObservation)) :=
  [("sim_ingress_throughput_rps", λ v g, g <| go_IngressThroughputRPS := F64 v |>);
   ("sim_ingress_error_rate", λ v g, g <| go_IngressErrorRate := F64 v |>);
   ("sim_root_latency_p50_ms", λ v g, g <| go_RootLatencyP50Ms := F64 v |>);
   ("sim_root_latency_p95_ms", λ v g, g <| go_RootLatencyP95Ms := F64 v |>);
   ("sim_root_latency_p99_ms", λ v g, g <| go_RootLatencyP99Ms := F64 v |>);
   ("sim_root_latency_mean_ms", λ v g, g <| go_RootLatencyMeanMs := F64 v |>);
   ("sim_total_requests", λ v g, g <| go_TotalRequests := count_of v |>);
   ("sim_ingress_requests", λ v g, g <| go_IngressRequests := count_of v |>);
   ("sim_failed_requests", λ v g, g <| go_FailedRequests := count_of v |>);
   ("sim_retry_attempts", λ v g, g <| go_RetryAttempts := count_of v |>);
   ("sim_timeout_errors", λ v g, g <| go_TimeoutErrors := count_of v |>);
   ("sim_ingress_failed_requests", λ v g, g <| go_IngressFailedRequests := count_of v |>)].
Definition service_metrics : list (string * (float64 → ServiceObservation → ServiceObservation)) :=
  [("sim_service_cpu_utilization", λ v so, so <| so_CPUUtilization := F64 v |>);
   ("sim_service_memory_utilization", λ v so, so <| so_MemoryUtilization := F64 v |>)].
Definition endpoint_metrics : list (string * (float64 → EndpointObservation → EndpointObservation)) :=
  [("sim_endpoint_latency_p50_ms", λ v e, e <| eo_LatencyP50Ms := F64 v |>);
   ("sim_endpoint_latency_p95_ms", λ v e, e <| eo_LatencyP95Ms := F64 v |>);
   ("sim_endpoint_latency_p99_ms", λ v e, e <| eo_LatencyP99Ms := F64 v |>);
   ("sim_endpoint_latency_mean_ms", λ v e, e <| eo_LatencyMeanMs := F64 v |>);
   ("sim_endpoint_queue_wait_p50_ms", λ v e, e <| eo_QueueWaitP50Ms := F64 v |>);
   ("sim_endpoint_queue_wait_p95_ms", λ v e, e <| eo_QueueWaitP95Ms := F64 v |>);
   ("sim_endpoint_queue_wait_p99_ms", λ v e, e <| eo_QueueWaitP99Ms := F64 v |>);
   ("sim_endpoint_queue_wait_mean_ms", λ v e, e <| eo_QueueWaitMeanMs := F64 v |>);
   ("sim_endpoint_processing_latency_p50_ms", λ v e, e <| eo_ProcessingLatencyP50Ms := F64 v |>);
   ("sim_endpoint_processing_latency_p95_ms", λ v e, e <| eo_ProcessingLatencyP95Ms := F64 v |>);
   ("sim_endpoint_processing_latency_p99_ms", λ v e, e <| eo_ProcessingLatencyP99Ms := F64 v |>);
   ("sim_endpoint_processing_latency_mean_ms", λ v e, e <| eo_ProcessingLatencyMeanMs := F64 v |>);
   ("sim_endpoint_request_count", λ v e, e <| eo_RequestCount := count_of v |>);
   ("sim_endpoint_error_count", λ v e, e <| eo_ErrorCount := count_of v |>)].
Definition queue_metrics : list (string * (float64 → QueueBrokerObservation → QueueBrokerObservation)) :=
  [("sim_queue_publish_attempts", λ v q, q <| qo_QueuePublishAttemptCount := count_of v |>);
   ("sim_queue_drops", λ v q, q <| qo_DropCount := count_of v |>);
   ("sim_queue_depth", λ v q, q <| qo_DepthMean := F64 v |>);
   ("sim_queue_oldest_age_ms", λ v q, q <| qo_OldestAgeMs := F64 v |>);
   ("sim_queue_dlq_count", λ v q, q <| qo_DLQCount := count_of v |>)].
Definition topic_metrics : list (string * (float64 → TopicBrokerObservation → TopicBrokerObservation)) :=
  [("sim_topic_deliver_count", λ v t, t <| to_TopicDeliverCount := count_of v |>);
   ("sim_topic_drop_count", λ v t, t <| to_DropCount := count_of v |>);
   ("sim_topic_backlog_depth", λ v t, t <| to_BacklogDepth := F64 v |>);
   ("sim_topic_consumer_lag", λ v t, t <| to_ConsumerLag := F64 v |>);
   ("sim_topic_oldest_age_ms", λ v t, t <| to_OldestAgeMs := F64 v |>);
   ("sim_topic_dlq_count", λ v t, t <| to_DLQCount := count_of v |>)].
(** The first row with the key is changed, or else a new row is. *)
Fixpoint upsert {A} (same : A → bool) (new : A) (fn : A → A) (l : list A) : list A :=
  match l with
  | [] => [fn new]
  | x :: l => if same x then fn x :: l else x :: upsert same new fn l
  end.
Definition upsertServiceObs (serviceID : string) (fn : ServiceObservation → ServiceObservation)
    : list ServiceObservation → list ServiceObservation :=
  upsert (λ so, String.eqb (so_ServiceID so) serviceID) (mkServiceObs serviceID None None) fn.
Definition upsertEndpointObs (svc ep : string) (fn : EndpointObservation → EndpointObservation)
    : list EndpointObservation → list EndpointObservation :=
  upsert (λ e, String.eqb (eo_ServiceID e) svc && String.eqb (eo_EndpointPath e) ep) (no_endpoint svc ep) fn.
Definition upsertQueueBrokerObs (broker topic : string) (fn : QueueBrokerObservation → QueueBrokerObservation)
    : list QueueBrokerObservation → list QueueBrokerObservation :=
  upsert (λ q, String.eqb (qo_BrokerService q) broker && String.eqb (qo_Topic q) topic)
    (mkQueueObs broker topic None None None None None None None) fn.
Definition upsertTopicBrokerObs (broker topic : string) (partition : Z) (cg : string)
    (fn : TopicBrokerObservation → TopicBrokerObservation) : list TopicBrokerObservation → list TopicBrokerObservation :=
  upsert (λ t, String.eqb (to_BrokerService t) broker && String.eqb (to_Topic t) topic && (to_Partition t =? partition)
      && String.eqb (to_ConsumerGroup t) cg)
    (mkTopicObs broker topic partition cg None None None None None None None) fn.
Definition partition_of (labels : gmap string string) : Z :=
  let ps := TrimSpace (default "" (labels !! "partition")) in
  if is_empty ps then 0 else default 0 (Atoi ps).
Definition dispatchPrometheusSample (metric : string) (labels : gmap string string) (v : float64) (out : ObservedMetrics)
    : go ObservedMetrics :=
  let m := TrimSpace (ToLower metric) in
  let label k := default "" (labels !! k) in
  match switch global_metrics m, switch service_metrics m, switch endpoint_metrics m, switch queue_metrics m,
        switch topic_metrics m with
  | Some set, _, _, _, _ => Ok (out <| om_Global := set v (om_Global out) |>)
  | _, Some set, _, _, _ =>
      if is_empty (label "service") then Fail (m +:+ " requires label service")
      else Ok (out <| om_Services := upsertServiceObs (label "service") (set v) (om_Services out) |>)
  | _, _, Some set, _, _ =>
      if is_empty (label "service") || is_empty (label "endpoint") then Fail (metric +:+ " requires labels service and endpoint")
      else Ok (out <| om_Endpoints := upsertEndpointObs (label "service") (label "endpoint") (set v) (om_Endpoints out) |>)
  | _, _, _, Some set, _ =>
      if is_empty (label "broker_service") || is_empty (label "topic")
      then Fail (metric +:+ " requires broker_service and topic labels")
      else Ok (out <| om_QueueBrokers := upsertQueueBrokerObs (label "broker_service") (label "topic") (set v) (om_QueueBrokers out) |>)
  | _, _, _, _, Some set =>
      if is_empty (label "broker_service") || is_empty (label "topic")
      then Fail (metric +:+ " requires broker_service and topic labels")
      else Ok (out <| om_TopicBrokers := upsertTopicBrokerObs (label "broker_service") (label "topic") (partition_of labels)
                 (label "consumer_group") (set v) (om_TopicBrokers out) |>)
  | None, None, None, None, None => Fail ("prometheus_json: unknown metric " +:+ Quote metric)
  end.
(** The decoded files. A pointer that may be nil is an [option], and [optF64] and [optI64]
    turn it into an observation. *)
Definition optF64 (p : option float64) : option float64 := match p with None => None | Some v => F64 v end.
Definition optI64 (p : option Z) : option Z := match p with None => None | Some v => I64 v end.
Record prometheusSample := mkSample { sa_Metric : string; sa_Labels : gmap string string; sa_Value : option DataVal }.
Record prometheusLikeFile := mkPrometheus { pl_WindowSeconds : float64; pl_Samples : list prometheusSample }.
Record simulatorExportEnvelope := mkEnvelope {
  env_WindowSeconds : float64;
  env_Window : string;
  env_RunMetrics : option EngineRunMetrics;
}.
Record partialEndpoint := mkPartialEndpoint {
  pe_ServiceID : string;
  pe_EndpointPath : string;
  pe_LatencyP50Ms : option float64;
  pe_LatencyP95Ms : option float64;
  pe_LatencyP99Ms : option float64;
  pe_LatencyMeanMs : option float64;
  pe_ProcP50Ms : option float64;
  pe_ProcP95Ms : option float64;
  pe_ProcP99Ms : option float64;
  pe_ProcMeanMs : option float64;
  pe_QwP50Ms : option float64;
  pe_QwP95Ms : option float64;
  pe_QwP99Ms : option float64;
  pe_QwMeanMs : option float64;
  pe_RequestCount : option Z;
  pe_ErrorCount : option Z;
}.
Record partialTopic := mkPartialTopic {
  pt_BrokerService : string;
  pt_Topic : string;
  pt_Partition : Z;
  pt_ConsumerGroup : string;
  pt_BacklogDepth : option float64;
  pt_ConsumerLag : option float64;
}.
Record partialQueue := mkPartialQueue { pq_BrokerService : string; pq_Topic : string; pq_DepthMean : option float64 }.
Record partialRouting := mkPartialRouting {
  pr_ServiceID : string;
  pr_EndpointPath : string;
  pr_InstanceID : string;
  pr_RequestShare : option float64;
  pr_RequestCount : option Z;
}.
(** The fields of [global] are those of [GlobalObservation], each behind a pointer. *)
Record partialObservedFile := mkPartialObserved {
  po_Window : option (string * string);
  po_Global : option GlobalObservation;
  po_Endpoints : list partialEndpoint;
  po_TopicBrokers : list partialTopic;
  po_QueueBrokers : list partialQueue;
  po_InstanceRouting : list partialRouting;
}.
Definition partial_global (g : GlobalObservation) : GlobalObservation :=
  mkGlobalObs (optF64 (go_RootLatencyP50Ms g)) (optF64 (go_RootLatencyP95Ms g)) (optF64 (go_RootLatencyP99Ms g))
    (optF64 (go_RootLatencyMeanMs g)) (optF64 (go_IngressThroughputRPS g)) (optF64 (go_IngressErrorRate g))
    (optF64 (go_LocalityHitRate g)) (optF64 (go_CrossZoneFraction g)) (optF64 (go_CrossZoneLatencyPenaltyMeanMs g))
    (optF64 (go_TopologyLatencyPenaltyMeanMs g)) (optI64 (go_TotalRequests g)) (optI64 (go_IngressRequests g))
    (optI64 (go_FailedRequests g)) (optI64 (go_RetryAttempts g)) (optI64 (go_TimeoutErrors g))
    (optI64 (go_IngressFailedRequests g)).
Definition partial_endpoint (e : partialEndpoint) : EndpointObservation :=
  mkEndpointObs (pe_ServiceID e) (pe_EndpointPath e) None (optF64 (pe_LatencyP50Ms e)) (optF64 (pe_LatencyP95Ms e))
    (optF64 (pe_LatencyP99Ms e)) (optF64 (pe_LatencyMeanMs e)) (optF64 (pe_ProcP50Ms e)) (optF64 (pe_ProcP95Ms e))
    (optF64 (pe_ProcP99Ms e)) (optF64 (pe_ProcMeanMs e)) (optF64 (pe_QwP50Ms e)) (optF64 (pe_QwP95Ms e))
    (optF64 (pe_QwP99Ms e)) (optF64 (pe_QwMeanMs e)) None (optI64 (pe_RequestCount e)) (optI64 (pe_ErrorCount e)) None None.
Definition partial_topic (t : partialTopic) : TopicBrokerObservation :=
  mkTopicObs (pt_BrokerService t) (pt_Topic t) (pt_Partition t) (pt_ConsumerGroup t) (optF64 (pt_BacklogDepth t))
    (optF64 (pt_ConsumerLag t)) None None None None None.
Definition partial_queue (q : partialQueue) : QueueBrokerObservation :=
  mkQueueObs (pq_BrokerService q) (pq_Topic q) (optF64 (pq_DepthMean q)) None None None None None None.
Definition partial_routing (r : partialRouting) : InstanceRoutingObservation :=
  mkRoutingObs (pr_ServiceID r) (pr_EndpointPath r) (pr_InstanceID r) (optF64 (pr_RequestShare r)) (optI64 (pr_RequestCount r)).

Section Formats.
(** Decoding of the JSON text into each of the three structures, [time.ParseDuration], [strconv.ParseFloat], and
    the orders in which maps of services are visited. *)
Context (json_prometheus : string → go prometheusLikeFile) (json_envelope : string → go simulatorExportEnvelope)
  (json_partial : string → go partialObservedFile) (ParseDuration : string → go Duration) (ParseFloat : string → go float64)
  (o1 o2 : gmap string EngineServiceMetrics → list (string * EngineServiceMetrics)).
Definition Minute : Duration := 60 * Second.
Definition window_of (seconds : float64) : Duration :=
  if fgt seconds f0 then f64_to_int (fmul seconds (f64_of_Z Second)) else Minute.
(** [null] decodes to zero without an error. *)
Definition parseJSONNumber (raw : option DataVal) : go float64 :=
  match raw with
  | None => Fail "empty value"
  | Some (DString s) => ParseFloat s
  | Some (DFloat f) => Ok f
  | Some DNil => Ok f0
  | Some _ => Fail "json: cannot unmarshal value into Go value of type float64"
  end.
Definition import_sample (out : ObservedMetrics) (s : prometheusSample) : go ObservedMetrics :=
  let! v := wrap_err ("prometheus_json: sample " +:+ sa_Metric s +:+ ": ") (parseJSONNumber (sa_Value s)) in
  wrap_err "prometheus_json: " (dispatchPrometheusSample (sa_Metric s) (sa_Labels s) v out).
Fixpoint import_samples (out : ObservedMetrics) (l : list prometheusSample) : go ObservedMetrics :=
  match l with
  | [] => Ok out
  | s :: l => let! out := import_sample out s in import_samples out l
  end.
Definition ObservedFromPrometheusLikeJSON (data : string) : go ObservedMetrics :=
  let! f := wrap_err "prometheus_json: " (json_prometheus data) in
  import_samples (no_observations <| om_Window := mkWindow (window_of (pl_WindowSeconds f)) "prometheus_like_json" "" |>)
    (pl_Samples f).
Definition ObservedFromSimulatorExportJSON (data : string) : go ObservedMetrics :=
  let! env := wrap_err "simulator_export: " (json_envelope data) in
  match env_RunMetrics env with
  | None => Fail "simulator_export: run_metrics is required"
  | Some rm =>
      let! window :=
        if is_empty (env_Window env) then Ok (window_of (env_WindowSeconds env))
        else wrap_err "simulator_export: window: " (ParseDuration (env_Window env)) in
      Ok (FromRunMetrics o1 o2 (Some rm) window)
  end.
Definition partial_window (w : string * string) : go ObservationWindow :=
  let! d := if is_empty w.1 then Ok Minute else wrap_err "observed_metrics: window.duration: " (ParseDuration w.1) in
  Ok (mkWindow d (if is_empty w.2 then "observed_metrics_json" else w.2) "").
Definition ObservedFromPartialJSON (data : string) : go ObservedMetrics :=
  let! f := wrap_err "observed_metrics: " (json_partial data) in
  let! w := match po_Window f with Some w => partial_window w | None => Ok (mkWindow 0 "" "") end in
  Ok (no_observations <| om_Window := w |>
    <| om_Global := match po_Global f with Some g => partial_global g | None => no_global end |>
    <| om_Endpoints := partial_endpoint <$> po_Endpoints f |> <| om_TopicBrokers := partial_topic <$> po_TopicBrokers f |>
    <| om_QueueBrokers := partial_queue <$> po_QueueBrokers f |>
    <| om_InstanceRouting := partial_routing <$> po_InstanceRouting f |>).
Definition DecodeObservedMetrics (format payload : string) : go ObservedMetrics :=
  let f := TrimSpace (ToLower format) in
  if is_empty f || String.eqb f "simulator_export" then ObservedFromSimulatorExportJSON payload
  else if String.eqb f "observed_metrics" then ObservedFromPartialJSON payload
  else if String.eqb f "prometheus_json" then ObservedFromPrometheusLikeJSON payload
  else Fail ("unknown observed format " +:+ Quote format +:+ " (supported: simulator_export, observed_metrics, prometheus_json)").
End Formats.
