(* ===== verification/CalibrationCheckSpec.v ===== *)
(** What a validation report means ([internal/calibration/validate.go]): which simulations it
    rests on, that nothing observed is left unchecked, and which errors it puts first. *)
From S2P Require Import Prelude GoFloat Utils Policy Config BrokerQueue RunMetrics RunStore SimState ServiceModel EngineMetrics CalibrationData CalibrationCheck CalibrationImport.
From Stdlib Require Import SpecFloat.
#[local] Open Scope string_scope.
#[local] Open Scope list_scope.
#[local] Open Scope Z_scope.

(** * The largest errors *)


Lemma not_above x y : is_nan x = false → is_nan y = false → fgt y x = false → fleb y x = true.
Proof. intros Hx Hy H. by apply fltb_false. Qed.

(** * Comparisons *)


(** * What a report has to contain *)


(** ** Aggregates *)

Definition sum (l : list float64) : float64 := foldl fadd f0 l.
Definition mean_of (l : list float64) (p : option float64) : Prop :=
  match p with Some p => l ≠ [] ∧ p = fdiv (sum l) (f64_of_Z (len l)) | None => l = [] end.
Definition largest (l : list float64) (p : option float64) : Prop :=
  match p with
  | Some p => p ∈ l ∧ (Forall (λ x, is_nan x = false) l → ∀ x, x ∈ l → fleb x p = true)
  | None => l = []
  end.
(** The largest, if there is a positive one, and otherwise zero. *)
Definition worst (l : list float64) (p : option float64) : Prop :=
  ∃ m, p = Some m ∧ (m = f0 ∨ m ∈ l) ∧ fleb f0 m = true ∧ ∀ x, x ∈ l → is_nan x = false → fleb x m = true.
Definition worst_count (l : list Z) (p : option float64) : Prop :=
  ∃ n, p = Some (f64_of_Z n) ∧ (n = 0 ∨ n ∈ l) ∧ 0 ≤ n ∧ ∀ x, x ∈ l → x ≤ n.
Definition total (l : list float64) (p : option float64) : Prop := p = Some (sum l).
Definition sumZ (l : list Z) : Z := foldr Z.add 0 l.
Definition total_count (l : list Z) (p : option float64) : Prop := p = Some (f64_of_Z (wrap64 (sumZ l))).
(** What is observed of several rows: nothing if no row states it. *)
Definition of_rows {A} (P : list A → option float64 → Prop) (l : list A) (v : float64) : Prop := l ≠ [] ∧ P l (Some v).
Definition stated (o : option float64) (v : float64) : Prop := o = Some v.
(** Drops of the attempts of all rows that count drops; each of these must tell its attempts. *)
Definition drop_rate {A} (row : A → option (option (Z * Z))) (l : list A) (v : float64) : Prop :=
  ∃ rows, mapM id (omap row l) = Some rows ∧ rows ≠ [] ∧ 0 < wrap64 (sumZ rows.*2)
    ∧ v = fdiv (f64_of_Z (wrap64 (sumZ rows.*1))) (f64_of_Z (wrap64 (sumZ rows.*2))).
(** Drops and attempts of a queue: the publish attempts or else what was enqueued or dropped. *)
Definition queue_row (q : QueueBrokerObservation) : option (option (Z * Z)) :=
  d ← qo_DropCount q;
  Some (match qo_QueuePublishAttemptCount q with
        | Some n => Some (d, n)
        | None => n ← qo_EnqueueCount q; Some (d, n + d)
        end).
Definition topic_row (t : TopicBrokerObservation) : option (option (Z * Z)) :=
  d ← to_DropCount t; Some (n ← to_TopicDeliverCount t; Some (d, n + d)).

(** ** Quantities of a whole run *)


(** ** Quantities of endpoints *)


(** ** Routes *)


(** * Reporting *)



(** ** Aggregates *)

Lemma sum_over_sum {A} (f : A → float64) l : sum_over f l = sum (f <$> l).
Proof.
  unfold sum_over, sum. generalize f0. induction l as [|x l IH]; intros a; simpl; [done|]. apply IH.
Qed.
Lemma max_over_worst {A} (f : A → float64) l : worst (f <$> l) (Some (max_over f l)).
Proof.
  unfold max_over. cut (∀ m, is_nan m = false → let r := foldl (λ m x, if fgt (f x) m then f x else m) m l in
    (r = m ∨ r ∈ f <$> l) ∧ fleb m r = true ∧ ∀ x, x ∈ f <$> l → is_nan x = false → fleb x r = true).
  { intros H. eexists. split; [done|]. by apply H. }
  induction l as [|y l IH]; intros m Hm; simpl.
  { split_and!; [by left|by apply fleb_refl|]. by intros x ?%not_elem_of_nil. }
  destruct (fgt (f y) m) eqn:E.
  - destruct (fltb_not_nan _ _ E) as [_ Hy]. destruct (IH (f y) Hy) as (H1 & H2 & H3). split_and!.
    + right. destruct H1 as [->|H1]; by constructor.
    + eapply fleb_trans; [by apply fltb_fleb|done].
    + intros x [->|Hx]%elem_of_cons Hn; auto.
  - destruct (IH m Hm) as (H1 & H2 & H3). split_and!; [|done|].
    + destruct H1 as [->|H1]; [by left|right; by constructor].
    + intros x [->|Hx]%elem_of_cons Hn; [|auto]. apply (fleb_trans _ m); [by apply not_above|done].
Qed.
Lemma max_count_worst {A} (f : A → Z) l : worst_count (f <$> l) (Some (f64_of_Z (max_count f l))).
Proof.
  unfold max_count. cut (∀ m, let r := foldl (λ m x, if m <? f x then f x else m) m l in
    (r = m ∨ r ∈ f <$> l) ∧ m ≤ r ∧ ∀ x, x ∈ f <$> l → x ≤ r).
  { intros H. eexists. split; [done|]. by apply H. }
  induction l as [|y l IH]; intros m; simpl.
  { split_and!; [by left|lia|]. by intros x ?%not_elem_of_nil. }
  destruct (Z.ltb_spec m (f y)).
  - destruct (IH (f y)) as (H1 & H2 & H3). split_and!; [|lia|].
    + right. destruct H1 as [->|H1]; by constructor.
    + intros x [->|Hx]%elem_of_cons; auto.
  - destruct (IH m) as (H1 & H2 & H3). split_and!; [|lia|].
    + destruct H1 as [->|H1]; [by left|right; by constructor].
    + intros x [->|Hx]%elem_of_cons; [lia|auto].
Qed.
Lemma max_floats_largest l : largest l (max_floats l).
Proof.
  unfold max_floats. destruct l as [|y l]; [done|]. simpl.
  cut (∀ m, ∃ r, foldl (λ m x, match m with Some y => if fgt x y then Some x else Some y | None => Some x end) (Some m) l = Some r
    ∧ r ∈ m :: l ∧ (Forall (λ x, is_nan x = false) (m :: l) → ∀ x, x ∈ m :: l → fleb x r = true)).
  { intros H. destruct (H y) as (r & -> & H1 & H2). done. }
  induction l as [|z l IH]; intros m; simpl.
  { exists m. split_and!; [done|by left|]. intros [Hm _]%Forall_cons x ->%list_elem_of_singleton. by apply fleb_refl. }
  destruct (fgt z m) eqn:E.
  - destruct (IH z) as (r & -> & H1 & H2). exists r. split_and!; [done|by right|].
    intros [Hm Hl]%Forall_cons x [->|Hx]%elem_of_cons; [|by apply H2].
    apply (fleb_trans _ z); [by apply fltb_fleb|]. apply H2; [done|by left].
  - destruct (IH m) as (r & -> & H1 & H2). exists r. split_and!; [done|set_solver|].
    intros Hn. rewrite !Forall_cons in Hn. destruct Hn as (Hm & Hz & Hl).
    assert (Hr : ∀ x, x ∈ m :: l → fleb x r = true) by (apply H2; by constructor).
    intros x [->|[->|Hx]%elem_of_cons]%elem_of_cons; [apply Hr; by left| |apply Hr; by right].
    apply (fleb_trans _ m); [by apply not_above|apply Hr; by left].
Qed.
Lemma sum_ints_total l : sum_ints l = wrap64 (sumZ l).
Proof.
  unfold sum_ints. cut (∀ a, foldl (λ s n, wrap64 (s + n)) (wrap64 a) l = wrap64 (a + sumZ l)); [intros H; apply (H 0)|].
  induction l as [|x l IH]; intros a; simpl; [by rewrite Z.add_0_r|]. by rewrite wrap64_add, IH, Z.add_assoc.
Qed.
(** Drops, attempts and whether a row counted drops, after further rows. *)
Definition add_rows (acc : Z * Z * bool) (rows : list (Z * Z)) : Z * Z * bool :=
  (wrap64 (acc.1.1 + sumZ rows.*1), wrap64 (acc.1.2 + sumZ rows.*2), acc.2 || negb (bool_decide (rows = []))).
Definition row_step {A S} (row : A → option (option (Z * Z))) (view : S → Z * Z * bool) (step : option S → A → option S) : Prop :=
  ∀ a, step None a = None ∧ ∀ s, view <$> step (Some s) a =
    match row a with None => Some (view s) | Some None => None | Some (Some r) => Some (add_rows (view s) [r]) end.
Lemma drops_rows {A S} row view (step : option S → A → option S) l : row_step row view step → ∀ s,
  view s = add_rows (view s) [] →
  view <$> foldl step (Some s) l = add_rows (view s) <$> mapM id (omap row l).
Proof.
  intros Hstep. induction l as [|a l IH]; intros s Hs; simpl; [by f_equal|].
  destruct (Hstep a) as [_ Ha]. specialize (Ha s).
  assert (Hnone : foldl step None l = None) by (clear -Hstep; induction l as [|b l IH]; simpl; [done|by rewrite (proj1 (Hstep b))]).
  change (list_omap _ _ row l) with (omap row l).
  destruct (row a) as [[[d n]|]|]; simpl in Ha |- *.
  - apply fmap_Some in Ha as (s' & -> & E). rewrite IH.
    + destruct (mapM id (omap row l)) as [rows|]; simpl; [|done]. f_equal. rewrite <- E. unfold add_rows. simpl.
      rewrite !wrap64_add, orb_true_r, !Z.add_assoc, !Z.add_0_r. by rewrite <- !Z.add_assoc.
    + rewrite <- E. unfold add_rows. simpl. by rewrite !wrap64_add, !Z.add_0_r, orb_false_r.
  - apply fmap_None in Ha as ->. by rewrite Hnone.
  - apply fmap_Some in Ha as (s' & -> & E). rewrite IH; [|by rewrite <- E]. by rewrite <- E.
Qed.
Lemma queue_row_step : row_step queue_row (λ '(d, n, _, saw), (d, n, saw)) queue_drops.
Proof.
  intros q. split; [done|]. intros [[[d n] approx] saw]. unfold queue_row, queue_drops, add_rows. cbn [mbind option_bind].
  destruct (qo_DropCount q) as [dq|]; [|done].
  destruct (qo_QueuePublishAttemptCount q) as [m|]; [|destruct (qo_EnqueueCount q) as [m|]; [|done]]; simpl;
    rewrite !Z.add_0_r, orb_true_r; [done|].
  by rewrite (Z.add_comm n), wrap64_add, (Z.add_comm n).
Qed.
Lemma topic_row_step : row_step topic_row id topic_drops.
Proof.
  intros t. split; [done|]. intros [[d n] saw]. unfold topic_row, topic_drops, add_rows. cbn [mbind option_bind].
  destruct (to_DropCount t) as [dt|]; [|done]. destruct (to_TopicDeliverCount t) as [m|]; [|done].
  simpl. rewrite !Z.add_0_r, orb_true_r. by rewrite (Z.add_comm n), wrap64_add, (Z.add_comm n).
Qed.
(** What is observed is the drop rate of the rows. *)
Definition observes (O : float64 → Prop) (o : option float64) : Prop := (∀ v, o = Some v → O v) ∧ (o = None → ∀ v, ¬ O v).
Lemma drop_rate_observes {A S} row view (step : option S → A → option S) l s0 (out : option S → option float64) :
  row_step row view step → view s0 = (0, 0, false) →
  out None = None → (∀ s, out (Some s) = let '(d, n, saw) := view s in
    if negb saw then None else if n <=? 0 then None else Some (fdiv (f64_of_Z d) (f64_of_Z n))) →
  observes (drop_rate row l) (out (foldl step (Some s0) l)).
Proof.
  intros Hstep H0 Hnone Hsome. pose proof (drops_rows row view step l Hstep s0) as H. rewrite H0 in H. specialize (H eq_refl).
  unfold observes, drop_rate. destruct (foldl step _ l) as [s|]; simpl in H.
  - symmetry in H. apply fmap_Some in H as (rows & Hrows & E). rewrite Hsome, E. unfold add_rows.
    cbn [fst snd orb negb]. rewrite !Z.add_0_l. case_bool_decide as Hr; cbn [negb]; [split; [done|]; intros _ v (rows' & ? & ? & _); naive_solver|].
    destruct (Z.leb_spec (wrap64 (sumZ rows.*2)) 0) as [Hn|Hn].
    + split; [done|]. intros _ v (rows' & ? & ? & ? & _). simplify_eq. lia.
    + split; [|done]. intros v ?. simplify_eq. eauto 6.
  - symmetry in H. apply fmap_None in H. rewrite Hnone, H. split; [done|]. intros _ v (rows' & ? & _). done.
Qed.
Lemma queue_rate_observes o : observes (drop_rate queue_row (om_QueueBrokers o)) (aggregateQueueDropRateObserved o).1.
Proof.
  unfold aggregateQueueDropRateObserved.
  apply (drop_rate_observes queue_row _ queue_drops _ (0, 0, false, false)
    (λ r, (match r with
           | None => (None, _)
           | Some (drops, attempts, approx, saw) =>
               if negb saw then (None, [])
               else if attempts <=? 0 then (None, _)
               else (Some (fdiv (f64_of_Z drops) (f64_of_Z attempts)), if approx then _ else [])
           end).1) queue_row_step); [done..|].
  intros [[[d n] approx] saw]. by destruct (negb saw), (n <=? 0).
Qed.
Lemma topic_rate_observes o : observes (drop_rate topic_row (om_TopicBrokers o)) (aggregateTopicDropRateObserved o).1.
Proof.
  unfold aggregateTopicDropRateObserved.
  apply (drop_rate_observes topic_row _ topic_drops _ (0, 0, false)
    (λ r, (match r with
           | None => (None, _)
           | Some (drops, attempts, saw) =>
               if negb saw then (None, [])
               else if attempts <=? 0 then (None, _)
               else (Some (fdiv (f64_of_Z drops) (f64_of_Z attempts)), [])
           end).1) topic_row_step); [done..|].
  intros [[d n] saw]. simpl. by destruct (negb saw), (n <=? 0).
Qed.
Lemma stated_observes o : observes (stated o) o.
Proof. split; [done|]. by intros -> v ?. Qed.
Lemma if_any_observes {A} (P : list A → option float64 → Prop) (f : list A → float64) l :
  (l ≠ [] → P l (Some (f l))) → observes (of_rows P l) (if_any f l).
Proof.
  intros H. destruct l as [|x l]; simpl; [by split; [|intros _ v []]|]. split; [|done].
  intros v [= <-]. split; [done|by apply H].
Qed.
Lemma max_observes l : observes (of_rows worst l) (if_any (max_over id) l).
Proof. apply if_any_observes. intros _. pose proof (max_over_worst id l) as H. by rewrite list_fmap_id in H. Qed.
Lemma sum_observes l : observes (of_rows total l) (if_any sum_floats l).
Proof. apply if_any_observes. intros _. unfold total, sum_floats. by rewrite sum_over_sum, list_fmap_id. Qed.
Lemma mean_observes l : observes (of_rows mean_of l) (if_any (λ l, fdiv (sum_floats l) (f64_of_Z (len l))) l).
Proof. apply if_any_observes. intros Hl. unfold mean_of, sum_floats. by rewrite sum_over_sum, list_fmap_id. Qed.
Lemma count_observes l : observes (of_rows total_count l) (f64_of_Z <$> if_any sum_ints l).
Proof.
  replace (f64_of_Z <$> if_any sum_ints l) with (if_any (f64_of_Z ∘ sum_ints) l) by by destruct l.
  apply if_any_observes. intros _. unfold total_count. simpl. by rewrite sum_ints_total.
Qed.
Lemma largest_observes l : observes (of_rows largest l) (max_floats l).
Proof.
  pose proof (max_floats_largest l) as H. destruct (max_floats l) as [m|] eqn:E.
  - split; [|done]. intros v [= <-]. split; [|done]. by intros ->.
  - split; [done|]. intros _ v [Hl _]. by apply Hl.
Qed.
Lemma mean_over_mean {A} (f : A → float64) l : l ≠ [] → mean_of (f <$> l) (Some (fdiv (sum_over f l) (f64_of_Z (len l)))).
Proof. intros Hl. split; [by destruct l|]. unfold len. by rewrite sum_over_sum, length_fmap. Qed.
#[local] Hint Resolve stated_observes max_observes sum_observes mean_observes count_observes largest_observes
  queue_rate_observes topic_rate_observes : observed.
#[local] Hint Resolve max_over_worst max_count_worst mean_over_mean : predicted.
#[local] Hint Extern 1 (_ :: _ ≠ []) => discriminate : predicted.

(** ** Tables *)

(** * Endpoint checks *)



(** * Error rates and routes *)



(** * All checks *)

(** * The predictions *)


(** ** Latencies *)


(** ** Error rates *)


(** ** Routes *)


(** * Reports *)



(** ** A run validated against its own metrics *)

(** Two services: requests wait 4 ms at the gateway and 2 ms at the database. *)
Definition waiting (name : string) (wait : Z) : EngineServiceMetrics :=
  zero_service <| es_ServiceName := name |> <| es_RequestCount := 10 |> <| es_QueueWaitMeanMs := f64_of_Z wait |>.
Definition golden_run : EngineRunMetrics :=
  zero_run <| em_LatencyP95 := f64_of_Z 20 |> <| em_IngressThroughputRPS := f64_of_Z 5 |>
    <| em_ServiceMetrics := <["gw" := waiting "gw" 4]> (<["db" := waiting "db" 2]> ∅) |>.
Definition golden_observations : ObservedMetrics := FromRunMetrics map_to_list map_to_list (Some golden_run) (10 * Second).
Definition golden_validation : go ValidationReport :=
  ValidateScenario_calibration (λ _ _ _ _, Ok golden_run) (Some sample_scenario) (Some golden_observations) 10000 None.
Definition failed_checks (r : go ValidationReport) : list string :=
  match r with Ok rep => mc_Name <$> filter (λ c, mc_Pass c = false) (vr_Checks rep) | _ => [] end.
(** The mean over endpoints is compared with the largest mean of a service, so that a run
    that reproduces every metric exactly still fails. *)
Example golden_run_fails : failed_checks golden_validation = ["queue_wait_mean_ms"].
Proof. vm_compute. reflexivity. Qed.
(** The loose profile leaves four tolerances at zero, the strict one does not. *)
Example loose_is_stricter :
  vt_LocalityRateAbs LooseValidationTolerances = f0 ∧ fgt (vt_LocalityRateAbs StrictValidationTolerances) f0 = true.
Proof. split; vm_compute; reflexivity. Qed.
