(* ===== verification/CalibrationImportSpec.v ===== *)
(** Imported observations ([internal/calibration/import_prometheus_expand.go]): the rows found by
    linear scans are finite maps keyed by labels, and every sample is recorded. *)
From S2P Require Import Prelude GoFloat Utils Policy Config BrokerQueue RunMetrics RunStore SimState ServiceModel EngineMetrics CalibrationData CalibrationCheck CalibrationImport.
From Stdlib Require Import SpecFloat.
#[local] Open Scope string_scope.
#[local] Open Scope list_scope.
#[local] Open Scope Z_scope.

(** * Tables and maps *)

Section Upsert.
Context {A K} `{Countable K} (key : A → K).
Definition as_map (l : list A) : gmap K A := list_to_map ((λ x, (key x, x)) <$> l).
Definition put_row (k : K) (new : A) (fn : A → A) (m : gmap K A) : gmap K A := <[k := fn (default new (m !! k))]> m.
Context (k : K) (same : A → bool) (new : A) (fn : A → A).
Context (Hsame : ∀ x, same x = true ↔ key x = k) (Hnew : key new = k) (Hfn : ∀ x, key (fn x) = key x).

Lemma upsert_keys l : key <$> upsert same new fn l = if bool_decide (k ∈ key <$> l) then key <$> l else (key <$> l) ++ [k].
Proof.
  induction l as [|x l IH]; csimpl; [by rewrite Hfn, Hnew|]. destruct (same x) eqn:E; csimpl.
  - apply Hsame in E. rewrite Hfn, bool_decide_eq_true_2; [done|]. rewrite E. by left.
  - assert (k ≠ key x) by (intros ?; assert (same x = true) by (by apply Hsame); congruence).
    rewrite IH. case_bool_decide as H1; case_bool_decide as H2; try done; exfalso.
    + apply H2. by right.
    + by apply elem_of_cons in H2 as [?|?].
Qed.
Lemma upsert_unique l : NoDup (key <$> l) → NoDup (key <$> upsert same new fn l).
Proof.
  intros Hl. rewrite upsert_keys. case_bool_decide as Hk; [done|]. apply NoDup_app. split_and!; [done| |apply NoDup_singleton].
  intros x Hx ->%list_elem_of_singleton. done.
Qed.
Lemma upsert_map l : as_map (upsert same new fn l) = put_row k new fn (as_map l).
Proof.
  unfold as_map, put_row. induction l as [|x l IH]; csimpl; [by rewrite Hfn, Hnew|]. destruct (same x) eqn:E; csimpl.
  - apply Hsame in E. rewrite Hfn, E, lookup_insert_eq, insert_insert_eq. done.
  - assert (key x ≠ k) by (intros ?; assert (same x = true) by (by apply Hsame); congruence).
    rewrite IH, lookup_insert_ne by done. by rewrite insert_insert_ne by done.
Qed.
End Upsert.

(** * Observations as maps *)

Definition endpoint_key (e : EndpointObservation) : string * string := (eo_ServiceID e, eo_EndpointPath e).
Definition queue_key (q : QueueBrokerObservation) : string * string := (qo_BrokerService q, qo_Topic q).
Definition topic_key (t : TopicBrokerObservation) : string * string * Z * string :=
  (to_BrokerService t, to_Topic t, to_Partition t, to_ConsumerGroup t).
Record ObservationMaps := mkMaps {
  vm_Global : GlobalObservation;
  vm_Services : gmap string ServiceObservation;
  vm_Endpoints : gmap (string * string) EndpointObservation;
  vm_Queues : gmap (string * string) QueueBrokerObservation;
  vm_Topics : gmap (string * string * Z * string) TopicBrokerObservation;
}.
#[export] Instance eta_ObservationMaps : Eta ObservationMaps := λ m, mkMaps (vm_Global m) (vm_Services m) (vm_Endpoints m)
  (vm_Queues m) (vm_Topics m).
Definition as_maps (o : ObservedMetrics) : ObservationMaps :=
  mkMaps (om_Global o) (as_map so_ServiceID (om_Services o)) (as_map endpoint_key (om_Endpoints o))
    (as_map queue_key (om_QueueBrokers o)) (as_map topic_key (om_TopicBrokers o)).
(** No key has two rows. *)
Definition unique_rows (o : ObservedMetrics) : Prop :=
  NoDup (so_ServiceID <$> om_Services o) ∧ NoDup (endpoint_key <$> om_Endpoints o) ∧ NoDup (queue_key <$> om_QueueBrokers o)
  ∧ NoDup (topic_key <$> om_TopicBrokers o).
(** What a sample says. *)
Definition label (labels : gmap string string) (k : string) : string := default "" (labels !! k).
Inductive recorded (metric : string) (labels : gmap string string) (v : float64) (m : ObservationMaps) : ObservationMaps → Prop :=
  | rec_global set : (TrimSpace (ToLower metric), set) ∈ global_metrics →
      recorded metric labels v m (m <| vm_Global := set v (vm_Global m) |>)
  | rec_service set id : (TrimSpace (ToLower metric), set) ∈ service_metrics → label labels "service" = id → id ≠ EmptyString →
      recorded metric labels v m (m <| vm_Services := put_row id (mkServiceObs id None None) (set v) (vm_Services m) |>)
  | rec_endpoint set svc ep : (TrimSpace (ToLower metric), set) ∈ endpoint_metrics → label labels "service" = svc →
      label labels "endpoint" = ep → svc ≠ EmptyString → ep ≠ EmptyString →
      recorded metric labels v m (m <| vm_Endpoints := put_row (svc, ep) (no_endpoint svc ep) (set v) (vm_Endpoints m) |>)
  | rec_queue set b t : (TrimSpace (ToLower metric), set) ∈ queue_metrics → label labels "broker_service" = b →
      label labels "topic" = t → b ≠ EmptyString → t ≠ EmptyString →
      recorded metric labels v m (m <| vm_Queues := put_row (b, t) (mkQueueObs b t None None None None None None None) (set v) (vm_Queues m) |>)
  | rec_topic set b t p g : (TrimSpace (ToLower metric), set) ∈ topic_metrics → label labels "broker_service" = b →
      label labels "topic" = t → partition_of labels = p → label labels "consumer_group" = g → b ≠ EmptyString → t ≠ EmptyString →
      recorded metric labels v m (m <| vm_Topics := put_row (b, t, p, g) (mkTopicObs b t p g None None None None None None None)
        (set v) (vm_Topics m) |>).
(** The samples of a file, one after the other. *)
Inductive all_recorded (ParseFloat : string → go float64) : list prometheusSample → ObservationMaps → ObservationMaps → Prop :=
  | all_none m : all_recorded ParseFloat [] m m
  | all_some s l v m1 m2 m3 : parseJSONNumber ParseFloat (sa_Value s) = Ok v → recorded (sa_Metric s) (sa_Labels s) v m1 m2 →
      all_recorded ParseFloat l m2 m3 → all_recorded ParseFloat (s :: l) m1 m3.

(** * The refinement *)

Lemma switch_elem {A} (cases : list (string * A)) m f : switch cases m = Some f → (m, f) ∈ cases.
Proof.
  unfold switch. destruct (List.find _ cases) as [[k g]|] eqn:E; simpl; intros [= <-].
  apply List.find_some in E as [H E]. apply String.eqb_eq in E. simpl in E. subst k. by apply list_elem_of_In.
Qed.
(** Setters do not change keys. *)
Lemma service_setter m set v x : (m, set) ∈ service_metrics → so_ServiceID (set v x) = so_ServiceID x.
Proof. unfold service_metrics. rewrite !elem_of_cons, elem_of_nil. intros; destruct_or!; by simplify_eq. Qed.
Lemma endpoint_setter m set v x : (m, set) ∈ endpoint_metrics → endpoint_key (set v x) = endpoint_key x.
Proof. unfold endpoint_metrics. rewrite !elem_of_cons, elem_of_nil. intros; destruct_or!; by simplify_eq. Qed.
Lemma queue_setter m set v x : (m, set) ∈ queue_metrics → queue_key (set v x) = queue_key x.
Proof. unfold queue_metrics. rewrite !elem_of_cons, elem_of_nil. intros; destruct_or!; by simplify_eq. Qed.
Lemma topic_setter m set v x : (m, set) ∈ topic_metrics → topic_key (set v x) = topic_key x.
Proof. unfold topic_metrics. rewrite !elem_of_cons, elem_of_nil. intros; destruct_or!; by simplify_eq. Qed.
(** Every name belongs to one table. *)
Definition table_of (m : string) : list nat :=
  omap id [(λ _, 0%nat) <$> switch global_metrics m; (λ _, 1%nat) <$> switch service_metrics m; (λ _, 2%nat) <$> switch endpoint_metrics m;
           (λ _, 3%nat) <$> switch queue_metrics m; (λ _, 4%nat) <$> switch topic_metrics m].
Definition named {A} (n : nat) (cases : list (string * A)) : Prop :=
  ∀ m set, (m, set) ∈ cases → switch cases m = Some set ∧ table_of m = [n].
Ltac names := intros ? ? H; rewrite !elem_of_cons, elem_of_nil in H; destruct_or!; simplify_eq; done.
Lemma global_names : named 0 global_metrics.
Proof. unfold named, global_metrics at 1. names. Qed.
Lemma service_names : named 1 service_metrics.
Proof. unfold named, service_metrics at 1. names. Qed.
Lemma endpoint_names : named 2 endpoint_metrics.
Proof. unfold named, endpoint_metrics at 1. names. Qed.
Lemma queue_names : named 3 queue_metrics.
Proof. unfold named, queue_metrics at 1. names. Qed.
Lemma topic_names : named 4 topic_metrics.
Proof. unfold named, topic_metrics at 1. names. Qed.
(** The rows of each table. *)
Lemma service_rows m set v id l : (m, set) ∈ service_metrics →
  as_map so_ServiceID (upsertServiceObs id (set v) l) = put_row id (mkServiceObs id None None) (set v) (as_map so_ServiceID l)
  ∧ (NoDup (so_ServiceID <$> l) → NoDup (so_ServiceID <$> upsertServiceObs id (set v) l)).
Proof.
  intros Hm. assert (∀ x, String.eqb (so_ServiceID x) id = true ↔ so_ServiceID x = id) by (intros; apply String.eqb_eq).
  split; [apply upsert_map|eapply upsert_unique]; try done; intros; by eapply service_setter.
Qed.
Lemma endpoint_rows m set v svc ep l : (m, set) ∈ endpoint_metrics →
  as_map endpoint_key (upsertEndpointObs svc ep (set v) l) =
    put_row (svc, ep) (no_endpoint svc ep) (set v) (as_map endpoint_key l)
  ∧ (NoDup (endpoint_key <$> l) → NoDup (endpoint_key <$> upsertEndpointObs svc ep (set v) l)).
Proof.
  intros Hm. assert (∀ x, String.eqb (eo_ServiceID x) svc && String.eqb (eo_EndpointPath x) ep = true ↔ endpoint_key x = (svc, ep)).
  { intros x. unfold endpoint_key. rewrite andb_true_iff, !String.eqb_eq. naive_solver. }
  split; [apply upsert_map|eapply (upsert_unique _ (svc, ep))]; try done; intros; by eapply endpoint_setter.
Qed.
Lemma queue_rows m set v b t l new : (m, set) ∈ queue_metrics → new = mkQueueObs b t None None None None None None None →
  as_map queue_key (upsertQueueBrokerObs b t (set v) l) = put_row (b, t) new (set v) (as_map queue_key l)
  ∧ (NoDup (queue_key <$> l) → NoDup (queue_key <$> upsertQueueBrokerObs b t (set v) l)).
Proof.
  intros Hm ->. assert (∀ x, String.eqb (qo_BrokerService x) b && String.eqb (qo_Topic x) t = true ↔ queue_key x = (b, t)).
  { intros x. unfold queue_key. rewrite andb_true_iff, !String.eqb_eq. naive_solver. }
  split; [apply upsert_map|eapply (upsert_unique _ (b, t))]; try done; intros; by eapply queue_setter.
Qed.
Lemma topic_rows m set v b t p g l new : (m, set) ∈ topic_metrics → new = mkTopicObs b t p g None None None None None None None →
  as_map topic_key (upsertTopicBrokerObs b t p g (set v) l) = put_row (b, t, p, g) new (set v) (as_map topic_key l)
  ∧ (NoDup (topic_key <$> l) → NoDup (topic_key <$> upsertTopicBrokerObs b t p g (set v) l)).
Proof.
  intros Hm ->. assert (∀ x, String.eqb (to_BrokerService x) b && String.eqb (to_Topic x) t && (to_Partition x =? p)
    && String.eqb (to_ConsumerGroup x) g = true ↔ topic_key x = (b, t, p, g)).
  { intros x. unfold topic_key. rewrite !andb_true_iff, !String.eqb_eq, Z.eqb_eq. naive_solver. }
  split; [apply upsert_map|eapply (upsert_unique _ (b, t, p, g))]; try done; intros; by eapply topic_setter.
Qed.
Lemma recorded_eq metric labels v m m1 m2 : recorded metric labels v m m1 → m1 = m2 → recorded metric labels v m m2.
Proof. by intros ? <-. Qed.
Lemma dispatch_recorded metric labels v o o' : unique_rows o → dispatchPrometheusSample metric labels v o = Ok o' →
  unique_rows o' ∧ recorded metric labels v (as_maps o) (as_maps o').
Proof.
  intros (Hs & He & Hq & Ht). unfold dispatchPrometheusSample.
  destruct (switch global_metrics _) as [set|] eqn:E1.
  { intros [= <-]. split; [by split_and!|]. by eapply rec_global, switch_elem. }
  destruct (switch service_metrics _) as [set|] eqn:E2.
  { apply switch_elem in E2. case_match eqn:L; [done|]. intros [= <-]. apply is_empty_false in L.
    destruct (service_rows _ _ v (label labels "service") (om_Services o) E2) as [Hm Hu].
    split; [split_and!; try done; by apply Hu|]. eapply recorded_eq; [by eapply rec_service|].
    exact (f_equal (λ x, (as_maps o) <| vm_Services := x |>) (eq_sym Hm)). }
  destruct (switch endpoint_metrics _) as [set|] eqn:E3.
  { apply switch_elem in E3. case_match eqn:L; [done|]. intros [= <-]. apply orb_false_iff in L as [L1%is_empty_false L2%is_empty_false].
    destruct (endpoint_rows _ _ v (label labels "service") (label labels "endpoint") (om_Endpoints o) E3) as [Hm Hu].
    split; [split_and!; try done; by apply Hu|]. eapply recorded_eq; [by eapply rec_endpoint|].
    exact (f_equal (λ x, (as_maps o) <| vm_Endpoints := x |>) (eq_sym Hm)). }
  destruct (switch queue_metrics _) as [set|] eqn:E4.
  { apply switch_elem in E4. case_match eqn:L; [done|]. intros [= <-]. apply orb_false_iff in L as [L1%is_empty_false L2%is_empty_false].
    destruct (queue_rows _ _ v (label labels "broker_service") (label labels "topic") (om_QueueBrokers o) _ E4 eq_refl) as [Hm Hu].
    split; [split_and!; try done; by apply Hu|]. eapply recorded_eq; [by eapply rec_queue|].
    exact (f_equal (λ x, (as_maps o) <| vm_Queues := x |>) (eq_sym Hm)). }
  destruct (switch topic_metrics _) as [set|] eqn:E5; [|done].
  apply switch_elem in E5. case_match eqn:L; [done|]. intros [= <-]. apply orb_false_iff in L as [L1%is_empty_false L2%is_empty_false].
  destruct (topic_rows _ _ v (label labels "broker_service") (label labels "topic") (partition_of labels)
    (label labels "consumer_group") (om_TopicBrokers o) _ E5 eq_refl) as [Hm Hu].
  split; [split_and!; try done; by apply Hu|]. eapply recorded_eq; [by eapply rec_topic|].
  exact (f_equal (λ x, (as_maps o) <| vm_Topics := x |>) (eq_sym Hm)).
Qed.
(** A name found in one table is not in another. *)
Lemma only_table m n : table_of m = [n] →
  (n ≠ 0%nat → switch global_metrics m = None) ∧ (n ≠ 1%nat → switch service_metrics m = None) ∧
  (n ≠ 2%nat → switch endpoint_metrics m = None) ∧ (n ≠ 3%nat → switch queue_metrics m = None) ∧
  (n ≠ 4%nat → switch topic_metrics m = None).
Proof.
  unfold table_of. destruct (switch global_metrics m), (switch service_metrics m), (switch endpoint_metrics m),
    (switch queue_metrics m), (switch topic_metrics m); simpl; intros; simplify_eq; by split_and!.
Qed.
Lemma dispatch_complete metric labels v o m : recorded metric labels v (as_maps o) m →
  ∃ o', dispatchPrometheusSample metric labels v o = Ok o'.
Proof.
  unfold dispatchPrometheusSample.
  intros [set H|set id H <- L|set svc ep H <- <- L1 L2|set b t H <- <- L1 L2|set b t p g H <- <- <- <- L1 L2];
    [apply global_names in H|apply service_names in H|apply endpoint_names in H|apply queue_names in H|apply topic_names in H];
    destruct H as [-> (T0 & T1 & T2 & T3 & T4)%only_table]; rewrite ?T0, ?T1, ?T2, ?T3, ?T4 by done;
    unfold label in *; rewrite <- ?is_empty_false in *; [by eexists|rewrite L|rewrite L1, L2..]; by eexists.
Qed.
Lemma recorded_fun metric labels v m m1 m2 : recorded metric labels v m m1 → recorded metric labels v m m2 → m1 = m2.
Proof.
  assert (Hx : ∀ {A B} n1 n2 (c1 : list (string * A)) (c2 : list (string * B)) k f g, named n1 c1 → named n2 c2 → (k, f) ∈ c1 →
    (k, g) ∈ c2 → n1 = n2).
  { intros A B n1 n2 c1 c2 k f g H1 H2 [_ E1]%H1 [_ E2]%H2. congruence. }
  assert (Hf : ∀ {A} n (c : list (string * A)) k f g, named n c → (k, f) ∈ c → (k, g) ∈ c → f = g).
  { intros A n c k f g H1 [E1 _]%H1 [E2 _]%H1. congruence. }
  pose proof global_names as N0. pose proof service_names as N1. pose proof endpoint_names as N2.
  pose proof queue_names as N3. pose proof topic_names as N4.
  intros [f H|f id H <- L|f svc ep H <- <- L1 L2|f b t H <- <- L1 L2|f b t p g H <- <- <- <- L1 L2];
  intros [f' H'|f' id' H' <- L'|f' svc' ep' H' <- <- L1' L2'|f' b' t' H' <- <- L1' L2'|f' b' t' p' g' H' <- <- <- <- L1' L2'];
    try (exfalso; by eapply Hx in H; [|..|exact H']; eauto);
    by replace f' with f by (eapply Hf; [|exact H|exact H']; eauto).
Qed.
Lemma import_sound ParseFloat l : ∀ o o', unique_rows o → import_samples ParseFloat o l = Ok o' →
  unique_rows o' ∧ all_recorded ParseFloat l (as_maps o) (as_maps o').
Proof.
  induction l as [|s l IH]; intros o o' Ho H; simpl in H; [simplify_eq; split; [done|constructor]|].
  unfold import_sample in H. destruct (parseJSONNumber _ _) as [v| |] eqn:Ev; cbn [wrap_err go_bind] in H; try done.
  destruct (dispatchPrometheusSample _ _ _ _) as [o1| |] eqn:E; cbn [wrap_err go_bind] in H; try done.
  destruct (dispatch_recorded _ _ _ _ _ Ho E) as [Ho1 R]. destruct (IH _ _ Ho1 H) as [Ho' Rs].
  split; [done|]. by econstructor.
Qed.
Lemma import_complete ParseFloat l : ∀ o m, unique_rows o → all_recorded ParseFloat l (as_maps o) m →
  ∃ o', import_samples ParseFloat o l = Ok o' ∧ as_maps o' = m.
Proof.
  induction l as [|s l IH]; intros o m Ho H; inversion H as [|? ? v ? m2 ? Ev R Rs]; subst; simpl; [by eexists|].
  unfold import_sample. rewrite Ev. cbn [wrap_err go_bind].
  destruct (dispatch_complete _ _ _ _ _ R) as [o1 E]. destruct (dispatch_recorded _ _ _ _ _ Ho E) as [Ho1 R1].
  rewrite E. cbn [wrap_err go_bind]. apply IH; [done|]. by rewrite (recorded_fun _ _ _ _ _ _ R1 R).
Qed.
Lemma dispatch_window metric labels v o o' : dispatchPrometheusSample metric labels v o = Ok o' → om_Window o' = om_Window o.
Proof. unfold dispatchPrometheusSample. intros H. repeat case_match; by simplify_eq. Qed.
Lemma import_window ParseFloat l : ∀ o o', import_samples ParseFloat o l = Ok o' → om_Window o' = om_Window o.
Proof.
  induction l as [|s l IH]; intros o o' H; simpl in H; [by simplify_eq|]. unfold import_sample in H.
  destruct (parseJSONNumber _ _); cbn [wrap_err go_bind] in H; try done.
  destruct (dispatchPrometheusSample _ _ _ _) eqn:E; cbn [wrap_err go_bind] in H; try done.
  by rewrite (IH _ _ H), (dispatch_window _ _ _ _ _ E).
Qed.
(** C22: importing a Prometheus-like file succeeds exactly when every sample has a number, a
    known metric and the labels it needs; then every sample, in order, is recorded under its labels in
    finite maps of services, endpoints, queues and topics, a later sample replacing only its own
    field, and the rows of the result are one per key. *)
Theorem import_refines_maps json ParseFloat data f :
  json data = Ok f →
  (∀ m, all_recorded ParseFloat (pl_Samples f) (as_maps no_observations) m ↔
    ∃ out, ObservedFromPrometheusLikeJSON json ParseFloat data = Ok out ∧ as_maps out = m) ∧
  (∀ out, ObservedFromPrometheusLikeJSON json ParseFloat data = Ok out → unique_rows out ∧
    om_Window out = mkWindow (window_of (pl_WindowSeconds f)) "prometheus_like_json" EmptyString).
Proof.
  intros Hf. unfold ObservedFromPrometheusLikeJSON. rewrite Hf. cbn [wrap_err go_bind].
  set (o := no_observations <| om_Window := _ |>).
  assert (Ho : unique_rows o) by (split_and!; constructor).
  change (as_maps no_observations) with (as_maps o). split.
  - intros m. split; [by apply import_complete|]. intros (out & H & <-). by apply import_sound in H as [_ H].
  - intros out H. split; [by eapply import_sound|].
    change (mkWindow _ _ _) with (om_Window o). by eapply import_window.
Qed.

(** ** An import *)

Definition sample_labels : gmap string string := <["service" := "gw"]> (<["endpoint" := "/"]> ∅).
(** The second measurement of the tail replaces the first; a count is given as text. *)
Definition sample_file : prometheusLikeFile :=
  mkPrometheus (f64_of_Z 120)
    [mkSample "sim_endpoint_latency_p95_ms" sample_labels (Some (DFloat (f64_of_Z 30)));
     mkSample " SIM_Endpoint_request_count" sample_labels (Some (DString "7"));
     mkSample "sim_endpoint_latency_p95_ms" sample_labels (Some (DFloat (f64_of_Z 40)))].
Definition sample_float (s : string) : go float64 := if String.eqb s "7" then Ok (f64_of_Z 7) else Fail "invalid syntax".
Lemma import_refines_maps_witness :
  ∃ out, ObservedFromPrometheusLikeJSON (λ _, Ok sample_file) sample_float "{}" = Ok out ∧ unique_rows out
    ∧ om_Endpoints out = [(no_endpoint "gw" "/") <| eo_LatencyP95Ms := Some (f64_of_Z 40) |> <| eo_RequestCount := Some 7 |>]
    ∧ om_Window out = mkWindow (120 * Second) "prometheus_like_json" EmptyString
    ∧ all_recorded sample_float (pl_Samples sample_file) (as_maps no_observations) (as_maps out).
Proof.
  destruct (import_refines_maps (λ _, Ok sample_file) sample_float "{}" sample_file eq_refl) as [H1 H2].
  assert (E : ∃ out, ObservedFromPrometheusLikeJSON (λ _, Ok sample_file) sample_float "{}" = Ok out
    ∧ om_Endpoints out = [(no_endpoint "gw" "/") <| eo_LatencyP95Ms := Some (f64_of_Z 40) |> <| eo_RequestCount := Some 7 |>])
    by (eexists; split; vm_compute; reflexivity).
  destruct E as (out & E & Er). exists out. destruct (H2 _ E) as [Hu Hw]. split; [exact E|]. split; [exact Hu|].
  split; [exact Er|]. split; [rewrite Hw; vm_compute; reflexivity|]. apply H1. exists out. split; [exact E|reflexivity].
Defined.
