(* ===== verification/Server.v ===== *)
(** The gRPC server ([internal/simd/grpc_server.go]) and what it shares with the HTTP server: the
    state both act on, calls as state transformers that reply or refuse, and the sentinel
    errors that decide how a refusal is reported. *)
From S2P Require Import Prelude GoFloat Utils Policy Config Graph BatchSpec BrokerQueue ResourceManager RunMetrics RunStore Limits RunControl SimState Workload EngineMetrics RunConfig OnlineController Orchestrator.
From Stdlib Require Import SpecFloat.
#[local] Open Scope string_scope.
#[local] Open Scope list_scope.
#[local] Open Scope Z_scope.

(** * The state of the server *)

Abbreviation Record_ := (RunRecord (Metrics := RunMetrics) (Conf := RunConfiguration) (Step := ControllerStep)) (only parsing).
Abbreviation Exec := (Executor (Metrics := RunMetrics) (Conf := RunConfiguration) (Step := ControllerStep)) (only parsing).
(** The executor with its store, and what it keeps for the runs that execute. *)
Record Server := mkServer { sv_ex : Exec; sv_runs : LiveRuns }.
#[export] Instance eta_Server : Eta Server := λ s, mkServer (sv_ex s) (sv_runs s).
Definition sv_store (s : Server) := ex_store (sv_ex s).
(** What a call reads from outside: clocks, a fresh ID, the YAML library, the orders in which it
    visits maps (the [n]-th change of a configuration has its own), the way runs are sorted. *)
Record Env := mkEnv {
  env_generated : string;
  env_now : Z;
  env_wall : Time;
  env_clock : Z → Time;
  env_unmarshal : string → go Scenario;
  env_duration : Duration → string;
  env_instances : string → list string;
  env_visits : nat → list string * list string;
  env_sort : ∀ A : Type, (A → A → bool) → list A → list A;
  env_runs : list Record_;
}.

(** A call replies, refuses with a code and a message, or panics. *)
Inductive reply (E A : Type) := Reply (a : A) | Refuse (code : E) (msg : string) | Crash.
Arguments Reply {E A} a.
Arguments Refuse {E A} code msg.
Arguments Crash {E A}.
Definition Api (E A : Type) : Type := Server → reply E A * Server.
Definition ret {E A} (a : A) : Api E A := λ s, (Reply a, s).
Definition refuse {E A} (code : E) (msg : string) : Api E A := λ s, (Refuse code msg, s).
Definition bind {E A B} (m : Api E A) (k : A → Api E B) : Api E B := λ s,
  match m s with
  | (Reply a, s) => k a s
  | (Refuse code msg, s) => (Refuse code msg, s)
  | (Crash, s) => (Crash, s)
  end.
Declare Scope api_scope.
Delimit Scope api_scope with api.
Notation "x ← m ; k" := (bind m (λ x, k)) (at level 20, m at level 100, k at level 200, right associativity) : api_scope.
Notation "m ;; k" := (bind m (λ _, k)) (at level 100, k at level 200, right associativity) : api_scope.
#[local] Open Scope api_scope.
Definition refuse_if {E} (b : bool) (code : E) (msg : string) : Api E unit := if b then refuse code msg else ret tt.
Definition read {E A} (f : Server → A) : Api E A := λ s, (Reply (f s), s).
(** A call of the executor, whose errors are reported with the codes [code]. *)
Definition executor {E A} (code : string → E) (f : Exec → go A * Exec) : Api E A := λ s,
  match f (sv_ex s) with
  | (Ok a, e) => (Reply a, s <| sv_ex := e |>)
  | (Fail err, e) => (Refuse (code err) err, s <| sv_ex := e |>)
  | (Panic, e) => (Crash, s <| sv_ex := e |>)
  end.
(** A change of a run that executes. *)
Definition live {E} (code : string → E) (f : LiveRuns → go LiveRuns) : Api E unit := λ s,
  match f (sv_runs s) with
  | Ok runs => (Reply tt, s <| sv_runs := runs |>)
  | Fail err => (Refuse (code err) err, s)
  | Panic => (Crash, s)
  end.
(** The same for a change that may have had an effect when it fails. *)
Definition live_partial {E} (code : string → E) (f : LiveRuns → go (option string * LiveRuns)) : Api E unit := λ s,
  match f (sv_runs s) with
  | Ok (None, runs) => (Reply tt, s <| sv_runs := runs |>)
  | Ok (Some err, runs) => (Refuse (code err) err, s <| sv_runs := runs |>)
  | Fail err => (Refuse (code err) err, s)
  | Panic => (Crash, s)
  end.

(** * Errors *)

(** [errors.Is] for the errors of [Start], [RenewOnlineLease] and the changes of a run: these wrap the sentinels
    with ["%w: ..."], and none of their other errors begins with a sentinel's text. *)
Definition errors_Is (err sentinel : string) : bool := HasPrefix err sentinel.
(** The errors of [Stop]: [SetStatus] says "run not found" without wrapping the sentinel. *)
Definition stop_Is (err sentinel : string) : bool := String.eqb err ErrRunIDMissing && String.eqb sentinel ErrRunIDMissing.
Definition status_String (s : Status) : string :=
  match s with
  | UNSPECIFIED => "RUN_STATUS_UNSPECIFIED" | PENDING => "RUN_STATUS_PENDING" | RUNNING => "RUN_STATUS_RUNNING"
  | COMPLETED => "RUN_STATUS_COMPLETED" | FAILED => "RUN_STATUS_FAILED" | CANCELLED => "RUN_STATUS_CANCELLED"
  | STOPPED => "RUN_STATUS_STOPPED"
  end.

(** * Calls of the executor *)

(** The configuration that [Stop] stores and reports, if the run executes. *)
Definition no_configuration : RunConfiguration := mkRunConfiguration [] [] [] [].
Definition run_configuration (env : Env) (runID : string) (s : Server) : option RunConfiguration :=
  RunExecutor_GetRunConfiguration (env_instances env) (env_wall env) runID (sv_runs s).
(** [Executor.Stop] with the record it returns. *)
Definition executor_stop (env : Env) (cfg : RunConfiguration) (runID : string) (e : Exec) : go Record_ * Exec :=
  if is_empty runID then (Fail ErrRunIDMissing, e)
  else
    (match RunStore_SetStatus (env_now env) runID STOPPED "" (ex_store e) with
     | Ok (updated, _) => Ok updated
     | Fail err => Fail err
     | Panic => Panic
     end, RunExecutor_Stop (env_now env) cfg runID e).
Definition stop {E} (code : string → E) (env : Env) (runID : string) : Api E Record_ :=
  cfg ← read (run_configuration env runID); executor code (executor_stop env (default no_configuration cfg) runID).
Definition start {E} (code : string → E) (env : Env) (runID : string) : Api E Record_ :=
  executor code (RunExecutor_Start (env_unmarshal env) (env_duration env) (env_now env) runID).
Definition renew {E} (code : string → E) (env : Env) (runID : string) : Api E Record_ :=
  executor code (RunExecutor_RenewOnlineLease (env_wall env) runID).
(** [RunStore.Create], which the servers call on the store itself. *)
Definition create {E} (code : string → E) (env : Env) (runID : string) (input : RunInput) : Api E Record_ := λ s,
  match RunStore_Create (env_unmarshal env) (env_generated env) (env_now env) runID (Some input) (sv_store s) with
  | Ok (rec, st) => (Reply rec, s <| sv_ex := (sv_ex s) <| ex_store := st |> |>)
  | Fail err => (Refuse (code err) err, s)
  | Panic => (Crash, s)
  end.
Definition update_rate {E} (code : string → E) (env : Env) (runID key : string) (rate : float64) : Api E unit :=
  live code (RunExecutor_UpdateWorkloadRate (env_wall env) runID key rate).
Definition update_replicas {E} (code : string → E) (env : Env) (runID service : string) (replicas : Z) : Api E unit :=
  live_partial code (RunExecutor_UpdateServiceReplicas (env_clock env) (env_wall env) runID service replicas).
Definition update_sizes {E} (code : string → E) (env : Env) (n : nat) (runID service : string) (cpu mem : float64) : Api E unit :=
  live code (RunExecutor_UpdateServiceResources (env_visits env n).1 (env_visits env n).2 runID service cpu mem).

(** * The gRPC server *)

Inductive Code := InvalidArgument | NotFound | AlreadyExists | FailedPrecondition | ResourceExhausted | Internal.
Definition require (b : bool) (msg : string) : Api Code unit := refuse_if (negb b) InvalidArgument msg.
Definition create_code (err : string) : Code :=
  if errors_Is err ErrInvalidOnlineRunInput then InvalidArgument
  else if Contains err "already exists" then AlreadyExists else InvalidArgument.
Definition renew_code (err : string) : Code :=
  if errors_Is err ErrRunNotFound then NotFound else if errors_Is err ErrRunIDMissing then InvalidArgument else FailedPrecondition.
Definition start_code (err : string) : Code :=
  if errors_Is err ErrRunNotFound then NotFound else if errors_Is err ErrRunTerminal then FailedPrecondition
  else if errors_Is err ErrOnlineRunConcurrencyLimit then ResourceExhausted else Internal.
Definition stop_code (err : string) : Code :=
  if stop_Is err ErrRunNotFound then NotFound else if stop_Is err ErrRunIDMissing then InvalidArgument else Internal.
Definition update_code (err : string) : Code :=
  if errors_Is err ErrRunNotFound then NotFound else if errors_Is err ErrRunIDMissing then InvalidArgument else Internal.
Definition resources_code (err : string) : Code :=
  if errors_Is err ErrRunNotFound then NotFound else if errors_Is err ErrRunIDMissing then InvalidArgument
  else if errors_Is err ErrRunTerminal then FailedPrecondition else Internal.

(** [req] and its fields: a request that is nil is [None]. *)
Definition CreateRun (env : Env) (req : option (string * option RunInput)) : Api Code RunMsg :=
  match req with
  | Some (runID, Some input) => rec ← create create_code env runID input; ret (rr_Run rec)
  | _ => refuse InvalidArgument "input is required"
  end.
(** A request that names a run. *)
Definition with_run {A} (req : option string) (k : string → Api Code A) : Api Code A :=
  match req with
  | Some runID => require (negb (is_empty runID)) "run_id is required" ;; k runID
  | None => refuse InvalidArgument "run_id is required"
  end.
Definition RenewOnlineLease (env : Env) (req : option string) : Api Code RunMsg :=
  with_run req (λ runID, rec ← renew renew_code env runID; ret (rr_Run rec)).
Definition StartRun (env : Env) (req : option string) : Api Code RunMsg :=
  with_run req (λ runID, updated ← start start_code env runID; ret (rr_Run updated)).
Definition StopRun (env : Env) (req : option string) : Api Code RunMsg :=
  with_run req (λ runID, updated ← stop stop_code env runID; ret (rr_Run updated)).
Definition found {E A} (code : E) (runID : string) (k : Record_ → Api E A) : Api E A :=
  rec ← read (λ s, RunStore_Get runID (sv_store s)); match rec with Some rec => k rec | None => refuse code "run not found" end.
Definition GetRun (req : option string) : Api Code RunMsg :=
  with_run req (λ runID, found NotFound runID (λ rec, ret (rr_Run rec))).
Definition ListRuns (env : Env) (limit : option Z) : Api Code (list RunMsg) :=
  let limit := match limit with Some n => if 0 <? n then n else 50 | None => 50 end in
  ret (rr_Run <$> RunStore_ListFiltered (env_sort env) (env_runs env) limit 0 UNSPECIFIED).
Definition GetRunMetrics (req : option string) : Api Code RunMetrics :=
  with_run req (λ runID, found NotFound runID (λ rec,
    match rr_Metrics rec with Some m => ret m | None => refuse FailedPrecondition "metrics not available" end)).
Record UpdateWorkloadRateRequest := mkRateRequest { uw_RunId : string; uw_PatternKey : string; uw_RateRps : float64 }.
Definition is_running (rec : Record_) : bool := bool_decide (rr_Status rec = RUNNING).
Definition UpdateWorkloadRate (env : Env) (req : option UpdateWorkloadRateRequest) : Api Code RunMsg :=
  match req with
  | None => refuse InvalidArgument "request is required"
  | Some req =>
      require (negb (is_empty (uw_RunId req))) "run_id is required" ;;
      require (negb (is_empty (uw_PatternKey req))) "pattern_key is required" ;;
      require (negb (fleb (uw_RateRps req) f0)) "rate_rps must be positive" ;;
      found NotFound (uw_RunId req) (λ rec,
        refuse_if (negb (is_running rec)) FailedPrecondition ("run is not running (status: " +:+ status_String (rr_Status rec) +:+ ")") ;;
        update_rate update_code env (uw_RunId req) (uw_PatternKey req) (uw_RateRps req) ;;
        updated ← read (λ s, RunStore_Get (uw_RunId req) (sv_store s));
        match updated with Some updated => ret (rr_Run updated) | None => refuse Internal "run not found after update" end)
  end.
Record ServiceUpdate := mkServiceUpdate { su_ServiceId : string; su_Replicas : Z; su_CpuCores : float64; su_MemoryMb : float64 }.
Definition update_service (env : Env) (runID : string) (n : nat) (svc : ServiceUpdate) : Api Code unit :=
  require (negb (is_empty (su_ServiceId svc))) "service_id is required" ;;
  require (negb (su_Replicas svc <? 1)) ("replicas must be at least 1 for service " +:+ su_ServiceId svc) ;;
  update_replicas update_code env runID (su_ServiceId svc) (su_Replicas svc) ;;
  if fgt (su_CpuCores svc) f0 || fgt (su_MemoryMb svc) f0
  then update_sizes resources_code env n runID (su_ServiceId svc) (su_CpuCores svc) (su_MemoryMb svc) else ret tt.
Fixpoint for_each {E A} (f : nat → A → Api E unit) (n : nat) (l : list A) : Api E unit :=
  match l with [] => ret tt | x :: l => f n x ;; for_each f (S n) l end.
Definition UpdateRunConfiguration (env : Env) (req : option (string * list ServiceUpdate)) : Api Code RunMsg :=
  match req with
  | None => refuse InvalidArgument "request is required"
  | Some (runID, services) =>
      require (negb (is_empty runID)) "run_id is required" ;;
      require (0 <? len services) "at least one service update is required" ;;
      found NotFound runID (λ rec,
        refuse_if (negb (is_running rec)) FailedPrecondition "run is not running" ;;
        for_each (update_service env runID) 0 services ;;
        updated ← read (λ s, RunStore_Get runID (sv_store s));
        match updated with Some updated => ret (rr_Run updated) | None => λ s, (Crash, s) end)
  end.
Definition GetRunConfiguration (env : Env) (req : option string) : Api Code RunConfiguration :=
  match req with
  | None => refuse InvalidArgument "request is required"
  | Some runID =>
      require (negb (is_empty runID)) "run_id is required" ;;
      found NotFound runID (λ rec,
        refuse_if (negb (is_running rec)) FailedPrecondition "configuration is only available for running runs" ;;
        cfg ← read (run_configuration env runID);
        match cfg with Some cfg => ret cfg | None => refuse Internal "run configuration not available" end)
  end.
