(* ===== verification/HttpJson.v ===== *)
(** The JSON the HTTP server writes ([internal/simd/http_server.go]): runs, configurations, optimisation
    steps, metrics and time series. *)
From S2P Require Import Prelude GoFloat Utils Policy Config Graph BatchSpec BrokerQueue ResourceManager Collector RunMetrics RunStore Limits RunControl SimState Workload EngineMetrics RunConfig OnlineController Orchestrator Server.
From Stdlib Require Import SpecFloat.
#[local] Open Scope string_scope.
#[local] Open Scope list_scope.
#[local] Open Scope Z_scope.
#[local] Open Scope cm_scope.

(** Values handed to [encoding/json]. A [map[string]any] is the list of its fields. *)
#[local] Unset Elimination Schemes.
Inductive json :=
  | JNull
  | JBool (b : bool)
  | JInt (n : Z)
  | JFloat (x : float64)
  | JStr (s : string)
  | JList (l : list json)
  | JObj (fields : list (string * json)).
#[local] Set Elimination Schemes.
Definition field (k : string) (j : json) : option json :=
  match j with JObj fs => snd <$> List.find (λ kv, String.eqb kv.1 k) fs | _ => None end.
Definition JStrs (l : list string) : json := JList (JStr <$> l).
(** A field that is set only in some cases. *)
Definition when (b : bool) (fs : list (string * json)) : list (string * json) := if b then fs else [].
Definition optional (k : string) (v : option float64) : list (string * json) :=
  match v with Some x => [(k, JFloat x)] | None => [] end.
(** An object whose loop runs over a list; an empty list is left out. *)
Definition rows {A} (k : string) (f : A → list (string * json)) (l : list A) : list (string * json) :=
  match l with [] => [] | _ => [(k, JList ((λ x, JObj (f x)) <$> l))] end.

(** * Runs *)

Definition has_batch (r : RunMsg) : bool :=
  negb (is_empty (run_BatchRecommendationSummary r)) || run_BatchRecommendationFeasible r
  || negb (feqb (run_BatchViolationScore r) f0) || negb (feqb (run_BatchEfficiencyScore r) f0).
Definition thousandths (ms : Z) : json := JFloat (fdiv (f64_of_Z ms) (f64_of_Z 1000)).
Definition convertRunToJSON (r : RunMsg) (input : option RunInput) : list (string * json) :=
  [("id", JStr (run_Id r)); ("status", JStr (status_String (run_Status r))); ("created_at_unix_ms", JInt (run_CreatedAtUnixMs r));
   ("started_at_unix_ms", JInt (run_StartedAtUnixMs r)); ("ended_at_unix_ms", JInt (run_EndedAtUnixMs r)); ("error", JStr (run_Error r))]
  ++ when ((0 <? run_StartedAtUnixMs r) && (0 <? run_EndedAtUnixMs r))
       (let d := wrap64 (run_EndedAtUnixMs r - run_StartedAtUnixMs r) in
        [("real_duration_ms", JInt d); ("real_duration_seconds", thousandths d)])
  ++ match input with
     | Some i => when (0 <? ri_DurationMs i)
         [("simulation_duration_ms", JInt (ri_DurationMs i)); ("simulation_duration_seconds", thousandths (ri_DurationMs i))]
     | None => []
     end
  ++ when (negb (is_empty (run_BestRunId r)))
       [("best_run_id", JStr (run_BestRunId r)); ("best_score", JFloat (run_BestScore r)); ("iterations", JInt (run_Iterations r))]
  ++ when (0 <? len (run_CandidateRunIds r)) [("candidate_run_ids", JStrs (run_CandidateRunIds r))]
  ++ when (negb (is_empty (run_OnlineCompletionReason r))) [("online_completion_reason", JStr (run_OnlineCompletionReason r))]
  ++ when (has_batch r)
       [("batch_recommendation_feasible", JBool (run_BatchRecommendationFeasible r));
        ("batch_violation_score", JFloat (run_BatchViolationScore r)); ("batch_efficiency_score", JFloat (run_BatchEfficiencyScore r));
        ("batch_recommendation_summary", JStr (run_BatchRecommendationSummary r));
        ("batch_score_breakdown", JObj
          [("feasible", JBool (run_BatchRecommendationFeasible r)); ("violation_score", JFloat (run_BatchViolationScore r));
           ("efficiency_score", JFloat (run_BatchEfficiencyScore r)); ("summary", JStr (run_BatchRecommendationSummary r))])].

(** * Configurations *)

Definition scalingPolicyToJSON (p : option ScalingPolicy) : list (string * json) :=
  match p with
  | None => []
  | Some p => [("scaling", JObj [("horizontal", JBool (sc_Horizontal p)); ("vertical_cpu", JBool (sc_VerticalCPU p));
                                 ("vertical_memory", JBool (sc_VerticalMemory p))])]
  end.
(** What [enrichServiceConfigEntryJSON] adds to an entry. *)
Definition enrichServiceConfigEntryJSON (scenario : option Scenario) (serviceID : string) : list (string * json) :=
  match scenario with
  | None => []
  | Some sc =>
      if is_empty serviceID then []
      else
        match list_find (λ s, svc_ID s = serviceID) (scn_Services sc) with
        | None => []
        | Some (_, svc) =>
            when (negb (is_empty (svc_Kind svc))) [("kind", JStr (svc_Kind svc))]
            ++ when (negb (is_empty (svc_Role svc))) [("role", JStr (svc_Role svc))]
            ++ when (negb (is_empty (svc_Model svc))) [("model", JStr (svc_Model svc))] ++ scalingPolicyToJSON (svc_Scaling svc)
        end
  end.
Definition service_json (scenario : option Scenario) (e : ServiceConfigEntry) : json :=
  JObj ([("service_id", JStr (sce_ServiceId e)); ("replicas", JInt (sce_Replicas e)); ("cpu_cores", JFloat (sce_CpuCores e));
         ("memory_mb", JFloat (sce_MemoryMb e))] ++ enrichServiceConfigEntryJSON scenario (sce_ServiceId e)).
Definition pattern_json (w : WorkloadPatternEntry) : json :=
  JObj [("pattern_key", JStr (wpe_PatternKey w)); ("rate_rps", JFloat (wpe_RateRps w))].
Definition host_json (h : HostConfigEntry) : json :=
  JObj [("host_id", JStr (hce_HostId h)); ("cpu_cores", JInt (hce_CpuCores h)); ("memory_gb", JInt (hce_MemoryGb h))].
Definition placement_json (p : InstancePlacementEntry) : json :=
  JObj [("instance_id", JStr (ipe_InstanceId p)); ("service_id", JStr (ipe_ServiceId p)); ("host_id", JStr (ipe_HostId p));
        ("lifecycle", JStr (ipe_Lifecycle p)); ("cpu_cores", JFloat (ipe_CpuCores p)); ("memory_mb", JFloat (ipe_MemoryMb p));
        ("cpu_utilization", JFloat (ipe_CpuUtilization p)); ("memory_utilization", JFloat (ipe_MemoryUtilization p));
        ("active_requests", JInt (ipe_ActiveRequests p)); ("queue_length", JInt (ipe_QueueLength p))].
(** A nil slice is encoded as [null]. *)
Definition instancePlacementsToJSON (l : list InstancePlacementEntry) : json :=
  match l with [] => JNull | _ => JList (placement_json <$> l) end.
Definition convertRunConfigurationToJSON (cfg : RunConfiguration) (scenario : option Scenario) : json :=
  JObj [("services", JList (service_json scenario <$> rc_Services cfg)); ("workload", JList (pattern_json <$> rc_Workload cfg));
        ("hosts", JList (host_json <$> rc_Hosts cfg)); ("placements", instancePlacementsToJSON (rc_Placements cfg))].

(** * Optimisation steps *)

(** [strings.Fields]: words between white space. *)
Fixpoint Fields_from (word s : string) : list string :=
  match s with
  | EmptyString => if is_empty word then [] else [word]
  | String c s =>
      if is_space c then (if is_empty word then [] else [word]) ++ Fields_from EmptyString s
      else Fields_from (word +:+ String c EmptyString) s
  end.
Definition Fields (s : string) : list string := Fields_from EmptyString s.
(** [strings.SplitN(s, "=", 2)] if there are two parts. *)
Fixpoint cut_equals (s : string) : option (string * string) :=
  match s with
  | EmptyString => None
  | String c s' =>
      if Ascii.eqb c "=" then Some (EmptyString, s')
      else match cut_equals s' with Some (a, b) => Some (String c a, b) | None => None end
  end.
(** Assignment to a key of a map: a key that is there already gets the new value. *)
Definition set_field (k : string) (v : json) (fs : list (string * json)) : list (string * json) :=
  if existsb (λ kv, String.eqb kv.1 k) fs then (λ kv, if String.eqb kv.1 k then (k, v) else kv) <$> fs else fs ++ [(k, v)].
Section Steps.
Context (ParseFloat : string → go float64).
Definition reason_detail (out : list (string * json)) (p : string) : list (string * json) :=
  match cut_equals p with
  | None => out
  | Some (k, v) => set_field k (match ParseFloat v with Ok f => JFloat f | _ => JStr v end) out
  end.
Definition parseOptimizationReasonDetails (reason : string) : list (string * json) :=
  match Fields (TrimSpace reason) with
  | [] => []
  | kind :: parts => foldl reason_detail [("type", JStr kind)] parts
  end.
(** The controller records both configurations with every step. *)
Definition convertOptimizationStepToJSON (st : ControllerStep) : list (string * json) :=
  [("iteration_index", JInt (os_IterationIndex st)); ("target_p95_ms", JFloat (os_TargetP95Ms st));
   ("score_p95_ms", JFloat (os_ScoreP95Ms st)); ("reason", JStr (os_Reason st));
   ("previous_config", convertRunConfigurationToJSON (os_PreviousConfig st) None);
   ("current_config", convertRunConfigurationToJSON (os_CurrentConfig st) None)]
  ++ match parseOptimizationReasonDetails (os_Reason st) with [] => [] | d => [("reason_details", JObj d)] end.
Definition convertOptimizationHistoryToJSON (l : list ControllerStep) : json :=
  match l with [] => JNull | _ => JList ((λ st, JObj (convertOptimizationStepToJSON st)) <$> l) end.
End Steps.

(** * Metrics *)

Definition metrics_json (m : RunMetrics) : list (string * json) :=
  [("total_requests", JInt (met_TotalRequests m)); ("successful_requests", JInt (met_SuccessfulRequests m));
   ("failed_requests", JInt (met_FailedRequests m)); ("latency_p50_ms", JFloat (met_LatencyP50Ms m));
   ("latency_p95_ms", JFloat (met_LatencyP95Ms m)); ("latency_p99_ms", JFloat (met_LatencyP99Ms m));
   ("latency_mean_ms", JFloat (met_LatencyMeanMs m)); ("throughput_rps", JFloat (met_ThroughputRps m));
   ("ingress_requests", JInt (met_IngressRequests m)); ("internal_requests", JInt (met_InternalRequests m));
   ("ingress_throughput_rps", JFloat (met_IngressThroughputRps m));
   ("ingress_failed_requests", JInt (met_IngressFailedRequests m));
   ("ingress_error_rate", JFloat (met_IngressErrorRate m));
   ("attempt_failed_requests", JInt (met_AttemptFailedRequests m));
   ("attempt_error_rate", JFloat (met_AttemptErrorRate m)); ("retry_attempts", JInt (met_RetryAttempts m));
   ("timeout_errors", JInt (met_TimeoutErrors m)); ("queue_enqueue_count_total", JInt (met_QueueEnqueueCountTotal m));
   ("queue_dequeue_count_total", JInt (met_QueueDequeueCountTotal m));
   ("queue_drop_count_total", JInt (met_QueueDropCountTotal m));
   ("queue_redelivery_count_total", JInt (met_QueueRedeliveryCountTotal m));
   ("queue_dlq_count_total", JInt (met_QueueDlqCountTotal m)); ("queue_depth_sum", JFloat (met_QueueDepthSum m));
   ("topic_publish_count_total", JInt (met_TopicPublishCountTotal m));
   ("topic_deliver_count_total", JInt (met_TopicDeliverCountTotal m));
   ("topic_drop_count_total", JInt (met_TopicDropCountTotal m));
   ("topic_redelivery_count_total", JInt (met_TopicRedeliveryCountTotal m));
   ("topic_dlq_count_total", JInt (met_TopicDlqCountTotal m));
   ("topic_backlog_depth_sum", JFloat (met_TopicBacklogDepthSum m));
   ("topic_consumer_lag_sum", JFloat (met_TopicConsumerLagSum m));
   ("queue_oldest_message_age_ms", JFloat (met_QueueOldestMessageAgeMs m));
   ("topic_oldest_message_age_ms", JFloat (met_TopicOldestMessageAgeMs m));
   ("max_queue_depth", JFloat (met_MaxQueueDepth m)); ("max_topic_backlog_depth", JFloat (met_MaxTopicBacklogDepth m));
   ("max_topic_consumer_lag", JFloat (met_MaxTopicConsumerLag m)); ("queue_drop_rate", JFloat (met_QueueDropRate m));
   ("topic_drop_rate", JFloat (met_TopicDropRate m)); ("locality_hit_rate", JFloat (met_LocalityHitRate m));
   ("cross_zone_request_count_total", JInt (met_CrossZoneRequestCountTotal m));
   ("same_zone_request_count_total", JInt (met_SameZoneRequestCountTotal m));
   ("cross_zone_request_fraction", JFloat (met_CrossZoneRequestFraction m));
   ("cross_zone_latency_penalty_ms_total", JFloat (met_CrossZoneLatencyPenaltyMsTotal m));
   ("cross_zone_latency_penalty_ms_mean", JFloat (met_CrossZoneLatencyPenaltyMsMean m));
   ("same_zone_latency_penalty_ms_total", JFloat (met_SameZoneLatencyPenaltyMsTotal m));
   ("same_zone_latency_penalty_ms_mean", JFloat (met_SameZoneLatencyPenaltyMsMean m));
   ("external_latency_ms_total", JFloat (met_ExternalLatencyMsTotal m));
   ("external_latency_ms_mean", JFloat (met_ExternalLatencyMsMean m));
   ("topology_latency_penalty_ms_total", JFloat (met_TopologyLatencyPenaltyMsTotal m));
   ("topology_latency_penalty_ms_mean", JFloat (met_TopologyLatencyPenaltyMsMean m))].
Definition service_metrics_json (m : ServiceMetrics) : list (string * json) :=
  [("service_name", JStr (sm_ServiceName m)); ("request_count", JInt (sm_RequestCount m));
   ("error_count", JInt (sm_ErrorCount m)); ("latency_p50_ms", JFloat (sm_LatencyP50Ms m));
   ("latency_p95_ms", JFloat (sm_LatencyP95Ms m)); ("latency_p99_ms", JFloat (sm_LatencyP99Ms m));
   ("latency_mean_ms", JFloat (sm_LatencyMeanMs m)); ("cpu_utilization", JFloat (sm_CpuUtilization m));
   ("memory_utilization", JFloat (sm_MemoryUtilization m)); ("active_replicas", JInt (sm_ActiveReplicas m));
   ("concurrent_requests", JInt (sm_ConcurrentRequests m)); ("queue_length", JInt (sm_QueueLength m));
   ("queue_wait_p50_ms", JFloat (sm_QueueWaitP50Ms m)); ("queue_wait_p95_ms", JFloat (sm_QueueWaitP95Ms m));
   ("queue_wait_p99_ms", JFloat (sm_QueueWaitP99Ms m)); ("queue_wait_mean_ms", JFloat (sm_QueueWaitMeanMs m));
   ("processing_latency_p50_ms", JFloat (sm_ProcessingLatencyP50Ms m));
   ("processing_latency_p95_ms", JFloat (sm_ProcessingLatencyP95Ms m));
   ("processing_latency_p99_ms", JFloat (sm_ProcessingLatencyP99Ms m));
   ("processing_latency_mean_ms", JFloat (sm_ProcessingLatencyMeanMs m))].
Definition host_metrics_json (m : HostMetrics) : list (string * json) :=
  [("host_id", JStr (hm_HostId m)); ("cpu_utilization", JFloat (hm_CpuUtilization m));
   ("memory_utilization", JFloat (hm_MemoryUtilization m))].
Definition endpoint_stats_json (m : EndpointRequestStats) : list (string * json) :=
  [("service_name", JStr (ers_ServiceName m)); ("endpoint_path", JStr (ers_EndpointPath m));
   ("request_count", JInt (ers_RequestCount m)); ("error_count", JInt (ers_ErrorCount m))] ++
    optional "latency_p50_ms" (ers_LatencyP50Ms m) ++ optional "latency_p95_ms" (ers_LatencyP95Ms m) ++
    optional "latency_p99_ms" (ers_LatencyP99Ms m) ++ optional "latency_mean_ms" (ers_LatencyMeanMs m) ++
    optional "root_latency_p50_ms" (ers_RootLatencyP50Ms m) ++
    optional "root_latency_p95_ms" (ers_RootLatencyP95Ms m) ++
    optional "root_latency_p99_ms" (ers_RootLatencyP99Ms m) ++
    optional "root_latency_mean_ms" (ers_RootLatencyMeanMs m) ++ optional "queue_wait_p50_ms" (ers_QueueWaitP50Ms m) ++
    optional "queue_wait_p95_ms" (ers_QueueWaitP95Ms m) ++ optional "queue_wait_p99_ms" (ers_QueueWaitP99Ms m) ++
    optional "queue_wait_mean_ms" (ers_QueueWaitMeanMs m) ++
    optional "processing_latency_p50_ms" (ers_ProcessingLatencyP50Ms m) ++
    optional "processing_latency_p95_ms" (ers_ProcessingLatencyP95Ms m) ++
    optional "processing_latency_p99_ms" (ers_ProcessingLatencyP99Ms m) ++
    optional "processing_latency_mean_ms" (ers_ProcessingLatencyMeanMs m).
Definition route_stats_json (m : InstanceRouteStats) : list (string * json) :=
  [("service_name", JStr (irs_ServiceName m)); ("endpoint_path", JStr (irs_EndpointPath m));
   ("instance_id", JStr (irs_InstanceId m)); ("strategy", JStr (irs_Strategy m));
   ("selection_count", JInt (irs_SelectionCount m))].
Definition convertMetricsToJSON (m : RunMetrics) : json :=
  JObj (metrics_json m ++ rows "service_metrics" service_metrics_json (met_ServiceMetrics m)
    ++ rows "host_metrics" host_metrics_json (met_HostMetrics m)
    ++ rows "endpoint_request_stats" endpoint_stats_json (met_EndpointRequestStats m)
    ++ rows "instance_route_stats" route_stats_json (met_InstanceRouteStats m)).

(** * Time series *)

(** [format] is [Time.Format] with nanoseconds. *)
Definition point_json (format : Time → string) (named : bool) (p : MetricPoint) : json :=
  JObj ([("timestamp", JStr (format (mp_Timestamp p)))] ++ when named [("metric", JStr (mp_Name p))]
    ++ [("value", JFloat (mp_Value p)); ("labels", JObj ((λ kv, (kv.1, JStr kv.2)) <$> map_to_list (mp_Labels p)))]).
Definition createLabelKey (labels : Labels) : string :=
  foldl (λ key k, key +:+ k +:+ "=" +:+ default "" (labels !! k) +:+ ",") EmptyString (sorted_keys labels).
Definition series_key (p : MetricPoint) : string * string := (mp_Name p, createLabelKey (mp_Labels p)).
(** Points by key, each group in the order of the points. *)
Fixpoint add_point (p : MetricPoint) (gs : list ((string * string) * list MetricPoint)) : list ((string * string) * list MetricPoint) :=
  match gs with
  | [] => [(series_key p, [p])]
  | (k, l) :: gs => if bool_decide (k = series_key p) then (k, l ++ [p]) :: gs else (k, l) :: add_point p gs
  end.
Definition groups (points : list MetricPoint) : list ((string * string) * list MetricPoint) := foldl (flip add_point) [] points.
Definition is_counter (name : string) : bool := String.eqb name "request_count" || String.eqb name "request_error_count".
Fixpoint cumulate (sum : float64) (l : list MetricPoint) : list MetricPoint :=
  match l with
  | [] => []
  | p :: l => let sum := fadd sum (mp_Value p) in mkMetricPoint (mp_Timestamp p) (mp_Name p) sum (mp_Labels p) :: cumulate sum l
  end.
Definition earlier (a b : MetricPoint) : bool := Before (mp_Timestamp a) (mp_Timestamp b).
Definition cumulative_group (sort : ∀ A : Type, (A → A → bool) → list A → list A) (g : (string * string) * list MetricPoint)
    : list MetricPoint :=
  if is_counter g.1.1 then cumulate f0 (sort MetricPoint earlier g.2) else g.2.
(** [shuffle]: the order in which the map of groups is visited. *)
Definition convertTimeseriesToCumulative (sort : ∀ A : Type, (A → A → bool) → list A → list A)
    (shuffle : ∀ A : Type, list A → list A) (points : list MetricPoint) : list MetricPoint :=
  match points with [] => points | _ => shuffle _ (groups points) ≫= cumulative_group sort end.
Definition metricUpdateValue (metricName : string) (labels : Labels) (latest : MetricPoint) (c : Collector) : float64 :=
  if is_counter metricName
  then default (mp_Value latest) (Collector_GetSeriesSum metricName labels c) else mp_Value latest.

Section Series.
Context (orders : nat → string → list string) (shuffle : nat → ∀ A : Type, list A → list A).
(** The points of a metric whose labels pass the filter; a metric without series is read with no labels. *)
Definition metric_points (keep : Labels → bool) (name : string) : CM (list MetricPoint) :=
  combos <~ GetLabelsForMetric orders name ;~
  match combos with
  | [] => GetTimeSeries orders name ∅
  | _ =>
      cfold (λ acc labels,
        if keep labels then points <~ GetTimeSeries orders name labels ;~ cret (acc ++ points) else cret acc) [] combos
  end.
Definition series_matches (service instance : string) (labels : Labels) : bool :=
  (is_empty service || String.eqb (default "" (labels !! "service")) service)
  && (is_empty instance || String.eqb (default "" (labels !! "instance")) instance).
Definition collect_points (metric service instance : string) : CM (list MetricPoint) :=
  names <~ (if is_empty metric then GetMetricNames shuffle else cret [metric]) ;~
  cfold (λ acc name, points <~ metric_points (series_matches service instance) name ;~ cret (acc ++ points)) [] names.
Definition in_range (startTime endTime : Time) (p : MetricPoint) : bool :=
  negb (negb (IsZero startTime) && Before (mp_Timestamp p) startTime) && negb (negb (IsZero endTime) && After (mp_Timestamp p) endTime).
Definition filter_range (startTime endTime : Time) (l : list MetricPoint) : list MetricPoint :=
  if negb (IsZero startTime) || negb (IsZero endTime) then List.filter (in_range startTime endTime) l else l.
(** Every metric with its points; metrics without points are left out. *)
Definition exportTimeSeriesData (format : Time → string) : CM (list json) :=
  names <~ GetMetricNames shuffle ;~
  cfold (λ acc name,
    points <~ metric_points (λ _, true) name ;~
    cret (match points with
          | [] => acc
          | _ => acc ++ [JObj [("metric", JStr name); ("points", JList (point_json format false <$> points))]]
          end)) [] names.
(** The latest CPU and memory utilisation of the hosts that have samples. *)
Definition latest_by_host (metric : string) (set : float64 → float64 * float64 → float64 * float64)
    (byHost : gmap string (float64 * float64)) : CM (gmap string (float64 * float64)) :=
  combos <~ GetLabelsForMetric orders metric ;~
  cfold (λ byHost labels,
    let host := default "" (labels !! "host") in
    if is_empty host then cret byHost
    else
      points <~ GetTimeSeries orders metric labels ;~
      cret (match last points with
            | None => byHost
            | Some p => <[host := set (mp_Value p) (default (f0, f0) (byHost !! host))]> byHost
            end)) byHost combos.
Definition host_row (byHost : gmap string (float64 * float64)) (host : string) : json :=
  let v := default (f0, f0) (byHost !! host) in
  JObj [("host_id", JStr host); ("cpu_utilization", JFloat v.1); ("memory_utilization", JFloat v.2)].
Definition hostMetricsFromCollector (inventory : list string) : CM (list json) :=
  byHost <~ latest_by_host "cpu_utilization" (λ x v, (x, v.2)) ∅ ;~
  byHost <~ latest_by_host "memory_utilization" (λ x v, (v.1, x)) byHost ;~
  cret (host_row byHost <$> (if 0 <? len inventory then inventory else sorted_keys byHost)).
End Series.
