(* ===== verification/Mux.v ===== *)
(** From the target of an HTTP request to a pattern: what [net/http] and [net/url] of the
    standard library do between a request line and the handlers that [NewHTTPServer] registers
    ([internal/simd/http_server.go]). *)
From S2P Require Import Prelude.
From Stdlib Require Import Ascii.
#[local] Open Scope char_scope.
#[local] Open Scope string_scope.
#[local] Open Scope list_scope.

(** * Escapes ([net/url]) *)

Definition unhex (c : ascii) : option nat :=
  let n := nat_of_ascii c in
  if (48 <=? n)%nat && (n <=? 57)%nat then Some (n - 48)%nat
  else if (97 <=? n)%nat && (n <=? 102)%nat then Some (n - 87)%nat
  else if (65 <=? n)%nat && (n <=? 70)%nat then Some (n - 55)%nat
  else None.
Definition upperhex (n : nat) : ascii := ascii_of_nat (if (n <? 10)%nat then n + 48 else n + 55)%nat.
(** [unescape]; a bad escape makes the request malformed. *)
Fixpoint unescape (s : string) : option string :=
  match s with
  | EmptyString => Some ""
  | String c rest =>
      if Ascii.eqb c "%"
      then match rest with
           | String h (String l rest) =>
               h ← unhex h; l ← unhex l; rest ← unescape rest; Some (String (ascii_of_nat (16 * h + l)) rest)
           | _ => None
           end
      else String c <$> unescape rest
  end.
Definition alphanumeric (c : ascii) : bool :=
  let n := nat_of_ascii c in
  ((48 <=? n) && (n <=? 57) || (65 <=? n) && (n <=? 90) || (97 <=? n) && (n <=? 122))%nat.
Fixpoint among (c : ascii) (s : string) : bool :=
  match s with EmptyString => false | String d s => Ascii.eqb c d || among c s end.
(** [shouldEscape] for paths. *)
Definition shouldEscape (c : ascii) : bool := negb (alphanumeric c || among c "-_.~$&+,/:;=@").
Definition escape_char (c : ascii) : string :=
  if shouldEscape c
  then let n := nat_of_ascii c in String "%" (String (upperhex (n / 16)) (String (upperhex (n mod 16)) ""))
  else String c "".
Fixpoint escape (s : string) : string :=
  match s with EmptyString => "" | String c s => escape_char c +:+ escape s end.
Fixpoint validEncoded (s : string) : bool :=
  match s with
  | EmptyString => true
  | String c s => (among c "!$&'()*+,;=:@[]%" || negb (shouldEscape c)) && validEncoded s
  end.
(** [URL.EscapedPath] of a path that was sent as [raw]. *)
Definition EscapedPath (raw path : string) : string :=
  if validEncoded raw then raw else if String.eqb path "*" then "*" else escape path.
(** A control character makes the request malformed. *)
Fixpoint has_control (s : string) : bool :=
  match s with
  | EmptyString => false
  | String c s => (nat_of_ascii c <? 32)%nat || (nat_of_ascii c =? 127)%nat || has_control s
  end.

(** * Segments *)

(** [strings.Split(s, "/")]. *)
Fixpoint segments (s : string) : list string :=
  match s with
  | EmptyString => [""]
  | String c s =>
      if Ascii.eqb c "/" then "" :: segments s
      else match segments s with [] => [String c ""] | x :: l => String c x :: l end
  end.
(** One segment of [path.Clean] of a rooted path; the kept segments, the last one first. *)
Definition clean_step (kept : list string) (seg : string) : list string :=
  if String.eqb seg "" || String.eqb seg "." then kept
  else if String.eqb seg ".." then tail kept
  else seg :: kept.
Definition rooted (p : string) : string := match p with String c rest => if Ascii.eqb c "/" then rest else p | EmptyString => "" end.
(** [cleanPath]: [path.Clean], and a trailing slash stays. *)
Definition cleanPath (p : string) : string :=
  let segs := segments (rooted p) in
  let kept := rev (foldl clean_step [] segs) in
  "/" +:+ String.concat "/" (if bool_decide (last segs = Some "" ∧ kept ≠ []) then kept ++ [""] else kept).

(** * The mux *)

(** The patterns of [NewHTTPServer]. *)
Inductive Pattern := PHealthz | PRuns | PRunByID | PValidateScenario | PDiagnosticsRuntime.
(** Segments are compared unescaped; a pattern that ends in a slash matches every path below. *)
Definition mux_match (path : string) : option Pattern :=
  let segs := (λ s, default s (unescape s)) <$> segments (rooted path) in
  if bool_decide (segs = ["healthz"]) then Some PHealthz
  else if bool_decide (segs = ["v1"; "runs"]) then Some PRuns
  else if bool_decide (take 2 segs = ["v1"; "runs"]) then Some PRunByID
  else if bool_decide (segs = ["v1"; "scenarios:validate"]) then Some PValidateScenario
  else if bool_decide (segs = ["diagnostics"; "runtime"]) then Some PDiagnosticsRuntime
  else None.
Inductive Dispatch :=
  | BadTarget
  | Redirected (path : string)
  | Unmatched
  | Matched (p : Pattern) (path : string).
(** [ServeMux.findHandler]: a path that is not clean is redirected, but for [CONNECT]. The
    handler sees the unescaped path. *)
Definition findHandler (connect : bool) (raw : string) : Dispatch :=
  match unescape raw with
  | Some path =>
      if has_control raw || String.eqb raw "*" then BadTarget
      else
        let escapedPath := EscapedPath raw path in
        let clean := if connect then escapedPath else cleanPath escapedPath in
        if String.eqb clean escapedPath
        then match mux_match clean with Some p => Matched p path | None => Unmatched end
        else Redirected clean
  | None => BadTarget
  end.

(** * Laws *)

Lemma escape_char_cases c :
  (Ascii.eqb c "/" = true ∧ escape_char c = "/")
  ∨ (Ascii.eqb c "/" = false ∧ ∃ d w, escape_char c = String d w ∧ Ascii.eqb d "/" = false
      ∧ (w = "" ∨ ∃ h l, w = String h (String l "") ∧ Ascii.eqb h "/" = false ∧ Ascii.eqb l "/" = false)).
Proof.
  destruct c as [[] [] [] [] [] [] [] []]; vm_compute; first [by left | right; split; [done|]; do 2 eexists; split; [reflexivity|]; eauto 10].
Qed.
Lemma unescape_char c s : unescape (escape_char c +:+ s) = String c <$> unescape s.
Proof.
  destruct c as [[] [] [] [] [] [] [] []];
    match goal with |- context [escape_char ?c] => let e := eval vm_compute in (escape_char c) in change (escape_char c) with e end;
    simpl; change (EmptyString +:+ s) with s; destruct (unescape s); reflexivity.
Qed.
Lemma unescape_escape s : unescape (escape s) = Some s.
Proof. induction s as [|c s IH]; [done|]. cbn [escape]. by rewrite unescape_char, IH. Qed.
Lemma escape_inj s t : escape s = escape t → s = t.
Proof. intros H. assert (Some s = Some t) by by rewrite <- !unescape_escape, H. congruence. Qed.
Lemma valid_char c s : validEncoded (escape_char c +:+ s) = validEncoded s.
Proof. destruct c as [[] [] [] [] [] [] [] []]; reflexivity. Qed.
Lemma valid_escape s : validEncoded (escape s) = true.
Proof. induction s as [|c s IH]; [done|]. cbn [escape]. by rewrite valid_char. Qed.
Lemma control_char c s : has_control (escape_char c +:+ s) = has_control s.
Proof. destruct c as [[] [] [] [] [] [] [] []]; reflexivity. Qed.
Lemma control_escape s : has_control (escape s) = false.
Proof. induction s as [|c s IH]; [done|]. cbn [escape]. by rewrite control_char. Qed.
Lemma segments_not_nil s : segments s ≠ [].
Proof. destruct s as [|c s]; simpl; [done|]. destruct (Ascii.eqb _ _); [done|]. by destruct (segments s). Qed.
Lemma segments_escape s : segments (escape s) = escape <$> segments s.
Proof.
  induction s as [|c s IH]; [done|]. cbn [escape segments].
  destruct (escape_char_cases c) as [[-> ->]|(-> & d & w & E & Hd & Hw)].
  { change ("/" +:+ escape s) with (String "/" (escape s)). cbn [segments]. by rewrite IH. }
  assert (Hw' : segments (w +:+ escape s) = match segments (escape s) with [] => [] | x :: l => (w +:+ x) :: l end).
  { pose proof (segments_not_nil (escape s)). destruct Hw as [->|(h & l & -> & Hh & Hl)];
      [change (EmptyString +:+ escape s) with (escape s); by destruct (segments (escape s))|].
    change (String h (String l "") +:+ escape s) with (String h (String l (escape s))). cbn [segments].
    rewrite Hh, Hl. by destruct (segments (escape s)). }
  rewrite E. change (String d w +:+ escape s) with (String d (w +:+ escape s)). cbn [segments]. rewrite Hd, Hw', IH.
  pose proof (segments_not_nil s). destruct (segments s) as [|x l]; [done|]. cbn. by rewrite E.
Qed.
Lemma concat_segments s : String.concat "/" (segments s) = s.
Proof.
  induction s as [|c s IH]; [done|]. cbn [segments]. pose proof (segments_not_nil s) as Hne.
  destruct (Ascii.eqb_spec c "/") as [->|_]; destruct (segments s) as [|x l] eqn:E; try done.
  - by rewrite <- IH.
  - rewrite <- IH. destruct l; done.
Qed.
(** A path in which no segment is empty or made of one or two dots is clean. *)
Definition plain (seg : string) : Prop := seg ≠ "" ∧ seg ≠ "." ∧ seg ≠ "..".
Lemma clean_plain segs : Forall plain segs → ∀ kept, foldl clean_step kept segs = rev segs ++ kept.
Proof.
  induction 1 as [|seg segs (H1 & H2 & H3) _ IH]; intros kept; [done|]. simpl. rewrite IH. unfold clean_step.
  destruct (String.eqb_spec seg ""); [done|]. destruct (String.eqb_spec seg "."); [done|].
  destruct (String.eqb_spec seg ".."); [done|]. simpl. by rewrite <- app_assoc.
Qed.
Lemma cleanPath_plain s : Forall plain (segments s) → cleanPath (String "/" s) = String "/" s.
Proof.
  intros H. unfold cleanPath. change (rooted (String "/" s)) with s. rewrite (clean_plain _ H), app_nil_r, rev_involutive.
  rewrite bool_decide_eq_false_2; [by rewrite concat_segments|]. intros [Hl _]. apply last_Some in Hl as (l & E).
  rewrite E, Forall_app, Forall_singleton in H. by destruct H as [_ [? _]].
Qed.
Lemma plain_escape seg : plain seg → plain (escape seg).
Proof.
  intros (H1 & H2 & H3). split_and!; intros E; [apply H1|apply H2|apply H3]; by apply escape_inj.
Qed.
(** The escaped form of a plain path is matched as it is, and the handler sees the path. *)
Lemma findHandler_plain connect s p : Forall plain (segments s) → mux_match (escape (String "/" s)) = Some p →
  findHandler connect (escape (String "/" s)) = Matched p (String "/" s).
Proof.
  intros Hs Hp. unfold findHandler. rewrite unescape_escape, control_escape. cbn [orb].
  unfold EscapedPath. rewrite valid_escape. change (escape (String "/" s)) with (String "/" (escape s)) in *.
  cbn [String.eqb]. assert (Ascii.eqb "/" "*" = false) as -> by reflexivity.
  rewrite cleanPath_plain; [|rewrite segments_escape; apply Forall_fmap; eapply Forall_impl; [exact Hs|apply plain_escape]].
  replace (if connect then _ else _) with (String "/" (escape s)) by by destruct connect. by rewrite String.eqb_refl, Hp.
Qed.
