(* ===== verification/HttpServer.v ===== *)
(** The HTTP server ([internal/simd/http_server.go]): routing of paths and methods, and the handlers,
    which call the store and the executor and write JSON. *)
From S2P Require Import Prelude GoFloat Utils Policy Config Graph BatchSpec BrokerQueue ResourceManager Collector RunMetrics RunStore Limits RunControl SimState Workload EngineMetrics RunConfig OnlineController Orchestrator Server HttpJson Mux.
From Stdlib Require Import SpecFloat.
#[local] Open Scope string_scope.
#[local] Open Scope list_scope.
#[local] Open Scope Z_scope.
#[local] Open Scope api_scope.

(** * Statuses and bodies *)

Definition StatusOK := 200.
Definition StatusCreated := 201.
Definition StatusBadRequest := 400.
Definition StatusNotFound := 404.
Definition StatusMovedPermanently := 301.
Definition StatusMethodNotAllowed := 405.
Definition StatusConflict := 409.
Definition StatusPreconditionFailed := 412.
Definition StatusUnprocessableEntity := 422.
Definition StatusTooManyRequests := 429.
Definition StatusInternalServerError := 500.
(** A response that is not an error: its status and its body. An error is a refusal with its status
    and the message that [writeError] writes. *)
Definition Http := Api Z (Z * json).
Definition writeJSON (status : Z) (body : json) : Http := ret (status, body).
Definition respond (fields : list (string * json)) : Http := writeJSON StatusOK (JObj fields).

(** Decoded request bodies. *)
Record httpWorkloadArrivalSpecRequest := mkArrivalRequest {
  ha_Type : string;
  ha_RateRPS : float64;
  ha_StdDevRPS : float64;
  ha_BurstRateRPS : float64;
  ha_BurstDurationSeconds : float64;
  ha_QuietDurationSeconds : float64;
}.
Record httpWorkloadPatternRequest := mkPatternRequest {
  hp_From : string;
  hp_SourceKind : string;
  hp_TrafficClass : string;
  hp_Metadata : gmap string string;
  hp_To : string;
  hp_Arrival : option httpWorkloadArrivalSpecRequest;
}.
Record WorkloadRequest := mkWorkloadRequest {
  wq_PatternKey : string;
  wq_RateRPS : option float64;
  wq_Pattern : option httpWorkloadPatternRequest;
}.
Record ServiceRequest := mkServiceRequest { sq_ID : string; sq_Replicas : Z; sq_CPUCores : option float64; sq_MemoryMB : option float64 }.
(** [policies]: outer [None] when absent, inner when it has no [autoscaling]. *)
Record ConfigurationRequest := mkConfigurationRequest {
  cq_Services : list ServiceRequest;
  cq_Workload : list (string * float64);
  cq_Policies : option (option AutoscalingPolicyConfig);
}.
Definition httpWorkloadPatternRequest_toConfigWorkloadPattern (p : option httpWorkloadPatternRequest) : go WorkloadPattern :=
  match p with
  | None => Fail "pattern is required"
  | Some p =>
      fail_if (is_empty (TrimSpace (hp_From p))) "pattern.from is required" ;;!
      fail_if (is_empty (TrimSpace (hp_To p))) "pattern.to is required" ;;!
      let! _ := wrap_err "pattern.to is invalid: " (ParseDownstreamTarget (hp_To p)) in
      match hp_Arrival p with
      | None => Fail "pattern.arrival is required"
      | Some a =>
          let! arrivalType := wrap_err "pattern.arrival.type is invalid: " (NormalizeArrivalType (ha_Type a)) in
          fail_if (fleb (ha_RateRPS a) f0) "pattern.arrival.rate_rps must be positive" ;;!
          Ok (mkWorkload (hp_From p) (hp_SourceKind p) (hp_TrafficClass p) (hp_Metadata p) (hp_To p)
                (mkArrival arrivalType (ha_RateRPS a) (ha_StdDevRPS a) (ha_BurstRateRPS a) (ha_BurstDurationSeconds a)
                   (ha_QuietDurationSeconds a)))
      end
  end.

(** [applyCreateRunOptimizationAliases] on the fields of the [optimization] object. *)
Definition has_field (k : string) (fs : list (string * json)) : bool := existsb (λ kv, String.eqb kv.1 k) fs.
Definition alias (canonical other : string) (fs : list (string * json)) : list (string * json) :=
  if has_field canonical fs then fs
  else match field other (JObj fs) with Some v => fs ++ [(canonical, v)] | None => fs end.
Definition at_field (k : string) (f : json → json) (j : json) : json :=
  match j with JObj fs => JObj ((λ kv, if String.eqb kv.1 k then (kv.1, f kv.2) else kv) <$> fs) | _ => j end.
Definition optimization_aliases (j : json) : json :=
  match j with
  | JObj fs => JObj (alias "memory_downsize_headroom_mb" "memory_headroom_mb" (alias "drain_timeout_ms" "host_drain_timeout_ms" fs))
  | _ => j
  end.
Definition applyCreateRunOptimizationAliases (body : json) : json := at_field "input" (at_field "optimization" optimization_aliases) body.

(** * How errors are reported *)

Definition http_create_code (err : string) : Z :=
  if errors_Is err ErrInvalidOnlineRunInput then StatusBadRequest
  else if Contains err "already exists" then StatusConflict
  else if Contains err "cannot contain" then StatusBadRequest else StatusBadRequest.
Definition http_start_code (err : string) : Z :=
  if errors_Is err ErrRunNotFound then StatusNotFound else if errors_Is err ErrRunTerminal then StatusConflict
  else if errors_Is err ErrRunIDMissing then StatusBadRequest
  else if errors_Is err ErrOnlineRunConcurrencyLimit then StatusTooManyRequests else StatusInternalServerError.
Definition http_renew_code (err : string) : Z :=
  if errors_Is err ErrRunNotFound then StatusNotFound else if errors_Is err ErrRunIDMissing then StatusBadRequest else StatusConflict.
Definition http_stop_code (err : string) : Z :=
  if stop_Is err ErrRunNotFound then StatusNotFound else if stop_Is err ErrRunIDMissing then StatusBadRequest
  else StatusInternalServerError.
Definition http_workload_code (err : string) : Z :=
  if errors_Is err ErrRunNotFound then StatusNotFound else if errors_Is err ErrRunIDMissing then StatusBadRequest
  else if Contains err "workload pattern not found" then StatusNotFound
  else if Contains err "invalid workload target" then StatusBadRequest else StatusInternalServerError.
Definition http_service_code (err : string) : Z :=
  if errors_Is err ErrRunNotFound then StatusNotFound else if errors_Is err ErrRunIDMissing then StatusBadRequest
  else if errors_Is err ErrRunTerminal then StatusBadRequest else StatusInternalServerError.
Definition http_update_code (err : string) : Z :=
  if errors_Is err ErrRunNotFound then StatusNotFound else if errors_Is err ErrRunIDMissing then StatusBadRequest
  else StatusInternalServerError.
Definition parseRunStatus (s : string) : Status :=
  if EqualFold s "PENDING" then PENDING else if EqualFold s "RUNNING" then RUNNING else if EqualFold s "COMPLETED" then COMPLETED
  else if EqualFold s "FAILED" then FAILED else if EqualFold s "CANCELLED" then CANCELLED else if EqualFold s "STOPPED" then STOPPED
  else UNSPECIFIED.
Definition decoded {A} (body : go A) (k : A → Http) : Http :=
  match body with Ok a => k a | Fail err => refuse StatusBadRequest ("invalid request body: " +:+ err) | Panic => λ s, (Crash, s) end.
Definition running_or (code : Z) (rec : Record_) (msg : string) : Api Z unit :=
  refuse_if (negb (is_running rec)) code (msg +:+ " (status: " +:+ status_String (rr_Status rec) +:+ ")").

(** * Runs *)

Section Handlers.
Context (env : Env).
Definition run_body (r : RunMsg) (input : option RunInput) : json := JObj [("run", JObj (convertRunToJSON r input))].
(** [rec.Input] of what the store has after the call; a run that has gone meanwhile is a nil dereference. *)
Definition run_reply (runID : string) (updated : Record_) : Http :=
  rec ← read (λ s, RunStore_Get runID (sv_store s));
  match rec with Some rec => writeJSON StatusOK (run_body (rr_Run updated) (rr_Input rec)) | None => λ s, (Crash, s) end.
(** [decode]: [json.Unmarshal] of the normalised body. *)
Definition handleCreateRun (decode : json → go (string * option RunInput)) (body : go json) : Http :=
  decoded body (λ j, decoded (decode (applyCreateRunOptimizationAliases j)) (λ '(runID, input),
    match input with
    | None => refuse StatusBadRequest "input is required"
    | Some input =>
        rec ← create http_create_code env runID input; writeJSON StatusCreated (run_body (rr_Run rec) (rr_Input rec))
    end)).
Definition handleStartRun (runID : string) : Http := updated ← start http_start_code env runID; run_reply runID updated.
Definition handleStopRun (runID : string) : Http := updated ← stop http_stop_code env runID; run_reply runID updated.
Definition handleRenewOnlineLease (runID : string) : Http :=
  rec ← renew http_renew_code env runID; writeJSON StatusOK (run_body (rr_Run rec) (rr_Input rec)).
Definition query_limit (q : string → string) : Z :=
  match Atoi (q "limit") with Some n => if 0 <? n then (if 1000 <? n then 1000 else n) else 50 | None => 50 end.
Definition query_offset (q : string → string) : Z :=
  match Atoi (q "offset") with Some n => if 0 <=? n then n else 0 | None => 0 end.
Definition query_status (q : string → string) : Status := if is_empty (q "status") then UNSPECIFIED else parseRunStatus (q "status").
Definition handleListRuns (q : string → string) : Http :=
  let limit := query_limit q in
  let offset := query_offset q in
  let runs := RunStore_ListFiltered (env_sort env) (env_runs env) limit offset (query_status q) in
  respond [("runs", JList ((λ rec, JObj (convertRunToJSON (rr_Run rec) (rr_Input rec))) <$> runs));
    ("pagination", JObj [("limit", JInt limit); ("offset", JInt offset); ("count", JInt (len runs))])].
Definition run_with_history (ParseFloat : string → go float64) (rec : Record_) : list (string * json) :=
  convertRunToJSON (rr_Run rec) (rr_Input rec) ++
  match rr_OptimizationHistory rec with [] => [] | h => [("optimization_history", convertOptimizationHistoryToJSON ParseFloat h)] end.
Definition handleGetRun (ParseFloat : string → go float64) (runID : string) : Http :=
  found StatusNotFound runID (λ rec, respond [("run", JObj (run_with_history ParseFloat rec))]).

(** * Changes of a run *)

Definition apply_workload (runID : string) (req : WorkloadRequest) : Api Z unit :=
  match wq_RateRPS req, wq_Pattern req with
  | Some rate, _ =>
      refuse_if (fleb rate f0) StatusBadRequest "rate_rps must be positive" ;;
      update_rate http_workload_code env runID (wq_PatternKey req) rate
  | None, Some p =>
      match httpWorkloadPatternRequest_toConfigWorkloadPattern (Some p) with
      | Ok pattern => live http_workload_code (RunExecutor_UpdateWorkloadPattern (env_wall env) runID (wq_PatternKey req) pattern)
      | Fail err => refuse StatusBadRequest err
      | Panic => λ s, (Crash, s)
      end
  | None, None => refuse StatusBadRequest "either rate_rps or pattern must be provided"
  end.
Definition handleUpdateWorkload (body : go WorkloadRequest) (runID : string) : Http :=
  decoded body (λ req,
    refuse_if (is_empty (wq_PatternKey req)) StatusBadRequest "pattern_key is required" ;;
    found StatusNotFound runID (λ rec,
      running_or StatusBadRequest rec "run is not running" ;;
      apply_workload runID req ;;
      respond [("message", JStr "workload updated successfully"); ("run_id", JStr runID); ("pattern_key", JStr (wq_PatternKey req))])).
Definition is_positive (v : option float64) : bool := match v with Some x => fgt x f0 | None => false end.
Definition http_update_service (runID : string) (n : nat) (svc : ServiceRequest) : Api Z unit :=
  refuse_if (is_empty (sq_ID svc)) StatusBadRequest "service id is required" ;;
  refuse_if (sq_Replicas svc <? 1) StatusBadRequest ("replicas must be at least 1 for service " +:+ sq_ID svc) ;;
  update_replicas http_service_code env runID (sq_ID svc) (sq_Replicas svc) ;;
  if is_positive (sq_CPUCores svc) || is_positive (sq_MemoryMB svc)
  then update_sizes http_service_code env n runID (sq_ID svc) (default f0 (sq_CPUCores svc)) (default f0 (sq_MemoryMB svc))
  else ret tt.
Definition http_update_rate (runID : string) (_ : nat) (wl : string * float64) : Api Z unit :=
  refuse_if (is_empty wl.1) StatusBadRequest "pattern_key is required in workload entry" ;;
  refuse_if (fleb wl.2 f0) StatusBadRequest ("rate_rps must be positive for pattern " +:+ wl.1) ;;
  update_rate http_update_code env runID wl.1 wl.2.
Definition autoscaling_of (a : AutoscalingPolicyConfig) : AutoscalingPolicyConfig :=
  mkAutoscalingConfig (ac_Enabled a) (if fleb (ac_TargetCPUUtil a) f0 then f64_lit 7 10 else ac_TargetCPUUtil a)
    (if ac_ScaleStep a <=? 0 then 1 else ac_ScaleStep a).
Definition http_update_policies (runID : string) (p : option (option AutoscalingPolicyConfig)) : Api Z unit :=
  match p with
  | Some (Some a) => live http_update_code (RunExecutor_UpdatePolicies runID (Some (mkPoliciesConfig (Some (autoscaling_of a)) None)))
  | _ => ret tt
  end.
Definition handleUpdateRunConfiguration (body : go ConfigurationRequest) (runID : string) : Http :=
  decoded body (λ req,
    refuse_if ((len (cq_Services req) =? 0) && (len (cq_Workload req) =? 0) && negb (bool_decide (is_Some (cq_Policies req))))
      StatusBadRequest "at least one of services, workload, or policies must be provided" ;;
    found StatusNotFound runID (λ rec,
      running_or StatusBadRequest rec "run is not running" ;;
      for_each (http_update_service runID) 0 (cq_Services req) ;;
      for_each (http_update_rate runID) 0 (cq_Workload req) ;;
      http_update_policies runID (cq_Policies req) ;;
      respond [("message", JStr "configuration updated successfully"); ("run_id", JStr runID)])).

(** * Reading a run *)

(** The scenario of a live run, or else that of its input. *)
Definition input_scenario (input : option RunInput) : option Scenario :=
  match input with
  | Some i =>
      if is_empty (ri_ScenarioYaml i) then None
      else match ParseScenarioYAML (env_unmarshal env) (ri_ScenarioYaml i) with Ok sc => Some sc | _ => None end
  | None => None
  end.
Definition scenario_of (runID : string) (rec : Record_) (s : Server) : option Scenario :=
  match RunExecutor_GetScenarioSnapshot runID (sv_runs s) with Some sc => Some sc | None => input_scenario (rr_Input rec) end.
Definition handleGetRunConfiguration (runID : string) : Http :=
  found StatusNotFound runID (λ rec,
    running_or StatusPreconditionFailed rec "configuration is only available for running runs" ;;
    cfg ← read (run_configuration env runID);
    scen ← read (scenario_of runID rec);
    match cfg with
    | Some cfg => respond [("configuration", convertRunConfigurationToJSON cfg scen)]
    | None => refuse StatusInternalServerError "run configuration not available"
    end).
Definition shard_fields (s : BrokerShardRuntimeSnapshot) : list (string * json) :=
  [("depth", JInt (ss_Depth s)); ("in_flight", JInt (ss_InFlight s)); ("max_concurrency", JInt (ss_MaxConcurrency s));
   ("consumer_target", JStr (ss_ConsumerTarget s)); ("oldest_message_age_ms", JFloat (ss_OldestMessageAgeMs s));
   ("drop_count", JInt (ss_DropCount s)); ("redelivery_count", JInt (ss_RedeliveryCount s)); ("dlq_count", JInt (ss_DlqCount s))].
Definition queue_json (q : QueueBrokerHealthSnapshot) : json :=
  JObj ([("broker_service", JStr (qh_BrokerID q)); ("topic", JStr (qh_Topic q))] ++ shard_fields (qh_snapshot q)).
Definition topic_json (t : TopicBrokerHealthSnapshot) : json :=
  JObj ([("broker_service", JStr (th_BrokerID t)); ("topic", JStr (th_Topic t)); ("partition", JInt (th_Partition t));
         ("subscriber", JStr (th_Subscriber t)); ("consumer_group", JStr (th_ConsumerGroup t))] ++ shard_fields (th_snapshot t)).
(** The orders in which the queues and topics are visited. *)
Context (qorder torder : list string).
Definition brokerShardResourcesJSON (runID : string) (s : Server) : option (json * json) :=
  if is_empty runID then None
  else
    match sv_runs s !! runID with
    | None => None
    | Some lr =>
        let rm := lr_rm lr in
        let snapshotAt := if IsZero (mg_lastSimTime rm) then env_wall env else mg_lastSimTime rm in
        Some (JList (queue_json <$> ResourceManager_QueueBrokerHealthSnapshots qorder snapshotAt rm),
              JList (topic_json <$> ResourceManager_TopicBrokerHealthSnapshots torder snapshotAt rm))
    end.
Definition resources_field (shards : option (json * json)) : list (string * json) :=
  match shards with Some (queues, topics) => [("resources", JObj [("queues", queues); ("topics", topics)])] | None => [] end.
Definition handleGetRunMetrics (runID : string) : Http :=
  found StatusNotFound runID (λ rec,
    match rr_Metrics rec with
    | None => refuse StatusPreconditionFailed "metrics not available"
    | Some m =>
        shards ← read (brokerShardResourcesJSON runID);
        respond (("metrics", convertMetricsToJSON m) :: resources_field shards)
    end).

(** ** Time series *)

(** [time.Parse], [Time.Format], the collectors the store's pointers lead to, and the orders of maps. *)
Context (time_Parse : string → string → option Time) (format : Time → string) (collector : positive → Collector)
  (orders : nat → string → list string) (shuffle : nat → ∀ A : Type, list A → list A) (ParseFloat : string → go float64).
(** 1970 in nanoseconds since the zero time. *)
Definition unix_epoch : Time := 62135596800 * Second.
Definition time_formats : list string :=
  ["2006-01-02T15:04:05.999999999Z07:00"; "2006-01-02T15:04:05Z07:00"; "2006-01-02T15:04:05Z07:00"; "2006-01-02T15:04:05"].
Definition parseTime (s : string) : go Time :=
  match ParseInt 64 s with
  | Some ms => Ok (unix_epoch + wrap64 (ms * Millisecond))
  | None =>
      match head (omap (λ f, time_Parse f s) time_formats) with
      | Some t => Ok t
      | None => Fail "unable to parse time format"
      end
  end.
Definition optional_time (what s : string) : Api Z Time :=
  if is_empty s then ret zeroTime
  else match parseTime s with Ok t => ret t | Fail err => refuse StatusBadRequest ("invalid " +:+ what +:+ " format: " +:+ err) | Panic => λ s, (Crash, s) end.
(** A computation on a collector, from its first loop on. *)
Definition reading {A} (m : SM Reading A) (c : Collector) : Api Z A := λ s,
  match m (mkReading c 0) with Ok (a, _) => (Reply a, s) | _ => (Crash, s) end.
Definition has_collector (runID : string) (k : Collector → Http) (msg : string) : Http :=
  c ← read (λ s, RunStore_GetCollector runID (sv_store s));
  match c with Some p => k (collector p) | None => refuse StatusPreconditionFailed msg end.
Definition handleTimeSeries (q : string → string) (runID : string) : Http :=
  found StatusNotFound runID (λ _,
    has_collector runID (λ c,
      startTime ← optional_time "start_time" (q "start_time");
      endTime ← optional_time "end_time" (q "end_time");
      points ← reading (collect_points orders shuffle (q "metric") (q "service") (q "instance")) c;
      let points := convertTimeseriesToCumulative (env_sort env) (shuffle 0) (filter_range startTime endTime points) in
      respond [("run_id", JStr runID); ("points", JList (point_json format true <$> points))])
      "time-series metrics not available").
Definition final_config (rec : Record_) : option RunConfiguration :=
  match rr_FinalConfig rec with
  | Some cfg => Some cfg
  | None => os_CurrentConfig <$> last (rr_OptimizationHistory rec)
  end.
Definition export_fields (rec : Record_) : list (string * json) :=
  [("run", JObj (run_with_history ParseFloat rec))]
  ++ match final_config rec with
     | Some cfg => [("final_config", convertRunConfigurationToJSON cfg (input_scenario (rr_Input rec)))]
     | None => []
     end
  ++ match rr_Input rec with
     | Some i => [("input", JObj [("scenario_yaml", JStr (ri_ScenarioYaml i)); ("duration_ms", JInt (ri_DurationMs i))])]
     | None => []
     end
  ++ match rr_Metrics rec with Some m => [("metrics", convertMetricsToJSON m)] | None => [] end.
Definition handleExportRun (runID : string) : Http :=
  found StatusNotFound runID (λ rec,
    shards ← read (brokerShardResourcesJSON runID);
    c ← read (λ s, RunStore_GetCollector runID (sv_store s));
    series ← match c with Some p => reading (exportTimeSeriesData orders shuffle format) (collector p) | None => ret [] end;
    respond (export_fields rec ++ resources_field shards ++ when (0 <? len series) [("time_series", JList series)])).

(** ** Progress and diagnostics *)

(** The entries of the executor's [progress] map: the run, and the encoding of the rest. *)
Context (ActiveProgress : list (string * json)) (runtime : list (string * json)) (limits lifecycle optimization : json).
Definition handleRunProgress (runID : string) : Http :=
  found StatusNotFound runID (λ _,
    match list_find (λ p, p.1 = runID) ActiveProgress with
    | Some (_, p) => respond [("progress", p.2)]
    | None => refuse StatusPreconditionFailed "progress not available"
    end).
Definition counts_json (c : RunStoreCounts) : json :=
  JObj [("active", JInt (cnt_Active c)); ("completed_retained", JInt (cnt_CompletedRetained c)); ("failed_retained", JInt (cnt_FailedRetained c));
        ("cancelled_retained", JInt (cnt_CancelledRetained c)); ("optimization_candidates_retained", JInt (cnt_OptimizationCandidates c))].
Definition handleDiagnosticsRuntime : Http :=
  counts ← read (λ s, RunStore_Counts (sv_store s));
  respond (runtime ++ [("active_runs", JList ActiveProgress.*2); ("runstore_counts", counts_json counts); ("limits", limits);
    ("runstore_lifecycle", lifecycle); ("optimization_safety", optimization);
    ("note", JStr "Protect diagnostics endpoint via network controls in production.")]).
Definition handleHealthz : Http := respond [("status", JStr "ok"); ("timestamp", JStr (format (env_wall env)))].

(** * Routing *)

Inductive Method := GET | POST | PATCH | CONNECT | OtherMethod.
#[export] Instance Method_eq_dec : EqDecision Method.
Proof. solve_decision. Defined.
(** [hr_Path] is the path as it was sent, escapes included; then decoders for the bodies. *)
Record Request := mkRequest {
  hr_Method : Method;
  hr_Path : string;
  hr_Query : string → string;
  hr_Body : go json;
  hr_Create : json → go (string * option RunInput);
  hr_Workload : go WorkloadRequest;
  hr_Configuration : go ConfigurationRequest;
}.
(** [strings.CutSuffix], and the two functions it is made of. *)
Fixpoint cut_suffix (s suf : string) : option string :=
  if String.eqb s suf then Some ""
  else match s with EmptyString => None | String c s => String c <$> cut_suffix s suf end.
Definition HasSuffix (s suf : string) : bool := bool_decide (is_Some (cut_suffix s suf)).
Definition TrimSuffix (s suf : string) : string := default s (cut_suffix s suf).
Definition not_allowed : Http := refuse StatusMethodNotAllowed "method not allowed".
(** What a path under [/v1/runs/] asks for; the run ID is what is left of it. *)
Inductive Route :=
  | RStop | RExport | RStream | RTimeSeries | RMetrics | RProgress | RRenew | RWorkload | RConfiguration | RRun.
Definition route_suffixes : list (string * Route) :=
  [(":stop", RStop); ("/export", RExport); ("/metrics/stream", RStream); ("/metrics/timeseries", RTimeSeries); ("/metrics", RMetrics);
   ("/progress", RProgress); ("/online/renew-lease", RRenew); ("/workload", RWorkload); ("/configuration", RConfiguration)].
Definition parse_route (path : string) : Route * string :=
  match List.find (λ r, HasSuffix path r.1) route_suffixes with
  | Some (suf, r) => (r, TrimSuffix path suf)
  | None => (RRun, path)
  end.
(** The stream is a conversation and not one response: its first step is in [stream]. *)
Context (stream : string → Http).
Definition handle_route (r : Request) (route : Route) (runID : string) : Http :=
  match route, hr_Method r with
  | RStop, POST => handleStopRun runID
  | RExport, GET => handleExportRun runID
  | RStream, GET => stream runID
  | RTimeSeries, GET => handleTimeSeries (hr_Query r) runID
  | RMetrics, GET => handleGetRunMetrics runID
  | RProgress, GET => handleRunProgress runID
  | RRenew, POST => handleRenewOnlineLease runID
  | RWorkload, PATCH => handleUpdateWorkload (hr_Workload r) runID
  | RConfiguration, GET => handleGetRunConfiguration runID
  | RConfiguration, PATCH => handleUpdateRunConfiguration (hr_Configuration r) runID
  | RRun, GET => handleGetRun ParseFloat runID
  | RRun, POST => handleStartRun runID
  | _, _ => not_allowed
  end.
Definition handleRunByID (r : Request) (path : string) : Http :=
  if is_empty path then refuse StatusBadRequest "run ID is required"
  else let '(route, runID) := parse_route path in handle_route r route runID.
Definition handleRuns (r : Request) : Http :=
  match hr_Method r with
  | POST => handleCreateRun (hr_Create r) (hr_Body r)
  | GET => handleListRuns (hr_Query r)
  | _ => not_allowed
  end.
(** [NewHTTPServer]: the handlers of the mux's patterns. *)
Context (validate : Request → Http).
Definition serve (r : Request) : Http :=
  match findHandler (bool_decide (hr_Method r = CONNECT)) (hr_Path r) with
  | BadTarget => refuse StatusBadRequest "400 Bad Request"
  | Redirected path => refuse StatusMovedPermanently path
  | Unmatched => refuse StatusNotFound "404 page not found"
  | Matched PHealthz _ => handleHealthz
  | Matched PRuns _ => handleRuns r
  | Matched PRunByID path => handleRunByID r (String.substring 9 (String.length path - 9) path)
  | Matched PValidateScenario _ => validate r
  | Matched PDiagnosticsRuntime _ => handleDiagnosticsRuntime
  end.
End Handlers.
