(* ===== verification/ServerSpec.v ===== *)
(** What the two servers guarantee: a path leads to the run and the operation it names, the two
    protocols agree, and nothing a client sends moves the executor except by its own operations. *)
From S2P Require Import Prelude GoFloat Utils Policy Config Graph BatchSpec BrokerQueue ResourceManager Collector RunMetrics RunStore Limits RunControl SimState Workload EngineMetrics RunConfig OnlineController Orchestrator Server HttpJson Mux HttpServer.
From Stdlib Require Import SpecFloat.
#[local] Open Scope string_scope.
#[local] Open Scope list_scope.
#[local] Open Scope Z_scope.
#[local] Open Scope api_scope.

(** * Routing *)

Lemma length_append s t : String.length (s +:+ t) = (String.length s + String.length t)%nat.
Proof. induction s as [|c s IH]; [done|]. exact (f_equal S IH). Qed.
Lemma append_empty s : s +:+ "" = s.
Proof. induction s as [|c s IH]; [done|]. exact (f_equal (String c) IH). Qed.
Lemma cut_suffix_cons c s suf :
  cut_suffix (String c s) suf = if String.eqb (String c s) suf then Some "" else String c <$> cut_suffix s suf.
Proof. done. Qed.
Lemma cut_suffix_app p suf : cut_suffix (p +:+ suf) suf = Some p.
Proof.
  induction p as [|c p IH].
  - change ("" +:+ suf) with suf. destruct suf; [done|]. by rewrite cut_suffix_cons, String.eqb_refl.
  - change (String c p +:+ suf) with (String c (p +:+ suf)). rewrite cut_suffix_cons, IH.
    destruct (String.eqb_spec (String c (p +:+ suf)) suf) as [E|_]; [exfalso|done].
    apply (f_equal String.length) in E. cbn [String.length] in E. rewrite length_append in E. lia.
Qed.
Definition separator (c : ascii) : bool := Ascii.eqb c ":" || Ascii.eqb c "/".
(** A suffix that begins with a separator cannot reach into an ID. *)
Lemma suffix_outside id rest c suf :
  contains_any id = false → separator c = true →
  HasSuffix (id +:+ rest) (String c suf) = HasSuffix rest (String c suf).
Proof.
  intros Hid Hc. unfold HasSuffix. induction id as [|d id IH]; [done|]. cbn [contains_any] in Hid.
  change (String d id +:+ rest) with (String d (id +:+ rest)). rewrite cut_suffix_cons.
  apply orb_false_iff in Hid as [Hd Hid]. cbn [String.eqb]. destruct (Ascii.eqb_spec d c) as [->|_].
  - unfold separator in Hc. congruence.
  - rewrite <- IH by done. apply bool_decide_ext. by rewrite fmap_is_Some.
Qed.
Definition run_routes : list (string * Route) := ("", RRun) :: route_suffixes.
Lemma parse_route_run id suf r :
  contains_any id = false → (suf, r) ∈ run_routes → parse_route (id +:+ suf) = (r, id).
Proof.
  intros Hid Hr. unfold parse_route, route_suffixes. cbn [List.find fst].
  rewrite !suffix_outside by done. unfold run_routes, route_suffixes in Hr.
  repeat (apply elem_of_cons in Hr as [[= -> ->]|Hr];
    [match goal with |- match ?x with _ => _ end = _ => let y := eval vm_compute in x in change x with y end;
     cbv iota; unfold TrimSuffix|]);
    first [by rewrite cut_suffix_app | by rewrite append_empty | by apply not_elem_of_nil in Hr].
Qed.

(** * The two protocols *)

(** The status that reports what a code reports. *)
Definition http_of (c : Code) : Z :=
  match c with
  | InvalidArgument => StatusBadRequest | NotFound => StatusNotFound | AlreadyExists | FailedPrecondition => StatusConflict
  | ResourceExhausted => StatusTooManyRequests | Internal => StatusInternalServerError
  end.
(** Two calls with the same effect, that reply or refuse together, with results and refusals related by [R] and [Q]. *)
Definition agree {A B} (Q : Code * string → Z * string → Prop) (R : A → B → Prop) (x : reply Code A * Server) (y : reply Z B * Server) : Prop :=
  x.2 = y.2
  ∧ match x.1, y.1 with
    | Reply a, Reply b => R a b
    | Refuse c m, Refuse z n => Q (c, m) (z, n)
    | Crash, Crash => True
    | _, _ => False
    end.
Definition same_error (x : Code * string) (y : Z * string) : Prop := y = (http_of x.1, x.2).
Definition any_error (x : Code * string) (y : Z * string) : Prop := True.
Section Agree.
Context {A B A' B' : Type} (Q : Code * string → Z * string → Prop) (R : A → B → Prop) (R' : A' → B' → Prop).
Lemma agree_bind (m : Api Code A) (m' : Api Z B) k k' s :
  agree Q R (m s) (m' s) → (∀ a b s', R a b → (m s).2 = s' → (m s).1 = Reply a → agree Q R' (k a s') (k' b s')) →
  agree Q R' (bind m k s) (bind m' k' s).
Proof.
  unfold bind, agree. intros [Hs Hr] Hk. destruct (m s) as [[a|c msg|] s1], (m' s) as [[b|z n|] s2]; simpl in *; subst; try done.
  by apply Hk.
Qed.
End Agree.
Lemma agree_executor {A} Q (c : string → Code) (c' : string → Z) (f : Exec → go A * Exec) s :
  (∀ err e, f (sv_ex s) = (Fail err, e) → Q (c err, err) (c' err, err)) → agree Q eq (executor c f s) (executor c' f s).
Proof. intros H. unfold executor, agree. destruct (f (sv_ex s)) as [[a|err|] e] eqn:E; simpl; eauto. Qed.
Lemma agree_live Q (c : string → Code) (c' : string → Z) f s :
  (∀ err, Q (c err, err) (c' err, err)) → agree Q eq (live c f s) (live c' f s).
Proof. intros H. unfold live, agree. destruct (f (sv_runs s)) as [a|err|] eqn:E; simpl; eauto. Qed.
Lemma agree_live_partial Q (c : string → Code) (c' : string → Z) f s :
  (∀ err, Q (c err, err) (c' err, err)) → agree Q eq (live_partial c f s) (live_partial c' f s).
Proof. intros H. unfold live_partial, agree. destruct (f (sv_runs s)) as [[[e|] a]|err|] eqn:E; simpl; eauto. Qed.
Lemma agree_refuse {A B} (Q : Code * string → Z * string → Prop) (R : A → B → Prop) c z m n s :
  Q (c, m) (z, n) → agree Q R (refuse c m s) (refuse z n s).
Proof. by split. Qed.
Lemma agree_refuse_if (Q : Code * string → Z * string → Prop) b c z m n s :
  Q (c, m) (z, n) → agree Q eq (refuse_if b c m s) (refuse_if b z n s).
Proof. intros. unfold refuse_if. destruct b; by split. Qed.
Lemma agree_found {A B} (Q : Code * string → Z * string → Prop) (R : A → B → Prop) id k k' c z s :
  Q (c, "run not found") (z, "run not found") →
  (∀ rec, RunStore_Get id (sv_store s) = Some rec → agree Q R (k rec s) (k' rec s)) →
  agree Q R (found c id k s) (found z id k' s).
Proof. intros H Hk. unfold found, bind, read. destruct (RunStore_Get id (sv_store s)) eqn:E; [by apply Hk|by split]. Qed.

(** ** What the executor's calls return *)

Lemma go_bind_fail {A B} (m : go A) (k : A → go B) err :
  go_bind m k = Fail err → m = Fail err ∨ ∃ a, m = Ok a ∧ k a = Fail err.
Proof. destruct m; simpl; intros; simplify_eq; eauto. Qed.
Lemma fail_if_fail b msg err : fail_if b msg = Fail err → err = msg.
Proof. destruct b; simpl; congruence. Qed.
(** Every way in which a chain of checks can have failed. *)
Ltac go_fail :=
  repeat match goal with
  | H : Fail _ = Fail _ |- _ => injection H; clear H; intros; subst
  | H : Ok _ = Fail _ |- _ => discriminate H
  | H : Panic = Fail _ |- _ => discriminate H
  | H : go_bind _ _ = Fail _ |- _ => apply go_bind_fail in H as [H|(? & ? & H)]
  | H : fail_if _ _ = Fail _ |- _ => apply fail_if_fail in H; subst
  end.
Section Calls.
Context (unmarshal : string → go Scenario) (duration : Duration → string).
Lemma start_checks_error (e : Exec) rec err :
  start_checks unmarshal duration e rec = Fail err → errors_Is err ErrRunIDMissing = false.
Proof.
  unfold start_checks, ServerLimits_validatePreStart, validateOptimizationPreStart, Limits.validateOnlineOptimizationConfig.
  intros H. repeat first [progress go_fail | case_match; try discriminate]; reflexivity.
Qed.
Lemma start_error now id (e e' : Exec) err :
  is_empty id = false → RunExecutor_Start unmarshal duration now id e = (Fail err, e') → errors_Is err ErrRunIDMissing = false.
Proof.
  intros Hid H. unfold RunExecutor_Start in H. rewrite Hid in H.
  destruct (RunStore_SetStatusRunningWithOnlineConcurrencyGuard _ _ _) as [[updated st]|err'|] eqn:E; [|simplify_eq|done].
  - destruct (start_checks _ _ _ _) eqn:Ec; [by repeat case_match|simplify_eq; by eapply start_checks_error|done].
  - unfold RunStore_SetStatusRunningWithOnlineConcurrencyGuard in E. repeat first [progress go_fail | case_match; try discriminate]; reflexivity.
Qed.
Lemma start_stored now id (e e' : Exec) rec :
  RunExecutor_Start unmarshal duration now id e = (Ok rec, e') → is_Some (RunStore_Get id (ex_store e')).
Proof.
  unfold RunExecutor_Start, RunStore_SetStatusRunningWithOnlineConcurrencyGuard. intros H.
  destruct (is_empty id); [done|]. destruct (rs_runs (ex_store e) !! id) as [r|] eqn:E; [|done].
  assert (Hs : ∀ st, e' = st → is_Some (rs_runs (ex_store st) !! id) → is_Some (RunStore_Get id (ex_store e'))) by (by intros ? <-).
  unfold cancel_run in H. destruct (rr_Status r); repeat (case_match; try discriminate); go_inv; simplify_eq;
    eapply Hs; try reflexivity; cbn; rewrite ?lookup_insert_eq; eauto.
Qed.
End Calls.
Lemma quiet_stored id (e e' : Exec) : quiet e e' → is_Some (RunStore_Get id (ex_store e)) → is_Some (RunStore_Get id (ex_store e')).
Proof.
  intros [_ H] Hs. apply (fmap_is_Some (λ rec, (rr_Status rec, rr_Input rec))). change (is_Some (view e' id)).
  rewrite (H id). by apply fmap_is_Some.
Qed.
Lemma stop_stored env cfg id (e e' : Exec) rec :
  executor_stop env cfg id e = (Ok rec, e') → is_Some (RunStore_Get id (ex_store e')).
Proof.
  unfold executor_stop, RunExecutor_Stop, stop_status. destruct (is_empty id) eqn:Hid; [done|]. intros H.
  assert (Hst : ex_store (stop_cancel id e) = ex_store e) by (unfold stop_cancel, cancel_run; rewrite Hid; by destruct (ex_cancels e !! id)).
  set (e1 := (stop_cancel id e) <| ex_stopping := ex_stopping (stop_cancel id e) ∖ {[id]} |>) in H.
  assert (H1 : ex_store e1 = ex_store e) by exact Hst. cbv zeta in H. rewrite H1 in H.
  destruct (RunStore_SetStatus (env_now env) id STOPPED "" (ex_store e)) as [[updated st]|err|] eqn:E; [|done..].
  set (e2 := e1 <| ex_store := st |>) in H. assert (H2 : is_Some (RunStore_Get id (ex_store e2))).
  { unfold RunStore_SetStatus, update_run in E. destruct (rs_runs (ex_store e) !! id); [|done]. injection E as <- <-. unfold RunStore_Get. cbn.
    rewrite lookup_insert_eq. by eexists. }
  injection H as _ <-. apply (quiet_stored id e2); [|done]. etrans; [apply (quiet_snapshot cfg id)|].
  destruct (is_online (rr_Input updated)); [done|apply quiet_notify].
Qed.

Lemma bind_reply {E A B} (m : Api E A) (k : A → Api E B) s a s' : m s = (Reply a, s') → bind m k s = k a s'.
Proof. unfold bind. by intros ->. Qed.

(** ** Calls that leave the executor and the store alone *)

Definition keeps {E A} (m : Api E A) : Prop := ∀ s, sv_ex (m s).2 = sv_ex s.
Create HintDb keeps.
Section Keeps.
Context {E : Type}.
Lemma keeps_ret {A} (a : A) : keeps (E := E) (ret a).
Proof. done. Qed.
Lemma keeps_crash {A} : keeps (E := E) (A := A) (λ s, (Crash, s)).
Proof. done. Qed.
Lemma keeps_refuse {A} (c : E) m : keeps (A := A) (refuse c m).
Proof. done. Qed.
Lemma keeps_refuse_if b (c : E) m : keeps (refuse_if b c m).
Proof. by destruct b. Qed.
Lemma keeps_read {A} (f : Server → A) : keeps (E := E) (read f).
Proof. done. Qed.
Lemma keeps_live (c : string → E) f : keeps (live c f).
Proof. intros s. unfold live. by destruct (f (sv_runs s)). Qed.
Lemma keeps_live_partial (c : string → E) f : keeps (live_partial c f).
Proof. intros s. unfold live_partial. by destruct (f (sv_runs s)) as [[[] ]| |]. Qed.
Lemma keeps_bind {A B} (m : Api E A) (k : A → Api E B) : keeps m → (∀ a, keeps (k a)) → keeps (bind m k).
Proof. intros Hm Hk s. specialize (Hm s). unfold bind. destruct (m s) as [[a| |] s']; simpl in *; [by rewrite Hk|done..]. Qed.
Lemma keeps_found {A} (c : E) id (k : Record_ → Api E A) : (∀ rec, keeps (k rec)) → keeps (found c id k).
Proof. intros Hk. apply keeps_bind; [done|]. intros [rec|]; [apply Hk|done]. Qed.
Lemma keeps_for_each {A} (f : nat → A → Api E unit) n l : (∀ n x, keeps (f n x)) → keeps (for_each f n l).
Proof. intros Hf. revert n. induction l; intros n; [done|]. by apply keeps_bind. Qed.
End Keeps.
#[export] Hint Resolve keeps_ret keeps_crash keeps_refuse keeps_refuse_if keeps_read keeps_live keeps_live_partial keeps_bind
  keeps_found keeps_for_each : keeps.
(** Through matches and conditionals to the calls. *)
Ltac keeps := repeat first [progress (intros) | apply keeps_bind | apply keeps_found | apply keeps_for_each | solve [eauto 2 with keeps]
  | match goal with |- keeps (match ?x with _ => _ end) => destruct x end ].
Lemma keeps_update_rate {E} (code : string → E) env id key rate : keeps (update_rate code env id key rate).
Proof. apply keeps_live. Qed.
Lemma keeps_update_replicas {E} (code : string → E) env id svc n : keeps (update_replicas code env id svc n).
Proof. apply keeps_live_partial. Qed.
Lemma keeps_update_sizes {E} (code : string → E) env n id svc cpu mem : keeps (update_sizes code env n id svc cpu mem).
Proof. apply keeps_live. Qed.
#[export] Hint Resolve keeps_update_rate keeps_update_replicas keeps_update_sizes : keeps.
Lemma keeps_update_service env id n svc : keeps (update_service env id n svc).
Proof. unfold update_service, require. keeps. Qed.
Lemma keeps_decoded {A} (body : go A) k : (∀ a, keeps (k a)) → keeps (decoded body k).
Proof. intros. unfold decoded. keeps. Qed.

Section Servers.
Context (env : Env) (qorder torder : list string) (time_Parse : string → string → option Time) (format : Time → string)
  (collector : positive → Collector) (orders : nat → string → list string) (shuffle : nat → ∀ A : Type, list A → list A)
  (ParseFloat : string → go float64) (ActiveProgress runtime : list (string * json)) (limits lifecycle optimization : json)
  (stream : string → Http) (validate : Request → Http).
#[local] Abbreviation serve :=
  (serve env qorder torder time_Parse format collector orders shuffle ParseFloat ActiveProgress runtime limits lifecycle
     optimization stream validate).
#[local] Abbreviation handle_route :=
  (handle_route env qorder torder time_Parse format collector orders shuffle ParseFloat ActiveProgress stream).

Definition run_path (id suf : string) : string := "/v1/runs/" +:+ (id +:+ suf).
Lemma substring_all s : String.substring 0 (String.length s) s = s.
Proof. induction s as [|c s IH]; [done|]. exact (f_equal (String c) IH). Qed.
Lemma substring_after p s : String.substring (String.length p) (String.length (p +:+ s) - String.length p) (p +:+ s) = s.
Proof.
  induction p as [|c p IH]; [|exact IH].
  change ("" +:+ s) with s. cbn [String.length]. rewrite Nat.sub_0_r. apply substring_all.
Qed.
Lemma has_prefix_append p s : HasPrefix (p +:+ s) p = true.
Proof.
  unfold HasPrefix. induction p as [|c p IH]; [by destruct s|].
  change (String c p +:+ s) with (String c (p +:+ s)). cbn [String.prefix]. by destruct (ascii_dec c c).
Qed.
Lemma append_not_empty s t : is_empty s = false → is_empty (s +:+ t) = false.
Proof. by destruct s. Qed.
(** The segments of the path of a run: the ID begins the first one. *)
Lemma segments_append id t : contains_any id = false →
  segments (id +:+ t) = match segments t with [] => [] | x :: l => (id +:+ x) :: l end.
Proof.
  induction id as [|c id IH]; intros H; [change (EmptyString +:+ t) with t; by destruct (segments t)|].
  cbn [contains_any] in H. apply orb_false_iff in H as [Hc H]. apply orb_false_iff in Hc as [_ Hc].
  change (String c id +:+ t) with (String c (id +:+ t)). cbn [segments]. rewrite Hc, IH by done.
  pose proof (segments_not_nil t). by destruct (segments t).
Qed.
(** The IDs that name the directory of runs or the one above it. *)
Definition dotted (id : string) : Prop := id = "." ∨ id = "..".
Lemma run_path_plain id suf route :
  contains_any id = false → is_empty id = false → (suf, route) ∈ run_routes → (¬ dotted id ∨ suf = ":stop") →
  Forall plain (segments (id +:+ suf)).
Proof.
  intros Hc Hne Hr Hd. rewrite (segments_append id suf Hc). assert (Hid : id ≠ "") by by destruct id.
  assert (Hplain : ¬ dotted id → plain (id +:+ "")) by (rewrite append_empty; unfold plain, dotted; naive_solver).
  assert (Hstop : plain (id +:+ ":stop")).
  { unfold plain. split_and!; intros E; apply (f_equal String.length) in E; rewrite length_append in E; simpl in E; lia. }
  unfold run_routes, route_suffixes in Hr.
  repeat (apply elem_of_cons in Hr as [[= -> ->]|Hr];
    [cbn; repeat (apply Forall_cons; split); first [apply Forall_nil; exact I | exact Hstop | by split_and!
      | destruct Hd as [Hd|Hd]; [by apply Hplain|discriminate Hd]]|]).
  by apply not_elem_of_nil in Hr.
Qed.
Lemma mux_match_run x : mux_match (escape ("/v1/runs/" +:+ x)) = Some PRunByID.
Proof.
  change (escape ("/v1/runs/" +:+ x)) with ("/v1/runs/" +:+ escape x). unfold mux_match.
  change (rooted ("/v1/runs/" +:+ escape x)) with ("v1/runs/" +:+ escape x).
  change (segments ("v1/runs/" +:+ escape x)) with ("v1" :: "runs" :: segments (escape x)).
  pose proof (segments_not_nil (escape x)). destruct (segments (escape x)); [done|]. reflexivity.
Qed.
Lemma serve_matched r id suf :
  is_empty id = false → findHandler (bool_decide (hr_Method r = CONNECT)) (hr_Path r) = Matched PRunByID (run_path id suf) →
  serve r = (let '(route, runID) := parse_route (id +:+ suf) in handle_route r route runID).
Proof.
  intros Hne Hp. unfold HttpServer.serve, handleRunByID. rewrite Hp.
  change (String.substring 9 _ _) with
    (String.substring (String.length "/v1/runs/") (String.length ("/v1/runs/" +:+ (id +:+ suf)) - String.length "/v1/runs/")
       ("/v1/runs/" +:+ (id +:+ suf))).
  by rewrite substring_after, append_not_empty by done.
Qed.

(** ** Agreement *)

Lemma with_run_some {A} id (k : string → Api Code A) s : is_empty id = false → with_run (Some id) k s = k id s.
Proof. intros H. unfold with_run, bind, require, refuse_if. by rewrite H. Qed.
(** A response with the run that the other protocol returns. *)
Definition shows (status : Z) (r : RunMsg) (b : Z * json) : Prop :=
  ∃ input extra, b = (status, JObj [("run", JObj (convertRunToJSON r input ++ extra))]).
Lemma shows_body status r input : shows status r (status, run_body r input).
Proof. exists input, []. by rewrite app_nil_r. Qed.
Lemma shows_reply id rec s :
  is_Some (RunStore_Get id (sv_store s)) → agree same_error (shows StatusOK) (ret (rr_Run rec) s) (run_reply id rec s).
Proof.
  intros [r Hr]. unfold run_reply, bind, read. rewrite Hr. split; [done|]. apply shows_body.
Qed.
Lemma agree_start id s : is_empty id = false → agree same_error (shows StatusOK) (StartRun env (Some id) s) (handleStartRun env id s).
Proof.
  intros Hid. unfold StartRun. rewrite with_run_some by done. eapply agree_bind.
  - apply agree_executor. intros err e H%start_error; [|done]. unfold same_error, start_code, http_start_code. simpl.
    rewrite H. by repeat destruct (errors_Is err _).
  - intros rec ? s' <- <- H. apply shows_reply. unfold start, executor in *. destruct (RunExecutor_Start _ _ _ _ _) as [[]] eqn:E; try done.
    simplify_eq. by eapply start_stored.
Qed.
Lemma agree_stop id s : is_empty id = false → agree same_error (shows StatusOK) (StopRun env (Some id) s) (handleStopRun env id s).
Proof.
  intros Hid. unfold StopRun. rewrite with_run_some by done. eapply agree_bind.
  - unfold stop, bind, read. apply agree_executor. intros err e _. unfold same_error, stop_code, http_stop_code. simpl.
    by repeat destruct (stop_Is err _).
  - intros rec ? s' <- <- H. apply shows_reply. unfold stop, bind, read, executor in *.
    destruct (executor_stop _ _ _ _) as [[]] eqn:E; try done. simplify_eq. by eapply stop_stored.
Qed.
Lemma agree_renew id s :
  is_empty id = false → agree same_error (shows StatusOK) (RenewOnlineLease env (Some id) s) (handleRenewOnlineLease env id s).
Proof.
  intros Hid. unfold RenewOnlineLease. rewrite with_run_some by done. eapply agree_bind.
  - apply agree_executor. intros err e _. unfold same_error, renew_code, http_renew_code. simpl. by repeat destruct (errors_Is err _).
  - intros rec ? s' <- _ _. split; [done|]. apply shows_body.
Qed.
Lemma agree_get id s : is_empty id = false → agree same_error (shows StatusOK) (GetRun (Some id) s) (handleGetRun ParseFloat id s).
Proof.
  intros Hid. unfold GetRun. rewrite with_run_some by done. apply agree_found; [done|]. intros rec _. split; [done|]. by eexists _, _.
Qed.
Lemma agree_create decode j id input s :
  decode (applyCreateRunOptimizationAliases j) = Ok (id, input) →
  agree same_error (shows StatusCreated) (CreateRun env (Some (id, input)) s) (handleCreateRun env decode (Ok j) s).
Proof.
  intros Hd. unfold handleCreateRun, decoded. rewrite Hd. destruct input as [input|]; [|by apply agree_refuse].
  unfold CreateRun, create, bind. destruct (RunStore_Create _ _ _ _ _ _) as [[rec st]|err|]; [| |done].
  - split; [done|]. apply shows_body.
  - split; [done|]. unfold same_error, create_code, http_create_code. simpl. by repeat case_match.
Qed.
(** Refusals of a change of rate: with the code that corresponds, or one that HTTP reports as the client's error. *)
Definition rate_error (x : Code * string) (y : Z * string) : Prop :=
  y.2 = x.2 ∧ (y.1 = http_of x.1 ∨ (x.1 = FailedPrecondition ∨ x.1 = Internal) ∧ (y.1 = StatusBadRequest ∨ y.1 = StatusNotFound)).
Definition succeeds (r : RunMsg) (b : Z * json) : Prop := b.1 = StatusOK.
Lemma workload_code_error err : rate_error (update_code err, err) (http_workload_code err, err).
Proof. split; [done|]. unfold update_code, http_workload_code. simpl. repeat case_match; auto. Qed.
Lemma agree_rate id key rate pattern s :
  is_empty id = false → is_empty key = false → fleb rate f0 = false →
  agree rate_error succeeds (UpdateWorkloadRate env (Some (mkRateRequest id key rate)) s)
    (handleUpdateWorkload env (Ok (mkWorkloadRequest key (Some rate) pattern)) id s).
Proof.
  intros Hid Hkey Hrate. unfold UpdateWorkloadRate, handleUpdateWorkload, decoded, require, refuse_if. simpl.
  rewrite Hid, Hkey, Hrate. simpl. apply agree_found; [split; [done|by left]|]. intros rec Hrec.
  eapply agree_bind; [apply agree_refuse_if; simpl; split; auto|]. intros [] [] s1 _ Hs1 _.
  assert (H1 : s1 = s) by (rewrite <- Hs1; by destruct (negb (is_running rec))). clear Hs1. subst s1.
  eapply agree_bind; [|intros [] [] s2 _ Hs2 _].
  - unfold apply_workload, refuse_if, bind. cbn [wq_RateRPS wq_PatternKey]. rewrite Hrate. apply agree_live, workload_code_error.
  - unfold bind, read, sv_store in *. rewrite <- Hs2, keeps_update_rate. by rewrite Hrec.
Qed.
Definition service_request (u : ServiceUpdate) : ServiceRequest :=
  mkServiceRequest (su_ServiceId u) (su_Replicas u) (Some (su_CpuCores u)) (Some (su_MemoryMb u)).
Lemma agree_for_each {A B} (f : nat → A → Api Code unit) (g : nat → B → Api Z unit) (h : A → B) :
  (∀ n x s, agree any_error eq (f n x s) (g n (h x) s)) →
  ∀ l n s, agree any_error eq (for_each f n l s) (for_each g n (h <$> l) s).
Proof.
  intros H. induction l as [|x l IH]; intros n s; [done|]. eapply agree_bind; [apply H|]. intros [] [] s' _ _ _. apply IH.
Qed.
Lemma agree_service id n u s : agree any_error eq (update_service env id n u s) (http_update_service env id n (service_request u) s).
Proof.
  unfold update_service, http_update_service, require. rewrite !negb_involutive.
  eapply agree_bind; [by apply agree_refuse_if|]. intros _ _ s1 _ _ _.
  eapply agree_bind; [by apply agree_refuse_if|]. intros _ _ s2 _ _ _.
  eapply agree_bind; [by apply agree_live_partial|]. intros _ _ s3 _ _ _. simpl.
  destruct (_ || _); [by apply agree_live|done].
Qed.
Lemma agree_configuration id services s :
  is_empty id = false → services ≠ [] →
  agree any_error succeeds (UpdateRunConfiguration env (Some (id, services)) s)
    (handleUpdateRunConfiguration env (Ok (mkConfigurationRequest (service_request <$> services) [] None)) id s).
Proof.
  intros Hid Hne. unfold UpdateRunConfiguration, handleUpdateRunConfiguration, decoded, require, refuse_if. cbn [cq_Services cq_Workload cq_Policies].
  rewrite Hid. assert (H0 : negb (0 <? len services) = false) by (unfold len; destruct services; [done|]; simpl; lia).
  assert (H1 : (len (service_request <$> services) =? 0) = false) by (unfold len; destruct services; [done|]; simpl; lia).
  rewrite H0, H1. cbn [negb andb]. apply (agree_found any_error succeeds); [done|]. intros rec Hrec.
  eapply agree_bind; [by apply agree_refuse_if|]. intros _ _ s1 _ Hs1 _.
  assert (E : s1 = s) by (rewrite <- Hs1; by destruct (negb (is_running rec))). clear Hs1. subst s1.
  eapply agree_bind; [apply (agree_for_each _ _ service_request), agree_service|]. intros _ _ s2 _ Hs2 _.
  unfold bind, read, sv_store in *. simpl. rewrite <- Hs2, keeps_for_each, Hrec; [done|]. intros. apply keeps_update_service.
Qed.

(** C23: the two protocols are one interface. A run is created, started, stopped, renewed and read by gRPC and by HTTP with
    the same effect on runs and executor, the two accept and refuse together, with the same message and the status that the gRPC code
    stands for, and HTTP shows the run that gRPC returns. A valid change of a rate has the same effect, outcome and message, and where the codes
    do not correspond HTTP reports the client's error; a change of services has the same effect and outcome. *)
Theorem http_grpc_agree decode j id input key rate pattern services s :
  is_empty id = false → decode (applyCreateRunOptimizationAliases j) = Ok (id, input) →
  is_empty key = false → fleb rate f0 = false → services ≠ [] →
  agree same_error (shows StatusCreated) (CreateRun env (Some (id, input)) s) (handleCreateRun env decode (Ok j) s)
  ∧ agree same_error (shows StatusOK) (StartRun env (Some id) s) (handleStartRun env id s)
  ∧ agree same_error (shows StatusOK) (StopRun env (Some id) s) (handleStopRun env id s)
  ∧ agree same_error (shows StatusOK) (RenewOnlineLease env (Some id) s) (handleRenewOnlineLease env id s)
  ∧ agree same_error (shows StatusOK) (GetRun (Some id) s) (handleGetRun ParseFloat id s)
  ∧ agree rate_error succeeds (UpdateWorkloadRate env (Some (mkRateRequest id key rate)) s)
      (handleUpdateWorkload env (Ok (mkWorkloadRequest key (Some rate) pattern)) id s)
  ∧ agree any_error succeeds (UpdateRunConfiguration env (Some (id, services)) s)
      (handleUpdateRunConfiguration env (Ok (mkConfigurationRequest (service_request <$> services) [] None)) id s).
Proof.
  intros. split_and!; [by apply agree_create|by apply agree_start|by apply agree_stop|by apply agree_renew|by apply agree_get
    |by apply agree_rate|by apply agree_configuration].
Qed.
(** C24: every run that [Create] accepts can be addressed: its path, alone or with the suffix of any operation, sent with the
    default escapes, is routed to that operation with exactly its ID. The exceptions are the IDs of one dot and of two dots:
    unless the suffix is [:stop], their paths are redirected and never reach a handler, but they
    are routed if the dots are sent escaped. *)
Theorem route_roundtrip g now id input st rec st' suf route r :
  RunStore_Create (env_unmarshal env) g now id input st = Ok (rec, st' : RunStore (Metrics := RunMetrics) (Conf := RunConfiguration) (Step := ControllerStep)) →
  is_empty g = false → (suf, route) ∈ run_routes →
  let name := run_Id (rr_Run rec) in
  (hr_Path r = escape (run_path name suf) → (¬ dotted name ∨ suf = ":stop") → serve r = handle_route r route name)
  ∧ (hr_Path r = escape (run_path name suf) → dotted name → suf ≠ ":stop" → hr_Method r ≠ CONNECT →
     ∃ path, serve r = refuse StatusMovedPermanently path)
  ∧ (dotted name → hr_Path r = "/v1/runs/" +:+ (if bool_decide (name = ".") then "%2E" else "%2E%2E") +:+ suf →
     serve r = handle_route r route name).
Proof.
  intros H Hg Hr. cbv zeta.
  assert (Hne : is_empty (run_Id (rr_Run rec)) = false ∧ contains_any (run_Id (rr_Run rec)) = false).
  { unfold RunStore_Create in H. go_inv. cbn. destruct (is_empty id) eqn:?; auto. }
  destruct Hne as [Hne Hc]. set (name := run_Id (rr_Run rec)) in *. clearbody name. split_and!.
  - intros Hp Hd. rewrite (serve_matched r name suf), (parse_route_run name suf route) by
      (done || (rewrite Hp; apply findHandler_plain; [|apply mux_match_run];
        change (Forall plain ("v1" :: "runs" :: segments (name +:+ suf))); do 2 (constructor; [done|]); by eapply run_path_plain)).
    done.
  - intros Hp Hd Hs Hm. assert (bool_decide (hr_Method r = CONNECT) = false) as E by by apply bool_decide_eq_false.
    unfold HttpServer.serve. rewrite E, Hp. clear -Hd Hs Hr. unfold run_routes, route_suffixes in Hr.
    repeat (apply elem_of_cons in Hr as [[= -> ->]|Hr]; [try done; destruct Hd as [->| ->]; eexists; vm_compute; reflexivity|]).
    by apply not_elem_of_nil in Hr.
  - intros Hd Hp. rewrite (serve_matched r name suf), (parse_route_run name suf route); [done..|].
    rewrite Hp. clear -Hd Hr. unfold run_routes, route_suffixes in Hr. generalize (bool_decide (hr_Method r = CONNECT)) as connect. intros connect.
    repeat (apply elem_of_cons in Hr as [[= -> ->]|Hr]; [destruct Hd as [->| ->], connect; vm_compute; reflexivity|]).
    by apply not_elem_of_nil in Hr.
Qed.

(** * What requests do to the executor *)

(** A call of the gRPC service. *)
Inductive Call :=
  | CCreate (req : option (string * option RunInput)) | CStart (req : option string) | CStop (req : option string)
  | CRenew (req : option string) | CGet (req : option string) | CList (limit : option Z) | CMetrics (req : option string)
  | CRate (req : option UpdateWorkloadRateRequest) | CConfigure (req : option (string * list ServiceUpdate))
  | CConfiguration (req : option string).
Definition grpc (c : Call) (s : Server) : Server :=
  match c with
  | CCreate req => (CreateRun env req s).2
  | CStart req => (StartRun env req s).2
  | CStop req => (StopRun env req s).2
  | CRenew req => (RenewOnlineLease env req s).2
  | CGet req => (GetRun req s).2
  | CList limit => (ListRuns env limit s).2
  | CMetrics req => (GetRunMetrics req s).2
  | CRate req => (UpdateWorkloadRate env req s).2
  | CConfigure req => (UpdateRunConfiguration env req s).2
  | CConfiguration req => (GetRunConfiguration env req s).2
  end.
Inductive Message := Grpc (c : Call) | HttpRequest (r : Request).
Definition handled (q : Message) (s : Server) : Server :=
  match q with Grpc c => grpc c s | HttpRequest r => (serve r s).2 end.
(** The run that a message starts. *)
Definition starts (q : Message) : option string :=
  match q with
  | Grpc (CStart req) => req
  | Grpc _ => None
  | HttpRequest r =>
      match findHandler false (hr_Path r) with
      | Matched PRunByID path =>
          match hr_Method r, parse_route (String.substring 9 (String.length path - 9) path) with
          | POST, (RRun, id) => Some id
          | _, _ => None
          end
      | _ => None
      end
  end.
(** It starts no run that runs already, and no run has been removed while its goroutine is there. *)
Definition polite (q : Message) (s : Server) : Prop :=
  (∀ id, starts q = Some id → status_of (sv_ex s) id ≠ Some RUNNING)
  ∧ (∀ id, status_of (sv_ex s) id = None → ¬ task_of (sv_ex s) id).
#[local] Abbreviation steps := (steps (env_unmarshal env) (env_duration env)).
Definition moves (strict : bool) (s : Server) {E A} (m : Api E A) : Prop := steps strict (sv_ex s) (sv_ex (m s).2).
Lemma moves_keeps strict s {E A} (m : Api E A) : keeps m → moves strict s m.
Proof. intros H. unfold moves. by rewrite H. Qed.
Lemma moves_bind strict s {E A B} (m : Api E A) (k : A → Api E B) : moves strict s m → (∀ a, keeps (k a)) → moves strict s (bind m k).
Proof. unfold moves, bind. intros Hm Hk. destruct (m s) as [[a| |] s']; simpl in *; [by rewrite Hk|done..]. Qed.
Lemma moves_executor strict s {E A} (c : string → E) (f : Exec → go A * Exec) :
  steps strict (sv_ex s) (f (sv_ex s)).2 → moves strict s (executor c f).
Proof. unfold moves, executor. by destruct (f (sv_ex s)) as [[]]. Qed.
Lemma moves_create strict s {E} (c : string → E) id input :
  (strict = true → ∀ id, status_of (sv_ex s) id = None → ¬ task_of (sv_ex s) id) → moves strict s (create c env id input).
Proof.
  intros H. unfold moves, create. destruct (RunStore_Create _ _ _ _ _ _) as [[rec st]|err|] eqn:Hc; [|done..].
  apply rtc_once. eapply step_create; [exact Hc|]. intros Hst. apply (H Hst).
  unfold RunStore_Create in Hc. go_inv. unfold status_of. apply eq_None_not_Some. by rewrite fmap_is_Some.
Qed.
Lemma moves_start strict s {E} (c : string → E) id :
  (strict = true → status_of (sv_ex s) id ≠ Some RUNNING) → moves strict s (start c env id).
Proof. intros H. apply moves_executor, rtc_once. by apply step_start. Qed.
Lemma moves_renew strict s {E} (c : string → E) id : moves strict s (renew c env id).
Proof. apply moves_executor, rtc_once, step_renew. Qed.
Lemma moves_stop strict s {E} (c : string → E) id : moves strict s (stop c env id).
Proof.
  unfold stop, moves, bind, read. apply moves_executor. unfold executor_stop. destruct (is_empty id) eqn:Hid; [done|].
  eapply rtc_l; [apply (step_stop_cancel _ _ _ _ id)|]. apply rtc_once, step_stop_status.
  unfold stop_cancel. rewrite Hid. cbn. set_solver.
Qed.
Lemma moves_with_run strict s {A} req (k : string → Api Code A) :
  (∀ id, req = Some id → moves strict s (k id)) → moves strict s (with_run req k).
Proof.
  intros H. destruct req as [id|]; [|by apply moves_keeps]. unfold with_run, require, refuse_if, moves, bind.
  destruct (negb _); [done|]. by apply H.
Qed.
Lemma keeps_with_run {A} req (k : string → Api Code A) : (∀ id, keeps (k id)) → keeps (with_run req k).
Proof. intros H. unfold with_run, require. keeps. Qed.
Lemma grpc_moves strict c s :
  (strict = true → polite (Grpc c) s) → steps strict (sv_ex s) (sv_ex (grpc c s)).
Proof.
  intros Hp. destruct c as [req|req|req|req|req|limit|req|req|req|req]; cbn [grpc].
  - destruct req as [[id [input|]]|]; [|done..]. apply (moves_bind strict s); [|by intros].
    apply moves_create. intros Hst. by apply Hp.
  - apply (moves_with_run strict s). intros id ->. apply moves_bind; [|by intros]. apply moves_start. intros Hst. by apply Hp.
  - apply (moves_with_run strict s). intros id ->. apply moves_bind; [|by intros]. apply moves_stop.
  - apply (moves_with_run strict s). intros id ->. apply moves_bind; [|by intros]. apply moves_renew.
  - apply (moves_keeps strict s), keeps_with_run. keeps.
  - done.
  - apply (moves_keeps strict s), keeps_with_run. keeps.
  - apply (moves_keeps strict s). unfold UpdateWorkloadRate, require. keeps.
  - apply (moves_keeps strict s). unfold UpdateRunConfiguration, require. keeps.
  - apply (moves_keeps strict s). unfold GetRunConfiguration, require. keeps.
Qed.
Context (stream_keeps : ∀ id, keeps (stream id)) (validate_keeps : ∀ r, keeps (validate r)).
Lemma keeps_run_reply id rec : keeps (run_reply id rec).
Proof. unfold run_reply. keeps. Qed.
Lemma keeps_reading {A} (m : SM Reading A) c : keeps (reading m c).
Proof. intros s. unfold reading. by destruct (m _) as [[]| |]. Qed.
Lemma keeps_optional_time what t : keeps (optional_time time_Parse what t).
Proof. unfold optional_time. keeps. Qed.
Lemma keeps_handlers id q :
  keeps (handleUpdateWorkload env (hr_Workload q) id) ∧ keeps (handleUpdateRunConfiguration env (hr_Configuration q) id)
  ∧ keeps (handleGetRunConfiguration env id) ∧ keeps (handleGetRunMetrics env qorder torder id)
  ∧ keeps (handleTimeSeries env time_Parse format collector orders shuffle (hr_Query q) id)
  ∧ keeps (handleExportRun env qorder torder format collector orders shuffle ParseFloat id)
  ∧ keeps (handleRunProgress ActiveProgress id) ∧ keeps (handleGetRun ParseFloat id).
Proof.
  split_and!.
  - apply keeps_decoded. unfold running_or, apply_workload. keeps.
  - apply keeps_decoded. unfold running_or, http_update_service, http_update_rate, http_update_policies. keeps.
  - unfold handleGetRunConfiguration, running_or. keeps.
  - unfold handleGetRunMetrics. keeps.
  - unfold handleTimeSeries, has_collector. keeps; auto using keeps_optional_time, keeps_reading.
  - unfold handleExportRun. keeps; auto using keeps_reading.
  - unfold handleRunProgress. keeps.
  - unfold handleGetRun. keeps.
Qed.
Lemma handle_route_moves strict r route id s :
  (strict = true → hr_Method r = POST → route = RRun → status_of (sv_ex s) id ≠ Some RUNNING) →
  moves strict s (handle_route r route id).
Proof.
  intros Hp. destruct (keeps_handlers id r) as (?&?&?&?&?&?&?&?).
  unfold HttpServer.handle_route. destruct route, (hr_Method r); try (apply moves_keeps; by try apply stream_keeps).
  - apply moves_bind; [apply moves_stop|]. intros. apply keeps_run_reply.
  - apply moves_bind; [apply moves_renew|by intros].
  - apply moves_bind; [apply moves_start; auto|]. intros. apply keeps_run_reply.
Qed.
Lemma serve_moves strict r s :
  (strict = true → polite (HttpRequest r) s) → moves strict s (serve r).
Proof.
  intros Hp. unfold polite, starts in Hp. unfold HttpServer.serve.
  destruct (findHandler (bool_decide (hr_Method r = CONNECT)) (hr_Path r)) as [|path| |p path] eqn:E;
    [by apply moves_keeps, keeps_refuse..|]. destruct p.
  - by apply moves_keeps.
  - unfold handleRuns. destruct (hr_Method r); try by apply moves_keeps.
    unfold handleCreateRun, decoded. destruct (hr_Body r) as [j| |]; [|by apply moves_keeps..].
    destruct (hr_Create r _) as [[id [input|]]| |]; [|by apply moves_keeps..]. apply moves_bind; [|by intros].
    apply moves_create. intros Hst. by apply Hp.
  - unfold handleRunByID. destruct (is_empty _); [by apply moves_keeps|]. destruct (parse_route _) as [route id] eqn:Er.
    apply handle_route_moves. intros Hst Hm ->. destruct (Hp Hst) as [H _]. apply H.
    rewrite Hm in E |- *. rewrite bool_decide_eq_false_2 in E by done. by rewrite E, Er.
  - by apply moves_keeps.
  - by apply moves_keeps.
Qed.
Lemma handled_moves strict q s : (strict = true → polite q s) → steps strict (sv_ex s) (sv_ex (handled q s)).
Proof. intros Hp. destruct q as [c|r]; [by apply grpc_moves|by apply (serve_moves strict r s)]. Qed.
End Servers.

(** What the servers read from outside while they handle one message. *)
Record World := mkWorld {
  w_env : Env;
  w_qorder : list string;
  w_torder : list string;
  w_time_Parse : string → string → option Time;
  w_format : Time → string;
  w_collector : positive → Collector;
  w_orders : nat → string → list string;
  w_shuffle : nat → ∀ A : Type, list A → list A;
  w_ParseFloat : string → go float64;
  w_ActiveProgress : list (string * json);
  w_runtime : list (string * json);
  w_limits : json;
  w_lifecycle : json;
  w_optimization : json;
  w_stream : string → Http;
  w_validate : Request → Http;
}.
Definition respond_to (w : World) : Message → Server → Server :=
  handled (w_env w) (w_qorder w) (w_torder w) (w_time_Parse w) (w_format w) (w_collector w) (w_orders w) (w_shuffle w)
    (w_ParseFloat w) (w_ActiveProgress w) (w_runtime w) (w_limits w) (w_lifecycle w) (w_optimization w) (w_stream w) (w_validate w).
Section History.
Context (unmarshal : string → go Scenario) (duration : Duration → string).
(** The libraries stay the same; streams and validation only read. *)
Record world_ok (w : World) : Prop := {
  wo_unmarshal : env_unmarshal (w_env w) = unmarshal;
  wo_duration : env_duration (w_env w) = duration;
  wo_stream : ∀ id, keeps (w_stream w id);
  wo_validate : ∀ r, keeps (w_validate w r);
}.
(** The states of a server: from the start, a client sends a message, or the executor goes on by itself, which may
    change what it keeps for live runs at will. With [strict] the clients are polite and no optimisation hits its deadline. *)
Inductive history (strict : bool) (e0 : Exec) : Server → Prop :=
  | history_new runs : history strict e0 (mkServer e0 runs)
  | history_message w q s :
      history strict e0 s → world_ok w → (strict = true → polite q s) → history strict e0 (respond_to w q s)
  | history_step s e runs : history strict e0 s → step unmarshal duration strict (sv_ex s) e → history strict e0 (mkServer e runs).
Lemma history_steps strict e0 s : history strict e0 s → steps unmarshal duration strict e0 (sv_ex s).
Proof.
  induction 1 as [runs|w q s _ IH [Hu Hd ??] Hp|s e runs _ IH He]; [done|..].
  - etrans; [exact IH|]. rewrite <- Hu, <- Hd. by apply handled_moves.
  - by eapply rtc_r.
Qed.
(** C25: whatever clients send over the two protocols, in any order and interleaved with the executor's own work, the executor
    goes only through steps of its own state machine; and if nobody starts a run that is running or reuses the ID of
    one that still winds down, a run that is marked running always has a goroutine that will finish it or is being stopped, and never two. *)
Theorem served_by_steps strict lc limits limitsErr safety runner s :
  (∀ text, ParseScenarioYAML unmarshal text ≠ Panic) →
  let e0 : Exec := NewRunExecutor (NewRunStore lc) limits limitsErr safety runner in
  history strict e0 s →
  steps unmarshal duration strict e0 (sv_ex s)
  ∧ (strict = true →
     (∀ id, status_of (sv_ex s) id = Some RUNNING → task_of (sv_ex s) id ∨ id ∈ ex_stopping (sv_ex s))
     ∧ (∀ c1 t1 c2 t2, ex_tasks (sv_ex s) !! c1 = Some t1 → ex_tasks (sv_ex s) !! c2 = Some t2 → tk_run t1 = tk_run t2 → c1 = c2)).
Proof.
  intros Hyaml e0 H%history_steps. split; [done|]. intros ->.
  pose proof (steps_ok _ _ Hyaml _ _ H ltac:(apply control_init)) as Hok. split.
  - by apply running_attended.
  - destruct Hok as [H1 _ _ _ _ _ _ _ _]. intros c1 t1 c2 t2 E1%H1 E2%H1 E. rewrite E in E1. congruence.
Qed.
End History.

(** * Concrete exchanges *)

Definition env0 : Env := mkEnv "g" 5 0 (λ _, 0) sample_yaml no_string (λ _, []) (λ _, ([], [])) (λ _ _ l, l) [].
Definition reads_only {A} (_ : A) : Http := respond [].
Definition world0 : World :=
  mkWorld env0 [] [] (λ _ _, None) (λ _, "") (λ _, NewCollector 0 None None None) (λ _ _, []) (λ _ _ l, l) (λ _, Ok f0) [] [] JNull JNull JNull
    reads_only reads_only.
Lemma world0_ok : world_ok sample_yaml no_string world0.
Proof. by split. Qed.
Definition executor1 : Exec :=
  NewRunExecutor (NewRunStore defaultRunStoreLifecycleConfig) defaultSimulationLimits None defaultOptimizationSafetyLimits true.
Definition server0 : Server := mkServer executor1 ∅.
Definition post (path : string) : Request :=
  mkRequest POST path (λ _, "") (Ok JNull) (λ _, Ok ("a", Some callback_run)) (Fail "") (Fail "").
Lemma route_roundtrip_witness :
  ∃ rec st, RunStore_Create sample_yaml "g" 5 "a" (Some callback_run) (ex_store executor1) = Ok (rec, st)
  ∧ handled env0 [] [] (λ _ _, None) (λ _, "") (λ _, NewCollector 0 None None None) (λ _ _, []) (λ _ _ l, l) (λ _, Ok f0) [] [] JNull JNull JNull
      reads_only reads_only (HttpRequest (post "/v1/runs/a:stop")) server0
    = (handleStopRun env0 "a" server0).2.
Proof.
  destruct (RunStore_Create sample_yaml "g" 5 "a" (Some callback_run) (ex_store executor1)) as [[rec st]|e|] eqn:E;
    [|vm_compute in E; discriminate E..].
  exists rec, st. split; [done|].
  assert (Hid : run_Id (rr_Run rec) = "a") by (vm_compute in E; by injection E as <- _).
  pose proof (route_roundtrip env0 [] [] (λ _ _, None) (λ _, "") (λ _, NewCollector 0 None None None) (λ _ _, []) (λ _ _ l, l) (λ _, Ok f0) [] [] JNull
    JNull JNull reads_only reads_only "g" 5 "a" (Some callback_run) (ex_store executor1) rec st ":stop" RStop (post "/v1/runs/a:stop")
    E eq_refl ltac:(vm_compute; set_solver)) as [H _].
  cbn [handled]. rewrite Hid in H. rewrite H; [reflexivity|reflexivity|by right].
Defined.
(** A run may be called by one dot or two; its own path then never reaches it. *)
Lemma dot_run_unreachable :
  (∃ rec st, RunStore_Create sample_yaml "g" 5 ".." (Some callback_run) (ex_store executor1) = Ok (rec, st) ∧ run_Id (rr_Run rec) = "..")
  ∧ findHandler false "/v1/runs/../metrics" = Redirected "/v1/metrics"
  ∧ findHandler false "/v1/runs/.." = Redirected "/v1"
  ∧ findHandler false "/v1/runs/." = Redirected "/v1/runs"
  ∧ findHandler false "/v1/runs/%2E%2E" = Matched PRunByID "/v1/runs/..".
Proof. split; [do 2 eexists; vm_compute; done|]. split_and!; vm_compute; reflexivity. Qed.
Lemma http_grpc_agree_witness :
  agree same_error (shows StatusCreated) (CreateRun env0 (Some ("a", Some callback_run)) server0)
    (handleCreateRun env0 (λ _, Ok ("a", Some callback_run)) (Ok JNull) server0)
  ∧ ∃ r s, CreateRun env0 (Some ("a", Some callback_run)) server0 = (Reply r, s).
Proof.
  split.
  - exact (proj1 (http_grpc_agree env0 (λ _, Ok f0) (λ _, Ok ("a", Some callback_run)) JNull "a" (Some callback_run) "p" (f64_lit 5 1) None
      [mkServiceUpdate "svc" 2 f0 f0] server0 eq_refl eq_refl eq_refl ltac:(vm_compute; reflexivity) ltac:(discriminate))).
  - eexists _, _. vm_compute. reflexivity.
Defined.
Definition exchanged : Server :=
  respond_to world0 (Grpc (CStart (Some "a"))) (respond_to world0 (HttpRequest (post "/v1/runs")) server0).
Lemma exchanged_history : history sample_yaml no_string true executor1 exchanged.
Proof.
  apply history_message; [apply history_message; [apply history_new|apply world0_ok|]|apply world0_ok|]; intros _; split.
  - intros id [=].
  - intros id _ (ctx & t & Ht & _). vm_compute in Ht. discriminate Ht.
  - intros id [= <-]. vm_compute. discriminate.
  - intros id _ (ctx & t & Ht & _). vm_compute in Ht. discriminate Ht.
Qed.
Lemma served_by_steps_witness :
  status_of (sv_ex exchanged) "a" = Some RUNNING ∧ (task_of (sv_ex exchanged) "a" ∨ "a" ∈ ex_stopping (sv_ex exchanged)).
Proof.
  assert (H : status_of (sv_ex exchanged) "a" = Some RUNNING) by (vm_compute; reflexivity). split; [done|].
  pose proof (served_by_steps sample_yaml no_string true defaultRunStoreLifecycleConfig defaultSimulationLimits None
    defaultOptimizationSafetyLimits true exchanged sample_yaml_ok exchanged_history) as [_ Hs].
  exact (proj1 (Hs eq_refl) "a" H).
Defined.

(** An unknown run is reported as missing by every call but [Stop], which reports an internal error. *)
Lemma stop_unknown_is_internal :
  (StopRun env0 (Some "b") server0).1 = Refuse Internal "run not found: b"
  ∧ (handleStopRun env0 "b" server0).1 = Refuse StatusInternalServerError "run not found: b"
  ∧ (StartRun env0 (Some "b") server0).1 = Refuse NotFound "run not found: b".
Proof. vm_compute. done. Qed.
(** A change of several services is not atomic: a bad entry refuses the request after the entries before it have been applied. *)
Lemma configuration_not_atomic env id u bad s s' rec :
  is_empty id = false → RunStore_Get id (sv_store s) = Some rec → rr_Status rec = RUNNING →
  update_service env id 0 u s = (Reply tt, s') → su_ServiceId bad = "" →
  UpdateRunConfiguration env (Some (id, [u; bad])) s = (Refuse InvalidArgument "service_id is required", s').
Proof.
  intros Hid Hrec Hrun Hu Hbad. unfold UpdateRunConfiguration, require, refuse_if. rewrite Hid.
  erewrite (bind_reply _ _ s) by reflexivity. erewrite (bind_reply _ _ s) by reflexivity. unfold found.
  erewrite (bind_reply (read _)) by reflexivity. rewrite Hrec.
  assert (Hr : is_running rec = true) by (by apply bool_decide_eq_true). rewrite Hr.
  erewrite (bind_reply _ _ s) by reflexivity. unfold bind at 1. cbn [for_each]. erewrite (bind_reply _ _ s) by exact Hu.
  unfold update_service, bind, require, refuse_if. by rewrite Hbad.
Qed.
