(* ===== verification/ServerStream.v ===== *)
(** The two event streams: [StreamRunEvents] of the gRPC server ([grpc_server.go]) and [handleMetricsStream] of the
    HTTP server ([http_server.go]), and [optimization_helpers.go]. A stream polls the store: what it sends is a function of the
    states it finds at its ticks. *)
From S2P Require Import Prelude GoFloat Utils Policy Config Graph BatchSpec BrokerQueue ResourceManager Collector RunMetrics RunStore Limits RunControl SimState Workload EngineMetrics RunConfig OnlineController Orchestrator Server HttpJson HttpServer.
From Stdlib Require Import SpecFloat.
#[local] Open Scope string_scope.
#[local] Open Scope list_scope.
#[local] Open Scope Z_scope.
#[local] Open Scope cm_scope.

(** * Polling *)

(** How a stream ends: by itself, with an error, when an event cannot be sent, or when the client goes. *)
Inductive Ending := Finished | Refused (code : Code) (msg : string) | SendFailed (err : string) | Disconnected | Panicked.
Section Poll.
Context {W M Ev : Type} (tick : W → M → list Ev * (W + Ending)) (fails : nat → option string).
(** [fails n] is the error with which the [n]-th event fails, if it does; the stream returns there. *)
Fixpoint send_all (n : nat) (evs : list Ev) : list Ev * option string :=
  match evs with
  | [] => ([], None)
  | e :: evs =>
      match fails n with
      | Some err => ([], Some err)
      | None => let '(sent, err) := send_all (S n) evs in (e :: sent, err)
      end
  end.
(** The loop over the ticker, until the context is done: [n] events have been sent before. *)
Fixpoint poll (n : nat) (w : W) (moments : list M) : list Ev * Ending :=
  match moments with
  | [] => ([], Disconnected)
  | m :: moments =>
      let '(evs, next) := tick w m in
      match send_all n evs with
      | (sent, Some err) => (sent, SendFailed err)
      | (sent, None) =>
          match next with
          | inr e => (sent, e)
          | inl w => let '(later, e) := poll (n + length evs) w moments in (sent ++ later, e)
          end
      end
  end.
End Poll.

(** [time.NewTicker] panics on an interval that is not positive; a client's milliseconds are
    multiplied in 64 bits. *)
Definition client_interval (ms standard : Z) : Duration := if 0 <? ms then wrap64 (ms * Millisecond) else standard.
Definition ticking {A} (interval : Duration) (panicked running : A) : A := if interval <=? 0 then panicked else running.

(** * Progress of optimisations *)

Definition ObjectiveAndUnitForProgress (opt : option OptimizationConfig) : string * string :=
  match opt with
  | None => ("p95_latency", "ms")
  | Some opt =>
      if oc_Online opt then
        let objective := TrimSpace (ToLower (oc_OptimizationTargetPrimary opt)) in
        let objective := if is_empty objective then "p95_latency" else objective in
        (objective, if String.eqb objective "cpu_utilization" || String.eqb objective "memory_utilization" then "ratio" else "ms")
      else
        let raw := TrimSpace (ToLower (oc_Objective opt)) in
        let raw := if is_empty raw then "p95_latency_ms" else raw in
        if String.eqb raw "p95_latency_ms" then ("p95_latency", "ms")
        else if String.eqb raw "p99_latency_ms" then ("p99_latency", "ms")
        else if String.eqb raw "mean_latency_ms" then ("mean_latency", "ms")
        else if String.eqb raw "cpu_utilization" || String.eqb raw "memory_utilization" then (raw, "ratio")
        else if String.eqb raw "error_rate" then (raw, "ratio")
        else if String.eqb raw "throughput_rps" then (raw, "rps")
        else (raw, "ms")
  end.
(** What both streams remember of what they have sent. *)
Record Watch := mkWatch {
  wt_previousStatus : Status;
  wt_lastOptIteration : Z;
  wt_lastOptBestScore : float64;
  wt_lastOptStepCount : nat;
}.
#[export] Instance eta_Watch : Eta Watch := λ w, mkWatch (wt_previousStatus w) (wt_lastOptIteration w) (wt_lastOptBestScore w)
  (wt_lastOptStepCount w).
Definition watch (status : Status) : Watch := mkWatch status (-1) (f64_of_Z (-1)) 0.
Definition progress_changed (r : RunMsg) (w : Watch) : bool :=
  negb (run_Iterations r =? wt_lastOptIteration w) || negb (feqb (run_BestScore r) (wt_lastOptBestScore w)).
Section Optimization.
Context {Ev : Type} (progress : RunMsg → string → string → Ev) (step : ControllerStep → Ev).
(** The progress when it has changed, and the steps that have not been sent. *)
Definition optimization_events (rec : Record_) (w : Watch) : list Ev * Watch :=
  match get_optimization (rr_Input rec) with
  | None => ([], w)
  | Some opt =>
      let r := rr_Run rec in
      let '(evs, w) :=
        if progress_changed r w
        then let '(objective, unit) := ObjectiveAndUnitForProgress (Some opt) in
             ([progress r objective unit], w <| wt_lastOptIteration := run_Iterations r |> <| wt_lastOptBestScore := run_BestScore r |>)
        else ([], w) in
      let history := rr_OptimizationHistory rec in
      if (wt_lastOptStepCount w <? length history)%nat
      then (evs ++ (step <$> drop (wt_lastOptStepCount w) history), w <| wt_lastOptStepCount := length history |>)
      else (evs, w)
  end.
End Optimization.

(** * gRPC *)

(** [RunEvent] without the run's ID, which is that of the request, and without the time at which it is sent. *)
Inductive RunEvent :=
  | StatusChanged (previous current : Status)
  | OptimizationProgress (iteration : Z) (bestScore : float64) (bestRunId objective unit : string)
  | OptimizationStep (step : ControllerStep)
  | MetricsSnapshot (metrics : RunMetrics).
Definition grpc_progress (r : RunMsg) (objective unit : string) : RunEvent :=
  OptimizationProgress (run_Iterations r) (run_BestScore r) (run_BestRunId r) objective unit.
Definition grpc_tick (runID : string) (w : Watch) (s : Server) : list RunEvent * (Watch + Ending) :=
  match RunStore_Get runID (sv_store s) with
  | None => ([], inr (Refused NotFound "run not found"))
  | Some rec =>
      let status := rr_Status rec in
      let changed := if bool_decide (status = wt_previousStatus w) then [] else [StatusChanged (wt_previousStatus w) status] in
      let w := w <| wt_previousStatus := status |> in
      let '(evs, w) := optimization_events grpc_progress OptimizationStep rec w in
      let snapshot := match rr_Metrics rec with Some m => [MetricsSnapshot m] | None => [] end in
      (changed ++ evs ++ snapshot, if isTerminalStatus status then inr Finished else inl w)
  end.
(** The request: the run and the interval in milliseconds. *)
Definition StreamRunEvents (fails : nat → option string) (req : option (string * Z)) (s : Server) (moments : list Server)
    : list RunEvent * Ending :=
  match req with
  | None => ([], Refused InvalidArgument "run_id is required")
  | Some (runID, metricsIntervalMs) =>
      if is_empty runID then ([], Refused InvalidArgument "run_id is required")
      else
        match RunStore_Get runID (sv_store s) with
        | None => ([], Refused NotFound "run not found")
        | Some rec =>
            match fails 0%nat with
            | Some err => ([], SendFailed err)
            | None =>
                let first := StatusChanged UNSPECIFIED (rr_Status rec) in
                let interval := client_interval metricsIntervalMs (500 * Millisecond) in
                ticking interval ([first], Panicked)
                  (let '(sent, e) := poll (grpc_tick runID) fails 1 (watch (rr_Status rec)) moments in (first :: sent, e))
            end
        end
  end.

(** * HTTP *)

(** An event: its type and its data. *)
Definition SseEvent : Type := string * json.
Definition sse (type : string) (data : list (string * json)) : SseEvent := (type, JObj data).
(** What the stream reads at one tick; [mo_again] when it reads the record of a finished run again. *)
Record Moment := mkMoment {
  mo_server : Server;
  mo_again : Server;
  mo_env : Env;
  mo_collector : positive → Collector;
  mo_orders : nat → string → list string;
  mo_shuffle : nat → ∀ A : Type, list A → list A;
  mo_qorder : list string;
  mo_torder : list string;
}.
Definition mo_runs (m : Moment) : LiveRuns := sv_runs (mo_server m).
(** [serviceLabelsFromInput]. *)
Definition serviceLabelsFromInput (env : Env) (input : option RunInput) : list Labels :=
  match input_scenario env input with Some scenario => CreateServiceLabels ∘ svc_ID <$> scn_Services scenario | None => [] end.
#[local] Instance eta_ServiceMetrics : Eta ServiceMetrics := λ m, mkServiceMetrics (sm_ServiceName m) (sm_RequestCount m)
  (sm_ErrorCount m) (sm_LatencyP50Ms m) (sm_LatencyP95Ms m) (sm_LatencyP99Ms m) (sm_LatencyMeanMs m) (sm_CpuUtilization m)
  (sm_MemoryUtilization m) (sm_ActiveReplicas m) (sm_ConcurrentRequests m) (sm_QueueLength m) (sm_QueueWaitP50Ms m)
  (sm_QueueWaitP95Ms m) (sm_QueueWaitP99Ms m) (sm_QueueWaitMeanMs m) (sm_ProcessingLatencyP50Ms m) (sm_ProcessingLatencyP95Ms m)
  (sm_ProcessingLatencyP99Ms m) (sm_ProcessingLatencyMeanMs m).
Definition show_replicas (cfg : RunConfiguration) (m : ServiceMetrics) : ServiceMetrics :=
  match list_find (λ e, sce_ServiceId e = sm_ServiceName m) (rc_Services cfg) with
  | Some (_, e) => m <| sm_ActiveReplicas := if sce_Replicas e <? 0 then 0 else sce_Replicas e |>
  | None => m
  end.
(** The metrics to send: those of the record, or for a real-time run those its collector has. *)
Definition snapshot_metrics (m : Moment) (runID : string) (rec : Record_) (live : bool) : CM (option RunMetrics) :=
  match rr_Metrics rec with
  | Some metrics => cret (Some metrics)
  | None =>
      if live then
        em <~ ConvertToRunMetrics (mo_orders m) (mo_shuffle m) (env_wall (mo_env m)) (serviceLabelsFromInput (mo_env m) (rr_Input rec))
                (RunExecutor_runMetricsOptsForRun (mo_qorder m) (mo_torder m) (env_wall (mo_env m)) runID (mo_runs m)) ;~
        cret (Some (convertMetricsToProto (mo_shuffle m 0) em))
      else cret None
  end.
Definition resources_json (m : Moment) (runID : string) (rec : Record_) (cfg : RunConfiguration) : json :=
  let scen := scenario_of (mo_env m) runID rec (mo_server m) in
  JObj ([("services", JList (service_json scen <$> rc_Services cfg)); ("hosts", JList (host_json <$> rc_Hosts cfg));
         ("placements", instancePlacementsToJSON (rc_Placements cfg))]
    ++ match brokerShardResourcesJSON (mo_env m) (mo_qorder m) (mo_torder m) runID (mo_server m) with
       | Some (queues, topics) => [("queues", queues); ("topics", topics)]
       | None => []
       end).
(** [live]: [streamLive && hasCollector && collector != nil]. *)
Definition sseWriteMetricsSnapshot (m : Moment) (runID : string) (rec : Record_) (live : bool) : CM (list SseEvent) :=
  metrics <~ snapshot_metrics m runID rec live ;~
  match metrics with
  | None => cret []
  | Some metrics =>
      let cfg := run_configuration (mo_env m) runID (mo_server m) in
      let metrics := match cfg with
        | Some cfg => metrics <| met_ServiceMetrics := show_replicas cfg <$> met_ServiceMetrics metrics |>
        | None => metrics
        end in
      hosts <~ (if live then hostMetricsFromCollector (mo_orders m) (RunExecutor_hostIDsForRun runID (mo_runs m)) else cret []) ;~
      cret [sse "metrics_snapshot" ([("metrics", convertMetricsToJSON metrics)]
        ++ match cfg with Some cfg => [("resources", resources_json m runID rec cfg)] | None => [] end
        ++ when (0 <? len hosts) [("host_metrics", JList hosts)])]
  end.
(** The latest point of each series that has not been sent: [sent] holds the time of the last one, by metric and labels. *)
Definition series_update (format : Time → string) (m : Moment) (name : string) (acc : list SseEvent * gmap (string * string) Time)
    (labels : Labels) : CM (list SseEvent * gmap (string * string) Time) :=
  points <~ GetTimeSeries (mo_orders m) name labels ;~
  let '(evs, sent) := acc in
  match last points with
  | None => cret acc
  | Some latest =>
      let key := (name, createLabelKey labels) in
      if bool_decide (sent !! key = Some (mp_Timestamp latest)) then cret acc
      else
        λ r,
        let value := metricUpdateValue name labels latest (rd_col r) in
        Ok ((evs ++ [("metric_update", point_json format true (mkMetricPoint (mp_Timestamp latest) (mp_Name latest) value (mp_Labels latest)))],
             <[key := mp_Timestamp latest]> sent), r)
  end.
Definition metric_updates (format : Time → string) (m : Moment) (sent : gmap (string * string) Time)
    : CM (list SseEvent * gmap (string * string) Time) :=
  names <~ GetMetricNames (mo_shuffle m) ;~
  cfold (λ acc name,
    combos <~ GetLabelsForMetric (mo_orders m) name ;~
    cfold (series_update format m name) acc (match combos with [] => [∅] | _ => combos end)) ([], sent) names.
Record SseWatch := mkSseWatch { sw_watch : Watch; sw_collector : option positive; sw_sent : gmap (string * string) Time }.
Definition sse_progress (r : RunMsg) (objective unit : string) : SseEvent :=
  sse "optimization_progress" [("iteration", JInt (run_Iterations r)); ("best_score", JFloat (run_BestScore r));
    ("best_run_id", JStr (run_BestRunId r)); ("objective", JStr objective); ("unit", JStr unit)].
Definition sse_step (ParseFloat : string → go float64) (step : ControllerStep) : SseEvent :=
  sse "optimization_step" (convertOptimizationStepToJSON ParseFloat step).
Definition status_change (status : Status) : SseEvent := sse "status_change" [("status", JStr (status_String status))].
(** The collector that the stream reads; without one nothing reads it. *)
Definition collector_of (m : Moment) (c : option positive) : Collector :=
  match c with Some p => mo_collector m p | None => NewCollector 0 None None None end.
Definition sse_tick (ParseFloat : string → go float64) (format : Time → string) (runID : string) (w : SseWatch) (m : Moment)
    : list SseEvent * (SseWatch + Ending) :=
  match RunStore_Get runID (sv_store (mo_server m)) with
  | None => ([sse "error" [("error", JStr "run not found")]], inr Finished)
  | Some rec =>
      let collector := match sw_collector w with Some c => Some c | None => RunStore_GetCollector runID (sv_store (mo_server m)) end in
      let streamLive := match rr_Input rec with Some i => ri_RealTimeMode i | None => false end in
      let live := streamLive && bool_decide (is_Some collector) in
      let status := rr_Status rec in
      let reading := mkReading (collector_of m collector) 0 in
      let changed := negb (bool_decide (status = wt_previousStatus (sw_watch w))) in
      if changed && isTerminalStatus status then
        let rec := default rec (RunStore_Get runID (sv_store (mo_again m))) in
        match sseWriteMetricsSnapshot m runID rec live reading with
        | Ok (snapshot, _) => (status_change status :: snapshot ++ [sse "complete" [("status", JStr (status_String (rr_Status rec)))]],
                               inr Finished)
        | _ => ([status_change status], inr Panicked)
        end
      else
        let before := if changed then [status_change status] else [] in
        let '(evs, w') := optimization_events sse_progress (sse_step ParseFloat) rec ((sw_watch w) <| wt_previousStatus := status |>) in
        match (snapshot <~ sseWriteMetricsSnapshot m runID rec live ;~
               updates <~ (if live then metric_updates format m (sw_sent w) else cret ([], sw_sent w)) ;~
               cret (snapshot ++ updates.1, updates.2)) reading with
        | Ok ((evs', sent), _) => (before ++ evs ++ evs', inl (mkSseWatch w' collector sent))
        | _ => (before ++ evs, inr Panicked)
        end
  end.
(** A missing run is an error response; otherwise the events follow the headers. *)
Definition handleMetricsStream (ParseFloat : string → go float64) (format : Time → string) (fails : nat → option string)
    (query : string → string) (runID : string) (s : Server) (moments : list Moment) : Z * string + list SseEvent * Ending :=
  match RunStore_Get runID (sv_store s) with
  | None => inl (StatusNotFound, "run not found")
  | Some rec =>
      match fails 0%nat with
      | Some err => inr ([], SendFailed err)
      | None =>
          let interval := client_interval (default 0 (ParseInt 64 (query "interval_ms"))) Second in
          let w := mkSseWatch (watch (rr_Status rec)) (RunStore_GetCollector runID (sv_store s)) ∅ in
          ticking interval (inr ([status_change (rr_Status rec)], Panicked))
            (let '(sent, e) := poll (sse_tick ParseFloat format runID) fails 1 w moments in
             inr (status_change (rr_Status rec) :: sent, e))
      end
  end.
