(* ===== verification/ServerStreamSpec.v ===== *)
(** What the event streams report. *)
From S2P Require Import Prelude GoFloat Utils Policy Config Graph BatchSpec BrokerQueue ResourceManager Collector RunMetrics RunStore Limits RunControl SimState Workload EngineMetrics EngineMetricsSpec RunConfig OnlineController Orchestrator Server HttpJson HttpServer ServerStream.
From Stdlib Require Import SpecFloat.
#[local] Open Scope string_scope.
#[local] Open Scope list_scope.
#[local] Open Scope Z_scope.
#[local] Open Scope cm_scope.

(** * Polling without failures *)

Definition never (_ : nat) : option string := None.
Lemma send_all_never {Ev} n (evs : list Ev) : send_all never n evs = (evs, None).
Proof. revert n. induction evs as [|e evs IH]; intros n; [done|]. simpl. by rewrite IH. Qed.
Lemma poll_next {W M Ev} (tick : W → M → list Ev * (W + Ending)) n w m moments evs w' :
  tick w m = (evs, inl w') →
  poll tick never n w (m :: moments)
  = (evs ++ (poll tick never (n + length evs) w' moments).1, (poll tick never (n + length evs) w' moments).2).
Proof. intros E. cbn [poll]. rewrite E, send_all_never. by destruct (poll _ _ _ _ _). Qed.
Lemma poll_end {W M Ev} (tick : W → M → list Ev * (W + Ending)) n w m moments evs e :
  tick w m = (evs, inr e) → poll tick never n w (m :: moments) = (evs, e).
Proof. intros E. cbn [poll]. by rewrite E, send_all_never. Qed.

(** * What a stream sees *)

(** The steps there are to report: those of an optimisation. *)
Definition history (rec : Record_) : list ControllerStep :=
  match get_optimization (rr_Input rec) with Some _ => rr_OptimizationHistory rec | None => [] end.
(** A run whose history only grows, from [h] on. *)
Fixpoint grows (h : list ControllerStep) (recs : list Record_) : Prop :=
  match recs with
  | [] => True
  | rec :: recs => h `prefix_of` history rec ∧ grows (history rec) recs
  end.
(** It runs at all ticks but the last. *)
Definition runs_until (before : list Record_) (final : Record_) : Prop :=
  Forall (λ rec, isTerminalStatus (rr_Status rec) = false) before ∧ isTerminalStatus (rr_Status final) = true.
Definition sees (id : string) (s : Server) (rec : Record_) : Prop := RunStore_Get id (sv_store s) = Some rec.

Lemma optimization_events_spec {Ev} (progress : RunMsg → string → string → Ev) step rec w h evs w' :
  h `prefix_of` history rec → wt_lastOptStepCount w = length h →
  optimization_events progress step rec w = (evs, w') →
  (∃ pre, evs = pre ++ (step <$> drop (length h) (history rec)) ∧ ∀ e, e ∈ pre → ∃ r o u, e = progress r o u)
  ∧ wt_lastOptStepCount w' = length (history rec) ∧ wt_previousStatus w' = wt_previousStatus w.
Proof.
  unfold history, optimization_events. intros Hpre Hn H. apply prefix_length in Hpre.
  destruct (get_optimization (rr_Input rec)) as [opt|].
  2: { destruct h as [|x h]; [|simpl in Hpre; lia]. injection H as <- <-. split; [|done]. exists []. split; [done|]. by intros e ?%not_elem_of_nil. }
  destruct (ObjectiveAndUnitForProgress (Some opt)) as [o u].
  enough (Hrest : ∀ pre w1, wt_lastOptStepCount w1 = length h → wt_previousStatus w1 = wt_previousStatus w →
    (∀ e, e ∈ pre → ∃ r o u, e = progress r o u) →
    (if (wt_lastOptStepCount w1 <? length (rr_OptimizationHistory rec))%nat
     then (pre ++ (step <$> drop (wt_lastOptStepCount w1) (rr_OptimizationHistory rec)), w1 <| wt_lastOptStepCount := length (rr_OptimizationHistory rec) |>)
     else (pre, w1)) = (evs, w') →
    (∃ pre, evs = pre ++ (step <$> drop (length h) (rr_OptimizationHistory rec)) ∧ ∀ e, e ∈ pre → ∃ r o u, e = progress r o u)
    ∧ wt_lastOptStepCount w' = length (rr_OptimizationHistory rec) ∧ wt_previousStatus w' = wt_previousStatus w).
  { destruct (progress_changed (rr_Run rec) w); (eapply Hrest; [| | |exact H]); [done..| |done|done|by intros e ?%not_elem_of_nil].
    intros e ->%list_elem_of_singleton. eauto. }
  clear H. intros pre w1 H1 H2 Hpr H. rewrite H1 in H.
  destruct (Nat.ltb_spec (length h) (length (rr_OptimizationHistory rec))) as [Hl|Hl]; injection H as <- <-.
  - split; [by exists pre|done].
  - split; [|split; [lia|done]]. exists pre. rewrite drop_ge by lia. by rewrite app_nil_r.
Qed.

(** * gRPC *)

Definition steps_of (evs : list RunEvent) : list ControllerStep :=
  omap (λ e, match e with OptimizationStep st => Some st | _ => None end) evs.
(** The status at the end of the changes that [evs] reports, if each of them leaves the one before. *)
Fixpoint status_path (status : Status) (evs : list RunEvent) : option Status :=
  match evs with
  | [] => Some status
  | StatusChanged previous current :: evs => if bool_decide (previous = status) then status_path current evs else None
  | _ :: evs => status_path status evs
  end.
Lemma steps_of_app l k : steps_of (l ++ k) = steps_of l ++ steps_of k.
Proof. apply omap_app. Qed.
Lemma steps_of_steps l : steps_of (OptimizationStep <$> l) = l.
Proof. induction l as [|x l IH]; [done|]. csimpl. by f_equal. Qed.
Lemma status_path_app st l k : status_path st (l ++ k) = status_path st l ≫= λ st, status_path st k.
Proof. revert st. induction l as [|[]]; intros st; simpl; try done. by case_bool_decide. Qed.
Definition no_status (e : RunEvent) : Prop := match e with StatusChanged _ _ => False | _ => True end.
Lemma status_path_quiet st l : Forall no_status l → status_path st l = Some st.
Proof. induction 1 as [|[] l H _ IH]; simpl; try done. Qed.
Lemma steps_of_progress pre : (∀ e, e ∈ pre → ∃ r o u, e = grpc_progress r o u) → steps_of pre = [] ∧ Forall no_status pre.
Proof.
  induction pre as [|e pre IH]; intros H; [done|].
  destruct (H e ltac:(by left)) as (r & o & u & ->). destruct IH as [IH1 IH2]; [intros; apply H; by right|]. by split; [|constructor].
Qed.
Lemma grpc_tick_spec id w s rec h :
  sees id s rec → h `prefix_of` history rec → wt_lastOptStepCount w = length h →
  ∃ evs w', grpc_tick id w s = (evs, if isTerminalStatus (rr_Status rec) then inr Finished else inl w')
  ∧ h ++ steps_of evs = history rec ∧ status_path (wt_previousStatus w) evs = Some (rr_Status rec)
  ∧ (∀ m, rr_Metrics rec = Some m → last evs = Some (MetricsSnapshot m))
  ∧ wt_lastOptStepCount w' = length (history rec) ∧ wt_previousStatus w' = rr_Status rec.
Proof.
  intros Hs Hpre Hn. unfold grpc_tick. rewrite Hs.
  set (changed := if bool_decide _ then _ else _). set (snapshot := match rr_Metrics rec with Some _ => _ | None => _ end).
  destruct (optimization_events _ _ rec (w <| wt_previousStatus := rr_Status rec |>)) as [evs w'] eqn:E.
  apply (optimization_events_spec _ _ _ _ h) in E as ((pre & -> & Hpr) & Hc & Hst); [|done..].
  apply steps_of_progress in Hpr as [Hp1 Hp2].
  assert (Hq : Forall no_status snapshot) by (unfold snapshot; case_match; by repeat constructor).
  assert (Hsn : steps_of snapshot = []) by (unfold snapshot; by case_match).
  assert (Hch : steps_of changed = []) by (unfold changed; by case_bool_decide).
  exists (changed ++ (pre ++ (OptimizationStep <$> drop (length h) (history rec))) ++ snapshot), w'.
  split_and!; [done| | | |done|done].
  - rewrite !steps_of_app, Hp1, Hsn, Hch, steps_of_steps, app_nil_r. simpl. destruct Hpre as [k Hk]. by rewrite Hk, drop_app_length.
  - rewrite status_path_app. unfold changed. case_bool_decide as Hb; simpl.
    + rewrite <- Hb. apply status_path_quiet. rewrite !Forall_app. split_and!; [done| |done]. apply Forall_fmap, Forall_true. done.
    + rewrite bool_decide_true by done. simpl. apply status_path_quiet. rewrite !Forall_app.
      split_and!; [done| |done]. apply Forall_fmap, Forall_true. done.
  - intros m Hm. unfold snapshot. rewrite Hm. by rewrite app_assoc, last_snoc.
Qed.
Lemma grpc_poll_spec id before final : runs_until before final →
  ∀ moments h n w, Forall2 (sees id) moments (before ++ [final]) → grows h (before ++ [final]) → wt_lastOptStepCount w = length h →
  ∃ evs, poll (grpc_tick id) never n w moments = (evs, Finished)
  ∧ h ++ steps_of evs = history final ∧ status_path (wt_previousStatus w) evs = Some (rr_Status final)
  ∧ (∀ m, rr_Metrics final = Some m → last evs = Some (MetricsSnapshot m)).
Proof.
  intros [Hb Hf]. induction Hb as [|rec before Hrec _ IH]; intros moments h n w Hs Hg Hn; simpl in Hs, Hg.
  - apply Forall2_cons_inv_r in Hs as (s & ? & Hs & ->%Forall2_nil_inv_r & ->). destruct Hg as (Hpre & _).
    destruct (grpc_tick_spec id w s final h Hs Hpre Hn) as (evs & w' & E & H1 & H2 & H3 & _). rewrite Hf in E.
    exists evs. split; [by apply poll_end|done].
  - apply Forall2_cons_inv_r in Hs as (s & moments' & Hs & Hss & ->). destruct Hg as (Hpre & Hg).
    destruct (grpc_tick_spec id w s rec h Hs Hpre Hn) as (evs & w' & E & H1 & H2 & _ & H4 & H5). rewrite Hrec in E.
    destruct (IH moments' (history rec) (n + length evs)%nat w' Hss Hg H4) as (evs' & E' & I1 & I2 & I3).
    exists (evs ++ evs'). rewrite (poll_next _ _ _ _ _ _ _ E), E'. split_and!; [done|..].
    + rewrite steps_of_app, app_assoc. by rewrite H1.
    + rewrite status_path_app, H2. simpl. by rewrite <- H5.
    + intros m Hm. rewrite last_app, (I3 m Hm). done.
Qed.

(** * HTTP *)

(** Readings that always give something that satisfies [P]. *)
Definition gives {A} (m : CM A) (P : A → Prop) : Prop := ∀ r, ∃ a r', m r = Ok (a, r') ∧ P a.
Lemma gives_ret {A} (a : A) (P : A → Prop) : P a → gives (cret a) P.
Proof. intros Ha r. by exists a, r. Qed.
Lemma gives_bind {A B} (m : CM A) (k : A → CM B) P Q : gives m P → (∀ a, P a → gives (k a) Q) → gives (cbind m k) Q.
Proof.
  intros Hm Hk r. destruct (Hm r) as (a & r1 & E1 & Pa). destruct (Hk a Pa r1) as (b & r2 & E2 & Qb).
  exists b, r2. unfold cbind. by rewrite E1.
Qed.
Lemma gives_cfold {A T} (f : T → A → CM T) (I : T → Prop) t l : I t → (∀ t x, I t → gives (f t x) I) → gives (cfold f t l) I.
Proof.
  intros Ht Hf. revert t Ht. induction l as [|x l IH]; intros t Ht; [by apply gives_ret|]. eapply gives_bind; [by apply Hf|]. auto.
Qed.
Definition total {A} (m : CM A) : Prop := gives m (λ _, True).
Lemma total_names shuffle : total (GetMetricNames shuffle).
Proof. intros r. by eexists _, _. Qed.
Lemma total_labels orders name : total (GetLabelsForMetric orders name).
Proof. intros r. by eexists _, _. Qed.
Lemma total_series orders name labels : total (GetTimeSeries orders name labels).
Proof. intros r. by eexists _, _. Qed.
(** Collectors whose reservoirs have at most [2^53] samples. *)
Definition fits (c : Collector) : Prop := ∀ name key ser, series_of name c !! key = Some ser → small (ms_reservoir ser).
Lemma convert_total orders shuffle now labels opts r : fits (rd_col r) → ∃ a r', ConvertToRunMetrics orders shuffle now labels opts r = Ok (a, r').
Proof. intros H. destruct (readers_convert orders shuffle (rd_col r) H now labels opts r eq_refl) as (a & r' & E & _ & _). eauto. Qed.
Lemma total_latest orders metric set by_host : total (latest_by_host orders metric set by_host).
Proof.
  eapply gives_bind; [apply total_labels|]. intros combos _. apply gives_cfold; [done|]. intros t labels _.
  cbv zeta. destruct (is_empty (default "" (labels !! "host"))); [by apply gives_ret|].
  eapply gives_bind; [apply total_series|]. intros points _. by apply gives_ret.
Qed.
Lemma total_hosts orders inventory : total (hostMetricsFromCollector orders inventory).
Proof.
  eapply gives_bind; [apply total_latest|]. intros b1 _. eapply gives_bind; [apply total_latest|]. intros b2 _. by apply gives_ret.
Qed.
Definition of_type (type : string) (e : SseEvent) : Prop := e.1 = type.
Lemma gives_at {A B} (m : CM A) (k : A → CM B) Q r : (∃ a r', m r = Ok (a, r')) → (∀ a, gives (k a) Q) → ∃ b r', cbind m k r = Ok (b, r') ∧ Q b.
Proof.
  intros (a & r1 & E1) Hk. destruct (Hk a r1) as (b & r2 & E2 & Qb). exists b, r2. unfold cbind. by rewrite E1.
Qed.
Lemma snapshot_events m id rec live r : fits (rd_col r) →
  ∃ evs r', sseWriteMetricsSnapshot m id rec live r = Ok (evs, r') ∧ Forall (of_type "metrics_snapshot") evs.
Proof.
  intros Hfit. apply gives_at.
  - unfold snapshot_metrics. destruct (rr_Metrics rec); [by eexists _, _|]. destruct live; [|by eexists _, _].
    edestruct convert_total as (em & r' & E); [exact Hfit|]. unfold cbind. rewrite E. by eexists _, _.
  - intros [metrics|]; [|by apply gives_ret]. eapply (gives_bind _ _ (λ _, True)).
    + destruct live; [apply total_hosts|by apply gives_ret].
    + intros hosts _. apply gives_ret. by repeat constructor.
Qed.
Lemma update_events format m sent : gives (metric_updates format m sent) (λ x, Forall (of_type "metric_update") x.1).
Proof.
  eapply gives_bind; [apply total_names|]. intros names _. apply gives_cfold; [done|]. intros acc name Hacc.
  eapply gives_bind; [apply total_labels|]. intros combos _. apply gives_cfold; [done|]. clear acc Hacc. intros [evs sent'] labels Hacc.
  eapply gives_bind; [apply total_series|]. intros points _. destruct (last points) as [latest|]; [|by apply gives_ret].
  cbv zeta. case_bool_decide; [by apply gives_ret|]. intros r. eexists _, _. split; [done|]. simpl in *.
  apply Forall_app. split; [done|]. by repeat constructor.
Qed.
Section Http.
Context (ParseFloat : string → go float64) (format : Time → string).
#[local] Abbreviation sse_tick := (sse_tick ParseFloat format).
Definition sse_steps (evs : list SseEvent) : list SseEvent := List.filter (λ e, String.eqb e.1 "optimization_step") evs.
Lemma sse_steps_app l k : sse_steps (l ++ k) = sse_steps l ++ sse_steps k.
Proof. apply List.filter_app. Qed.
Lemma sse_steps_none type l : String.eqb type "optimization_step" = false → Forall (of_type type) l → sse_steps l = [].
Proof. intros Ht. induction 1 as [|e l He _ IH]; [done|]. unfold sse_steps in *. simpl. by rewrite He, Ht. Qed.
Lemma sse_steps_steps l : sse_steps (sse_step ParseFloat <$> l) = sse_step ParseFloat <$> l.
Proof. induction l as [|x l IH]; [done|]. csimpl. unfold sse_steps in *. simpl. by rewrite IH. Qed.
Lemma sse_steps_progress pre : (∀ e, e ∈ pre → ∃ r o u, e = sse_progress r o u) → sse_steps pre = [].
Proof.
  intros H. apply (sse_steps_none "optimization_progress"); [done|]. apply Forall_forall. by intros e (r & o & u & ->)%H.
Qed.
Definition readable (m : Moment) : Prop := ∀ p, fits (mo_collector m p).
Lemma collector_fits m c : readable m → fits (collector_of m c).
Proof. intros H. destruct c as [p|]; [apply H|]. intros name key ser Hs. by vm_compute in Hs. Qed.
(** When the stream reads the record of a finished run again, it still has the same status. *)
Definition sse_sees (id : string) (m : Moment) (rec : Record_) : Prop :=
  sees id (mo_server m) rec ∧ readable m ∧ ∀ again, sees id (mo_again m) again → rr_Status again = rr_Status rec.
Lemma sse_tick_running id w m rec h :
  sse_sees id m rec → h `prefix_of` history rec →
  wt_lastOptStepCount (sw_watch w) = length h → isTerminalStatus (rr_Status rec) = false →
  ∃ evs w', sse_tick id w m = (evs, inl w') ∧ sse_steps evs = sse_step ParseFloat <$> drop (length h) (history rec)
  ∧ wt_lastOptStepCount (sw_watch w') = length (history rec) ∧ wt_previousStatus (sw_watch w') = rr_Status rec.
Proof.
  intros (Hs & Hread & _) Hpre Hn Hst. unfold ServerStream.sse_tick. rewrite Hs, Hst, andb_false_r. cbv zeta.
  set (live := _ && bool_decide _). set (r := mkReading _ 0). set (before := if negb _ then _ else _).
  destruct (optimization_events _ _ rec ((sw_watch w) <| wt_previousStatus := rr_Status rec |>)) as [evs w'] eqn:E.
  apply (optimization_events_spec _ _ _ _ h) in E as ((pre & -> & Hpr%sse_steps_progress) & Hc & Hw); [|done..].
  destruct (snapshot_events m id rec live r) as (snap & r1 & E1 & H1); [by apply collector_fits|].
  assert (H2 : gives (if live then metric_updates format m (sw_sent w) else cret ([], sw_sent w)) (λ x, Forall (of_type "metric_update") x.1))
    by (destruct live; [apply update_events|by apply gives_ret]).
  destruct (H2 r1) as ([ups sent] & r2 & E2 & H3). unfold cbind at 1. rewrite E1. cbn [go_bind]. unfold cbind. rewrite E2.
  eexists _, _. split; [reflexivity|]. split_and!; [|done|done].
  assert (Hb : sse_steps before = []) by (unfold before; by destruct (negb _)).
  rewrite !sse_steps_app, Hb, Hpr, sse_steps_steps, (sse_steps_none "metrics_snapshot" _ eq_refl H1), (sse_steps_none "metric_update" _ eq_refl H3). by rewrite !app_nil_r.
Qed.
Definition complete (status : Status) : SseEvent := sse "complete" [("status", JStr (status_String status))].
Lemma sse_tick_final id w m rec :
  sse_sees id m rec → isTerminalStatus (rr_Status rec) = true → wt_previousStatus (sw_watch w) ≠ rr_Status rec →
  ∃ evs, sse_tick id w m = (evs, inr Finished) ∧ sse_steps evs = [] ∧ last evs = Some (complete (rr_Status rec)).
Proof.
  intros (Hs & Hread & Hagain) Hst Hne. unfold ServerStream.sse_tick. rewrite Hs, Hst. rewrite bool_decide_false by congruence. cbv zeta. simpl.
  set (live := _ && bool_decide _). set (r := mkReading _ 0). set (rec' := default rec _).
  assert (Hsame : rr_Status rec' = rr_Status rec) by (unfold rec'; destruct (RunStore_Get id (sv_store (mo_again m))) eqn:E; [by apply Hagain|done]).
  destruct (snapshot_events m id rec' live r) as (snap & r1 & E1 & H1); [by apply collector_fits|]. rewrite E1, Hsame.
  eexists. split; [reflexivity|]. split.
  - change (?x :: ?l) with ([x] ++ l). rewrite !sse_steps_app, (sse_steps_none "metrics_snapshot" _ eq_refl H1). done.
  - by rewrite app_comm_cons, last_snoc.
Qed.
Lemma sse_poll_spec id before final : runs_until before final →
  ∀ moments h n w, Forall2 (sse_sees id) moments (before ++ [final]) → grows h (before ++ [final]) →
  wt_lastOptStepCount (sw_watch w) = length h → isTerminalStatus (wt_previousStatus (sw_watch w)) = false →
  ∃ evs, poll (sse_tick id) never n w moments = (evs, Finished)
  ∧ (sse_step ParseFloat <$> h) ++ sse_steps evs = sse_step ParseFloat <$> from_option (λ rec, history rec) h (last before)
  ∧ last evs = Some (complete (rr_Status final)).
Proof.
  intros [Hb Hf]. induction Hb as [|rec before Hrec _ IH]; intros moments h n w Hs Hg Hn Hw; simpl in Hs, Hg.
  - apply Forall2_cons_inv_r in Hs as (s & ? & Hs & ->%Forall2_nil_inv_r & ->).
    destruct (sse_tick_final id w s final Hs Hf) as (evs & E & H1 & H2); [congruence|].
    exists evs. split; [by apply poll_end|]. rewrite H1, app_nil_r. done.
  - apply Forall2_cons_inv_r in Hs as (s & moments' & Hs & Hss & ->). destruct Hg as (Hpre & Hg).
    destruct (sse_tick_running id w s rec h Hs Hpre Hn Hrec) as (evs & w' & E & H1 & H4 & H5).
    destruct (IH moments' (history rec) (n + length evs)%nat w' Hss Hg H4) as (evs' & E' & I1 & I2); [by rewrite H5|].
    exists (evs ++ evs'). rewrite (poll_next _ _ _ _ _ _ _ E), E'. split_and!; [done|..].
    + rewrite sse_steps_app, H1, app_assoc, <- fmap_app.
      assert (Hh : h ++ drop (length h) (history rec) = history rec) by (destruct Hpre as [k ->]; by rewrite drop_app_length).
      rewrite Hh, I1. f_equal. rewrite last_cons. by destruct (last before).
    + by rewrite last_app, I2.
Qed.
(** Intervals whose nanoseconds fit 64 bits. *)
Definition usable (ms : Z) : Prop := ms * Millisecond < 2 ^ 63.
Lemma usable_ticks {A} ms standard (x y : A) : usable ms → 0 < standard → ticking (client_interval ms standard) x y = y.
Proof.
  unfold usable, ticking, client_interval, Millisecond. intros Hms Hs. destruct (Z.ltb_spec 0 ms).
  - rewrite wrap64_id by (unfold in_int64, int64_min, int64_max; lia). destruct (Z.leb_spec (ms * 1000000) 0); [lia|done].
  - destruct (Z.leb_spec standard 0); [lia|done].
Qed.
(** C26: the streams report the whole life of a run. For every interval whose nanoseconds fit 64 bits, and whatever the store holds at the ticks, as long as the run is there, its
    optimisation history (empty for a run that is no optimisation) only grows, it ends, and its status then stays: the gRPC stream ends by itself, has sent every step of the final history once and in order, a chain of status changes from
    the beginning to the final status, and the final metrics last; the HTTP stream, if it was opened while the run was not over,
    ends with the completion event, having sent in order and once the steps that were there at the last tick before the end. *)
Theorem streams_report_run id s rec before final moments ms query :
  is_empty id = false → sees id s rec → runs_until before final → grows [] (before ++ [final]) →
  Forall2 (sse_sees id) moments (before ++ [final]) →
  (usable ms →
   ∃ evs, StreamRunEvents never (Some (id, ms)) s (mo_server <$> moments) = (evs, Finished)
   ∧ steps_of evs = history final ∧ status_path UNSPECIFIED evs = Some (rr_Status final)
   ∧ (∀ m, rr_Metrics final = Some m → last evs = Some (MetricsSnapshot m)))
  ∧ (isTerminalStatus (rr_Status rec) = false → (∀ v, ParseInt 64 (query "interval_ms") = Some v → usable v) →
     ∃ evs, handleMetricsStream ParseFloat format never query id s moments = inr (evs, Finished)
     ∧ sse_steps evs = sse_step ParseFloat <$> from_option (λ rec, history rec) [] (last before)
     ∧ last evs = Some (complete (rr_Status final))).
Proof.
  intros Hid Hs Hr Hg Hm. split.
  - intros Hms. assert (Hm' : Forall2 (sees id) (mo_server <$> moments) (before ++ [final])).
    { apply Forall2_fmap_l. eapply Forall2_impl; [exact Hm|]. by intros m r []. }
    destruct (grpc_poll_spec id before final Hr _ [] 1 (watch (rr_Status rec)) Hm' Hg eq_refl) as (evs & E & H1 & H2 & H3).
    unfold StreamRunEvents. rewrite Hid, Hs, usable_ticks, E by done. eexists. split; [reflexivity|]. split_and!; [done|by simpl|].
    intros m Hmet. rewrite last_cons, (H3 m Hmet). done.
  - intros Hst Hq. set (w := mkSseWatch (watch (rr_Status rec)) (RunStore_GetCollector id (sv_store s)) ∅).
    destruct (sse_poll_spec id before final Hr moments [] 1 w Hm Hg eq_refl Hst) as (evs & E & H1 & H2).
    assert (Hms : usable (default 0 (ParseInt 64 (query "interval_ms")))) by (destruct (ParseInt _ _); [by apply Hq|done]).
    unfold handleMetricsStream. rewrite Hs. fold w. cbn [never]. rewrite usable_ticks, E by done. eexists. split; [reflexivity|]. split; [done|].
    rewrite last_cons, H2. done.
Qed.
(** A stream that is opened when the run is over already waits for a change that never comes: it stays open as long as the client does. *)
Lemma sse_stays_open fails query id s rec moments recs :
  sees id s rec → Forall2 (λ m r, sees id (mo_server m) r ∧ rr_Status r = rr_Status rec) moments recs →
  ∀ evs, handleMetricsStream ParseFloat format fails query id s moments ≠ inr (evs, Finished).
Proof.
  intros Hs Hm evs. unfold handleMetricsStream. rewrite Hs. destruct (fails 0%nat); [done|].
  set (w := mkSseWatch _ _ _). unfold ticking. destruct (client_interval _ _ <=? 0); [done|]. assert (Hw : wt_previousStatus (sw_watch w) = rr_Status rec) by done. clearbody w. generalize 1%nat as n.
  enough (H : ∀ n w, wt_previousStatus (sw_watch w) = rr_Status rec → (poll (sse_tick id) fails n w moments).2 ≠ Finished).
  { intros n. specialize (H n w Hw). destruct (poll _ _ _ _ _) as [sent e]. simpl in H. congruence. }
  clear w Hw. induction Hm as [|m r moments recs [Hm Hr] _ IH]; intros n w Hw; [done|]. cbn [poll].
  assert (Ht : ∃ evs, (∃ w', sse_tick id w m = (evs, inl w') ∧ wt_previousStatus (sw_watch w') = rr_Status rec)
    ∨ sse_tick id w m = (evs, inr Panicked)).
  { unfold ServerStream.sse_tick. rewrite Hm, bool_decide_true by congruence. cbv zeta. cbn [negb andb].
    destruct (optimization_events _ _ _ _) as [l w'] eqn:E.
    assert (Hw' : wt_previousStatus w' = rr_Status rec).
    { unfold optimization_events in E. rewrite <- Hr. destruct (get_optimization _) as [opt|]; [|by injection E as <- <-].
      destruct (ObjectiveAndUnitForProgress _), (progress_changed _ _), (_ <? _)%nat; by injection E as <- <-. }
    destruct ((_ : CM (list SseEvent * _)) _) as [[[l' sent] r']| |]; eexists; [left; by eexists|by right..]. }
  destruct Ht as (l & [(w' & -> & Hw')| ->]); destruct (send_all fails n l) as [sent [err|]]; [done| |done|done].
  specialize (IH (n + length l)%nat w' Hw'). by destruct (poll _ _ _ _ _).
Qed.
End Http.

(** * A concrete stream *)

Definition seen (rec : Record_) : Server :=
  mkServer (NewRunExecutor (set_run "a" rec (NewRunStore defaultRunStoreLifecycleConfig)) defaultSimulationLimits None
    defaultOptimizationSafetyLimits true) ∅.
Definition first_step : ControllerStep := mkControllerStep 1 f0 f0 "scale_up" no_configuration no_configuration.
Definition last_step : ControllerStep := mkControllerStep 2 f0 f0 "scale_down" no_configuration no_configuration.
Definition optimising (status : Status) (steps : list ControllerStep) : Record_ :=
  (new_record "a" (Some optimizer_run) 5) <| rr_Run := (rr_Run (new_record (Metrics := RunMetrics) (Conf := RunConfiguration) (Step := ControllerStep)
    "a" (Some optimizer_run) 5)) <| run_Status := status |> |> <| rr_OptimizationHistory := steps |>.
Definition moment (rec : Record_) : Moment :=
  mkMoment (seen rec) (seen rec) (mkEnv "g" 5 0 (λ _, 0) sample_yaml no_string (λ _, []) (λ _, ([], [])) (λ _ _ l, l) []) (λ _, NewCollector 0 None None None)
    (λ _ _, []) (λ _ _ l, l) [] [].
Lemma moment_seen rec : sse_sees "a" (moment rec) rec.
Proof.
  assert (H : sees "a" (seen rec) rec) by (unfold sees, RunStore_Get; cbn; by rewrite lookup_insert_eq).
  split; [exact H|]. split; [intros p name key ser Hs; by vm_compute in Hs|]. unfold sees in *. cbn [mo_again moment]. congruence.
Qed.
(** An interval of about 292 years or more overflows: the stream panics after its first event. *)
Lemma interval_overflow_panics :
  let s := seen (optimising RUNNING []) in
  StreamRunEvents never (Some ("a", 9223372036855)) s [s] = ([StatusChanged UNSPECIFIED RUNNING], Panicked)
  ∧ handleMetricsStream (λ _, Ok f0) (λ _, "") never (λ _, "9223372036855") "a" s [moment (optimising RUNNING [])] = inr ([status_change RUNNING], Panicked).
Proof. split; vm_compute; reflexivity. Qed.
(** The last step is made between the last two ticks: gRPC reports it, HTTP does not. *)
Lemma streams_report_run_witness :
  let running := optimising RUNNING [first_step] in
  let final := optimising COMPLETED [first_step; last_step] in
  (∃ evs, StreamRunEvents never (Some ("a", 0)) (seen running) [seen running; seen final] = (evs, Finished) ∧ steps_of evs = [first_step; last_step])
  ∧ ∃ evs, handleMetricsStream (λ _, Ok f0) (λ _, "") never (λ _, "250") "a" (seen running) [moment running; moment final] = inr (evs, Finished)
    ∧ sse_steps evs = [sse_step (λ _, Ok f0) first_step].
Proof.
  intros running final.
  destruct (streams_report_run (λ _, Ok f0) (λ _, "") "a" (seen running) running [running] final [moment running; moment final] 0 (λ _, "250"))
    as [Hg Hh].
  - reflexivity.
  - apply moment_seen.
  - by split; [repeat constructor|].
  - simpl. split_and!; [apply prefix_nil|by exists [last_step]|done].
  - repeat constructor; apply moment_seen.
  - split; [destruct (Hg ltac:(done)) as (evs & E & H & _); by exists evs|].
    destruct (Hh eq_refl) as (evs' & E' & H' & _); [intros v [= <-]; done|by exists evs'].
Defined.
