(* ===== verification/Preflight.v ===== *)
(** Validation of scenarios before they run: [pkg/config/scenario_semantic_issue.go], [internal/simd/scenario_preflight.go] and the
    handler [handleValidateScenario] of [http_server.go]. *)
From S2P Require Import Prelude GoFloat Utils Policy Config Graph BatchSpec BrokerQueue ResourceManager RunMetrics RunStore SimState Workload Orchestrator Server HttpJson HttpServer.
From Stdlib Require Import SpecFloat.
#[local] Open Scope string_scope.
#[local] Open Scope list_scope.
#[local] Open Scope Z_scope.
#[local] Open Scope api_scope.

(** * Regular expressions *)

(** What the patterns are made of: literals and captured groups of one class of characters, repeated at least once or any number of times. *)
Inductive piece := Lit (s : string) | Plus (p : ascii → bool) | Star (p : ascii → bool).
(** [whole]: the pattern ends with [$]. Every pattern begins with [^]. *)
Record pattern := mkPattern { pt_pieces : list piece; pt_whole : bool }.
Fixpoint cut_prefix (p s : string) : option string :=
  match p, s with
  | EmptyString, _ => Some s
  | String a p, String b s => if Ascii.eqb a b then cut_prefix p s else None
  | String _ _, EmptyString => None
  end.
(** As many characters of the class as possible, fewer if the rest of the pattern asks for it; [taken] has been taken already. *)
Fixpoint repeated (p : ascii → bool) (k : string → option (list string)) (taken s : string) : option (list string) :=
  match s with
  | EmptyString => cons taken <$> k EmptyString
  | String c s' =>
      if p c then match repeated p k (taken +:+ String c EmptyString) s' with Some l => Some l | None => cons taken <$> k s end
      else cons taken <$> k s
  end.
Fixpoint match_pieces (whole : bool) (ps : list piece) (s : string) : option (list string) :=
  match ps with
  | [] => if whole && negb (is_empty s) then None else Some []
  | Lit l :: ps => cut_prefix l s ≫= match_pieces whole ps
  | Plus p :: ps =>
      match s with
      | String c s => if p c then repeated p (match_pieces whole ps) (String c EmptyString) s else None
      | EmptyString => None
      end
  | Star p :: ps => repeated p (match_pieces whole ps) EmptyString s
  end.
(** The groups of a match, without the match itself. *)
Definition FindStringSubmatch (p : pattern) (s : string) : option (list string) := match_pieces (pt_whole p) (pt_pieces p) s.

Definition is_digit (c : ascii) : bool := let n := N_of_ascii c in (48 <=? n)%N && (n <=? 57)%N.
(** [\S]: not a tab, line feed, form feed, carriage return or space. *)
Definition not_space (c : ascii) : bool := let n := N_of_ascii c in negb (existsb (N.eqb n) [9; 10; 12; 13; 32]%N).
Definition not_char (d c : ascii) : bool := negb (Ascii.eqb c d).
(** [.]: anything but a line feed. *)
Definition any_char (c : ascii) : bool := negb (N_of_ascii c =? 10)%N.
Definition quote : ascii := ascii_of_N 34.
Definition missing_endpoint (before : list piece) : pattern :=
  mkPattern (before ++ [Lit " endpoint "; Plus (not_char ":"); Lit ":"; Plus not_space; Lit " does not exist"]) true.
Definition missing_service (before : list piece) : pattern := mkPattern (before ++ [Lit " service "; Plus not_space; Lit " does not exist"]) true.
Definition in_workload (what : string) : list piece := [Lit "workload "; Plus is_digit; Lit (": " +:+ what)].
Definition in_endpoint (what : string) : list piece :=
  [Lit "service "; Plus (not_char ","); Lit ", endpoint "; Plus any_char; Lit (": " +:+ what)].
Definition in_service (what : string) : list piece := [Lit "service "; Plus (not_char ":"); Lit (": " +:+ what)].
Definition reWorkloadMissingEndpoint := missing_endpoint (in_workload "target").
Definition reWorkloadMissingService := missing_service (in_workload "target").
Definition reWorkloadInvalidToQuoted :=
  mkPattern (in_workload ("invalid to " +:+ String quote EmptyString) ++ [Star (not_char quote); Lit (String quote ": "); Plus any_char]) true.
Definition reWorkloadInvalidTo := mkPattern (in_workload "invalid to " ++ [Plus any_char; Lit ": "]) false.
Definition reDownstreamMissingEP := missing_endpoint (in_endpoint "downstream").
Definition reDownstreamMissingSvc := missing_service (in_endpoint "downstream").
Definition reQueueConsumerEP := missing_endpoint (in_service "queue consumer_target").
Definition reQueueConsumerSvc := missing_service (in_service "queue consumer_target").
Definition reQueueDLQEP := missing_endpoint (in_service "queue dlq").
Definition reQueueDLQSvc := missing_service (in_service "queue dlq").
Definition reTopicConsumerEP := missing_endpoint (in_service "topic subscriber consumer_target").
Definition reTopicConsumerSvc := missing_service (in_service "topic subscriber consumer_target").
Definition reTopicConsumerTargetErr :=
  mkPattern (in_service "behavior.topic.subscribers[" ++ [Plus is_digit; Lit "].consumer_target: "]) false.
Definition reTopicConsumerRequired :=
  mkPattern (in_service "behavior.topic.subscribers[" ++ [Plus is_digit; Lit "].consumer_target is required"]) true.
Definition reQueueConsumerTargetErr := mkPattern (in_service "behavior.queue.consumer_target: ") false.

(** * Issues *)

Definition issue : Type := string * string * string.
Definition schema (path raw : string) : issue := ("INVALID_SCENARIO_SCHEMA", path, raw).
Definition workload_path (i : string) : string := "workload[" +:+ i +:+ "].to".
Definition service_path (id rest : string) : string := "services[" +:+ Quote id +:+ "]." +:+ rest.
Definition endpoint_path (id path : string) : string := service_path id ("endpoints[" +:+ Quote path +:+ "].downstream").
Definition missing_on (what svc ep : string) : string := what +:+ " references missing endpoint " +:+ ep +:+ " on service " +:+ svc.
Definition unknown (what svc : string) : string := what +:+ " references unknown service " +:+ svc.
(** The pattern with the issue that its groups give. *)
Definition consumer (path what : string) (g : list string) : issue :=
  match g with
  | [s; svc; ep] => ("UNKNOWN_QUEUE_CONSUMER_TARGET", service_path s path, missing_on what svc ep)
  | [s; svc] => ("UNKNOWN_QUEUE_CONSUMER_TARGET", service_path s path, unknown what svc)
  | _ => schema "" ""
  end.
Definition issue_table (raw : string) : list (pattern * (list string → issue)) :=
  [(reWorkloadMissingEndpoint, λ g, match g with
      | [i; svc; ep] => ("UNKNOWN_WORKLOAD_ENDPOINT", workload_path i, missing_on ("workload target " +:+ svc +:+ ":" +:+ ep) svc ep)
      | _ => schema "" raw end);
   (reWorkloadMissingService, λ g, match g with
      | [i; svc] => ("UNKNOWN_WORKLOAD_SERVICE", workload_path i, unknown "workload target" svc)
      | _ => schema "" raw end);
   (reWorkloadInvalidToQuoted, λ g, match g with i :: _ => schema (workload_path i) raw | _ => schema "" raw end);
   (reWorkloadInvalidTo, λ g, match g with i :: _ => schema (workload_path i) raw | _ => schema "" raw end);
   (reDownstreamMissingEP, λ g, match g with
      | [s; p; svc; ep] => ("UNKNOWN_DOWNSTREAM_ENDPOINT", endpoint_path s p, missing_on "downstream target" svc ep)
      | _ => schema "" raw end);
   (reDownstreamMissingSvc, λ g, match g with
      | [s; p; svc] => ("UNKNOWN_DOWNSTREAM_SERVICE", endpoint_path s p, unknown "downstream target" svc)
      | _ => schema "" raw end);
   (reQueueConsumerEP, consumer "behavior.queue.consumer_target" "queue consumer_target");
   (reQueueConsumerSvc, consumer "behavior.queue.consumer_target" "queue consumer_target");
   (reQueueDLQEP, consumer "behavior.queue.dlq_target" "queue dlq_target");
   (reQueueDLQSvc, consumer "behavior.queue.dlq_target" "queue dlq_target");
   (reTopicConsumerEP, consumer "behavior.topic.subscribers.consumer_target" "topic subscriber consumer_target");
   (reTopicConsumerSvc, consumer "behavior.topic.subscribers.consumer_target" "topic subscriber consumer_target");
   (reTopicConsumerTargetErr, λ g, match g with
      | [s; i] => schema (service_path s ("behavior.topic.subscribers[" +:+ i +:+ "].consumer_target")) raw | _ => schema "" raw end);
   (reTopicConsumerRequired, λ g, match g with
      | [s; i] => schema (service_path s ("behavior.topic.subscribers[" +:+ i +:+ "].consumer_target")) raw | _ => schema "" raw end);
   (reQueueConsumerTargetErr, λ g, match g with [s] => schema (service_path s "behavior.queue.consumer_target") raw | _ => schema "" raw end)].
(** The first pattern that matches gives the issue. *)
Fixpoint first_match (raw : string) (l : list (pattern * (list string → issue))) : option issue :=
  match l with
  | [] => None
  | (p, f) :: l => match FindStringSubmatch p raw with Some g => Some (f g) | None => first_match raw l end
  end.
Definition TrimPrefix (s p : string) : string := default s (cut_prefix p s).
Definition SemanticIssueFromValidateError (err : string) : issue :=
  let raw := TrimPrefix err "invalid scenario: " in
  match first_match raw (issue_table raw) with
  | Some i => i
  | None =>
      if Contains raw "duplicate host id:" then schema "hosts" raw
      else if Contains raw "duplicate service id:" then schema "services" raw
      else if HasPrefix raw "at least one host" then schema "hosts" raw
      else if HasPrefix raw "at least one service" then schema "services" raw
      else if HasPrefix raw "at least one workload" then schema "workload" raw
      else schema "" raw
  end.

(** * The check *)

Record ScenarioValidationIssue := mkIssue { is_Code : string; is_Message : string; is_Path : string; is_ServiceID : string; is_Hint : string }.
Record ScenarioValidationSummary := mkSummary { sum_Hosts : Z; sum_Services : Z; sum_Workloads : Z }.
Record ScenarioValidationResult := mkValidation {
  va_Valid : bool;
  va_Errors : list ScenarioValidationIssue;
  va_Warnings : list ScenarioValidationIssue;
  va_Summary : option ScenarioValidationSummary;
}.
Definition placementHint : string :=
  "Check required_zones, required_host_labels, max_replicas_per_host, and available host CPU/memory.".
Definition summaryPtr (s : option Scenario) : option ScenarioValidationSummary :=
  match s with Some s => Some (mkSummary (len (scn_Hosts s)) (len (scn_Services s)) (len (scn_Workload s))) | None => None end.
Definition extractServiceIDFromPlacementError (msg : string) : string :=
  match cut_prefix "cannot place service " msg with
  | None => ""
  | Some rest =>
      if is_empty rest then ""
      else
        match String.index 0 ":" rest with
        | Some (S n) => TrimSpace (String.substring 0 (S n) rest)
        | _ => TrimSpace rest
        end
  end.
Section Preflight.
(** [config.UnmarshalScenarioYAMLString], and the times at which the instances are made. *)
Context (unmarshal : string → go Scenario) (clock : Z → Time).
Definition rejected (i : ScenarioValidationIssue) (summary : option ScenarioValidationSummary) : ScenarioValidationResult :=
  mkValidation false [i] [] summary.
Definition ValidateScenarioPreflight (scenarioYAML : string) : go ScenarioValidationResult :=
  match unmarshal scenarioYAML with
  | Panic => Panic
  | Fail err => Ok (rejected (mkIssue "SCENARIO_PARSE_INVALID" err "" "" "") (Some (mkSummary 0 0 0)))
  | Ok scenario =>
      match ValidateScenario scenario with
      | Panic => Panic
      | Fail err =>
          let '(code, path, msg) := SemanticIssueFromValidateError err in
          Ok (rejected (mkIssue code msg path "" "") (summaryPtr (Some scenario)))
      | Ok scenario =>
          match ResourceManager_InitializeFromScenario clock scenario NewManager with
          | Panic => Panic
          | Fail msg =>
              Ok (rejected (mkIssue "PLACEMENT_INFEASIBLE" msg "" (extractServiceIDFromPlacementError msg) placementHint)
                    (summaryPtr (Some scenario)))
          | Ok _ => Ok (mkValidation true [] [] None)
          end
      end
  end.

(** * The run *)

(** How [runSimulation] sets a run up, until the first arrivals are generated: the scenario,
    the resource manager, the service graph and the workload patterns. [order]: the iteration
    over the endpoint map. An error ends the run as failed. *)
Definition run_setup (order : list string) (runID : string) (gen : RandSource) (startTime endTime : Time) (realTime : bool)
    (scenarioYAML : string) : option (go (ResourceManager * Graph * WorkloadState)) :=
  match (let! scenario := wrap_err "invalid scenario: " (ParseScenarioYAML unmarshal scenarioYAML) in
         let! rm := wrap_err "resource initialization failed: " (ResourceManager_InitializeFromScenario clock scenario NewManager) in
         Ok (scenario, rm)) with
  | Fail e => Some (Fail e)
  | Panic => Some Panic
  | Ok (scenario, rm) =>
      match NewGraph order scenario with
      | None => None
      | Some graph =>
          Some (let! graph := wrap_err ("scenario state creation failed: failed to create interaction manager: " +:+
                                        "failed to create service graph: ") graph in
                let! ws := wrap_err "workload state initialization failed: "
                             (WorkloadState_initPatternsLocked scenario startTime realTime
                               ((NewWorkloadState runID endTime gen) <| ws_realTimeMode := realTime |>)) in
                Ok (rm, graph, ws))
      end
  end.

(** * The endpoint *)

Definition scenarioValidateHTTPStatus (r : ScenarioValidationResult) : Z :=
  if va_Valid r then StatusOK
  else if existsb (λ e, String.eqb (is_Code e) "SCENARIO_PARSE_INVALID") (va_Errors r) then StatusBadRequest
  else StatusUnprocessableEntity.
Definition omitempty (k v : string) : list (string * json) := when (negb (is_empty v)) [(k, JStr v)].
Definition issue_json (i : ScenarioValidationIssue) : json :=
  JObj ([("code", JStr (is_Code i)); ("message", JStr (is_Message i))] ++ omitempty "path" (is_Path i)
    ++ omitempty "service_id" (is_ServiceID i) ++ omitempty "hint" (is_Hint i)).
Definition result_json (r : ScenarioValidationResult) : json :=
  JObj ([("valid", JBool (va_Valid r)); ("errors", JList (issue_json <$> va_Errors r)); ("warnings", JList (issue_json <$> va_Warnings r))]
    ++ match va_Summary r with
       | Some s => [("summary", JObj [("hosts", JInt (sum_Hosts s)); ("services", JInt (sum_Services s)); ("workloads", JInt (sum_Workloads s))])]
       | None => []
       end).
(** [body]: the YAML text and the mode. *)
Definition handleValidateScenario (method : Method) (body : go (string * string)) : Http :=
  if negb (bool_decide (method = POST)) then not_allowed
  else
    decoded body (λ '(yaml, mode),
      let mode := TrimSpace mode in
      let mode := if is_empty mode then "preflight" else mode in
      if negb (String.eqb mode "preflight")
      then refuse StatusBadRequest ("unsupported validation mode: " +:+ mode +:+ " (supported: preflight)")
      else if is_empty (TrimSpace yaml)
      then writeJSON StatusBadRequest (result_json (rejected (mkIssue "SCENARIO_YAML_REQUIRED"
             "scenario_yaml is required and must be non-empty after trimming whitespace" "scenario_yaml" "" "") (Some (mkSummary 0 0 0))))
      else
        match ValidateScenarioPreflight yaml with
        | Ok r => writeJSON (scenarioValidateHTTPStatus r) (result_json r)
        | _ => λ s, (Crash, s)
        end).
End Preflight.
