(* ===== verification/PreflightSpec.v ===== *)
(** What the preflight check promises. *)
From S2P Require Import Prelude GoFloat Utils Policy Config Graph BatchSpec BrokerQueue ResourceManager RunMetrics RunStore Limits SimState Workload Orchestrator Server HttpJson HttpServer ServerSpec Preflight.
From Stdlib Require Import SpecFloat.
#[local] Open Scope string_scope.
#[local] Open Scope list_scope.
#[local] Open Scope Z_scope.

(** * Verdict and status *)


(** ** Workload patterns of a validated scenario *)


Section Verdict.
Context (unmarshal : string → go Scenario) (clock : Z → Time).
End Verdict.

(** * Where the error is *)

Fixpoint all_chars (p : ascii → bool) (s : string) : bool := match s with EmptyString => true | String c s => p c && all_chars p s end.
(** The next character is not of the class. *)
Definition stops (p : ascii → bool) (s : string) : bool := match s with EmptyString => true | String c _ => negb (p c) end.
Lemma cut_prefix_app p s : cut_prefix p (p +:+ s) = Some s.
Proof. induction p as [|c p IH]; [by destruct s|]. change (String c p +:+ s) with (String c (p +:+ s)). cbn [cut_prefix]. by rewrite Ascii.eqb_refl. Qed.
Lemma repeated_stop p k taken s : stops p s = true → repeated p k taken s = cons taken <$> k s.
Proof. destruct s as [|c s]; [done|]. simpl. by destruct (p c). Qed.
Lemma repeated_cons p k taken c s : p c = true →
  repeated p k taken (String c s) = match repeated p k (taken +:+ String c "") s with Some l => Some l | None => cons taken <$> k (String c s) end.
Proof. intros H. simpl. by rewrite H. Qed.
Lemma repeated_span p k t taken rest l :
  all_chars p t = true → stops p rest = true → k rest = Some l → repeated p k taken (t +:+ rest) = Some ((taken +:+ t) :: l).
Proof.
  intros Ht Hr Hk. revert taken. induction t as [|c t IH]; intros taken.
  - change ("" +:+ rest) with rest. rewrite repeated_stop, Hk, append_empty by done. done.
  - simpl in Ht. apply andb_true_iff in Ht as [Hc Ht]. change (String c t +:+ rest) with (String c (t +:+ rest)).
    rewrite repeated_cons, IH, append_assoc by done. done.
Qed.
(** No shorter repetition helps if the rest of the pattern cannot begin with a character of the class. *)
Lemma repeated_none p k t taken rest :
  all_chars p t = true → stops p rest = true → k rest = None → (∀ c s, p c = true → k (String c s) = None) →
  repeated p k taken (t +:+ rest) = None.
Proof.
  intros Ht Hr Hk Hno. revert taken. induction t as [|c t IH]; intros taken.
  - change ("" +:+ rest) with rest. by rewrite repeated_stop, Hk.
  - simpl in Ht. apply andb_true_iff in Ht as [Hc Ht]. change (String c t +:+ rest) with (String c (t +:+ rest)).
    rewrite repeated_cons, IH, Hno by done. done.
Qed.
Definition word (p : ascii → bool) (s : string) : bool := negb (is_empty s) && all_chars p s.
Lemma plus_span whole p ps t rest l :
  word p t = true → stops p rest = true → match_pieces whole ps rest = Some l →
  match_pieces whole (Plus p :: ps) (t +:+ rest) = Some (t :: l).
Proof.
  intros [H1 H2]%andb_true_iff Hr Hk. destruct t as [|c t]; [done|]. simpl in H2. apply andb_true_iff in H2 as [Hc Ht].
  change (String c t +:+ rest) with (String c (t +:+ rest)). cbn [match_pieces]. rewrite Hc. by apply repeated_span.
Qed.
Lemma plus_none whole p d lit ps t rest :
  word p t = true → stops p rest = true → p d = false → match_pieces whole (Lit (String d lit) :: ps) rest = None →
  match_pieces whole (Plus p :: Lit (String d lit) :: ps) (t +:+ rest) = None.
Proof.
  intros [H1 H2]%andb_true_iff Hr Hd Hk. destruct t as [|c t]; [done|]. simpl in H2. apply andb_true_iff in H2 as [Hc Ht].
  change (String c t +:+ rest) with (String c (t +:+ rest)). cbn [match_pieces]. rewrite Hc. apply repeated_none; try done.
  intros c' s' Hc'. cbn [match_pieces cut_prefix]. destruct (Ascii.eqb_spec d c') as [->|_]; [congruence|done].
Qed.
Lemma lit_span whole l ps s : match_pieces whole (Lit l :: ps) (l +:+ s) = match_pieces whole ps s.
Proof. cbn [match_pieces]. by rewrite cut_prefix_app. Qed.
Lemma digit_N_char n : is_digit (pretty_N_char n) = true.
Proof. unfold pretty_N_char. by repeat case_match. Qed.
Lemma digits_N_go x : ∀ s, all_chars is_digit s = true → all_chars is_digit (pretty_N_go x s) = true.
Proof.
  induction (N.lt_wf_0 x) as [x _ IH]. intros s Hs. destruct (decide (0 < x)%N) as [Hx|Hx].
  - rewrite pretty_N_go_step by done. apply IH; [apply N.div_lt; lia|]. simpl. by rewrite digit_N_char.
  - assert (x = 0%N) as -> by lia. by rewrite pretty_N_go_0.
Qed.
Lemma go_not_empty x : ∀ s, is_empty s = false → is_empty (pretty_N_go x s) = false.
Proof.
  induction (N.lt_wf_0 x) as [x _ IH]. intros s Hs. destruct (decide (0 < x)%N) as [Hx|Hx].
  - rewrite pretty_N_go_step by done. by apply IH; [apply N.div_lt; lia|].
  - assert (x = 0%N) as -> by lia. by rewrite pretty_N_go_0.
Qed.
Lemma Itoa_word i : 0 ≤ i → word is_digit (Itoa i) = true.
Proof.
  intros Hi. destruct i as [|p|p]; [done| |lia]. change (word is_digit (pretty (N.pos p)) = true).
  unfold pretty, pretty_N. case_decide; [done|]. unfold word. rewrite digits_N_go by done.
  rewrite pretty_N_go_step, go_not_empty by (done || lia). done.
Qed.

Definition in_pattern (i : Z) (what rest : string) : string := "workload " +:+ (Itoa i +:+ (": " +:+ what +:+ rest)).
Lemma workload_span i what rest ps l :
  0 ≤ i → match_pieces true ps rest = Some l →
  match_pieces true (in_workload what ++ ps) (in_pattern i what rest) = Some (Itoa i :: l).
Proof.
  intros Hi Hm. unfold in_workload, in_pattern. cbn [app]. rewrite lit_span. apply plus_span; [by apply Itoa_word|done|].
  rewrite <- append_assoc, lit_span. done.
Qed.
Lemma workload_none i what rest ps :
  0 ≤ i → match_pieces true ps rest = None → match_pieces true (in_workload what ++ ps) (in_pattern i what rest) = None.
Proof.
  intros Hi Hm. unfold in_workload, in_pattern. cbn [app]. rewrite lit_span.
  change (Lit (": " +:+ what)) with (Lit (String ":" (" " +:+ what))). apply plus_none; [by apply Itoa_word|done|done|].
  change (String ":" (" " +:+ what)) with (": " +:+ what). rewrite <- append_assoc, lit_span. done.
Qed.
Definition endpoint_text (svc path : string) : string := " endpoint " +:+ (svc +:+ (":" +:+ (path +:+ " does not exist"))).
Definition service_text (svc : string) : string := " service " +:+ (svc +:+ " does not exist").
Lemma endpoint_groups i svc path :
  0 ≤ i → word (not_char ":") svc = true → word not_space path = true →
  FindStringSubmatch reWorkloadMissingEndpoint (in_pattern i "target" (endpoint_text svc path)) = Some [Itoa i; svc; path].
Proof.
  intros Hi Hs Hp. apply workload_span; [done|]. unfold endpoint_text. rewrite lit_span. apply plus_span; [done|done|].
  rewrite lit_span. apply plus_span; [done|done|]. reflexivity.
Qed.
Lemma service_groups i svc :
  0 ≤ i → word not_space svc = true →
  FindStringSubmatch reWorkloadMissingService (in_pattern i "target" (service_text svc)) = Some [Itoa i; svc].
Proof.
  intros Hi Hs. apply workload_span; [done|]. unfold service_text. rewrite lit_span. apply plus_span; [done|done|]. reflexivity.
Qed.
Lemma service_not_endpoint i svc : 0 ≤ i → FindStringSubmatch reWorkloadMissingEndpoint (in_pattern i "target" (service_text svc)) = None.
Proof. intros Hi. by apply workload_none. Qed.
Lemma target_issue endpointRef serviceIDs i svc path err :
  0 ≤ i → word (not_char ":") svc = true → word not_space svc = true → word not_space path = true →
  check_target endpointRef serviceIDs (("workload " +:+ Itoa i +:+ ": ") +:+ "target") (svc, path) = Fail err →
  SemanticIssueFromValidateError err =
    if bool_decide (svc ∈ serviceIDs)
    then ("UNKNOWN_WORKLOAD_ENDPOINT", workload_path (Itoa i), missing_on ("workload target " +:+ svc +:+ ":" +:+ path) svc path)
    else ("UNKNOWN_WORKLOAD_SERVICE", workload_path (Itoa i), unknown "workload target" svc).
Proof.
  intros Hi Hc Hs Hp H. unfold check_target in H. case_bool_decide; cbn [negb fail_if go_bind] in H.
  - assert (err = in_pattern i "target" (endpoint_text svc path)) as ->.
    { apply fail_if_fail in H as ->. unfold in_pattern, endpoint_text. by rewrite !append_assoc. }
    unfold SemanticIssueFromValidateError. change (TrimPrefix (in_pattern i _ _) _) with (in_pattern i "target" (endpoint_text svc path)).
    cbv zeta. unfold issue_table. cbn [first_match]. by rewrite endpoint_groups.
  - assert (err = in_pattern i "target" (service_text svc)) as ->.
    { injection H as <-. unfold in_pattern, service_text. by rewrite !append_assoc. }
    unfold SemanticIssueFromValidateError. change (TrimPrefix (in_pattern i _ _) _) with (in_pattern i "target" (service_text svc)).
    cbv zeta. unfold issue_table. cbn [first_match]. by rewrite service_not_endpoint, service_groups.
Qed.
Lemma colon_free s : no_colon s → is_empty s = false → word (not_char ":") s = true.
Proof.
  intros H Hs. unfold word. rewrite Hs. clear Hs. induction s as [|c s IH]; [done|]. apply no_colon_cons in H as [Hc H].
  simpl in *. rewrite IH by done. unfold not_char. destruct (Ascii.eqb_spec c ":"); done.
Qed.
(** The patterns before the one that fails are counted. *)
Lemma go_fold_app {A S} (f : S → A → go S) l k : ∀ s, go_fold f s (l ++ k) = (let! s := go_fold f s l in go_fold f s k).
Proof. induction l as [|x l IH]; intros s; [done|]. cbn [go_fold app]. destruct (f s x); cbn [go_bind]; [apply IH|done..]. Qed.
Lemma check_workloads_count refs ids l : ∀ i acc st, go_fold (check_workload refs ids) (i, acc) l = Ok st → st.1 = i + len l.
Proof.
  unfold len. induction l as [|wl l IH]; intros i acc st H; cbn [go_fold] in H; [injection H as <-; simpl; lia|].
  apply go_bind_ok in H as ([i' acc'] & H1 & H). apply IH in H. unfold check_workload in H1. repeat (apply go_bind_ok in H1 as (? & _ & H1)).
  injection H1 as <- _. simpl length. lia.
Qed.
(** A pattern that differs from a valid one in its target fails on the target. *)
Lemma dangling_target refs ids st wl to svc path st' :
  check_workload refs ids st (wl <| wl_To := to |>) = Ok st' →
  parseDownstreamTargetForValidation (wl_To wl) = Ok (svc, path) → svc ∉ ids ∨ svc +:+ ":" +:+ path ∉ refs →
  ∃ err, check_workload refs ids st wl = Fail err
    ∧ check_target refs ids (("workload " +:+ Itoa st.1 +:+ ": ") +:+ "target") (svc, path) = Fail err.
Proof.
  intros H Hp Hd. destruct st as [i acc]. unfold check_workload in *.
  change (wl_From (wl <| wl_To := to |>)) with (wl_From wl) in H. change (wl_Arrival (wl <| wl_To := to |>)) with (wl_Arrival wl) in H.
  cbv zeta in *. cbn [fst] in *. set (pre := "workload " +:+ Itoa i +:+ ": ") in *. clearbody pre.
  apply go_bind_ok in H as ([] & H1 & H). apply go_bind_ok in H as (_ & _ & H). apply go_bind_ok in H as ([] & H3 & H).
  apply go_bind_ok in H as (ty & H4 & H). apply go_bind_ok in H as ([] & H5 & _).
  assert (Hto : is_empty (wl_To wl) = false) by (destruct (wl_To wl); [by vm_compute in Hp|done]).
  assert (∃ err, check_target refs ids (pre +:+ "target") (svc, path) = Fail err) as [err Ht].
  { unfold check_target. destruct (bool_decide (svc ∈ ids)) eqn:E1; [|by eexists]. cbn [negb fail_if go_bind].
    destruct Hd as [Hd|Hd]; [by apply bool_decide_eq_true in E1|]. rewrite (bool_decide_eq_false_2 _ Hd). by eexists. }
  exists err. split; [|exact Ht]. rewrite H1. cbn [go_bind]. rewrite Hto. cbn [fail_if go_bind]. rewrite H3. cbn [go_bind]. rewrite H4.
  cbn [go_bind]. set (wl' := wl <| wl_Arrival := _ |>). change (wl_To wl') with (wl_To wl).
  change (wl_Arrival wl') with ((wl_Arrival wl) <| ar_Type := ty |>).
  match type of H5 with fail_if ?b _ = _ => match goal with |- context [fail_if ?c _] => change c with b end end.
  rewrite H5. cbn [go_bind]. rewrite Hp. cbn [wrap_err go_bind]. by rewrite Ht.
Qed.
Lemma validate_dangling s before wl after to svc path s0 :
  ValidateScenario (s <| scn_Workload := before ++ [wl <| wl_To := to |>] |>) = Ok s0 →
  scn_Workload s = before ++ wl :: after →
  parseDownstreamTargetForValidation (wl_To wl) = Ok (svc, path) →
  (svc ∉ svc_ID <$> scn_Services s) ∨ svc +:+ ":" +:+ path ∉ endpoint_refs (scn_Services s) →
  ∃ err ids, ValidateScenario s = Fail err ∧ (∀ x, x ∈ ids ↔ x ∈ svc_ID <$> scn_Services s)
    ∧ check_target (endpoint_refs (scn_Services s)) ids (("workload " +:+ Itoa (len before) +:+ ": ") +:+ "target") (svc, path) = Fail err.
Proof.
  intros H Hw Hp Hd. unfold ValidateScenario in H |- *.
  set (s1 := s <| scn_Workload := _ |>) in H. change (scn_SimulationLimits s1) with (scn_SimulationLimits s) in H.
  change (scn_Hosts s1) with (scn_Hosts s) in H. change (scn_Services s1) with (scn_Services s) in H.
  apply go_bind_ok in H as ([] & Hlim & H). apply go_bind_ok in H as ([] & Hh & H).
  apply go_bind_ok in H as (hs & Hhosts & H). apply go_bind_ok in H as ([] & Hs & H).
  apply go_bind_ok in H as (ids & Hsvcs & H). apply go_bind_ok in H as ([] & Hq & H).
  apply go_bind_ok in H as ([] & Ht & H). apply go_bind_ok in H as ([] & Hds & H).
  apply go_bind_ok in H as ([] & _ & H). apply go_bind_ok in H as (wls & Hwls & _).
  change (scn_Workload s1) with (before ++ [wl <| wl_To := to |>]) in Hwls. rewrite go_fold_app in Hwls.
  apply go_bind_ok in Hwls as (st & Hst & Hwl). cbn [go_fold] in Hwl. apply go_bind_ok in Hwl as (st' & Hwl & _).
  destruct (go_fold_collect _ _ _ check_service_ok _ _ _ Hsvcs) as (_ & _ & _ & Hids). rewrite (right_id_L ∅ (∪)) in Hids.
  assert (Hx : ∀ x, x ∈ ids ↔ x ∈ svc_ID <$> scn_Services s) by (intros x; rewrite Hids; apply elem_of_list_to_set).
  destruct (dangling_target _ ids st wl to svc path st' Hwl Hp) as (err & E & Et); [by rewrite Hx|].
  exists err, ids. rewrite (check_workloads_count _ _ _ _ _ _ Hst), Z.add_0_l in Et. split_and!; [|done|done].
  rewrite Hlim. cbn [go_bind]. rewrite Hh. cbn [go_bind]. rewrite Hhosts. cbn [go_bind]. rewrite Hs. cbn [go_bind]. rewrite Hsvcs.
  cbn [go_bind]. cbv zeta. rewrite Hq. cbn [go_bind]. rewrite Ht. cbn [go_bind]. rewrite Hds. cbn [go_bind].
  replace (match scn_Workload s with [] => true | _ => false end) with false by (rewrite Hw; by destruct before).
  cbn [fail_if go_bind]. rewrite Hw, go_fold_app, Hst. cbn [go_bind go_fold]. by rewrite E.
Qed.
(** C30: a dangling workload target is located. If a scenario (with no colon in service IDs) would be valid with
    another target in one workload pattern and without the patterns after it, but that target, of a service and a path without blanks, names no endpoint of
    the scenario, then validation fails and the preflight reports one error at the pattern's index, with the code and the message for an unknown service or
    for a missing endpoint of a known service. *)
Theorem workload_issue_located unmarshal clock text s before wl after to svc path s0 :
  unmarshal text = Ok s → scn_Workload s = before ++ wl :: after →
  ValidateScenario (s <| scn_Workload := before ++ [wl <| wl_To := to |>] |>) = Ok s0 →
  Forall (λ svc, no_colon (svc_ID svc)) (scn_Services s) →
  parseDownstreamTargetForValidation (wl_To wl) = Ok (svc, path) → ¬ resolves (scn_Services s) (wl_To wl) →
  word not_space svc = true → word not_space path = true →
  let at_pattern := "workload[" +:+ Itoa (len before) +:+ "].to" in
  let issue :=
    if bool_decide (svc ∈ svc_ID <$> scn_Services s)
    then mkIssue "UNKNOWN_WORKLOAD_ENDPOINT"
           ("workload target " +:+ svc +:+ ":" +:+ path +:+ " references missing endpoint " +:+ path +:+ " on service " +:+ svc) at_pattern "" ""
    else mkIssue "UNKNOWN_WORKLOAD_SERVICE" ("workload target references unknown service " +:+ svc) at_pattern "" "" in
  (∃ err, ValidateScenario s = Fail err) ∧
  ValidateScenarioPreflight unmarshal clock text
  = Ok (mkValidation false [issue] [] (Some (mkSummary (len (scn_Hosts s)) (len (scn_Services s)) (len (scn_Workload s))))).
Proof.
  intros Hu Hw H0 Hc Hp Hr Hsvc Hpath. cbv zeta.
  assert (Hd : svc +:+ ":" +:+ path ∉ endpoint_refs (scn_Services s)).
  { intros (svc' & ep & Hin & He & Hk)%elem_of_endpoint_refs. apply Hr. rewrite Forall_forall in Hc.
    apply no_colon_key_inj in Hk as [-> ->]; [by exists svc', ep|by eapply parse_target_no_colon|by apply Hc]. }
  destruct (validate_dangling s before wl after to svc path s0 H0 Hw Hp) as (err & ids & E & Hids & Et); [by right|].
  assert (Hcolon : word (not_char ":") svc = true).
  { apply colon_free; [by eapply parse_target_no_colon|]. unfold word in Hsvc. by destruct svc. }
  apply target_issue in Et; [|unfold len; lia|done..]. split; [by exists err|].
  unfold ValidateScenarioPreflight. rewrite Hu, E, Et. rewrite (bool_decide_ext (svc ∈ ids) (svc ∈ svc_ID <$> scn_Services s)) by apply Hids.
  unfold workload_path, missing_on, unknown.
  destruct (bool_decide (svc ∈ svc_ID <$> scn_Services s)); by rewrite ?append_assoc.
Qed.

(** * Concrete scenarios *)

Definition sample_verdict : ScenarioValidationResult := mkValidation true [] [] None.
(** A service that calls itself. *)
Definition loop_scenario : Scenario :=
  mkScenario None None None [mkHostSpec "h1" 4 16 "z1" ∅]
    [sample_service "svc" "service" None [sample_endpoint "/" [sample_call "svc:/" "rest"]]]
    [(sample_workload "svc:/") <| wl_Arrival := mkArrival "constant" f1 f0 f0 f0 f0 |>] None.
Definition no_draws : RandSource := mkRandSource (λ _, f0) (λ _, f0) (λ _, f0).
(** The preflight answers 200 for it, and the set-up of every run fails. *)
Example preflight_accepts_cycle :
  ValidateScenarioPreflight (λ _, Ok loop_scenario) (λ _, 0) "scn" = Ok sample_verdict
  ∧ scenarioValidateHTTPStatus sample_verdict = StatusOK
  ∧ run_setup (λ _, Ok loop_scenario) (λ _, 0) ["svc:/"] "run" no_draws 0 (10 * Second) false "scn"
    = Some (Fail "scenario state creation failed: failed to create interaction manager: failed to create service graph: service graph contains synchronous cycles: cycle detected: svc:/ -> svc:/").
Proof. split_and!; vm_compute; reflexivity. Qed.
(** The second pattern of the sample names a path that the gateway does not have. *)
Definition dangling_scenario : Scenario :=
  sample_scenario <| scn_Workload := [sample_workload "gw"; sample_workload "gw:/nope"; sample_workload "gw"] |>.
Lemma workload_issue_located_witness :
  ValidateScenarioPreflight (λ _, Ok dangling_scenario) (λ _, 0) "scn"
  = Ok (mkValidation false [mkIssue "UNKNOWN_WORKLOAD_ENDPOINT" "workload target gw:/nope references missing endpoint /nope on service gw"
      "workload[1].to" "" ""] [] (Some (mkSummary 1 3 3))).
Proof.
  assert (H0 : ∃ s0, ValidateScenario (dangling_scenario <| scn_Workload := [sample_workload "gw"] ++ [(sample_workload "gw:/nope") <| wl_To := "gw" |>] |>) = Ok s0)
    by (eexists; vm_compute; reflexivity). destruct H0 as [s0 H0].
  assert (Hr : ¬ resolves (scn_Services dangling_scenario) (wl_To (sample_workload "gw:/nope"))).
  { intros (svc & ep & Hs & He & Hp). vm_compute in Hp. injection Hp as Hid Hpath. cbn in Hs.
    repeat (apply elem_of_cons in Hs as [->|Hs]; [cbn in He, Hid, Hpath; repeat (apply elem_of_cons in He as [->|He]; [cbn in Hpath; (discriminate Hpath || discriminate Hid)|]);
      by apply not_elem_of_nil in He|]). by apply not_elem_of_nil in Hs. }
  exact (proj2 (workload_issue_located (λ _, Ok dangling_scenario) (λ _, 0) "scn" dangling_scenario [sample_workload "gw"] (sample_workload "gw:/nope")
    [sample_workload "gw"] "gw" "gw" "/nope" s0 eq_refl eq_refl H0 ltac:(repeat constructor) eq_refl Hr eq_refl eq_refl)).
Defined.
