(* ===== verification/Notifier.v ===== *)
(** Callbacks ([internal/simd/notifier.go]): which URLs may be called, what is sent, and how often it is tried. *)
From S2P Require Import Prelude GoFloat Utils Policy Config Graph BatchSpec BrokerQueue ResourceManager RunMetrics RunStore RunConfig OnlineController Orchestrator Server HttpJson HttpServer.
From Stdlib Require Import SpecFloat.
#[local] Open Scope string_scope.
#[local] Open Scope list_scope.
#[local] Open Scope Z_scope.

(** * Addresses *)

(** [net.IP]: four or sixteen bytes. *)
Definition IP : Type := list Z.
Definition byte (ip : IP) (i : nat) : Z := nth i ip 0.
Definition v4_in_v6 (ip : IP) : bool := forallb (Z.eqb 0) (take 10 ip) && (byte ip 10 =? 255) && (byte ip 11 =? 255).
Definition To4 (ip : IP) : option IP :=
  if len ip =? 4 then Some ip else if (len ip =? 16) && v4_in_v6 ip then Some (drop 12 ip) else None.
Definition IPv6loopback : IP := replicate 15 0 ++ [1].
Definition IsLoopback (ip : IP) : bool :=
  match To4 ip with Some ip4 => byte ip4 0 =? 127 | None => bool_decide (ip = IPv6loopback) end.
Definition IsLinkLocalUnicast (ip : IP) : bool :=
  match To4 ip with
  | Some ip4 => (byte ip4 0 =? 169) && (byte ip4 1 =? 254)
  | None => (len ip =? 16) && (byte ip 0 =? 254) && (Z.land (byte ip 1) 192 =? 128)
  end.
Definition IsLinkLocalMulticast (ip : IP) : bool :=
  match To4 ip with
  | Some ip4 => (byte ip4 0 =? 224) && (byte ip4 1 =? 0) && (byte ip4 2 =? 0)
  | None => (len ip =? 16) && (byte ip 0 =? 255) && (Z.land (byte ip 1) 15 =? 2)
  end.
Definition isPrivateIP (ip : IP) : bool :=
  match To4 ip with
  | Some ip4 =>
      (byte ip4 0 =? 10) || ((byte ip4 0 =? 172) && (16 <=? byte ip4 1) && (byte ip4 1 <=? 31))
      || ((byte ip4 0 =? 192) && (byte ip4 1 =? 168)) || ((byte ip4 0 =? 169) && (byte ip4 1 =? 254)) || (byte ip4 0 =? 127)
  | None =>
      if IsLoopback ip || IsLinkLocalUnicast ip || IsLinkLocalMulticast ip then true
      else if len ip =? 16 then (byte ip 0 =? 252) || (byte ip 0 =? 253) else false
  end.

(** * Callback URLs *)

Definition ErrInvalidURL : string := "invalid URL format".
Definition ErrInternalHost : string := "callback URL cannot target internal/private networks".
Definition ErrMetadataEndpoint : string := "callback URL cannot target metadata endpoints".
(** What the check uses of a parsed URL. *)
Record URL := mkURL { url_Scheme : string; url_Hostname : string }.
Definition metadataHosts : list string := ["169.254.169.254"; "metadata.google.internal"; "metadata"].
Definition is_metadata (host : string) : bool := existsb (λ b, String.eqb host b || HasPrefix host (b +:+ ".")) metadataHosts.
Definition whitelist_set (whitelist : list string) : gset string :=
  foldl (λ s e, let e := TrimSpace (ToLower e) in if is_empty e then s else {[e]} ∪ s) ∅ whitelist.
Section Callback.
(** [url.Parse], the resolver and [IP.String]. *)
Context (url_Parse : string → go URL) (LookupIP : string → go (list IP)) (IP_String : IP → string).
Definition blocked (ip : IP) : bool := isPrivateIP ip && negb (IsLoopback ip).
Definition validateCallbackURL (callbackURL : string) (whitelist : list string) : go unit :=
  let! u := wrap_err (ErrInvalidURL +:+ ": ") (url_Parse callbackURL) in
  fail_if (negb (String.eqb (url_Scheme u) "http") && negb (String.eqb (url_Scheme u) "https"))
    (ErrInvalidURL +:+ ": only http and https schemes are allowed, got " +:+ url_Scheme u) ;;!
  let host := url_Hostname u in
  fail_if (is_empty host) (ErrInvalidURL +:+ ": missing hostname") ;;!
  let hostLower := ToLower host in
  let set := whitelist_set whitelist in
  fail_if (is_metadata hostLower) (ErrMetadataEndpoint +:+ ": metadata endpoint blocked") ;;!
  if bool_decide (hostLower ∈ set) then Ok tt
  else
    fail_if (String.eqb hostLower "0.0.0.0" || String.eqb hostLower "::") (ErrInternalHost +:+ ": wildcard addresses are not allowed") ;;!
    fail_if (String.eqb hostLower "127.0.0.1" || String.eqb hostLower "::1")
      (ErrInternalHost +:+ ": direct loopback IP addresses are not allowed (use localhost hostname for development)") ;;!
    let! ips := wrap_err (ErrInternalHost +:+ ": failed to resolve hostname: ") (LookupIP host) in
    if existsb (λ ip, bool_decide (IP_String ip ∈ set)) ips then Ok tt
    else
      match List.find blocked ips with
      | Some ip => Fail (ErrInternalHost +:+ ": hostname resolves to private IP: " +:+ IP_String ip)
      | None => Ok tt
      end.

(** * What is sent *)

Record NotificationPayload := mkPayload {
  np_RunID : string;
  np_Status : Status;
  np_StatusString : string;
  np_CreatedAtUnixMs : Z;
  np_StartedAtUnixMs : Z;
  np_EndedAtUnixMs : Z;
  np_Error : string;
  np_Metrics : option RunMetrics;
  np_Timestamp : Z;
  np_BestRunID : string;
  np_BestScore : option float64;
  np_Iterations : option Z;
  np_TopCandidates : list string;
  np_FinalConfig : option json;
  np_Resources : option json;
}.
(** [strings.ReplaceAll] for a text that is not empty; [skip] characters belong to the last occurrence. *)
Fixpoint replace_from (old new : string) (skip : nat) (s : string) : string :=
  match s with
  | EmptyString => EmptyString
  | String c s' =>
      match skip with
      | S k => replace_from old new k s'
      | O => if String.prefix old s then new +:+ replace_from old new (String.length old - 1) s' else String c (replace_from old new 0 s')
      end
  end.
Definition ReplaceAll (s old new : string) : string := replace_from old new 0 s.
Definition maxCandidatesInCallback : nat := 5.
(** [n.Notify]: the call that it leaves to a goroutine, if any. *)
Definition Notifier_Notify (env : Env) (whitelist : list string) (callbackURL callbackSecret : string) (rec : option Record_) (resources : option json)
    : option (string * string * NotificationPayload) :=
  if is_empty callbackURL then None
  else
    match rec with
    | None => None
    | Some rec =>
        let run := rr_Run rec in
        let finalURL := ReplaceAll callbackURL "{run_id}" (run_Id run) in
        match validateCallbackURL finalURL whitelist with
        | Ok _ =>
            let best := negb (is_empty (run_BestRunId run)) in
            let scen := input_scenario env (rr_Input rec) in
            Some (finalURL, callbackSecret,
              mkPayload (run_Id run) (rr_Status rec) (status_String (rr_Status rec)) (run_CreatedAtUnixMs run) (run_StartedAtUnixMs run)
                (run_EndedAtUnixMs run) (run_Error run) (rr_Metrics rec) (env_now env)
                (if best then run_BestRunId run else "") (if best then Some (run_BestScore run) else None)
                (if best then Some (run_Iterations run) else None) (if best then take maxCandidatesInCallback (run_CandidateRunIds run) else [])
                ((λ cfg, convertRunConfigurationToJSON cfg scen) <$> final_config rec) resources)
        | _ => None
        end
    end.
End Callback.

(** * Sending *)

(** How one attempt ends. *)
Inductive Attempt := RequestFailed | TransportFailed | BodyFailed | Responded (status : Z).
Definition succeeded (a : Attempt) : bool := match a with Responded st => (200 <=? st) && (st <? 300) | _ => false end.
(** Doubling [n] times, while the multiplier is below [2^31]. *)
Fixpoint doubled (n : nat) (multiplier : Z) : Z :=
  match n with O => multiplier | S n => if multiplier <? 2 ^ 31 then doubled n (multiplier * 2) else multiplier end.
Definition retry_delay (baseDelay : Duration) (attempt : nat) : Duration :=
  match attempt with O => 0 | S n => wrap64 (baseDelay * doubled n 1) end.
(** The attempts made, each with the delay before it, and whether the last was a success. *)
Fixpoint try_from (post : nat → Attempt) (baseDelay : Duration) (remaining attempt : nat) : list (Duration * Attempt) * bool :=
  let a := post attempt in
  let d := retry_delay baseDelay attempt in
  if succeeded a then ([(d, a)], true)
  else match remaining with
       | O => ([(d, a)], false)
       | S remaining => let '(l, ok) := try_from post baseDelay remaining (S attempt) in ((d, a) :: l, ok)
       end.
Definition maxRetries : nat := 3.
Definition baseDelay : Duration := Second.
(** A payload that cannot be encoded is not sent. *)
Definition Notifier_sendNotification (marshals : bool) (post : nat → Attempt) : list (Duration * Attempt) * bool :=
  if marshals then try_from post baseDelay maxRetries 0 else ([], false).

(** * Safety of callbacks *)

(** An address, as bytes of a resolver and as a number. *)
Definition address (ip : IP) : Prop := (length ip = 4%nat ∨ length ip = 16%nat) ∧ Forall (λ b, 0 ≤ b < 256) ip.
Definition number (bytes : list Z) : Z := foldl (λ n b, n * 256 + b) 0 bytes.
Definition within (lo hi : list Z) (n : Z) : Prop := number lo ≤ n ≤ number hi.
(** The IPv4 address that [ip] is, as such or mapped into IPv6 ([::ffff:0:0/96]). *)
Definition as_v4 (ip : IP) : option Z :=
  if decide (length ip = 4%nat) then Some (number ip)
  else if decide (number (take 12 ip) = 65535) then Some (number (drop 12 ip)) else None.
(** 10.0.0.0/8, 172.16.0.0/12, 192.168.0.0/16 and 169.254.0.0/16. *)
Definition internal4 (n : Z) : Prop :=
  within [10; 0; 0; 0] [10; 255; 255; 255] n ∨ within [172; 16; 0; 0] [172; 31; 255; 255] n
  ∨ within [192; 168; 0; 0] [192; 168; 255; 255] n ∨ within [169; 254; 0; 0] [169; 254; 255; 255] n.
(** fc00::/7, fe80::/10 and, for every value of the flags, the multicast addresses of the link. *)
Definition internal6 (n : Z) : Prop :=
  within (252 :: replicate 15 0) (253 :: replicate 15 255) n
  ∨ within (254 :: 128 :: replicate 14 0) (254 :: 191 :: replicate 14 255) n
  ∨ ∃ flags, 0 ≤ flags < 16 ∧ within (255 :: 16 * flags + 2 :: replicate 14 0) (255 :: 16 * flags + 2 :: replicate 14 255) n.
Definition internal (ip : IP) : Prop := match as_v4 ip with Some n => internal4 n | None => internal6 (number ip) end.

Lemma number_from l : ∀ n, foldl (λ n b, n * 256 + b) n l = n * 256 ^ len l + number l.
Proof.
  unfold number, len. induction l as [|x l IH]; intros n; [simpl; lia|]. cbn [foldl]. rewrite (IH (n * 256 + x)), (IH (0 * 256 + x)).
  replace (Z.of_nat (length (x :: l))) with (Z.of_nat (length l) + 1) by (simpl; lia). rewrite Z.pow_add_r by lia. lia.
Qed.
Lemma number_cons x l : number (x :: l) = x * 256 ^ len l + number l.
Proof. unfold number at 1. cbn [foldl]. by rewrite number_from. Qed.
Lemma number_app l k : number (l ++ k) = number l * 256 ^ len k + number k.
Proof. unfold number at 1. rewrite foldl_app, number_from. done. Qed.
Lemma number_bound l : Forall (λ b, 0 ≤ b < 256) l → 0 ≤ number l < 256 ^ len l.
Proof.
  induction 1 as [|x l Hx _ IH]; [done|]. rewrite number_cons. unfold len in *.
  replace (Z.of_nat (length (x :: l))) with (Z.of_nat (length l) + 1) by (simpl; lia). rewrite Z.pow_add_r by lia. nia.
Qed.
(** A statement about a byte, tried on all of them. *)
Lemma byte_cases (P : Z → bool) b : forallb P (seqZ 0 256) = true → 0 ≤ b < 256 → P b = true.
Proof. intros H Hb. rewrite forallb_forall in H. apply H, list_elem_of_In, elem_of_seqZ. lia. Qed.
Lemma blocked_v4 a b c d : Forall (λ b, 0 ≤ b < 256) [a; b; c; d] → blocked [a; b; c; d] = true ↔ internal4 (number [a; b; c; d]).
Proof.
  rewrite !Forall_cons. intros (Ha & Hb & Hc & Hd & _). unfold blocked, isPrivateIP, IsLoopback, To4. cbn [len length Z.of_nat Z.eqb byte nth].
  change (len [a; b; c; d] =? 4) with true. cbv iota. cbn [byte nth]. unfold internal4, within, number. cbn [foldl].
  rewrite andb_true_iff, !orb_true_iff, !andb_true_iff, negb_true_iff, !Z.eqb_eq, Z.eqb_neq, !Z.leb_le. lia.
Qed.
Lemma link_unicast b : 0 ≤ b < 256 → (Z.land b 192 =? 128) = true ↔ 128 ≤ b ≤ 191.
Proof.
  intros Hb. assert (H : Bool.eqb (Z.land b 192 =? 128) ((128 <=? b) && (b <=? 191)) = true)
    by (apply (byte_cases (λ b, Bool.eqb (Z.land b 192 =? 128) ((128 <=? b) && (b <=? 191)))); [vm_compute; reflexivity|done]).
  apply eqb_prop in H. rewrite H, andb_true_iff, !Z.leb_le. done.
Qed.
Lemma link_multicast b : 0 ≤ b < 256 → (Z.land b 15 =? 2) = true ↔ ∃ flags, 0 ≤ flags < 16 ∧ b = 16 * flags + 2.
Proof.
  intros Hb. assert (H : Bool.eqb (Z.land b 15 =? 2) (b mod 16 =? 2) = true)
    by (apply (byte_cases (λ b, Bool.eqb (Z.land b 15 =? 2) (b mod 16 =? 2))); [vm_compute; reflexivity|done]).
  apply eqb_prop in H. rewrite H, Z.eqb_eq. split; [|intros (f & Hf & ->); symmetry; apply (Z.mod_unique _ _ f); lia].
  intros Hm. exists (b / 16). split; [|pose proof (Z.div_mod b 16); lia]. split; [apply Z.div_pos; lia|apply Z.div_lt_upper_bound; lia].
Qed.
(** Ranges of the first two bytes. *)
Lemma within_two a b c d x y rest : Forall (λ b, 0 ≤ b < 256) rest → length rest = 14%nat →
  within (a :: b :: replicate 14 0) (c :: d :: replicate 14 255) (number (x :: y :: rest)) ↔ a * 256 + b ≤ x * 256 + y ≤ c * 256 + d.
Proof.
  intros Hr Hl. pose proof (number_bound rest Hr) as Hn. unfold within. rewrite !number_cons.
  change (number (replicate 14 0)) with 0. change (number (replicate 14 255)) with (256 ^ 14 - 1).
  change (len (b :: replicate 14 0)) with 15. change (len (d :: replicate 14 255)) with 15.
  change (len (replicate 14 0)) with 14. change (len (replicate 14 255)) with 14.
  unfold len in *. cbn [length]. rewrite Hl in *. change (Z.of_nat 15) with 15. change (Z.of_nat 14) with 14 in *.
  change (256 ^ 15) with (256 * 256 ^ 14). assert (0 < 256 ^ 14) by reflexivity. generalize dependent (256 ^ 14). intros P Hn HP.
  assert (E1 : a * (256 * P) + (b * P + 0) = (a * 256 + b) * P) by ring.
  assert (E2 : x * (256 * P) + (y * P + number rest) = (x * 256 + y) * P + number rest) by ring.
  assert (E3 : c * (256 * P) + (d * P + (P - 1)) = (c * 256 + d + 1) * P - 1) by ring.
  rewrite E1, E2, E3. nia.
Qed.
Lemma blocked_v6 x y rest : Forall (λ b, 0 ≤ b < 256) (x :: y :: rest) → length rest = 14%nat → To4 (x :: y :: rest) = None →
  blocked (x :: y :: rest) = true ↔ internal6 (number (x :: y :: rest)).
Proof.
  rewrite !Forall_cons. intros (Hx & Hy & Hr) Hl H4. unfold internal6.
  change (252 :: replicate 15 0) with (252 :: 0 :: replicate 14 0). change (253 :: replicate 15 255) with (253 :: 255 :: replicate 14 255).
  setoid_rewrite within_two; [|done..]. unfold blocked, isPrivateIP, IsLoopback, IsLinkLocalUnicast, IsLinkLocalMulticast. rewrite H4.
  cbn [byte nth]. assert (len (x :: y :: rest) = 16) as -> by (unfold len; simpl; lia). cbn [Z.eqb Pos.eqb andb].
  pose proof (link_unicast y Hy) as Hu. pose proof (link_multicast y Hy) as Hm.
  match goal with |- context [bool_decide ?P] => destruct (bool_decide P) eqn:El end; cbn [orb negb andb].
  - apply bool_decide_eq_true in El. apply (f_equal (λ l, nth 0 l 0)) in El. change (x = 0) in El. subst x. split; [done|].
    intros [?|[?|(f & ? & ?)]]; lia.
  - rewrite andb_true_r. destruct (Z.eqb_spec x 254) as [E1|Hx1], (Z.eqb_spec x 255) as [E2|Hx2]; try lia; try subst x; cbn [andb orb].
    + rewrite orb_false_r. destruct (Z.land y 192 =? 128); cbn.
      * split; [intros _|done]. right; left. destruct Hu as [Hu _]. specialize (Hu eq_refl). lia.
      * split; [done|]. intros [?|[?|(f & ? & ?)]]; [lia|apply Hu; lia|lia].
    + destruct (Z.land y 15 =? 2); cbn.
      * split; [intros _|done]. destruct Hm as [Hm _]. destruct (Hm eq_refl) as (f & Hf & ->). right; right. exists f. lia.
      * split; [done|]. intros [?|[?|(f & Hf & ?)]]; [lia|lia|]. apply Hm. exists f. lia.
    + rewrite orb_true_iff, !Z.eqb_eq. split; [left; lia|]. intros [?|[?|(f & ? & ?)]]; lia.
Qed.
Lemma number_zero l : Forall (λ b, 0 ≤ b < 256) l → forallb (Z.eqb 0) l = true ↔ number l = 0.
Proof.
  induction 1 as [|x l Hx Hl IH]; [done|]. rewrite number_cons. cbn [forallb]. rewrite andb_true_iff, IH, Z.eqb_eq.
  pose proof (number_bound l Hl). assert (0 < 256 ^ len l) by (apply Z.pow_pos_nonneg; unfold len; lia). nia.
Qed.
Lemma mapped_v4 ip : length ip = 16%nat → Forall (λ b, 0 ≤ b < 256) ip →
  v4_in_v6 ip = true ↔ number (take 12 ip) = 65535.
Proof.
  intros Hl Hb. assert (H10 : Forall (λ b, 0 ≤ b < 256) (take 10 ip)) by by apply Forall_take.
  assert (E : take 12 ip = take 10 ip ++ [byte ip 10; byte ip 11]) by (do 12 (destruct ip as [|? ip]; [done|]); done).
  assert (Hbytes : 0 ≤ byte ip 10 < 256 ∧ 0 ≤ byte ip 11 < 256).
  { rewrite Forall_forall in Hb. split; apply Hb; apply list_elem_of_In; apply nth_In; lia. }
  unfold v4_in_v6. rewrite !andb_true_iff, number_zero, !Z.eqb_eq, E, number_app by done. pose proof (number_bound _ H10).
  change (len [byte ip 10; byte ip 11]) with 2. unfold number at 3. cbn [foldl]. lia.
Qed.
Lemma blocked_internal ip : address ip → blocked ip = true ↔ internal ip.
Proof.
  intros [Hl Hb]. unfold internal, as_v4. destruct Hl as [Hl|Hl].
  - rewrite decide_True by done. destruct ip as [|a [|b [|c [|d [|]]]]]; try done. by apply blocked_v4.
  - rewrite decide_False by (rewrite Hl; done). pose proof (mapped_v4 ip Hl Hb) as Hm.
    assert (H4 : To4 ip = if v4_in_v6 ip then Some (drop 12 ip) else None) by (unfold To4, len; by rewrite Hl).
    destruct (decide (number (take 12 ip) = 65535)) as [E|E].
    + rewrite <- Hm in E. rewrite E in H4.
      assert (Hd : length (drop 12 ip) = 4%nat) by (rewrite length_drop; lia). assert (Hbd : Forall (λ b, 0 ≤ b < 256) (drop 12 ip)) by by apply Forall_drop.
      replace (blocked ip) with (blocked (drop 12 ip)); [destruct (drop 12 ip) as [|a [|b [|c [|d [|]]]]]; try done; by apply blocked_v4|].
      assert (H4' : To4 (drop 12 ip) = Some (drop 12 ip)) by (unfold To4, len; by rewrite Hd).
      unfold blocked, isPrivateIP, IsLoopback. by rewrite H4, H4'.
    + destruct (v4_in_v6 ip); [by destruct E; apply Hm|]. destruct ip as [|x [|y rest]]; try done. apply blocked_v6; [done|simpl in Hl; lia|done].
Qed.

(** ** Hosts *)

(** A metadata service: by its address or one of its names, alone or followed by a dot. *)
Definition metadata_host (h : string) : Prop :=
  ∃ name, name ∈ ["169.254.169.254"; "metadata.google.internal"; "metadata"] ∧ (h = name ∨ ∃ rest, h = name +:+ "." +:+ rest).
(** The operator has put it on the list, up to case and blanks. *)
Definition listed (whitelist : list string) (h : string) : Prop := h ≠ "" ∧ ∃ e, e ∈ whitelist ∧ h = TrimSpace (ToLower e).
Lemma prefix_append s p : HasPrefix s p = true ↔ ∃ rest, s = p +:+ rest.
Proof.
  unfold HasPrefix. revert s. induction p as [|c p IH]; intros s.
  - split; [intros _; by exists s|by destruct s].
  - destruct s as [|d s]; [split; [done|by intros [? [=]]]|]. cbn [String.prefix]. destruct (ascii_dec c d) as [->|Hne].
    + rewrite IH. split; intros [rest E]; exists rest; [by rewrite E|by injection E].
    + split; [done|]. intros [rest [= ? ?]]. congruence.
Qed.
Lemma is_metadata_spec h : is_metadata h = true ↔ metadata_host h.
Proof.
  unfold is_metadata, metadata_host. rewrite existsb_exists. split.
  - intros (b & Hb & H). exists b. split; [by apply list_elem_of_In|]. apply orb_true_iff in H as [H%String.eqb_eq|[rest ->]%prefix_append]; [by left|].
    right. exists rest. by rewrite (append_assoc b "." rest).
  - intros (name & Hn & H). exists name. split; [by apply list_elem_of_In|]. apply orb_true_iff. destruct H as [->|[rest ->]]; [left; by apply String.eqb_eq|right].
    apply prefix_append. exists rest. by rewrite (append_assoc name "." rest).
Qed.
Lemma whitelist_listed whitelist h : h ∈ whitelist_set whitelist ↔ listed whitelist h.
Proof.
  unfold whitelist_set, listed. cut (∀ s : gset string, h ∈ foldl (λ s e, let e := TrimSpace (ToLower e) in if is_empty e then s else {[e]} ∪ s) s whitelist
    ↔ h ∈ s ∨ (h ≠ "" ∧ ∃ e, e ∈ whitelist ∧ h = TrimSpace (ToLower e))); [intros ->; set_solver|].
  induction whitelist as [|e l IH]; intros s; [simpl; set_solver|]. cbn [foldl]. rewrite IH. cbv zeta.
  destruct (is_empty (TrimSpace (ToLower e))) eqn:E; [apply is_empty_true in E|apply is_empty_false in E]; set_solver.
Qed.
Section Safety.
Context (url_Parse : string → go URL) (LookupIP : string → go (list IP)) (IP_String : IP → string).
(** The resolver gives addresses. *)
Context (resolver : ∀ host ips, LookupIP host = Ok ips → Forall address ips).
(** A URL of one of the two schemes with a host that is not a metadata service, and that either the operator has
    listed, or is not written as a wildcard or loopback address and resolves, to a listed address or
    to no internal one (other loopback addresses are allowed). *)
Definition may_call (whitelist : list string) (target : string) : Prop :=
  ∃ u, url_Parse target = Ok u ∧ (url_Scheme u = "http" ∨ url_Scheme u = "https") ∧ url_Hostname u ≠ ""
  ∧ let host := ToLower (url_Hostname u) in
    ¬ metadata_host host
    ∧ (listed whitelist host
       ∨ host ≠ "0.0.0.0" ∧ host ≠ "::" ∧ host ≠ "127.0.0.1" ∧ host ≠ "::1"
         ∧ ∃ ips, LookupIP (url_Hostname u) = Ok ips
           ∧ ((∃ ip, ip ∈ ips ∧ listed whitelist (IP_String ip)) ∨ ∀ ip, ip ∈ ips → ¬ internal ip)).
Lemma addresses_checked (set : gset string) ips (whitelist : list string) : (∀ h, h ∈ set ↔ listed whitelist h) → Forall address ips →
  (if existsb (λ ip, bool_decide (IP_String ip ∈ set)) ips then Ok tt
   else match List.find blocked ips with
        | Some ip => Fail (ErrInternalHost +:+ ": hostname resolves to private IP: " +:+ IP_String ip)
        | None => Ok tt
        end) = Ok tt
  ↔ (∃ ip, ip ∈ ips ∧ listed whitelist (IP_String ip)) ∨ ∀ ip, ip ∈ ips → ¬ internal ip.
Proof.
  intros Hset Ha. rewrite Forall_forall in Ha. destruct (existsb _ ips) eqn:Ee.
  - split; [intros _|done]. left. apply existsb_exists in Ee as (ip & Hin & Hip%bool_decide_eq_true). exists ip. by rewrite <- Hset, list_elem_of_In.
  - destruct (List.find blocked ips) as [ip|] eqn:Ef.
    + apply List.find_some in Ef as [Hin%list_elem_of_In Hb]. rewrite blocked_internal in Hb by by apply Ha. split; [done|].
      intros [(ip' & Hin' & Hl)|H]; [|by destruct (H ip)]. rewrite <- not_true_iff_false in Ee. destruct Ee. apply existsb_exists. exists ip'.
      split; [by apply list_elem_of_In|]. by apply bool_decide_eq_true, Hset.
    + split; [intros _|done]. right. intros ip Hin Hi%blocked_internal; [|by apply Ha].
      apply List.find_none with (x := ip) in Ef; [congruence|by apply list_elem_of_In].
Qed.
Lemma validate_may_call target whitelist :
  validateCallbackURL url_Parse LookupIP IP_String target whitelist = Ok tt ↔ may_call whitelist target.
Proof.
  pose proof (whitelist_listed whitelist) as Hset. unfold validateCallbackURL, may_call. cbv zeta.
  generalize dependent (whitelist_set whitelist). intros set Hset. split.
  - intros H. apply go_bind_ok in H as (u & Hu%wrap_err_ok & H). apply go_bind_ok in H as (_ & Hs%fail_if_ok & H).
    apply go_bind_ok in H as (_ & Hh%fail_if_ok & H). apply go_bind_ok in H as (_ & Hm%fail_if_ok & H).
    exists u. split; [done|]. split.
    { apply andb_false_iff in Hs as [Hs|Hs]; apply negb_false_iff, String.eqb_eq in Hs; auto. }
    split; [by apply is_empty_false|]. split; [rewrite <- is_metadata_spec; congruence|].
    case_bool_decide as Hin; [left; by apply Hset|right].
    apply go_bind_ok in H as (_ & [H1 H2]%fail_if_ok%orb_false_iff & H). apply go_bind_ok in H as (_ & [H3 H4]%fail_if_ok%orb_false_iff & H).
    apply go_bind_ok in H as (ips & Hl%wrap_err_ok & H). apply String.eqb_neq in H1, H2, H3, H4. split_and!; [done..|].
    exists ips. split; [done|]. by apply (addresses_checked set ips whitelist Hset (resolver _ _ Hl)).
  - intros (u & Hu & Hs & Hh & Hm & H). rewrite Hu. cbn [wrap_err go_bind].
    assert (Hs' : negb (String.eqb (url_Scheme u) "http") && negb (String.eqb (url_Scheme u) "https") = false) by (destruct Hs as [-> | ->]; done).
    rewrite <- is_metadata_spec, not_true_iff_false in Hm. apply is_empty_false in Hh.
    rewrite Hs', Hh, Hm. cbn [fail_if go_bind]. case_bool_decide as Hin; [done|].
    destruct H as [H|(H1 & H2 & H3 & H4 & ips & Hl & H)]; [by apply Hset in H|].
    apply String.eqb_neq in H1, H2, H3, H4. rewrite H1, H2, H3, H4, Hl. cbn [orb fail_if go_bind wrap_err].
    by apply (addresses_checked set ips whitelist Hset (resolver _ _ Hl)).
Qed.
(** C28: a callback is sent exactly for a URL that may be called: the run's ID is put into the template, and the result must be an http or https URL whose
    host is not a metadata service, and is on the operator's list or else is neither 0.0.0.0, ::, 127.0.0.1 nor ::1 and resolves to a listed address or
    to no address in 10/8, 172.16/12, 192.168/16, 169.254/16, fc00::/7, fe80::/10 or the link's multicast range. It carries the caller's secret and the run with
    its status, error, metrics and times, and, if there is a best run, that run with its score and the first five candidates. *)
Theorem callback_safe env whitelist callbackURL secret (rec : Record_) resources :
  let run := rr_Run rec in
  let target := ReplaceAll callbackURL "{run_id}" (run_Id run) in
  match Notifier_Notify url_Parse LookupIP IP_String env whitelist callbackURL secret (Some rec) resources with
  | Some (u, s, p) =>
      callbackURL ≠ "" ∧ may_call whitelist target ∧ u = target ∧ s = secret
      ∧ np_RunID p = run_Id run ∧ np_Status p = rr_Status rec ∧ np_Error p = run_Error run ∧ np_Metrics p = rr_Metrics rec
      ∧ np_CreatedAtUnixMs p = run_CreatedAtUnixMs run ∧ np_StartedAtUnixMs p = run_StartedAtUnixMs run ∧ np_EndedAtUnixMs p = run_EndedAtUnixMs run
      ∧ np_BestRunID p = run_BestRunId run
      ∧ (run_BestRunId run = "" → np_BestScore p = None ∧ np_TopCandidates p = [])
      ∧ (run_BestRunId run ≠ "" → np_BestScore p = Some (run_BestScore run) ∧ np_TopCandidates p = take 5 (run_CandidateRunIds run))
  | None => callbackURL = "" ∨ ¬ may_call whitelist target
  end.
Proof.
  intros run target. unfold Notifier_Notify. destruct (is_empty callbackURL) eqn:E; [left; by destruct callbackURL|]. fold run. fold target. cbv zeta.
  pose proof (validate_may_call target whitelist) as Hv. apply is_empty_false in E.
  destruct (validateCallbackURL _ _ _ target whitelist) as [[]| |]; [|right; by rewrite <- Hv..].
  cbn [np_RunID np_Status np_Error np_Metrics np_CreatedAtUnixMs np_StartedAtUnixMs np_EndedAtUnixMs np_BestRunID np_BestScore np_TopCandidates].
  destruct (is_empty (run_BestRunId run)) eqn:Eb; [apply is_empty_true in Eb; rewrite Eb|apply is_empty_false in Eb]; cbn [negb];
    split_and!; (done || by apply Hv).
Qed.
End Safety.
Section Retries.
Context (post : nat → Attempt).
Lemma try_from_spec remaining attempt l ok :
  try_from post baseDelay remaining attempt = (l, ok) →
  (1 ≤ length l ≤ S remaining)%nat ∧ l.*2 = post <$> seq attempt (length l) ∧ l.*1 = retry_delay baseDelay <$> seq attempt (length l)
  ∧ Forall (λ n, succeeded (post n) = false) (seq attempt (length l - 1))
  ∧ (if ok then succeeded (post (attempt + (length l - 1))%nat) = true
     else length l = S remaining ∧ Forall (λ n, succeeded (post n) = false) (seq attempt (length l))).
Proof.
  revert attempt l ok. induction remaining as [|remaining IH]; intros attempt l ok H; cbn [try_from] in H;
    destruct (succeeded (post attempt)) eqn:Es.
  1,3: injection H as <- <-; simpl; rewrite Nat.add_0_r; split_and!; try done; lia.
  - injection H as <- <-. simpl. split_and!; try done; try lia. by repeat constructor.
  - destruct (try_from post baseDelay remaining (S attempt)) as [l' ok'] eqn:E. injection H as <- <-.
    destruct (IH _ _ _ E) as (Hlen & H2 & H1 & Hf & Hok). csimpl. rewrite H1, H2.
    assert (Hn : (length l' - 0 = S (length l' - 1))%nat) by lia. split_and!; [lia|lia|done|done|..].
    + rewrite Hn. by constructor.
    + destruct ok'; [by replace (attempt + (length l' - 0))%nat with (S attempt + (length l' - 1))%nat by lia|].
      destruct Hok as [-> Hok]. split; [done|by constructor].
Qed.
(** a notification is tried until the first success, at most four times, in order, with pauses of one, two and four seconds between the attempts; it is given up
    only when all four have failed. *)
Theorem notification_retries l ok :
  Notifier_sendNotification true post = (l, ok) →
  (1 ≤ length l ≤ 4)%nat ∧ l.*2 = post <$> seq 0 (length l)
  ∧ l.*1 = take (length l) [0; Second; 2 * Second; 4 * Second]
  ∧ (ok = true ↔ ∃ n, (n < 4)%nat ∧ succeeded (post n) = true)
  ∧ (∀ n, (S n < length l)%nat → succeeded (post n) = false).
Proof.
  intros H. destruct (try_from_spec _ _ _ _ H) as (Hlen & H2 & H1 & Hf & Hok). unfold maxRetries in *. rewrite Forall_seq in Hf.
  split_and!; [lia|lia|done|..].
  - rewrite H1. destruct (length l) as [|[|[|[|[|]]]]]; try lia; reflexivity.
  - destruct ok; split; try done.
    + intros _. exists (length l - 1)%nat. split; [lia|done].
    + intros (n & Hn & Hs). destruct Hok as [Hl Hall]. rewrite Forall_seq in Hall. rewrite Hall in Hs; [done|lia].
  - intros n Hn. apply Hf. lia.
Qed.
End Retries.

(** * Concrete callbacks *)

Definition sample_host (h : string) (_ : string) : go URL := Ok (mkURL "https" h).
Definition resolves_to (ip : IP) (_ : string) : go (list IP) := Ok [ip].
Definition ip_name (ip : IP) : string := if bool_decide (ip = [169; 254; 169; 254]) then "169.254.169.254" else "other".
(** A loopback address other than [127.0.0.1] is not taken for one. *)
Example loopback_address_allowed :
  validateCallbackURL (sample_host "127.0.0.2") (resolves_to [127; 0; 0; 2]) ip_name "https://127.0.0.2/" [] = Ok tt.
Proof. vm_compute. reflexivity. Qed.
(** A name that resolves to the metadata address is refused, unless that address is on the list. *)
Example metadata_address :
  (∃ err, validateCallbackURL (sample_host "evil.example") (resolves_to [169; 254; 169; 254]) ip_name "https://evil.example/" [] = Fail err)
  ∧ validateCallbackURL (sample_host "evil.example") (resolves_to [169; 254; 169; 254]) ip_name "https://evil.example/" ["169.254.169.254"] = Ok tt.
Proof. split; [eexists|]; vm_compute; reflexivity. Qed.
Lemma notification_retries_witness :
  Notifier_sendNotification true (λ n, if (n <? 2)%nat then TransportFailed else Responded 204)
  = ([(0, TransportFailed); (Second, TransportFailed); (2 * Second, Responded 204)], true)
  ∧ ∃ n, (n < 4)%nat ∧ succeeded ((λ n, if (n <? 2)%nat then TransportFailed else Responded 204) n) = true.
Proof.
  assert (H : Notifier_sendNotification true (λ n, if (n <? 2)%nat then TransportFailed else Responded 204)
    = ([(0, TransportFailed); (Second, TransportFailed); (2 * Second, Responded 204)], true)) by (vm_compute; reflexivity).
  split; [done|]. destruct (notification_retries _ _ _ H) as (_ & _ & _ & Hok & _). by apply Hok.
Defined.
(** A resolver that knows one public and one private host. *)
Definition two_hosts (h : string) : go (list IP) :=
  if String.eqb h "ci.example" then Ok [[93; 184; 216; 34]; [38; 6; 40; 0; 2; 32; 0; 1; 2; 72; 24; 147; 37; 200; 25; 70]]
  else if String.eqb h "intra.example" then Ok [[192; 168; 1; 7]] else Fail "no such host".
Lemma two_hosts_resolve : ∀ host ips, two_hosts host = Ok ips → Forall address ips.
Proof.
  intros host ips. unfold two_hosts. destruct (String.eqb host "ci.example"); [|destruct (String.eqb host "intra.example"); [|done]];
    intros [= <-]; repeat constructor; simpl; auto; lia.
Qed.
Definition callback_env : Env := mkEnv "g" 5 0 (λ _, 0) (λ _, Fail "") (λ _, "") (λ _, []) (λ _, ([], [])) (λ _ _ l, l) [].
Definition finished_record : Record_ := new_record "a" None 5.
Lemma callback_safe_witness :
  may_call (sample_host "ci.example") two_hosts ip_name [] "https://ci.example/done/a"
  ∧ ¬ may_call (sample_host "intra.example") two_hosts ip_name [] "https://intra.example/done/a".
Proof.
  split.
  - pose proof (callback_safe (sample_host "ci.example") two_hosts ip_name two_hosts_resolve callback_env [] "https://ci.example/done/{run_id}" "s" finished_record None) as H.
    destruct (Notifier_Notify _ _ _ _ _ _ _ _ _) as [[[u s] p]|] eqn:E; [|vm_compute in E; discriminate E]. exact (proj1 (proj2 H)).
  - pose proof (callback_safe (sample_host "intra.example") two_hosts ip_name two_hosts_resolve callback_env [] "https://intra.example/done/{run_id}" "s" finished_record None) as H.
    destruct H as [H|H]; [discriminate H|exact H].
Defined.
