(* ===== verification/CalibrationServer.v ===== *)
(** Calibration from outside: the HTTP handlers of [internal/calibrationserver/http.go] and the commands of [cmd/simd/calib_cli.go]. *)
From S2P Require Import Prelude GoFloat Utils Policy Config Graph BatchSpec BrokerQueue ResourceManager RunMetrics RunStore EngineMetrics CalibrationData Calibrate CalibrationCheck CalibrationImport Server HttpServer.
From Stdlib Require Import SpecFloat.
#[local] Open Scope string_scope.
#[local] Open Scope list_scope.
#[local] Open Scope Z_scope.

(** * Requests *)

Record calibrateOptionsJSON := mkOptionsJSON { oj_Overwrite : string; oj_ConfidenceFloor : float64; oj_MinScaleFactor : float64; oj_MaxScaleFactor : float64 }.
Record calibrateHTTPRequest := mkCalibrateRequest {
  cq_ScenarioYAML : string;
  cq_ObservedFormat : string;
  cq_Observed : string;
  cq_PredictedRun : string;
  cq_SimDurationMs : Z;
  cq_Seeds : list Z;
  cq_AutoPredict : option bool;
  cq_CalibrateOptions : option calibrateOptionsJSON;
}.
Record validateOptionsJSON := mkValidateJSON { vj_RealTimeWorkload : bool; vj_ToleranceProfile : string; vj_Tolerances : string }.
Record validateHTTPRequest := mkValidateRequest {
  vq_ScenarioYAML : string;
  vq_ObservedFormat : string;
  vq_Observed : string;
  vq_SimDurationMs : Z;
  vq_Seeds : list Z;
  vq_ValidateOptions : option validateOptionsJSON;
}.
Record calibrateResponse := mkCalibrateResponse {
  cs_CalibratedScenarioYAML : string;
  cs_CalibrationReport : CalibrationReport;
  cs_Warnings : list string;
  cs_FieldChanges : list FieldChange;
  cs_AutoPredict : bool;
}.
Definition positive_or (x def : float64) : float64 := if fgt x f0 then x else def.
Definition calibrateOptionsFromJSON (j : option calibrateOptionsJSON) : CalibrateOptions :=
  let o := mkCalibrateOptions OverwriteWhenHigherConfidence None (f64_lit 2 10) (f64_lit 25 100) (f64_of_Z 4) in
  match j with
  | None => o
  | Some j =>
      let name := ToLower (TrimSpace (oj_Overwrite j)) in
      mkCalibrateOptions
        (if String.eqb name "never" then OverwriteNever else if String.eqb name "always" then OverwriteAlways else OverwriteWhenHigherConfidence)
        None (positive_or (oj_ConfidenceFloor j) (cal_ConfidenceFloor o)) (positive_or (oj_MinScaleFactor j) (cal_MinScaleFactor o))
        (positive_or (oj_MaxScaleFactor j) (cal_MaxScaleFactor o))
  end.
(** The messages with the prefixes of their kinds. *)
Definition report_messages (rep : CalibrationReport) : list string :=
  cr_Warnings rep ++ ((λ s, "ambiguous: " +:+ s) <$> cr_AmbiguousMappings rep)
  ++ ((λ s, "skipped_low_confidence: " +:+ s) <$> cr_SkippedLowConfidence rep).
(** [add]: trimmed, not empty, and once. *)
Definition add_warning (out : list string) (s : string) : list string :=
  let s := TrimSpace s in if is_empty s then out else if bool_decide (s ∈ out) then out else out ++ [s].
Definition mergeCalibrationReportWarnings (rep : CalibrationReport) : list string := foldl add_warning [] (report_messages rep).
Definition default_seeds (seeds : list Z) : list Z := match seeds with [] => [1; 2; 3] | _ => seeds end.
Definition default_duration (ms : Z) : Z := if ms <=? 0 then 10000 else ms.

(** * The handlers *)

Section Handlers.
(** The YAML library, the decoders of JSON, and the simulation. *)
Context (unmarshal : string → go Scenario) (marshal : Scenario → go string) (decode : string → string → go ObservedMetrics)
  (json_metrics : string → go (EngineRunMetrics * bool)) (json_run_metrics : string → go (option EngineRunMetrics))
  (json_tolerances : string → go (list (string * float64)))
  (RunScenarioForMetrics : Scenario → Duration → Z → bool → go EngineRunMetrics).
(** An error ends the request with the status [code] and the message after [prefix]. *)
Definition or_refuse {A B} (code : Z) (prefix : string) (m : go A) (k : A → reply Z B) : reply Z B :=
  match m with Ok a => k a | Fail err => Refuse code (prefix +:+ err) | Panic => Crash end.
Definition guard {B} (b : bool) (code : Z) (msg : string) (k : reply Z B) : reply Z B := if b then k else Refuse code msg.
(** Metrics alone, or in an envelope; [json_metrics] also says whether there is a map of services. *)
Definition predicted_run (payload : string) : option EngineRunMetrics :=
  let env := match json_run_metrics payload with Ok (Some rm) => Some rm | _ => None end in
  match json_metrics payload with
  | Ok (rm, has_services) =>
      if (0 <? em_TotalRequests rm) || has_services || (0 <? len (em_EndpointRequestStats rm)) then Some rm else env
  | _ => env
  end.
Definition handleCalibrate (method : Method) (body : go string) (json_request : string → go calibrateHTTPRequest) : reply Z calibrateResponse :=
  guard (bool_decide (method = POST)) StatusMethodNotAllowed "method not allowed" (
  match body with Fail _ => Refuse StatusBadRequest "read body failed" | Panic => Crash | Ok body =>
  or_refuse StatusBadRequest "invalid JSON: " (json_request body) (λ req,
  guard (negb (is_empty (TrimSpace (cq_ScenarioYAML req)))) StatusBadRequest "scenario_yaml is required" (
  guard (negb (is_empty (cq_Observed req))) StatusBadRequest "observed is required" (
  or_refuse StatusBadRequest "scenario_yaml: " (ParseScenarioYAML unmarshal (cq_ScenarioYAML req)) (λ scenario,
  or_refuse StatusBadRequest "" (decode (cq_ObservedFormat req) (cq_Observed req)) (λ obs,
  let opts := calibrateOptionsFromJSON (cq_CalibrateOptions req) in
  let auto := default true (cq_AutoPredict req) in
  let baseline := is_empty (cq_PredictedRun req) && auto in
  or_refuse StatusBadRequest "auto baseline prediction: "
    (if negb (is_empty (cq_PredictedRun req)) then Ok (predicted_run (cq_PredictedRun req))
     else if auto then RunBaselinePredictedRun RunScenarioForMetrics (Some scenario) (default_duration (cq_SimDurationMs req))
                         (default_seeds (cq_Seeds req)) false
     else Ok None) (λ pred,
  or_refuse StatusBadRequest "" (CalibrateScenario marshal unmarshal (Some scenario) (Some obs) (Some (opts <| cal_PredictedRun := pred |>))) (λ '(out, rep),
  or_refuse StatusInternalServerError "marshal calibrated scenario: " (marshal out) (λ yaml,
  Reply (mkCalibrateResponse yaml rep (mergeCalibrationReportWarnings rep) (cr_Changes rep) baseline)))))))))
  end).
Definition handleValidate (method : Method) (body : go string) (json_request : string → go validateHTTPRequest) : reply Z ValidationReport :=
  guard (bool_decide (method = POST)) StatusMethodNotAllowed "method not allowed" (
  match body with Fail _ => Refuse StatusBadRequest "read body failed" | Panic => Crash | Ok body =>
  or_refuse StatusBadRequest "invalid JSON: " (json_request body) (λ req,
  guard (negb (is_empty (TrimSpace (vq_ScenarioYAML req)))) StatusBadRequest "scenario_yaml is required" (
  guard (negb (is_empty (vq_Observed req))) StatusBadRequest "observed is required" (
  or_refuse StatusBadRequest "scenario_yaml: " (ParseScenarioYAML unmarshal (vq_ScenarioYAML req)) (λ scenario,
  or_refuse StatusBadRequest "" (decode (vq_ObservedFormat req) (vq_Observed req)) (λ obs,
  or_refuse StatusBadRequest ""
    (match vq_ValidateOptions req with
     | None => Ok DefaultValidationTolerances
     | Some o =>
         let base := if is_empty (TrimSpace (vj_ToleranceProfile o)) then DefaultValidationTolerances
                     else ResolveToleranceProfile (TrimSpace (vj_ToleranceProfile o)) in
         ApplyToleranceJSON json_tolerances (Some base) (vj_Tolerances o)
     end) (λ tol,
  let realTime := match vq_ValidateOptions req with Some o => vj_RealTimeWorkload o | None => false end in
  or_refuse StatusBadRequest ""
    (ValidateScenario_calibration RunScenarioForMetrics (Some scenario) (Some obs) (default_duration (vq_SimDurationMs req))
       (Some (mkValidateOptions (default_seeds (vq_Seeds req)) realTime (Some tol) false)))
    Reply))))))
  end).

(** * The commands *)

(** [strings.Split] at commas. *)
Fixpoint split_commas (word s : string) : list string :=
  match s with
  | EmptyString => [word]
  | String c s => if Ascii.eqb c "," then word :: split_commas EmptyString s else split_commas (word +:+ String c EmptyString) s
  end.
Fixpoint parse_seeds (parts : list string) : go (list Z) :=
  match parts with
  | [] => Ok []
  | p :: parts =>
      let p := TrimSpace p in
      if is_empty p then parse_seeds parts
      else
        match ParseInt 64 p with
        | None => Fail ("seeds: " +:+ "strconv.ParseInt: parsing " +:+ Quote p +:+ ": invalid syntax")
        | Some n => let! l := parse_seeds parts in Ok (n :: l)
        end
  end.
Definition parseSeedList (s : string) : go (list Z) :=
  let s := TrimSpace s in
  if is_empty s then Ok [1]
  else let! l := parse_seeds (split_commas EmptyString s) in Ok (match l with [] => [1] | _ => l end).
(** The flags of the two commands, parsed. *)
Record ValidateFlags := mkValidateFlags {
  vf_scenario : string;
  vf_observed : string;
  vf_format : string;
  vf_simMs : Z;
  vf_seeds : string;
  vf_profile : string;
  vf_tolerances : string;
  vf_realtime : bool;
}.
Record CalibrateFlags := mkCalibrateFlags {
  cf_scenario : string;
  cf_observed : string;
  cf_format : string;
  cf_out : string;
  cf_predicted : string;
  cf_simMs : Z;
  cf_seeds : string;
  cf_auto : bool;
}.
(** [os.ReadFile], and the file that [os.WriteFile] cannot write. *)
Context (ReadFile : string → go string) (WriteFile : string → string → option string).
(** A command ends with an exit code; the first error is printed. *)
Inductive exit_of (A : Type) := Done (code : Z) (output : A) | Exit (code : Z) (message : string) | Aborted.
Arguments Done {A} code output.
Arguments Exit {A} code message.
Arguments Aborted {A}.
Definition or_exit {A B} (m : go A) (k : A → exit_of B) : exit_of B :=
  match m with Ok a => k a | Fail err => Exit 1 err | Panic => Aborted end.
(** [enc.Encode] of what a command prints: the error, if it has one (a report with a number that JSON does not have). *)
Context (Encode_validation : ValidationReport → option string) (Encode_calibration : CalibrationReport → option string).
Definition runValidateCLI (flags : go ValidateFlags) : exit_of ValidationReport :=
  match flags with Fail err => Exit 2 err | Panic => Aborted | Ok f =>
  if is_empty (vf_scenario f) || is_empty (vf_observed f) then Exit 2 "validate: -scenario and -observed are required"
  else
  or_exit (ReadFile (vf_scenario f)) (λ yaml,
  or_exit (ReadFile (vf_observed f)) (λ observed,
  or_exit (ParseScenarioYAML unmarshal yaml) (λ sc,
  or_exit (decode (vf_format f) observed) (λ obs,
  or_exit (parseSeedList (vf_seeds f)) (λ sd,
  let base := if is_empty (TrimSpace (vf_profile f)) then DefaultValidationTolerances else ResolveToleranceProfile (vf_profile f) in
  or_exit (if is_empty (TrimSpace (vf_tolerances f)) then Ok base
           else let! b := ReadFile (vf_tolerances f) in ApplyToleranceJSON json_tolerances (Some base) b) (λ tol,
  or_exit (ValidateScenario_calibration RunScenarioForMetrics (Some sc) (Some obs) (vf_simMs f)
             (Some (mkValidateOptions sd (vf_realtime f) (Some tol) false))) (λ rep,
  match Encode_validation rep with
  | Some err => Exit 1 err
  | None => Done (if vr_Pass rep then 0 else 3) rep
  end)))))))
  end.
Definition mergeCalibCLIWarnings (rep : CalibrationReport) : list string := report_messages rep.
(** The output of the calibration: the report, its warnings, and the text written to the file. *)
Definition runCalibrateCLI (flags : go CalibrateFlags) : exit_of (CalibrationReport * list string * string) :=
  match flags with Fail err => Exit 2 err | Panic => Aborted | Ok f =>
  if is_empty (cf_scenario f) || is_empty (cf_observed f) || is_empty (cf_out f)
  then Exit 2 "calibrate: -scenario, -observed, and -out are required"
  else
  or_exit (ReadFile (cf_scenario f)) (λ yaml,
  or_exit (ReadFile (cf_observed f)) (λ observed,
  or_exit (ParseScenarioYAML unmarshal yaml) (λ sc,
  or_exit (decode (cf_format f) observed) (λ obs,
  or_exit (if negb (is_empty (cf_predicted f)) then let! pb := ReadFile (cf_predicted f) in Ok (predicted_run pb)
           else if cf_auto f then let! sd := parseSeedList (cf_seeds f) in
             RunBaselinePredictedRun RunScenarioForMetrics (Some sc) (cf_simMs f) sd false
           else Ok None) (λ pred,
  or_exit (CalibrateScenario marshal unmarshal (Some sc) (Some obs)
             (Some (mkCalibrateOptions OverwriteWhenHigherConfidence pred (f64_lit 2 10) (f64_lit 25 100) (f64_of_Z 4)))) (λ '(out, rep),
  or_exit (marshal out) (λ text,
  match WriteFile (cf_out f) text with
  | Some err => Exit 1 err
  | None =>
      match Encode_calibration rep with
      | Some err => Exit 1 err
      | None => Done 0 (rep, mergeCalibCLIWarnings rep, text)
      end
  end)))))))
  end.
End Handlers.
Arguments Done {A} code output.
Arguments Exit {A} code message.
Arguments Aborted {A}.
