(* ===== verification/CalibrationServerSpec.v ===== *)
(** The command line and the HTTP server give the same calibration. *)
From S2P Require Import Prelude GoFloat Utils Policy Config Graph BatchSpec BrokerQueue ResourceManager RunMetrics RunStore EngineMetrics CalibrationData Calibrate CalibrationCheck CalibrationImport CalibrationCheckSpec Limits Server HttpServer CalibrationServer.
From Stdlib Require Import SpecFloat.
#[local] Open Scope string_scope.
#[local] Open Scope list_scope.
#[local] Open Scope Z_scope.

(** * Trimming *)

Definition first_space (s : string) : bool := match s with String c _ => is_space c | EmptyString => false end.
Lemma trim_left_first s : first_space (TrimLeft s) = false.
Proof. induction s as [|c s IH]; [done|]. simpl. by destruct (is_space c) eqn:E. Qed.
Lemma trim_left_id s : first_space s = false → TrimLeft s = s.
Proof. destruct s as [|c s]; [done|]. simpl. by intros ->. Qed.
Lemma trim_right_first s : first_space s = false → first_space (TrimRight s) = false.
Proof. destruct s as [|c s]; [done|]. simpl. intros H. destruct (TrimRight s); simpl; by rewrite ?H. Qed.
Lemma trim_right_idem s : TrimRight (TrimRight s) = TrimRight s.
Proof.
  induction s as [|c s IH]; [done|]. simpl. destruct (TrimRight s) as [|d t] eqn:E.
  - destruct (is_space c) eqn:Ec; [done|]. simpl. by rewrite Ec.
  - change (TrimRight (String c (String d t))) with
      (match TrimRight (String d t) with EmptyString => if is_space c then EmptyString else String c EmptyString | t => String c t end).
    by rewrite IH.
Qed.
Lemma trim_space_idem s : TrimSpace (TrimSpace s) = TrimSpace s.
Proof.
  unfold TrimSpace. rewrite (trim_left_id (TrimRight _)); [apply trim_right_idem|]. apply trim_right_first, trim_left_first.
Qed.

(** * Two ways to ask *)

(** A request and a command with the same outcome: both succeed with related results, or the server refuses where the command
    exits with 1, or both panic. Where the command cannot print the result, it exits with 1. *)
Definition same_outcome {A B} (encode : A → option string) (R : A → Z → B → Prop) (x : reply Z A) (y : exit_of B) : Prop :=
  match x, y with
  | Reply a, Done code b => encode a = None ∧ R a code b
  | Reply a, Exit code err => encode a = Some err ∧ code = 1
  | Refuse status _, Exit code _ => (status = StatusBadRequest ∨ status = StatusInternalServerError) ∧ code = 1
  | Crash, Aborted => True
  | _, _ => False
  end.
Lemma same_step {A B C} (encode : B → option string) (R : B → Z → C → Prop) status prefix (m : go A) k k' :
  status = StatusBadRequest ∨ status = StatusInternalServerError → (∀ a, m = Ok a → same_outcome encode R (k a) (k' a)) →
  same_outcome encode R (or_refuse status prefix m k) (or_exit m k').
Proof. intros Hst H. destruct m; simpl; auto. Qed.
Section Agree.
Context (unmarshal : string → go Scenario) (marshal : Scenario → go string) (decode : string → string → go ObservedMetrics)
  (json_metrics : string → go (EngineRunMetrics * bool)) (json_run_metrics : string → go (option EngineRunMetrics))
  (json_tolerances : string → go (list (string * float64)))
  (RunScenarioForMetrics : Scenario → Duration → Z → bool → go EngineRunMetrics)
  (ReadFile : string → go string) (WriteFile : string → string → option string)
  (Encode_validation : ValidationReport → option string) (Encode_calibration : CalibrationReport → option string).
(** The command reads from files what the request carries. *)
Record asks_validation (req : validateHTTPRequest) (o : validateOptionsJSON) (f : ValidateFlags) : Prop := {
  av_options : vq_ValidateOptions req = Some o;
  av_paths : is_empty (vf_scenario f) = false ∧ is_empty (vf_observed f) = false;
  av_scenario : ReadFile (vf_scenario f) = Ok (vq_ScenarioYAML req) ∧ is_empty (TrimSpace (vq_ScenarioYAML req)) = false;
  av_observed : ReadFile (vf_observed f) = Ok (vq_Observed req) ∧ is_empty (vq_Observed req) = false;
  av_format : vf_format f = vq_ObservedFormat req;
  av_duration : vf_simMs f = vq_SimDurationMs req;
  av_seeds : parseSeedList (vf_seeds f) = Ok (vq_Seeds req) ∧ vq_Seeds req ≠ [];
  av_profile : vf_profile f = vj_ToleranceProfile o;
  av_tolerances : if is_empty (TrimSpace (vf_tolerances f)) then vj_Tolerances o = "" else ReadFile (vf_tolerances f) = Ok (vj_Tolerances o);
  av_realtime : vf_realtime f = vj_RealTimeWorkload o;
}.
Record asks_calibration (req : calibrateHTTPRequest) (f : CalibrateFlags) : Prop := {
  ac_options : cq_CalibrateOptions req = None;
  ac_paths : is_empty (cf_scenario f) = false ∧ is_empty (cf_observed f) = false ∧ is_empty (cf_out f) = false;
  ac_scenario : ReadFile (cf_scenario f) = Ok (cq_ScenarioYAML req) ∧ is_empty (TrimSpace (cq_ScenarioYAML req)) = false;
  ac_observed : ReadFile (cf_observed f) = Ok (cq_Observed req) ∧ is_empty (cq_Observed req) = false;
  ac_format : cf_format f = cq_ObservedFormat req;
  ac_duration : cf_simMs f = cq_SimDurationMs req;
  ac_seeds : parseSeedList (cf_seeds f) = Ok (cq_Seeds req) ∧ cq_Seeds req ≠ [];
  ac_predicted : if is_empty (cf_predicted f) then cq_PredictedRun req = ""
                 else ReadFile (cf_predicted f) = Ok (cq_PredictedRun req) ∧ is_empty (cq_PredictedRun req) = false;
  ac_auto : cq_AutoPredict req = Some (cf_auto f);
  ac_write : ∀ text, WriteFile (cf_out f) text = None;
}.
Lemma sim_duration_default ms : sim_duration (default_duration ms) = sim_duration ms.
Proof. unfold sim_duration, default_duration. by repeat case_match; try lia. Qed.
Lemma seeds_default l : l ≠ [] → default_seeds l = l.
Proof. by destruct l. Qed.
Lemma resolve_trim p : ResolveToleranceProfile (TrimSpace p) = ResolveToleranceProfile p.
Proof. unfold ResolveToleranceProfile. by rewrite trim_space_idem. Qed.
Lemma merged_warnings l : foldl add_warning [] l = dedupeStrings l.
Proof.
  enough (H : ∀ acc, foldl add_warning acc l = foldl (λ out s, let s := TrimSpace s in
    if is_empty s || bool_decide (s ∈ out) then out else out ++ [s]) acc l) by apply H.
  induction l as [|s l IH]; intros acc; [done|]. cbn [foldl]. rewrite IH. f_equal.
  unfold add_warning. cbv zeta. by destruct (is_empty (TrimSpace s)).
Qed.
Lemma validate_agrees req o f body :
  asks_validation req o f →
  same_outcome Encode_validation (λ rep code rep', rep' = rep ∧ code = if vr_Pass rep then 0 else 3)
    (handleValidate unmarshal decode json_tolerances RunScenarioForMetrics POST (Ok body) (λ _, Ok req))
    (runValidateCLI unmarshal decode json_tolerances RunScenarioForMetrics ReadFile Encode_validation (Ok f)).
Proof.
  intros [Ho [Hp1 Hp2] [Hs1 Hs2] [Hb1 Hb2] Hf Hd [Hse Hne] Hpr Ht Hr]. unfold handleValidate, runValidateCLI.
  rewrite bool_decide_true by done. cbn [guard or_refuse]. rewrite Hs2, Hb2, Hp1, Hp2, Hs1, Hb1, Hse, Hf, Hd, Hpr, Hr, Ho. cbn [negb orb or_exit guard].
  apply same_step; [by left|]. intros sc _. apply same_step; [by left|]. intros obs _.
  rewrite resolve_trim.
  set (base := if is_empty (TrimSpace (vj_ToleranceProfile o)) then _ else _).
  assert (Et : (if is_empty (TrimSpace (vf_tolerances f)) then Ok base
    else let! b := ReadFile (vf_tolerances f) in ApplyToleranceJSON json_tolerances (Some base) b)
    = ApplyToleranceJSON json_tolerances (Some base) (vj_Tolerances o)).
  { destruct (is_empty (TrimSpace (vf_tolerances f))); rewrite Ht; done. }
  rewrite Et. apply same_step; [by left|]. intros tol _. unfold ValidateScenario_calibration. rewrite sim_duration_default, seeds_default by done.
  apply same_step; [by left|]. intros rep _. by destruct (Encode_validation rep) eqn:E.
Qed.
Lemma calibrate_agrees req f body :
  asks_calibration req f →
  same_outcome (Encode_calibration ∘ cs_CalibrationReport) (λ resp code out, code = 0 ∧ out.1.1 = cs_CalibrationReport resp ∧ out.2 = cs_CalibratedScenarioYAML resp
      ∧ cs_Warnings resp = dedupeStrings out.1.2)
    (handleCalibrate unmarshal marshal decode json_metrics json_run_metrics RunScenarioForMetrics POST (Ok body) (λ _, Ok req))
    (runCalibrateCLI unmarshal marshal decode json_metrics json_run_metrics RunScenarioForMetrics ReadFile WriteFile Encode_calibration (Ok f)).
Proof.
  intros [Ho (Hp1 & Hp2 & Hp3) [Hs1 Hs2] [Hb1 Hb2] Hf Hd [Hse Hne] Hpr Ha Hw]. unfold handleCalibrate, runCalibrateCLI.
  rewrite bool_decide_true by done. cbn [guard or_refuse]. rewrite Hs2, Hb2, Hp1, Hp2, Hp3, Hs1, Hb1, Hse, Hf, Hd, Ho, Ha.
  cbn [negb orb or_exit guard default calibrateOptionsFromJSON].
  apply same_step; [by left|]. intros sc _. apply same_step; [by left|]. intros obs _.
  match goal with |- same_outcome _ _ (or_refuse _ _ ?m _) (or_exit ?m' _) => assert (Ep : m' = m) end.
  { destruct (is_empty (cf_predicted f)).
    - rewrite Hpr. cbn. destruct (cf_auto f); [|done]. unfold RunBaselinePredictedRun.
      rewrite sim_duration_default, seeds_default by done. done.
    - destruct Hpr as [-> ->]. done. }
  rewrite Ep. apply same_step; [by left|]. intros pred _. apply same_step; [by left|]. intros [out rep] _.
  apply same_step; [by right|]. intros yaml _. rewrite Hw. destruct (Encode_calibration rep) eqn:E; cbn; split_and!; try done.
  apply merged_warnings.
Qed.
(** C29: asking over HTTP or with the command is the same. A command whose files hold what a request carries has the same outcome: the same validation report, with exit code 0 exactly when it
    passes and 3 otherwise; the same calibration report and the same calibrated scenario, with the same warnings up to repetitions; and where the server refuses, or the command cannot print the result, the command exits with 1. *)
Theorem calibration_cli_http vreq vopts vf creq cf body :
  asks_validation vreq vopts vf → asks_calibration creq cf →
  same_outcome Encode_validation (λ rep code rep', rep' = rep ∧ code = if vr_Pass rep then 0 else 3)
    (handleValidate unmarshal decode json_tolerances RunScenarioForMetrics POST (Ok body) (λ _, Ok vreq))
    (runValidateCLI unmarshal decode json_tolerances RunScenarioForMetrics ReadFile Encode_validation (Ok vf))
  ∧ same_outcome (Encode_calibration ∘ cs_CalibrationReport) (λ resp code out, code = 0 ∧ out.1.1 = cs_CalibrationReport resp ∧ out.2 = cs_CalibratedScenarioYAML resp
      ∧ cs_Warnings resp = dedupeStrings out.1.2)
    (handleCalibrate unmarshal marshal decode json_metrics json_run_metrics RunScenarioForMetrics POST (Ok body) (λ _, Ok creq))
    (runCalibrateCLI unmarshal marshal decode json_metrics json_run_metrics RunScenarioForMetrics ReadFile WriteFile Encode_calibration (Ok cf)).
Proof. intros Hv Hc. split; [by eapply validate_agrees|by apply calibrate_agrees]. Qed.
End Agree.

(** * A concrete pair *)

Definition sample_files (path : string) : go string := Ok "text".
Definition validation_request : validateHTTPRequest := mkValidateRequest "text" "" "text" 10000 [1; 2; 3] (Some (mkValidateJSON false "" "")).
Definition validation_flags : ValidateFlags := mkValidateFlags "s.yaml" "o.json" "" 10000 "1,2,3" "" "" false.
Definition calibration_request : calibrateHTTPRequest := mkCalibrateRequest "text" "" "text" "" 10000 [1; 2; 3] (Some false) None.
Definition calibration_flags : CalibrateFlags := mkCalibrateFlags "s.yaml" "o.json" "" "out.yaml" "" 10000 "1,2,3" false.
Lemma sample_validation : asks_validation sample_files validation_request (mkValidateJSON false "" "") validation_flags.
Proof. split; try reflexivity; split; try reflexivity; discriminate. Qed.
Lemma sample_calibration : asks_calibration sample_files (λ _ _, None) calibration_request calibration_flags.
Proof. split; try reflexivity; [split_and!; reflexivity|..]; split; try reflexivity; discriminate. Qed.
Lemma calibration_cli_http_witness :
  same_outcome (λ _, None) (λ rep code rep', rep' = rep ∧ code = if vr_Pass rep then 0 else 3)
    (handleValidate sample_yaml (λ _ _, Ok golden_observations) (λ _, Ok []) (λ _ _ _ _, Ok golden_run) POST (Ok "") (λ _, Ok validation_request))
    (runValidateCLI sample_yaml (λ _ _, Ok golden_observations) (λ _, Ok []) (λ _ _ _ _, Ok golden_run) sample_files (λ _, None) (Ok validation_flags)).
Proof.
  exact (proj1 (calibration_cli_http sample_yaml (λ _, Ok "text") (λ _ _, Ok golden_observations) (λ _, Fail "") (λ _, Fail "") (λ _, Ok [])
    (λ _ _ _ _, Ok golden_run) sample_files (λ _ _, None) (λ _, None) (λ _, None) validation_request (mkValidateJSON false "" "") validation_flags
    calibration_request calibration_flags "" sample_validation sample_calibration)).
Defined.
